(* ===== verification/_CoqProject ===== *)
-Q . S2P
Prelude.v
Rmap.v
SwapSpace.v
SwapPool.v
Clock.v
Clist.v
Descrip.v
Cred.v
Sched.v
Signal.v
Sigcall.v
Sigsleep.v
Sleepstop.v
Schedproc.v
Sigframe.v
Hsx.v
SwapRam.v
SwapEvac.v
Bufqueue.v
Bufcache.v
Bufproc.v
Fsalloc.v
Bufdev.v
Fsmap.v
Fstrunc.v
Frdwr.v
Icache.v
Icacheproc.v
Finode.v
Fattr.v
Ialloc.v
Fstidy.v
Fsclient.v
