(* ===== verification/Prelude.v ===== *)
(** * DiscoBSD for the RP2040: a verification development for the kernel

    ** The program

    DiscoBSD is a 2.11BSD kernel and userland for microcontrollers. The
    rp2040 port runs one user process at a time in a fixed window of RAM and
    swaps the others to a flash unit behind a compressed pool in RAM. The
    development models the kernel's own logic on that port, mostly
    [src/sys/kern] and [src/sys/arch/rp2040/rp2040], in C files of no
    third-party origin. The parts and how they call each other:

    - resource maps ([subr_rmap.c]) hand out block ranges of the swap unit;
      the swapper, exec and the evacuation below take and return them;
    - the compressed tier ([swapram.c]) stores swapped images in a pool of
      bytes ([swapram_pool.c]), expands them with the decoder
      ([hsx_decoder.c], which [hsx_stream.c] also uses for packed programs)
      and moves them to the swap unit when the pool is needed for a large
      process;
    - the clock interrupt ([kern_clock.c]) runs callouts, which time out
      sleeps; the scheduler ([kern_synch.c]) keeps the run queue and the
      sleep queues, and signals ([kern_sig.c], [kern_sig2.c]) stop, continue
      and interrupt processes through it;
    - character lists ([tty_subr.c]) queue terminal input and output;
    - the buffer cache ([ufs_bio.c]) keeps blocks of the devices in four
      buffers on free lists and puts processes to sleep on busy ones;
    - the file system keeps its free blocks in a list threaded through the
      blocks themselves ([ufs_alloc.c]), finds the blocks of a file through
      trees of indirect blocks ([ufs_bmap.c]), cuts files and keeps their
      inodes in a table ([ufs_inode.c]), writes to them ([sys_inode.c]) and
      changes their attributes ([ufs_fio.c], [ufs_syscalls.c]), all through
      the buffer cache;
    - descriptors ([kern_descrip.c]) share open files between processes, and
      credentials ([kern_prot.c], [kern_prot2.c], [ufs_fio.c]) decide what a
      process may do.

    ** The files

    - [Prelude]: outcomes of kernel code ([Ok], [Panic], [Fault]), array
      accesses, machine integers, shared arithmetic, hints and tactics.
    - [Rmap]: [malloc], [mfree], [malloc3_contiguous] and
      [malloc3_contiguous_next] on the descriptor array itself.
    - [SwapSpace]: the swap map of the ports, its sizing, the steps of the
      programs that use it, and the cursor kept over a reset.
    - [SwapPool]: the byte allocator of the pool.
    - [Hsx]: the decoder, the packed-stream loop and CRC-32, with a
      bit-level reference decoder.
    - [SwapRam]: images and spools in the pool, with the encoder as an
      interface ([Encoder], [EncoderSpec]) and an abstract store that the
      tier refines.
    - [SwapEvac]: evacuation to flash and the SMALL and LARGE epochs.
    - [Clock]: callouts, [softclock], [hardclock] and the tick conversions.
    - [Clist]: the block lists of characters, with the free list and the
      pointer arithmetic on block addresses.
    - [Descrip]: the open-file table, descriptor operations, and their use by
      open, pipe, fork, exec and exit, with file operations as an interface.
    - [Cred]: user and group identities, groups and file access.
    - [Sched]: the run queue, sleep queues, priorities, sleeping, waking,
      switching and the once-a-second pass.
    - [Signal]: posting and taking signals on top of [Sched]: [psignal],
      [kill], [issignal] and [CURSIG].
    - [Sigcall]: the signal system calls, delivery, signal frames and what a
      fault, fork, exec and exit do to signals, as events with an invariant.
    - [Sigsleep]: [tsleep] with the real [CURSIG], and the loop of [sigwait].
    - [Sleepstop]: every [tsleep] with that [CURSIG] keeps the queues, or is
      the panic that [Sigsleep] shows.
    - [Schedproc]: the machine that puts [Sched], [Signal], [Sigcall] and
      [Clock] together: the swapper ([vm_sched.c], [vm_swap.c]), [newproc],
      [exit] and [wait1], [selwakeup], [ptrace] and the rest of what changes
      the process table and its queues, as events from boot on.
    - [Sigframe]: what [sendsig] stores and [sigreturn] takes back.

    - [Bufqueue]: the linked lists of free buffers, on their links.
    - [Bufcache]: every operation of [ufs_bio.c] on headers, links and blocks,
      with the block drivers as the interface [Disk].
    - [Bufproc]: processes that share the cache, sleep in it and are woken.
    - [Bufdev]: the cache as a [BufDev] that meets [BufSpec] on a device that
      does not fail, so that the file-system theorems hold on it.
    - [Fsalloc]: the buffer cache as an interface ([BufDev], [BufSpec]), the
      superblock, [balloc] and [free].
    - [Fsmap]: [bmap], and the trees of blocks a file stands for.
    - [Fstrunc]: [itrunc], [indirtrunc], [iupdat].
    - [Frdwr]: the write path of [rwip] for regular files, and the bytes of a
      file.
    - [Icache]: the inode table ([ihinit], [iget], [igrab], [irele], [iput],
      [iflush]), with its free list on the links, and [ifree]; in the layout of
      the kernels with two mounts (PICOCALC).
    - [Icacheproc]: processes that share the table, sleep on locked inodes and
      are woken.
    - [Finode]: inodes in their blocks on the device: written, read, released.
    - [Fattr]: [ufs_setattr], [chmod1] and [chown1], with the credentials of
      [Cred].
    - [Ialloc]: [ialloc], and the scan that refills the list of free inodes.
    - [Fstidy]: what a whole file system holds, in core and on the device, the
      invariant [tidy_but] of it, and the operations of the table and [ialloc]
      that keep it.
    - [Fsclient]: system calls as requests of a client, and the invariant over
      any sequence of them.

    ** How code becomes definitions

    State is passed explicitly; a handler returns [Ok] of its results and
    the new state, [Panic] for a call of [panic], and [Fault] for an access
    outside an object, so a theorem that an operation returns [Ok] is a
    statement of memory safety as well. Integers are [Z] with every
    truncation written ([u32], [u16], [u8], [trunc fw] for the fields of a
    resource map, 16 bits on the rp2040). Pointers into an array are
    indices; a shared array is one list that the operations thread. Loops
    that are not structural take fuel: the length of the array walked, the
    bytes of room (the decoder), the bytes of input plus three
    (the encoder), the number of processes plus one ([wakeup]), of bits
    of a signal word plus one ([issignal], [execsigs]) or of its bits
    ([ffs]), the free numbers of the superblock ([balloc], [ialloc]), the bytes left
    (a write), the blocks of inodes (the scan of [ialloc], which refills its
    list once), the mounts ([iget]), the number of buffers plus one
    (the loops of the buffer cache); the theorems show that the fuel is enough, because
    running out is [Fault]. A context switch ends an operation, and what
    follows the sleep is an operation of its own.

    ** What the theorems show

    - Resource maps and swap space: first fit and next fit take one free run
      and nothing else and fail only when no run is large enough; freeing
      coalesces; freeing undoes allocating; with at most 27 live runs no
      space is ever lost, which is the argument for SMAPSIZ; the unit is
      always partitioned and no two live runs share an erase sector.
    - The pool and the tier: allocation and release of the pool; the tier
      refines a plain store for any client within its rights, so an image
      comes back byte for byte; evacuation is all or none; the pool and a
      large process never own the pool's bytes together; a request for the
      LARGE window is answered.
    - The decoder: it computes the reference decoding on every input, inside
      its buffers; the CRC is the bitwise one.
    - The clock: a callout fires at its tick and not before; [softclock]
      terminates and runs exactly what is due; time advances exactly.
    - Character lists: they refine byte queues; moving between lists loses
      nothing; the free list holds every block.
    - Descriptors: the reference counts of the open-file table are the
      number of descriptors over any run of system calls by any processes.
    - Credentials: identities stay within the ones a process was given
      unless it is root; group sets; file access.
    - Scheduling: [wakeup] wakes the sleepers of its channel, those on
      [runout] just when it tells the swapper, and nobody else; [swtch] picks
      the best. Over any run of the machine of [Schedproc] from boot, with
      signals, timeouts, swapping, fork and exit, every process is on the
      queue its state says, so that none is lost, and every next event
      returns, but for one kind of sleep that can panic in [wakeup].
    - Signals: the words [psignal] consults always agree with the actions a
      process set, SIGKILL and SIGSTOP are never held, caught or ignored,
      and posting a signal keeps the scheduler's queues. [issignal] takes the lowest signal
      that matters; SIGKILL cannot be escaped; a handled signal gives back
      registers and mask; an interrupted sleep leaves the queues alone.

    - The buffer cache: it is transparent, and a flush leaves the device as
      the readers saw it; with failing transfers a flush returns 0 only if
      nothing was dropped; with any number of processes the lists and the
      holders partition the buffers and no wakeup is lost; one block has one
      buffer, except after a sleep inside [getnewbuf].
    - The file system: the free list is a stack of block numbers, whatever
      its chunks; [bmap] reads and extends the map of a file and nothing
      else; [itrunc] cuts it at the new length and loses or doubles no
      block, with no more buffers than the machine has. A write puts its
      bytes where it should and changes no other byte of the file or of the
      device. Processes that share the inode table lose neither references
      nor wakeups and never have an inode in two slots. A caller that is not
      root changes attributes within its rights only; the size and times are
      checked in part by the calls above [ufs_setattr], so the statement is of
      both. The refill of [ialloc]
      lists free inodes, and [ialloc] gives one if there is one. Over any
      sequence of lookups, releases, files made, written, cut, linked and
      unlinked, a tidy file system stays tidy: every block is in one file or
      free once, no other file changes, and deleted files give back their
      blocks and their inode.

    Some theorems state what the code does where it is not what it means to
    do; the manifest lists them as findings.

    ** Assumptions

    Named hypotheses stand for code that is not modelled: the vendored
    heatshrink encoder ([EncoderSpec]: its output decodes to its input and
    fits the documented worst case), the file operations behind a descriptor
    ([FileOps]), the block drivers ([Disk], which finish a transfer before they
    return, with [DiskSpec] and [DiskFine] for what they store), the buffer
    cache without transfer errors under the file system ([BufSpec], met by
    [Bufdev]), transfers of the swap unit that do not fail, and callers
    that keep to their rights (each theorem states which). For the machine of
    [Schedproc] these are the guards of [machine_allowed]: only the swapper
    waits on [runout], a sleep with a timeout finds a free callout, what is
    swapped in or off is not in memory, [newproc] finds the parent as it left
    it, the process table stays a tree under [newproc], [exit] and [wait], and
    a process that exits is on its hash chain and is not process 1. Interrupts are
    not interleaved inside an operation that runs at raised priority; the
    sleeps inside a turn of the swapper are not interleaved.

    ** Not modelled

    The userland ([bin], [usr.bin], [usr.sbin], [lib], [games], [libexec]),
    the vendored STM32 HAL and heatshrink sources, board drivers and USB
    (hardware registers), assembly, boot and the reporting of faults, and the tools,
    tests and documents. Of the kernel: path lookup, directories and
    their entries ([ufs_namei.c], [direnter], and with them the calls of
    [ufs_syscalls.c] above the inode), the name cache, mounting; reading of
    files (the read-ahead is not in [BufDev]), synchronous writes, devices and
    advisory locks ([sys_inode.c]); a failed write inside [bmap] with
    B_SYNC; the terminal driver above character lists ([tty.c]),
    executable formats, the memory of processes, [vfork], the search for a
    pid in [newproc], core images, the requests of [ptrace] (what the tracer
    does to a signal is an argument), time and resource system calls beyond
    [nice] and the real-time timer, the meters of virtual memory, sysctl, and
    the interpreter of the console. The counters of [hardclock] are unbounded
    integers. The inode table is that of kernels with two mounts, without the
    panic of SINGLE_UFS_ROOT; the swap unit is not in PSRAM. Directories are long-running loops over user names and
    device blocks with state in [struct nameidata]; they are the part that
    would come next. *)
From stdpp Require Export base option list sets strings.
From Stdlib Require Export ZArith Lia.

#[global] Open Scope Z_scope.

(** ** Outcomes of kernel code

    [Ok a] is a normal return, [Panic msg] is a call of [panic(msg)], which
    does not return, and [Fault] is an access outside the object a pointer
    was derived from (or through a null pointer), which C leaves undefined.
    A theorem that an operation returns [Ok] is therefore also a memory
    safety statement. *)
Inductive outcome (A : Type) : Type :=
| Ok (a : A)
| Panic (msg : string)
| Fault.
Arguments Ok {A} _.
Arguments Panic {A} _%_string.
Arguments Fault {A}.

#[export] Instance outcome_ret : MRet outcome := @Ok.
#[export] Instance outcome_bind : MBind outcome := fun A B k m =>
  match m with
  | Ok a => k a
  | Panic s => Panic s
  | Fault => Fault
  end.

Lemma outcome_bind_ok {A B} (k : A -> outcome B) (m : outcome A) b :
  (m ≫= k) = Ok b <-> exists a, m = Ok a /\ k a = Ok b.
Proof. destruct m; naive_solver. Qed.

Lemma bind_ok {A B} (x : A) (f : A -> outcome B) : (Ok x : outcome A) ≫= f = f x.
Proof. reflexivity. Qed.
Lemma outcome_bind_assoc {A B C} (m : outcome A) (f : A -> outcome B) (g : B -> outcome C) :
  ((m ≫= f) ≫= g) = (m ≫= fun a => f a ≫= g).
Proof. by destruct m. Qed.

(** Reading and writing an array cell through a pointer. *)
Definition rd {A} (l : list A) (i : nat) : outcome A :=
  match l !! i with Some x => Ok x | None => Fault end.

Definition wr {A} (l : list A) (i : nat) (x : A) : outcome (list A) :=
  if decide (i < length l)%nat then Ok (<[i:=x]> l) else Fault.

Lemma rd_ok {A} (l : list A) i x : l !! i = Some x -> rd l i = Ok x.
Proof. unfold rd. by intros ->. Qed.

Lemma rd_inv {A} (l : list A) i x : rd l i = Ok x -> l !! i = Some x.
Proof. unfold rd. destruct (l !! i); congruence. Qed.

Lemma wr_ok {A} (l : list A) i x : (i < length l)%nat -> wr l i x = Ok (<[i:=x]> l).
Proof. unfold wr. intros. by rewrite decide_True. Qed.

(** Indexing by an [int]; a negative index is outside the array. *)
Definition rdz {A} (l : list A) (i : Z) : outcome A := if i <? 0 then Fault else rd l (Z.to_nat i).
Definition wrz {A} (l : list A) (i : Z) (x : A) : outcome (list A) := if i <? 0 then Fault else wr l (Z.to_nat i) x.

Lemma rdz_ok {A} (l : list A) i x : 0 <= i -> l !! Z.to_nat i = Some x -> rdz l i = Ok x.
Proof. intros Hi Hx. unfold rdz. rewrite (proj2 (Z.ltb_ge _ _) Hi). by apply rd_ok. Qed.

Lemma wrz_ok {A} (l : list A) i x : 0 <= i < Z.of_nat (length l) -> wrz l i x = Ok (<[Z.to_nat i:=x]> l).
Proof. intros Hi. unfold wrz. rewrite (proj2 (Z.ltb_ge _ _)) by lia. apply wr_ok. lia. Qed.

(** ** Machine integers

    An unsigned integer of [w] bits is the [Z] in [0, 2^w); [trunc w] is
    the wrap-around of a store or of unsigned arithmetic. *)
Definition trunc (w x : Z) : Z := x mod 2 ^ w.
Abbreviation u32 := (trunc 32).
Abbreviation u16 := (trunc 16).
Abbreviation u8 := (trunc 8).

Lemma trunc_small w x : 0 <= x < 2 ^ w -> trunc w x = x.
Proof. apply Z.mod_small. Qed.

Lemma trunc_range w x : 0 <= w -> 0 <= trunc w x < 2 ^ w.
Proof. intros. apply Z.mod_pos_bound. apply Z.pow_pos_nonneg; lia. Qed.

Create HintDb kern.
#[export] Hint Resolve rd_ok wr_ok : kern.

(** Rounding up to a power of two the way the kernel writes it,
    [(n + a - 1) & ~(a - 1)], and the alignment test [n & (a - 1)]. *)
Lemma land_pow2_mod n k : 0 <= k -> Z.land n (2 ^ k - 1) = n mod 2 ^ k.
Proof. intros. rewrite <- Z.land_ones, Z.ones_equiv by lia. f_equal. Qed.

Lemma land_lnot_pow2 n k : 0 <= k -> Z.land n (Z.lnot (2 ^ k - 1)) = n - n mod 2 ^ k.
Proof.
  intros Hk. rewrite <- Z.ldiff_land.
  replace (2 ^ k - 1) with (Z.ones k) by (rewrite Z.ones_equiv; lia).
  rewrite Z.ldiff_ones_r, Z.shiftl_mul_pow2, Z.shiftr_div_pow2 by lia.
  pose proof (Z.div_mod n (2 ^ k) ltac:(apply Z.pow_nonzero; lia)). lia.
Qed.

(** Multiples of an alignment [m]. *)
Lemma mod_eq_add a b m : 0 < m -> a mod m = 0 -> b mod m = 0 -> (a + b) mod m = 0.
Proof. intros ? Ha Hb. by rewrite Z.add_mod, Ha, Hb by lia. Qed.

Lemma mod_eq_sub a b m : 0 < m -> a mod m = 0 -> b mod m = 0 -> (a - b) mod m = 0.
Proof. intros ? Ha Hb. by rewrite Zminus_mod, Ha, Hb. Qed.

Lemma mod_eq_lt a b m : 0 < m -> a mod m = 0 -> b mod m = 0 -> a < b + m -> a <= b.
Proof.
  intros ? Ha Hb ?. apply Z.mod_divide in Ha as [p ->], Hb as [q ->]; [|lia..].
  assert (p <= q) by nia. nia.
Qed.
#[export] Hint Resolve mod_eq_add mod_eq_sub : kern.

(** ** Flag words

    [on x m] is the C test [x & m]. *)
Definition on (x m : Z) : bool := negb (Z.land x m =? 0).

Lemma on_or x m n : on (Z.lor x m) n = on x n || on m n.
Proof.
  unfold on. rewrite Z.land_lor_distr_l. destruct (Z.eqb_spec (Z.land x n) 0) as [E|E], (Z.eqb_spec (Z.land m n) 0) as [F|F];
    destruct (Z.eqb_spec (Z.lor (Z.land x n) (Z.land m n)) 0) as [G|G]; rewrite ?Z.lor_eq_0_iff in G; naive_solver.
Qed.
Lemma on_or_r x m n : on x (Z.lor m n) = on x m || on x n.
Proof. unfold on. rewrite !(Z.land_comm x). apply (on_or m n x). Qed.
Lemma on_and_not x m n : on (Z.land x (Z.lnot m)) n = on x (Z.land (Z.lnot m) n).
Proof. unfold on. by rewrite Z.land_assoc. Qed.
Lemma on_0_r x : on x 0 = false.
Proof. unfold on. by rewrite Z.land_0_r. Qed.

(** [flags] computes the tests of words built with constant masks. *)
Ltac flags :=
  repeat match goal with
  | |- context [on (Z.lor ?x ?m) ?n] => rewrite (on_or x m n)
  | |- context [on ?x (Z.lor ?m ?n)] => rewrite (on_or_r x m n)
  | |- context [on (Z.land ?x (Z.lnot ?m)) ?n] => rewrite (on_and_not x m n);
      first [change (Z.land (Z.lnot m) n) with n | change (Z.land (Z.lnot m) n) with 0; rewrite (on_0_r x)]
  | |- context [on ?a ?b] => first [change (on a b) with true | change (on a b) with false]
  end; rewrite ?orb_false_r, ?orb_true_r, ?andb_true_r, ?andb_false_r; cbn [orb andb negb].

(** [case_bool] splits on the boolean tests of the goal, as propositions. *)
Ltac case_bool :=
  match goal with
  | |- context [if Z.eqb ?a ?b then _ else _] => destruct (Z.eqb_spec a b)
  | |- context [if Z.ltb ?a ?b then _ else _] => destruct (Z.ltb_spec a b)
  | |- context [if Z.leb ?a ?b then _ else _] => destruct (Z.leb_spec a b)
  end.
