(* ===== verification/Rmap.v ===== *)
(** * Resource maps ([sys/kern/subr_rmap.c], [sys/sys/map.h])

    A resource map is an array of [(size, address)] descriptors of free
    segments, in address order, terminated by a descriptor of size zero.
    The array is modelled as it lies in memory: a list with one element per
    slot, terminator and stale slots included, and the pointers that walk it
    are list suffixes or indices. [m_limit] is the index of the pointer's
    slot. The width of the two fields is a parameter, 16 under
    COMPACT_SWAPMAP (every rp2040 kernel) and 32 otherwise; [size_t] has 32
    bits. Addresses in the theorems are units of the resource. *)
From S2P Require Import Prelude.

Record mapent := Mapent { m_size : Z; m_addr : Z }.

Record map := Map { m_map : list mapent; m_limit : nat }.

(** The terminating descriptor of a map that starts as zeroed memory. *)
Definition map_end : mapent := Mapent 0 0.

(** ** Operations *)
Section Operations.
  Context (fw : Z).

(** [for (ep = bp;; ++ep) { *ep = *++bp; if (!bp->m_size) break; }] on the
    array from [bp] on; also the [do *++ep = *++bp; while (bp->m_size)] of
    [mfree] and the [do *bp = bp[1]; while ((bp++)->m_size)] of the
    next-fit allocator when the slot is followed by a live one. *)
Fixpoint shift_left (l : list mapent) : outcome (list mapent) :=
  match l with
  | _ :: ((y :: _) as l') =>
      if m_size y =? 0 then Ok (y :: l')
      else r ← shift_left l'; Ok (y :: r)
  | _ => Fault
  end.

(** The search loop of [malloc] from [bp] on: the address, or 0, and the
    array from [bp] on afterwards. *)
Fixpoint malloc_from (size : Z) (l : list mapent) : outcome (Z * list mapent) :=
  match l with
  | [] => Fault
  | e :: l' =>
      if m_size e =? 0 then Ok (0, l)
      else if size <=? m_size e then
        let addr := m_addr e in
        let sz := trunc fw (m_size e - size) in
        if sz =? 0 then
          r ← shift_left (Mapent sz addr :: l'); Ok (addr, r)
        else Ok (addr, Mapent sz (trunc fw (m_addr e + size)) :: l')
      else
        r ← malloc_from size l'; Ok (fst r, e :: snd r)
  end.

Definition malloc (mp : map) (size : Z) : outcome (Z * map) :=
  if size =? 0 then Panic "malloc: size = 0"
  else
    r ← malloc_from size (m_map mp);
    Ok (fst r, Map (snd r) (m_limit mp)).

(** [while (bp->m_size && bp->m_addr <= addr) ++bp], as an index. *)
Fixpoint mfree_find (addr : Z) (l : list mapent) : outcome nat :=
  match l with
  | [] => Fault
  | e :: l' =>
      if negb (m_size e =? 0) && (m_addr e <=? addr)
      then i ← mfree_find addr l'; Ok (S i)
      else Ok 0%nat
  end.

(** [for (; bp->m_size; ++bp)]: how far the terminator is. *)
Fixpoint to_end (l : list mapent) : outcome nat :=
  match l with
  | [] => Fault
  | e :: l' => if m_size e =? 0 then Ok 0%nat else i ← to_end l'; Ok (S i)
  end.

(** [for (ep = bp - 1; ep >= start; *bp-- = *ep--)] with [bp] at
    [start + n]. *)
Fixpoint copy_up (start n : nat) (l : list mapent) : outcome (list mapent) :=
  match n with
  | O => Ok l
  | S n' =>
      v ← rd l (start + n');
      l' ← wr l (start + n) v;
      copy_up start n' l'
  end.

(** [mfree] also yields the segment the overflow message reports lost. *)
Definition mfree (mp : map) (size addr : Z) : outcome (map * option (Z * Z)) :=
  let l := m_map mp in
  let ret l' := Ok (Map l' (m_limit mp), None) in
  if size =? 0 then ret l
  else if addr =? 0 then Panic "mfree: addr = 0"
  else
    bp ← mfree_find addr l;
    b ← rd l bp;
    let right := negb (m_size b =? 0) && (m_addr b <=? u32 (addr + size)) in
    let left :=
      match bp with
      | O => None
      | S ep => match l !! ep with
                | Some e => if addr <=? u32 (m_addr e + m_size e) then Some (ep, e) else None
                | None => None
                end
      end in
    match left with
    | Some (ep, e) =>
        let sz := trunc fw (m_size e + size) in
        if right then
          l1 ← wr l ep (Mapent (trunc fw (sz + m_size b)) (m_addr e));
          tl ← shift_left (drop bp l1);
          ret (take bp l1 ++ tl)
        else
          l1 ← wr l ep (Mapent sz (m_addr e)); ret l1
    | None =>
        if right then
          l1 ← wr l bp (Mapent (trunc fw (m_size b + size)) (trunc fw addr)); ret l1
        else
          n ← to_end (drop bp l);
          if decide (m_limit mp < bp + n + 1)%nat then
            Ok (mp, Some (size, addr))
          else
            l1 ← copy_up bp (n + 1) l;
            l2 ← wr l1 bp (Mapent (trunc fw size) (trunc fw addr)); ret l2
    end.

(** [malloc3_contiguous]: the run length (0 on failure), the map and the
    caller's array [a] of three addresses. *)
Definition malloc3_contiguous (mp : map) (d_size s_size u_size align : Z) (a : Z * Z * Z)
  : outcome (Z * map * (Z * Z * Z)) :=
  if (align =? 0) || negb (Z.land align (align - 1) =? 0) then
    Panic "malloc3_contiguous: bad alignment"
  else if (2 ^ 32 - 1 - s_size <? d_size) || (2 ^ 32 - 1 - u_size <? u32 (d_size + s_size)) then
    Ok (0, mp, a)
  else
    let total := u32 (d_size + s_size + u_size) in
    if (total =? 0) || (2 ^ 32 - 1 - (align - 1) <? total) then Ok (0, mp, a)
    else
      let span := Z.land (u32 (total + align - 1)) (Z.lnot (align - 1)) in
      r ← malloc mp span;
      let '(base, mp') := r in
      if base =? 0 then Ok (0, mp', a)
      else if negb (Z.land base (align - 1) =? 0) then
        Panic "malloc3_contiguous: unaligned map"
      else
        let a1 := u32 (base + d_size) in
        Ok (span, mp', (base, a1, u32 (a1 + s_size))).

(** One descriptor of the search of [malloc3_contiguous_next]: the base it
    offers, if any. *)
Definition next_candidate (pass0 spare : bool) (align span next : Z) (e : mapent)
  : outcome (option Z) :=
  if negb (Z.land (m_addr e) (align - 1) =? 0) || negb (Z.land (m_size e) (align - 1) =? 0) then
    Panic "malloc3_contiguous_next: unaligned map"
  else
    let stop := u32 (m_addr e + m_size e) in
    if stop <? m_addr e then Panic "malloc3_contiguous_next: corrupt map"
    else if m_size e <? span then Ok None
    else
      let cand :=
        if pass0 then
          let c := if m_addr e <? next then next else m_addr e in
          if 2 ^ 32 - 1 - (align - 1) <? c then None
          else
            let c := Z.land (u32 (c + align - 1)) (Z.lnot (align - 1)) in
            if u32 (stop - span) <? c then None else Some c
        else if next <=? m_addr e then None else Some (m_addr e) in
      match cand with
      | None => Ok None
      | Some c =>
          if negb spare && negb (c =? m_addr e) && negb (c =? u32 (stop - span)) then
            let c := u32 (stop - span) in
            if (if pass0 then c <? next else next <=? c) then Ok None else Ok (Some c)
          else Ok (Some c)
      end.

(** One pass over the map: the index of the selected descriptor and the base. *)
Fixpoint next_scan (pass0 spare : bool) (align span next : Z) (l : list mapent)
  : outcome (option (nat * Z)) :=
  match l with
  | [] => Fault
  | e :: l' =>
      if m_size e =? 0 then Ok None
      else
        c ← next_candidate pass0 spare align span next e;
        match c with
        | Some b => Ok (Some (0%nat, b))
        | None =>
            r ← next_scan pass0 spare align span next l';
            Ok (match r with Some (i, b) => Some (S i, b) | None => None end)
        end
  end.

(** Removing [sel, sel + span) from descriptor [i], with [endp] the index
    of the terminator. *)
Definition next_take (l : list mapent) (endp i : nat) (sel span : Z) : outcome (list mapent) :=
  e ← rd l i;
  let base := m_addr e in
  let stop := u32 (base + m_size e) in
  if sel =? base then
    let sz := trunc fw (m_size e - span) in
    l1 ← wr l i (Mapent sz (trunc fw (m_addr e + span)));
    if sz =? 0 then tl ← shift_left (drop i l1); Ok (take i l1 ++ tl)
    else Ok l1
  else if sel =? u32 (stop - span) then
    wr l i (Mapent (trunc fw (m_size e - span)) (m_addr e))
  else
    l1 ← copy_up (S i) (endp - i) l;
    l2 ← wr l1 (S i) (Mapent (trunc fw (u32 (stop - trunc fw (sel + span)))) (trunc fw (sel + span)));
    wr l2 i (Mapent (trunc fw (u32 (sel - base))) (m_addr e)).

Definition malloc3_contiguous_next (mp : map) (d_size s_size u_size align : Z)
  (nextp : option Z) (a : Z * Z * Z) : outcome (Z * map * option Z * (Z * Z * Z)) :=
  if (align =? 0) || negb (Z.land align (align - 1) =? 0) then
    Panic "malloc3_contiguous_next: bad alignment"
  else
  match nextp with
  | None => Panic "malloc3_contiguous_next: no cursor"
  | Some next =>
      let fail := Ok (0, mp, nextp, a) in
      if (2 ^ 32 - 1 - s_size <? d_size) || (2 ^ 32 - 1 - u_size <? u32 (d_size + s_size)) then fail
      else
        let total := u32 (d_size + s_size + u_size) in
        if (total =? 0) || (2 ^ 32 - 1 - (align - 1) <? total) then fail
        else
          let span := Z.land (u32 (total + align - 1)) (Z.lnot (align - 1)) in
          endp ← to_end (m_map mp);
          let spare := bool_decide (endp < m_limit mp)%nat in
          s0 ← next_scan true spare align span next (m_map mp);
          sel ← match s0 with
                | Some _ => Ok s0
                | None => next_scan false spare align span next (m_map mp)
                end;
          match sel with
          | None => fail
          | Some (i, b) =>
              l' ← next_take (m_map mp) endp i b span;
              let a1 := u32 (b + d_size) in
              Ok (span, Map l' (m_limit mp), Some (u32 (b + span)), (b, a1, u32 (a1 + s_size)))
          end
  end.

End Operations.

(** ** What a map represents *)

Definition seg_end (e : mapent) : Z := m_addr e + m_size e.

(** Units of the resource the live descriptors say are free. *)
Definition free (segs : list mapent) (x : Z) : Prop :=
  exists e, e ∈ segs /\ m_addr e <= x < seg_end e.

Section Representation.
  Context (fw : Z).

(** Live descriptors: nonempty, inside the field width, in address order
    above [lo] and maximal, that is, no two of them touch. *)
Fixpoint segs_ok (lo : Z) (segs : list mapent) : Prop :=
  match segs with
  | [] => True
  | e :: s => lo < m_addr e /\ 0 < m_size e /\ seg_end e < 2 ^ fw /\ segs_ok (seg_end e) s
  end.

(** The invariant of a map: its live descriptors, then the terminator,
    inside an array whose last slot is the one [m_limit] addresses. *)
Definition map_rep (mp : map) (segs : list mapent) : Prop :=
  segs_ok 0 segs /\
  length (m_map mp) = S (m_limit mp) /\
  exists rest, m_map mp = segs ++ map_end :: rest.

Fixpoint last_end (lo : Z) (segs : list mapent) : Z :=
  match segs with [] => lo | e :: s => last_end (seg_end e) s end.

Lemma segs_ok_app lo s1 s2 :
  segs_ok lo (s1 ++ s2) <-> segs_ok lo s1 /\ segs_ok (last_end lo s1) s2.
Proof. revert lo. induction s1 as [|e s1 IH]; intros lo; simpl; [tauto|]. rewrite IH. tauto. Qed.

Lemma last_end_snoc lo s e : last_end lo (s ++ [e]) = seg_end e.
Proof. revert lo. induction s; simpl; auto. Qed.

Lemma segs_ok_weaken lo lo' s : lo' <= lo -> segs_ok lo s -> segs_ok lo' s.
Proof. destruct s; simpl; [done|]. intros. intuition lia. Qed.

Lemma segs_ok_bounds lo s e : segs_ok lo s -> e ∈ s -> lo < m_addr e /\ 0 < m_size e /\ seg_end e < 2 ^ fw.
Proof.
  revert lo. induction s as [|x s IH]; intros lo H He; [by apply not_elem_of_nil in He|].
  destruct H as (?&?&?&H). apply elem_of_cons in He as [->|He]; [done|].
  specialize (IH _ H He). unfold seg_end in *. lia.
Qed.

Lemma last_end_ge lo s : segs_ok lo s -> lo <= last_end lo s.
Proof.
  revert lo. induction s as [|w s IH]; intros lo H; simpl; [lia|].
  destruct H as (?&?&?&H). specialize (IH _ H). unfold seg_end in *. lia.
Qed.

Lemma seg_end_le_last lo s e : segs_ok lo s -> e ∈ s -> seg_end e <= last_end lo s.
Proof.
  revert lo. induction s as [|z s IH]; intros lo H He; [set_solver|].
  destruct H as (?&?&?&H). simpl. apply elem_of_cons in He as [->|He]; [by apply last_end_ge|by apply IH].
Qed.

(** Of descriptors that end at or before [addr], only the last can touch it. *)
Lemma last_may_touch lo s addr :
  segs_ok lo s -> lo < addr -> Forall (fun e => seg_end e <= addr) s ->
  (Forall (fun e => seg_end e < addr) s /\ last_end lo s < addr) \/
  exists t e, s = t ++ [e] /\ seg_end e = addr.
Proof.
  intros H Hlo Hb. destruct s as [|e t _] using rev_ind; [by left; split; [constructor|]|].
  rewrite Forall_app, Forall_singleton in Hb. destruct Hb as [Hb ?].
  destruct (decide (seg_end e = addr)); [right; by exists t, e|left].
  apply segs_ok_app in H as [Ht (?&?&_)].
  rewrite Forall_app, Forall_singleton, last_end_snoc. split; [split; [|lia]|lia].
  apply Forall_forall. intros y Hy. pose proof (seg_end_le_last _ _ _ Ht Hy). unfold seg_end in *. lia.
Qed.

Lemma free_cons e s x : free (e :: s) x <-> m_addr e <= x < seg_end e \/ free s x.
Proof. unfold free. setoid_rewrite elem_of_cons. naive_solver. Qed.

Lemma free_app s1 s2 x : free (s1 ++ s2) x <-> free s1 x \/ free s2 x.
Proof. unfold free. setoid_rewrite elem_of_app. naive_solver. Qed.

Lemma free_nil x : ~ free [] x.
Proof. intros (e&H&_). by apply not_elem_of_nil in H. Qed.

Lemma free_above lo s x : segs_ok lo s -> free s x -> lo < x.
Proof. intros H (e&He&?). pose proof (segs_ok_bounds _ _ _ H He). lia. Qed.

(** A map represents a set of units in exactly one way. *)
Lemma segs_canonical lo s1 s2 :
  segs_ok lo s1 -> segs_ok lo s2 -> (forall x, free s1 x <-> free s2 x) -> s1 = s2.
Proof.
  revert lo s2. induction s1 as [|e1 s1 IH]; intros lo [|e2 s2] H1 H2 Heq; [done|..].
  - destruct H2 as (?&?&?&?). destruct (free_nil (m_addr e2)). apply Heq, free_cons. unfold seg_end in *; lia.
  - destruct H1 as (?&?&?&?). destruct (free_nil (m_addr e1)). apply Heq, free_cons. unfold seg_end in *; lia.
  - destruct H1 as (?&?&?&H1), H2 as (?&?&?&H2).
    assert (forall x, free s1 x -> seg_end e1 < x) as A1 by (intros; by eapply free_above).
    assert (forall x, free s2 x -> seg_end e2 < x) as A2 by (intros; by eapply free_above).
    assert (m_addr e1 = m_addr e2) as Ha.
    { pose proof (proj1 (Heq (m_addr e1))) as P. pose proof (proj2 (Heq (m_addr e2))) as Q.
      rewrite !free_cons in P, Q. unfold seg_end in *.
      destruct P as [P|P]; [lia| |apply A2 in P]; destruct Q as [Q|Q]; try apply A1 in Q; lia. }
    assert (m_size e1 = m_size e2) as Hs.
    { pose proof (Heq (seg_end e1)) as P. pose proof (Heq (seg_end e2)) as Q.
      rewrite !free_cons in P, Q. unfold seg_end in *.
      destruct (Z.lt_trichotomy (m_size e1) (m_size e2)) as [?|[?|?]]; [|done|].
      - destruct P as [_ P]. destruct P as [P|P]; [lia|lia|]. apply A1 in P. lia.
      - destruct Q as [Q _]. destruct Q as [Q|Q]; [lia|lia|]. apply A2 in Q. lia. }
    assert (e1 = e2) as -> by (destruct e1, e2; simpl in *; congruence).
    f_equal. eapply IH; eauto. intros x. specialize (Heq x). rewrite !free_cons in Heq.
    specialize (A1 x). specialize (A2 x).
    split; intros F; [apply A1 in F as G|apply A2 in F as G];
      destruct Heq as [P Q]; [destruct P|destruct Q]; auto; unfold seg_end in *; lia.
Qed.

(** Descriptors are maximal: the units next to one are not free. *)
Lemma segs_maximal lo s e :
  segs_ok lo s -> e ∈ s -> ~ free s (seg_end e) /\ ~ free s (m_addr e - 1).
Proof.
  intros H (s1&s2&->)%list_elem_of_split. pose proof (proj1 (segs_ok_app _ _ _) H) as [H1 (?&?&?&H2)].
  split; intros (f&Hf&Hx); apply elem_of_app in Hf as [Hf|Hf];
    try (pose proof (seg_end_le_last _ _ _ H1 Hf); unfold seg_end in *; lia);
    (apply elem_of_cons in Hf as [->|Hf]; [unfold seg_end in *; lia|]);
    pose proof (segs_ok_bounds _ _ _ H2 Hf); unfold seg_end in *; lia.
Qed.

(** *** First fit on the live descriptors *)
Fixpoint first_fit (size : Z) (segs : list mapent) : option (Z * list mapent) :=
  match segs with
  | [] => None
  | e :: s =>
      if size <=? m_size e then
        Some (m_addr e,
              if m_size e =? size then s
              else Mapent (m_size e - size) (m_addr e + size) :: s)
      else r ← first_fit size s; Some (fst r, e :: snd r)
  end.

Lemma shift_left_live lo x s rest :
  segs_ok lo s ->
  shift_left (x :: s ++ map_end :: rest) = Ok (s ++ map_end :: map_end :: rest).
Proof.
  revert lo x. induction s as [|e s IH]; intros lo x H; [done|].
  destruct H as (?&?&?&H). simpl.
  destruct (Z.eqb_spec (m_size e) 0); [lia|]. 
  change (e :: s ++ map_end :: rest) with (e :: (s ++ map_end :: rest)).
  simpl in IH. by rewrite (IH _ e H).
Qed.

Lemma first_fit_none size s :
  first_fit size s = None -> Forall (fun e => m_size e < size) s.
Proof.
  induction s as [|e s IH]; simpl; [by constructor|].
  destruct (Z.leb_spec size (m_size e)); [done|].
  destruct (first_fit size s); simpl; [done|]. intros _. constructor; [lia|auto].
Qed.

(** What first fit takes: the low end of the first descriptor that is large
    enough, and nothing else changes. *)
Lemma first_fit_some lo size s a s' :
  segs_ok lo s -> 0 < size -> first_fit size s = Some (a, s') ->
  lo < a /\ segs_ok lo s' /\ (length s' <= length s)%nat /\
  (forall x, free s x <-> free s' x \/ a <= x < a + size) /\
  (forall x, a <= x < a + size -> ~ free s' x) /\
  Forall (fun e => size <= m_size e -> a <= m_addr e) s.
Proof.
  revert lo a s'. induction s as [|e s IH]; intros lo a s' H Hsz; [done|].
  destruct H as (?&?&?&H). simpl. unfold seg_end in *.
  destruct (Z.leb_spec size (m_size e)).
  - intros [= <- <-].
    assert (forall x, free s x -> m_addr e + m_size e < x) as Hab by (intros; by eapply free_above).
    assert (Forall (fun e0 => size <= m_size e0 -> m_addr e <= m_addr e0) s).
    { apply Forall_forall. intros y Hy _. pose proof (segs_ok_bounds _ _ _ H Hy). lia. }
    split; [done|].
    destruct (Z.eqb_spec (m_size e) size).
    + split; [eapply segs_ok_weaken; [|done]; lia|]. split; [simpl; lia|].
      split; [intros x; rewrite free_cons; unfold seg_end; naive_solver lia|].
      split; [intros x ? F; apply Hab in F; lia|]. by constructor.
    + split; [simpl; unfold seg_end in *; simpl; repeat split; try lia;
              eapply segs_ok_weaken; [|done]; lia|].
      split; [simpl; lia|].
      split; [intros x; rewrite !free_cons; unfold seg_end; simpl;
        destruct (decide (x < m_addr e + size)); naive_solver lia|].
      split; [intros x ?; rewrite free_cons; unfold seg_end; simpl; intros [?|F];
        [lia|apply Hab in F; lia]|]. by constructor.
  - destruct (first_fit size s) as [[b s1]|] eqn:E; [|done]. simpl. intros [= <- <-].
    destruct (IH _ _ _ H Hsz eq_refl) as (?&?&?&Heq&Hd&Hf). simpl.
    split; [lia|]. split; [done|]. split; [lia|].
    split; [intros x; rewrite !free_cons, Heq; tauto|].
    split; [intros x Hx; rewrite free_cons; intros [F|F]; [unfold seg_end in F; lia|by eapply Hd]|].
    constructor; [lia|done].
Qed.

Lemma map_rep_nth_end mp segs : map_rep mp segs -> m_map mp !! length segs = Some map_end.
Proof. intros (_&_&rest&->). by rewrite list_lookup_middle. Qed.

(** *** [mfree] on the live descriptors *)

(** The live descriptors split at the address being returned. *)
Lemma segs_split lo s addr :
  segs_ok lo s -> exists s1 s2, s = s1 ++ s2 /\
    Forall (fun e => m_addr e <= addr) s1 /\ Forall (fun e => addr < m_addr e) s2.
Proof.
  revert lo. induction s as [|e s IH]; intros lo H; [by exists [], []|].
  destruct H as (?&?&?&H). destruct (decide (m_addr e <= addr)).
  - destruct (IH _ H) as (s1&s2&->&?&?). exists (e :: s1), s2. by repeat constructor.
  - exists [], (e :: s). repeat split; [constructor|]. constructor; [lia|].
    apply Forall_forall. intros y Hy. pose proof (segs_ok_bounds _ _ _ H Hy). unfold seg_end in *. lia.
Qed.

Lemma mfree_find_live lo s1 s2 addr rest :
  segs_ok lo (s1 ++ s2) ->
  Forall (fun e => m_addr e <= addr) s1 -> Forall (fun e => addr < m_addr e) s2 ->
  mfree_find addr (s1 ++ s2 ++ map_end :: rest) = Ok (length s1).
Proof.
  revert lo. induction s1 as [|e s1 IH]; intros lo H H1 H2; simpl.
  - destruct s2 as [|b s2]; [done|]. apply Forall_cons in H2 as [? _]. simpl.
    destruct (Z.leb_spec (m_addr b) addr); [lia|]. by rewrite andb_false_r.
  - apply Forall_cons in H1 as [? H1]. destruct H as (?&?&?&H).
    destruct (Z.eqb_spec (m_size e) 0); [lia|]. destruct (Z.leb_spec (m_addr e) addr); [|lia].
    simpl. by rewrite (IH _ H).
Qed.

Lemma to_end_live lo s rest : segs_ok lo s -> to_end (s ++ map_end :: rest) = Ok (length s).
Proof.
  revert lo. induction s as [|e s IH]; intros lo H; simpl; [done|].
  destruct H as (?&?&?&H). destruct (Z.eqb_spec (m_size e) 0); [lia|]. by rewrite (IH _ H).
Qed.

Lemma copy_up_spec p q x r y :
  copy_up (length p) (length q) (p ++ q ++ x :: r) = Ok (p ++ (hd y (q ++ [x])) :: q ++ r).
Proof.
  revert x r. induction q as [|z q IH] using rev_ind; intros x r; [done|].
  rewrite length_app, Nat.add_1_r. simpl length. cbn [copy_up].
  rewrite (rd_ok _ _ z).
  2:{ rewrite <- app_assoc. rewrite lookup_app_r, lookup_app_r by lia.
      replace (_ - _ - _)%nat with 0%nat by lia. done. }
  simpl mbind. rewrite wr_ok by (rewrite !length_app; simpl; lia). simpl.
  replace (<[(length p + S (length q))%nat:=z]> (p ++ (q ++ [z]) ++ x :: r))
    with (p ++ q ++ z :: (z :: r)).
  2:{ rewrite insert_app_r, insert_app_r_alt by (rewrite length_app; simpl; lia).
      rewrite length_app. simpl. replace (_ - _)%nat with 0%nat by lia. simpl. by rewrite <- !app_assoc. }
  rewrite IH. f_equal. f_equal. rewrite <- !app_assoc. simpl.
  destruct q; done.
Qed.

Hypothesis Hfw : 0 < fw <= 32.

Lemma malloc_from_live lo size s rest :
  segs_ok lo s -> 0 <= lo -> 0 < size ->
  malloc_from fw size (s ++ map_end :: rest) =
  match first_fit size s with
  | None => Ok (0, s ++ map_end :: rest)
  | Some (a, s') =>
      Ok (a, s' ++ map_end ::
             (if (length s' <? length s)%nat then map_end :: rest else rest))
  end.
Proof.
  revert lo. induction s as [|e s IH]; intros lo H Hlo Hsz; [done|].
  destruct H as (?&?&?&H). cbn [malloc_from first_fit app]. unfold seg_end in *.
  destruct (Z.eqb_spec (m_size e) 0); [lia|].
  destruct (Z.leb_spec size (m_size e)).
  - rewrite trunc_small by lia.
    destruct (Z.eqb_spec (m_size e) size), (Z.eqb_spec (m_size e - size) 0); try lia.
    + rewrite (shift_left_live _ _ _ _ H). simpl.
      replace (length s <? S (length s))%nat with true; [done|]. symmetry. apply Nat.ltb_lt. lia.
    + simpl. rewrite trunc_small by lia. rewrite Nat.ltb_irrefl. done.
  - rewrite (IH _ H) by lia. destruct (first_fit size s) as [[a s']|]; simpl; done.
Qed.

Lemma fw_range : 2 ^ fw <= 2 ^ 32.
Proof. apply Z.pow_le_mono_r; lia. Qed.

(** The descriptors below a returned segment end at or before it, those
    above start at or after its end. *)
Definition below (addr : Z) (s : list mapent) : Prop := Forall (fun e => seg_end e <= addr) s.
Definition above (stop : Z) (s : list mapent) : Prop := Forall (fun e => stop <= m_addr e) s.

(** Does the first descriptor above start at [stop]?  Then the return
    absorbs it: [gain] units of it, leaving [above_rest]. *)
Definition touches (stop : Z) (s2 : list mapent) : bool :=
  match s2 with [] => false | b :: _ => m_addr b =? stop end.
Definition gain (stop : Z) (s2 : list mapent) : Z :=
  match s2 with b :: _ => if m_addr b =? stop then m_size b else 0 | [] => 0 end.
Definition above_rest (stop : Z) (s2 : list mapent) : list mapent :=
  match s2 with b :: s => if m_addr b =? stop then s else s2 | [] => [] end.

Lemma length_above_rest stop s2 :
  (length (above_rest stop s2) + if touches stop s2 then 1 else 0)%nat = length s2.
Proof. destruct s2 as [|b s2]; simpl; [done|]. destruct (_ =? _); simpl; lia. Qed.

Lemma none_touch lo s1 s2 addr size y :
  segs_ok lo (s1 ++ s2) -> Forall (fun e => seg_end e < addr) s1 -> above (addr + size) s2 ->
  Forall (fun e => addr < m_addr e) s2 -> 0 < size ->
  touches (addr + size) s2 = false -> y ∈ s1 ++ s2 -> seg_end y <> addr /\ m_addr y <> addr + size.
Proof.
  intros H H1 Ha H2 Hsz Ht Hy. rewrite Forall_forall in H1, H2.
  pose proof (segs_ok_bounds _ _ _ H Hy) as (?&?&?). unfold seg_end in *.
  apply elem_of_app in Hy as [Hy|Hy]; [specialize (H1 _ Hy); lia|].
  specialize (H2 _ Hy). split; [lia|].
  destruct s2 as [|b s2]; [set_solver|]. simpl in Ht. apply Z.eqb_neq in Ht.
  apply elem_of_cons in Hy as [->|Hy]; [done|].
  apply segs_ok_app in H as [_ (?&?&?&H)]. apply Forall_cons in Ha as [? _].
  pose proof (segs_ok_bounds _ _ _ H Hy). unfold seg_end in *. lia.
Qed.

Lemma split_around lo s addr size :
  segs_ok lo s -> 0 < size -> (forall x, addr <= x < addr + size -> ~ free s x) ->
  exists s1 s2, s = s1 ++ s2 /\ below addr s1 /\ above (addr + size) s2 /\
    Forall (fun e => m_addr e <= addr) s1 /\ Forall (fun e => addr < m_addr e) s2.
Proof.
  intros H Hsz Hd. destruct (segs_split _ _ addr H) as (s1&s2&->&H1&H2).
  exists s1, s2. split; [done|].
  assert (forall e, e ∈ s1 ++ s2 -> forall x, addr <= x < addr + size -> ~ m_addr e <= x < seg_end e) as Hn.
  { intros e He x Hx F. apply (Hd x Hx). by exists e. }
  split; [|split]; [..|done].
  - apply Forall_forall. intros e He. rewrite Forall_forall in H1. specialize (H1 _ He).
    specialize (Hn e ltac:(by apply elem_of_app; left) addr). lia.
  - apply Forall_forall. intros e He. rewrite Forall_forall in H2. specialize (H2 _ He).
    pose proof (segs_ok_bounds _ _ _ H ltac:(by apply elem_of_app; right)).
    specialize (Hn e ltac:(by apply elem_of_app; right) (m_addr e)). unfold seg_end in *. lia.
Qed.

Section Mfree.
  Context (lim : nat) (rest : list mapent) (size addr : Z).
  Hypothesis Hsize : 0 < size.
  Hypothesis Haddr : 0 < addr.
  Hypothesis Hstop : addr + size < 2 ^ fw.

(** The walk reaches the first descriptor above the segment. *)
Lemma mfree_walk s1 s2 (k : nat -> outcome (map * option (Z * Z))) :
  segs_ok 0 (s1 ++ s2) ->
  Forall (fun e => m_addr e <= addr) s1 -> Forall (fun e => addr < m_addr e) s2 ->
  (mfree_find addr ((s1 ++ s2) ++ map_end :: rest) ≫= k) = k (length s1).
Proof. intros. rewrite <- app_assoc. by erewrite mfree_find_live. Qed.

Lemma read_at s1 s2 :
  rd ((s1 ++ s2) ++ map_end :: rest) (length s1) = Ok (default map_end (head s2)).
Proof. apply rd_ok. rewrite <- app_assoc, lookup_app_r, Nat.sub_diag by apply Nat.le_refl. by destruct s2. Qed.

(** The test for a neighbour above. *)
Lemma right_test lo s2 :
  segs_ok lo s2 -> above (addr + size) s2 ->
  negb (m_size (default map_end (head s2)) =? 0) &&
    (m_addr (default map_end (head s2)) <=? u32 (addr + size)) =
  touches (addr + size) s2.
Proof.
  intros H Ha. unfold touches. pose proof fw_range. rewrite trunc_small by lia.
  destruct s2 as [|b s2]; [done|]. destruct H as (?&?&?&_). apply Forall_cons in Ha as [? _].
  simpl. destruct (Z.eqb_spec (m_size b) 0); [lia|]. simpl.
  destruct (Z.leb_spec (m_addr b) (addr + size)), (Z.eqb_spec (m_addr b) (addr + size)); lia.
Qed.

Lemma mfree_left s1 e s2 :
  segs_ok 0 ((s1 ++ [e]) ++ s2) -> seg_end e = addr -> above (addr + size) s2 ->
  Forall (fun e => m_addr e <= addr) (s1 ++ [e]) -> Forall (fun e => addr < m_addr e) s2 ->
  exists rest', length rest' = (length rest + if touches (addr + size) s2 then 1 else 0)%nat /\
  mfree fw (Map (((s1 ++ [e]) ++ s2) ++ map_end :: rest) lim) size addr =
  Ok (Map ((s1 ++ Mapent (m_size e + size + gain (addr + size) s2) (m_addr e) ::
             above_rest (addr + size) s2) ++ map_end :: rest') lim, None).
Proof.
  intros H He Ha H1 H2. pose proof fw_range as Hp. unfold mfree. cbn [m_map m_limit].
  destruct (Z.eqb_spec size 0); [lia|]. destruct (Z.eqb_spec addr 0); [lia|].
  rewrite (mfree_walk _ _ _ H H1 H2), read_at. cbn [mbind outcome_bind].
  assert (segs_ok 0 ((s1 ++ [e]) ++ s2)) as H' by done.
  apply segs_ok_app in H' as [Hs1 Hs2]. rewrite last_end_snoc in Hs2.
  rewrite (right_test _ _ Hs2 Ha).
  destruct (segs_ok_bounds 0 _ e H) as (Hea&Hes&Hee); [set_solver|].
  rewrite length_app, Nat.add_1_r. cbv iota beta zeta.
  assert ((((s1 ++ [e]) ++ s2) ++ map_end :: rest) !! length s1 = Some e) as ->.
  { rewrite <- !app_assoc. by apply list_lookup_middle. }
  unfold seg_end in He. rewrite He, (trunc_small 32 addr) by lia.
  destruct (Z.leb_spec addr addr); [|lia].
  assert (forall y, <[length s1:=y]> (((s1 ++ [e]) ++ s2) ++ map_end :: rest)
    = (s1 ++ [y]) ++ s2 ++ map_end :: rest) as Hins.
  { intros y. rewrite <- !app_assoc. simpl. by rewrite insert_app_r_alt, Nat.sub_diag by lia. }
  rewrite !wr_ok by (rewrite !length_app; simpl; lia). rewrite !Hins. cbn [mbind outcome_bind].
  unfold touches, gain, above_rest.
  destruct s2 as [|b s2]; [|destruct (Z.eqb_spec (m_addr b) (addr + size)) as [Hb|Hb]].
  - exists rest. simpl. rewrite trunc_small by lia. rewrite Z.add_0_r, <- !app_assoc. split; [lia|done].
  - destruct Hs2 as (_&Hbs&Hbe&Hs2). unfold seg_end in *. exists (map_end :: rest).
    simpl head. simpl default. rewrite (trunc_small fw (m_size e + size)), trunc_small by lia.
    rewrite drop_app_length' , take_app_length' by (rewrite length_app; simpl; lia).
    rewrite <- app_comm_cons, (shift_left_live _ _ _ _ Hs2). simpl. rewrite <- !app_assoc. split; [lia|done].
  - exists rest. simpl. rewrite trunc_small by lia. rewrite Z.add_0_r, <- !app_assoc. split; [lia|done].
Qed.

(** The test for a neighbour below fails when none touches. *)
Lemma no_left s1 s2 :
  segs_ok 0 (s1 ++ s2) -> Forall (fun e => seg_end e < addr) s1 ->
  match length s1 with
  | O => None
  | S ep => match ((s1 ++ s2) ++ map_end :: rest) !! ep with
            | Some e => if addr <=? u32 (m_addr e + m_size e) then Some (ep, e) else None
            | None => None
            end
  end = None.
Proof.
  intros H He. destruct (length s1) as [|ep] eqn:El; [done|].
  rewrite <- app_assoc, lookup_app_l by lia. destruct (s1 !! ep) as [e|] eqn:E; [|done].
  apply list_elem_of_lookup_2 in E. pose proof fw_range.
  destruct (segs_ok_bounds 0 _ e H) as (?&?&?); [set_solver|].
  rewrite Forall_forall in He. specialize (He _ E). unfold seg_end in *.
  rewrite trunc_small by lia. by destruct (Z.leb_spec addr (m_addr e + m_size e)); [lia|].
Qed.

(** Not touching below: the segment joins the one above, takes a slot of
    its own, or is reported lost. *)
Lemma mfree_apart s1 s2 :
  segs_ok 0 (s1 ++ s2) -> Forall (fun e => seg_end e < addr) s1 -> above (addr + size) s2 ->
  Forall (fun e => m_addr e <= addr) s1 -> Forall (fun e => addr < m_addr e) s2 ->
  length ((s1 ++ s2) ++ map_end :: rest) = S lim ->
  (touches (addr + size) s2 = false /\ length (s1 ++ s2) = lim /\
   mfree fw (Map ((s1 ++ s2) ++ map_end :: rest) lim) size addr =
   Ok (Map ((s1 ++ s2) ++ map_end :: rest) lim, Some (size, addr))) \/
  exists rest', (length rest' + if touches (addr + size) s2 then 0 else 1)%nat = length rest /\
  mfree fw (Map ((s1 ++ s2) ++ map_end :: rest) lim) size addr =
  Ok (Map ((s1 ++ Mapent (size + gain (addr + size) s2) addr ::
             above_rest (addr + size) s2) ++ map_end :: rest') lim, None).
Proof.
  intros H He Ha H1 H2 Hlen. pose proof fw_range as Hp. unfold mfree. cbn [m_map m_limit].
  destruct (Z.eqb_spec size 0); [lia|]. destruct (Z.eqb_spec addr 0); [lia|].
  rewrite (mfree_walk _ _ _ H H1 H2), read_at. cbn [mbind outcome_bind].
  pose proof (proj2 (proj1 (segs_ok_app _ _ _) H)) as Hs2. rewrite (right_test _ _ Hs2 Ha).
  rewrite no_left by done. unfold gain, above_rest.
  destruct (touches (addr + size) s2) eqn:Ht.
  - right. exists rest. split; [lia|]. destruct s2 as [|b s2]; [done|]. simpl in Ht. rewrite Ht.
    apply Z.eqb_eq in Ht. destruct Hs2 as (_&?&?&_). unfold seg_end in *.
    rewrite wr_ok by (rewrite !length_app; simpl; lia). simpl.
    rewrite !trunc_small by lia. rewrite <- app_assoc, insert_app_r_alt, Nat.sub_diag by lia. simpl.
    by rewrite <- app_assoc, (Z.add_comm (m_size b)).
  - rewrite <- !app_assoc, drop_app_length, (to_end_live _ _ _ Hs2). cbn [mbind outcome_bind].
    rewrite !length_app in Hlen. simpl in Hlen.
    case_decide; [left; split; [done|split; [rewrite length_app; lia|done]]|right].
    destruct rest as [|z rest']; [simpl in Hlen; lia|]. exists rest'. split; [simpl; lia|].
    replace (length s2 + 1)%nat with (length (s2 ++ [map_end])) by (rewrite length_app; simpl; lia).
    rewrite (app_assoc s2 [map_end] (z :: rest') : s2 ++ map_end :: z :: rest' = _).
    rewrite (copy_up_spec _ _ _ _ map_end). cbn [mbind outcome_bind].
    rewrite wr_ok by (rewrite length_app; simpl; lia). simpl.
    rewrite insert_app_r_alt, Nat.sub_diag by lia. simpl. rewrite !trunc_small by lia.
    destruct s2 as [|b s2]; simpl in Ht; rewrite ?Ht, Z.add_0_r, <- !app_assoc; done.
Qed.
End Mfree.

(** What the live descriptors are after a successful return. *)
Lemma join_ok lo s1 s2 size addr :
  segs_ok lo s1 -> segs_ok (last_end lo s1) s2 -> last_end lo s1 < addr -> 0 < size ->
  addr + size < 2 ^ fw -> above (addr + size) s2 ->
  segs_ok lo (s1 ++ Mapent (size + gain (addr + size) s2) addr :: above_rest (addr + size) s2) /\
  forall x, free (s1 ++ Mapent (size + gain (addr + size) s2) addr :: above_rest (addr + size) s2) x <->
    free (s1 ++ s2) x \/ addr <= x < addr + size.
Proof.
  intros H1 H2 Hl Hsz Hst Ha. rewrite segs_ok_app. setoid_rewrite free_app. setoid_rewrite free_cons.
  unfold gain, above_rest, seg_end in *. simpl.
  destruct s2 as [|b s2]; [|destruct H2 as (?&?&?&H2); apply Forall_cons in Ha as [? Ha]; unfold seg_end in *;
    destruct (Z.eqb_spec (m_addr b) (addr + size))]; simpl.
  - rewrite Z.add_0_r. repeat split; try done. all: naive_solver lia.
  - split; [repeat split; try done; try lia; eapply segs_ok_weaken; [|done]; lia|].
    intros x. rewrite free_cons. unfold seg_end. destruct (decide (x < addr + size)); naive_solver lia.
  - rewrite Z.add_0_r. split; [repeat split; try done; lia|]. intros x. rewrite free_cons. naive_solver lia.
Qed.

(** A segment that touches no descriptor would need one of its own. *)
Lemma insert_apart s size addr :
  segs_ok 0 s -> 0 < size -> 0 < addr -> addr + size < 2 ^ fw ->
  (forall x, addr <= x < addr + size -> ~ free s x) ->
  Forall (fun e => seg_end e <> addr /\ m_addr e <> addr + size) s ->
  exists s', segs_ok 0 s' /\ length s' = S (length s) /\
    forall x, free s' x <-> free s x \/ addr <= x < addr + size.
Proof.
  intros H Hsz Had Hst Hd Hn. destruct (split_around 0 _ _ _ H Hsz Hd) as (s1&s2&->&Hb&Ha&_&_).
  pose proof (proj1 (segs_ok_app _ _ _) H) as [Hs1 Hs2].
  destruct (last_may_touch _ _ _ Hs1 Had Hb) as [[_ Hle]|(t&e&->&He)].
  - destruct (join_ok 0 s1 s2 size addr) as [Hok Hfr]; try done. eexists. split; [done|]. split; [|done].
    pose proof (length_above_rest (addr + size) s2).
    enough (touches (addr + size) s2 = false) as E by (rewrite E in *; rewrite !length_app; simpl; lia).
    destruct s2 as [|b s2]; [done|]. simpl. apply Z.eqb_neq.
    rewrite Forall_app, Forall_cons in Hn. tauto.
  - rewrite !Forall_app, Forall_singleton in Hn. tauto.
Qed.

End Representation.

(** No operation moves the limit. *)
Lemma malloc_limit fw mp size a mp' : malloc fw mp size = Ok (a, mp') -> m_limit mp' = m_limit mp.
Proof. unfold malloc, mbind, outcome_bind. intros H. repeat (case_match; simplify_eq/=; try done). Qed.

Lemma mfree_limit fw mp size addr mp' lost :
  mfree fw mp size addr = Ok (mp', lost) -> m_limit mp' = m_limit mp.
Proof. unfold mfree, mbind, outcome_bind. intros H. repeat (case_match; simplify_eq/=; try done). Qed.

Lemma next_limit fw mp d s u al np a span mp' np' a' :
  malloc3_contiguous_next fw mp d s u al np a = Ok (span, mp', np', a') -> m_limit mp' = m_limit mp.
Proof.
  unfold malloc3_contiguous_next, mbind, outcome_bind. intros H.
  repeat (case_match; simplify_eq/=; try done).
Qed.

(** ** Theorems on [malloc] and [mfree] *)

Section Theorems.
  Context (fw : Z) (Hfw : 0 < fw <= 32).

Lemma malloc_first_fit mp segs size :
  map_rep fw mp segs -> 0 < size ->
  match first_fit size segs with
  | None => malloc fw mp size = Ok (0, mp)
  | Some (a, segs') => exists mp', malloc fw mp size = Ok (a, mp') /\ map_rep fw mp' segs'
  end.
Proof.
  destruct mp as [l lim]. intros (H&Hlen&rest&Hl) Hsz. simpl in *. subst l. unfold malloc. simpl.
  destruct (Z.eqb_spec size 0); [lia|]. rewrite (malloc_from_live fw Hfw 0) by (done || lia).
  destruct (first_fit size segs) as [[a s']|] eqn:E; [|done]. simpl. eexists. split; [done|].
  destruct (first_fit_some fw 0 _ _ _ _ H Hsz E) as (?&?&Hle&_).
  split; [done|]. simpl. rewrite !length_app in *. simpl in *.
  split; [|by eexists].
  assert (length s' = length segs \/ S (length s') = length segs) as Hd.
  { clear -E. revert a s' E. induction segs as [|e s IH]; simpl; [done|]. intros a s'.
    destruct (size <=? m_size e).
    - intros [= <- <-]. destruct (_ =? _); simpl; lia.
    - destruct (first_fit size s) as [[b t]|]; [|done]. simpl. intros [= <- <-]. simpl.
      specialize (IH _ _ eq_refl). lia. }
  destruct (Nat.ltb_spec (length s') (length segs)); simpl; lia.
Qed.

(** C1. [malloc] on a well-formed map returns: either 0 with the map
    untouched, and then every free segment is smaller than the request; or
    a nonzero address [a] such that [a, a + size) was entirely free, is no
    longer free, nothing else changed, the map is well formed again, and no
    segment that is large enough lies below [a] (first fit). *)
Theorem malloc_spec (mp : map) (segs : list mapent) (size : Z) :
  map_rep fw mp segs -> 0 < size ->
  (malloc fw mp size = Ok (0, mp) /\ Forall (fun e => m_size e < size) segs) \/
  exists a mp' segs',
    malloc fw mp size = Ok (a, mp') /\ 0 < a /\ map_rep fw mp' segs' /\
    (forall x, free segs x <-> free segs' x \/ a <= x < a + size) /\
    (forall x, a <= x < a + size -> ~ free segs' x) /\
    Forall (fun e => size <= m_size e -> a <= m_addr e) segs.
Proof.
  intros Hrep Hsz. pose proof (malloc_first_fit _ _ _ Hrep Hsz) as Hm.
  destruct (first_fit size segs) as [[a segs']|] eqn:E.
  - right. destruct Hm as (mp'&?&?). exists a, mp', segs'.
    destruct (first_fit_some fw 0 _ _ _ _ (proj1 Hrep) Hsz E) as (?&?&?&?&?&?). done.
  - left. split; [done|]. by apply first_fit_none.
Qed.

Lemma mfree_returns mp segs size addr :
  map_rep fw mp segs -> 0 < size -> 0 < addr -> addr + size < 2 ^ fw ->
  (forall x, addr <= x < addr + size -> ~ free segs x) ->
  (mfree fw mp size addr = Ok (mp, Some (size, addr)) /\ length segs = m_limit mp /\
     Forall (fun e => seg_end e <> addr /\ m_addr e <> addr + size) segs) \/
  exists mp' segs',
    mfree fw mp size addr = Ok (mp', None) /\ map_rep fw mp' segs' /\
    (forall x, free segs' x <-> free segs x \/ addr <= x < addr + size).
Proof.
  destruct mp as [l lim]. intros (H&Hlen&rest&Hl) Hsz Had Hst Hd. simpl in *. subst l.
  destruct (split_around fw 0 _ _ _ H Hsz Hd) as (s1&s2&->&Hb&Ha&H1&H2).
  pose proof (proj1 (segs_ok_app _ _ _ _) H) as [Hs1 Hs2].
  destruct (last_may_touch _ _ _ _ Hs1 Had Hb) as [[Hlt Hle]|(t&e&->&He)].
  - destruct (mfree_apart fw Hfw lim rest size addr Hsz Had Hst s1 s2 H Hlt Ha H1 H2 Hlen)
      as [(Ht&Hfull&Hm)|(rest'&Hr&Hm)].
    + left. split; [done|split; [done|]]. apply Forall_forall. intros y Hy.
      by eapply none_touch.
    + right. destruct (join_ok fw Hfw 0 s1 s2 size addr) as [Hok Hfr]; try done.
      eexists _, _. split; [done|]. split; [|done]. split; [done|]. split; [|by eexists].
      simpl. rewrite length_app in Hlen |- *. simpl. rewrite !length_app in *. simpl in *.
      pose proof (length_above_rest (addr + size) s2). destruct (touches _ _); simpl in *; lia.
  - right. destruct (mfree_left fw Hfw lim rest size addr Hsz Had Hst t e s2 H He Ha H1 H2) as (rest'&Hr&Hm).
    pose proof (proj1 (segs_ok_app _ _ _ _) Hs1) as [Ht (?&?&?&_)]. rewrite last_end_snoc in Hs2.
    destruct (join_ok fw Hfw 0 t s2 (m_size e + size) (m_addr e)) as [Hok Hfr];
      try (unfold seg_end in *; subst; rewrite ?Z.add_assoc; done || lia).
    { eapply segs_ok_weaken; [|done]. unfold seg_end in *; lia. }
    replace (m_addr e + (m_size e + size)) with (addr + size) in * by (unfold seg_end in *; lia).
    eexists _, _. split; [done|]. split.
    + split; [done|]. split; [|by eexists]. simpl.
      pose proof (length_above_rest (addr + size) s2).
      rewrite !length_app in *. simpl in *. destruct (touches _ _); simpl in *; lia.
    + intros x. rewrite Hfr, !free_app, free_cons. unfold seg_end in *.
      pose proof (free_nil x). destruct (decide (x < addr)); naive_solver lia.
Qed.

(** C2. [mfree] of a segment that is not free returns: the segment is added
    to the free units and the map is well formed again, coalesced with the
    neighbours it touches; or the map is full, the segment touches no
    neighbour, and it is reported lost with the map untouched. *)
Theorem mfree_spec (mp : map) (segs : list mapent) (size addr : Z) :
  map_rep fw mp segs -> 0 < size -> 0 < addr -> addr + size < 2 ^ fw ->
  (forall x, addr <= x < addr + size -> ~ free segs x) ->
  (exists mp' segs',
    mfree fw mp size addr = Ok (mp', None) /\ map_rep fw mp' segs' /\
    (forall x, free segs' x <-> free segs x \/ addr <= x < addr + size)) \/
  (mfree fw mp size addr = Ok (mp, Some (size, addr)) /\ length segs = m_limit mp /\
     Forall (fun e => seg_end e <> addr /\ m_addr e <> addr + size) segs).
Proof. intros. apply or_comm. by apply mfree_returns. Qed.

Lemma first_fit_room lo size segs a segs' :
  segs_ok fw lo segs -> first_fit size segs = Some (a, segs') ->
  a + size < 2 ^ fw /\
  ((length segs' < length segs)%nat \/ exists e, e ∈ segs' /\ m_addr e = a + size).
Proof.
  revert lo a segs'. induction segs as [|e s IH]; intros lo a s' H; simpl; [done|].
  destruct H as (?&?&?&H). unfold seg_end in *. destruct (Z.leb_spec size (m_size e)).
  - intros [= <- <-]. split; [lia|]. destruct (_ =? _); [left; lia|right].
    eexists. split; [apply list_elem_of_here|done].
  - destruct (first_fit size s) as [[b t]|]; [|done]. simpl. intros [= <- <-].
    destruct (IH _ _ _ H eq_refl) as [? [?|(e'&?&?)]]; split; try done; [left; simpl; lia|right].
    exists e'. split; [by apply list_elem_of_further|done].
Qed.

(** Returning what [malloc] just gave restores the map: [mfree] never
    overflows, and the live descriptors are the original ones. *)
Theorem malloc_mfree_roundtrip (mp mp' : map) (segs : list mapent) (size a : Z) :
  map_rep fw mp segs -> 0 < size -> malloc fw mp size = Ok (a, mp') -> a <> 0 ->
  exists mp'', mfree fw mp' size a = Ok (mp'', None) /\ map_rep fw mp'' segs.
Proof.
  intros Hrep Hsz Hm Ha. pose proof (malloc_first_fit _ _ _ Hrep Hsz) as Hff.
  destruct (first_fit size segs) as [[b segs']|] eqn:E; [|congruence].
  destruct Hff as (mp1&Hm1&Hrep'). rewrite Hm in Hm1. injection Hm1 as <- <-.
  destruct (first_fit_some fw 0 _ _ _ _ (proj1 Hrep) Hsz E) as (?&?&?&Hfr&Hnf&_).
  destruct (first_fit_room 0 _ _ _ _ (proj1 Hrep) E) as [? Hroom].
  destruct (mfree_returns mp' segs' size a) as [(_&Hfull&Hnt)|(mp''&segs''&?&Hrep''&Hfr')]; try done.
  - exfalso. destruct Hroom as [Hlt|(e&He&Hea)].
    + apply malloc_limit in Hm.
      destruct Hrep as (_&Hlen&rest&Heq). rewrite Heq, length_app in Hlen. simpl in Hlen. lia.
    + rewrite Forall_forall in Hnt. by destruct (Hnt _ He).
  - exists mp''. split; [done|]. replace segs with segs''; [done|].
    apply (segs_canonical fw 0); [apply Hrep''|apply Hrep|].
    intros x. rewrite Hfr', Hfr. done.
Qed.

End Theorems.

(** ** Aligned runs *)

Section Aligned.
  Context (fw : Z) (Hfw : 0 < fw <= 32).
  Context (k : Z) (Hk : 0 <= k < 32).

(** Both fields of every live descriptor are multiples of the alignment. *)
Definition aligned (segs : list mapent) : Prop :=
  Forall (fun e => m_addr e mod 2 ^ k = 0 /\ m_size e mod 2 ^ k = 0) segs.

Lemma pow_k_pos : 0 < 2 ^ k < 2 ^ 32.
Proof. split; [apply Z.pow_pos_nonneg; lia|apply Z.pow_lt_mono_r; lia]. Qed.

Lemma align_test : ((2 ^ k =? 0) || negb (Z.land (2 ^ k) (2 ^ k - 1) =? 0)) = false.
Proof.
  pose proof pow_k_pos. destruct (Z.eqb_spec (2 ^ k) 0); [lia|].
  rewrite land_pow2_mod, Z_mod_same_full by lia. done.
Qed.

(** Rounding up to the alignment. *)
Definition round_up (n : Z) : Z := Z.land (u32 (n + 2 ^ k - 1)) (Z.lnot (2 ^ k - 1)).

Lemma round_up_spec n :
  0 <= n -> n <= 2 ^ 32 - 1 - (2 ^ k - 1) ->
  n <= round_up n < n + 2 ^ k /\ round_up n mod 2 ^ k = 0.
Proof.
  intros. pose proof pow_k_pos. unfold round_up.
  rewrite land_lnot_pow2, trunc_small by lia.
  pose proof (Z.mod_pos_bound (n + 2 ^ k - 1) (2 ^ k)). split; [lia|].
  rewrite Zminus_mod, Zmod_mod, Z.sub_diag. done.
Qed.

(** Alignment is a property of the free units: of where runs begin and end. *)
Lemma aligned_union lo s s' size addr :
  segs_ok fw lo s -> segs_ok fw lo s' -> aligned s ->
  addr mod 2 ^ k = 0 -> size mod 2 ^ k = 0 ->
  (forall x, free s' x <-> free s x \/ addr <= x < addr + size) -> aligned s'.
Proof.
  intros H H' Hal Ha Hs Hfr. apply Forall_forall. intros e He. pose proof pow_k_pos.
  destruct (segs_ok_bounds _ _ _ _ H' He) as (?&?&?).
  destruct (segs_maximal _ _ _ _ H' He) as [M1 M2]. rewrite Hfr in M1, M2.
  assert (forall x, free s x -> exists a z, a mod 2 ^ k = 0 /\ z mod 2 ^ k = 0 /\ a <= x < z /\ forall y, a <= y < z -> free s y) as Hs'.
  { intros x (f&Hf&Hx). unfold aligned in Hal. rewrite Forall_forall in Hal. destruct (Hal _ Hf).
    exists (m_addr f), (seg_end f). repeat split; try lia; [by apply mod_eq_add; [lia|..]|]. intros y Hy. by exists f. }
  assert (forall x, free s' x -> exists a z, a mod 2 ^ k = 0 /\ z mod 2 ^ k = 0 /\ a <= x < z /\ forall y, a <= y < z -> free s' y) as Hs''.
  { intros x [F|F]%Hfr.
    - destruct (Hs' _ F) as (a&z&?&?&?&Hy). exists a, z. repeat split; try done; try lia. intros. apply Hfr. left. by apply Hy.
    - exists addr, (addr + size). repeat split; try done; try lia; [by apply mod_eq_add; [lia|..]|]. intros. apply Hfr. by right. }
  rewrite <- Hfr in M1, M2.
  assert (m_addr e mod 2 ^ k = 0) as Hma.
  { destruct (Hs'' (m_addr e)) as (a&z&?&?&?&Hy); [exists e; unfold seg_end in *; split; [done|lia]|].
    destruct (decide (a = m_addr e)) as [<-|]; [done|]. destruct M2. apply Hy. lia. }
  split; [done|]. replace (m_size e) with (seg_end e - m_addr e) by (unfold seg_end; lia).
  apply mod_eq_sub; [lia| |done].
  destruct (Hs'' (seg_end e - 1)) as (a&z&?&?&?&Hy); [exists e; unfold seg_end in *; split; [done|lia]|].
  destruct (decide (z = seg_end e)) as [<-|]; [done|]. destruct M1. apply Hy. lia.
Qed.

(** Taking [b, b + span) out of the descriptor [e]. *)
Definition carve (e : mapent) (b span : Z) : list mapent :=
  (if b =? m_addr e then [] else [Mapent (b - m_addr e) (m_addr e)]) ++
  (if b + span =? seg_end e then [] else [Mapent (seg_end e - (b + span)) (b + span)]).

Lemma free_carve e b span x :
  m_addr e <= b -> 0 < span -> b + span <= seg_end e ->
  free (carve e b span) x <-> m_addr e <= x < b \/ b + span <= x < seg_end e.
Proof.
  intros. unfold carve. rewrite free_app. pose proof (free_nil x).
  destruct (Z.eqb_spec b (m_addr e)), (Z.eqb_spec (b + span) (seg_end e));
    rewrite ?free_cons; unfold seg_end in *; simpl; intuition lia.
Qed.

Lemma carve_ok lo s1 e s2 b span :
  segs_ok fw lo (s1 ++ e :: s2) -> m_addr e <= b -> 0 < span -> b + span <= seg_end e ->
  segs_ok fw lo (s1 ++ carve e b span ++ s2) /\
  (forall x, free (s1 ++ e :: s2) x <-> free (s1 ++ carve e b span ++ s2) x \/ b <= x < b + span) /\
  (forall x, b <= x < b + span -> ~ free (s1 ++ carve e b span ++ s2) x).
Proof.
  intros H Hb Hsp Hst. pose proof H as H'. apply segs_ok_app in H as [H1 (He1&He2&He3&H2)].
  assert (forall x, free s2 x -> seg_end e < x) as A2 by (intros; by eapply free_above).
  assert (forall x, free s1 x -> x < m_addr e) as A1.
  { intros x (y&Hy&?). pose proof (seg_end_le_last _ _ _ _ H1 Hy). lia. }
  split; [|split].
  - rewrite !segs_ok_app. split; [done|]. unfold carve.
    destruct (Z.eqb_spec b (m_addr e)), (Z.eqb_spec (b + span) (seg_end e));
      simpl; unfold seg_end in *; simpl; repeat split; try lia; (eapply segs_ok_weaken; [|exact H2]; simpl; lia).
  - intros x. rewrite !free_app, free_cons, free_carve by done.
    destruct (decide (x < b)), (decide (x < b + span)); intuition lia.
  - intros x Hx. rewrite !free_app, free_carve by done.
    specialize (A1 x). specialize (A2 x). intuition lia.
Qed.

Section Next.
  Context (span next : Z) (spare : bool).
  Hypothesis Hspan : 0 < span < 2 ^ 32.
  Hypothesis Hspan_al : span mod 2 ^ k = 0.
  Hypothesis Hnext : 0 <= next < 2 ^ 32.

(** A base the search may return for [e]. *)
Definition offer (e : mapent) (b : Z) : Prop :=
  m_addr e <= b /\ b + span <= seg_end e /\ b mod 2 ^ k = 0 /\
  (spare = false -> b = m_addr e \/ b = seg_end e - span).

Lemma next_candidate_ok pass0 lo e s :
  segs_ok fw lo (e :: s) -> 0 <= lo -> aligned (e :: s) ->
  (exists b, next_candidate pass0 spare (2 ^ k) span next e = Ok (Some b) /\ offer e b /\
     (if pass0 then next <= b else m_addr e < next)) \/
  next_candidate pass0 spare (2 ^ k) span next e = Ok None /\
  (span <= m_size e -> if pass0 then m_addr e < next else next <= m_addr e).
Proof.
  intros (?&?&?&_) Hlo [[Ha Hs] _]%Forall_cons. pose proof pow_k_pos. pose proof (fw_range fw Hfw).
  unfold next_candidate, offer, seg_end in *. rewrite !land_pow2_mod, Ha, Hs by lia. simpl.
  rewrite (trunc_small 32 (m_addr e + m_size e)) by lia.
  destruct (Z.ltb_spec (m_addr e + m_size e) (m_addr e)); [lia|].
  destruct (Z.ltb_spec (m_size e) span); [right; split; [done|lia]|].
  rewrite !(trunc_small 32 (m_addr e + m_size e - span)) by lia.
  assert ((m_addr e + m_size e - span) mod 2 ^ k = 0) as Hend by (apply mod_eq_sub; [lia|apply mod_eq_add; auto; lia|done]).
  destruct pass0.
  - set (c := if m_addr e <? next then next else m_addr e).
    assert (m_addr e <= c /\ next <= c /\ c < 2 ^ 32 /\ (next <= m_addr e -> c = m_addr e)) as (?&?&?&Hc)
      by (unfold c; destruct (Z.ltb_spec (m_addr e) next); lia).
    assert (2 ^ k <= span) by (apply Z.divide_pos_le; [lia|apply Z.mod_divide; lia]).
    destruct (Z.ltb_spec (2 ^ 32 - 1 - (2 ^ k - 1)) c); [right; split; [done|lia]|].
    fold (round_up c). destruct (round_up_spec c) as [? Hral]; [lia..|].
    assert (next <= m_addr e -> round_up c <= m_addr e).
    { intros Hn. rewrite (Hc Hn) in *. apply (mod_eq_lt _ _ (2 ^ k)); auto; lia. }
    destruct (Z.ltb_spec (m_addr e + m_size e - span) (round_up c)); [right; split; [done|lia]|left].
    destruct spare; simpl; [eexists; split; [done|]; repeat split; auto; lia|].
    destruct (Z.eqb_spec (round_up c) (m_addr e)), (Z.eqb_spec (round_up c) (m_addr e + m_size e - span));
      simpl; try (eexists; split; [done|]; repeat split; auto; lia).
    destruct (Z.ltb_spec (m_addr e + m_size e - span) next); [lia|].
    eexists; split; [done|]; repeat split; auto; lia.
  - destruct (Z.leb_spec next (m_addr e)); [right; split; [done|lia]|].
    rewrite Z.eqb_refl, andb_false_r. simpl. left. exists (m_addr e). repeat split; auto; lia.
Qed.

Lemma next_scan_ok pass0 lo segs rest :
  segs_ok fw lo segs -> 0 <= lo -> aligned segs ->
  (exists s1 e s2 b, segs = s1 ++ e :: s2 /\ offer e b /\
     next_scan pass0 spare (2 ^ k) span next (segs ++ map_end :: rest) = Ok (Some (length s1, b))) \/
  next_scan pass0 spare (2 ^ k) span next (segs ++ map_end :: rest) = Ok None /\
  Forall (fun e => span <= m_size e -> if pass0 then m_addr e < next else next <= m_addr e) segs.
Proof.
  revert lo. induction segs as [|e s IH]; intros lo H Hlo Hal; [right; by split|].
  pose proof H as (?&?&?&H2). pose proof Hal as [_ Hal2]%Forall_cons. cbn [app next_scan].
  destruct (Z.eqb_spec (m_size e) 0); [lia|].
  destruct (next_candidate_ok pass0 lo e s H Hlo Hal) as [(b&->&Ho&_)|[-> Hn]]; simpl.
  - left. by exists [], e, s, b.
  - destruct (IH _ H2) as [(s1&e'&s2&b&->&Ho&->)|[-> ?]]; [unfold seg_end in *; lia|done|left|right]; simpl.
    + by exists (e :: s1), e', s2, b.
    + split; [done|]. by constructor.
Qed.

Lemma next_take_ok s1 e s2 b rest :
  segs_ok fw 0 (s1 ++ e :: s2) -> offer e b -> (spare = true -> rest <> []) ->
  exists rest',
    next_take fw ((s1 ++ e :: s2) ++ map_end :: rest) (length (s1 ++ e :: s2)) (length s1) b span =
      Ok ((s1 ++ carve e b span ++ s2) ++ map_end :: rest') /\
    length ((s1 ++ carve e b span ++ s2) ++ map_end :: rest') = length ((s1 ++ e :: s2) ++ map_end :: rest).
Proof.
  intros H (Hb&Hbe&_&Hsp) Hrest. pose proof (fw_range fw Hfw).
  destruct (segs_ok_bounds _ _ _ e H) as (?&?&?); [set_solver|].
  pose proof (proj2 (proj1 (segs_ok_app _ _ _ _) H)) as (_&_&_&Hs2).
  unfold next_take, carve, seg_end in *. rewrite <- app_assoc. simpl.
  rewrite (rd_ok _ _ e) by by apply list_lookup_middle. simpl.
  rewrite (trunc_small 32 (m_addr e + m_size e)), (trunc_small 32 (m_addr e + m_size e - span)) by lia.
  assert (forall y t, <[length s1:=y]> (s1 ++ e :: t) = s1 ++ y :: t) as Hins.
  { intros. by rewrite insert_app_r_alt, Nat.sub_diag by lia. }
  rewrite !wr_ok by (rewrite length_app; simpl; lia). rewrite !Hins.
  destruct (Z.eqb_spec b (m_addr e)) as [->|Hne]; simpl.
  - rewrite !trunc_small by lia.
    destruct (Z.eqb_spec (m_size e - span) 0), (Z.eqb_spec (m_addr e + span) (m_addr e + m_size e)); try lia.
    + rewrite drop_app_length, (shift_left_live fw _ _ _ _ Hs2). simpl. rewrite take_app_length.
      exists (map_end :: rest). rewrite <- !app_assoc, !length_app. simpl. rewrite !length_app. simpl. split; [done|lia].
    + exists rest. rewrite <- !app_assoc, !length_app. simpl. rewrite length_app. 
      replace (m_addr e + m_size e - (m_addr e + span)) with (m_size e - span) by lia. split; [done|simpl; lia].
  - destruct (Z.eqb_spec b (m_addr e + m_size e - span)) as [->|Hne'].
    + destruct (Z.eqb_spec (m_addr e + m_size e - span + span) (m_addr e + m_size e)); [|lia].
      exists rest. rewrite <- !app_assoc, !length_app. simpl. rewrite !length_app. rewrite !trunc_small by lia.
      replace (m_addr e + m_size e - span - m_addr e) with (m_size e - span) by lia. split; [done|simpl; lia].
    + destruct spare; [|destruct Hsp; done || lia]. destruct rest as [|z rest]; [by destruct (Hrest eq_refl)|].
      destruct (Z.eqb_spec (b + span) (m_addr e + m_size e)); [lia|].
      replace (length (s1 ++ e :: s2) - length s1)%nat with (length (s2 ++ [map_end]))
        by (rewrite !length_app; simpl; lia).
      replace (S (length s1)) with (length (s1 ++ [e])) by (rewrite length_app; simpl; lia).
      replace (s1 ++ e :: s2 ++ map_end :: z :: rest) with ((s1 ++ [e]) ++ (s2 ++ [map_end]) ++ z :: rest)
        by by rewrite <- !app_assoc.
      rewrite (copy_up_spec _ _ _ _ map_end). cbn [mbind outcome_bind].
      rewrite wr_ok by (rewrite !length_app; simpl; lia). rewrite insert_app_r_alt, Nat.sub_diag by lia.
      cbn [mbind outcome_bind list_insert insert list_insert].
      rewrite wr_ok by (rewrite !length_app; simpl; lia). rewrite <- app_assoc. cbn [app].
      rewrite Hins, !(trunc_small fw (b + span)), !trunc_small by (rewrite ?trunc_small; lia).
      exists rest. rewrite <- !app_assoc. split; [done|]. rewrite !length_app. simpl. lia.
Qed.

End Next.

Lemma aligned_carve s1 e s2 b span :
  aligned (s1 ++ e :: s2) -> b mod 2 ^ k = 0 -> span mod 2 ^ k = 0 ->
  aligned (s1 ++ carve e b span ++ s2).
Proof.
  unfold aligned, carve, seg_end. rewrite !Forall_app, Forall_cons. intros (H1&[Ha Hs]&H2) Hb Hsp.
  pose proof pow_k_pos.
  repeat split; auto; destruct (_ =? _); repeat constructor; simpl; auto with kern lia.
  all: repeat first [apply mod_eq_sub|apply mod_eq_add]; done || lia.
Qed.

(** The arithmetic guards shared by the two aligned allocators. *)
Definition run_total (d_size s_size u_size : Z) : Prop :=
  0 <= d_size /\ 0 <= s_size /\ 0 <= u_size /\
  0 < d_size + s_size + u_size <= 2 ^ 32 - 1 - (2 ^ k - 1).

Lemma run_guards d s u :
  run_total d s u ->
  ((2 ^ 32 - 1 - s <? d) || (2 ^ 32 - 1 - u <? u32 (d + s))) = false /\
  u32 (d + s + u) = d + s + u /\
  ((d + s + u =? 0) || (2 ^ 32 - 1 - (2 ^ k - 1) <? d + s + u)) = false.
Proof.
  intros (?&?&?&?). pose proof pow_k_pos. rewrite !trunc_small by lia.
  repeat split; apply orb_false_intro; (apply Z.ltb_ge || apply Z.eqb_neq); lia.
Qed.

(** What a successful search commits. *)
Lemma next_commit d s u span spare segs rest lim s1 e s2 b :
  segs_ok fw 0 segs -> length (segs ++ map_end :: rest) = S lim -> aligned segs ->
  d + s + u <= span < d + s + u + 2 ^ k -> span mod 2 ^ k = 0 ->
  0 <= d /\ 0 <= s /\ 0 <= u /\ 0 < span < 2 ^ 32 ->
  (spare = true -> rest <> []) -> segs = s1 ++ e :: s2 -> offer span spare e b ->
  exists mp' segs',
  (l' ← next_take fw (segs ++ map_end :: rest) (length segs) (length s1) b span;
   Ok (span, Map l' lim, Some (u32 (b + span)), (b, u32 (b + d), u32 (u32 (b + d) + s)))) =
   Ok (span, mp', Some (b + span), (b, b + d, b + d + s)) /\
  0 < b /\ b mod 2 ^ k = 0 /\ d + s + u <= span < d + s + u + 2 ^ k /\
  map_rep fw mp' segs' /\ aligned segs' /\
  (forall x, free segs x <-> free segs' x \/ b <= x < b + span) /\
  (forall x, b <= x < b + span -> ~ free segs' x).
Proof.
  intros Hok Hlen Hal Hsp Hspal ? Hspare -> Ho. pose proof Ho as (Hb1&Hb2&Hb3&_).
  pose proof pow_k_pos. pose proof (fw_range fw Hfw).
  destruct (segs_ok_bounds _ _ _ e Hok) as (?&?&?); [set_solver|].
  destruct (next_take_ok span 0 spare ltac:(lia) Hspal ltac:(lia) s1 e s2 b rest Hok Ho Hspare) as (rest'&->&Hlen').
  destruct (carve_ok 0 s1 e s2 b span Hok) as (Hok'&Hfr&Hnf); [lia..|].
  eexists _, (s1 ++ carve e b span ++ s2). simpl. rewrite !(trunc_small 32 (b + d)), !trunc_small by lia.
  split; [done|]. split; [lia|]. split; [done|]. split; [lia|].
  split; [split; [done|simpl; split; [congruence|by eexists]]|]. split; [by apply aligned_carve|done].
Qed.

Lemma next_returns (mp : map) (segs : list mapent) (d s u next : Z) (a : Z * Z * Z) :
  map_rep fw mp segs -> aligned segs -> run_total d s u -> 0 <= next < 2 ^ 32 ->
  let span := round_up (d + s + u) in
  (malloc3_contiguous_next fw mp d s u (2 ^ k) (Some next) a = Ok (0, mp, Some next, a) /\
   Forall (fun e => m_size e < span) segs) \/
  exists base mp' segs',
    malloc3_contiguous_next fw mp d s u (2 ^ k) (Some next) a =
      Ok (span, mp', Some (base + span), (base, base + d, base + d + s)) /\
    0 < base /\ base mod 2 ^ k = 0 /\ d + s + u <= span < d + s + u + 2 ^ k /\
    map_rep fw mp' segs' /\ aligned segs' /\
    (forall x, free segs x <-> free segs' x \/ base <= x < base + span) /\
    (forall x, base <= x < base + span -> ~ free segs' x).
Proof.
  intros Hrep Hal Hrun Hnext span. pose proof pow_k_pos. pose proof (fw_range fw Hfw).
  destruct (run_guards _ _ _ Hrun) as (Hg1&Ht&Hg2). destruct Hrun as (?&?&?&?).
  unfold malloc3_contiguous_next. rewrite align_test, Hg1, Ht, Hg2. fold (round_up (d + s + u)). fold span.
  destruct (round_up_spec (d + s + u)) as [Hsp Hspal]; [lia..|]. fold span in Hsp, Hspal.
  assert (span < 2 ^ 32).
  { enough (span <= 2 ^ 32 - 2 ^ k) by lia. apply (mod_eq_lt _ _ (2 ^ k)); try done; try lia.
    replace 32 with (32 - k + k) by lia. rewrite Z.pow_add_r by lia.
    rewrite <- Z.mul_pred_l. apply Z_mod_mult. }
  destruct mp as [l lim], Hrep as (Hok&Hlen&rest&Hl). simpl in Hl, Hlen. subst l. cbn [m_map m_limit].
  rewrite (to_end_live fw 0) by done. cbn [mbind outcome_bind].
  set (spare := bool_decide (length segs < lim)%nat).
  assert (spare = true -> rest <> []) as Hspare.
  { unfold spare. rewrite bool_decide_eq_true. intros ? ->. rewrite length_app in Hlen. simpl in Hlen. lia. }
  assert (forall s1 e s2 b, segs = s1 ++ e :: s2 -> offer span spare e b -> _) as Hdone
    by (intros s1 e s2 b Heq Ho; exact (next_commit d s u span spare segs rest lim s1 e s2 b
          Hok Hlen Hal Hsp Hspal ltac:(lia) Hspare Heq Ho)).
  destruct (next_scan_ok span next spare ltac:(lia) Hspal Hnext true 0 segs rest Hok) as [(s1&e&s2&b&Heq&Ho&->)|[-> F0]];
    [lia|done|right|]; cbn [mbind outcome_bind].
  { exists b. by apply (Hdone s1 e s2). }
  destruct (next_scan_ok span next spare ltac:(lia) Hspal Hnext false 0 segs rest Hok) as [(s1&e&s2&b&Heq&Ho&->)|[-> F1]];
    [lia|done|right|left]; cbn [mbind outcome_bind].
  { exists b. by apply (Hdone s1 e s2). }
  split; [done|]. apply Forall_forall. intros e He. rewrite Forall_forall in F0, F1.
  specialize (F0 _ He). specialize (F1 _ He). lia.
Qed.

(** C3. The swap allocator of the rp2040 kernels, [malloc3_contiguous_next],
    on an aligned map: it takes one aligned run [base, base + span) out of
    the free units and nothing else, keeps the map well formed and aligned,
    lays data, stack and u area consecutively in the run and moves the
    cursor to its end; or it returns 0 and changes nothing, and then no free
    segment is as large as the run, whatever the cursor and however many
    descriptors are in use ("descriptor pressure cannot turn a fitting
    allocation into a false shortage"). *)
Theorem malloc3_contiguous_next_spec (mp : map) (segs : list mapent) (d s u next : Z) (a : Z * Z * Z) :
  map_rep fw mp segs -> aligned segs -> run_total d s u -> 0 <= next < 2 ^ 32 ->
  let span := round_up (d + s + u) in
  (malloc3_contiguous_next fw mp d s u (2 ^ k) (Some next) a = Ok (0, mp, Some next, a) /\
   Forall (fun e => m_size e < span) segs) \/
  exists base mp' segs',
    malloc3_contiguous_next fw mp d s u (2 ^ k) (Some next) a =
      Ok (span, mp', Some (base + span), (base, base + d, base + d + s)) /\
    0 < base /\ base mod 2 ^ k = 0 /\ d + s + u <= span < d + s + u + 2 ^ k /\
    map_rep fw mp' segs' /\ aligned segs' /\
    (forall x, free segs x <-> free segs' x \/ base <= x < base + span) /\
    (forall x, base <= x < base + span -> ~ free segs' x).
Proof. by apply next_returns. Qed.

End Aligned.

(** ** Witnesses: the theorems at concrete maps *)

(** Two free runs in a map of four slots. *)
Definition map_ex : map := Map [Mapent 4 4; Mapent 8 12; map_end; map_end] 3.

Lemma map_ex_rep : map_rep 16 map_ex [Mapent 4 4; Mapent 8 12].
Proof. split; [simpl; unfold seg_end; simpl; lia|]. split; [done|]. by exists [map_end]. Qed.

Lemma free_ex x : free [Mapent 4 4; Mapent 8 12] x <-> 4 <= x < 8 \/ 12 <= x < 20.
Proof. rewrite !free_cons. unfold seg_end. simpl. pose proof (free_nil x). intuition lia. Qed.

Lemma malloc_spec_witness :
  malloc 16 map_ex 6 = Ok (12, Map [Mapent 4 4; Mapent 2 18; map_end; map_end] 3) /\
  ((malloc 16 map_ex 6 = Ok (0, map_ex) /\ Forall (fun e => m_size e < 6) [Mapent 4 4; Mapent 8 12]) \/
   exists a mp' segs', malloc 16 map_ex 6 = Ok (a, mp') /\ 0 < a /\ map_rep 16 mp' segs' /\
     (forall x, free [Mapent 4 4; Mapent 8 12] x <-> free segs' x \/ a <= x < a + 6) /\
     (forall x, a <= x < a + 6 -> ~ free segs' x) /\
     Forall (fun e => 6 <= m_size e -> a <= m_addr e) [Mapent 4 4; Mapent 8 12]).
Proof. split; [reflexivity|]. apply (malloc_spec 16); [lia|apply map_ex_rep|lia]. Defined.

Lemma mfree_spec_witness :
  mfree 16 map_ex 4 8 = Ok (Map [Mapent 16 4; map_end; map_end; map_end] 3, None) /\
  ((exists mp' segs', mfree 16 map_ex 4 8 = Ok (mp', None) /\ map_rep 16 mp' segs' /\
     (forall x, free segs' x <-> free [Mapent 4 4; Mapent 8 12] x \/ 8 <= x < 8 + 4)) \/
   (mfree 16 map_ex 4 8 = Ok (map_ex, Some (4, 8)) /\ 2%nat = 3%nat /\
     Forall (fun e => seg_end e <> 8 /\ m_addr e <> 8 + 4) [Mapent 4 4; Mapent 8 12])).
Proof.
  split; [reflexivity|].
  apply (mfree_spec 16 ltac:(lia) map_ex [Mapent 4 4; Mapent 8 12] 4 8); try lia; [apply map_ex_rep|].
  intros x Hx. rewrite free_ex. lia.
Defined.

Lemma malloc_mfree_roundtrip_witness :
  exists mp'', mfree 16 (Map [Mapent 4 4; Mapent 2 18; map_end; map_end] 3) 6 12 = Ok (mp'', None) /\
    map_rep 16 mp'' [Mapent 4 4; Mapent 8 12].
Proof.
  apply (malloc_mfree_roundtrip 16 ltac:(lia) map_ex); [apply map_ex_rep|lia|reflexivity|lia].
Defined.

Lemma malloc3_contiguous_next_spec_witness :
  malloc3_contiguous_next 16 map_ex 1 2 0 4 (Some 13) (0, 0, 0) =
    Ok (4, Map [Mapent 4 4; Mapent 4 12; map_end; map_end] 3, Some 20, (16, 17, 19)) /\
  let span := round_up 2 (1 + 2 + 0) in
  (malloc3_contiguous_next 16 map_ex 1 2 0 (2 ^ 2) (Some 13) (0, 0, 0) = Ok (0, map_ex, Some 13, (0, 0, 0)) /\
   Forall (fun e => m_size e < span) [Mapent 4 4; Mapent 8 12]) \/
  exists base mp' segs',
    malloc3_contiguous_next 16 map_ex 1 2 0 (2 ^ 2) (Some 13) (0, 0, 0) =
      Ok (span, mp', Some (base + span), (base, base + 1, base + 1 + 2)) /\
    0 < base /\ base mod 2 ^ 2 = 0 /\ 1 + 2 + 0 <= span < 1 + 2 + 0 + 2 ^ 2 /\
    map_rep 16 mp' segs' /\ aligned 2 segs' /\
    (forall x, free [Mapent 4 4; Mapent 8 12] x <-> free segs' x \/ base <= x < base + span) /\
    (forall x, base <= x < base + span -> ~ free segs' x).
Proof.
  split; [reflexivity|].
  apply (malloc3_contiguous_next_spec 16 ltac:(lia) 2 ltac:(lia)); try lia;
    [apply map_ex_rep|repeat constructor|unfold run_total; lia].
Defined.
