(* ===== verification/SwapSpace.v ===== *)
(** * The swap map over time ([sys/kern/init_main.c], [sys/kern/subr_rmap.c],
    [sys/arch/rp2040/rp2040/machdep.c], [sys/arch/rp2040/include/machparam.h])

    The rp2040 kernels keep raw swap in one resource map of SMAPSIZ
    descriptors. [main] returns the whole swap unit to it, the swapper, exec
    and the temporary devices take aligned runs with the next-fit allocator
    and give each run back whole. This file states that discipline as a step
    relation over the operations of [Rmap] and shows that it never loses
    space: the sizing argument in the comment above SMAPSIZ. It also models
    the cursor that survives a software reset. *)
From S2P Require Import Prelude Rmap.

Definition SMAPSIZ : nat := 29.
Definition SWAP_IMAGE_ALIGN : Z := 4.

(** [swapent] and [swapmap] before [main]: zeroed memory. *)
Definition swapmap_init : map := Map (replicate SMAPSIZ map_end) (SMAPSIZ - 1).

(** The stm32 port declares the same map with [&swapent[SMAPSIZ]], one past
    the array, as the address of its last slot. *)
Definition swapmap_stm32 (smapsiz : nat) : map := Map (replicate smapsiz map_end) smapsiz.

(** The swap part of [main]. *)
Definition swap_init (mp : map) (nswap : Z) : outcome map :=
  if nswap <=? SWAP_IMAGE_ALIGN then Panic "swap size"
  else r ← mfree 16 mp (nswap - SWAP_IMAGE_ALIGN) SWAP_IMAGE_ALIGN; Ok (fst r).

(** ** The next-fit cursor in the watchdog scratch word *)
Definition SWAP_CURSOR_TAG : Z := 0x53575000.
Definition SWAP_CURSOR_TAG_MASK : Z := 0xffffff00.

(** The build option for a swap unit in PSRAM, which the modelled board does
    not take. *)
Definition PSRAM_ENABLED : bool := false.

(** [swap_cursor_publish]: the word written to the scratch register. *)
Definition swap_cursor_publish (nswap next : Z) : Z :=
  let index :=
    if (next <? SWAP_IMAGE_ALIGN) || (nswap <? next) || negb (Z.land next (SWAP_IMAGE_ALIGN - 1) =? 0)
    then 0
    else if next =? nswap then 0
    else (next - SWAP_IMAGE_ALIGN) / SWAP_IMAGE_ALIGN in
  let index := if PSRAM_ENABLED then Z.land index 0xff else index in
  Z.lor SWAP_CURSOR_TAG index.

(** Seven reads of ROSC_RANDOMBIT: [bits] is what the oscillator returns. *)
Fixpoint rosc_sample (bits : nat -> Z) (from n : nat) (sample : Z) : Z :=
  match n with
  | O => sample
  | S n' => rosc_sample bits (S from) n' (Z.lor (u32 (Z.shiftl sample 1)) (Z.land (bits from) 1))
  end.

(** Eight tries of rejection sampling. *)
Fixpoint rosc_index (bits : nat -> Z) (from tries : nat) (sectors : Z) : Z :=
  match tries with
  | O => 0
  | S t =>
      let sample := rosc_sample bits from 7 0 in
      if sample <? sectors then sample else rosc_index bits (from + 7) t sectors
  end.

(** [swap_cursor_init]: [swapnext], and the word published back. *)
Definition swap_cursor_init (bits : nat -> Z) (scratch nswap blocks : Z) : Z * Z :=
  let sectors := u32 (blocks - SWAP_IMAGE_ALIGN) / SWAP_IMAGE_ALIGN in
  let index := Z.land scratch 0xff in
  let index :=
    if negb (Z.land scratch SWAP_CURSOR_TAG_MASK =? SWAP_CURSOR_TAG) || (sectors <=? index)
    then rosc_index bits 0 8 sectors else index in
  let swapnext := SWAP_IMAGE_ALIGN + index * SWAP_IMAGE_ALIGN in
  (swapnext, swap_cursor_publish nswap swapnext).

(** ** The discipline *)

(** The map, the cursor and the runs handed out, as [(base, span)]. *)
Record swap := Swap { sw_map : map; sw_next : Z; sw_live : list (Z * Z) }.

(** The run-time limit the comment above SMAPSIZ counts. *)
Definition max_live : nat := 27.

Inductive swap_step : swap -> swap -> Prop :=
| step_alloc mp next live d s u a span mp' next' addrs :
    run_total 2 d s u -> (length live < max_live)%nat ->
    malloc3_contiguous_next 16 mp d s u SWAP_IMAGE_ALIGN (Some next) a =
      Ok (span, mp', Some next', addrs) -> span <> 0 ->
    swap_step (Swap mp next live) (Swap mp' next' ((fst (fst addrs), span) :: live))
| step_full mp next live d s u a mp' next' addrs :
    run_total 2 d s u ->
    malloc3_contiguous_next 16 mp d s u SWAP_IMAGE_ALIGN (Some next) a =
      Ok (0, mp', Some next', addrs) ->
    swap_step (Swap mp next live) (Swap mp' next' live)
| step_free mp next l1 base span l2 mp' lost :
    mfree 16 mp span base = Ok (mp', lost) ->
    swap_step (Swap mp next (l1 ++ (base, span) :: l2)) (Swap mp' next (l1 ++ l2)).

Inductive swap_reachable (nswap : Z) : swap -> Prop :=
| reach_init mp next :
    swap_init swapmap_init nswap = Ok mp -> 0 <= next < 2 ^ 32 ->
    swap_reachable nswap (Swap mp next [])
| reach_step st st' : swap_reachable nswap st -> swap_step st st' -> swap_reachable nswap st'.

(** ** The invariant *)

Definition in_run (x : Z) (r : Z * Z) : Prop := fst r <= x < fst r + snd r.
Definition runs_apart (r r' : Z * Z) : Prop := forall x, in_run x r -> ~ in_run x r'.

Fixpoint pairwise_apart (live : list (Z * Z)) : Prop :=
  match live with
  | [] => True
  | r :: l => Forall (runs_apart r) l /\ pairwise_apart l
  end.

(** The swap unit is exactly partitioned into free units and live runs. *)
Definition swap_inv (nswap : Z) (st : swap) : Prop :=
  exists segs,
    map_rep 16 (sw_map st) segs /\ m_limit (sw_map st) = (SMAPSIZ - 1)%nat /\
    aligned 2 segs /\ 0 <= sw_next st < 2 ^ 32 /\
    Forall (fun r => 0 < snd r /\ fst r mod 4 = 0 /\ snd r mod 4 = 0) (sw_live st) /\
    pairwise_apart (sw_live st) /\
    (length (sw_live st) <= max_live)%nat /\
    (forall x, SWAP_IMAGE_ALIGN <= x < nswap <-> free segs x \/ Exists (in_run x) (sw_live st)) /\
    (forall x, free segs x -> ~ Exists (in_run x) (sw_live st)).

Lemma filter_length_lt {A} (P Q : A -> Prop) `{!forall x, Decision (P x), !forall x, Decision (Q x)} (l : list A) x :
  (forall y, Q y -> P y) -> x ∈ l -> P x -> ~ Q x ->
  (length (filter Q l) < length (filter P l))%nat.
Proof.
  intros HQP Hx HP HQ.
  assert (forall l', length (filter Q l') <= length (filter P l'))%nat as Hle.
  { induction l' as [|y l' IH]; [done|]. rewrite !filter_cons. repeat case_decide; simpl; try lia; exfalso; eauto. }
  induction l as [|y l IH]; [set_solver|]. rewrite !filter_cons. specialize (Hle l).
  apply elem_of_cons in Hx as [->|Hx].
  - rewrite decide_False, decide_True by done. simpl. lia.
  - specialize (IH Hx). repeat case_decide; simpl; try lia; exfalso; eauto.
Qed.

(** Two free runs are separated by a live one, so there is at most one free
    run more than there are live ones. *)
Lemma runs_bound fw segs live lo hi :
  segs_ok fw lo segs ->
  (forall x, free segs x -> x < hi) ->
  (forall x, lo < x < hi -> forall e, head segs = Some e -> m_addr e <= x -> free segs x \/ Exists (in_run x) live) ->
  (forall x, free segs x -> ~ Exists (in_run x) live) ->
  (length segs <= 1 + length (filter (fun r => (lo < fst r)%Z) live))%nat.
Proof.
  revert lo. induction segs as [|e1 s IH]; intros lo H Hhi Hcov Hd; [simpl; lia|].
  destruct s as [|e2 s]; [simpl; lia|].
  destruct H as (?&?&?&H). pose proof H as (?&?&?&H'). unfold seg_end in *.
  assert (free (e1 :: e2 :: s) (m_addr e2)) as F2 by (rewrite !free_cons; unfold seg_end; lia).
  specialize (Hhi _ F2) as Hh2.
  destruct (Hcov (m_addr e1 + m_size e1)) with (e := e1) as [F|Hex]; simpl; try done; try lia.
  { rewrite !free_cons in F. unfold seg_end in F.
    destruct F as [?|[?|F]]; [lia..|]. apply (free_above fw (seg_end e2)) in F; [unfold seg_end in F; lia|done]. }
  apply Exists_exists in Hex as ([a n]&Hin&Hr). unfold in_run in Hr. simpl in Hr.
  assert (m_addr e1 < a).
  { destruct (Z.lt_ge_cases (m_addr e1) a); [done|]. destruct (Hd (m_addr e1)).
    - rewrite !free_cons. unfold seg_end. lia.
    - apply Exists_exists. exists (a, n). split; [done|]. unfold in_run. simpl. lia. }
  assert (length (filter (fun r => (m_addr e1 + m_size e1 < fst r)%Z) live)
          < length (filter (fun r => (lo < fst r)%Z) live))%nat as Hlt.
  { apply (filter_length_lt _ _ _ (a, n)); simpl; try done; intros; lia. }
  specialize (IH (m_addr e1 + m_size e1) H). simpl in *.
  enough (S (length s) <= S (length (filter (fun r => (m_addr e1 + m_size e1 < fst r)%Z) live)))%nat by lia.
  apply IH; try lia.
  - intros x F. apply Hhi. rewrite free_cons. by right.
  - intros x ? e [= <-] ?. destruct (Hcov x) with (e := e1) as [F|?]; auto; try lia.
    rewrite free_cons in F. unfold seg_end in F. destruct F as [?|F]; [lia|by left].
  - intros x F. apply Hd. rewrite free_cons. by right.
Qed.

Lemma filter_length {A} (P : A -> Prop) `{!forall x, Decision (P x)} (l : list A) :
  (length (filter P l) <= length l)%nat.
Proof. induction l; [done|]. rewrite filter_cons. case_decide; simpl; lia. Qed.

Lemma pairwise_apart_app l1 r l2 :
  pairwise_apart (l1 ++ r :: l2) ->
  pairwise_apart (l1 ++ l2) /\ forall x, in_run x r -> ~ Exists (in_run x) (l1 ++ l2).
Proof.
  induction l1 as [|r' l1 IH]; simpl.
  - intros [Hf Hp]. split; [done|]. intros x Hx [r2 [Hi ?]]%Exists_exists.
    rewrite Forall_forall in Hf. by apply (Hf r2 Hi x).
  - intros [Hf Hp]. destruct (IH Hp) as [IHp IHx]. rewrite Forall_app, Forall_cons in Hf.
    destruct Hf as (?&Hrr&?). split; [split; [by apply Forall_app|done]|].
    intros x Hx. rewrite Exists_cons. intros [Hr|?]; [by apply (Hrr x)|by apply (IHx x)].
Qed.

Lemma swap_init_inv nswap mp next :
  SWAP_IMAGE_ALIGN < nswap < 2 ^ 16 -> nswap mod 4 = 0 -> 0 <= next < 2 ^ 32 ->
  swap_init swapmap_init nswap = Ok mp -> swap_inv nswap (Swap mp next []).
Proof.
  unfold swap_init, SWAP_IMAGE_ALIGN. intros Hn Hmod Hnx.
  destruct (Z.leb_spec nswap 4); [lia|].
  destruct (mfree_returns 16 ltac:(lia) swapmap_init [] (nswap - 4) 4)
    as [(_&Hl&_)|(mp'&segs&Hm&Hrep&Hfr)]; try lia.
  { split; [done|]. split; [done|]. by exists (replicate 28 map_end). }
  { intros x _. apply free_nil. }
  { done. }
  rewrite Hm. simpl. intros [= <-].
  assert (segs = [Mapent (nswap - 4) 4]) as ->.
  { apply (segs_canonical 16 0); [apply Hrep| |].
    - simpl. unfold seg_end. simpl. lia.
    - intros x. rewrite Hfr, free_cons. unfold seg_end. simpl. pose proof (free_nil x). intuition lia. }
  exists [Mapent (nswap - 4) 4]. simpl. split; [done|].
  split; [by rewrite (mfree_limit _ _ _ _ _ _ Hm)|].
  split; [apply Forall_singleton; simpl; split; [done|]; rewrite Zminus_mod; change (2 ^ 2) with 4; by rewrite Hmod|].
  split; [done|]. split; [done|]. split; [done|]. split; [simpl; lia|].
  setoid_rewrite Exists_nil. split; [|tauto]. intros x. rewrite free_cons. unfold seg_end. simpl.
  pose proof (free_nil x). split; intros; intuition lia.
Qed.

Section Discipline.
  Context (nswap : Z).
  Hypothesis Hn : SWAP_IMAGE_ALIGN < nswap < 2 ^ 16.

Lemma live_in_unit st r : swap_inv nswap st -> r ∈ sw_live st -> forall x, in_run x r -> SWAP_IMAGE_ALIGN <= x < nswap.
Proof.
  intros (segs&_&_&_&_&_&_&_&Hc&_) Hr x Hx. apply Hc. right. apply Exists_exists. by exists r.
Qed.

(** The free runs never outnumber the live ones by more than one. *)
Lemma swap_runs_bound live segs :
  segs_ok 16 0 segs ->
  (forall x, SWAP_IMAGE_ALIGN <= x < nswap <-> free segs x \/ Exists (in_run x) live) ->
  (forall x, free segs x -> ~ Exists (in_run x) live) ->
  (length segs <= 1 + length live)%nat.
Proof.
  intros Hrep Hc Hd. etransitivity; [|apply le_n_S, (filter_length (fun r => (0 < fst r)%Z))].
  apply (runs_bound 16 segs live 0 nswap); try done.
  - intros x F. assert (SWAP_IMAGE_ALIGN <= x < nswap) by (apply Hc; by left). lia.
  - intros x Hx e He Hle. apply Hc. split; [|lia].
    assert (free segs (m_addr e)) as F.
    { exists e. split; [destruct segs; simplify_eq/=; set_solver|].
      destruct (segs_ok_bounds 16 0 segs e) as (?&?&?); [done|destruct segs; simplify_eq/=; set_solver|].
      unfold seg_end. lia. }
    assert (SWAP_IMAGE_ALIGN <= m_addr e < nswap) by (apply Hc; by left). lia.
Qed.

Lemma freed_partition segs segs' base span l1 l2 :
  (forall x, SWAP_IMAGE_ALIGN <= x < nswap <-> free segs x \/ Exists (in_run x) (l1 ++ (base, span) :: l2)) ->
  (forall x, free segs x -> ~ Exists (in_run x) (l1 ++ (base, span) :: l2)) ->
  (forall x, in_run x (base, span) -> ~ Exists (in_run x) (l1 ++ l2)) ->
  (forall x, free segs' x <-> free segs x \/ base <= x < base + span) ->
  (forall x, SWAP_IMAGE_ALIGN <= x < nswap <-> free segs' x \/ Exists (in_run x) (l1 ++ l2)) /\
  (forall x, free segs' x -> ~ Exists (in_run x) (l1 ++ l2)).
Proof.
  intros Hc Hd Hap Hfr.
  assert (forall x, Exists (in_run x) (l1 ++ (base, span) :: l2) <->
    base <= x < base + span \/ Exists (in_run x) (l1 ++ l2)) as Hex.
  { intros x. rewrite !Exists_app, Exists_cons. unfold in_run at 2. simpl. tauto. }
  split; intros x.
  - rewrite Hc, Hfr, Hex. tauto.
  - rewrite Hfr. intros [F|F]; [specialize (Hd x F); rewrite Hex in Hd; tauto|by apply Hap].
Qed.

Lemma swap_free_ok mp next l1 base span l2 :
  swap_inv nswap (Swap mp next (l1 ++ (base, span) :: l2)) ->
  exists mp', mfree 16 mp span base = Ok (mp', None) /\ swap_inv nswap (Swap mp' next (l1 ++ l2)).
Proof.
  intros Hinv. pose proof (live_in_unit _ (base, span) Hinv ltac:(set_solver)) as Hin.
  destruct Hinv as (segs&Hrep&Hlim&Hal&Hnx&Hpos&Hpw&Hlen&Hc&Hd). simpl in *.
  destruct (pairwise_apart_app _ _ _ Hpw) as [Hpw' Hap].
  apply Forall_app in Hpos as [Hp1 [Hsp Hp2]%Forall_cons]. simpl in Hsp.
  unfold in_run in Hin. simpl in Hin. unfold SWAP_IMAGE_ALIGN in *.
  pose proof (Hin base ltac:(lia)). pose proof (Hin (base + span - 1) ltac:(lia)).
  assert (forall x, base <= x < base + span -> ~ free segs x) as Hnf.
  { intros x Hx F. apply (Hd x F). apply Exists_app. right. apply Exists_cons. by left. }
  destruct (mfree_returns 16 ltac:(lia) mp segs span base) as [(_&Hfull&Hnt)|(mp'&segs'&Hm&Hrep'&Hfr)];
    try done; try lia.
  - exfalso. destruct (insert_apart 16 ltac:(lia) segs span base) as (s'&Hok'&Hl'&Hfr'); try done; try lia.
    { apply Hrep. }
    pose proof (swap_runs_bound (l1 ++ l2) s' Hok') as Hb.
    rewrite length_app in Hb, Hlen. simpl in Hb, Hlen. unfold max_live, SMAPSIZ in *.
    destruct (freed_partition segs s' base span l1 l2) as [Hc' Hd']; try done. specialize (Hb Hc' Hd'). lia.
  - exists mp'. split; [done|]. exists segs'. simpl.
    destruct (freed_partition segs segs' base span l1 l2) as [Hc' Hd']; try done.
    rewrite length_app in *. simpl in Hlen.
    rewrite (mfree_limit _ _ _ _ _ _ Hm). destruct Hsp as (?&?&?).
    split_and!; try done; try lia; [|by apply Forall_app].
    by apply (aligned_union 16 ltac:(lia) 2 ltac:(lia) 0 segs segs' span base); [apply Hrep|apply Hrep'|..].
Qed.

Lemma swap_alloc_ok mp next live d s u a span mp' next' addrs :
  swap_inv nswap (Swap mp next live) -> run_total 2 d s u ->
  malloc3_contiguous_next 16 mp d s u SWAP_IMAGE_ALIGN (Some next) a = Ok (span, mp', Some next', addrs) ->
  (span = 0 -> swap_inv nswap (Swap mp' next' live)) /\
  (span <> 0 -> (length live < max_live)%nat ->
     swap_inv nswap (Swap mp' next' ((fst (fst addrs), span) :: live))).
Proof.
  intros (segs&Hrep&Hlim&Hal&Hnx&Hpos&Hpw&Hlen&Hc&Hd) Hrun Hm. simpl in *.
  pose proof (next_limit _ _ _ _ _ _ _ _ _ _ _ _ Hm) as Hlim'.
  destruct (next_returns 16 ltac:(lia) 2 ltac:(lia) mp segs d s u next a Hrep Hal Hrun Hnx)
    as [[Hm' _]|(base&mp1&segs'&Hm'&?&?&?&Hrep'&Hal'&Hfr&Hnf)];
    change (2 ^ 2) with SWAP_IMAGE_ALIGN in Hm'; rewrite Hm' in Hm; simplify_eq.
  - split; [|done]. intros _. by exists segs.
  - destruct Hrun as (?&?&?&?). destruct (round_up_spec 2 ltac:(lia) (d + s + u)) as [? Hral]; [lia..|].
    set (span := round_up 2 (d + s + u)) in *. clearbody span. split; [lia|]. intros _ Hroom.
    assert (SWAP_IMAGE_ALIGN <= base + span - 1 < nswap) by (apply Hc; left; apply Hfr; right; lia).
    unfold SWAP_IMAGE_ALIGN in *. exists segs'. simpl. split_and!; try done; try lia.
    + constructor; [simpl; split; [lia|done]|done].
    + apply Forall_forall. intros r Hr x Hx Hx'. apply (Hd x); [apply Hfr; right; exact Hx|].
      apply Exists_exists. by exists r.
    + intros x. rewrite Hc, Hfr, Exists_cons. unfold in_run at 2. simpl. tauto.
    + intros x F. rewrite Exists_cons. unfold in_run at 1. simpl. intros [Hx|Hx]; [by apply (Hnf x)|].
      apply (Hd x); [apply Hfr; by left|done].
Qed.

Hypothesis Hmod : nswap mod 4 = 0.

Lemma swap_reachable_inv st : swap_reachable nswap st -> swap_inv nswap st.
Proof.
  induction 1 as [mp next Hi Hnx|st st' _ IH Hst]; [by apply swap_init_inv|].
  destruct Hst as [mp next live d s u a span mp' next' addrs Hrun Hroom Hm Hsp
                  |mp next live d s u a mp' next' addrs Hrun Hm
                  |mp next l1 base span l2 mp' lost Hm].
  - by apply (swap_alloc_ok _ _ _ _ _ _ _ _ _ _ _ IH Hrun Hm).
  - by apply (swap_alloc_ok _ _ _ _ _ _ _ _ _ _ _ IH Hrun Hm).
  - destruct (swap_free_ok _ _ _ _ _ _ IH) as (mp1&Hm1&Hinv). rewrite Hm in Hm1. by simplify_eq.
Qed.
End Discipline.

(** ** Theorems *)

Lemma pairwise_apart_lookup live i j r r' :
  pairwise_apart live -> i <> j -> live !! i = Some r -> live !! j = Some r' -> runs_apart r r'.
Proof.
  revert i j. induction live as [|r0 l IH]; [done|]. intros [|i] [|j] [Hf Hp] Hij Hi Hj; simplify_eq/=; try done.
  - rewrite Forall_forall in Hf. apply Hf. by eapply list_elem_of_lookup_2.
  - rewrite Forall_forall in Hf. intros x Hx Hx'. apply (Hf r) in Hx'; [done|by eapply list_elem_of_lookup_2].
  - eapply (IH i j); eauto.
Qed.

Lemma aligned_run_sector r x y :
  fst r mod 4 = 0 -> snd r mod 4 = 0 -> in_run x r -> x / 4 = y / 4 -> in_run y r.
Proof.
  unfold in_run. intros H1 H2 Hx Hq.
  apply Z.mod_divide in H1 as [p Hp], H2 as [q Hq']; [|lia..]. rewrite Hp, Hq' in *.
  pose proof (Z.div_mod x 4 ltac:(lia)). pose proof (Z.div_mod y 4 ltac:(lia)).
  pose proof (Z.mod_pos_bound x 4 ltac:(lia)). pose proof (Z.mod_pos_bound y 4 ltac:(lia)). lia.
Qed.

(** C4. Swap space is never lost: in every state the discipline can reach
    from boot with at most 27 runs live, returning any live run succeeds
    without the overflow path of [mfree], and the state stays in the
    discipline. This is the sizing argument for SMAPSIZ = 29. *)
Theorem swap_never_lost (nswap : Z) (st : swap) (l1 l2 : list (Z * Z)) (base span : Z) :
  SWAP_IMAGE_ALIGN < nswap < 2 ^ 16 -> nswap mod 4 = 0 ->
  swap_reachable nswap st -> sw_live st = l1 ++ (base, span) :: l2 ->
  exists mp', mfree 16 (sw_map st) span base = Ok (mp', None) /\
    swap_reachable nswap (Swap mp' (sw_next st) (l1 ++ l2)).
Proof.
  intros Hn Hm Hr Hl. destruct st as [mp next live]. simpl in *. subst live.
  destruct (swap_free_ok nswap Hn mp next l1 base span l2) as (mp'&Hf&_); [by apply swap_reachable_inv|].
  exists mp'. split; [done|]. eapply reach_step; [exact Hr|]. by eapply step_free.
Qed.

(** C5. In every reachable state the swap unit is partitioned: a unit is
    inside it exactly when it is free or in a live run, never both, and two
    live runs never share a unit nor even a 4 KB erase sector. *)
Theorem swap_partition (nswap : Z) (st : swap) :
  SWAP_IMAGE_ALIGN < nswap < 2 ^ 16 -> nswap mod 4 = 0 -> swap_reachable nswap st ->
  exists segs, map_rep 16 (sw_map st) segs /\
    (forall x, SWAP_IMAGE_ALIGN <= x < nswap <-> free segs x \/ Exists (in_run x) (sw_live st)) /\
    (forall x, free segs x -> ~ Exists (in_run x) (sw_live st)) /\
    (forall i j r r' x y, i <> j -> sw_live st !! i = Some r -> sw_live st !! j = Some r' ->
       in_run x r -> in_run y r' -> x / 4 <> y / 4).
Proof.
  intros Hn Hm Hr. apply swap_reachable_inv in Hr as (segs&?&_&_&_&Hpos&Hpw&_&?&?); [|done..].
  exists segs. split_and!; try done. intros i j r r' x y Hij Hi Hj Hx Hy Hq.
  assert (0 < snd r' /\ fst r' mod 4 = 0 /\ snd r' mod 4 = 0) as (_&?&?).
  { rewrite Forall_forall in Hpos. apply Hpos. by eapply list_elem_of_lookup_2. }
  apply (pairwise_apart_lookup _ _ _ _ _ Hpw Hij Hi Hj x Hx).
  by apply (aligned_run_sector r' y x).
Qed.

(** The tagged word carries one byte of index. *)
Lemma cursor_word i :
  0 <= i < 256 ->
  Z.land (Z.lor SWAP_CURSOR_TAG i) 0xff = i /\
  Z.land (Z.lor SWAP_CURSOR_TAG i) SWAP_CURSOR_TAG_MASK = SWAP_CURSOR_TAG.
Proof.
  intros Hi.
  assert (forallb (fun i => (Z.land (Z.lor SWAP_CURSOR_TAG i) 0xff =? i) &&
    (Z.land (Z.lor SWAP_CURSOR_TAG i) SWAP_CURSOR_TAG_MASK =? SWAP_CURSOR_TAG)) (seqZ 0 256) = true) as H
    by by vm_compute.
  rewrite forallb_forall in H. specialize (H i). rewrite andb_true_iff, !Z.eqb_eq in H.
  apply H. apply list_elem_of_In, elem_of_seqZ. lia.
Qed.

Lemma swap_cursor_publish_eq n m :
  1 <= m <= n ->
  swap_cursor_publish (n * 4) (m * 4) = Z.lor SWAP_CURSOR_TAG (if m =? n then 0 else m - 1).
Proof.
  intros. unfold swap_cursor_publish, SWAP_IMAGE_ALIGN.
  destruct (Z.ltb_spec (m * 4) 4); [lia|]. destruct (Z.ltb_spec (n * 4) (m * 4)); [lia|].
  change (4 - 1) with (2 ^ 2 - 1). rewrite land_pow2_mod by lia. change (2 ^ 2) with 4.
  rewrite Z_mod_mult. simpl. f_equal.
  destruct (Z.eqb_spec (m * 4) (n * 4)), (Z.eqb_spec m n); try lia.
  replace (m * 4 - 4) with ((m - 1) * 4) by lia. apply Z_div_mult. lia.
Qed.

(** The next-fit cursor survives a software reset: whatever the
    oscillator returns, [swap_cursor_init] on the word [swap_cursor_publish]
    left recovers the published cursor, or the first run when the cursor had
    reached the end of the unit. *)
Theorem swap_cursor_roundtrip (bits : nat -> Z) (nswap next : Z) :
  SWAP_IMAGE_ALIGN < nswap <= 1024 -> nswap mod 4 = 0 ->
  SWAP_IMAGE_ALIGN <= next <= nswap -> next mod 4 = 0 ->
  swap_cursor_init bits (swap_cursor_publish nswap next) nswap nswap =
    (if next =? nswap then SWAP_IMAGE_ALIGN else next, swap_cursor_publish nswap next).
Proof.
  unfold SWAP_IMAGE_ALIGN. intros Hn Hm Hx Hxm.
  apply Z.mod_divide in Hm as [n ->], Hxm as [m ->]; [|lia..].
  rewrite swap_cursor_publish_eq by lia. set (i := if m =? n then 0 else m - 1).
  assert (0 <= i < 256 /\ i < n - 1) as [Hi Hi'] by (unfold i; destruct (Z.eqb_spec m n); lia).
  unfold swap_cursor_init, SWAP_IMAGE_ALIGN. destruct (cursor_word i Hi) as [-> ->].
  rewrite Z.eqb_refl. simpl negb. rewrite trunc_small by lia.
  replace (n * 4 - 4) with ((n - 1) * 4) by lia. rewrite Z_div_mult by lia.
  destruct (Z.leb_spec (n - 1) i); [lia|]. simpl orb. cbv iota.
  replace (4 + i * 4) with ((i + 1) * 4) by lia. rewrite swap_cursor_publish_eq by lia.
  destruct (Z.eqb_spec (i + 1) n); [lia|].
  destruct (Z.eqb_spec (m * 4) (n * 4)), (Z.eqb_spec m n); try lia; subst i; f_equal; f_equal; lia.
Qed.

(** C6. On the stm32 port the limit is one slot too far: once the map is
    full, returning one more separate segment does not take the overflow
    path; it writes past the end of [swapent]. *)
Theorem stm32_mfree_overrun (fw : Z) (segs : list mapent) (size addr : Z) :
  0 < fw <= 32 -> segs_ok fw 0 segs -> 0 < size -> 0 < addr -> addr + size < 2 ^ fw ->
  (forall x, addr <= x < addr + size -> ~ free segs x) ->
  Forall (fun e => seg_end e <> addr /\ m_addr e <> addr + size) segs ->
  mfree fw (Map (segs ++ [map_end]) (m_limit (swapmap_stm32 (length (segs ++ [map_end]))))) size addr = Fault.
Proof.
  intros Hfw Hok Hsz Had Hst Hd Hn.
  destruct (split_around fw 0 _ _ _ Hok Hsz Hd) as (s1&s2&->&Hb&Ha&H1&H2).
  pose proof (proj1 (segs_ok_app _ _ _ _) Hok) as [Hs1 Hs2].
  destruct (last_may_touch _ _ _ _ Hs1 Had Hb) as [[Hlt _]|(t&e&->&He)];
    [|rewrite !Forall_app, Forall_singleton in Hn; tauto].
  unfold mfree. cbn [m_map m_limit swapmap_stm32].
  destruct (Z.eqb_spec size 0); [lia|]. destruct (Z.eqb_spec addr 0); [lia|].
  rewrite (mfree_walk fw [] addr _ _ _ Hok H1 H2), read_at. cbn [mbind outcome_bind].
  rewrite (right_test fw Hfw size addr Hsz Had Hst _ _ Hs2 Ha), (no_left fw Hfw [] size addr Hsz Had Hst _ _ Hok Hlt).
  replace (touches (addr + size) s2) with false.
  2:{ destruct s2 as [|b s2]; [done|]. simpl. symmetry. apply Z.eqb_neq.
      rewrite Forall_app, Forall_cons in Hn. tauto. }
  rewrite <- !app_assoc, drop_app_length, (to_end_live fw _ _ _ Hs2). cbn [mbind outcome_bind].
  rewrite decide_False by (rewrite !length_app; simpl; lia). rewrite Nat.add_1_r. cbn [copy_up].
  rewrite (rd_ok _ _ map_end).
  2:{ rewrite lookup_app_r, lookup_app_r by lia. by replace (_ - _ - _)%nat with 0%nat by lia. }
  cbn [mbind outcome_bind]. unfold wr. rewrite decide_False; [done|]. rewrite !length_app. simpl. lia.
Qed.

(** ** Witnesses *)

(** A unit of 384 blocks, the size of the flash swap of a stock board, with
    one 10-block image out. *)
Definition swap_ex_map : map := Map (Mapent 368 16 :: replicate 28 map_end) 28.

Lemma swap_ex_reachable : swap_reachable 384 (Swap swap_ex_map 16 [(4, 12)]).
Proof.
  eapply reach_step; [apply (reach_init 384 (Map (Mapent 380 4 :: replicate 28 map_end) 28) 4); [reflexivity|lia]|].
  apply (step_alloc _ 4 [] 5 2 3 (0, 0, 0) 12 swap_ex_map 16 (4, 9, 11));
    [unfold run_total; lia|simpl; unfold max_live; lia|reflexivity|lia].
Qed.

Lemma swap_never_lost_witness :
  mfree 16 swap_ex_map 12 4 = Ok (Map (Mapent 380 4 :: replicate 28 map_end) 28, None) /\
  exists mp', mfree 16 swap_ex_map 12 4 = Ok (mp', None) /\ swap_reachable 384 (Swap mp' 16 ([] ++ [])).
Proof.
  split; [reflexivity|].
  apply (swap_never_lost 384 (Swap swap_ex_map 16 [(4, 12)])); [unfold SWAP_IMAGE_ALIGN; lia|reflexivity|..|reflexivity].
  apply swap_ex_reachable.
Defined.

Lemma swap_partition_witness :
  exists segs, map_rep 16 swap_ex_map segs /\
    (forall x, SWAP_IMAGE_ALIGN <= x < 384 <-> free segs x \/ Exists (in_run x) [(4, 12)]) /\
    (forall x, free segs x -> ~ Exists (in_run x) [(4, 12)]) /\
    (forall i j r r' x y, i <> j -> [(4, 12)] !! i = Some r -> [(4, 12)] !! j = Some r' ->
       in_run x r -> in_run y r' -> x / 4 <> y / 4).
Proof.
  apply (swap_partition 384 (Swap swap_ex_map 16 [(4, 12)])); [unfold SWAP_IMAGE_ALIGN; lia|reflexivity|].
  apply swap_ex_reachable.
Defined.

Lemma swap_cursor_roundtrip_witness :
  swap_cursor_init (fun _ => 1) (swap_cursor_publish 384 100) 384 384 = (100, swap_cursor_publish 384 100) /\
  swap_cursor_init (fun _ => 1) (swap_cursor_publish 384 100) 384 384 =
    (if 100 =? 384 then SWAP_IMAGE_ALIGN else 100, swap_cursor_publish 384 100).
Proof.
  split; [reflexivity|]. apply swap_cursor_roundtrip; unfold SWAP_IMAGE_ALIGN; reflexivity || lia.
Defined.

Lemma stm32_mfree_overrun_witness :
  mfree 32 (Map ([Mapent 2 4; Mapent 2 10] ++ [map_end]) (m_limit (swapmap_stm32 3))) 1 20 = Fault /\
  mfree 32 (Map ([Mapent 2 4; Mapent 2 10] ++ [map_end]) 2) 1 20 = Ok (Map [Mapent 2 4; Mapent 2 10; map_end] 2, Some (1, 20)).
Proof.
  split; [|reflexivity].
  apply (stm32_mfree_overrun 32 [Mapent 2 4; Mapent 2 10]); try lia.
  - simpl. unfold seg_end. simpl. lia.
  - intros x Hx. rewrite !free_cons. unfold seg_end. simpl. pose proof (free_nil x). intuition lia.
  - repeat constructor; unfold seg_end; simpl; lia.
Defined.
