(* ===== verification/SwapPool.v ===== *)
(** * The byte allocator of the compressed swap tier
    ([sys/arch/rp2040/rp2040/swapram_pool.c], [include/swapram.h])

    A first-fit allocator over a pool of bytes whose free segments lie in an
    array outside the pool. Offsets and sizes are [unsigned int]; offset 0 is
    a legal allocation, so the routines report failure with -1. The array is
    the list [p_seg], of which the first [p_used] entries are live, and the
    index loops read and write it cell by cell. The theory of free runs is
    that of [Rmap], over the same interval representation. *)
From S2P Require Import Prelude Rmap.

Definition SWAPRAM_GRAIN : Z := 4.

(** [struct swapram_seg] has the shape of a map descriptor, so the free-run
    theory of [Rmap] applies to it as it stands. *)
Abbreviation swapram_seg := mapent.
Abbreviation s_off := m_addr.
Abbreviation s_size := m_size.
Abbreviation Seg off size := (Mapent size off).

Record swapram_pool := Pool {
  p_size : Z;                   (* bytes in the pool *)
  p_nseg : nat;                 (* entries in p_seg *)
  p_used : nat;                 (* entries in use *)
  p_seg : list swapram_seg      (* free segments, address order *)
}.

(** ** Operations *)

Definition roundgrain (n : Z) : Z :=
  Z.land (u32 (n + (SWAPRAM_GRAIN - 1))) (Z.lnot (SWAPRAM_GRAIN - 1)).

Definition swapram_pool_init (size : Z) (seg : list swapram_seg) (nseg : nat) : outcome swapram_pool :=
  let psize := Z.land size (Z.lnot (SWAPRAM_GRAIN - 1)) in
  if bool_decide (nseg = 0%nat) || (psize =? 0) then Ok (Pool psize nseg 0 seg)
  else seg' ← wr seg 0 (Seg 0 psize); Ok (Pool psize nseg 1 seg').

(** [for (; i + 1 < p_used; i++) p_seg[i] = p_seg[i + 1]], [n] times. *)
Fixpoint seg_shift_down (n i : nat) (l : list swapram_seg) : outcome (list swapram_seg) :=
  match n with
  | O => Ok l
  | S n' => v ← rd l (S i); l' ← wr l i v; seg_shift_down n' (S i) l'
  end.

(** [for (j = p_used; j > i; j--) p_seg[j] = p_seg[j - 1]], [n] times. *)
Fixpoint seg_shift_up (n i : nat) (l : list swapram_seg) : outcome (list swapram_seg) :=
  match n with
  | O => Ok l
  | S n' => v ← rd l (i + n'); l' ← wr l (i + n) v; seg_shift_up n' i l'
  end.

(** The search loop of the allocator with [n] entries left from [i]. *)
Fixpoint pool_alloc_from (mp : swapram_pool) (want : Z) (n i : nat) : outcome (option Z * swapram_pool) :=
  match n with
  | O => Ok (None, mp)
  | S n' =>
      s ← rd (p_seg mp) i;
      if s_size s <? want then pool_alloc_from mp want n' (S i)
      else
        let sz := u32 (s_size s - want) in
        l ← wr (p_seg mp) i (Seg (u32 (s_off s + want)) sz);
        if sz =? 0 then
          l' ← seg_shift_down (p_used mp - 1 - i) i l;
          Ok (Some (s_off s), Pool (p_size mp) (p_nseg mp) (p_used mp - 1) l')
        else Ok (Some (s_off s), Pool (p_size mp) (p_nseg mp) (p_used mp) l)
  end.

(** [Some off] is return 0 with [*offp = off]; [None] is return -1. *)
Definition swapram_pool_alloc (mp : swapram_pool) (size : Z) : outcome (option Z * swapram_pool) :=
  let want := roundgrain size in
  if (want =? 0) || (p_size mp <? want) then Ok (None, mp)
  else pool_alloc_from mp want (p_used mp) 0.

(** [for (i = 0; i < p_used && p_seg[i].s_off < off; i++)]. *)
Fixpoint pool_find (l : list swapram_seg) (off : Z) (n i : nat) : outcome nat :=
  match n with
  | O => Ok i
  | S n' => s ← rd l i; if s_off s <? off then pool_find l off n' (S i) else Ok i
  end.

(** The end of a live segment. *)
Definition send (s : swapram_seg) : Z := u32 (s_off s + s_size s).

(** The part of the release after the checks: [i] is the first segment at or
    above [off], [below] the one before it with its index, [above] the one
    at [i]. *)
Definition pool_free_at (mp : swapram_pool) (off want : Z) (i : nat)
  (below : option (nat * swapram_seg)) (above : option swapram_seg) : outcome (bool * swapram_pool) :=
  let l := p_seg mp in
  let used := p_used mp in
  let ret l' u := Ok (true, Pool (p_size mp) (p_nseg mp) u l') in
  let touch_below := match below with Some (_, s) => send s =? off | None => false end in
  let touch_above := match above with Some s => u32 (off + want) =? s_off s | None => false end in
  match below, touch_below with
  | Some (j, s), true =>
      let sz := u32 (s_size s + want) in
      match above with
      | Some t =>
          if u32 (s_off s + sz) =? s_off t then
            l1 ← wr l j (Seg (s_off s) (u32 (sz + s_size t)));
            l2 ← seg_shift_down (used - 1 - i) i l1;
            ret l2 (used - 1)%nat
          else l1 ← wr l j (Seg (s_off s) sz); ret l1 used
      | None => l1 ← wr l j (Seg (s_off s) sz); ret l1 used
      end
  | _, _ =>
      match above, touch_above with
      | Some t, true => l1 ← wr l i (Seg off (u32 (s_size t + want))); ret l1 used
      | _, _ =>
          if decide (used = p_nseg mp) then Ok (false, mp)
          else
            l1 ← seg_shift_up (used - i) i l;
            l2 ← wr l1 i (Seg off want);
            ret l2 (S used)
      end
  end.

(** The result is [true] for return 0, [false] for -1. *)
Definition swapram_pool_free (mp : swapram_pool) (off size : Z) : outcome (bool * swapram_pool) :=
  let want := roundgrain size in
  let l := p_seg mp in
  if (want =? 0) || negb (off mod SWAPRAM_GRAIN =? 0) || (p_size mp <? u32 (off + want)) then
    Ok (false, mp)
  else
    i ← pool_find l off (p_used mp) 0;
    below ← match i with O => Ok None | S j => s ← rd l j; Ok (Some (j, s)) end;
    above ← (if decide (i < p_used mp)%nat then s ← rd l i; Ok (Some s) else Ok None);
    let overlap_below := match below with Some (_, s) => off <? send s | None => false end in
    let overlap_above := match above with Some s => s_off s <? u32 (off + want) | None => false end in
    if overlap_below || overlap_above then Ok (false, mp)
    else pool_free_at mp off want i below above.

Definition swapram_pool_trim (mp : swapram_pool) (off oldsize newsize : Z) : outcome (bool * swapram_pool) :=
  let keep := roundgrain newsize in
  let had := roundgrain oldsize in
  if had <? keep then Ok (false, mp)
  else if keep =? had then Ok (true, mp)
  else swapram_pool_free mp (u32 (off + keep)) (had - keep).

Fixpoint pool_sum (l : list swapram_seg) (n i : nat) (acc : Z) : outcome Z :=
  match n with
  | O => Ok acc
  | S n' => s ← rd l i; pool_sum l n' (S i) (u32 (acc + s_size s))
  end.

Definition swapram_pool_avail (mp : swapram_pool) : outcome Z := pool_sum (p_seg mp) (p_used mp) 0 0.

Fixpoint pool_max (l : list swapram_seg) (n i : nat) (acc : Z) : outcome Z :=
  match n with
  | O => Ok acc
  | S n' => s ← rd l i; pool_max l n' (S i) (if acc <? s_size s then s_size s else acc)
  end.

Definition swapram_pool_largest (mp : swapram_pool) : outcome Z := pool_max (p_seg mp) (p_used mp) 0 0.

Example pool_ex :
  (p ← swapram_pool_init 64 [Seg 9 9; Seg 9 9; Seg 9 9] 3;
   a ← swapram_pool_alloc p 10;
   b ← swapram_pool_alloc (snd a) 5;
   c ← swapram_pool_free (snd b) 0 10;
   Ok (fst a, fst b, c)) =
  Ok (Some 0, Some 12, (true, Pool 64 3 2 [Seg 0 12; Seg 20 44; Seg 9 9])).
Proof. reflexivity. Qed.

(** ** What a pool represents *)

Definition pool_rep (mp : swapram_pool) (segs : list swapram_seg) : Prop :=
  segs_ok 32 (-1) segs /\ aligned 2 segs /\ Forall (fun s => seg_end s <= p_size mp) segs /\
  0 <= p_size mp < 2 ^ 32 - 4 /\ p_used mp = length segs /\
  (p_used mp <= p_nseg mp)%nat /\ length (p_seg mp) = p_nseg mp /\
  exists rest, p_seg mp = segs ++ rest.

Lemma roundgrain_spec n :
  0 <= n < 2 ^ 32 - 4 -> n <= roundgrain n < n + 4 /\ roundgrain n mod 4 = 0.
Proof.
  intros. replace (roundgrain n) with (round_up 2 n); [apply (round_up_spec 2); lia|].
  unfold round_up, roundgrain, SWAPRAM_GRAIN. replace (n + 2 ^ 2 - 1) with (n + (4 - 1)) by lia. done.
Qed.

Lemma roundgrain_id n : 0 <= n < 2 ^ 32 - 4 -> n mod 4 = 0 -> roundgrain n = n.
Proof.
  intros H Hm. destruct (roundgrain_spec n H) as [? Hr].
  pose proof (mod_eq_lt _ _ 4 ltac:(lia) Hr Hm). lia.
Qed.

Lemma insert_middle {A} (p : list A) x y q : <[length p := y]> (p ++ x :: q) = p ++ y :: q.
Proof. by rewrite insert_app_r_alt, Nat.sub_diag by lia. Qed.

Lemma seg_shift_down_spec p x q r :
  exists z, seg_shift_down (length q) (length p) (p ++ x :: q ++ r) = Ok (p ++ q ++ z :: r).
Proof.
  revert p x. induction q as [|y q IH]; intros p x; [by exists x|]. cbn [length seg_shift_down].
  rewrite (rd_ok _ _ y) by (rewrite lookup_app_r by lia; by replace (S (length p) - length p)%nat with 1%nat by lia).
  cbn [mbind outcome_bind]. rewrite wr_ok by (rewrite length_app; simpl; lia). cbn [mbind outcome_bind].
  rewrite insert_middle. destruct (IH (p ++ [y]) y) as (z&Hz). rewrite length_app, Nat.add_1_r, <- !app_assoc in Hz.
  exists z. exact Hz.
Qed.

Lemma seg_shift_up_spec p q x r :
  exists z, seg_shift_up (length q) (length p) (p ++ q ++ x :: r) = Ok (p ++ z :: q ++ r).
Proof.
  revert x r. induction q as [|y q IH] using rev_ind; intros x r; [by exists x|].
  rewrite length_app, Nat.add_1_r. cbn [seg_shift_up].
  rewrite (rd_ok _ _ y).
  2:{ rewrite <- app_assoc, lookup_app_r, lookup_app_r by lia. by replace (_ - _ - _)%nat with 0%nat by lia. }
  cbn [mbind outcome_bind]. rewrite wr_ok by (rewrite !length_app; simpl; lia). cbn [mbind outcome_bind].
  replace (<[(length p + S (length q))%nat:=y]> (p ++ (q ++ [y]) ++ x :: r)) with (p ++ q ++ y :: y :: r).
  2:{ rewrite insert_app_r, insert_app_r_alt by (rewrite length_app; simpl; lia).
      rewrite length_app. simpl. replace (_ - _)%nat with 0%nat by lia. simpl. by rewrite <- !app_assoc. }
  destruct (IH y (y :: r)) as (z&Hz). exists z. rewrite Hz. by rewrite <- !app_assoc.
Qed.

(** *** Allocation *)

Lemma pool_alloc_from_spec mp want p segs rest :
  segs_ok 32 (-1) (p ++ segs) -> 0 < want -> p_seg mp = (p ++ segs) ++ rest ->
  p_used mp = length (p ++ segs) ->
  exists rest',
  pool_alloc_from mp want (length segs) (length p) =
  match first_fit want segs with
  | None => Ok (None, mp)
  | Some (a, s') => Ok (Some a, Pool (p_size mp) (p_nseg mp) (length (p ++ s')) ((p ++ s') ++ rest'))
  end /\ (forall a s', first_fit want segs = Some (a, s') -> length (s' ++ rest') = length (segs ++ rest)).
Proof.
  revert p. induction segs as [|e s IH]; intros p H Hw Hl Hu; [by exists rest|].
  pose proof (proj2 (proj1 (segs_ok_app _ _ _ _) H)) as (_&He1&He2&_).
  destruct (segs_ok_bounds 32 (-1) _ e H) as (He0&_&_); [set_solver|]. unfold seg_end in *.
  cbn [length pool_alloc_from first_fit]. rewrite Hl, <- app_assoc, <- app_comm_cons.
  rewrite (rd_ok _ _ e) by by apply list_lookup_middle. cbn [mbind outcome_bind].
  destruct (Z.ltb_spec (m_size e) want), (Z.leb_spec want (m_size e)); try lia.
  - destruct (IH (p ++ [e])) as (rest'&Hr&Hlen); 
      try done; [by rewrite <- app_assoc|by rewrite Hl, <- !app_assoc|by rewrite <- app_assoc|].
    exists rest'. rewrite length_app, Nat.add_1_r in Hr. rewrite Hr.
    destruct (first_fit want s) as [[a s']|]; simpl; [|done]. rewrite <- !app_assoc. simpl. split; [done|].
    intros ? ? [= <- <-]. simpl. f_equal. by apply (Hlen a).
  - rewrite wr_ok by (rewrite length_app; simpl; lia). cbn [mbind outcome_bind].
    rewrite insert_middle, !trunc_small by lia.
    destruct (Z.eqb_spec (m_size e) want), (Z.eqb_spec (m_size e - want) 0); try lia.
    + rewrite Hu, length_app. cbn [length]. replace (_ - 1 - _)%nat with (length s) by lia.
      destruct (seg_shift_down_spec p (Seg (m_addr e + want) (m_size e - want)) s rest) as (z&->).
      cbn [mbind outcome_bind]. exists (z :: rest). rewrite length_app, <- app_assoc. split; [do 3 f_equal; lia|].
      intros ? ? [= <- <-]. rewrite !length_app. simpl. lia.
    + exists rest. rewrite Hu, !length_app, <- app_assoc. split; [done|]. intros ? ? [= <- <-]. done.
Qed.

Lemma first_fit_aligned lo want segs a s' bound :
  segs_ok 32 lo segs -> aligned 2 segs -> Forall (fun s => seg_end s <= bound) segs -> want mod 4 = 0 -> 0 < want ->
  first_fit want segs = Some (a, s') ->
  a mod 4 = 0 /\ a + want <= bound /\ aligned 2 s' /\ Forall (fun s => seg_end s <= bound) s'.
Proof.
  revert lo a s'. induction segs as [|e s IH]; intros lo a s' H Hal Hb Hw Hw0; [done|]. destruct H as (?&?&?&H).
  apply Forall_cons in Hal as [[Ha Hs] Hal], Hb as [Hbe Hb]. simpl. change (2 ^ 2) with 4 in *. unfold seg_end in *.
  destruct (Z.leb_spec want (m_size e)).
  - intros [= <- <-]. split; [done|]. split; [lia|]. destruct (_ =? _); [done|].
    split; constructor; simpl; try done; unfold seg_end; simpl; try lia.
    change (2 ^ 2) with 4. split; [apply mod_eq_add|apply mod_eq_sub]; done || lia.
  - destruct (first_fit want s) as [[b t]|]; [|done]. simpl. intros [= <- <-].
    destruct (IH _ _ _ H Hal Hb Hw Hw0 eq_refl) as (?&?&?&?). split_and!; try done; by constructor.
Qed.

Lemma first_fit_length want segs a s' : first_fit want segs = Some (a, s') -> (length s' <= length segs)%nat.
Proof.
  revert a s'. induction segs as [|e s IH]; intros a s'; simpl; [done|].
  destruct (want <=? m_size e); [intros [= <- <-]; destruct (_ =? _); simpl; lia|].
  destruct (first_fit want s) as [[b t]|]; [|done]. simpl. intros [= <- <-]. specialize (IH _ _ eq_refl). simpl. lia.
Qed.

Lemma pool_alloc_first_fit mp segs size :
  pool_rep mp segs -> 0 < size < 2 ^ 32 - 4 ->
  match first_fit (roundgrain size) segs with
  | None => swapram_pool_alloc mp size = Ok (None, mp)
  | Some (a, segs') => exists mp', swapram_pool_alloc mp size = Ok (Some a, mp') /\
      pool_rep mp' segs' /\ p_size mp' = p_size mp /\ p_nseg mp' = p_nseg mp
  end.
Proof.
  intros (Hok&Hal&Hb&Hsz&Hu&Hle&Hlen&rest&Hl) Hs. destruct (roundgrain_spec size) as [Hw Hwm]; [lia|].
  set (want := roundgrain size) in *.
  destruct (pool_alloc_from_spec mp want [] segs rest Hok ltac:(lia) Hl Hu) as (rest'&Hr&Hlen').
  unfold swapram_pool_alloc. fold want. destruct (Z.eqb_spec want 0); [lia|]. cbn [orb].
  destruct (first_fit want segs) as [[a s']|] eqn:E.
  - destruct (first_fit_aligned (-1) want segs a _ (p_size mp) Hok Hal Hb Hwm ltac:(lia) E) as (?&?&?&?).
    destruct (first_fit_some 32 (-1) want segs a s' Hok ltac:(lia) E) as (?&?&_).
    destruct (Z.ltb_spec (p_size mp) want); [lia|]. rewrite Hu. simpl in Hr. rewrite Hr.
    specialize (Hlen' _ _ eq_refl). apply first_fit_length in E.
    eexists. split; [done|]. split; [|done]. split_and!; simpl; try done; try lia.
    + rewrite <- Hlen, Hl. done.
    + by eexists.
  - destruct (p_size mp <? want); [done|]. rewrite Hu. simpl in Hr. by rewrite Hr.
Qed.

(** C7. The pool allocator returns: -1 with nothing changed, and then no
    free segment holds the rounded size; or the offset of an aligned block
    inside the pool that was entirely free and is no longer, with nothing
    else changed, taken from the lowest segment that is large enough. *)
Theorem swapram_pool_alloc_spec (mp : swapram_pool) (segs : list swapram_seg) (size : Z) :
  pool_rep mp segs -> 0 < size < 2 ^ 32 - 4 ->
  let want := roundgrain size in
  (swapram_pool_alloc mp size = Ok (None, mp) /\ Forall (fun s => s_size s < want) segs) \/
  exists a mp' segs',
    swapram_pool_alloc mp size = Ok (Some a, mp') /\ pool_rep mp' segs' /\
    0 <= a /\ a mod 4 = 0 /\ a + want <= p_size mp /\ size <= want < size + 4 /\
    (forall x, free segs x <-> free segs' x \/ a <= x < a + want) /\
    (forall x, a <= x < a + want -> ~ free segs' x) /\
    Forall (fun s => want <= s_size s -> a <= s_off s) segs.
Proof.
  intros Hrep Hs want. pose proof (pool_alloc_first_fit mp segs size Hrep Hs) as Hm. fold want in Hm.
  destruct (roundgrain_spec size) as [Hw Hwm]; [lia|]. fold want in Hw, Hwm.
  pose proof Hrep as (Hok&Hal&Hb&_).
  destruct (first_fit want segs) as [[a segs']|] eqn:E; [right|left; split; [done|by apply first_fit_none]].
  destruct Hm as (mp'&?&?&_). exists a, mp', segs'.
  destruct (first_fit_aligned (-1) want segs a _ (p_size mp) Hok Hal Hb Hwm ltac:(lia) E) as (?&?&?&?).
  destruct (first_fit_some 32 (-1) want segs a segs' Hok ltac:(lia) E) as (?&?&?&?&?&?).
  split_and!; try done; lia.
Qed.

(** *** Release *)

Lemma pool_find_spec lo p s1 s2 rest off :
  segs_ok 32 lo (s1 ++ s2) ->
  Forall (fun e => m_addr e <= off - 1) s1 -> Forall (fun e => off - 1 < m_addr e) s2 ->
  pool_find (p ++ s1 ++ s2 ++ rest) off (length s1 + length s2) (length p) = Ok (length p + length s1)%nat.
Proof.
  revert p lo. induction s1 as [|e s1 IH]; intros p lo H H1 H2.
  - rewrite Nat.add_0_r. destruct s2 as [|t s2]; [done|]. apply Forall_cons in H2 as [? _].
    cbn [length app Nat.add pool_find]. rewrite (rd_ok _ _ t) by by apply list_lookup_middle.
    cbn [mbind outcome_bind]. destruct (Z.ltb_spec (m_addr t) off); [lia|done].
  - apply Forall_cons in H1 as [? H1]. destruct H as (?&?&?&H). cbn [length app Nat.add pool_find].
    rewrite (rd_ok _ _ e) by by apply list_lookup_middle. cbn [mbind outcome_bind].
    destruct (Z.ltb_spec (m_addr e) off); [|lia].
    pose proof (IH (p ++ [e]) _ H H1 H2) as IH'. rewrite <- app_assoc, length_app in IH'. cbn [app length] in IH'.
    replace (length p + 1)%nat with (S (length p)) in IH' by lia. rewrite IH'. f_equal. lia.
Qed.

(** Putting a pool back together around new live segments. *)
Lemma pool_rep_build mp segs segs' rest' off want :
  pool_rep mp segs -> segs_ok 32 (-1) segs' -> 0 < want -> off mod 4 = 0 -> want mod 4 = 0 -> 0 <= off ->
  off + want <= p_size mp ->
  (forall x, free segs' x <-> free segs x \/ off <= x < off + want) ->
  length (segs' ++ rest') = p_nseg mp ->
  pool_rep (Pool (p_size mp) (p_nseg mp) (length segs') (segs' ++ rest')) segs'.
Proof.
  intros (Hok&Hal&Hb&Hsz&_) Hok' Hw Hom Hwm Ho Hoe Hfr Hlen.
  assert (Forall (fun s => seg_end s <= p_size mp) segs') as Hb'.
  { apply Forall_forall. intros s Hs. destruct (segs_ok_bounds _ _ _ _ Hok' Hs) as (?&?&?).
    assert (free segs' (seg_end s - 1)) as [F|F]%Hfr; [by exists s; unfold seg_end in *; split; [|lia]| |lia].
    destruct F as (f&Hf&?). rewrite Forall_forall in Hb. specialize (Hb _ Hf). lia. }
  split_and!; simpl; try done; try lia; [|rewrite length_app in Hlen; lia|by eexists].
  by apply (aligned_union 32 ltac:(lia) 2 ltac:(lia) (-1) segs segs' want off).
Qed.

Lemma read_below (s1 r : list swapram_seg) :
  match length s1 with
  | O => Ok None
  | S j => s ← rd (s1 ++ r) j; Ok (Some (j, s))
  end = Ok (match last s1 with Some e => Some (pred (length s1), e) | None => None end).
Proof.
  destruct s1 as [|e t _] using rev_ind; [done|]. rewrite length_app, Nat.add_1_r, last_snoc.
  rewrite (rd_ok _ _ e); [done|]. rewrite <- app_assoc. by apply list_lookup_middle.
Qed.

Lemma read_above (s1 s2 rest : list swapram_seg) :
  (if decide (length s1 < length (s1 ++ s2))%nat
   then s ← rd (s1 ++ s2 ++ rest) (length s1); Ok (Some s) else Ok None) = Ok (head s2).
Proof.
  destruct s2 as [|t s2]; [by rewrite app_nil_r, decide_False by lia|].
  rewrite decide_True by (rewrite length_app; simpl; lia).
  rewrite (rd_ok _ _ t); [done|]. by apply list_lookup_middle.
Qed.

(** Two pools that differ only in how a length is written. *)
Lemma pool_ext a b c c' d d' :
  c = c' -> d = d' -> Ok (true, Pool a b c d) = Ok (true, Pool a b c' d').
Proof. congruence. Qed.

Ltac pool_eq :=
  apply pool_ext; [rewrite ?length_app; simpl; rewrite ?length_app; simpl; lia|rewrite <- ?app_assoc; reflexivity].

Section Release.
  Context (mp : swapram_pool) (off want : Z) (rest : list swapram_seg).
  Hypothesis Hwant : 0 < want.
  Hypothesis Hoff : 0 <= off.
  Hypothesis Hstop : off + want < 2 ^ 32.

Definition below_of (s1 : list swapram_seg) : option (nat * swapram_seg) :=
  match last s1 with Some e => Some (pred (length s1), e) | None => None end.

(** A pool whose live segments are [s] before [rest']. *)
Definition pool_with (s rest' : list swapram_seg) : swapram_pool :=
  Pool (p_size mp) (p_nseg mp) (length s) (s ++ rest').

Lemma free_at_left t e s2 :
  segs_ok 32 (-1) ((t ++ [e]) ++ s2) -> p_seg mp = ((t ++ [e]) ++ s2) ++ rest ->
  p_used mp = length ((t ++ [e]) ++ s2) -> seg_end e = off -> above (off + want) s2 ->
  let s' := t ++ Seg (m_addr e) (m_size e + want + gain (off + want) s2) :: above_rest (off + want) s2 in
  exists rest', length (s' ++ rest') = length (((t ++ [e]) ++ s2) ++ rest) /\
    pool_free_at mp off want (length (t ++ [e])) (below_of (t ++ [e])) (head s2) =
      Ok (true, pool_with s' rest').
Proof.
  intros Hok Hl Hu He Ha s'. unfold pool_free_at, below_of, pool_with, send. rewrite last_snoc, Hl, Hu.
  destruct (segs_ok_bounds 32 (-1) _ e Hok) as (Hea&Hes&Hee); [set_solver|].
  pose proof (proj1 (segs_ok_app _ _ _ _) Hok) as [_ Hs2]. rewrite last_end_snoc in Hs2. unfold seg_end in *.
  rewrite (trunc_small 32 (m_addr e + m_size e)), (trunc_small 32 (m_size e + want)) by lia.
  rewrite ?(trunc_small 32 (m_addr e + (m_size e + want))) by lia.
  rewrite He, Z.eqb_refl. replace (m_addr e + (m_size e + want)) with (off + want) by lia.
  replace (pred (length (t ++ [e]))) with (length t) by (rewrite length_app; simpl; lia).
  assert (forall y, wr (((t ++ [e]) ++ s2) ++ rest) (length t) y = Ok (t ++ y :: s2 ++ rest)) as Hwr.
  { intros y. rewrite wr_ok by (rewrite !length_app; simpl; lia). rewrite <- !app_assoc. simpl. by rewrite insert_middle. }
  rewrite !Hwr. unfold s', gain, above_rest. destruct s2 as [|b s2].
  - exists rest. simpl. rewrite Z.add_0_r, !length_app, <- !app_assoc. simpl. split; [lia|]. pool_eq.
  - cbn [head mbind outcome_bind]. destruct Hs2 as (?&Hbs&Hbe&Hs2). unfold seg_end in *.
    rewrite (Z.eqb_sym (off + want)). destruct (Z.eqb_spec (m_addr b) (off + want)).
    + rewrite (trunc_small 32 (m_size e + want + m_size b)) by lia.
      replace (length ((t ++ [e]) ++ b :: s2) - 1 - length (t ++ [e]))%nat with (length s2)
        by (rewrite !length_app; simpl; lia).
      destruct (seg_shift_down_spec (t ++ [Seg (m_addr e) (m_size e + want + m_size b)]) b s2 rest) as (z&Hz).
      rewrite <- !app_assoc, length_app in Hz. cbn [app length] in Hz. cbn [app].
      rewrite (length_app t [e]), Hwr. cbn [length app mbind outcome_bind]. rewrite Hz.
      exists (z :: rest). cbn [mbind outcome_bind]. rewrite <- !app_assoc, !length_app. simpl. rewrite ?length_app. simpl.
      split; [lia|]. pool_eq.
    + exists rest. rewrite ?Hwr. cbn [mbind outcome_bind]. rewrite Z.add_0_r, <- !app_assoc, !length_app. simpl.
      rewrite ?length_app. split; [simpl; lia|]. pool_eq.
Qed.

Lemma free_at_apart s1 s2 :
  segs_ok 32 (-1) (s1 ++ s2) -> p_seg mp = (s1 ++ s2) ++ rest -> p_used mp = length (s1 ++ s2) ->
  length (p_seg mp) = p_nseg mp ->
  Forall (fun e => seg_end e < off) s1 -> above (off + want) s2 ->
  let s' := s1 ++ Seg off (want + gain (off + want) s2) :: above_rest (off + want) s2 in
  let r := pool_free_at mp off want (length s1) (below_of s1) (head s2) in
  (touches (off + want) s2 = false /\ length (s1 ++ s2) = p_nseg mp /\ r = Ok (false, mp)) \/
  exists rest', length (s' ++ rest') = length ((s1 ++ s2) ++ rest) /\ r = Ok (true, pool_with s' rest').
Proof.
  intros Hok Hl Hu Hn Hlt Ha s' r. unfold r, pool_free_at, pool_with, send.
  assert (match below_of s1 with Some (_, s) => u32 (s_off s + s_size s) =? off | None => false end = false) as Htb.
  { unfold below_of. destruct s1 as [|e t _] using rev_ind; [done|]. rewrite last_snoc.
    destruct (segs_ok_bounds 32 (-1) _ e Hok) as (?&?&?); [set_solver|].
    rewrite Forall_app, Forall_singleton in Hlt. unfold seg_end in *. rewrite trunc_small by lia. apply Z.eqb_neq. lia. }
  rewrite Htb.
  assert (forall y : outcome (bool * swapram_pool),
    match below_of s1 with Some (_, _) => y | None => y end = y) as ->
    by (intros; by destruct (below_of s1) as [[? ?]|]).
  clear Htb. rewrite (trunc_small 32 (off + want)) by lia.
  pose proof (proj2 (proj1 (segs_ok_app _ _ _ _) Hok)) as Hs2.
  unfold s', touches, gain, above_rest. rewrite Hl, Hu.
  destruct (match s2 with [] => false | b :: _ => m_addr b =? off + want end) eqn:Ht.
  - right. destruct s2 as [|b s2]; [done|]. cbn [head]. rewrite ?(Z.eqb_sym (off + want)), !Ht. destruct Hs2 as (_&?&?&_).
    apply Z.eqb_eq in Ht. unfold seg_end in *. rewrite trunc_small by lia.
    rewrite <- app_assoc, wr_ok by (rewrite length_app; simpl; lia). cbn [app]. rewrite insert_middle. cbn [mbind outcome_bind].
    exists rest. rewrite <- app_assoc, !length_app. simpl. rewrite (Z.add_comm (m_size b)). rewrite ?length_app. simpl. split; [lia|done].
  - assert (match head s2 with Some s => off + want =? m_addr s | None => false end = false) as ->
      by (destruct s2; [done|]; simpl in *; by rewrite Z.eqb_sym).
    assert (forall y : outcome (bool * swapram_pool),
      match head s2 with Some _ => y | None => y end = y) as -> by (intros; by destruct (head s2)).
    case_decide as Hd; [left; done|right].
    destruct rest as [|x rest']; [rewrite Hl, app_nil_r in Hn; congruence|].
    replace (length (s1 ++ s2) - length s1)%nat with (length s2) by (rewrite length_app; lia).
    destruct (seg_shift_up_spec s1 s2 x rest') as (z&Hz). rewrite <- app_assoc, Hz. cbn [mbind outcome_bind].
    rewrite wr_ok by (rewrite length_app; simpl; lia). rewrite insert_middle. cbn [mbind outcome_bind].
    exists rest'. destruct s2 as [|b s2]; simpl in Ht; rewrite ?Ht, Z.add_0_r, <- ?app_assoc, !length_app; simpl;
      rewrite ?length_app; simpl; (split; [lia|pool_eq]).
Qed.
End Release.

(** *** Theorems on the release *)

(** Why a release is refused. *)
Definition refused (mp : swapram_pool) (segs : list swapram_seg) (off want : Z) : Prop :=
  off mod 4 <> 0 \/ p_size mp < off + want \/ (exists x, off <= x < off + want /\ free segs x) \/
  (length segs = p_nseg mp /\ Forall (fun e => seg_end e <> off /\ m_addr e <> off + want) segs).

(** The checks of the release, on the live segments split at [off]. *)
Lemma pool_free_checks mp s1 s2 rest off size want :
  want = roundgrain size ->
  segs_ok 32 (-1) (s1 ++ s2) -> p_seg mp = (s1 ++ s2) ++ rest -> p_used mp = length (s1 ++ s2) ->
  Forall (fun e => m_addr e <= off - 1) s1 -> Forall (fun e => off - 1 < m_addr e) s2 ->
  0 < want -> 0 <= off -> off + want < 2 ^ 32 -> off mod 4 = 0 -> off + want <= p_size mp ->
  (swapram_pool_free mp off size = Ok (false, mp) /\ exists x, off <= x < off + want /\ free (s1 ++ s2) x) \/
  (swapram_pool_free mp off size = pool_free_at mp off want (length s1) (below_of s1) (head s2) /\
   below off s1 /\ above (off + want) s2).
Proof.
  intros Hwant Hok Hl Hu H1 H2 Hw Ho Hst Hom Hoe. unfold swapram_pool_free, SWAPRAM_GRAIN. rewrite <- Hwant.
  rewrite Hom, Hl, Hu, (trunc_small 32 (off + want)) by lia.
  destruct (Z.eqb_spec want 0); [lia|]. destruct (Z.ltb_spec (p_size mp) (off + want)); [lia|]. cbn [orb negb Z.eqb].
  pose proof (pool_find_spec (-1) [] s1 s2 rest off Hok H1 H2) as Hf. cbn [app length Nat.add] in Hf.
  rewrite <- app_assoc, length_app, Hf. cbn [mbind outcome_bind].
  rewrite read_below. cbn [mbind outcome_bind]. rewrite <- length_app, read_above. cbn [mbind outcome_bind].
  fold (below_of s1). pose proof (proj1 (segs_ok_app _ _ _ _) Hok) as [Hs1 Hs2].
  destruct (match below_of s1 with Some (_, s) => off <? send s | None => false end) eqn:Eb; cbn [orb].
  { left. split; [done|]. unfold below_of in Eb. destruct s1 as [|e t _] using rev_ind; [done|].
    rewrite last_snoc in Eb. destruct (segs_ok_bounds 32 (-1) _ e Hok) as (?&?&?); [set_solver|].
    rewrite Forall_app, Forall_singleton in H1. unfold send, seg_end in *. rewrite trunc_small in Eb by lia.
    apply Z.ltb_lt in Eb. exists off. split; [lia|]. exists e. unfold seg_end. split; [set_solver|lia]. }
  destruct (match head s2 with Some s => m_addr s <? off + want | None => false end) eqn:Ea.
  { left. split; [done|]. destruct s2 as [|t s2]; [done|]. simpl in Ea. apply Z.ltb_lt in Ea.
    destruct Hs2 as (?&?&?&_). apply Forall_cons in H2 as [? _].
    exists (m_addr t). split; [lia|]. exists t. unfold seg_end in *. split; [set_solver|lia]. }
  right. split; [done|]. split.
  - destruct s1 as [|e t _] using rev_ind; [constructor|]. unfold below_of in Eb. rewrite last_snoc in Eb.
    destruct (segs_ok_bounds 32 (-1) _ e Hok) as (?&?&?); [set_solver|].
    apply Forall_forall. intros y Hy. pose proof (seg_end_le_last _ _ _ _ Hs1 Hy) as Hle. rewrite last_end_snoc in Hle.
    unfold send, seg_end in *. rewrite trunc_small in Eb by lia. apply Z.ltb_ge in Eb. lia.
  - destruct s2 as [|t s2]; [constructor|]. simpl in Ea. apply Z.ltb_ge in Ea. destruct Hs2 as (?&?&?&Hs2).
    constructor; [done|]. apply Forall_forall. intros y Hy.
    pose proof (segs_ok_bounds _ _ _ _ Hs2 Hy). unfold seg_end in *. lia.
Qed.

Lemma pool_free_returns mp segs off size :
  pool_rep mp segs -> 0 < size < 2 ^ 32 - 4 -> 0 <= off -> off + roundgrain size < 2 ^ 32 ->
  let want := roundgrain size in
  (swapram_pool_free mp off size = Ok (false, mp) /\ refused mp segs off want) \/
  (exists mp' segs',
    swapram_pool_free mp off size = Ok (true, mp') /\ pool_rep mp' segs' /\
    p_size mp' = p_size mp /\ p_nseg mp' = p_nseg mp /\ off + want <= p_size mp /\ off mod 4 = 0 /\
    (forall x, off <= x < off + want -> ~ free segs x) /\
    (forall x, free segs' x <-> free segs x \/ off <= x < off + want)).
Proof.
  intros Hrep Hs Ho Hst want. destruct (roundgrain_spec size) as [Hw Hwm]; [lia|]. fold want in Hw, Hwm, Hst |- *.
  destruct (decide (off mod 4 = 0)) as [Hom|Hom].
  2:{ left. split; [|by left]. unfold swapram_pool_free, SWAPRAM_GRAIN.
      destruct (Z.eqb_spec (off mod 4) 0); [done|]. by rewrite orb_true_r. }
  destruct (decide (off + want <= p_size mp)) as [Hoe|Hoe].
  2:{ left. split; [|right; left; lia]. unfold swapram_pool_free, SWAPRAM_GRAIN. fold want.
      rewrite trunc_small by lia. destruct (Z.ltb_spec (p_size mp) (off + want)); [|lia]. by rewrite orb_true_r. }
  pose proof Hrep as (Hok&_&_&_&Hu&_&Hn&rest&Hl).
  destruct (segs_split 32 (-1) segs (off - 1) Hok) as (s1&s2&->&H1&H2).
  destruct (pool_free_checks mp s1 s2 rest off size want eq_refl Hok Hl Hu H1 H2) as [[Hf Hx]|(Hf&Hb&Ha)]; try done; try lia.
  { left. split; [done|]. right. right. by left. }
  rewrite Hf. pose proof (proj1 (segs_ok_app _ _ _ _) Hok) as [Hs1 Hs2].
  assert (forall x, off <= x < off + want -> ~ free (s1 ++ s2) x) as Hnf.
  { intros x Hx [F|F]%free_app; destruct F as (f&Hi&?); unfold below, above in *; rewrite Forall_forall in Hb, Ha.
    - specialize (Hb _ Hi). lia.
    - specialize (Ha _ Hi). lia. }
  destruct (last_may_touch 32 (-1) s1 off Hs1 ltac:(lia) Hb) as [[Hlt Hle]|(t&e&->&He)].
  - destruct (join_ok 32 ltac:(lia) (-1) s1 s2 want off) as [Hok' Hfr]; try done; try lia.
    destruct (free_at_apart mp off want rest ltac:(lia) Ho Hst s1 s2 Hok Hl Hu Hn Hlt Ha) as [(Ht&Hfull&->)|(rest'&Hlen&->)].
    + left. split; [done|]. right. right. right. split; [done|].
      apply Forall_forall. intros y Hy. apply (none_touch 32 ltac:(lia) (-1) s1 s2 off want); try done; try lia.
      apply Forall_forall. intros z Hz. unfold above in Ha. rewrite Forall_forall in Ha. specialize (Ha _ Hz). lia.
    + right. eexists _, _. split; [done|]. unfold pool_with. split; [|done].
      apply (pool_rep_build mp (s1 ++ s2) _ rest' off want); try done; try lia. congruence.
  - assert (off + want = m_addr e + (m_size e + want)) as Hsum by (unfold seg_end in *; lia).
    pose proof (proj1 (segs_ok_app _ _ _ _) Hs1) as [Ht (?&?&?&_)]. rewrite last_end_snoc in Hs2.
    destruct (join_ok 32 ltac:(lia) (-1) t s2 (m_size e + want) (m_addr e)) as [Hok' Hfr];
      rewrite <- ?Hsum in *; try done; try lia.
    { eapply segs_ok_weaken; [|done]. unfold seg_end in *; lia. }
    destruct (free_at_left mp off want rest ltac:(lia) Ho Hst t e s2 Hok Hl Hu He Ha) as (rest'&Hlen&->).
    right. eexists _, _. split; [done|]. unfold pool_with.
    assert (forall x, free (t ++ Seg (m_addr e) (m_size e + want + gain (off + want) s2) :: above_rest (off + want) s2) x
      <-> free ((t ++ [e]) ++ s2) x \/ off <= x < off + want) as Hfr'.
    { intros x. rewrite Hfr, !free_app, free_cons. pose proof (free_nil x). unfold seg_end in *.
      destruct (decide (x < off)); intuition lia. }
    split; [|done]. apply (pool_rep_build mp ((t ++ [e]) ++ s2) _ rest' off want); try done; try lia. congruence.
Qed.

(** C8. Releasing a range of the pool: it succeeds exactly when the range is
    aligned, inside the pool and nowhere free already (a double free or a
    stray offset is refused), and a descriptor is available; then the range
    is added to the free bytes and nothing else changes. When refused, the
    pool is untouched. *)
Theorem swapram_pool_free_spec (mp : swapram_pool) (segs : list swapram_seg) (off size : Z) :
  pool_rep mp segs -> 0 < size < 2 ^ 32 - 4 -> 0 <= off -> off + roundgrain size < 2 ^ 32 ->
  let want := roundgrain size in
  (swapram_pool_free mp off size = Ok (false, mp) /\
    (off mod 4 <> 0 \/ p_size mp < off + want \/ (exists x, off <= x < off + want /\ free segs x) \/
     (length segs = p_nseg mp /\ Forall (fun e => seg_end e <> off /\ m_addr e <> off + want) segs))) \/
  (exists mp' segs',
    swapram_pool_free mp off size = Ok (true, mp') /\ pool_rep mp' segs' /\
    off + want <= p_size mp /\ off mod 4 = 0 /\
    (forall x, off <= x < off + want -> ~ free segs x) /\
    (forall x, free segs' x <-> free segs x \/ off <= x < off + want)).
Proof.
  intros Hrep Hs Ho Hst want. destruct (pool_free_returns mp segs off size Hrep Hs Ho Hst) as [?|(mp'&segs'&?&?&_&_&?)];
    [by left|right]. by exists mp', segs'.
Qed.

(** A release whose end wraps past 2^32 is accepted, although it leaves the
    pool: the bound is tested after the addition wrapped. *)
Example pool_free_wraps :
  swapram_pool_free (Pool 64 3 1 [Seg 0 16; Seg 0 0; Seg 0 0]) (2 ^ 32 - 4) 8 =
  Ok (true, Pool 64 3 2 [Seg 0 16; Seg (2 ^ 32 - 4) 8; Seg 0 0]).
Proof. reflexivity. Qed.

(** *** The two readings *)

Definition sizes (segs : list swapram_seg) : Z := foldr (fun s n => s_size s + n) 0 segs.

Lemma sizes_bound lo segs bound :
  segs_ok 32 lo segs -> Forall (fun s => seg_end s <= bound) segs -> 0 <= lo + 1 -> lo <= bound -> 0 <= sizes segs <= bound - lo.
Proof.
  revert lo. induction segs as [|e s IH]; intros lo H Hb Hlo Hle; simpl; [lia|].
  destruct H as (?&?&?&H). apply Forall_cons in Hb as [? Hb]. unfold seg_end in *.
  specialize (IH _ H Hb). lia.
Qed.

Lemma pool_sum_spec p segs rest lo acc :
  segs_ok 32 lo segs -> 0 <= acc -> acc + sizes segs < 2 ^ 32 ->
  pool_sum (p ++ segs ++ rest) (length segs) (length p) acc = Ok (acc + sizes segs).
Proof.
  revert p lo acc. induction segs as [|e s IH]; intros p lo acc H Ha Hb; [simpl; f_equal; lia|].
  destruct H as (?&?&?&H). cbn [length pool_sum]. simpl in Hb.
  rewrite (rd_ok _ _ e) by by apply list_lookup_middle. cbn [mbind outcome_bind].
  assert (0 <= sizes s). { clear -H. revert H. generalize (seg_end e). induction s as [|x s IH]; intros lo H; simpl; [lia|].
    destruct H as (?&?&?&H). specialize (IH _ H). lia. }
  rewrite trunc_small by lia. pose proof (IH (p ++ [e]) _ (acc + m_size e) H ltac:(lia) ltac:(lia)) as IH'.
  rewrite <- app_assoc, length_app in IH'. cbn [app length] in *. replace (length p + 1)%nat with (S (length p)) in IH' by lia.
  rewrite IH'. simpl. f_equal. lia.
Qed.

Lemma pool_max_spec p segs rest acc :
  pool_max (p ++ segs ++ rest) (length segs) (length p) acc = Ok (foldl (fun n s => Z.max n (s_size s)) acc segs).
Proof.
  revert p acc. induction segs as [|e s IH]; intros p acc; [done|]. cbn [length pool_max].
  rewrite (rd_ok _ _ e) by by apply list_lookup_middle. cbn [mbind outcome_bind].
  pose proof (IH (p ++ [e]) (if acc <? m_size e then m_size e else acc)) as IH'.
  rewrite <- app_assoc, length_app in IH'. cbn [app length] in *. replace (length p + 1)%nat with (S (length p)) in IH' by lia.
  rewrite IH'. simpl. do 2 f_equal. destruct (Z.ltb_spec acc (m_size e)); lia.
Qed.

Lemma foldl_max_le acc segs n :
  foldl (fun n s => Z.max n (s_size s)) acc segs < n <-> acc < n /\ Forall (fun s => s_size s < n) segs.
Proof.
  revert acc. induction segs as [|e s IH]; intros acc; simpl; [by rewrite Forall_nil; tauto|].
  rewrite IH, Forall_cons. split; intros; destruct_and!; repeat split; try done; lia.
Qed.

Lemma first_fit_too_big want segs : Forall (fun s => s_size s < want) segs -> first_fit want segs = None.
Proof.
  induction 1 as [|e s He _ IH]; [done|]. simpl. destruct (Z.leb_spec want (m_size e)); [lia|]. by rewrite IH.
Qed.

Lemma first_fit_sizes want segs a segs' : first_fit want segs = Some (a, segs') -> sizes segs' = sizes segs - want.
Proof.
  revert a segs'. induction segs as [|e s IH]; intros a segs'; [done|]. simpl.
  destruct (want <=? m_size e); [intros [= <- <-]; destruct (Z.eqb_spec (m_size e) want); simpl; lia|].
  destruct (first_fit want s) as [[b t]|]; [|done]. simpl. intros [= <- <-]. simpl. rewrite (IH b t eq_refl). lia.
Qed.

(** [swapram_pool_largest] is exact: an allocation succeeds if and only
    if its rounded size is at most what the call reports; and a successful
    allocation lowers [swapram_pool_avail] by exactly that size. *)
Theorem swapram_pool_readings (mp : swapram_pool) (segs : list swapram_seg) (size : Z) :
  pool_rep mp segs -> 0 < size < 2 ^ 32 - 4 ->
  exists big avail r mp' avail',
    swapram_pool_largest mp = Ok big /\ swapram_pool_avail mp = Ok avail /\
    swapram_pool_alloc mp size = Ok (r, mp') /\ swapram_pool_avail mp' = Ok avail' /\
    (is_Some r <-> roundgrain size <= big) /\
    avail' = avail - (if r then roundgrain size else 0).
Proof.
  intros Hrep Hs. pose proof (pool_alloc_first_fit mp segs size Hrep Hs) as Hm.
  assert (forall mp segs, pool_rep mp segs -> swapram_pool_avail mp = Ok (sizes segs)) as Hav.
  { clear. intros mp segs (Hok&_&Hb&Hsz&Hu&_&_&rest&Hl). unfold swapram_pool_avail. rewrite Hl, Hu.
    pose proof (sizes_bound _ _ _ Hok Hb ltac:(lia) ltac:(lia)).
    exact (pool_sum_spec [] segs rest (-1) 0 Hok ltac:(lia) ltac:(lia)). }
  pose proof Hrep as (Hok&_&_&_&Hu&_&_&rest&Hl).
  assert (swapram_pool_largest mp = Ok (foldl (fun n s => Z.max n (s_size s)) 0 segs)) as Hbig.
  { unfold swapram_pool_largest. rewrite Hl, Hu. apply (pool_max_spec []). }
  destruct (roundgrain_spec size) as [Hw _]; [lia|]. set (want := roundgrain size) in *.
  pose proof (foldl_max_le 0 segs want) as Hle.
  destruct (first_fit want segs) as [[a segs']|] eqn:E.
  - destruct Hm as (mp'&Ha&Hrep'&_). eexists _, _, (Some a), mp', _.
    split_and!; [exact Hbig|by apply Hav|done|by apply Hav| |].
    + split; [|done]. intros _. destruct (Z.le_gt_cases want (foldl (fun n s => Z.max n (s_size s)) 0 segs)); [done|].
      exfalso. assert (Forall (fun s => s_size s < want) segs) as Hf by (apply Hle; lia).
      by rewrite (first_fit_too_big _ _ Hf) in E.
    + by apply (first_fit_sizes _ _ a).
  - eexists _, _, None, mp, _. split_and!; [exact Hbig|by apply Hav|done|by apply Hav| |lia].
    split; [by intros [? ?]|]. apply first_fit_none in E. intros Hge.
    assert (foldl (fun n s => Z.max n (s_size s)) 0 segs < want) by (apply Hle; split; [lia|done]). lia.
Qed.

(** ** Witnesses *)

Definition pool_ex1 : swapram_pool := Pool 64 3 2 [Seg 0 12; Seg 20 44; Seg 0 0].

Lemma pool_ex1_rep : pool_rep pool_ex1 [Seg 0 12; Seg 20 44].
Proof.
  split; [simpl; unfold seg_end; simpl; lia|]. split; [repeat constructor|].
  split; [repeat constructor; unfold seg_end; simpl; lia|]. split; [simpl; lia|].
  split; [done|]. split; [simpl; lia|]. split; [done|]. by exists [Seg 0 0].
Qed.

Lemma free_ex1 x : free [Seg 0 12; Seg 20 44] x <-> 0 <= x < 12 \/ 20 <= x < 64.
Proof. rewrite !free_cons. unfold seg_end. simpl. pose proof (free_nil x). intuition lia. Qed.

Lemma swapram_pool_alloc_spec_witness :
  swapram_pool_alloc pool_ex1 13 = Ok (Some 20, Pool 64 3 2 [Seg 0 12; Seg 36 28; Seg 0 0]) /\
  let want := roundgrain 13 in
  (swapram_pool_alloc pool_ex1 13 = Ok (None, pool_ex1) /\ Forall (fun s => s_size s < want) [Seg 0 12; Seg 20 44]) \/
  exists a mp' segs',
    swapram_pool_alloc pool_ex1 13 = Ok (Some a, mp') /\ pool_rep mp' segs' /\
    0 <= a /\ a mod 4 = 0 /\ a + want <= p_size pool_ex1 /\ 13 <= want < 13 + 4 /\
    (forall x, free [Seg 0 12; Seg 20 44] x <-> free segs' x \/ a <= x < a + want) /\
    (forall x, a <= x < a + want -> ~ free segs' x) /\
    Forall (fun s => want <= s_size s -> a <= s_off s) [Seg 0 12; Seg 20 44].
Proof. split; [reflexivity|]. apply swapram_pool_alloc_spec; [apply pool_ex1_rep|lia]. Defined.

Lemma swapram_pool_free_spec_witness :
  swapram_pool_free pool_ex1 12 7 = Ok (true, Pool 64 3 1 [Seg 0 64; Seg 20 44; Seg 0 0]) /\
  swapram_pool_free pool_ex1 8 7 = Ok (false, pool_ex1) /\
  let want := roundgrain 7 in
  (swapram_pool_free pool_ex1 12 7 = Ok (false, pool_ex1) /\
    (12 mod 4 <> 0 \/ p_size pool_ex1 < 12 + want \/ (exists x, 12 <= x < 12 + want /\ free [Seg 0 12; Seg 20 44] x) \/
     (length [Seg 0 12; Seg 20 44] = p_nseg pool_ex1 /\
        Forall (fun e => seg_end e <> 12 /\ m_addr e <> 12 + want) [Seg 0 12; Seg 20 44]))) \/
  (exists mp' segs',
    swapram_pool_free pool_ex1 12 7 = Ok (true, mp') /\ pool_rep mp' segs' /\
    12 + want <= p_size pool_ex1 /\ 12 mod 4 = 0 /\
    (forall x, 12 <= x < 12 + want -> ~ free [Seg 0 12; Seg 20 44] x) /\
    (forall x, free segs' x <-> free [Seg 0 12; Seg 20 44] x \/ 12 <= x < 12 + want)).
Proof.
  split; [reflexivity|]. split; [reflexivity|].
  apply swapram_pool_free_spec; [apply pool_ex1_rep|lia|lia|reflexivity].
Defined.

Lemma swapram_pool_readings_witness :
  exists big avail r mp' avail',
    swapram_pool_largest pool_ex1 = Ok big /\ swapram_pool_avail pool_ex1 = Ok avail /\
    swapram_pool_alloc pool_ex1 13 = Ok (r, mp') /\ swapram_pool_avail mp' = Ok avail' /\
    (is_Some r <-> roundgrain 13 <= big) /\ avail' = avail - (if r then roundgrain 13 else 0).
Proof. apply (swapram_pool_readings pool_ex1 [Seg 0 12; Seg 20 44]); [apply pool_ex1_rep|lia]. Defined.
