(* ===== verification/Clock.v ===== *)
(** * The clock and its callout queue ([sys/kern/kern_clock.c], [sys/sys/callout.h])

    [calltodo] is a queue of callouts whose [c_time] fields are deltas: the
    entries at the front with [c_time <= 0] are due, and every later entry
    is due [c_time] ticks after the one before it. The linked list is
    modelled as the list of its entries in order and [callfree] as the list
    of unused structures. Functions are named by their address. The
    [hardclock] interrupt is modelled whole: callouts, accounting, interval
    timers, time of day and the decision to run [softclock]. Signed counters
    are integers of [Z]; [p_cpu] is a [char], unsigned on this machine. *)
From S2P Require Import Prelude.

Record callout := Callout { c_time : Z; c_arg : Z; c_func : Z }.

Record callouts := Callouts { calltodo : list callout; callfree : list callout }.

Definition set_time (t : Z) (c : callout) : callout := Callout t (c_arg c) (c_func c).

(** ** Callouts *)

(** [coutinit]: the [n] structures of the array, all free. *)
Definition coutinit (ncall : nat) : callouts := Callouts [] (replicate ncall (Callout 0 0 0)).

(** The search and insertion of [timeout]: [t] counts down the deltas of the
    entries passed, and the entry after the new one loses what it gained. *)
Fixpoint timeout_insert (pnew : callout) (t : Z) (q : list callout) : list callout :=
  match q with
  | [] => [set_time t pnew]
  | p2 :: q' =>
      if c_time p2 <? t
      then p2 :: timeout_insert pnew (if 0 <? c_time p2 then t - c_time p2 else t) q'
      else set_time t pnew :: set_time (c_time p2 - t) p2 :: q'
  end.

Definition timeout (st : callouts) (fun_ arg t : Z) : outcome callouts :=
  let t := if t <=? 0 then 1 else t in
  match callfree st with
  | [] => Panic "timeout table overflow"
  | pnew :: free =>
      Ok (Callouts (timeout_insert (Callout (c_time pnew) arg fun_) t (calltodo st)) free)
  end.

(** The removal loop of [untimeout]: the queue and the entry removed. *)
Fixpoint untimeout_remove (fun_ arg : Z) (q : list callout) : list callout * option callout :=
  match q with
  | [] => ([], None)
  | p2 :: q' =>
      if (c_func p2 =? fun_) && (c_arg p2 =? arg) then
        (match q' with
         | n :: q'' => if 0 <? c_time p2 then set_time (c_time n + c_time p2) n :: q'' else q'
         | [] => q'
         end, Some p2)
      else let r := untimeout_remove fun_ arg q' in (p2 :: fst r, snd r)
  end.

Definition untimeout (st : callouts) (fun_ arg : Z) : callouts :=
  match untimeout_remove fun_ arg (calltodo st) with
  | (q, Some p2) => Callouts q (p2 :: callfree st)
  | (q, None) => st
  end.

(** The callout part of [hardclock]: the queue one tick later, and whether
    something became due. *)
Fixpoint tick_queue (q : list callout) (needsoft : bool) : list callout * bool :=
  match q with
  | [] => ([], needsoft)
  | p1 :: q' =>
      let t := c_time p1 - 1 in
      if 0 <? t then (set_time t p1 :: q', needsoft)
      else if t =? 0 then (set_time t p1 :: q', true)
      else let r := tick_queue q' true in (set_time t p1 :: fst r, snd r)
  end.

(** The loop of [softclock]: each due entry is moved to the free list and
    its function called. [call f a] is what the function does to the
    callouts, since it may call [timeout] and [untimeout]; the result also
    lists the calls made, in order. *)
Fixpoint softclock_loop (call : Z -> Z -> callouts -> outcome callouts) (fuel : nat) (st : callouts)
  : option (outcome (callouts * list (Z * Z))) :=
  match fuel with
  | O => None
  | S fuel' =>
      match calltodo st with
      | [] => Some (Ok (st, []))
      | p1 :: q =>
          if 0 <? c_time p1 then Some (Ok (st, []))
          else
            match call (c_func p1) (c_arg p1) (Callouts q (p1 :: callfree st)) with
            | Ok st' =>
                match softclock_loop call fuel' st' with
                | Some (Ok (st'', tr)) => Some (Ok (st'', (c_func p1, c_arg p1) :: tr))
                | r => r
                end
            | Panic s => Some (Panic s)
            | Fault => Some Fault
            end
      end
  end.

(** ** [hardclock] *)

Record itimer := Itimer { it_interval : Z; it_value : Z }.

(** The part of the u area and the process the clock charges. *)
Record account := Account {
  ru_utime : Z; ru_stime : Z;
  t_virtual : itimer; t_prof : itimer;
  cpu_cur : Z; cpu_max : Z;             (* u_rlimit[RLIMIT_CPU] *)
  p_cpu : Z; p_nice : Z; p_uid : Z;
  pr_scale : Z                          (* u_prof.pr_scale *)
}.

Record clock := Clock {
  k_hz : Z; k_adjdelta : Z; k_lbolt : Z; k_sec : Z;
  k_cp_time : list Z;                   (* cp_time[CPUSTATES] *)
  k_callouts : callouts;
  k_acct : account
}.

Definition SIGVTALRM : Z := 26.
Definition SIGPROF : Z := 27.
Definition SIGXCPU : Z := 24.

(** [if (it_value && !--it_value) { psignal; it_value = it_interval }] *)
Definition itimer_tick (t : itimer) : itimer * bool :=
  if it_value t =? 0 then (t, false)
  else if it_value t - 1 =? 0 then (Itimer (it_interval t) (it_interval t), true)
  else (Itimer (it_interval t) (it_value t - 1), false).

(** Charging the tick: the account, the signals posted to the current
    process and whether profiling wants [softclock]. *)
Definition hardclock_charge (hz : Z) (usermode noproc : bool) (a : account) : account * list Z * bool :=
  let '(ut, st, tv, sigs1, soft) :=
    if usermode then
      let '(tv, fired) := itimer_tick (t_virtual a) in
      (ru_utime a + 1, ru_stime a, tv, if fired : bool then [SIGVTALRM] else [], negb (pr_scale a =? 0))
    else (ru_utime a, if noproc then ru_stime a else ru_stime a + 1, t_virtual a, [], false) in
  if noproc then
    (Account ut st tv (t_prof a) (cpu_cur a) (cpu_max a) (p_cpu a) (p_nice a) (p_uid a) (pr_scale a), sigs1, soft)
  else
    let cpu := if u8 (p_cpu a + 1) =? 0 then 255 else u8 (p_cpu a + 1) in
    let over := cpu_cur a <? ut + st + 1 in
    let cur := if over && (cpu_cur a <? cpu_max a) then cpu_cur a + 5 * hz else cpu_cur a in
    let '(tp, fired) := itimer_tick (t_prof a) in
    (Account ut st tv tp cur (cpu_max a) cpu (p_nice a) (p_uid a) (pr_scale a),
     sigs1 ++ (if over then [SIGXCPU] else []) ++ (if fired : bool then [SIGPROF] else []), soft).

(** The time of day. *)
Definition hardclock_time (hz adjdelta lbolt sec : Z) : Z * Z * Z :=
  let '(lb, adj) :=
    if adjdelta =? 0 then (lbolt, adjdelta)
    else if 0 <? adjdelta then (lbolt + 1, adjdelta - 1)
    else (lbolt - 1, adjdelta + 1) in
  if hz <=? lb + 1 then (adj, lb + 1 - hz, sec + 1) else (adj, lb + 1, sec).

Definition CP_USER : nat := 0.
Definition CP_NICE : nat := 1.
Definition CP_SYS : nat := 2.
Definition CP_IDLE : nat := 3.
Definition NZERO : Z := 0.

(** [gatherstats]: which counter the tick is charged to. *)
Definition gatherstats (usermode noproc basepri : bool) (a : account) (cp_time : list Z) : list Z :=
  let cpstate :=
    if usermode then (if NZERO <? p_nice a then CP_NICE else CP_USER)
    else if noproc && basepri then CP_IDLE else CP_SYS in
  alter (fun n => n + 1) cpstate cp_time.

(** [softclock]: the due callouts, then the profiling tick (whether [addupc]
    is called) and the penalty of a process past ten minutes of user time
    (whether [setpri] is called on it). *)
Definition softclock (call : Z -> Z -> callouts -> outcome callouts) (fuel : nat) (usermode : bool)
  (hz : Z) (st : callouts) (a : account)
  : option (outcome (callouts * list (Z * Z) * account * bool * bool)) :=
  match softclock_loop call fuel st with
  | Some (Ok (st', tr)) =>
      if usermode then
        let late := negb (p_uid a =? 0) && (p_nice a =? NZERO) && (10 * 60 * hz <? ru_utime a) in
        let a' := if late then Account (ru_utime a) (ru_stime a) (t_virtual a) (t_prof a) (cpu_cur a)
                                 (cpu_max a) (p_cpu a) (NZERO + 4) (p_uid a) (pr_scale a) else a in
        Some (Ok (st', tr, a', negb (pr_scale a =? 0), late))
      else Some (Ok (st', tr, a, false, false))
  | Some (Panic s) => Some (Panic s)
  | Some Fault => Some Fault
  | None => None
  end.

(** What [hardclock] does before [softclock]: the new state, the signals
    posted, and whether something is due. *)
Definition hardclock_update (usermode noproc basepri : bool) (k : clock) : clock * list Z * bool :=
  let '(q, need1) := tick_queue (calltodo (k_callouts k)) false in
  let '(a, sigs, need2) := hardclock_charge (k_hz k) usermode noproc (k_acct k) in
  let cp := gatherstats usermode noproc basepri a (k_cp_time k) in
  let '(adj, lb, sec) := hardclock_time (k_hz k) (k_adjdelta k) (k_lbolt k) (k_sec k) in
  (Clock (k_hz k) adj lb sec cp (Callouts q (callfree (k_callouts k))) a, sigs, need1 || need2).

(** The interrupt: the new state, the signals posted, the callouts run and
    whether [addupc] and [setpri] are called. [basepri] is BASEPRI(ps). *)
Definition hardclock (call : Z -> Z -> callouts -> outcome callouts) (fuel : nat)
  (usermode noproc basepri : bool) (k : clock)
  : option (outcome (clock * list Z * list (Z * Z) * bool * bool)) :=
  let '(k1, sigs, needsoft) := hardclock_update usermode noproc basepri k in
  if needsoft && basepri then
    match softclock call fuel usermode (k_hz k1) (k_callouts k1) (k_acct k1) with
    | Some (Ok (cs, tr, a, addupc, setpri)) =>
        Some (Ok (Clock (k_hz k1) (k_adjdelta k1) (k_lbolt k1) (k_sec k1) (k_cp_time k1) cs a,
                  sigs, tr, addupc, setpri))
    | Some (Panic s) => Some (Panic s)
    | Some Fault => Some Fault
    | None => None
    end
  else Some (Ok (k1, sigs, [], false, false)).

(** [hzto]: the ticks until [tv]; C division truncates. *)
Definition hzto (hz tv_sec tv_usec now_sec now_usec : Z) : Z :=
  let sec := tv_sec - now_sec in
  if sec <=? 0x7fffffff ÷ 1000 - 1000 then
    ((tv_sec - now_sec) * 1000 + (tv_usec - now_usec) ÷ 1000) ÷ (1000 ÷ hz)
  else if sec <=? 0x7fffffff ÷ hz then sec * hz
  else 0x7fffffff.

Example timeout_ex :
  timeout (Callouts [Callout 3 0 1; Callout 2 0 2] [Callout 0 0 0]) 9 7 4 =
  Ok (Callouts [Callout 3 0 1; Callout 1 7 9; Callout 1 0 2] []).
Proof. reflexivity. Qed.

(** ** What the queue means *)

(** Entries due first, then entries with nonnegative deltas after a positive
    one. *)
Fixpoint queue_ok (q : list callout) : Prop :=
  match q with
  | [] => True
  | p :: q' => (c_time p <= 0 /\ queue_ok q') \/ (0 < c_time p /\ Forall (fun c => 0 <= c_time c) q')
  end.

(** The ticks until each entry is due, with its call. *)
Fixpoint deadlines (acc : Z) (q : list callout) : list (Z * (Z * Z)) :=
  match q with
  | [] => []
  | p :: q' => let d := acc + Z.max 0 (c_time p) in (d, (c_func p, c_arg p)) :: deadlines d q'
  end.

(** The number of due entries, which are all at the front. *)
Fixpoint due (q : list callout) : nat :=
  match q with
  | p :: q' => if c_time p <=? 0 then S (due q') else 0
  | [] => 0
  end.

Lemma nonneg_queue_ok q : Forall (fun c => 0 <= c_time c) q -> queue_ok q.
Proof. induction 1 as [|p q Hp Hq IH]; simpl; [done|]. destruct (decide (c_time p <= 0)); [by left|right; split; [lia|done]]. Qed.

Lemma deadlines_shift acc n q :
  deadlines (acc + n) q = map (fun e => (fst e + n, snd e)) (deadlines acc q).
Proof.
  revert acc. induction q as [|p q IH]; intros acc; simpl; [done|].
  replace (acc + n + Z.max 0 (c_time p)) with (acc + Z.max 0 (c_time p) + n) by lia. by rewrite IH.
Qed.

Lemma deadlines_ge acc q : Forall (fun e => acc <= fst e) (deadlines acc q).
Proof.
  revert acc. induction q as [|p q IH]; intros acc; simpl; constructor; simpl; [lia|].
  eapply Forall_impl; [apply IH|]. simpl. intros. lia.
Qed.

(** *** [timeout] *)

Lemma timeout_insert_spec pnew t q acc :
  1 <= t -> Forall (fun c => 0 <= c_time c) q \/ (acc = 0 /\ queue_ok q) -> 0 <= acc ->
  exists l1 l2, deadlines acc q = l1 ++ l2 /\
    deadlines acc (timeout_insert pnew t q) = l1 ++ (acc + t, (c_func pnew, c_arg pnew)) :: l2 /\
    Forall (fun e => fst e < acc + t) l1 /\ Forall (fun e => acc + t <= fst e) l2.
Proof.
  revert t acc. induction q as [|p q IH]; intros t acc Ht Hq Ha; simpl.
  { exists [], []. simpl. rewrite Z.max_r by lia. done. }
  destruct (Z.ltb_spec (c_time p) t).
  - set (t' := if 0 <? c_time p then t - c_time p else t).
    assert (acc + Z.max 0 (c_time p) + t' = acc + t /\ 1 <= t') as [He Ht'] by (unfold t'; destruct (Z.ltb_spec 0 (c_time p)); lia).
    destruct (IH t' (acc + Z.max 0 (c_time p))) as (l1&l2&E1&E2&F1&F2); [done| |lia|].
    { destruct Hq as [[_ ?]%Forall_cons|[-> [[? ?]|[? ?]]]]; [by left|right|by left]. split; [lia|done]. }
    rewrite He in *. exists ((acc + Z.max 0 (c_time p), (c_func p, c_arg p)) :: l1), l2. simpl. rewrite E1, E2.
    split_and!; try done. constructor; [simpl; lia|done].
  - exists [], (deadlines acc (p :: q)). simpl. rewrite !Z.max_r by lia.
    replace (acc + t + (c_time p - t)) with (acc + c_time p) by lia. split_and!; try done.
    constructor; [simpl; lia|]. eapply Forall_impl; [apply deadlines_ge|]. simpl. intros. lia.
Qed.

Lemma timeout_insert_ok pnew t q : 1 <= t -> queue_ok q -> queue_ok (timeout_insert pnew t q) /\ due (timeout_insert pnew t q) = due q.
Proof.
  assert (forall t q, 1 <= t -> Forall (fun c => 0 <= c_time c) q -> Forall (fun c => 0 <= c_time c) (timeout_insert pnew t q)) as Hnn.
  { clear. intros t q. revert t. induction q as [|p q IH]; intros t Ht Hq; simpl; [repeat constructor; simpl; lia|].
    apply Forall_cons in Hq as [Hp Hq]. destruct (Z.ltb_spec (c_time p) t).
    - constructor; [done|]. apply IH; [destruct (Z.ltb_spec 0 (c_time p)); lia|done].
    - repeat constructor; simpl; try lia. done. }
  revert t. induction q as [|p q IH]; intros t Ht Hq; simpl; [split; [right; simpl; split; [lia|constructor]|]; destruct (Z.leb_spec t 0); [lia|done]|].
  destruct Hq as [[Hp Hq]|[Hp Hq]].
  - destruct (Z.ltb_spec (c_time p) t); [|lia]. destruct (Z.ltb_spec 0 (c_time p)); [lia|].
    destruct (IH t Ht Hq) as [? Hd]. simpl. split; [by left|]. rewrite Hd. done.
  - destruct (Z.ltb_spec (c_time p) t).
    + destruct (Z.ltb_spec 0 (c_time p)); [|lia]. simpl. split; [right; split; [done|apply Hnn; [lia|done]]|].
      destruct (Z.leb_spec (c_time p) 0); [lia|done].
    + simpl. split; [right; split; [lia|constructor; [simpl; lia|done]]|].
      destruct (Z.leb_spec t 0), (Z.leb_spec (c_time p) 0); lia.
Qed.

(** *** [untimeout] *)

Lemma untimeout_remove_spec fun_ arg q acc :
  Forall (fun c => 0 <= c_time c) q \/ (acc = 0 /\ queue_ok q) ->
  match untimeout_remove fun_ arg q with
  | (q', None) => q' = q /\ Forall (fun e => snd e <> (fun_, arg)) (deadlines acc q)
  | (q', Some p2) => exists l1 d l2, deadlines acc q = l1 ++ (d, (fun_, arg)) :: l2 /\
      deadlines acc q' = l1 ++ l2 /\ Forall (fun e => snd e <> (fun_, arg)) l1
  end.
Proof.
  revert acc. induction q as [|p q IH]; intros acc Hq; simpl; [by split|].
  destruct ((c_func p =? fun_) && (c_arg p =? arg)) eqn:E.
  - apply andb_true_iff in E as [->%Z.eqb_eq ->%Z.eqb_eq].
    exists [], (acc + Z.max 0 (c_time p)), (deadlines (acc + Z.max 0 (c_time p)) q). simpl.
    split; [done|]. split; [|constructor]. destruct q as [|n q]; [done|].
    assert (0 < c_time p -> 0 <= c_time n) as Hn.
    { intros. destruct Hq as [[_ [? _]%Forall_cons]%Forall_cons|[_ [[? ?]|[? [? _]%Forall_cons]]]]; done || lia. }
    destruct (Z.ltb_spec 0 (c_time p)); simpl.
    + replace (acc + Z.max 0 (c_time n + c_time p)) with (acc + Z.max 0 (c_time p) + Z.max 0 (c_time n)) by lia. done.
    + by rewrite !(Z.max_l 0 (c_time p)), Z.add_0_r by lia.
  - assert ((c_func p, c_arg p) <> (fun_, arg)) as Hne.
    { intros [= Hf Ha]. by rewrite Hf, Ha, !Z.eqb_refl in E. }
    specialize (IH (acc + Z.max 0 (c_time p))).
    destruct (untimeout_remove fun_ arg q) as [q' [p2|]]; simpl.
    + destruct IH as (l1&d&l2&E1&E2&F).
      { destruct Hq as [[_ ?]%Forall_cons|[-> [[? ?]|[? ?]]]]; [by left|right|by left]. split; [lia|done]. }
      exists ((acc + Z.max 0 (c_time p), (c_func p, c_arg p)) :: l1), d, l2. rewrite E1, E2. split_and!; try done. by constructor.
    + destruct IH as [-> F]; [|split; [done|by constructor]].
      destruct Hq as [[_ ?]%Forall_cons|[-> [[? ?]|[? ?]]]]; [by left|right|by left]. split; [lia|done].
Qed.

Lemma untimeout_remove_ok fun_ arg q : queue_ok q ->
  queue_ok (fst (untimeout_remove fun_ arg q)) /\ (due (fst (untimeout_remove fun_ arg q)) <= due q)%nat.
Proof.
  assert (forall q, Forall (fun c => 0 <= c_time c) q -> Forall (fun c => 0 <= c_time c) (fst (untimeout_remove fun_ arg q))) as Hnn.
  { clear. induction 1 as [|p q Hp Hq IH]; simpl; [done|]. destruct (_ && _); simpl; [|by constructor].
    destruct q as [|n q]; [done|]. apply Forall_cons in Hq as [? ?]. destruct (0 <? c_time p); [|by constructor].
    constructor; [simpl; lia|done]. }
  induction q as [|p q IH]; intros Hq; simpl; [by split|]. destruct (_ && _); simpl.
  - destruct Hq as [[Hp Hq]|[Hp Hq]].
    + destruct q as [|n q]; [simpl; split; [done|lia]|]. destruct (Z.ltb_spec 0 (c_time p)); [lia|].
      split; [done|]. destruct (Z.leb_spec (c_time p) 0); lia.
    + destruct q as [|n q]; [simpl; split; [done|lia]|]. destruct (Z.ltb_spec 0 (c_time p)); [|lia].
      apply Forall_cons in Hq as [? ?]. simpl. split; [right; split; [lia|done]|].
      destruct (Z.leb_spec (c_time n + c_time p) 0); lia.
  - destruct Hq as [[Hp Hq]|[Hp Hq]].
    + destruct (IH Hq). split; [by left|]. destruct (Z.leb_spec (c_time p) 0); lia.
    + split; [right; split; [done|by apply Hnn]|]. destruct (Z.leb_spec (c_time p) 0); lia.
Qed.

(** *** The tick *)

Lemma tick_deadlines q b : queue_ok q ->
  deadlines 0 (fst (tick_queue q b)) = map (fun e => (Z.max 0 (fst e - 1), snd e)) (deadlines 0 q) /\
  queue_ok (fst (tick_queue q b)) /\
  snd (tick_queue q b) = b || bool_decide (Exists (fun e => fst e <= 1) (deadlines 0 q)).
Proof.
  assert (forall acc, 1 <= acc -> forall q, deadlines (acc - 1) q = map (fun e => (Z.max 0 (fst e - 1), snd e)) (deadlines acc q)) as Hs.
  { clear. intros acc Ha q. revert acc Ha. induction q as [|p q IH]; intros acc Ha; simpl; [done|].
    replace (acc - 1 + Z.max 0 (c_time p)) with (acc + Z.max 0 (c_time p) - 1) by lia.
    rewrite IH by lia. by rewrite (Z.max_r 0 (acc + _ - 1)) by lia. }
  revert b. induction q as [|p q IH]; intros b Hq; [simpl; split_and!; [done..|by rewrite orb_false_r]|].
  cbn [tick_queue deadlines map fst snd]. destruct Hq as [[Hp Hq]|[Hp Hq]].
  - destruct (Z.ltb_spec 0 (c_time p - 1)); [lia|]. destruct (Z.eqb_spec (c_time p - 1) 0); [lia|].
    destruct (IH true Hq) as (E1&O1&S1). cbn [fst snd]. rewrite S1, orb_true_l. cbn [deadlines c_time set_time c_func c_arg].
    rewrite !Z.max_l, !Z.add_0_l, E1 by lia. split_and!; [done|left; simpl; split; [lia|done]|].
    rewrite bool_decide_eq_true_2 by (left; simpl; lia). by rewrite orb_true_r.
  - assert (queue_ok (set_time (c_time p - 1) p :: q)) as Hok.
    { destruct (decide (c_time p - 1 <= 0)); [left|right]; simpl; (split; [lia|]); [by apply nonneg_queue_ok|done]. }
    assert (deadlines 0 (set_time (c_time p - 1) p :: q) = map (fun e => (Z.max 0 (fst e - 1), snd e)) (deadlines 0 (p :: q))) as Hd.
    { cbn [deadlines map fst snd c_time set_time c_func c_arg]. rewrite !Z.max_r, !Z.add_0_l by lia. by rewrite Hs by lia. }
    cbn [deadlines map fst snd] in Hd. rewrite (Z.max_r 0 (c_time p)), !Z.add_0_l in * by lia.
    destruct (Z.ltb_spec 0 (c_time p - 1)); cbn [fst snd].
    + split_and!; [exact Hd|done|]. rewrite bool_decide_eq_false_2; [by rewrite orb_false_r|].
      rewrite Exists_cons. intros [?|Hx]; [simpl in *; lia|]. apply Exists_exists in Hx as (e&He&?).
      pose proof (deadlines_ge (c_time p) q) as Hf. rewrite Forall_forall in Hf. specialize (Hf _ He). lia.
    + destruct (Z.eqb_spec (c_time p - 1) 0); [|lia]. cbn [fst snd]. split_and!; [exact Hd|done|].
      rewrite bool_decide_eq_true_2 by (left; simpl; lia). by rewrite orb_true_r.
Qed.

Lemma filter_none {A} (P : A -> Prop) `{!forall x, Decision (P x)} (l : list A) :
  Forall (fun x => ~ P x) l -> filter P l = [].
Proof. induction 1; [done|]. by rewrite filter_cons_False. Qed.

Lemma due_deadlines q : queue_ok q -> due q = length (filter (fun e => fst e <= 0) (deadlines 0 q)).
Proof.
  induction q as [|p q IH]; intros Hq; simpl; [done|]. destruct Hq as [[Hp Hq]|[Hp Hq]].
  - destruct (Z.leb_spec (c_time p) 0); [|lia]. rewrite filter_cons_True by (simpl; lia). simpl. rewrite Z.max_l by lia. by rewrite IH.
  - destruct (Z.leb_spec (c_time p) 0); [lia|]. rewrite Z.max_r by lia. rewrite filter_cons_False by (simpl; lia).
    symmetry. apply length_zero_iff_nil, filter_none.
    eapply Forall_impl; [apply deadlines_ge|]. simpl. intros. lia.
Qed.

(** A scheduled call goes behind every due one. *)
Lemma timeout_insert_due pnew t q : 1 <= t ->
  timeout_insert pnew t q = take (due q) q ++ timeout_insert pnew t (drop (due q) q).
Proof.
  intros Ht. induction q as [|p q IH]; [done|]. simpl. destruct (Z.leb_spec (c_time p) 0); [|done].
  destruct (Z.ltb_spec (c_time p) t); [|lia]. destruct (Z.ltb_spec 0 (c_time p)); [lia|]. simpl. by f_equal.
Qed.

Lemma timeout_insert_length pnew t q : length (timeout_insert pnew t q) = S (length q).
Proof. revert t. induction q as [|p q IH]; intros t; simpl; [done|]. destruct (_ <? _); simpl; [by rewrite IH|done]. Qed.

(** ** Theorems *)

(** On a well-formed callout queue with a free structure, [timeout]
    inserts the call with deadline [max 1 t] ticks after every earlier and
    before every later or equal deadline, leaves every other deadline as it
    was, makes nothing due and takes one structure; it panics exactly when
    no structure is free. *)
Theorem timeout_spec (st : callouts) (f arg t : Z) :
  queue_ok (calltodo st) ->
  match callfree st with
  | [] => timeout st f arg t = Panic "timeout table overflow"
  | _ :: free => exists st' l1 l2, timeout st f arg t = Ok st' /\ callfree st' = free /\
      queue_ok (calltodo st') /\ due (calltodo st') = due (calltodo st) /\
      deadlines 0 (calltodo st) = l1 ++ l2 /\
      deadlines 0 (calltodo st') = l1 ++ (Z.max 1 t, (f, arg)) :: l2 /\
      Forall (fun e => fst e < Z.max 1 t) l1 /\ Forall (fun e => Z.max 1 t <= fst e) l2
  end.
Proof.
  intros Hq. unfold timeout. destruct (callfree st) as [|pnew free]; [done|].
  assert ((if t <=? 0 then 1 else t) = Z.max 1 t) as -> by (destruct (Z.leb_spec t 0); lia).
  set (c := Callout (c_time pnew) arg f).
  destruct (timeout_insert_spec c (Z.max 1 t) (calltodo st) 0) as (l1&l2&E1&E2&F1&F2); [lia|by right|lia|].
  destruct (timeout_insert_ok c (Z.max 1 t) (calltodo st)) as [O1 O2]; [lia|done|].
  rewrite Z.add_0_l in *. eexists _, l1, l2. split_and!; try done.
Qed.

Definition sample_callouts : callouts :=
  Callouts [Callout (-1) 0 10; Callout 0 0 11; Callout 3 0 12; Callout 0 1 12; Callout 5 0 13]
    [Callout 0 0 0; Callout 0 0 0].

Ltac sample_ok := simpl; left; split; [lia|left; split; [lia|right; split; [lia|repeat constructor; simpl; lia]]].

Lemma timeout_spec_witness : exists st', timeout sample_callouts 20 7 4 = Ok st' /\ due (calltodo st') = 2%nat.
Proof.
  destruct (timeout_spec sample_callouts 20 7 4) as (st'&l1&l2&E&_&_&D&_); [sample_ok|]. by exists st'.
Defined.

(** [untimeout] cancels the first pending call of [(f, arg)]: its entry
    leaves the queue, the deadline of every other entry is unchanged, and
    the structure goes back to the free list; when no such call is pending
    nothing changes. *)
Theorem untimeout_spec (st : callouts) (f arg : Z) :
  queue_ok (calltodo st) ->
  queue_ok (calltodo (untimeout st f arg)) /\
  ((untimeout st f arg = st /\ Forall (fun e => snd e <> (f, arg)) (deadlines 0 (calltodo st))) \/
   exists l1 d l2 p, deadlines 0 (calltodo st) = l1 ++ (d, (f, arg)) :: l2 /\
     deadlines 0 (calltodo (untimeout st f arg)) = l1 ++ l2 /\
     Forall (fun e => snd e <> (f, arg)) l1 /\ callfree (untimeout st f arg) = p :: callfree st).
Proof.
  intros Hq. unfold untimeout. pose proof (untimeout_remove_spec f arg (calltodo st) 0 (or_intror (conj eq_refl Hq))) as H.
  pose proof (untimeout_remove_ok f arg (calltodo st) Hq) as [Ho _].
  destruct (untimeout_remove f arg (calltodo st)) as [q [p|]]; simpl in *.
  - split; [done|right]. destruct H as (l1&d&l2&?&?&?). by exists l1, d, l2, p.
  - destruct H as [-> ?]. split; [done|by left].
Qed.

Lemma untimeout_spec_witness : queue_ok (calltodo (untimeout sample_callouts 12 0)).
Proof. apply (untimeout_spec sample_callouts 12 0). sample_ok. Defined.

Definition ticks (n : nat) (q : list callout) : list callout := Nat.iter n (fun q => fst (tick_queue q false)) q.

(** C9. Timeouts are exact: however many ticks [n] of [hardclock] pass, the
    remaining time of each entry is its deadline less [n] (never below 0),
    the order of the queue is unchanged, exactly the entries with deadline
    at most [n] are due, and the next tick asks for [softclock] exactly when
    something is then due. *)
Theorem callout_exact (q : list callout) (n : nat) :
  queue_ok q ->
  deadlines 0 (ticks n q) = map (fun e => (Z.max 0 (fst e - Z.of_nat n), snd e)) (deadlines 0 q) /\
  due (ticks n q) = length (filter (fun e => fst e <= Z.of_nat n) (deadlines 0 q)) /\
  snd (tick_queue (ticks n q) false) = bool_decide (Exists (fun e => fst e <= Z.of_nat n + 1) (deadlines 0 q)).
Proof.
  intros Hq.
  assert (deadlines 0 (ticks n q) = map (fun e => (Z.max 0 (fst e - Z.of_nat n), snd e)) (deadlines 0 q) /\ queue_ok (ticks n q)) as [E O].
  { induction n as [|n [IH1 IH2]].
    - split; [|done]. simpl. rewrite <- (map_id (deadlines 0 q)) at 1. apply map_ext_Forall.
      eapply Forall_impl; [apply deadlines_ge|]. intros [d x]. simpl. intros. f_equal. lia.
    - destruct (tick_deadlines _ false IH2) as (E1&O1&_). split; [|exact O1]. unfold ticks in *. simpl. rewrite E1, IH1, map_map.
      apply map_ext. intros [d x]. simpl. f_equal. lia. }
  split; [done|]. split.
  - rewrite due_deadlines, E by done. clear. induction (deadlines 0 q) as [|[d x] l IH]; [done|]. simpl.
    rewrite !filter_cons. simpl. case_decide; case_decide; simpl; lia.
  - destruct (tick_deadlines _ false O) as (_&_&->). rewrite orb_false_l, E. apply bool_decide_ext.
    rewrite Exists_map. split; (intros H; eapply Exists_impl; [exact H|]; intros [d x]; simpl; lia).
Qed.

Lemma callout_exact_witness : due (ticks 3 (calltodo sample_callouts)) = 4%nat.
Proof. destruct (callout_exact (calltodo sample_callouts) 3) as (_&E&_); [sample_ok|]. exact E. Defined.

(** Callbacks that schedule calls: [script f a] lists the timeouts asked. *)
Fixpoint run_script (ops : list (Z * Z * Z)) (st : callouts) : outcome callouts :=
  match ops with
  | [] => Ok st
  | (f, a, t) :: ops' => st' ← timeout st f a t; run_script ops' st'
  end.

(** One callback of at most one timeout, run as [softclock] runs it: after
    its own structure was freed. *)
Lemma callback_ok ops q p free : (length ops <= 1)%nat -> queue_ok q ->
  exists st', run_script ops (Callouts q (p :: free)) = Ok st' /\ queue_ok (calltodo st') /\
    due (calltodo st') = due q /\ take (due q) (calltodo st') = take (due q) q /\
    (length (calltodo st') + length (callfree st') = length q + S (length free))%nat.
Proof.
  intros Ho Hq. destruct ops as [|[[f a] t] [|? ?]]; [|clear Ho|simpl in Ho; lia].
  { eexists. split; [done|]. simpl. done. }
  cbn [run_script]. unfold timeout. cbn [callfree calltodo]. set (t' := if _ : bool then _ else _).
  assert (1 <= t') by (unfold t'; destruct (Z.leb_spec t 0); lia).
  destruct (timeout_insert_ok (Callout (c_time p) a f) t' q) as [O D]; [done..|].
  eexists. cbn [mbind outcome_bind run_script]. split; [done|]. cbn [calltodo callfree]. split_and!; try done.
  - assert (due q <= length q)%nat.
    { clear. induction q as [|p q IH]; simpl; [lia|]. destruct (_ <=? _); lia. }
    rewrite timeout_insert_due by done. rewrite take_app_le by (rewrite length_take; lia). by rewrite take_idemp.
  - rewrite timeout_insert_length. lia.
Qed.

(** C10. [softclock] terminates and runs exactly the calls that were due, in
    queue order, even when each of them schedules another call (itself, as
    the periodic kernel callouts do): no call scheduled from a callback runs
    in the same [softclock], the callout table cannot overflow, no structure
    is lost, and afterwards nothing is due. *)
Theorem softclock_runs_due (script : Z -> Z -> list (Z * Z * Z)) (st : callouts) (fuel : nat) :
  queue_ok (calltodo st) -> (forall f a, length (script f a) <= 1)%nat -> (due (calltodo st) < fuel)%nat ->
  exists st', softclock_loop (fun f a => run_script (script f a)) fuel st =
      Some (Ok (st', map (fun p => (c_func p, c_arg p)) (take (due (calltodo st)) (calltodo st)))) /\
    queue_ok (calltodo st') /\ due (calltodo st') = 0%nat /\
    (length (calltodo st') + length (callfree st') = length (calltodo st) + length (callfree st))%nat.
Proof.
  intros Hq Hs. remember (due (calltodo st)) as d eqn:Hd. revert st fuel Hq Hd.
  induction d as [|d IH]; intros st fuel Hq Hd Hf; (destruct fuel as [|fuel]; [lia|]); simpl.
  { exists st. destruct (calltodo st) as [|p q]; [done|]. simpl in Hd.
    destruct (Z.leb_spec (c_time p) 0); [done|]. destruct (Z.ltb_spec 0 (c_time p)); [|lia].
    split_and!; try done. simpl. destruct (Z.leb_spec (c_time p) 0); lia. }
  destruct (calltodo st) as [|p q] eqn:Et; [done|]. simpl in Hd.
  destruct (Z.leb_spec (c_time p) 0) as [Hp|]; [|done]. injection Hd as Hd.
  destruct (Z.ltb_spec 0 (c_time p)); [lia|]. destruct Hq as [[_ Hq]|[? _]]; [|lia].
  destruct (callback_ok (script (c_func p) (c_arg p)) q p (callfree st)) as (st1&E1&Q1&D1&T1&L1); [done..|].
  rewrite E1. destruct (IH st1 fuel) as (st'&E&Q&D&L); [done|congruence|lia|].
  rewrite E. rewrite <- Hd in T1. rewrite T1. exists st'. split_and!; try done. simpl. lia.
Qed.

Lemma softclock_runs_due_witness : exists st',
  softclock_loop (fun f a => run_script ([(f, a, 5)])) 3 sample_callouts = Some (Ok (st', [(10, 0); (11, 0)])).
Proof.
  destruct (softclock_runs_due (fun f a => [(f, a, 5)]) sample_callouts 3) as (st'&E&_); [sample_ok|intros; simpl; lia|vm_compute; lia|].
  exists st'. exact E.
Defined.

(** The time of day loses no tick: with [hz >= 2], every [hardclock]
    keeps [0 <= lbolt < hz] and adds exactly one tick to the time plus the
    correction still owed by [adjtime]; the time itself never runs backwards
    and advances by at most two ticks. *)
Theorem hardclock_time_exact (um np bp : bool) (k : clock) :
  2 <= k_hz k -> 0 <= k_lbolt k < k_hz k ->
  let k' := fst (fst (hardclock_update um np bp k)) in
  let now c := k_sec c * k_hz c + k_lbolt c in
  k_hz k' = k_hz k /\ 0 <= k_lbolt k' < k_hz k' /\
  now k' + k_adjdelta k' = now k + k_adjdelta k + 1 /\
  now k <= now k' <= now k + 2 /\
  Z.abs (k_adjdelta k') = Z.max 0 (Z.abs (k_adjdelta k) - 1).
Proof.
  intros Hz Hl. unfold hardclock_update.
  destruct (tick_queue _ _) as [q n1]. destruct (hardclock_charge _ _ _ _) as [[a sg] n2].
  unfold hardclock_time. repeat case_bool; simpl; nia.
Qed.

Lemma hardclock_time_exact_witness :
  let a := Account 0 0 (Itimer 0 0) (Itimer 0 0) 100 100 0 0 0 0 in
  k_adjdelta (fst (fst (hardclock_update true false true (Clock 60 (-3) 59 10 [0; 0; 0; 0] sample_callouts a)))) = -2.
Proof.
  intros a. pose proof (hardclock_time_exact true false true (Clock 60 (-3) 59 10 [0; 0; 0; 0] sample_callouts a)) as H.
  destruct H as (_&_&H&_); [simpl; lia..|]. vm_compute in H |- *. reflexivity.
Defined.
