(* ===== verification/Clist.v ===== *)
(** * Character lists ([sys/kern/tty_subr.c], [sys/sys/clist.h])

    A [clist] is a queue of bytes kept in 32-byte blocks; a block is a next
    pointer and 28 bytes, and block addresses are multiples of 32, which is
    how the code finds the block of a character pointer. Memory is a finite
    map from block addresses to blocks; a character pointer is an address,
    0 is [NULL], and an access outside a block's bytes is [Fault]. The free
    list, its count, the waiting flag, the wakeups it caused and the log of
    [capacity_note] calls are the module's state. [char] is unsigned on this
    machine. Loops carry fuel: [q_to_b], [b_to_q] and [ndflush] move at least
    one byte per round, [unputc] visits each block at most once and [catq]
    empties at least one byte per round, so the fuel computed at the call is
    enough, which the theorems show by proving that the calls return. *)
From stdpp Require Import gmap.
From S2P Require Import Prelude.

Definition CBLOCK : Z := 32.
Definition CBSIZE : Z := 28.
Definition CROUND : Z := 31.

Record cblock := Cblock { c_next : Z; c_info : list Z }.

Record clist := Clist { c_cc : Z; c_cf : Z; c_cl : Z }.

Record cstate := Cstate {
  c_mem : gmap Z cblock;
  cfreelist : Z;
  cfreecount : Z;
  cwaiting : bool;
  wakeups : nat;                 (* calls of wakeup(&cwaiting) *)
  notes : list bool              (* capacity_note(CAPACITY_CLIST, failed), latest first *)
}.

(** ** Memory accesses *)

Definition blk_of (p : Z) : Z := Z.land p (Z.lnot CROUND).
Definition off_of (p : Z) : Z := Z.land p CROUND.

Definition get_block (st : cstate) (bp : Z) : outcome cblock :=
  match c_mem st !! bp with Some b => Ok b | None => Fault end.

Definition put_block (st : cstate) (bp : Z) (b : cblock) : cstate :=
  Cstate (<[bp:=b]> (c_mem st)) (cfreelist st) (cfreecount st) (cwaiting st) (wakeups st) (notes st).

Definition set_next (st : cstate) (bp v : Z) : outcome cstate :=
  b ← get_block st bp; Ok (put_block st bp (Cblock v (c_info b))).

(** [nc] bytes at [p], which must lie in one block. *)
Definition load (st : cstate) (p nc : Z) : outcome (list Z) :=
  b ← get_block st (blk_of p);
  if (4 <=? off_of p) && (0 <=? nc) && (off_of p + nc <=? CBLOCK)
  then Ok (take (Z.to_nat nc) (drop (Z.to_nat (off_of p - 4)) (c_info b))) else Fault.

Definition store (st : cstate) (p : Z) (bs : list Z) : outcome cstate :=
  b ← get_block st (blk_of p);
  if (4 <=? off_of p) && (off_of p + Z.of_nat (length bs) <=? CBLOCK)
  then
    let e := Z.to_nat (off_of p - 4) in
    Ok (put_block st (blk_of p) (Cblock (c_next b) (take e (c_info b) ++ bs ++ drop (e + length bs) (c_info b))))
  else Fault.

Definition capacity_note (st : cstate) (failed : bool) : cstate :=
  Cstate (c_mem st) (cfreelist st) (cfreecount st) (cwaiting st) (wakeups st) (failed :: notes st).

(** [bp->c_next = cfreelist; cfreelist = bp; cfreecount += CBSIZE;] *)
Definition free_block (st : cstate) (bp : Z) : outcome cstate :=
  st ← set_next st bp (cfreelist st);
  Ok (Cstate (c_mem st) bp (cfreecount st + CBSIZE) (cwaiting st) (wakeups st) (notes st)).

(** [if (cwaiting) { wakeup(&cwaiting); cwaiting = 0; }] *)
Definition wake_waiting (st : cstate) : cstate :=
  if cwaiting st
  then Cstate (c_mem st) (cfreelist st) (cfreecount st) false (S (wakeups st)) (notes st) else st.

(** [bp] is the head of a nonempty free list: take it, with a null link. *)
Definition take_block (st : cstate) (bp : Z) : outcome cstate :=
  b ← get_block st bp;
  let st := Cstate (c_mem st) (c_next b) (cfreecount st - CBSIZE) (cwaiting st) (wakeups st) (notes st) in
  set_next (capacity_note st false) bp 0.

(** ** Operations *)

(** [cinit]: the blocks of the aligned array [cfree], freed in order. *)
Fixpoint cinit_loop (n : nat) (cp : Z) (st : cstate) : outcome cstate :=
  match n with
  | O => Ok st
  | S n' => st ← free_block st cp; cinit_loop n' (cp + CBLOCK) st
  end.

Definition cinit (cfree : Z) (nclist : nat) (st : cstate) : outcome cstate :=
  let ccp := Z.land (cfree + CROUND) (Z.lnot CROUND) in
  cinit_loop (Z.to_nat ((cfree + CBLOCK * (Z.of_nat nclist - 1) - ccp) / CBLOCK + 1)) ccp st.

(** After the front of [q] moved on: what [getc] and the loop of [q_to_b]
    both do when the queue became empty or the block was used up. *)
Definition release_front (st : cstate) (q : clist) : outcome (cstate * clist) :=
  if c_cc q <=? 0 then
    st ← free_block st (blk_of (c_cf q - 1));
    Ok (wake_waiting st, Clist (c_cc q) 0 0)
  else if off_of (c_cf q) =? 0 then
    let bp := c_cf q - CBLOCK in
    b ← get_block st bp;
    st ← free_block st bp;
    Ok (wake_waiting st, Clist (c_cc q) (c_next b + 4) (c_cl q))
  else Ok (st, q).

Definition getc (st : cstate) (p : clist) : outcome (Z * cstate * clist) :=
  if c_cc p <=? 0 then Ok (-1, st, Clist 0 0 0)
  else
    cs ← load st (c_cf p) 1;
    c ← rd cs 0;
    r ← release_front st (Clist (c_cc p - 1) (c_cf p + 1) (c_cl p));
    Ok (Z.land c 255, fst r, snd r).

Fixpoint q_to_b_loop (fuel : nat) (st : cstate) (q : clist) (cc : Z) : outcome (list Z * cstate * clist) :=
  if cc =? 0 then Ok ([], st, q) else
  match fuel with
  | O => Fault
  | S fuel' =>
      let nc := Z.min (Z.min (CBLOCK - off_of (c_cf q)) cc) (c_cc q) in
      bs ← load st (c_cf q) nc;
      let q := Clist (c_cc q - nc) (c_cf q + nc) (c_cl q) in
      r ← release_front st q;
      if c_cc q <=? 0 then Ok (bs, fst r, snd r)
      else
        r' ← q_to_b_loop fuel' (fst r) (snd r) (cc - nc);
        Ok (bs ++ fst (fst r'), snd (fst r'), snd r')
  end.

(** The bytes moved to the buffer; the code returns their number. *)
Definition q_to_b (st : cstate) (q : clist) (cc : Z) : outcome (list Z * cstate * clist) :=
  if cc <=? 0 then Ok ([], st, q)
  else if c_cc q <=? 0 then Ok ([], st, Clist 0 0 0)
  else q_to_b_loop (Z.to_nat cc) st q cc.

(** The scan of [ndqb]: the number of bytes before the first with a bit of
    [flag]. *)
Fixpoint scan_flag (flag : Z) (bs : list Z) : Z :=
  match bs with
  | [] => 0
  | c :: bs' => if negb (Z.land c flag =? 0) then 0 else 1 + scan_flag flag bs'
  end.

Definition ndqb (st : cstate) (q : clist) (flag : Z) : outcome Z :=
  if c_cc q <=? 0 then Ok (- c_cc q)
  else
    let cc := Z.land (c_cf q + CBSIZE) (Z.lnot CROUND) - c_cf q in
    let cc := if c_cc q <? cc then c_cc q else cc in
    if flag =? 0 then Ok cc
    else bs ← load st (c_cf q) cc; Ok (scan_flag flag bs).

Fixpoint ndflush_loop (fuel : nat) (st : cstate) (q : clist) (cc : Z) : outcome (cstate * clist) :=
  if negb (0 <? cc) || (c_cc q =? 0) then Ok (st, q) else
  match fuel with
  | O => Fault
  | S fuel' =>
      let bp := blk_of (c_cf q) in
      let end_ := if bp =? blk_of (c_cl q - 1) then c_cl q else bp + CBLOCK in
      let rem := end_ - c_cf q in
      if rem <=? cc then
        b ← get_block st bp;
        st ← free_block st bp;
        ndflush_loop fuel' (wake_waiting st) (Clist (c_cc q - rem) (c_next b + 4) (c_cl q)) (cc - rem)
      else
        let q := Clist (c_cc q - cc) (c_cf q + cc) (c_cl q) in
        if c_cc q <=? 0 then st ← free_block st bp; Ok (wake_waiting st, q)
        else Ok (st, q)
  end.

Definition ndflush (st : cstate) (q : clist) (cc : Z) : outcome (cstate * clist) :=
  if c_cc q <=? 0 then Ok (st, q)
  else
    r ← ndflush_loop (Z.to_nat cc) st q cc;
    if c_cc (snd r) <=? 0 then Ok (fst r, Clist 0 0 0) else Ok r.

(** The first block of an empty queue, and the next block when [cq] is at
    the end of one; [None] when the free list is empty. Both give the state
    and the place of the next byte. *)
Definition first_block (st : cstate) : outcome (cstate * option Z) :=
  if cfreelist st =? 0 then Ok (capacity_note st true, None)
  else let bp := cfreelist st in st ← take_block st bp; Ok (st, Some (bp + 4)).

Definition next_block (st : cstate) (cq : Z) : outcome (cstate * option Z) :=
  if off_of cq =? 0 then
    st ← set_next st (cq - CBLOCK) (cfreelist st);
    if cfreelist st =? 0 then Ok (capacity_note st true, None)
    else let bp := cfreelist st in st ← take_block st bp; Ok (st, Some (bp + 4))
  else Ok (st, Some cq).

Definition putc (st : cstate) (c : Z) (p : clist) : outcome (Z * cstate * clist) :=
  let empty := (c_cl p =? 0) || (c_cc p <? 0) in
  r ← (if empty then first_block st else next_block st (c_cl p));
  match snd r with
  | None => Ok (-1, fst r, p)
  | Some cp =>
      st ← store (fst r) cp [u8 c];
      Ok (0, st, Clist (c_cc p + 1) (if empty then cp else c_cf p) (cp + 1))
  end.

(** The loop of [b_to_q]: what is left of the buffer, and the end. *)
Fixpoint b_to_q_loop (fuel : nat) (st : cstate) (cp : list Z) (cc cq : Z) : outcome (cstate * Z * Z) :=
  if cc =? 0 then Ok (st, cc, cq) else
  match fuel with
  | O => Fault
  | S fuel' =>
      r ← next_block st cq;
      match snd r with
      | None => Ok (fst r, cc, cq)
      | Some cq =>
          let nc := Z.min cc (CBLOCK - off_of cq) in
          if (length cp <? Z.to_nat nc)%nat then Fault else
          st ← store (fst r) cq (take (Z.to_nat nc) cp);
          b_to_q_loop fuel' st (drop (Z.to_nat nc) cp) (cc - nc) (cq + nc)
      end
  end.

(** The bytes not moved, the state and the queue. *)
Definition b_to_q (st : cstate) (cp : list Z) (cc : Z) (q : clist) : outcome (Z * cstate * clist) :=
  if cc <=? 0 then Ok (0, st, q)
  else
    let empty := (c_cl q =? 0) || (c_cc q <? 0) in
    r ← (if empty then first_block st else Ok (st, Some (c_cl q)));
    match snd r with
    | None => Ok (cc, fst r, q)
    | Some cq =>
        l ← b_to_q_loop (Z.to_nat cc) (fst r) cp cc cq;
        let '(st, rest, cq') := l in
        Ok (rest, st, Clist (c_cc q + (cc - rest)) (if empty then cq else c_cf q) cq')
    end.

Definition nextc (st : cstate) (p : clist) (cp : Z) : outcome Z :=
  if negb (c_cc p =? 0) && negb (cp + 1 =? c_cl p) then
    if off_of (cp + 1) =? 0 then b ← get_block st (cp + 1 - CBLOCK); Ok (c_next b + 4)
    else Ok (cp + 1)
  else Ok 0.

(** The walk of [unputc] to the block before [last]. *)
Fixpoint find_before (fuel : nat) (st : cstate) (bp last : Z) : outcome Z :=
  match fuel with
  | O => Fault
  | S fuel' => b ← get_block st bp; if c_next b =? last then Ok bp else find_before fuel' st (c_next b) last
  end.

Definition unputc (st : cstate) (p : clist) : outcome (Z * cstate * clist) :=
  if c_cc p <=? 0 then Ok (-1, st, p)
  else
    let cl := c_cl p - 1 in
    cs ← load st cl 1;
    c ← rd cs 0;
    if c_cc p - 1 <=? 0 then
      st ← free_block st (blk_of cl);
      Ok (c, st, Clist (c_cc p - 1) 0 0)
    else if off_of cl =? 4 then
      let last := blk_of cl in
      obp ← find_before (size (c_mem st)) st (blk_of (c_cf p)) last;
      b ← get_block st obp;
      st ← free_block st (c_next b);
      st ← set_next st obp 0;
      Ok (c, st, Clist (c_cc p - 1) (c_cf p) (obp + CBLOCK))
    else Ok (c, st, Clist (c_cc p - 1) (c_cf p) cl).

(** [sizeof bbuf] *)
Definition BBUF : Z := CBSIZE * 4.

Fixpoint catq_loop (fuel : nat) (st : cstate) (from to : clist) : outcome (cstate * clist * clist) :=
  if negb (0 <? c_cc from) then Ok (st, from, to) else
  match fuel with
  | O => Fault
  | S fuel' =>
      r ← q_to_b st from BBUF;
      let '(bs, st, from) := r in
      r ← b_to_q st bs (Z.of_nat (length bs)) to;
      let '(_, st, to) := r in
      catq_loop fuel' st from to
  end.

Definition catq (st : cstate) (from to : clist) : outcome (cstate * clist * clist) :=
  if c_cc to =? 0 then Ok (st, Clist 0 0 0, from)
  else catq_loop (Z.to_nat (c_cc from)) st from to.

(** ** What the structures mean *)

Definition hd_addr (l : list (Z * list Z)) (z : Z) : Z :=
  match l with [] => z | (k, _) :: _ => k end.

Definition block_ok (b : Z * list Z) : Prop :=
  0 < fst b /\ fst b mod 32 = 0 /\ length (snd b) = 28%nat /\ Forall (fun c => 0 <= c < 256) (snd b).

(** A linked list of blocks in memory, ending in [z]. *)
Fixpoint chain (m : gmap Z cblock) (l : list (Z * list Z)) (z : Z) : Prop :=
  match l with
  | [] => True
  | (k, info) :: l' => m !! k = Some (Cblock (hd_addr l' z) info) /\ block_ok (k, info) /\ chain m l' z
  end.

Definition ids (l : list (Z * list Z)) : list Z := map fst l.
Definition text (l : list (Z * list Z)) : list Z := concat (map snd l).

(** The bytes [bs] start [s] bytes into the first block of [l] and end at
    [cl] in the last one, which holds at least [g] of them. *)
Definition qseg (g : nat) (l : list (Z * list Z)) (s : nat) (cl : Z) (bs : list Z) : Prop :=
  exists l0 k info e, l = l0 ++ [(k, info)] /\ cl = k + 4 + Z.of_nat e /\ (e <= 28)%nat /\ (s < 28)%nat /\
    (g + match l0 with [] => s | _ => 0 end <= e)%nat /\ bs = drop s (text l0 ++ take e info).

(** The queue [q] holds [bs] in the blocks [l]. *)
Definition qrep (m : gmap Z cblock) (q : clist) (bs : list Z) (s : nat) (l : list (Z * list Z)) : Prop :=
  chain m l 0 /\
  ((l = [] /\ bs = [] /\ s = 0%nat /\ q = Clist 0 0 0) \/
   (c_cc q = Z.of_nat (length bs) /\ c_cf q = hd_addr l 0 + 4 + Z.of_nat s /\ qseg 1 l s (c_cl q) bs)).

Definition free_rep (st : cstate) (fl : list (Z * list Z)) : Prop :=
  chain (c_mem st) fl 0 /\ cfreelist st = hd_addr fl 0 /\ cfreecount st = 28 * Z.of_nat (length fl).

(** One queue with the free list. *)
Definition here (st : cstate) (q : clist) (bs : list Z) (s : nat) (l fl : list (Z * list Z)) : Prop :=
  qrep (c_mem st) q bs s l /\ free_rep st fl /\ NoDup (ids l ++ ids fl).

(** Only blocks of the queue and of the free list changed, and none was
    lost or gained. *)
Definition moves (st : cstate) (l fl : list (Z * list Z)) (st' : cstate) (l' fl' : list (Z * list Z)) : Prop :=
  ids l' ++ ids fl' ≡ₚ ids l ++ ids fl /\
  forall k, k ∉ ids l ++ ids fl -> c_mem st' !! k = c_mem st !! k.

(** The whole pool: the queues [qs] with their contents and the free list
    share the blocks [ks], each belonging to exactly one of them. *)
Definition owns (st : cstate) (qs : list (clist * list Z)) (ks : list Z) : Prop :=
  exists ls fl, Forall2 (fun qb l => exists s, qrep (c_mem st) (fst qb) (snd qb) s l) qs ls /\
    free_rep st fl /\ concat (map ids ls) ++ ids fl ≡ₚ ks /\ NoDup ks.

(** The bytes that can still be added to [q]. *)
Definition room (st : cstate) (q : clist) : Z := cfreecount st + (- c_cl q) mod 32.

(** *** Addresses *)

Lemma blk_of_mod p : blk_of p = p - p mod 32.
Proof. apply (land_lnot_pow2 p 5). lia. Qed.

Lemma off_of_mod p : off_of p = p mod 32.
Proof. apply (land_pow2_mod p 5). lia. Qed.

Lemma addr_mod k n : k mod 32 = 0 -> 0 <= n < 32 -> (k + n) mod 32 = n.
Proof. intros Hk Hn. rewrite <- Zplus_mod_idemp_l, Hk, Z.add_0_l. by apply Z.mod_small. Qed.

Lemma blk_of_in k n : k mod 32 = 0 -> 0 <= n < 32 -> blk_of (k + n) = k.
Proof. intros. rewrite blk_of_mod, addr_mod by done. lia. Qed.

Lemma off_of_in k n : k mod 32 = 0 -> 0 <= n < 32 -> off_of (k + n) = n.
Proof. intros. by rewrite off_of_mod, addr_mod. Qed.

Lemma off_of_end k : k mod 32 = 0 -> off_of (k + 32) = 0.
Proof. intros H. rewrite off_of_mod, <- Zplus_mod_idemp_l, H. done. Qed.

(** *** Chains *)

Lemma chain_app m l1 l2 z : chain m (l1 ++ l2) z <-> chain m l1 (hd_addr l2 z) /\ chain m l2 z.
Proof.
  induction l1 as [|[k info] l1 IH]; simpl; [naive_solver|]. rewrite IH.
  assert (hd_addr (l1 ++ l2) z = hd_addr l1 (hd_addr l2 z)) as -> by by destruct l1 as [|[? ?] ?]. tauto.
Qed.

Lemma chain_ext m m' l z : (forall k, k ∈ ids l -> m' !! k = m !! k) -> chain m l z -> chain m' l z.
Proof.
  induction l as [|[k info] l IH]; simpl; [done|]. intros Hm (H1&H2&H3). split_and!; try done.
  - rewrite Hm; [done|]. apply elem_of_cons. by left.
  - apply IH; [|done]. intros k' Hk. apply Hm. apply elem_of_cons. by right.
Qed.

Lemma chain_insert m l z k b : k ∉ ids l -> chain m l z -> chain (<[k:=b]> m) l z.
Proof. intros Hk. apply chain_ext. intros k' Hk'. apply lookup_insert_ne. intros ->. done. Qed.

Lemma chain_in m l z k : chain m l z -> k ∈ ids l -> is_Some (m !! k) /\ 0 < k /\ k mod 32 = 0.
Proof.
  induction l as [|[k0 info] l IH]; simpl; [by intros _ ?%not_elem_of_nil|].
  intros (H1&(?&?&_)&H3) [->|Hk]%elem_of_cons; [|by apply IH]. split_and!; [by eexists|done..].
Qed.

Lemma chain_text_length m l z : chain m l z -> length (text l) = (28 * length l)%nat.
Proof.
  unfold text. induction l as [|[k info] l IH]; simpl; [done|]. intros (_&(_&_&Hl&_)&Hc).
  rewrite length_app, IH by done. simpl in Hl. lia.
Qed.

Lemma chain_text_bytes m l z : chain m l z -> Forall (fun c => 0 <= c < 256) (text l).
Proof.
  unfold text. induction l as [|[k info] l IH]; simpl; [constructor|]. intros (_&(_&_&_&Hb)&Hc).
  apply Forall_app. split; [done|by apply IH].
Qed.

Lemma ids_app l1 l2 : ids (l1 ++ l2) = ids l1 ++ ids l2.
Proof. apply map_app. Qed.

(** *** Ownership *)

Lemma moves_refl st l fl : moves st l fl st l fl.
Proof. by split. Qed.

Lemma moves_trans st1 l1 f1 st2 l2 f2 st3 l3 f3 :
  moves st1 l1 f1 st2 l2 f2 -> moves st2 l2 f2 st3 l3 f3 -> moves st1 l1 f1 st3 l3 f3.
Proof.
  intros [P1 E1] [P2 E2]. split; [by rewrite P2|]. intros k Hk. rewrite E2, E1; [done..|]. by rewrite P1.
Qed.

Lemma moves_length st l fl st' l' fl' :
  moves st l fl st' l' fl' -> (length l' + length fl' = length l + length fl)%nat.
Proof. intros [P%Permutation_length _]. rewrite !length_app in P. unfold ids in P. rewrite !length_map in P. done. Qed.

Lemma qrep_ext m m' q bs s l : (forall k, k ∈ ids l -> m' !! k = m !! k) -> qrep m q bs s l -> qrep m' q bs s l.
Proof. intros Hm [Hc ?]. split; [by eapply chain_ext|done]. Qed.

(** The queue at the head can be worked on alone, and put back. *)
Lemma owns_head st q bs rest ks : owns st ((q, bs) :: rest) ks ->
  exists s l fl, here st q bs s l fl /\
    forall st' q' bs' s' l' fl', here st' q' bs' s' l' fl' -> moves st l fl st' l' fl' -> owns st' ((q', bs') :: rest) ks.
Proof.
  intros (ls&fl&HF&Hfree&HP&Hnd). apply Forall2_cons_inv_l in HF as (l&ls'&[s Hq]&HF&->). simpl in *.
  assert (NoDup (ids l ++ ids fl) /\ forall k, k ∈ concat (map ids ls') -> k ∉ ids l ++ ids fl) as [Hnd1 Hdis].
  { rewrite <- HP in Hnd. rewrite <- app_assoc, (Permutation_app_comm (concat _)), app_assoc in Hnd.
    apply NoDup_app in Hnd as (?&Hd&_). split; [done|]. intros k Hk Hk'. by apply (Hd k). }
  exists s, l, fl. split; [done|].
  intros st' q' bs' s' l' fl' (Hq'&Hf'&Hnd') [HP' Hm]. exists (l' :: ls'), fl'. split_and!; try done.
  - constructor; [by exists s'|].
    assert (forall l2, l2 ∈ ls' -> forall k, k ∈ ids l2 -> c_mem st' !! k = c_mem st !! k) as He.
    { intros l2 Hl2 k Hk. apply Hm, Hdis. apply list_elem_of_In, in_concat. exists (ids l2).
      split; [apply in_map; by apply list_elem_of_In|by apply list_elem_of_In]. }
    clear -HF He. induction HF as [|[q2 b2] l2 rest ls2 [s2 H2] HF IH]; constructor.
    + exists s2. eapply qrep_ext; [|done]. apply He. apply elem_of_cons. by left.
    + apply IH. intros l3 H3. apply He. apply elem_of_cons. by right.
  - rewrite <- HP. simpl. rewrite <- !app_assoc, (Permutation_app_comm (concat _) (ids fl')), (Permutation_app_comm (concat _) (ids fl)), !app_assoc.
    by rewrite HP'.
Qed.

#[export] Instance owns_proper st : Proper ((≡ₚ) ==> (≡ₚ) ==> iff) (owns st).
Proof.
  assert (forall qs qs' ks ks', qs ≡ₚ qs' -> ks ≡ₚ ks' -> owns st qs ks -> owns st qs' ks') as H.
  { intros qs qs' ks ks' Hq Hk (ls&fl&HF&Hfree&HP&Hnd).
    destruct (Permutation_Forall2 Hq HF) as (ls'&HP'&HF').
    exists ls', fl. split_and!; try done; [|by rewrite <- Hk].
    rewrite <- Hk, <- HP. f_equiv. rewrite HP'. done. }
  intros qs qs' Hq ks ks' Hk. split; apply H; done.
Qed.

(** *** Freeing and taking blocks *)

Lemma free_block_rep st k info next fl :
  c_mem st !! k = Some (Cblock next info) -> block_ok (k, info) -> k ∉ ids fl -> free_rep st fl ->
  exists st', free_block st k = Ok st' /\ free_rep st' ((k, info) :: fl) /\
    c_mem st' = <[k:=Cblock (hd_addr fl 0) info]> (c_mem st).
Proof.
  intros Hk Hok Hni (Hc&Hh&Hn). unfold free_block, set_next, get_block. rewrite Hk. cbn.
  eexists. split; [done|]. rewrite Hh. split; [|done]. split; [|split; [done|cbn; unfold CBSIZE; lia]].
  cbn [c_mem put_block]. split; [by rewrite lookup_insert_eq|]. split; [done|by apply chain_insert].
Qed.

Lemma wake_waiting_mem st : c_mem (wake_waiting st) = c_mem st.
Proof. unfold wake_waiting. by destruct (cwaiting st). Qed.

Lemma wake_waiting_rep st fl : free_rep st fl -> free_rep (wake_waiting st) fl.
Proof. unfold free_rep, wake_waiting. by destruct (cwaiting st). Qed.

(** Dropping the first block of a queue to the free list. *)
Lemma free_front st k info l z fl :
  chain (c_mem st) ((k, info) :: l) z -> free_rep st fl -> NoDup (ids ((k, info) :: l) ++ ids fl) ->
  exists st', free_block st k = Ok st' /\ chain (c_mem st') l z /\ free_rep st' ((k, info) :: fl) /\
    NoDup (ids l ++ ids ((k, info) :: fl)) /\ moves st ((k, info) :: l) fl st' l ((k, info) :: fl).
Proof.
  intros (Hk&Hok&Hc) Hf Hnd. apply NoDup_cons in Hnd as [Hni Hnd]. rewrite not_elem_of_app in Hni. destruct Hni as [Hni1 Hni2].
  destruct (free_block_rep st k info _ fl Hk Hok Hni2 Hf) as (st'&E&Hf'&Hm).
  assert (ids l ++ ids ((k, info) :: fl) ≡ₚ ids ((k, info) :: l) ++ ids fl) as HP.
  { simpl. symmetry. apply Permutation_middle. }
  exists st'. rewrite Hm. split; [done|]. split; [by apply chain_insert|]. split; [done|]. split.
  - rewrite HP. simpl. apply NoDup_cons. split; [by rewrite not_elem_of_app|done].
  - split; [done|]. intros k' Hk'. rewrite Hm. apply lookup_insert_ne. intros ->. apply Hk'. simpl. apply elem_of_cons. by left.
Qed.

(** *** The front of a queue *)

Lemma chain_blocks m l z : chain m l z -> Forall block_ok l.
Proof. induction l as [|[k info] l IH]; simpl; [constructor|]. intros (_&?&?). constructor; [done|by apply IH]. Qed.

Lemma qseg_nonempty g l s cl bs : Forall block_ok l -> qseg (S g) l s cl bs -> (0 < length bs)%nat.
Proof.
  intros Hb (l0&k&info&e&->&_&He&Hs&Hg&->). apply Forall_app in Hb as [Hb0 Hb1]. apply Forall_cons in Hb1 as [(_&_&Hl&_) _].
  simpl in Hl. rewrite length_drop, length_app, length_take.
  destruct l0 as [|[k0 i0] l0]; simpl in *; [lia|]. apply Forall_cons in Hb0 as [(_&_&Hl0&_) _]. simpl in Hl0.
  unfold text. simpl. rewrite length_app. lia.
Qed.

Lemma qseg_consume k info l s cl bs nc :
  Forall block_ok ((k, info) :: l) -> qseg 1 ((k, info) :: l) s cl bs ->
  (1 <= nc)%nat -> (s + nc <= 28)%nat -> (nc <= length bs)%nat ->
  take nc bs = take nc (drop s info) /\
  ((length bs = nc /\ l = []) \/
   ((s + nc = 28)%nat /\ (nc < length bs)%nat /\ l <> [] /\ qseg 1 l 0 cl (drop nc bs)) \/
   ((s + nc < 28)%nat /\ (nc < length bs)%nat /\ qseg 1 ((k, info) :: l) (s + nc) cl (drop nc bs))).
Proof.
  intros Hb (l0&kl&infol&e&El&Hcl&He&Hs&Hg&->) Hnc Hsn Hle.
  destruct l0 as [|[k0 i0] l0]; simplify_eq/=.
  - apply Forall_cons in Hb as [(_&_&Hl&_) _]. simpl in Hl. rewrite length_drop, length_take in Hle.
    split; [by rewrite !take_drop_commute, take_take, Nat.min_l by lia|].
    rewrite length_drop, length_take, drop_drop.
    destruct (decide (e = s + nc)%nat); [left; split; [lia|done]|]. right. right. split_and!; [lia..|].
    exists [], kl, infol, e. split_and!; try done; lia.
  - apply Forall_cons in Hb as [(_&_&Hl&_) Hb]. simpl in Hl. unfold text in *. simpl in *. rewrite <- app_assoc in *.
    assert (0 < length (concat (map snd l0) ++ take e infol))%nat as Hpos.
    { apply Forall_app in Hb as [_ [(_&_&Hll&_) _]%Forall_cons]. simpl in Hll. rewrite length_app, length_take. lia. }
    rewrite drop_app_le by lia. rewrite take_app_le, drop_app, length_app, !length_drop, !drop_drop by (rewrite ?length_drop; lia).
    split; [done|]. right. destruct (decide (s + nc = 28)%nat) as [E|E].
    + left. split_and!; [done|lia|by destruct l0|].
      exists l0, kl, infol, e. split_and!; try done; [lia|destruct l0; lia|].
      rewrite drop_ge by lia. replace (nc - (length i0 - s))%nat with 0%nat by lia. done.
    + right. split_and!; [lia..|]. exists ((k0, i0) :: l0), kl, infol, e. split_and!; try done; [lia|]. simpl.
      unfold text. simpl. rewrite <- app_assoc.
      replace (nc - (length i0 - s))%nat with 0%nat by lia. rewrite drop_0. symmetry. by rewrite drop_app_le by lia.
Qed.

(** Moving the front by [nc] bytes, as [getc] and [q_to_b] do. *)
Lemma front_ok st q bs s l fl nc :
  here st q bs s l fl -> (1 <= nc)%nat -> (s + nc <= 28)%nat -> (nc <= length bs)%nat ->
  load st (c_cf q) (Z.of_nat nc) = Ok (take nc bs) /\
  exists st' q' s' l' fl',
    release_front st (Clist (c_cc q - Z.of_nat nc) (c_cf q + Z.of_nat nc) (c_cl q)) = Ok (st', q') /\
    here st' q' (drop nc bs) s' l' fl' /\ moves st l fl st' l' fl' /\
    ((nc < length bs)%nat -> s' = ((s + nc) mod 28)%nat).
Proof.
  intros ([Hc Hq]&Hf&Hnd) Hnc Hsn Hle.
  destruct Hq as [(->&->&_)|(Hcc&Hcf&Hseg)]; [simpl in Hle; lia|].
  destruct l as [|[k info] l]; [by destruct Hseg as ([|? ?]&?&?&?&?&_)|].
  pose proof (chain_blocks _ _ _ Hc) as Hb.
  destruct (qseg_consume _ _ _ _ _ _ nc Hb Hseg Hnc Hsn Hle) as [Ht Hcases].
  destruct Hc as (Hk&(Hk0&Hkm&Hkl&Hkb)&Hc). simpl in Hk0, Hkm, Hkl, Hkb, Hcf.
  assert (c_cf q = k + (4 + Z.of_nat s)) as Hcf' by lia. rewrite Hcf'. split.
  { unfold load, get_block. rewrite blk_of_in, off_of_in, Hk by lia. cbn [mbind outcome_bind c_info].
    replace ((4 <=? 4 + Z.of_nat s) && (0 <=? Z.of_nat nc) && (4 + Z.of_nat s + Z.of_nat nc <=? CBLOCK)) with true
      by (symmetry; unfold CBLOCK; rewrite !andb_true_iff, !Z.leb_le; lia).
    rewrite Nat2Z.id. replace (Z.to_nat (4 + Z.of_nat s - 4)) with s by lia. by rewrite Ht. }
  unfold release_front. cbn [c_cc c_cf c_cl]. rewrite Hcc.
  assert (chain (c_mem st) ((k, info) :: l) 0) as Hc0 by done.
  destruct (free_front st k info l 0 fl Hc0 Hf Hnd) as (st'&Efree&Hc'&Hf'&Hnd'&Hmv).
  assert (moves st ((k, info) :: l) fl (wake_waiting st') l ((k, info) :: fl)) as Hmv'.
  { destruct Hmv as [HP Hm]. split; [done|]. by rewrite wake_waiting_mem. }
  destruct Hcases as [[Hlen ->]|[(Hend&Hlt&Hl&Hseg')|(Hend&Hlt&Hseg')]].
  - destruct (Z.leb_spec (Z.of_nat (length bs) - Z.of_nat nc) 0); [|lia].
    replace (k + (4 + Z.of_nat s) + Z.of_nat nc - 1) with (k + (4 + Z.of_nat s + Z.of_nat nc - 1)) by lia.
    rewrite blk_of_in, Efree by lia. cbn [mbind outcome_bind].
    eexists _, _, 0%nat, [], ((k, info) :: fl). split; [done|]. split; [|split; [done|lia]].
    split; [|split; [by apply wake_waiting_rep|done]].
    split; [done|left]. rewrite drop_ge by lia. split_and!; try done. f_equal. lia.
  - destruct (Z.leb_spec (Z.of_nat (length bs) - Z.of_nat nc) 0); [lia|].
    replace (k + (4 + Z.of_nat s) + Z.of_nat nc) with (k + 32) by lia. rewrite off_of_end by done.
    cbn [Z.eqb]. unfold CBLOCK. rewrite Z.add_simpl_r. unfold get_block. rewrite Hk. cbn [mbind outcome_bind]. rewrite Efree.
    cbn [mbind outcome_bind c_next]. eexists _, _, 0%nat, l, ((k, info) :: fl). split; [done|].
    split; [|split; [done|intros _; by rewrite Hend]].
    split; [|split; [by apply wake_waiting_rep|done]]. rewrite wake_waiting_mem. split; [done|right].
    cbn [c_cc c_cf c_cl]. rewrite length_drop. split_and!; [lia|simpl; lia|done].
  - destruct (Z.leb_spec (Z.of_nat (length bs) - Z.of_nat nc) 0); [lia|].
    replace (k + (4 + Z.of_nat s) + Z.of_nat nc) with (k + (4 + Z.of_nat s + Z.of_nat nc)) by lia.
    rewrite off_of_in by lia. destruct (Z.eqb_spec (4 + Z.of_nat s + Z.of_nat nc) 0); [lia|].
    eexists _, _, (s + nc)%nat, ((k, info) :: l), fl. split; [done|].
    split; [|split; [apply moves_refl|intros _; by rewrite Nat.mod_small by lia]].
    split; [|done]. split; [done|right]. cbn [c_cc c_cf c_cl hd_addr]. rewrite length_drop. split_and!; [lia|lia|done].
Qed.

(** ** [getc] and [q_to_b] *)

Lemma here_empty st q bs s l fl : here st q bs s l fl -> c_cc q = Z.of_nat (length bs) /\
  (bs = [] -> q = Clist 0 0 0 /\ l = []) /\ (bs <> [] -> off_of (c_cf q) = 4 + Z.of_nat s /\ (s < 28)%nat).
Proof.
  intros ([Hc Hq]&_&_). destruct Hq as [(->&->&->&->)|(Hcc&Hcf&Hseg)]; [by split_and?|]. split; [done|]. split.
  - intros ->. apply qseg_nonempty in Hseg; [simpl in Hseg; lia|by eapply chain_blocks].
  - intros _. destruct l as [|[k info] l]; [by destruct Hseg as ([|? ?]&?&?&?&?&_)|]. simpl in *.
    destruct Hc as (_&(_&?&_)&_). simpl in *. destruct Hseg as (?&?&?&?&_&_&_&?&_). split; [|done].
    rewrite Hcf. replace (k + 4 + Z.of_nat s) with (k + (4 + Z.of_nat s)) by lia. rewrite off_of_in; [done..|lia].
Qed.

Lemma here_bytes st q bs s l fl : here st q bs s l fl -> Forall (fun c => 0 <= c < 256) bs.
Proof.
  intros ([Hc Hq]&_&_). destruct Hq as [(->&->&->&->)|(_&_&l0&k&info&e&->&_&_&_&_&->)]; [constructor|].
  apply chain_app in Hc as [Hc0 (_&(_&_&_&Hb)&_)]. apply Forall_drop, Forall_app. split; [by eapply chain_text_bytes|by apply Forall_take].
Qed.

Lemma getc_here st q bs s l fl : here st q bs s l fl ->
  exists st' q' s' l' fl', getc st q = Ok (match bs with [] => -1 | c :: _ => c end, st', q') /\
    here st' q' (tail bs) s' l' fl' /\ moves st l fl st' l' fl'.
Proof.
  intros H. destruct (here_empty _ _ _ _ _ _ H) as (Hcc&He&Hne). unfold getc. rewrite Hcc.
  destruct bs as [|c bs]; cbn [length].
  { destruct (He eq_refl) as [-> ->]. exists st, (Clist 0 0 0), s, [], fl. split; [done|]. split; [done|apply moves_refl]. }
  destruct (Hne ltac:(done)) as [_ Hs]. destruct (Z.leb_spec (Z.of_nat (S (length bs))) 0); [lia|].
  destruct (front_ok _ _ _ _ _ _ 1 H) as (El&st'&q'&s'&l'&fl'&Er&Hh&Hm&_); [lia|lia|simpl; lia|].
  rewrite Hcc in Er. cbn [length Z.of_nat] in El. change (Z.of_nat 1) with 1 in *. rewrite El. cbn [mbind outcome_bind take].
  cbn [length] in Er. rewrite Er. cbn [rd mbind outcome_bind lookup list_lookup fst snd].
  pose proof (Forall_inv (here_bytes _ _ _ _ _ _ H)) as Hc. simpl in Hc.
  exists st', q', s', l', fl'. split; [|done]. cbn. do 3 f_equal. change 255 with (2 ^ 8 - 1). rewrite land_pow2_mod by lia. by apply Z.mod_small.
Qed.

Lemma q_to_b_loop_here fuel st q bs s l fl cc :
  here st q bs s l fl -> bs <> [] -> (cc <= fuel)%nat ->
  exists st' q' s' l' fl', q_to_b_loop fuel st q (Z.of_nat cc) = Ok (take cc bs, st', q') /\
    here st' q' (drop cc bs) s' l' fl' /\ moves st l fl st' l' fl' /\
    ((cc < length bs)%nat -> s' = ((s + cc) mod 28)%nat).
Proof.
  revert st q bs s l fl cc. induction fuel as [|fuel IH]; intros st q bs s l fl cc H Hne Hf; cbn [q_to_b_loop].
  all: destruct (Z.eqb_spec (Z.of_nat cc) 0).
  1, 3: replace cc with 0%nat by lia; rewrite drop_0, take_0; exists st, q, s, l, fl; split; [done|]; split; [done|];
        split; [apply moves_refl|]; intros _; rewrite Nat.add_0_r; symmetry; apply Nat.mod_small;
        by destruct (here_empty _ _ _ _ _ _ H) as (_&_&Hs); destruct (Hs Hne).
  { lia. }
  destruct (here_empty _ _ _ _ _ _ H) as (Hcc&_&Hs). destruct (Hs Hne) as [Hoff Hs28]. clear Hs.
  assert (0 < length bs)%nat as Hlen by (destruct bs; simpl; [done|lia]).
  set (nc := Nat.min (Nat.min (28 - s) cc) (length bs)).
  assert (Z.min (Z.min (CBLOCK - off_of (c_cf q)) (Z.of_nat cc)) (c_cc q) = Z.of_nat nc) as ->.
  { rewrite Hoff, Hcc. unfold nc, CBLOCK. lia. }
  destruct (front_ok st q bs s l fl nc H) as (El&st1&q1&s1&l1&fl1&Er&Hh&Hm&Hs1); [lia..|].
  rewrite El. cbn [mbind outcome_bind]. rewrite Er. cbn [mbind outcome_bind fst snd c_cc]. rewrite Hcc.
  destruct (Z.leb_spec (Z.of_nat (length bs) - Z.of_nat nc) 0).
  - exists st1, q1, s1, l1, fl1. rewrite !take_ge, (drop_ge bs cc) by lia. rewrite drop_ge in Hh by lia.
    split_and?; try done; lia.
  - destruct (IH st1 q1 (drop nc bs) s1 l1 fl1 (cc - nc)%nat Hh) as (st'&q'&s'&l'&fl'&E&Hh'&Hm'&Hs').
    { intros E%(f_equal length). rewrite length_drop in E. simpl in E. lia. }
    { lia. }
    replace (Z.of_nat cc - Z.of_nat nc) with (Z.of_nat (cc - nc)) by lia. rewrite E. cbn [mbind outcome_bind fst snd].
    exists st', q', s', l', fl'. rewrite drop_drop in Hh'. replace (nc + (cc - nc))%nat with cc in Hh' by lia.
    split_and?; [|done| |].
    + do 3 f_equal. replace cc with (nc + (cc - nc))%nat at 2 by lia. by rewrite take_take_drop.
    + by eapply moves_trans.
    + intros. rewrite Hs', Hs1, Nat.Div0.add_mod_idemp_l by (rewrite ?length_drop; lia). f_equal. lia.
Qed.

Lemma q_to_b_here st q bs s l fl cc :
  here st q bs s l fl -> 0 <= cc ->
  exists st' q' s' l' fl', q_to_b st q cc = Ok (take (Z.to_nat cc) bs, st', q') /\
    here st' q' (drop (Z.to_nat cc) bs) s' l' fl' /\ moves st l fl st' l' fl' /\
    ((Z.to_nat cc < length bs)%nat -> s' = ((s + Z.to_nat cc) mod 28)%nat).
Proof.
  intros H Hcc. unfold q_to_b. destruct (here_empty _ _ _ _ _ _ H) as (Hl&He&Hs). destruct (Z.leb_spec cc 0).
  { replace cc with 0 by lia. exists st, q, s, l, fl. rewrite drop_0. split_and?; try done.
    intros. destruct Hs as [_ Hs]; [by intros ->; simpl in *; lia|]. by rewrite Nat.add_0_r, Nat.mod_small. }
  rewrite Hl. destruct (Z.leb_spec (Z.of_nat (length bs)) 0).
  - assert (bs = []) as -> by (destruct bs; simpl in *; [done|lia]). destruct (He eq_refl) as [-> ->].
    exists st, (Clist 0 0 0), s, [], fl. rewrite take_nil, drop_nil. split_and?; try done; simpl; lia.
  - replace (q_to_b_loop (Z.to_nat cc) st q cc) with (q_to_b_loop (Z.to_nat cc) st q (Z.of_nat (Z.to_nat cc))) by (by rewrite Z2Nat.id by lia).
    apply (q_to_b_loop_here (Z.to_nat cc)); [done|by intros ->|lia].
Qed.

(** ** [ndflush] *)

(** The first block, and the bytes of the queue in it. *)
Lemma front_block st q bs s l fl : here st q bs s l fl -> bs <> [] ->
  let bp := blk_of (c_cf q) in
  let rem := Nat.min (28 - s) (length bs) in
  exists info l1, l = (bp, info) :: l1 /\ c_cf q = bp + 4 + Z.of_nat s /\
    (if bp =? blk_of (c_cl q - 1) then c_cl q else bp + CBLOCK) - c_cf q = Z.of_nat rem.
Proof.
  intros H Hne bp rem. destruct (here_empty _ _ _ _ _ _ H) as (_&_&Hs). destruct (Hs Hne) as [Hoff Hs28].
  destruct H as ([Hc Hq]&_&Hnd). destruct Hq as [(_&?&_)|(Hcc&Hcf&Hseg)]; [done|].
  assert (bp = hd_addr l 0) as Hbp. { unfold bp. rewrite blk_of_mod, <- off_of_mod, Hoff. lia. }
  pose proof (chain_blocks _ _ _ Hc) as Hb.
  destruct Hseg as (l0&k&info&e&->&Hcl&He&_&Hg&Hbs).
  assert (block_ok (k, info)) as (_&Hkm&Hkl&_) by (apply Forall_app in Hb as [_ Hb]; by inversion Hb). simpl in Hkm, Hkl.
  replace (c_cl q - 1) with (k + (4 + Z.of_nat e - 1)) by lia. rewrite blk_of_in by lia.
  assert (length bs = length (text l0) + e - s)%nat as Hlen.
  { rewrite Hbs, length_drop, length_app, length_take. lia. }
  destruct l0 as [|[k0 i0] l0].
  - simpl in Hbp. exists info, []. rewrite Hbp, Z.eqb_refl. simpl in Hcf, Hlen |- *. split_and?; [done|done|].
    unfold rem. lia.
  - simpl in Hbp. exists i0, (l0 ++ [(k, info)]). rewrite Hbp. simpl in Hcf |- *. split_and?; [done|done|].
    destruct (Z.eqb_spec k0 k) as [->|_].
    { exfalso. simpl in Hnd. apply NoDup_cons in Hnd as [Hni _]. apply Hni. rewrite ids_app. set_solver. }
    apply Forall_cons in Hb as [(_&_&Hl0&_) _]. simpl in Hl0. unfold text in Hlen. simpl in Hlen.
    rewrite length_app in Hlen. unfold rem, CBLOCK. lia.
Qed.

Lemma drop_front st q bs s l fl : here st q bs s l fl -> bs <> [] ->
  let bp := blk_of (c_cf q) in
  let rem := Nat.min (28 - s) (length bs) in
  exists b st' l' fl', get_block st bp = Ok b /\ free_block st bp = Ok st' /\
    moves st l fl (wake_waiting st') l' fl' /\
    here (wake_waiting st')
      (if decide (rem = length bs) then Clist 0 0 0 else Clist (c_cc q - Z.of_nat rem) (c_next b + 4) (c_cl q))
      (drop rem bs) 0 l' fl'.
Proof.
  intros H Hne bp rem. destruct (front_block _ _ _ _ _ _ H Hne) as (info&l1&->&Hcf&_). fold bp in Hcf.
  destruct (here_empty _ _ _ _ _ _ H) as (Hcc&_&Hs). destruct (Hs Hne) as [_ Hs28].
  assert (0 < length bs)%nat as Hpos by (destruct bs; simpl; [done|lia]).
  destruct H as ([Hc Hq]&Hf&Hnd). destruct Hq as [(?&_)|(_&_&Hseg)]; [done|].
  fold bp in Hc, Hnd, Hseg.
  destruct (free_front st bp info l1 0 fl Hc Hf Hnd) as (st'&Efree&Hc'&Hf'&Hnd'&[HP Hm]).
  exists (Cblock (hd_addr l1 0) info), st', l1, ((bp, info) :: fl). split.
  { unfold get_block. by destruct Hc as [-> _]. }
  split; [done|]. split; [by split; [|rewrite wake_waiting_mem]|].
  split; [|split; [by apply wake_waiting_rep|done]]. rewrite wake_waiting_mem. split; [done|].
  destruct (qseg_consume _ _ _ _ _ _ rem (chain_blocks _ _ _ Hc) Hseg) as [_ [[Hlen ->]|[(Hend&Hlt&Hl&Hseg')|(Hend&Hlt&Hseg')]]]; [lia..| | |lia].
  - left. rewrite drop_ge by lia. by rewrite decide_True.
  - right. rewrite decide_False by lia. rewrite length_drop. cbn [c_cc c_cf c_cl c_next]. split_and?; [lia|lia|done].
Qed.

Lemma ndflush_loop_here fuel st q bs s l fl cc :
  here st q bs s l fl -> bs <> [] -> (cc <= fuel)%nat ->
  exists st' q' s' l' fl', ndflush_loop fuel st q (Z.of_nat cc) = Ok (st', q') /\
    c_cc q' = Z.of_nat (length bs - cc) /\ moves st l fl st' l' fl' /\
    here st' (if decide (length bs <= cc)%nat then Clist 0 0 0 else q') (drop cc bs) s' l' fl'.
Proof.
  revert st q bs s l fl cc. induction fuel as [|fuel IH]; intros st q bs s l fl cc H Hne Hf; cbn [ndflush_loop].
  all: destruct (here_empty _ _ _ _ _ _ H) as (Hcc&_&Hs); destruct (Hs Hne) as [_ Hs28]; clear Hs.
  all: assert (0 < length bs)%nat as Hpos by (destruct bs; simpl; [done|lia]).
  all: destruct (Z.eqb_spec (c_cc q) 0); [lia|]; rewrite orb_false_r.
  all: destruct (Z.ltb_spec 0 (Z.of_nat cc)); cbn [negb].
  1: lia.
  1, 3: replace cc with 0%nat by lia; exists st, q, s, l, fl; rewrite drop_0, decide_False by lia;
        split_and?; [done|lia|apply moves_refl|done].
  destruct (front_block _ _ _ _ _ _ H Hne) as (info&l1&El&Hcf&Hrem).
  set (bp := blk_of (c_cf q)) in *. rewrite Hrem. set (rem := Nat.min (28 - s) (length bs)) in *.
  destruct (Z.leb_spec (Z.of_nat rem) (Z.of_nat cc)).
  - destruct (drop_front _ _ _ _ _ _ H Hne) as (b&st1&l2&fl2&Eb&Efree&Hmv&Hh). fold bp rem in Eb, Efree, Hh.
    rewrite Eb. cbn [mbind outcome_bind]. rewrite Efree. cbn [mbind outcome_bind].
    destruct (decide (rem = length bs)) as [Er|Er].
    + destruct fuel; cbn [ndflush_loop c_cc]; (destruct (Z.eqb_spec (c_cc q - Z.of_nat rem) 0); [|lia]); rewrite orb_true_r;
        (eexists _, _, 0%nat, l2, fl2; split; [done|]; cbn [c_cc]; split; [lia|]; split; [done|]);
        rewrite decide_True by lia; rewrite (drop_ge bs cc) by lia; rewrite drop_ge in Hh by lia; done.
    + replace (Z.of_nat cc - Z.of_nat rem) with (Z.of_nat (cc - rem)) by lia.
      destruct (IH _ _ _ _ _ _ (cc - rem)%nat Hh) as (st'&q'&s'&l'&fl'&E&Hc'&Hm'&Hh').
      { intros E%(f_equal length). rewrite length_drop in E. simpl in E. lia. }
      { lia. }
      exists st', q', s', l', fl'. rewrite E. split; [done|]. rewrite length_drop in *. split; [lia|].
      split; [by eapply moves_trans|]. rewrite drop_drop in Hh'. replace (rem + (cc - rem))%nat with cc in Hh' by lia.
      by destruct (decide (length bs - rem <= cc - rem)%nat), (decide (length bs <= cc)%nat); try lia.
  - cbn [c_cc]. destruct (Z.leb_spec (c_cc q - Z.of_nat cc) 0); [lia|].
    exists st, (Clist (c_cc q - Z.of_nat cc) (c_cf q + Z.of_nat cc) (c_cl q)), (s + cc)%nat, l, fl.
    split; [done|]. cbn [c_cc]. split; [lia|]. split; [apply moves_refl|]. rewrite decide_False by lia.
    destruct H as ([Hc Hq]&Hfl). destruct Hq as [(?&?&_)|(_&_&Hseg)]; [done|]. split; [|done]. split; [done|right].
    cbn [c_cc c_cf c_cl]. rewrite length_drop. split_and?; [lia|rewrite El, Hcf; simpl; lia|].
    rewrite El in *. destruct (qseg_consume _ _ _ _ _ _ cc (chain_blocks _ _ _ Hc) Hseg) as [_ [[Hlen ?]|[(Hend&Hlt&Hl&Hseg')|(Hend&Hlt&Hseg')]]]; try lia. done.
Qed.

Lemma ndflush_here st q bs s l fl cc : here st q bs s l fl -> 0 <= cc ->
  exists st' q' s' l' fl', ndflush st q cc = Ok (st', q') /\ here st' q' (drop (Z.to_nat cc) bs) s' l' fl' /\ moves st l fl st' l' fl'.
Proof.
  intros H Hcc. unfold ndflush. destruct (here_empty _ _ _ _ _ _ H) as (Hl&He&_). rewrite Hl.
  destruct (Z.leb_spec (Z.of_nat (length bs)) 0).
  { assert (bs = []) as -> by (destruct bs; simpl in *; [done|lia]). rewrite drop_nil.
    exists st, q, s, l, fl. split; [done|]. split; [done|apply moves_refl]. }
  destruct (ndflush_loop_here (Z.to_nat cc) st q bs s l fl (Z.to_nat cc) H) as (st'&q'&s'&l'&fl'&E&Hc'&Hm'&Hh'); [by intros ->|lia|].
  rewrite Z2Nat.id in E by lia. rewrite E. cbn [mbind outcome_bind fst snd]. rewrite Hc'.
  destruct (decide (length bs <= Z.to_nat cc)%nat), (Z.leb_spec (Z.of_nat (length bs - Z.to_nat cc)) 0); try lia.
  - by exists st', (Clist 0 0 0), s', l', fl'.
  - by exists st', q', s', l', fl'.
Qed.

(** ** The end of a queue *)

(** Bytes [bs] up to [cq], where the next byte goes; with [g = 0] the last
    block may hold none yet. *)
Definition opened (g : nat) (st : cstate) (cq : Z) (bs : list Z) (s : nat) (l fl : list (Z * list Z)) : Prop :=
  chain (c_mem st) l 0 /\ qseg g l s cq bs /\ free_rep st fl /\ NoDup (ids l ++ ids fl).

Definition room_at (st : cstate) (cq : Z) : Z := cfreecount st + (- cq) mod 32.

Lemma opened_end g st cq bs s l fl : opened g st cq bs s l fl ->
  exists l0 k info e, l = l0 ++ [(k, info)] /\ c_mem st !! k = Some (Cblock 0 info) /\ block_ok (k, info) /\
    cq = k + 4 + Z.of_nat e /\ (e <= 28)%nat /\ (- cq) mod 32 = 28 - Z.of_nat e /\ off_of cq = (if decide (e = 28%nat) then 0 else 4 + Z.of_nat e).
Proof.
  intros (Hc&Hseg&_). destruct Hseg as (l0&k&info&e&->&Hcl&He&_). exists l0, k, info, e.
  apply chain_app in Hc as [_ (Hk&Hok&_)]. split_and?; try done.
  - destruct Hok as (_&Hkm&_). simpl in Hkm. apply Z.mod_divide in Hkm as [d ->]; [|lia]. subst cq.
    symmetry. apply (Z.mod_unique_pos _ _ (- d - 1)); lia.
  - destruct Hok as (_&Hkm&_). simpl in Hkm. subst cq. case_decide.
    + subst e. change (k + 4 + Z.of_nat 28) with (k + 4 + 28). rewrite <- Z.add_assoc. by apply off_of_end.
    + rewrite <- Z.add_assoc. apply off_of_in; [done|lia].
Qed.

Lemma store_back g st cq bs s l fl w :
  opened g st cq bs s l fl -> off_of cq <> 0 -> w <> [] -> off_of cq + Z.of_nat (length w) <= 32 ->
  Forall (fun c => 0 <= c < 256) w ->
  exists st' l', store st cq w = Ok st' /\ opened 1 st' (cq + Z.of_nat (length w)) (bs ++ w) s l' fl /\
    moves st l fl st' l' fl /\ hd_addr l' 0 = hd_addr l 0 /\
    room_at st' (cq + Z.of_nat (length w)) = room_at st cq - Z.of_nat (length w).
Proof.
  intros H Ho Hw Hfit Hby. pose proof H as (Hc&(l0&k&info&e&->&Hcl&He&Hs&Hg&Hbs)&Hf&Hnd).
  apply chain_app in Hc as [Hc0 (Hk&Hok&_)]. pose proof Hok as (Hk0&Hkm&Hkl&Hkb). simpl in Hk0, Hkm, Hkl, Hkb, Hc0, Hk.
  assert (e < 28)%nat as He28.
  { destruct (decide (e = 28)%nat) as [->|]; [|lia]. exfalso. apply Ho. subst cq.
    change (k + 4 + Z.of_nat 28) with (k + 4 + 28). rewrite <- Z.add_assoc. by apply off_of_end. }
  subst cq. rewrite <- Z.add_assoc in Hfit, Ho |- *. rewrite off_of_in in Hfit by lia.
  unfold store, get_block. rewrite blk_of_in, off_of_in, Hk by lia. cbn [mbind outcome_bind].
  replace ((4 <=? 4 + Z.of_nat e) && (4 + Z.of_nat e + Z.of_nat (length w) <=? CBLOCK)) with true
    by (symmetry; unfold CBLOCK; rewrite andb_true_iff, !Z.leb_le; lia).
  replace (Z.to_nat (4 + Z.of_nat e - 4)) with e by lia. cbn [c_info c_next].
  set (info' := take e info ++ w ++ drop (e + length w) info).
  assert (1 <= length w)%nat as Hw1 by (destruct w; simpl; [done|lia]).
  assert (length info' = 28%nat) as Hlen'. { unfold info'. rewrite !length_app, length_take, length_drop. lia. }
  assert (ids (l0 ++ [(k, info')]) = ids (l0 ++ [(k, info)])) as Hids by by rewrite !ids_app.
  assert (k ∉ ids l0 /\ k ∉ ids fl) as [Hn0 Hnf].
  { rewrite ids_app in Hnd. apply NoDup_app in Hnd as (Hnd1&Hd&_). apply NoDup_app in Hnd1 as (_&Hd1&_). simpl in *. set_solver. }
  exists (put_block st k (Cblock 0 info')), (l0 ++ [(k, info')]). split; [done|]. split.
  - unfold opened. rewrite Hids. split_and?; [| | |done].
    + cbn [c_mem put_block]. apply chain_app. split; [by apply chain_insert|]. simpl. rewrite lookup_insert_eq.
      split_and?; try done. unfold block_ok. simpl. split_and?; try done. unfold info'. apply Forall_app. split; [by apply Forall_take|].
      apply Forall_app. split; [done|by apply Forall_drop].
    + exists l0, k, info', (e + length w)%nat. split_and?; try done; try lia.
      rewrite Hbs. unfold info'. rewrite (app_assoc (take e info)). rewrite take_app_length' by (rewrite length_app, length_take; lia).
      rewrite (app_assoc (text l0)). rewrite (drop_app_le (text l0 ++ take e info)); [done|].
      rewrite length_app, length_take. destruct l0 as [|[k1 i1] l1]; [simpl; lia|].
      destruct Hc0 as (_&(_&_&Hl1&_)&_). simpl in Hl1. unfold text. simpl. rewrite length_app. lia.
    + destruct Hf as (Hcf&Hh&Hn). split; [|done]. by apply chain_insert.
  - split; [|split].
    + split; [by rewrite Hids|]. intros k' Hk'. cbn [c_mem put_block]. apply lookup_insert_ne. intros <-. apply Hk'.
      rewrite ids_app. simpl. set_solver.
    + by destruct l0 as [|[? ?] ?].
    + unfold room_at. cbn [cfreecount put_block]. apply Z.mod_divide in Hkm as [d ->]; [|lia].
      rewrite <- (Z.mod_unique_pos (- (d * 32 + (4 + Z.of_nat e))) 32 (- d - 1) (28 - Z.of_nat e)) by lia.
      rewrite <- (Z.mod_unique_pos (- (d * 32 + (4 + Z.of_nat e) + Z.of_nat (length w))) 32 (- d - 1) (28 - Z.of_nat e - Z.of_nat (length w))) by lia. lia.
Qed.

(** Taking the first free block. *)
Lemma take_block_rep st k info fl : free_rep st ((k, info) :: fl) -> NoDup (ids ((k, info) :: fl)) ->
  exists st', take_block st k = Ok st' /\ free_rep st' fl /\ c_mem st' = <[k:=Cblock 0 info]> (c_mem st) /\
    cfreecount st' = cfreecount st - 28.
Proof.
  intros ((Hk&Hok&Hc)&Hh&Hn) Hnd. unfold take_block, get_block. rewrite Hk. cbn [mbind outcome_bind].
  unfold set_next, get_block. cbn [capacity_note c_mem c_next]. rewrite Hk. cbn [mbind outcome_bind c_info].
  eexists. split; [done|]. cbn [put_block capacity_note c_mem cfreecount]. split; [|split; [done|cbn; unfold CBSIZE; lia]].
  apply NoDup_cons in Hnd as [Hni _]. split; [by apply chain_insert|]. split; [done|].
  cbn. simpl in Hn. unfold CBSIZE. lia.
Qed.

Lemma first_block_ok st fl : free_rep st fl -> NoDup (ids fl) ->
  (fl = [] /\ first_block st = Ok (capacity_note st true, None)) \/
  exists st' cq l' fl', first_block st = Ok (st', Some cq) /\ opened 0 st' cq [] 0 l' fl' /\ moves st [] fl st' l' fl' /\
    cq = hd_addr l' 0 + 4 /\ off_of cq <> 0 /\ room_at st' cq = cfreecount st.
Proof.
  intros Hf Hnd. unfold first_block. destruct fl as [|[k info] fl].
  { left. split; [done|]. destruct Hf as (_&->&_). done. }
  right. pose proof Hf as ((_&(Hk0&Hkm&Hkl&Hkb)&Hc)&Hh&_). simpl in Hk0, Hkm, Hkl, Hkb, Hh. rewrite Hh.
  destruct (Z.eqb_spec k 0); [lia|]. destruct (take_block_rep _ _ _ _ Hf Hnd) as (st'&E&Hf'&Hm&Hn).
  rewrite E. cbn [mbind outcome_bind]. exists st', (k + 4), [(k, info)], fl. split; [done|]. apply NoDup_cons in Hnd as [Hni Hnd].
  split; [|split; [|split; [done|split]]].
  - split; [|split; [|split; [done|simpl; apply NoDup_cons; done]]].
    + simpl. rewrite Hm, lookup_insert_eq. by split_and?.
    + exists [], k, info, 0%nat. split_and?; try done; lia.
  - split; [done|]. intros k' Hk'. rewrite Hm. apply lookup_insert_ne. intros <-. apply Hk'. simpl. set_solver.
  - rewrite off_of_in by lia. lia.
  - unfold room_at. apply Z.mod_divide in Hkm as [d ->]; [|lia].
    rewrite <- (Z.mod_unique_pos (- (d * 32 + 4)) 32 (- d - 1) 28) by lia. lia.
Qed.

Lemma next_block_ok g st cq bs s l fl :
  opened g st cq bs s l fl -> (g = 0%nat -> off_of cq <> 0) ->
  (fl = [] /\ g <> 0%nat /\ off_of cq = 0 /\ exists st', next_block st cq = Ok (st', None) /\ opened g st' cq bs s l [] /\
     moves st l fl st' l [] /\ room_at st cq = 0 /\ room_at st' cq = 0) \/
  exists g' st' cq' l' fl', next_block st cq = Ok (st', Some cq') /\ opened g' st' cq' bs s l' fl' /\ moves st l fl st' l' fl' /\
    hd_addr l' 0 = hd_addr l 0 /\ off_of cq' <> 0 /\ room_at st' cq' = room_at st cq.
Proof.
  intros H Hg0. destruct (opened_end _ _ _ _ _ _ _ H) as (l0&k&info&e&->&Hk&Hok&Hcq&He&Hslack&Hoff).
  unfold next_block. destruct (Z.eqb_spec (off_of cq) 0) as [Ho|Ho].
  2: { right. exists g, st, cq, (l0 ++ [(k, info)]), fl. split; [done|]. by split_and?; try apply moves_refl. }
  assert (e = 28)%nat as -> by (destruct (decide (e = 28)%nat); [done|lia]).
  replace (cq - CBLOCK) with k by (unfold CBLOCK; lia).
  destruct H as (Hc&Hseg&Hf&Hnd). pose proof Hf as (Hcf&Hh&Hn).
  unfold set_next, get_block. rewrite Hk. cbn [mbind outcome_bind c_info]. cbn [cfreelist put_block]. rewrite Hh.
  destruct fl as [|[k2 info2] fl]; cbn [hd_addr].
  - left. split; [done|]. split; [by intros ->; destruct (Hg0 eq_refl)|]. split; [done|].
    eexists. split; [done|]. unfold opened, free_rep, moves, room_at. cbn [c_mem capacity_note put_block cfreelist cfreecount].
    rewrite (insert_id _ _ _ Hk). simpl in Hn. rewrite Hslack. split_and?; try done; lia.
  - right. pose proof Hcf as (Hk2&(Hk20&Hk2m&Hk2l&Hk2b)&Hcf'). simpl in Hk20, Hk2m, Hk2l, Hk2b. destruct (Z.eqb_spec k2 0); [lia|].
    assert (k ∉ ids l0 /\ k ∉ k2 :: ids fl /\ k2 ∉ ids l0 /\ k2 ∉ ids fl /\ NoDup (k2 :: ids fl) /\ NoDup (ids l0)) as (N1&N2&N3&N4&N5&N6).
    { rewrite ids_app in Hnd. simpl in Hnd. rewrite <- app_assoc in Hnd. simpl in Hnd. apply NoDup_app in Hnd as (N6&Hd&Hr).
      pose proof Hr as [N2 N5]%NoDup_cons. pose proof N5 as [N4 _]%NoDup_cons.
      split_and?; try done; intros Hx; apply (Hd _ Hx); rewrite !elem_of_cons; auto. }
    set (st1 := put_block st k (Cblock k2 info)).
    assert (free_rep st1 ((k2, info2) :: fl)) as Hf1.
    { split; [|done]. apply chain_insert; [done|]. exact Hcf. }
    destruct (take_block_rep st1 k2 info2 fl Hf1 N5) as (st'&E&Hf'&Hm&Hn').
    rewrite E. cbn [mbind outcome_bind]. exists 0%nat, st', (k2 + 4), ((l0 ++ [(k, info)]) ++ [(k2, info2)]), fl.
    split; [done|]. split; [|split; [|split; [by destruct l0 as [|[? ?] ?]|split]]].
    + split; [|split; [|split; [done|]]].
      * rewrite Hm. cbn [c_mem put_block st1]. apply chain_app in Hc as [Hc0 _]. rewrite <- app_assoc. apply chain_app. split.
        { apply chain_insert; [done|]. by apply chain_insert. }
        assert (k <> k2) by (intros ->; apply N2; set_solver).
        simpl. rewrite lookup_insert_ne, !lookup_insert_eq by done. by split_and?.
      * destruct Hseg as (l0'&k'&info'&e'&El&Hcl&He'&Hs&Hg&Hbs). apply app_inj_tail in El as [<- [= <- <-]].
        assert (e' = 28)%nat as -> by lia. destruct Hok as (_&_&Hl&_). simpl in Hl.
        exists (l0 ++ [(k, info)]), k2, info2, 0%nat. split_and?; try done; [lia|lia|by destruct l0|].
        rewrite Hbs. unfold text. rewrite map_app, concat_app. simpl. rewrite !app_nil_r. by rewrite take_ge by lia.
      * rewrite !ids_app in *. simpl in *. rewrite <- app_assoc. done.
    + split; [rewrite !ids_app; simpl; by rewrite <- !app_assoc|]. intros k' Hk'. rewrite Hm. cbn [c_mem put_block st1].
      rewrite !lookup_insert_ne; [done| |]; intros <-; apply Hk'; rewrite ids_app; simpl; set_solver.
    + rewrite off_of_in by lia. lia.
    + unfold room_at. rewrite Hslack, Hn'. cbn [cfreecount put_block st1]. apply Z.mod_divide in Hk2m as [d ->]; [|lia].
      rewrite <- (Z.mod_unique_pos (- (d * 32 + 4)) 32 (- d - 1) 28) by lia. lia.
Qed.

Lemma here_opened st q bs s l fl : here st q bs s l fl -> bs <> [] -> opened 1 st (c_cl q) bs s l fl.
Proof. intros ([Hc Hq]&Hf&Hnd) Hne. destruct Hq as [(_&?&_)|(_&_&Hseg)]; [done|]. done. Qed.

Lemma opened_here st cf cq bs s l fl n : opened 1 st cq bs s l fl -> n = Z.of_nat (length bs) ->
  cf = hd_addr l 0 + 4 + Z.of_nat s -> here st (Clist n cf cq) bs s l fl.
Proof. intros (Hc&Hseg&Hf&Hnd) -> ->. split; [|done]. split; [done|right]. done. Qed.

Lemma here_cf st q bs s l fl : here st q bs s l fl -> bs <> [] -> c_cf q = hd_addr l 0 + 4 + Z.of_nat s.
Proof. intros ([_ [(_&?&_)|(_&?&_)]]&_) ?; done. Qed.

Lemma opened_cl g st cq bs s l fl : opened g st cq bs s l fl -> 0 < cq.
Proof.
  intros H. destruct (opened_end _ _ _ _ _ _ _ H) as (l0&k&info&e&->&_&(?&_)&->&_). simpl in *. lia.
Qed.

(** ** [putc] and [b_to_q] *)

Lemma room_empty st : room st (Clist 0 0 0) = cfreecount st.
Proof. unfold room. cbn [c_cl]. change ((- 0) mod 32) with 0. lia. Qed.

Lemma u8_byte c : 0 <= u8 c < 256.
Proof. apply (trunc_range 8). lia. Qed.

Lemma putc_here st q bs s l fl c : here st q bs s l fl ->
  exists st' q' s' l' fl', putc st c q = Ok (if room st q =? 0 then -1 else 0, st', q') /\
    here st' q' (if room st q =? 0 then bs else bs ++ [u8 c]) s' l' fl' /\ moves st l fl st' l' fl'.
Proof.
  intros H. destruct (here_empty _ _ _ _ _ _ H) as (Hcc&He&Hne). unfold putc.
  assert (forall g st1 cq l1 fl1, opened g st1 cq bs s l1 fl1 -> off_of cq <> 0 -> moves st l fl st1 l1 fl1 ->
    room_at st1 cq = room st q -> (if decide (bs = []) then cq else c_cf q) = hd_addr l1 0 + 4 + Z.of_nat s ->
    exists st' q' s' l' fl',
     (st ← store st1 cq [u8 c]; Ok (0, st, Clist (c_cc q + 1) (if decide (bs = []) then cq else c_cf q) (cq + 1))) =
       Ok (if room st q =? 0 then -1 else 0, st', q') /\
     here st' q' (if room st q =? 0 then bs else bs ++ [u8 c]) s' l' fl' /\ moves st l fl st' l' fl') as Hput.
  { intros g st1 cq l1 fl1 Ho Hoff Hm1 Hr Hcf.
    destruct (store_back g st1 cq bs s l1 fl1 [u8 c] Ho Hoff) as (st'&l'&E&Ho'&Hm'&Hhd&Hr').
    { done. } { rewrite off_of_mod. pose proof (Z.mod_pos_bound cq 32 eq_refl). cbn [length]. lia. } { constructor; [apply u8_byte|done]. }
    assert (0 < room_at st1 cq) as Hpos.
    { pose proof (Z.mod_pos_bound (- (cq + Z.of_nat (length [u8 c]))) 32 eq_refl). destruct Ho' as (_&_&(_&_&Hn)&_).
      unfold room_at in Hr'. simpl in *. unfold room_at. lia. }
    rewrite Hr in Hpos. destruct (Z.eqb_spec (room st q) 0); [lia|]. rewrite E. cbn [mbind outcome_bind].
    eexists st', _, s, l', fl1. split; [done|]. split; [|by eapply moves_trans].
    eapply opened_here; [exact Ho'|rewrite length_app; simpl; lia|by rewrite Hhd]. }
  destruct (decide (bs = [])) as [->|Hbs].
  - destruct (He eq_refl) as [-> ->]. cbn [c_cl c_cc c_cf Z.eqb orb] in *. destruct H as (Hq&Hf&Hnd).
    destruct Hq as [_ [(_&_&->&_)|(_&_&Hseg)]]; [|by destruct Hseg as ([|? ?]&?&?&?&?&_)].
    destruct (first_block_ok st fl Hf Hnd) as [[-> E]|(st1&cq&l1&fl1&E&Ho&Hm&Hcq&Hoff&Hr)]; rewrite E; cbn [mbind outcome_bind fst snd].
    + assert (room st (Clist 0 0 0) = 0) as -> by (destruct Hf as (_&_&Hn); rewrite room_empty, Hn; done).
      exists (capacity_note st true), (Clist 0 0 0), 0%nat, [], []. split; [done|]. split; [|by split].
      split; [|done]. split; [done|by left].
    + apply (Hput 0%nat st1 cq l1 fl1); try done; [by rewrite Hr, room_empty|simpl; lia].
  - pose proof (here_opened _ _ _ _ _ _ H Hbs) as Ho. pose proof (opened_cl _ _ _ _ _ _ _ Ho).
    destruct (Z.eqb_spec (c_cl q) 0); [lia|]. destruct (Z.ltb_spec (c_cc q) 0); [lia|]. cbn [orb].
    destruct (next_block_ok _ _ _ _ _ _ _ Ho) as [(->&_&_&st'&E&Ho'&Hm&Hr&_)|(g'&st1&cq&l1&fl1&E&Ho'&Hm&Hhd&Hoff&Hr)]; [done|..];
      rewrite E; cbn [mbind outcome_bind fst snd].
    + unfold room. fold (room_at st (c_cl q)). rewrite Hr. exists st', q, s, l, []. split; [done|]. split; [|done].
      destruct q as [qn cf cl]. eapply opened_here; [exact Ho'|done|by apply (here_cf _ _ _ _ _ _ H)].
    + apply (Hput g' st1 cq l1 fl1); try done. rewrite Hhd. by apply (here_cf _ _ _ _ _ _ H).
Qed.

Lemma b_to_q_loop_ok fuel g st cp cc cq bs s l fl :
  opened g st cq bs s l fl -> (g = 0%nat -> off_of cq <> 0 /\ (0 < cc)%nat) -> (cc <= fuel)%nat -> (cc <= length cp)%nat ->
  Forall (fun c => 0 <= c < 256) cp ->
  let n := Z.to_nat (Z.min (Z.of_nat cc) (room_at st cq)) in
  exists st' cq' l' fl', b_to_q_loop fuel st cp (Z.of_nat cc) cq = Ok (st', Z.of_nat (cc - n), cq') /\
    (g = 0%nat \/ g = 1%nat -> opened 1 st' cq' (bs ++ take n cp) s l' fl') /\ moves st l fl st' l' fl' /\
    hd_addr l' 0 = hd_addr l 0 /\ room_at st' cq' = room_at st cq - Z.of_nat n.
Proof.
  revert g st cp cc cq bs l fl. induction fuel as [|fuel IH]; intros g st cp cc cq bs l fl Ho Hg Hf Hlen Hby n; cbn [b_to_q_loop].
  all: assert (0 <= room_at st cq) as Hroom by
      (destruct Ho as (_&_&(_&_&Hn)&_); pose proof (Z.mod_pos_bound (- cq) 32 eq_refl); unfold room_at; lia).
  all: destruct (Z.eqb_spec (Z.of_nat cc) 0) as [Hc0|Hc0].
  1, 3: assert (n = 0%nat) as -> by (unfold n; lia); replace cc with 0%nat by lia; exists st, cq, l, fl;
        split; [done|]; split; [intros [-> | ->]; [lia|by rewrite take_0, app_nil_r]|]; split; [apply moves_refl|]; split; [done|lia].
  { lia. }
  destruct (next_block_ok _ _ _ _ _ _ _ Ho) as [(->&Hg1&Hoff&st'&E&Ho'&Hm&Hr&Hr')|(g'&st1&cq1&l1&fl1&E&Ho1&Hm1&Hhd1&Hoff1&Hr1)];
    [intros ->; by apply Hg|..]; rewrite E; cbn [mbind outcome_bind fst snd].
  - assert (n = 0%nat) as -> by (unfold n; lia). exists st', cq, l, []. rewrite Nat.sub_0_r. split; [done|].
    split; [intros [-> | ->]; [done|by rewrite take_0, app_nil_r]|]. split; [done|]. split; [done|lia].
  - pose proof (Z.mod_pos_bound cq1 32 eq_refl) as Hb. rewrite <- off_of_mod in Hb.
    set (nc := Z.to_nat (Z.min (Z.of_nat cc) (CBLOCK - off_of cq1))). unfold CBLOCK in nc.
    assert (1 <= nc <= cc)%nat as Hnc by (unfold nc; lia).
    destruct (Nat.ltb_spec (length cp) nc); [lia|].
    assert (length (take nc cp) = nc) as Hlt by (rewrite length_take; lia).
    destruct (store_back g' st1 cq1 bs s l1 fl1 (take nc cp) Ho1 Hoff1) as (st2&l2&E2&Ho2&Hm2&Hhd2&Hr2).
    { intros E0%(f_equal length). simpl in E0. lia. } { lia. } { by apply Forall_take. }
    rewrite E2. cbn [mbind outcome_bind]. rewrite Hlt in *.
    replace (Z.min (Z.of_nat cc) (CBLOCK - off_of cq1)) with (Z.of_nat nc) by (unfold nc, CBLOCK; lia).
    replace (Z.of_nat cc - Z.of_nat nc) with (Z.of_nat (cc - nc)) by lia.
    assert (0 <= room_at st2 (cq1 + Z.of_nat nc)) as Hroom2.
    { destruct Ho2 as (_&_&(_&_&Hn)&_); pose proof (Z.mod_pos_bound (- (cq1 + Z.of_nat nc)) 32 eq_refl); unfold room_at; lia. }
    destruct (IH 1%nat st2 (drop nc cp) (cc - nc)%nat (cq1 + Z.of_nat nc) (bs ++ take nc cp) l2 fl1 Ho2) as (st'&cq'&l'&fl'&E'&Ho'&Hm'&Hhd'&Hr');
      [done|lia|rewrite length_drop; lia|by apply Forall_drop|].
    set (n2 := Z.to_nat (Z.min (Z.of_nat (cc - nc)) (room_at st2 (cq1 + Z.of_nat nc)))) in *.
    assert (n = nc + n2)%nat as Hn by (unfold n, n2; lia).
    exists st', cq', l', fl'. rewrite E'. split; [do 3 f_equal; lia|]. split.
    { intros _. rewrite Hn, <- take_take_drop, app_assoc. apply Ho'. by right. }
    split; [by eapply moves_trans; [eapply moves_trans|]|]. split; [congruence|lia].
Qed.

Lemma b_to_q_here st q bs s l fl cp cc : here st q bs s l fl -> 0 <= cc <= Z.of_nat (length cp) ->
  Forall (fun c => 0 <= c < 256) cp ->
  let n := Z.to_nat (Z.min cc (room st q)) in
  exists st' q' s' l' fl', b_to_q st cp cc q = Ok (cc - Z.of_nat n, st', q') /\
    here st' q' (bs ++ take n cp) s' l' fl' /\ moves st l fl st' l' fl' /\ (bs <> [] -> room st' q' = room st q - Z.of_nat n).
Proof.
  intros H Hcc Hby n. destruct (here_empty _ _ _ _ _ _ H) as (Hl&He&Hne). unfold b_to_q.
  assert (0 <= room st q) as Hroom.
  { pose proof H as (_&(_&_&Hn)&_). pose proof (Z.mod_pos_bound (- c_cl q) 32 eq_refl). unfold room. lia. }
  assert (Z.of_nat (Z.to_nat cc - n) = cc - Z.of_nat n) as Hcn by (unfold n; lia).
  destruct (Z.leb_spec cc 0).
  { assert (n = 0%nat) as -> by (unfold n; lia). exists st, q, s, l, fl. rewrite take_0, app_nil_r. split; [do 3 f_equal; lia|].
    split; [done|]. split; [apply moves_refl|lia]. }
  destruct (decide (bs = [])) as [->|Hbs].
  - destruct (He eq_refl) as [-> ->]. cbn [c_cl c_cc c_cf Z.eqb orb] in *. destruct H as (Hq&Hf&Hnd).
    destruct Hq as [_ [(_&_&->&_)|(_&_&Hseg)]]; [|by destruct Hseg as ([|? ?]&?&?&?&?&_)].
    assert (room st (Clist 0 0 0) = cfreecount st) as Hr0 by by apply room_empty.
    destruct (first_block_ok st fl Hf Hnd) as [[-> E]|(st1&cq&l1&fl1&E&Ho&Hm&Hcq&Hoff&Hr)]; rewrite E; cbn [mbind outcome_bind fst snd].
    + assert (n = 0%nat) as ->. { destruct Hf as (_&_&Hn). simpl in Hn. unfold n. lia. }
      exists (capacity_note st true), (Clist 0 0 0), 0%nat, [], []. split; [do 3 f_equal; lia|]. split; [|by split].
      split; [|done]. split; [done|by left].
    + destruct (b_to_q_loop_ok (Z.to_nat cc) 0 st1 cp (Z.to_nat cc) cq [] 0 l1 fl1 Ho) as (st'&cq'&l'&fl'&E'&Ho'&Hm'&Hhd'&Hr');
        [intros _; split; [done|lia]|lia|lia|done|].
      rewrite (Z2Nat.id cc) in E', Hr', Ho' by lia. rewrite Hr, <- Hr0 in *. fold n in E', Ho', Hr'.
      rewrite E', Hcn. cbn [mbind outcome_bind].
      eexists st', _, 0%nat, l', fl'. split; [done|]. split.
      { eapply opened_here; [apply Ho'; by left|simpl; rewrite length_take; unfold n; lia|lia]. }
      split; [by eapply moves_trans|done].
  - pose proof (here_opened _ _ _ _ _ _ H Hbs) as Ho. pose proof (opened_cl _ _ _ _ _ _ _ Ho).
    destruct (Z.eqb_spec (c_cl q) 0); [lia|]. destruct (Z.ltb_spec (c_cc q) 0); [lia|]. cbn [orb mbind outcome_bind fst snd].
    destruct (b_to_q_loop_ok (Z.to_nat cc) 1 st cp (Z.to_nat cc) (c_cl q) bs s l fl Ho) as (st'&cq'&l'&fl'&E'&Ho'&Hm'&Hhd'&Hr');
      [done|lia|lia|done|].
    rewrite (Z2Nat.id cc) in E', Hr', Ho' by lia. change (room_at st (c_cl q)) with (room st q) in *. fold n in E', Ho', Hr'.
    rewrite E', Hcn. cbn [mbind outcome_bind].
    eexists st', _, s, l', fl'. split; [done|]. split.
    { eapply opened_here; [apply Ho'; by right|rewrite length_app, length_take; unfold n; lia|].
      rewrite Hhd'. by apply (here_cf _ _ _ _ _ _ H). }
    split; [done|]. intros _. exact Hr'.
Qed.

(** ** [unputc] *)

Lemma find_before_ok st l0 k1 i1 k fuel :
  chain (c_mem st) (l0 ++ [(k1, i1)]) k -> k ∉ ids (l0 ++ [(k1, i1)]) -> (length l0 < fuel)%nat ->
  find_before fuel st (hd_addr (l0 ++ [(k1, i1)]) 0) k = Ok k1.
Proof.
  revert fuel. induction l0 as [|[k0 i0] l0 IH]; intros fuel Hc Hn Hf; (destruct fuel as [|fuel]; [simpl in Hf; lia|]); simpl in *.
  - destruct Hc as (Hk&_). unfold get_block. rewrite Hk. simpl. by rewrite Z.eqb_refl.
  - destruct Hc as (Hk&_&Hc). unfold get_block. rewrite Hk. cbn [mbind outcome_bind c_next].
    assert (hd_addr (l0 ++ [(k1, i1)]) k = hd_addr (l0 ++ [(k1, i1)]) 0) as -> by by destruct l0 as [|[? ?] ?].
    destruct (Z.eqb_spec (hd_addr (l0 ++ [(k1, i1)]) 0) k) as [E|_].
    + exfalso. apply Hn. rewrite <- E. destruct l0 as [|[? ?] ?]; simpl; set_solver.
    + apply IH; [done|intros Hx; apply Hn; by right|lia].
Qed.

Lemma chain_size m l z : chain m l z -> NoDup (ids l) -> (length l <= size m)%nat.
Proof.
  intros Hc Hnd. rewrite <- size_dom. replace (length l) with (length (ids l)) by apply length_map.
  rewrite <- (size_list_to_set (C := gset Z)) by done. apply subseteq_size. intros k Hk%elem_of_list_to_set.
  apply elem_of_dom. by apply (chain_in _ _ _ _ Hc).
Qed.

Lemma unputc_here st q bs s l fl : here st q bs s l fl ->
  exists st' q' s' l' fl', unputc st q = Ok (default (-1) (last bs), st', q') /\
    here st' q' (take (length bs - 1) bs) s' l' fl' /\ moves st l fl st' l' fl'.
Proof.
  intros H. destruct (here_empty _ _ _ _ _ _ H) as (Hcc&He&_). unfold unputc. rewrite Hcc.
  destruct (decide (bs = [])) as [->|Hbs].
  { destruct (He eq_refl) as [-> ->]. exists st, (Clist 0 0 0), s, [], fl. split; [done|]. split; [done|apply moves_refl]. }
  assert (0 < length bs)%nat as Hpos by (destruct bs; simpl; [done|lia]).
  destruct (Z.leb_spec (Z.of_nat (length bs)) 0); [lia|]. pose proof (here_cf _ _ _ _ _ _ H Hbs) as Hcf.
  pose proof (here_opened _ _ _ _ _ _ H Hbs) as (Hc&(l0&k&info&e&->&Hcl&He28&Hs&Hg&Hbseq)&Hf&Hnd).
  pose proof Hc as [Hc0 (Hk&Hok&_)]%chain_app. pose proof Hok as (Hk0&Hkm&Hkl&Hkb). simpl in Hk0, Hkm, Hkl, Hkb, Hc0, Hk.
  pose proof (chain_text_length _ _ _ Hc0) as Htl.
  assert (length bs = 28 * length l0 + e - s)%nat as Hlen.
  { rewrite Hbseq, length_drop, length_app, length_take, Htl. lia. }
  destruct (lookup_lt_is_Some_2 info (e - 1)) as [c Hce]; [lia|].
  assert (take e info = take (e - 1) info ++ [c]) as Htk.
  { replace e with (S (e - 1)) at 1 by lia. by apply take_S_r. }
  assert (bs = drop s (text l0 ++ take (e - 1) info) ++ [c]) as Hsplit.
  { rewrite Hbseq, Htk, app_assoc, drop_app_le; [done|]. rewrite length_app, length_take, Htl.
    destruct l0; simpl in *; lia. }
  assert (last bs = Some c) as -> by (by rewrite Hsplit, last_snoc).
  assert (take (length bs - 1) bs = drop s (text l0 ++ take (e - 1) info)) as ->.
  { rewrite Hsplit at 2. apply take_app_length'. rewrite Hsplit, length_app. simpl. lia. }
  replace (c_cl q - 1) with (k + (3 + Z.of_nat e)) by lia.
  assert (load st (k + (3 + Z.of_nat e)) 1 = Ok [c]) as ->.
  { unfold load, get_block. rewrite blk_of_in, off_of_in, Hk by lia. cbn [mbind outcome_bind c_info].
    replace ((4 <=? 3 + Z.of_nat e) && (0 <=? 1) && (3 + Z.of_nat e + 1 <=? CBLOCK)) with true
      by (symmetry; unfold CBLOCK; rewrite !andb_true_iff, !Z.leb_le; lia).
    replace (Z.to_nat (3 + Z.of_nat e - 4)) with (e - 1)%nat by lia. by rewrite (drop_S _ _ _ Hce). }
  cbn [rd lookup list_lookup mbind outcome_bind default]. rewrite blk_of_in, off_of_in by lia.
  assert (k ∉ ids l0 /\ k ∉ ids fl /\ NoDup (ids l0 ++ k :: ids fl) /\ NoDup (ids l0)) as (N1&N2&N3&N4).
  { rewrite ids_app in Hnd. simpl in Hnd. rewrite <- app_assoc in Hnd. simpl in Hnd. split_and?; try done;
      apply NoDup_app in Hnd as (?&Hd&[? ?]%NoDup_cons); try done. intros ?. by apply (Hd k); [|left]. }
  destruct (free_block_rep st k info 0 fl Hk Hok N2 Hf) as (st1&Efree&Hf1&Hm1).
  assert (moves st (l0 ++ [(k, info)]) fl st1 l0 ((k, info) :: fl)) as Hmv.
  { split; [rewrite ids_app; simpl; by rewrite <- app_assoc|]. intros k' Hk'. rewrite Hm1. apply lookup_insert_ne. intros <-.
    apply Hk'. rewrite ids_app. simpl. set_solver. }
  destruct (Z.leb_spec (Z.of_nat (length bs) - 1) 0).
  - assert (l0 = []) as -> by (destruct l0; simpl in *; [done|lia]). simpl in *. rewrite Efree. cbn.
    eexists st1, _, 0%nat, [], ((k, info) :: fl). split; [done|]. split; [|done]. split; [|done]. split; [done|left].
    rewrite drop_ge by (rewrite length_take; lia). split_and?; try done. f_equal. lia.
  - destruct (Z.eqb_spec (3 + Z.of_nat e) 4) as [He1|He1].
    + assert (e = 1)%nat as -> by lia. destruct l0 as [|b0 l00] using rev_ind; [simpl in *; lia|]. clear IHl00.
      destruct b0 as [k1 i1]. rewrite Hcf.
      assert (hd_addr ((l00 ++ [(k1, i1)]) ++ [(k, info)]) 0 = hd_addr (l00 ++ [(k1, i1)]) 0) as Hhd by by destruct l00 as [|[? ?] ?].
      assert (hd_addr (l00 ++ [(k1, i1)]) 0 mod 32 = 0) as Hhm.
      { destruct l00 as [|[? ?] ?]; simpl in *; [by destruct Hc0 as (_&(_&?&_)&_)|by destruct Hc0 as (_&(_&?&_)&_)]. }
      rewrite Hhd, <- Z.add_assoc, blk_of_in, (find_before_ok st l00 k1 i1 k) by
        (done || lia || (pose proof (chain_size _ _ _ Hc0 N4) as Hsz; rewrite length_app in Hsz; simpl in Hsz; lia)).
      pose proof Hc0 as [Hc00 (Hk1&Hok1&_)]%chain_app. simpl in Hc00, Hk1. cbn [mbind outcome_bind].
      unfold get_block at 1. rewrite Hk1. cbn [mbind outcome_bind c_next]. rewrite Efree. cbn [mbind outcome_bind].
      assert (k1 <> k /\ k1 ∉ ids l00 /\ k1 ∉ ids fl) as (N5&N6&N7).
      { rewrite ids_app in *. simpl in *. rewrite <- app_assoc in N3. simpl in N3. apply NoDup_app in N3 as (_&Hd&[Hx _]%NoDup_cons).
        split_and?; [set_solver|intros ?; by apply (Hd k1); [|left]|set_solver]. }
      unfold set_next, get_block. rewrite Hm1, lookup_insert_ne, Hk1 by done. cbn [mbind outcome_bind c_info].
      eexists _, _, s, (l00 ++ [(k1, i1)]), ((k, info) :: fl). split; [done|]. split.
      * split; [|split; [|done]].
        -- split; [|right].
           ++ cbn [c_mem put_block]. rewrite Hm1. apply chain_app. split.
              { simpl. apply chain_insert; [done|]. apply chain_insert; [|done]. rewrite ids_app in N1. set_solver. }
              simpl. rewrite lookup_insert_eq. by split_and?.
           ++ destruct Hok1 as (_&_&Hl1&_). simpl in Hl1. cbn [c_cc c_cf c_cl]. split_and?; [|lia|].
              { rewrite length_drop, length_app, length_take, Htl. rewrite Hlen. lia. }
              exists l00, k1, i1, 28%nat. split_and?; try done; [unfold CBLOCK; lia|destruct l00; lia|].
              rewrite (take_ge i1) by lia. simpl. unfold text. rewrite map_app, concat_app. simpl. by rewrite !app_nil_r.
        -- destruct Hf1 as (Hx&Hy&Hz). split; [|done]. cbn [c_mem put_block]. apply chain_insert; [|done]. simpl. set_solver.
      * destruct Hmv as [HP Hm]. split; [done|]. intros k' Hk'. cbn [c_mem put_block]. rewrite lookup_insert_ne; [by apply Hm|].
        intros <-. apply Hk'. rewrite !ids_app. simpl. set_solver.
    + eexists st, _, s, (l0 ++ [(k, info)]), fl. split; [done|]. split; [|apply moves_refl]. split; [|done]. split; [done|right].
      cbn [c_cc c_cf c_cl]. split_and?; [rewrite length_drop, length_app, length_take, Htl; lia|done|].
      exists l0, k, info, (e - 1)%nat. split_and?; try done; [lia|lia|]. destruct l0; simpl in *; lia.
Qed.

(** ** [catq] *)

Lemma here_blocks st q bs s l fl : here st q bs s l fl ->
  (bs = [] -> l = []) /\ (bs <> [] -> (28 * (length l - 1) < s + length bs <= 28 * length l /\ s < 28)%nat).
Proof.
  intros H. destruct (here_empty _ _ _ _ _ _ H) as (_&He&_). split; [by intros [_ ?]%He|]. intros Hbs.
  pose proof (here_opened _ _ _ _ _ _ H Hbs) as (Hc&(l0&k&info&e&->&Hcl&He28&Hs&Hg&Hbseq)&_).
  pose proof Hc as [Hc0 (_&(_&_&Hkl&_)&_)]%chain_app. simpl in Hkl. pose proof (chain_text_length _ _ _ Hc0) as Htl.
  assert (length bs = 28 * length l0 + e - s)%nat as -> by (rewrite Hbseq, length_drop, length_app, length_take, Htl; lia).
  rewrite length_app. simpl. destruct l0; simpl in *; lia.
Qed.

(** Taking whole blocks' worth of bytes frees as many bytes of blocks. *)
Lemma q_to_b_owns st q bs rest ks cc : owns st ((q, bs) :: rest) ks -> 0 <= cc ->
  exists st' q', q_to_b st q cc = Ok (take (Z.to_nat cc) bs, st', q') /\
    owns st' ((q', drop (Z.to_nat cc) bs) :: rest) ks /\
    (cc mod 28 = 0 -> Z.min cc (Z.of_nat (length bs)) <= cfreecount st').
Proof.
  intros Ho Hcc. destruct (owns_head _ _ _ _ _ Ho) as (s&l&fl&H&Hback).
  destruct (q_to_b_here st q bs s l fl cc H Hcc) as (st'&q'&s'&l'&fl'&E&H'&Hm&Hs').
  exists st', q'. split; [done|]. split; [by eapply Hback|]. intros Hmod.
  pose proof (moves_length _ _ _ _ _ _ Hm) as Hlen. pose proof H' as (_&(_&_&->)&_).
  destruct (here_blocks _ _ _ _ _ _ H) as [He Hne]. destruct (here_blocks _ _ _ _ _ _ H') as [He' Hne'].
  destruct (decide (bs = [])) as [->|Hbs]; [simpl; lia|].
  destruct (decide (Z.to_nat cc < length bs)%nat) as [Hlt|Hge].
  - assert (drop (Z.to_nat cc) bs <> []) as Hne2 by (intros E2%(f_equal length); rewrite length_drop in E2; simpl in E2; lia).
    specialize (Hne Hbs). specialize (Hne' Hne2). rewrite length_drop in Hne'. specialize (Hs' Hlt).
    apply Z.mod_divide in Hmod as [d ->]; [|lia].
    assert (s' = s) as -> by (rewrite Hs'; replace (s + Z.to_nat (d * 28))%nat with (s + Z.to_nat d * 28)%nat by lia;
      rewrite Nat.Div0.mod_add; apply Nat.mod_small; lia). lia.
  - rewrite He' in Hlen by (rewrite drop_ge; [done|lia]). specialize (Hne Hbs). simpl in Hlen. lia.
Qed.

Lemma b_to_q_owns st q bs rest ks cp cc : owns st ((q, bs) :: rest) ks -> 0 <= cc <= Z.of_nat (length cp) ->
  Forall (fun c => 0 <= c < 256) cp ->
  let n := Z.to_nat (Z.min cc (room st q)) in
  exists st' q', b_to_q st cp cc q = Ok (cc - Z.of_nat n, st', q') /\ owns st' ((q', bs ++ take n cp) :: rest) ks.
Proof.
  intros Ho Hcc Hby n. destruct (owns_head _ _ _ _ _ Ho) as (s&l&fl&H&Hback).
  destruct (b_to_q_here st q bs s l fl cp cc H Hcc Hby) as (st'&q'&s'&l'&fl'&E&H'&Hm&_).
  exists st', q'. split; [done|]. by eapply Hback.
Qed.

Lemma owns_bytes st q bs rest ks : owns st ((q, bs) :: rest) ks -> Forall (fun c => 0 <= c < 256) bs.
Proof. intros Ho. destruct (owns_head _ _ _ _ _ Ho) as (s&l&fl&H&_). by eapply here_bytes. Qed.

Lemma owns_count st q bs rest ks : owns st ((q, bs) :: rest) ks ->
  c_cc q = Z.of_nat (length bs) /\ (bs = [] -> q = Clist 0 0 0).
Proof.
  intros Ho. destruct (owns_head _ _ _ _ _ Ho) as (s&l&fl&H&_). destruct (here_empty _ _ _ _ _ _ H) as (?&He&_).
  split; [done|]. by intros [? _]%He.
Qed.

Lemma catq_loop_owns fuel st from to bf bt rest ks :
  owns st ((from, bf) :: (to, bt) :: rest) ks -> (length bf <= fuel)%nat ->
  exists st' from' to', catq_loop fuel st from to = Ok (st', from', to') /\
    owns st' ((from', []) :: (to', bt ++ bf) :: rest) ks.
Proof.
  revert st from to bf bt. induction fuel as [|fuel IH]; intros st from to bf bt Ho Hf; cbn [catq_loop].
  all: destruct (owns_count _ _ _ _ _ Ho) as [-> He]; destruct (Z.ltb_spec 0 (Z.of_nat (length bf))); cbn [negb].
  1: lia.
  1, 3: assert (bf = []) as -> by (destruct bf; simpl in *; [done|lia]); exists st, from, to; by rewrite app_nil_r.
  destruct (q_to_b_owns st from bf _ ks BBUF Ho) as (st1&from1&E1&Ho1&Hfree); [done|].
  rewrite E1. cbn [mbind outcome_bind]. specialize (Hfree eq_refl). set (n := Z.to_nat BBUF) in *.
  assert (owns st1 ((to, bt) :: (from1, drop n bf) :: rest) ks) as Ho1'.
  { eapply owns_proper; [apply perm_swap|done|exact Ho1]. }
  destruct (b_to_q_owns st1 to bt _ ks (take n bf) (Z.of_nat (length (take n bf))) Ho1') as (st2&to2&E2&Ho2); [lia| |].
  { apply Forall_take. by eapply owns_bytes. }
  rewrite E2. cbn [mbind outcome_bind].
  assert (Z.of_nat (length (take n bf)) <= room st1 to) as Hroom.
  { rewrite length_take. pose proof (Z.mod_pos_bound (- c_cl to) 32 eq_refl). assert (Z.of_nat n = BBUF) by done. unfold room. lia. }
  rewrite Z.min_l, Nat2Z.id, (take_ge (take n bf)) in Ho2 by lia.
  destruct (IH st2 from1 to2 (drop n bf) (bt ++ take n bf)) as (st'&from'&to'&E&Ho').
  { eapply owns_proper; [apply perm_swap|done|exact Ho2]. }
  { rewrite length_drop. change n with 112%nat. lia. }
  exists st', from', to'. split; [exact E|]. by rewrite <- app_assoc, take_drop in Ho'.
Qed.


(** ** Theorems *)

(** The operations on one queue, as calls. *)
Inductive clist_op :=
| OpGetc
| OpPutc (c : Z)
| OpUnputc
| OpQToB (cc : Z)
| OpBToQ (cp : list Z)
| OpNdflush (cc : Z).

(** What a call does to the bytes of the queue, and its result: the value
    returned and the bytes copied out. [r] is the room for new bytes. *)
Definition queue_spec (op : clist_op) (r : Z) (bs : list Z) : Z * list Z * list Z :=
  match op with
  | OpGetc => (hd (-1) bs, [], tail bs)
  | OpPutc c => if r =? 0 then (-1, [], bs) else (0, [], bs ++ [u8 c])
  | OpUnputc => (List.last bs (-1), [], removelast bs)
  | OpQToB cc => (Z.min (Z.max 0 cc) (Z.of_nat (length bs)), take (Z.to_nat cc) bs, drop (Z.to_nat cc) bs)
  | OpBToQ cp =>
      let n := Z.min (Z.of_nat (length cp)) r in
      (Z.of_nat (length cp) - n, [], bs ++ take (Z.to_nat n) cp)
  | OpNdflush cc => (0, [], drop (Z.to_nat cc) bs)
  end.

Definition clist_call (op : clist_op) (st : cstate) (q : clist) : outcome (Z * list Z * cstate * clist) :=
  match op with
  | OpGetc => r ← getc st q; let '(c, st, q) := r in Ok (c, [], st, q)
  | OpPutc c => r ← putc st c q; let '(v, st, q) := r in Ok (v, [], st, q)
  | OpUnputc => r ← unputc st q; let '(c, st, q) := r in Ok (c, [], st, q)
  | OpQToB cc => r ← q_to_b st q cc; let '(bs, st, q) := r in Ok (Z.of_nat (length bs), bs, st, q)
  | OpBToQ cp => r ← b_to_q st cp (Z.of_nat (length cp)) q; let '(v, st, q) := r in Ok (v, [], st, q)
  | OpNdflush cc => r ← ndflush st q cc; let '(st, q) := r in Ok (0, [], st, q)
  end.

Definition op_ok (op : clist_op) : Prop :=
  match op with
  | OpQToB cc | OpNdflush cc => 0 <= cc
  | OpBToQ cp => Forall (fun c => 0 <= c < 256) cp
  | _ => True
  end.

Lemma last_default {A} (l : list A) d : List.last l d = default d (last l).
Proof. induction l as [|x [|y l] IH]; [done|done|exact IH]. Qed.

Lemma removelast_take {A} (l : list A) : removelast l = take (length l - 1) l.
Proof. induction l as [|x [|y l] IH]; [done|done|]. simpl in *. rewrite Nat.sub_0_r in IH. by f_equal. Qed.

(** C11. Character lists refine byte queues. Whatever the layout of the
    blocks, every operation on a queue of the pool returns without touching
    memory outside the blocks, has exactly the effect and the result of the
    byte-queue specification (first-in first-out, [unputc] at the end, as
    many bytes accepted as there is room for, [-1] only when empty or full),
    leaves every other queue as it was, and no block is lost, leaked or
    shared. *)
Theorem clist_refines_queue (op : clist_op) (st : cstate) (q : clist) (bs : list Z) rest ks :
  owns st ((q, bs) :: rest) ks -> op_ok op ->
  exists st' q', let '(v, out, bs') := queue_spec op (room st q) bs in
    clist_call op st q = Ok (v, out, st', q') /\ owns st' ((q', bs') :: rest) ks.
Proof.
  intros Ho Hok. destruct op as [|c| |cc|cp|cc]; simpl in *.
  3: destruct (owns_head _ _ _ _ _ Ho) as (s&l&fl&H&Hback);
     destruct (unputc_here st q bs s l fl H) as (st'&q'&s'&l'&fl'&->&H'&Hm); exists st', q';
     rewrite last_default, removelast_take; split; [done|by eapply Hback].
  - destruct (owns_head _ _ _ _ _ Ho) as (s&l&fl&H&Hback).
    destruct (getc_here st q bs s l fl H) as (st'&q'&s'&l'&fl'&->&H'&Hm). exists st', q'. split; [by destruct bs|by eapply Hback].
  - destruct (owns_head _ _ _ _ _ Ho) as (s&l&fl&H&Hback).
    destruct (putc_here st q bs s l fl c H) as (st'&q'&s'&l'&fl'&->&H'&Hm). exists st', q'.
    destruct (room st q =? 0); (split; [done|by eapply Hback]).
  - destruct (q_to_b_owns st q bs rest ks cc Ho Hok) as (st'&q'&->&Ho'&_). exists st', q'. split; [|done].
    cbn [mbind outcome_bind]. rewrite length_take. do 4 f_equal. lia.
  - destruct (b_to_q_owns st q bs rest ks cp (Z.of_nat (length cp)) Ho) as (st'&q'&->&Ho'); [lia|done|].
    exists st', q'. cbn [mbind outcome_bind]. split; [|done].
    assert (0 <= room st q).
    { destruct Ho as (?&?&_&(_&_&Hn)&_). pose proof (Z.mod_pos_bound (- c_cl q) 32 eq_refl). unfold room. lia. }
    rewrite Z2Nat.id by lia. done.
  - destruct (owns_head _ _ _ _ _ Ho) as (s&l&fl&H&Hback).
    destruct (ndflush_here st q bs s l fl cc H Hok) as (st'&q'&s'&l'&fl'&->&H'&Hm). exists st', q'. split; [done|by eapply Hback].
Qed.

(** [catq] never loses a character: it terminates with the source empty
    and all its bytes, in order, behind those of the target, even when the
    free list is empty at the call and although it ignores the result of
    [b_to_q]; the blocks freed by reading are always enough for writing. *)
Theorem catq_lossless (st : cstate) (from to : clist) (bf bt : list Z) rest ks :
  owns st ((from, bf) :: (to, bt) :: rest) ks ->
  exists st' from' to', catq st from to = Ok (st', from', to') /\
    owns st' ((from', []) :: (to', bt ++ bf) :: rest) ks.
Proof.
  intros Ho. unfold catq.
  assert (owns st ((to, bt) :: (from, bf) :: rest) ks) as Ho' by (eapply owns_proper; [apply perm_swap|done|exact Ho]).
  destruct (owns_count _ _ _ _ _ Ho') as [-> He]. destruct (Z.eqb_spec (Z.of_nat (length bt)) 0).
  - assert (bt = []) as -> by (destruct bt; simpl in *; [done|lia]). rewrite (He eq_refl) in Ho'.
    exists st, (Clist 0 0 0), from. split; [done|exact Ho'].
  - apply catq_loop_owns; [done|]. destruct (owns_count _ _ _ _ _ Ho) as [-> _]. lia.
Qed.

(** ** Scanning a queue *)

(** The bytes met by following [nextc] from [cp] to [NULL]. *)
Fixpoint nextc_all (fuel : nat) (st : cstate) (q : clist) (cp : Z) : outcome (list Z) :=
  if cp =? 0 then Ok [] else
  match fuel with
  | O => Fault
  | S fuel' =>
      c ← load st cp 1;
      cp' ← nextc st q cp;
      cs ← nextc_all fuel' st q cp';
      Ok (c ++ cs)
  end.

Lemma nextc_all_seg fuel st q l s bs : chain (c_mem st) l 0 -> NoDup (ids l) -> qseg 1 l s (c_cl q) bs ->
  c_cc q <> 0 -> (length bs <= fuel)%nat -> nextc_all fuel st q (hd_addr l 0 + 4 + Z.of_nat s) = Ok bs.
Proof.
  revert l s bs. induction fuel as [|fuel IH]; intros l s bs Hc Hnd Hseg Hcc Hf; cbn [nextc_all].
  all: pose proof (qseg_nonempty _ _ _ _ _ (chain_blocks _ _ _ Hc) Hseg) as Hpos.
  1: lia.
  destruct l as [|[k info] l]; [by destruct Hseg as ([|? ?]&?&?&?&?&_)|].
  pose proof (chain_blocks _ _ _ Hc) as Hb. pose proof Hc as (Hk&(Hk0&Hkm&Hkl&Hkb)&Hc'). simpl in Hk0, Hkm, Hkl, Hkb.
  assert (s < 28)%nat as Hs by by destruct Hseg as (?&?&?&?&_&_&_&?&_).
  destruct (qseg_consume _ _ _ _ _ _ 1 Hb Hseg) as [Ht Hcases]; [lia..|].
  cbn [hd_addr]. destruct (Z.eqb_spec (k + 4 + Z.of_nat s) 0); [lia|]. rewrite <- Z.add_assoc.
  assert (load st (k + (4 + Z.of_nat s)) 1 = Ok (take 1 bs)) as ->.
  { unfold load, get_block. rewrite blk_of_in, off_of_in, Hk by lia. cbn [mbind outcome_bind c_info].
    replace ((4 <=? 4 + Z.of_nat s) && (0 <=? 1) && (4 + Z.of_nat s + 1 <=? CBLOCK)) with true
      by (symmetry; unfold CBLOCK; rewrite !andb_true_iff, !Z.leb_le; lia).
    replace (Z.to_nat (4 + Z.of_nat s - 4)) with s by lia. by rewrite Ht. }
  cbn [mbind outcome_bind]. unfold nextc. destruct (Z.eqb_spec (c_cc q) 0); [lia|]. cbn [negb andb].
  pose proof Hseg as (l0&kl&il&e&El&Hcl&He&_&Hg&Hbs).
  assert (kl mod 32 = 0 /\ length il = 28%nat /\ 0 < kl) as (Hklm&Hill&Hkl0).
  { rewrite El in Hb. apply Forall_app in Hb as [_ [(?&?&?&_) _]%Forall_cons]. done. }
  destruct Hcases as [[Hlen ->]|[(Hend&Hlt&Hl&Hseg')|(Hend&Hlt&Hseg')]].
  - destruct l0 as [|? [|? ?]]; simplify_eq/=. rewrite length_drop, length_take in Hlen.
    replace (kl + (4 + Z.of_nat s) + 1) with (c_cl q) by lia. rewrite Z.eqb_refl. cbn [negb mbind outcome_bind].
    destruct fuel; cbn; (rewrite take_ge by (rewrite length_drop, length_take; lia)); by rewrite app_nil_r.
  - assert (k <> kl) as Hne.
    { intros <-. destruct l0 as [|[k0 i0] l0]; simplify_eq/=. apply NoDup_cons in Hnd as [Hni _]. apply Hni. rewrite ids_app. set_solver. }
    destruct (Z.eqb_spec (k + (4 + Z.of_nat s) + 1) (c_cl q)) as [Eq|_].
    { exfalso. apply Z.mod_divide in Hkm as [d ->], Hklm as [d' ->]; lia. }
    cbn [negb]. replace (k + (4 + Z.of_nat s) + 1) with (k + 32) by lia. rewrite off_of_end by done. cbn [Z.eqb].
    unfold get_block, CBLOCK. rewrite Z.add_simpl_r, Hk. cbn [mbind outcome_bind c_next].
    replace (hd_addr l 0 + 4) with (hd_addr l 0 + 4 + Z.of_nat 0) by lia.
    rewrite (IH l 0%nat (drop 1 bs)); [cbn [mbind outcome_bind]; by rewrite take_drop|done|by apply NoDup_cons in Hnd as [_ ?]|done|done|].
    rewrite length_drop. lia.
  - destruct (Z.eqb_spec (k + (4 + Z.of_nat s) + 1) (c_cl q)) as [Eq|_].
    { exfalso. assert (k = kl) as ->. { apply Z.mod_divide in Hkm as [d ->], Hklm as [d' ->]; lia. }
      destruct l0 as [|[k0 i0] l0]; simplify_eq/=.
      - rewrite length_drop, length_take in Hlt. lia.
      - apply NoDup_cons in Hnd as [Hni _]. apply Hni. rewrite ids_app. set_solver. }
    cbn [negb]. replace (k + (4 + Z.of_nat s) + 1) with (k + (4 + Z.of_nat s + 1)) by lia. rewrite off_of_in by lia.
    destruct (Z.eqb_spec (4 + Z.of_nat s + 1) 0); [lia|]. cbn [mbind outcome_bind].
    replace (k + (4 + Z.of_nat s + 1)) with (hd_addr ((k, info) :: l) 0 + 4 + Z.of_nat (s + 1)) by (simpl; lia).
    rewrite (IH ((k, info) :: l) (s + 1)%nat (drop 1 bs)); [cbn [mbind outcome_bind]; by rewrite take_drop|done..|].
    rewrite length_drop. lia.
Qed.

Lemma scan_flag_spec flag bs : 0 <= scan_flag flag bs <= Z.of_nat (length bs) /\
  Forall (fun c => Z.land c flag = 0) (take (Z.to_nat (scan_flag flag bs)) bs) /\
  forall c, bs !! Z.to_nat (scan_flag flag bs) = Some c -> Z.land c flag <> 0.
Proof.
  induction bs as [|c bs (H1&H2&H3)]; simpl; [by split_and?|]. destruct (Z.eqb_spec (Z.land c flag) 0); cbn [negb].
  - replace (Z.to_nat (1 + scan_flag flag bs)) with (S (Z.to_nat (scan_flag flag bs))) by lia. simpl.
    split_and?; try lia; [by constructor|done].
  - split_and?; try lia; [constructor|]. simpl. by intros ? [= <-].
Qed.

(** Reading a queue in place is faithful: the walk with [nextc] from
    [c_cf] meets every byte of the queue once, in order, and ends at [NULL];
    and [ndqb] counts bytes that lie in one block starting at [c_cf], up to
    the block's end or the first byte with a bit of [flag], and counts at
    least one when the queue has one and no flag is asked for. *)
Theorem clist_scan (st : cstate) (q : clist) (bs : list Z) rest ks (flag : Z) :
  owns st ((q, bs) :: rest) ks ->
  nextc_all (length bs) st q (c_cf q) = Ok bs /\
  exists n, ndqb st q flag = Ok (Z.of_nat n) /\ (n <= length bs)%nat /\
    (0 < n -> load st (c_cf q) (Z.of_nat n) = Ok (take n bs))%nat /\
    (flag = 0 -> bs <> [] -> (0 < n)%nat) /\
    (flag <> 0 -> Forall (fun c => Z.land c flag = 0) (take n bs)).
Proof.
  intros Ho. destruct (owns_head _ _ _ _ _ Ho) as (s&l&fl&H&_). destruct (here_empty _ _ _ _ _ _ H) as (Hcc&He&Hoff).
  destruct (decide (bs = [])) as [->|Hbs].
  { destruct (He eq_refl) as [-> _]. split; [done|]. exists 0%nat. split_and?; try done; lia. }
  destruct (Hoff Hbs) as [Ho4 Hs]. assert (0 < length bs)%nat as Hpos by (destruct bs; simpl; [done|lia]).
  pose proof (here_opened _ _ _ _ _ _ H Hbs) as (Hc&Hseg&_&Hnd). split.
  { rewrite (here_cf _ _ _ _ _ _ H Hbs). apply nextc_all_seg; try done; try lia. by apply NoDup_app in Hnd as (?&_). }
  set (cc := Nat.min (28 - s) (length bs)).
  destruct (front_ok _ _ _ _ _ _ cc H) as [Hld _]; [lia..|].
  unfold ndqb. rewrite Hcc. destruct (Z.leb_spec (Z.of_nat (length bs)) 0); [lia|].
  assert (Z.land (c_cf q + CBSIZE) (Z.lnot CROUND) - c_cf q = 28 - Z.of_nat s) as ->.
  { change (Z.land (c_cf q + CBSIZE) (Z.lnot CROUND)) with (blk_of (c_cf q + 28)). rewrite (here_cf _ _ _ _ _ _ H Hbs).
    replace (hd_addr l 0 + 4 + Z.of_nat s + 28) with (hd_addr l 0 + 32 + Z.of_nat s) by lia.
    destruct l as [|[k info] l]; [by destruct Hseg as ([|? ?]&?&?&?&?&_)|]. simpl. destruct Hc as (_&(_&Hkm&_)&_). simpl in Hkm.
    rewrite blk_of_in; [lia| |lia]. by rewrite <- Zplus_mod_idemp_l, Hkm. }
  assert ((if Z.of_nat (length bs) <? 28 - Z.of_nat s then Z.of_nat (length bs) else 28 - Z.of_nat s) = Z.of_nat cc) as ->
    by (destruct (Z.ltb_spec (Z.of_nat (length bs)) (28 - Z.of_nat s)); lia).
  destruct (Z.eqb_spec flag 0) as [->|Hfl].
  { exists cc. split_and?; try done; [lia|intros _; lia]. }
  rewrite Hld. cbn [mbind outcome_bind]. destruct (scan_flag_spec flag (take cc bs)) as (Hr&Hz&_). rewrite length_take in Hr.
  exists (Z.to_nat (scan_flag flag (take cc bs))). rewrite Z2Nat.id by lia.
  rewrite take_take, Nat.min_l in Hz by lia. split_and?; try done; [lia|].
  intros Hn. destruct (front_ok _ _ _ _ _ _ (Z.to_nat (scan_flag flag (take cc bs))) H) as [Hl2 _]; [lia..|].
  by rewrite Z2Nat.id in Hl2 by lia.
Qed.

(** ** [cinit] *)

Lemma cinit_loop_owns n cp st fl :
  free_rep st fl -> NoDup (ids fl) -> cp mod 32 = 0 -> 0 < cp -> Forall (fun k => k < cp) (ids fl) ->
  (forall i, 0 <= i < Z.of_nat n -> exists b, c_mem st !! (cp + 32 * i) = Some b /\ block_ok (cp + 32 * i, c_info b)) ->
  exists st' fl', cinit_loop n cp st = Ok st' /\ free_rep st' fl' /\ NoDup (ids fl') /\
    length fl' = (n + length fl)%nat.
Proof.
  revert cp st fl. induction n as [|n IH]; intros cp st fl Hf Hnd Hm Hp Hlt Hb; cbn [cinit_loop].
  { by exists st, fl. }
  destruct (Hb 0) as ([nx info]&Hk&Hok); [lia|]. rewrite Z.mul_0_r, Z.add_0_r in Hk, Hok. simpl in Hok.
  assert (cp ∉ ids fl) as Hni. { intros Hi. rewrite Forall_forall in Hlt. specialize (Hlt _ Hi). lia. }
  destruct (free_block_rep st cp info nx fl Hk Hok Hni Hf) as (st1&E&Hf1&Hm1). rewrite E. cbn [mbind outcome_bind].
  destruct (IH (cp + CBLOCK) st1 ((cp, info) :: fl)) as (st'&fl'&E'&Hf'&Hnd'&Hl'); try done.
  - simpl. by apply NoDup_cons.
  - unfold CBLOCK. by rewrite <- Zplus_mod_idemp_l, Hm.
  - unfold CBLOCK. lia.
  - simpl. constructor; [unfold CBLOCK; lia|]. eapply Forall_impl; [exact Hlt|]. unfold CBLOCK. simpl. intros. lia.
  - intros i Hi. unfold CBLOCK. replace (cp + 32 + 32 * i) with (cp + 32 * (i + 1)) by lia.
    destruct (Hb (i + 1)) as (b&Hb1&Hb2); [lia|]. exists b. rewrite Hm1, lookup_insert_ne by lia. done.
  - exists st', fl'. split_and?; try done. simpl in Hl'. lia.
Qed.

(** [cinit] makes the pool: every whole block of the array [cfree] that
    starts on a block boundary is freed exactly once and no memory outside
    the array is touched, also when the array itself is not aligned (one
    block is then lost); any number of queues can start empty on it. *)
Theorem cinit_pool (cfree : Z) (n nq : nat) (st : cstate) :
  0 < cfree -> (0 < n)%nat -> cfreelist st = 0 -> cfreecount st = 0 ->
  (forall k, k mod 32 = 0 -> cfree <= k <= cfree + 32 * (Z.of_nat n - 1) ->
     exists b, c_mem st !! k = Some b /\ block_ok (k, c_info b)) ->
  exists st' ks, cinit cfree n st = Ok st' /\ owns st' (replicate nq (Clist 0 0 0, [])) ks /\
    length ks = (if decide (cfree mod 32 = 0)%Z then n else n - 1)%nat /\
    cfreecount st' = 28 * Z.of_nat (length ks).
Proof.
  intros Hp Hn Hfl Hfc Hb. unfold cinit.
  assert (Z.land (cfree + CROUND) (Z.lnot CROUND) = cfree + (- cfree) mod 32) as ->.
  { change (Z.land (cfree + CROUND) (Z.lnot CROUND)) with (blk_of (cfree + 31)). rewrite blk_of_mod.
    pose proof (Z.div_mod (cfree + 31) 32 ltac:(lia)). pose proof (Z.mod_pos_bound (cfree + 31) 32 eq_refl).
    rewrite <- (Z.mod_unique_pos (- cfree) 32 (- ((cfree + 31) / 32)) (31 - (cfree + 31) mod 32)) by lia. lia. }
  set (r := (- cfree) mod 32). pose proof (Z.mod_pos_bound (- cfree) 32 eq_refl) as Hr. fold r in Hr.
  assert ((cfree + r) mod 32 = 0) as Hal.
  { unfold r. rewrite Zplus_mod_idemp_r. by rewrite Z.add_opp_diag_r. }
  assert (Z.to_nat ((cfree + CBLOCK * (Z.of_nat n - 1) - (cfree + r)) / CBLOCK + 1) =
          if decide (cfree mod 32 = 0) then n else (n - 1)%nat) as ->.
  { unfold CBLOCK. replace (cfree + 32 * (Z.of_nat n - 1) - (cfree + r)) with (- r + (Z.of_nat n - 1) * 32) by lia.
    rewrite Z.div_add by lia. case_decide as E.
    - assert (r = 0) as -> by (unfold r; apply Z.mod_divide in E as [d ->]; [|lia]; by rewrite <- Z.mul_opp_l, Z.mod_mul).
      change (- 0 / 32) with 0. lia.
    - assert (r <> 0) by (intros E0; apply E; unfold r in E0; apply Z.mod_divide in E0 as [d E0]; [|lia];
        replace cfree with ((- d) * 32) by lia; by apply Z.mod_mul).
      rewrite <- (Z.div_unique_pos (- r) 32 (-1) (32 - r)) by lia. lia. }
  set (m := if decide (cfree mod 32 = 0) then n else (n - 1)%nat).
  assert (cfree mod 32 = 0 -> r = 0) as Hr0.
  { intros E. unfold r. apply Z.mod_divide in E as [d ->]; [|lia]. by rewrite <- Z.mul_opp_l, Z.mod_mul. }
  destruct (cinit_loop_owns m (cfree + r) st []) as (st'&fl&E&Hf&Hnd&Hlen); [done|constructor|done|lia|constructor| |].
  - intros i Hi. apply Hb; [by rewrite (Z.mul_comm 32), Z.mod_add by lia|].
    unfold m in Hi. destruct (decide (cfree mod 32 = 0)) as [E0|]; [specialize (Hr0 E0)|]; lia.
  - exists st', (ids fl). split; [done|]. split.
    { exists (replicate nq []), fl. split_and?; try done.
      - apply Forall2_replicate. exists 0%nat. split; [done|by left].
      - assert (concat (map ids (replicate nq [])) = []) as ->; [|done]. clear. by induction nq. }
    unfold ids. rewrite length_map. simpl in Hlen. destruct Hf as (_&_&Hc). split; [lia|done].
Qed.

(** ** A pool of three blocks *)

Definition blank : cblock := Cblock 0 (replicate 28 0).
Definition mem3 : gmap Z cblock := <[64:=blank]> (<[96:=blank]> (<[128:=blank]> ∅)).
Definition pool3 : cstate :=
  match cinit 64 3 (Cstate mem3 0 0 false 0 []) with Ok st => st | _ => Cstate ∅ 0 0 false 0 [] end.

Lemma mem3_ok k : k mod 32 = 0 -> 64 <= k <= 64 + 32 * (Z.of_nat 3 - 1) ->
  exists b, mem3 !! k = Some b /\ block_ok (k, c_info b).
Proof.
  intros Hk Hr. apply Z.mod_divide in Hk as [d ->]; [|lia].
  assert (d = 2 \/ d = 3 \/ d = 4) as [-> |[-> | ->]] by lia;
    (exists blank; split; [reflexivity|]; unfold block_ok; cbn; split_and?; [lia|done|done|repeat constructor; lia]).
Qed.

Lemma cinit_pool_witness : exists ks, owns pool3 [(Clist 0 0 0, []); (Clist 0 0 0, [])] ks.
Proof.
  destruct (cinit_pool 64 3 2 (Cstate mem3 0 0 false 0 [])) as (st'&ks&E&Ho&_); [lia|lia|done|done|exact mem3_ok|].
  exists ks. unfold pool3. rewrite E. exact Ho.
Defined.

Lemma pool3_owns : exists ks, owns pool3 [(Clist 0 0 0, []); (Clist 0 0 0, [])] ks.
Proof.
  destruct (cinit_loop_owns 3 64 (Cstate mem3 0 0 false 0 []) []) as (st'&fl&E&Hf&Hnd&_); [done|constructor|done|lia|constructor| |].
  - intros i Hi. apply mem3_ok; [by rewrite (Z.mul_comm 32), Z.mod_add by lia|lia].
  - exists (ids fl). unfold pool3. change (cinit 64 3 _) with (cinit_loop 3 64 (Cstate mem3 0 0 false 0 [])). rewrite E.
    exists [[]; []], fl. split_and?; try done. repeat constructor; exists 0%nat; (split; [done|by left]).
Qed.

Lemma clist_refines_queue_witness : exists st' q' ks,
  clist_call (OpBToQ (replicate 90 7)) pool3 (Clist 0 0 0) = Ok (6, [], st', q') /\
  owns st' [(q', replicate 84 7); (Clist 0 0 0, [])] ks.
Proof.
  destruct pool3_owns as [ks Ho].
  destruct (clist_refines_queue (OpBToQ (replicate 90 7)) pool3 (Clist 0 0 0) [] [(Clist 0 0 0, [])] ks Ho) as (st'&q'&E&Ho').
  { apply Forall_replicate. lia. }
  exists st', q', ks. split; [exact E|exact Ho'].
Defined.

(** Two nonempty queues on a full pool. *)
Lemma full_pool : exists st q1 q2 ks, owns st [(q1, replicate 50 1); (q2, replicate 20 2)] ks /\ cfreecount st = 0.
Proof.
  destruct pool3_owns as [ks Ho].
  destruct (b_to_q_owns pool3 (Clist 0 0 0) [] [(Clist 0 0 0, [])] ks (replicate 50 1) 50 Ho) as (st1&q1&E1&Ho1);
    [done|apply Forall_replicate; lia|].
  assert (owns st1 [(Clist 0 0 0, []); (q1, replicate 50 1)] ks) as Ho1' by (eapply owns_proper; [apply perm_swap|done|exact Ho1]).
  vm_compute in E1. injection E1 as Es Eq.
  destruct (b_to_q_owns st1 (Clist 0 0 0) [] [(q1, replicate 50 1)] ks (replicate 20 2) 20 Ho1') as (st2&q2&E2&Ho2);
    [done|apply Forall_replicate; lia|].
  replace (Z.to_nat (Z.min 20 (room st1 (Clist 0 0 0)))) with 20%nat in Ho2 by (rewrite <- Es; reflexivity).
  exists st2, q1, q2, ks. split; [eapply owns_proper; [apply perm_swap|done|exact Ho2]|].
  rewrite <- Es in E2. vm_compute in E2. injection E2 as Es2 _. by rewrite <- Es2.
Qed.

Lemma catq_lossless_witness : exists st q1 q2 st' q1' q2', cfreecount st = 0 /\ catq st q1 q2 = Ok (st', q1', q2') /\
  c_cc q2' = 70.
Proof.
  destruct full_pool as (st&q1&q2&ks&Ho&Hc).
  destruct (catq_lossless st q1 q2 _ _ _ ks Ho) as (st'&q1'&q2'&E&Ho').
  exists st, q1, q2, st', q1', q2'. split; [done|]. split; [done|].
  assert (owns st' [(q2', replicate 20 2 ++ replicate 50 1); (q1', [])] ks) as Ho2 by (eapply owns_proper; [apply perm_swap|done|exact Ho']).
  by destruct (owns_count _ _ _ _ _ Ho2) as [-> _].
Defined.

Lemma clist_scan_witness : exists st q1, nextc_all 50 st q1 (c_cf q1) = Ok (replicate 50 1).
Proof.
  destruct full_pool as (st&q1&q2&ks&Ho&_). destruct (clist_scan st q1 _ _ ks 0 Ho) as [E _].
  exists st, q1. exact E.
Defined.
