(* ===== verification/Descrip.v ===== *)
(** * File descriptors ([sys/kern/kern_descrip.c] and its callers)

    A process has a table of descriptors, each empty or the index of an
    entry of the system file table, per-descriptor flags and the high-water
    mark [u_lastfile]. The operations are system calls on the u area: they
    leave an error in [u_error] and a result in [u_rval]. What a file's type
    does ([Fops], the advisory locks, [pfind], and [vn_open_at] for
    [copen]) is the interface [FileOps], over a state [W] of its own. The
    parts of [fork], [exit], [exec] and [pipe] that handle descriptors are
    modelled with them. Array accesses are checked: [Fault] is an access
    outside the table. Counts are integers: at most [NPROC * NOFILE]
    references exist, far below the range of [f_count]. *)
From S2P Require Import Prelude.

Definition NOFILE : Z := 30.
Definition NFILE : nat := 24.

Definition EBADF : Z := 9.
Definition ESRCH : Z := 3.
Definition EACCES : Z := 13.
Definition ENODEV : Z := 19.
Definition ENXIO : Z := 6.
Definition EINVAL : Z := 22.
Definition ENFILE : Z := 23.
Definition EMFILE : Z := 24.
Definition EOPNOTSUPP : Z := 45.

Definition FREAD : Z := 0x1.
Definition FWRITE : Z := 0x2.
Definition FNONBLOCK : Z := 0x4.
Definition FAPPEND : Z := 0x8.
Definition FSHLOCK : Z := 0x10.
Definition FEXLOCK : Z := 0x20.
Definition FASYNC : Z := 0x40.
Definition FFSYNC : Z := 0x80.
Definition O_SEARCH : Z := 0x40000.
Definition O_ACCMODE : Z := 0x3.
Definition FMASK : Z := Z.lor FREAD (Z.lor FWRITE (Z.lor FAPPEND (Z.lor FASYNC (Z.lor FFSYNC (Z.lor FNONBLOCK O_SEARCH))))).
Definition FCNTLFLAGS : Z := Z.lor FAPPEND (Z.lor FASYNC (Z.lor FFSYNC FNONBLOCK)).
Definition UF_EXCLOSE : Z := 1.
Definition DTYPE_INODE : Z := 1.
Definition DTYPE_PIPE : Z := 3.
Definition LOCK_SH : Z := 0x1.
Definition LOCK_EX : Z := 0x2.
Definition LOCK_NB : Z := 0x4.
Definition LOCK_UN : Z := 0x8.
Definition SHRT_MAX : Z := 32767.

Definition FFLAGS (oflags : Z) : Z :=
  if negb (Z.land oflags O_SEARCH =? 0) then Z.ldiff oflags O_ACCMODE else oflags + 1.
Definition OFLAGS (fflags : Z) : Z :=
  if negb (Z.land fflags O_SEARCH =? 0) then fflags else fflags - 1.

Record file := File { f_flag : Z; f_type : Z; f_count : Z; f_data : Z; f_offset : Z }.

(** The descriptor part of a u area. *)
Record ufd := Ufd {
  u_ofile : list (option nat);
  u_pofile : list Z;
  u_lastfile : Z;
  u_error : Z;
  u_rval : Z;
  u_dupfd : Z
}.

(** ** What descriptors call *)

(** Requests of [fo_ioctl] made here. *)
Inductive ioctl_cmd := FIONBIO | FIOASYNC | TIOCGPGRP | TIOCSPGRP.

Class FileOps (W : Type) := {
  fo_close : W -> nat -> file -> Z * W;
  (* error, value written back, and the state *)
  fo_ioctl : W -> nat -> file -> ioctl_cmd -> Z -> Z * Z * W;
  (* [ino_lock]: error and flags; [ino_unlock]: flags *)
  ino_lock : W -> nat -> file -> Z -> Z * Z * W;
  ino_unlock : W -> nat -> file -> Z -> Z * W;
  (* [pfind(pid)->p_pgrp] *)
  pfind_pgrp : W -> Z -> option Z;
  (* [vn_open_at]: error, inode, and [u_dupfd] as a device open left it *)
  vn_open_at : W -> Z -> Z -> Z -> Z * Z * Z * W
}.

Section descriptors.
Context {W : Type} `{!FileOps W}.

Record fds := Fds { ftab : list file; lastf : option nat; world : W; uu : ufd }.

Definition set_uu (st : fds) (v : ufd) : fds := Fds (ftab st) (lastf st) (world st) v.
Definition set_ftab (st : fds) (t : list file) : fds := Fds t (lastf st) (world st) (uu st).
Definition set_world (st : fds) (w : W) : fds := Fds (ftab st) (lastf st) w (uu st).
Definition set_error (st : fds) (e : Z) : fds :=
  let v := uu st in set_uu st (Ufd (u_ofile v) (u_pofile v) (u_lastfile v) e (u_rval v) (u_dupfd v)).
Definition set_rval (st : fds) (r : Z) : fds :=
  let v := uu st in set_uu st (Ufd (u_ofile v) (u_pofile v) (u_lastfile v) (u_error v) r (u_dupfd v)).
Definition set_dupfd (st : fds) (d : Z) : fds :=
  let v := uu st in set_uu st (Ufd (u_ofile v) (u_pofile v) (u_lastfile v) (u_error v) (u_rval v) d).
Definition set_lastfile (st : fds) (n : Z) : fds :=
  let v := uu st in set_uu st (Ufd (u_ofile v) (u_pofile v) n (u_error v) (u_rval v) (u_dupfd v)).
Definition set_ofile (st : fds) (l : list (option nat)) : fds :=
  let v := uu st in set_uu st (Ufd l (u_pofile v) (u_lastfile v) (u_error v) (u_rval v) (u_dupfd v)).
Definition set_pofile (st : fds) (l : list Z) : fds :=
  let v := uu st in set_uu st (Ufd (u_ofile v) l (u_lastfile v) (u_error v) (u_rval v) (u_dupfd v)).

Definition set_flag (f : file) (fl : Z) : file := File fl (f_type f) (f_count f) (f_data f) (f_offset f).
Definition set_count (f : file) (n : Z) : file := File (f_flag f) (f_type f) n (f_data f) (f_offset f).

Definition put_file (st : fds) (fp : nat) (f : file) : outcome fds :=
  t ← wr (ftab st) fp f; Ok (set_ftab st t).

(** ** Descriptors *)

(** The loop of [ufalloc] from [i], [n] slots before the end. *)
Fixpoint ufalloc_from (n : nat) (i : Z) (st : fds) : outcome (Z * fds) :=
  match n with
  | O => Ok (-1, set_error st EMFILE)
  | S n' =>
      s ← rdz (u_ofile (uu st)) i;
      match s with
      | None =>
          let st := set_rval st i in
          po ← wrz (u_pofile (uu st)) i 0;
          let st := set_pofile st po in
          let st := if u_lastfile (uu st) <? i then set_lastfile st i else st in
          Ok (i, st)
      | Some _ => ufalloc_from n' (i + 1) st
      end
  end.

Definition ufalloc (i : Z) (st : fds) : outcome (Z * fds) := ufalloc_from (Z.to_nat (NOFILE - i)) i st.

Definition getdtablesize (st : fds) : fds := set_rval st NOFILE.

Definition dupit (fd : Z) (fp : nat) (flags : Z) (st : fds) : outcome fds :=
  o ← wrz (u_ofile (uu st)) fd (Some fp);
  let st := set_ofile st o in
  p ← wrz (u_pofile (uu st)) fd flags;
  let st := set_pofile st p in
  f ← rd (ftab st) fp;
  st ← put_file st fp (set_count f (f_count f + 1));
  Ok (if u_lastfile (uu st) <? fd then set_lastfile st fd else st).

(** [getf], and the macro [GETF]. *)
Definition getf (f : Z) (st : fds) : outcome (option nat * fds) :=
  if (f <? 0) || (NOFILE <=? f) then Ok (None, set_error st EBADF)
  else
    s ← rdz (u_ofile (uu st)) f;
    match s with
    | None => Ok (None, set_error st EBADF)
    | Some fp => Ok (Some fp, st)
    end.

(** [closef] on a file; its error. *)
Definition closef (fp : nat) (st : fds) : outcome (Z * fds) :=
  f ← rd (ftab st) fp;
  if 1 <? f_count f then
    st ← put_file st fp (set_count f (f_count f - 1)); Ok (0, st)
  else
    let '(fl, w) :=
      if negb (Z.land (f_flag f) (Z.lor FSHLOCK FEXLOCK) =? 0) && (f_type f =? DTYPE_INODE)
      then ino_unlock (world st) fp f (Z.lor FSHLOCK FEXLOCK) else (f_flag f, world st) in
    let f := set_flag f fl in
    let '(error, w) := fo_close w fp f in
    st ← put_file (set_world st w) fp (set_count f 0);
    Ok (error, st).

Definition closef_opt (fp : option nat) (st : fds) : outcome (Z * fds) :=
  match fp with None => Ok (0, st) | Some fp => closef fp st end.

Definition dup2 (i j : Z) (st : fds) : outcome fds :=
  r ← getf i st;
  let '(o, st) := r in
  match o with
  | None => Ok st
  | Some fp =>
      if (j <? 0) || (NOFILE <=? j) then Ok (set_error st EBADF)
      else
        let st := set_rval st j in
        if i =? j then Ok st
        else
          s ← rdz (u_ofile (uu st)) j;
          r ← closef_opt s st;
          let st := snd r in
          po ← rdz (u_pofile (uu st)) i;
          dupit j fp (Z.ldiff po UF_EXCLOSE) st
  end.

(** The second argument word is passed as [j] for the old [dup2] form. *)
Definition dup (i j : Z) (st : fds) : outcome fds :=
  if negb (Z.ldiff i 63 =? 0) then dup2 (Z.land i 63) j st
  else
    r ← getf i st;
    let '(o, st) := r in
    match o with
    | None => Ok st
    | Some fp =>
        r ← ufalloc 0 st;
        let '(n, st) := r in
        if n <? 0 then Ok st
        else
          po ← rdz (u_pofile (uu st)) i;
          dupit n fp (Z.ldiff po UF_EXCLOSE) st
    end.

(** ** [fcntl] *)

Definition fioctl (fp : nat) (cmd : ioctl_cmd) (value : Z) (st : fds) : outcome (Z * Z * fds) :=
  f ← rd (ftab st) fp;
  let '(e, v, w) := fo_ioctl (world st) fp f cmd value in
  Ok (e, v, set_world st w).

Definition fset (fp : nat) (bit value : Z) (st : fds) : outcome (Z * fds) :=
  r ← fioctl fp (if bit =? FNONBLOCK then FIONBIO else FIOASYNC) value st;
  let '(error, value, st) := r in
  if negb (error =? 0) then Ok (error, st)
  else
    f ← rd (ftab st) fp;
    st ← put_file st fp (set_flag f (if negb (value =? 0) then Z.lor (f_flag f) bit else Z.ldiff (f_flag f) bit));
    Ok (0, st).

Definition PGRP_VALID (value : Z) : bool := (0 <=? value) && (value <=? SHRT_MAX).

(** The error and, without one, the owner. *)
Definition fgetown (fp : nat) (st : fds) : outcome (Z * option Z * fds) :=
  r ← fioctl fp TIOCGPGRP (-1) st;
  let '(error, value, st) := r in
  if negb (error =? 0) then Ok (error, None, st)
  else if negb (PGRP_VALID value) then Ok (EINVAL, None, st)
  else Ok (0, Some (- value), st).

Definition fsetown (fp : nat) (value : Z) (st : fds) : outcome (Z * fds) :=
  let set (value : Z) :=
    if negb (PGRP_VALID value) then Ok (EINVAL, st)
    else r ← fioctl fp TIOCSPGRP value st; Ok (fst (fst r), snd r) in
  if 0 <? value then
    match pfind_pgrp (world st) value with
    | None => Ok (ESRCH, st)
    | Some pgrp => set pgrp
    end
  else if value <? - SHRT_MAX then Ok (EINVAL, st) else set (- value).

Inductive fcntl_cmd := F_DUPFD | F_GETFD | F_SETFD | F_GETFL | F_SETFL | F_GETOWN | F_SETOWN | F_OTHER.

Definition fcntl (fdes : Z) (cmd : fcntl_cmd) (arg : Z) (st : fds) : outcome fds :=
  r ← getf fdes st;
  let '(o, st) := r in
  match o with
  | None => Ok st
  | Some fp =>
      pop ← rdz (u_pofile (uu st)) fdes;
      match cmd with
      | F_DUPFD =>
          if (arg <? 0) || (NOFILE <=? arg) then Ok (set_error st EINVAL)
          else
            r ← ufalloc arg st;
            let '(i, st) := r in
            if i <? 0 then Ok st
            else
              pop ← rdz (u_pofile (uu st)) fdes;
              dupit i fp (Z.ldiff pop UF_EXCLOSE) st
      | F_GETFD => Ok (set_rval st (Z.land pop 1))
      | F_SETFD => p ← wrz (u_pofile (uu st)) fdes (Z.lor (Z.ldiff pop 1) (Z.land arg 1)); Ok (set_pofile st p)
      | F_GETFL => f ← rd (ftab st) fp; Ok (set_rval st (OFLAGS (f_flag f)))
      | F_SETFL =>
          f ← rd (ftab st) fp;
          let old_flags := f_flag f in
          let new_flags := Z.lor (Z.ldiff old_flags FCNTLFLAGS) (Z.land (FFLAGS arg) FCNTLFLAGS) in
          r ← fset fp FNONBLOCK (Z.land new_flags FNONBLOCK) st;
          let st := set_error (snd r) (fst r) in
          if negb (fst r =? 0) then Ok st
          else
            r ← fset fp FASYNC (Z.land new_flags FASYNC) st;
            let st := set_error (snd r) (fst r) in
            if negb (fst r =? 0) then
              r ← fset fp FNONBLOCK (Z.land old_flags FNONBLOCK) st; Ok (snd r)
            else
              f ← rd (ftab st) fp; put_file st fp (set_flag f new_flags)
      | F_GETOWN =>
          r ← fgetown fp st;
          let '(e, v, st) := r in
          Ok (set_error (match v with Some v => set_rval st v | None => st end) e)
      | F_SETOWN => r ← fsetown fp arg st; Ok (set_error (snd r) (fst r))
      | F_OTHER => Ok (set_error st EINVAL)
      end
  end.

(** ** Closing and opening *)

(** [while (u_lastfile >= 0 && u_ofile[u_lastfile] == NULL) u_lastfile--;] *)
Fixpoint trim_lastfile (n : nat) (st : fds) : outcome fds :=
  if u_lastfile (uu st) <? 0 then Ok st else
  s ← rdz (u_ofile (uu st)) (u_lastfile (uu st));
  match s, n with
  | Some _, _ => Ok st
  | None, S n' => trim_lastfile n' (set_lastfile st (u_lastfile (uu st) - 1))
  | None, O => Fault
  end.

Definition trim (st : fds) : outcome fds := trim_lastfile (Z.to_nat (u_lastfile (uu st) + 1)) st.

Definition close (i : Z) (st : fds) : outcome fds :=
  r ← getf i st;
  let '(o, st) := r in
  match o with
  | None => Ok st
  | Some fp =>
      l ← wrz (u_ofile (uu st)) i None;
      st ← trim (set_ofile st l);
      r ← closef fp st;
      Ok (set_error (snd r) (fst r))
  end.

(** The search for a free slot in [fp, fp + n). *)
Fixpoint find_slot (n fp : nat) (t : list file) : outcome (option nat) :=
  match n with
  | O => Ok None
  | S n' => f ← rd t fp; if f_count f =? 0 then Ok (Some fp) else find_slot n' (S fp) t
  end.

Definition falloc (st : fds) : outcome (option nat * fds) :=
  r ← ufalloc 0 st;
  let '(i, st) := r in
  if i <? 0 then Ok (None, st)
  else
    let last := match lastf st with Some l => l | None => 0%nat end in
    let st := Fds (ftab st) (Some last) (world st) (uu st) in
    s ← find_slot (NFILE - last) last (ftab st);
    s ← (match s with Some fp => Ok (Some fp) | None => find_slot last 0 (ftab st) end);
    match s with
    | None => Ok (None, set_error st ENFILE)
    | Some fp =>
        o ← wrz (u_ofile (uu st)) i (Some fp);
        let st := set_ofile st o in
        f ← rd (ftab st) fp;
        st ← put_file st fp (File (f_flag f) (f_type f) 1 0 0);
        Ok (Some fp, Fds (ftab st) (Some (S fp)) (world st) (uu st))
    end.

Definition flock (fd how : Z) (st : fds) : outcome fds :=
  r ← getf fd st;
  let '(o, st) := r in
  match o with
  | None => Ok st
  | Some fp =>
      f ← rd (ftab st) fp;
      if negb (f_type f =? DTYPE_INODE) then Ok (set_error st EOPNOTSUPP)
      else if negb (Z.land how LOCK_UN =? 0) then
        let '(fl, w) := ino_unlock (world st) fp f (Z.lor FSHLOCK FEXLOCK) in
        put_file (set_world st w) fp (set_flag f fl)
      else if Z.land how (Z.lor LOCK_SH LOCK_EX) =? 0 then Ok st
      else
        let how := if negb (Z.land how LOCK_EX =? 0) then Z.ldiff how LOCK_SH else how in
        if negb (Z.land (f_flag f) FEXLOCK =? 0) && negb (Z.land how LOCK_EX =? 0) then Ok st
        else if negb (Z.land (f_flag f) FSHLOCK =? 0) && negb (Z.land how LOCK_SH =? 0) then Ok st
        else
          let '(e, fl, w) := ino_lock (world st) fp f how in
          st ← put_file (set_world st w) fp (set_flag f fl);
          Ok (set_error st e)
  end.

(** [fdopen]: the descriptor is the minor device number. *)
Definition fdopen (minor : Z) (st : fds) : Z * fds := (ENODEV, set_dupfd st minor).

Definition dupfdopen (indx dfd mode error : Z) (st : fds) : outcome (Z * fds) :=
  fp ← rdz (u_ofile (uu st)) indx;
  if NOFILE <=? dfd then Ok (EBADF, st)
  else
    w ← rdz (u_ofile (uu st)) dfd;
    match w with
    | None => Ok (EBADF, st)
    | Some wfp =>
        if bool_decide (fp = Some wfp) then Ok (EBADF, st)
        else if error =? ENODEV then
          f ← rd (ftab st) wfp;
          if negb (Z.lor (Z.land mode (Z.lor FREAD FWRITE)) (f_flag f) =? f_flag f) then Ok (EACCES, st)
          else
            o ← wrz (u_ofile (uu st)) indx (Some wfp);
            let st := set_ofile st o in
            pd ← rdz (u_pofile (uu st)) dfd;
            p ← wrz (u_pofile (uu st)) indx pd;
            let st := set_pofile st p in
            st ← put_file st wfp (set_count f (f_count f + 1));
            Ok (0, if u_lastfile (uu st) <? indx then set_lastfile st indx else st)
        else Ok (error, st)
    end.

(** [copen], less the name-space lock: the descriptor is allocated first and
    given back when the open fails. The test
    [(error = dupfdopen(...) == 0)] assigns the truth value. *)
Definition copen (mode cmode : Z) (st : fds) : outcome (Z * fds) :=
  if negb (Z.land mode O_SEARCH =? 0) &&
     (negb (Z.land mode O_ACCMODE =? 0) || negb (Z.land mode 0xE00 =? 0)) then Ok (EINVAL, st)
  else
    r ← falloc st;
    let '(o, st) := r in
    match o with
    | None => Ok (u_error (uu st), st)
    | Some fp =>
        let flags := FFLAGS mode in
        f ← rd (ftab st) fp;
        st ← put_file st fp (File (Z.land flags FMASK) DTYPE_INODE (f_count f) (f_data f) (f_offset f));
        let indx := u_rval (uu st) in
        let st := set_dupfd st (- indx - 1) in
        let '(error, ip, dfd, w) := vn_open_at (world st) flags (Z.ldiff (Z.land cmode 0x7fff) 0x200) (u_dupfd (uu st)) in
        let st := set_dupfd (set_world st w) dfd in
        if negb (error =? 0) then
          f ← rd (ftab st) fp;
          st ← put_file st fp (set_count f 0);
          if ((error =? ENODEV) || (error =? ENXIO)) && (0 <=? u_dupfd (uu st)) then
            r ← dupfdopen indx (u_dupfd (uu st)) flags error st;
            let '(e, st) := r in
            let error := if e =? 0 then 1 else 0 in
            if negb (error =? 0) then Ok (0, set_rval st indx)
            else o ← wrz (u_ofile (uu st)) indx None; Ok (error, set_ofile st o)
          else o ← wrz (u_ofile (uu st)) indx None; Ok (error, set_ofile st o)
        else
          let st := set_dupfd st 0 in
          f ← rd (ftab st) fp;
          st ← put_file st fp (File (f_flag f) (f_type f) (f_count f) ip (f_offset f));
          if negb (Z.land flags (Z.lor FEXLOCK FSHLOCK) =? 0) then
            let type := if negb (Z.land flags FEXLOCK =? 0) then LOCK_EX else LOCK_SH in
            let type := if negb (Z.land flags FNONBLOCK =? 0) then Z.lor type LOCK_NB else type in
            f ← rd (ftab st) fp;
            let '(e, fl, w) := ino_lock (world st) fp f type in
            st ← put_file (set_world st w) fp (set_flag f fl);
            if negb (e =? 0) then
              r ← closef fp st;
              let st := snd r in
              o ← wrz (u_ofile (uu st)) indx None;
              Ok (e, set_ofile st o)
            else Ok (0, st)
          else Ok (0, st)
    end.

(** [pipe], from the inode [ip] it allocated: whether the inode is kept,
    the write end's descriptor (register r1) and the state. *)
Definition pipe (ip : Z) (st : fds) : outcome (bool * option Z * fds) :=
  r ← falloc st;
  let '(o, st) := r in
  match o with
  | None => Ok (false, None, st)
  | Some rf =>
      let r := u_rval (uu st) in
      q ← falloc st;
      let '(o, st) := q in
      match o with
      | None =>
          f ← rd (ftab st) rf;
          st ← put_file st rf (set_count f 0);
          o ← wrz (u_ofile (uu st)) r None;
          Ok (false, None, set_ofile st o)
      | Some wf =>
          let r1 := u_rval (uu st) in
          let st := set_rval st r in
          f ← rd (ftab st) wf;
          st ← put_file st wf (File FWRITE DTYPE_PIPE (f_count f) ip (f_offset f));
          f ← rd (ftab st) rf;
          st ← put_file st rf (File FREAD DTYPE_PIPE (f_count f) ip (f_offset f));
          Ok (true, Some r1, st)
      end
  end.

(** ** Descriptors of a process: [fork], [exec], [exit] *)

(** The loop of [newproc] that counts the child's references. *)
Fixpoint fork_files (n : nat) (i : Z) (st : fds) : outcome fds :=
  match n with
  | O => Ok st
  | S n' =>
      s ← rdz (u_ofile (uu st)) i;
      match s with
      | None => fork_files n' (i + 1) st
      | Some fp =>
          f ← rd (ftab st) fp;
          st ← put_file st fp (set_count f (f_count f + 1));
          fork_files n' (i + 1) st
      end
  end.

Definition newproc_files (st : fds) : outcome fds := fork_files (Z.to_nat (u_lastfile (uu st) + 1)) 0 st.

(** The loop of [exit]. *)
Fixpoint exit_loop (n : nat) (i : Z) (st : fds) : outcome fds :=
  match n with
  | O => Ok st
  | S n' =>
      s ← rdz (u_ofile (uu st)) i;
      o ← wrz (u_ofile (uu st)) i None;
      p ← wrz (u_pofile (uu st)) i 0;
      r ← closef_opt s (set_pofile (set_ofile st o) p);
      exit_loop n' (i + 1) (snd r)
  end.

Definition exit_files (st : fds) : outcome fds := exit_loop (Z.to_nat (u_lastfile (uu st) + 1)) 0 st.

(** The loop of [exec_clear] over close-on-exec descriptors. *)
Fixpoint exec_loop (n : nat) (i : Z) (st : fds) : outcome fds :=
  match n with
  | O => Ok st
  | S n' =>
      cp ← rdz (u_pofile (uu st)) i;
      if negb (Z.land cp UF_EXCLOSE =? 0) then
        s ← rdz (u_ofile (uu st)) i;
        r ← closef_opt s st;
        let st := snd r in
        o ← wrz (u_ofile (uu st)) i None;
        p ← wrz (u_pofile (uu st)) i 0;
        exec_loop n' (i + 1) (set_pofile (set_ofile st o) p)
      else exec_loop n' (i + 1) st
  end.

Definition exec_files (st : fds) : outcome fds :=
  st ← exec_loop (Z.to_nat (u_lastfile (uu st) + 1)) 0 st; trim st.

End descriptors.

(** ** Reference counts *)

(** How often a table refers to file [f]. *)
Definition refs (f : nat) (l : list (option nat)) : Z := Z.of_nat (length (filter (fun o => o = Some f) l)).

Definition delta (o : option nat) (f : nat) : Z := if decide (o = Some f) then 1 else 0.

Lemma delta_none f : delta None f = 0.
Proof. done. Qed.

Lemma refs_nonneg f l : 0 <= refs f l.
Proof. unfold refs. lia. Qed.

Lemma refs_insert f l i o o' : l !! i = Some o -> refs f (<[i:=o']> l) = refs f l - delta o f + delta o' f.
Proof.
  intros Hi. rewrite insert_take_drop by (by eapply lookup_lt_Some). rewrite <- (take_drop_middle l i o Hi) at 3.
  unfold refs, delta. rewrite !filter_app, !filter_cons, !length_app.
  destruct (decide (o = Some f)), (decide (o' = Some f)); simpl; lia.
Qed.

Lemma refs_pos f l i : l !! i = Some (Some f) -> 1 <= refs f l.
Proof.
  intros Hi. pose proof (refs_insert f l i (Some f) None Hi) as H. pose proof (refs_nonneg f (<[i:=None]> l)).
  unfold delta in H. rewrite decide_True, decide_False in H by done. lia.
Qed.

(** Counts are the references of the table plus those of [ext]. *)
Definition counts (ext : nat -> Z) (t : list file) (l : list (option nat)) : Prop :=
  forall f x, t !! f = Some x -> f_count x = refs f l + ext f.

(** A table of the right shape, empty above its high-water mark. *)
Definition tab_ok (v : ufd) : Prop :=
  length (u_ofile v) = 30%nat /\ length (u_pofile v) = 30%nat /\ -1 <= u_lastfile v < 30 /\
  forall i f, u_ofile v !! i = Some (Some f) -> Z.of_nat i <= u_lastfile v /\ (f < NFILE)%nat.

Section refcounts.
Context {W : Type} `{!FileOps W}.
Implicit Types (st : fds (W := W)) (ext : nat -> Z).

Definition fd_inv ext st : Prop :=
  tab_ok (uu st) /\ length (ftab st) = NFILE /\
  match lastf st with Some l => (l <= NFILE)%nat | None => True end /\
  counts ext (ftab st) (u_ofile (uu st)).

Lemma fd_inv_ext ext ext' st : (forall f, ext f = ext' f) -> fd_inv ext st -> fd_inv ext' st.
Proof. intros He (H1&H2&H3&H4). do 3 (split; [done|]). intros f x Hf. rewrite <- He. by apply H4. Qed.

Lemma fd_inv_table ext st st' : ftab st' = ftab st -> lastf st' = lastf st -> u_ofile (uu st') = u_ofile (uu st) ->
  length (u_pofile (uu st')) = length (u_pofile (uu st)) -> u_lastfile (uu st) <= u_lastfile (uu st') < 30 ->
  fd_inv ext st -> fd_inv ext st'.
Proof.
  intros E1 E2 E3 E4 E5 ((L1&L2&L3&L4)&H2&H3&H4). unfold fd_inv. rewrite E1, E2, E3. split_and?; try done.
  unfold tab_ok. rewrite E3, E4. split_and?; try done; try lia. intros i f Hi. destruct (L4 i f Hi). lia.
Qed.

Lemma rdz_in {A} (l : list A) i n : length l = n -> 0 <= i < Z.of_nat n -> exists x, rdz l i = Ok x /\ l !! Z.to_nat i = Some x.
Proof.
  intros <- Hi. destruct (lookup_lt_is_Some_2 l (Z.to_nat i)) as [x Hx]; [lia|]. exists x. split; [|done].
  unfold rdz. destruct (Z.ltb_spec i 0); [lia|]. by apply rd_ok.
Qed.

Lemma wrz_in {A} (l : list A) i n x : length l = n -> 0 <= i < Z.of_nat n -> wrz l i x = Ok (<[Z.to_nat i:=x]> l).
Proof. intros <- Hi. unfold wrz. destruct (Z.ltb_spec i 0); [lia|]. apply wr_ok. lia. Qed.

(** Changing one entry of the file table. *)
Lemma put_file_inv ext ext' st fp x x' : ftab st !! fp = Some x ->
  (forall f, ext' f = ext f + (if decide (f = fp) then f_count x' - f_count x else 0)) ->
  fd_inv ext st -> exists st', put_file st fp x' = Ok st' /\ fd_inv ext' st' /\ uu st' = uu st /\
    ftab st' = <[fp:=x']> (ftab st) /\ lastf st' = lastf st /\ world st' = world st.
Proof.
  intros Hx He (H1&H2&H3&H4). unfold put_file. rewrite wr_ok by (by eapply lookup_lt_Some). cbn [mbind outcome_bind].
  eexists. split; [done|]. split; [|done]. split; [done|]. cbn [ftab lastf uu set_ftab]. rewrite length_insert.
  split; [done|]. split; [done|]. intros f y Hf. rewrite He. destruct (decide (f = fp)) as [->|Hne].
  - rewrite list_lookup_insert_eq in Hf by (by eapply lookup_lt_Some). injection Hf as <-. specialize (H4 _ _ Hx). lia.
  - rewrite list_lookup_insert_ne in Hf by done. rewrite (H4 _ _ Hf). lia.
Qed.

(** Changing one slot of the table of descriptors. *)
Lemma slot_inv ext st i o o' : u_ofile (uu st) !! Z.to_nat i = Some o -> 0 <= i ->
  (forall f, o' = Some f -> (f < NFILE)%nat /\ i <= u_lastfile (uu st)) ->
  fd_inv ext st -> wrz (u_ofile (uu st)) i o' = Ok (<[Z.to_nat i:=o']> (u_ofile (uu st))) /\
    fd_inv (fun f => ext f + delta o f - delta o' f) (set_ofile st (<[Z.to_nat i:=o']> (u_ofile (uu st)))).
Proof.
  intros Ho Hi Hf ((L1&L2&L3&L4)&H2&H3&H4).
  pose proof (lookup_lt_Some _ _ _ Ho) as Hlt. split; [apply (wrz_in _ _ 30); [done|lia]|].
  unfold fd_inv. split_and?; try done.
  - unfold tab_ok. cbn [set_ofile set_uu uu u_ofile u_pofile u_lastfile]. rewrite length_insert. split_and?; try done; try lia.
    intros j f Hj. destruct (decide (j = Z.to_nat i)) as [->|].
    + rewrite list_lookup_insert_eq in Hj by done. injection Hj as ->. destruct (Hf f eq_refl). lia.
    + rewrite list_lookup_insert_ne in Hj by done. by apply L4.
  - intros f x Hx. cbn [set_ofile set_uu uu u_ofile]. rewrite (refs_insert f _ _ _ o' Ho). rewrite (H4 _ _ Hx). lia.
Qed.

Lemma fd_inv_error ext st e : fd_inv ext st -> fd_inv ext (set_error st e).
Proof. intros H. pose proof H as ((?&?&?&?)&?). eapply fd_inv_table; [..|exact H]; try done. simpl. lia. Qed.

Lemma fd_inv_rval ext st e : fd_inv ext st -> fd_inv ext (set_rval st e).
Proof. intros H. pose proof H as ((?&?&?&?)&?). eapply fd_inv_table; [..|exact H]; try done. simpl. lia. Qed.

Lemma fd_inv_dupfd ext st e : fd_inv ext st -> fd_inv ext (set_dupfd st e).
Proof. intros H. pose proof H as ((?&?&?&?)&?). eapply fd_inv_table; [..|exact H]; try done. simpl. lia. Qed.

Lemma fd_inv_world ext st w : fd_inv ext st -> fd_inv ext (set_world st w).
Proof. intros H. pose proof H as ((?&?&?&?)&?). eapply fd_inv_table; [..|exact H]; try done. simpl. lia. Qed.

Lemma fd_inv_lastfile ext st i : u_lastfile (uu st) <= i < 30 -> fd_inv ext st -> fd_inv ext (set_lastfile st i).
Proof. intros Hi H. eapply fd_inv_table; [..|exact H]; try done. Qed.

Lemma fd_inv_pofile ext st i x : 0 <= i < 30 -> fd_inv ext st ->
  wrz (u_pofile (uu st)) i x = Ok (<[Z.to_nat i:=x]> (u_pofile (uu st))) /\
  fd_inv ext (set_pofile st (<[Z.to_nat i:=x]> (u_pofile (uu st)))).
Proof.
  intros Hi H. pose proof H as ((?&Hl&?&?)&?). split; [by apply (wrz_in _ _ 30)|].
  eapply fd_inv_table; [..|exact H]; try done; simpl; [by rewrite length_insert|lia].
Qed.

(** ** The operations keep the counts *)

(** [getf] finds an open descriptor or sets EBADF. *)
Lemma getf_spec ext st i : fd_inv ext st ->
  (exists fp, getf i st = Ok (Some fp, st) /\ 0 <= i < 30 /\ u_ofile (uu st) !! Z.to_nat i = Some (Some fp) /\
     exists x, ftab st !! fp = Some x) \/
  (getf i st = Ok (None, set_error st EBADF) /\ (0 <= i < 30 -> u_ofile (uu st) !! Z.to_nat i = Some None)).
Proof.
  intros ((L1&L2&L3&L4)&H2&_). unfold getf, NOFILE. destruct (Z.ltb_spec i 0); [right; split; [done|lia]|].
  destruct (Z.leb_spec 30 i); [right; split; [done|lia]|]. cbn [orb].
  destruct (rdz_in (u_ofile (uu st)) i 30 L1) as (o&->&Ho); [lia|]. cbn [mbind outcome_bind]. destruct o as [fp|]; [left|right; done].
  exists fp. split_and?; try done; try lia. destruct (L4 _ _ Ho). apply lookup_lt_is_Some_2. lia.
Qed.

Lemma ufalloc_from_spec ext n i st : fd_inv ext st -> 0 <= i -> i + Z.of_nat n = 30 ->
  (exists j st', ufalloc_from n i st = Ok (j, st') /\ fd_inv ext st' /\ i <= j < 30 /\ u_ofile (uu st) !! Z.to_nat j = Some None /\
     (forall k, i <= k < j -> u_ofile (uu st) !! Z.to_nat k <> Some None) /\
     u_ofile (uu st') = u_ofile (uu st) /\ u_rval (uu st') = j /\ j <= u_lastfile (uu st') /\
     ftab st' = ftab st /\ lastf st' = lastf st) \/
  (ufalloc_from n i st = Ok (-1, set_error st EMFILE) /\ forall k, i <= k < 30 -> u_ofile (uu st) !! Z.to_nat k <> Some None).
Proof.
  revert i. induction n as [|n IH]; intros i H Hi Hn; cbn [ufalloc_from].
  { right. split; [done|lia]. }
  pose proof H as ((L1&L2&L3&L4)&_). destruct (rdz_in (u_ofile (uu st)) i 30 L1) as (o&->&Ho); [lia|]. cbn [mbind outcome_bind].
  destruct o as [fp|].
  - destruct (IH (i + 1) H) as [(j&st'&E&H'&Hj&Hn'&Hlow&?&?&?&?&?)|[E Hall]]; [lia|lia| |].
    + left. exists j, st'. split_and?; try done; try lia. intros k Hk. destruct (decide (k = i)) as [->|]; [by rewrite Ho|]. apply Hlow. lia.
    + right. split; [done|]. intros k Hk. destruct (decide (k = i)) as [->|]; [by rewrite Ho|]. apply Hall. lia.
  - left. destruct (fd_inv_pofile ext (set_rval st i) i 0) as [-> H1]; [lia|by apply fd_inv_rval|]. cbn [mbind outcome_bind].
    set (st1 := set_pofile _ _) in *. change (u_lastfile (uu st1)) with (u_lastfile (uu st)).
    eexists i, _. split; [done|]. destruct (Z.ltb_spec (u_lastfile (uu st)) i).
    + split; [apply fd_inv_lastfile; [simpl; lia|done]|]. cbn. split_and?; try done; try lia.
    + split; [done|]. cbn. split_and?; try done; try lia.
Qed.

Lemma closef_spec ext st fp x : fd_inv ext st -> ftab st !! fp = Some x -> 1 <= f_count x ->
  exists e st', closef fp st = Ok (e, st') /\ fd_inv (fun f => ext f - delta (Some fp) f) st' /\ uu st' = uu st.
Proof.
  intros H Hx Hc. unfold closef. rewrite (rd_ok _ _ _ Hx). cbn [mbind outcome_bind].
  assert (forall f, (if decide (f = fp) then -1 else 0) = - delta (Some fp) f) as Hd.
  { intros f. unfold delta. destruct (decide (f = fp)) as [->|]; [by rewrite decide_True|by rewrite decide_False by congruence]. }
  destruct (Z.ltb_spec 1 (f_count x)).
  - destruct (put_file_inv ext (fun f => ext f - delta (Some fp) f) st fp x (set_count x (f_count x - 1)) Hx) as (st'&E&H'&Hu&_); [|done|].
    { intros f. cbn [f_count set_count]. specialize (Hd f). destruct (decide (f = fp)); lia. }
    rewrite E. cbn [mbind outcome_bind]. by exists 0, st'.
  - destruct (if _ : bool then ino_unlock _ _ _ _ else _) as [fl w]. destruct (fo_close w fp (set_flag x fl)) as [error w'].
    destruct (put_file_inv ext (fun f => ext f - delta (Some fp) f) (set_world st w') fp x (set_count (set_flag x fl) 0) Hx) as (st'&E&H'&Hu&_).
    { intros f. cbn [f_count set_count set_flag]. specialize (Hd f). destruct (decide (f = fp)); lia. }
    { by apply fd_inv_world. }
    rewrite E. cbn [mbind outcome_bind]. by exists error, st'.
Qed.

Lemma dupit_spec ext st fd fp flags o x : fd_inv ext st -> 0 <= fd < 30 -> u_ofile (uu st) !! Z.to_nat fd = Some o ->
  ftab st !! fp = Some x ->
  exists st', dupit fd fp flags st = Ok st' /\ fd_inv (fun f => ext f + delta o f) st' /\
    u_ofile (uu st') = <[Z.to_nat fd:=Some fp]> (u_ofile (uu st)) /\ u_rval (uu st') = u_rval (uu st) /\
    u_pofile (uu st') = <[Z.to_nat fd:=flags]> (u_pofile (uu st)) /\ u_error (uu st') = u_error (uu st).
Proof.
  intros H Hfd Ho Hx. pose proof H as ((L1&L2&L3&L4)&Hlen&_&_).
  assert (fp < NFILE)%nat as Hfp by (rewrite <- Hlen; by eapply lookup_lt_Some).
  set (st0 := if u_lastfile (uu st) <? fd then set_lastfile st fd else st).
  assert (fd_inv ext st0 /\ fd <= u_lastfile (uu st0)) as [H0 Hl0].
  { unfold st0. destruct (Z.ltb_spec (u_lastfile (uu st)) fd); [split; [apply fd_inv_lastfile; [lia|done]|simpl; lia]|split; [done|lia]]. }
  destruct (slot_inv ext st0 fd o (Some fp)) as [_ H1]; [by unfold st0; destruct (_ <? _)|lia|by intros f [= <-]|done|].
  destruct (fd_inv_pofile _ _ fd flags Hfd H1) as [_ H2].
  unfold dupit. rewrite (wrz_in _ _ 30) by (done || lia). cbn [mbind outcome_bind].
  cbn [set_ofile set_uu uu u_pofile]. rewrite (wrz_in (u_pofile (uu st)) _ 30) by (done || lia). cbn [mbind outcome_bind].
  cbn [set_pofile set_uu set_ofile ftab]. rewrite (rd_ok _ _ _ Hx). cbn [mbind outcome_bind].
  unfold put_file. cbn [ftab]. rewrite wr_ok by (by eapply lookup_lt_Some). cbn [mbind outcome_bind set_ftab uu u_lastfile].
  match type of H2 with fd_inv _ ?s => set (st2 := s) in H2 end.
  assert (ftab st2 !! fp = Some x) as Hx2 by (unfold st2, st0; destruct (_ <? _); exact Hx).
  destruct (put_file_inv (fun f => ext f + delta o f - delta (Some fp) f) (fun f => ext f + delta o f) st2 fp x (set_count x (f_count x + 1)) Hx2) with (2 := H2) as (st'&E&H'&Hu&_).
  { intros f. cbn [f_count set_count]. unfold delta. destruct (decide (f = fp)) as [->|].
    - rewrite (decide_True (P := Some fp = Some fp)) by done. lia.
    - rewrite (decide_False (P := Some fp = Some f)) by congruence. lia. }
  match goal with |- context [if ?a <? fd then _ else _] => change a with (u_lastfile (uu st)) end.
  revert E H'. unfold put_file, st2, st0. destruct (Z.ltb_spec (u_lastfile (uu st)) fd); cbn [ftab set_pofile set_ofile set_uu set_lastfile];
    rewrite wr_ok by (by eapply lookup_lt_Some); cbn [mbind outcome_bind]; intros [= <-] H'; eexists; (split; [done|]);
    (split; [exact H'|]); done.
Qed.

Definition keeps (op : fds -> outcome fds) : Prop :=
  forall ext st, (forall f, 0 <= ext f) -> fd_inv ext st -> exists st', op st = Ok st' /\ fd_inv ext st'.

Lemma open_counted ext st i fp : (forall f, 0 <= ext f) -> fd_inv ext st -> u_ofile (uu st) !! i = Some (Some fp) ->
  exists x, ftab st !! fp = Some x /\ 1 <= f_count x.
Proof.
  intros He ((_&_&_&L4)&H2&_&H4) Hi. destruct (L4 _ _ Hi) as [_ Hf]. destruct (lookup_lt_is_Some_2 (ftab st) fp) as [x Hx]; [lia|].
  exists x. split; [done|]. rewrite (H4 _ _ Hx). pose proof (refs_pos _ _ _ Hi). specialize (He fp). lia.
Qed.

Lemma dup2_keeps i j : keeps (dup2 i j).
Proof.
  intros ext st He H. unfold dup2.
  destruct (getf_spec ext st i H) as [(fp&->&Hi&Ho&x&Hx)|[-> _]]; cbn [mbind outcome_bind];
    [|eexists; split; [done|by apply fd_inv_error]].
  unfold NOFILE. destruct (Z.ltb_spec j 0); [eexists; split; [done|by apply fd_inv_error]|].
  destruct (Z.leb_spec 30 j); [eexists; split; [done|by apply fd_inv_error]|]. cbn [orb].
  destruct (Z.eqb_spec i j); [eexists; split; [done|by apply fd_inv_rval]|].
  pose proof (fd_inv_rval ext st j H) as Hst0. set (st0 := set_rval st j) in *.
  pose proof Hst0 as ((L1&L2&L3&L4)&Hlen&_).
  destruct (rdz_in (u_ofile (uu st0)) j 30 L1) as (o&->&Hoj); [lia|]. cbn [mbind outcome_bind].
  assert (exists e st1, closef_opt o st0 = Ok (e, st1) /\ fd_inv (fun f => ext f - delta o f) st1 /\ uu st1 = uu st0) as (e&st1&->&Hst1&Hu).
  { destruct o as [g|]; cbn [closef_opt].
    - destruct (open_counted _ _ _ _ He Hst0 Hoj) as (y&Hy&Hc). by apply (closef_spec ext st0 g y).
    - exists 0, st0. split; [done|]. split; [|done]. eapply fd_inv_ext; [|exact Hst0]. intros f. cbv beta. rewrite delta_none. lia. }
  cbn [mbind outcome_bind snd]. rewrite Hu. destruct (rdz_in (u_pofile (uu st0)) i 30 L2) as (po&->&_); [lia|]. cbn [mbind outcome_bind].
  destruct (lookup_lt_is_Some_2 (ftab st1) fp) as [x1 Hx1].
  { destruct Hst1 as (_&->&_). destruct H as ((_&_&_&L)&_). by apply (L _ _ Ho). }
  destruct (dupit_spec _ st1 j fp (Z.ldiff po UF_EXCLOSE) o x1 Hst1) as (st'&E&H'&_); [lia|by rewrite Hu|done|].
  exists st'. split; [done|]. eapply fd_inv_ext; [|exact H']. intros f. simpl. lia.
Qed.

(** Allocating a slot from [i] and duplicating [fp] into it. *)
Lemma ufalloc_dupit_keeps i fd fp ext st x : fd_inv ext st -> 0 <= i < 30 -> 0 <= fd < 30 -> ftab st !! fp = Some x ->
  exists st', (r ← ufalloc i st; let '(n, st) := r in if n <? 0 then Ok st else
    po ← rdz (u_pofile (uu st)) fd; dupit n fp (Z.ldiff po UF_EXCLOSE) st) = Ok st' /\ fd_inv ext st'.
Proof.
  intros H Hi Hfd Hx. unfold ufalloc, NOFILE.
  destruct (ufalloc_from_spec ext (Z.to_nat (30 - i)) i st H) as [(j&st1&->&H1&Hj&Hn&_&Hu&_&_&Ht&_)|[-> _]]; [lia|lia|..];
    cbn [mbind outcome_bind Z.ltb]; [|eexists; split; [done|by apply fd_inv_error]].
  destruct (Z.ltb_spec j 0); [lia|]. pose proof H1 as ((L1&L2&L3&L4)&Hlen&_).
  destruct (rdz_in (u_pofile (uu st1)) fd 30 L2) as (po&->&_); [lia|]. cbn [mbind outcome_bind].
  destruct (dupit_spec ext st1 j fp (Z.ldiff po UF_EXCLOSE) None x H1) as (st'&E&H'&_); [lia|by rewrite Hu|by rewrite Ht|].
  exists st'. split; [done|]. eapply fd_inv_ext; [|exact H']. intros f. cbv beta. rewrite delta_none. lia.
Qed.

Lemma dup_keeps i j : keeps (dup i j).
Proof.
  intros ext st He H. unfold dup. destruct (negb _); [by apply dup2_keeps|].
  destruct (getf_spec ext st i H) as [(fp&->&Hi&Ho&x&Hx)|[-> _]]; cbn [mbind outcome_bind];
    [|eexists; split; [done|by apply fd_inv_error]].
  eapply ufalloc_dupit_keeps; [done|lia|done|exact Hx].
Qed.

(** Changing only the flags of a file. *)
Lemma put_flag_keeps ext st fp x x' : fd_inv ext st -> ftab st !! fp = Some x -> f_count x' = f_count x ->
  exists st', put_file st fp x' = Ok st' /\ fd_inv ext st' /\ ftab st' = <[fp:=x']> (ftab st) /\ uu st' = uu st.
Proof.
  intros H Hx Hc. destruct (put_file_inv ext ext st fp x x' Hx) as (st'&?&?&?&?&_); [|done|by exists st'].
  intros f. destruct (decide (f = fp)); lia.
Qed.

Lemma fset_keeps fp bit value ext st x : fd_inv ext st -> ftab st !! fp = Some x ->
  exists e st' x', fset fp bit value st = Ok (e, st') /\ fd_inv ext st' /\ ftab st' !! fp = Some x'.
Proof.
  intros H Hx. unfold fset, fioctl. rewrite (rd_ok _ _ _ Hx). cbn [mbind outcome_bind].
  destruct (fo_ioctl _ _ _ _ _) as [[e v] w]. cbn [mbind outcome_bind]. pose proof (fd_inv_world ext st w H) as H1.
  destruct (negb (e =? 0)); [by eexists _, _, x; split|].
  cbn [ftab set_world]. rewrite (rd_ok _ _ _ Hx). cbn [mbind outcome_bind].
  match goal with |- context [put_file _ _ ?y] => destruct (put_flag_keeps ext (set_world st w) fp x y H1 Hx eq_refl) as (st'&->&H'&Ht&_) end.
  cbn [mbind outcome_bind]. eexists _, _, _. split; [done|]. split; [done|]. rewrite Ht. apply list_lookup_insert_eq. by eapply lookup_lt_Some.
Qed.

Lemma fcntl_keeps fdes cmd arg : keeps (fcntl fdes cmd arg).
Proof.
  intros ext st He H. unfold fcntl.
  destruct (getf_spec ext st fdes H) as [(fp&->&Hi&Ho&x&Hx)|[-> _]]; cbn [mbind outcome_bind];
    [|eexists; split; [done|by apply fd_inv_error]].
  pose proof H as ((L1&L2&L3&L4)&Hlen&_).
  destruct (rdz_in (u_pofile (uu st)) fdes 30 L2) as (pop&->&_); [lia|]. cbn [mbind outcome_bind].
  destruct cmd.
  - unfold NOFILE. destruct (Z.ltb_spec arg 0); [eexists; split; [done|by apply fd_inv_error]|].
    destruct (Z.leb_spec 30 arg); [eexists; split; [done|by apply fd_inv_error]|]. cbn [orb].
    eapply ufalloc_dupit_keeps; [done|lia|done|exact Hx].
  - eexists. split; [done|by apply fd_inv_rval].
  - destruct (fd_inv_pofile ext st fdes (Z.lor (Z.ldiff pop 1) (Z.land arg 1)) Hi H) as [-> H']. by eexists.
  - rewrite (rd_ok _ _ _ Hx). eexists. split; [done|by apply fd_inv_rval].
  - rewrite (rd_ok _ _ _ Hx). cbn [mbind outcome_bind]. set (nf := Z.lor _ _).
    destruct (fset_keeps fp FNONBLOCK (Z.land nf FNONBLOCK) ext st x H Hx) as (e1&st1&x1&->&H1&Hx1). cbn [mbind outcome_bind fst snd].
    destruct (negb (e1 =? 0)); [eexists; split; [done|by apply fd_inv_error]|].
    destruct (fset_keeps fp FASYNC (Z.land nf FASYNC) ext (set_error st1 e1) x1) as (e2&st2&x2&->&H2&Hx2); [by apply fd_inv_error|done|].
    cbn [mbind outcome_bind fst snd]. destruct (negb (e2 =? 0)).
    + destruct (fset_keeps fp FNONBLOCK (Z.land (f_flag x) FNONBLOCK) ext (set_error st2 e2) x2) as (e3&st3&x3&->&H3&_); [by apply fd_inv_error|done|].
      by eexists.
    + cbn [ftab set_error set_uu]. rewrite (rd_ok _ _ _ Hx2). cbn [mbind outcome_bind].
      destruct (put_flag_keeps ext (set_error st2 e2) fp x2 (set_flag x2 nf)) as (st'&->&H'&_); [by apply fd_inv_error|done|done|]. by eexists.
  - unfold fgetown, fioctl. rewrite (rd_ok _ _ _ Hx). cbn [mbind outcome_bind]. destruct (fo_ioctl _ _ _ _ _) as [[e v] w].
    cbn [mbind outcome_bind]. pose proof (fd_inv_world ext st w H).
    destruct (negb (e =? 0)); [|destruct (negb (PGRP_VALID v))]; cbn [mbind outcome_bind];
      (eexists; split; [done|]); apply fd_inv_error; [done|done|by apply fd_inv_rval].
  - unfold fsetown, fioctl. rewrite (rd_ok _ _ _ Hx). cbn [mbind outcome_bind].
    assert (forall v, exists e st', (if negb (PGRP_VALID v) then Ok (EINVAL, st) else
      r ← (let '(e, v0, w) := fo_ioctl (world st) fp x TIOCSPGRP v in Ok (e, v0, set_world st w)); Ok (r.1.1, r.2)) = Ok (e, st') /\ fd_inv ext st') as Hset.
    { intros v. destruct (negb _); [by eexists _, _|]. destruct (fo_ioctl _ _ _ _ _) as [[e v'] w]. cbn [mbind outcome_bind fst snd].
      eexists _, _. split; [done|by apply fd_inv_world]. }
    destruct (0 <? arg); [destruct (pfind_pgrp _ _) as [g|]|destruct (arg <? - SHRT_MAX)]; cbn [mbind outcome_bind].
    1: destruct (Hset g) as (e&st'&->&H'). 4: destruct (Hset (- arg)) as (e&st'&->&H'). all: cbn [mbind outcome_bind].
    all: eexists; split; [done|by apply fd_inv_error].
  - eexists. split; [done|by apply fd_inv_error].
Qed.

(** *** Closing *)

Lemma trim_lastfile_keeps n ext st : fd_inv ext st -> u_lastfile (uu st) < Z.of_nat n ->
  exists m, trim_lastfile n st = Ok (set_lastfile st m) /\ fd_inv ext (set_lastfile st m).
Proof.
  revert st. induction n as [|n IH]; intros st H Hn; cbn [trim_lastfile];
    pose proof H as ((L1&L2&L3&L4)&Hr); destruct (Z.ltb_spec (u_lastfile (uu st)) 0).
  1, 3: exists (u_lastfile (uu st)); destruct st as [t l w [o p m e r d]]; done.
  { lia. }
  destruct (rdz_in (u_ofile (uu st)) (u_lastfile (uu st)) 30 L1) as (o&->&Ho); [lia|]. cbn [mbind outcome_bind].
  destruct o as [f|]; [exists (u_lastfile (uu st)); destruct st as [t l w [o p m e r d]]; done|].
  destruct (IH (set_lastfile st (u_lastfile (uu st) - 1))) as (m&E&H').
  - split; [|done]. unfold tab_ok. cbn. split_and?; try done; try lia. intros i f Hi. destruct (L4 i f Hi). split; [|done].
    destruct (decide (Z.of_nat i = u_lastfile (uu st))) as [He|]; [|lia]. rewrite <- He, Nat2Z.id in Ho. congruence.
  - simpl. lia.
  - exists m. rewrite E. destruct st as [t l w [o p q e r d]]. done.
Qed.

Lemma trim_keeps ext st : fd_inv ext st -> exists m, trim st = Ok (set_lastfile st m) /\ fd_inv ext (set_lastfile st m).
Proof. intros H. pose proof H as ((_&_&?&_)&_). apply trim_lastfile_keeps; [done|lia]. Qed.

Lemma close_keeps i : keeps (close i).
Proof.
  intros ext st He H. unfold close.
  destruct (getf_spec ext st i H) as [(fp&->&Hi&Ho&x&Hx)|[-> _]]; cbn [mbind outcome_bind];
    [|eexists; split; [done|by apply fd_inv_error]].
  destruct (slot_inv ext st i (Some fp) None Ho) as [-> H1]; [lia|done|done|]. cbn [mbind outcome_bind].
  destruct (trim_keeps _ _ H1) as (m&->&H2). cbn [mbind outcome_bind].
  destruct (open_counted _ _ _ _ He H Ho) as (y&Hy&Hc).
  destruct (closef_spec _ _ fp y H2) as (e&st'&->&H'&_); [done|done|]. cbn [mbind outcome_bind fst snd].
  eexists. split; [done|]. apply fd_inv_error. eapply fd_inv_ext; [|exact H']. intros f. cbv beta. rewrite delta_none. lia.
Qed.

(** *** Opening *)

Lemma find_slot_ok n fp t : (fp + n <= length t)%nat ->
  exists o, find_slot n fp t = Ok o /\
    match o with
    | Some g => exists x, t !! g = Some x /\ f_count x = 0 /\ (fp <= g < fp + n)%nat
    | None => forall g x, (fp <= g < fp + n)%nat -> t !! g = Some x -> f_count x <> 0
    end.
Proof.
  revert fp. induction n as [|n IH]; intros fp Hl; cbn [find_slot]; [exists None; split; [done|lia]|].
  destruct (lookup_lt_is_Some_2 t fp) as [x Hx]; [lia|]. rewrite (rd_ok _ _ _ Hx). cbn [mbind outcome_bind].
  destruct (Z.eqb_spec (f_count x) 0); [exists (Some fp); split; [done|]; exists x; split_and?; try done; lia|].
  destruct (IH (S fp)) as (o&->&Ho); [lia|]. exists o. split; [done|]. destruct o as [g|].
  - destruct Ho as (y&?&?&?). exists y. split_and?; try done; lia.
  - intros g y Hg Hy. destruct (decide (g = fp)) as [->|]; [congruence|]. apply (Ho g); [lia|done].
Qed.

Definition falloc_done ext st fp st' : Prop :=
  fd_inv ext st' /\ exists j x, u_rval (uu st') = j /\ 0 <= j < 30 /\ u_ofile (uu st) !! Z.to_nat j = Some None /\
    u_ofile (uu st') = <[Z.to_nat j:=Some fp]> (u_ofile (uu st)) /\ ftab st' !! fp = Some x /\ f_count x = 1 /\
    (forall k, 0 <= k < j -> u_ofile (uu st) !! Z.to_nat k <> Some None).

Lemma falloc_spec ext st : (forall f, 0 <= ext f) -> fd_inv ext st ->
  (exists fp st', falloc st = Ok (Some fp, st') /\ falloc_done ext st fp st') \/
  (exists st', falloc st = Ok (None, st') /\ fd_inv ext st' /\ u_ofile (uu st') = u_ofile (uu st) /\ ftab st' = ftab st /\
     ((u_error (uu st') = EMFILE /\ forall k, 0 <= k < 30 -> u_ofile (uu st) !! Z.to_nat k <> Some None) \/
      (u_error (uu st') = ENFILE /\ forall g x, ftab st !! g = Some x -> f_count x <> 0))).
Proof.
  intros He H. unfold falloc, ufalloc, NOFILE.
  destruct (ufalloc_from_spec ext (Z.to_nat (30 - 0)) 0 st H) as [(j&st1&->&H1&Hj&Hn&Hlow&Hu&Hr&Hlast&Ht&Hl)|[-> Hall]]; [lia|lia|..];
    cbn [mbind outcome_bind Z.ltb].
  2: { right. eexists. split; [done|]. split; [by apply fd_inv_error|]. split; [done|]. split; [done|]. by left. }
  destruct (Z.ltb_spec j 0); [lia|]. pose proof H1 as (Htab&Hlen&Hlf&Hcnt).
  set (last := match lastf st1 with Some l => l | None => 0%nat end).
  assert (last <= NFILE)%nat as Hlast' by (unfold last; destruct (lastf st1); [done|unfold NFILE; lia]).
  cbn [ftab uu world]. destruct (find_slot_ok (NFILE - last) last (ftab st1)) as (o1&->&Ho1); [lia|]. cbn [mbind outcome_bind].
  assert (exists o, (match o1 with Some fp => Ok (Some fp) | None => find_slot last 0 (ftab st1) end) = Ok o /\
    match o with Some g => exists x, ftab st1 !! g = Some x /\ f_count x = 0 | None => forall g x, ftab st1 !! g = Some x -> f_count x <> 0 end)
    as (o&->&Ho).
  { destruct o1 as [g|]; [destruct Ho1 as (x&?&?&?); exists (Some g); split; [done|by exists x]|].
    destruct (find_slot_ok last 0 (ftab st1)) as (o&->&Ho2); [lia|]. exists o. split; [done|]. destruct o as [g|].
    - destruct Ho2 as (x&?&?&_). by exists x.
    - intros g x Hg. pose proof (lookup_lt_Some _ _ _ Hg). destruct (decide (g < last)%nat); [apply (Ho2 g); [lia|done]|apply (Ho1 g); [lia|done]]. }
  cbn [mbind outcome_bind]. set (st2 := Fds (ftab st1) (Some last) (world st1) (uu st1)).
  assert (fd_inv ext st2) as H2 by done. destruct o as [fp|].
  - left. destruct Ho as (x&Hx&Hx0).
    assert (fp < NFILE)%nat as Hfp by (rewrite <- Hlen; by eapply lookup_lt_Some).
    destruct (slot_inv ext st2 j None (Some fp)) as [Ew H3]; [by cbn; rewrite Hu|lia|by intros f [= <-]|done|].
    change (uu st2) with (uu st1) in Ew. rewrite Ew. cbn [mbind outcome_bind].
    match goal with |- context [rd ?t fp] => rewrite (rd_ok t fp x Hx) end. cbn [mbind outcome_bind].
    match type of H3 with fd_inv ?e ?s => set (st3 := s) in H3;
      destruct (put_file_inv e ext st3 fp x (File (f_flag x) (f_type x) 1 0 0) Hx) with (2 := H3) as (st'&E&H'&Hu'&Ht'&Hl'&_) end.
    { intros f. cbn [f_count]. rewrite Hx0. unfold delta. destruct (decide (f = fp)) as [->|].
      - rewrite decide_False, decide_True by done. lia.
      - rewrite !decide_False by congruence. lia. }
    match type of E with put_file ?a _ _ = _ => match goal with |- context [put_file ?b _ _] => change b with a end end.
    rewrite E. cbn [mbind outcome_bind].
    eexists fp, _. split; [done|]. split.
    + destruct H' as (?&?&?&?). split; [done|]. split; [done|]. split; [cbn; lia|done].
    + cbn [uu ftab]. exists j, (File (f_flag x) (f_type x) 1 0 0). rewrite Hu', Ht'. unfold st3, st2. cbn [set_ofile set_uu uu u_rval u_ofile ftab]. rewrite Hu.
      split_and?; try done; try lia. rewrite list_lookup_insert_eq; [done|]. by eapply lookup_lt_Some.
  - right. eexists. split; [done|]. split; [by apply fd_inv_error|]. cbn. rewrite Hu, Ht in *. split; [done|]. split; [done|]. by right.
Qed.

Lemma flock_keeps fd how : keeps (flock fd how).
Proof.
  intros ext st He H. unfold flock.
  destruct (getf_spec ext st fd H) as [(fp&->&Hi&Ho&x&Hx)|[-> _]]; cbn [mbind outcome_bind];
    [|eexists; split; [done|by apply fd_inv_error]].
  rewrite (rd_ok _ _ _ Hx). cbn [mbind outcome_bind].
  destruct (negb (f_type x =? DTYPE_INODE)); [eexists; split; [done|by apply fd_inv_error]|].
  destruct (negb (Z.land how LOCK_UN =? 0)).
  { destruct (ino_unlock _ _ _ _) as [fl w].
    destruct (put_flag_keeps ext (set_world st w) fp x (set_flag x fl)) as (st'&->&H'&_); [by apply fd_inv_world|done..|]. by eexists. }
  destruct (Z.land how (Z.lor LOCK_SH LOCK_EX) =? 0); [by eexists|]. set (how' := if negb (Z.land how LOCK_EX =? 0) then Z.ldiff how LOCK_SH else how).
  destruct (negb (Z.land (f_flag x) FEXLOCK =? 0) && _); [by eexists|].
  destruct (negb (Z.land (f_flag x) FSHLOCK =? 0) && _); [by eexists|]. destruct (ino_lock _ _ _ _) as [[e fl] w].
  destruct (put_flag_keeps ext (set_world st w) fp x (set_flag x fl)) as (st'&->&H'&_); [by apply fd_inv_world|done..|].
  cbn [mbind outcome_bind]. eexists. split; [done|by apply fd_inv_error].
Qed.

Lemma dupfdopen_spec ext st indx dfd mode error o : fd_inv ext st -> 0 <= indx < 30 -> 0 <= dfd ->
  u_ofile (uu st) !! Z.to_nat indx = Some o -> error <> 0 ->
  exists e st', dupfdopen indx dfd mode error st = Ok (e, st') /\
    ((e <> 0 /\ st' = st) \/ (e = 0 /\ fd_inv (fun f => ext f + delta o f) st')).
Proof.
  intros H Hi Hd Ho Her. pose proof H as ((L1&L2&L3&L4)&Hlen&_). unfold dupfdopen, NOFILE.
  destruct (rdz_in (u_ofile (uu st)) indx 30 L1 Hi) as (o'&->&Ho'). rewrite Ho in Ho'. injection Ho' as <-. cbn [mbind outcome_bind].
  destruct (Z.leb_spec 30 dfd); [eexists _, st; split; [done|by left]|].
  destruct (rdz_in (u_ofile (uu st)) dfd 30 L1) as (w&->&Hw); [lia|]. cbn [mbind outcome_bind].
  destruct w as [wfp|]; [|eexists _, st; split; [done|by left]].
  destruct (bool_decide _); [eexists _, st; split; [done|by left]|].
  destruct (Z.eqb_spec error ENODEV); [|eexists _, st; split; [done|by left]].
  destruct (L4 _ _ Hw) as [Hwl Hwf]. destruct (lookup_lt_is_Some_2 (ftab st) wfp) as [x Hx]; [lia|]. rewrite (rd_ok _ _ _ Hx). cbn [mbind outcome_bind].
  destruct (negb _); [eexists _, st; split; [done|by left]|].
  destruct (rdz_in (u_pofile (uu st)) dfd 30 L2) as (pd&Epd&_); [lia|].
  destruct (dupit_spec ext st indx wfp pd o x H Hi Ho Hx) as (st'&E&H'&_). unfold dupit in E.
  rewrite (wrz_in _ _ 30) in E |- * by (done || lia). cbn [mbind outcome_bind] in E |- *.
  change (u_pofile (uu (set_ofile st _))) with (u_pofile (uu st)) in E |- *. rewrite Epd. cbn [mbind outcome_bind].
  rewrite (wrz_in (u_pofile (uu st)) _ 30) in E |- * by (done || lia). cbn [mbind outcome_bind] in E |- *.
  change (ftab (set_pofile _ _)) with (ftab st) in E. rewrite (rd_ok _ _ _ Hx) in E. cbn [mbind outcome_bind] in E.
  destruct (put_file _ _ _) as [st2| |]; [|done|done]. cbn [mbind outcome_bind] in E |- *.
  eexists 0, _. split; [done|]. right. split; [done|]. by injection E as ->.
Qed.

(** Emptying a slot whose file was already released. *)
Lemma clear_slot ext st j fp : fd_inv (fun f => ext f - delta (Some fp) f) st -> 0 <= j ->
  u_ofile (uu st) !! Z.to_nat j = Some (Some fp) ->
  exists l, wrz (u_ofile (uu st)) j None = Ok l /\ fd_inv ext (set_ofile st l).
Proof.
  intros H Hj Ho. destruct (slot_inv _ st j (Some fp) None Ho Hj ltac:(done) H) as [-> H']. eexists. split; [done|].
  eapply fd_inv_ext; [|exact H']. intros f. cbv beta. rewrite delta_none. lia.
Qed.

Lemma copen_keeps mode cmode : keeps (fun st => r ← copen mode cmode st; Ok (snd r)).
Proof.
  intros ext st He H. unfold copen.
  destruct (_ && _); [by exists st|].
  destruct (falloc_spec ext st He H) as [(fp&st1&->&H1&j&x&Hr&Hj&Hfree&Ho1&Hx&Hc&_)|(st1&->&H1&_)]; cbn [mbind outcome_bind]; [|by exists st1].
  rewrite (rd_ok _ _ _ Hx). cbn [mbind outcome_bind].
  set (x2 := File (Z.land (FFLAGS mode) FMASK) DTYPE_INODE (f_count x) (f_data x) (f_offset x)).
  destruct (put_flag_keeps ext st1 fp x x2 H1 Hx eq_refl) as (st2&->&H2&Ht2&Hu2). cbn [mbind outcome_bind].
  rewrite Hu2, Hr. cbn [world uu u_dupfd set_dupfd set_uu].
  destruct (vn_open_at _ _ _ _) as [[[error ip] dfd] w].
  set (st3 := set_dupfd (set_world (set_dupfd st2 (- j - 1)) w) dfd).
  assert (fd_inv ext st3) as H3 by (by apply fd_inv_dupfd, fd_inv_world, fd_inv_dupfd).
  assert (ftab st3 !! fp = Some x2) as Hx3.
  { cbn. rewrite Ht2. apply list_lookup_insert_eq. by eapply lookup_lt_Some. }
  assert (u_ofile (uu st3) !! Z.to_nat j = Some (Some fp)) as Ho3.
  { cbn. rewrite Hu2, Ho1. apply list_lookup_insert_eq. by eapply lookup_lt_Some. }
  assert (forall f, ext f + (if decide (f = fp) then -1 else 0) = ext f - delta (Some fp) f) as Hd.
  { intros f. unfold delta. destruct (decide (f = fp)) as [->|]; [rewrite decide_True by done; lia|rewrite decide_False by congruence; lia]. }
  destruct (Z.eqb_spec error 0) as [->|Her]; cbn [negb].
  - rewrite (rd_ok (ftab (set_dupfd st3 0)) fp x2 Hx3). cbn [mbind outcome_bind]. set (x4 := File _ _ _ ip _).
    destruct (put_flag_keeps ext (set_dupfd st3 0) fp x2 x4) as (st4&->&H4&Ht4&Hu4); [by apply fd_inv_dupfd|done|done|]. cbn [mbind outcome_bind].
    destruct (negb _); [|by eexists].
    assert (ftab st4 !! fp = Some x4) as Hx4. { rewrite Ht4. apply list_lookup_insert_eq. by eapply lookup_lt_Some. }
    rewrite (rd_ok _ _ _ Hx4). cbn [mbind outcome_bind]. destruct (ino_lock _ _ _ _) as [[e fl] w2].
    destruct (put_flag_keeps ext (set_world st4 w2) fp x4 (set_flag x4 fl)) as (st5&->&H5&Ht5&Hu5); [by apply fd_inv_world|done|done|]. cbn [mbind outcome_bind].
    destruct (negb (e =? 0)); [|by eexists].
    assert (ftab st5 !! fp = Some (set_flag x4 fl)) as Hx5. { rewrite Ht5. apply list_lookup_insert_eq. by eapply lookup_lt_Some. }
    destruct (closef_spec ext st5 fp _ H5 Hx5) as (e2&st6&->&H6&Hu6). { cbn. lia. }
    cbn [mbind outcome_bind snd]. destruct (clear_slot ext st6 j fp H6) as (l&->&H7); [lia| |].
    { rewrite Hu6, Hu5. cbn. rewrite Hu4. exact Ho3. }
    cbn [mbind outcome_bind snd]. by eexists.
  - rewrite (rd_ok _ _ _ Hx3). cbn [mbind outcome_bind].
    destruct (put_file_inv ext (fun f => ext f - delta (Some fp) f) st3 fp x2 (set_count x2 0) Hx3) as (st4&->&H4&Hu4&_); [|done|].
    { intros f. cbn [f_count set_count]. rewrite <- Hd. replace (f_count x2) with 1 by (cbn; lia). done. }
    cbn [mbind outcome_bind].
    assert (u_ofile (uu st4) !! Z.to_nat j = Some (Some fp)) as Ho4 by by rewrite Hu4.
    destruct (clear_slot ext st4 j fp H4) as (l&Ew&H5); [lia|done|].
    destruct (((error =? ENODEV) || (error =? ENXIO)) && (0 <=? u_dupfd (uu st4))) eqn:Ec; [|rewrite Ew; cbn [mbind outcome_bind snd]; by eexists].
    destruct (dupfdopen_spec _ st4 j (u_dupfd (uu st4)) (FFLAGS mode) error (Some fp) H4) as (e&st6&->&Hres); [done| |done|done|].
    { apply andb_true_iff in Ec as [_ Ec]. by apply Z.leb_le in Ec. }
    cbn [mbind outcome_bind]. destruct Hres as [[Hne ->]|[-> H6]].
    + rewrite (proj2 (Z.eqb_neq e 0) Hne). cbn [Z.eqb negb]. rewrite Ew. cbn [mbind outcome_bind snd]. by eexists.
    + cbn [Z.eqb negb mbind outcome_bind snd]. eexists. split; [done|]. apply fd_inv_rval. eapply fd_inv_ext; [|exact H6]. intros f. simpl. lia.
Qed.

Lemma pipe_keeps ip : keeps (fun st => r ← pipe ip st; Ok (snd r)).
Proof.
  intros ext st He H. unfold pipe.
  destruct (falloc_spec ext st He H) as [(rf&st1&->&H1&j&x&Hr&Hj&Hfree&Ho1&Hx&Hc&_)|(st1&->&H1&_)]; cbn [mbind outcome_bind]; [|by exists st1].
  destruct (falloc_spec ext st1 He H1) as [(wf&st2&->&H2&j2&x2&Hr2&Hj2&Hfree2&Ho2&Hx2&Hc2&_)|(st2&->&H2&Ho2&Ht2&_)]; cbn [mbind outcome_bind].
  - assert (ftab (set_rval st2 (u_rval (uu st1))) !! wf = Some x2) as Hx2' by done.
    rewrite (rd_ok _ _ _ Hx2'). cbn [mbind outcome_bind].
    match goal with |- context [put_file ?a wf ?b] => destruct (put_flag_keeps ext a wf x2 b) as (st3&->&H3&Ht3&Hu3) end;
      [by apply fd_inv_rval|done|done|]. cbn [mbind outcome_bind].
    destruct (lookup_lt_is_Some_2 (ftab st3) rf) as [y Hy].
    { destruct H3 as (_&->&_). destruct H1 as (_&<-&_). by eapply lookup_lt_Some. }
    rewrite (rd_ok _ _ _ Hy). cbn [mbind outcome_bind].
    match goal with |- context [put_file ?a rf ?b] => destruct (put_flag_keeps ext a rf y b) as (st4&->&H4&_) end; [done|done|done|].
    cbn [mbind outcome_bind snd]. by eexists.
  - assert (ftab st2 !! rf = Some x) as Hx2 by by rewrite Ht2. rewrite (rd_ok _ _ _ Hx2). cbn [mbind outcome_bind].
    destruct (put_file_inv ext (fun f => ext f - delta (Some rf) f) st2 rf x (set_count x 0) Hx2) as (st3&->&H3&Hu3&_); [|done|].
    { intros f. cbn [f_count set_count]. unfold delta. destruct (decide (f = rf)) as [->|]; [rewrite decide_True by done; lia|rewrite decide_False by congruence; lia]. }
    cbn [mbind outcome_bind]. rewrite Hr. destruct (clear_slot ext st3 j rf H3) as (l&->&H4); [lia| |].
    { rewrite Hu3, Ho2, Ho1. apply list_lookup_insert_eq. by eapply lookup_lt_Some. }
    cbn [mbind outcome_bind snd]. by eexists.
Qed.

(** *** [fork], [exit] and [exec] *)

Lemma refs_app f l1 l2 : refs f (l1 ++ l2) = refs f l1 + refs f l2.
Proof. unfold refs. rewrite filter_app, length_app. lia. Qed.

Lemma refs_none f l : (forall i g, l !! i <> Some (Some g)) -> refs f l = 0.
Proof.
  intros H. unfold refs. destruct (filter _ l) as [|o l'] eqn:E; [done|].
  assert (o ∈ filter (fun o => o = Some f) l) as [-> Ho]%list_elem_of_filter by (rewrite E; by left).
  apply list_elem_of_lookup in Ho as [i Hi]. by destruct (H i f).
Qed.

Lemma fork_files_spec n i ext st : fd_inv ext st -> 0 <= i -> i + Z.of_nat n <= 30 ->
  exists st', fork_files n i st = Ok st' /\ uu st' = uu st /\
    fd_inv (fun f => ext f + refs f (take n (drop (Z.to_nat i) (u_ofile (uu st))))) st'.
Proof.
  revert i ext st. induction n as [|n IH]; intros i ext st H Hi Hn; cbn [fork_files].
  { exists st. split; [done|]. split; [done|]. eapply fd_inv_ext; [|exact H]. intros f. rewrite take_0. unfold refs. simpl. lia. }
  pose proof H as ((L1&L2&L3&L4)&Hlen&_). destruct (rdz_in (u_ofile (uu st)) i 30 L1) as (o&->&Ho); [lia|]. cbn [mbind outcome_bind].
  assert (forall f, refs f (take (S n) (drop (Z.to_nat i) (u_ofile (uu st)))) = delta o f + refs f (take n (drop (Z.to_nat (i + 1)) (u_ofile (uu st))))) as Hr.
  { intros f. rewrite (drop_S _ _ _ Ho). replace (Z.to_nat (i + 1)) with (S (Z.to_nat i)) by lia. cbn [take].
    unfold refs, delta. rewrite filter_cons. destruct (decide (o = Some f)); simpl; lia. }
  destruct o as [fp|].
  - destruct (L4 _ _ Ho) as [_ Hfp]. destruct (lookup_lt_is_Some_2 (ftab st) fp) as [x Hx]; [lia|]. rewrite (rd_ok _ _ _ Hx). cbn [mbind outcome_bind].
    destruct (put_file_inv ext (fun f => ext f + delta (Some fp) f) st fp x (set_count x (f_count x + 1)) Hx) as (st1&->&H1&Hu1&_); [|done|].
    { intros f. cbn [f_count set_count]. unfold delta. destruct (decide (f = fp)) as [->|]; [rewrite decide_True by done; lia|rewrite decide_False by congruence; lia]. }
    cbn [mbind outcome_bind]. destruct (IH (i + 1) _ st1 H1) as (st'&E&Hu&H'); [lia|lia|]. exists st'. split; [done|]. split; [congruence|].
    eapply fd_inv_ext; [|exact H']. intros f. rewrite Hr, Hu1. lia.
  - destruct (IH (i + 1) _ st H) as (st'&E&Hu&H'); [lia|lia|]. exists st'. split; [done|]. split; [congruence|].
    eapply fd_inv_ext; [|exact H']. intros f. rewrite Hr, delta_none. lia.
Qed.

Lemma refs_upto f v : tab_ok v -> refs f (take (Z.to_nat (u_lastfile v + 1)) (u_ofile v)) = refs f (u_ofile v).
Proof.
  intros (L1&L2&L3&L4). rewrite <- (take_drop (Z.to_nat (u_lastfile v + 1)) (u_ofile v)) at 2. rewrite refs_app, (refs_none f (drop _ _)); [lia|].
  intros i g Hi. rewrite lookup_drop in Hi. apply L4 in Hi. lia.
Qed.

Lemma newproc_files_spec ext st : fd_inv ext st ->
  exists st', newproc_files st = Ok st' /\ uu st' = uu st /\ fd_inv (fun f => ext f + refs f (u_ofile (uu st))) st'.
Proof.
  intros H. pose proof H as (Ht&_). pose proof Ht as (L1&L2&L3&L4). unfold newproc_files.
  destruct (fork_files_spec (Z.to_nat (u_lastfile (uu st) + 1)) 0 ext st H) as (st'&E&Hu&H'); [lia|lia|].
  exists st'. split; [done|]. split; [done|]. eapply fd_inv_ext; [|exact H']. intros f. cbv beta. change (Z.to_nat 0) with 0%nat. rewrite drop_0, refs_upto by done. lia.
Qed.

Lemma exit_loop_spec n i ext st : (forall f, 0 <= ext f) -> fd_inv ext st -> 0 <= i -> i + Z.of_nat n = u_lastfile (uu st) + 1 ->
  (forall k, (k < Z.to_nat i)%nat -> u_ofile (uu st) !! k = Some None) ->
  exists st', exit_loop n i st = Ok st' /\ fd_inv ext st' /\ forall k g, u_ofile (uu st') !! k <> Some (Some g).
Proof.
  revert i st. induction n as [|n IH]; intros i st He H Hi Hn Hlow; cbn [exit_loop].
  { exists st. split; [done|]. split; [done|]. intros k g Hk. destruct H as ((_&_&_&L4)&_). destruct (L4 _ _ Hk) as [Hle _].
    rewrite Hlow in Hk by lia. done. }
  pose proof H as ((L1&L2&L3&L4)&Hlen&_). destruct (rdz_in (u_ofile (uu st)) i 30 L1) as (o&->&Ho); [lia|]. cbn [mbind outcome_bind].
  destruct (slot_inv ext st i o None Ho) as [-> H1]; [lia|done|done|]. cbn [mbind outcome_bind].
  destruct (fd_inv_pofile _ _ i 0 ltac:(lia) H1) as [Ep H2]. change (u_pofile (uu (set_ofile st _))) with (u_pofile (uu st)) in Ep, H2.
  rewrite Ep. cbn [mbind outcome_bind]. match type of H2 with fd_inv _ ?s => set (st2 := s) in H2 |- * end.
  assert (exists e st3, closef_opt o st2 = Ok (e, st3) /\ fd_inv ext st3 /\ uu st3 = uu st2) as (e&st3&->&H3&Hu3).
  { destruct o as [fp|]; cbn [closef_opt].
    - destruct (open_counted _ _ _ _ He H Ho) as (y&Hy&Hc). destruct (closef_spec _ st2 fp y H2 Hy Hc) as (e&st3&->&H3&Hu).
      exists e, st3. split; [done|]. split; [|done]. eapply fd_inv_ext; [|exact H3]. intros f. cbv beta. rewrite delta_none. lia.
    - exists 0, st2. split; [done|]. split; [|done]. eapply fd_inv_ext; [|exact H2]. intros f. cbv beta. rewrite !delta_none. lia. }
  cbn [mbind outcome_bind snd]. apply IH; [done|done|lia|rewrite Hu3; cbn; lia|]. intros k Hk. rewrite Hu3. cbn [st2 uu set_pofile set_ofile set_uu u_ofile].
  destruct (decide (k = Z.to_nat i)) as [->|]; [apply list_lookup_insert_eq; lia|rewrite list_lookup_insert_ne by done; apply Hlow; lia].
Qed.

Lemma exit_files_spec ext st : (forall f, 0 <= ext f) -> fd_inv ext st ->
  exists st', exit_files st = Ok st' /\ fd_inv ext st' /\ forall f, refs f (u_ofile (uu st')) = 0.
Proof.
  intros He H. pose proof H as ((L1&L2&L3&L4)&_). unfold exit_files.
  destruct (exit_loop_spec (Z.to_nat (u_lastfile (uu st) + 1)) 0 ext st He H) as (st'&E&H'&Hn); [lia|lia|intros k Hk; lia|].
  exists st'. split; [done|]. split; [done|]. intros f. by apply refs_none.
Qed.

Lemma exec_loop_keeps n i ext st : (forall f, 0 <= ext f) -> fd_inv ext st -> 0 <= i -> i + Z.of_nat n <= 30 ->
  exists st', exec_loop n i st = Ok st' /\ fd_inv ext st'.
Proof.
  revert i st. induction n as [|n IH]; intros i st He H Hi Hn; cbn [exec_loop]; [by eexists|].
  pose proof H as ((L1&L2&L3&L4)&Hlen&_). destruct (rdz_in (u_pofile (uu st)) i 30 L2) as (cp&->&_); [lia|]. cbn [mbind outcome_bind].
  destruct (negb _); [|apply IH; [done|done|lia|lia]].
  destruct (rdz_in (u_ofile (uu st)) i 30 L1) as (o&->&Ho); [lia|]. cbn [mbind outcome_bind].
  assert (exists e st2, closef_opt o st = Ok (e, st2) /\ fd_inv (fun f => ext f - delta o f) st2 /\ uu st2 = uu st) as (e&st2&->&H2&Hu2).
  { destruct o as [fp|]; cbn [closef_opt].
    - destruct (open_counted _ _ _ _ He H Ho) as (y&Hy&Hc). by apply (closef_spec _ st fp y).
    - exists 0, st. split; [done|]. split; [|done]. eapply fd_inv_ext; [|exact H]. intros f. cbv beta. rewrite delta_none. lia. }
  cbn [mbind outcome_bind snd]. rewrite <- Hu2 in Ho. destruct (slot_inv _ st2 i o None Ho ltac:(lia) ltac:(done) H2) as [-> H3].
  cbn [mbind outcome_bind]. destruct (fd_inv_pofile _ _ i 0 ltac:(lia) H3) as [Ep H4].
  change (u_pofile (uu (set_ofile st2 _))) with (u_pofile (uu st2)) in Ep, H4. rewrite Ep. cbn [mbind outcome_bind].
  apply IH; [done| |lia|lia]. eapply fd_inv_ext; [|exact H4]. intros f. cbv beta. rewrite delta_none. lia.
Qed.

Lemma exec_files_keeps : keeps exec_files.
Proof.
  intros ext st He H. unfold exec_files. pose proof H as ((_&_&L3&_)&_).
  destruct (exec_loop_keeps (Z.to_nat (u_lastfile (uu st) + 1)) 0 ext st He H) as (st1&->&H1); [lia|lia|]. cbn [mbind outcome_bind].
  destruct (trim_keeps ext st1 H1) as (m&->&H'). by eexists.
Qed.

End refcounts.

(** ** The system: several processes on one file table *)

Section system.
Context {W : Type} `{!FileOps W}.

Inductive fd_call :=
| CDup (i j : Z) | CDup2 (i j : Z) | CFcntl (fd : Z) (cmd : fcntl_cmd) (arg : Z) | CClose (i : Z) | CFlock (fd how : Z)
| COpen (mode cmode : Z) | CPipe (ip : Z) | CExec.

Definition run_call (c : fd_call) : fds (W := W) -> outcome fds :=
  match c with
  | CDup i j => dup i j
  | CDup2 i j => dup2 i j
  | CFcntl fd cmd arg => fcntl fd cmd arg
  | CClose i => close i
  | CFlock fd how => flock fd how
  | COpen mode cmode => fun st => r ← copen mode cmode st; Ok (snd r)
  | CPipe ip => fun st => r ← pipe ip st; Ok (snd r)
  | CExec => exec_files
  end.

Record system := System { s_ftab : list file; s_lastf : option nat; s_world : W; s_procs : list ufd }.

(** Process [i] makes a system call, forks (the child gets a copy of its
    table) or exits. *)
Inductive event := Call (i : nat) (c : fd_call) | Fork (i : nat) | Exit (i : nat).

Definition enter (s : system) (v : ufd) : fds := Fds (s_ftab s) (s_lastf s) (s_world s) v.

Definition sys_step (e : event) (s : system) : outcome system :=
  match e with
  | Call i c =>
      match s_procs s !! i with
      | None => Ok s
      | Some v => st ← run_call c (enter s v); Ok (System (ftab st) (lastf st) (world st) (<[i:=uu st]> (s_procs s)))
      end
  | Fork i =>
      match s_procs s !! i with
      | None => Ok s
      | Some v => st ← newproc_files (enter s v); Ok (System (ftab st) (lastf st) (world st) (s_procs s ++ [v]))
      end
  | Exit i =>
      match s_procs s !! i with
      | None => Ok s
      | Some v => st ← exit_files (enter s v); Ok (System (ftab st) (lastf st) (world st) (delete i (s_procs s)))
      end
  end.

Fixpoint sys_run (es : list event) (s : system) : outcome system :=
  match es with [] => Ok s | e :: es' => s' ← sys_step e s; sys_run es' s' end.

Definition fresh_ufd : ufd := Ufd (replicate 30 None) (replicate 30 0) (-1) 0 0 0.

(** At boot: no file open, one process with an empty table. *)
Definition boot (w : W) : system := System (replicate NFILE (File 0 0 0 0 0)) None w [fresh_ufd].

Definition total (f : nat) (ps : list ufd) : Z := foldr (fun v n => refs f (u_ofile v) + n) 0 ps.

Definition sys_inv (s : system) : Prop :=
  Forall tab_ok (s_procs s) /\ length (s_ftab s) = NFILE /\
  match s_lastf s with Some l => (l <= NFILE)%nat | None => True end /\
  forall f x, s_ftab s !! f = Some x -> f_count x = total f (s_procs s).

Lemma total_app f l1 l2 : total f (l1 ++ l2) = total f l1 + total f l2.
Proof. induction l1; simpl; lia. Qed.

Lemma total_nonneg f l : 0 <= total f l.
Proof. induction l as [|v l IH]; simpl; [lia|]. pose proof (refs_nonneg f (u_ofile v)). lia. Qed.

Lemma total_split f l i v : l !! i = Some v -> total f l = refs f (u_ofile v) + total f (delete i l).
Proof.
  intros Hi. rewrite delete_take_drop. rewrite <- (take_drop_middle l i v Hi) at 1. rewrite !total_app. simpl. lia.
Qed.

Lemma total_insert f l i v v' : l !! i = Some v -> total f (<[i:=v']> l) = refs f (u_ofile v') + total f (delete i l).
Proof.
  intros Hi. rewrite insert_take_drop by (by eapply lookup_lt_Some). rewrite total_app, delete_take_drop, total_app. simpl. lia.
Qed.

(** One process's view of the system, the others' references apart. *)
Lemma enter_inv s i v : sys_inv s -> s_procs s !! i = Some v ->
  fd_inv (fun f => total f (delete i (s_procs s))) (enter s v).
Proof.
  intros (Ht&Hl&Hlf&Hc) Hi. split; [by eapply Forall_lookup_1|]. split; [done|]. split; [done|].
  intros f x Hx. cbn. rewrite (Hc _ _ Hx). by apply total_split.
Qed.

Lemma leave_inv s i v st : sys_inv s -> s_procs s !! i = Some v -> fd_inv (fun f => total f (delete i (s_procs s))) st ->
  sys_inv (System (ftab st) (lastf st) (world st) (<[i:=uu st]> (s_procs s))).
Proof.
  intros (Ht&Hl&Hlf&Hc) Hi (H1&H2&H3&H4). split; [by apply Forall_insert|]. do 2 (split; [done|]).
  cbn [s_ftab s_procs]. intros f x Hx. rewrite (total_insert f _ _ _ _ Hi). by apply H4.
Qed.

Lemma run_call_keeps c : keeps (run_call c).
Proof.
  destruct c; simpl; [apply dup_keeps|apply dup2_keeps|apply fcntl_keeps|apply close_keeps|apply flock_keeps|apply copen_keeps|apply pipe_keeps|apply exec_files_keeps].
Qed.

Lemma sys_step_inv e s : sys_inv s -> exists s', sys_step e s = Ok s' /\ sys_inv s'.
Proof.
  intros H. destruct e as [i c|i|i]; simpl; (destruct (s_procs s !! i) as [v|] eqn:Hi; [|by exists s]);
    pose proof (enter_inv s i v H Hi) as H0.
  - destruct (run_call_keeps c _ _ (fun f => total_nonneg f _) H0) as (st&->&H1). eexists. split; [done|]. by eapply leave_inv.
  - destruct (newproc_files_spec _ _ H0) as (st&->&Hu&H1). eexists. split; [done|]. destruct H as (Ht&Hl&Hlf&Hc), H1 as (H1&H2&H3&H4).
    split; [|do 2 (split; [done|])]; cbn [s_ftab s_procs].
    + apply Forall_app. split; [done|]. constructor; [by eapply Forall_lookup_1|done].
    + intros f x Hx. rewrite total_app, (total_split f _ _ _ Hi). cbn. rewrite (H4 _ _ Hx), Hu. cbn. lia.
  - destruct (exit_files_spec _ _ (fun f => total_nonneg f _) H0) as (st&->&H1&Hz). eexists. split; [done|]. destruct H as (Ht&Hl&Hlf&Hc), H1 as (H1&H2&H3&H4).
    split; [|do 2 (split; [done|])]; cbn [s_ftab s_procs].
    + by apply Forall_delete.
    + intros f x Hx. rewrite (H4 _ _ Hx), Hz. lia.
Qed.

Lemma sys_run_inv es s : sys_inv s -> exists s', sys_run es s = Ok s' /\ sys_inv s'.
Proof.
  revert s. induction es as [|e es IH]; intros s H; simpl; [by exists s|].
  destruct (sys_step_inv e s H) as (s1&->&H1). by apply IH.
Qed.

Lemma boot_inv w : sys_inv (boot w).
Proof.
  split; [|do 2 (split; [done|])]; cbn [s_ftab s_procs].
  - constructor; [|done]. split; [done|]. split; [done|]. split; [done|]. intros i f Hi. apply (lookup_replicate 30 None) in Hi as [? _]. done.
  - intros f x [-> _]%lookup_replicate. assert (refs f (u_ofile fresh_ufd) = 0) as Hz; [|cbn [f_count]; unfold boot, total, s_procs, foldr; lia].
    apply refs_none. intros i g Hi. apply (lookup_replicate 30 None) in Hi as [? _]. done.
Qed.

Lemma total_pos f ps : 0 < total f ps <-> exists i v j, ps !! i = Some v /\ u_ofile v !! j = Some (Some f).
Proof.
  split.
  - induction ps as [|v ps IH]; simpl; [lia|]. intros H. destruct (decide (0 < total f ps)) as [Hp|].
    + destruct (IH Hp) as (i&v'&j&?&?). by exists (S i), v', j.
    + assert (0 < refs f (u_ofile v)) as Hr by lia. unfold refs in Hr.
      destruct (filter _ (u_ofile v)) as [|o l'] eqn:E; [simpl in Hr; lia|].
      assert (o ∈ filter (fun o => o = Some f) (u_ofile v)) as [-> Ho]%list_elem_of_filter by (rewrite E; by left).
      apply list_elem_of_lookup in Ho as [j Hj]. by exists 0%nat, v, j.
  - intros (i&v&j&Hi&Hj). rewrite (total_split f _ _ _ Hi). pose proof (refs_pos _ _ _ Hj). pose proof (total_nonneg f (delete i ps)). lia.
Qed.

(** C12. Reference counts are exact. Whatever sequence of [dup], [dup2],
    [fcntl], [close], [flock], [open], [pipe] and [exec] calls, forks and
    exits the processes make from boot, and whatever the files' own
    operations answer, no call accesses a table outside its bounds, and in
    the state reached the count of every file is the number of descriptors
    that refer to it in all processes: no descriptor is left on a free file,
    no file in use can be handed out again, and no file is leaked. *)
Theorem descriptor_refcounts (w : W) (es : list event) :
  exists s, sys_run es (boot w) = Ok s /\
    (forall f x, s_ftab s !! f = Some x -> f_count x = total f (s_procs s)) /\
    (forall i v j f, s_procs s !! i = Some v -> u_ofile v !! j = Some (Some f) ->
       exists x, s_ftab s !! f = Some x /\ 0 < f_count x) /\
    (forall f x, s_ftab s !! f = Some x -> 0 < f_count x ->
       exists i v j, s_procs s !! i = Some v /\ u_ofile v !! j = Some (Some f)).
Proof.
  destruct (sys_run_inv es (boot w) (boot_inv w)) as (s&E&(Ht&Hl&_&Hc)). exists s. split; [done|]. split; [done|]. split.
  - intros i v j f Hi Hj. destruct (lookup_lt_is_Some_2 (s_ftab s) f) as [x Hx].
    { pose proof (Forall_lookup_1 _ _ _ _ Ht Hi) as (_&_&_&L4). rewrite Hl. by apply (L4 _ _ Hj). }
    exists x. split; [done|]. rewrite (Hc _ _ Hx). apply total_pos. by exists i, v, j.
  - intros f x Hx Hpos. rewrite (Hc _ _ Hx) in Hpos. by apply total_pos.
Qed.

(** [dup2(i, j)] of an open descriptor makes [j] refer to the same
    file, without close-on-exec, and leaves every other descriptor and its
    flags as they were; with [i = j] nothing changes; a closed [i] or a [j]
    outside the table sets EBADF and changes no descriptor. *)
Theorem dup2_semantics (ext : nat -> Z) (st : fds (W := W)) (i j : Z) :
  (forall f, 0 <= ext f) -> fd_inv ext st ->
  exists st', dup2 i j st = Ok st' /\
    (forall fp, 0 <= i < 30 -> u_ofile (uu st) !! Z.to_nat i = Some (Some fp) -> 0 <= j < 30 ->
       u_rval (uu st') = j /\
       u_ofile (uu st') = <[Z.to_nat j:=Some fp]> (u_ofile (uu st)) /\
       (i <> j -> exists po, u_pofile (uu st) !! Z.to_nat i = Some po /\
          u_pofile (uu st') = <[Z.to_nat j:=Z.ldiff po UF_EXCLOSE]> (u_pofile (uu st)))) /\
    ((0 <= i < 30 -> u_ofile (uu st) !! Z.to_nat i = Some None) \/ ~ 0 <= j < 30 ->
       u_error (uu st') = EBADF /\ u_ofile (uu st') = u_ofile (uu st) /\ u_pofile (uu st') = u_pofile (uu st)).
Proof.
  intros He H. unfold dup2.
  destruct (getf_spec ext st i H) as [(fp&->&Hi&Ho&x&Hx)|[-> Hnone]]; cbn [mbind outcome_bind].
  2: { eexists. split; [done|]. split; [|done]. intros fp Hi Ho Hj. rewrite (Hnone Hi) in Ho. done. }
  unfold NOFILE. destruct (decide (0 <= j < 30)) as [Hj|Hj].
  2: { replace ((j <? 0) || (30 <=? j)) with true by (symmetry; rewrite orb_true_iff, Z.ltb_lt, Z.leb_le; lia).
       eexists. split; [done|]. split; [lia|done]. }
  replace ((j <? 0) || (30 <=? j)) with false by (symmetry; rewrite orb_false_iff, Z.ltb_ge, Z.leb_gt; lia).
  destruct (Z.eqb_spec i j) as [<-|Hij].
  { eexists. split; [done|]. split.
    - intros fp' _ Ho' _. rewrite Ho in Ho'. injection Ho' as <-. cbn. split; [done|]. split; [|done]. by rewrite list_insert_id.
    - intros [Hz|?]; [|done]. rewrite (Hz Hi) in Ho. done. }
  pose proof (fd_inv_rval ext st j H) as Hst0. set (st0 := set_rval st j) in *. pose proof Hst0 as ((L1&L2&L3&L4)&Hlen&_).
  destruct (rdz_in (u_ofile (uu st0)) j 30 L1) as (o&->&Hoj); [lia|]. cbn [mbind outcome_bind].
  assert (exists e st1, closef_opt o st0 = Ok (e, st1) /\ fd_inv (fun f => ext f - delta o f) st1 /\ uu st1 = uu st0) as (e&st1&->&Hst1&Hu).
  { destruct o as [g|]; cbn [closef_opt].
    - destruct (open_counted _ _ _ _ He Hst0 Hoj) as (y&Hy&Hc). by apply (closef_spec ext st0 g y).
    - exists 0, st0. split; [done|]. split; [|done]. eapply fd_inv_ext; [|exact Hst0]. intros f. cbv beta. rewrite delta_none. lia. }
  cbn [mbind outcome_bind snd]. rewrite Hu. destruct (rdz_in (u_pofile (uu st0)) i 30 L2) as (po&->&Hpo); [lia|]. cbn [mbind outcome_bind].
  destruct (lookup_lt_is_Some_2 (ftab st1) fp) as [x1 Hx1].
  { destruct Hst1 as (_&->&_). destruct H as ((_&_&_&L)&_). by apply (L _ _ Ho). }
  destruct (dupit_spec _ st1 j fp (Z.ldiff po UF_EXCLOSE) o x1 Hst1) as (st'&E&_&Ef&Er&Ep&_); [lia|by rewrite Hu|done|].
  exists st'. split; [done|]. rewrite Hu in Ef, Er, Ep. split.
  - intros fp' _ Ho' _. rewrite Ho in Ho'. injection Ho' as <-. split; [done|]. split; [done|]. intros _. by exists po.
  - intros [Hz|?]; [|done]. rewrite (Hz Hi) in Ho. done.
Qed.

(** Opening /dev/fd/N for a descriptor N that is not open reports
    success: when the device open returns ENODEV with [u_dupfd] naming a
    closed (or too large) descriptor, [copen] returns 0 and the descriptor
    in [u_rval] is not open, because [error = dupfdopen(...) == 0] assigns
    the comparison, which turns EBADF into 0. *)
Theorem copen_fd_false_success (ext : nat -> Z) (st st1 : fds (W := W)) (mode cmode : Z) fp ip dfd w :
  (forall f, 0 <= ext f) -> fd_inv ext st -> falloc st = Ok (Some fp, st1) ->
  Z.land mode O_SEARCH = 0 ->
  vn_open_at (world st1) (FFLAGS mode) (Z.ldiff (Z.land cmode 0x7fff) 0x200) (- u_rval (uu st1) - 1) = (ENODEV, ip, dfd, w) ->
  0 <= dfd -> 30 <= dfd \/ u_ofile (uu st1) !! Z.to_nat dfd = Some None ->
  exists st', copen mode cmode st = Ok (0, st') /\
    u_ofile (uu st') !! Z.to_nat (u_rval (uu st')) = Some None.
Proof.
  intros He H Ef Hm Hv Hd Hclosed. unfold copen. rewrite Hm. cbn [Z.eqb negb andb].
  destruct (falloc_spec ext st He H) as [(fp'&st1'&E&H1&j&x&Hr&Hj&_&Ho1&Hx&Hc&_)|(st1'&E&_)]; rewrite E in Ef; [|done].
  injection Ef as -> ->. rewrite E. cbn [mbind outcome_bind]. rewrite (rd_ok _ _ _ Hx). cbn [mbind outcome_bind].
  set (x2 := File _ _ _ _ _). unfold put_file. rewrite wr_ok by (by eapply lookup_lt_Some). cbn [mbind outcome_bind].
  set (st2 := set_ftab st1 _). change (u_rval (uu st2)) with (u_rval (uu st1)).
  change (world (set_dupfd st2 _)) with (world st1). change (u_dupfd (uu (set_dupfd st2 _))) with (- u_rval (uu st1) - 1). rewrite Hv.
  change (negb (ENODEV =? 0)) with true. cbv iota.
  set (st3 := set_dupfd (set_world _ w) dfd). change (ftab st3) with (<[fp:=x2]> (ftab st1)).
  rewrite (rd_ok (<[fp:=x2]> (ftab st1)) fp x2) by (apply list_lookup_insert_eq; by eapply lookup_lt_Some). cbn [mbind outcome_bind].
  rewrite wr_ok by (rewrite length_insert; by eapply lookup_lt_Some). cbn [mbind outcome_bind].
  set (st4 := set_ftab st3 _). change (u_dupfd (uu st4)) with dfd. change ((ENODEV =? ENODEV) || (ENODEV =? ENXIO)) with true.
  rewrite (proj2 (Z.leb_le 0 dfd) Hd). cbn [andb].
  pose proof H1 as ((L1&_&_&_)&_). unfold dupfdopen at 1. change (u_ofile (uu st4)) with (u_ofile (uu st1)).
  rewrite Hr. destruct (rdz_in (u_ofile (uu st1)) j 30 L1 Hj) as (o&->&_). cbn [mbind outcome_bind].
  assert ((if NOFILE <=? dfd then true else match u_ofile (uu st1) !! Z.to_nat dfd with Some None => true | _ => false end) = true) as Hb.
  { unfold NOFILE. destruct (Z.leb_spec 30 dfd); [done|]. destruct Hclosed as [?|Hcl]; [lia|by rewrite Hcl]. }
  destruct (Z.leb_spec NOFILE dfd).
  - cbn. rewrite (wrz_in _ _ 30) by done. cbn. eexists. split; [done|]. cbn. rewrite Hr. apply list_lookup_insert_eq. lia.
  - destruct (rdz_in (u_ofile (uu st1)) dfd 30 L1) as (o2&->&Ho2); [unfold NOFILE in *; lia|]. rewrite Ho2 in Hb. destruct o2; [done|].
    cbn. rewrite (wrz_in _ _ 30) by done. cbn. eexists. split; [done|]. cbn. rewrite Hr. apply list_lookup_insert_eq. lia.
Qed.

End system.

(** ** A small instance *)

(** Operations that always succeed; an open answers [r]. *)
#[local] Instance sample_ops (r : Z * Z * Z * unit) : FileOps unit := {
  fo_close w fp f := (0, w);
  fo_ioctl w fp f cmd v := (0, v, w);
  ino_lock w fp f how := (0, Z.lor (f_flag f) (if Z.land how LOCK_EX =? 0 then FSHLOCK else FEXLOCK), w);
  ino_unlock w fp f kind := (Z.ldiff (f_flag f) kind, w);
  pfind_pgrp w pid := None;
  vn_open_at w flags cmode dupfd := r
}.

Definition fds0 : fds (W := unit) := Fds (replicate NFILE (File 0 0 0 0 0)) None tt fresh_ufd.

Lemma fds0_inv : fd_inv (fun _ => 0) fds0.
Proof.
  split; [|do 2 (split; [done|])]; cbn [s_ftab s_procs].
  - split; [done|]. split; [done|]. split; [done|]. intros i f Hi. apply (lookup_replicate 30 None) in Hi as [? _]. done.
  - intros f x [-> _]%lookup_replicate. assert (refs f (u_ofile fresh_ufd) = 0) as Hz; [|cbn [f_count]; unfold fds0; cbn [uu]; lia].
    apply refs_none. intros i g Hi. apply (lookup_replicate 30 None) in Hi as [? _]. done.
Qed.

Definition opened_fds : fds (W := unit) :=
  match copen (FileOps0 := sample_ops (0, 5, 0, tt)) 2 0 fds0 with Ok (_, st) => st | _ => fds0 end.

Lemma opened_inv : fd_inv (fun _ => 0) opened_fds.
Proof.
  destruct (copen_keeps (FileOps0 := sample_ops (0, 5, 0, tt)) 2 0 (fun _ => 0) fds0 (fun _ => Z.le_refl 0) fds0_inv) as (st'&E&H).
  unfold opened_fds. destruct (copen 2 0 fds0) as [[e st]| |]; cbn in E; [|done|done]. injection E as ->. exact H.
Qed.

Lemma dup2_semantics_witness : exists st', dup2 (FileOps0 := sample_ops (0, 0, 0, tt)) 0 7 opened_fds = Ok st' /\
  u_ofile (uu st') !! 7%nat = Some (Some 0%nat).
Proof.
  destruct (dup2_semantics (FileOps0 := sample_ops (0, 0, 0, tt)) (fun _ => 0) opened_fds 0 7 (fun _ => Z.le_refl 0) opened_inv) as (st'&E&H&_).
  exists st'. split; [done|]. destruct (H 0%nat) as (_&->&_); [lia|reflexivity|lia|]. reflexivity.
Defined.

(** What [copen] of [/dev/fd/7] finds after [falloc]. *)
Definition after_falloc : fds (W := unit) :=
  match falloc opened_fds with Ok (_, st) => st | _ => opened_fds end.

Lemma copen_fd_false_success_witness :
  exists st', copen (FileOps0 := sample_ops (ENODEV, 0, 7, tt)) 2 0 opened_fds = Ok (0, st') /\
    u_ofile (uu st') !! Z.to_nat (u_rval (uu st')) = Some None.
Proof.
  apply (copen_fd_false_success (FileOps0 := sample_ops (ENODEV, 0, 7, tt)) (fun _ => 0) opened_fds after_falloc 2 0 1%nat 0 7 tt).
  - intros _. lia.
  - exact opened_inv.
  - vm_compute. reflexivity.
  - reflexivity.
  - vm_compute. reflexivity.
  - lia.
  - right. vm_compute. reflexivity.
Defined.
