(* ===== verification/Cred.v ===== *)
(** * Credentials ([sys/kern/kern_prot.c], [kern_prot2.c], [kern_proc.c],
    [ufs_fio.c] [access], the set-id part of [exec])

    The credential of the current process is the part of its u area with the
    real, effective and saved user ids, the group ids and the group set, and
    [p_uid], the copy of the effective user id in its process entry. Ids are
    32-bit unsigned; [NOGROUP] marks an unused place of the group set. The
    group set copied in from user memory is an argument: [Some gs] when
    [copyin] succeeds, [None] when it fails with EFAULT. *)
From S2P Require Import Prelude.

Definition NGROUPS : nat := 16.
Definition NOGROUP : Z := 0xffffffff.
Definition EPERM : Z := 1.
Definition CRED_ESRCH : Z := 3.
Definition EFAULT : Z := 14.
Definition CRED_EACCES : Z := 13.
Definition CRED_EINVAL : Z := 22.
Definition ETXTBSY : Z := 26.
Definition EROFS : Z := 30.

Record cred := Cred {
  u_uid : Z; u_svuid : Z; u_ruid : Z;
  u_svgid : Z; u_rgid : Z;
  u_groups : list Z;
  p_uid : Z;                       (* u_procp->p_uid *)
  u_error : Z;
  u_rval : Z
}.

Definition set_error (c : cred) (e : Z) : cred :=
  Cred (u_uid c) (u_svuid c) (u_ruid c) (u_svgid c) (u_rgid c) (u_groups c) (p_uid c) e (u_rval c).
Definition set_rval (c : cred) (r : Z) : cred :=
  Cred (u_uid c) (u_svuid c) (u_ruid c) (u_svgid c) (u_rgid c) (u_groups c) (p_uid c) (u_error c) r.

(** ** [kern_prot2.c] *)

Definition suser (c : cred) : bool * cred :=
  if u_uid c =? 0 then (true, c) else (false, set_error c EPERM).

Definition setuid (uid : Z) (c : cred) : cred :=
  let '(ok, c) := if negb (uid =? u_ruid c) then suser c else (true, c) in
  if negb ok then c
  else Cred uid uid uid (u_svgid c) (u_rgid c) (u_groups c) uid 0 (u_rval c).

Definition seteuid (euid : Z) (c : cred) : cred :=
  let '(ok, c) := if negb (euid =? u_ruid c) && negb (euid =? u_svuid c) then suser c else (true, c) in
  if negb ok then c
  else Cred euid (u_svuid c) (u_ruid c) (u_svgid c) (u_rgid c) (u_groups c) euid 0 (u_rval c).

Definition setgid (gid : Z) (c : cred) : cred :=
  if gid =? NOGROUP then set_error c CRED_EINVAL
  else
    let '(ok, c) := if negb (gid =? u_rgid c) then suser c else (true, c) in
    if negb ok then c
    else Cred (u_uid c) (u_svuid c) (u_ruid c) gid gid (<[0%nat:=gid]> (u_groups c)) (p_uid c) 0 (u_rval c).

Definition setegid (egid : Z) (c : cred) : cred :=
  if egid =? NOGROUP then set_error c CRED_EINVAL
  else
    let '(ok, c) := if negb (egid =? u_rgid c) && negb (egid =? u_svgid c) then suser c else (true, c) in
    if negb ok then c
    else Cred (u_uid c) (u_svuid c) (u_ruid c) (u_svgid c) (u_rgid c) (<[0%nat:=egid]> (u_groups c)) (p_uid c) 0 (u_rval c).

(** ** [kern_prot.c] *)

Definition getuid (c : cred) : cred := set_rval c (u_ruid c).
Definition geteuid (c : cred) : cred := set_rval c (u_uid c).
Definition getgid (c : cred) : cred := set_rval c (u_rgid c).
Definition getegid (c : cred) : outcome cred := g ← rd (u_groups c) 0; Ok (set_rval c g).

(** The scan of [getgroups] from the end: the number of places up to the
    last one in use. *)
Fixpoint group_count (n : nat) (gs : list Z) : outcome nat :=
  match n with
  | O => Ok O
  | S n' => g ← rd gs n'; if negb (g =? NOGROUP) then Ok n else group_count n' gs
  end.

(** [getgroups]: the groups copied out, if any; [copyout] fails when
    [fault] holds. *)
Definition getgroups (gidsetsize : Z) (fault : bool) (c : cred) : outcome (list Z * cred) :=
  n ← group_count NGROUPS (u_groups c);
  if gidsetsize <? Z.of_nat n then Ok ([], set_error c CRED_EINVAL)
  else if fault then Ok ([], set_error c EFAULT)
  else Ok (take n (u_groups c), set_rval (set_error c 0) (Z.of_nat n)).

(** [setgroups]; [gidset] is what [copyin] of [gidsetsize] groups gives. *)
Definition setgroups (gidsetsize : Z) (gidset : option (list Z)) (c : cred) : cred :=
  let '(ok, c) := suser c in
  if negb ok then c
  else if Z.of_nat NGROUPS <? gidsetsize then set_error c CRED_EINVAL
  else
    match gidset with
    | None => set_error c EFAULT
    | Some groups =>
        let c := set_error c 0 in
        if existsb (fun g => g =? NOGROUP) groups then set_error c CRED_EINVAL
        else
          Cred (u_uid c) (u_svuid c) (u_ruid c) (u_svgid c) (u_rgid c)
            (groups ++ replicate (NGROUPS - Z.to_nat gidsetsize) NOGROUP) (p_uid c) (u_error c) (u_rval c)
    end.

Fixpoint groupmember_in (group : Z) (gs : list Z) : bool :=
  match gs with
  | [] => false
  | g :: gs' => if g =? NOGROUP then false else if g =? group then true else groupmember_in group gs'
  end.

Definition groupmember (group : Z) (c : cred) : bool := groupmember_in group (u_groups c).

(** ** Process entries: [kern_proc.c] and [setpgrp] *)

Record cproc := Cproc { c_pid : Z; c_ppid : Z; c_pptr : nat; c_uid : Z; c_pgrp : Z }.

(** [inferior]: following parents from [p]; a chain of parents is no longer
    than the table, which the fuel is. *)
Fixpoint inferior (fuel : nat) (tab : list cproc) (p cur : nat) : outcome bool :=
  if Nat.eqb p cur then Ok true else
  match fuel with
  | O => Fault
  | S fuel' => x ← rd tab p; if c_ppid x =? 0 then Ok false else inferior fuel' tab (c_pptr x) cur
  end.

(** [pfind], on the chain of the pid's hash bucket. *)
Fixpoint pfind (tab : list cproc) (chain : list nat) (pid : Z) : outcome (option nat) :=
  match chain with
  | [] => Ok None
  | p :: chain' => x ← rd tab p; if c_pid x =? pid then Ok (Some p) else pfind tab chain' pid
  end.

Definition PIDHASH (pid : Z) : nat := Z.to_nat (Z.land pid 15).

(** [setpgrp] by the process at [cur]. *)
Definition setpgrp (pid pgrp : Z) (cur : nat) (tab : list cproc) (pidhash : list (list nat)) (c : cred)
  : outcome (list cproc * cred) :=
  if negb ((0 <=? pgrp) && (pgrp <=? 32767)) then Ok (tab, set_error c CRED_EINVAL)
  else
    me ← rd tab cur;
    let pid := if pid =? 0 then c_pid me else pid in
    chain ← rd pidhash (PIDHASH pid);
    r ← pfind tab chain pid;
    match r with
    | None => Ok (tab, set_error c CRED_ESRCH)
    | Some p =>
        x ← rd tab p;
        deny ← (if negb (c_uid x =? u_uid c) && negb (u_uid c =? 0)
                then b ← inferior (length tab) tab p cur; Ok (negb b) else Ok false);
        if deny : bool then Ok (tab, set_error c EPERM)
        else t ← wr tab p (Cproc (c_pid x) (c_ppid x) (c_pptr x) (c_uid x) pgrp); Ok (t, c)
    end.

(** ** File permission: [access] of [ufs_fio.c] *)

Definition IREAD : Z := 256.
Definition IWRITE : Z := 128.
Definition IEXEC : Z := 64.
Definition IFMT : Z := 61440.
Definition IFCHR : Z := 8192.
Definition IFBLK : Z := 24576.
Definition ITEXT : Z := 32.
Definition IMMUTABLE : Z := 0x0202.

Record perm_inode := Perm { i_mode : Z; i_puid : Z; i_pgid : Z; i_flags : Z; i_iflag : Z; fs_ronly : bool }.

(** The permission check on one class of the mode. *)
Definition access_mode (c : cred) (ip : perm_inode) (mode : Z) : Z :=
  if negb (u_uid c =? i_puid ip) then
    let m := Z.shiftr mode 3 in
    if groupmember_in (i_pgid ip) (u_groups c) then m else Z.shiftr m 3
  else mode.

(** [true] is access refused (the code returns 1). *)
Definition access (ip : perm_inode) (mode : Z) (c : cred) : bool * cred :=
  if (mode =? IWRITE) && negb (Z.land (i_flags ip) IMMUTABLE =? 0) then (true, set_error c EPERM)
  else if (mode =? IWRITE) && negb (Z.land (i_iflag ip) ITEXT =? 0) then (true, set_error c ETXTBSY)
  else if (mode =? IWRITE) && fs_ronly ip &&
     negb (Z.land (i_mode ip) IFMT =? IFCHR) && negb (Z.land (i_mode ip) IFMT =? IFBLK) then (true, set_error c EROFS)
  else if u_uid c =? 0 then (false, c)
  else if negb (Z.land (i_mode ip) (access_mode c ip mode) =? 0) then (false, c)
  else (true, set_error c CRED_EACCES).

(** ** The set-id step of [exec_clear] *)

Definition exec_cred (traced : bool) (uid gid : Z) (c : cred) : outcome cred :=
  let c := if traced then c
           else Cred uid (u_svuid c) (u_ruid c) (u_svgid c) (u_rgid c) (<[0%nat:=gid]> (u_groups c)) uid (u_error c) (u_rval c) in
  g ← rd (u_groups c) 0;
  Ok (Cred (u_uid c) (u_uid c) (u_ruid c) g (u_rgid c) (u_groups c) (p_uid c) (u_error c) (u_rval c)).

(** ** Theorems *)

Inductive cred_call := CSetuid (uid : Z) | CSeteuid (euid : Z) | CSetgid (gid : Z) | CSetegid (egid : Z)
| CSetgroups (n : Z) (gs : option (list Z)).

Definition cred_run (c : cred) (k : cred_call) : cred :=
  match k with
  | CSetuid uid => setuid uid c
  | CSeteuid euid => seteuid euid c
  | CSetgid gid => setgid gid c
  | CSetegid egid => setegid egid c
  | CSetgroups n gs => setgroups n gs c
  end.

(** The ids of [c] all satisfy [U] and [G]. *)
Record confined (U G : Z -> Prop) (rest : list Z) (c : cred) : Prop := {
  conf_uid : U (u_uid c); conf_ruid : U (u_ruid c); conf_svuid : U (u_svuid c);
  conf_rgid : G (u_rgid c); conf_svgid : G (u_svgid c);
  conf_groups : exists g, u_groups c = g :: rest /\ G g;
  conf_proc : p_uid c = u_uid c
}.

Lemma confined_error U G rest c e : confined U G rest c -> confined U G rest (set_error c e).
Proof. intros []. by constructor. Qed.

Lemma suser_confined U G rest c : ~ U 0 -> confined U G rest c -> suser c = (false, set_error c EPERM).
Proof. intros HU H. unfold suser. destruct (Z.eqb_spec (u_uid c) 0) as [E|]; [|done]. destruct H as [Hu]. by rewrite E in Hu. Qed.

Lemma cred_run_confined U G rest c k : ~ U 0 -> confined U G rest c -> confined U G rest (cred_run c k).
Proof.
  intros HU H. pose proof (suser_confined U G rest c HU H) as Hs. pose proof H as [H1 H2 H3 H4 H5 (g&H6&Hg) H7].
  destruct k as [uid|euid|gid|egid|n gs]; simpl.
  - unfold setuid. destruct (Z.eqb_spec uid (u_ruid c)) as [->|]; simpl; [by constructor; simpl; eauto|]. rewrite Hs. by apply confined_error.
  - unfold seteuid. destruct (Z.eqb_spec euid (u_ruid c)) as [->|]; simpl; [by constructor; simpl; eauto|].
    destruct (Z.eqb_spec euid (u_svuid c)) as [->|]; simpl; [by constructor; simpl; eauto|]. rewrite Hs. by apply confined_error.
  - unfold setgid. destruct (gid =? NOGROUP); [by apply confined_error|].
    destruct (Z.eqb_spec gid (u_rgid c)) as [->|]; simpl; [|rewrite Hs; by apply confined_error].
    constructor; simpl; rewrite ?H6; eauto.
  - unfold setegid. destruct (egid =? NOGROUP); [by apply confined_error|].
    destruct (Z.eqb_spec egid (u_rgid c)) as [->|]; simpl; [constructor; simpl; rewrite ?H6; eauto|].
    destruct (Z.eqb_spec egid (u_svgid c)) as [->|]; simpl; [constructor; simpl; rewrite ?H6; eauto|].
    rewrite Hs. by apply confined_error.
  - unfold setgroups. rewrite Hs. simpl. by apply confined_error.
Qed.

(** C13. No call sequence gains privilege: a process none of whose real,
    effective and saved user ids is the super-user's can, with any sequence
    of [setuid], [seteuid], [setgid], [setegid] and [setgroups] calls, only
    permute itself among the user ids and the group ids it already has; its
    supplementary groups do not change, and the copy of the effective id in
    the process entry, which signal permission reads, always agrees with
    the u area. *)
Theorem cred_confined (U G : Z -> Prop) (rest : list Z) (c : cred) (ks : list cred_call) :
  ~ U 0 -> confined U G rest c -> confined U G rest (foldl cred_run c ks).
Proof. intros HU. revert c. induction ks as [|k ks IH]; intros c H; simpl; [done|]. by apply IH, cred_run_confined. Qed.

(** Dropping privilege with [setuid] is therefore permanent. *)
Lemma setuid_drop (uid : Z) (c : cred) (ks : list cred_call) g rest : uid <> 0 -> u_uid c = 0 -> u_groups c = g :: rest ->
  let c' := foldl cred_run (setuid uid c) ks in u_uid c' = uid /\ u_ruid c' = uid /\ u_svuid c' = uid /\ p_uid c' = uid.
Proof.
  intros Hu H0 Hg c'.
  assert (confined (fun u => u = uid) (fun g' => g' = g \/ g' = u_rgid c \/ g' = u_svgid c) rest (setuid uid c)) as H.
  { unfold setuid, suser. rewrite H0. simpl. destruct (uid =? u_ruid c); constructor; simpl; eauto. }
  assert (~ uid = 0) as Hn by done.
  assert (forall c0, confined (fun u => u = uid) (fun g' => g' = g \/ g' = u_rgid c \/ g' = u_svgid c) rest c0 ->
    confined (fun u => u = uid) (fun g' => g' = g \/ g' = u_rgid c \/ g' = u_svgid c) rest (foldl cred_run c0 ks)) as Hrun.
  { induction ks as [|k ks IH]; intros c0 Hc; simpl; [done|]. apply IH, cred_run_confined; [lia|done]. }
  destruct (Hrun _ H) as [H1 H2 H3 _ _ _ H7]. split; [done|]. split; [done|]. split; [done|]. unfold c'. by rewrite H7.
Qed.

Definition sample_cred : cred := Cred 5 6 5 3 4 (3 :: 7 :: replicate 14 NOGROUP) 5 0 0.

Lemma cred_confined_witness :
  let c := foldl cred_run sample_cred [CSeteuid 6; CSetuid 0; CSetgroups 0 (Some []); CSetegid 9; CSetegid 4] in
  confined (fun u => u = 5 \/ u = 6) (fun g => g = 3 \/ g = 4) (7 :: replicate 14 NOGROUP) c.
Proof.
  apply cred_confined; [lia|]. constructor; simpl; auto. eexists. auto.
Defined.

(** *** Groups *)

Lemma group_count_set gs k : Forall (fun g => g <> NOGROUP) gs ->
  forall n, (length gs <= n <= length gs + k)%nat -> group_count n (gs ++ replicate k NOGROUP) = Ok (length gs).
Proof.
  intros Hg n. induction n as [|n IH]; intros Hn; cbn [group_count]; [f_equal; lia|].
  destruct (decide (n < length gs)%nat).
  - destruct (lookup_lt_is_Some_2 gs n) as [g Hn']; [done|]. rewrite (rd_ok _ _ g) by by rewrite lookup_app_l.
    cbn [mbind outcome_bind]. rewrite Forall_lookup in Hg. destruct (Z.eqb_spec g NOGROUP); [by destruct (Hg _ _ Hn')|]. simpl. f_equal. lia.
  - rewrite (rd_ok _ _ NOGROUP); [|rewrite lookup_app_r by lia; apply lookup_replicate; split; [done|lia]].
    cbn [mbind outcome_bind]. rewrite Z.eqb_refl. simpl. apply IH. lia.
Qed.

Lemma groupmember_set gs k g : Forall (fun g => g <> NOGROUP) gs -> groupmember_in g (gs ++ replicate k NOGROUP) = bool_decide (g ∈ gs).
Proof.
  induction 1 as [|x gs Hx Hg IH]; [by destruct k|]. cbn [groupmember_in app].
  destruct (Z.eqb_spec x NOGROUP); [done|]. destruct (Z.eqb_spec x g) as [->|].
  - symmetry. apply bool_decide_eq_true. by left.
  - rewrite IH. apply bool_decide_ext. rewrite elem_of_cons. naive_solver.
Qed.

(** The group set round-trips: after the super-user's [setgroups] of at
    most 16 groups, [getgroups] with enough room copies out exactly those
    groups, in order, and returns their number, [groupmember] answers true
    exactly for them, and a smaller buffer is refused with EINVAL. *)
Theorem setgroups_roundtrip (c : cred) (gs : list Z) (size : Z) :
  u_uid c = 0 -> (length gs <= NGROUPS)%nat -> Forall (fun g => g <> NOGROUP) gs ->
  let c' := setgroups (Z.of_nat (length gs)) (Some gs) c in
  u_error c' = 0 /\ length (u_groups c') = NGROUPS /\ (forall g, groupmember g c' = bool_decide (g ∈ gs)) /\
  getgroups size false c' =
    if size <? Z.of_nat (length gs) then Ok ([], set_error c' CRED_EINVAL)
    else Ok (gs, set_rval (set_error c' 0) (Z.of_nat (length gs))).
Proof.
  intros Hu Hl Hg c'. unfold NGROUPS in *.
  assert (c' = Cred (u_uid c) (u_svuid c) (u_ruid c) (u_svgid c) (u_rgid c) (gs ++ replicate (16 - length gs) NOGROUP) (p_uid c) 0 (u_rval c)) as ->.
  { unfold c', setgroups, suser. rewrite Hu. simpl. unfold NGROUPS. destruct (Z.ltb_spec (Z.of_nat 16) (Z.of_nat (length gs))); [lia|].
    rewrite Nat2Z.id. destruct (existsb _ gs) eqn:E; [exfalso|by rewrite <- Hu]. apply existsb_exists in E as [g [Hin ->%Z.eqb_eq]].
    rewrite Forall_forall in Hg. apply (Hg NOGROUP); [by apply list_elem_of_In|done]. }
  split; [done|]. split; [cbn; rewrite length_app, length_replicate; lia|]. split; [intros g; by apply groupmember_set|].
  unfold getgroups, NGROUPS. cbn [u_groups]. rewrite group_count_set by (done || lia). cbn [mbind outcome_bind].
  destruct (size <? Z.of_nat (length gs)); [done|]. by rewrite take_app_length.
Qed.

Lemma setgroups_roundtrip_witness :
  getgroups 8 false (setgroups 3 (Some [10; 20; 30]) (Cred 0 0 0 0 0 [0] 0 0 0)) =
  Ok ([10; 20; 30], set_rval (set_error (setgroups 3 (Some [10; 20; 30]) (Cred 0 0 0 0 0 [0] 0 0 0)) 0) 3).
Proof.
  destruct (setgroups_roundtrip (Cred 0 0 0 0 0 [0] 0 0 0) [10; 20; 30] 8) as (_&_&_&E);
    [reflexivity|unfold NGROUPS; simpl; lia|repeat constructor; unfold NOGROUP; lia|]. exact E.
Defined.

(** *** File permission *)

(** The nine permission bits decide by class: the owner's, the group's or
    the others', never a later one. *)
Definition class_shift (c : cred) (ip : perm_inode) : Z :=
  if u_uid c =? i_puid ip then 6 else if groupmember_in (i_pgid ip) (u_groups c) then 3 else 0.

Lemma land_bit m b : 0 <= b -> negb (Z.land m (2 ^ b) =? 0) = Z.testbit m b.
Proof.
  intros Hb. assert (Z.land m (2 ^ b) = Z.b2z (Z.testbit m b) * 2 ^ b) as ->.
  { apply Z.bits_inj'. intros n Hn. rewrite Z.land_spec, Z.pow2_bits_eqb by done. destruct (Z.eqb_spec b n) as [->|].
    - destruct (Z.testbit m n) eqn:E; cbn [Z.b2z andb]; [by rewrite Z.mul_1_l, Z.pow2_bits_true|by rewrite Z.mul_0_l, Z.bits_0].
    - rewrite andb_false_r. destruct (Z.testbit m b); cbn [Z.b2z]; [by rewrite Z.mul_1_l, Z.pow2_bits_false|by rewrite Z.mul_0_l, Z.bits_0]. }
  destruct (Z.testbit m b); cbn [Z.b2z]; [|done]. rewrite Z.mul_1_l. pose proof (Z.pow_pos_nonneg 2 b eq_refl Hb).
  destruct (Z.eqb_spec (2 ^ b) 0); [lia|done].
Qed.

Definition write_blocked (ip : perm_inode) : Prop :=
  Z.land (i_flags ip) IMMUTABLE <> 0 \/ Z.land (i_iflag ip) ITEXT <> 0 \/
  (fs_ronly ip = true /\ Z.land (i_mode ip) IFMT <> IFCHR /\ Z.land (i_mode ip) IFMT <> IFBLK).

#[global] Instance write_blocked_dec ip : Decision (write_blocked ip).
Proof. unfold write_blocked. apply _. Defined.

(** [access] grants reading (bit 2), writing (bit 1) or execution (bit
    0) exactly when writing is not blocked by the file's flags, a running
    text or a read-only file system, and the process is the super-user or
    the single class it belongs to (owner, else member of the group, else
    other) has the bit; a refusal leaves the matching error and nothing
    else changes. *)
Theorem access_spec (c : cred) (ip : perm_inode) (b : Z) :
  b = 0 \/ b = 1 \/ b = 2 ->
  let granted := ~ (b = 1 /\ write_blocked ip) /\ (u_uid c = 0 \/ Z.testbit (i_mode ip) (class_shift c ip + b) = true) in
  (granted -> access ip (2 ^ (6 + b)) c = (false, c)) /\
  (~ granted -> exists e, e <> 0 /\ access ip (2 ^ (6 + b)) c = (true, set_error c e)).
Proof.
  intros Hb granted. unfold access.
  assert ((2 ^ (6 + b) =? IWRITE) = bool_decide (b = 1)) as -> by (destruct Hb as [->|[-> | ->]]; reflexivity).
  assert (negb (Z.land (i_mode ip) (access_mode c ip (2 ^ (6 + b))) =? 0) = Z.testbit (i_mode ip) (class_shift c ip + b)) as ->.
  { unfold access_mode, class_shift. destruct (u_uid c =? i_puid ip); cbn [negb]; [by rewrite land_bit by lia|].
    destruct (groupmember_in _ _); rewrite ?Z.shiftr_shiftr by lia; rewrite Z.shiftr_div_pow2, <- Z.pow_sub_r by lia;
      rewrite land_bit by lia; f_equal; lia. }
  unfold granted, write_blocked. clear granted. destruct (decide (b = 1)) as [->|Hb1].
  - rewrite bool_decide_eq_true_2 by done. cbn [andb].
    destruct (Z.eqb_spec (Z.land (i_flags ip) IMMUTABLE) 0); cbn [negb andb]; [|split; [intros [Hn _]; destruct Hn; naive_solver|intros _; eexists; (split; [|reflexivity]); done]].
    destruct (Z.eqb_spec (Z.land (i_iflag ip) ITEXT) 0); cbn [negb andb]; [|split; [intros [Hn _]; destruct Hn; naive_solver|intros _; eexists; (split; [|reflexivity]); done]].
    destruct (fs_ronly ip) eqn:Er, (Z.eqb_spec (Z.land (i_mode ip) IFMT) IFCHR), (Z.eqb_spec (Z.land (i_mode ip) IFMT) IFBLK); cbn [negb andb];
      try (split; [intros [Hn _]; destruct Hn; naive_solver|intros _; eexists; (split; [|reflexivity]); done]);
      (destruct (Z.eqb_spec (u_uid c) 0); [split; [done|intros Hn; exfalso; apply Hn; split; [|by left]; naive_solver]|]);
      (destruct (Z.testbit (i_mode ip) (class_shift c ip + 1)); [split; [done|intros Hn; exfalso; apply Hn; split; [|by right]; naive_solver]|]);
      (split; [intros [_ [?|?]]; done|intros _; eexists; (split; [|reflexivity]); done]).
  - rewrite bool_decide_eq_false_2 by done. cbn [andb].
    destruct (Z.eqb_spec (u_uid c) 0); [split; [done|intros Hn; exfalso; apply Hn; split; [by intros [? _]|by left]]|].
    destruct (Z.testbit (i_mode ip) (class_shift c ip + b)); [split; [done|intros Hn; exfalso; apply Hn; split; [by intros [? _]|by right]]|].
    split; [intros [_ [?|?]]; done|intros _; eexists; (split; [|reflexivity]); done].
Qed.

Lemma access_spec_witness : exists e, access (Perm 452 5 3 0 0 false) IREAD (Cred 8 8 8 3 3 [3; NOGROUP] 8 0 0) = (true, e).
Proof.
  destruct (access_spec (Cred 8 8 8 3 3 [3; NOGROUP] 8 0 0) (Perm 452 5 3 0 0 false) 2) as [_ H]; [lia|].
  destruct H as (e&_&E); [intros [_ [?|?]]; done|]. eexists. exact E.
Defined.
