(* ===== verification/Sched.v ===== *)
(** * Scheduling ([sys/kern/kern_synch.c], [donice] and its callers in
    [kern_resource.c], the queue handling of [vm_sched.c] and [vm_swap.c])

    A process entry has its state, flags, priority and scheduling counters;
    [p_pri], [p_cpu], [p_nice], [p_slptime] and [p_time] are [char], which
    is unsigned on this machine. A process is on at most one queue through
    [p_link]: a sleep queue, hashed by the address slept on, or the run
    queue; a queue is modelled as the list of its processes in link order.
    [psignal] and [CURSIG] are arguments of the operations that call them.
    The context switch ends an operation: [swtch] gives the process chosen,
    or none when the processor idles. *)
From S2P Require Import Prelude Clock.

Definition SSLEEP : Z := 1.
Definition SWAIT : Z := 2.
Definition SRUN : Z := 3.
Definition SIDL : Z := 4.
Definition SZOMB : Z := 5.
Definition SSTOP : Z := 6.

Definition SLOAD : Z := 0x0001.
Definition SSYS : Z := 0x0002.
Definition SSWAP : Z := 0x0008.
Definition P_SINTR : Z := 0x0080.
Definition P_WAITED : Z := 0x0020.
Definition P_TIMEOUT : Z := 0x1000.

Definition PZERO : Z := 25.
Definition PUSER : Z := 50.
Definition PRIMASK : Z := 0xff.
Definition PCATCH : Z := 0x100.
Definition SIGALRM : Z := 14.
Definition INT_MAX : Z := 0x7fffffff.
Definition TS_EINVAL : Z := 22.
Definition EINTR : Z := 4.
Definition EWOULDBLOCK : Z := 35.
Definition ERESTART : Z := -1.
Definition sigmask (m : Z) : Z := u32 (Z.shiftl 1 (m - 1)).
Definition SQSIZE : nat := 16.

Definition HASH (x : Z) : nat := Z.to_nat (Z.land (Z.shiftr x 5) 15).

Record sproc := Sproc {
  p_stat : Z; p_flag : Z; p_pri : Z; p_scpu : Z; p_snice : Z; p_slptime : Z; p_time : Z;
  p_wchan : Z; p_rtvalue : Z; p_rtinterval : Z
}.

Record sched := Sched {
  sprocs : list sproc;
  slpque : list (list nat);
  qs : list nat;
  runrun : Z;
  curpri : Z;
  runin : Z;
  runout : Z;
  cur : option nat                 (* the running process *)
}.

(** The addresses of [runin], [runout] and [lbolt], slept on. *)
Definition A_RUNIN : Z := 0x1000.
Definition A_RUNOUT : Z := 0x1020.
Definition A_LBOLT : Z := 0x1040.

Definition set_procs (st : sched) (l : list sproc) : sched :=
  Sched l (slpque st) (qs st) (runrun st) (curpri st) (runin st) (runout st) (cur st).
Definition set_slpque (st : sched) (q : list (list nat)) : sched :=
  Sched (sprocs st) q (qs st) (runrun st) (curpri st) (runin st) (runout st) (cur st).
Definition set_qs (st : sched) (q : list nat) : sched :=
  Sched (sprocs st) (slpque st) q (runrun st) (curpri st) (runin st) (runout st) (cur st).
Definition set_runrun (st : sched) (n : Z) : sched :=
  Sched (sprocs st) (slpque st) (qs st) n (curpri st) (runin st) (runout st) (cur st).
Definition set_curpri (st : sched) (n : Z) : sched :=
  Sched (sprocs st) (slpque st) (qs st) (runrun st) n (runin st) (runout st) (cur st).
Definition set_runin (st : sched) (n : Z) : sched :=
  Sched (sprocs st) (slpque st) (qs st) (runrun st) (curpri st) n (runout st) (cur st).
Definition set_runout (st : sched) (n : Z) : sched :=
  Sched (sprocs st) (slpque st) (qs st) (runrun st) (curpri st) (runin st) n (cur st).
Definition set_cur (st : sched) (p : option nat) : sched :=
  Sched (sprocs st) (slpque st) (qs st) (runrun st) (curpri st) (runin st) (runout st) p.

Definition set_stat (x : sproc) (v : Z) : sproc :=
  Sproc v (p_flag x) (p_pri x) (p_scpu x) (p_snice x) (p_slptime x) (p_time x) (p_wchan x) (p_rtvalue x) (p_rtinterval x).
Definition set_flag (x : sproc) (v : Z) : sproc :=
  Sproc (p_stat x) v (p_pri x) (p_scpu x) (p_snice x) (p_slptime x) (p_time x) (p_wchan x) (p_rtvalue x) (p_rtinterval x).
Definition set_pri (x : sproc) (v : Z) : sproc :=
  Sproc (p_stat x) (p_flag x) v (p_scpu x) (p_snice x) (p_slptime x) (p_time x) (p_wchan x) (p_rtvalue x) (p_rtinterval x).
Definition set_cpu (x : sproc) (v : Z) : sproc :=
  Sproc (p_stat x) (p_flag x) (p_pri x) v (p_snice x) (p_slptime x) (p_time x) (p_wchan x) (p_rtvalue x) (p_rtinterval x).
Definition set_nice (x : sproc) (v : Z) : sproc :=
  Sproc (p_stat x) (p_flag x) (p_pri x) (p_scpu x) v (p_slptime x) (p_time x) (p_wchan x) (p_rtvalue x) (p_rtinterval x).
Definition set_slptime (x : sproc) (v : Z) : sproc :=
  Sproc (p_stat x) (p_flag x) (p_pri x) (p_scpu x) (p_snice x) v (p_time x) (p_wchan x) (p_rtvalue x) (p_rtinterval x).
Definition set_ptime (x : sproc) (v : Z) : sproc :=
  Sproc (p_stat x) (p_flag x) (p_pri x) (p_scpu x) (p_snice x) (p_slptime x) v (p_wchan x) (p_rtvalue x) (p_rtinterval x).
Definition set_wchan (x : sproc) (v : Z) : sproc :=
  Sproc (p_stat x) (p_flag x) (p_pri x) (p_scpu x) (p_snice x) (p_slptime x) (p_time x) v (p_rtvalue x) (p_rtinterval x).
Definition set_rtvalue (x : sproc) (v : Z) : sproc :=
  Sproc (p_stat x) (p_flag x) (p_pri x) (p_scpu x) (p_snice x) (p_slptime x) (p_time x) (p_wchan x) v (p_rtinterval x).

Definition put (st : sched) (p : nat) (x : sproc) : outcome sched :=
  l ← wr (sprocs st) p x; Ok (set_procs st l).

Definition loaded (x : sproc) : bool := negb (Z.land (p_flag x) SLOAD =? 0).

(** ** Priorities *)

(** The priority [setpri] computes. *)
Definition user_pri (x : sproc) : Z :=
  let p := Z.land (p_scpu x) 255 / 16 in
  let p := p + PUSER + p_snice x in
  if 127 <? p then 127 else p.

Definition setpri (p : nat) (st : sched) : outcome sched :=
  x ← rd (sprocs st) p;
  let n := user_pri x in
  let st := if n <? curpri st then set_runrun st (runrun st + 1) else st in
  put st p (set_pri x (u8 n)).

(** The loop of [updatepri]. [SCHMAG] is the text [8/10], so that
    [SCHMAG * a] is [(8/10) * a]. Each round decrements [slptime]. *)
Fixpoint decay (fuel : nat) (a slptime : Z) : Z * Z :=
  match fuel with
  | O => (a, slptime)
  | S fuel' =>
      if a =? 0 then (a, slptime)
      else
        let slptime := u8 (slptime - 1) in
        if slptime =? 0 then (a, slptime) else decay fuel' (8 / 10 * a) slptime
  end.

Definition updatepri (p : nat) (st : sched) : outcome sched :=
  x ← rd (sprocs st) p;
  let a := Z.land (p_scpu x) 255 in
  let slp := u8 (p_slptime x - 1) in
  let '(a, slp) := decay 256 a slp in
  let a := if a <? 0 then 0 else a in
  let a := if 255 <? a then 255 else a in
  st ← put st p (set_cpu (set_slptime x slp) a);
  setpri p st.

(** ** Queues *)

Definition setrq (p : nat) (st : sched) : sched := set_qs st (p :: qs st).

Fixpoint remove1 (p : nat) (l : list nat) : option (list nat) :=
  match l with
  | [] => None
  | x :: l' => if Nat.eqb x p then Some l' else match remove1 p l' with Some r => Some (x :: r) | None => None end
  end.

Definition remrq (p : nat) (st : sched) : outcome sched :=
  match remove1 p (qs st) with Some l => Ok (set_qs st l) | None => Panic "remrq" end.

(** [unsleep]; running off the end of the queue is [Fault]. *)
Definition unsleep (p : nat) (st : sched) : outcome sched :=
  x ← rd (sprocs st) p;
  if negb (p_wchan x =? 0) then
    q ← rd (slpque st) (HASH (p_wchan x));
    match remove1 p q with
    | None => Fault
    | Some q' => s ← wr (slpque st) (HASH (p_wchan x)) q'; put (set_slpque st s) p (set_wchan x 0)
    end
  else Ok st.

(** Taking the run-queue step of [setrun] and of the expansion in [wakeup]:
    [again] is the call [wakeup(&runout)]. *)
Definition wake_swapper (again : sched -> outcome sched) (x : sproc) (st : sched) : outcome sched :=
  if negb (loaded x) then
    if negb (runout st =? 0) then again (set_runout st 0) else Ok st
  else Ok st.

(** The inline expansion of [setrun] in [wakeup], for a process already
    unlinked. *)
Definition wake_one (again : sched -> outcome sched) (p : nat) (st : sched) : outcome sched :=
  x ← rd (sprocs st) p;
  st ← (if 1 <? p_slptime x then updatepri p st else Ok st);
  x ← rd (sprocs st) p;
  let x := set_stat (set_slptime x 0) SRUN in
  st ← put st p x;
  let st := if loaded x then setrq p st else st in
  let st := set_runrun st (runrun st + 1) in
  wake_swapper again x st.

(** One pass of [wakeup] over a queue, up to the first process it makes
    runnable: the queue left, the state and that process. Stopped processes
    on [chan] are taken off on the way. *)
Fixpoint wake_scan (chan : Z) (q : list nat) (st : sched) : outcome (list nat * sched * option nat) :=
  match q with
  | [] => Ok ([], st, None)
  | p :: q' =>
      x ← rd (sprocs st) p;
      if negb (p_stat x =? SSLEEP) && negb (p_stat x =? SSTOP) then Panic "wakeup"
      else if p_wchan x =? chan then
        if p_stat x =? SSLEEP then st ← put st p (set_wchan x 0); Ok (q', st, Some p)
        else st ← put st p (set_slptime (set_wchan x 0) 0); wake_scan chan q' st
      else
        r ← wake_scan chan q' st;
        Ok (p :: fst (fst r), snd (fst r), snd r)
  end.

(** [wakeup], restarting at the head after each process made runnable. The
    queue shrinks at each restart, so its length bounds them. *)
Fixpoint wakeup_loop (again : sched -> outcome sched) (fuel : nat) (chan : Z) (st : sched) : outcome sched :=
  match fuel with
  | O => Fault
  | S fuel' =>
      q ← rd (slpque st) (HASH chan);
      r ← wake_scan chan q st;
      let '(q, st, found) := r in
      s ← wr (slpque st) (HASH chan) q;
      let st := set_slpque st s in
      match found with
      | None => Ok st
      | Some p => st ← wake_one again p st; wakeup_loop again fuel' chan st
      end
  end.

(** The nested call of [wakeup] finds [runout] zero and does not nest. *)
Definition wakeup_runout (st : sched) : outcome sched :=
  wakeup_loop (fun _ => Fault) (S (length (sprocs st))) A_RUNOUT st.

Definition wakeup (chan : Z) (st : sched) : outcome sched :=
  wakeup_loop wakeup_runout (S (length (sprocs st))) chan st.

Definition setrun (p : nat) (st : sched) : outcome sched :=
  x ← rd (sprocs st) p;
  st ← (if (p_stat x =? SSTOP) || (p_stat x =? SSLEEP) then unsleep p st
        else if p_stat x =? SIDL then Ok st else Panic "setrun");
  x ← rd (sprocs st) p;
  st ← (if 1 <? p_slptime x then updatepri p st else Ok st);
  x ← rd (sprocs st) p;
  let x := set_stat x SRUN in
  st ← put st p x;
  let st := if loaded x then setrq p st else st in
  let st := if p_pri x <? curpri st then set_runrun st (runrun st + 1) else st in
  wake_swapper wakeup_runout x st.

(** ** Sleeping and switching *)

(** The search of [swtch]: the first process of the best priority. *)
Fixpoint best (procs : list sproc) (q : list nat) (n : Z) (pp : option nat) : outcome (option nat * Z) :=
  match q with
  | [] => Ok (pp, n)
  | p :: q' =>
      x ← rd procs p;
      if loaded x && (p_pri x <? n) then best procs q' (p_pri x) (Some p) else best procs q' n pp
  end.

(** [swtch], up to the [longjmp]: with no process to run the processor
    idles, and the loop is entered again after an interrupt. *)
Definition swtch (st : sched) : outcome sched :=
  let st := set_runrun st 0 in
  r ← best (sprocs st) (qs st) 128 None;
  match fst r with
  | None => Ok (set_cur st None)
  | Some p =>
      st ← remrq p st;
      let st := set_curpri st (snd r) in
      x ← rd (sprocs st) p;
      st ← put st p (set_flag x (Z.ldiff (p_flag x) SSWAP));
      Ok (set_cur st (Some p))
  end.

(** How a call of [tsleep] leaves the processor: it returned a value; or the
    process was switched away from, asleep (it goes on with [tsleep_resume]),
    stopped by the first [CURSIG] (it goes on with [tsleep_signal]) or by the
    last one (it goes on with [tsleep_value]). *)
Inductive slept := Returned (v : Z) | Asleep | StoppedFirst | StoppedLast.

Section tsleep.
(** [W] is the state of the signals. [CURSIG(p)] gives the state after it and
    the signal to take or zero, or nothing when it stopped the process and
    switched to another; [sigintr] is [u.u_sigintr]; [endtsleep] stands for
    the address of that function. *)
Context {W : Type} (CURSIG : nat -> sched -> W -> outcome (sched * W * option Z)) (sigintr : nat -> W -> Z).
Context (panicstr : bool) (endtsleep : Z).

(** The value for the signal found last. *)
Definition tsleep_value (p : nat) (sig : Z) (w : W) : Z :=
  if negb (sig =? 0) then if negb (Z.land (sigintr p w) (sigmask sig) =? 0) then EINTR else ERESTART else 0.

(** From [resume] on. *)
Definition tsleep_resume (p : nat) (catch : bool) (sig timo : Z) (st : sched) (w : W) (co : callouts)
  : outcome (sched * W * callouts * slept) :=
  x ← rd (sprocs st) p;
  let x := set_flag x (Z.ldiff (p_flag x) P_SINTR) in
  let timed_out := negb (Z.land (p_flag x) P_TIMEOUT =? 0) in
  let x := if timed_out then set_flag x (Z.ldiff (p_flag x) P_TIMEOUT) else x in
  st ← put st p x;
  if timed_out && (sig =? 0) then Ok (st, w, co, Returned EWOULDBLOCK)
  else
    let co := if negb timed_out && negb (timo =? 0) then untimeout co endtsleep (Z.of_nat p) else co in
    if catch then
      r ← (if negb (sig =? 0) then Ok (st, w, Some sig) else CURSIG p st w);
      let '(st, w, sig) := r in
      match sig with
      | None => Ok (st, w, co, StoppedLast)
      | Some sig => Ok (st, w, co, Returned (tsleep_value p sig w))
      end
    else Ok (st, w, co, Returned 0).

(** From the test of the first [CURSIG] on. *)
Definition tsleep_signal (p : nat) (catch : bool) (sig timo : Z) (st : sched) (w : W) (co : callouts)
  : outcome (sched * W * callouts * slept) :=
  x ← rd (sprocs st) p;
  if negb (sig =? 0) then
    st ← (if negb (p_wchan x =? 0) then unsleep p st else Ok st);
    x ← rd (sprocs st) p;
    st ← put st p (set_stat x SRUN);
    tsleep_resume p catch sig timo st w co
  else if catch && (p_wchan x =? 0) then tsleep_resume p false sig timo st w co
  else
    st ← put st p (set_stat x SSLEEP);
    let st := set_cur st None in     (* p runs no longer: only swtch is left *)
    st ← (if negb (Nat.eqb p 0) then wakeup A_RUNIN st else Ok st);
    st ← swtch st;
    Ok (st, w, co, Asleep).

(** [tsleep] by the process [p]. *)
Definition tsleep (p : nat) (ident priority timo : Z) (st : sched) (w : W) (co : callouts)
  : outcome (sched * W * callouts * slept) :=
  let catch := negb (Z.land priority PCATCH =? 0) in
  if INT_MAX <? timo then Ok (st, w, co, Returned TS_EINVAL)
  else if panicstr then Ok (st, w, co, Returned 0)
  else
    x ← rd (sprocs st) p;
    let x := set_pri (set_slptime (set_wchan x ident) 0) (Z.land priority PRIMASK) in
    q ← rd (slpque st) (HASH ident);
    s ← wr (slpque st) (HASH ident) (p :: q);
    st ← put (set_slpque st s) p x;
    co ← (if negb (timo =? 0) then timeout co endtsleep (Z.of_nat p) timo else Ok co);
    r ← (if catch then st ← put st p (set_flag x (Z.lor (p_flag x) P_SINTR)); CURSIG p st w else Ok (st, w, Some 0));
    let '(st, w, sig) := r in
    match sig with
    | None => Ok (st, w, co, StoppedFirst)
    | Some sig => tsleep_signal p catch sig timo st w co
    end.

(** [sleep]: nothing when the process was switched away from; otherwise
    [u_error] and whether the system call is abandoned by [longjmp]. *)
Definition sleep_priority (pri : Z) : Z := if PZERO <? pri then Z.lor pri PCATCH else pri.

Definition sleep_result (pri error : Z) : Z * bool :=
  (error, negb ((Z.land (sleep_priority pri) PCATCH =? 0) || (error =? 0))).

Definition sleep (p : nat) (chan pri : Z) (st : sched) (w : W) (co : callouts)
  : outcome (sched * W * callouts * option (Z * bool)) :=
  r ← tsleep p chan (sleep_priority pri) 0 st w co;
  Ok (fst r, match snd r with Returned e => Some (sleep_result pri e) | _ => None end).

End tsleep.

(** [stop]: [pptr] is the address of the parent's entry, slept on by
    [wait]. *)
Definition stop (p : nat) (pptr : Z) (st : sched) : outcome sched :=
  x ← rd (sprocs st) p;
  st ← put st p (set_flag (set_stat x SSTOP) (Z.ldiff (p_flag x) P_WAITED));
  wakeup pptr st.

(** The stop of [issignal]: the current process stops and gives way. *)
Definition stop_current (p : nat) (pptr : Z) (st : sched) : outcome sched :=
  st ← stop p pptr (set_cur st None);     (* p runs no longer *)
  swtch st.

(** [endtsleep], from the callout. *)
Definition endtsleep (p : nat) (st : sched) : outcome sched :=
  x ← rd (sprocs st) p;
  if negb (p_wchan x =? 0) then
    st ← (if p_stat x =? SSLEEP then setrun p st else unsleep p st);
    x ← rd (sprocs st) p;
    put st p (set_flag x (Z.lor (p_flag x) P_TIMEOUT))
  else Ok st.

(** The end of [userret]: the process gives way when [runrun] is set. *)
Definition userret (p : nat) (st : sched) : outcome sched :=
  st ← setpri p st;
  x ← rd (sprocs st) p;
  let st := set_curpri st (p_pri x) in
  if negb (runrun st =? 0) then swtch (setrq p st) else Ok st.

(** The queue part of swapping out ([sched]) and in ([swapin]). *)
Definition sched_swapout (p : nat) (st : sched) : outcome sched :=
  x ← rd (sprocs st) p;
  st ← put st p (set_flag x (Z.ldiff (p_flag x) SLOAD));
  if p_stat x =? SRUN then remrq p st else Ok st.

Definition swapin_queue (p : nat) (st : sched) : outcome sched :=
  x ← rd (sprocs st) p;
  let st := if p_stat x =? SRUN then setrq p st else st in
  put st p (set_ptime (set_flag x (Z.lor (p_flag x) SLOAD)) 0).

(** ** Once a second *)

(** The real-time timer of one process, and whether SIGALRM is due. *)
Definition realtimer_tick (x : sproc) : sproc * bool :=
  if p_rtvalue x =? 0 then (x, false)
  else if p_rtvalue x - 1 =? 0 then (set_rtvalue x 0, true)
  else (set_rtvalue x (p_rtvalue x - 1), false).

Section schedcpu.
(** [psignal] also changes the state of the signals, [W]. *)
Context {W : Type} (psignal : nat -> Z -> sched -> W -> outcome (sched * W)).

Definition schedcpu_one (p : nat) (st : sched) (w : W) : outcome (sched * W) :=
  x ← rd (sprocs st) p;
  let x := if negb (p_time x =? 127) then set_ptime x (u8 (p_time x + 1)) else x in
  let '(x, alarm) := realtimer_tick x in
  st ← put st p x;
  r ← (if alarm : bool then psignal p SIGALRM st w else Ok (st, w));
  let '(st, w) := r in
  x ← rd (sprocs st) p;
  let x := if alarm then set_rtvalue x (p_rtinterval x) else x in
  let x := if ((p_stat x =? SSLEEP) || (p_stat x =? SSTOP)) && negb (p_slptime x =? 127)
           then set_slptime x (u8 (p_slptime x + 1)) else x in
  if 1 <? p_slptime x then st ← put st p x; Ok (st, w)
  else
    let a := Z.land (p_scpu x) 255 * 8 / 10 + p_snice x in
    let a := if a <? 0 then 0 else a in
    let a := if 255 <? a then 255 else a in
    st ← put st p (set_cpu x a);
    st ← (if PUSER <=? p_pri x then setpri p st else Ok st);
    Ok (st, w).

Fixpoint schedcpu_loop (l : list nat) (st : sched) (w : W) : outcome (sched * W) :=
  match l with [] => Ok (st, w) | p :: l' => r ← schedcpu_one p st w; schedcpu_loop l' (fst r) (snd r) end.

(** [schedcpu] over [allproc], less the virtual memory meters; it schedules
    itself again after [hz] ticks. *)
Definition schedcpu (self hz : Z) (allproc : list nat) (st : sched) (w : W) (co : callouts) : outcome (sched * W * callouts) :=
  st ← wakeup A_LBOLT st;
  r ← schedcpu_loop allproc st w;
  let '(st, w) := r in
  st ← (if negb (runin st =? 0) then wakeup A_RUNIN (set_runin st 0) else Ok st);
  let st := set_runrun st (runrun st + 1) in
  co ← timeout co self 0 hz;
  Ok (st, w, co).

End schedcpu.

(** ** [nice] *)

Definition PRIO_MIN : Z := -20.
Definition PRIO_MAX : Z := 20.
Definition N_EPERM : Z := 1.
Definition N_EACCES : Z := 13.

(** [donice] by a process with these user ids on an entry of user [puid]:
    the entry and the error. *)
Definition donice (uid ruid puid : Z) (x : sproc) (n : Z) : sproc * Z :=
  if negb (uid =? 0) && negb (ruid =? 0) && negb (uid =? puid) && negb (ruid =? puid) then (x, N_EPERM)
  else
    let n := if PRIO_MAX <? n then PRIO_MAX else n in
    let n := if n <? PRIO_MIN then PRIO_MIN else n in
    if (n <? p_snice x) && negb (uid =? 0) then (x, N_EACCES)
    else (set_nice x (u8 n), 0).

(** [getpriority] of one process. *)
Definition getpriority_process (x : sproc) : Z := p_snice x.

(** ** The queue invariant *)

Lemma HASH_lt x : (HASH x < 16)%nat.
Proof. unfold HASH. change 15 with (2 ^ 4 - 1). rewrite land_pow2_mod by lia. pose proof (Z.mod_pos_bound (Z.shiftr x 5) (2 ^ 4) eq_refl). lia. Qed.

(** [lim] is a process in the middle of being woken: off its queue, not yet
    runnable. *)
Record sched_inv (lim : option nat) (st : sched) : Prop := {
  inv_len : length (slpque st) = 16%nat;
  inv_sleep : forall h q p, slpque st !! h = Some q -> p ∈ q ->
    exists x, sprocs st !! p = Some x /\ p_wchan x <> 0 /\ HASH (p_wchan x) = h /\ (p_stat x = SSLEEP \/ p_stat x = SSTOP);
  inv_nodup : forall h q, slpque st !! h = Some q -> NoDup q;
  inv_wchan : forall p x, sprocs st !! p = Some x -> p_wchan x <> 0 ->
    exists q, slpque st !! HASH (p_wchan x) = Some q /\ p ∈ q;
  inv_qs_nodup : NoDup (qs st);
  inv_qs : forall p, p ∈ qs st <-> exists x, sprocs st !! p = Some x /\ p_stat x = SRUN /\ loaded x = true /\ cur st <> Some p;
  inv_cur : forall p, cur st = Some p -> exists x, sprocs st !! p = Some x /\ p_stat x = SRUN /\ loaded x = true;
  inv_asleep : forall p x, sprocs st !! p = Some x -> p_stat x = SSLEEP -> p_wchan x <> 0 \/ lim = Some p
}.

(** Changing an entry without touching its state, flags or channel. *)
Definition same_sched (x x' : sproc) : Prop :=
  p_stat x' = p_stat x /\ loaded x' = loaded x /\ p_wchan x' = p_wchan x.

Lemma put_ok st p x x' : sprocs st !! p = Some x -> put st p x' = Ok (set_procs st (<[p:=x']> (sprocs st))).
Proof. intros Hx. unfold put. by rewrite wr_ok by (by eapply lookup_lt_Some). Qed.

Lemma lookup_put {A} (l : list A) p x' r : (p < length l)%nat -> (<[p:=x']> l) !! r = if decide (r = p) then Some x' else l !! r.
Proof. intros. case_decide; [subst; by apply list_lookup_insert_eq|by apply list_lookup_insert_ne]. Qed.

Lemma inv_same lim st p x x' rr : sprocs st !! p = Some x -> same_sched x x' -> sched_inv lim st ->
  sched_inv lim (set_runrun (set_procs st (<[p:=x']> (sprocs st))) rr).
Proof.
  intros Hx (E1&E2&E3) []. pose proof (lookup_lt_Some _ _ _ Hx) as Hlt.
  constructor; cbn [set_procs set_runrun sprocs slpque qs cur]; try done.
  - intros h q r Hq Hr. destruct (inv_sleep0 h q r Hq Hr) as (y&Hy&?&?&?). rewrite lookup_put by done. case_decide; [|by exists y].
    subst r. rewrite Hx in Hy. injection Hy as <-. exists x'. rewrite E1, E3. done.
  - intros r y. rewrite lookup_put by done. case_decide; [|by apply inv_wchan0]. intros [= <-] Hw. subst r. rewrite E3 in *. by apply inv_wchan0.
  - intros r. rewrite inv_qs0, lookup_put by done. case_decide; [|done]. subst r. rewrite Hx. split; intros (y&[= <-]&H1&H2&H3); eexists; (split; [done|]);
      rewrite ?E1, ?E2 in *; done.
  - intros r Hr. destruct (inv_cur0 r Hr) as (y&Hy&?&?). rewrite lookup_put by done. case_decide; [|by exists y]. subst r. rewrite Hx in Hy.
    injection Hy as <-. exists x'. rewrite E1, E2. done.
  - intros r y. rewrite lookup_put by done. case_decide; [|by apply inv_asleep0]. intros [= <-] Hs. subst r. rewrite E1 in Hs. rewrite E3. by apply inv_asleep0.
Qed.

Lemma set_runrun_id st : set_runrun st (runrun st) = st.
Proof. by destruct st. Qed.

Lemma setpri_inv lim st p x : sprocs st !! p = Some x -> sched_inv lim st ->
  exists st' x', setpri p st = Ok st' /\ sched_inv lim st' /\ sprocs st' = <[p:=x']> (sprocs st) /\ same_sched x x' /\
    slpque st' = slpque st /\ qs st' = qs st /\ cur st' = cur st /\ runout st' = runout st /\ p_flag x' = p_flag x /\ p_slptime x' = p_slptime x.
Proof.
  intros Hx H. unfold setpri. rewrite (rd_ok _ _ _ Hx). cbn [mbind outcome_bind]. set (x' := set_pri x (u8 (user_pri x))).
  assert (same_sched x x') as Hs by done. destruct (user_pri x <? curpri st).
  - rewrite (put_ok _ p x) by done. eexists _, x'. split; [done|]. split; [|done]. by apply (inv_same lim st p x x' (runrun st + 1)).
  - rewrite (put_ok _ p x) by done. eexists _, x'. split; [done|]. split; [|done]. by apply (inv_same lim st p x x' (runrun st)) in H; [|done..].
Qed.

Lemma updatepri_inv lim st p x : sprocs st !! p = Some x -> sched_inv lim st ->
  exists st' x', updatepri p st = Ok st' /\ sched_inv lim st' /\ sprocs st' = <[p:=x']> (sprocs st) /\ same_sched x x' /\
    slpque st' = slpque st /\ qs st' = qs st /\ cur st' = cur st /\ runout st' = runout st /\ p_flag x' = p_flag x.
Proof.
  intros Hx H. pose proof (lookup_lt_Some _ _ _ Hx) as Hlt. unfold updatepri. rewrite (rd_ok _ _ _ Hx). cbn [mbind outcome_bind].
  destruct (decay _ _ _) as [a slp]. set (a' := if 255 <? _ then _ else _). set (x1 := set_cpu (set_slptime x slp) a').
  rewrite (put_ok _ p x) by done. cbn [mbind outcome_bind].
  assert (sched_inv lim (set_procs st (<[p:=x1]> (sprocs st)))) as H1.
  { rewrite <- (set_runrun_id (set_procs _ _)). by apply (inv_same lim st p x x1). }
  destruct (setpri_inv lim (set_procs st (<[p:=x1]> (sprocs st))) p x1) as (st'&x'&->&H'&E&Hs&?&?&?&?&?&_); [|done|].
  { cbn. rewrite lookup_put by done. by rewrite decide_True. }
  exists st', x'. split; [done|]. split; [done|]. split; [|done]. rewrite E. cbn. by rewrite list_insert_insert_eq.
Qed.

(** *** [wakeup] *)

(** What a scan does to the process [r] of the queue. *)
Definition scanned (chan : Z) (q' : list nat) (found : option nat) (r : nat) (x x' : sproc) : Prop :=
  (r ∈ q' /\ x' = x) \/
  (r ∉ q' /\ p_wchan x = chan /\ p_wchan x' = 0 /\ p_stat x' = p_stat x /\ p_flag x' = p_flag x /\
   ((found = Some r /\ p_stat x = SSLEEP) \/ (found <> Some r /\ p_stat x = SSTOP))).

Lemma wake_scan_spec chan q st : NoDup q ->
  (forall p, p ∈ q -> exists x, sprocs st !! p = Some x /\ (p_stat x = SSLEEP \/ p_stat x = SSTOP)) ->
  exists q' l' found, wake_scan chan q st = Ok (q', set_procs st l', found) /\ length l' = length (sprocs st) /\
    NoDup q' /\ (forall r, r ∈ q' -> r ∈ q) /\ (length q' <= length q)%nat /\
    (forall r, r ∉ q -> l' !! r = sprocs st !! r) /\
    (forall r x, r ∈ q -> sprocs st !! r = Some x -> exists x', l' !! r = Some x' /\ scanned chan q' found r x x') /\
    match found with
    | None => forall r x, r ∈ q' -> sprocs st !! r = Some x -> p_wchan x <> chan
    | Some p => p ∈ q /\ p ∉ q' /\ (length q' < length q)%nat
    end.
Proof.
  revert st. induction q as [|p q IH]; intros st Hnd Hq; cbn [wake_scan].
  { exists [], (sprocs st), None. split; [by destruct st|]. split_and!; try done; try lia.
    all: intros r x Hr; by apply not_elem_of_nil in Hr. }
  apply NoDup_cons in Hnd as [Hni Hnd]. destruct (Hq p) as (x&Hx&Hst); [by left|]. pose proof (lookup_lt_Some _ _ _ Hx) as Hlt.
  rewrite (rd_ok _ _ _ Hx). cbn [mbind outcome_bind].
  replace (negb (p_stat x =? SSLEEP) && negb (p_stat x =? SSTOP)) with false
    by (symmetry; destruct Hst as [-> | ->]; reflexivity).
  destruct (Z.eqb_spec (p_wchan x) chan) as [Hc|Hc].
  - destruct (Z.eqb_spec (p_stat x) SSLEEP) as [Hs|Hs].
    + rewrite (put_ok _ p x) by done. cbn [mbind outcome_bind]. set (x1 := set_wchan x 0).
      exists q, (<[p:=x1]> (sprocs st)), (Some p). split; [done|]. split; [by rewrite length_insert|]. split; [done|].
      split; [intros r Hr; by right|]. split; [simpl; lia|]. split.
      { intros r Hr. rewrite lookup_put by done. rewrite decide_False; [done|]. intros ->. apply Hr. by left. }
      split; [|split; [by left|split; [done|simpl; lia]]].
      intros r y Hr Hy. rewrite lookup_put by done. case_decide as Er.
      * subst r. rewrite Hx in Hy. injection Hy as <-. exists x1. split; [done|]. right. split_and!; try done. by left.
      * apply elem_of_cons in Hr as [?|Hr]; [done|]. exists y. split; [done|]. by left.
    + assert (p_stat x = SSTOP) as Hss by (destruct Hst; done). rewrite (put_ok _ p x) by done. cbn [mbind outcome_bind].
      set (x1 := set_slptime (set_wchan x 0) 0). set (st1 := set_procs st _).
      destruct (IH st1 Hnd) as (q'&l'&found&->&Hl&Hnd'&Hsub&Hle&Hout&Hin&Hf).
      { intros r Hr. destruct (Hq r) as (y&Hy&?); [by right|]. exists y. split; [|done]. cbn. rewrite lookup_put by done.
        rewrite decide_False; [done|]. by intros ->. }
      assert (forall r, r ∈ q -> sprocs st1 !! r = sprocs st !! r) as Hsame.
      { intros r Hr. cbn. rewrite lookup_put by done. rewrite decide_False; [done|]. by intros ->. }
      exists q', l', found. split; [done|]. split; [by rewrite Hl; cbn; rewrite length_insert|]. split; [done|].
      split; [intros r Hr; right; by apply Hsub|]. split; [simpl; lia|]. split; [|split].
      * intros r [Hr1 Hr2]%not_elem_of_cons. rewrite Hout by done. cbn. rewrite lookup_put by done. by rewrite decide_False.
      * intros r y Hr Hy. apply elem_of_cons in Hr as [->|Hr].
        -- rewrite Hx in Hy. injection Hy as <-. rewrite Hout by done. cbn. rewrite lookup_put, decide_True by done. exists x1. split; [done|].
           right. split_and!; try done; [by intros ?%Hsub|]. right. split; [|done]. intros ->. by destruct Hf as [? _].
        -- apply Hin; [done|]. by rewrite Hsame.
      * destruct found as [r|].
        -- destruct Hf as (?&?&?). split; [by right|]. split; [done|]. simpl. lia.
        -- intros r y Hr Hy. apply (Hf r); [done|]. rewrite Hsame; [done|]. by apply Hsub.
  - destruct (IH st Hnd) as (q'&l'&found&->&Hl&Hnd'&Hsub&Hle&Hout&Hin&Hf); [intros r Hr; apply Hq; by right|].
    cbn [mbind outcome_bind fst snd]. exists (p :: q'), l', found. split; [done|]. split; [done|].
    split; [apply NoDup_cons; split; [by intros ?%Hsub|done]|].
    split; [intros r [->|Hr]%elem_of_cons; [by left|right; by apply Hsub]|]. split; [simpl; lia|]. split; [|split].
    + intros r [Hr1 Hr2]%not_elem_of_cons. by apply Hout.
    + intros r y Hr Hy. apply elem_of_cons in Hr as [->|Hr].
      * rewrite Hout by done. exists y. split; [done|]. left. split; [by left|done].
      * destruct (Hin r y Hr Hy) as (y'&Hy'&Hsc). exists y'. split; [done|]. destruct Hsc as [[? ?]|(?&?&?&?&?&?)]; [left|right].
        -- split; [by right|done].
        -- split_and!; try done. apply not_elem_of_cons. split; [by intros ->|done].
    + destruct found as [r|].
      * destruct Hf as (?&?&?). split; [by right|]. split; [|simpl; lia]. apply not_elem_of_cons. split; [by intros ->|done].
      * intros r y Hr Hy. apply elem_of_cons in Hr as [->|Hr]; [congruence|by apply (Hf r)].
Qed.

Lemma scan_inv chan st q q' l' found : chan <> 0 -> sched_inv None st -> slpque st !! HASH chan = Some q ->
  length l' = length (sprocs st) -> NoDup q' -> (forall r, r ∈ q' -> r ∈ q) ->
  (forall r, r ∉ q -> l' !! r = sprocs st !! r) ->
  (forall r x, r ∈ q -> sprocs st !! r = Some x -> exists x', l' !! r = Some x' /\ scanned chan q' found r x x') ->
  sched_inv found (set_slpque (set_procs st l') (<[HASH chan:=q']> (slpque st))).
Proof.
  intros Hc H Hq Hl Hnd' Hsub Hout Hin. destruct H. pose proof (lookup_lt_Some _ _ _ Hq) as Hlt.
  (* every entry after the scan comes from one before *)
  assert (forall r x', l' !! r = Some x' -> exists x, sprocs st !! r = Some x /\ ((r ∉ q /\ x' = x) \/ (r ∈ q /\ scanned chan q' found r x x'))) as Hback.
  { intros r x' Hr. destruct (decide (r ∈ q)) as [Hrq|Hrq].
    - destruct (inv_sleep0 _ _ _ Hq Hrq) as (x&Hx&_). destruct (Hin r x Hrq Hx) as (y&Hy&Hsc). rewrite Hr in Hy. injection Hy as <-. exists x. auto.
    - rewrite Hout in Hr by done. exists x'. auto. }
  assert (forall r x', l' !! r = Some x' -> exists x, sprocs st !! r = Some x /\ p_stat x' = p_stat x /\ loaded x' = loaded x) as Hst.
  { intros r x' Hr. destruct (Hback r x' Hr) as (x&Hx&[[_ ->]|[_ [[_ ->]|(_&_&_&E1&E2&_)]]]); exists x; unfold loaded; rewrite ?E1, ?E2; done. }
  assert (forall r x, sprocs st !! r = Some x -> exists x', l' !! r = Some x' /\ p_stat x' = p_stat x /\ loaded x' = loaded x) as Hst'.
  { intros r x Hx. destruct (lookup_lt_is_Some_2 l' r) as [x' Hx']; [rewrite Hl; by eapply lookup_lt_Some|]. exists x'. split; [done|].
    destruct (Hst r x' Hx') as (y&Hy&?&?). rewrite Hx in Hy. by injection Hy as <-. }
  constructor; cbn [set_slpque set_procs slpque sprocs qs cur]; try done.
  - by rewrite length_insert.
  - intros h q0 r. rewrite lookup_put by done. case_decide as Eh.
    + intros [= <-] Hr. subst h. pose proof (Hsub _ Hr) as Hrq. destruct (inv_sleep0 _ _ _ Hq Hrq) as (x&Hx&?&?&?).
      destruct (Hin r x Hrq Hx) as (x'&Hx'&[[_ ->]|[? _]]); [|done]. by exists x.
    + intros Hq0 Hr. destruct (inv_sleep0 _ _ _ Hq0 Hr) as (x&Hx&?&?&?). exists x. split; [|done]. rewrite Hout; [done|].
      intros Hrq. destruct (inv_sleep0 _ _ _ Hq Hrq) as (y&Hy&_&?&_). rewrite Hx in Hy. injection Hy as <-. congruence.
  - intros h q0. rewrite lookup_put by done. case_decide; [by intros [= <-]|by apply inv_nodup0].
  - intros r x' Hr Hw. destruct (Hback r x' Hr) as (x&Hx&[[Hn ->]|[Hrq [[Hr' ->]|(_&_&E&_)]]]); [| |done].
    + destruct (inv_wchan0 r x Hx Hw) as (q0&Hq0&Hr0). exists q0. split; [|done]. rewrite lookup_put by done. case_decide as Eh; [|done].
      rewrite Eh, Hq in Hq0. by injection Hq0 as <-.
    + destruct (inv_sleep0 _ _ _ Hq Hrq) as (y&Hy&_&Eh&_). rewrite Hx in Hy. injection Hy as <-. exists q'. split; [|done].
      rewrite lookup_put by done. by rewrite decide_True.
  - intros r. rewrite inv_qs0. split.
    + intros (x&Hx&?&?&?). destruct (Hst' r x Hx) as (x'&Hx'&E1&E2). exists x'. by rewrite E1, E2.
    + intros (x'&Hx'&?&?&?). destruct (Hst r x' Hx') as (x&Hx&E1&E2). exists x. by rewrite <- E1, <- E2.
  - intros r Hr. destruct (inv_cur0 r Hr) as (x&Hx&?&?). destruct (Hst' r x Hx) as (x'&Hx'&E1&E2). exists x'. by rewrite E1, E2.
  - intros r x' Hr Hs. destruct (Hback r x' Hr) as (x&Hx&[[Hn ->]|[Hrq [[Hr' ->]|(_&_&_&E1&_&[[? _]|[_ E]])]]]).
    + destruct (inv_asleep0 r x Hx Hs); [by left|done].
    + destruct (inv_asleep0 r x Hx Hs); [by left|done].
    + by right.
    + rewrite E1, E in Hs. done.
Qed.

(** The entries [wakeup(chan)] concerns: those that wait on the channel and,
    when the swapper is [told], those that wait on [runout]. *)
Definition concerned (told : Prop) (chan : Z) (x : sproc) : Prop := p_wchan x = chan \/ (told /\ p_wchan x = A_RUNOUT).

(** What it may do to an entry: nothing, or take it off the sleep queue it
    was on; a sleeper becomes runnable, a stopped process stays stopped. *)
Definition woken (told : Prop) (chan : Z) (x x' : sproc) : Prop :=
  p_flag x' = p_flag x /\
  (x' = x \/
   (p_wchan x <> 0 /\ concerned told chan x /\ p_wchan x' = 0 /\
    ((p_stat x = SSLEEP /\ p_stat x' = SRUN /\ p_slptime x' = 0) \/ (p_stat x = SSTOP /\ p_stat x' = SSTOP)))).

Record wakes (told : Prop) (chan : Z) (st st' : sched) : Prop := {
  wk_cur : cur st' = cur st;
  wk_len : length (sprocs st') = length (sprocs st);
  wk_runout : runout st = 0 -> runout st' = 0;
  wk_proc : forall p x, sprocs st !! p = Some x -> exists x', sprocs st' !! p = Some x' /\ woken told chan x x';
  wk_que : forall h q, slpque st !! h = Some q -> exists q', slpque st' !! h = Some q' /\ (length q' <= length q)%nat
}.

(** Nobody waits on the channel. *)
Definition nobody (chan : Z) (st : sched) : Prop := forall p x, sprocs st !! p = Some x -> p_wchan x <> chan.

(** [wakeup(chan)] tells the swapper: it waits for work, and a process the
    call wakes is swapped out. *)
Definition tells_swapper (chan : Z) (st : sched) : Prop :=
  runout st <> 0 /\ exists p x, sprocs st !! p = Some x /\ p_stat x = SSLEEP /\ p_wchan x = chan /\ loaded x = false.

Lemma wakes_refl told chan st : wakes told chan st st.
Proof. constructor; try done; [intros p x Hx; exists x; split; [done|split; [done|by left]]|intros h q Hq; by exists q]. Qed.

Lemma woken_trans told chan x x' x'' : woken told chan x x' -> woken told chan x' x'' -> woken told chan x x''.
Proof.
  intros [F1 H1] [F2 H2]. split; [congruence|]. destruct H1 as [->|(W1&C1&Z1&S1)]; [done|]. right.
  destruct H2 as [->|(W2&_)]; [done|]. by rewrite Z1 in W2.
Qed.

Lemma wakes_trans told chan st1 st2 st3 : wakes told chan st1 st2 -> wakes told chan st2 st3 -> wakes told chan st1 st3.
Proof.
  intros [] []. constructor; [congruence|congruence|auto| |].
  - intros p x Hx. destruct (wk_proc0 p x Hx) as (x'&Hx'&H1). destruct (wk_proc1 p x' Hx') as (x''&Hx''&H2). exists x''. split; [done|].
    by eapply woken_trans.
  - intros h q Hq. destruct (wk_que0 h q Hq) as (q'&Hq'&?). destruct (wk_que1 h q' Hq') as (q''&Hq''&?). exists q''. split; [done|lia].
Qed.

Lemma wakes_mono told told' chan chan' st st' : wakes told chan st st' -> (forall x, concerned told chan x -> concerned told' chan' x) -> wakes told' chan' st st'.
Proof.
  intros [] Hm. constructor; try done. intros p x Hx. destruct (wk_proc0 p x Hx) as (x'&Hx'&F&H). exists x'. split; [done|]. split; [done|].
  destruct H as [->|(?&?&?)]; [by left|right]. split; [done|]. split; [by apply Hm|done].
Qed.

Lemma wakes_true told chan st st' : wakes told chan st st' -> wakes True chan st st'.
Proof. intros H. apply (wakes_mono _ _ _ _ _ _ H). intros x [?|[_ ?]]; [by left|by right]. Qed.

Lemma wakes_weaken (told : Prop) chan told0 st st' : told -> wakes told0 A_RUNOUT st st' -> wakes told chan st st'.
Proof. intros Ht H. apply (wakes_mono _ _ _ _ _ _ H). intros x [?|[_ ?]]; by right. Qed.

(** Nobody starts to wait. *)
Lemma wakes_nobody told chan st st' c : c <> 0 -> wakes told chan st st' -> nobody c st -> nobody c st'.
Proof.
  intros Hc H Hn p x' Hx' Hw. destruct (lookup_lt_is_Some_2 (sprocs st) p) as [x Hx]; [rewrite <- (wk_len _ _ _ _ H); by eapply lookup_lt_Some|].
  destruct (wk_proc _ _ _ _ H p x Hx) as (y&Hy&_&Hcase). rewrite Hx' in Hy. injection Hy as <-. destruct Hcase as [->|(_&_&E&_)]; [by apply (Hn p x)|congruence].
Qed.

(** Making the process at [p], off its queue, runnable. *)
Lemma make_runnable st p x x' rr : sched_inv (Some p) st -> sprocs st !! p = Some x -> p_stat x <> SRUN ->
  p_wchan x = 0 -> p_stat x' = SRUN -> p_flag x' = p_flag x -> p_wchan x' = 0 ->
  let st1 := set_procs st (<[p:=x']> (sprocs st)) in
  sched_inv None (set_runrun (if loaded x' then setrq p st1 else st1) rr).
Proof.
  intros [] Hx Hnr Hw Hs Hf Hw' st1. pose proof (lookup_lt_Some _ _ _ Hx) as Hlt.
  assert (cur st <> Some p) as Hcur. { intros Hc. destruct (inv_cur0 p Hc) as (y&Hy&?&_). rewrite Hx in Hy. injection Hy as <-. done. }
  assert (p ∉ qs st) as Hnq. { intros Hin. apply inv_qs0 in Hin as (y&Hy&?&_). rewrite Hx in Hy. injection Hy as <-. done. }
  assert (forall r, (exists y, sprocs st1 !! r = Some y /\ p_stat y = SRUN /\ loaded y = true /\ cur st <> Some r) <->
    (r = p /\ loaded x' = true) \/ r ∈ qs st) as Hq.
  { intros r. cbn. rewrite lookup_put by done. case_decide as Er.
    - subst r. split; [intros (y&[= <-]&_&?&_); by left|]. intros [[_ ?]|?]; [|done]. exists x'. done.
    - rewrite inv_qs0. split; [by right|]. intros [[? _]|?]; done. }
  assert (forall r y, sprocs st1 !! r = Some y -> p_stat y = SSLEEP -> p_wchan y <> 0 \/ None = Some r) as Has.
  { intros r y. cbn. rewrite lookup_put by done. case_decide; [intros [= <-]; by rewrite Hs|]. intros Hy Hsl.
    destruct (inv_asleep0 r y Hy Hsl) as [?|[= ->]]; [by left|done]. }
  assert (forall h q r, slpque st !! h = Some q -> r ∈ q -> exists y, sprocs st1 !! r = Some y /\ p_wchan y <> 0 /\ HASH (p_wchan y) = h /\
    (p_stat y = SSLEEP \/ p_stat y = SSTOP)) as Hsl.
  { intros h q r Hq' Hr. destruct (inv_sleep0 h q r Hq' Hr) as (y&Hy&?&?&?). exists y. split; [|done]. cbn. rewrite lookup_put by done.
    rewrite decide_False; [done|]. intros ->. rewrite Hx in Hy. injection Hy as <-. done. }
  assert (forall r y, sprocs st1 !! r = Some y -> p_wchan y <> 0 -> exists q, slpque st !! HASH (p_wchan y) = Some q /\ r ∈ q) as Hwc.
  { intros r y. cbn. rewrite lookup_put by done. case_decide; [intros [= <-]; by rewrite Hw'|]. apply inv_wchan0. }
  assert (forall r, cur st = Some r -> exists y, sprocs st1 !! r = Some y /\ p_stat y = SRUN /\ loaded y = true) as Hcu.
  { intros r Hr. destruct (inv_cur0 r Hr) as (y&Hy&?&?). exists y. split; [|done]. cbn. rewrite lookup_put by done.
    rewrite decide_False; [done|]. intros ->. done. }
  destruct (loaded x') eqn:El; constructor; cbn [set_runrun setrq set_qs set_procs st1 slpque sprocs qs cur]; try done.
  - by apply NoDup_cons.
  - intros r. rewrite elem_of_cons. etransitivity; [|symmetry; exact (Hq r)].
    split; [intros [->|?]; [by left|by right]|]. intros [[-> _]|?]; [by left|by right].
  - intros r. etransitivity; [|symmetry; exact (Hq r)]. split; [by right|]. intros [[_ ?]|?]; done.
Qed.

(** [again] does for [runout] what the specification of [wakeup] says. *)
Definition again_ok (again : sched -> outcome sched) : Prop :=
  forall st, sched_inv None st -> runout st = 0 ->
    exists st', again st = Ok st' /\ sched_inv None st' /\ wakes False A_RUNOUT st st' /\ nobody A_RUNOUT st'.

Lemma inv_runout lim st n : sched_inv lim st -> sched_inv lim (set_runout st n).
Proof. intros []. by constructor. Qed.

(** The swapper is told when the process is swapped out and [runout] set;
    otherwise nothing happens. *)
Definition tells (x : sproc) (st : sched) : bool := negb (loaded x) && negb (runout st =? 0).

Lemma wake_swapper_inv again x st : sched_inv None st -> (runout st <> 0 -> again_ok again) ->
  exists st', wake_swapper again x st = Ok st' /\ sched_inv None st' /\ wakes False A_RUNOUT st st' /\
    if tells x st then runout st' = 0 /\ nobody A_RUNOUT st' else st' = st.
Proof.
  intros H Ha. unfold wake_swapper, tells. destruct (negb (loaded x)); cbn [andb]; [|exists st; split_and!; [done..|apply wakes_refl|done]].
  destruct (Z.eqb_spec (runout st) 0) as [E|E]; cbn [negb]; [exists st; split_and!; [done..|apply wakes_refl|done]|].
  destruct (Ha E (set_runout st 0)) as (st'&E'&H'&[]&Hn); [by apply inv_runout|done|]. exists st'. split; [done|]. split; [done|].
  split; [by constructor; auto|]. auto.
Qed.

Lemma wake_one_inv again p st x : sched_inv (Some p) st -> sprocs st !! p = Some x -> p_stat x = SSLEEP -> p_wchan x = 0 ->
  (runout st <> 0 -> again_ok again) ->
  exists st1 st' x', wake_one again p st = Ok st' /\ sched_inv None st' /\ sprocs st1 = <[p:=x']> (sprocs st) /\
    p_flag x' = p_flag x /\ p_wchan x' = 0 /\ p_slptime x' = 0 /\ p_stat x' = SRUN /\ slpque st1 = slpque st /\ cur st1 = cur st /\
    runout st1 = runout st /\ wakes False A_RUNOUT st1 st' /\ if tells x st then runout st' = 0 /\ nobody A_RUNOUT st' else st' = st1.
Proof.
  intros H Hx Hs Hw Ha. pose proof (lookup_lt_Some _ _ _ Hx) as Hlt. unfold wake_one. rewrite (rd_ok _ _ _ Hx). cbn [mbind outcome_bind].
  assert (exists st0 x0, (if 1 <? p_slptime x then updatepri p st else Ok st) = Ok st0 /\ sched_inv (Some p) st0 /\
    sprocs st0 = <[p:=x0]> (sprocs st) /\ same_sched x x0 /\ slpque st0 = slpque st /\ cur st0 = cur st /\ runout st0 = runout st /\ p_flag x0 = p_flag x)
    as (st0&x0&->&H0&E0&(S1&S2&S3)&Eq0&Ec0&Er0&Ef0).
  { destruct (1 <? p_slptime x).
    - destruct (updatepri_inv _ st p x Hx H) as (st'&x'&?&?&?&?&?&_&?&?&?). by exists st', x'.
    - exists st, x. split; [done|]. split; [done|]. by rewrite list_insert_id. }
  cbn [mbind outcome_bind].
  assert (sprocs st0 !! p = Some x0) as Hx0 by (rewrite E0, lookup_put by done; by rewrite decide_True).
  rewrite (rd_ok _ _ _ Hx0). cbn [mbind outcome_bind]. set (x1 := set_stat (set_slptime x0 0) SRUN).
  rewrite (put_ok _ p x0) by done. cbn [mbind outcome_bind].
  set (st1 := set_runrun _ _).
  assert (sched_inv None st1) as H1.
  { apply (make_runnable st0 p x0 x1); try done; [by rewrite S1, Hs|by rewrite S3|cbn; by rewrite S3]. }
  assert (sprocs st1 = <[p:=x1]> (sprocs st) /\ slpque st1 = slpque st /\ cur st1 = cur st /\ runout st1 = runout st) as (F1&F2&F3&F4).
  { unfold st1. destruct (loaded x1); cbn; rewrite E0, list_insert_insert_eq; done. }
  destruct (wake_swapper_inv again x1 st1 H1) as (st'&->&H'&Hwk&Ht); [by rewrite F4|].
  exists st1, st', x1. split_and?; try done; [cbn; by rewrite S3|]. replace (tells x st) with (tells x1 st1); [done|].
  unfold tells. rewrite F4. f_equal. f_equal. exact S2.
Qed.

(** The table after a scan, and after the process found was made to run. *)
Lemma scan_wakes chan (q q' : list nat) found st (l' : list sproc) r y : (forall r, r ∉ q -> l' !! r = sprocs st !! r) ->
  (forall r x, r ∈ q -> sprocs st !! r = Some x -> exists x', l' !! r = Some x' /\ scanned chan q' found r x x') ->
  chan <> 0 -> found <> Some r -> sprocs st !! r = Some y -> exists y', l' !! r = Some y' /\ woken False chan y y' /\ (p_stat y = SSLEEP -> y' = y).
Proof.
  intros Hout Hin Hc Hf Hy. destruct (decide (r ∈ q)) as [Hrq|Hrq].
  - destruct (Hin r y Hrq Hy) as (y'&Hy'&Hsc). exists y'. split; [done|].
    destruct Hsc as [[_ ->]|(_&Ew&Ew'&Es'&Ef'&[[? _]|[_ Est]])]; [split; [split; [done|by left]|done]|done|].
    split; [split; [done|right]|by rewrite Est]. rewrite Ew, Ew', Es', Est. split; [done|]. split; [by left|]. split; [done|by right].
  - exists y. rewrite Hout by done. split; [done|]. split; [split; [done|by left]|done].
Qed.

Lemma wakeup_loop_inv again fuel chan st q : chan <> 0 -> sched_inv None st -> slpque st !! HASH chan = Some q ->
  (length q < fuel)%nat -> (runout st <> 0 -> again_ok again) ->
  exists st', wakeup_loop again fuel chan st = Ok st' /\ sched_inv None st' /\ wakes (tells_swapper chan st) chan st st' /\ nobody chan st' /\
    (tells_swapper chan st -> runout st' = 0 /\ nobody A_RUNOUT st') /\ (~ tells_swapper chan st -> runout st' = runout st).
Proof.
  intros Hc. revert st q. induction fuel as [|fuel IH]; intros st q H Hq Hf Ha; [lia|]. cbn [wakeup_loop].
  rewrite (rd_ok _ _ _ Hq). cbn [mbind outcome_bind]. pose proof (lookup_lt_Some _ _ _ Hq) as Hlt.
  destruct (wake_scan_spec chan q st) as (q'&l'&found&->&Hl&Hnd&Hsub&Hle&Hout&Hin&Hfound).
  { by eapply inv_nodup. }
  { intros p Hp. destruct (inv_sleep _ _ H _ _ _ Hq Hp) as (x&?&_&_&?). by exists x. }
  cbn [mbind outcome_bind set_procs slpque]. rewrite wr_ok by done. cbn [mbind outcome_bind].
  set (st1 := set_slpque _ _).
  assert (sched_inv found st1) as H1 by (by apply (scan_inv chan st q q' l' found)).
  assert (forall h q0, slpque st !! h = Some q0 -> exists q1, slpque st1 !! h = Some q1 /\ (length q1 <= length q0)%nat) as Hque.
  { intros h q0 Hq0. cbn [st1 set_slpque slpque]. rewrite lookup_put by done. case_decide as Eh; [|by exists q0].
    exists q'. split; [done|]. subst h. rewrite Hq in Hq0. by injection Hq0 as <-. }
  pose proof (fun r y => scan_wakes chan q q' found st l' r y Hout Hin Hc) as Hscan.
  destruct found as [p|].
  - destruct Hfound as (Hp&Hp'&Hlen). destruct (inv_sleep _ _ H _ _ _ Hq Hp) as (x&Hx&_&_&_).
    destruct (Hin p x Hp Hx) as (x1&Hx1&[[? _]|(_&Hwx&Hw1&Hs1&Hf1&[[_ Hs]|[? _]])]); [done| |done].
    destruct (wake_one_inv again p st1 x1 H1) as (st2&st3&x2&->&H3&Es&F1&F2&F5&F3&Q2&C2&R2&Hwk&Htold); [done|by rewrite Hs1|done|done|].
    assert (forall r, sprocs st2 !! r = if decide (r = p) then Some x2 else l' !! r) as Hst2.
    { intros r. rewrite Es. cbn [st1 set_slpque set_procs sprocs]. apply lookup_put. rewrite Hl. by eapply lookup_lt_Some. }
    assert (wakes False chan st st2) as W2.
    { constructor; [by rewrite C2|by rewrite Es, length_insert|by rewrite R2| |by rewrite Q2]. intros r y Hy. rewrite Hst2. case_decide as Er.
      - subst r. rewrite Hx in Hy. injection Hy as <-. exists x2. split; [done|]. split; [congruence|]. right. rewrite Hwx. split; [done|]. split; [by left|].
        split; [done|]. by left.
      - destruct (Hscan r y) as (y'&?&?&_); [congruence|done|]. by exists y'. }
    assert (length q' < fuel)%nat as Hq'l by lia.
    assert (tells x1 st1 = tells x st) as Ht1 by (unfold tells, loaded; by rewrite Hf1).
    cbn [mbind outcome_bind]. rewrite Ht1 in Htold. destruct (wk_que _ _ _ _ Hwk (HASH chan) q') as (q3&Hq3&?);
      [rewrite Q2; cbn; rewrite lookup_put by done; by rewrite decide_True|].
    destruct (IH st3 q3 H3 Hq3 ltac:(lia)) as (st'&E&H'&W'&Hno&Hyes&Hnot).
    { intros Hr. apply Ha. intros E. apply Hr, (wk_runout _ _ _ _ Hwk). by rewrite R2. }
    exists st'. split; [done|]. split; [done|]. destruct (tells x st) eqn:Ht.
    + destruct Htold as [R3 N3]. apply andb_true_iff in Ht as [Hlx%negb_true_iff Hrx%negb_true_iff%Z.eqb_neq].
      assert (tells_swapper chan st) as T by (split; [done|by exists p, x]). assert (~ tells_swapper chan st3) as T3 by (intros [? _]; done).
      split; [|split; [done|split; [|done]]].
      * apply (wakes_trans _ _ st st2); [eapply wakes_mono; [exact W2|intros ? [?|[[] _]]; by left]|]. apply (wakes_trans _ _ st2 st3); [by eapply wakes_weaken|].
        eapply wakes_mono; [exact W'|]. intros ? [?|[? _]]; [by left|done].
      * intros _. split; [by rewrite Hnot|]. by apply (wakes_nobody _ _ _ _ A_RUNOUT ltac:(done) W').
    + subst st3. assert (tells_swapper chan st <-> tells_swapper chan st2) as Hiff.
      { unfold tells_swapper. rewrite R2. split; intros (Hro&r&y&Hy&Hsy&Hwy&Hly); (split; [done|]).
        - destruct (decide (r = p)) as [->|Hne].
          { rewrite Hx in Hy. injection Hy as <-. unfold tells in Ht. rewrite Hly, (proj2 (Z.eqb_neq _ _) Hro) in Ht. done. }
          exists r, y. rewrite Hst2, decide_False by done. destruct (Hscan r y) as (y'&Hy'&_&E'); [congruence|done|]. rewrite Hy', E' by done. done.
        - rewrite Hst2 in Hy. case_decide; [injection Hy as <-; by rewrite F3 in Hsy|].
          destruct (lookup_lt_is_Some_2 (sprocs st) r) as [z Hz]; [rewrite <- Hl; by eapply lookup_lt_Some|].
          destruct (Hscan r z) as (y'&Hy'&[_ Hcase]&_); [congruence|done|]. rewrite Hy in Hy'. injection Hy' as <-. exists r, z. split; [done|].
          destruct Hcase as [->|(_&_&E0&_)]; [done|congruence]. }
      split; [|split; [done|split; [by rewrite Hiff|rewrite Hiff; intros Hn; rewrite Hnot by done; exact R2]]].
      apply (wakes_trans _ _ st st2); [eapply wakes_mono; [exact W2|intros ? [?|[[] _]]; by left]|].
      eapply wakes_mono; [exact W'|]. intros ? [?|[? ?]]; [by left|right]. by rewrite Hiff.
  - assert (forall r y, sprocs st !! r = Some y -> p_wchan y = chan -> p_stat y <> SSLEEP) as Hnot.
    { intros r y Hy Hw Hs. destruct (inv_wchan _ _ H r y Hy) as (q0&Hq0&Hr); [by rewrite Hw|]. rewrite Hw, Hq in Hq0. injection Hq0 as <-.
      destruct (Hin r y Hr Hy) as (y'&Hy'&[[Hr' _]|(_&_&_&_&_&[[? _]|[_ E]])]); [by apply (Hfound r y)|done|rewrite Hs in E; done]. }
    assert (~ tells_swapper chan st) as Ht by (intros (_&r&y&Hy&Hs&Hw&_); by eapply Hnot).
    exists st1. split; [done|]. split; [done|]. split; [|split; [|split; [by intros ?|done]]].
    + constructor; try done. intros r y Hy. destruct (Hscan r y) as (y'&?&?&_); [done|done|]. exists y'. split; [done|].
      eapply (woken_trans _ _ _ y'); [|split; [done|by left]]. destruct H2 as [F [->|(?&[?|[[] _]]&?)]]; split; try done; [by left|right]. split; [done|]. split; [by left|done].
    + intros r y Hy Hw. destruct (inv_wchan _ _ H1 r y Hy) as (q0&Hq0&Hr0); [by rewrite Hw|]. rewrite Hw in Hq0.
      cbn [st1 set_slpque slpque] in Hq0. rewrite lookup_put, decide_True in Hq0 by done. injection Hq0 as <-.
      destruct (inv_sleep _ _ H _ _ _ Hq (Hsub _ Hr0)) as (x&Hx&_).
      destruct (Hin r x (Hsub _ Hr0) Hx) as (x'&Hx'&[[_ ->]|[? _]]); [|done]. cbn in Hy. rewrite Hx' in Hy. injection Hy as <-.
      by apply (Hfound r x).
Qed.

(** A sleep queue is no longer than the process table. *)
Lemma queue_bound lim st h q : sched_inv lim st -> slpque st !! h = Some q -> (length q < S (length (sprocs st)))%nat.
Proof.
  intros H Hq. assert (length q <= length (seq 0 (length (sprocs st))))%nat as Hl; [|rewrite length_seq in Hl; lia].
  apply submseteq_length, NoDup_submseteq; [by eapply inv_nodup|]. intros p Hp. apply elem_of_seq.
  destruct (inv_sleep _ _ H _ _ _ Hq Hp) as (x&Hx&_). apply lookup_lt_Some in Hx. lia.
Qed.

Lemma queue_exists lim st chan : sched_inv lim st -> exists q, slpque st !! HASH chan = Some q.
Proof. intros H. apply lookup_lt_is_Some_2. rewrite (inv_len _ _ H). apply HASH_lt. Qed.

Lemma wakeup_runout_ok : again_ok wakeup_runout.
Proof.
  intros st H Hr. destruct (queue_exists _ _ A_RUNOUT H) as [q Hq]. unfold wakeup_runout.
  destruct (wakeup_loop_inv (fun _ => Fault) (S (length (sprocs st))) A_RUNOUT st q) as (st'&E&H'&W&N&_); try done.
  { by eapply queue_bound. } exists st'. split_and!; try done. eapply wakes_mono; [exact W|]. intros x [?|[_ ?]]; by left.
Qed.

Lemma wakeup_exact chan st : chan <> 0 -> sched_inv None st ->
  exists st', wakeup chan st = Ok st' /\ sched_inv None st' /\ wakes (tells_swapper chan st) chan st st' /\ nobody chan st' /\
    (tells_swapper chan st -> runout st' = 0 /\ nobody A_RUNOUT st') /\ (~ tells_swapper chan st -> runout st' = runout st).
Proof.
  intros Hc H. destruct (queue_exists _ _ chan H) as [q Hq]. unfold wakeup.
  apply (wakeup_loop_inv _ _ _ _ q); try done; [by eapply queue_bound|]. intros _. apply wakeup_runout_ok.
Qed.

Lemma wakeup_inv chan st : chan <> 0 -> sched_inv None st ->
  exists st', wakeup chan st = Ok st' /\ sched_inv None st' /\ wakes True chan st st' /\ nobody chan st'.
Proof. intros Hc H. destruct (wakeup_exact chan st Hc H) as (st'&?&?&?%wakes_true&?&_). by exists st'. Qed.

(** *** The other operations *)

Lemma remove1_spec p l : p ∈ l -> NoDup l ->
  exists l', remove1 p l = Some l' /\ NoDup l' /\ forall r, r ∈ l' <-> r ∈ l /\ r <> p.
Proof.
  induction l as [|y l IH]; intros Hp Hnd; [by apply not_elem_of_nil in Hp|]. apply NoDup_cons in Hnd as [Hy Hnd]. simpl.
  destruct (Nat.eqb_spec y p) as [->|Hne].
  - exists l. split; [done|]. split; [done|]. intros r. rewrite elem_of_cons. split; [intros Hr; split; [by right|by intros ->]|]. intros [[?|?] ?]; done.
  - apply elem_of_cons in Hp as [?|Hp]; [congruence|]. destruct (IH Hp Hnd) as (l'&->&Hnd'&Hin). exists (y :: l'). split; [done|].
    split; [apply NoDup_cons; split; [by intros [? _]%Hin|done]|]. intros r. rewrite !elem_of_cons, Hin. naive_solver.
Qed.

Lemma inv_weaken lim st p : sched_inv None st -> (forall q, lim = Some q -> q = p) -> sched_inv (Some p) st.
Proof. intros [] _. constructor; try done. intros r x Hx Hs. destruct (inv_asleep0 r x Hx Hs); [by left|done]. Qed.

(** A process asleep or stopped, or with no channel at all. *)
Lemma no_chan lim st p x : sched_inv lim st -> sprocs st !! p = Some x -> p_stat x <> SSLEEP -> p_stat x <> SSTOP -> p_wchan x = 0.
Proof.
  intros H Hx H1 H2. destruct (decide (p_wchan x = 0)) as [|Hw]; [done|]. destruct (inv_wchan _ _ H _ _ Hx Hw) as (q&Hq&Hp).
  destruct (inv_sleep _ _ H _ _ _ Hq Hp) as (y&Hy&_&_&Hs). rewrite Hx in Hy. injection Hy as <-. destruct Hs; done.
Qed.

Lemma unsleep_inv st p x : sched_inv None st -> sprocs st !! p = Some x ->
  exists st' x', unsleep p st = Ok st' /\ sched_inv (Some p) st' /\ sprocs st' = <[p:=x']> (sprocs st) /\ p_stat x' = p_stat x /\
    p_flag x' = p_flag x /\ p_wchan x' = 0 /\ p_slptime x' = p_slptime x /\ p_pri x' = p_pri x /\ qs st' = qs st /\ cur st' = cur st /\ runout st' = runout st.
Proof.
  intros H Hx. pose proof (lookup_lt_Some _ _ _ Hx) as Hlt. unfold unsleep. rewrite (rd_ok _ _ _ Hx). cbn [mbind outcome_bind].
  destruct (Z.eqb_spec (p_wchan x) 0) as [Hw|Hw]; cbn [negb].
  { exists st, x. split; [done|]. split; [by eapply (inv_weaken None)|]. by rewrite list_insert_id. }
  destruct (inv_wchan _ _ H _ _ Hx Hw) as (q&Hq&Hp). rewrite (rd_ok _ _ _ Hq). cbn [mbind outcome_bind].
  destruct (remove1_spec p q Hp (inv_nodup _ _ H _ _ Hq)) as (q'&->&Hnd'&Hin'). rewrite wr_ok by (by eapply lookup_lt_Some). cbn [mbind outcome_bind].
  rewrite (put_ok _ p x) by done. eexists _, (set_wchan x 0). split; [done|]. split; [|done].
  destruct (inv_sleep _ _ H _ _ _ Hq Hp) as (y&Hy&_&_&Hst). rewrite Hx in Hy. injection Hy as <-.
  assert (sched_inv (if decide (p_stat x = SSLEEP) then Some p else None) (set_slpque (set_procs st (<[p:=set_wchan x 0]> (sprocs st))) (<[HASH (p_wchan x):=q']> (slpque st)))) as Hi.
  { apply (scan_inv (p_wchan x) st q); try done.
    - by rewrite length_insert.
    - intros r [? _]%Hin'. done.
    - intros r Hr. rewrite lookup_put, decide_False by (done || by intros ->). done.
    - intros r z Hr Hz. rewrite lookup_put by done. case_decide as Er.
      + subst r. rewrite Hx in Hz. injection Hz as <-. exists (set_wchan x 0). split; [done|]. right.
        split; [by intros [_ ?]%Hin'|]. do 4 (split; [done|]). case_decide; [by left|right; split; [done|]]. by destruct Hst.
      + exists z. split; [done|]. left. split; [by apply Hin'|done]. }
  destruct (decide (p_stat x = SSLEEP)); [exact Hi|by eapply (inv_weaken None)].
Qed.

(** What an operation on the process [p] does to the table: flags stay, a
    channel stays or is cleared, and no other entry changes but those
    waiting for [runout]. *)
Record settles (p : nat) (st st' : sched) : Prop := {
  se_cur : cur st' = cur st;
  se_len : length (sprocs st') = length (sprocs st);
  se_proc : forall r y, sprocs st !! r = Some y -> exists y', sprocs st' !! r = Some y' /\ p_flag y' = p_flag y /\
    (p_wchan y' = p_wchan y \/ p_wchan y' = 0) /\ (r <> p -> y' = y \/ p_wchan y = A_RUNOUT)
}.

Lemma settles_insert p x x' st st' : sprocs st !! p = Some x -> cur st' = cur st -> sprocs st' = <[p:=x']> (sprocs st) ->
  p_flag x' = p_flag x -> p_wchan x' = p_wchan x \/ p_wchan x' = 0 -> settles p st st'.
Proof.
  intros Hx Hc Hp Hf Hw. constructor; [done|by rewrite Hp, length_insert|]. intros r y Hy. rewrite Hp, lookup_put by (by eapply lookup_lt_Some).
  case_decide as Er; [|exists y; split_and?; auto]. subst r. rewrite Hx in Hy. injection Hy as <-. by exists x'.
Qed.

Lemma settles_trans p st1 st2 st3 : settles p st1 st2 -> settles p st2 st3 -> settles p st1 st3.
Proof.
  intros [] []. constructor; [congruence..|]. intros r y Hy. destruct (se_proc0 r y Hy) as (y'&Hy'&F1&W1&N1).
  destruct (se_proc1 r y' Hy') as (y''&Hy''&F2&W2&N2). exists y''. split; [done|]. split; [congruence|]. split.
  - destruct W1 as [E1|E1], W2 as [E2|E2]; rewrite ?E1 in *; auto.
  - intros Hr. destruct (N1 Hr) as [->|?]; [by apply N2|by right].
Qed.

Lemma wakes_settles told p st st' : wakes told A_RUNOUT st st' -> settles p st st'.
Proof.
  intros []. constructor; [done..|]. intros r y Hy. destruct (wk_proc0 r y Hy) as (y'&Hy'&Hf&Hw). exists y'. split; [done|]. split; [done|].
  destruct Hw as [->|(_&[?|[_ ?]]&?&_)]; auto.
Qed.

Lemma setrun_settles st p x : sched_inv None st -> sprocs st !! p = Some x ->
  p_stat x = SSTOP \/ p_stat x = SSLEEP \/ p_stat x = SIDL ->
  exists st' x', setrun p st = Ok st' /\ sched_inv None st' /\ settles p st st' /\ sprocs st' !! p = Some x' /\ p_stat x' = SRUN.
Proof.
  intros H Hx Hst. pose proof (lookup_lt_Some _ _ _ Hx) as Hlt. unfold setrun. rewrite (rd_ok _ _ _ Hx). cbn [mbind outcome_bind].
  assert (exists st1 x1, (if (p_stat x =? SSTOP) || (p_stat x =? SSLEEP) then unsleep p st else if p_stat x =? SIDL then Ok st else Panic "setrun") = Ok st1 /\
    sched_inv (Some p) st1 /\ sprocs st1 !! p = Some x1 /\ p_stat x1 = p_stat x /\ p_wchan x1 = 0 /\ settles p st st1) as (st1&x1&->&H1&Hx1&Es1&Ew1&S1).
  { destruct (unsleep_inv st p x H Hx) as (st1&x1&E&H1&Ep&Es&Ef&Ew&_&_&_&Ec&_).
    destruct (decide (p_stat x = SIDL)) as [Hi|Hi].
    - assert (p_wchan x = 0) by (eapply no_chan; [exact H|exact Hx|by rewrite Hi|by rewrite Hi]).
      exists st, x. rewrite Hi. cbn. split; [done|]. split; [by eapply (inv_weaken None)|]. split; [done|]. split; [done|]. split; [done|].
      apply (settles_insert p x x); auto. by rewrite list_insert_id.
    - replace ((p_stat x =? SSTOP) || (p_stat x =? SSLEEP)) with true by (destruct Hst as [E'|[E'|?]]; rewrite ?E'; done).
      exists st1, x1. split; [done|]. split; [done|]. rewrite Ep at 1. rewrite lookup_put, decide_True by done. do 3 (split; [done|]).
      apply (settles_insert p x x1); auto. }
  cbn [mbind outcome_bind]. rewrite (rd_ok _ _ _ Hx1). cbn [mbind outcome_bind].
  assert (exists st2 x2, (if 1 <? p_slptime x1 then updatepri p st1 else Ok st1) = Ok st2 /\ sched_inv (Some p) st2 /\ sprocs st2 !! p = Some x2 /\
    p_stat x2 = p_stat x /\ p_wchan x2 = 0 /\ settles p st1 st2) as (st2&x2&->&H2&Hx2&Es2&Ew2&S2).
  { assert (settles p st1 st1) as Hrefl by (apply (settles_insert p x1 x1); auto; by rewrite list_insert_id).
    destruct (1 <? p_slptime x1); [|by exists st1, x1]. destruct (updatepri_inv _ st1 p x1 Hx1 H1) as (st2&x2&E&H2&Ep&(Q1&Q2&Q3)&_&_&Ec&_&Ef).
    exists st2, x2. split; [done|]. split; [done|]. split; [rewrite Ep; apply list_lookup_insert_eq; by eapply lookup_lt_Some|]. rewrite Q1, Q3.
    do 2 (split; [done|]). apply (settles_insert p x1 x2); auto. }
  cbn [mbind outcome_bind]. rewrite (rd_ok _ _ _ Hx2). cbn [mbind outcome_bind]. rewrite (put_ok _ p x2) by done. cbn [mbind outcome_bind].
  set (x3 := set_stat x2 SRUN). set (st3 := if loaded x3 then _ else _). pose proof (lookup_lt_Some _ _ _ Hx2) as Hlt2.
  assert (forall rr, sched_inv None (set_runrun st3 rr)) as H3.
  { intros rr. apply (make_runnable st2 p x2 x3); try done. rewrite Es2. destruct Hst as [E|[E|E]]; rewrite E; done. }
  set (st4 := if p_pri x3 <? curpri st3 then _ else _).
  assert (sched_inv None st4) as H4.
  { unfold st4. destruct (_ <? _); [done|]. specialize (H3 (runrun st3)). by rewrite set_runrun_id in H3. }
  assert (settles p st2 st4 /\ sprocs st4 !! p = Some x3) as [S4 Hx4].
  { assert (sprocs st4 = <[p:=x3]> (sprocs st2) /\ cur st4 = cur st2) as [E4 C4] by (unfold st4, st3; destruct (loaded x3), (_ <? _); done).
    split; [apply (settles_insert p x2 x3); auto|]. rewrite E4, lookup_put by done. by rewrite decide_True. }
  destruct (wake_swapper_inv wakeup_runout x3 _ H4) as (st'&->&H'&Hwk&_); [intros _; apply wakeup_runout_ok|].
  destruct (wk_proc _ _ _ _ Hwk _ _ Hx4) as (x5&Hx5&_&[->|(Hw&_)]); [|by change (p_wchan x3) with (p_wchan x2) in Hw].
  exists st', x3. split; [done|]. split; [done|]. split; [|by split].
  eapply settles_trans; [exact S1|]. eapply settles_trans; [exact S2|]. eapply settles_trans; [exact S4|]. by eapply wakes_settles.
Qed.

Lemma setrun_inv st p x : sched_inv None st -> sprocs st !! p = Some x ->
  p_stat x = SSTOP \/ p_stat x = SSLEEP \/ p_stat x = SIDL ->
  exists st', setrun p st = Ok st' /\ sched_inv None st' /\ length (sprocs st') = length (sprocs st).
Proof. intros H Hx Hs. destruct (setrun_settles st p x H Hx Hs) as (st'&_&E&H'&S&_). exists st'. split; [done|]. split; [done|]. by apply S. Qed.

(** *** Choosing a process *)

Lemma best_spec procs q n pp : (forall p, p ∈ q -> exists x, procs !! p = Some x /\ loaded x = true) ->
  exists r m, best procs q n pp = Ok (r, m) /\ m <= n /\ (forall p x, p ∈ q -> procs !! p = Some x -> m <= p_pri x) /\
    ((r = pp /\ m = n) \/ (exists p x, r = Some p /\ p ∈ q /\ procs !! p = Some x /\ p_pri x = m /\ m < n)).
Proof.
  revert n pp. induction q as [|p q IH]; intros n pp Hq; cbn [best].
  { exists pp, n. split; [done|]. split; [lia|]. split; [by intros ? ? ?%not_elem_of_nil|by left]. }
  destruct (Hq p) as (x&Hx&Hl); [by left|]. rewrite (rd_ok _ _ _ Hx). cbn [mbind outcome_bind]. rewrite Hl. cbn [andb].
  assert (forall r, r ∈ q -> exists y, procs !! r = Some y /\ loaded y = true) as Hq' by (intros r Hr; apply Hq; by right).
  destruct (Z.ltb_spec (p_pri x) n).
  - destruct (IH (p_pri x) (Some p) Hq') as (r&m&->&Hm&Hall&Hr). exists r, m. split; [done|]. split; [lia|]. split.
    + intros s y [->|Hs]%elem_of_cons Hy; [rewrite Hx in Hy; injection Hy as <-; done|by eapply Hall].
    + right. destruct Hr as [[-> ->]|(s&y&->&Hs&Hy&?&?)]; [exists p, x; split_and?; try done; by left|].
      exists s, y. split_and?; try done; [by right|lia].
  - destruct (IH n pp Hq') as (r&m&->&Hm&Hall&Hr). exists r, m. split; [done|]. split; [lia|]. split.
    + intros s y [->|Hs]%elem_of_cons Hy; [rewrite Hx in Hy; injection Hy as <-; lia|by eapply Hall].
    + destruct Hr as [?|(s&y&->&Hs&?)]; [by left|right]. exists s, y. split; [done|]. split; [by right|done].
Qed.

Lemma ldiff_land_1 f m : Z.land (Z.ldiff f m) 1 = Z.land f (Z.land (Z.lnot m) 1).
Proof. by rewrite Z.ldiff_land, <- Z.land_assoc. Qed.

Lemma loaded_sswap x : loaded (set_flag x (Z.ldiff (p_flag x) SSWAP)) = loaded x.
Proof. unfold loaded, SLOAD. cbn [p_flag set_flag]. by rewrite ldiff_land_1. Qed.

Lemma swtch_inv st : sched_inv None (set_cur st None) ->
  exists st', swtch st = Ok st' /\ sched_inv None st' /\
    match cur st' with
    | Some p => exists x, sprocs st !! p = Some x /\ p ∈ qs st /\ (forall r y, r ∈ qs st -> sprocs st !! r = Some y -> p_pri x <= p_pri y) /\
        curpri st' = p_pri x /\ (forall r, r ∈ qs st' <-> r ∈ qs st /\ r <> p)
    | None => forall p x, p ∈ qs st -> sprocs st !! p = Some x -> 128 <= p_pri x
    end.
Proof.
  intros H. unfold swtch. cbn [set_runrun sprocs qs].
  assert (forall p, p ∈ qs st -> exists x, sprocs st !! p = Some x /\ loaded x = true /\ p_stat x = SRUN) as Hq.
  { intros p Hp. apply (inv_qs _ _ H) in Hp as (x&?&?&?&_). by exists x. }
  destruct (best_spec (sprocs st) (qs st) 128 None) as (r&m&->&_&Hall&Hr).
  { intros p Hp. destruct (Hq p Hp) as (x&?&?&_). by exists x. }
  cbn [mbind outcome_bind fst snd]. destruct Hr as [[-> ->]|(p&x&->&Hp&Hx&Hm&Hlt)].
  { eexists. split; [done|]. split; [|cbn; intros p x Hp Hx; by eapply Hall]. destruct H. constructor; done. }
  unfold remrq. cbn [qs set_runrun]. destruct (remove1_spec p (qs st) Hp (inv_qs_nodup _ _ H)) as (l&->&Hnd&Hin). cbn [mbind outcome_bind].
  cbn [set_qs set_curpri set_runrun sprocs]. rewrite (rd_ok _ _ _ Hx). cbn [mbind outcome_bind]. rewrite (put_ok _ p x) by done. cbn [mbind outcome_bind].
  set (x' := set_flag x _). pose proof (lookup_lt_Some _ _ _ Hx) as Hlen.
  assert (same_sched x x') as Hs by (split_and!; try done; apply loaded_sswap).
  pose proof (inv_same None (set_cur st None) p x x' 0 Hx Hs H) as H1. destruct (Hq p Hp) as (z&Hz&Hzl&Hzs). rewrite Hx in Hz. injection Hz as <-.
  eexists. split; [done|]. split; [|cbn; exists x; split_and?; try done; intros r y Hr Hy; rewrite Hm; by eapply Hall].
  destruct Hs as (S1&S2&S3). destruct H1. constructor; cbn in *; try done.
  - intros r. rewrite Hin. change (r ∈ qs st) with (r ∈ qs (set_cur st None)). rewrite inv_qs0. split.
    + intros [(y&Hy&?&?&_) Hne]. exists y. split_and?; try done. congruence.
    + intros (y&Hy&?&?&Hc). split; [exists y; split_and?; done|congruence].
  - intros r [= <-]. exists x'. rewrite lookup_put, decide_True by done.
    split; [done|]. split; [exact Hzs|]. unfold x'. rewrite loaded_sswap. exact Hzl.
Qed.

(** *** The current process leaves the processor *)

Lemma park_inv st p x x' q : sched_inv None st -> cur st = Some p -> sprocs st !! p = Some x ->
  slpque st !! HASH (p_wchan x') = Some q -> p_wchan x' <> 0 -> p_stat x' = SSLEEP ->
  sched_inv None (set_cur (set_procs (set_slpque st (<[HASH (p_wchan x'):=p :: q]> (slpque st))) (<[p:=x']> (sprocs st))) None).
Proof.
  intros H Hc Hx Hq Hw Hs. pose proof (lookup_lt_Some _ _ _ Hx) as Hlt. pose proof (lookup_lt_Some _ _ _ Hq) as Hqlt.
  destruct (inv_cur _ _ H p Hc) as (y&Hy&Hrun&_). rewrite Hx in Hy. injection Hy as <-.
  assert (forall h q0, slpque st !! h = Some q0 -> p ∉ q0) as Hnot.
  { intros h q0 Hq0 Hp. destruct (inv_sleep _ _ H _ _ _ Hq0 Hp) as (y&Hy&_&_&Hst). rewrite Hx in Hy. injection Hy as <-.
    rewrite Hrun in Hst. by destruct Hst. }
  destruct H. constructor; cbn [set_cur set_procs set_slpque slpque sprocs qs cur]; try done.
  - by rewrite length_insert.
  - intros h q0 r. rewrite lookup_put by done. case_decide as Eh.
    + intros [= <-] [->|Hr]%elem_of_cons.
      * exists x'. rewrite lookup_put, decide_True by done. split_and?; try done. by left.
      * destruct (inv_sleep0 _ _ _ Hq Hr) as (y&Hy&?&?&?). exists y. rewrite lookup_put by done. rewrite decide_False; [by subst h|]. intros ->. by eapply Hnot.
    + intros Hq0 Hr. destruct (inv_sleep0 _ _ _ Hq0 Hr) as (y&Hy&?&?&?). exists y. rewrite lookup_put by done. rewrite decide_False; [done|]. intros ->. by eapply Hnot.
  - intros h q0. rewrite lookup_put by done. case_decide; [|by apply inv_nodup0]. intros [= <-]. apply NoDup_cons. split; [by eapply Hnot|by eapply inv_nodup0].
  - intros r y. rewrite lookup_put by done. case_decide as Er.
    + intros [= <-] _. subst r. exists (p :: q). rewrite lookup_put, decide_True by done. split; [done|by left].
    + intros Hy Hwy. destruct (inv_wchan0 r y Hy Hwy) as (q0&Hq0&Hr). rewrite lookup_put by done. case_decide as Eh; [|by exists q0].
      rewrite Eh, Hq in Hq0. injection Hq0 as <-. exists (p :: q). split; [done|by right].
  - intros r. rewrite inv_qs0, lookup_put by done. case_decide as Er.
    + subst r. split; [intros (y&_&_&_&?); congruence|]. intros (y&[= <-]&E&_). rewrite Hs in E. done.
    + split; intros (y&?&?&?&_); exists y; split_and?; try done. congruence.
  - intros r y. rewrite lookup_put by done. case_decide; [intros [= <-] _; by left|]. intros Hy Hsy. by apply (inv_asleep0 r y).
Qed.

(** The current process changes its entry and is no longer current: it
    is not asleep, and runnable only when swapped out. *)
Lemma leave_cpu st p x x' : sched_inv None st -> cur st = Some p -> sprocs st !! p = Some x -> p_wchan x' = 0 ->
  p_stat x' <> SSLEEP -> (p_stat x' = SRUN -> loaded x' = false) -> sched_inv None (set_cur (set_procs st (<[p:=x']> (sprocs st))) None).
Proof.
  intros H Hc Hx Hw Hs Hl. pose proof (lookup_lt_Some _ _ _ Hx) as Hlt.
  destruct (inv_cur _ _ H p Hc) as (y&Hy&Hrun&_). rewrite Hx in Hy. injection Hy as <-. destruct H.
  constructor; cbn [set_cur set_procs slpque sprocs qs cur]; try done.
  - intros h q r Hq Hr. destruct (inv_sleep0 _ _ _ Hq Hr) as (y&Hy&?&?&?). exists y. rewrite lookup_put by done. rewrite decide_False; [done|].
    intros ->. rewrite Hx in Hy. injection Hy as <-. exfalso. match goal with E : _ \/ _ |- _ => rewrite Hrun in E; by destruct E end.
  - intros r y. rewrite lookup_put by done. case_decide; [intros [= <-]; by rewrite Hw|]. apply inv_wchan0.
  - intros r. rewrite inv_qs0, lookup_put by done. case_decide as Er.
    + subst r. split; [intros (y&_&_&_&?); congruence|]. intros (y&[= <-]&E&El&_). rewrite Hl in El; done.
    + split; intros (y&?&?&?&_); exists y; split_and?; try done. congruence.
  - intros r y. rewrite lookup_put by done. case_decide; [by intros [= <-]|]. apply inv_asleep0.
Qed.

(** A free, idle or swapped-out process becomes the current one. *)
Lemma enter_cpu st p x x' : sched_inv None st -> cur st = None -> sprocs st !! p = Some x -> p_stat x <> SSLEEP -> p_stat x <> SSTOP ->
  (p_stat x = SRUN -> loaded x = false) -> p_wchan x' = 0 -> p_stat x' = SRUN -> loaded x' = true ->
  sched_inv None (set_cur (set_procs st (<[p:=x']> (sprocs st))) (Some p)).
Proof.
  intros H Hc Hx Hs1 Hs2 Hl Hw' Hs' Hl'. pose proof (lookup_lt_Some _ _ _ Hx) as Hlt.
  assert (p_wchan x = 0) as Hw by (by eapply no_chan). destruct H.
  constructor; cbn [set_cur set_procs slpque sprocs qs cur]; try done.
  - intros h q r Hq Hr. destruct (inv_sleep0 _ _ _ Hq Hr) as (y&Hy&Hn&Hh&Hst). exists y. rewrite lookup_put by done. rewrite decide_False; [done|].
    intros ->. rewrite Hx in Hy. injection Hy as <-. done.
  - intros r y. rewrite lookup_put by done. case_decide; [by intros [= <-]|]. apply inv_wchan0.
  - intros r. rewrite inv_qs0, lookup_put by done. case_decide as Er.
    + subst r. split; [intros (y&Hy&E&El&_); rewrite Hx in Hy; injection Hy as <-; rewrite Hl in El; done|intros (y&_&_&_&?); done].
    + rewrite Hc. split; intros (y&?&?&?&_); exists y; split_and?; congruence.
  - intros r [= <-]. exists x'. by rewrite lookup_put, decide_True.
  - intros r y. rewrite lookup_put by done. case_decide; [intros [= <-]; by rewrite Hs'|]. apply inv_asleep0.
Qed.

Lemma requeue_inv st p x : sched_inv None st -> cur st = Some p -> sprocs st !! p = Some x ->
  sched_inv None (set_cur (setrq p st) None).
Proof.
  intros H Hc Hx. destruct (inv_cur _ _ H p Hc) as (y&Hy&Hrun&Hl). rewrite Hx in Hy. injection Hy as <-.
  assert (p ∉ qs st) as Hn by (intros Hp; apply (inv_qs _ _ H) in Hp as (y&_&_&_&?); congruence).
  destruct H. constructor; cbn [set_cur setrq set_qs slpque sprocs qs cur]; try done; [by apply NoDup_cons|].
  intros r. rewrite elem_of_cons, inv_qs0. split; [intros [->|(y&?&?&?&_)]; [by exists x|by exists y]|].
  intros (y&?&?&?&_). destruct (decide (r = p)) as [->|]; [by left|right]. exists y. split_and?; try done. congruence.
Qed.

Lemma set_cur_none st : cur st = None -> set_cur st None = st.
Proof. destruct st. cbn. by intros ->. Qed.

Lemma stop_inv st p pptr : sched_inv None st -> cur st = Some p -> pptr <> 0 -> exists st', stop_current p pptr st = Ok st' /\ sched_inv None st'.
Proof.
  intros H Hc Hp. destruct (inv_cur _ _ H p Hc) as (x&Hx&Hrun&Hl). unfold stop_current, stop. cbn [set_cur sprocs].
  rewrite (rd_ok _ _ _ Hx). cbn [mbind outcome_bind]. rewrite (put_ok _ p x) by done. cbn [mbind outcome_bind].
  set (x' := set_flag _ _).
  assert (sched_inv None (set_cur (set_procs st (<[p:=x']> (sprocs st))) None)) as H1.
  { apply (leave_cpu st p x x'); try done. cbn. eapply no_chan; [exact H|exact Hx|by rewrite Hrun|by rewrite Hrun]. }
  destruct (wakeup_inv pptr _ Hp H1) as (st2&E&H2&Hwk&_). change (set_procs (set_cur st None) _) with (set_cur (set_procs st (<[p:=x']> (sprocs st))) None).
  rewrite E. cbn [mbind outcome_bind]. destruct (swtch_inv st2) as (st'&->&H'&_); [|by exists st'].
  by rewrite set_cur_none by (by rewrite (wk_cur _ _ _ _ Hwk)).
Qed.

(** A sleeping process stops, or a stopped one with a channel goes back to
    sleep: it stays on its queue. *)
Lemma park_state_inv st p x x' : sched_inv None st -> sprocs st !! p = Some x -> p_stat x = SSLEEP \/ p_stat x = SSTOP ->
  p_stat x' = SSTOP \/ (p_stat x' = SSLEEP /\ p_wchan x <> 0) -> p_wchan x' = p_wchan x ->
  sched_inv None (set_procs st (<[p:=x']> (sprocs st))).
Proof.
  intros H Hx Hs Hs' Hw. pose proof (lookup_lt_Some _ _ _ Hx) as Hlt.
  assert (cur st <> Some p) as Hc. { intros Hc. destruct (inv_cur _ _ H p Hc) as (y&Hy&E&_). rewrite Hx in Hy. injection Hy as <-. rewrite E in Hs. by destruct Hs. }
  assert (p_stat x <> SRUN /\ p_stat x' <> SRUN) as [Hr Hr'] by (split; [by destruct Hs as [-> | ->]|by destruct Hs' as [->|[-> _]]]).
  destruct H. constructor; cbn [set_procs slpque sprocs qs cur]; try done.
  - intros h q r Hq Hin. destruct (inv_sleep0 _ _ _ Hq Hin) as (y&Hy&?&?&?). rewrite lookup_put by done. case_decide as Er; [|by exists y].
    subst r. rewrite Hx in Hy. injection Hy as <-. exists x'. rewrite Hw. split_and?; try done. destruct Hs' as [?|[? _]]; auto.
  - intros r y. rewrite lookup_put by done. case_decide; [|by apply inv_wchan0]. intros [= <-]. subst r. rewrite Hw. by apply inv_wchan0.
  - intros r. rewrite inv_qs0, lookup_put by done. case_decide as Er; [|done]. subst r. split; intros (y&Hy&E&_); [rewrite Hx in Hy|]; simplify_eq; done.
  - intros r Hcr. destruct (inv_cur0 r Hcr) as (y&Hy&?&?). exists y. rewrite lookup_put by done. rewrite decide_False; [done|congruence].
  - intros r y. rewrite lookup_put by done. case_decide; [|by apply inv_asleep0]. intros [= <-] E. rewrite Hw. destruct Hs' as [E'|[_ ?]]; [by rewrite E' in E|by left].
Qed.

(** [stop] of a process that sleeps. *)
Lemma stop_asleep st p x pptr : sched_inv None st -> sprocs st !! p = Some x -> p_stat x = SSLEEP -> pptr <> 0 ->
  exists st', stop p pptr st = Ok st' /\ sched_inv None st' /\
    wakes True pptr (set_procs st (<[p:=set_flag (set_stat x SSTOP) (Z.ldiff (p_flag x) P_WAITED)]> (sprocs st))) st'.
Proof.
  intros H Hx Hs Hp. unfold stop. rewrite (rd_ok _ _ _ Hx). cbn [mbind outcome_bind]. rewrite (put_ok _ p x) by done. cbn [mbind outcome_bind].
  set (x' := set_flag _ _). destruct (wakeup_inv pptr (set_procs st (<[p:=x']> (sprocs st))) Hp) as (st'&E&H'&Hwk&_).
  { apply (park_state_inv st p x x'); auto. }
  by exists st'.
Qed.

Lemma userret_inv st p : sched_inv None st -> cur st = Some p -> exists st', userret p st = Ok st' /\ sched_inv None st'.
Proof.
  intros H Hc. destruct (inv_cur _ _ H p Hc) as (x&Hx&Hrun&Hl). pose proof (lookup_lt_Some _ _ _ Hx) as Hlt. unfold userret.
  destruct (setpri_inv None st p x Hx H) as (st1&x1&->&H1&E1&_&_&_&Ec&_). cbn [mbind outcome_bind].
  assert (sprocs st1 !! p = Some x1) as Hx1 by (rewrite E1, lookup_put by done; by rewrite decide_True).
  rewrite (rd_ok _ _ _ Hx1). cbn [mbind outcome_bind]. set (st2 := set_curpri st1 _).
  assert (sched_inv None st2) as H2 by (destruct H1; by constructor).
  destruct (negb _); [|by exists st2]. destruct (swtch_inv (setrq p st2)) as (st'&->&H'&_); [|by exists st'].
  eapply requeue_inv; [done|by rewrite <- Hc, <- Ec|exact Hx1].
Qed.

(** *** Swapping *)

Lemma unload_inv st p x x' l : sched_inv None st -> sprocs st !! p = Some x -> cur st <> Some p ->
  p_stat x' = p_stat x -> p_wchan x' = p_wchan x -> loaded x' = false -> NoDup l -> (forall r, r ∈ l <-> r ∈ qs st /\ r <> p) ->
  sched_inv None (set_qs (set_procs st (<[p:=x']> (sprocs st))) l).
Proof.
  intros [] Hx Hc Hs Hw Hl Hnd Hin. pose proof (lookup_lt_Some _ _ _ Hx) as Hlt.
  constructor; cbn [set_qs set_procs slpque sprocs qs cur]; try done.
  - intros h q r Hq Hr. destruct (inv_sleep0 _ _ _ Hq Hr) as (y&Hy&?&?&?). rewrite lookup_put by done. case_decide as Er; [|by exists y].
    subst r. rewrite Hx in Hy. injection Hy as <-. exists x'. by rewrite Hs, Hw.
  - intros r y. rewrite lookup_put by done. case_decide; [|by apply inv_wchan0]. intros [= <-]. subst r. rewrite Hw. by apply inv_wchan0.
  - intros r. rewrite Hin, inv_qs0, lookup_put by done. case_decide as Er; [|naive_solver]. subst r. split; [naive_solver|]. intros (y&[= <-]&_&?&_). congruence.
  - intros r Hr. destruct (inv_cur0 r Hr) as (y&?&?&?). exists y. rewrite lookup_put by done. rewrite decide_False; [done|congruence].
  - intros r y. rewrite lookup_put by done. case_decide; [|by apply inv_asleep0]. intros [= <-]. subst r. rewrite Hs, Hw. by apply inv_asleep0.
Qed.

Lemma load_inv st p x x' : sched_inv None st -> sprocs st !! p = Some x -> loaded x = false ->
  p_stat x' = p_stat x -> p_wchan x' = p_wchan x -> loaded x' = true ->
  sched_inv None (set_procs (if p_stat x =? SRUN then setrq p st else st) (<[p:=x']> (sprocs st))).
Proof.
  intros H Hx Hnl Hs Hw Hl. pose proof (lookup_lt_Some _ _ _ Hx) as Hlt.
  assert (cur st <> Some p) as Hc. { intros Hc. destruct (inv_cur _ _ H p Hc) as (y&Hy&_&?). rewrite Hx in Hy. injection Hy as <-. congruence. }
  assert (p ∉ qs st) as Hn. { intros Hp. apply (inv_qs _ _ H) in Hp as (y&Hy&_&?&_). rewrite Hx in Hy. injection Hy as <-. congruence. }
  destruct H.
  assert (forall h q r, slpque st !! h = Some q -> r ∈ q -> exists y, <[p:=x']> (sprocs st) !! r = Some y /\ p_wchan y <> 0 /\ HASH (p_wchan y) = h /\ (p_stat y = SSLEEP \/ p_stat y = SSTOP)) as G1.
  { intros h q r Hq Hr. destruct (inv_sleep0 _ _ _ Hq Hr) as (y&Hy&?&?&?). rewrite lookup_put by done. case_decide as Er; [|by exists y].
    subst r. rewrite Hx in Hy. injection Hy as <-. exists x'. by rewrite Hs, Hw. }
  assert (forall r y, <[p:=x']> (sprocs st) !! r = Some y -> p_wchan y <> 0 -> exists q, slpque st !! HASH (p_wchan y) = Some q /\ r ∈ q) as G2.
  { intros r y. rewrite lookup_put by done. case_decide; [|by apply inv_wchan0]. intros [= <-]. subst r. rewrite Hw. by apply inv_wchan0. }
  assert (forall r, cur st = Some r -> exists y, <[p:=x']> (sprocs st) !! r = Some y /\ p_stat y = SRUN /\ loaded y = true) as G3.
  { intros r Hr. destruct (inv_cur0 r Hr) as (y&?&?&?). exists y. rewrite lookup_put by done. rewrite decide_False; [done|congruence]. }
  assert (forall r y, <[p:=x']> (sprocs st) !! r = Some y -> p_stat y = SSLEEP -> p_wchan y <> 0 \/ None = Some r) as G4.
  { intros r y. rewrite lookup_put by done. case_decide; [|by apply inv_asleep0]. intros [= <-]. subst r. rewrite Hs, Hw. by apply inv_asleep0. }
  destruct (Z.eqb_spec (p_stat x) SRUN) as [Hr|Hr]; constructor; cbn [set_procs setrq set_qs slpque sprocs qs cur]; try done.
  - by apply NoDup_cons.
  - intros r. rewrite elem_of_cons, inv_qs0, lookup_put by done. case_decide as Er; [|naive_solver]. subst r. split; [|by left].
    intros _. exists x'. rewrite Hs. done.
  - intros r. rewrite inv_qs0, lookup_put by done. case_decide as Er; [|done]. subst r. split; [intros (y&Hy&?&?&_); rewrite Hx in Hy; injection Hy as <-; done|].
    intros (y&[= <-]&?&_). congruence.
Qed.

Lemma loaded_clear x : loaded (set_flag x (Z.ldiff (p_flag x) SLOAD)) = false.
Proof. unfold loaded, SLOAD. cbn [p_flag set_flag]. rewrite ldiff_land_1. change (Z.land (Z.lnot 1) 1) with 0. by rewrite Z.land_0_r. Qed.

Lemma loaded_set x : loaded (set_flag x (Z.lor (p_flag x) SLOAD)) = true.
Proof.
  unfold loaded, SLOAD. cbn [p_flag set_flag]. rewrite Z.land_lor_distr_l. change (Z.land 1 1) with 1.
  destruct (Z.eqb_spec (Z.lor (Z.land (p_flag x) 1) 1) 0) as [E|]; [|done]. by apply Z.lor_eq_0_iff in E as [_ ?].
Qed.

Lemma swapout_inv st p x : sched_inv None st -> sprocs st !! p = Some x -> loaded x = true -> cur st <> Some p ->
  exists st', sched_swapout p st = Ok st' /\ sched_inv None st'.
Proof.
  intros H Hx Hl Hc. unfold sched_swapout. rewrite (rd_ok _ _ _ Hx). cbn [mbind outcome_bind]. rewrite (put_ok _ p x) by done. cbn [mbind outcome_bind].
  set (x' := set_flag x _). destruct (Z.eqb_spec (p_stat x) SRUN) as [Hr|Hr].
  - assert (p ∈ qs st) as Hp by (apply (inv_qs _ _ H); by exists x). unfold remrq. cbn [set_procs qs].
    destruct (remove1_spec p (qs st) Hp (inv_qs_nodup _ _ H)) as (l&->&Hnd&Hin). eexists. split; [done|].
    apply (unload_inv st p x x' l); try done. apply loaded_clear.
  - eexists. split; [done|]. assert (p ∉ qs st) as Hp. { intros Hp. apply (inv_qs _ _ H) in Hp as (y&Hy&?&_). rewrite Hx in Hy. injection Hy as <-. done. }
    pose proof (unload_inv st p x x' (qs st) H Hx Hc eq_refl eq_refl (loaded_clear x) (inv_qs_nodup _ _ H)) as Hu.
    replace (set_procs st (<[p:=x']> (sprocs st))) with (set_qs (set_procs st (<[p:=x']> (sprocs st))) (qs st)) by by destruct st.
    apply Hu. intros r. split; [intros ?; split; [done|by intros ->]|by intros [? _]].
Qed.

Lemma swapin_inv st p x : sched_inv None st -> sprocs st !! p = Some x -> loaded x = false ->
  exists st', swapin_queue p st = Ok st' /\ sched_inv None st'.
Proof.
  intros H Hx Hl. unfold swapin_queue. rewrite (rd_ok _ _ _ Hx). cbn [mbind outcome_bind].
  set (x' := set_ptime _ 0). rewrite (put_ok _ p x) by (by destruct (p_stat x =? SRUN)). eexists. split; [done|].
  replace (sprocs (if p_stat x =? SRUN then setrq p st else st)) with (sprocs st) by by destruct (p_stat x =? SRUN).
  apply (load_inv st p x x'); try done. apply loaded_set.
Qed.

(** *** Timers *)

Lemma flag_inv st p x f : sched_inv None st -> sprocs st !! p = Some x -> Z.land f SLOAD = 0 ->
  sched_inv None (set_procs st (<[p:=set_flag x (Z.lor (p_flag x) f)]> (sprocs st))).
Proof.
  intros H Hx Hf. rewrite <- (set_runrun_id (set_procs _ _)). apply (inv_same None st p x); try done.
  split; [done|]. split; [|done]. unfold loaded. cbn [p_flag set_flag]. by rewrite Z.land_lor_distr_l, Hf, Z.lor_0_r.
Qed.

Lemma unsleep_stopped st p x : sched_inv None st -> sprocs st !! p = Some x -> p_stat x <> SSLEEP ->
  exists st' x', unsleep p st = Ok st' /\ sched_inv None st' /\ sprocs st' !! p = Some x'.
Proof.
  intros H Hx Hs. destruct (unsleep_inv st p x H Hx) as (st'&x'&E&H'&Ep&Es&_). exists st', x'. split; [done|].
  pose proof (lookup_lt_Some _ _ _ Hx). assert (sprocs st' !! p = Some x') as Hx' by (rewrite Ep, lookup_put by done; by rewrite decide_True).
  split; [|done]. destruct H'. constructor; try done. intros r y Hy Hr. destruct (inv_asleep0 r y Hy Hr) as [?|[= ->]]; [by left|].
  rewrite Hx' in Hy. injection Hy as <-. congruence.
Qed.

Lemma endtsleep_inv st p x : sched_inv None st -> sprocs st !! p = Some x -> exists st', endtsleep p st = Ok st' /\ sched_inv None st'.
Proof.
  intros H Hx. unfold endtsleep. rewrite (rd_ok _ _ _ Hx). cbn [mbind outcome_bind].
  destruct (Z.eqb_spec (p_wchan x) 0) as [|Hw]; cbn [negb]; [by exists st|].
  assert (exists st1 x1, (if p_stat x =? SSLEEP then setrun p st else unsleep p st) = Ok st1 /\ sched_inv None st1 /\ sprocs st1 !! p = Some x1)
    as (st1&x1&->&H1&Hx1).
  { destruct (Z.eqb_spec (p_stat x) SSLEEP) as [Hs|Hs]; [|by eapply unsleep_stopped].
    destruct (setrun_inv st p x H Hx) as (st1&E&H1&L1); [by right; left|].
    destruct (proj2 (lookup_lt_is_Some (sprocs st1) p)) as [x1 Hx1]; [rewrite L1; by eapply lookup_lt_Some|]. by exists st1, x1. }
  cbn [mbind outcome_bind]. rewrite (rd_ok _ _ _ Hx1). cbn [mbind outcome_bind]. rewrite (put_ok _ p x1) by done.
  eexists. split; [done|]. by apply flag_inv.
Qed.

(** A change of an entry that is not the scheduler's. *)
Lemma put_inv st p x x' : sched_inv None st -> sprocs st !! p = Some x -> same_sched x x' ->
  exists st', put st p x' = Ok st' /\ sched_inv None st' /\ length (sprocs st') = length (sprocs st) /\ sprocs st' !! p = Some x'.
Proof.
  intros H Hx Hs. rewrite (put_ok _ p x) by done. eexists. split; [done|]. split.
  - rewrite <- (set_runrun_id (set_procs _ _)). by apply (inv_same None st p x).
  - cbn. split; [by rewrite length_insert|]. rewrite lookup_put by (by eapply lookup_lt_Some). by rewrite decide_True.
Qed.

(** ** The states at boot and of a process made *)

(** The state at boot: process 0 runs, the other entries are free. *)
Definition free_sproc : sproc := Sproc 0 0 0 0 0 0 0 0 0 0.
Definition boot_sched (n : nat) : sched :=
  Sched (Sproc SRUN (Z.lor SLOAD SSYS) 0 0 0 0 0 0 0 0 :: replicate n free_sproc) (replicate SQSIZE []) [] 0 0 0 0 (Some 0%nat).

Lemma boot_sched_inv n : sched_inv None (boot_sched n).
Proof.
  assert (forall p x, sprocs (boot_sched n) !! p = Some x -> p_wchan x = 0 /\ p_stat x <> SSLEEP /\ (p_stat x = SRUN -> p = 0%nat)) as Hp.
  { intros [|p] x; cbn; [by intros [= <-]|]. intros [-> _]%lookup_replicate_1. done. }
  constructor; cbn [slpque qs cur boot_sched]; try done.
  - intros h q p [-> _]%lookup_replicate_1 ?%not_elem_of_nil. done.
  - intros h q [-> _]%lookup_replicate_1. constructor.
  - intros p x Hx Hw. by destruct (Hp p x Hx).
  - constructor.
  - intros p. split; [by intros ?%not_elem_of_nil|]. intros (x&Hx&Hs&_&Hc). destruct (Hp p x Hx) as (_&_&E). by rewrite E in Hc.
  - intros p [= <-]. eexists. by split.
  - intros p x Hx Hs. by destruct (Hp p x Hx) as (_&?&_).
Qed.

Lemma free_inv st p x x' : sched_inv None st -> sprocs st !! p = Some x -> p_stat x <> SSLEEP -> p_stat x <> SSTOP -> p_stat x <> SRUN ->
  p_stat x' <> SSLEEP -> p_stat x' <> SRUN -> p_wchan x' = 0 -> sched_inv None (set_procs st (<[p:=x']> (sprocs st))).
Proof.
  intros H Hx Hs1 Hs2 Hs3 Hs4 Hs5 Hw'. pose proof (lookup_lt_Some _ _ _ Hx) as Hlt.
  assert (p_wchan x = 0) as Hw by (eapply no_chan; [exact H|exact Hx|done|done]). destruct H.
  constructor; cbn [set_procs slpque sprocs qs cur]; try done.
  - intros h q r Hq Hr. destruct (inv_sleep0 _ _ _ Hq Hr) as (y&Hy&Hn&Hh&Hst). exists y. rewrite lookup_put by done. rewrite decide_False; [done|].
    intros ->. rewrite Hx in Hy. injection Hy as <-. done.
  - intros r y. rewrite lookup_put by done. case_decide; [by intros [= <-]|]. apply inv_wchan0.
  - intros r. rewrite inv_qs0, lookup_put by done. case_decide as Er; [|done]. subst r.
    split; [intros (y&Hy&E&_); rewrite Hx in Hy; injection Hy as <-; done|intros (y&[= <-]&E&_); done].
  - intros r Hr. destruct (inv_cur0 r Hr) as (y&Hy&E&?). exists y. rewrite lookup_put by done. rewrite decide_False; [done|].
    intros ->. rewrite Hx in Hy. injection Hy as <-. done.
  - intros r y. rewrite lookup_put by done. case_decide; [by intros [= <-]|]. apply inv_asleep0.
Qed.

(** The invariant, by evaluation. *)
Definition sched_invb (st : sched) : bool :=
  let entry p (ok : sproc -> bool) := match sprocs st !! p with Some x => ok x | None => false end in
  let runs p := entry p (fun x => (p_stat x =? SRUN) && loaded x) in
  let all (ok : nat -> sproc -> bool) := forallb (fun p => entry p (ok p)) (seq 0 (length (sprocs st))) in
  Nat.eqb (length (slpque st)) 16 &&
  forallb (fun h => match slpque st !! h with
    | Some q => bool_decide (NoDup q) && forallb (fun p => entry p (fun x => negb (p_wchan x =? 0) && Nat.eqb (HASH (p_wchan x)) h && ((p_stat x =? SSLEEP) || (p_stat x =? SSTOP)))) q
    | None => false end) (seq 0 16) &&
  all (fun p x => (p_wchan x =? 0) || match slpque st !! HASH (p_wchan x) with Some q => bool_decide (p ∈ q) | None => false end) &&
  bool_decide (NoDup (qs st)) && forallb (fun p => runs p && negb (bool_decide (cur st = Some p))) (qs st) &&
  all (fun p x => negb ((p_stat x =? SRUN) && loaded x) || bool_decide (cur st = Some p) || bool_decide (p ∈ qs st)) &&
  match cur st with Some p => runs p | None => true end &&
  all (fun p x => negb (p_stat x =? SSLEEP) || negb (p_wchan x =? 0)).

Lemma sched_invb_ok st : sched_invb st = true -> sched_inv None st.
Proof.
  unfold sched_invb. cbv zeta. rewrite !andb_true_iff. intros (((((((H1%Nat.eqb_eq&H2)&H3)&H4)&H5)&H6)&H7)&H8).
  rewrite !forallb_forall in *. setoid_rewrite <- list_elem_of_In in H2. setoid_rewrite <- list_elem_of_In in H3. setoid_rewrite <- list_elem_of_In in H5.
  setoid_rewrite <- list_elem_of_In in H6. setoid_rewrite <- list_elem_of_In in H8.
  assert (forall p x, sprocs st !! p = Some x -> p ∈ seq 0 (length (sprocs st))) as Hseq by (intros p x ?%lookup_lt_Some; apply elem_of_seq; lia).
  assert (forall p, match sprocs st !! p with Some x => (p_stat x =? SRUN) && loaded x | None => false end = true -> exists x, sprocs st !! p = Some x /\ p_stat x = SRUN /\ loaded x = true) as Hruns.
  { intros p Hp. destruct (sprocs st !! p) as [x|]; [|done]. exists x. by apply andb_true_iff in Hp as [?%Z.eqb_eq ?]. }
  assert (forall h q, slpque st !! h = Some q -> h ∈ seq 0 16) as Hh by (intros h q ?%lookup_lt_Some; apply elem_of_seq; lia).
  constructor; [done|..].
  - intros h q p Hq Hp. specialize (H2 h (Hh h q Hq)). rewrite Hq in H2. apply andb_true_iff in H2 as [_ H2]. rewrite forallb_forall in H2. specialize (H2 p (proj1 (list_elem_of_In _ _) Hp)).
    destruct (sprocs st !! p) as [x|]; [|done]. exists x. rewrite !andb_true_iff, orb_true_iff, !Z.eqb_eq, negb_true_iff, Z.eqb_neq, Nat.eqb_eq in H2. tauto.
  - intros h q Hq. specialize (H2 h (Hh h q Hq)). rewrite Hq in H2. apply andb_true_iff in H2 as [H2 _]. by apply bool_decide_eq_true in H2.
  - intros p x Hx Hw. specialize (H3 p (Hseq p x Hx)). rewrite Hx, (proj2 (Z.eqb_neq _ _) Hw) in H3. destruct (slpque st !! _) as [q|]; [|done]. exists q. split; [done|]. by apply bool_decide_eq_true in H3.
  - by apply bool_decide_eq_true in H4.
  - intros p. split.
    + intros Hp. specialize (H5 p Hp). apply andb_true_iff in H5 as [Hr Hc%negb_true_iff%bool_decide_eq_false]. destruct (Hruns p Hr) as (x&?&?&?). by exists x.
    + intros (x&Hx&Hs&Hl&Hc). specialize (H6 p (Hseq p x Hx)). rewrite Hx, Hs, Hl, (bool_decide_eq_false_2 (cur st = Some p)) in H6 by done. by apply bool_decide_eq_true in H6.
  - intros p Hc. rewrite Hc in H7. by apply Hruns.
  - intros p x Hx Hs. left. specialize (H8 p (Hseq p x Hx)). rewrite Hx, Hs in H8. by apply negb_true_iff, Z.eqb_neq in H8.
Qed.

(** C15. With the queues in order, [wakeup] returns, nobody is left waiting
    on the channel, and exactly those are woken who waited on it, and, when
    the swapper waits for work and one of those made runnable is swapped out,
    those who wait on [runout]: each of them waits on nothing any more, is
    runnable if it slept, and still stopped if it was stopped. Every other
    entry is left as it was, all flags too, and [runout] is cleared just when
    the swapper is told. *)
Theorem wakeup_spec chan st : chan <> 0 -> sched_inv None st ->
  exists st', wakeup chan st = Ok st' /\ sched_inv None st' /\ cur st' = cur st /\
    (forall p x, sprocs st' !! p = Some x -> p_wchan x <> chan) /\
    (forall p x, sprocs st !! p = Some x -> exists x', sprocs st' !! p = Some x' /\ p_flag x' = p_flag x /\
       (concerned (tells_swapper chan st) chan x -> p_wchan x' = 0 /\
          ((p_stat x = SSLEEP /\ p_stat x' = SRUN /\ p_slptime x' = 0) \/ (p_stat x = SSTOP /\ p_stat x' = SSTOP))) /\
       (~ concerned (tells_swapper chan st) chan x -> x' = x)) /\
    (tells_swapper chan st -> runout st' = 0) /\ (~ tells_swapper chan st -> runout st' = runout st).
Proof.
  intros Hc H. destruct (wakeup_exact chan st Hc H) as (st'&E&H'&Hwk&Hnone&Hyes&Hnot). exists st'. do 2 (split; [done|]).
  split; [by apply Hwk|]. split; [done|]. split; [|split; [by intros [? _]%Hyes|done]]. intros p x Hx.
  destruct (wk_proc _ _ _ _ Hwk p x Hx) as (x'&Hx'&Hf&Hw). exists x'. do 2 (split; [done|]). destruct Hw as [->|(_&?&?&?)]; [split; [|done]|done].
  intros [Hch|[Ht Hro]]; exfalso; [by apply (Hnone p x)|]. destruct (Hyes Ht) as [_ Hn]. by apply (Hn p x).
Qed.

Definition two_asleep : sched :=
  Sched [Sproc SRUN SLOAD 0 0 0 0 0 0 0 0; Sproc SSLEEP SLOAD 30 9 0 0 0 0x2000 0 0; Sproc SSTOP SLOAD 30 9 0 0 0 0x2000 0 0; Sproc SSLEEP SLOAD 30 9 0 0 0 0x2200 0 0]
    (<[0%nat:=[3; 1; 2]%nat]> (replicate SQSIZE [])) [] 0 50 0 0 (Some 0%nat).

Lemma two_asleep_inv : sched_inv None two_asleep.
Proof. apply sched_invb_ok. by vm_compute. Qed.

(** The same with process 1 swapped out and the swapper waiting for work. *)
Definition swapped_asleep : sched :=
  Sched [Sproc SSLEEP SLOAD 0 0 0 0 0 A_RUNOUT 0 0; Sproc SSLEEP 0 30 9 0 0 0 0x2000 0 0; Sproc SSTOP SLOAD 30 9 0 0 0 0x2000 0 0; Sproc SRUN SLOAD 30 9 0 0 0 0 0 0]
    (<[1%nat:=[0%nat]]> (<[0%nat:=[1; 2]%nat]> (replicate SQSIZE []))) [] 0 50 0 1 (Some 3%nat).

Lemma wakeup_spec_witness :
  (exists st', wakeup 0x2000 two_asleep = Ok st' /\ qs st' = [1]%nat /\ slpque st' !! 0%nat = Some [3]%nat /\
     (exists x, sprocs st' !! 2%nat = Some x /\ p_stat x = SSTOP /\ p_wchan x = 0)) /\
  exists st', wakeup 0x2000 swapped_asleep = Ok st' /\ qs st' = [0]%nat /\ runout st' = 0.
Proof.
  split.
  - destruct (wakeup_spec 0x2000 two_asleep ltac:(lia) two_asleep_inv) as (st'&E&_). exists st'. split; [exact E|]. vm_compute in E. injection E as <-.
    split; [done|]. split; [done|]. eexists. by split.
  - destruct (wakeup_spec 0x2000 swapped_asleep ltac:(lia) ltac:(apply sched_invb_ok; by vm_compute)) as (st'&E&_). exists st'. split; [exact E|].
    vm_compute in E. injection E as <-. by split.
Defined.

(** [swtch] chooses a loaded process of the best (least) priority on the
    run queue, takes it, and only it, off the queue and makes its
    priority the current one; it idles only when every queued process has
    priority 128 or more. *)
Theorem swtch_best st : sched_inv None (set_cur st None) ->
  exists st', swtch st = Ok st' /\ sched_inv None st' /\
    match cur st' with
    | Some p => exists x, sprocs st !! p = Some x /\ loaded x = true /\ p ∈ qs st /\ curpri st' = p_pri x /\
        (forall r y, r ∈ qs st -> sprocs st !! r = Some y -> p_pri x <= p_pri y) /\
        (forall r, r ∈ qs st' <-> r ∈ qs st /\ r <> p)
    | None => forall p x, p ∈ qs st -> sprocs st !! p = Some x -> 128 <= p_pri x
    end.
Proof.
  intros H. destruct (swtch_inv st H) as (st'&E&H'&Hb). exists st'. split; [done|]. split; [done|].
  destruct (cur st') as [p|]; [|done]. destruct Hb as (x&Hx&Hp&Hall&Hc&Hin). exists x. split_and?; try done.
  apply (inv_qs _ _ H) in Hp as (y&Hy&_&?&_). cbn in Hy. rewrite Hx in Hy. by injection Hy as <-.
Qed.

Lemma swtch_best_witness : exists st', swtch (set_cur (setrq 0 two_asleep) None) = Ok st' /\ cur st' = Some 0%nat /\ qs st' = [].
Proof.
  destruct (swtch_best (set_cur (setrq 0 two_asleep) None)) as (st'&E&_).
  { apply (requeue_inv two_asleep 0 (Sproc SRUN SLOAD 0 0 0 0 0 0 0 0) two_asleep_inv); reflexivity. }
  exists st'. split; [exact E|]. vm_compute in E. injection E as <-. by split.
Defined.

(** *** Two defects of the priorities *)

Lemma decay_forgets fuel a slp : 2 <= slp <= 255 -> exists slp', decay (S (S fuel)) a slp = (0, slp').
Proof.
  intros Hs. cbn [decay]. destruct (Z.eqb_spec a 0) as [->|]; [by eexists|]. rewrite trunc_small by lia.
  rewrite (proj2 (Z.eqb_neq (slp - 1) 0)) by lia. change (8 / 10 * a) with 0. by eexists.
Qed.

(** The decay of [updatepri] does not decay: [SCHMAG] is the unbracketed
    text 8/10, so that [SCHMAG * a] is zero, and a process that slept three
    seconds or more loses the whole of its accumulated processor use,
    whatever it was. *)
Theorem updatepri_forgets st p x : sprocs st !! p = Some x -> 3 <= p_slptime x <= 127 ->
  exists st' x', updatepri p st = Ok st' /\ sprocs st' !! p = Some x' /\ p_scpu x' = 0 /\ p_pri x' = u8 (Z.min 127 (PUSER + p_snice x)).
Proof.
  intros Hx Hs. pose proof (lookup_lt_Some _ _ _ Hx) as Hlt. unfold updatepri. rewrite (rd_ok _ _ _ Hx). cbn [mbind outcome_bind].
  assert (exists slp, decay 256 (Z.land (p_scpu x) 255) (u8 (p_slptime x - 1)) = (0, slp)) as [slp ->].
  { rewrite trunc_small by lia. apply (decay_forgets 254). lia. }
  cbv iota zeta beta. change (set_cpu (set_slptime x slp) _) with (set_cpu (set_slptime x slp) 0). set (x1 := set_cpu (set_slptime x slp) 0). rewrite (put_ok _ p x) by done. cbn [mbind outcome_bind]. unfold setpri.
  rewrite (rd_ok _ _ x1) by (cbn; rewrite lookup_put by done; by rewrite decide_True). cbn [mbind outcome_bind].
  rewrite (put_ok _ p x1) by (destruct (user_pri _ <? _); cbn; rewrite lookup_put by done; by rewrite decide_True).
  eexists _, (set_pri x1 (u8 (user_pri x1))). split; [done|]. split.
  { destruct (user_pri _ <? _); cbn; rewrite list_insert_insert_eq, lookup_put by done; by rewrite decide_True. }
  split; [done|]. cbn [set_pri p_pri]. unfold user_pri. cbn [x1 p_scpu p_snice set_cpu set_slptime]. change (Z.land 0 255 / 16) with 0.
  f_equal. destruct (Z.ltb_spec 127 (0 + PUSER + p_snice x)); lia.
Qed.

Lemma updatepri_forgets_witness : exists st' x', updatepri 0 (Sched [Sproc SSLEEP SLOAD 60 200 0 3 0 0 0 0] [] [] 0 50 0 0 None) = Ok st' /\
  sprocs st' !! 0%nat = Some x' /\ p_scpu x' = 0.
Proof.
  destruct (updatepri_forgets (Sched [Sproc SSLEEP SLOAD 60 200 0 3 0 0 0 0] [] [] 0 50 0 0 None) 0 (Sproc SSLEEP SLOAD 60 200 0 3 0 0 0 0) eq_refl ltac:(cbn; lia))
    as (st'&x'&?&?&?&_). by exists st', x'.
Defined.

(** A negative nice value makes a process's priority worse: [p_nice] is a
    [char], unsigned on this machine, so that root's [donice] of [n] in -20
    to -1 stores [256 + n], [getpriority] reports that number, and [setpri]
    gives the worst priority of all, 127. *)
Theorem nice_inverted x ruid puid n : PRIO_MIN <= n <= -1 ->
  exists x', donice 0 ruid puid x n = (x', 0) /\ getpriority_process x' = 256 + n /\ user_pri x' = 127.
Proof.
  intros Hn. unfold PRIO_MIN in Hn. unfold donice. cbn [Z.eqb negb andb].
  rewrite (proj2 (Z.ltb_ge PRIO_MAX n)) by (unfold PRIO_MAX; lia). rewrite (proj2 (Z.ltb_ge n PRIO_MIN)) by (unfold PRIO_MIN; lia).
  rewrite andb_false_r. eexists. split; [done|].
  assert (u8 n = 256 + n) as E. { unfold trunc. rewrite <- (Z.mod_add n 1 (2 ^ 8)) by lia. rewrite Z.mod_small by lia. lia. }
  split; [done|]. unfold user_pri. cbn [set_nice p_scpu p_snice]. rewrite E.
  assert (0 <= Z.land (p_scpu x) 255 / 16) by (apply Z.div_pos; [apply Z.land_nonneg; lia|lia]).
  destruct (Z.ltb_spec 127 (Z.land (p_scpu x) 255 / 16 + PUSER + (256 + n))); [done|unfold PUSER in *; lia].
Qed.

Lemma nice_inverted_witness : exists x', donice 0 0 0 free_sproc (-5) = (x', 0) /\ getpriority_process x' = 251.
Proof. destruct (nice_inverted free_sproc 0 0 (-5)) as (x'&?&?&_); [unfold PRIO_MIN; lia|]. by exists x'. Defined.

(** ** Stopping inside an interruptible sleep *)

Lemma scan_panics chan p q st x : sprocs st !! p = Some x -> p_stat x = SRUN -> wake_scan chan (p :: q) st = Panic "wakeup".
Proof. intros Hx Hs. cbn [wake_scan]. rewrite (rd_ok _ _ _ Hx). cbn [mbind outcome_bind]. by rewrite Hs. Qed.

Lemma runout_panics p q st x : slpque st !! HASH A_RUNOUT = Some (p :: q) -> sprocs st !! p = Some x -> p_stat x = SRUN ->
  wakeup_runout st = Panic "wakeup".
Proof.
  intros Hq Hx Hs. unfold wakeup_runout. cbn [wakeup_loop]. rewrite (rd_ok _ _ _ Hq). cbn [mbind outcome_bind].
  by rewrite (scan_panics _ _ _ _ x).
Qed.

(** [setpri] and [updatepri] change one entry's counters only. *)
Definition one_entry (p : nat) (st st' : sched) : Prop :=
  slpque st' = slpque st /\ runout st' = runout st /\ (forall r, r <> p -> sprocs st' !! r = sprocs st !! r) /\
  forall x, sprocs st !! p = Some x -> exists x', sprocs st' !! p = Some x' /\ p_flag x' = p_flag x.

Lemma updatepri_one st p x : sprocs st !! p = Some x -> exists st', updatepri p st = Ok st' /\ one_entry p st st'.
Proof.
  intros Hx. pose proof (lookup_lt_Some _ _ _ Hx) as Hlt. unfold updatepri. rewrite (rd_ok _ _ _ Hx). cbn [mbind outcome_bind].
  destruct (decay _ _ _) as [a slp]. set (x1 := set_cpu _ _). rewrite (put_ok _ p x) by done. cbn [mbind outcome_bind]. unfold setpri.
  rewrite (rd_ok _ _ x1) by (cbn; rewrite lookup_put by done; by rewrite decide_True). cbn [mbind outcome_bind].
  set (st2 := if _ <? curpri _ then _ else _).
  assert (sprocs st2 = <[p:=x1]> (sprocs st) /\ slpque st2 = slpque st /\ runout st2 = runout st) as (E1&E2&E3) by (unfold st2; destruct (_ <? curpri _); done).
  rewrite (put_ok _ p x1) by (rewrite E1, lookup_put by done; by rewrite decide_True). eexists. split; [done|].
  split; [done|]. split; [done|]. cbn [set_procs sprocs]. rewrite E1, list_insert_insert_eq. split.
  - intros r Hr. rewrite lookup_put by done. by rewrite decide_False.
  - intros y Hy. rewrite Hx in Hy. injection Hy as <-. eexists. rewrite lookup_put by done. by rewrite decide_True.
Qed.

(** Taking the parent off its queue leaves a process just put at the head of
    the queue of [runout] there. *)
Lemma unsleep_other st p parent x y h q pq : parent <> p -> sprocs st !! p = Some x -> sprocs st !! parent = Some y -> loaded y = false ->
  p_wchan y <> 0 -> slpque st !! HASH (p_wchan y) = Some pq -> parent ∈ pq -> NoDup pq -> slpque st !! h = Some (p :: q) ->
  exists st' y' q', unsleep parent st = Ok st' /\ sprocs st' !! p = Some x /\ sprocs st' !! parent = Some y' /\ loaded y' = false /\
    slpque st' !! h = Some (p :: q') /\ runout st' = runout st.
Proof.
  intros Hne Hx Hy Hly Hw Hpq Hin Hnd Hq. pose proof (lookup_lt_Some _ _ _ Hy). pose proof (lookup_lt_Some _ _ _ Hpq).
  unfold unsleep. rewrite (rd_ok _ _ _ Hy). cbn [mbind outcome_bind]. rewrite (proj2 (Z.eqb_neq _ _) Hw). cbn [negb].
  rewrite (rd_ok _ _ _ Hpq). cbn [mbind outcome_bind]. destruct (remove1_spec parent pq Hin Hnd) as (pq'&Er&_).
  rewrite Er, wr_ok by done. cbn [mbind outcome_bind]. rewrite (put_ok _ parent y) by done.
  assert (exists q', (<[HASH (p_wchan y):=pq']> (slpque st)) !! h = Some (p :: q')) as [q' Hq'].
  { rewrite lookup_put by done. case_decide as Eh; [|by exists q]. rewrite <- Eh, Hq in Hpq. injection Hpq as <-. cbn [remove1] in Er.
    rewrite (proj2 (Nat.eqb_neq p parent)) in Er by congruence. destruct (remove1 parent q) as [r|]; [|done]. injection Er as <-. by exists r. }
  eexists _, (set_wchan y 0), q'. split; [done|]. cbn [set_procs set_slpque sprocs slpque runout].
  split; [rewrite lookup_put by done; by rewrite decide_False by congruence|]. split; [rewrite lookup_put by done; by rewrite decide_True|].
  split; [exact Hly|]. by split.
Qed.

(** A process that is on the queue of [runout] with its state still SRUN makes
    waking a swapped-out parent panic. *)
Lemma setrun_panics st p parent x y q pq : sprocs st !! p = Some x -> p_stat x = SRUN ->
  parent <> p -> sprocs st !! parent = Some y -> p_stat y = SSLEEP -> loaded y = false -> p_wchan y <> 0 ->
  slpque st !! HASH (p_wchan y) = Some pq -> parent ∈ pq -> NoDup pq ->
  slpque st !! HASH A_RUNOUT = Some (p :: q) -> runout st <> 0 ->
  setrun parent st = Panic "wakeup".
Proof.
  intros Hx Hsx Hne Hy Hsy Hly Hw Hpq Hin Hnd Hq Hro.
  destruct (unsleep_other st p parent x y (HASH A_RUNOUT) q pq) as (st2&y2&q2&E2&Hx2&Hy2&Hl2&Hq2&Hr2); try done.
  unfold setrun. rewrite (rd_ok _ _ _ Hy). cbn [mbind outcome_bind]. rewrite Hsy. change ((SSLEEP =? SSTOP) || (SSLEEP =? SSLEEP)) with true. cbv iota. rewrite E2. cbn [mbind outcome_bind].
  rewrite (rd_ok _ _ _ Hy2). cbn [mbind outcome_bind].
  assert (exists st3 y3, (if 1 <? p_slptime y2 then updatepri parent st2 else Ok st2) = Ok st3 /\ sprocs st3 !! p = Some x /\ sprocs st3 !! parent = Some y3 /\
    loaded y3 = false /\ slpque st3 = slpque st2 /\ runout st3 = runout st2) as (st3&y3&->&Hx3&Hy3&Hl3&Hq3&Hr3).
  { destruct (1 <? _); [|by exists st2, y2]. destruct (updatepri_one st2 parent y2 Hy2) as (st3&E3&Q1&Q2&Q3&Q4). destruct (Q4 _ Hy2) as (y3&Hy3&Hf).
    exists st3, y3. split; [done|]. split; [by rewrite Q3 by congruence|]. split; [done|]. split; [unfold loaded in *; by rewrite Hf|done]. }
  cbn [mbind outcome_bind]. rewrite (rd_ok _ _ _ Hy3). cbn [mbind outcome_bind]. rewrite (put_ok _ parent y3) by done. cbn [mbind outcome_bind].
  change (loaded (set_stat y3 SRUN)) with (loaded y3). rewrite Hl3. set (st4 := set_procs st3 _).
  assert (forall rr, wake_swapper wakeup_runout (set_stat y3 SRUN) (set_runrun st4 rr) = Panic "wakeup") as Hend.
  { intros rr. unfold wake_swapper. change (loaded (set_stat y3 SRUN)) with (loaded y3). rewrite Hl3. cbn [negb set_runrun runout set_procs st4].
    rewrite Hr3, Hr2, (proj2 (Z.eqb_neq _ _) Hro). cbn [negb]. apply (runout_panics p q2 _ x); cbn; [by rewrite Hq3| |done].
    rewrite lookup_put by (by eapply lookup_lt_Some). by rewrite decide_False by congruence. }
  destruct (_ <? _); [apply Hend|]. rewrite <- (set_runrun_id st4). apply Hend.
Qed.

(** The state in which [tsleep] calls [CURSIG]: on the sleep queue, SRUN. *)
Definition entered (p : nat) (x : sproc) (ident priority : Z) (q : list nat) (st : sched) : sched :=
  let x := set_pri (set_slptime (set_wchan x ident) 0) (Z.land priority PRIMASK) in
  set_procs (set_slpque st (<[HASH ident:=p :: q]> (slpque st))) (<[p:=set_flag x (Z.lor (p_flag x) P_SINTR)]> (sprocs st)).

Lemma tsleep_cursig {W} CURSIG sigintr e p x ident priority q st (w : W) co :
  sprocs st !! p = Some x -> slpque st !! HASH ident = Some q -> Z.land priority PCATCH <> 0 ->
  tsleep CURSIG sigintr false e p ident priority 0 st w co =
  (r ← CURSIG p (entered p x ident priority q st) w;
   let '(st, w, sig) := r in
   match sig with
   | None => Ok (st, w, co, StoppedFirst)
   | Some sig => tsleep_signal CURSIG sigintr e p true sig 0 st w co
   end).
Proof.
  intros Hx Hq Hcatch. pose proof (lookup_lt_Some _ _ _ Hx) as Hlt. unfold tsleep. change (INT_MAX <? 0) with false. cbv iota zeta.
  rewrite (rd_ok _ _ _ Hx). cbn [mbind outcome_bind]. rewrite (rd_ok _ _ _ Hq). cbn [mbind outcome_bind].
  rewrite wr_ok by (by eapply lookup_lt_Some). cbn [mbind outcome_bind]. set (x1 := set_pri _ _).
  rewrite (put_ok _ p x) by done. cbn [mbind outcome_bind Z.eqb negb]. rewrite (proj2 (Z.eqb_neq _ _) Hcatch). cbn [negb].
  rewrite (put_ok _ p x1) by (cbn; rewrite lookup_put by done; by rewrite decide_True). cbn [mbind outcome_bind].
  cbn [set_procs sprocs set_slpque]. by rewrite list_insert_insert_eq.
Qed.
