(* ===== verification/Signal.v ===== *)
(** * Signals ([sys/kern/kern_sig.c], the tables of [sys/sys/signalvar.h])

    A process has the words [p_sig], [p_sigmask], [p_sigignore], [p_sigcatch]
    and [p_ptracesig] in its table entry and the actions, their masks and the
    alternate stack in its u area. They are functions of the table slot,
    beside the entries of [Sched]; an operation on a process also reads its
    entry there, which is where a slot outside the table faults. The words are
    32-bit; a signal [s] is bit [s - 1]. [procaddr] gives the address of an
    entry, which [wait] sleeps on.

    Posting a signal runs, stops or continues its process through [Sched];
    taking one in [issignal] may stop the current process, which ends the
    operation at the context switch: what follows is [issignal_stopped] or
    [issignal_traced]. *)
From stdpp Require Import functions.
From S2P Require Import Prelude Clock Sched Cred.

Definition NSIG : Z := 32.
Definition SIGHUP : Z := 1.
Definition SIGILL : Z := 4.
Definition SIGKILL : Z := 9.
Definition SIGSEGV : Z := 11.
Definition SIGSYS : Z := 12.
Definition SIGSTOP : Z := 17.
Definition SIGTSTP : Z := 18.
Definition SIGCONT : Z := 19.
Definition SIGCHLD : Z := 20.
Definition SIGTTIN : Z := 21.
Definition SIGTTOU : Z := 22.

Definition SIG_DFL : Z := 0.
Definition SIG_IGN : Z := 1.
Definition SIG_CATCH : Z := 2.
Definition SIG_HOLD : Z := 3.

Definition SA_KILL : Z := 0x01.
Definition SA_CORE : Z := 0x02.
Definition SA_STOP : Z := 0x04.
Definition SA_TTYSTOP : Z := 0x08.
Definition SA_IGNORE : Z := 0x10.
Definition SA_CONT : Z := 0x20.

(** The properties, by signal number; the last of the [NSIG + 1] places has no
    initialiser. *)
Definition sigprop : list Z :=
  [0; SA_KILL; SA_KILL; Z.lor SA_KILL SA_CORE; Z.lor SA_KILL SA_CORE; Z.lor SA_KILL SA_CORE; Z.lor SA_KILL SA_CORE;
   Z.lor SA_KILL SA_CORE; Z.lor SA_KILL SA_CORE; SA_KILL; Z.lor SA_KILL SA_CORE; Z.lor SA_KILL SA_CORE; Z.lor SA_KILL SA_CORE;
   SA_KILL; SA_KILL; SA_KILL; SA_IGNORE; SA_STOP; Z.lor SA_STOP SA_TTYSTOP; Z.lor SA_IGNORE SA_CONT; SA_IGNORE;
   Z.lor SA_STOP SA_TTYSTOP; Z.lor SA_STOP SA_TTYSTOP; SA_IGNORE; SA_KILL; SA_KILL; SA_KILL; SA_KILL; SA_IGNORE; SA_IGNORE;
   SA_KILL; SA_KILL; 0].

Definition contsigmask : Z := sigmask SIGCONT.
Definition stopsigmask : Z :=
  Z.lor (Z.lor (sigmask SIGSTOP) (sigmask SIGTSTP)) (Z.lor (sigmask SIGTTIN) (sigmask SIGTTOU)).
Definition sigcantmask : Z := Z.lor (sigmask SIGKILL) (sigmask SIGSTOP).

Definition P_TRACED : Z := 0x0010.
Definition SVFORK : Z := 0x0100.
Definition P_NOCLDSTOP : Z := 0x2000.
Definition NZERO : Z := 0.

Definition ESRCH : Z := 3.
Definition SIG_EINVAL : Z := 22.
Definition SIG_ENOMEM : Z := 12.

(** The C test [x & m]. *)
Definition has (x m : Z) : bool := negb (Z.land x m =? 0).

Record sigproc := Sigproc { p_sig : Z; p_sigmask : Z; p_sigignore : Z; p_sigcatch : Z; p_ptracesig : Z }.

Record sigstk := Sigstk { ss_base : Z; ss_size : Z; ss_flags : Z }.

Record usig := Usig {
  u_signal : list Z; u_sigmask : list Z; u_sigonstack : Z; u_sigintr : Z; u_oldmask : Z; u_psflags : Z;
  u_sigstk : sigstk; u_sigtramp : Z; us_ruid : Z; us_error : Z
}.

(** The signal state: identities and lists of processes, words and u areas. *)
Record sigs := Sigs {
  ids : list cproc;
  allproc : list nat;
  pidhash : list (list nat);
  words : nat -> sigproc;
  us : nat -> usig
}.

Definition set_words (w : sigs) (p : nat) (x : sigproc) : sigs :=
  Sigs (ids w) (allproc w) (pidhash w) (<[p:=x]> (words w)) (us w).
Definition set_us (w : sigs) (p : nat) (x : usig) : sigs :=
  Sigs (ids w) (allproc w) (pidhash w) (words w) (<[p:=x]> (us w)).

Definition set_sig (x : sigproc) (v : Z) : sigproc := Sigproc v (p_sigmask x) (p_sigignore x) (p_sigcatch x) (p_ptracesig x).
Definition set_sigmask (x : sigproc) (v : Z) : sigproc := Sigproc (p_sig x) v (p_sigignore x) (p_sigcatch x) (p_ptracesig x).
Definition set_sigignore (x : sigproc) (v : Z) : sigproc := Sigproc (p_sig x) (p_sigmask x) v (p_sigcatch x) (p_ptracesig x).
Definition set_sigcatch (x : sigproc) (v : Z) : sigproc := Sigproc (p_sig x) (p_sigmask x) (p_sigignore x) v (p_ptracesig x).
Definition set_ptracesig (x : sigproc) (v : Z) : sigproc := Sigproc (p_sig x) (p_sigmask x) (p_sigignore x) (p_sigcatch x) v.

(** [p->p_sig &= ~mask], [p->p_ptracesig = sig]. *)
Definition take_away (w : sigs) (p : nat) (mask : Z) : sigs := set_words w p (set_sig (words w p) (Z.ldiff (p_sig (words w p)) mask)).
Definition trace_sig (w : sigs) (p : nat) (sig : Z) : sigs := set_words w p (set_ptracesig (words w p) (u8 sig)).

(** [ffs] of [machdep.c]. The words have 32 bits, so 32 rounds find a bit. *)
Fixpoint ffs_loop (fuel : nat) (mask cnt : Z) : Z :=
  match fuel with
  | O => cnt
  | S fuel' => if Z.odd mask then cnt else ffs_loop fuel' (Z.shiftr mask 1) (cnt + 1)
  end.

Definition ffs (mask : Z) : Z := if mask =? 0 then 0 else ffs_loop 32 mask 1.

Section posting.
Context (procaddr : nat -> Z).

(** The label [run]: raise the priority to at least PUSER and run. *)
Definition psignal_run (p : nat) (st : sched) (w : sigs) : outcome (sched * sigs) :=
  x ← rd (sprocs st) p;
  st ← put st p (if PUSER <? p_pri x then set_pri x PUSER else x);
  st ← setrun p st;
  Ok (st, w).

(** The action [psignal] finds for a signal that is not forgotten. *)
Definition sig_action (x : sproc) (y : sigproc) (mask : Z) : Z :=
  if has (p_flag x) P_TRACED then SIG_DFL
  else if has (p_sigmask y) mask then SIG_HOLD
  else if has (p_sigcatch y) mask then SIG_CATCH
  else SIG_DFL.

(** [psignal] for a process asleep; [chld] is the nested call that posts
    SIGCHLD to the parent. *)
Definition psignal_asleep (chld : nat -> sched -> sigs -> outcome (sched * sigs))
    (p : nat) (sig prop action : Z) (st : sched) (w : sigs) : outcome (sched * sigs) :=
  let mask := sigmask sig in
  x ← rd (sprocs st) p;
  if negb (has (p_flag x) P_SINTR) then Ok (st, w)
  else if has (p_flag x) P_TRACED then psignal_run p st w
  else if has prop SA_CONT && (action =? SIG_DFL) then Ok (st, take_away w p mask)
  else if has prop SA_STOP then
    if negb (action =? SIG_DFL) then psignal_run p st w
    else if has (p_flag x) SVFORK then Ok (st, w)
    else
      let w := trace_sig (take_away w p mask) p sig in
      i ← rd (ids w) p;
      y ← rd (sprocs st) (c_pptr i);
      r ← (if negb (has (p_flag y) P_NOCLDSTOP) then chld (c_pptr i) st w else Ok (st, w));
      st ← stop p (procaddr (c_pptr i)) (fst r);
      Ok (st, snd r)
  else psignal_run p st w.

(** [psignal] for a process already stopped. *)
Definition psignal_stopped (p : nat) (sig prop action : Z) (st : sched) (w : sigs) : outcome (sched * sigs) :=
  let mask := sigmask sig in
  x ← rd (sprocs st) p;
  if has (p_flag x) P_TRACED then Ok (st, w)
  else if sig =? SIGKILL then psignal_run p st w
  else if has prop SA_CONT then
    let w := if action =? SIG_DFL then take_away w p mask else w in
    if (action =? SIG_CATCH) || (p_wchan x =? 0) then psignal_run p st w
    else st ← put st p (set_stat x SSLEEP); Ok (st, w)
  else if has prop SA_STOP then Ok (st, take_away w p mask)
  else if negb (p_wchan x =? 0) && has (p_flag x) P_SINTR then st ← unsleep p st; Ok (st, w)
  else Ok (st, w).

(** [psignal]. The shift of [sigmask] is undefined for a number outside 1 to
    32. *)
Definition psignal_with (chld : nat -> sched -> sigs -> outcome (sched * sigs))
    (p : nat) (sig : Z) (st : sched) (w : sigs) : outcome (sched * sigs) :=
  if (sig <? 1) || (32 <? sig) then Fault else
  let mask := sigmask sig in
  prop ← rdz sigprop sig;
  x ← rd (sprocs st) p;
  let y := words w p in
  if negb (has (p_flag x) P_TRACED) && has (p_sigignore y) mask then Ok (st, w)
  else
    let action := sig_action x y mask in
    let x := if (NZERO <? p_snice x) && (action =? SIG_DFL) && has prop SA_KILL && negb (has (p_flag x) P_TRACED)
             then set_nice x NZERO else x in
    st ← put st p x;
    let w := if has prop SA_CONT then take_away w p stopsigmask else w in
    orphan ← (if has prop SA_STOP && has prop SA_TTYSTOP then i ← rd (ids w) p; Ok (Nat.eqb (c_pptr i) 1 && (action =? SIG_DFL)) else Ok false);
    if orphan : bool then Ok (st, w)
    else
      let w := if has prop SA_STOP then take_away w p contsigmask else w in
      let w := set_words w p (set_sig (words w p) (Z.lor (p_sig (words w p)) mask)) in
      if (action =? SIG_HOLD) && (negb (has prop SA_CONT) || negb (p_stat x =? SSTOP)) then Ok (st, w)
      else if p_stat x =? SSLEEP then psignal_asleep chld p sig prop action st w
      else if p_stat x =? SSTOP then psignal_stopped p sig prop action st w
      else Ok (st, w).

(** SIGCHLD does not stop a process, so the nested call does not nest. *)
Definition psignal_chld (p : nat) (st : sched) (w : sigs) : outcome (sched * sigs) :=
  psignal_with (fun _ _ _ => Fault) p SIGCHLD st w.

Definition psignal : nat -> Z -> sched -> sigs -> outcome (sched * sigs) := psignal_with psignal_chld.

(** [gsignal] over the list of processes. *)
Fixpoint gsignal_loop (l : list nat) (pgrp sig : Z) (st : sched) (w : sigs) : outcome (sched * sigs) :=
  match l with
  | [] => Ok (st, w)
  | p :: l' =>
      i ← rd (ids w) p;
      r ← (if c_pgrp i =? pgrp then psignal p sig st w else Ok (st, w));
      gsignal_loop l' pgrp sig (fst r) (snd r)
  end.

Definition gsignal (pgrp sig : Z) (st : sched) (w : sigs) : outcome (sched * sigs) :=
  if pgrp =? 0 then Ok (st, w) else gsignal_loop (allproc w) pgrp sig st w.

(** ** Sending by a process *)

(** The real user id [fill_from_u] reads, from the u area wherever it is; a
    zombie has none left. *)
Definition fill_ruid (x : sproc) (w : sigs) (q : nat) : Z := if p_stat x =? SZOMB then u32 (-2) else us_ruid (us w q).

(** [cansignal] by the current process [me]. *)
Definition cansignal (me q : nat) (signum : Z) (st : sched) (w : sigs) : outcome bool :=
  x ← rd (sprocs st) q;
  c ← rd (ids w) me;
  t ← rd (ids w) q;
  let ruid := fill_ruid x w q in
  let u_ruid := us_ruid (us w me) in
  if (c_uid c =? 0) || (u_ruid =? ruid) || (c_uid c =? ruid) || (u_ruid =? c_uid t) || (c_uid c =? c_uid t) then Ok true
  else if signum =? SIGCONT then inferior (length (ids w)) (ids w) q me
  else Ok false.

(** The loop of [killpg1]: the state, the number found and the error. *)
Fixpoint killpg1_loop (l : list nat) (me : nat) (signo pgrp : Z) (all : bool) (f error : Z) (st : sched) (w : sigs)
  : outcome (sched * sigs * Z * Z) :=
  match l with
  | [] => Ok (st, w, f, error)
  | p :: l' =>
      i ← rd (ids w) p;
      x ← rd (sprocs st) p;
      if (negb (c_pgrp i =? pgrp) && negb all) || (c_ppid i =? 0) || has (p_flag x) SSYS || (all && Nat.eqb p me)
      then killpg1_loop l' me signo pgrp all f error st w
      else
        can ← cansignal me p signo st w;
        if negb can then killpg1_loop l' me signo pgrp all f (if negb all then EPERM else error) st w
        else
          r ← (if negb (signo =? 0) then psignal p signo st w else Ok (st, w));
          killpg1_loop l' me signo pgrp all (f + 1) error (fst r) (snd r)
  end.

Definition killpg1 (me : nat) (signo pgrp : Z) (all : bool) (st : sched) (w : sigs) : outcome (sched * sigs * Z) :=
  i ← rd (ids w) me;
  let pgrp' := if negb all && (pgrp =? 0) then c_pgrp i else pgrp in
  if negb all && (pgrp =? 0) && (pgrp' =? 0) then Ok (st, w, ESRCH)
  else
    r ← killpg1_loop (allproc w) me signo pgrp' all 0 0 st w;
    let '(st, w, f, error) := r in
    Ok (st, w, if negb (error =? 0) then error else if f =? 0 then ESRCH else 0).

Definition set_error (w : sigs) (p : nat) (e : Z) : sigs :=
  let u := us w p in
  set_us w p (Usig (u_signal u) (u_sigmask u) (u_sigonstack u) (u_sigintr u) (u_oldmask u) (u_psflags u)
                (u_sigstk u) (u_sigtramp u) (us_ruid u) e).

(** [kill] and [killpg] by the current process. *)
Definition kill (me : nat) (pid signo : Z) (st : sched) (w : sigs) : outcome (sched * sigs) :=
  if (signo <? 0) || (NSIG <=? signo) then Ok (st, set_error w me SIG_EINVAL)
  else if 0 <? pid then
    chain ← rd (pidhash w) (PIDHASH pid);
    r ← pfind (ids w) chain pid;
    match r with
    | None => Ok (st, set_error w me ESRCH)
    | Some p =>
        can ← cansignal me p signo st w;
        if negb can then Ok (st, set_error w me EPERM)
        else
          r ← (if negb (signo =? 0) then psignal p signo st w else Ok (st, w));
          Ok (fst r, set_error (snd r) me 0)
    end
  else
    r ← (if pid =? -1 then killpg1 me signo 0 true st w
         else if pid =? 0 then killpg1 me signo 0 false st w
         else killpg1 me signo (- pid) false st w);
    let '(st, w, error) := r in Ok (st, set_error w me error).

Definition killpg (me : nat) (pgrp signo : Z) (st : sched) (w : sigs) : outcome (sched * sigs) :=
  if (signo <? 0) || (NSIG <=? signo) then Ok (st, set_error w me SIG_EINVAL)
  else r ← killpg1 me signo pgrp false st w; let '(st, w, error) := r in Ok (st, set_error w me error).

(** [nosys], an unknown system call. *)
Definition nosys (me : nat) (st : sched) (w : sigs) : outcome (sched * sigs) :=
  a ← rdz (u_signal (us w me)) SIGSYS;
  psignal me SIGSYS st (if (a =? SIG_IGN) || (a =? SIG_HOLD) then set_error w me SIG_EINVAL else w).

(** ** Taking signals *)

(** How [issignal] ends: a signal to take, or zero; or the process stopped for
    a signal, or for its tracer, and was switched away from. *)
Inductive taken := Take (sig : Z) | Stops (sig : Z) | Traces.

(** The signals [issignal] looks at. *)
Definition deliverable (x : sproc) (y : sigproc) : Z :=
  let mask := Z.ldiff (p_sig y) (p_sigmask y) in
  if has (p_flag x) SVFORK then Z.ldiff mask stopsigmask else mask.

(** The [switch] of [issignal] on the action: the signal is to be taken,
    dropped, or has stopped the process. *)
Inductive verdict := Give | Drop | Stopped.

Definition issignal_switch (p : nat) (sig prop : Z) (st : sched) (w : sigs) : outcome (sched * sigs * verdict) :=
  a ← rdz (u_signal (us w p)) sig;
  x ← rd (sprocs st) p;
  i ← rd (ids w) p;
  if a =? SIG_DFL then
    if c_pid i <=? 1 then Ok (st, w, Drop)
    else if has prop SA_STOP then
      if has (p_flag x) P_TRACED || (Nat.eqb (c_pptr i) 1 && has prop SA_TTYSTOP) then Ok (st, w, Drop)
      else
        let w := trace_sig w p sig in
        y ← rd (sprocs st) (c_pptr i);
        r ← (if negb (has (p_flag y) P_NOCLDSTOP) then psignal (c_pptr i) SIGCHLD st w else Ok (st, w));
        st ← stop_current p (procaddr (c_pptr i)) (fst r);
        Ok (st, snd r, Stopped)
    else if has prop SA_IGNORE then Ok (st, w, Drop)
    else Ok (st, w, Give)
  else if a =? SIG_IGN then Ok (st, w, Drop)
  else Ok (st, w, Give).

(** The loop of [issignal]. Every round that goes on takes the lowest signal
    away, so 33 rounds are enough for 32 bits. *)
Fixpoint issignal_loop (fuel : nat) (p : nat) (st : sched) (w : sigs) : outcome (sched * sigs * taken) :=
  match fuel with
  | O => Fault
  | S fuel' =>
      x ← rd (sprocs st) p;
      let mask := deliverable x (words w p) in
      if mask =? 0 then Ok (st, w, Take 0)
      else
        let sig := ffs mask in
        let mask := sigmask sig in
        prop ← rdz sigprop sig;
        if has mask (p_sigignore (words w p)) && negb (has (p_flag x) P_TRACED) then issignal_loop fuel' p st (take_away w p mask)
        else if has (p_flag x) P_TRACED && negb (has (p_flag x) SVFORK) then
          let w := trace_sig (take_away w p mask) p sig in
          i ← rd (ids w) p;
          r ← psignal (c_pptr i) SIGCHLD st w;
          st ← stop_current p (procaddr (c_pptr i)) (fst r);
          Ok (st, snd r, Traces)
        else
          r ← issignal_switch p sig prop st w;
          let '(st, w, v) := r in
          match v with
          | Give => Ok (st, w, Take sig)
          | Stopped => Ok (st, w, Stops sig)
          | Drop => issignal_loop fuel' p st (take_away w p mask)
          end
  end.

Definition issignal : nat -> sched -> sigs -> outcome (sched * sigs * taken) := issignal_loop 33.

(** [issignal] goes on when a process stopped for [sig] runs again. *)
Definition issignal_stopped (p : nat) (sig : Z) (st : sched) (w : sigs) : outcome (sched * sigs * taken) :=
  issignal p st (take_away w p (sigmask sig)).

(** [issignal] goes on when a traced process runs again; [xmt] is what
    [procxmt] returned, which may have changed [p_ptracesig]. *)
Definition issignal_traced (p : nat) (xmt : bool) (st : sched) (w : sigs) : outcome (sched * sigs * taken) :=
  x ← rd (sprocs st) p;
  i ← rd (ids w) p;
  if negb xmt && has (p_flag x) P_TRACED then
    st ← stop_current p (procaddr (c_pptr i)) st; Ok (st, w, Traces)
  else
    let sig := p_ptracesig (words w p) in
    if sig =? 0 then issignal p st w
    else
      let mask := sigmask sig in
      let w := set_words w p (set_sig (words w p) (Z.lor (p_sig (words w p)) mask)) in
      if has (p_sigmask (words w p)) mask || negb (has (p_flag x) P_TRACED) then issignal p st w
      else
        prop ← rdz sigprop sig;
        r ← issignal_switch p sig prop st w;
        let '(st, w, v) := r in
        match v with
        | Give => Ok (st, w, Take sig)
        | Stopped => Ok (st, w, Stops sig)
        | Drop => issignal p st (take_away w p mask)
        end.

(** The macro [CURSIG]. *)
Definition CURSIG (p : nat) (st : sched) (w : sigs) : outcome (sched * sigs * taken) :=
  x ← rd (sprocs st) p;
  let y := words w p in
  if (p_sig y =? 0) || (negb (has (p_flag x) P_TRACED) && (Z.ldiff (p_sig y) (p_sigmask y) =? 0)) then Ok (st, w, Take 0)
  else issignal p st w.

(** [CURSIG] as [tsleep] uses it. *)
Definition tsleep_CURSIG (p : nat) (st : sched) (w : sigs) : outcome (sched * sigs * option Z) :=
  r ← CURSIG p st w;
  let '(st, w, t) := r in Ok (st, w, match t with Take sig => Some sig | _ => None end).

End posting.

(** ** Signals and exec *)

(** The loop of [execsigs]: every caught signal goes back to its default. *)
Fixpoint execsigs_loop (fuel : nat) (y : sigproc) (h : list Z) : outcome (sigproc * list Z) :=
  match fuel with
  | O => Fault
  | S fuel' =>
      if p_sigcatch y =? 0 then Ok (y, h)
      else
        let nc := ffs (p_sigcatch y) in
        let mask := sigmask nc in
        let y := set_sigcatch y (Z.ldiff (p_sigcatch y) mask) in
        prop ← rdz sigprop nc;
        let y := if has prop SA_IGNORE then
                   let y := if negb (nc =? SIGCONT) then set_sigignore y (Z.lor (p_sigignore y) mask) else y in
                   set_sig y (Z.ldiff (p_sig y) mask)
                 else y in
        h ← wrz h nc SIG_DFL;
        execsigs_loop fuel' y h
  end.

Definition execsigs (p : nat) (w : sigs) : outcome sigs :=
  r ← execsigs_loop 33 (words w p) (u_signal (us w p));
  let u := us w p in
  Ok (set_us (set_words w p (fst r)) p
        (Usig (snd r) (u_sigmask u) (u_sigonstack u) (u_sigintr u) (u_oldmask u) 0
           (Sigstk 0 0 0x0004) (u_sigtramp u) (us_ruid u) (us_error u))).

(** ** Words and bits *)

Lemma sigmask_pow s : 1 <= s <= 32 -> sigmask s = 2 ^ (s - 1).
Proof.
  intros Hs. unfold sigmask. rewrite Z.shiftl_mul_pow2, Z.mul_1_l by lia. apply trunc_small. split; [lia|].
  apply Z.pow_lt_mono_r; lia.
Qed.

Lemma has_sigmask x s : 1 <= s <= 32 -> has x (sigmask s) = Z.testbit x (s - 1).
Proof. intros Hs. unfold has. rewrite sigmask_pow by done. apply land_bit. lia. Qed.

Lemma sigmask_bit s i : 1 <= s <= 32 -> 0 <= i -> Z.testbit (sigmask s) i = (i =? s - 1).
Proof. intros Hs Hi. rewrite sigmask_pow, Z.pow2_bits_eqb by lia. apply Z.eqb_sym. Qed.

Lemma below_bits v n : 0 <= n -> 0 <= v -> (forall i, n <= i -> Z.testbit v i = false) -> 0 <= v < 2 ^ n.
Proof.
  intros Hn Hv H. assert (v = v mod 2 ^ n) as ->; [|apply Z.mod_pos_bound, Z.pow_pos_nonneg; lia].
  apply Z.bits_inj'. intros i Hi. destruct (Z.lt_ge_cases i n); [by rewrite Z.mod_pow2_bits_low by lia|].
  rewrite Z.mod_pow2_bits_high by lia. by apply H.
Qed.

Lemma high_bits v n i : 0 <= v < 2 ^ n -> n <= i -> Z.testbit v i = false.
Proof.
  intros Hv Hi. destruct (decide (v = 0)) as [->|]; [apply Z.bits_0|]. apply Z.bits_above_log2; [lia|].
  apply Z.log2_lt_pow2; [lia|]. apply (Z.lt_le_trans _ (2 ^ n)); [lia|]. apply Z.pow_le_mono_r; lia.
Qed.

(** Words of 31 bits: no signal has the number 32. *)
Definition word31 (v : Z) : Prop := 0 <= v < 2 ^ 31.

Lemma word31_ldiff v m : word31 v -> word31 (Z.ldiff v m).
Proof.
  intros Hv. apply below_bits; [lia|apply Z.ldiff_nonneg; unfold word31 in Hv; lia|]. intros i Hi.
  by rewrite Z.ldiff_spec, (high_bits v 31) by done.
Qed.

Lemma word31_lor v m : word31 v -> word31 m -> word31 (Z.lor v m).
Proof.
  intros Hv Hm. apply below_bits; [lia|apply Z.lor_nonneg; unfold word31 in *; lia|]. intros i Hi.
  by rewrite Z.lor_spec, (high_bits v 31), (high_bits m 31) by done.
Qed.

Lemma word31_sigmask s : 1 <= s <= 31 -> word31 (sigmask s).
Proof. intros. unfold word31. rewrite sigmask_pow by lia. split; [lia|]. apply Z.pow_lt_mono_r; lia. Qed.

Create HintDb sig.
#[export] Hint Resolve word31_ldiff word31_lor word31_sigmask : sig.
Ltac word31 := repeat first [assumption | apply word31_ldiff | apply word31_lor | apply word31_sigmask]; try lia.

(** [ffs] finds the lowest set bit. *)
Lemma ffs_loop_spec fuel mask cnt : 0 < mask < 2 ^ Z.of_nat fuel ->
  exists i, 0 <= i < Z.of_nat fuel /\ ffs_loop fuel mask cnt = cnt + i /\ Z.testbit mask i = true /\ forall j, 0 <= j < i -> Z.testbit mask j = false.
Proof.
  revert mask cnt. induction fuel as [|fuel IH]; intros mask cnt Hm; [simpl in Hm; lia|]. cbn [ffs_loop].
  destruct (Z.odd mask) eqn:Eo.
  - exists 0. rewrite Z.bit0_odd. split; [lia|]. split; [lia|]. split; [done|]. lia.
  - rewrite Nat2Z.inj_succ, Z.pow_succ_r in Hm by lia. rewrite Zodd_even_bool, negb_false_iff, Zeven_bool_iff in Eo. apply Zeven_div2 in Eo.
    destruct (IH (Z.shiftr mask 1) (cnt + 1)) as (i&Hi&E&Hb&Hlow).
    { change 1 with (Z.of_nat 1) in *. rewrite <- Z.div2_spec. lia. }
    exists (i + 1). split; [lia|]. split; [lia|]. rewrite Z.shiftr_spec in Hb by lia. split; [done|]. intros j Hj.
    destruct (decide (j = 0)) as [->|]; [rewrite Z.bit0_odd, Eo, Z.odd_mul; done|].
    specialize (Hlow (j - 1)). rewrite Z.shiftr_spec in Hlow by lia. replace (j - 1 + 1) with j in Hlow by lia. apply Hlow. lia.
Qed.

Lemma ffs_spec mask : 0 < mask < 2 ^ 31 ->
  1 <= ffs mask <= 31 /\ Z.testbit mask (ffs mask - 1) = true /\ forall j, 0 <= j < ffs mask - 1 -> Z.testbit mask j = false.
Proof.
  intros Hm. unfold ffs. destruct (Z.eqb_spec mask 0); [lia|]. destruct (ffs_loop_spec 32 mask 1) as (i&Hi&->&Hb&Hlow).
  { change (Z.of_nat 32) with 32. lia. }
  assert (i < 31). { destruct (Z.lt_ge_cases i 31); [done|]. rewrite (high_bits mask 31) in Hb by lia. done. }
  replace (1 + i - 1) with i by lia. split; [lia|]. done.
Qed.

(** The properties of a signal. *)
Definition prop_of (sig : Z) : Z := default 0 (sigprop !! Z.to_nat sig).

Lemma rdz_sigprop sig : 0 <= sig <= 32 -> rdz sigprop sig = Ok (prop_of sig).
Proof.
  intros Hs. destruct (lookup_lt_is_Some_2 sigprop (Z.to_nat sig)) as [x Hx]; [change (length sigprop) with 33%nat; lia|].
  unfold prop_of. rewrite Hx. apply rdz_ok; [lia|done].
Qed.

(** Tests on the properties of every signal are decided by evaluation. *)
Lemma all_signals (P : Z -> bool) : forallb P (seqZ 1 31) = true -> forall s, 1 <= s <= 31 -> P s = true.
Proof. intros H s Hs. rewrite forallb_forall in H. apply H, list_elem_of_In, elem_of_seqZ. lia. Qed.

(** ** Posting keeps the queues *)

Lemma has_ldiff f m n : Z.land m n = 0 -> has (Z.ldiff f m) n = has f n.
Proof.
  intros H. unfold has. do 2 f_equal. apply Z.bits_inj'. intros i Hi. rewrite !Z.land_spec, Z.ldiff_spec.
  assert (Z.testbit (Z.land m n) i = false) as Hb by (rewrite H; apply Z.bits_0). rewrite Z.land_spec in Hb.
  destruct (Z.testbit f i), (Z.testbit m i), (Z.testbit n i); done.
Qed.

Lemma has_comm a b : has a b = has b a.
Proof. unfold has. by rewrite Z.land_comm. Qed.

Lemma has_lor f m n : Z.land m n = 0 -> has (Z.lor f m) n = has f n.
Proof. intros H. unfold has. by rewrite Z.land_lor_distr_l, H, Z.lor_0_r. Qed.

(** Flags that signals leave as they are. *)
Definition same_flags (y y' : sproc) : Prop := has (p_flag y') P_SINTR = has (p_flag y) P_SINTR /\ has (p_flag y') SSYS = has (p_flag y) SSYS.

(** What posting and taking signals do to the process table: the table keeps
    its size, a channel stays or is cleared and P_SINTR and SSYS stay. *)
Record eases (st st' : sched) : Prop := {
  ea_len : length (sprocs st') = length (sprocs st);
  ea_proc : forall r y, sprocs st !! r = Some y -> exists y', sprocs st' !! r = Some y' /\ same_flags y y' /\
    (p_wchan y' = p_wchan y \/ p_wchan y' = 0)
}.

#[export] Instance eases_preorder : PreOrder eases.
Proof.
  split; [intros st; constructor; [done|]; intros r y Hy; exists y; split_and?; auto; done|].
  intros st1 st2 st3 [] []. constructor; [congruence|]. intros r y Hy. destruct (ea_proc0 r y Hy) as (y'&Hy'&F1&W1).
  destruct (ea_proc1 r y' Hy') as (y''&Hy''&F2&W2). exists y''. split; [done|]. split; [destruct F1, F2; split; congruence|].
  destruct W1 as [E1|E1], W2 as [E2|E2]; rewrite ?E1 in *; auto.
Qed.

Lemma settles_eases p st st' : settles p st st' -> eases st st'.
Proof. intros []. constructor; [done|]. intros r y Hy. destruct (se_proc r y Hy) as (y'&?&E&?&_). exists y'. unfold same_flags. rewrite E. auto. Qed.

Lemma wakes_eases told chan st st' : wakes told chan st st' -> eases st st'.
Proof.
  intros []. constructor; [done|]. intros r y Hy. destruct (wk_proc r y Hy) as (y'&?&E&Hw). exists y'. unfold same_flags. rewrite E.
  destruct Hw as [->|(_&_&?&_)]; auto.
Qed.

Lemma insert_eases st p x x' : sprocs st !! p = Some x -> same_flags x x' -> p_wchan x' = p_wchan x ->
  eases st (set_procs st (<[p:=x']> (sprocs st))).
Proof.
  intros Hx Hf Hw. constructor; [cbn; by rewrite length_insert|]. intros r y Hy. cbn. rewrite lookup_put by (by eapply lookup_lt_Some).
  case_decide; [|exists y; split_and?; auto; done]. subst r. rewrite Hx in Hy. injection Hy as <-. exists x'. auto.
Qed.

Lemma swtch_keeps st st' : swtch st = Ok st' -> length (sprocs st') = length (sprocs st) /\
  forall r y, sprocs st !! r = Some y -> exists y', sprocs st' !! r = Some y' /\ same_flags y y' /\
    p_wchan y' = p_wchan y /\ p_stat y' = p_stat y.
Proof.
  unfold swtch. intros E. apply outcome_bind_ok in E as ([r n]&_&E). cbn [fst snd] in E. destruct r as [p|].
  - apply outcome_bind_ok in E as (st1&E1&E). unfold remrq in E1. destruct (remove1 _ _); [|done]. injection E1 as <-.
    apply outcome_bind_ok in E as (x&Hx%rd_inv&E). cbn [set_curpri set_qs set_runrun sprocs] in Hx. rewrite (put_ok _ p x) in E by done. injection E as <-.
    pose proof (lookup_lt_Some _ _ _ Hx). cbn. split; [by rewrite length_insert|]. intros q y Hy. rewrite lookup_put by done. case_decide; [|by exists y].
    subst q. rewrite Hx in Hy. injection Hy as <-. eexists. split; [done|]. unfold same_flags. cbn. by rewrite !has_ldiff by done.
  - injection E as <-. split; [done|]. intros q y Hy. by exists y.
Qed.

Lemma swtch_eases st st' : swtch st = Ok st' -> eases st st'.
Proof. intros [Hl Hp]%swtch_keeps. constructor; [done|]. intros r y Hy. destruct (Hp r y Hy) as (y'&?&?&?&_). exists y'. auto. Qed.

(** The swapper, and whoever waits for [runout], sleeps uninterruptibly. *)
Definition quiet (st : sched) : Prop :=
  forall p x, sprocs st !! p = Some x -> p = 0%nat \/ p_wchan x = A_RUNOUT -> has (p_flag x) P_SINTR = false.

Lemma quiet_eases st st' : eases st st' -> quiet st -> quiet st'.
Proof.
  intros [Hl Hp] Hq r y' Hy' Hr. destruct (lookup_lt_is_Some_2 (sprocs st) r) as [y Hy]; [rewrite <- Hl; by eapply lookup_lt_Some|].
  destruct (Hp r y Hy) as (z&Hz&Hf&Hw). rewrite Hy' in Hz. injection Hz as <-. rewrite (proj1 Hf). apply (Hq r y Hy).
  destruct Hr as [->|Hr]; [by left|right]. destruct Hw as [E|E]; rewrite Hr in E; done.
Qed.

(** What posting and taking signals do to the signal state: only [p_sig] and
    [p_ptracesig] change. *)
Record posts (w w' : sigs) : Prop := {
  po_ids : ids w' = ids w;
  po_all : allproc w' = allproc w;
  po_hash : pidhash w' = pidhash w;
  po_us : us w' = us w;
  po_mask : forall q, p_sigmask (words w' q) = p_sigmask (words w q);
  po_ignore : forall q, p_sigignore (words w' q) = p_sigignore (words w q);
  po_catch : forall q, p_sigcatch (words w' q) = p_sigcatch (words w q);
  po_sig : forall q, word31 (p_sig (words w q)) -> word31 (p_sig (words w' q))
}.

#[export] Instance posts_preorder : PreOrder posts.
Proof. split; [by constructor|]. intros w1 w2 w3 [] []. constructor; try congruence. auto. Qed.

Lemma posts_words w p y : p_sigmask y = p_sigmask (words w p) -> p_sigignore y = p_sigignore (words w p) -> p_sigcatch y = p_sigcatch (words w p) ->
  (word31 (p_sig (words w p)) -> word31 (p_sig y)) -> posts w (set_words w p y).
Proof.
  intros H1 H2 H3 H4. constructor; try done; intros q; cbn; (destruct (decide (q = p)) as [->|]; [rewrite fn_lookup_insert|rewrite fn_lookup_insert_ne by congruence]; done).
Qed.

Lemma posts_take w p mask : posts w (take_away w p mask).
Proof. apply posts_words; [done..|]. cbn. auto with sig. Qed.

Lemma posts_trace w p sig : posts w (trace_sig w p sig).
Proof. by apply posts_words. Qed.

Lemma posts_add w p sig : 1 <= sig <= 31 -> posts w (set_words w p (set_sig (words w p) (Z.lor (p_sig (words w p)) (sigmask sig)))).
Proof. intros. apply posts_words; [done..|]. cbn. auto with sig. Qed.

#[export] Hint Resolve posts_take posts_trace posts_add : sig.

(** [run] of [psignal]. *)
Lemma psignal_run_ok st w p x : sched_inv None st -> sprocs st !! p = Some x -> p_stat x = SSLEEP \/ p_stat x = SSTOP ->
  exists st' x', psignal_run p st w = Ok (st', w) /\ sched_inv None st' /\ settles p st st' /\ sprocs st' !! p = Some x' /\ p_stat x' = SRUN.
Proof.
  intros H Hx Hs. unfold psignal_run. rewrite (rd_ok _ _ _ Hx). cbn [mbind outcome_bind]. set (x1 := if _ <? _ then _ else _).
  assert (same_sched x x1 /\ p_flag x1 = p_flag x) as [Hsame Hf] by (unfold x1; by destruct (_ <? _)).
  destruct (put_inv st p x x1 H Hx Hsame) as (st1&E1&H1&L1&Hx1). rewrite E1. cbn [mbind outcome_bind]. destruct Hsame as (S1&S2&S3).
  destruct (setrun_settles st1 p x1 H1 Hx1) as (st2&x2&->&H2&S&Hx2&Hr); [rewrite S1; tauto|]. cbn [mbind outcome_bind].
  exists st2, x2. split; [done|]. split; [done|]. split; [|done]. eapply settles_trans; [|exact S].
  rewrite (put_ok _ p x) in E1 by done. injection E1 as <-. apply (settles_insert p x x1); auto.
Qed.

(** The result every branch of [psignal] has. *)
Definition posted_ok (p : nat) (st : sched) (w : sigs) (o : outcome (sched * sigs)) : Prop :=
  exists st' w', o = Ok (st', w') /\ sched_inv None st' /\ settles p st st' /\ posts w w'.

Lemma posted_ret p st w w' : sched_inv None st -> (exists x, sprocs st !! p = Some x) -> posts w w' -> posted_ok p st w (Ok (st, w')).
Proof.
  intros H [x Hx] Hp. exists st, w'. split; [done|]. split; [done|]. split; [|done].
  apply (settles_insert p x x); auto. by rewrite list_insert_id.
Qed.

Lemma posted_run p st w w' x : sched_inv None st -> sprocs st !! p = Some x -> p_stat x = SSLEEP \/ p_stat x = SSTOP -> posts w w' ->
  posted_ok p st w (psignal_run p st w').
Proof. intros H Hx Hs Hp. destruct (psignal_run_ok st w' p x H Hx Hs) as (st'&x'&E&?&?&_). by exists st', w'. Qed.

Section posting_proofs.
Context (procaddr : nat -> Z).

Lemma psignal_stopped_ok p sig prop action st w w0 x : sched_inv None st -> sprocs st !! p = Some x -> p_stat x = SSTOP -> posts w0 w ->
  posted_ok p st w0 (psignal_stopped p sig prop action st w).
Proof.
  intros H Hx Hs Hp. assert (exists x, sprocs st !! p = Some x) by by exists x. unfold psignal_stopped. rewrite (rd_ok _ _ _ Hx). cbn [mbind outcome_bind].
  assert (forall m, posts w0 (take_away w p m)) as Ht by (intros m; etransitivity; [exact Hp|auto with sig]).
  destruct (has (p_flag x) P_TRACED); [by apply posted_ret|]. destruct (sig =? SIGKILL); [eapply posted_run; eauto|].
  destruct (has prop SA_CONT).
  - set (w1 := if action =? SIG_DFL then _ else _). assert (posts w0 w1) as H1 by (unfold w1; by destruct (action =? SIG_DFL)).
    destruct (Z.eqb_spec (p_wchan x) 0) as [Hw|Hw]; [rewrite orb_true_r; eapply posted_run; eauto|].
    destruct (action =? SIG_CATCH); [eapply posted_run; eauto|]. cbn [orb]. rewrite (put_ok _ p x) by done. cbn [mbind outcome_bind].
    eexists _, w1. split; [done|]. split; [|split; [|done]].
    + apply (park_state_inv st p x); auto.
    + apply (settles_insert p x (set_stat x SSLEEP)); auto.
  - destruct (has prop SA_STOP); [by apply posted_ret|]. destruct (negb (p_wchan x =? 0) && has (p_flag x) P_SINTR); [|by apply posted_ret].
    destruct (unsleep_stopped st p x H Hx) as (st'&x'&E&H'&_); [by rewrite Hs|].
    destruct (unsleep_inv st p x H Hx) as (st2&x2&E2&_&Ep&_&Ef&Ew&_&_&_&Ec&_). rewrite E in E2. injection E2 as <-. rewrite E. cbn [mbind outcome_bind].
    exists st', w. split; [done|]. split; [done|]. split; [|done]. apply (settles_insert p x x2); auto.
Qed.

Lemma psignal_asleep_ok chld p sig prop action st w w0 x : sched_inv None st -> sprocs st !! p = Some x -> p_stat x = SSLEEP -> posts w0 w ->
  has prop SA_STOP = false -> posted_ok p st w0 (psignal_asleep procaddr chld p sig prop action st w).
Proof.
  intros H Hx Hs Hp Hns. assert (exists x, sprocs st !! p = Some x) by by exists x. unfold psignal_asleep. rewrite (rd_ok _ _ _ Hx). cbn [mbind outcome_bind].
  rewrite Hns. destruct (negb _); [by apply posted_ret|]. destruct (has (p_flag x) P_TRACED); [eapply posted_run; eauto|].
  destruct (has prop SA_CONT && _); [|eapply posted_run; eauto]. apply posted_ret; [done..|]. etransitivity; [exact Hp|auto with sig].
Qed.

(** [psignal] up to the dispatch on the state: nothing more to do, or the
    dispatch, with only the nice value and pending signals changed. *)
Lemma psignal_with_step chld p sig st w x : sched_inv None st -> sprocs st !! p = Some x -> 1 <= sig <= 31 ->
  (has (prop_of sig) SA_STOP = true -> is_Some (ids w !! p)) ->
  exists x1 w1, sched_inv None (set_procs st (<[p:=x1]> (sprocs st))) /\ same_sched x x1 /\ p_flag x1 = p_flag x /\ posts w w1 /\
    (psignal_with procaddr chld p sig st w = Ok (set_procs st (<[p:=x1]> (sprocs st)), w1) \/
     let st1 := set_procs st (<[p:=x1]> (sprocs st)) in
     exists action, psignal_with procaddr chld p sig st w =
       if p_stat x =? SSLEEP then psignal_asleep procaddr chld p sig (prop_of sig) action st1 w1
       else if p_stat x =? SSTOP then psignal_stopped p sig (prop_of sig) action st1 w1 else Ok (st1, w1)).
Proof.
  intros H Hx Hsig Hid. unfold psignal_with. rewrite (proj2 (Z.ltb_ge _ _)), (proj2 (Z.ltb_ge _ _)) by lia. cbn [orb].
  rewrite rdz_sigprop by lia. cbn [mbind outcome_bind]. rewrite (rd_ok _ _ _ Hx). cbn [mbind outcome_bind].
  destruct (negb (has (p_flag x) P_TRACED) && _).
  { exists x, w. rewrite list_insert_id by done. assert (set_procs st (sprocs st) = st) as -> by by destruct st.
    split_and?; try done. by left. }
  set (action := sig_action _ _ _). set (x1 := if _ && _ && _ && _ then _ else x).
  assert (same_sched x x1 /\ p_flag x1 = p_flag x) as [Hsame Hf] by (unfold x1; by destruct (_ && _ && _ && _)).
  destruct (put_inv st p x x1 H Hx Hsame) as (st1&E1&H1&_&Hx1). rewrite E1. rewrite (put_ok _ p x) in E1 by done. injection E1 as <-. cbn [mbind outcome_bind].
  set (w1 := if has (prop_of sig) SA_CONT then _ else w). assert (posts w w1) as P1 by (unfold w1; destruct (has _ SA_CONT); [auto with sig|reflexivity]).
  assert (exists b, (if has (prop_of sig) SA_STOP && has (prop_of sig) SA_TTYSTOP
    then i ← rd (ids w1) p; Ok (Nat.eqb (c_pptr i) 1 && (action =? SIG_DFL)) else Ok false) = Ok b) as [b ->].
  { destruct (has (prop_of sig) SA_STOP); [|by eexists]. destruct (has _ SA_TTYSTOP); [|by eexists]. destruct (Hid eq_refl) as [i Hi].
    rewrite (rd_ok _ _ i) by (rewrite (po_ids _ _ P1); exact Hi). by eexists. }
  cbn [mbind outcome_bind]. destruct b; [exists x1, w1; split_and?; try done; by left|].
  set (w2 := if has (prop_of sig) SA_STOP then _ else w1). assert (posts w w2) as P2.
  { etransitivity; [exact P1|]. unfold w2. destruct (has _ SA_STOP); [auto with sig|reflexivity]. }
  set (w3 := set_words w2 p _). assert (posts w w3) as P3 by (etransitivity; [exact P2|]; unfold w3; auto with sig).
  exists x1, w3. split; [done|]. split; [done|]. split; [done|]. split; [done|]. destruct Hsame as (S1&_). rewrite S1.
  destruct (_ && (_ || _)); [by left|right]. by exists action.
Qed.

(** Posting a signal that does not stop processes needs nothing but the
    queues in order. *)
Lemma psignal_with_ok chld p sig st w : sched_inv None st -> is_Some (sprocs st !! p) -> 1 <= sig <= 31 -> has (prop_of sig) SA_STOP = false ->
  posted_ok p st w (psignal_with procaddr chld p sig st w).
Proof.
  intros H [x Hx] Hsig Hns. destruct (psignal_with_step chld p sig st w x H Hx Hsig) as (x1&w1&H1&(S1&S2&S3)&Hf&P1&Hcase); [by rewrite Hns|].
  set (st1 := set_procs st _) in *. assert (sprocs st1 !! p = Some x1) as Hx1 by (cbn; rewrite lookup_put by (by eapply lookup_lt_Some); by rewrite decide_True).
  assert (settles p st st1) as Hset by (apply (settles_insert p x x1); auto).
  assert (posted_ok p st1 w (psignal_with procaddr chld p sig st w)) as (st2&w2&E&H2&Hs2&P2).
  { destruct Hcase as [->|[action ->]]; [apply posted_ret; eauto|].
    destruct (Z.eqb_spec (p_stat x) SSLEEP); [eapply psignal_asleep_ok; eauto; congruence|].
    destruct (Z.eqb_spec (p_stat x) SSTOP); [eapply psignal_stopped_ok; eauto; congruence|]. apply posted_ret; eauto. }
  exists st2, w2. split; [done|]. split; [done|]. split; [by eapply settles_trans|done].
Qed.

Lemma psignal_chld_ok p st w : sched_inv None st -> is_Some (sprocs st !! p) -> posted_ok p st w (psignal_chld procaddr p st w).
Proof. intros H Hp. apply psignal_with_ok; [done|done|unfold SIGCHLD; lia|reflexivity]. Qed.

(** The tables of processes: every process of the list is in the table, has
    a parent in the list other than itself, unless it is the swapper, and
    descends from a process without parent; a chain of pids holds processes
    of the list. *)
Record tables_ok (n : nat) (w : sigs) : Prop := {
  tb_len : length (ids w) = n;
  tb_all : forall p, p ∈ allproc w -> (p < n)%nat;
  tb_parent : forall p i, p ∈ allproc w -> p <> 0%nat -> ids w !! p = Some i -> c_pptr i ∈ allproc w /\ c_pptr i <> p;
  tb_tree : forall p me, p ∈ allproc w -> exists b, inferior (length (ids w)) (ids w) p me = Ok b;
  tb_hash : length (pidhash w) = 16%nat;
  tb_chain : forall h c p, pidhash w !! h = Some c -> p ∈ c -> p ∈ allproc w
}.

Lemma tables_posts n w w' : posts w w' -> tables_ok n w -> tables_ok n w'.
Proof. intros [E1 E2 E3 _ _ _ _ _] []. by constructor; rewrite ?E1, ?E2, ?E3. Qed.

Lemma tables_id n w p : tables_ok n w -> p ∈ allproc w -> exists i, ids w !! p = Some i.
Proof. intros H Hp. apply lookup_lt_is_Some_2. rewrite (tb_len _ _ H). by apply (tb_all _ _ H). Qed.

Lemma tables_proc st w p : tables_ok (length (sprocs st)) w -> p ∈ allproc w -> exists x, sprocs st !! p = Some x.
Proof. intros H Hp. apply lookup_lt_is_Some_2. by apply (tb_all _ _ H). Qed.

(** What posting any signal comes to. *)
Definition signal_ok (st : sched) (w : sigs) (o : outcome (sched * sigs)) : Prop :=
  exists st' w', o = Ok (st', w') /\ sched_inv None st' /\ eases st st' /\ cur st' = cur st /\ posts w w'.

Lemma posted_signal p st w o : posted_ok p st w o -> signal_ok st w o.
Proof. intros (st'&w'&?&?&S&?). exists st', w'. split_and?; try done; [by eapply settles_eases|by apply S]. Qed.

Lemma signal_ret st w : sched_inv None st -> signal_ok st w (Ok (st, w)).
Proof. intros H. exists st, w. split_and?; done. Qed.

Lemma signal_after st0 st w0 w o : signal_ok st w o -> eases st0 st -> cur st = cur st0 -> posts w0 w -> signal_ok st0 w0 o.
Proof.
  intros (st'&w'&?&?&?&?&?) He Hc Hp. exists st', w'. split; [done|]. split; [done|]. split; [by etransitivity|]. split; [congruence|by etransitivity].
Qed.

Context (Hproc : forall p, procaddr p <> 0).

(** A process that sleeps interruptibly is stopped at once; telling its
    parent leaves it as it was. *)
Lemma psignal_asleep_stop p sig action st w x : sched_inv None st -> quiet st -> tables_ok (length (sprocs st)) w -> p ∈ allproc w ->
  sprocs st !! p = Some x -> p_stat x = SSLEEP -> signal_ok st w (psignal_asleep procaddr (psignal_chld procaddr) p sig (prop_of sig) action st w).
Proof.
  intros H Hqt Ht Hp Hx Hs. assert (exists x, sprocs st !! p = Some x) as He by by exists x.
  destruct (has (prop_of sig) SA_STOP) eqn:Est; [|apply (posted_signal p); by eapply psignal_asleep_ok].
  unfold psignal_asleep. rewrite (rd_ok _ _ _ Hx), Est. cbn [mbind outcome_bind].
  destruct (has (p_flag x) P_SINTR) eqn:Esi; cbn [negb]; [|apply (posted_signal p); by apply posted_ret].
  destruct (has (p_flag x) P_TRACED); [apply (posted_signal p); eapply posted_run; eauto; reflexivity|].
  destruct (has _ SA_CONT && _); [apply (posted_signal p); apply posted_ret; auto with sig|].
  destruct (negb (action =? SIG_DFL)); [apply (posted_signal p); eapply posted_run; eauto; reflexivity|].
  destruct (has (p_flag x) SVFORK); [apply (posted_signal p); by apply posted_ret|].
  set (w1 := trace_sig _ _ _). assert (posts w w1) as P1 by (unfold w1; etransitivity; [apply posts_take|apply posts_trace]).
  destruct (tables_id _ _ _ Ht Hp) as [i Hi]. rewrite (rd_ok _ _ i) by (by rewrite (po_ids _ _ P1)). cbn [mbind outcome_bind].
  assert (p <> 0%nat) as Hp0. { intros ->. rewrite (Hqt 0%nat x Hx) in Esi by auto. done. }
  destruct (tb_parent _ _ Ht p i Hp Hp0 Hi) as [Hpar Hne]. destruct (tables_proc _ _ _ Ht Hpar) as [y Hy].
  rewrite (rd_ok _ _ _ Hy). cbn [mbind outcome_bind].
  assert (exists st2 w2, (if negb (has (p_flag y) P_NOCLDSTOP) then psignal_chld procaddr (c_pptr i) st w1 else Ok (st, w1)) = Ok (st2, w2) /\
    sched_inv None st2 /\ settles (c_pptr i) st st2 /\ posts w1 w2) as (st2&w2&->&H2&S2&P2).
  { destruct (negb _); [apply (psignal_chld_ok (c_pptr i) st w1); [done|by exists y]|apply (posted_ret (c_pptr i) st w1); [done|by exists y|done]]. }
  cbn [mbind outcome_bind fst snd].
  destruct (se_proc _ _ _ S2 p x Hx) as (x2&Hx2&_&_&[-> | Hro]); [congruence| |rewrite (Hqt p x Hx) in Esi by auto; done].
  destruct (stop_asleep st2 p x (procaddr (c_pptr i)) H2 Hx2 Hs (Hproc _)) as (st3&->&H3&Hwk). cbn [mbind outcome_bind].
  exists st3, w2. split; [done|]. split; [done|]. split; [|split].
  - etransitivity; [by eapply settles_eases|]. etransitivity; [|by eapply wakes_eases]. apply (insert_eases st2 p x); [done| |done].
    split; cbn; by apply has_ldiff.
  - rewrite (wk_cur _ _ _ _ Hwk). cbn. by apply S2.
  - by etransitivity.
Qed.

Lemma psignal_signal_ok p sig st w : sched_inv None st -> quiet st -> tables_ok (length (sprocs st)) w -> p ∈ allproc w -> 1 <= sig <= 31 ->
  signal_ok st w (psignal procaddr p sig st w).
Proof.
  intros H Hqt Ht Hp Hsig. destruct (tables_proc _ _ _ Ht Hp) as [x Hx]. destruct (tables_id _ _ _ Ht Hp) as [i Hi]. unfold psignal.
  destruct (psignal_with_step (psignal_chld procaddr) p sig st w x H Hx Hsig) as (x1&w1&H1&(S1&S2&S3)&Hf&P1&Hcase); [by exists i|].
  set (st1 := set_procs st _) in *. assert (sprocs st1 !! p = Some x1) as Hx1 by (cbn; rewrite lookup_put by (by eapply lookup_lt_Some); by rewrite decide_True).
  assert (eases st st1) as He1 by (apply (insert_eases st p x x1); [done|split; by rewrite Hf|done]).
  assert (length (sprocs st1) = length (sprocs st)) as L1 by apply He1.
  assert (quiet st1) as Q1 by (by eapply quiet_eases).
  apply (signal_after st st1 w w1); [|done|done|done].
  destruct Hcase as [->|[action ->]]; [by apply signal_ret|].
  destruct (Z.eqb_spec (p_stat x) SSLEEP).
  { apply (psignal_asleep_stop p sig action st1 w1 x1); [done|done|rewrite L1; by eapply tables_posts|by rewrite (po_all _ _ P1)|done|congruence]. }
  destruct (Z.eqb_spec (p_stat x) SSTOP); [|by apply signal_ret]. apply (posted_signal p). eapply psignal_stopped_ok; try done. congruence.
Qed.

(** The state in which signals may be posted. *)
Record ready (st : sched) (w : sigs) : Prop := {
  rdy_inv : sched_inv None st;
  rdy_quiet : quiet st;
  rdy_tables : tables_ok (length (sprocs st)) w
}.

Lemma ready_after st st' w w' : ready st w -> sched_inv None st' -> eases st st' -> posts w w' -> ready st' w'.
Proof.
  intros [] H He Hp. constructor; [done|by eapply quiet_eases|]. rewrite (ea_len _ _ He). by eapply tables_posts.
Qed.

Lemma psignal_ready p sig st w : ready st w -> p ∈ allproc w -> 1 <= sig <= 31 -> signal_ok st w (psignal procaddr p sig st w).
Proof. intros []. by apply psignal_signal_ok. Qed.

(** Running on after an operation that came out well. *)
Lemma signal_bind st w o (k : sched * sigs -> outcome (sched * sigs)) : ready st w -> signal_ok st w o ->
  (forall st1 w1, ready st1 w1 -> eases st st1 -> cur st1 = cur st -> posts w w1 -> signal_ok st1 w1 (k (st1, w1))) ->
  signal_ok st w (o ≫= k).
Proof.
  intros Hr (st1&w1&->&H1&E1&C1&P1) Hk. cbn [mbind outcome_bind]. eapply signal_after; [apply Hk|..]; try done. by eapply ready_after.
Qed.

Lemma gsignal_ok pgrp sig st w : ready st w -> 1 <= sig <= 31 -> signal_ok st w (gsignal procaddr pgrp sig st w).
Proof.
  intros Hr Hsig. unfold gsignal. destruct (pgrp =? 0); [apply signal_ret, Hr|].
  enough (forall l st w, ready st w -> (forall p, p ∈ l -> p ∈ allproc w) -> signal_ok st w (gsignal_loop procaddr l pgrp sig st w)) as Hl by by apply Hl.
  clear st w Hr. induction l as [|p l IH]; intros st w Hr Hl; cbn [gsignal_loop]; [apply signal_ret, Hr|].
  assert (p ∈ allproc w) as Hp by (apply Hl; by left). destruct (tables_id _ _ _ (rdy_tables _ _ Hr) Hp) as [i Hi].
  rewrite (rd_ok _ _ _ Hi). cbn [mbind outcome_bind].
  apply (signal_bind st w (if c_pgrp i =? pgrp then psignal procaddr p sig st w else Ok (st, w))); [done| |].
  - destruct (_ =? _); [by apply psignal_ready|apply signal_ret, Hr].
  - intros st1 w1 Hr1 _ _ P1. cbn [fst snd]. apply IH; [done|]. intros q Hq. rewrite (po_all _ _ P1). apply Hl. by right.
Qed.

Lemma cansignal_ok me q signum st w : ready st w -> me ∈ allproc w -> q ∈ allproc w -> exists b, cansignal me q signum st w = Ok b.
Proof.
  intros Hr Hm Hq. pose proof (rdy_tables _ _ Hr) as Ht. unfold cansignal. destruct (tables_proc _ _ _ Ht Hq) as [x Hx].
  destruct (tables_id _ _ _ Ht Hm) as [c Hc]. destruct (tables_id _ _ _ Ht Hq) as [t Hq']. rewrite (rd_ok _ _ _ Hx). cbn [mbind outcome_bind].
  rewrite (rd_ok _ _ _ Hc). cbn [mbind outcome_bind]. rewrite (rd_ok _ _ _ Hq'). cbn [mbind outcome_bind].
  destruct (_ || _); [by eexists|]. destruct (signum =? SIGCONT); [|by eexists]. by apply (tb_tree _ _ Ht).
Qed.

(** What [killpg1] and its loop come to. *)
Definition killed {A} (st : sched) (w : sigs) (o : outcome (sched * sigs * A)) : Prop :=
  exists st' w' a, o = Ok (st', w', a) /\ sched_inv None st' /\ eases st st' /\ cur st' = cur st /\ posts w w'.

Lemma killpg1_loop_ok l me signo pgrp all f error st w : ready st w -> me ∈ allproc w -> (forall p, p ∈ l -> p ∈ allproc w) -> 0 <= signo <= 31 ->
  exists st' w' f' e', killpg1_loop procaddr l me signo pgrp all f error st w = Ok (st', w', f', e') /\
    sched_inv None st' /\ eases st st' /\ cur st' = cur st /\ posts w w'.
Proof.
  intros Hr Hm Hl Hsig. revert f error st w Hr Hm Hl. induction l as [|p l IH]; intros f error st w Hr Hm Hl; cbn [killpg1_loop].
  { exists st, w, f, error. split_and?; try done. apply Hr. }
  assert (p ∈ allproc w) as Hp by (apply Hl; by left). pose proof (rdy_tables _ _ Hr) as Ht.
  destruct (tables_id _ _ _ Ht Hp) as [i Hi]. destruct (tables_proc _ _ _ Ht Hp) as [x Hx].
  rewrite (rd_ok _ _ _ Hi). cbn [mbind outcome_bind]. rewrite (rd_ok _ _ _ Hx). cbn [mbind outcome_bind].
  assert (forall q, q ∈ l -> q ∈ allproc w) as Hl' by (intros q Hq; apply Hl; by right).
  destruct (_ || _ || _ || _); [by apply IH|]. destruct (cansignal_ok me p signo st w Hr Hm Hp) as [b ->]. cbn [mbind outcome_bind].
  destruct b; cbn [negb]; [|by apply IH].
  assert (signal_ok st w (if negb (signo =? 0) then psignal procaddr p signo st w else Ok (st, w))) as (st1&w1&->&H1&E1&C1&P1).
  { destruct (Z.eqb_spec signo 0); cbn [negb]; [apply signal_ret, Hr|]. apply psignal_ready; [done|done|lia]. }
  cbn [mbind outcome_bind fst snd]. destruct (IH (f + 1) error st1 w1) as (st2&w2&f2&e2&E&H2&E2&C2&P2).
  - by eapply ready_after.
  - by rewrite (po_all _ _ P1).
  - intros q Hq. rewrite (po_all _ _ P1). by apply Hl'.
  - exists st2, w2, f2, e2. split; [done|]. split; [done|]. split; [by etransitivity|]. split; [congruence|by etransitivity].
Qed.

Lemma killpg1_ok me signo pgrp all st w : ready st w -> me ∈ allproc w -> 0 <= signo <= 31 -> killed st w (killpg1 procaddr me signo pgrp all st w).
Proof.
  intros Hr Hm Hsig. destruct (tables_id _ _ _ (rdy_tables _ _ Hr) Hm) as [i Hi]. unfold killpg1. rewrite (rd_ok _ _ _ Hi). cbn [mbind outcome_bind].
  destruct (_ && _ && _); [exists st, w, ESRCH; split_and?; try done; apply Hr|].
  match goal with |- context [killpg1_loop _ _ _ _ ?g _ _ _ _ _] => destruct (killpg1_loop_ok (allproc w) me signo g all 0 0 st w) as (st'&w'&f&e&->&H1&E1&C1&P1) end; try done.
  cbn [mbind outcome_bind]. by eexists _, _, _.
Qed.

(** A call that ends by storing its error in the u area. *)
Definition called (me : nat) (st : sched) (w : sigs) (o : outcome (sched * sigs)) : Prop :=
  exists st' w' e, o = Ok (st', set_error w' me e) /\ sched_inv None st' /\ eases st st' /\ cur st' = cur st /\ posts w w'.

Lemma called_ret me st w e : ready st w -> called me st w (Ok (st, set_error w me e)).
Proof. intros Hr. exists st, w, e. split_and?; try done. apply Hr. Qed.

Lemma killed_called me st w o : killed st w o -> called me st w (r ← o; let '(st, w, error) := r in Ok (st, set_error w me error)).
Proof. intros (st'&w'&a&->&?). by exists st', w', a. Qed.

Lemma kill_ok me pid signo st w : ready st w -> me ∈ allproc w -> called me st w (kill procaddr me pid signo st w).
Proof.
  intros Hr Hm. unfold kill. destruct (Z.ltb_spec signo 0), (Z.leb_spec NSIG signo); cbn [orb]; try (by apply called_ret). unfold NSIG in *.
  assert (0 <= signo <= 31) as Hs by lia. pose proof (rdy_tables _ _ Hr) as Ht.
  destruct (0 <? pid); [|apply killed_called; repeat case_bool; by apply killpg1_ok].
  destruct (lookup_lt_is_Some_2 (pidhash w) (PIDHASH pid)) as [chain Hc].
  { rewrite (tb_hash _ _ Ht). unfold PIDHASH. change 15 with (2 ^ 4 - 1). rewrite land_pow2_mod by lia. pose proof (Z.mod_pos_bound pid (2 ^ 4) eq_refl). lia. }
  rewrite (rd_ok _ _ _ Hc). cbn [mbind outcome_bind].
  assert (exists r, pfind (ids w) chain pid = Ok r /\ forall p, r = Some p -> p ∈ allproc w) as (r&->&Hin).
  { pose proof (tb_chain _ _ Ht _ _ : forall p, pidhash w !! PIDHASH pid = Some chain -> p ∈ chain -> p ∈ allproc w) as Hch.
    assert (forall p, p ∈ chain -> p ∈ allproc w) as Hall by auto. clear Hch Hc. induction chain as [|q chain IH]; cbn [pfind]; [by exists None|].
    destruct (tables_id _ _ q Ht) as [i Hi]; [apply Hall; by left|]. rewrite (rd_ok _ _ _ Hi). cbn [mbind outcome_bind].
    destruct (c_pid i =? pid); [exists (Some q); split; [done|]; intros p [= <-]; apply Hall; by left|]. apply IH. intros p Hp. apply Hall. by right. }
  cbn [mbind outcome_bind]. destruct r as [q|]; [|by apply called_ret]. specialize (Hin q eq_refl).
  destruct (cansignal_ok me q signo st w Hr Hm Hin) as [b ->]. cbn [mbind outcome_bind]. destruct b; cbn [negb]; [|by apply called_ret].
  assert (signal_ok st w (if negb (signo =? 0) then psignal procaddr q signo st w else Ok (st, w))) as (st1&w1&->&H1&E1&C1&P1).
  { destruct (Z.eqb_spec signo 0); cbn [negb]; [apply signal_ret, Hr|]. apply psignal_ready; [done|done|lia]. }
  by exists st1, w1, 0.
Qed.

Lemma killpg_ok me pgrp signo st w : ready st w -> me ∈ allproc w -> called me st w (killpg procaddr me pgrp signo st w).
Proof.
  intros Hr Hm. unfold killpg. destruct (Z.ltb_spec signo 0), (Z.leb_spec NSIG signo); cbn [orb]; try (by apply called_ret). unfold NSIG in *.
  apply killed_called. apply killpg1_ok; [done|done|lia].
Qed.

(** ** Taking signals *)

Lemma stop_current_ok st p a : sched_inv None st -> cur st = Some p -> a <> 0 ->
  exists st', stop_current p a st = Ok st' /\ sched_inv None st' /\ eases st st' /\ exists x', sprocs st' !! p = Some x' /\ p_stat x' = SSTOP.
Proof.
  intros H Hc Ha. destruct (stop_inv st p a H Hc Ha) as (st'&E&H'). exists st'. split; [done|]. split; [done|].
  unfold stop_current in E. apply outcome_bind_ok in E as (st1&E1&E). unfold stop in E1. apply outcome_bind_ok in E1 as (x&Hx%rd_inv&E1).
  rewrite (put_ok _ p x) in E1 by done. cbn [mbind outcome_bind] in E1.
  destruct (inv_cur _ _ H p Hc) as (y&Hy&Hrun&Hl). cbn in Hx. rewrite Hx in Hy. injection Hy as <-.
  set (x' := set_flag _ _) in E1. change (set_procs (set_cur st None) _) with (set_cur (set_procs st (<[p:=x']> (sprocs st))) None) in E1.
  assert (sched_inv None (set_cur (set_procs st (<[p:=x']> (sprocs st))) None)) as H1.
  { apply (leave_cpu st p x x'); try done. cbn. eapply no_chan; [exact H|exact Hx|by rewrite Hrun|by rewrite Hrun]. }
  destruct (wakeup_inv a _ Ha H1) as (st2&E2&_&Hwk&_). rewrite E1 in E2. injection E2 as <-.
  split.
  - transitivity (set_procs st (<[p:=x']> (sprocs st))); [apply (insert_eases st p x); [done| |done]; split; cbn; by apply has_ldiff|].
    transitivity st1; [|by apply swtch_eases]. apply wakes_eases in Hwk as []. by constructor.
  - destruct (wk_proc _ _ _ _ Hwk p x') as (x1&Hx1&_&Hw1); [cbn; rewrite lookup_put by (by eapply lookup_lt_Some); by rewrite decide_True|].
    destruct (swtch_keeps _ _ E) as [_ Hk]. destruct (Hk p x1 Hx1) as (x2&Hx2&_&_&Hs2). exists x2. split; [done|]. rewrite Hs2.
    destruct Hw1 as [->|(_&_&_&[[? _]|[_ ?]])]; done.
Qed.

(** The action set for a signal. *)
Definition action_of (u : usig) (sig : Z) : Z := default 0 (u_signal u !! Z.to_nat sig).

(** What the [switch] of [issignal] decides. *)
Definition switch_verdict (x : sproc) (u : usig) (i : cproc) (sig : Z) : verdict :=
  if action_of u sig =? SIG_DFL then
    if c_pid i <=? 1 then Drop
    else if has (prop_of sig) SA_STOP then
      if has (p_flag x) P_TRACED || (Nat.eqb (c_pptr i) 1 && has (prop_of sig) SA_TTYSTOP) then Drop else Stopped
    else if has (prop_of sig) SA_IGNORE then Drop else Give
  else if action_of u sig =? SIG_IGN then Drop else Give.

(** What [issignal] comes to. *)
Definition taken_ok (st : sched) (w : sigs) (o : outcome (sched * sigs * taken)) : Prop :=
  exists st' w' t, o = Ok (st', w', t) /\ sched_inv None st' /\ eases st st' /\ posts w w' /\
    match t with Take s => st' = st /\ 0 <= s <= 31 | Stops s => 1 <= s <= 31 | Traces => True end.

Lemma taken_ret st w s : sched_inv None st -> 0 <= s <= 31 -> taken_ok st w (Ok (st, w, Take s)).
Proof. intros H Hs. exists st, w, (Take s). do 2 (split; [done|]). split; [reflexivity|]. split; [reflexivity|done]. Qed.

Lemma taken_after st w0 w o : taken_ok st w o -> posts w0 w -> taken_ok st w0 o.
Proof. intros (st'&w'&t&?&?&?&?&?) Hp. exists st', w', t. split_and?; try done. by etransitivity. Qed.

(** The current process [p], other than the swapper, may look at its signals. *)
Record looking (p : nat) (st : sched) (w : sigs) : Prop := {
  lk_ready : ready st w;
  lk_cur : cur st = Some p;
  lk_live : p ∈ allproc w;
  lk_not0 : p <> 0%nat;
  lk_word : word31 (p_sig (words w p));
  lk_len : length (u_signal (us w p)) = 32%nat
}.

Lemma looking_posts p st w w' : looking p st w -> posts w w' -> looking p st w'.
Proof.
  intros [] Hp. constructor; [|done|by rewrite (po_all _ _ Hp)|done|by apply Hp|by rewrite (po_us _ _ Hp)].
  eapply ready_after; [done|apply lk_ready0|done|done].
Qed.

(** What the process and the tables must be for that, whatever the queues. *)
Record seeing (p : nat) (st : sched) (w : sigs) : Prop := {
  sg_tables : tables_ok (length (sprocs st)) w;
  sg_live : p ∈ allproc w;
  sg_not0 : p <> 0%nat;
  sg_word : word31 (p_sig (words w p));
  sg_len : length (u_signal (us w p)) = 32%nat
}.

Lemma looking_seeing p st w : looking p st w -> seeing p st w.
Proof. intros []. constructor; [apply lk_ready0|done..]. Qed.

Lemma seeing_posts p st w w' : seeing p st w -> posts w w' -> seeing p st w'.
Proof. intros [] Hp. constructor; [by eapply tables_posts|by rewrite (po_all _ _ Hp)|done|by apply Hp|by rewrite (po_us _ _ Hp)]. Qed.

(** Telling the parent and stopping. *)
Definition tell_stop (p : nat) (i : cproc) (b : bool) (st : sched) (w : sigs) : outcome (sched * sigs) :=
  r ← (if b then psignal procaddr (c_pptr i) SIGCHLD st w else Ok (st, w));
  st ← stop_current p (procaddr (c_pptr i)) (fst r); Ok (st, snd r).

Lemma notify_stop p st w i : looking p st w -> ids w !! p = Some i -> forall b : bool,
  exists st' w', tell_stop p i b st w = Ok (st', w') /\ sched_inv None st' /\ eases st st' /\ posts w w' /\
    exists x', sprocs st' !! p = Some x' /\ p_stat x' = SSTOP.
Proof.
  intros [] Hi b. pose proof (rdy_tables _ _ lk_ready0) as Ht. destruct (tb_parent _ _ Ht p i lk_live0 lk_not1 Hi) as [Hpar Hne]. unfold tell_stop.
  assert (signal_ok st w (if b then psignal procaddr (c_pptr i) SIGCHLD st w else Ok (st, w))) as (st1&w1&->&H1&E1&C1&P1).
  { destruct b; [apply psignal_ready; [done|done|unfold SIGCHLD; lia]|apply signal_ret, lk_ready0]. }
  cbn [mbind outcome_bind fst snd]. destruct (stop_current_ok st1 p (procaddr (c_pptr i)) H1) as (st2&->&H2&E2&X2); [congruence|apply Hproc|].
  cbn [mbind outcome_bind]. exists st2, w1. split; [done|]. split; [done|]. split; [by etransitivity|done].
Qed.

(** The [switch] of [issignal], up to telling the parent. *)
Lemma issignal_switch_shape p sig st w x i : seeing p st w -> sprocs st !! p = Some x -> ids w !! p = Some i -> 1 <= sig <= 31 ->
  match switch_verdict x (us w p) i sig with
  | Stopped => exists b, issignal_switch procaddr p sig (prop_of sig) st w = (r ← tell_stop p i b st (trace_sig w p sig); Ok (fst r, snd r, Stopped))
  | v => issignal_switch procaddr p sig (prop_of sig) st w = Ok (st, w, v)
  end.
Proof.
  intros Hk Hx Hi Hsig. pose proof (sg_tables _ _ _ Hk) as Ht. unfold issignal_switch, switch_verdict, action_of.
  destruct (lookup_lt_is_Some_2 (u_signal (us w p)) (Z.to_nat sig)) as [a Ha]; [rewrite (sg_len _ _ _ Hk); lia|].
  rewrite (rdz_ok _ _ a), Ha by (done || lia). cbn [mbind outcome_bind]. change (default 0 (Some a)) with a. rewrite (rd_ok _ _ _ Hx). cbn [mbind outcome_bind].
  rewrite (rd_ok _ _ _ Hi). cbn [mbind outcome_bind]. destruct (a =? SIG_DFL); [|by destruct (a =? SIG_IGN)]. destruct (c_pid i <=? 1); [done|].
  destruct (has (prop_of sig) SA_STOP); [|by destruct (has (prop_of sig) SA_IGNORE)].
  destruct (has (p_flag x) P_TRACED || (Nat.eqb (c_pptr i) 1 && has (prop_of sig) SA_TTYSTOP)); [done|].
  destruct (tb_parent _ _ Ht p i) as [Hpar Hne]; [apply Hk|apply Hk|done|]. destruct (tables_proc _ _ _ Ht Hpar) as [y Hy].
  rewrite (rd_ok _ _ _ Hy). cbn [mbind outcome_bind]. exists (negb (has (p_flag y) P_NOCLDSTOP)). unfold tell_stop.
  destruct (if negb _ then _ else _) as [[st1 w2]| |]; [|done..]. cbn [mbind outcome_bind fst snd]. by destruct (stop_current _ _ _).
Qed.

Lemma issignal_switch_spec p sig st w x i : looking p st w -> sprocs st !! p = Some x -> ids w !! p = Some i -> 1 <= sig <= 31 ->
  match switch_verdict x (us w p) i sig with
  | Stopped => exists st' w', issignal_switch procaddr p sig (prop_of sig) st w = Ok (st', w', Stopped) /\ sched_inv None st' /\ eases st st' /\ posts w w' /\
      exists x', sprocs st' !! p = Some x' /\ p_stat x' = SSTOP
  | v => issignal_switch procaddr p sig (prop_of sig) st w = Ok (st, w, v)
  end.
Proof.
  intros Hk Hx Hi Hsig. pose proof (issignal_switch_shape p sig st w x i (looking_seeing _ _ _ Hk) Hx Hi Hsig) as Hs.
  destruct (switch_verdict _ _ _ _); [done..|]. destruct Hs as [b ->].
  destruct (notify_stop p st (trace_sig w p sig) i) with (b := b) as (st'&w'&->&H'&E'&P'&X'); [eapply looking_posts; [done|apply posts_trace]|done|].
  exists st', w'. split; [done|]. split; [done|]. split; [done|]. split; [etransitivity; [apply posts_trace|done]|done].
Qed.

Lemma deliverable_word x y : word31 (p_sig y) -> word31 (deliverable x y).
Proof. intros H. unfold deliverable. destruct (has _ _); auto with sig. Qed.

Lemma ldiff_comm a b c : Z.ldiff (Z.ldiff a b) c = Z.ldiff (Z.ldiff a c) b.
Proof. apply Z.bits_inj'. intros n Hn. rewrite !Z.ldiff_spec. destruct (Z.testbit a n), (Z.testbit b n), (Z.testbit c n); done. Qed.

Lemma deliverable_take x w p m : deliverable x (words (take_away w p m) p) = Z.ldiff (deliverable x (words w p)) m.
Proof.
  unfold deliverable, take_away. cbn [words set_words]. rewrite fn_lookup_insert. cbn [p_sig set_sig p_sigmask].
  destruct (has _ _); [|apply ldiff_comm]. by rewrite (ldiff_comm (p_sig (words w p)) m), (ldiff_comm _ m).
Qed.

Lemma word31_pos v : word31 v -> v <> 0 -> 0 < v < 2 ^ 31.
Proof. unfold word31. lia. Qed.

(** The bits below the lowest signal are gone once it is taken away. *)
Lemma take_lowest D k : word31 D -> D <> 0 -> (forall j, 0 <= j < k -> Z.testbit D j = false) ->
  k < ffs D /\ forall j, 0 <= j < ffs D -> Z.testbit (Z.ldiff D (sigmask (ffs D))) j = false.
Proof.
  intros Hw Hn Hlow. destruct (ffs_spec D (word31_pos _ Hw Hn)) as (Hr&Hb&Hl). split.
  - destruct (Z.lt_ge_cases k (ffs D)); [done|]. rewrite Hlow in Hb by lia. done.
  - intros j Hj. rewrite Z.ldiff_spec, sigmask_bit by lia. destruct (Z.eqb_spec j (ffs D - 1)); [by rewrite andb_false_r|]. rewrite Hl by lia. done.
Qed.

(** What becomes of a deliverable signal of a process that is not traced. *)
Definition fate (x : sproc) (y : sigproc) (u : usig) (i : cproc) (sig : Z) : verdict :=
  if Z.testbit (p_sigignore y) (sig - 1) then Drop else switch_verdict x u i sig.

Lemma issignal_round fuel p st w x i : looking p st w -> sprocs st !! p = Some x -> ids w !! p = Some i ->
  let D := deliverable x (words w p) in
  D <> 0 -> has (p_flag x) P_TRACED = false ->
  match fate x (words w p) (us w p) i (ffs D) with
  | Give => issignal_loop procaddr (S fuel) p st w = Ok (st, w, Take (ffs D))
  | Drop => issignal_loop procaddr (S fuel) p st w = issignal_loop procaddr fuel p st (take_away w p (sigmask (ffs D)))
  | Stopped => exists st' w', issignal_loop procaddr (S fuel) p st w = Ok (st', w', Stops (ffs D)) /\ sched_inv None st' /\ eases st st' /\ posts w w' /\
      exists x', sprocs st' !! p = Some x' /\ p_stat x' = SSTOP
  end.
Proof.
  intros Hk Hx Hi D HD Hnt. destruct (ffs_spec D) as (Hr&Hb&Hl); [apply word31_pos; [apply deliverable_word, Hk|done]|].
  cbn [issignal_loop]. rewrite (rd_ok _ _ _ Hx). cbn [mbind outcome_bind]. fold D. rewrite (proj2 (Z.eqb_neq _ _) HD), rdz_sigprop by lia.
  cbn [mbind outcome_bind]. rewrite (has_comm (sigmask (ffs D))), has_sigmask by lia.
  unfold fate. rewrite Hnt. destruct (Z.testbit (p_sigignore (words w p)) (ffs D - 1)); cbn [andb negb]; [done|].
  pose proof (issignal_switch_spec p (ffs D) st w x i Hk Hx Hi Hr) as Hsw.
  destruct (switch_verdict x (us w p) i (ffs D)); [by rewrite Hsw..|]. destruct Hsw as (st'&w'&->&?&?&?). by exists st', w'.
Qed.

Lemma fate_take x w p i m : fate x (words (take_away w p m) p) (us (take_away w p m) p) i = fate x (words w p) (us w p) i.
Proof. unfold take_away. cbn [words set_words us]. by rewrite fn_lookup_insert. Qed.

(** [issignal] always comes to an end: with a signal to take and nothing else
    done, or where it tells the parent and stops. *)
Definition shape (p : nat) (st : sched) (w : sigs) (o : outcome (sched * sigs * taken)) : Prop :=
  (exists w' s, o = Ok (st, w', Take s) /\ posts w w' /\ 0 <= s <= 31) \/
  exists w' i b t, o = (r ← tell_stop p i b st w'; Ok (fst r, snd r, t)) /\ posts w w' /\ ids w' !! p = Some i /\
    match t with Take _ => False | Stops s => 1 <= s <= 31 | Traces => True end.

Lemma shape_ret p st w s : 0 <= s <= 31 -> shape p st w (Ok (st, w, Take s)).
Proof. intros Hs. left. by exists w, s. Qed.

Lemma shape_after p st w0 w o : shape p st w o -> posts w0 w -> shape p st w0 o.
Proof.
  intros [(w'&s&->&?&?)|(w'&i&b&t&->&?&?&?)] Hp; [left; exists w', s; split; [done|]; split; [by etransitivity|done]|right].
  exists w', i, b, t. split; [done|]. split; [by etransitivity|done].
Qed.

Lemma shape_taken p st w o : looking p st w -> shape p st w o -> taken_ok st w o.
Proof.
  intros Hk [(w'&s&->&Hp&Hs)|(w'&i&b&t&->&Hp&Hi&Ht)]; [eapply taken_after; [apply taken_ret; [apply Hk|done]|done]|].
  destruct (notify_stop p st w' i) with (b := b) as (st1&w1&->&H1&E1&P1&_); [by eapply looking_posts|done|]. cbn [mbind outcome_bind fst snd].
  exists st1, w1, t. do 3 (split; [done|]). split; [by etransitivity|]. by destruct t.
Qed.

Lemma issignal_loop_shape fuel k p st w x : seeing p st w -> sprocs st !! p = Some x -> 0 <= k <= 31 ->
  (forall j, 0 <= j < k -> Z.testbit (deliverable x (words w p)) j = false) -> 32 <= Z.of_nat fuel + k ->
  shape p st w (issignal_loop procaddr fuel p st w).
Proof.
  revert k w. induction fuel as [|fuel IH]; intros k w Hk Hx Hk0 Hlow Hf; [lia|].
  destruct (tables_id _ _ p (sg_tables _ _ _ Hk)) as [i Hi]; [apply Hk|].
  pose proof (deliverable_word x _ (sg_word _ _ _ Hk)) as HD. set (D := deliverable x (words w p)) in *.
  cbn [issignal_loop]. rewrite (rd_ok _ _ _ Hx). cbn [mbind outcome_bind]. fold D.
  destruct (Z.eqb_spec D 0) as [E0|E0]; [apply shape_ret; lia|].
  destruct (ffs_spec D (word31_pos _ HD E0)) as (Hr&_). destruct (take_lowest D k HD E0 Hlow) as [Hlt Hlow'].
  assert (shape p st w (issignal_loop procaddr fuel p st (take_away w p (sigmask (ffs D))))) as Hnext.
  { eapply shape_after; [|apply posts_take]. apply (IH (ffs D)); [eapply seeing_posts; [done|apply posts_take]|done|lia|by rewrite deliverable_take|lia]. }
  rewrite rdz_sigprop by lia. cbn [mbind outcome_bind]. destruct (_ && negb _); [done|]. destruct (_ && negb _).
  - set (w1 := trace_sig _ _ _). assert (posts w w1) as P1 by (etransitivity; [apply posts_take|apply posts_trace]).
    rewrite (rd_ok _ _ i) by (rewrite (po_ids _ _ P1); exact Hi). cbn [mbind outcome_bind]. right. exists w1, i, true, Traces.
    split; [|split; [done|split; [by rewrite (po_ids _ _ P1)|done]]]. unfold tell_stop.
    destruct (psignal procaddr _ _ _ _) as [[st1 w2]| |]; [|done..]. cbn [mbind outcome_bind fst snd]. by destruct (stop_current _ _ _).
  - pose proof (issignal_switch_shape p (ffs D) st w x i Hk Hx Hi Hr) as Hsw.
    destruct (switch_verdict x (us w p) i (ffs D)); [rewrite Hsw; apply shape_ret; lia|by rewrite Hsw|].
    destruct Hsw as [b ->]. right. exists (trace_sig w p (ffs D)), i, b, (Stops (ffs D)).
    split; [by destruct (tell_stop _ _ _ _ _)|]. split; [apply posts_trace|done].
Qed.

Lemma issignal_shape p st w : seeing p st w -> shape p st w (issignal procaddr p st w).
Proof.
  intros Hk. destruct (tables_proc _ _ p (sg_tables _ _ _ Hk)) as [x Hx]; [apply Hk|].
  apply (issignal_loop_shape 33 0 p st w x); [done|done|lia|lia|lia].
Qed.

Lemma CURSIG_shape p st w : seeing p st w -> shape p st w (CURSIG procaddr p st w).
Proof.
  intros Hk. destruct (tables_proc _ _ p (sg_tables _ _ _ Hk)) as [x Hx]; [apply Hk|].
  unfold CURSIG. rewrite (rd_ok _ _ _ Hx). cbn [mbind outcome_bind]. destruct (_ || _); [apply shape_ret; lia|by apply issignal_shape].
Qed.

(** With the queues in order it keeps them so. *)
Lemma issignal_loop_ok fuel k p st w x : looking p st w -> sprocs st !! p = Some x -> 0 <= k <= 31 ->
  (forall j, 0 <= j < k -> Z.testbit (deliverable x (words w p)) j = false) -> 32 <= Z.of_nat fuel + k ->
  taken_ok st w (issignal_loop procaddr fuel p st w).
Proof. intros Hk Hx Hk0 Hlow Hf. apply (shape_taken p); [done|]. apply (issignal_loop_shape fuel k p st w x); try done. by apply looking_seeing. Qed.

Lemma issignal_ok p st w : looking p st w -> taken_ok st w (issignal procaddr p st w).
Proof. intros Hk. by apply (shape_taken p), issignal_shape, looking_seeing. Qed.

Lemma CURSIG_ok p st w : looking p st w -> taken_ok st w (CURSIG procaddr p st w).
Proof. intros Hk. by apply (shape_taken p), CURSIG_shape, looking_seeing. Qed.

Lemma issignal_stopped_ok p sig st w : looking p st w -> taken_ok st w (issignal_stopped procaddr p sig st w).
Proof.
  intros Hk. unfold issignal_stopped. eapply taken_after; [|apply posts_take]. apply issignal_ok. eapply looking_posts; [done|apply posts_take].
Qed.

Lemma issignal_traced_ok p xmt st w : looking p st w -> 0 <= p_ptracesig (words w p) <= 31 -> taken_ok st w (issignal_traced procaddr p xmt st w).
Proof.
  intros Hk Hs. pose proof (rdy_tables _ _ (lk_ready _ _ _ Hk)) as Ht.
  destruct (tables_proc _ _ p Ht) as [x Hx]; [apply Hk|]. destruct (tables_id _ _ p Ht) as [i Hi]; [apply Hk|].
  unfold issignal_traced. rewrite (rd_ok _ _ _ Hx). cbn [mbind outcome_bind]. rewrite (rd_ok _ _ _ Hi). cbn [mbind outcome_bind].
  destruct (negb xmt && _).
  { destruct (stop_current_ok st p (procaddr (c_pptr i))) as (st'&->&H'&E'&_); [apply Hk|apply Hk|apply Hproc|]. cbn [mbind outcome_bind].
    exists st', w, Traces. split_and?; done. }
  set (sig := p_ptracesig (words w p)) in *. destruct (Z.eqb_spec sig 0); [by apply issignal_ok|].
  set (w1 := set_words w p _). assert (posts w w1) as P1 by (apply posts_add; lia).
  assert (looking p st w1) as Hk1 by (by eapply looking_posts).
  destruct (_ || _); [eapply taken_after; [by apply issignal_ok|done]|]. rewrite rdz_sigprop by lia. cbn [mbind outcome_bind].
  pose proof (issignal_switch_spec p sig st w1 x i Hk1 Hx) as Hsw.
  destruct (switch_verdict x (us w1 p) i sig).
  - rewrite Hsw by (done || lia). eapply taken_after; [apply taken_ret; [apply Hk|lia]|done].
  - rewrite Hsw by (done || lia). cbn [mbind outcome_bind]. eapply taken_after; [apply issignal_ok; eapply looking_posts; [done|apply posts_take]|].
    etransitivity; [exact P1|apply posts_take].
  - destruct Hsw as (st'&w'&->&?&?&?&_); [done|lia|]. exists st', w', (Stops sig). do 3 (split; [done|]). split; [by etransitivity|lia].
Qed.

(** *** The signal taken *)

(** [s] is the lowest of the signals [D] that [f] does not drop. *)
Definition first_kept (D : Z) (f : Z -> verdict) (s : Z) : Prop :=
  1 <= s <= 31 /\ Z.testbit D (s - 1) = true /\ f s <> Drop /\ forall r, 1 <= r < s -> Z.testbit D (r - 1) = true -> f r = Drop.

(** The outcome of [issignal] for the signals [D] with fates [f]. *)
Definition took (p : nat) (D : Z) (f : Z -> verdict) (st : sched) (w : sigs) (st' : sched) (w' : sigs) (t : taken) : Prop :=
  match t with
  | Take s =>
      st' = st /\ (s = 0 /\ (forall r, 1 <= r -> Z.testbit D (r - 1) = true -> f r = Drop) \/ first_kept D f s /\ f s = Give) /\
      (forall r, 1 <= r -> Z.testbit (p_sig (words w' p)) (r - 1) = Z.testbit (p_sig (words w p)) (r - 1) && negb (Z.testbit D (r - 1) && ((s =? 0) || (r <? s))))
  | Stops s => first_kept D f s /\ f s = Stopped /\ exists x', sprocs st' !! p = Some x' /\ p_stat x' = SSTOP
  | Traces => False
  end.

(** Dropping the lowest signal first changes nothing. *)
Lemma took_drop p D f st w st' w' t : word31 D -> D <> 0 -> f (ffs D) = Drop -> (forall r, 0 <= r -> Z.testbit D r = true -> Z.testbit (p_sig (words w p)) r = true) ->
  took p (Z.ldiff D (sigmask (ffs D))) f st (take_away w p (sigmask (ffs D))) st' w' t -> took p D f st w st' w' t.
Proof.
  intros HD HD0 Hf Hsub. destruct (ffs_spec D (word31_pos _ HD HD0)) as (Hr&Hb&Hl). set (s0 := ffs D) in *.
  assert (forall r, 1 <= r -> Z.testbit (Z.ldiff D (sigmask s0)) (r - 1) = Z.testbit D (r - 1) && negb (r =? s0)) as Hbit.
  { intros r Hr1. rewrite Z.ldiff_spec, sigmask_bit by lia. destruct (Z.eqb_spec (r - 1) (s0 - 1)), (Z.eqb_spec r s0); done || lia. }
  assert (forall r, 1 <= r -> Z.testbit D (r - 1) = true -> f r <> Drop -> Z.testbit (Z.ldiff D (sigmask s0)) (r - 1) = true) as Hkeep.
  { intros r Hr1 HDr Hn. rewrite Hbit, HDr by done. destruct (Z.eqb_spec r s0); [congruence|done]. }
  assert (forall s, first_kept (Z.ldiff D (sigmask s0)) f s -> first_kept D f s /\ s0 < s) as Hfirst.
  { intros s (H1&H2&H3&H4). rewrite Hbit in H2 by lia. apply andb_true_iff in H2 as [H2 H2'].
    assert (s0 < s). { destruct (Z.lt_ge_cases s0 s); [done|]. destruct (Z.eqb_spec s s0); [done|]. rewrite Hl in H2 by lia. done. }
    split; [|done]. split; [done|]. split; [done|]. split; [done|]. intros r Hr1 HDr.
    destruct (f r) eqn:E; [|done|]; (rewrite <- E; apply H4; [done|]; apply Hkeep; [lia|done|by rewrite E]). }
  destruct t as [s|s|]; cbn [took]; [|intros (H1&H2&H3); destruct (Hfirst s H1); done|done].
  intros (->&Hcase&Hsig). split; [done|]. split.
  - destruct Hcase as [[-> Hall]|[Hk Hg]]; [left|right; by destruct (Hfirst s Hk)]. split; [done|]. intros r Hr1 HDr.
    destruct (f r) eqn:E; [|done|]; (rewrite <- E; apply Hall; [done|]; apply Hkeep; [done|done|by rewrite E]).
  - intros r Hr1. rewrite Hsig by done. unfold take_away. cbn [words set_words]. rewrite fn_lookup_insert. cbn [p_sig set_sig].
    rewrite Hbit, Z.ldiff_spec, sigmask_bit by lia. replace (r - 1 =? s0 - 1) with (r =? s0) by (destruct (Z.eqb_spec r s0), (Z.eqb_spec (r - 1) (s0 - 1)); done || lia).
    destruct (Z.eqb_spec r s0) as [->|]; [|by rewrite !andb_true_r]. rewrite Hb. cbn [negb andb]. rewrite !andb_false_r. cbn [negb andb].
    assert ((s =? 0) || (s0 <? s) = true) as ->; [|by rewrite andb_false_r].
    destruct Hcase as [[-> _]|[Hk _]]; [done|]. destruct (Hfirst s Hk) as [_ Hlt]. rewrite (proj2 (Z.ltb_lt _ _) Hlt). apply orb_true_r.
Qed.

Lemma deliverable_pending x y r : Z.testbit (deliverable x y) r = true -> 0 <= r -> Z.testbit (p_sig y) r = true.
Proof.
  unfold deliverable. intros H Hr. destruct (has _ _); rewrite ?Z.ldiff_spec in H; repeat (apply andb_true_iff in H as [H _]); done.
Qed.

Lemma issignal_loop_took fuel k p st w x i : looking p st w -> sprocs st !! p = Some x -> ids w !! p = Some i -> has (p_flag x) P_TRACED = false ->
  0 <= k <= 31 -> (forall j, 0 <= j < k -> Z.testbit (deliverable x (words w p)) j = false) -> 32 <= Z.of_nat fuel + k ->
  exists st' w' t, issignal_loop procaddr fuel p st w = Ok (st', w', t) /\
    took p (deliverable x (words w p)) (fate x (words w p) (us w p) i) st w st' w' t.
Proof.
  revert k w. induction fuel as [|fuel IH]; intros k w Hk Hx Hi Hnt Hk0 Hlow Hf; [lia|].
  pose proof (deliverable_word x _ (lk_word _ _ _ Hk)) as HD. set (D := deliverable x (words w p)) in *.
  destruct (decide (D = 0)) as [E0|E0].
  { cbn [issignal_loop]. rewrite (rd_ok _ _ _ Hx). cbn [mbind outcome_bind]. fold D. rewrite E0. exists st, w, (Take 0). split; [done|].
    cbn [took]. split; [done|]. split; [left; split; [done|]; intros r _; by rewrite Z.bits_0|]. intros r _. by rewrite Z.bits_0, andb_true_r. }
  destruct (ffs_spec D (word31_pos _ HD E0)) as (Hr&Hb&Hl). destruct (take_lowest D k HD E0 Hlow) as [Hlt Hlow'].
  pose proof (issignal_round fuel p st w x i Hk Hx Hi E0 Hnt) as Hround. fold D in Hround.
  assert (forall v, fate x (words w p) (us w p) i (ffs D) = v -> v <> Drop -> first_kept D (fate x (words w p) (us w p) i) (ffs D)) as Hfirst.
  { intros v <- Hn. split; [done|]. split; [done|]. split; [done|]. intros r Hr1. rewrite Hl by lia. done. }
  destruct (fate x (words w p) (us w p) i (ffs D)) eqn:Ef.
  - exists st, w, (Take (ffs D)). split; [done|]. cbn [took]. split; [done|]. split; [right; split; [by apply (Hfirst Give)|done]|].
    intros r Hr1. destruct (Z.eqb_spec (ffs D) 0); [lia|]. destruct (Z.ltb_spec r (ffs D)); [|by rewrite andb_false_r, andb_true_r].
    rewrite Hl by lia. by rewrite andb_true_r.
  - destruct (IH (ffs D) (take_away w p (sigmask (ffs D)))) as (st'&w'&t&E&Ht); try done; [eapply looking_posts; [done|apply posts_take]|lia|by rewrite deliverable_take|lia|].
    exists st', w', t. split; [by rewrite Hround|]. apply took_drop; [done|done|done| |].
    + intros r Hr0 Hbr. by apply (deliverable_pending x).
    + by rewrite deliverable_take, fate_take in Ht.
  - destruct Hround as (st'&w'&E&?&?&?&X'). exists st', w', (Stops (ffs D)). split; [done|]. cbn [took]. split; [by apply (Hfirst Stopped)|done].
Qed.

Lemma issignal_took p st w x i : looking p st w -> sprocs st !! p = Some x -> ids w !! p = Some i -> has (p_flag x) P_TRACED = false ->
  exists st' w' t, issignal procaddr p st w = Ok (st', w', t) /\ sched_inv None st' /\
    took p (deliverable x (words w p)) (fate x (words w p) (us w p) i) st w st' w' t.
Proof.
  intros Hk Hx Hi Hnt.
  assert (forall n, (32 <= n)%nat -> exists st' w' t, issignal_loop procaddr n p st w = Ok (st', w', t) /\ sched_inv None st' /\
    took p (deliverable x (words w p)) (fate x (words w p) (us w p) i) st w st' w' t) as Hn.
  { intros n Hn. destruct (issignal_loop_took n 0 p st w x i Hk Hx Hi Hnt) as (st'&w'&t&E&Ht); [lia|lia|lia|].
    destruct (issignal_loop_ok n 0 p st w x Hk Hx) as (st2&w2&t2&E2&H2&_); [lia|lia|lia|]. rewrite E in E2. injection E2 as -> _ _. by exists st2, w', t. }
  apply Hn. lia.
Qed.

(** C22. [issignal] for a process that is not traced takes the lowest pending
    signal, not held, that it may not drop, and drops exactly the lower ones:
    a signal is dropped when it is ignored or its default is to do nothing;
    it is returned when it is caught or its default ends the process; and
    the process stops, and is then stopped, for a stop signal left to its
    default. It returns zero only when nothing else is pending, and always
    returns. *)
Theorem issignal_takes_lowest p st w x i : looking p st w -> sprocs st !! p = Some x -> ids w !! p = Some i -> has (p_flag x) P_TRACED = false ->
  exists st' w' t, issignal procaddr p st w = Ok (st', w', t) /\ sched_inv None st' /\
    took p (deliverable x (words w p)) (fate x (words w p) (us w p) i) st w st' w' t.
Proof. apply issignal_took. Qed.

End posting_proofs.
