(* ===== verification/Sigcall.v ===== *)
(** * Signal system calls and delivery ([sys/kern/kern_sig2.c], [postsig],
    [sigstack] and the loop of [userret] in [kern_sig.c], the rp2040
    [sendsig], [sigreturn] and user address checks)

    The arguments of a call are what it finds through its user pointers: a
    pointer to read is [None] when null and otherwise what [copyin] gives,
    [Some None] when it fails with EFAULT; a pointer to write is [None] when
    null and otherwise whether [copyout] succeeds. What was copied out is a
    result. [sigsuspend] and [sigwait] are cut at [tsleep]. *)
From stdpp Require Import functions.
From S2P Require Import Prelude Clock Sched Cred Signal.

Definition SA_ONSTACK : Z := 0x0001.
Definition SA_RESTART : Z := 0x0002.
Definition SA_DISABLE : Z := 0x0004.
Definition SA_NOCLDSTOP : Z := 0x0008.
Definition SIG_BLOCK : Z := 1.
Definition SIG_UNBLOCK : Z := 2.
Definition SIG_SETMASK : Z := 3.
Definition SAS_OLDMASK : Z := 0x01.
Definition SAS_ALTSTACK : Z := 0x02.
Definition MINSIGSTKSZ : Z := 128.

Definition set_signal (u : usig) (h : list Z) : usig :=
  Usig h (u_sigmask u) (u_sigonstack u) (u_sigintr u) (u_oldmask u) (u_psflags u) (u_sigstk u) (u_sigtramp u) (us_ruid u) (us_error u).
Definition set_usigmask (u : usig) (m : list Z) : usig :=
  Usig (u_signal u) m (u_sigonstack u) (u_sigintr u) (u_oldmask u) (u_psflags u) (u_sigstk u) (u_sigtramp u) (us_ruid u) (us_error u).
Definition set_onstack (u : usig) (v : Z) : usig :=
  Usig (u_signal u) (u_sigmask u) v (u_sigintr u) (u_oldmask u) (u_psflags u) (u_sigstk u) (u_sigtramp u) (us_ruid u) (us_error u).
Definition set_sigintr (u : usig) (v : Z) : usig :=
  Usig (u_signal u) (u_sigmask u) (u_sigonstack u) v (u_oldmask u) (u_psflags u) (u_sigstk u) (u_sigtramp u) (us_ruid u) (us_error u).
Definition set_oldmask (u : usig) (v : Z) : usig :=
  Usig (u_signal u) (u_sigmask u) (u_sigonstack u) (u_sigintr u) v (u_psflags u) (u_sigstk u) (u_sigtramp u) (us_ruid u) (us_error u).
Definition set_psflags (u : usig) (v : Z) : usig :=
  Usig (u_signal u) (u_sigmask u) (u_sigonstack u) (u_sigintr u) (u_oldmask u) v (u_sigstk u) (u_sigtramp u) (us_ruid u) (us_error u).
Definition set_sigstk (u : usig) (v : sigstk) : usig :=
  Usig (u_signal u) (u_sigmask u) (u_sigonstack u) (u_sigintr u) (u_oldmask u) (u_psflags u) v (u_sigtramp u) (us_ruid u) (us_error u).
Definition set_sigtramp (u : usig) (v : Z) : usig :=
  Usig (u_signal u) (u_sigmask u) (u_sigonstack u) (u_sigintr u) (u_oldmask u) (u_psflags u) (u_sigstk u) v (us_ruid u) (us_error u).
Definition set_uerror (u : usig) (v : Z) : usig :=
  Usig (u_signal u) (u_sigmask u) (u_sigonstack u) (u_sigintr u) (u_oldmask u) (u_psflags u) (u_sigstk u) (u_sigtramp u) (us_ruid u) v.

(** [if (on) x |= bit; else x &= ~bit]. *)
Definition set_bit (on : bool) (x bit : Z) : Z := if on then Z.lor x bit else Z.ldiff x bit.

(** ** Actions *)

Record sigact := Sigact { sa_handler : Z; sa_mask : Z; sa_flags : Z }.

Definition setsigvec (p : nat) (signum : Z) (sa : sigact) (st : sched) (w : sigs) : outcome (sched * sigs) :=
  let bit := sigmask signum in
  let u := us w p in
  h ← wrz (u_signal u) signum (sa_handler sa);
  m ← wrz (u_sigmask u) signum (Z.ldiff (sa_mask sa) sigcantmask);
  let u := set_usigmask (set_signal u h) m in
  let u := set_sigintr u (set_bit (negb (has (sa_flags sa) SA_RESTART)) (u_sigintr u) bit) in
  let u := set_onstack u (set_bit (has (sa_flags sa) SA_ONSTACK) (u_sigonstack u) bit) in
  x ← rd (sprocs st) p;
  st ← (if signum =? SIGCHLD
        then put st p (set_flag x (set_bit (has (sa_flags sa) SA_NOCLDSTOP) (p_flag x) P_NOCLDSTOP)) else Ok st);
  prop ← rdz sigprop signum;
  let y := words w p in
  let y :=
    if (sa_handler sa =? SIG_IGN) || (has prop SA_IGNORE && (sa_handler sa =? SIG_DFL)) then
      let y := set_sig y (Z.ldiff (p_sig y) bit) in
      let y := if negb (signum =? SIGCONT) then set_sigignore y (Z.lor (p_sigignore y) bit) else y in
      set_sigcatch y (Z.ldiff (p_sigcatch y) bit)
    else
      let y := set_sigignore y (Z.ldiff (p_sigignore y) bit) in
      set_sigcatch y (set_bit (negb (sa_handler sa =? SIG_DFL)) (p_sigcatch y) bit) in
  Ok (st, set_us (set_words w p y) p u).

(** The action [sigaction] reports. *)
Definition sigaction_old (x : sproc) (u : usig) (signum : Z) : outcome sigact :=
  h ← rdz (u_signal u) signum;
  m ← rdz (u_sigmask u) signum;
  let bit := sigmask signum in
  let f := if has (u_sigonstack u) bit then SA_ONSTACK else 0 in
  let f := if negb (has (u_sigintr u) bit) then Z.lor f SA_RESTART else f in
  let f := if has (p_flag x) P_NOCLDSTOP then Z.lor f SA_NOCLDSTOP else f in
  Ok (Sigact h m f).

(** [sigaction]: the state and the old action copied out, if any. *)
Definition sigaction (p : nat) (signum : Z) (nsa : option (option sigact)) (osa : option bool) (sigtramp : Z) (st : sched) (w : sigs)
  : outcome (sched * sigs * option sigact) :=
  let w := set_us w p (set_sigtramp (us w p) sigtramp) in
  if (signum <=? 0) || (NSIG <=? signum) then Ok (st, set_error w p SIG_EINVAL, None)
  else if bool_decide (is_Some nsa) && ((signum =? SIGKILL) || (signum =? SIGSTOP)) then Ok (st, set_error w p SIG_EINVAL, None)
  else
    x ← rd (sprocs st) p;
    old ← (match osa with Some _ => a ← sigaction_old x (us w p) signum; Ok (Some a) | None => Ok None end);
    match osa, nsa with
    | Some false, _ => Ok (st, set_error w p EFAULT, None)
    | _, Some None => Ok (st, set_error w p EFAULT, old)
    | _, Some (Some sa) => r ← setsigvec p signum sa st w; Ok (fst r, set_error (snd r) p 0, old)
    | _, None => Ok (st, set_error w p 0, old)
    end.

Definition fatalsig (procaddr : nat -> Z) (p : nat) (signum : Z) (st : sched) (w : sigs) : outcome (sched * sigs) :=
  let mask := sigmask signum in
  h ← wrz (u_signal (us w p)) signum SIG_DFL;
  let y := words w p in
  let y := Sigproc (p_sig y) (Z.ldiff (p_sigmask y) mask) (Z.ldiff (p_sigignore y) mask) (Z.ldiff (p_sigcatch y) mask) (p_ptracesig y) in
  psignal procaddr p signum st (set_us (set_words w p y) p (set_signal (us w p) h)).

(** The loop of [siginit], for [i] from 0. *)
Fixpoint siginit_loop (n : nat) (i : Z) (ignore : Z) : outcome Z :=
  match n with
  | O => Ok ignore
  | S n' => prop ← rdz sigprop i; siginit_loop n' (i + 1) (if has prop SA_IGNORE && negb (i =? SIGCONT) then Z.lor ignore (sigmask i) else ignore)
  end.

Definition siginit (p : nat) (w : sigs) : outcome sigs :=
  ig ← siginit_loop (Z.to_nat NSIG) 0 (p_sigignore (words w p)); Ok (set_words w p (set_sigignore (words w p) ig)).

(** ** Masks *)

(** [sigprocmask]: the state and the old mask copied out, if any. *)
Definition sigprocmask (p : nat) (how : Z) (set : option (option Z)) (oset : option bool) (w : sigs) : sigs * option Z :=
  let y := words w p in
  let oldmask := p_sigmask y in
  let '(w, error) :=
    match set with
    | None => (w, 0)
    | Some None => (w, EFAULT)
    | Some (Some newmask) =>
        if how =? SIG_BLOCK then (set_words w p (set_sigmask y (Z.lor (p_sigmask y) (Z.ldiff newmask sigcantmask))), 0)
        else if how =? SIG_UNBLOCK then (set_words w p (set_sigmask y (Z.ldiff (p_sigmask y) newmask)), 0)
        else if how =? SIG_SETMASK then (set_words w p (set_sigmask y (Z.ldiff newmask sigcantmask)), 0)
        else (w, SIG_EINVAL)
    end in
  match oset with
  | Some ok => if error =? 0 then if ok : bool then (set_error w p 0, Some oldmask) else (set_error w p EFAULT, None)
               else (set_error w p error, None)
  | None => (set_error w p error, None)
  end.

Definition sigpending (p : nat) (set : option bool) (w : sigs) : sigs * option Z :=
  match set with
  | None => (set_error w p SIG_EINVAL, None)
  | Some true => (set_error w p 0, Some (p_sig (words w p)))
  | Some false => (set_error w p EFAULT, None)
  end.

(** [sigsuspend] up to its first [tsleep], and after each: whether it sleeps
    again. *)
Definition sigsuspend (p : nat) (set : option (option Z)) (w : sigs) : sigs :=
  let nmask := match set with Some (Some m) => m | _ => 0 end in
  let u := us w p in
  let u := set_psflags (set_oldmask u (p_sigmask (words w p))) (Z.lor (u_psflags u) SAS_OLDMASK) in
  set_us (set_words w p (set_sigmask (words w p) (Z.ldiff nmask sigcantmask))) p u.

Definition sigsuspend_woken (p : nat) (ret : Z) (w : sigs) : sigs * bool :=
  if ret =? 0 then (w, true) else (set_error w p EINTR, false).

(** [sigwait] up to the loop, and the test of the loop with what follows it:
    it sleeps again, or ends with the signal copied out, if any. *)
Definition sigwait (p : nat) (set : option (option Z)) (sig : option bool) (w : sigs) : sigs * option Z :=
  match set, sig with
  | None, _ | _, None => (set_error w p SIG_EINVAL, None)
  | Some None, _ => (set_error w p EFAULT, None)
  | Some (Some wanted), _ => (w, Some (Z.lor wanted sigcantmask))
  end.

Inductive waited := WaitAgain | WaitDone (signo : option Z).

Definition sigwait_test (p : nat) (wanted : Z) (ok : bool) (w : sigs) : sigs * waited :=
  let sigsavail := Z.land wanted (p_sig (words w p)) in
  if sigsavail =? 0 then (w, WaitAgain)
  else if has sigsavail sigcantmask then (set_error w p EINTR, WaitDone None)
  else
    let signo := ffs sigsavail in
    let w := take_away w p (sigmask signo) in
    if ok then (set_error w p 0, WaitDone (Some signo)) else (set_error w p EFAULT, WaitDone None).

(** ** Alternate stacks *)

Definition sigaltstack (p : nat) (nss : option (option sigstk)) (oss : option bool) (w : sigs) : sigs * option sigstk :=
  let u := us w p in
  let k := u_sigstk u in
  let k := if negb (has (u_psflags u) SAS_ALTSTACK) then Sigstk (ss_base k) (ss_size k) (Z.lor (ss_flags k) SA_DISABLE) else k in
  let w := set_us w p (set_sigstk u k) in
  let old := match oss with Some true => Some k | _ => None end in
  match oss, nss with
  | Some false, _ => (set_error w p EFAULT, None)
  | _, None => (set_error w p 0, old)
  | _, Some None => (set_error w p EFAULT, old)
  | _, Some (Some ss) =>
      let u := us w p in
      if has (ss_flags ss) SA_DISABLE then
        if has (ss_flags k) SA_ONSTACK then (set_error w p SIG_EINVAL, old)
        else
          let u := set_psflags u (Z.ldiff (u_psflags u) SAS_ALTSTACK) in
          (set_error (set_us w p (set_sigstk u (Sigstk (ss_base k) (ss_size k) (ss_flags ss)))) p 0, old)
      else if ss_size ss <? MINSIGSTKSZ then (set_error w p SIG_ENOMEM, old)
      else (set_error (set_us w p (set_sigstk (set_psflags u (Z.lor (u_psflags u) SAS_ALTSTACK)) ss)) p 0, old)
  end.

(** The 4.3 call [sigstack]; a stack is its pointer and whether it is on it. *)
Definition sigstack (p : nat) (nss : option (option (Z * Z))) (oss : option bool) (w : sigs) : sigs * option (Z * Z) :=
  let u := us w p in
  let k := u_sigstk u in
  let old := match oss with Some true => Some (ss_base k, Z.land (ss_flags k) SA_ONSTACK) | _ => None end in
  match oss, nss with
  | Some false, _ => (set_error w p EFAULT, None)
  | _, None => (set_error w p 0, old)
  | _, Some None => (set_error w p EFAULT, old)
  | _, Some (Some (sp, on)) =>
      let u := set_sigstk u (Sigstk sp 0 (Z.lor (ss_flags k) (Z.land on SA_ONSTACK))) in
      (set_error (set_us w p (set_psflags u (Z.lor (u_psflags u) SAS_ALTSTACK))) p 0, old)
  end.

(** ** Delivery *)

(** What [postsig] does with a signal: calls a handler, with the mask to
    restore, or exits with a status. *)
Inductive posted := Handle (action returnmask : Z) | Dies (status : Z).

(** [postsig]; [core] is whether a core image was written. *)
Definition postsig (core : bool) (p : nat) (sig : Z) (w : sigs) : outcome (sigs * posted) :=
  let mask := sigmask sig in
  let w := take_away w p mask in
  action ← rdz (u_signal (us w p)) sig;
  if negb (action =? SIG_DFL) then
    let u := set_uerror (us w p) 0 in
    let '(u, returnmask) :=
      if has (u_psflags u) SAS_OLDMASK then (set_psflags u (Z.ldiff (u_psflags u) SAS_OLDMASK), u_oldmask u)
      else (u, p_sigmask (words w p)) in
    m ← rdz (u_sigmask u) sig;
    let y := words w p in
    Ok (set_us (set_words w p (set_sigmask y (Z.lor (p_sigmask y) (Z.lor m mask)))) p u, Handle action returnmask)
  else
    prop ← rdz sigprop sig;
    Ok (w, Dies (if has prop SA_CORE && core then Z.lor sig 128 else sig)).

(** The user registers, in the order of [struct trapframe]; [tf_sp] is
    [tf_ip]. *)
Record trapframe := Trapframe {
  tf_r0 : Z; tf_r1 : Z; tf_r2 : Z; tf_r3 : Z; tf_sp : Z; tf_lr : Z; tf_pc : Z; tf_psr : Z;
  tf_r4 : Z; tf_r5 : Z; tf_r6 : Z; tf_r7 : Z; tf_r8 : Z; tf_r9 : Z; tf_r10 : Z; tf_r11 : Z
}.

Definition XPSR_STKALIGN : Z := 0x200.
Definition PSR_NZCV : Z := Z.shiftl 0xf 28.
Definition SIGRETURN_PSR_THUMB : Z := Z.shiftl 1 24.
Definition SIGRETURN_PSR_ALLOWED : Z := Z.lor (Z.lor PSR_NZCV SIGRETURN_PSR_THUMB) XPSR_STKALIGN.
Definition EJUSTRETURN : Z := -2.

(** The memory of a process: the window's bounds, where its data is, and the
    sizes the kernel keeps of its stack. *)
Record usermem := Usermem { m_start : Z; m_top : Z; m_daddr : Z; m_dsize : Z; m_ssize : Z; m_saddr : Z }.

(** Memory as 32-bit words by address; addresses have 32 bits. *)
Definition memory := Z -> Z.

Fixpoint store (m : memory) (a : Z) (l : list Z) : memory :=
  match l with [] => m | v :: l' => store (<[u32 a:=v]> m) (a + 4) l' end.

Fixpoint load (m : memory) (a : Z) (n : nat) : list Z :=
  match n with O => [] | S n' => m (u32 a) :: load m (a + 4) n' end.

(** [struct sigcontext], in order. *)
Definition sigcontext (onstack mask : Z) (r : trapframe) : list Z :=
  [onstack; mask; tf_r0 r; tf_r1 r; tf_r2 r; tf_r3 r; tf_sp r; tf_lr r; tf_pc r; tf_psr r;
   tf_r4 r; tf_r5 r; tf_r6 r; tf_r7 r; tf_r8 r; tf_r9 r; tf_r10 r; tf_r11 r].

(** The size of [struct sigframe]: eight words and the context. *)
Definition SIGFRAME : Z := 104.

(** Where [sendsig] puts its frame, and whether that is on the alternate
    stack from now on. *)
Definition sendsig_frame (u : usig) (sig : Z) (r : trapframe) : Z * Z :=
  let k := u_sigstk u in
  if has (u_psflags u) SAS_ALTSTACK && negb (has (ss_flags k) SA_ONSTACK) && has (u_sigonstack u) (sigmask sig)
  then (u32 (Z.land (u32 (ss_base k + ss_size k)) (u32 (Z.lnot 7)) - SIGFRAME), Z.lor (ss_flags k) SA_ONSTACK)
  else (u32 (Z.land (tf_sp r) (u32 (Z.lnot 7)) - SIGFRAME), ss_flags k).

(** [sendsig], less its prints: nothing when the stack is trashed, which is
    [fatalsig(SIGILL)]; otherwise the memory, the sizes, the u area and the
    registers the handler starts with. [code] is [u.u_code]. *)
Definition sendsig (handler sig mask code : Z) (r : trapframe) (u : usig) (um : usermem) (m : memory)
  : option (memory * usermem * usig * trapframe) :=
  let oonstack := Z.land (ss_flags (u_sigstk u)) SA_ONSTACK in
  let '(sfp, flags) := sendsig_frame u sig r in
  let u := set_sigstk u (Sigstk (ss_base (u_sigstk u)) (ss_size (u_sigstk u)) flags) in
  if negb (has flags SA_ONSTACK) && (sfp <? u32 (m_daddr um + m_dsize um)) then None
  else
    let um := if negb (has flags SA_ONSTACK) && (m_ssize um <? u32 (m_top um - sfp))
              then Usermem (m_start um) (m_top um) (m_daddr um) (m_dsize um) (u32 (m_top um - sfp)) sfp else um in
    Some (store m (sfp + 32) (sigcontext oonstack mask r), um, u,
          Trapframe sig code (u32 (sfp + 32)) (tf_r3 r) sfp (u_sigtramp u) handler (Z.ldiff (tf_psr r) XPSR_STKALIGN)
            (tf_r4 r) (tf_r5 r) (tf_r6 r) (tf_r7 r) (tf_r8 r) (tf_r9 r) (tf_r10 r) (tf_r11 r)).

(** [rp2040_user_span_contains] and [baduaddr_span]. *)
Definition rp2040_user_span_contains (lower upper start length : Z) : bool :=
  if (upper <? lower) || (start <? lower) || (upper <? start) then false else length <=? u32 (upper - start).

Definition baduaddr_span (um : usermem) (addr nbytes : Z) : bool :=
  negb (rp2040_user_span_contains (m_start um) (m_top um) addr nbytes).

(** [copyin] of [n] words. *)
Definition copyin (um : usermem) (m : memory) (from : Z) (n : nat) : option (list Z) :=
  if baduaddr_span um from (4 * Z.of_nat n) then None else Some (load m from n).

Definition RP2040_USER_BOOT_ROM_END : Z := 0x4000.

Definition machine_user_pc_valid (um : usermem) (pc : Z) : bool :=
  if negb (pc mod 2 =? 0) then false
  else if (pc <=? RP2040_USER_BOOT_ROM_END) && (2 <=? RP2040_USER_BOOT_ROM_END - pc) then true
  else negb (baduaddr_span um pc 2).

Definition machine_user_stack_valid (um : usermem) (sp size : Z) : bool :=
  if negb (sp mod 8 =? 0) then false else negb (baduaddr_span um sp size).

Definition sigreturn_psr_valid (psr : Z) : bool :=
  if negb (has psr SIGRETURN_PSR_THUMB) then false else Z.ldiff psr SIGRETURN_PSR_ALLOWED =? 0.

Definition sigreturn_context_valid (um : usermem) (pc sp psr : Z) : bool :=
  if negb (sigreturn_psr_valid psr) then false
  else
    let frame_size := if has psr XPSR_STKALIGN then 36 else 32 in
    if negb (machine_user_pc_valid um pc) then false else machine_user_stack_valid um sp frame_size.

(** [sigreturn], less its prints: the words and u area of the process, and
    its registers. *)
Definition sigreturn (um : usermem) (m : memory) (r : trapframe) (y : sigproc) (u : usig) : sigproc * usig * trapframe :=
  if 0xffffffff - 32 <? tf_sp r then (y, set_uerror u EFAULT, r)
  else
    match copyin um m (tf_sp r + 32) 18 with
    | Some [onstack; mask; r0; r1; r2; r3; sp; lr; pc; psr; r4; r5; r6; r7; r8; r9; r10; r11] =>
        if negb (sigreturn_context_valid um pc sp psr) then (y, set_uerror u SIG_EINVAL, r)
        else
          let k := u_sigstk u in
          let u := set_uerror u EJUSTRETURN in
          let u := set_sigstk u (Sigstk (ss_base k) (ss_size k) (set_bit (has onstack SA_ONSTACK) (ss_flags k) SA_ONSTACK)) in
          (set_sigmask y (Z.ldiff mask sigcantmask), u, Trapframe r0 r1 r2 r3 sp lr pc psr r4 r5 r6 r7 r8 r9 r10 r11)
    | _ => (y, set_uerror u EFAULT, r)
    end.

(** ** Faults, fork and exit *)

(** The end of [arm_fault] for a fault of the process, up to [userret]; [sp]
    is the stack pointer at the fault. *)
Definition arm_fault (procaddr : nat -> Z) (p : nat) (um : usermem) (sp : Z) (st : sched) (w : sigs) : outcome (sched * sigs) :=
  let psig := if (sp <? m_start um) || (m_top um <=? sp) then SIGKILL else SIGSEGV in
  let y := words w p in
  let y := set_sigignore (set_sigmask y (Z.ldiff (p_sigmask y) (sigmask psig))) (Z.ldiff (p_sigignore y) (sigmask psig)) in
  a ← rdz (u_signal (us w p)) psig;
  h ← (if a =? SIG_IGN then wrz (u_signal (us w p)) psig SIG_DFL else Ok (u_signal (us w p)));
  psignal procaddr p psig st (set_us (set_words w p y) p (set_signal (us w p) h)).

(** What [newproc] gives a child: the parent's masks, and its u area by
    copying. *)
Definition newproc_signals (parent child : nat) (w : sigs) : sigs :=
  let y := words w parent in
  let w := set_words w child (Sigproc (p_sig (words w child)) (p_sigmask y) (p_sigignore y) (p_sigcatch y) (p_ptracesig (words w child))) in
  let w := set_us w child (us w parent) in
  Sigs (ids w) (child :: allproc w) (pidhash w) (words w) (us w).

(** The first lines of [exit]: no signal is seen any more. *)
Definition exit_signals (p : nat) (st : sched) (w : sigs) : outcome (sched * sigs) :=
  x ← rd (sprocs st) p;
  st ← put st p (set_flag x (Z.ldiff (p_flag x) P_TRACED));
  Ok (st, set_words w p (set_sig (set_sigignore (words w p) 0xffffffff) 0)).

(** ** The words agree with the actions *)

Definition caught (h : Z) : bool := negb (h =? SIG_DFL) && negb (h =? SIG_IGN).
Definition ignored (s h : Z) : bool :=
  ((h =? SIG_IGN) || ((h =? SIG_DFL) && has (prop_of s) SA_IGNORE)) && negb (s =? SIGCONT).

Definition no_cant (m : Z) : Prop := Z.land m sigcantmask = 0.

Record words_ok (y : sigproc) (u : usig) : Prop := {
  wo_len : length (u_signal u) = 32%nat;
  wo_mlen : length (u_sigmask u) = 32%nat;
  wo_catch31 : word31 (p_sigcatch y);
  wo_catch : forall s, 1 <= s <= 31 -> Z.testbit (p_sigcatch y) (s - 1) = caught (action_of u s);
  wo_ignore : forall s, 1 <= s <= 31 -> Z.testbit (p_sigignore y) (s - 1) = ignored s (action_of u s);
  wo_kill : action_of u SIGKILL = SIG_DFL;
  wo_stop : action_of u SIGSTOP = SIG_DFL;
  wo_mask : no_cant (p_sigmask y);
  wo_oldmask : no_cant (u_oldmask u);
  wo_masks : Forall no_cant (u_sigmask u)
}.

Lemma no_cant_ldiff m : no_cant (Z.ldiff m sigcantmask).
Proof.
  apply Z.bits_inj'. intros i Hi. rewrite Z.land_spec, Z.ldiff_spec, Z.bits_0. destruct (Z.testbit m i), (Z.testbit sigcantmask i); done.
Qed.

Lemma no_cant_sub m n : no_cant m -> no_cant (Z.ldiff m n).
Proof. unfold no_cant. intros H. by rewrite Z.ldiff_land, <- Z.land_assoc, (Z.land_comm (Z.lnot n)), Z.land_assoc, H. Qed.

Lemma no_cant_lor m n : no_cant m -> no_cant n -> no_cant (Z.lor m n).
Proof. unfold no_cant. intros H1 H2. by rewrite Z.land_lor_distr_l, H1, H2. Qed.

#[export] Hint Resolve no_cant_ldiff no_cant_sub no_cant_lor : sig.

(** What [words_ok] depends on. *)
Lemma words_ok_eq y u y' u' : words_ok y u -> p_sigmask y' = p_sigmask y -> p_sigignore y' = p_sigignore y -> p_sigcatch y' = p_sigcatch y ->
  u_signal u' = u_signal u -> u_sigmask u' = u_sigmask u -> u_oldmask u' = u_oldmask u -> words_ok y' u'.
Proof.
  intros [] E1 E2 E3 E4 E5 E6. assert (forall s, action_of u' s = action_of u s) as Ea by (intros s; unfold action_of; by rewrite E4).
  constructor; rewrite ?E1, ?E2, ?E3, ?E4, ?E5, ?E6, ?Ea; try done; intros s; rewrite Ea; auto.
Qed.

Lemma words_ok_mask y u m : words_ok y u -> no_cant m -> words_ok (set_sigmask y m) u.
Proof. intros [] Hm. by constructor. Qed.

Lemma action_insert u h s r : length (u_signal u) = 32%nat -> 0 <= s <= 31 -> 0 <= r ->
  action_of (set_signal u (<[Z.to_nat s:=h]> (u_signal u))) r = if decide (r = s) then h else action_of u r.
Proof.
  intros Hl Hs Hr. unfold action_of. cbn. rewrite lookup_put by lia. destruct (decide (Z.to_nat r = Z.to_nat s)), (decide (r = s)); done || lia.
Qed.

Lemma bit_other x s r : 1 <= s <= 31 -> 1 <= r <= 31 -> Z.testbit (Z.lor x (sigmask s)) (r - 1) = if decide (r = s) then true else Z.testbit x (r - 1).
Proof.
  intros Hs Hr. rewrite Z.lor_spec, sigmask_bit by lia. case_decide; [subst; rewrite Z.eqb_refl; apply orb_true_r|].
  destruct (Z.eqb_spec (r - 1) (s - 1)); [lia|apply orb_false_r].
Qed.

Lemma bit_cleared x s r : 1 <= s <= 31 -> 1 <= r <= 31 -> Z.testbit (Z.ldiff x (sigmask s)) (r - 1) = if decide (r = s) then false else Z.testbit x (r - 1).
Proof.
  intros Hs Hr. rewrite Z.ldiff_spec, sigmask_bit by lia. case_decide; [subst; rewrite Z.eqb_refl; apply andb_false_r|].
  destruct (Z.eqb_spec (r - 1) (s - 1)); [lia|apply andb_true_r].
Qed.

(** Changing the action of one signal: the words must change at its bit, and
    only there, as the new action says. *)
Lemma words_ok_action y u s h y' : words_ok y u -> 1 <= s <= 31 -> h = SIG_DFL \/ (s <> SIGKILL /\ s <> SIGSTOP) ->
  word31 (p_sigcatch y') ->
  (forall r, 1 <= r <= 31 -> Z.testbit (p_sigcatch y') (r - 1) = if decide (r = s) then caught h else Z.testbit (p_sigcatch y) (r - 1)) ->
  (forall r, 1 <= r <= 31 -> Z.testbit (p_sigignore y') (r - 1) = if decide (r = s) then ignored s h else Z.testbit (p_sigignore y) (r - 1)) ->
  no_cant (p_sigmask y') -> words_ok y' (set_signal u (<[Z.to_nat s:=h]> (u_signal u))).
Proof.
  intros H Hs Hh Hw Hc Hi Hm. pose proof (wo_len _ _ H) as Hl.
  assert (forall r, 0 <= r -> action_of (set_signal u (<[Z.to_nat s:=h]> (u_signal u))) r = if decide (r = s) then h else action_of u r) as Ha
    by (intros r Hr; apply action_insert; lia).
  destruct H. constructor; try done.
  - cbn. by rewrite length_insert.
  - intros r Hr. rewrite Ha, Hc by lia. case_decide; [by subst|auto].
  - intros r Hr. rewrite Ha, Hi by lia. case_decide; [by subst|auto].
  - rewrite Ha by (unfold SIGKILL; lia). case_decide; [|done]. destruct Hh as [->|[? _]]; [done|congruence].
  - rewrite Ha by (unfold SIGSTOP; lia). case_decide; [|done]. destruct Hh as [->|[_ ?]]; [done|congruence].
Qed.

Lemma words_ok_masks y u s m : words_ok y u -> no_cant m -> words_ok y (set_usigmask u (<[s:=m]> (u_sigmask u))).
Proof. intros [] Hm. constructor; try done; cbn; [by rewrite length_insert|by apply Forall_insert]. Qed.

Lemma setsigvec_ok p signum sa st w x : words_ok (words w p) (us w p) -> word31 (p_sig (words w p)) -> 1 <= signum <= 31 ->
  signum <> SIGKILL -> signum <> SIGSTOP -> sprocs st !! p = Some x ->
  exists st' w', setsigvec p signum sa st w = Ok (st', w') /\
    (st' = st \/ exists f, st' = set_procs st (<[p:=set_flag x f]> (sprocs st)) /\ f = set_bit (has (sa_flags sa) SA_NOCLDSTOP) (p_flag x) P_NOCLDSTOP) /\
    (exists y u, w' = set_us (set_words w p y) p u /\ words_ok y u /\ word31 (p_sig y)).
Proof.
  intros H Hw Hs Hk Hst Hx. unfold setsigvec. pose proof (wo_len _ _ H) as Hl. pose proof (wo_mlen _ _ H) as Hml.
  rewrite !wrz_ok by lia. cbn [mbind outcome_bind]. rewrite (rd_ok _ _ _ Hx). cbn [mbind outcome_bind].
  assert (exists st', (if signum =? SIGCHLD then put st p (set_flag x (set_bit (has (sa_flags sa) SA_NOCLDSTOP) (p_flag x) P_NOCLDSTOP)) else Ok st) = Ok st' /\
    (st' = st \/ exists f, st' = set_procs st (<[p:=set_flag x f]> (sprocs st)) /\ f = set_bit (has (sa_flags sa) SA_NOCLDSTOP) (p_flag x) P_NOCLDSTOP)) as (st'&->&Hst').
  { destruct (signum =? SIGCHLD); [|exists st; auto]. rewrite (put_ok _ p x) by done. eexists. split; [done|]. right. by eexists. }
  cbn [mbind outcome_bind]. rewrite rdz_sigprop by lia. cbn [mbind outcome_bind].
  eexists st', _. split; [done|]. split; [done|]. eexists _, _. split; [reflexivity|]. set (y := words w p) in *. set (h := sa_handler sa).
  set (y' := if (h =? SIG_IGN) || _ then _ else _).
  assert (word31 (p_sigcatch y') /\ word31 (p_sig y') /\ p_sigmask y' = p_sigmask y /\
    (forall r, 1 <= r <= 31 -> Z.testbit (p_sigcatch y') (r - 1) = if decide (r = signum) then caught h else Z.testbit (p_sigcatch y) (r - 1)) /\
    (forall r, 1 <= r <= 31 -> Z.testbit (p_sigignore y') (r - 1) = if decide (r = signum) then ignored signum h else Z.testbit (p_sigignore y) (r - 1)))
    as (W1&W2&W3&W4&W5).
  { pose proof (wo_catch31 _ _ H). pose proof (wo_ignore _ _ H) as Hig. fold y in Hig.
    assert (ignored SIGCONT (action_of (us w p) SIGCONT) = false) as Hcont by (unfold ignored; by rewrite andb_false_r).
    unfold y', caught, ignored. destruct (Z.eqb_spec h SIG_IGN) as [Ei|Ei]; [|destruct (Z.eqb_spec h SIG_DFL) as [Ed|Ed]; [destruct (has (prop_of signum) SA_IGNORE)|]];
      rewrite ?andb_false_r; cbn [orb andb negb]; destruct (Z.eqb_spec signum SIGCONT) as [Ec|Ec]; cbn [negb p_sigcatch p_sigignore p_sig p_sigmask set_sig set_sigcatch set_sigignore set_bit];
      (split; [word31|split; [word31|split; [done|split; intros r Hr]]]); rewrite ?bit_other, ?bit_cleared by done; case_decide; subst; try done.
    all: try (rewrite Hig by (unfold SIGCONT; lia); by rewrite Hcont).
    all: try (by rewrite andb_false_r).
    all: rewrite Ei; done. }
  split; [|done].
  assert (words_ok y' (set_signal (us w p) (<[Z.to_nat signum:=h]> (u_signal (us w p))))) as H1.
  { apply (words_ok_action y (us w p) signum h y'); try done; [auto|rewrite W3; apply H]. }
  apply (words_ok_masks _ _ (Z.to_nat signum) (Z.ldiff (sa_mask sa) sigcantmask)) in H1; [|auto with sig].
  by eapply words_ok_eq; [exact H1|..].
Qed.

(** [execsigs] ends, catching nothing. *)
Lemma execsigs_loop_ok fuel k y u : words_ok y u -> word31 (p_sig y) -> 0 <= k <= 31 ->
  (forall j, 0 <= j < k -> Z.testbit (p_sigcatch y) j = false) -> 32 <= Z.of_nat fuel + k ->
  exists y' h', execsigs_loop fuel y (u_signal u) = Ok (y', h') /\ words_ok y' (set_signal u h') /\ word31 (p_sig y') /\ p_sigcatch y' = 0 /\
    p_sigmask y' = p_sigmask y.
Proof.
  revert k y u. induction fuel as [|fuel IH]; intros k y u H Hy Hk Hlow Hf; [lia|]. cbn [execsigs_loop].
  destruct (Z.eqb_spec (p_sigcatch y) 0) as [E0|E0].
  { exists y, (u_signal u). split; [done|]. split; [|done]. by eapply words_ok_eq; [exact H|..]. }
  pose proof (wo_catch31 _ _ H) as Hc. destruct (ffs_spec (p_sigcatch y) (word31_pos _ Hc E0)) as (Hr&Hb&_).
  destruct (take_lowest _ k Hc E0 Hlow) as [Hlt Hlow']. set (nc := ffs (p_sigcatch y)) in *.
  rewrite rdz_sigprop by lia. cbn [mbind outcome_bind]. rewrite wrz_ok by (rewrite (wo_len _ _ H); lia). cbn [mbind outcome_bind].
  set (y1 := if has (prop_of nc) SA_IGNORE then _ else _).
  assert (p_sigcatch y1 = Z.ldiff (p_sigcatch y) (sigmask nc) /\ word31 (p_sig y1) /\ p_sigmask y1 = p_sigmask y /\
    (forall r, 1 <= r <= 31 -> Z.testbit (p_sigignore y1) (r - 1) = if decide (r = nc) then ignored nc SIG_DFL else Z.testbit (p_sigignore y) (r - 1)))
    as (C1&C2&C3&C4).
  { pose proof (wo_catch _ _ H nc Hr) as Hca. rewrite Hb in Hca. pose proof (wo_ignore _ _ H nc Hr) as Hig.
    assert (Z.testbit (p_sigignore y) (nc - 1) = false) as Hnig.
    { rewrite Hig. unfold ignored, caught in *. destruct (_ =? SIG_IGN); [by rewrite andb_false_r in Hca|]. by destruct (_ =? SIG_DFL). }
    unfold y1, ignored. rewrite Z.eqb_refl. cbn [andb]. destruct (has (prop_of nc) SA_IGNORE), (Z.eqb_spec nc SIGCONT);
      cbn [negb p_sigcatch p_sig p_sigmask p_sigignore set_sig set_sigignore set_sigcatch];
      (split; [done|split; [word31|split; [done|intros r Hr1]]]); rewrite ?bit_other by done; case_decide as Er; try done; rewrite Er; by rewrite ?Hnig. }
  assert (words_ok y1 (set_signal u (<[Z.to_nat nc:=SIG_DFL]> (u_signal u)))) as H1.
  { apply (words_ok_action y u nc SIG_DFL y1); [done|done|by left|rewrite C1; word31| |done|rewrite C3; apply H].
    intros r Hr1. rewrite C1, bit_cleared by done. done. }
  destruct (IH nc y1 _ H1 C2) as (y'&h'&E&H'&Hy'&Hz&Hm); [lia|by rewrite C1|lia|]. exists y', h'. cbn [u_signal set_signal] in E. split; [exact E|].
  split; [by eapply words_ok_eq; [exact H'|..]|]. split; [done|]. split; [done|congruence].
Qed.

(** ** Any sequence of signal operations *)

Section events.
Context (procaddr : nat -> Z).

(** What the current process does with what it took: the end of a round of
    the loop of [userret]. *)
Definition deliver (core : bool) (p : nat) (r : sched * sigs * taken) : outcome (sched * sigs) :=
  let '(st, w, t) := r in
  match t with
  | Take sig =>
      if sig =? 0 then Ok (st, w)
      else
        q ← postsig core p sig w;
        match snd q with Handle _ _ => Ok (st, fst q) | Dies _ => exit_signals p st (fst q) end
  | _ => Ok (st, w)
  end.

(** An operation: sent from anywhere in the kernel, called by the current
    process, a round of its [userret], its return to [issignal] after a stop,
    or what the rest of the kernel does between two of them. *)
Inductive sigevent :=
| EPost (p : nat) (sig : Z)
| EGroup (pgrp sig : Z)
| EKill (pid signo : Z)
| EKillpg (pgrp signo : Z)
| ENosys
| ESigaction (signum : Z) (nsa : option (option sigact)) (osa : option bool) (sigtramp : Z)
| EProcmask (how : Z) (set : option (option Z)) (oset : option bool)
| EPending (set : option bool)
| ESuspend (set : option (option Z))
| ESuspendWoken (ret : Z)
| EWait (set : option (option Z)) (sig : option bool)
| EWaitTest (wanted : Z) (ok : bool)
| EAltstack (nss : option (option sigstk)) (oss : option bool)
| EStack (nss : option (option (Z * Z))) (oss : option bool)
| ETake (core : bool)
| EResume (sig : Z) (core : bool)
| ETraced (xmt : bool) (sig : Z) (core : bool)
| ESendsig (handler sig mask code : Z) (r : trapframe) (um : usermem) (m : memory)
| ESigreturn (um : usermem) (m : memory) (r : trapframe)
| EFault (um : usermem) (sp : Z)
| EExec
| EFork (child : nat)
| EExit
| EKernel (st' : sched) (ids' : list cproc) (allproc' : list nat) (pidhash' : list (list nat)).

Definition perform (e : sigevent) (st : sched) (w : sigs) : outcome (sched * sigs) :=
  match e, cur st with
  | EPost p sig, _ => psignal procaddr p sig st w
  | EGroup pgrp sig, _ => gsignal procaddr pgrp sig st w
  | EKernel st' ids' all' hash', _ => Ok (st', Sigs ids' all' hash' (words w) (us w))
  | EKill pid signo, Some me => kill procaddr me pid signo st w
  | EKillpg pgrp signo, Some me => killpg procaddr me pgrp signo st w
  | ENosys, Some me => nosys procaddr me st w
  | ESigaction signum nsa osa tramp, Some me => r ← sigaction me signum nsa osa tramp st w; Ok (fst r)
  | EProcmask how set oset, Some me => Ok (st, fst (sigprocmask me how set oset w))
  | EPending set, Some me => Ok (st, fst (sigpending me set w))
  | ESuspend set, Some me => Ok (st, sigsuspend me set w)
  | ESuspendWoken ret, Some me => Ok (st, fst (sigsuspend_woken me ret w))
  | EWait set sig, Some me => Ok (st, fst (sigwait me set sig w))
  | EWaitTest wanted ok, Some me => Ok (st, fst (sigwait_test me wanted ok w))
  | EAltstack nss oss, Some me => Ok (st, fst (sigaltstack me nss oss w))
  | EStack nss oss, Some me => Ok (st, fst (sigstack me nss oss w))
  | ETake core, Some me => r ← CURSIG procaddr me st w; deliver core me r
  | EResume sig core, Some me => r ← issignal_stopped procaddr me sig st w; deliver core me r
  | ETraced xmt sig core, Some me => r ← issignal_traced procaddr me xmt st (trace_sig w me sig); deliver core me r
  | ESendsig handler sig mask code r um m, Some me =>
      match sendsig handler sig mask code r (us w me) um m with
      | None => fatalsig procaddr me SIGILL st w
      | Some (_, _, u, _) => Ok (st, set_us w me u)
      end
  | ESigreturn um m r, Some me => let '(y, u, _) := sigreturn um m r (words w me) (us w me) in Ok (st, set_us (set_words w me y) me u)
  | EFault um sp, Some me => arm_fault procaddr me um sp st w
  | EExec, Some me => w ← execsigs me w; Ok (st, w)
  | EFork child, Some me => Ok (st, newproc_signals me child w)
  | EExit, Some me => exit_signals me st w
  | _, None => Ok (st, w)
  end.

(** A process past the first lines of [exit]. *)
Definition exiting (y : sigproc) : Prop := p_sigignore y = 0xffffffff.

(** A process is exiting, or its words agree with its actions. *)
Definition in_order (y : sigproc) (u : usig) : Prop := (exiting y /\ length (u_signal u) = 32%nat) \/ words_ok y u.

Lemma in_order_len y u : in_order y u -> length (u_signal u) = 32%nat.
Proof. intros [[_ ?]|[]]; done. Qed.
Lemma in_order_ok y u : in_order y u -> ~ exiting y -> words_ok y u.
Proof. by intros [[? _]|?]. Qed.

(** The current process is a user process that is not exiting. *)
Definition user_running (st : sched) (w : sigs) : Prop :=
  exists p, cur st = Some p /\ p ∈ allproc w /\ p <> 0%nat /\ ~ exiting (words w p).

(** The current process is not exiting; the swapper makes the first process. *)
Definition running (st : sched) (w : sigs) : Prop := exists p, cur st = Some p /\ p ∈ allproc w /\ ~ exiting (words w p).

(** What the kernel guarantees of an operation where it happens. *)
Definition allowed (e : sigevent) (st : sched) (w : sigs) : Prop :=
  match e with
  | EPost p sig => p ∈ allproc w /\ 1 <= sig <= 31
  | EGroup _ sig => 1 <= sig <= 31
  | EResume sig _ => user_running st w /\ 1 <= sig <= 31
  | ETraced _ sig _ => user_running st w /\ 0 <= sig <= 31
  | EFork child => running st w /\ child ∉ allproc w /\ tables_ok (length (sprocs st)) (newproc_signals (default 0%nat (cur st)) child w)
  | EKernel st' ids' all' hash' =>
      sched_inv None st' /\ quiet st' /\ (forall p, p ∈ all' -> p ∈ allproc w) /\
      tables_ok (length (sprocs st')) (Sigs ids' all' hash' (words w) (us w))
  | _ => user_running st w
  end.

(** At boot the swapper is alone and [siginit] has been called for it. *)
Definition boot_words : sigproc := Sigproc 0 0 0 0 0.
Definition boot_us : usig := Usig (replicate 32 0) (replicate 32 0) 0 0 0 0 (Sigstk 0 0 0) 0 0 0.
Definition boot_sigs (n : nat) : outcome sigs :=
  siginit 0 (Sigs (replicate (S n) (Cproc 0 0 0 0 0)) [0%nat] (replicate 16 []) (fun _ => boot_words) (fun _ => boot_us)).

Inductive reach (n : nat) : sched -> sigs -> Prop :=
| reach_boot w : boot_sigs n = Ok w -> reach n (boot_sched n) w
| reach_step st w e st' w' : reach n st w -> allowed e st w -> perform e st w = Ok (st', w') -> reach n st' w'.

(** *** The invariant *)

Record sig_inv (st : sched) (w : sigs) : Prop := {
  si_ready : ready st w;
  si_word : forall q, word31 (p_sig (words w q));
  si_live : forall p, p ∈ allproc w -> in_order (words w p) (us w p)
}.

(** What an event must come to. *)
Definition kept (st : sched) (o : outcome (sched * sigs)) : Prop := exists st' w', o = Ok (st', w') /\ sig_inv st' w' /\ eases st st'.

Lemma sig_inv_posts st w st' w' : sig_inv st w -> sched_inv None st' -> eases st st' -> posts w w' -> sig_inv st' w'.
Proof.
  intros [] H He Hp. constructor; [by eapply ready_after|intros q; by apply Hp|]. intros p Hin. rewrite (po_all _ _ Hp) in Hin.
  unfold in_order, exiting. rewrite (po_ignore _ _ Hp), (po_us _ _ Hp). destruct (si_live0 p Hin) as [?|Hw]; [by left|right].
  eapply words_ok_eq; [exact Hw|apply Hp|apply Hp|apply Hp|done..].
Qed.

Lemma kept_signal st w o : sig_inv st w -> signal_ok st w o -> kept st o.
Proof. intros Hi (st'&w'&->&?&?&_&?). exists st', w'. split; [done|]. split; [by eapply sig_inv_posts|done]. Qed.

(** The process [p] gets new words and a new u area. *)
Definition upd (w : sigs) (p : nat) (y : sigproc) (u : usig) : sigs := set_us (set_words w p y) p u.

Lemma upd_same w p y u : words (upd w p y u) p = y /\ us (upd w p y u) p = u.
Proof. unfold upd. cbn. by rewrite !fn_lookup_insert. Qed.

Lemma upd_other w p y u q : q <> p -> words (upd w p y u) q = words w q /\ us (upd w p y u) q = us w q.
Proof. intros Hq. unfold upd. cbn. by rewrite !fn_lookup_insert_ne by congruence. Qed.

Lemma sig_inv_upd st w p y u : sig_inv st w -> word31 (p_sig y) -> in_order y u -> sig_inv st (upd w p y u).
Proof.
  intros [[H1 H2 []] Hw Hl] Hy Ho. constructor; [constructor; [done|done|by constructor]| |].
  - intros q. destruct (decide (q = p)) as [->|Hq]; [by rewrite (proj1 (upd_same w p y u))|by rewrite (proj1 (upd_other w p y u q Hq))].
  - intros q Hin. destruct (decide (q = p)) as [->|Hq].
    + destruct (upd_same w p y u) as [-> ->]. done.
    + destruct (upd_other w p y u q Hq) as [-> ->]. by apply Hl.
Qed.

(** A step of [p] on its own words and u area; functions of the slot that
    agree give the same invariant. *)
Lemma sig_inv_own st w w' p : sig_inv st w -> ids w' = ids w -> allproc w' = allproc w -> pidhash w' = pidhash w ->
  (forall q, q <> p -> words w' q = words w q /\ us w' q = us w q) ->
  word31 (p_sig (words w' p)) -> in_order (words w' p) (us w' p) -> sig_inv st w'.
Proof.
  intros [[H1 H2 Ht] Hw Hl] E1 E2 E3 Ho Hy Hp. constructor; [constructor; [done|done|]| |].
  - destruct Ht. by constructor; rewrite ?E1, ?E2, ?E3.
  - intros q. destruct (decide (q = p)) as [->|Hq]; [done|]. destruct (Ho q Hq) as [-> _]. apply Hw.
  - intros q Hin. rewrite E2 in Hin. destruct (decide (q = p)) as [->|Hq]; [done|]. destruct (Ho q Hq) as [-> ->]. by apply Hl.
Qed.

(** Only [p]'s words and u area change. *)
Record own (p : nat) (w w' : sigs) : Prop := {
  own_ids : ids w' = ids w; own_all : allproc w' = allproc w; own_hash : pidhash w' = pidhash w;
  own_other : forall q, q <> p -> words w' q = words w q /\ us w' q = us w q
}.

Lemma own_refl p w : own p w w.
Proof. by constructor. Qed.

Lemma own_words p w w' y : own p w w' -> own p w (set_words w' p y).
Proof. intros []. constructor; [done..|]. intros q Hq. cbn. rewrite fn_lookup_insert_ne by congruence. auto. Qed.

Lemma own_us p w w' u : own p w w' -> own p w (set_us w' p u).
Proof. intros []. constructor; [done..|]. intros q Hq. cbn. rewrite fn_lookup_insert_ne by congruence. auto. Qed.

Lemma own_error p w w' e : own p w w' -> own p w (set_error w' p e).
Proof. apply own_us. Qed.

Lemma own_take p w w' m : own p w w' -> own p w (take_away w' p m).
Proof. apply own_words. Qed.

Lemma own_trans p w1 w2 w3 : own p w1 w2 -> own p w2 w3 -> own p w1 w3.
Proof.
  intros [] []. constructor; try congruence. intros q Hq. destruct (own_other0 q Hq), (own_other1 q Hq). split; congruence.
Qed.

#[local] Hint Resolve own_refl own_words own_us own_error own_take : sig.

Lemma words_at w p y : words (set_words w p y) p = y.
Proof. cbn. apply fn_lookup_insert. Qed.
Lemma us_at w p u : us (set_us w p u) p = u.
Proof. cbn. apply fn_lookup_insert. Qed.

(** Storing an error keeps whatever the words and actions satisfy. *)
Lemma error_at w p e : words (set_error w p e) p = words w p /\ (forall y, words_ok y (us w p) -> words_ok y (us (set_error w p e) p)).
Proof.
  split; [done|]. intros y H. unfold set_error. rewrite us_at. by eapply words_ok_eq; [exact H|..].
Qed.

Lemma sig_inv_me st w w' p : sig_inv st w -> own p w w' -> word31 (p_sig (words w' p)) ->
  in_order (words w' p) (us w' p) -> sig_inv st w'.
Proof. intros Hi [] Hy Hp. by eapply sig_inv_own. Qed.

(** An operation of [p] on itself alone, that ends with an error stored. *)
Lemma sig_inv_error st w w' p e : sig_inv st w -> own p w w' -> word31 (p_sig (words w' p)) -> words_ok (words w' p) (us w' p) ->
  sig_inv st (set_error w' p e).
Proof.
  intros Hi Ho Hy Hp. destruct (error_at w' p e) as [Ew Eu]. eapply sig_inv_me; [done|by apply own_error|by rewrite Ew|right; rewrite Ew; auto].
Qed.

(** Flags that are not the scheduler's may change. *)
Lemma sig_inv_flag st w p x f : sig_inv st w -> sprocs st !! p = Some x -> has f SLOAD = has (p_flag x) SLOAD -> has f P_SINTR = has (p_flag x) P_SINTR -> has f SSYS = has (p_flag x) SSYS ->
  sig_inv (set_procs st (<[p:=set_flag x f]> (sprocs st))) w /\ eases st (set_procs st (<[p:=set_flag x f]> (sprocs st))).
Proof.
  intros [Hr Hw Hl] Hx Hload Hsintr Hsys.
  assert (eases st (set_procs st (<[p:=set_flag x f]> (sprocs st)))) as He by (by apply (insert_eases st p x)).
  split; [|done]. constructor; [|done|done]. destruct Hr as [H Hq Ht]. constructor; [|by eapply quiet_eases|by rewrite (ea_len _ _ He)].
  rewrite <- (set_runrun_id (set_procs _ _)). apply (inv_same None st p x); try done.
Qed.

Lemma set_bit_has on x bit m : Z.land bit m = 0 -> has (set_bit on x bit) m = has x m.
Proof. intros. destruct on; [by apply has_lor|by apply has_ldiff]. Qed.

Section one.
Context (st : sched) (w : sigs) (p : nat) (Hinv : sig_inv st w) (Hcur : cur st = Some p) (Hlive : p ∈ allproc w) (Hn0 : p <> 0%nat).
Context (Hok : words_ok (words w p) (us w p)).

#[local] Definition Hw31 : word31 (p_sig (words w p)) := si_word _ _ Hinv p.

Lemma entry_of : exists x, sprocs st !! p = Some x.
Proof. apply (tables_proc _ w); [apply (rdy_tables _ _ (si_ready _ _ Hinv))|done]. Qed.

Lemma sigaction_kept signum nsa osa tramp : kept st (r ← sigaction p signum nsa osa tramp st w; Ok (fst r)).
Proof.
  unfold sigaction. set (w1 := set_us w p _).
  assert (words_ok (words w1 p) (us w1 p)) as Hok1.
  { unfold w1. rewrite us_at. by eapply words_ok_eq; [exact Hok|..]. }
  assert (own p w w1) as Ho1 by (unfold w1; auto with sig). pose proof Hw31 as Hw.
  assert (forall e (o : option sigact), kept st (r ← Ok (st, set_error w1 p e, o); Ok (fst r))) as Hret.
  { intros e o. exists st, (set_error w1 p e). split; [done|]. split; [by eapply sig_inv_error|done]. }
  destruct (Z.leb_spec signum 0); [apply Hret|]. destruct (Z.leb_spec NSIG signum); cbn [orb]; [apply Hret|]. unfold NSIG in *.
  destruct (bool_decide (is_Some nsa) && _) eqn:Ens; [apply Hret|]. destruct entry_of as [x Hx]. rewrite (rd_ok _ _ _ Hx). cbn [mbind outcome_bind].
  assert (exists old, (match osa with Some _ => a ← sigaction_old x (us w1 p) signum; Ok (Some a) | None => Ok None end) = Ok old) as [old ->].
  { destruct osa; [|by eexists]. unfold sigaction_old. pose proof (wo_len _ _ Hok1). pose proof (wo_mlen _ _ Hok1).
    destruct (lookup_lt_is_Some_2 (u_signal (us w1 p)) (Z.to_nat signum)) as [a Ha]; [lia|].
    destruct (lookup_lt_is_Some_2 (u_sigmask (us w1 p)) (Z.to_nat signum)) as [m Hm]; [lia|].
    rewrite (rdz_ok (u_signal (us w1 p)) signum a), (rdz_ok (u_sigmask (us w1 p)) signum m) by (done || lia). by eexists. }
  cbn [mbind outcome_bind].
  destruct nsa as [[sa|]|]; [|destruct osa as [[]|]; apply Hret..].
  assert (kept st (r ← (r ← setsigvec p signum sa st w1; Ok (fst r, set_error (snd r) p 0, old)); Ok (fst r))) as Hset; [|by destruct osa as [[]|]].
  destruct (setsigvec_ok p signum sa st w1 x) as (st'&w2&->&Hst'&(y&u&->&Hok2&Hw2)); [done|done|lia|by intros ->|by intros ->|done|].
  cbn [mbind outcome_bind fst snd]. eexists _, _. split; [done|].
  assert (sig_inv st (set_error (set_us (set_words w1 p y) p u) p 0)) as Hi.
  { apply (sig_inv_error st w _ p 0); [done|auto with sig|cbn; by rewrite fn_lookup_insert|cbn; by rewrite !fn_lookup_insert]. }
  destruct Hst' as [->|(f&->&->)]; [done|]. apply sig_inv_flag; [done|done|by apply set_bit_has..].
Qed.

Lemma sigprocmask_kept how set oset : sig_inv st (fst (sigprocmask p how set oset w)).
Proof.
  unfold sigprocmask. pose proof Hw31 as Hw.
  assert (forall m e, no_cant m -> sig_inv st (set_error (set_words w p (set_sigmask (words w p) m)) p e)) as Hset.
  { intros m e Hm. apply (sig_inv_error st w); [done|auto with sig|by rewrite words_at|]. rewrite words_at. by apply words_ok_mask. }
  assert (forall e, sig_inv st (set_error w p e)) as Hret by (intros e; apply (sig_inv_error st w); auto with sig).
  pose proof (wo_mask _ _ Hok).
  assert (exists w1 e1, (match set with None => (w, 0) | Some None => (w, EFAULT)
    | Some (Some newmask) =>
        if how =? SIG_BLOCK then (set_words w p (set_sigmask (words w p) (Z.lor (p_sigmask (words w p)) (Z.ldiff newmask sigcantmask))), 0)
        else if how =? SIG_UNBLOCK then (set_words w p (set_sigmask (words w p) (Z.ldiff (p_sigmask (words w p)) newmask)), 0)
        else if how =? SIG_SETMASK then (set_words w p (set_sigmask (words w p) (Z.ldiff newmask sigcantmask)), 0)
        else (w, SIG_EINVAL) end) = (w1, e1) /\ forall e, sig_inv st (set_error w1 p e)) as (w1&e1&->&H1).
  { destruct set as [[m|]|]; [|by eexists _, _..]. repeat case_bool; eexists _, _; (split; [done|]); intros e0; auto with sig. }
  destruct oset as [[]|]; [destruct (e1 =? 0)..|]; apply H1.
Qed.

Lemma sigpending_kept set : sig_inv st (fst (sigpending p set w)).
Proof. pose proof Hw31. destruct set as [[]|]; apply (sig_inv_error st w); auto with sig. Qed.

Lemma sigsuspend_kept set : sig_inv st (sigsuspend p set w).
Proof.
  pose proof Hw31 as Hw. unfold sigsuspend. apply (sig_inv_me st w _ p); [done|auto with sig|cbn; by rewrite fn_lookup_insert|right].
  rewrite us_at. cbn [words set_us]. rewrite words_at. pose proof (wo_mask _ _ Hok) as Hm. destruct Hok. constructor; cbn; try done; auto with sig.
Qed.

Lemma sigwait_kept set sig : sig_inv st (fst (sigwait p set sig w)).
Proof. pose proof Hw31. destruct set as [[m|]|], sig as [b|]; try done; apply (sig_inv_error st w); auto with sig. Qed.

Lemma take_kept m e : sig_inv st (set_error (take_away w p m) p e).
Proof.
  pose proof Hw31. apply (sig_inv_error st w); [done|auto with sig|unfold take_away; rewrite words_at; cbn; word31|].
  unfold take_away. rewrite words_at. by eapply words_ok_eq; [exact Hok|..].
Qed.

Lemma sigwait_test_kept wanted ok : sig_inv st (fst (sigwait_test p wanted ok w)).
Proof.
  pose proof Hw31. unfold sigwait_test. destruct (_ =? 0); [done|]. destruct (has _ _); [apply (sig_inv_error st w); auto with sig|].
  destruct ok; apply take_kept.
Qed.

(** Changing the alternate stack and its flag. *)
Lemma stack_kept k f e : sig_inv st (set_error (set_us w p (set_sigstk (set_psflags (us w p) f) k)) p e).
Proof.
  pose proof Hw31. apply (sig_inv_error st w); [done|auto with sig|done|]. rewrite us_at. by eapply words_ok_eq; [exact Hok|..].
Qed.

Lemma error_kept e : sig_inv st (set_error w p e).
Proof. pose proof Hw31. apply (sig_inv_error st w); auto with sig. Qed.

Lemma sigaltstack_kept nss oss : sig_inv st (fst (sigaltstack p nss oss w)).
Proof.
  unfold sigaltstack. set (k := if negb _ then _ else _). set (w1 := set_us w p (set_sigstk (us w p) k)).
  assert (forall k f e, sig_inv st (set_error (set_us w1 p (set_sigstk (set_psflags (us w1 p) f) k)) p e)) as Hst.
  { intros k' f e. pose proof Hw31. apply (sig_inv_error st w); [done|unfold w1; auto with sig|done|]. unfold w1. rewrite !us_at.
    by eapply words_ok_eq; [exact Hok|..]. }
  assert (forall e, sig_inv st (set_error w1 p e)) as Hret.
  { intros e. pose proof Hw31. apply (sig_inv_error st w); [done|unfold w1; auto with sig|done|]. unfold w1. rewrite us_at. by eapply words_ok_eq; [exact Hok|..]. }
  destruct oss as [[]|], nss as [[ss|]|]; try apply Hret.
  all: destruct (has (ss_flags ss) SA_DISABLE); [destruct (has (ss_flags k) SA_ONSTACK); [apply Hret|apply Hst]|].
  all: destruct (_ <? _); [apply Hret|apply Hst].
Qed.

Lemma sigstack_kept nss oss : sig_inv st (fst (sigstack p nss oss w)).
Proof.
  unfold sigstack. destruct oss as [[]|], nss as [[[sp on]|]|]; try apply error_kept; apply stack_kept.
Qed.

Lemma postsig_ok core sig : 1 <= sig <= 31 -> exists w' q, postsig core p sig w = Ok (w', q) /\ sig_inv st w' /\ allproc w' = allproc w.
Proof.
  intros Hs. pose proof Hw31 as Hw. unfold postsig. set (w1 := take_away w p (sigmask sig)).
  assert (own p w w1) as Ho by (unfold w1; auto with sig).
  assert (words_ok (words w1 p) (us w1 p) /\ word31 (p_sig (words w1 p))) as [Hok1 Hw1].
  { unfold w1, take_away. rewrite words_at. split; [by eapply words_ok_eq; [exact Hok|..]|]. cbn. word31. }
  pose proof (wo_len _ _ Hok1) as Hl. pose proof (wo_mlen _ _ Hok1) as Hml.
  destruct (lookup_lt_is_Some_2 (u_signal (us w1 p)) (Z.to_nat sig)) as [a Ha]; [lia|].
  destruct (lookup_lt_is_Some_2 (u_sigmask (us w1 p)) (Z.to_nat sig)) as [m Hm]; [lia|].
  rewrite (rdz_ok (u_signal (us w1 p)) sig a) by (done || lia). cbn [mbind outcome_bind]. destruct (Z.eqb_spec a SIG_DFL) as [Ea|Ea]; cbn [negb].
  { rewrite rdz_sigprop by lia. cbn [mbind outcome_bind]. eexists w1, _. split; [done|]. split; [|done]. by eapply sig_inv_me; [done|..|right]. }
  set (ur := if has _ _ then _ else _).
  assert (u_signal (fst ur) = u_signal (us w1 p) /\ u_sigmask (fst ur) = u_sigmask (us w1 p) /\ u_oldmask (fst ur) = u_oldmask (us w1 p)) as (E1&E2&E3)
    by (unfold ur; by destruct (has _ _)).
  destruct ur as [u rm]. cbn [fst] in *. rewrite (rdz_ok (u_sigmask u) sig m) by (rewrite ?E2; done || lia). cbn [mbind outcome_bind].
  eexists _, _. split; [done|]. split; [|done]. apply (sig_inv_me st w _ p); [done|auto with sig|rewrite words_at || cbn; rewrite fn_lookup_insert; done|right].
  rewrite us_at. cbn [words set_us]. rewrite words_at.
  eapply (words_ok_eq (set_sigmask (words w1 p) (Z.lor (p_sigmask (words w1 p)) (Z.lor m (sigmask sig)))) (us w1 p)); try done.
  apply words_ok_mask; [done|]. apply no_cant_lor; [apply Hok1|]. apply no_cant_lor.
  - pose proof (wo_masks _ _ Hok1) as Hf. rewrite Forall_lookup in Hf. by apply (Hf (Z.to_nat sig)).
  - (* a caught signal is neither SIGKILL nor SIGSTOP *)
    assert (action_of (us w1 p) sig = a) as Hact by (unfold action_of; by rewrite Ha).
    pose proof (wo_kill _ _ Hok1) as Hkill. pose proof (wo_stop _ _ Hok1) as Hstop.
    assert (sig <> SIGKILL) as Hk by (intros ->; congruence). assert (sig <> SIGSTOP) as Hst by (intros ->; congruence).
    unfold no_cant. change sigcantmask with (Z.lor (sigmask SIGKILL) (sigmask SIGSTOP)). rewrite Z.land_lor_distr_r.
    apply Z.lor_eq_0_iff. unfold SIGKILL, SIGSTOP in *.
    split; apply Z.bits_inj'; intros i Hi; rewrite Z.land_spec, Z.bits_0, !sigmask_bit by lia; destruct (Z.eqb_spec i (sig - 1)); cbn [andb]; try done; apply Z.eqb_neq; lia.
Qed.

Lemma sigreturn_kept um m r : let '(y, u, _) := sigreturn um m r (words w p) (us w p) in sig_inv st (set_us (set_words w p y) p u).
Proof.
  destruct (sigreturn um m r (words w p) (us w p)) as [[y u] r'] eqn:E. pose proof Hw31 as Hw.
  assert (word31 (p_sig y) /\ words_ok y u) as [Hy Hu].
  { unfold sigreturn in E.
    repeat match type of E with context [match ?x with _ => _ end] => destruct x end; injection E as <- <- _;
      (split; [done|]); try (by eapply words_ok_eq; [exact Hok|..]).
    all: eapply words_ok_eq; [apply words_ok_mask; [exact Hok|apply no_cant_ldiff]|..]; reflexivity. }
  apply (sig_inv_upd st w p y u); [done|done|by right].
Qed.

Lemma newproc_kept child : child ∉ allproc w -> tables_ok (length (sprocs st)) (newproc_signals p child w) -> sig_inv st (newproc_signals p child w).
Proof.
  intros Hn Ht. pose proof Hinv as [[H1 H2 _] Hw Hl]. constructor; [by constructor| |].
  - intros q. unfold newproc_signals. cbn. destruct (decide (q = child)) as [->|Hq].
    + rewrite fn_lookup_insert. apply Hw.
    + rewrite fn_lookup_insert_ne by congruence. apply Hw.
  - intros q Hq. unfold newproc_signals in *. cbn in *. destruct (decide (q = child)) as [->|Hne].
    + rewrite !fn_lookup_insert. right. by eapply words_ok_eq; [exact Hok|..].
    + apply elem_of_cons in Hq as [?|Hq]; [done|]. rewrite !fn_lookup_insert_ne by congruence. by apply Hl.
Qed.

End one.

(** The first lines of [exit]; the process may be in any state of mind. *)
Lemma exit_kept st w p : sig_inv st w -> p ∈ allproc w -> kept st (exit_signals p st w).
Proof.
  intros Hi Hin. destruct (tables_proc _ w p (rdy_tables _ _ (si_ready _ _ Hi)) Hin) as [x Hx]. unfold exit_signals. rewrite (rd_ok _ _ _ Hx). cbn [mbind outcome_bind]. rewrite (put_ok _ p x) by done. cbn [mbind outcome_bind].
  eexists _, _. split; [done|]. apply sig_inv_flag; [|done|by apply has_ldiff..].
  apply (sig_inv_me st w _ p); [done|auto with sig|rewrite words_at; cbn; unfold word31; lia|left]. rewrite words_at. split; [done|]. by apply in_order_len with (words w p), Hi.
Qed.

(** The actions of a process before a signal is posted to it. *)
Lemma own_psignal st w w' p sig : (forall q, procaddr q <> 0) -> sig_inv st w -> sig_inv st w' -> allproc w' = allproc w -> p ∈ allproc w -> 1 <= sig <= 31 ->
  kept st (psignal procaddr p sig st w').
Proof.
  intros Hp Hi Hi' Ea Hin Hs. eapply kept_signal; [exact Hi'|]. apply psignal_ready; [done|apply Hi'|by rewrite Ea|done].
Qed.

Context (Hproc : forall q, procaddr q <> 0).

Lemma deliver_kept st w core p r : sig_inv st w -> p ∈ allproc w -> p <> 0%nat -> words_ok (words w p) (us w p) ->
  taken_ok st w r -> kept st (r ← r; deliver core p r).
Proof.
  intros Hi Hin Hn0 Hok (st1&w1&t&->&H1&E1&P1&Ht). cbn [mbind outcome_bind]. unfold deliver.
  assert (sig_inv st1 w1) as Hi1 by (by eapply sig_inv_posts). destruct t as [s|s|]; [|by exists st1, w1..].
  destruct (Z.eqb_spec s 0); [by exists st1, w1|]. destruct Ht as [-> Hs].
  assert (words_ok (words w1 p) (us w1 p)) as Hok1.
  { rewrite (po_us _ _ P1). eapply words_ok_eq; [exact Hok|apply P1|apply P1|apply P1|done..]. }
  destruct (postsig_ok st w1 p Hi1 Hn0 Hok1 core s) as (w2&q&->&Hi2&Ea); [lia|]. cbn [mbind outcome_bind fst snd].
  destruct q; [by exists st, w2|]. apply exit_kept; [done|]. by rewrite Ea, (po_all _ _ P1).
Qed.

Section two.
Context (st : sched) (w : sigs) (p : nat) (Hinv : sig_inv st w) (Hcur : cur st = Some p) (Hlive : p ∈ allproc w) (Hn0 : p <> 0%nat).
Context (Hok : words_ok (words w p) (us w p)).

Lemma looking_me : looking p st w.
Proof. constructor; [apply Hinv|done|done|done|apply Hinv|apply Hok]. Qed.

Lemma called_kept o : called p st w o -> kept st o.
Proof.
  intros (st'&w'&e&->&H'&E'&_&P'). exists st', (set_error w' p e). split; [done|]. split; [|done].
  assert (sig_inv st' w') as Hi by (by eapply sig_inv_posts).
  apply (error_kept st' w' p Hi). rewrite (po_us _ _ P'). eapply words_ok_eq; [exact Hok|apply P'|apply P'|apply P'|done..].
Qed.

Lemma nosys_kept : kept st (nosys procaddr p st w).
Proof.
  unfold nosys. destruct (lookup_lt_is_Some_2 (u_signal (us w p)) (Z.to_nat SIGSYS)) as [a Ha]; [rewrite (wo_len _ _ Hok); vm_compute; lia|].
  rewrite (rdz_ok _ _ a) by (done || (unfold SIGSYS; lia)). cbn [mbind outcome_bind].
  apply (own_psignal st w); [done|done| |by destruct (_ || _)|done|unfold SIGSYS; lia]. destruct (_ || _); [|done]. by apply error_kept.
Qed.

(** A signal whose default is to end the process gets its default back. *)
Lemma reset_kept sig mask y : 1 <= sig <= 31 -> has (prop_of sig) SA_IGNORE = false -> no_cant mask -> word31 (p_sig y) ->
  p_sigmask y = mask -> p_sigignore y = Z.ldiff (p_sigignore (words w p)) (sigmask sig) ->
  word31 (p_sigcatch y) -> (forall r, 1 <= r <= 31 -> Z.testbit (p_sigcatch y) (r - 1) = if decide (r = sig) then false else Z.testbit (p_sigcatch (words w p)) (r - 1)) ->
  sig_inv st (set_us (set_words w p y) p (set_signal (us w p) (<[Z.to_nat sig:=SIG_DFL]> (u_signal (us w p))))).
Proof.
  intros Hs Hp Hm Hy Em Ei Hc31 Hc. apply (sig_inv_upd st w p); [done|done|right].
  apply (words_ok_action (words w p) (us w p) sig SIG_DFL y); try done; [by left| |by rewrite Em].
  intros r Hr. rewrite Ei, bit_cleared by done. case_decide; [|done]. unfold ignored. by rewrite Hp.
Qed.

Lemma fatalsig_kept : kept st (fatalsig procaddr p SIGILL st w).
Proof.
  unfold fatalsig. rewrite wrz_ok by (rewrite (wo_len _ _ Hok); unfold SIGILL; lia). cbn [mbind outcome_bind].
  assert (1 <= SIGILL <= 31) as Hs by (unfold SIGILL; lia).
  apply (own_psignal st w); try done. eapply reset_kept; try done.
  - apply no_cant_sub, Hok.
  - apply Hinv.
  - cbn. apply word31_ldiff, Hok.
  - intros r Hr. cbn [p_sigcatch]. by apply bit_cleared.
Qed.

Lemma arm_fault_kept um sp : kept st (arm_fault procaddr p um sp st w).
Proof.
  unfold arm_fault. set (psig := if _ || _ then SIGKILL else SIGSEGV).
  assert (1 <= psig <= 31 /\ has (prop_of psig) SA_IGNORE = false /\ psig <> SIGCONT) as (Hs&Hp&Hc) by (unfold psig; by destruct (_ || _)).
  destruct (lookup_lt_is_Some_2 (u_signal (us w p)) (Z.to_nat psig)) as [a Ha]; [rewrite (wo_len _ _ Hok); lia|].
  rewrite (rdz_ok _ _ a) by (done || lia). cbn [mbind outcome_bind].
  assert (action_of (us w p) psig = a) as Hact by (unfold action_of; by rewrite Ha).
  pose proof (wo_catch _ _ Hok psig Hs) as Hcatch. pose proof (wo_ignore _ _ Hok psig Hs) as Hign. rewrite Hact in Hcatch, Hign.
  destruct (Z.eqb_spec a SIG_IGN) as [Ea|Ea].
  - rewrite wrz_ok by (rewrite (wo_len _ _ Hok); lia). cbn [mbind outcome_bind]. apply (own_psignal st w); try done. eapply reset_kept; try done.
    + apply no_cant_sub, Hok.
    + apply Hinv.
    + apply Hok.
    + intros r Hr. cbn [p_sigcatch set_sigignore set_sigmask]. case_decide; [|done]. subst r. rewrite Hcatch, Ea. done.
  - cbn [mbind outcome_bind]. apply (own_psignal st w); try done. apply (sig_inv_upd st w p); [done|apply Hinv|right].
    eapply (words_ok_eq (set_sigmask (words w p) (Z.ldiff (p_sigmask (words w p)) (sigmask psig))) (us w p)); try done.
    + apply words_ok_mask; [done|]. apply no_cant_sub, Hok.
    + cbn. apply Z.bits_inj'. intros i Hi. rewrite Z.ldiff_spec, sigmask_bit by lia. destruct (Z.eqb_spec i (psig - 1)) as [->|]; [|by rewrite andb_true_r].
      rewrite Hign. unfold ignored. rewrite (proj2 (Z.eqb_neq _ _) Ea), Hp. by destruct (a =? SIG_DFL), (psig =? SIGCONT).
Qed.

Lemma execsigs_kept : kept st (w ← execsigs p w; Ok (st, w)).
Proof.
  assert (forall n, (32 <= n)%nat -> exists y' h', execsigs_loop n (words w p) (u_signal (us w p)) = Ok (y', h') /\
    words_ok y' (set_signal (us w p) h') /\ word31 (p_sig y') /\ p_sigcatch y' = 0 /\ p_sigmask y' = p_sigmask (words w p)) as Hn.
  { intros n Hn. apply (execsigs_loop_ok n 0); [done|apply Hinv|lia|lia|lia]. }
  unfold execsigs. destruct (Hn 33%nat) as (y'&h'&->&H'&Hy'&_); [lia|]. cbn [mbind outcome_bind fst snd].
  eexists _, _. split; [done|]. split; [|done]. apply (sig_inv_upd st w p); [done|done|right]. by eapply words_ok_eq; [exact H'|..].
Qed.

Lemma sendsig_kept handler sig mask code r um m : kept st
  (match sendsig handler sig mask code r (us w p) um m with
   | None => fatalsig procaddr p SIGILL st w
   | Some (_, _, u, _) => Ok (st, set_us w p u)
   end).
Proof.
  unfold sendsig. destruct (sendsig_frame (us w p) sig r) as [sfp flags]. destruct (_ && _); [by apply fatalsig_kept|].
  eexists _, _. split; [done|]. split; [|done]. apply (sig_inv_me st w _ p); [done|auto with sig|apply Hinv|right]. rewrite us_at. by eapply words_ok_eq; [exact Hok|..].
Qed.

End two.

Lemma perform_kept e st w : sig_inv st w -> allowed e st w ->
  exists st' w', perform e st w = Ok (st', w') /\ sig_inv st' w' /\ match e with EKernel _ _ _ _ => True | _ => eases st st' end.
Proof.
  intros Hi Ha.
  assert (user_running st w -> exists p, cur st = Some p /\ p ∈ allproc w /\ p <> 0%nat /\ words_ok (words w p) (us w p)) as Hme.
  { intros (p&?&Hin&?&?). exists p. split_and?; try done. by apply in_order_ok; [apply Hi|]. }
  destruct e; cbn [allowed] in Ha.
  1: { eapply kept_signal; [done|]. by apply psignal_ready; [|apply Hi|..]; destruct Ha. }
  1: { eapply kept_signal; [done|]. by apply gsignal_ok; [|apply Hi|]. }
  20: { destruct Ha as ((p&Hc&Hin&Hne)&Hn&Ht). unfold perform. rewrite Hc in *. eexists _, _. split; [done|]. split; [|done]. apply newproc_kept; try done.
    by apply in_order_ok; [apply Hi|]. }
  21: { destruct Ha as (H&Hq&Hsub&Ht). eexists _, _. split; [done|]. split; [|done]. destruct Hi as [_ Hw Hl]. constructor; [by constructor|done|].
    intros p Hin. apply Hl, Hsub, Hin. }
  all: assert (user_running st w) as Hu by (first [exact Ha|by destruct Ha]); destruct (Hme Hu) as (p&Hc&Hin&H0&Hok); unfold perform; rewrite Hc.
  - eapply called_kept; try done. apply kill_ok; [done|apply Hi|done].
  - eapply called_kept; try done. apply killpg_ok; [done|apply Hi|done].
  - by apply nosys_kept.
  - by apply sigaction_kept.
  - eexists _, _. split; [done|]. split; [|done]. by apply sigprocmask_kept.
  - eexists _, _. split; [done|]. split; [|done]. by apply sigpending_kept.
  - eexists _, _. split; [done|]. split; [|done]. by apply sigsuspend_kept.
  - eexists _, _. split; [done|]. split; [|done]. unfold sigsuspend_woken. destruct (ret =? 0); [done|]. by apply error_kept.
  - eexists _, _. split; [done|]. split; [|done]. by apply sigwait_kept.
  - eexists _, _. split; [done|]. split; [|done]. by apply sigwait_test_kept.
  - eexists _, _. split; [done|]. split; [|done]. by apply sigaltstack_kept.
  - eexists _, _. split; [done|]. split; [|done]. by apply sigstack_kept.
  - apply (deliver_kept st w); try done. apply CURSIG_ok; [done|]. by apply looking_me.
  - apply (deliver_kept st w); try done. apply issignal_stopped_ok; [done|]. by apply looking_me.
  - apply (deliver_kept st w); try done. eapply taken_after; [apply issignal_traced_ok; [done|eapply looking_posts; [by apply looking_me|apply posts_trace]|]|apply posts_trace].
    unfold trace_sig. rewrite words_at. cbn. destruct Ha as [_ Hs]. rewrite trunc_small by lia. done.
  - by apply sendsig_kept.
  - pose proof (sigreturn_kept st w p Hi Hok um m r) as Hk. destruct (sigreturn um m r (words w p) (us w p)) as [[y u] r']. eexists _, _. by split.
  - by apply arm_fault_kept.
  - by apply execsigs_kept.
  - by apply exit_kept.
Qed.

End events.

(** The signals ignored by default, but SIGCONT: those [siginit] sets. *)
Definition default_ignored : Z := Z.lor (sigmask 16) (Z.lor (sigmask 20) (Z.lor (sigmask 23) (Z.lor (sigmask 28) (sigmask 29)))).

Lemma boot_sigs_eq n : boot_sigs n =
  Ok (set_words (Sigs (replicate (S n) (Cproc 0 0 0 0 0)) [0%nat] (replicate 16 []) (fun _ => boot_words) (fun _ => boot_us)) 0 (Sigproc 0 0 default_ignored 0 0)).
Proof. unfold boot_sigs, siginit. cbn [words]. assert (siginit_loop (Z.to_nat NSIG) 0 (p_sigignore boot_words) = Ok default_ignored) as -> by (by vm_compute). done. Qed.

Lemma boot_words_ok : words_ok (Sigproc 0 0 default_ignored 0 0) boot_us.
Proof.
  assert (forall s, 1 <= s <= 31 -> action_of boot_us s = 0) as Ha.
  { intros s Hs. unfold action_of. cbn [u_signal boot_us]. rewrite lookup_replicate_2 by lia. done. }
  constructor; try done.
  - intros s Hs. rewrite Ha by done. apply Z.bits_0.
  - intros s Hs. rewrite Ha by done. cbn [p_sigignore]. apply eqb_prop. revert s Hs. by apply all_signals; vm_compute.
  - by repeat constructor.
Qed.

Lemma boot_sig_inv n w : boot_sigs n = Ok w -> sig_inv (boot_sched n) w.
Proof.
  rewrite boot_sigs_eq. intros [= <-]. constructor.
  - constructor; [apply boot_sched_inv| |].
    + intros [|p] x Hx _; cbn in Hx; [by injection Hx as <-|]. by apply lookup_replicate_1 in Hx as [-> _].
    + constructor; cbn [ids allproc pidhash set_words].
      * unfold boot_sched. cbn [sprocs]. change (S (length (replicate n (Cproc 0 0 0 0 0))) = S (length (replicate n free_sproc))). by rewrite !length_replicate.
      * intros p ->%list_elem_of_singleton. unfold boot_sched. cbn. lia.
      * intros p i ->%list_elem_of_singleton. done.
      * intros p me ->%list_elem_of_singleton. destruct me; by eexists.
      * done.
      * intros h c p Hh Hp. change (replicate 16 (@nil nat) !! h = Some c) in Hh. apply lookup_replicate_1 in Hh as [-> _]. by apply not_elem_of_nil in Hp.
  - intros q. destruct (decide (q = 0%nat)) as [->|Hq]; [by rewrite words_at|]. cbn. by rewrite fn_lookup_insert_ne by congruence.
  - intros p ->%list_elem_of_singleton. right. rewrite words_at. apply boot_words_ok.
Qed.

Lemma reach_inv procaddr n st w : (forall q, procaddr q <> 0) -> reach procaddr n st w -> sig_inv st w.
Proof.
  intros Hp. induction 1 as [w E|st w e st' w' _ IH Ha E]; [by apply (boot_sig_inv n)|].
  destruct (perform_kept procaddr Hp e st w IH Ha) as (st2&w2&E2&Hi&_). rewrite E in E2. by injection E2 as -> ->.
Qed.

(** C23. Whatever signals are sent, by whomever, and whatever calls the
    processes make: no operation panics, faults or fails to end, the queues
    of the scheduler stay in order, and for every process that is not
    exiting the words [psignal] reads agree with the actions it set: a
    signal's bit of [p_sigcatch] is on exactly when it has a handler, that of
    [p_sigignore] exactly when it is ignored, by action or by default, and
    is not SIGCONT; SIGKILL and SIGSTOP have their default action and are
    never held. *)
Theorem signal_words procaddr n st w : (forall q, procaddr q <> 0) -> reach procaddr n st w ->
  sched_inv None st /\
  (forall p, p ∈ allproc w -> p_sigignore (words w p) <> 0xffffffff ->
     (forall s, 1 <= s <= 31 ->
        Z.testbit (p_sigcatch (words w p)) (s - 1) = caught (action_of (us w p) s) /\
        Z.testbit (p_sigignore (words w p)) (s - 1) = ignored s (action_of (us w p) s)) /\
     action_of (us w p) SIGKILL = SIG_DFL /\ action_of (us w p) SIGSTOP = SIG_DFL /\ Z.land (p_sigmask (words w p)) sigcantmask = 0) /\
  forall e, allowed e st w -> exists st' w', perform procaddr e st w = Ok (st', w').
Proof.
  intros Hp Hr. pose proof (reach_inv procaddr n st w Hp Hr) as Hi. split; [apply Hi|]. split.
  - intros p Hin Hne. assert (words_ok (words w p) (us w p)) as Hok by (by apply in_order_ok; [apply Hi|]). split; [|split; [apply Hok|split; [apply Hok|apply Hok]]].
    intros s Hs. split; [by apply Hok|by apply Hok].
  - intros e Ha. destruct (perform_kept procaddr Hp e st w Hi Ha) as (st'&w'&E&_). by exists st', w'.
Qed.

(** *** A concrete run *)

(** The tables are checked by evaluation. *)
Definition tables_okb (n : nat) (w : sigs) : bool :=
  let live p := bool_decide (p ∈ allproc w) in
  Nat.eqb (length (ids w)) n &&
  forallb (fun p => Nat.ltb p n) (allproc w) &&
  forallb (fun p => match ids w !! p with Some i => Nat.eqb p 0 || (live (c_pptr i) && negb (Nat.eqb (c_pptr i) p)) | None => true end) (allproc w) &&
  forallb (fun p => match inferior (length (ids w)) (ids w) p n with Ok false => true | _ => false end) (allproc w) &&
  Nat.eqb (length (pidhash w)) 16 && forallb (forallb live) (pidhash w).

Lemma inferior_root fuel tab p q me : inferior fuel tab p q = Ok false -> exists b, inferior fuel tab p me = Ok b.
Proof.
  revert p. induction fuel as [|fuel IH]; intros p H; cbn [inferior] in *; (destruct (Nat.eqb p me); [by eexists|]); destruct (Nat.eqb p q); try done.
  destruct (rd tab p); [|done..]. cbn [mbind outcome_bind] in *. destruct (c_ppid a =? 0); [by eexists|]. by apply IH.
Qed.

Lemma tables_okb_ok n w : tables_okb n w = true -> tables_ok n w.
Proof.
  unfold tables_okb. rewrite !andb_true_iff, !Nat.eqb_eq, !forallb_forall. setoid_rewrite <- list_elem_of_In.
  intros (((((H1&H2)&H3)&H4)&H5)&H6). constructor; try done.
  - intros p Hp. by apply Nat.ltb_lt, H2.
  - intros p i Hp Hp0 Hi. specialize (H3 p Hp). rewrite Hi in H3. apply orb_true_iff in H3 as [?%Nat.eqb_eq|H3]; [done|].
    apply andb_true_iff in H3 as [H3 Hne%negb_true_iff%Nat.eqb_neq]. by apply bool_decide_eq_true in H3.
  - intros p me Hp. specialize (H4 p Hp). destruct (inferior _ _ _ _) as [[]| |] eqn:E; try done. by eapply inferior_root.
  - intros h c p Hc Hp. specialize (H6 c (list_elem_of_lookup_2 _ _ _ Hc)). rewrite forallb_forall in H6.
    by apply (bool_decide_eq_true_1 (p ∈ allproc w)), H6, list_elem_of_In.
Qed.

(** The swapper makes process 1, which makes process 2. The swapper sleeps;
    in the first state process 1 runs, in the second too while process 2
    sleeps interruptibly, and in the third it is the other way round. *)
Definition demo_proc0 : sproc := Sproc SSLEEP (Z.lor SLOAD SSYS) 20 0 0 0 0 0x2000 0 0.
Definition demo_asleep (chan : Z) : sproc := Sproc SSLEEP (Z.lor SLOAD P_SINTR) 30 0 0 0 0 chan 0 0.
Definition demo_runs : sproc := Sproc SRUN SLOAD 30 0 0 0 0 0 0 0.
Definition demo_state (q : list nat) (l : list sproc) (p : nat) : sched :=
  Sched (demo_proc0 :: l ++ replicate (3 - length l) free_sproc) (q :: replicate 15 []) [] 0 30 0 0 (Some p).
Definition first_state : sched := demo_state [0%nat] [demo_runs] 1.
Definition second_state : sched := demo_state [2; 0]%nat [demo_runs; demo_asleep 0x4000] 1.
Definition third_state : sched := demo_state [1; 0]%nat [demo_asleep 0x3000; demo_runs] 2.

Definition ids_of (l : list cproc) : list cproc := Cproc 0 0 0 0 0 :: l ++ replicate (3 - length l) (Cproc 0 0 0 0 0).
Definition init_id : cproc := Cproc 1 0 0 0 1.
Definition shell_id : cproc := Cproc 2 1 1 0 2.
Definition chains : list (list nat) := [] :: [1%nat] :: [2%nat] :: replicate 13 [].

Definition demo_sigs (l : list cproc) (all : list nat) (hash : list (list nat)) : sigs :=
  Sigs (ids_of l) all hash (<[0%nat:=Sigproc 0 0 default_ignored 0 0]> (fun _ => boot_words)) (fun _ => boot_us).

Lemma quiet_list st : forallb (fun x => negb (has (p_flag x) P_SINTR) || negb (p_wchan x =? A_RUNOUT)) (sprocs st) = true ->
  match sprocs st with x :: _ => has (p_flag x) P_SINTR = false | [] => True end -> quiet st.
Proof.
  intros H H0 p x Hx Hp. rewrite forallb_forall in H. specialize (H x (proj1 (list_elem_of_In _ _) (list_elem_of_lookup_2 _ _ _ Hx))).
  destruct Hp as [->|Hw]; [destruct (sprocs st); [done|]; by injection Hx as ->|].
  rewrite Hw, Z.eqb_refl in H. cbn in H. rewrite orb_false_r in H. by apply negb_true_iff in H.
Qed.

Section demo.
Context (procaddr : nat -> Z).

Lemma reach_kernel n st w st' w' : reach procaddr n st w -> sched_inv None st' -> quiet st' -> (forall p, p ∈ allproc w' -> p ∈ allproc w) ->
  words w' = words w -> us w' = us w -> tables_ok (length (sprocs st')) w' -> reach procaddr n st' w'.
Proof.
  intros Hr H Hq Hs Ew Eu Ht. destruct w' as [l all hash ws u]. cbn in *. subst ws u.
  by eapply (reach_step _ _ _ _ (EKernel st' l all hash)); [exact Hr|..].
Qed.

Lemma reach_fork n st w p child : reach procaddr n st w -> cur st = Some p -> p ∈ allproc w -> ~ exiting (words w p) -> child ∉ allproc w ->
  tables_ok (length (sprocs st)) (newproc_signals p child w) -> reach procaddr n st (newproc_signals p child w).
Proof.
  intros Hr Hc Hin He Hn Ht. eapply (reach_step _ _ _ _ (EFork child)); [exact Hr| |cbn; by rewrite Hc]. cbn. rewrite Hc. split; [by exists p|done].
Qed.

Definition demo1 : sigs := Sigs (ids_of [init_id]) [0%nat] (replicate 16 []) (<[0%nat:=Sigproc 0 0 default_ignored 0 0]> (fun _ => boot_words)) (fun _ => boot_us).
Definition demo2 : sigs := newproc_signals 0 1 demo1.
Definition demo3 : sigs := Sigs (ids_of [init_id; shell_id]) (allproc demo2) (replicate 16 []) (words demo2) (us demo2).
Definition demo4 : sigs := newproc_signals 1 2 demo3.
Definition demo5 : sigs := Sigs (ids demo4) (allproc demo4) chains (words demo4) (us demo4).

(** Closed facts about the demonstration states, by evaluation. *)
Ltac closed_fact := first [intros Hx; vm_compute in Hx; discriminate | apply (bool_decide_eq_false_1 _); vm_compute; reflexivity].

Lemma demo_reach : reach procaddr 3 second_state demo5.
Proof.
  assert (reach procaddr 3 (boot_sched 3) demo1) as H1.
  { eapply reach_kernel; [apply reach_boot, boot_sigs_eq|apply boot_sched_inv|apply quiet_list; by vm_compute|done|done|done|apply tables_okb_ok; by vm_compute]. }
  assert (reach procaddr 3 (boot_sched 3) demo2) as H2.
  { apply (reach_fork 3 (boot_sched 3) demo1 0 1); [exact H1|done|by left|closed_fact|closed_fact|apply tables_okb_ok; by vm_compute]. }
  assert (reach procaddr 3 first_state demo3) as H3.
  { eapply reach_kernel; [exact H2|apply sched_invb_ok; by vm_compute|apply quiet_list; by vm_compute|done|done|done|apply tables_okb_ok; by vm_compute]. }
  assert (reach procaddr 3 first_state demo4) as H4.
  { apply (reach_fork 3 first_state demo3 1 2); [exact H3|by vm_compute|by left|closed_fact|closed_fact|apply tables_okb_ok; by vm_compute]. }
  eapply reach_kernel; [exact H4|apply sched_invb_ok; by vm_compute|apply quiet_list; by vm_compute|done|done|done|apply tables_okb_ok; by vm_compute].
Qed.

End demo.

Definition demo_addr (p : nat) : Z := 0x5000 + 64 * Z.of_nat p.

Lemma signal_words_witness : exists st' w', perform demo_addr (EKill 2 SIGSTOP) second_state demo5 = Ok (st', w') /\
  option_map p_stat (sprocs st' !! 2%nat) = Some SSTOP.
Proof.
  destruct (signal_words demo_addr 3 second_state demo5) as (_&_&H); [unfold demo_addr; lia|apply demo_reach|].
  destruct (H (EKill 2 SIGSTOP)) as (st'&w'&E).
  { exists 1%nat. split; [done|]. split; [by right; left|]. by split. }
  exists st', w'. split; [exact E|]. vm_compute in E. by injection E as <- <-.
Defined.

(** *** SIGKILL *)

Lemma kill_deliverable x y u : words_ok y u -> Z.testbit (p_sig y) 8 = true -> Z.testbit (deliverable x y) 8 = true.
Proof.
  intros Hok Hb. assert (Z.testbit (p_sigmask y) 8 = false) as Hm.
  { pose proof (wo_mask _ _ Hok) as Hc. assert (Z.testbit (Z.land (p_sigmask y) sigcantmask) 8 = false) as Hz by (rewrite Hc; done).
    rewrite Z.land_spec in Hz. change (Z.testbit sigcantmask 8) with true in Hz. by rewrite andb_true_r in Hz. }
  unfold deliverable. destruct (has _ _); rewrite ?Z.ldiff_spec, Hb, Hm; done.
Qed.

Lemma kill_fate x y u i : words_ok y u -> 1 < c_pid i -> fate x y u i SIGKILL = Give.
Proof.
  intros Hok Hpid. unfold fate. rewrite (wo_ignore _ _ Hok SIGKILL) by (unfold SIGKILL; lia). unfold switch_verdict. rewrite (wo_kill _ _ Hok).
  change (ignored SIGKILL SIG_DFL) with false. change (SIG_DFL =? SIG_DFL) with true. cbv iota. by destruct (Z.leb_spec (c_pid i) 1); [lia|].
Qed.

(** Only signals above SIGKILL stop a process. *)
Lemma stops_above x u i s : 1 <= s <= 31 -> switch_verdict x u i s = Stopped -> SIGKILL < s.
Proof.
  intros Hs. unfold switch_verdict. destruct (_ =? SIG_DFL); [|by destruct (_ =? SIG_IGN)]. destruct (c_pid i <=? 1); [done|].
  destruct (has (prop_of s) SA_STOP) eqn:E; [|by destruct (has _ SA_IGNORE)]. intros _.
  assert (implb (has (prop_of s) SA_STOP) (SIGKILL <? s) = true) as H by (revert s Hs E; intros s Hs _; revert s Hs; apply all_signals; by vm_compute).
  rewrite E in H. by apply Z.ltb_lt.
Qed.

(** SIGKILL is neither held, caught nor ignored. *)
Lemma kill_action x y u : words_ok y u -> sig_action x y (sigmask SIGKILL) = SIG_DFL /\ Z.testbit (p_sigignore y) (SIGKILL - 1) = false.
Proof.
  intros Hok. split; [|rewrite (wo_ignore _ _ Hok) by (unfold SIGKILL; lia); by rewrite (wo_kill _ _ Hok)].
  unfold sig_action. destruct (has (p_flag x) P_TRACED); [done|].
  rewrite !has_sigmask by (unfold SIGKILL; lia). rewrite (wo_catch _ _ Hok) by (unfold SIGKILL; lia). rewrite (wo_kill _ _ Hok).
  destruct (Z.testbit (p_sigmask y) (SIGKILL - 1)) eqn:Em; [|done].
  pose proof (wo_mask _ _ Hok) as Hc. assert (Z.testbit (Z.land (p_sigmask y) sigcantmask) 8 = false) as Hz by (rewrite Hc; done).
  rewrite Z.land_spec in Hz. change 8 with (SIGKILL - 1) in Hz. rewrite Em in Hz. done.
Qed.

Lemma psignal_kill procaddr st w p x : sched_inv None st -> words_ok (words w p) (us w p) -> sprocs st !! p = Some x -> has (p_flag x) P_TRACED = false ->
  exists st' w' x', psignal procaddr p SIGKILL st w = Ok (st', w') /\ Z.testbit (p_sig (words w' p)) (SIGKILL - 1) = true /\
    sprocs st' !! p = Some x' /\ (p_stat x = SSTOP \/ (p_stat x = SSLEEP /\ has (p_flag x) P_SINTR = true) -> p_stat x' = SRUN).
Proof.
  intros Hs Hok Hx Hnt. destruct (kill_action x _ _ Hok) as [Hact Hig].
  unfold psignal, psignal_with. change ((SIGKILL <? 1) || (32 <? SIGKILL)) with false. cbv iota zeta.
  rewrite rdz_sigprop by (unfold SIGKILL; lia). cbn [mbind outcome_bind]. rewrite (rd_ok _ _ _ Hx). cbn [mbind outcome_bind].
  rewrite has_sigmask by (unfold SIGKILL; lia). rewrite Hig, andb_false_r, Hact.
  change (prop_of SIGKILL) with SA_KILL. change (has SA_KILL SA_CONT) with false. change (has SA_KILL SA_STOP) with false. cbn [andb].
  set (x1 := if _ && _ then _ else x). assert (same_sched x x1 /\ p_flag x1 = p_flag x) as [Hsame Hf] by (unfold x1; by destruct (_ && _)).
  destruct (put_inv st p x x1 Hs Hx Hsame) as (st1&->&Hs1&_&Hx1). cbn [mbind outcome_bind]. set (w1 := set_words w p _).
  assert (Z.testbit (p_sig (words w1 p)) (SIGKILL - 1) = true) as Hb.
  { unfold w1. rewrite words_at. cbn [p_sig set_sig]. rewrite bit_other by (unfold SIGKILL; lia). by rewrite decide_True. }
  change (SIG_DFL =? SIG_HOLD) with false. cbn [andb]. destruct Hsame as (S1&_&_). rewrite S1.
  destruct (Z.eqb_spec (p_stat x) SSLEEP) as [Es|Es]; [|destruct (Z.eqb_spec (p_stat x) SSTOP) as [Et|Et]].
  + unfold psignal_asleep. rewrite (rd_ok _ _ _ Hx1). cbn [mbind outcome_bind]. rewrite Hf, Hnt. change (has SA_KILL SA_CONT) with false. change (has SA_KILL SA_STOP) with false.
    cbn [andb]. destruct (has (p_flag x) P_SINTR) eqn:Ei; cbn [negb].
    * destruct (psignal_run_ok st1 w1 p x1 Hs1 Hx1) as (st2&x2&->&_&_&Hx2&Hr2); [rewrite S1; auto|]. by exists st2, w1, x2.
    * exists st1, w1, x1. split_and?; try done. intros [E|[_ ?]]; [|done]. rewrite Es in E. done.
  + unfold psignal_stopped. rewrite (rd_ok _ _ _ Hx1). cbn [mbind outcome_bind]. rewrite Hf, Hnt. change (SIGKILL =? SIGKILL) with true. cbv iota.
    destruct (psignal_run_ok st1 w1 p x1 Hs1 Hx1) as (st2&x2&->&_&_&Hx2&Hr2); [rewrite S1; auto|]. by exists st2, w1, x2.
  + exists st1, w1, x1. split_and?; try done. intros [E|[E _]]; done.
Qed.

(** C24. SIGKILL cannot be escaped. Posted to a process that is neither
    traced nor already exiting, it is pending afterwards and a process that
    was stopped or asleep interruptibly is running; and while it is pending,
    the next look of a user process at its signals takes a signal, SIGKILL or
    one with a lower number, and does not stop, whatever actions and masks
    the process has set. *)
Theorem sigkill_certain procaddr n st w p x : (forall q, procaddr q <> 0) -> reach procaddr n st w ->
  p ∈ allproc w -> p_sigignore (words w p) <> 0xffffffff -> sprocs st !! p = Some x -> has (p_flag x) P_TRACED = false ->
  (exists st' w' x', psignal procaddr p SIGKILL st w = Ok (st', w') /\ Z.testbit (p_sig (words w' p)) (SIGKILL - 1) = true /\
     sprocs st' !! p = Some x' /\ (p_stat x = SSTOP \/ (p_stat x = SSLEEP /\ has (p_flag x) P_SINTR = true) -> p_stat x' = SRUN)) /\
  (forall i, cur st = Some p -> ids w !! p = Some i -> 1 < c_pid i -> p <> 0%nat -> Z.testbit (p_sig (words w p)) (SIGKILL - 1) = true ->
     exists w' s, issignal procaddr p st w = Ok (st, w', Take s) /\ 1 <= s <= SIGKILL).
Proof.
  intros Hp Hr Hin Hne Hx Hnt. pose proof (reach_inv procaddr n st w Hp Hr) as Hi.
  assert (words_ok (words w p) (us w p)) as Hok by (by apply in_order_ok; [apply Hi|]). pose proof (rdy_inv _ _ (si_ready _ _ Hi)) as Hs. split.
  - by apply psignal_kill.
  - intros i Hc Hid Hpid Hp0 Hb.
    destruct (issignal_took procaddr Hp p st w x i (looking_me st w p Hi Hc Hin Hp0 Hok) Hx Hid Hnt) as (st'&w'&t&E&_&Ht). rewrite E.
    pose proof (kill_deliverable x _ _ Hok Hb) as HD. pose proof (kill_fate x _ _ i Hok Hpid) as Hg.
    destruct t as [s|s|]; cbn [took] in Ht; [|exfalso|done].
    + destruct Ht as (->&[[-> Hall]|[(Hs1&_&_&Hlow) _]]&_); [specialize (Hall SIGKILL ltac:(done) HD); rewrite Hall in Hg; discriminate|]. exists w', s. split; [done|].
      destruct (Z.lt_ge_cases SIGKILL s); [|lia]. rewrite (Hlow SIGKILL ltac:(unfold SIGKILL in *; lia) HD) in Hg. discriminate.
    + destruct Ht as ((Hs1&_&_&Hlow)&Hstop&_). unfold fate in Hstop.
      destruct (Z.testbit (p_sigignore (words w p)) (s - 1)); [discriminate|]. apply stops_above in Hstop; [|done].
      rewrite (Hlow SIGKILL ltac:(unfold SIGKILL in *; lia) HD) in Hg. discriminate.
Qed.

Definition SIGTERM : Z := 15.

(** Operations one after the other, as long as they are allowed. *)
Definition allowedb (e : sigevent) (st : sched) (w : sigs) : bool :=
  match e with
  | EPost p sig => bool_decide (p ∈ allproc w /\ 1 <= sig <= 31)
  | EGroup _ _ | EResume _ _ | ETraced _ _ _ | EFork _ | EKernel _ _ _ _ => false
  | _ => match cur st with Some p => bool_decide (p ∈ allproc w /\ p <> 0%nat /\ p_sigignore (words w p) <> 0xffffffff) | None => false end
  end.

Fixpoint demo_run (es : list sigevent) (s : sched * sigs) : sched * sigs :=
  match es with
  | [] => s
  | e :: es' =>
      if allowedb e (fst s) (snd s) then match perform demo_addr e (fst s) (snd s) with Ok s' => demo_run es' s' | _ => s end else s
  end.

Lemma allowedb_ok e st w : allowedb e st w = true -> allowed e st w.
Proof.
  destruct e; cbn [allowedb allowed]; unfold user_running; try done; try (by intros Hb; apply bool_decide_eq_true_1 in Hb);
    (destruct (cur st) as [q|] eqn:E; [intros Hb; apply bool_decide_eq_true_1 in Hb as (?&?&?); by exists q|done]).
Qed.

Lemma demo_run_reach es s : reach demo_addr 3 (fst s) (snd s) -> reach demo_addr 3 (fst (demo_run es s)) (snd (demo_run es s)).
Proof.
  revert s. induction es as [|e es IH]; intros [st w] Hr; [done|]. cbn. destruct (allowedb e st w) eqn:Ea; [|done].
  destruct (perform demo_addr e st w) as [[st' w']| |] eqn:E; try done. apply IH. eapply reach_step; [exact Hr|by apply allowedb_ok|exact E].
Qed.

(** SIGTERM caught and held, SIGTERM and SIGKILL pending. *)
Definition demo_kill : sched * sigs :=
  demo_run [ESigaction SIGTERM (Some (Some (Sigact 0x20000101 0 0))) None 0; EProcmask SIG_BLOCK (Some (Some (sigmask SIGTERM))) None;
            EPost 2 SIGTERM; EPost 2 SIGKILL] (third_state, demo5).

Lemma demo_reach3 : reach demo_addr 3 third_state demo5.
Proof.
  eapply (reach_kernel demo_addr 3 second_state demo5);
    [apply demo_reach|apply sched_invb_ok; by vm_compute|apply quiet_list; by vm_compute|done|done|done|apply tables_okb_ok; by vm_compute].
Qed.

Lemma demo_kill_reach : reach demo_addr 3 (fst demo_kill) (snd demo_kill).
Proof. apply demo_run_reach, demo_reach3. Qed.

Lemma demo_kill_state : cur (fst demo_kill) = Some 2%nat /\ p_sig (words (snd demo_kill) 2%nat) = 0x4100 /\ p_sigmask (words (snd demo_kill) 2%nat) = 0x4000.
Proof. by vm_compute. Qed.

Definition demo_proc : sproc := default (Sproc 0 0 0 0 0 0 0 0 0 0) (sprocs (fst demo_kill) !! 2%nat).

Lemma sigkill_certain_witness : exists w' s, issignal demo_addr 2 (fst demo_kill) (snd demo_kill) = Ok (fst demo_kill, w', Take s) /\ 1 <= s <= SIGKILL.
Proof.
  destruct (sigkill_certain demo_addr 3 (fst demo_kill) (snd demo_kill) 2 demo_proc) as [_ H];
    [unfold demo_addr; lia|apply demo_kill_reach|apply (bool_decide_eq_true_1 _); by vm_compute|by vm_compute|by vm_compute|by vm_compute|].
  apply (H shell_id); by vm_compute.
Defined.

Lemma issignal_takes_lowest_witness : exists st' w' t, issignal demo_addr 2 (fst demo_kill) (snd demo_kill) = Ok (st', w', t) /\ sched_inv None st' /\
  took 2 0x100 (fate demo_proc (words (snd demo_kill) 2%nat) (us (snd demo_kill) 2%nat) shell_id) (fst demo_kill) (snd demo_kill) st' w' t.
Proof.
  apply (issignal_takes_lowest demo_addr) with (p := 2%nat) (st := fst demo_kill) (w := snd demo_kill) (x := demo_proc) (i := shell_id);
    [unfold demo_addr; lia| |by vm_compute..].
  pose proof (reach_inv demo_addr 3 _ _ ltac:(unfold demo_addr; lia) demo_kill_reach) as Hi.
  assert (2%nat ∈ allproc (snd demo_kill)) as Hin by (apply (bool_decide_eq_true_1 _); by vm_compute).
  apply looking_me; [done|by vm_compute|done|done|].
  apply in_order_ok; [by apply Hi|]. intros He. vm_compute in He. discriminate.
Defined.
