(* ===== verification/Sigsleep.v ===== *)
(** * Sleeping and signals ([tsleep] of [sys/kern/kern_synch.c] with the
    [CURSIG] of [kern_sig.c], and the loop of [sigwait])

    [Sched] models [tsleep] for any state of the signals; here it runs on the
    signals of [Signal]. A sleep that would be interrupted returns at once and
    leaves the queues as they were; the loop of [sigwait], which does not look
    at what [tsleep] returned, then never ends; and a stop signal found while
    the process is on its sleep queue can panic. *)
From stdpp Require Import functions.
From S2P Require Import Prelude Clock Sched Cred Signal Sigcall.

(** ** The loop of [sigwait] *)

Definition PPAUSE : Z := 40.

(** Where the loop is after some rounds: still going round, away from the
    processor, or past it. *)
Inductive waiting := Spinning | Away (how : slept) | Past (signo : option Z).

(** [chan] is the address of [u.u_signal[0]], [sigintr] reads [u.u_sigintr]. *)
Fixpoint sigwait_loop (procaddr : nat -> Z) (endtsleep chan : Z) (ok : bool) (fuel : nat) (p : nat) (wanted : Z) (st : sched) (w : sigs) (co : callouts)
  : outcome (sched * sigs * callouts * waiting) :=
  match fuel with
  | O => Ok (st, w, co, Spinning)
  | S fuel' =>
      let '(w, t) := sigwait_test p wanted ok w in
      match t with
      | WaitDone signo => Ok (st, w, co, Past signo)
      | WaitAgain =>
          r ← tsleep (tsleep_CURSIG procaddr) (fun p w => u_sigintr (us w p)) false endtsleep p chan (Z.lor PPAUSE PCATCH) 0 st w co;
          let '(st, w, co, how) := r in
          match how with
          | Returned _ => sigwait_loop procaddr endtsleep chan ok fuel' p wanted st w co
          | how => Ok (st, w, co, Away how)
          end
      end
  end.

(** ** A signal that is found *)

Section finding.
Context (procaddr : nat -> Z).

(** The signal [p] looks at first, for its entry [x]. *)
Definition first_signal (x : sproc) (w : sigs) (p : nat) : Z := ffs (deliverable x (words w p)).

(** [p] would find a signal whose fate is [v]. *)
Definition finds (p : nat) (x : sproc) (i : cproc) (w : sigs) (v : verdict) : Prop :=
  word31 (p_sig (words w p)) /\ length (u_signal (us w p)) = 32%nat /\ ids w !! p = Some i /\ has (p_flag x) P_TRACED = false /\
  deliverable x (words w p) <> 0 /\ fate x (words w p) (us w p) i (first_signal x w p) = v.

Lemma finds_flags p x x' i w v : has (p_flag x') P_TRACED = has (p_flag x) P_TRACED -> has (p_flag x') SVFORK = has (p_flag x) SVFORK ->
  finds p x i w v -> finds p x' i w v.
Proof.
  intros E1 E2 (H1&H2&H3&H4&H5&H6). assert (deliverable x' (words w p) = deliverable x (words w p)) as Ed by (unfold deliverable; by rewrite E2).
  unfold finds, first_signal in *. rewrite Ed, E1. do 5 (split; [done|]). rewrite <- H6. unfold fate, switch_verdict. by rewrite E1.
Qed.

Lemma finds_range p x i w v : finds p x i w v -> 1 <= first_signal x w p <= 31.
Proof. intros (H1&_&_&_&H5&_). apply ffs_spec, word31_pos; [by apply deliverable_word|done]. Qed.

(** [issignal] and [CURSIG] come to the [switch]. *)
Definition switched (n p : nat) (s : Z) (st : sched) (w : sigs) : outcome (sched * sigs * taken) :=
  r ← issignal_switch procaddr p s (prop_of s) st w;
  let '(st, w, v) := r in
  match v with
  | Give => Ok (st, w, Take s)
  | Stopped => Ok (st, w, Stops s)
  | Drop => issignal_loop procaddr n p st (take_away w p (sigmask s))
  end.

Lemma issignal_finds n p st w x i v : sprocs st !! p = Some x -> finds p x i w v -> v <> Drop ->
  issignal_loop procaddr (S n) p st w = switched n p (first_signal x w p) st w.
Proof.
  intros Hx Hf Hv. pose proof (finds_range _ _ _ _ _ Hf) as Hr. destruct Hf as (H1&H2&H3&H4&H5&H6). cbn [issignal_loop].
  rewrite (rd_ok _ _ _ Hx). cbn [mbind outcome_bind]. rewrite (proj2 (Z.eqb_neq _ _) H5). unfold first_signal in *.
  rewrite rdz_sigprop by lia. cbn [mbind outcome_bind]. rewrite (has_comm (sigmask _)), has_sigmask by lia.
  unfold fate in H6. set (b := Z.testbit (p_sigignore (words w p)) _) in *. destruct b; [by destruct Hv|]. rewrite H4. done.
Qed.

Lemma cursig_finds p st w x i v : sprocs st !! p = Some x -> finds p x i w v -> v <> Drop ->
  CURSIG procaddr p st w = switched 32 p (first_signal x w p) st w.
Proof.
  intros Hx Hf Hv. unfold CURSIG. rewrite (rd_ok _ _ _ Hx). cbn [mbind outcome_bind]. destruct Hf as (H1&H2&H3&H4&H5&H6) eqn:Ef. rewrite H4. cbn [negb andb].
  assert (Z.ldiff (p_sig (words w p)) (p_sigmask (words w p)) <> 0) as Hl.
  { intros E. apply H5. unfold deliverable. rewrite E, Z.ldiff_0_l. by destruct (has (p_flag x) SVFORK). }
  assert (p_sig (words w p) <> 0) as Hn by (intros E; apply Hl; rewrite E; apply Z.ldiff_0_l).
  rewrite (proj2 (Z.eqb_neq _ _) Hl), (proj2 (Z.eqb_neq _ _) Hn). by eapply issignal_finds.
Qed.

(** The [switch] of [issignal] on a signal to give. *)
Lemma switch_gives p st w x i : sprocs st !! p = Some x -> finds p x i w Give ->
  issignal_switch procaddr p (first_signal x w p) (prop_of (first_signal x w p)) st w = Ok (st, w, Give).
Proof.
  intros Hx Hf. pose proof (finds_range _ _ _ _ _ Hf) as Hr. destruct Hf as (H1&H2&H3&H4&H5&H6). set (s := first_signal x w p) in *.
  unfold issignal_switch. destruct (lookup_lt_is_Some_2 (u_signal (us w p)) (Z.to_nat s)) as [a Ha]; [lia|].
  rewrite (rdz_ok (u_signal (us w p)) s a), (rd_ok _ _ _ Hx), (rd_ok _ _ _ H3) by (done || lia). cbn [mbind outcome_bind].
  unfold fate, switch_verdict, action_of in H6. rewrite Ha in H6. change (default 0 (Some a)) with a in H6.
  destruct (Z.testbit (p_sigignore (words w p)) (s - 1)); [done|].
  destruct (a =? SIG_DFL); [|by destruct (a =? SIG_IGN)]. destruct (c_pid i <=? 1); [done|].
  destruct (has (prop_of s) SA_STOP); [by destruct (_ || _)|]. by destruct (has (prop_of s) SA_IGNORE).
Qed.

Lemma cursig_gives p st w x i : sprocs st !! p = Some x -> finds p x i w Give ->
  tsleep_CURSIG procaddr p st w = Ok (st, w, Some (first_signal x w p)).
Proof.
  intros Hx Hf. unfold tsleep_CURSIG. rewrite (cursig_finds p st w x i Give) by done. unfold switched. by rewrite (switch_gives p st w x i).
Qed.

(** What a sleep leaves of the process that was not put to sleep. *)
Definition awake (x : sproc) (priority : Z) : sproc :=
  let x := set_pri (set_slptime (set_wchan x 0) 0) (Z.land priority PRIMASK) in
  set_flag (set_stat x SRUN) (Z.ldiff (Z.lor (p_flag x) P_SINTR) P_SINTR).

Lemma tsleep_given e p x i ident priority q st w co :
  sprocs st !! p = Some x -> finds p x i w Give -> slpque st !! HASH ident = Some q -> ident <> 0 -> Z.land priority PCATCH <> 0 ->
  has (p_flag x) P_TIMEOUT = false ->
  tsleep (tsleep_CURSIG procaddr) (fun p w => u_sigintr (us w p)) false e p ident priority 0 st w co =
  Ok (set_procs st (<[p:=awake x priority]> (sprocs st)), w, co,
      Returned (if has (u_sigintr (us w p)) (sigmask (first_signal x w p)) then EINTR else ERESTART)).
Proof.
  intros Hx Hf Hq Hid Hcatch Ht. pose proof (lookup_lt_Some _ _ _ Hx) as Hlt. pose proof (lookup_lt_Some _ _ _ Hq) as Hqlt.
  pose proof (finds_range _ _ _ _ _ Hf) as Hr. rewrite (tsleep_cursig _ _ e p x ident priority q) by done.
  set (st1 := entered p x ident priority q st). set (x1 := set_flag (set_pri (set_slptime (set_wchan x ident) 0) (Z.land priority PRIMASK)) (Z.lor (p_flag x) P_SINTR)).
  assert (sprocs st1 !! p = Some x1) as Hx1 by (cbn; rewrite lookup_put by done; by rewrite decide_True).
  assert (finds p x1 i w Give) as Hf1 by (apply (finds_flags p x x1); [cbn; by rewrite has_lor|cbn; by rewrite has_lor|done]).
  assert (first_signal x1 w p = first_signal x w p) as Es by (unfold first_signal, deliverable; cbn; by rewrite has_lor).
  rewrite (cursig_gives p st1 w x1 i Hx1 Hf1), Es. cbn [mbind outcome_bind]. set (s := first_signal x w p) in *.
  unfold tsleep_signal. rewrite (rd_ok _ _ _ Hx1). cbn [mbind outcome_bind]. rewrite (proj2 (Z.eqb_neq s 0)) by lia. cbn [negb].
  change (p_wchan x1) with ident. rewrite (proj2 (Z.eqb_neq _ _) Hid). cbn [negb].
  assert (unsleep p st1 = Ok (set_procs st (<[p:=set_wchan x1 0]> (sprocs st)))) as ->.
  { unfold unsleep. rewrite (rd_ok _ _ _ Hx1). cbn [mbind outcome_bind]. change (p_wchan x1) with ident. rewrite (proj2 (Z.eqb_neq _ _) Hid). cbn [negb].
    cbn [st1 entered set_procs slpque set_slpque]. rewrite (rd_ok _ _ (p :: q)) by (rewrite lookup_put by done; by rewrite decide_True).
    cbn [mbind outcome_bind remove1]. rewrite Nat.eqb_refl. rewrite wr_ok by (by rewrite length_insert). cbn [mbind outcome_bind].
    rewrite (put_ok _ p x1) by done. rewrite list_insert_insert_eq, list_insert_id by done. cbn [set_slpque sprocs st1 entered set_procs].
    rewrite list_insert_insert_eq. done. }
  cbn [mbind outcome_bind]. set (st2 := set_procs st _). assert (sprocs st2 !! p = Some (set_wchan x1 0)) as Hx2 by (cbn; rewrite lookup_put by done; by rewrite decide_True).
  rewrite (rd_ok _ _ _ Hx2). cbn [mbind outcome_bind]. rewrite (put_ok _ p (set_wchan x1 0)) by done. cbn [mbind outcome_bind].
  cbn [st2 set_procs sprocs]. rewrite list_insert_insert_eq. set (x3 := set_stat _ SRUN). set (st3 := set_procs _ _).
  assert (sprocs st3 !! p = Some x3) as Hx3 by (cbn; rewrite lookup_put by done; by rewrite decide_True).
  unfold tsleep_resume. rewrite (rd_ok _ _ _ Hx3). cbn [mbind outcome_bind].
  assert (negb (Z.land (Z.ldiff (p_flag x3) P_SINTR) P_TIMEOUT =? 0) = false) as Hto.
  { change (has (Z.ldiff (p_flag x3) P_SINTR) P_TIMEOUT = false). rewrite has_ldiff by done. cbn. by rewrite has_lor. }
  cbn [set_flag p_flag] in *. rewrite Hto. cbn [negb andb]. rewrite (put_ok _ p x3) by done. cbn [mbind outcome_bind].
  rewrite (proj2 (Z.eqb_neq s 0)) by lia. cbn [negb mbind outcome_bind]. cbn [st3 set_procs sprocs]. rewrite list_insert_insert_eq.
  unfold tsleep_value. rewrite (proj2 (Z.eqb_neq s 0)) by lia. done.
Qed.

(** A process asleep interruptibly that catches SIGCHLD is made to run. *)
Lemma sigchld_runs q y st w : sprocs st !! q = Some y -> p_stat y = SSLEEP -> has (p_flag y) P_SINTR = true -> has (p_flag y) P_TRACED = false ->
  has (p_sigignore (words w q)) (sigmask SIGCHLD) = false -> sig_action y (words w q) (sigmask SIGCHLD) = SIG_CATCH ->
  exists w', psignal procaddr q SIGCHLD st w = psignal_run q st w'.
Proof.
  intros Hy Hs Hi Ht Hig Ha. unfold psignal, psignal_with. change ((SIGCHLD <? 1) || (32 <? SIGCHLD)) with false. cbv iota zeta.
  rewrite rdz_sigprop by (unfold SIGCHLD; lia). cbn [mbind outcome_bind]. rewrite (rd_ok _ _ _ Hy). cbn [mbind outcome_bind].
  rewrite Hig, andb_false_r, Ha. change (prop_of SIGCHLD) with SA_IGNORE. change (SIG_CATCH =? SIG_DFL) with false. change (SIG_CATCH =? SIG_HOLD) with false.
  rewrite andb_false_r. cbn [andb]. rewrite (put_ok _ q y), list_insert_id by done. cbn [mbind outcome_bind].
  change (has SA_IGNORE SA_STOP) with false. change (has SA_IGNORE SA_CONT) with false. cbn [andb mbind outcome_bind].
  rewrite Hs, Z.eqb_refl. assert (set_procs st (sprocs st) = st) as -> by (by destruct st). unfold psignal_asleep.
  rewrite (rd_ok _ _ _ Hy). cbn [mbind outcome_bind]. rewrite Hi, Ht. cbn [negb]. change (has SA_IGNORE SA_CONT) with false.
  change (has SA_IGNORE SA_STOP) with false. cbn [andb]. by eexists.
Qed.

(** The [switch] of [issignal] tells the parent of the stop first. *)
Lemma switch_tells p st w x i y m : sprocs st !! p = Some x -> finds p x i w Stopped -> sprocs st !! c_pptr i = Some y ->
  has (p_flag y) P_NOCLDSTOP = false -> psignal procaddr (c_pptr i) SIGCHLD st (trace_sig w p (first_signal x w p)) = Panic m ->
  issignal_switch procaddr p (first_signal x w p) (prop_of (first_signal x w p)) st w = Panic m.
Proof.
  intros Hx Hf Hy Hn Hp. pose proof (finds_range _ _ _ _ _ Hf) as Hr. destruct Hf as (H1&H2&H3&H4&H5&H6). set (s := first_signal x w p) in *.
  unfold issignal_switch. destruct (lookup_lt_is_Some_2 (u_signal (us w p)) (Z.to_nat s)) as [a Ha]; [lia|].
  rewrite (rdz_ok (u_signal (us w p)) s a), (rd_ok _ _ _ Hx), (rd_ok _ _ _ H3) by (done || lia). cbn [mbind outcome_bind].
  unfold fate, switch_verdict, action_of in H6. rewrite Ha in H6. change (default 0 (Some a)) with a in H6.
  destruct (Z.testbit (p_sigignore (words w p)) (s - 1)); [done|].
  destruct (a =? SIG_DFL); [|by destruct (a =? SIG_IGN)]. destruct (c_pid i <=? 1); [done|].
  destruct (has (prop_of s) SA_STOP); [|by destruct (has (prop_of s) SA_IGNORE)]. destruct (_ || _); [done|].
  rewrite (rd_ok _ _ _ Hy). cbn [mbind outcome_bind]. rewrite Hn. cbn [negb]. by rewrite Hp.
Qed.

End finding.

(** An interruptible sleep of a process that has a signal to take does not
    sleep: [tsleep] returns at once, EINTR or ERESTART as the signal restarts
    calls or not; the sleep and run queues, the other processes, the signals
    and the callouts are as they were, and of the process only its priority,
    its sleep time and its channel changed. *)
Theorem tsleep_interrupted procaddr e p x i ident priority q st w co :
  sprocs st !! p = Some x -> finds p x i w Give -> slpque st !! HASH ident = Some q -> ident <> 0 -> Z.land priority PCATCH <> 0 ->
  has (p_flag x) P_TIMEOUT = false ->
  exists st', tsleep (tsleep_CURSIG procaddr) (fun p w => u_sigintr (us w p)) false e p ident priority 0 st w co =
    Ok (st', w, co, Returned (if has (u_sigintr (us w p)) (sigmask (first_signal x w p)) then EINTR else ERESTART)) /\
    slpque st' = slpque st /\ qs st' = qs st /\ cur st' = cur st /\
    (forall r, r <> p -> sprocs st' !! r = sprocs st !! r) /\
    exists x', sprocs st' !! p = Some x' /\ p_stat x' = SRUN /\ p_wchan x' = 0 /\ p_slptime x' = 0 /\ p_pri x' = Z.land priority PRIMASK /\
      p_flag x' = Z.ldiff (p_flag x) P_SINTR.
Proof.
  intros Hx Hf Hq Hid Hcatch Ht. rewrite (tsleep_given procaddr e p x i ident priority q) by done. eexists. split; [reflexivity|].
  do 3 (split; [done|]). split; [intros r Hr; cbn; by rewrite list_lookup_insert_ne by congruence|]. exists (awake x priority).
  split; [cbn; rewrite lookup_put by (by eapply lookup_lt_Some); by rewrite decide_True|]. do 4 (split; [done|]). cbn.
  apply Z.bits_inj'. intros j Hj. rewrite !Z.ldiff_spec, Z.lor_spec. by destruct (Z.testbit (p_flag x) j), (Z.testbit P_SINTR j).
Qed.

(** One more round of the loop of [sigwait] changes nothing that matters. *)
Lemma sigwait_round procaddr e chan ok n p wanted st w co x i q :
  sprocs st !! p = Some x -> finds p x i w Give -> slpque st !! HASH chan = Some q -> chan <> 0 -> has (p_flag x) P_TIMEOUT = false ->
  Z.land wanted (p_sig (words w p)) = 0 ->
  exists st', sigwait_loop procaddr e chan ok n p wanted st w co = Ok (st', w, co, Spinning) /\ cur st' = cur st /\ slpque st' = slpque st /\ qs st' = qs st.
Proof.
  intros Hx Hf Hq Hc Ht Hw. revert st x Hx Hf Hq Ht. induction n as [|n IH]; intros st x Hx Hf Hq Ht; [by exists st|].
  cbn [sigwait_loop]. unfold sigwait_test. rewrite Hw, Z.eqb_refl, (tsleep_given procaddr e p x i chan (Z.lor PPAUSE PCATCH) q) by done.
  cbn [mbind outcome_bind]. set (x' := awake _ _). set (st1 := set_procs _ _).
  destruct (IH st1 x') as (st'&->&?&?&?); [cbn; rewrite lookup_put by (by eapply lookup_lt_Some); by rewrite decide_True| |done| |by exists st'].
  - apply (finds_flags p x x'); [| |done]; cbn; by rewrite has_ldiff, has_lor.
  - cbn. by rewrite has_ldiff, has_lor.
Qed.

(** [sigwait] can hang the machine: when the process has a signal to take
    that it does not wait for, [tsleep] returns at once and [sigwait], which
    does not look at what it returned, goes round again, without ever giving
    the processor away; the kernel does not preempt itself, so nothing else
    runs. *)
Theorem sigwait_spins procaddr e chan ok n p set wanted st w co x i q :
  cur st = Some p -> sprocs st !! p = Some x -> finds p x i w Give -> slpque st !! HASH chan = Some q -> chan <> 0 -> has (p_flag x) P_TIMEOUT = false ->
  sigwait p (Some (Some set)) (Some ok) w = (w, Some wanted) -> Z.land wanted (p_sig (words w p)) = 0 ->
  exists st', sigwait_loop procaddr e chan ok n p wanted st w co = Ok (st', w, co, Spinning) /\ cur st' = Some p /\ slpque st' = slpque st /\ qs st' = qs st.
Proof.
  intros Hc Hx Hf Hq Hid Ht _ Hw. destruct (sigwait_round procaddr e chan ok n p wanted st w co x i q) as (st'&->&?&?&?); try done.
  exists st'. split; [done|]. split; [congruence|done].
Qed.

(** C26. A kernel panic: [tsleep] puts the process on its sleep queue before it
    calls [CURSIG], with [p_stat] still SRUN. If the signal stops the process,
    its parent, which catches SIGCHLD, sleeps interruptibly and swapped out,
    and the swapper waits on [runout], then telling the parent runs
    [wakeup(&runout)]; when the two channels share a hash queue, that finds
    the process there and panics. *)
Theorem tsleep_stop_panic procaddr e p x i y q pq ident priority st w co :
  sprocs st !! p = Some x -> p_stat x = SRUN -> finds p x i w Stopped ->
  c_pptr i <> p -> sprocs st !! c_pptr i = Some y -> p_stat y = SSLEEP -> loaded y = false -> has (p_flag y) P_SINTR = true ->
  has (p_flag y) P_TRACED = false -> has (p_flag y) P_NOCLDSTOP = false ->
  has (p_sigignore (words w (c_pptr i))) (sigmask SIGCHLD) = false -> sig_action y (words w (c_pptr i)) (sigmask SIGCHLD) = SIG_CATCH ->
  p_wchan y <> 0 -> slpque st !! HASH (p_wchan y) = Some pq -> c_pptr i ∈ pq -> NoDup pq -> runout st <> 0 ->
  Z.land priority PCATCH <> 0 -> HASH ident = HASH A_RUNOUT -> slpque st !! HASH ident = Some q -> p ∉ q ->
  tsleep (tsleep_CURSIG procaddr) (fun p w => u_sigintr (us w p)) false e p ident priority 0 st w co = Panic "wakeup".
Proof.
  intros Hx Hsx Hf Hne Hy Hsy Hly Hiy Hty Hny Hig Hact Hw Hpq Hin Hnd Hro Hcatch Hh Hq Hpnq.
  pose proof (lookup_lt_Some _ _ _ Hx) as Hlt. pose proof (lookup_lt_Some _ _ _ Hy) as Hylt. pose proof (lookup_lt_Some _ _ _ Hq) as Hqlt.
  rewrite (tsleep_cursig _ _ e p x ident priority q) by done. set (st1 := entered p x ident priority q st).
  set (x1 := set_flag (set_pri (set_slptime (set_wchan x ident) 0) (Z.land priority PRIMASK)) (Z.lor (p_flag x) P_SINTR)).
  assert (sprocs st1 !! p = Some x1) as Hx1 by (cbn; rewrite lookup_put by done; by rewrite decide_True).
  assert (sprocs st1 !! c_pptr i = Some y) as Hy1 by (cbn; rewrite lookup_put by done; by rewrite decide_False).
  assert (finds p x1 i w Stopped) as Hf1 by (apply (finds_flags p x x1); [cbn; by rewrite has_lor|cbn; by rewrite has_lor|done]).
  unfold tsleep_CURSIG. rewrite (cursig_finds procaddr p st1 w x1 i Stopped) by done. unfold switched.
  rewrite (switch_tells procaddr p st1 w x1 i y "wakeup"); [done|done|done|done|done|].
  set (w1 := trace_sig _ _ _). assert (words w1 (c_pptr i) = words w (c_pptr i)) as Ew by (unfold w1, trace_sig; cbn; by rewrite fn_lookup_insert_ne by congruence).
  destruct (sigchld_runs procaddr (c_pptr i) y st1 w1) as [w2 ->]; try done; [by rewrite Ew..|].
  unfold psignal_run. rewrite (rd_ok _ _ _ Hy1). cbn [mbind outcome_bind]. set (y1 := if _ <? _ then _ else y).
  rewrite (put_ok _ _ y) by done. cbn [mbind outcome_bind]. set (st2 := set_procs st1 _).
  enough (setrun (c_pptr i) st2 = Panic "wakeup") as -> by done.
  assert (p_stat y1 = SSLEEP /\ loaded y1 = false /\ p_wchan y1 = p_wchan y) as (Hs1&Hl1&Hw1) by (unfold y1; by destruct (_ <? _)).
  assert (exists pq1, slpque st1 !! HASH (p_wchan y) = Some pq1 /\ c_pptr i ∈ pq1 /\ NoDup pq1) as (pq1&Hpq1&Hin1&Hnd1).
  { cbn. destruct (decide (HASH (p_wchan y) = HASH ident)) as [Eh|Eh].
    - rewrite Eh, Hq in Hpq. injection Hpq as <-. exists (p :: q). rewrite Eh, lookup_put, decide_True by done.
      split; [done|]. split; [by right|by apply NoDup_cons].
    - exists pq. rewrite lookup_put, decide_False by done. done. }
  apply (setrun_panics st2 p (c_pptr i) x1 y1 q pq1); try done.
  - cbn. rewrite lookup_put by (by rewrite length_insert). by rewrite decide_False by congruence.
  - cbn. rewrite lookup_put by (by rewrite length_insert). by rewrite decide_True.
  - by rewrite Hw1.
  - by rewrite Hw1.
  - cbn. rewrite <- Hh, lookup_put by done. by rewrite decide_True.
Qed.

(** *** Closed instances *)

(** Process 2 of [third_state] with SIGINT pending. *)
Definition demo_int : sched * sigs := demo_run [EPost 2 2] (third_state, demo5).
Definition int_proc : sproc := default (Sproc 0 0 0 0 0 0 0 0 0 0) (sprocs (fst demo_int) !! 2%nat).
Definition A_SIGNAL : Z := 0x7000.
Definition int_queue : list nat := default [] (slpque (fst demo_int) !! HASH A_SIGNAL).

Lemma int_finds : finds 2 int_proc shell_id (snd demo_int) Give.
Proof. do 3 (split; [by vm_compute|]). split; [by vm_compute|]. split; [|by vm_compute]. intros Hx. vm_compute in Hx. discriminate. Qed.

Lemma tsleep_interrupted_witness : exists st',
  tsleep (tsleep_CURSIG demo_addr) (fun p w => u_sigintr (us w p)) false 0 2 A_SIGNAL 0x128 0 (fst demo_int) (snd demo_int) (Callouts [] []) =
    Ok (st', snd demo_int, Callouts [] [], Returned ERESTART) /\ slpque st' = slpque (fst demo_int).
Proof.
  destruct (tsleep_interrupted demo_addr 0 2 int_proc shell_id A_SIGNAL 0x128 int_queue (fst demo_int) (snd demo_int) (Callouts [] []))
    as (st'&E&Hq&_); [by vm_compute|apply int_finds|by vm_compute|done|done|by vm_compute|].
  exists st'. split; [|exact Hq]. rewrite E. by vm_compute.
Defined.

Lemma sigwait_spins_witness : exists st',
  sigwait_loop demo_addr 0 A_SIGNAL true 1000 2 (Z.lor 0x2000 sigcantmask) (fst demo_int) (snd demo_int) (Callouts [] []) =
    Ok (st', snd demo_int, Callouts [] [], Spinning) /\ cur st' = Some 2%nat.
Proof.
  destruct (sigwait_spins demo_addr 0 A_SIGNAL true 1000 2 0x2000 (Z.lor 0x2000 sigcantmask) (fst demo_int) (snd demo_int) (Callouts [] [])
    int_proc shell_id int_queue) as (st'&E&Hc&_);
    [by vm_compute|by vm_compute|apply int_finds|by vm_compute|done|by vm_compute|done|by vm_compute|].
  exists st'. split; [exact E|exact Hc].
Defined.

(** The parent, 1, sleeps swapped out; the current process, 2, has SIGSTOP
    pending and is about to sleep on a channel of the queue of [runout]. *)
Definition stop_state : sched :=
  Sched [Sproc SSLEEP SLOAD 0 0 0 0 0 A_RUNOUT 0 0; Sproc SSLEEP P_SINTR 30 0 0 0 0 0x3000 0 0; Sproc SRUN SLOAD 50 0 0 0 0 0 0 0]
    (<[1%nat:=[0%nat]]> (<[0%nat:=[1%nat]]> (replicate SQSIZE []))) [] 0 50 0 1 (Some 2%nat).
Definition stop_sigs : sigs :=
  set_words (set_words demo5 1 (Sigproc 0 0 0 (sigmask SIGCHLD) 0)) 2 (Sigproc (sigmask SIGSTOP) 0 default_ignored 0 0).

Lemma tsleep_stop_panic_witness :
  tsleep (tsleep_CURSIG demo_addr) (fun p w => u_sigintr (us w p)) false 0 2 (A_RUNOUT + 0x400) 0x11e 0 stop_state stop_sigs (Callouts [] []) = Panic "wakeup".
Proof.
  apply (tsleep_stop_panic demo_addr 0 2 (Sproc SRUN SLOAD 50 0 0 0 0 0 0 0) shell_id (Sproc SSLEEP P_SINTR 30 0 0 0 0 0x3000 0 0) [0%nat] [1%nat]);
    try reflexivity; try (vm_compute; congruence).
  - do 4 (split; [by vm_compute|]). split; [|by vm_compute]. intros Hx. vm_compute in Hx. discriminate.
  - by left.
  - repeat constructor. apply not_elem_of_nil.
  - set_solver.
Defined.
