(* ===== verification/Sleepstop.v ===== *)
(** * Stopping on a sleep queue ([tsleep] of [sys/kern/kern_synch.c] with the
    [CURSIG] of [kern_sig.c])

    [tsleep] calls [CURSIG] with the process on its sleep queue, its state
    still SRUN and itself the current process: the queues are out of order
    there. A state of that kind is the view of one where the process is
    stopped and nobody runs, which is in order; what is done to another
    process, as telling the parent of a stop, is the same in both, unless it
    goes through the queue the process is on, where [wakeup] panics. So every
    call of [tsleep] keeps the queues in order or is that panic. *)
From stdpp Require Import functions.
From S2P Require Import Prelude Clock Sched Cred Signal Sigcall Sigsleep.

(** ** The view of a state where [p] has the entry [x] and runs *)

Definition lift {A B} (f : A -> B) (o : outcome A) : outcome B := a ← o; Ok (f a).

Lemma lift_bind {A B C D} (f : A -> B) (g : C -> D) (o : outcome A) (k : A -> outcome C) (k' : B -> outcome D) :
  (forall a, o = Ok a -> k' (f a) = lift g (k a)) -> lift f o ≫= k' = lift g (o ≫= k).
Proof. intros H. destruct o as [a| |]; [|done..]. cbn. by apply H. Qed.

Section view.
Context (p : nat) (x : sproc).

Definition viewed (st : sched) : sched := set_cur (set_procs st (<[p:=x]> (sprocs st))) (Some p).

Lemma rd_viewed st q : q <> p -> rd (sprocs (viewed st)) q = rd (sprocs st) q.
Proof. intros Hq. unfold rd. cbn. by rewrite list_lookup_insert_ne by congruence. Qed.

Lemma put_viewed st q y : q <> p -> put (viewed st) q y = lift viewed (put st q y).
Proof.
  intros Hq. unfold put, wr. cbn [viewed set_cur set_procs sprocs]. rewrite length_insert. case_decide; [|done]. cbn. unfold viewed. cbn.
  by rewrite list_insert_insert_ne by congruence.
Qed.

Lemma setpri_viewed st q : q <> p -> setpri q (viewed st) = lift viewed (setpri q st).
Proof.
  intros Hq. unfold setpri. rewrite rd_viewed by done. destruct (rd (sprocs st) q) as [y| |]; [|done..]. cbn [mbind outcome_bind].
  change (curpri (viewed st)) with (curpri st). destruct (_ <? _); [apply (put_viewed (set_runrun st (runrun st + 1)))|apply put_viewed]; done.
Qed.

Lemma updatepri_viewed st q : q <> p -> updatepri q (viewed st) = lift viewed (updatepri q st).
Proof.
  intros Hq. unfold updatepri. rewrite rd_viewed by done. destruct (rd (sprocs st) q) as [y| |]; [|done..]. cbn [mbind outcome_bind].
  destruct (decay _ _ _) as [a slp]. rewrite put_viewed by done. apply lift_bind. intros st' _. by apply setpri_viewed.
Qed.

Lemma unsleep_viewed st q : q <> p -> unsleep q (viewed st) = lift viewed (unsleep q st).
Proof.
  intros Hq. unfold unsleep. rewrite rd_viewed by done. destruct (rd (sprocs st) q) as [y| |]; [|done..]. cbn [mbind outcome_bind].
  destruct (negb _); [|done]. change (slpque (viewed st)) with (slpque st). destruct (rd (slpque st) _) as [l| |]; [|done..]. cbn [mbind outcome_bind].
  destruct (remove1 q l); [|done]. destruct (wr (slpque st) _ _) as [s| |]; [|done..]. cbn [mbind outcome_bind]. by apply (put_viewed (set_slpque st s)).
Qed.

(** Making a process runnable, up to telling the swapper. *)
Lemma wake_one_viewed st q : q <> p -> wake_one (fun _ => Fault) q (viewed st) = lift viewed (wake_one (fun _ => Fault) q st).
Proof.
  intros Hq. unfold wake_one. rewrite rd_viewed by done. destruct (rd (sprocs st) q) as [y| |]; [|done..]. cbn [mbind outcome_bind].
  change (Ok (viewed st)) with (lift viewed (Ok st)). rewrite updatepri_viewed by done.
  assert (forall b : bool, (if b then lift viewed (updatepri q st) else lift viewed (Ok st)) = lift viewed (if b then updatepri q st else Ok st)) as E by by destruct b.
  rewrite E. apply lift_bind. intros st1 _. rewrite rd_viewed by done. destruct (rd (sprocs st1) q) as [y1| |]; [|done..]. cbn [mbind outcome_bind].
  rewrite put_viewed by done. apply lift_bind. intros st2 _. unfold wake_swapper.
  destruct (loaded _); cbn [negb]; [done|]. change (runout (set_runrun (viewed st2) _)) with (runout st2). by destruct (negb _).
Qed.

Lemma wake_scan_viewed chan l st : p ∉ l ->
  wake_scan chan l (viewed st) = lift (fun r => (fst (fst r), viewed (snd (fst r)), snd r)) (wake_scan chan l st).
Proof.
  revert st. induction l as [|q l IH]; intros st Hp; [done|]. apply not_elem_of_cons in Hp as [Hq Hp]. cbn [wake_scan].
  rewrite rd_viewed by congruence. destruct (rd (sprocs st) q) as [y| |]; [|done..]. cbn [mbind outcome_bind].
  destruct (_ && _); [done|]. destruct (_ =? chan).
  - destruct (_ =? SSLEEP); rewrite put_viewed by congruence; apply lift_bind; intros st1 _; [done|]. by apply IH.
  - rewrite IH by done. by destruct (wake_scan chan l st) as [[[]]| |].
Qed.

(** The queue left by a scan is part of the old one. *)
Lemma wake_scan_sub chan l st l' st' f : wake_scan chan l st = Ok (l', st', f) ->
  (forall r, r ∈ l' -> r ∈ l) /\ (forall r, f = Some r -> r ∈ l) /\ slpque st' = slpque st.
Proof.
  revert st l' st' f. induction l as [|q l IH]; intros st l' st' f E; cbn [wake_scan] in E; [by injection E as <- <- <-|].
  apply outcome_bind_ok in E as (y&Hy%rd_inv&E). destruct (_ && _); [done|]. destruct (_ =? chan).
  - destruct (_ =? SSLEEP); rewrite (put_ok _ q y) in E by done; cbn [mbind outcome_bind] in E.
    + injection E as <- <- <-. split; [by intros r ?; right|]. split; [intros r [= <-]; by left|done].
    + apply IH in E as (H1&H2&H3). split; [intros r ?; right; auto|]. split; [intros r ?; right; auto|done].
  - apply outcome_bind_ok in E as ([[l1 st1] f1]&E1&E). injection E as <- <- <-. apply IH in E1 as (H1&H2&H3). cbn [fst snd].
    split; [intros r [->|?]%elem_of_cons; [by left|right; auto]|]. split; [intros r ?; right; auto|done].
Qed.

Lemma put_slpque st q y st' : put st q y = Ok st' -> slpque st' = slpque st.
Proof. unfold put. intros (l&_&E)%outcome_bind_ok. by injection E as <-. Qed.

Lemma updatepri_slpque st q st' : updatepri q st = Ok st' -> slpque st' = slpque st.
Proof.
  unfold updatepri, setpri. intros (y&_&E)%outcome_bind_ok. destruct (decay _ _ _). apply outcome_bind_ok in E as (st1&E1%put_slpque&E).
  apply outcome_bind_ok in E as (y1&_&E%put_slpque). rewrite E. destruct (_ <? _); done.
Qed.

Lemma wake_one_slpque st q st' : wake_one (fun _ => Fault) q st = Ok st' -> slpque st' = slpque st.
Proof.
  unfold wake_one. intros (y&_&E)%outcome_bind_ok. apply outcome_bind_ok in E as (st1&E1&E).
  assert (slpque st1 = slpque st) as <- by (destruct (_ <? _); [by eapply updatepri_slpque|by injection E1 as <-]).
  apply outcome_bind_ok in E as (y1&_&E). apply outcome_bind_ok in E as (st2&E2%put_slpque&E). rewrite <- E2. unfold wake_swapper in E.
  destruct (loaded _); cbn [negb] in E; [by injection E as <-|]. destruct (negb _); [done|]. by injection E as <-.
Qed.

(** Whoever is not on the queue of the channel is not seen by [wakeup]. *)
Lemma wakeup_loop_viewed fuel chan st : (forall l, slpque st !! HASH chan = Some l -> p ∉ l) ->
  wakeup_loop (fun _ => Fault) fuel chan (viewed st) = lift viewed (wakeup_loop (fun _ => Fault) fuel chan st).
Proof.
  revert st. induction fuel as [|fuel IH]; intros st Hp; [done|]. cbn [wakeup_loop]. change (slpque (viewed st)) with (slpque st).
  destruct (rd (slpque st) (HASH chan)) as [l| |] eqn:El; [|done..]. cbn [mbind outcome_bind]. apply rd_inv in El.
  rewrite wake_scan_viewed by auto. destruct (wake_scan chan l st) as [[[l' st1] f]| |] eqn:Es; [|done..].
  apply wake_scan_sub in Es as (H1&H2&H3). cbn [lift mbind outcome_bind fst snd]. change (slpque (viewed st1)) with (slpque st1).
  destruct (wr (slpque st1) (HASH chan) l') as [s| |] eqn:Ew; [|done..]. cbn [mbind outcome_bind]. destruct f as [q|]; [|done].
  assert (q <> p) as Hq by (intros ->; by apply (Hp l El), H2). change (set_slpque (viewed st1) s) with (viewed (set_slpque st1 s)).
  rewrite wake_one_viewed by done. apply lift_bind. intros st2 E2%wake_one_slpque. apply IH. intros l2 Hl2. rewrite E2 in Hl2.
  unfold wr in Ew. case_decide; [|done]. injection Ew as <-. cbn in Hl2. rewrite list_lookup_insert_eq in Hl2 by done. injection Hl2 as <-.
  intros Hin. by apply (Hp l El), H1.
Qed.

(** ** What is done to another process *)

(** Nobody looks for [p] on the queue of [runout]. *)
Definition unseen (st : sched) : Prop := runout st = 0 \/ forall l, slpque st !! HASH A_RUNOUT = Some l -> p ∉ l.

Lemma wake_swapper_viewed y st : unseen st -> wake_swapper wakeup_runout y (viewed st) = lift viewed (wake_swapper wakeup_runout y st).
Proof.
  intros Hu. unfold wake_swapper. destruct (negb (loaded y)); [|done]. change (runout (viewed st)) with (runout st).
  destruct (Z.eqb_spec (runout st) 0) as [E|E]; cbn [negb]; [done|]. destruct Hu as [?|Hu]; [done|]. unfold wakeup_runout.
  change (set_runout (viewed st) 0) with (viewed (set_runout st 0)). cbn [viewed set_cur set_procs sprocs]. rewrite length_insert. by apply wakeup_loop_viewed.
Qed.

(** Making [q] run does not reach the queue [p] is on: [q] is in memory, or
    nobody looks there. *)
Definition apart (q : nat) (st : sched) : Prop := (forall y, sprocs st !! q = Some y -> loaded y = true) \/ unseen st.

Lemma remove1_sub q l l' r : remove1 q l = Some l' -> r ∈ l' -> r ∈ l.
Proof.
  revert l'. induction l as [|z l IH]; intros l' E Hr; cbn [remove1] in E; [done|]. destruct (Nat.eqb z q); [injection E as <-; by right|].
  destruct (remove1 q l) as [l1|]; [|done]. injection E as <-. apply elem_of_cons in Hr as [->|Hr]; [by left|right; eauto].
Qed.

Lemma unsleep_apart q st st' : unsleep q st = Ok st' -> apart q st -> apart q st'.
Proof.
  unfold unsleep. intros (y&Hy%rd_inv&E)%outcome_bind_ok. destruct (negb _); [|by injection E as <-].
  apply outcome_bind_ok in E as (l&Hl%rd_inv&E). destruct (remove1 q l) as [l'|] eqn:Er; [|done]. apply outcome_bind_ok in E as (s&Es&E).
  unfold wr in Es. case_decide; [|done]. injection Es as <-. rewrite (put_ok _ q y) in E by done. injection E as <-. intros [Hld|[Hro|Hq]].
  - left. intros z. cbn. rewrite list_lookup_insert_eq by (by eapply lookup_lt_Some). intros [= <-]. by apply (Hld y).
  - right. by left.
  - right. right. intros l2. cbn. rewrite lookup_put by done. case_decide as Eh; [|by apply Hq]. intros [= <-] Hin. apply (Hq l); [by rewrite Eh|]. by eapply remove1_sub.
Qed.

Lemma updatepri_apart q st st' : updatepri q st = Ok st' -> apart q st -> apart q st'.
Proof.
  intros E. pose proof E as (y&Hy%rd_inv&_)%outcome_bind_ok. destruct (updatepri_one st q y Hy) as (st2&E2&H1&H2&H3&H4).
  rewrite E in E2. injection E2 as <-. destruct (H4 y Hy) as (y'&Hy'&Hf). intros [Hld|[Hro|Hq]]; [left|right; left; congruence|right; right; by rewrite H1].
  intros z Hz. rewrite Hy' in Hz. injection Hz as <-. unfold loaded. rewrite Hf. by apply (Hld y).
Qed.

Lemma setrun_viewed st q : q <> p -> apart q st -> setrun q (viewed st) = lift viewed (setrun q st).
Proof.
  intros Hq Ha. unfold setrun. rewrite rd_viewed by done. destruct (rd (sprocs st) q) as [y| |]; [|done..]. cbn [mbind outcome_bind].
  assert ((if (p_stat y =? SSTOP) || (p_stat y =? SSLEEP) then unsleep q (viewed st) else if p_stat y =? SIDL then Ok (viewed st) else Panic "setrun") =
    lift viewed (if (p_stat y =? SSTOP) || (p_stat y =? SSLEEP) then unsleep q st else if p_stat y =? SIDL then Ok st else Panic "setrun")) as ->
    by (destruct (_ || _); [by apply unsleep_viewed|by destruct (_ =? SIDL)]).
  apply lift_bind. intros st1 E1. assert (apart q st1) as Ha1.
  { destruct (_ || _); [by eapply unsleep_apart|]. destruct (_ =? SIDL); [|done]. by injection E1 as <-. }
  rewrite rd_viewed by done. destruct (rd (sprocs st1) q) as [y1| |]; [|done..]. cbn [mbind outcome_bind].
  assert ((if 1 <? p_slptime y1 then updatepri q (viewed st1) else Ok (viewed st1)) = lift viewed (if 1 <? p_slptime y1 then updatepri q st1 else Ok st1)) as ->
    by (destruct (_ <? _); [by apply updatepri_viewed|done]).
  apply lift_bind. intros st2 E2. assert (apart q st2) as Ha2 by (destruct (_ <? _); [by eapply updatepri_apart|by injection E2 as <-]).
  rewrite rd_viewed by done. destruct (rd (sprocs st2) q) as [y2| |] eqn:E3; [|done..]. apply rd_inv in E3. cbn [mbind outcome_bind].
  rewrite put_viewed by done. apply lift_bind. intros st3 E4. rewrite (put_ok _ q y2) in E4 by done. injection E4 as <-.
  set (y3 := set_stat y2 SRUN). set (st3 := set_procs _ _).
  assert ((if loaded y3 then setrq q (viewed st3) else viewed st3) = viewed (if loaded y3 then setrq q st3 else st3)) as -> by by destruct (loaded y3).
  set (st4 := if loaded y3 then setrq q st3 else st3). change (curpri (viewed st4)) with (curpri st4). change (runrun (viewed st4)) with (runrun st4).
  assert ((if p_pri y3 <? curpri st4 then set_runrun (viewed st4) (runrun st4 + 1) else viewed st4) =
    viewed (if p_pri y3 <? curpri st4 then set_runrun st4 (runrun st4 + 1) else st4)) as -> by (destruct (p_pri y3 <? curpri st4); reflexivity).
  destruct Ha2 as [Hld|Hu].
  - unfold wake_swapper. change (loaded y3) with (loaded y2). by rewrite (Hld y2 E3).
  - apply wake_swapper_viewed. unfold st4. destruct (loaded y3); match goal with |- unseen (if ?b then _ else _) => destruct b end; exact Hu.
Qed.

(** Posting SIGCHLD to another process. *)
Definition both (r : sched * sigs) : sched * sigs := (viewed (fst r), snd r).

Lemma psignal_run_viewed q st w : q <> p -> apart q st -> psignal_run q (viewed st) w = lift both (psignal_run q st w).
Proof.
  intros Hq Ha. unfold psignal_run. rewrite rd_viewed by done. destruct (rd (sprocs st) q) as [y| |] eqn:Ey; [|done..]. apply rd_inv in Ey. cbn [mbind outcome_bind].
  rewrite put_viewed by done. apply lift_bind. intros st1 E1. rewrite (put_ok _ q y) in E1 by done. injection E1 as <-.
  rewrite setrun_viewed; [by apply lift_bind|done|]. destruct Ha as [Hld|Hu]; [left|by right]. intros z. cbn.
  rewrite list_lookup_insert_eq by (by eapply lookup_lt_Some). intros [= <-]. by destruct (_ <? _); apply (Hld y).
Qed.

(** The process would be woken through the queue of [runout]. *)
Definition reaches (q : nat) (st : sched) : Prop :=
  (exists y, sprocs st !! q = Some y /\ p_stat y = SSLEEP /\ has (p_flag y) P_SINTR = true /\ loaded y = false) /\
  runout st <> 0 /\ exists l, slpque st !! HASH A_RUNOUT = Some l /\ p ∈ l.

Lemma apart_or q st : apart q st \/ (runout st <> 0 /\ exists l, slpque st !! HASH A_RUNOUT = Some l /\ p ∈ l).
Proof.
  destruct (decide (runout st = 0)); [left; right; by left|]. destruct (slpque st !! HASH A_RUNOUT) as [l|] eqn:El.
  - destruct (decide (p ∈ l)); [right; split; [done|by exists l]|left; right; right]. intros l2. rewrite El. by intros [= <-].
  - left. right. right. intros l2. by rewrite El.
Qed.

Lemma psignal_run_reaches q st w : q <> p -> sched_inv None st -> p_stat x = SRUN -> is_Some (sprocs st !! p) ->
  reaches q st -> (forall l, slpque st !! HASH A_RUNOUT = Some l -> p ∈ l -> exists l', l = p :: l') ->
  psignal_run q (viewed st) w = Panic "wakeup".
Proof.
  intros Hq H Hs [z Hz] ((y&Hy&Hsy&Hiy&Hly)&Hro&l&Hl&Hpl) Hhead. destruct (Hhead l Hl Hpl) as [l' ->]. pose proof (lookup_lt_Some _ _ _ Hz).
  assert (p_wchan y <> 0) as Hw by (destruct (inv_asleep _ _ H q y Hy Hsy); done). destruct (inv_wchan _ _ H q y Hy Hw) as (pq&Hpq&Hin).
  assert (sprocs (viewed st) !! q = Some y) as Hy' by (cbn; by rewrite list_lookup_insert_ne by congruence).
  unfold psignal_run. rewrite (rd_ok _ _ _ Hy'). cbn [mbind outcome_bind]. set (y1 := if _ <? _ then _ else y).
  assert (p_stat y1 = SSLEEP /\ loaded y1 = false /\ p_wchan y1 = p_wchan y) as (Hs1&Hl1&Hw1) by (unfold y1; by destruct (_ <? _)).
  rewrite (put_ok _ q y) by done. cbn [mbind outcome_bind]. enough (setrun q (set_procs (viewed st) (<[q:=y1]> (sprocs (viewed st)))) = Panic "wakeup") as -> by done.
  apply (setrun_panics _ p q x y1 l' pq); try done; [| |by rewrite Hw1|by rewrite Hw1|by eapply inv_nodup].
  - cbn. rewrite list_lookup_insert_ne by congruence. by rewrite list_lookup_insert_eq.
  - cbn. rewrite list_lookup_insert_eq; [done|]. rewrite length_insert. by eapply lookup_lt_Some.
Qed.

Lemma psignal_chld_viewed procaddr q st w : q <> p -> sched_inv None st -> p_stat x = SRUN -> is_Some (sprocs st !! p) ->
  (forall l, slpque st !! HASH A_RUNOUT = Some l -> p ∈ l -> exists l', l = p :: l') ->
  psignal procaddr q SIGCHLD (viewed st) w = lift both (psignal procaddr q SIGCHLD st w) \/
  (psignal procaddr q SIGCHLD (viewed st) w = Panic "wakeup" /\ reaches q st).
Proof.
  intros Hq H Hs Hp Hhead. unfold psignal, psignal_with. change ((SIGCHLD <? 1) || (32 <? SIGCHLD)) with false. cbv iota zeta.
  rewrite rdz_sigprop by (unfold SIGCHLD; lia). cbn [mbind outcome_bind]. rewrite rd_viewed by done.
  destruct (rd (sprocs st) q) as [y| |] eqn:Ey; [|by left..]. apply rd_inv in Ey. cbn [mbind outcome_bind].
  destruct (_ && _); [by left|]. change (prop_of SIGCHLD) with SA_IGNORE. change (has SA_IGNORE SA_KILL) with false. rewrite !andb_false_r. cbn [andb].
  rewrite put_viewed, (put_ok _ q y), list_insert_id by done. cbn [lift mbind outcome_bind].
  assert (set_procs st (sprocs st) = st) as -> by by destruct st.
  change (has SA_IGNORE SA_CONT) with false. change (has SA_IGNORE SA_STOP) with false. cbn [andb mbind outcome_bind negb]. set (w1 := set_words w q _).
  destruct (_ && _); [by left|]. destruct (Z.eqb_spec (p_stat y) SSLEEP) as [Es|Es]; [|destruct (Z.eqb_spec (p_stat y) SSTOP) as [Et|Et]; [left|by left]].
  - unfold psignal_asleep. rewrite rd_viewed, (rd_ok _ _ _ Ey) by done. cbn [mbind outcome_bind]. change (has SA_IGNORE SA_CONT) with false.
    change (has SA_IGNORE SA_STOP) with false. cbn [andb]. destruct (has (p_flag y) P_SINTR) eqn:Ei; cbn [negb]; [|by left].
    assert (psignal_run q (viewed st) w1 = lift both (psignal_run q st w1) \/ (psignal_run q (viewed st) w1 = Panic "wakeup" /\ reaches q st)) as Hrun; [|by destruct (has _ P_TRACED)].
    assert (apart q st \/ reaches q st) as [Ha|Hr]; [|left; by apply psignal_run_viewed|right; split; [by apply psignal_run_reaches|done]].
    destruct (apart_or q st) as [?|Hro]; [by left|]. destruct (loaded y) eqn:El; [left; left; intros z Hz; congruence|right]. split; [by exists y|done].
  - unfold psignal_stopped. rewrite rd_viewed, (rd_ok _ _ _ Ey) by done. cbn [mbind outcome_bind]. change (SIGCHLD =? SIGKILL) with false. cbv iota.
    change (has SA_IGNORE SA_CONT) with false. change (has SA_IGNORE SA_STOP) with false. destruct (has _ P_TRACED); [done|].
    destruct (_ && _); [|done]. rewrite unsleep_viewed by done. by apply lift_bind.
Qed.

End view.

(** ** What an operation leaves *)

(** The swapper is a system process. *)
Definition system (st : sched) : Prop := forall x, sprocs st !! 0%nat = Some x -> has (p_flag x) SSYS = true.

(** The queues in order, the swapper asleep uninterruptibly and still a system
    process, and a table of the same size. *)
Record fine (st st' : sched) : Prop := {
  fi_inv : sched_inv None st';
  fi_quiet : quiet st';
  fi_len : length (sprocs st') = length (sprocs st);
  fi_sys : system st -> system st'
}.

Lemma system_eases st st' : eases st st' -> system st -> system st'.
Proof.
  intros [Hl Hp] Hs x' Hx'. destruct (lookup_lt_is_Some_2 (sprocs st) 0%nat) as [x Hx]; [rewrite <- Hl; by eapply lookup_lt_Some|].
  destruct (Hp 0%nat x Hx) as (y&Hy&[_ Hf]&_). rewrite Hx' in Hy. injection Hy as <-. rewrite Hf. by apply Hs.
Qed.

Lemma fine_eases st st' : quiet st -> sched_inv None st' -> eases st st' -> fine st st'.
Proof. intros Hq H He. constructor; [done|by eapply quiet_eases|apply He|by apply system_eases]. Qed.

Lemma fine_trans st1 st2 st3 : fine st1 st2 -> fine st2 st3 -> fine st1 st3.
Proof. intros [] []. constructor; auto. congruence. Qed.

Lemma fine_ready st st' w : tables_ok (length (sprocs st)) w -> fine st st' -> ready st' w.
Proof. intros Ht []. constructor; [done..|]. by rewrite fi_len0. Qed.

(** ** The process on its sleep queue *)

(** [tsleep] has put [p] on the queue [q] of its channel, with entry [x]. *)
Definition queued (p : nat) (x : sproc) (q : list nat) (st : sched) : sched :=
  set_procs (set_slpque st (<[HASH (p_wchan x):=p :: q]> (slpque st))) (<[p:=x]> (sprocs st)).

(** The same with [p] in some other state and nobody running. *)
Definition parked (p : nat) (x : sproc) (q : list nat) (s : Z) (st : sched) : sched := set_cur (queued p (set_stat x s) q st) None.

Lemma queued_viewed p x q st s : cur st = Some p -> queued p x q st = viewed p x (parked p x q s st).
Proof. intros Hc. unfold viewed, parked, queued. cbn. rewrite list_insert_insert_eq. by destruct st; cbn in *; subst. Qed.

Section queueing.
Context (procaddr : nat -> Z) (Hproc : forall q, procaddr q <> 0).
Context (p : nat) (x0 x : sproc) (q : list nat) (st : sched) (w : sigs).
Context (Hr : ready st w) (Hc : cur st = Some p) (Hx0 : sprocs st !! p = Some x0) (Hq : slpque st !! HASH (p_wchan x) = Some q).
Context (Hw : p_wchan x <> 0) (Hs : p_stat x = SRUN).

#[local] Definition H : sched_inv None st := rdy_inv _ _ Hr.

Lemma parked_inv s : s = SSLEEP \/ s = SSTOP -> sched_inv None (parked p x q s st).
Proof.
  intros Hss. pose proof (lookup_lt_Some _ _ _ Hx0) as Hlt.
  assert (sched_inv None (parked p x q SSLEEP st)) as H1 by (by apply (park_inv st p x0 (set_stat x SSLEEP) q H Hc Hx0)).
  destruct Hss as [->| ->]; [done|]. assert (sprocs (parked p x q SSLEEP st) !! p = Some (set_stat x SSLEEP)) as Hx1 by (cbn; rewrite lookup_put by done; by rewrite decide_True).
  pose proof (park_state_inv _ p _ (set_stat x SSTOP) H1 Hx1) as H2. unfold parked, queued in *. cbn in H2. rewrite list_insert_insert_eq in H2.
  apply H2; auto.
Qed.

Lemma parked_entry s : sprocs (parked p x q s st) !! p = Some (set_stat x s).
Proof. cbn. rewrite lookup_put by (by eapply lookup_lt_Some). by rewrite decide_True. Qed.

(** [p] does not wait on [runout], or does so uninterruptibly. *)
Context (Hf : p = 0%nat \/ p_wchan x = A_RUNOUT -> has (p_flag x) P_SINTR = false).
Context (Hsys : has (p_flag x) SSYS = has (p_flag x0) SSYS).

Lemma parked_quiet s : quiet (parked p x q s st).
Proof.
  intros r y. cbn. rewrite lookup_put by (by eapply lookup_lt_Some). case_decide; [intros [= <-] Hy; subst r; by apply Hf|].
  intros Hy Hr'. by apply (rdy_quiet _ _ Hr r y).
Qed.

Lemma parked_fine s : s = SSLEEP \/ s = SSTOP -> fine st (parked p x q s st).
Proof.
  intros Hss. constructor; [by apply parked_inv|apply parked_quiet|cbn; apply length_insert|]. intros Hst y. cbn.
  rewrite lookup_put by (by eapply lookup_lt_Some). case_decide as E; [|by apply Hst]. intros [= <-]. cbn. rewrite Hsys. apply Hst. by rewrite E.
Qed.

Lemma parked_head s l : slpque (parked p x q s st) !! HASH A_RUNOUT = Some l -> p ∈ l -> exists l', l = p :: l'.
Proof.
  cbn. rewrite lookup_put by (by eapply lookup_lt_Some). case_decide; [intros [= <-] _; by eexists|]. intros Hl Hp.
  destruct (inv_sleep _ _ H _ _ _ Hl Hp) as (y&Hy&_&_&Hy'). destruct (inv_cur _ _ H p Hc) as (z&Hz&E&_). rewrite Hy in Hz. injection Hz as <-.
  rewrite E in Hy'. by destruct Hy'.
Qed.

(** ** Going to sleep *)

(** What a call of [tsleep] must come to. *)
Definition slept_ok (st : sched) (w : sigs) (o : outcome (sched * sigs * callouts * slept)) : Prop :=
  exists st' w' co how, o = Ok (st', w', co, how) /\ fine st st' /\ posts w w'.

Lemma park_ok : exists st', (let st1 := parked p x q SSLEEP st in st2 ← (if negb (Nat.eqb p 0) then wakeup A_RUNIN st1 else Ok st1); swtch st2) = Ok st' /\ fine st st'.
Proof.
  cbv zeta. assert (sched_inv None (parked p x q SSLEEP st)) as H1 by (apply parked_inv; by left).
  assert (exists st2, (if negb (Nat.eqb p 0) then wakeup A_RUNIN (parked p x q SSLEEP st) else Ok (parked p x q SSLEEP st)) = Ok st2 /\ sched_inv None st2 /\ cur st2 = None /\
    eases (parked p x q SSLEEP st) st2) as (st2&->&H2&Hc2&E2).
  { destruct (negb _); [|by eexists]. destruct (wakeup_inv A_RUNIN _ ltac:(done) H1) as (st2&->&H2&Hwk&_). exists st2.
    split; [done|]. split; [done|]. split; [by rewrite (wk_cur _ _ _ _ Hwk)|by eapply wakes_eases]. }
  cbn [mbind outcome_bind]. destruct (swtch_inv st2) as (st3&E3&H3&_); [by rewrite set_cur_none|]. rewrite E3. exists st3. split; [done|].
  apply (fine_trans _ (parked p x q SSLEEP st)); [apply parked_fine; by left|]. apply fine_eases; [apply parked_quiet|done|].
  etransitivity; [exact E2|by apply swtch_eases].
Qed.

(** ** Stopping there *)

(** The parent is woken through the queue [p] is on. *)
Definition trapped (i : cproc) : Prop := reaches p (c_pptr i) (parked p x q SSTOP st).

Lemma stop_viewed a tw : a <> 0 -> sched_inv None tw -> cur tw = None -> sprocs tw !! p = Some (set_stat x SSTOP) ->
  exists st', stop_current p a (viewed p x tw) = Ok st' /\ sched_inv None st' /\ eases tw st'.
Proof.
  intros Ha H1 Hct Htp. pose proof (lookup_lt_Some _ _ _ Htp) as Hlt. unfold stop_current, stop.
  assert (sprocs (set_cur (viewed p x tw) None) !! p = Some x) as Hx by (cbn; rewrite lookup_put by done; by rewrite decide_True).
  rewrite (rd_ok _ _ _ Hx). cbn [mbind outcome_bind]. rewrite (put_ok _ p x) by done. cbn [mbind outcome_bind]. set (x' := set_flag _ _).
  assert (set_procs (set_cur (viewed p x tw) None) (<[p:=x']> (sprocs (set_cur (viewed p x tw) None))) = set_procs tw (<[p:=x']> (sprocs tw))) as ->
    by (cbn; rewrite list_insert_insert_eq; destruct tw; cbn in *; by subst).
  assert (sched_inv None (set_procs tw (<[p:=x']> (sprocs tw)))) as H2 by (apply (park_state_inv tw p (set_stat x SSTOP)); auto).
  destruct (wakeup_inv a _ Ha H2) as (st2&->&H3&Hwk&_). cbn [mbind outcome_bind].
  destruct (swtch_inv st2) as (st3&E3&H4&_); [by rewrite set_cur_none by (rewrite (wk_cur _ _ _ _ Hwk); done)|]. exists st3. split; [done|]. split; [done|].
  etransitivity; [|by eapply swtch_eases]. etransitivity; [|by eapply wakes_eases]. apply (insert_eases tw p (set_stat x SSTOP)); [done| |done].
  split; cbn; by apply has_ldiff.
Qed.

Lemma tell_stop_queued i b w1 : posts w w1 -> p <> 0%nat -> p ∈ allproc w -> ids w !! p = Some i -> p_wchan x <> A_RUNOUT ->
  (exists st' w', tell_stop procaddr p i b (queued p x q st) w1 = Ok (st', w') /\ fine st st' /\ posts w w') \/
  (tell_stop procaddr p i b (queued p x q st) w1 = Panic "wakeup" /\ trapped i).
Proof.
  intros P1 Hp0 Hin Hi Hro. rewrite (queued_viewed p x q st SSTOP) by done. set (tw := parked p x q SSTOP st).
  assert (sched_inv None tw) as H1 by (apply parked_inv; by right). pose proof (parked_entry SSTOP) as Htp. fold tw in Htp.
  destruct (tb_parent _ _ (rdy_tables _ _ Hr) p i Hin Hp0 Hi) as [Hpar Hne]. destruct (tables_proc _ _ _ (rdy_tables _ _ Hr) Hpar) as [y Hy].
  assert (is_Some (sprocs tw !! c_pptr i)) as Hpy by (cbn; rewrite list_lookup_insert_ne by congruence; by exists y).
  assert (length (sprocs tw) = length (sprocs st)) as Hl by (cbn; apply length_insert). unfold tell_stop.
  assert (forall w2 tw2, sched_inv None tw2 -> settles (c_pptr i) tw tw2 -> posts w w2 ->
    exists st', stop_current p (procaddr (c_pptr i)) (viewed p x tw2) = Ok st' /\ fine st st') as Hstop.
  { intros w2 tw2 H2 S2 P2. destruct (se_proc _ _ _ S2 p _ Htp) as (x2&Hx2&_&_&[->|?]); [congruence| |done].
    destruct (stop_viewed (procaddr (c_pptr i)) tw2) as (st'&E&H'&E'); [done|done|by rewrite (se_cur _ _ _ S2)|done|]. exists st'. split; [done|].
    apply (fine_trans _ tw); [apply parked_fine; by right|]. apply fine_eases; [apply parked_quiet|done|]. etransitivity; [by eapply settles_eases|done]. }
  destruct b.
  - destruct (psignal_chld_viewed p x procaddr (c_pptr i) tw w1 Hne H1 Hs) as [-> |[-> Hrch]]; [by eexists|apply parked_head| |by right]. left.
    destruct (psignal_with_ok procaddr (psignal_chld procaddr) (c_pptr i) SIGCHLD tw w1 H1 Hpy) as (tw2&w2&E2&H2&S2&P2); [unfold SIGCHLD; lia|reflexivity|].
    unfold psignal. rewrite E2. cbn [lift both mbind outcome_bind fst snd].
    destruct (Hstop w2 tw2 H2 S2) as (st'&->&?); [by etransitivity|]. exists st', w2. cbn [mbind outcome_bind]. split_and?; try done. by etransitivity.
  - left. cbn [mbind outcome_bind fst snd]. destruct (Hstop w1 tw H1) as (st'&->&?); [|done|].
    { destruct Hpy as [y' Hy']. apply (settles_insert (c_pptr i) y' y'); auto. by rewrite list_insert_id. }
    exists st', w1. by cbn [mbind outcome_bind].
Qed.

End queueing.

(** ** Every call of [tsleep] *)

Section calls.
Context (procaddr : nat -> Z) (Hproc : forall q, procaddr q <> 0) (e : Z).
Context (st : sched) (w : sigs) (p : nat) (Hr : ready st w) (Hc : cur st = Some p).

#[local] Abbreviation sigintr := (fun p w => u_sigintr (us w p)).

(** A change of [p]'s entry that leaves it running. *)
Lemma fine_me x x' : sprocs st !! p = Some x -> same_sched x x' -> (p = 0%nat -> has (p_flag x') P_SINTR = false) ->
  has (p_flag x') SSYS = has (p_flag x) SSYS -> fine st (set_procs st (<[p:=x']> (sprocs st))).
Proof.
  intros Hx Hs Hf Hsys. destruct Hr as [H Hq Ht]. constructor.
  - rewrite <- (set_runrun_id (set_procs _ _)). by apply (inv_same None st p x).
  - intros r y. cbn. rewrite lookup_put by (by eapply lookup_lt_Some). case_decide; [|by apply Hq]. intros [= <-] Hy. subst r.
    destruct Hy as [?|Hy]; [by apply Hf|]. destruct (inv_cur _ _ H p Hc) as (z&Hz&Hrun&_). rewrite Hx in Hz. injection Hz as <-. destruct Hs as (_&_&E).
    rewrite E, (no_chan None st p x H Hx) in Hy by (by rewrite Hrun). done.
  - cbn. by rewrite length_insert.
  - intros Hst y. cbn. rewrite lookup_put by (by eapply lookup_lt_Some). case_decide as E; [|by apply Hst]. intros [= <-]. rewrite Hsys. apply Hst. by rewrite E.
Qed.

(** From [resume] on. *)
Lemma tsleep_resume_ok catch sig timo co : (catch = true -> sig = 0 -> seeing p st w) ->
  slept_ok st w (tsleep_resume (tsleep_CURSIG procaddr) sigintr e p catch sig timo st w co).
Proof.
  intros Hsee. destruct (inv_cur _ _ (rdy_inv _ _ Hr) p Hc) as (x&Hx&_&_). unfold tsleep_resume. rewrite (rd_ok _ _ _ Hx). cbn [mbind outcome_bind].
  set (x1 := set_flag x _). set (x2 := if negb (Z.land (p_flag x1) P_TIMEOUT =? 0) then _ else x1). set (b := negb (Z.land (p_flag x1) P_TIMEOUT =? 0)).
  assert (same_sched x x2 /\ has (p_flag x2) P_SINTR = false /\ has (p_flag x2) SSYS = has (p_flag x) SSYS) as (Hs&Hf&Hsys).
  { assert (has (Z.ldiff (p_flag x) P_SINTR) P_SINTR = false) as E.
    { unfold has. apply negb_false_iff, Z.eqb_eq, Z.bits_inj'. intros j Hj. rewrite Z.land_spec, Z.ldiff_spec, Z.bits_0. by destruct (Z.testbit (p_flag x) j), (Z.testbit P_SINTR j). }
    assert (forall f, loaded (set_flag x f) = has f SLOAD) as El by done.
    unfold x2. destruct (negb _); cbn [set_flag p_flag x1]; (split; [split; [done|split; [|done]]|split]); unfold loaded; cbn [p_flag set_flag]; fold (has (p_flag x) SLOAD).
    - change (has (Z.ldiff (Z.ldiff (p_flag x) P_SINTR) P_TIMEOUT) SLOAD = has (p_flag x) SLOAD). by rewrite !has_ldiff.
    - by rewrite has_ldiff.
    - by rewrite !has_ldiff.
    - change (has (Z.ldiff (p_flag x) P_SINTR) SLOAD = has (p_flag x) SLOAD). by rewrite has_ldiff.
    - done.
    - by rewrite has_ldiff. }
  rewrite (put_ok _ p x) by done. cbn [mbind outcome_bind]. set (st1 := set_procs st _).
  assert (fine st st1) as Hf1 by (apply (fine_me x x2); auto). assert (ready st1 w) as Hr1 by (eapply fine_ready; [apply Hr|done]).
  assert (forall co v, slept_ok st w (Ok (st1, w, co, Returned v))) as Hret by (intros co' v; by exists st1, w, co', (Returned v)).
  destruct (b && (sig =? 0)); [apply Hret|]. set (co1 := if _ && _ then _ else co). destruct catch; [|apply Hret].
  destruct (Z.eqb_spec sig 0) as [->|]; cbn [negb]; [|cbn [mbind outcome_bind]; apply Hret].
  assert (looking p st1 w) as Hk by (destruct (Hsee eq_refl eq_refl); by constructor).
  unfold tsleep_CURSIG. destruct (CURSIG_ok procaddr Hproc p st1 w Hk) as (st2&w2&t&->&H2&E2&P2&_). cbn [mbind outcome_bind].
  destruct t; cbn [mbind outcome_bind]; eexists st2, w2, co1, _; (split; [done|]); (split; [|done]); (eapply fine_trans; [exact Hf1|]); apply fine_eases; (done || apply Hr1).
Qed.

(** After a stop in the first [CURSIG] the process is on no queue. *)
Lemma tsleep_signal_ok catch sig timo co : (catch = true -> seeing p st w) ->
  (catch = false -> sig <> 0) -> slept_ok st w (tsleep_signal (tsleep_CURSIG procaddr) sigintr e p catch sig timo st w co).
Proof.
  intros Hsee Hcs. destruct (inv_cur _ _ (rdy_inv _ _ Hr) p Hc) as (x&Hx&Hrun&_). unfold tsleep_signal. rewrite (rd_ok _ _ _ Hx). cbn [mbind outcome_bind].
  rewrite (no_chan None st p x) by (by rewrite ?Hrun; try apply Hr). cbn [Z.eqb negb].
  destruct (Z.eqb_spec sig 0) as [Es|Es]; cbn [negb].
  - destruct catch; [|by destruct Hcs]. cbn [andb]. by apply tsleep_resume_ok.
  - cbn [mbind outcome_bind]. rewrite (rd_ok _ _ _ Hx). cbn [mbind outcome_bind]. rewrite (put_ok _ p x) by done. cbn [mbind outcome_bind].
    assert (set_stat x SRUN = x) as -> by (by destruct x; cbn in *; subst). rewrite list_insert_id by done.
    assert (set_procs st (sprocs st) = st) as -> by by destruct st. by apply tsleep_resume_ok.
Qed.

End calls.

(** On its queue, with nothing to stop for. *)
Lemma tsleep_signal_queued procaddr e st w p x0 x q catch sig timo co : (forall q, procaddr q <> 0) -> ready st w -> cur st = Some p -> sprocs st !! p = Some x0 -> slpque st !! HASH (p_wchan x) = Some q -> p_wchan x <> 0 ->
  p_stat x = SRUN -> loaded x = loaded x0 -> has (p_flag x) SSYS = has (p_flag x0) SSYS -> (p = 0%nat \/ p_wchan x = A_RUNOUT -> has (p_flag x) P_SINTR = false) ->
  slept_ok st w (tsleep_signal (tsleep_CURSIG procaddr) (fun p w => u_sigintr (us w p)) e p catch sig timo (queued p x q st) w co).
Proof.
  intros Hproc Hr Hc Hx0 Hq Hw Hs Hl Hsys Hf. pose proof (lookup_lt_Some _ _ _ Hx0) as Hlt. pose proof (lookup_lt_Some _ _ _ Hq) as Hqlt.
  destruct (inv_cur _ _ (rdy_inv _ _ Hr) p Hc) as (y&Hy&Hrun&_). rewrite Hx0 in Hy. injection Hy as <-.
  assert (sprocs (queued p x q st) !! p = Some x) as Hx by (cbn; rewrite lookup_put by done; by rewrite decide_True).
  unfold tsleep_signal. rewrite (rd_ok _ _ _ Hx). cbn [mbind outcome_bind]. rewrite (proj2 (Z.eqb_neq _ _) Hw). cbn [negb].
  destruct (Z.eqb_spec sig 0) as [->|Es]; cbn [negb].
  - rewrite andb_false_r, (put_ok _ p x) by done. cbn [mbind outcome_bind].
    assert (set_cur (set_procs (queued p x q st) (<[p:=set_stat x SSLEEP]> (sprocs (queued p x q st)))) None = parked p x q SSLEEP st) as ->
      by (unfold parked, queued; cbn; by rewrite list_insert_insert_eq).
    destruct (park_ok p x0 x q st w Hr Hc Hx0 Hq Hw Hf Hsys) as (st'&E&?). cbv zeta in E.
    destruct (if negb _ then _ else _) as [st2| |]; [|done..]. cbn [mbind outcome_bind] in *. rewrite E. cbn [mbind outcome_bind].
    exists st', w, co, Asleep. by split_and?.
  - unfold unsleep. rewrite (rd_ok _ _ _ Hx). cbn [mbind outcome_bind]. rewrite (proj2 (Z.eqb_neq _ _) Hw). cbn [negb].
    rewrite (rd_ok _ _ (p :: q)) by (cbn; rewrite lookup_put by done; by rewrite decide_True). cbn [mbind outcome_bind remove1]. rewrite Nat.eqb_refl.
    rewrite wr_ok by (cbn; by rewrite length_insert). cbn [mbind outcome_bind]. rewrite (put_ok _ p x) by done. cbn [mbind outcome_bind].
    set (st2 := set_procs _ _). assert (st2 = set_procs st (<[p:=set_wchan x 0]> (sprocs st))) as ->.
    { unfold st2, queued, set_procs, set_slpque. cbn. by rewrite !list_insert_insert_eq, (list_insert_id (slpque st)). }
    set (st2 := set_procs st _). assert (sprocs st2 !! p = Some (set_wchan x 0)) as Hx2 by (cbn; rewrite lookup_put by done; by rewrite decide_True).
    rewrite (rd_ok _ _ _ Hx2). cbn [mbind outcome_bind]. rewrite (put_ok _ p (set_wchan x 0)) by done. cbn [mbind outcome_bind].
    clear Hx2. subst st2. cbn [set_procs sprocs]. rewrite list_insert_insert_eq. change (set_procs (set_procs st ?a) ?b) with (set_procs st b).
    set (x3 := set_stat _ SRUN). assert (fine st (set_procs st (<[p:=x3]> (sprocs st)))) as F3.
    { apply (fine_me st w p Hr Hc x0 x3); [done|split; [by cbn; rewrite Hrun|split; [done|]]|intros ->; apply Hf; by left|done].
      cbn. symmetry. eapply no_chan; [apply Hr|done|by rewrite Hrun|by rewrite Hrun]. }
    destruct (tsleep_resume_ok procaddr Hproc e (set_procs st (<[p:=x3]> (sprocs st))) w p) with (catch := catch) (sig := sig) (timo := timo) (co := co)
      as (st'&w'&co'&how&->&F4&?); [eapply fine_ready; [apply Hr|done]|done|done|]. exists st', w', co', how. split; [done|]. split; [by eapply fine_trans|done].
Qed.

(** The only way a call of [tsleep] fails: the interruptible sleep of C26. *)
Definition caught_out (p : nat) (ident priority : Z) (st : sched) (w : sigs) : Prop :=
  Z.land priority PCATCH <> 0 /\ p_sig (words w p) <> 0 /\ runout st <> 0 /\ HASH ident = HASH A_RUNOUT /\
  exists i y, ids w !! p = Some i /\ sprocs st !! c_pptr i = Some y /\ p_stat y = SSLEEP /\ has (p_flag y) P_SINTR = true /\ loaded y = false.

Lemma trapped_caught p x0 x q st w i : ready st w -> cur st = Some p -> sprocs st !! p = Some x0 -> slpque st !! HASH (p_wchan x) = Some q -> c_pptr i <> p ->
  trapped p x q st i -> runout st <> 0 /\ HASH (p_wchan x) = HASH A_RUNOUT /\
  exists y, sprocs st !! c_pptr i = Some y /\ p_stat y = SSLEEP /\ has (p_flag y) P_SINTR = true /\ loaded y = false.
Proof.
  intros Hr Hc Hx0 Hq Hne ((y&Hy&Hpy)&Hro&l&Hl&Hp). split; [done|]. cbn in Hy. rewrite list_lookup_insert_ne in Hy by congruence. split; [|by exists y].
  cbn in Hl. rewrite lookup_put in Hl by (by eapply lookup_lt_Some). case_decide as Eh; [done|].
  destruct (inv_sleep _ _ (rdy_inv _ _ Hr) _ _ _ Hl Hp) as (z&Hz&_&_&Hs). destruct (inv_cur _ _ (rdy_inv _ _ Hr) p Hc) as (z'&Hz'&E&_).
  rewrite Hz in Hz'. injection Hz' as <-. rewrite E in Hs. by destruct Hs.
Qed.

(** The entry [tsleep] puts on the queue. *)
Definition entering (x : sproc) (ident priority : Z) : sproc :=
  let x := set_pri (set_slptime (set_wchan x ident) 0) (Z.land priority PRIMASK) in
  if negb (Z.land priority PCATCH =? 0) then set_flag x (Z.lor (p_flag x) P_SINTR) else x.

Lemma loaded_sintr x : loaded (set_flag x (Z.lor (p_flag x) P_SINTR)) = loaded x.
Proof. change (has (Z.lor (p_flag x) P_SINTR) SLOAD = has (p_flag x) SLOAD). by apply has_lor. Qed.

(** There is room for a timeout, if one is asked for. *)
Definition room (timo : Z) (co : callouts) : bool := (timo =? 0) || (INT_MAX <? timo) || bool_decide (callfree co <> []).

Lemma tsleep_enters {W} CURSIG sigintr e p x ident priority timo q st (w : W) co : sprocs st !! p = Some x -> slpque st !! HASH ident = Some q ->
  timo <= INT_MAX -> room timo co = true ->
  exists co', tsleep CURSIG sigintr false e p ident priority timo st w co =
    (r ← (if negb (Z.land priority PCATCH =? 0) then CURSIG p (queued p (entering x ident priority) q st) w else Ok (queued p (entering x ident priority) q st, w, Some 0));
     let '(st, w, sig) := r in
     match sig with
     | None => Ok (st, w, co', StoppedFirst)
     | Some sig => tsleep_signal CURSIG sigintr e p (negb (Z.land priority PCATCH =? 0)) sig timo st w co'
     end).
Proof.
  intros Hx Hq Ht Hroom. pose proof (lookup_lt_Some _ _ _ Hx) as Hlt. unfold tsleep. rewrite (proj2 (Z.ltb_ge _ _)) by lia. cbv iota zeta.
  rewrite (rd_ok _ _ _ Hx). cbn [mbind outcome_bind]. rewrite (rd_ok _ _ _ Hq). cbn [mbind outcome_bind].
  rewrite wr_ok by (by eapply lookup_lt_Some). cbn [mbind outcome_bind]. set (x1 := set_pri _ _). rewrite (put_ok _ p x) by done. cbn [mbind outcome_bind].
  assert (exists co', (if negb (timo =? 0) then timeout co e (Z.of_nat p) timo else Ok co) = Ok co') as [co' ->].
  { unfold room in Hroom. destruct (Z.eqb_spec timo 0); cbn [negb]; [by eexists|]. rewrite (proj2 (Z.ltb_ge _ _)) in Hroom by lia. cbn [orb] in Hroom.
    apply bool_decide_eq_true in Hroom. unfold timeout. destruct (callfree co); [done|by eexists]. }
  exists co'. cbn [mbind outcome_bind]. unfold entering. fold x1. destruct (negb (Z.land priority PCATCH =? 0)); [|done].
  rewrite (put_ok _ p x1) by (cbn; rewrite lookup_put by done; by rewrite decide_True). cbn [mbind outcome_bind].
  unfold queued. cbn. by rewrite list_insert_insert_eq.
Qed.

(** Every call returns with the queues in order, but for that one. *)
Lemma tsleep_ok procaddr e st w p ident priority timo co : (forall q, procaddr q <> 0) -> ready st w -> cur st = Some p -> ident <> 0 ->
  (p = 0%nat -> Z.land priority PCATCH = 0) -> (ident = A_RUNOUT -> p = 0%nat) -> (Z.land priority PCATCH <> 0 -> seeing p st w) -> room timo co = true ->
  let o := tsleep (tsleep_CURSIG procaddr) (fun p w => u_sigintr (us w p)) false e p ident priority timo st w co in
  slept_ok st w o \/ (o = Panic "wakeup" /\ caught_out p ident priority st w).
Proof.
  intros Hproc Hr Hc Hid H0 Hro Hsee Hroom o. destruct (Z.lt_ge_cases INT_MAX timo) as [Ht|Ht].
  { left. unfold o, tsleep. rewrite (proj2 (Z.ltb_lt _ _)) by lia. exists st, w, co, (Returned TS_EINVAL). split; [done|]. split; [constructor; done || apply Hr|done]. }
  destruct (inv_cur _ _ (rdy_inv _ _ Hr) p Hc) as (x0&Hx0&Hrun&_). destruct (queue_exists _ _ ident (rdy_inv _ _ Hr)) as [q Hq].
  destruct (tsleep_enters (tsleep_CURSIG procaddr) (fun p w => u_sigintr (us w p)) e p x0 ident priority timo q st w co Hx0 Hq Ht Hroom) as [co' E].
  unfold o. rewrite E. set (x := entering x0 ident priority).
  assert (p_wchan x = ident /\ p_stat x = SRUN /\ loaded x = loaded x0 /\ has (p_flag x) SSYS = has (p_flag x0) SSYS /\ (Z.land priority PCATCH = 0 -> p_flag x = p_flag x0)) as (Hwx&Hsx&Hlx&Hsys&Hfx).
  { unfold x, entering. destruct (Z.eqb_spec (Z.land priority PCATCH) 0); cbn [negb]; [by split_and?|]. split; [done|]. split; [done|]. split; [by rewrite loaded_sintr|]. split; [by apply has_lor|done]. }
  assert (p = 0%nat \/ p_wchan x = A_RUNOUT -> has (p_flag x) P_SINTR = false) as Hf.
  { rewrite Hwx. intros Hp. assert (p = 0%nat) as Hp0 by (destruct Hp; auto). rewrite Hfx by auto. apply (rdy_quiet _ _ Hr p x0); auto. }
  assert (slpque st !! HASH (p_wchan x) = Some q) as Hqx by (by rewrite Hwx).
  assert (forall catch sig w2, posts w w2 -> slept_ok st w (tsleep_signal (tsleep_CURSIG procaddr) (fun p w => u_sigintr (us w p)) e p catch sig timo (queued p x q st) w2 co')) as Hgo.
  { intros catch sig w2 P2. assert (ready st w2) as Hr2 by (eapply ready_after; [exact Hr|apply Hr|done|done]).
    destruct (tsleep_signal_queued procaddr e st w2 p x0 x q catch sig timo co' Hproc Hr2 Hc) as (st'&w'&co2&how&->&?&?); [done|done|by rewrite Hwx|done..|].
    exists st', w', co2, how. split; [done|]. split; [done|]. by etransitivity. }
  destruct (Z.eqb_spec (Z.land priority PCATCH) 0) as [Ecatch|Hcatch]; cbn [negb]; [left; cbn [mbind outcome_bind]; by apply Hgo|].
  specialize (Hsee Hcatch). assert (seeing p (queued p x q st) w) as Hsq by (destruct Hsee; constructor; try done; cbn; by rewrite length_insert).
  assert (p_sig (words w p) = 0 -> CURSIG procaddr p (queued p x q st) w = Ok (queued p x q st, w, Take 0)) as Hnone.
  { intros E0. unfold CURSIG. rewrite (rd_ok _ _ x) by (cbn; rewrite lookup_put by (by eapply lookup_lt_Some); by rewrite decide_True). cbn [mbind outcome_bind]. by rewrite E0. }
  unfold tsleep_CURSIG. destruct (CURSIG_shape procaddr p _ w Hsq) as [(w'&s&->&P1&Hs)|(w'&i&b&t&E1&P1&Hi&Ht')].
  { left. cbn [mbind outcome_bind]. by apply Hgo. }
  rewrite E1. rewrite (po_ids _ _ P1) in Hi.
  assert (c_pptr i <> p) as Hne by (eapply (tb_parent _ _ (sg_tables _ _ _ Hsee)); [apply Hsee|apply Hsee|done]).
  destruct (tell_stop_queued procaddr Hproc p x0 x q st w Hr Hc Hx0 Hqx) with (i := i) (b := b) (w1 := w') as [(st'&w2&->&?&?)|[E2 Htr]];
    [by rewrite Hwx|done|done|done|done|apply Hsee|apply Hsee|done|rewrite Hwx; intros ->; by apply (sg_not0 _ _ _ Hsee), Hro| |].
  - left. cbn [mbind outcome_bind fst snd]. destruct t; [done|exists st', w2, co', StoppedFirst; by split_and?..].
  - right. split; [by rewrite E2|]. rewrite E2 in E1. cbn [mbind outcome_bind] in E1.
    destruct (trapped_caught p x0 x q st w i Hr Hc Hx0 Hqx Hne Htr) as (?&?&y&?). split; [done|]. split; [intros E0; rewrite Hnone in E1 by done; done|].
    split; [done|]. split; [congruence|]. by exists i, y.
Qed.
