(* ===== verification/Schedproc.v ===== *)
(** * The scheduler at work (the callers of [sys/kern/kern_synch.c] in
    [vm_sched.c], [vm_swap.c], [kern_fork.c], [kern_exit.c], [sys_generic.c],
    [sys_process.c] and [kern_time.c])

    The state is the process table and its queues, the signals and the
    callouts. An event is a stretch of the kernel between two points where
    another process or an interrupt may come in: a call of [tsleep] by the
    current process up to where it gives the processor away, its return from
    there, a pass of the swapper, the halves of [newproc], the end of [exit],
    a signal operation of [Sigcall], an interrupt. A process that is current
    may do any of them: what it was doing when it gave the processor away is
    not remembered, so the runs of the kernel are among those considered.
    The pid search of [newproc], the memory of processes, [vfork] and the
    meters are not in the state. *)
From stdpp Require Import functions.
From S2P Require Import Prelude Clock Sched Cred Signal Sigcall Sigsleep Sleepstop.

Definition SLOCK : Z := 0x0004.
Definition SVFPRNT : Z := 0x0200.
Definition P_LARGE : Z := 0x0040.
Definition P_SELECT : Z := 0x4000.
Definition PSWP : Z := 0.

Record machine := Machine { m_sched : sched; m_sigs : sigs; m_co : callouts }.

Definition set_ids (w : sigs) (l : list cproc) : sigs := Sigs l (allproc w) (pidhash w) (words w) (us w).
Definition set_allproc (w : sigs) (l : list nat) : sigs := Sigs (ids w) l (pidhash w) (words w) (us w).
Definition set_pidhash (w : sigs) (l : list (list nat)) : sigs := Sigs (ids w) (allproc w) l (words w) (us w).

(** ** Other wakings *)

(** [selwakeup], less the count of collisions; [p] is the process recorded,
    if any. *)
Definition selwakeup (selwait : Z) (p : option nat) (coll : bool) (st : sched) : outcome sched :=
  st ← (if coll then wakeup selwait st else Ok st);
  match p with
  | None => Ok st
  | Some p =>
      x ← rd (sprocs st) p;
      if p_wchan x =? selwait then if p_stat x =? SSLEEP then setrun p st else unsleep p st
      else if has (p_flag x) P_SELECT then put st p (set_flag x (Z.ldiff (p_flag x) P_SELECT)) else Ok st
  end.

(** [ptrace] on the process [q] by [p]: its checks and the [setrun] of the
    stopped process. Where it waits in between for the request of another
    tracer it is at this point after the wait: a traced process that is
    stopped is run by its parent only, here. *)
Definition ptrace_run (p q : nat) (st : sched) (w : sigs) : outcome sched :=
  x ← rd (sprocs st) q;
  i ← rd (ids w) p;
  j ← rd (ids w) q;
  if negb (p_stat x =? SSTOP) || negb (c_ppid j =? c_pid i) || negb (has (p_flag x) P_TRACED) then Ok st
  else st ← put st q (set_flag x (Z.ldiff (p_flag x) P_WAITED)); setrun q st.

(** The request PT_TRACE_ME. *)
Definition trace_me (p : nat) (st : sched) : outcome sched := x ← rd (sprocs st) p; put st p (set_flag x (Z.lor (p_flag x) P_TRACED)).

(** The flags [select] ([P_SELECT]), [wait1] ([P_WAITED]), [physio] ([SLOCK])
    and the LARGE window of the swap in memory ([P_LARGE]) set and take
    away. *)
Definition mark_flag (p : nat) (m : Z) (on : bool) (st : sched) : outcome sched :=
  x ← rd (sprocs st) p; put st p (set_flag x (if on then Z.lor (p_flag x) m else Z.ldiff (p_flag x) m)).

(** A process served by [procxmt]. *)
Definition procxmt_awake (p : nat) (st : sched) : outcome sched := x ← rd (sprocs st) p; put st p (set_slptime x 0).

(** More than ten minutes of user time, in [softclock]. *)
Definition overtime (p : nat) (st : sched) : outcome sched :=
  x ← rd (sprocs st) p; st ← put st p (set_nice x (NZERO + 4)); setpri p st.

(** The real-time timer [setitimer] sets, in seconds. *)
Definition setitimer_real (p : nat) (value interval : Z) (st : sched) : outcome sched :=
  x ← rd (sprocs st) p;
  put st p (Sproc (p_stat x) (p_flag x) (p_pri x) (p_scpu x) (p_snice x) (p_slptime x) (p_time x) (p_wchan x) value interval).

(** The tick [hardclock] charges to the current process. *)
Definition charge (p : nat) (st : sched) : outcome sched :=
  x ← rd (sprocs st) p;
  let c := u8 (p_scpu x + 1) in
  put st p (set_cpu x (if c =? 0 then u8 (c - 1) else c)).

(** [setpriority] on one process, through [donice]. *)
Definition renice (me p : nat) (n : Z) (st : sched) (w : sigs) : outcome sched :=
  x ← rd (sprocs st) p;
  i ← rd (ids w) me;
  j ← rd (ids w) p;
  put st p (fst (donice (c_uid i) (us_ruid (us w me)) (c_uid j) x n)).

(** ** Swapping *)

(** The end of [swapout]: the image is out. *)
Definition swapout_end (p : nat) (st : sched) : outcome sched :=
  x ← rd (sprocs st) p;
  st ← put st p (set_ptime (set_flag x (Z.ldiff (p_flag x) (Z.lor SLOAD SLOCK))) 0);
  if negb (runout st =? 0) then wakeup A_RUNOUT (set_runout st 0) else Ok st.

(** [swapout] locks the process while its image is written. *)
Definition swapout_lock (p : nat) (st : sched) : outcome sched :=
  x ← rd (sprocs st) p; put st p (set_flag x (Z.lor (p_flag x) SLOCK)).

(** The search of [sched] for the process to swap in: the one found and its
    time out. *)
Fixpoint find_out (procs : list sproc) (l : list nat) (found : option nat) (out_time : Z) : outcome (option nat * Z) :=
  match l with
  | [] => Ok (found, out_time)
  | p :: l' =>
      x ← rd procs p;
      if negb (p_stat x =? SRUN) || loaded x then find_out procs l' found out_time
      else
        let rptime := p_time x - p_snice x * 8 in
        if (out_time <? rptime) || has (p_flag x) SVFPRNT then
          if has (p_flag x) SVFPRNT then Ok (Some p, rptime) else find_out procs l' (Some p) rptime
        else find_out procs l' found out_time
  end.

(** The search for one in memory. *)
Fixpoint find_core (procs : list sproc) (l : list nat) : outcome (option nat) :=
  match l with
  | [] => Ok None
  | p :: l' =>
      x ← rd procs p;
      if negb (p_stat x =? SZOMB) && (Z.land (p_flag x) (Z.lor SSYS SLOAD) =? SLOAD) then Ok (Some p) else find_core procs l'
  end.

(** Whether the process in memory may be swapped out. *)
Definition may_go (x : sproc) (out_time : Z) : bool :=
  negb (has (p_flag x) SLOCK) &&
  ((p_stat x =? SSTOP) || ((p_stat x =? SSLEEP) && has (p_flag x) P_SINTR) ||
   (((p_stat x =? SRUN) || (p_stat x =? SSLEEP)) && (2 <=? out_time) && (1 <=? p_time x + p_snice x))).

(** What a pass of [sched] comes to: the swapper sleeps, or goes on to swap
    one process out, if any, and another in. *)
Inductive passed := Waits | Swaps (in_core : option nat) (swapped_out : nat).

Section machine.
Context (procaddr : nat -> Z).          (* the address of a table entry *)
Context (selwait endts schedcpu_addr hz : Z). (* of [selwait], [endtsleep] and [schedcpu] *)

#[local] Abbreviation tsl := (tsleep (tsleep_CURSIG procaddr) (fun p w => u_sigintr (us w p)) false endts).

(** One pass of the loop of [sched], by the swapper, after the swapping. *)
Definition sched_pass (st : sched) (w : sigs) (co : callouts) : outcome (sched * sigs * callouts * passed) :=
  let wait chan st := r ← sleep (tsleep_CURSIG procaddr) (fun p w => u_sigintr (us w p)) false endts 0 chan PSWP st w co; Ok (fst r, Waits) in
  r ← find_out (sprocs st) (allproc w) None (-20000);
  match fst r with
  | None => wait A_RUNOUT (set_runout st (u8 (runout st + 1)))
  | Some so =>
      ic ← find_core (sprocs st) (allproc w);
      match ic with
      | None => Ok (st, w, co, Swaps None so)
      | Some ic =>
          x ← rd (sprocs st) ic;
          if may_go x (snd r) then st ← sched_swapout ic st; Ok (st, w, co, Swaps (Some ic) so)
          else wait A_RUNIN (set_runin st (u8 (runin st + 1)))
      end
  end.

(** [swapin], less the memory: a text that cannot be read back costs the
    process its life. *)
Definition swapin (p : nat) (corrupt : bool) (st : sched) (w : sigs) : outcome (sched * sigs) :=
  r ← (if corrupt then psignal procaddr p SIGKILL st w else Ok (st, w));
  st ← swapin_queue p (fst r);
  Ok (st, snd r).

(** ** [newproc] *)

(** Up to the copying of the image, which the child does in its parent's
    place. *)
Definition newproc_tables (parent child : nat) (pid : Z) (w : sigs) : outcome sigs :=
  i ← rd (ids w) parent;
  l ← wr (ids w) child (Cproc pid (c_pid i) parent (c_uid i) (c_pgrp i));
  chain ← rd (pidhash w) (PIDHASH pid);
  h ← wr (pidhash w) (PIDHASH pid) (child :: chain);
  Ok (newproc_signals parent child (set_pidhash (set_ids w l) h)).

Definition newproc_begin (parent child : nat) (pid : Z) (st : sched) (w : sigs) : outcome (sched * sigs) :=
  x ← rd (sprocs st) parent;
  y ← rd (sprocs st) child;
  w ← newproc_tables parent child pid w;
  st ← put st parent (set_stat x SIDL);
  st ← put st child (Sproc SRUN SLOAD (p_pri y) 0 (p_snice x) 0 0 0 0 (p_rtinterval y));
  Ok (set_cur st (Some child), w).

(** From the end of the [swapout] of the child on; between the two nobody is
    in the processor's books. *)
Definition newproc_end (child : nat) (st : sched) (w : sigs) : outcome sched :=
  i ← rd (ids w) child;
  st ← swapout_end child (set_cur st None);
  x ← rd (sprocs st) child;
  st ← put st child (set_flag x (Z.lor (p_flag x) SSWAP));
  y ← rd (sprocs st) (c_pptr i);
  st ← put st (c_pptr i) (set_stat y SRUN);
  Ok (set_cur st (Some (c_pptr i))).

(** ** [exit] and [wait] *)

(** A child of the process that exits goes to process 1. *)
Definition adopt (p : nat) (i : cproc) : cproc := if Nat.eqb (c_pptr i) p then Cproc (c_pid i) 1 1 (c_uid i) (c_pgrp i) else i.

Definition exit_orphan (p q : nat) (st : sched) (w : sigs) : outcome (sched * sigs) :=
  i ← rd (ids w) q;
  if Nat.eqb (c_pptr i) p then
    l ← wr (ids w) q (adopt p i);
    let w := set_ids w l in
    st ← wakeup (procaddr 1%nat) st;
    x ← rd (sprocs st) q;
    if has (p_flag x) P_TRACED then
      st ← put st q (set_flag x (Z.ldiff (p_flag x) P_TRACED));
      psignal procaddr q SIGKILL st w
    else if p_stat x =? SSTOP then
      r ← psignal procaddr q SIGHUP st w;
      psignal procaddr q SIGCONT (fst r) (snd r)
    else Ok (st, w)
  else Ok (st, w).

Fixpoint exit_orphans (p : nat) (l : list nat) (st : sched) (w : sigs) : outcome (sched * sigs) :=
  match l with
  | [] => Ok (st, w)
  | q :: l' => r ← exit_orphan p q st w; exit_orphans p l' (fst r) (snd r)
  end.

(** The processes on [zombproc]: those with the state, in any order. *)
Definition zombies (st : sched) : list nat :=
  List.filter (fun p => match sprocs st !! p with Some x => p_stat x =? SZOMB | None => false end) (seq 0 (length (sprocs st))).

(** The end of [exit], from the process tables on; the processor has no
    process from there on ([noproc]). *)
Definition exit_end (p : nat) (st : sched) (w : sigs) : outcome (sched * sigs) :=
  i ← rd (ids w) p;
  if c_pid i =? 1 then Panic "init died" else
  x ← rd (sprocs st) p;
  st ← put st p (set_stat x SZOMB);
  let st := set_cur st None in
  chain ← rd (pidhash w) (PIDHASH (c_pid i));
  match remove1 p (allproc w), remove1 p chain with
  | None, _ => Fault
  | _, None => Panic "exit"
  | Some l, Some c =>
      h ← wr (pidhash w) (PIDHASH (c_pid i)) c;
      r ← exit_orphans p (l ++ zombies st) st (set_pidhash (set_allproc w l) h);
      r ← psignal procaddr (c_pptr i) SIGCHLD (fst r) (snd r);
      st ← wakeup (procaddr (c_pptr i)) (fst r);
      st ← wakeup A_RUNIN st;
      st ← swtch st;
      Ok (st, snd r)
  end.

(** The zombie [wait1] reports: its entry is free. *)
Definition reap (p : nat) (st : sched) (w : sigs) : outcome (sched * sigs) :=
  x ← rd (sprocs st) p;
  i ← rd (ids w) p;
  st ← put st p (set_wchan (set_flag (set_stat x 0) 0) 0);
  l ← wr (ids w) p (Cproc 0 0 0 (c_uid i) 0);
  Ok (st, set_words (set_ids w l) p (Sigproc 0 0 0 0 (p_ptracesig (words w p)))).

(** ** Going on after a stop *)

(** A process stopped in [issignal] runs again: stopped for a signal, or for
    its tracer, which may have set another. *)
Inductive goon := FromStop (sig : Z) | FromTrace (xmt : bool) (sig : Z).

Definition issignal_again (p : nat) (from : goon) (st : sched) (w : sigs) : outcome (sched * sigs * taken) :=
  match from with
  | FromStop sig => issignal_stopped procaddr p sig st w
  | FromTrace xmt sig => issignal_traced procaddr p xmt st (trace_sig w p sig)
  end.

(** Inside [tsleep]: in its first [CURSIG] or its last. *)
Definition tsleep_again (p : nat) (first : bool) (from : goon) (timo : Z) (st : sched) (w : sigs) (co : callouts)
  : outcome (sched * sigs * callouts * slept) :=
  r ← issignal_again p from st w;
  let '(st, w, t) := r in
  match t with
  | Take sig =>
      if first then tsleep_signal (tsleep_CURSIG procaddr) (fun p w => u_sigintr (us w p)) endts p true sig timo st w co
      else Ok (st, w, co, Returned (tsleep_value (fun p w => u_sigintr (us w p)) p sig w))
  | _ => Ok (st, w, co, if first then StoppedFirst else StoppedLast)
  end.

(** ** Events *)

Inductive event :=
| Sleep (ident priority timo : Z)                 (* the current process calls [tsleep] *)
| Resume (catch : bool) (sig timo : Z)            (* it comes back from [swtch] there *)
| Again (first : bool) (from : goon) (timo : Z)   (* it comes back from a stop there *)
| Signals (e : sigevent)                          (* a signal operation *)
| Wakeup (chan : Z)
| Selwakeup (p : option nat) (coll : bool)
| TraceMe
| Ptrace (q : nat)
| Setitimer (value interval : Z)
| Charge
| Overtime
| Procxmt
| Select (on : bool)
| Physio (on : bool)
| Waited (p : nat)
| Large (p : nat) (on : bool)
| Renice (p : nat) (n : Z)
| Userret
| Timeout (p : nat)                               (* the callout of [tsleep] *)
| Second                                          (* that of [schedcpu] *)
| Idle                                            (* the search of [swtch], after an interrupt *)
| Pass                                            (* of the swapper *)
| SwapoutLock (p : nat)
| SwapoutEnd (p : nat)
| Swapin (p : nat) (corrupt : bool)
| NewprocBegin (child : nat) (pid : Z)
| NewprocEnd
| Exit
| Reap (p : nat)
| Tables (ids' : list cproc) (pidhash' : list (list nat))  (* user ids, groups *)
| Ticks (co' : callouts).                          (* the clock, other timeouts *)

Definition machine_perform (e : event) (m : machine) : outcome machine :=
  let '(Machine st w co) := m in
  let keep (o : outcome sched) := st ← o; Ok (Machine st w co) in
  let both (o : outcome (sched * sigs)) := r ← o; Ok (Machine (fst r) (snd r) co) in
  let all {A} (o : outcome (sched * sigs * callouts * A)) := r ← o; let '(st, w, co, _) := r in Ok (Machine st w co) in
  match e, cur st with
  | Signals e, _ => both (perform procaddr e st w)
  | Wakeup chan, _ => keep (wakeup chan st)
  | Selwakeup p coll, _ => keep (selwakeup selwait p coll st)
  | Timeout p, _ => keep (endtsleep p st)
  | Second, _ => r ← schedcpu (psignal procaddr) schedcpu_addr hz (allproc w) st w co; let '(st, w, co) := r in Ok (Machine st w co)
  | Idle, None => keep (swtch st)
  | SwapoutLock p, _ => keep (swapout_lock p st)
  | SwapoutEnd p, _ => keep (swapout_end p st)
  | Swapin p corrupt, _ => both (swapin p corrupt st w)
  | Tables ids' hash', _ => Ok (Machine st (set_pidhash (set_ids w ids') hash') co)
  | Ticks co', _ => Ok (Machine st w co')
  | Sleep ident priority timo, Some me => all (tsl me ident priority timo st w co)
  | Resume catch sig timo, Some me => all (tsleep_resume (tsleep_CURSIG procaddr) (fun p w => u_sigintr (us w p)) endts me catch sig timo st w co)
  | Again first from timo, Some me => all (tsleep_again me first from timo st w co)
  | TraceMe, Some me => keep (trace_me me st)
  | Ptrace q, Some me => keep (ptrace_run me q st w)
  | Setitimer value interval, Some me => keep (setitimer_real me value interval st)
  | Charge, Some me => keep (charge me st)
  | Overtime, Some me => keep (overtime me st)
  | Procxmt, Some me => keep (procxmt_awake me st)
  | Select on, Some me => keep (mark_flag me P_SELECT on st)
  | Physio on, Some me => keep (mark_flag me SLOCK on st)
  | Waited p, _ => keep (mark_flag p P_WAITED true st)
  | Large p on, _ => keep (mark_flag p P_LARGE on st)
  | Renice p n, Some me => keep (renice me p n st w)
  | Userret, Some me => keep (userret me st)
  | Pass, Some me => all (sched_pass st w co)
  | NewprocBegin child pid, Some me => both (newproc_begin me child pid st w)
  | NewprocEnd, Some me => keep (newproc_end me st w)
  | Exit, Some me => both (exit_end me st w)
  | Reap p, Some me => both (reap p st w)
  | _, _ => Ok m
  end.

(** The process [p] has an entry for which [ok] holds. *)
Definition entry_ok (st : sched) (p : nat) (ok : sproc -> Prop) : Prop := exists x, sprocs st !! p = Some x /\ ok x.

(** The current process has its signals: it is no swapper. *)
Definition user_current (st : sched) (w : sigs) : Prop := exists p, cur st = Some p /\ p ∈ allproc w /\ p <> 0%nat.

(** What the kernel guarantees of an event where it happens: channels are
    addresses, the swapper and nobody else waits on [runout] and does not
    sleep interruptibly, a timeout finds a free callout, and the tables of
    processes stay a tree. *)
Definition machine_allowed (e : event) (m : machine) : Prop :=
  let '(Machine st w co) := m in
  match e with
  | Sleep ident priority timo =>
      ident <> 0 /\ room timo co = true /\ (ident = A_RUNOUT -> cur st = Some 0%nat) /\
      (Z.land priority PCATCH <> 0 -> user_current st w)
  | Resume catch sig _ => catch = true -> user_current st w
  | Again _ (FromStop sig) _ => user_current st w /\ 1 <= sig <= 31
  | Again _ (FromTrace _ sig) _ => user_current st w /\ 0 <= sig <= 31
  | Signals (EKernel _ _ _ _) | Signals (EFork _) => False
  | Signals e => allowed e st w
  | Wakeup chan => chan <> 0
  | Selwakeup p _ => match p with Some p => entry_ok st p (fun _ => True) | None => True end
  | TraceMe | Setitimer _ _ | Charge | Overtime | Procxmt | Select _ | Physio _ | Userret | Idle | Ticks _ => True
  | Ptrace q | Renice q _ => (exists p, cur st = Some p /\ p ∈ allproc w) /\ q ∈ allproc w
  | Timeout p | SwapoutLock p | Waited p | Large p _ => entry_ok st p (fun _ => True)
  | Second => callfree co <> []
  | Pass => cur st = Some 0%nat
  | SwapoutEnd p => entry_ok st p (fun x => loaded x = false)
  | Swapin p _ => entry_ok st p (fun x => loaded x = false)
  | NewprocBegin child pid =>
      exists p, cur st = Some p /\ running st w /\ child <> 0%nat /\ child ∉ allproc w /\ entry_ok st child (fun x => p_stat x = 0) /\
        forall w', newproc_tables p child pid w = Ok w' -> tables_ok (length (sprocs st)) w'
  | NewprocEnd =>
      (* the parent is where [newproc] left it *)
      exists p i, cur st = Some p /\ p <> 0%nat /\ p ∈ allproc w /\ ids w !! p = Some i /\ entry_ok st (c_pptr i) (fun y => p_stat y = SIDL /\ loaded y = true)
  | Exit =>
      exists p i chain, cur st = Some p /\ p <> 0%nat /\ p ∈ allproc w /\ ids w !! p = Some i /\ c_pid i <> 1 /\
        pidhash w !! PIDHASH (c_pid i) = Some chain /\ p ∈ chain /\
        forall st' w', exit_end p st w = Ok (st', w') -> tables_ok (length (sprocs st)) w'
  | Reap p =>
      (exists me, cur st = Some me) /\ p <> 0%nat /\ p ∉ allproc w /\ entry_ok st p (fun x => p_stat x = SZOMB) /\
        forall st' w', reap p st w = Ok (st', w') -> tables_ok (length (sprocs st)) w'
  | Tables ids' hash' => tables_ok (length (sprocs st)) (set_pidhash (set_ids w ids') hash')
  end.

End machine.

(** ** Every operation keeps the queues *)

(** [o], from [st], returns with everything in order; [does]: with the same
    process current. *)
Definition goes (st : sched) (o : outcome sched) : Prop := exists st', o = Ok st' /\ fine st st'.
Definition does (st : sched) (o : outcome sched) : Prop := exists st', o = Ok st' /\ fine st st' /\ cur st' = cur st.

Lemma does_goes st o : does st o -> goes st o.
Proof. intros (st'&?&?&_). by exists st'. Qed.

Lemma fine_refl st : sched_inv None st -> quiet st -> fine st st.
Proof. intros. by constructor. Qed.

Lemma does_ret st st' : fine st st' -> cur st' = cur st -> does st (Ok st').
Proof. intros. by exists st'. Qed.

Lemma does_same st : sched_inv None st -> quiet st -> does st (Ok st).
Proof. intros. apply does_ret; [by apply fine_refl|done]. Qed.

Lemma does_bind st o (k : sched -> outcome sched) : does st o -> (forall st', fine st st' -> does st' (k st')) -> does st (o ≫= k).
Proof.
  intros (st1&->&F1&C1) Hk. cbn [mbind outcome_bind]. destruct (Hk st1 F1) as (st2&->&F2&C2). exists st2. split; [done|].
  split; [by eapply fine_trans|congruence].
Qed.

Lemma does_if (b : bool) st o1 o2 : (b = true -> does st o1) -> (b = false -> does st o2) -> does st (if b then o1 else o2).
Proof. destruct b; auto. Qed.

Section does.
Context (st : sched) (H : sched_inv None st) (Hq : quiet st).

Lemma does_ok st' : sched_inv None st' -> eases st st' -> cur st' = cur st -> does st (Ok st').
Proof. intros H' He Hc. apply does_ret; [by apply fine_eases|done]. Qed.

Lemma put_fine p x x' : sprocs st !! p = Some x -> same_sched x x' -> same_flags x x' -> fine st (set_procs st (<[p:=x']> (sprocs st))).
Proof.
  intros Hx Hs Hf. apply fine_eases; [done| |]; [rewrite <- (set_runrun_id (set_procs _ _)); by apply (inv_same None st p x)|].
  apply (insert_eases st p x); [done|done|apply Hs].
Qed.

Lemma put_does p x x' : sprocs st !! p = Some x -> same_sched x x' -> same_flags x x' -> does st (put st p x').
Proof. intros Hx Hs Hf. rewrite (put_ok _ p x) by done. apply does_ret; [by apply (put_fine p x)|done]. Qed.

Lemma wakeup_does chan : chan <> 0 -> does st (wakeup chan st).
Proof. intros Hc. destruct (wakeup_inv chan st Hc H) as (st'&->&H'&Hw&_). apply does_ok; [done|by eapply wakes_eases|apply Hw]. Qed.

Lemma setrun_does p x : sprocs st !! p = Some x -> p_stat x = SSTOP \/ p_stat x = SSLEEP -> does st (setrun p st).
Proof. intros Hx Hs. destruct (setrun_settles st p x H Hx) as (st'&x'&->&H'&S&_); [tauto|]. apply does_ok; [done|by eapply settles_eases|apply S]. Qed.

Lemma unsleep_does p x : sprocs st !! p = Some x -> p_stat x <> SSLEEP -> does st (unsleep p st).
Proof.
  intros Hx Hs. destruct (unsleep_stopped st p x H Hx Hs) as (st'&x'&E&H'&_).
  destruct (unsleep_inv st p x H Hx) as (st2&x2&E2&_&Ep&_&Ef&Ew&_&_&_&Ec&_). rewrite E in E2. injection E2 as <-. rewrite E.
  apply does_ok; [done| |done]. apply (settles_eases p), (settles_insert p x x2); auto.
Qed.

Lemma swtch_goes : cur st = None -> goes st (swtch st).
Proof. intros Hc. destruct (swtch_inv st) as (st'&E&H'&_); [by rewrite set_cur_none|]. exists st'. split; [done|]. apply fine_eases; [done|done|by apply swtch_eases]. Qed.

Lemma setpri_does p x : sprocs st !! p = Some x -> does st (setpri p st).
Proof.
  intros Hx. destruct (setpri_inv None st p x Hx H) as (st'&x'&->&H'&E&(S1&S2&S3)&_&_&Ec&_&Ef&_). apply does_ok; [done| |done].
  apply (settles_eases p), (settles_insert p x x'); auto.
Qed.

Lemma userret_goes p : cur st = Some p -> goes st (userret p st).
Proof.
  intros Hc. destruct (userret_inv st p H Hc) as (st'&E&H'). exists st'. split; [done|]. apply fine_eases; [done|done|]. unfold userret in E.
  apply outcome_bind_ok in E as (st1&E1&E). destruct (inv_cur _ _ H p Hc) as (x&Hx&_).
  destruct (setpri_inv None st p x Hx H) as (st1''&x1&E1''&_&Ep&(S1&S2&S3)&_&_&Ec&_&Ef&_). rewrite E1 in E1''. injection E1'' as <-.
  assert (eases st st1) as He by (apply (settles_eases p), (settles_insert p x x1); auto).
  apply outcome_bind_ok in E as (y&_&E). etransitivity; [exact He|]. destruct (negb _); [|injection E as <-; by destruct He; constructor; auto; intros r z Hz; exists z; split_and?; auto; done].
  apply swtch_eases in E as []. by constructor.
Qed.

Lemma endtsleep_does p x : sprocs st !! p = Some x -> does st (endtsleep p st).
Proof.
  intros Hx. unfold endtsleep. rewrite (rd_ok _ _ _ Hx). cbn [mbind outcome_bind]. apply does_if; [intros _|intros _; by apply does_same].
  apply does_bind; [apply does_if; intros Hs; [apply Z.eqb_eq in Hs; by apply (setrun_does p x); auto|apply Z.eqb_neq in Hs; by apply (unsleep_does p x)]|].
  intros st1 F1. destruct (lookup_lt_is_Some_2 (sprocs st1) p) as [x1 Hx1]; [rewrite (fi_len _ _ F1); by eapply lookup_lt_Some|].
  rewrite (rd_ok _ _ _ Hx1). cbn [mbind outcome_bind]. rewrite (put_ok _ p x1) by done. apply does_ret; [|done]. apply fine_eases; [apply F1|by apply flag_inv; [apply F1|..]|].
  apply (insert_eases st1 p x1); [done|split; by apply has_lor|done].
Qed.

End does.

(** The same for an operation that also changes the signals: the actions and
    masks stay. *)
Record same_words (w w' : sigs) : Prop := {
  sw_us : us w' = us w;
  sw_mask : forall q, p_sigmask (words w' q) = p_sigmask (words w q);
  sw_ignore : forall q, p_sigignore (words w' q) = p_sigignore (words w q);
  sw_catch : forall q, p_sigcatch (words w' q) = p_sigcatch (words w q);
  sw_sig : forall q, word31 (p_sig (words w q)) -> word31 (p_sig (words w' q));
  sw_len : length (ids w') = length (ids w);
  sw_all : allproc w' = allproc w
}.

#[export] Instance same_words_preorder : PreOrder same_words.
Proof. split; [by constructor|]. intros w1 w2 w3 [] []. constructor; try congruence. auto. Qed.

#[export] Instance posts_same : subrelation posts same_words.
Proof. intros w w' []. constructor; congruence || auto. Qed.

Lemma set_ids_same w l : length l = length (ids w) -> same_words w (set_ids w l).
Proof. by constructor. Qed.

Definition does2 (R : relation sigs) (st : sched) (w : sigs) (o : outcome (sched * sigs)) : Prop :=
  exists st' w', o = Ok (st', w') /\ fine st st' /\ cur st' = cur st /\ R w w'.

Section does2_rules.
Context {R : relation sigs} `{!PreOrder R}.

Lemma does2_ret st w st' w' : fine st st' -> cur st' = cur st -> R w w' -> does2 R st w (Ok (st', w')).
Proof. intros. by exists st', w'. Qed.

Lemma does2_bind st w o (k : sched * sigs -> outcome (sched * sigs)) : does2 R st w o ->
  (forall st' w', fine st st' -> R w w' -> does2 R st' w' (k (st', w'))) -> does2 R st w (o ≫= k).
Proof.
  intros (st1&w1&->&F1&C1&S1) Hk. cbn [mbind outcome_bind]. destruct (Hk st1 w1 F1 S1) as (st2&w2&->&F2&C2&S2).
  exists st2, w2. split; [done|]. split; [by eapply fine_trans|]. split; [congruence|by etransitivity].
Qed.

Lemma does_bind2 st w o (k : sched -> outcome (sched * sigs)) : does st o -> (forall st', fine st st' -> does2 R st' w (k st')) -> does2 R st w (o ≫= k).
Proof.
  intros (st1&->&F1&C1) Hk. cbn [mbind outcome_bind]. destruct (Hk st1 F1) as (st2&w2&->&F2&C2&S2). exists st2, w2. split; [done|].
  split; [by eapply fine_trans|]. split; [congruence|done].
Qed.

Lemma does2_after st w0 w o : does2 R st w o -> R w0 w -> does2 R st w0 o.
Proof. intros (st'&w'&->&F&C&S) Hs. apply does2_ret; [done|done|by etransitivity]. Qed.

Lemma does2_same st w : sched_inv None st -> quiet st -> does2 R st w (Ok (st, w)).
Proof. intros. apply does2_ret; [by apply fine_refl|done|done]. Qed.

End does2_rules.

Lemma does2_words st w o : does2 posts st w o -> does2 same_words st w o.
Proof. intros (st'&w'&->&F&C&P). apply does2_ret; [done|done|by apply posts_same]. Qed.

Lemma fine_lookup st st' p : fine st st' -> is_Some (sprocs st !! p) -> is_Some (sprocs st' !! p).
Proof. intros F Hp. apply lookup_lt_is_Some. rewrite (fi_len _ _ F). by apply lookup_lt_is_Some. Qed.

Section does2.
Context (procaddr : nat -> Z) (Hproc : forall q, procaddr q <> 0).

(** Posting a signal that stops nobody. *)
Lemma psignal_does st w p sig : sched_inv None st -> quiet st -> is_Some (sprocs st !! p) -> 1 <= sig <= 31 -> has (prop_of sig) SA_STOP = false ->
  does2 posts st w (psignal procaddr p sig st w).
Proof.
  intros H Hq Hp Hs Hn. destruct (psignal_with_ok procaddr (psignal_chld procaddr) p sig st w H Hp Hs Hn) as (st'&w'&E&H'&S&P).
  unfold psignal. rewrite E. exists st', w'. split; [done|]. split; [apply fine_eases; [done|done|by eapply settles_eases]|]. split; [apply S|done].
Qed.

(** *** Once a second *)

Lemma schedcpu_one_does st w p : sched_inv None st -> quiet st -> is_Some (sprocs st !! p) -> does2 posts st w (schedcpu_one (psignal procaddr) p st w).
Proof.
  intros H Hq [x Hx]. unfold schedcpu_one. rewrite (rd_ok _ _ _ Hx). cbn [mbind outcome_bind].
  set (x0 := if negb (p_time x =? 127) then _ else _). destruct (realtimer_tick x0) as [x1 alarm] eqn:E1.
  assert (same_sched x x1 /\ same_flags x x1) as [Hs1 Hf1].
  { assert (same_sched x x0 /\ p_flag x0 = p_flag x) as [? Ef] by (unfold x0; by destruct (negb _)).
    unfold realtimer_tick in E1. unfold same_flags. repeat case_match; simplify_eq; cbn; rewrite ?Ef; done. }
  apply does_bind2; [by apply (put_does st H Hq p x)|]. intros st1 F1. destruct (fine_lookup _ _ p F1) as [x1' Hx1]; [by exists x|].
  apply does2_bind; [destruct alarm; [apply psignal_does; [apply F1|apply F1|by eexists|unfold SIGALRM; lia|reflexivity]|apply does2_same; apply F1]|].
  intros st2 w2 F2 _. destruct (fine_lookup _ _ p F2) as [x2 Hx2]; [by exists x1'|].
  rewrite (rd_ok _ _ _ Hx2). cbn [mbind outcome_bind]. set (x3 := if alarm then _ else _). set (x4 := if _ && _ then _ else x3).
  assert (same_sched x2 x4 /\ same_flags x2 x4) as [Hs4 Hf4].
  { assert (same_sched x2 x3 /\ p_flag x3 = p_flag x2) as [? Ef] by (unfold x3; by destruct alarm). unfold x4, same_flags. destruct (_ && _); cbn; rewrite ?Ef; done. }
  destruct (1 <? p_slptime x4).
  { apply does_bind2; [apply (put_does st2 (fi_inv _ _ F2) (fi_quiet _ _ F2) p x2); done|]. intros st3 F3. apply does2_same; apply F3. }
  set (a := if 255 <? _ then _ else _). apply does_bind2; [apply (put_does st2 (fi_inv _ _ F2) (fi_quiet _ _ F2) p x2); done|]. intros st3 F3.
  destruct (fine_lookup _ _ p F3) as [x5 Hx5]; [by exists x2|].
  apply does_bind2; [destruct (PUSER <=? p_pri x4); [apply (setpri_does st3 (fi_inv _ _ F3) (fi_quiet _ _ F3) p x5); done|apply does_same; apply F3]|].
  intros st4 F4. apply does2_same; apply F4.
Qed.

Lemma schedcpu_loop_does l st w : sched_inv None st -> quiet st -> (forall p, p ∈ l -> is_Some (sprocs st !! p)) -> does2 posts st w (schedcpu_loop (psignal procaddr) l st w).
Proof.
  revert st w. induction l as [|p l IH]; intros st w H Hq Hl; cbn [schedcpu_loop]; [by apply does2_same|].
  apply does2_bind; [apply schedcpu_one_does; [done|done|apply Hl; by left]|]. intros st1 w1 F1 _. cbn [fst snd].
  apply IH; [apply F1|apply F1|]. intros q Hq'. eapply fine_lookup; [exact F1|]. apply Hl. by right.
Qed.

Lemma fine_runrun st n : sched_inv None st -> quiet st -> fine st (set_runrun st n).
Proof. intros H Hq. constructor; [destruct H; by constructor|done..]. Qed.

Lemma fine_runin st n : sched_inv None st -> quiet st -> fine st (set_runin st n).
Proof. intros H Hq. constructor; [destruct H; by constructor|done..]. Qed.

Lemma fine_runout st n : sched_inv None st -> quiet st -> fine st (set_runout st n).
Proof. intros H Hq. constructor; [destruct H; by constructor|done..]. Qed.

Lemma schedcpu_does self hz l st w co : sched_inv None st -> quiet st -> (forall p, p ∈ l -> is_Some (sprocs st !! p)) -> callfree co <> [] ->
  exists st' w' co', schedcpu (psignal procaddr) self hz l st w co = Ok (st', w', co') /\ fine st st' /\ posts w w'.
Proof.
  intros H Hq Hl Hco. unfold schedcpu. destruct (wakeup_does st H Hq A_LBOLT) as (st1&->&F1&_); [done|]. cbn [mbind outcome_bind].
  destruct (schedcpu_loop_does l st1 w) as (st2&w2&->&F2&_&S2); [apply F1|apply F1|intros p Hp; eapply fine_lookup; eauto|]. cbn [mbind outcome_bind].
  assert (does st2 (if negb (runin st2 =? 0) then wakeup A_RUNIN (set_runin st2 0) else Ok st2)) as (st3&->&F3&_).
  { apply does_if; [|intros _; apply does_same; apply F2]. intros _. destruct (fine_runin st2 0) as [X1 X2 X3 X4]; [apply F2|apply F2|].
    destruct (wakeup_does (set_runin st2 0) X1 X2 A_RUNIN) as (st3&->&F3&C3); [done|]. apply does_ret; [eapply fine_trans; [by constructor|exact F3]|done]. }
  cbn [mbind outcome_bind]. unfold timeout. destruct (callfree co) as [|c free]; [done|]. cbn [mbind outcome_bind].
  eexists _, w2, _. split; [done|]. split; [|done]. eapply fine_trans; [exact F1|]. eapply fine_trans; [exact F2|]. eapply fine_trans; [exact F3|].
  apply fine_runrun; apply F3.
Qed.

End does2.

(** *** Swapping *)

Lemma same_flags_ldiff x m : Z.land m P_SINTR = 0 -> Z.land m SSYS = 0 -> same_flags x (set_flag x (Z.ldiff (p_flag x) m)).
Proof. intros. split; by apply has_ldiff. Qed.

Lemma same_flags_lor x m : Z.land m P_SINTR = 0 -> Z.land m SSYS = 0 -> same_flags x (set_flag x (Z.lor (p_flag x) m)).
Proof. intros. split; by apply has_lor. Qed.

Lemma loaded_ldiff x m : Z.land m SLOAD = 0 -> loaded (set_flag x (Z.ldiff (p_flag x) m)) = loaded x.
Proof. intros. change (has (Z.ldiff (p_flag x) m) SLOAD = has (p_flag x) SLOAD). by apply has_ldiff. Qed.

Lemma loaded_lor x m : Z.land m SLOAD = 0 -> loaded (set_flag x (Z.lor (p_flag x) m)) = loaded x.
Proof. intros. change (has (Z.lor (p_flag x) m) SLOAD = has (p_flag x) SLOAD). by apply has_lor. Qed.

Lemma loaded_out x : loaded (set_ptime (set_flag x (Z.ldiff (p_flag x) (Z.lor SLOAD SLOCK))) 0) = false.
Proof.
  unfold loaded. cbn [p_flag set_ptime set_flag]. apply negb_false_iff, Z.eqb_eq, Z.bits_inj'. intros j Hj. rewrite Z.land_spec, Z.ldiff_spec, Z.bits_0.
  change (Z.lor SLOAD SLOCK) with (Z.lor 1 4). rewrite Z.lor_spec. change SLOAD with 1. by destruct (Z.testbit (p_flag x) j), (Z.testbit 1 j), (Z.testbit 4 j).
Qed.

Section swapping.
Context (st : sched) (H : sched_inv None st) (Hq : quiet st).

Lemma wakeup_swapper : does st (if negb (runout st =? 0) then wakeup A_RUNOUT (set_runout st 0) else Ok st).
Proof.
  apply does_if; intros _; [|by apply does_same]. pose proof (fine_runout st 0 H Hq) as F.
  destruct (wakeup_does _ (fi_inv _ _ F) (fi_quiet _ _ F) A_RUNOUT) as (st'&->&F'&C'); [done|]. apply does_ret; [by eapply fine_trans|done].
Qed.

Lemma swapout_lock_does p x : sprocs st !! p = Some x -> does st (swapout_lock p st).
Proof.
  intros Hx. unfold swapout_lock. rewrite (rd_ok _ _ _ Hx). cbn [mbind outcome_bind]. apply (put_does st H Hq p x); [done| |by apply same_flags_lor].
  split; [done|]. split; [by apply loaded_lor|done].
Qed.

Lemma sched_swapout_does p x : sprocs st !! p = Some x -> loaded x = true -> cur st <> Some p -> does st (sched_swapout p st).
Proof.
  intros Hx Hl Hc. destruct (swapout_inv st p x H Hx Hl Hc) as (st'&E&H'). rewrite E. unfold sched_swapout in E.
  rewrite (rd_ok _ _ _ Hx) in E. cbn [mbind outcome_bind] in E. rewrite (put_ok _ p x) in E by done. cbn [mbind outcome_bind] in E.
  set (x' := set_flag x _) in E. assert (eases st (set_procs st (<[p:=x']> (sprocs st)))) as He by (by apply (insert_eases st p x); [|apply same_flags_ldiff|]).
  destruct (_ =? SRUN); [|injection E as <-; by apply (does_ok st Hq)].
  unfold remrq in E. destruct (remove1 _ _); [|done]. injection E as <-. apply (does_ok st Hq); [done| |done]. by destruct He; constructor.
Qed.

Lemma swapin_queue_does p x : sprocs st !! p = Some x -> loaded x = false -> does st (swapin_queue p st).
Proof.
  intros Hx Hl. destruct (swapin_inv st p x H Hx Hl) as (st'&E&H'). rewrite E. apply (does_ok st Hq); [done|..]; unfold swapin_queue in E.
  2: { rewrite (rd_ok _ _ _ Hx) in E. cbn [mbind outcome_bind] in E. rewrite (put_ok _ p x) in E by (by destruct (_ =? SRUN)). injection E as <-. by destruct (_ =? SRUN). }
  rewrite (rd_ok _ _ _ Hx) in E. cbn [mbind outcome_bind] in E. rewrite (put_ok _ p x) in E by by destruct (_ =? SRUN). injection E as <-.
  assert (eases st (set_procs st (<[p:=set_ptime (set_flag x (Z.lor (p_flag x) SLOAD)) 0]> (sprocs st)))) as [] by (apply (insert_eases st p x); [done|by apply same_flags_lor|done]).
  destruct (_ =? SRUN); by constructor.
Qed.

(** The end of [swapout] of a process that is not in memory any more. *)
Lemma swapout_end_does p x : sprocs st !! p = Some x -> loaded x = false -> does st (swapout_end p st).
Proof.
  intros Hx Hl. unfold swapout_end. rewrite (rd_ok _ _ _ Hx). cbn [mbind outcome_bind]. set (x' := set_ptime _ 0).
  apply does_bind; [apply (put_does st H Hq p x); [done| |by split; apply has_ldiff]|].
  - split; [done|]. split; [|done]. rewrite Hl. apply loaded_out.
  - intros st' F. pose proof (fine_runout st' 0 (fi_inv _ _ F) (fi_quiet _ _ F)) as F2. apply does_if; [intros _|intros _; apply does_same; apply F].
    destruct (wakeup_does _ (fi_inv _ _ F2) (fi_quiet _ _ F2) A_RUNOUT) as (st2&->&F3&C3); [done|]. apply does_ret; [by eapply fine_trans|done].
Qed.

(** The searches look at processes of the list only. *)
Lemma find_out_ok l found t : (forall p, p ∈ l -> is_Some (sprocs st !! p)) -> exists r, find_out (sprocs st) l found t = Ok r.
Proof.
  revert found t. induction l as [|p l IH]; intros found t Hl; cbn [find_out]; [by eexists|]. destruct (Hl p) as [x Hx]; [by left|].
  rewrite (rd_ok _ _ _ Hx). cbn [mbind outcome_bind]. assert (forall q, q ∈ l -> is_Some (sprocs st !! q)) by (intros; apply Hl; by right).
  destruct (_ || _); [by apply IH|]. destruct (_ || _); [|by apply IH]. destruct (has _ _); [by eexists|by apply IH].
Qed.

Lemma find_core_ok l : (forall p, p ∈ l -> is_Some (sprocs st !! p)) -> exists r, find_core (sprocs st) l = Ok r /\
  forall p, r = Some p -> exists x, sprocs st !! p = Some x /\ loaded x = true /\ has (p_flag x) SSYS = false.
Proof.
  induction l as [|p l IH]; intros Hl; cbn [find_core]; [by exists None|]. destruct (Hl p) as [x Hx]; [by left|].
  rewrite (rd_ok _ _ _ Hx). cbn [mbind outcome_bind]. destruct (_ && _) eqn:E; [|apply IH; intros; apply Hl; by right].
  exists (Some p). split; [done|]. intros q [= <-]. exists x. split; [done|]. apply andb_true_iff in E as [_ E%Z.eqb_eq].
  assert (forall j, 0 <= j -> Z.testbit (p_flag x) j && Z.testbit (Z.lor SSYS SLOAD) j = Z.testbit SLOAD j) as Hb by (intros j Hj; by rewrite <- Z.land_spec, E).
  pose proof (Hb 0 ltac:(lia)) as B0. pose proof (Hb 1 ltac:(lia)) as B1. change (Z.testbit (Z.lor SSYS SLOAD) 0) with true in B0. change (Z.testbit SLOAD 0) with true in B0.
  change (Z.testbit (Z.lor SSYS SLOAD) 1) with true in B1. change (Z.testbit SLOAD 1) with false in B1. rewrite andb_true_r in B0, B1.
  split.
  - unfold loaded. change SLOAD with (2 ^ 0). change (has (p_flag x) (2 ^ 0) = true). rewrite <- B0. apply land_bit. lia.
  - change SSYS with (2 ^ 1). unfold has. rewrite land_bit by lia. done.
Qed.

End swapping.

Lemma swapin_does procaddr p corrupt st w x : sched_inv None st -> quiet st -> sprocs st !! p = Some x -> loaded x = false -> does2 posts st w (swapin procaddr p corrupt st w).
Proof.
  intros H Hq Hx Hl. unfold swapin.
  assert (exists st1 w1 x1, (if corrupt then psignal procaddr p SIGKILL st w else Ok (st, w)) = Ok (st1, w1) /\ fine st st1 /\ cur st1 = cur st /\ posts w w1 /\ sprocs st1 !! p = Some x1 /\ loaded x1 = false)
    as (st1&w1&x1&->&F1&C1&S1&Hx1&Hl1).
  { destruct corrupt; [|exists st, w, x; split_and?; try done; by apply fine_refl].
    destruct (psignal_with_ok procaddr (psignal_chld procaddr) p SIGKILL st w H) as (st'&w'&E&H'&S&P); [by exists x|unfold SIGKILL; lia|reflexivity|].
    destruct (se_proc _ _ _ S p x Hx) as (x'&Hx'&Hf&_). exists st', w', x'. split; [exact E|]. split; [apply fine_eases; [done|done|by eapply settles_eases]|].
    split; [apply S|]. split; [done|]. split; [done|]. unfold loaded in *. by rewrite Hf. }
  cbn [mbind outcome_bind fst snd]. destruct (swapin_queue_does st1 (fi_inv _ _ F1) (fi_quiet _ _ F1) p x1 Hx1 Hl1) as (st2&->&F2&C2). cbn [mbind outcome_bind].
  apply does2_ret; [by eapply fine_trans|congruence|done].
Qed.

Lemma slept_same st w o : slept_ok st w o -> exists st' w' co how, o = Ok (st', w', co, how) /\ fine st st' /\ posts w w'.
Proof. intros (st'&w'&co&how&->&F&P). exists st', w', co, how. split; [done|]. by split. Qed.

Section pass.
Context (procaddr : nat -> Z) (Hproc : forall q, procaddr q <> 0) (endts : Z).

(** The swapper sleeps. *)
Lemma swapper_sleeps st w co chan : ready st w -> cur st = Some 0%nat -> chan <> 0 ->
  exists st' w' co' r, sleep (tsleep_CURSIG procaddr) (fun p w => u_sigintr (us w p)) false endts 0 chan PSWP st w co = Ok (st', w', co', r) /\ fine st st' /\ posts w w'.
Proof.
  intros Hr Hc Hch. unfold sleep. change (sleep_priority PSWP) with 0.
  destruct (tsleep_ok procaddr endts st w 0 chan 0 0 co Hproc Hr Hc Hch) as [Ho|[_ [? _]]]; [done|done|done|done| |done].
  destruct (slept_same _ _ _ Ho) as (st'&w'&co'&how&->&?&?). cbn [mbind outcome_bind fst snd]. by eexists st', w', co', _.
Qed.

Lemma sched_pass_does st w co : ready st w -> system st -> cur st = Some 0%nat ->
  exists st' w' co' r, sched_pass procaddr endts st w co = Ok (st', w', co', r) /\ fine st st' /\ posts w w'.
Proof.
  intros Hr Hsys Hc. pose proof (rdy_inv _ _ Hr) as H. pose proof (rdy_quiet _ _ Hr) as Hq. unfold sched_pass.
  assert (forall p, p ∈ allproc w -> is_Some (sprocs st !! p)) as Hall by (intros p Hp; destruct (tables_proc _ w p (rdy_tables _ _ Hr) Hp) as [x ?]; by exists x).
  assert (forall st2 chan, fine st st2 -> cur st2 = Some 0%nat -> chan <> 0 -> exists st' w' co' r, (r ← sleep (tsleep_CURSIG procaddr) (fun p w => u_sigintr (us w p)) false endts 0 chan PSWP st2 w co;
    Ok (fst r, Waits)) = Ok (st', w', co', r) /\ fine st st' /\ posts w w') as Hwait.
  { intros st2 chan F Hc2 Hch. destruct (swapper_sleeps st2 w co chan) as (st'&w'&co'&r&->&F2&S2); [eapply fine_ready; [apply Hr|done]|done|done|].
    cbn [mbind outcome_bind fst]. exists st', w', co', Waits. split; [done|]. split; [by eapply fine_trans|done]. }
  destruct (find_out_ok st (allproc w) None (-20000) Hall) as [[so t] ->]. cbn [mbind outcome_bind fst snd].
  destruct so as [so|]; [|apply Hwait; [by apply fine_runout|done|done]].
  destruct (find_core_ok st (allproc w) Hall) as (ic&->&Hic). cbn [mbind outcome_bind]. destruct ic as [ic|]; [|exists st, w, co, (Swaps None so); split; [done|]; split; [by apply fine_refl|done]].
  destruct (Hic ic eq_refl) as (x&Hx&Hl&Hns). rewrite (rd_ok _ _ _ Hx). cbn [mbind outcome_bind].
  destruct (may_go x t); [|apply Hwait; [by apply fine_runin|done|done]].
  destruct (sched_swapout_does st H Hq ic x Hx Hl) as (st1&->&F1&_); [rewrite Hc; intros [= <-]; rewrite (Hsys x Hx) in Hns; done|]. cbn [mbind outcome_bind].
  by exists st1, w, co, (Swaps (Some ic) so).
Qed.

End pass.

(** *** [newproc] *)

(** The current process leaves, or another comes in. *)
Lemma leave_fine st p x x' : sched_inv None st -> quiet st -> cur st = Some p -> sprocs st !! p = Some x -> p_wchan x' = 0 -> p_stat x' <> SSLEEP ->
  (p_stat x' = SRUN -> loaded x' = false) -> same_flags x x' -> fine st (set_cur (set_procs st (<[p:=x']> (sprocs st))) None).
Proof.
  intros H Hq Hc Hx Hw Hs Hl Hf. apply fine_eases; [done|by apply (leave_cpu st p x)|]. destruct (inv_cur _ _ H p Hc) as (y&Hy&Hrun&_). rewrite Hx in Hy. injection Hy as <-.
  assert (eases st (set_procs st (<[p:=x']> (sprocs st)))) as []; [|by constructor]. apply (insert_eases st p x); [done|done|].
  rewrite Hw. symmetry. by eapply no_chan; [exact H|exact Hx|rewrite Hrun..].
Qed.

Lemma enter_fine st p x x' : sched_inv None st -> quiet st -> cur st = None -> sprocs st !! p = Some x -> p_stat x <> SSLEEP -> p_stat x <> SSTOP ->
  (p_stat x = SRUN -> loaded x = false) -> p_wchan x' = 0 -> p_stat x' = SRUN -> loaded x' = true -> p <> 0%nat \/ same_flags x x' ->
  fine st (set_cur (set_procs st (<[p:=x']> (sprocs st))) (Some p)).
Proof.
  intros H Hq Hc Hx Hs1 Hs2 Hl Hw' Hs' Hl' Hp. pose proof (lookup_lt_Some _ _ _ Hx) as Hlt. assert (p_wchan x = 0) as Hw by (by eapply no_chan).
  constructor; [by apply (enter_cpu st p x)| |cbn; apply length_insert|].
  - intros r y. cbn. rewrite lookup_put by done. case_decide as E; [|by apply Hq]. intros [= <-] Hy. subst r. destruct Hy as [->|Hy]; [|by rewrite Hw' in Hy].
    destruct Hp as [?|[Hp _]]; [done|]. rewrite Hp. apply (Hq 0%nat x Hx). by left.
  - intros Hst y. cbn. rewrite lookup_put by done. case_decide as E; [|by apply Hst]. intros [= <-]. subst p. destruct Hp as [?|[_ Hp]]; [done|]. rewrite Hp. by apply Hst.
Qed.

Lemma newproc_end_goes st w child x i y : sched_inv None st -> quiet st -> cur st = Some child -> sprocs st !! child = Some x -> ids w !! child = Some i ->
  c_pptr i <> child -> sprocs st !! c_pptr i = Some y -> p_stat y = SIDL -> loaded y = true -> goes st (newproc_end child st w).
Proof.
  intros H Hq Hc Hx Hi Hne Hy Hsy Hly. destruct (inv_cur _ _ H child Hc) as (x'&Hx'&Hrun&Hl). rewrite Hx in Hx'. injection Hx' as <-.
  pose proof (lookup_lt_Some _ _ _ Hx) as Hlt. unfold newproc_end. rewrite (rd_ok _ _ _ Hi). cbn [mbind outcome_bind].
  (* the child leaves the processor as its image is out *)
  unfold swapout_end. rewrite (rd_ok _ _ x) by done. cbn [mbind outcome_bind]. set (x1 := set_ptime _ 0). rewrite (put_ok _ child x) by done. cbn [mbind outcome_bind].
  change (set_procs (set_cur st None) ?l) with (set_cur (set_procs st l) None). set (st1 := set_cur (set_procs st _) None).
  assert (loaded x1 = false) as Hl1 by apply loaded_out.
  assert (p_wchan x = 0) as Hwx by (by eapply no_chan; [exact H|exact Hx|rewrite Hrun..]).
  assert (fine st st1) as F1 by (apply (leave_fine st child x x1); try done; [cbn; by rewrite Hrun|by split; apply has_ldiff]).
  assert (sprocs st1 !! child = Some x1 /\ sprocs st1 !! c_pptr i = Some y /\ p_wchan y = 0) as (Hx1&Hy1&Hwy).
  { cbn. rewrite !lookup_put by done. rewrite decide_True, decide_False by done. split; [done|]. split; [done|]. by eapply no_chan; [exact H|exact Hy|rewrite Hsy..]. }
  (* the swapper is told; both stay as they are *)
  assert (exists st2, (if negb (runout st1 =? 0) then wakeup A_RUNOUT (set_runout st1 0) else Ok st1) = Ok st2 /\ fine st1 st2 /\ cur st2 = None /\
    sprocs st2 !! child = Some x1 /\ sprocs st2 !! c_pptr i = Some y) as (st2&->&F2&Hc2&Hx2&Hy2).
  { destruct (negb _); [|exists st1; split_and?; try done; apply fine_refl; apply F1]. pose proof (fine_runout st1 0 (fi_inv _ _ F1) (fi_quiet _ _ F1)) as F.
    destruct (wakeup_inv A_RUNOUT (set_runout st1 0) ltac:(done) (fi_inv _ _ F)) as (st2&->&H2&Hwk&_). exists st2. split; [done|].
    split; [eapply fine_trans; [exact F|]; apply fine_eases; [apply F|done|by eapply wakes_eases]|]. split; [by rewrite (wk_cur _ _ _ _ Hwk)|].
    split; [destruct (wk_proc _ _ _ _ Hwk child x1 Hx1) as (z&Hz&_&[->|[Hw _]])|destruct (wk_proc _ _ _ _ Hwk (c_pptr i) y Hy1) as (z&Hz&_&[->|[Hw _]])]; done. }
  cbn [mbind outcome_bind]. rewrite (rd_ok _ _ _ Hx2). cbn [mbind outcome_bind]. rewrite (put_ok _ child x1) by done. cbn [mbind outcome_bind].
  set (x3 := set_flag x1 _). set (st3 := set_procs st2 _).
  assert (fine st2 st3) as F3.
  { apply (put_fine st2 (fi_inv _ _ F2) (fi_quiet _ _ F2) child x1); [done| |by apply same_flags_lor]. split; [done|]. split; [by apply loaded_lor|done]. }
  pose proof (lookup_lt_Some _ _ _ Hx2) as Hlt2. assert (sprocs st3 !! c_pptr i = Some y) as Hy3 by (cbn; rewrite lookup_put by done; by rewrite decide_False).
  rewrite (rd_ok _ _ _ Hy3). cbn [mbind outcome_bind]. rewrite (put_ok _ _ y) by done. cbn [mbind outcome_bind]. eexists. split; [done|].
  eapply fine_trans; [exact F1|]. eapply fine_trans; [exact F2|]. eapply fine_trans; [exact F3|].
  apply (enter_fine st3 (c_pptr i) y); try done; [apply F3|apply F3|by rewrite Hsy..|by right].
Qed.

(** The signals after an operation that kept masks and actions. *)
Lemma sig_inv_same st w st' w' : sig_inv st w -> fine st st' -> us w' = us w ->
  (forall q, p_sigmask (words w' q) = p_sigmask (words w q) /\ p_sigignore (words w' q) = p_sigignore (words w q) /\ p_sigcatch (words w' q) = p_sigcatch (words w q)) ->
  (forall q, word31 (p_sig (words w' q))) -> (forall p, p ∈ allproc w' -> p ∈ allproc w) -> tables_ok (length (sprocs st)) w' -> sig_inv st' w'.
Proof.
  intros [Hr Hw Hl] F Eu Ew Hs Ha Ht. constructor; [by eapply fine_ready|done|]. intros p Hp. destruct (Ew p) as (E1&E2&E3). unfold in_order, exiting.
  rewrite E2, Eu. destruct (Hl p (Ha p Hp)) as [?|Hok]; [by left|right]. by eapply words_ok_eq; [exact Hok|..].
Qed.

Lemma sig_inv_words st w st' w' : sig_inv st w -> fine st st' -> same_words w w' -> tables_ok (length (sprocs st)) w' -> sig_inv st' w'.
Proof.
  intros Hi F [] Ht. eapply sig_inv_same; try done; [intros q; apply sw_sig0, (si_word _ _ Hi)|intros p; by rewrite sw_all0].
Qed.

Lemma newproc_tables_ok n w p child pid : tables_ok n w -> p ∈ allproc w -> (child < n)%nat ->
  exists l h, newproc_tables p child pid w = Ok (newproc_signals p child (set_pidhash (set_ids w l) h)) /\ length l = length (ids w).
Proof.
  intros Ht Hp Hc. unfold newproc_tables. destruct (tables_id _ _ _ Ht Hp) as [i Hi]. rewrite (rd_ok _ _ _ Hi). cbn [mbind outcome_bind].
  rewrite wr_ok by (by rewrite (tb_len _ _ Ht)). cbn [mbind outcome_bind].
  assert (PIDHASH pid < length (pidhash w))%nat as Hlt.
  { rewrite (tb_hash _ _ Ht). unfold PIDHASH. change 15 with (2 ^ 4 - 1). rewrite land_pow2_mod by lia. pose proof (Z.mod_pos_bound pid (2 ^ 4) eq_refl). lia. }
  destruct (lookup_lt_is_Some_2 (pidhash w) (PIDHASH pid) Hlt) as [chain Hch]. rewrite (rd_ok _ _ _ Hch). cbn [mbind outcome_bind].
  rewrite wr_ok by done. cbn [mbind outcome_bind]. eexists _, _. split; [done|]. apply length_insert.
Qed.

Lemma newproc_begin_does st w p child pid : sig_inv st w -> system st -> cur st = Some p -> p ∈ allproc w -> ~ exiting (words w p) ->
  child <> 0%nat -> child ∉ allproc w -> entry_ok st child (fun y => p_stat y = 0) ->
  (forall w', newproc_tables p child pid w = Ok w' -> tables_ok (length (sprocs st)) w') ->
  exists st' w', newproc_begin p child pid st w = Ok (st', w') /\ sig_inv st' w' /\ system st'.
Proof.
  intros Hi Hsys Hc Hp He Hc0 Hn (y&Hy&Hsy) Htab. pose proof (rdy_inv _ _ (si_ready _ _ Hi)) as H. pose proof (rdy_quiet _ _ (si_ready _ _ Hi)) as Hq.
  pose proof (rdy_tables _ _ (si_ready _ _ Hi)) as Ht. destruct (inv_cur _ _ H p Hc) as (x&Hx&Hrun&Hl). pose proof (lookup_lt_Some _ _ _ Hx) as Hlt.
  pose proof (lookup_lt_Some _ _ _ Hy) as Hylt. unfold newproc_begin. rewrite (rd_ok _ _ _ Hx). cbn [mbind outcome_bind]. rewrite (rd_ok _ _ _ Hy). cbn [mbind outcome_bind].
  destruct (newproc_tables_ok _ w p child pid Ht Hp Hylt) as (l&h&E&Hlen). specialize (Htab _ E). rewrite E. cbn [mbind outcome_bind].
  rewrite (put_ok _ p x) by done. cbn [mbind outcome_bind]. set (st1 := set_procs st _). assert (child <> p) as Hne by congruence.
  assert (sprocs st1 !! child = Some y) as Hy1 by (cbn; rewrite lookup_put by done; by rewrite decide_False).
  rewrite (put_ok _ child y) by done. cbn [mbind outcome_bind]. set (c := Sproc SRUN SLOAD _ _ _ _ _ _ _ _). eexists _, _. split; [done|].
  assert (fine st (set_cur st1 None)) as F1.
  { apply (leave_fine st p x (set_stat x SIDL)); try done. change (p_wchan x = 0). eapply no_chan; [exact H|exact Hx|rewrite Hrun..]; done. }
  assert (fine st (set_cur (set_procs st1 (<[child:=c]> (sprocs st1))) (Some child))) as F2.
  { eapply fine_trans; [exact F1|]. apply (enter_fine (set_cur st1 None) child y c); try done; [apply F1|apply F1|by rewrite Hsy..|by left]. }
  split; [|by apply F2]. destruct Hi as [Hr Hw Hlive]. constructor; [by eapply fine_ready|..].
  - intros q. unfold newproc_signals. cbn. destruct (decide (q = child)) as [->|Hqc]; [rewrite fn_lookup_insert; apply Hw|].
    rewrite fn_lookup_insert_ne by congruence. apply Hw.
  - intros q Hq'. unfold newproc_signals in *. cbn in *. destruct (decide (q = child)) as [->|Hqc].
    + rewrite !fn_lookup_insert. right. eapply words_ok_eq; [apply (in_order_ok _ _ (Hlive p Hp) He)|..]; done.
    + apply elem_of_cons in Hq' as [?|Hq']; [done|]. rewrite !fn_lookup_insert_ne by congruence. by apply Hlive.
Qed.

(** *** [exit] and [wait] *)

Lemma remove1_in p l : p ∈ l -> exists l', remove1 p l = Some l' /\ forall r, r ∈ l' -> r ∈ l.
Proof.
  induction l as [|q l IH]; intros Hp; [by apply not_elem_of_nil in Hp|]. cbn [remove1]. destruct (Nat.eqb_spec q p) as [->|Hne].
  - exists l. split; [done|]. intros r ?. by right.
  - apply elem_of_cons in Hp as [?|Hp]; [congruence|]. destruct (IH Hp) as (l'&->&Hs). exists (q :: l'). split; [done|].
    intros r [->|?]%elem_of_cons; [by left|right; auto].
Qed.

Section exiting.
Context (procaddr : nat -> Z) (Hproc : forall q, procaddr q <> 0).

Lemma exit_orphan_does p q st w : sched_inv None st -> quiet st -> is_Some (sprocs st !! q) -> length (ids w) = length (sprocs st) ->
  does2 same_words st w (exit_orphan procaddr p q st w).
Proof.
  intros H Hq [x0 Hx0] Hlen. unfold exit_orphan. pose proof (lookup_lt_Some _ _ _ Hx0) as Hlt. rewrite <- Hlen in Hlt.
  destruct (lookup_lt_is_Some_2 (ids w) q Hlt) as [i Hi]. rewrite (rd_ok _ _ _ Hi). cbn [mbind outcome_bind].
  destruct (Nat.eqb _ _); [|by apply does2_same]. rewrite wr_ok by done. cbn [mbind outcome_bind].
  set (w1 := set_ids w _). assert (same_words w w1) as S1 by (apply set_ids_same, length_insert). apply (does2_after _ _ w1); [|done].
  apply does_bind2; [by apply wakeup_does|]. intros st1 F1. destruct (fine_lookup _ _ q F1) as [x Hx]; [by exists x0|].
  rewrite (rd_ok _ _ _ Hx). cbn [mbind outcome_bind]. destruct (has (p_flag x) P_TRACED).
  - apply does_bind2; [apply (put_does st1 (fi_inv _ _ F1) (fi_quiet _ _ F1) q x); [done| |by apply same_flags_ldiff]|].
    + split; [done|]. split; [by apply loaded_ldiff|done].
    + intros st2 F2. apply does2_words, psignal_does; [apply F2|apply F2|by eapply fine_lookup|unfold SIGKILL; lia|reflexivity].
  - destruct (p_stat x =? SSTOP); [|apply does2_same; apply F1].
    apply does2_bind; [apply does2_words, psignal_does; [apply F1|apply F1|by exists x|unfold SIGHUP; lia|reflexivity]|]. intros st2 w2 F2 _. cbn [fst snd].
    apply does2_words, psignal_does; [apply F2|apply F2|by eapply fine_lookup|unfold SIGCONT; lia|reflexivity].
Qed.

Lemma exit_orphans_does p l st w : sched_inv None st -> quiet st -> (forall q, q ∈ l -> is_Some (sprocs st !! q)) -> length (ids w) = length (sprocs st) ->
  does2 same_words st w (exit_orphans procaddr p l st w).
Proof.
  revert st w. induction l as [|q l IH]; intros st w H Hq Hl Hlen; cbn [exit_orphans]; [by apply does2_same|].
  apply does2_bind; [apply exit_orphan_does; [done|done|apply Hl; by left|done]|]. intros st1 w1 F1 S1. cbn [fst snd].
  apply IH; [apply F1|apply F1| |by rewrite (sw_len _ _ S1), (fi_len _ _ F1)]. intros r Hr. eapply fine_lookup; [exact F1|]. apply Hl. by right.
Qed.

Lemma exit_end_does p st w i chain : sig_inv st w -> cur st = Some p -> p <> 0%nat -> p ∈ allproc w -> ids w !! p = Some i -> c_pid i <> 1 ->
  pidhash w !! PIDHASH (c_pid i) = Some chain -> p ∈ chain ->
  (forall st' w', exit_end procaddr p st w = Ok (st', w') -> tables_ok (length (sprocs st)) w') ->
  exists st' w', exit_end procaddr p st w = Ok (st', w') /\ sig_inv st' w' /\ fine st st'.
Proof.
  intros Hi Hc Hp0 Hp Hid Hpid Hch Hpc Htab. pose proof (rdy_inv _ _ (si_ready _ _ Hi)) as H. pose proof (rdy_quiet _ _ (si_ready _ _ Hi)) as Hq.
  pose proof (rdy_tables _ _ (si_ready _ _ Hi)) as Ht. destruct (inv_cur _ _ H p Hc) as (x&Hx&Hrun&Hl). pose proof (lookup_lt_Some _ _ _ Hx) as Hlt.
  destruct (remove1_in p (allproc w) Hp) as (l&El&Hsub). destruct (remove1_in p chain Hpc) as (c&Ec&_).
  set (st1 := set_cur (set_procs st (<[p:=set_stat x SZOMB]> (sprocs st))) None). set (w1 := set_pidhash (set_allproc w l) (<[PIDHASH (c_pid i):=c]> (pidhash w))).
  assert (fine st st1) as F1.
  { apply (leave_fine st p x (set_stat x SZOMB)); try done. change (p_wchan x = 0). eapply no_chan; [exact H|exact Hx|rewrite Hrun..]; done. }
  destruct (tb_parent _ _ Ht p i Hp Hp0 Hid) as [Hpar _].
  assert (does2 same_words st1 w1 (r ← exit_orphans procaddr p (l ++ zombies st1) st1 w1; r ← psignal procaddr (c_pptr i) SIGCHLD (fst r) (snd r);
    st ← wakeup (procaddr (c_pptr i)) (fst r); st ← wakeup A_RUNIN st; Ok (st, snd r))) as (st2&w2&E2&F2&C2&S2).
  { apply does2_bind.
    { apply exit_orphans_does; [apply F1|apply F1| |by rewrite (fi_len _ _ F1); apply (tb_len _ _ Ht)]. intros q [Hq'|Hq']%elem_of_app.
      - eapply fine_lookup; [exact F1|]. destruct (tables_proc _ _ q Ht (Hsub q Hq')) as [y ?]. by exists y.
      - unfold zombies in Hq'. apply list_elem_of_In, filter_In in Hq' as [Hq' _]. apply lookup_lt_is_Some. apply in_seq in Hq'. lia. }
    intros st2 w2 F2 S2. cbn [fst snd]. apply does2_bind.
    { apply does2_words, psignal_does; [apply F2|apply F2| |unfold SIGCHLD; lia|reflexivity]. eapply fine_lookup; [exact F2|]. eapply fine_lookup; [exact F1|].
      destruct (tables_proc _ _ _ Ht Hpar) as [y ?]. by exists y. }
    intros st3 w3 F3 S3. cbn [fst snd]. apply does_bind2; [apply wakeup_does; [apply F3|apply F3|apply Hproc]|]. intros st4 F4.
    apply does_bind2; [apply wakeup_does; [apply F4|apply F4|done]|]. intros st5 F5. apply does2_same; apply F5. }
  destruct (swtch_inv st2) as (st3&E3&H3&_).
  { rewrite set_cur_none by (by rewrite C2). apply F2. }
  assert (exit_end procaddr p st w = Ok (st3, w2)) as E.
  { unfold exit_end. rewrite (rd_ok _ _ _ Hid). cbn [mbind outcome_bind]. rewrite (proj2 (Z.eqb_neq _ _) Hpid), (rd_ok _ _ _ Hx). cbn [mbind outcome_bind].
    rewrite (put_ok _ p x) by done. cbn [mbind outcome_bind]. fold st1. rewrite (rd_ok _ _ _ Hch). cbn [mbind outcome_bind]. rewrite El, Ec.
    rewrite wr_ok by (by eapply lookup_lt_Some). cbn [mbind outcome_bind]. fold w1.
    destruct (exit_orphans _ _ _ _ _) as [[a b]| |]; [|done..]. cbn [mbind outcome_bind fst snd] in *. destruct (psignal _ _ _ _ _) as [[a2 b2]| |]; [|done..].
    cbn [mbind outcome_bind fst snd] in *. destruct (wakeup (procaddr _) a2) as [a3| |]; [|done..]. cbn [mbind outcome_bind] in *.
    destruct (wakeup A_RUNIN a3) as [a4| |]; [|done..]. cbn [mbind outcome_bind] in *. injection E2 as -> ->. rewrite E3. done. }
  assert (fine st st3) as F3.
  { eapply fine_trans; [exact F1|]. eapply fine_trans; [exact F2|]. apply fine_eases; [apply F2|done|by apply swtch_eases]. }
  exists st3, w2. split; [done|]. split; [|done]. specialize (Htab _ _ E). destruct S2.
  eapply sig_inv_same; try done; [intros q; apply sw_sig0, (si_word _ _ Hi)|]. intros r Hr. rewrite sw_all0 in Hr. by apply Hsub.
Qed.

End exiting.

Lemma reap_does p st w x : sig_inv st w -> system st -> p <> 0%nat -> p ∉ allproc w -> sprocs st !! p = Some x -> p_stat x = SZOMB ->
  (forall st' w', reap p st w = Ok (st', w') -> tables_ok (length (sprocs st)) w') ->
  exists st' w', reap p st w = Ok (st', w') /\ sig_inv st' w' /\ system st'.
Proof.
  intros Hi Hsys Hp0 Hp Hx Hs Htab. pose proof (rdy_inv _ _ (si_ready _ _ Hi)) as H. pose proof (rdy_quiet _ _ (si_ready _ _ Hi)) as Hq.
  pose proof (rdy_tables _ _ (si_ready _ _ Hi)) as Ht. pose proof (lookup_lt_Some _ _ _ Hx) as Hlt.
  destruct (lookup_lt_is_Some_2 (ids w) p) as [i Hid]; [by rewrite (tb_len _ _ Ht)|].
  unfold reap in *. rewrite (rd_ok _ _ _ Hx), (rd_ok _ _ _ Hid) in *. cbn [mbind outcome_bind] in *. rewrite (put_ok _ p x) in * by done. cbn [mbind outcome_bind] in *.
  rewrite wr_ok in * by (by eapply lookup_lt_Some). cbn [mbind outcome_bind] in *. set (x' := set_wchan _ 0) in *. specialize (Htab _ _ eq_refl).
  eexists _, _. split; [done|].
  assert (fine st (set_procs st (<[p:=x']> (sprocs st)))) as F.
  { constructor; [apply (free_inv st p x); try done; by rewrite Hs| |cbn; apply length_insert|].
    - intros r y. cbn. rewrite lookup_put by done. case_decide; [|by apply Hq]. intros [= <-] [?|?]; [congruence|done].
    - intros Hst y. cbn. rewrite lookup_put by done. case_decide; [congruence|]. by apply Hst. }
  split; [|by apply F]. destruct Hi as [Hr Hw Hl]. constructor; [by eapply fine_ready| |].
  - intros q. cbn. destruct (decide (q = p)) as [->|Hqp]; [rewrite fn_lookup_insert; cbn; unfold word31; lia|]. rewrite fn_lookup_insert_ne by congruence. apply Hw.
  - intros q Hq'. cbn in *. rewrite fn_lookup_insert_ne by congruence. by apply Hl.
Qed.

(** *** The other events *)

Section others.
Context (st : sched) (H : sched_inv None st) (Hq : quiet st).

Lemma selwakeup_does selwait p coll : selwait <> 0 -> (forall q, p = Some q -> is_Some (sprocs st !! q)) -> does st (selwakeup selwait p coll st).
Proof.
  intros Hs Hp. unfold selwakeup. apply does_bind; [apply does_if; intros _; [by apply wakeup_does|by apply does_same]|]. intros st1 F1. destruct F1 as [H1 Hq1 Hl1 _].
  destruct p as [p|]; [|by apply does_same]. destruct (lookup_lt_is_Some_2 (sprocs st1) p) as [x Hx]; [rewrite Hl1; by apply lookup_lt_is_Some, Hp|].
  rewrite (rd_ok _ _ _ Hx). cbn [mbind outcome_bind]. apply does_if; intros _.
  - apply does_if; [intros ?%Z.eqb_eq; apply (setrun_does st1 H1 Hq1 p x); auto|intros ?%Z.eqb_neq; by apply (unsleep_does st1 H1 Hq1 p x)].
  - apply does_if; intros _; [|by apply does_same]. apply (put_does st1 H1 Hq1 p x); [done| |by apply same_flags_ldiff].
    split; [done|]. split; [by apply loaded_ldiff|done].
Qed.

Lemma ptrace_run_does w p q : tables_ok (length (sprocs st)) w -> p ∈ allproc w -> q ∈ allproc w -> does st (ptrace_run p q st w).
Proof.
  intros Ht Hp Hq'. destruct (tables_proc _ _ _ Ht Hq') as [x Hx]. destruct (tables_id _ _ _ Ht Hp) as [i Hi]. destruct (tables_id _ _ _ Ht Hq') as [j Hj].
  unfold ptrace_run. rewrite (rd_ok _ _ _ Hx), (rd_ok _ _ _ Hi), (rd_ok _ _ _ Hj). cbn [mbind outcome_bind].
  destruct (Z.eqb_spec (p_stat x) SSTOP) as [Hs|]; cbn [negb orb]; [|by apply does_same]. apply does_if; intros _; [by apply does_same|].
  set (x' := set_flag x _). rewrite (put_ok _ q x) by done. cbn [mbind outcome_bind].
  assert (fine st (set_procs st (<[q:=x']> (sprocs st)))) as F.
  { apply (put_fine st H Hq q x); [done| |by apply same_flags_ldiff]. split; [done|]. split; [by apply loaded_ldiff|done]. }
  destruct (setrun_does _ (fi_inv _ _ F) (fi_quiet _ _ F) q x') as (st2&->&F2&C2); [cbn; rewrite lookup_put by (by eapply lookup_lt_Some); by rewrite decide_True|by left|].
  apply does_ret; [by eapply fine_trans|done].
Qed.

Lemma trace_me_does p x : sprocs st !! p = Some x -> does st (trace_me p st).
Proof.
  intros Hx. unfold trace_me. rewrite (rd_ok _ _ _ Hx). cbn [mbind outcome_bind]. apply (put_does st H Hq p x); [done| |by apply same_flags_lor].
  split; [done|]. split; [by apply loaded_lor|done].
Qed.

Lemma mark_flag_does p x m on : sprocs st !! p = Some x -> Z.land m SLOAD = 0 -> Z.land m P_SINTR = 0 -> Z.land m SSYS = 0 -> does st (mark_flag p m on st).
Proof.
  intros Hx H1 H2 H3. unfold mark_flag. rewrite (rd_ok _ _ _ Hx). cbn [mbind outcome_bind].
  apply (put_does st H Hq p x); [done| |by destruct on; [apply same_flags_lor|apply same_flags_ldiff]].
  destruct on; (split; [done|]; split; [|done]); [by apply loaded_lor|by apply loaded_ldiff].
Qed.

Lemma procxmt_does p x : sprocs st !! p = Some x -> does st (procxmt_awake p st).
Proof. intros Hx. unfold procxmt_awake. rewrite (rd_ok _ _ _ Hx). cbn [mbind outcome_bind]. by apply (put_does st H Hq p x). Qed.

Lemma overtime_does p x : sprocs st !! p = Some x -> does st (overtime p st).
Proof.
  intros Hx. unfold overtime. rewrite (rd_ok _ _ _ Hx). cbn [mbind outcome_bind]. apply does_bind; [by apply (put_does st H Hq p x)|].
  intros st1 F1. destruct (fine_lookup _ _ p F1) as [x1 Hx1]; [by exists x|]. apply (setpri_does st1 (fi_inv _ _ F1) (fi_quiet _ _ F1) p x1 Hx1).
Qed.

Lemma setitimer_does p x v i : sprocs st !! p = Some x -> does st (setitimer_real p v i st).
Proof. intros Hx. unfold setitimer_real. rewrite (rd_ok _ _ _ Hx). cbn [mbind outcome_bind]. by apply (put_does st H Hq p x). Qed.

Lemma charge_does p x : sprocs st !! p = Some x -> does st (charge p st).
Proof. intros Hx. unfold charge. rewrite (rd_ok _ _ _ Hx). cbn [mbind outcome_bind]. by apply (put_does st H Hq p x). Qed.

Lemma renice_does w me p n : tables_ok (length (sprocs st)) w -> me ∈ allproc w -> p ∈ allproc w -> does st (renice me p n st w).
Proof.
  intros Ht Hm Hp. destruct (tables_proc _ _ _ Ht Hp) as [x Hx]. destruct (tables_id _ _ _ Ht Hm) as [i Hi]. destruct (tables_id _ _ _ Ht Hp) as [j Hj].
  unfold renice. rewrite (rd_ok _ _ _ Hx), (rd_ok _ _ _ Hi), (rd_ok _ _ _ Hj). cbn [mbind outcome_bind].
  assert (same_sched x (fst (donice (c_uid i) (us_ruid (us w me)) (c_uid j) x n)) /\ p_flag (fst (donice (c_uid i) (us_ruid (us w me)) (c_uid j) x n)) = p_flag x) as [Hs Hf].
  { unfold donice. destruct (_ && _); [done|]. by destruct (_ && _). }
  apply (put_does st H Hq p x); [done|done|]. unfold same_flags. by rewrite Hf.
Qed.

End others.

(** ** Every sequence of events *)

Section steps.
Context (procaddr : nat -> Z) (Hproc : forall q, procaddr q <> 0) (selwait endts schedcpu_addr hz : Z) (Hselwait : selwait <> 0).

Record machine_inv (m : machine) : Prop := { mi_sig : sig_inv (m_sched m) (m_sigs m); mi_sys : system (m_sched m) }.

(** The sleep of C26, the one event that fails. *)
Definition doomed (e : event) (m : machine) : Prop :=
  match e with Sleep ident priority _ => exists p, cur (m_sched m) = Some p /\ caught_out p ident priority (m_sched m) (m_sigs m) | _ => False end.

Definition stepped (o : outcome machine) : Prop := exists m', o = Ok m' /\ machine_inv m'.

Section one.
Context (st : sched) (w : sigs) (co : callouts) (Hi : sig_inv st w) (Hsys : system st).

#[local] Definition Hinv : sched_inv None st := rdy_inv _ _ (si_ready _ _ Hi).
#[local] Definition Hqu : quiet st := rdy_quiet _ _ (si_ready _ _ Hi).
#[local] Definition Htab : tables_ok (length (sprocs st)) w := rdy_tables _ _ (si_ready _ _ Hi).

Lemma stepped_fine st' w' co' : fine st st' -> same_words w w' -> tables_ok (length (sprocs st)) w' -> stepped (Ok (Machine st' w' co')).
Proof. intros F S Ht. eexists. split; [done|]. constructor; [by eapply sig_inv_words|by apply F]. Qed.

Lemma stepped_goes o : goes st o -> stepped (st ← o; Ok (Machine st w co)).
Proof. intros (st'&->&F). apply stepped_fine; [done|done|apply Htab]. Qed.

Lemma stepped_does o : does st o -> stepped (st ← o; Ok (Machine st w co)).
Proof. intros. by apply stepped_goes, does_goes. Qed.

(** An operation on signals keeps the tables of processes. *)
Lemma stepped_posts st' w' co' : fine st st' -> posts w w' -> stepped (Ok (Machine st' w' co')).
Proof. intros F P. apply stepped_fine; [done|by apply posts_same|]. eapply tables_posts; [exact P|apply Htab]. Qed.

Lemma stepped_slept o : slept_ok st w o -> stepped (r ← o; let '(st, w, co, _) := r in Ok (Machine st w co)).
Proof. intros (st'&w'&co'&how&->&F&P). by apply stepped_posts. Qed.

Lemma current_entry p : cur st = Some p -> exists x, sprocs st !! p = Some x.
Proof. intros Hc. destruct (inv_cur _ _ Hinv p Hc) as (x&Hx&_). by exists x. Qed.

Lemma user_looking p : cur st = Some p -> p ∈ allproc w -> p <> 0%nat -> looking p st w.
Proof. intros Hc Hp Hp0. constructor; [apply Hi|done|done|done|apply (si_word _ _ Hi)|]. by apply (in_order_len (words w p)), (si_live _ _ Hi). Qed.

Lemma user_seeing p : cur st = Some p -> user_current st w -> seeing p st w.
Proof. intros Hc (q&Hq&?&?). rewrite Hc in Hq. injection Hq as <-. by apply looking_seeing, user_looking. Qed.

Lemma tsleep_again_ok p first from timo : cur st = Some p -> user_current st w ->
  match from with FromStop sig => 1 <= sig <= 31 | FromTrace _ sig => 0 <= sig <= 31 end ->
  slept_ok st w (tsleep_again procaddr endts p first from timo st w co).
Proof.
  intros Hc Hu Hs. assert (looking p st w) as Hk by (destruct Hu as (q&Hq&?&?); rewrite Hc in Hq; injection Hq as <-; by apply user_looking).
  unfold tsleep_again. assert (taken_ok st w (issignal_again procaddr p from st w)) as (st1&w1&t&->&H1&E1&P1&Ht).
  { destruct from as [sig|xmt sig]; cbn [issignal_again]; [by apply issignal_stopped_ok|].
    eapply taken_after; [apply issignal_traced_ok; [done|eapply looking_posts; [done|apply posts_trace]|]|apply posts_trace].
    unfold trace_sig. rewrite words_at. cbn. by rewrite trunc_small by lia. }
  cbn [mbind outcome_bind]. assert (fine st st1) as F1 by (apply fine_eases; [apply Hqu|done|done]).
  destruct t as [sig|sig|]; [|eexists st1, w1, co, _; by split..]. destruct Ht as [-> Ht]. destruct first; [|eexists st, w1, co, _; by split].
  assert (looking p st w1) as Hk1 by (by eapply looking_posts).
  destruct (tsleep_signal_ok procaddr Hproc endts st w1 p (lk_ready _ _ _ Hk1) Hc true sig timo co) as (st2&w2&co2&how&->&F2&P2); [by intros _; apply looking_seeing|done|].
  exists st2, w2, co2, how. split; [done|]. split; [done|]. by etransitivity.
Qed.

(** One event. *)
Lemma machine_step e : machine_allowed procaddr e (Machine st w co) ->
  stepped (machine_perform procaddr selwait endts schedcpu_addr hz e (Machine st w co)) \/
  (machine_perform procaddr selwait endts schedcpu_addr hz e (Machine st w co) = Panic "wakeup" /\ doomed e (Machine st w co)).
Proof.
  intros Ha. assert (stepped (Ok (Machine st w co))) as Hsame by (eexists; split; [done|]; by constructor).
  destruct e as [ident priority timo|catch sig timo|first from timo|e|chan|p coll| |q|value interval| | | |on|on|p|p on|p n| |p| | | |p|p|p corrupt|child pid| | |p|ids' hash'|co'];
    cbn [machine_perform machine_allowed] in *.
  - destruct (cur st) as [p|] eqn:Hc; [|by left]. destruct Ha as (Hid&Hroom&Hro&Hcatch).
    destruct (tsleep_ok procaddr endts st w p ident priority timo co Hproc (si_ready _ _ Hi) Hc Hid) as [Ho|[Ho Hcaught]]; [| | |done|left; by apply stepped_slept|right].
    + intros ->. destruct (decide (Z.land priority PCATCH = 0)) as [|Hn]; [done|]. destruct (Hcatch Hn) as (q&Hq&_&Hq0). congruence.
    + intros E. specialize (Hro E). congruence.
    + intros Hn. by apply user_seeing, Hcatch.
    + split; [by rewrite Ho|]. by exists p.
  - left. destruct (cur st) as [p|] eqn:Hc; [|done]. apply stepped_slept, tsleep_resume_ok; [done|apply Hi|done|]. intros Hcatch _. by apply user_seeing, Ha.
  - left. destruct (cur st) as [p|] eqn:Hc; [|by destruct from]. apply stepped_slept, tsleep_again_ok; [done|by destruct from, Ha|by destruct from, Ha].
  - left. assert (allowed e st w /\ match e with EKernel _ _ _ _ => False | _ => True end) as [Hal Hne] by (by destruct e).
    destruct (perform_kept procaddr Hproc e st w Hi Hal) as (st'&w'&E&Hi'&He). rewrite E.
    assert (stepped (Ok (Machine st' w' co))); [|by destruct e, (cur st)]. eexists. split; [done|]. constructor; [done|]. apply (system_eases st); [by destruct e|done].
  - left. assert (stepped (st ← wakeup chan st; Ok (Machine st w co))); [|by destruct (cur st)]. apply stepped_does, wakeup_does; [apply Hinv|apply Hqu|done].
  - left. assert (stepped (st ← selwakeup selwait p coll st; Ok (Machine st w co))); [|by destruct (cur st)].
    apply stepped_does, selwakeup_does; [apply Hinv|apply Hqu|done|]. intros q ->. destruct Ha as (x&Hx&_). by exists x.
  - left. destruct (cur st) as [p|] eqn:Hc; [|done]. destruct (current_entry p Hc) as [x Hx]. by eapply stepped_does, trace_me_does; [apply Hinv|apply Hqu|].
  - left. destruct Ha as ((p&Hc&Hp)&Hq). rewrite Hc. apply stepped_does, ptrace_run_does; [apply Hinv|apply Hqu|apply Htab|done|done].
  - left. destruct (cur st) as [p|] eqn:Hc; [|done]. destruct (current_entry p Hc) as [x Hx]. by eapply stepped_does, setitimer_does; [apply Hinv|apply Hqu|].
  - left. destruct (cur st) as [p|] eqn:Hc; [|done]. destruct (current_entry p Hc) as [x Hx]. by eapply stepped_does, charge_does; [apply Hinv|apply Hqu|].
  - left. destruct (cur st) as [p|] eqn:Hc; [|done]. destruct (current_entry p Hc) as [x Hx]. by eapply stepped_does, overtime_does; [apply Hinv|apply Hqu|].
  - left. destruct (cur st) as [p|] eqn:Hc; [|done]. destruct (current_entry p Hc) as [x Hx]. by eapply stepped_does, procxmt_does; [apply Hinv|apply Hqu|].
  - left. destruct (cur st) as [p|] eqn:Hc; [|done]. destruct (current_entry p Hc) as [x Hx]. by eapply stepped_does, mark_flag_does; [apply Hinv|apply Hqu|..].
  - left. destruct (cur st) as [p|] eqn:Hc; [|done]. destruct (current_entry p Hc) as [x Hx]. by eapply stepped_does, mark_flag_does; [apply Hinv|apply Hqu|..].
  - left. destruct Ha as (x&Hx&_). assert (stepped (st ← mark_flag p P_WAITED true st; Ok (Machine st w co))); [|by destruct (cur st)].
    by eapply stepped_does, mark_flag_does; [apply Hinv|apply Hqu|..].
  - left. destruct Ha as (x&Hx&_). assert (stepped (st ← mark_flag p P_LARGE on st; Ok (Machine st w co))); [|by destruct (cur st)].
    by eapply stepped_does, mark_flag_does; [apply Hinv|apply Hqu|..].
  - left. destruct Ha as ((me&Hc&Hp)&Hq). rewrite Hc. apply stepped_does, renice_does; [apply Hinv|apply Hqu|apply Htab|done|done].
  - left. destruct (cur st) as [p|] eqn:Hc; [|done]. apply stepped_goes, userret_goes; [apply Hinv|apply Hqu|done].
  - left. destruct Ha as (x&Hx&_). assert (stepped (st ← endtsleep p st; Ok (Machine st w co))); [|by destruct (cur st)].
    eapply stepped_does, endtsleep_does; [apply Hinv|apply Hqu|exact Hx].
  - left. destruct (schedcpu_does procaddr schedcpu_addr hz (allproc w) st w co) as (st'&w'&co'&E&F&S); [apply Hinv|apply Hqu| |done|].
    { intros p Hp. destruct (tables_proc _ _ _ Htab Hp) as [x ?]. by exists x. }
    rewrite E. assert (stepped (Ok (Machine st' w' co'))); [|by destruct (cur st)]. by apply stepped_posts.
  - left. destruct (cur st) as [p|] eqn:Hc; [done|]. apply stepped_goes, swtch_goes; [apply Hinv|apply Hqu|done].
  - left. rewrite Ha. destruct (sched_pass_does procaddr Hproc endts st w co) as (st'&w'&co'&r&->&F&S); [apply Hi|done|done|]. by apply stepped_posts.
  - left. destruct Ha as (x&Hx&_). assert (stepped (st ← swapout_lock p st; Ok (Machine st w co))); [|by destruct (cur st)].
    eapply stepped_does, swapout_lock_does; [apply Hinv|apply Hqu|exact Hx].
  - left. destruct Ha as (x&Hx&Hl). assert (stepped (st ← swapout_end p st; Ok (Machine st w co))); [|by destruct (cur st)].
    eapply stepped_does, swapout_end_does; [apply Hinv|apply Hqu|exact Hx|done].
  - left. destruct Ha as (x&Hx&Hl). destruct (swapin_does procaddr p corrupt st w x) as (st'&w'&E&F&_&S); [apply Hinv|apply Hqu|done|done|]. rewrite E.
    assert (stepped (Ok (Machine st' w' co))); [|by destruct (cur st)]. by apply stepped_posts.
  - left. destruct Ha as (p&Hc&(q&Hq&Hp&He)&Hc0&Hn&Hch&Ht). rewrite Hc. rewrite Hc in Hq. injection Hq as <-.
    destruct (newproc_begin_does st w p child pid Hi Hsys Hc Hp He Hc0 Hn Hch Ht) as (st'&w'&->&?&?). eexists. split; [done|]. by constructor.
  - left. destruct Ha as (p&i&Hc&Hp0&Hp&Hid&(y&Hy&Hs&Hl)). rewrite Hc. destruct (current_entry p Hc) as [x Hx]. apply stepped_goes.
    eapply newproc_end_goes; [apply Hinv|apply Hqu|done|exact Hx|exact Hid| |exact Hy|done|done]. by apply (tb_parent _ _ Htab p i).
  - left. destruct Ha as (p&i&chain&Hc&Hp0&Hp&Hid&Hpid&Hch&Hpc&Ht). rewrite Hc.
    destruct (exit_end_does procaddr Hproc p st w i chain Hi Hc Hp0 Hp Hid Hpid Hch Hpc Ht) as (st'&w'&->&?&F). eexists. split; [done|]. constructor; [done|by apply F].
  - left. destruct Ha as ((me&Hc)&Hp0&Hp&(x&Hx&Hs)&Ht). rewrite Hc. destruct (reap_does p st w x Hi Hsys Hp0 Hp Hx Hs Ht) as (st'&w'&->&?&?).
    eexists. split; [done|]. by constructor.
  - left. assert (stepped (Ok (Machine st (set_pidhash (set_ids w ids') hash') co))); [|by destruct (cur st)]. eexists. split; [done|]. constructor; [|done]. cbn.
    eapply sig_inv_same; [exact Hi|apply fine_refl; [apply Hinv|apply Hqu]|done|done|apply (si_word _ _ Hi)|done|done].
  - left. assert (stepped (Ok (Machine st w co'))); [|by destruct (cur st)]. by apply stepped_fine; [apply fine_refl; [apply Hinv|apply Hqu]|done|apply Htab].
Qed.

End one.

(** The states of the kernel, from boot with [n] more entries in the process
    table and [ncall] callouts. *)
Inductive machine_reach (n ncall : nat) : machine -> Prop :=
| machine_boot w : boot_sigs n = Ok w -> machine_reach n ncall (Machine (boot_sched n) w (coutinit ncall))
| machine_next m e m' : machine_reach n ncall m -> machine_allowed procaddr e m ->
    machine_perform procaddr selwait endts schedcpu_addr hz e m = Ok m' -> machine_reach n ncall m'.

Lemma machine_reach_inv n ncall m : machine_reach n ncall m -> machine_inv m.
Proof.
  induction 1 as [w E|[st w co] e m' _ [Hi Hsys] Ha E].
  - constructor; [by apply (boot_sig_inv n)|]. by intros x [= <-].
  - destruct (machine_step st w co Hi Hsys e Ha) as [(m''&E'&?)|[E' _]]; rewrite E in E'; by simplify_eq.
Qed.

(** C14. Whatever the kernel has done since boot: every process asleep is on
    the one sleep queue of its channel; every process on a sleep queue is
    asleep or stopped and waits on a channel of that queue, and is there
    once; the run queue holds, once each, exactly the runnable processes in
    memory other than the current one; and the current one is runnable and in
    memory. And the next event returns. One can panic instead, in [wakeup]:
    the sleep, on the swapper's queue and with the swapper to be told, of a
    process with signals posted whose parent is swapped out and sleeps
    interruptibly ([doomed]): a signal that stops it wakes the parent before
    it is off the queue. *)
Theorem scheduler_queues n ncall m : machine_reach n ncall m ->
  (let st := m_sched m in
   (forall p x, sprocs st !! p = Some x -> p_stat x = SSLEEP -> exists q, slpque st !! HASH (p_wchan x) = Some q /\ p ∈ q) /\
   (forall h q p, slpque st !! h = Some q -> p ∈ q ->
      exists x, sprocs st !! p = Some x /\ p_wchan x <> 0 /\ HASH (p_wchan x) = h /\ (p_stat x = SSLEEP \/ p_stat x = SSTOP)) /\
   (forall h q, slpque st !! h = Some q -> NoDup q) /\ NoDup (qs st) /\
   (forall p, p ∈ qs st <-> exists x, sprocs st !! p = Some x /\ p_stat x = SRUN /\ loaded x = true /\ cur st <> Some p) /\
   (forall p, cur st = Some p -> exists x, sprocs st !! p = Some x /\ p_stat x = SRUN /\ loaded x = true)) /\
  (forall e, machine_allowed procaddr e m ->
     (exists m', machine_perform procaddr selwait endts schedcpu_addr hz e m = Ok m') \/
     (machine_perform procaddr selwait endts schedcpu_addr hz e m = Panic "wakeup" /\ doomed e m)).
Proof.
  intros [Hi Hsys]%machine_reach_inv. split.
  - destruct (rdy_inv _ _ (si_ready _ _ Hi)) as [_ Hs Hn Hw Hqn Hq Hc Ha]. cbv zeta. split; [|done].
    intros p x Hx Hst. destruct (Ha p x Hx Hst); [by apply Hw|done].
  - intros e He. destruct m as [st w co]. destruct (machine_step st w co Hi Hsys e He) as [(m'&E&_)|?]; [left; by exists m'|by right].
Qed.

End steps.

(** ** A concrete run *)

Definition user_currentb (st : sched) (w : sigs) : bool := match cur st with Some p => bool_decide (p ∈ allproc w /\ p <> 0%nat) | None => false end.
Definition entryb (st : sched) (p : nat) (ok : sproc -> bool) : bool := match sprocs st !! p with Some x => ok x | None => false end.
Definition tables_after {A} (n : nat) (o : outcome A) (f : A -> sigs) : bool := match o with Ok a => tables_okb n (f a) | _ => true end.

(** Events whose guard is evaluated. *)
Definition machine_allowedb (e : event) (m : machine) : bool :=
  let '(Machine st w co) := m in
  match e with
  | Sleep ident priority timo => bool_decide (ident <> 0 /\ ident <> A_RUNOUT) && room timo co && ((Z.land priority PCATCH =? 0) || user_currentb st w)
  | Resume catch _ _ => negb catch || user_currentb st w
  | Signals e => allowedb e st w
  | Wakeup chan => negb (chan =? 0)
  | Userret | Charge | Idle | Ticks _ => true
  | Timeout p => entryb st p (fun _ => true)
  | Second => bool_decide (callfree co <> [])
  | Pass => bool_decide (cur st = Some 0%nat)
  | Swapin p _ | SwapoutEnd p => entryb st p (fun x => negb (loaded x))
  | NewprocBegin child pid =>
      match cur st with
      | Some p => bool_decide (p ∈ allproc w /\ p_sigignore (words w p) <> 0xffffffff /\ child <> 0%nat /\ child ∉ allproc w) &&
          entryb st child (fun x => p_stat x =? 0) && tables_after (length (sprocs st)) (newproc_tables p child pid w) id
      | None => false
      end
  | NewprocEnd =>
      match cur st with
      | Some p => bool_decide (p <> 0%nat /\ p ∈ allproc w) &&
          match ids w !! p with Some i => entryb st (c_pptr i) (fun y => (p_stat y =? SIDL) && loaded y) | None => false end
      | None => false
      end
  | Exit =>
      match cur st with
      | Some p => bool_decide (p <> 0%nat /\ p ∈ allproc w) &&
          match ids w !! p with
          | Some i => negb (c_pid i =? 1) && match pidhash w !! PIDHASH (c_pid i) with Some chain => bool_decide (p ∈ chain) | None => false end
          | None => false
          end && tables_after (length (sprocs st)) (exit_end demo_addr p st w) snd
      | None => false
      end
  | Reap p =>
      match cur st with Some _ => true | None => false end && bool_decide (p <> 0%nat /\ p ∉ allproc w) && entryb st p (fun x => p_stat x =? SZOMB) &&
      tables_after (length (sprocs st)) (reap p st w) snd
  | _ => false
  end.

Lemma entryb_ok st p b (ok : sproc -> Prop) : entryb st p b = true -> (forall x, b x = true -> ok x) -> entry_ok st p ok.
Proof. unfold entryb. destruct (sprocs st !! p) as [x|] eqn:E; [|done]. intros Hb Hok. exists x. auto. Qed.

Lemma user_currentb_ok st w : user_currentb st w = true -> user_current st w.
Proof. unfold user_currentb. destruct (cur st) as [p|] eqn:E; [|done]. intros (?&?)%bool_decide_eq_true. by exists p. Qed.

Lemma tables_after_ok {A} n (o : outcome A) f a : tables_after n o f = true -> o = Ok a -> tables_ok n (f a).
Proof. intros H ->. by apply tables_okb_ok. Qed.

Lemma machine_allowedb_ok e m : machine_allowedb e m = true -> machine_allowed demo_addr e m.
Proof.
  destruct m as [st w co]. destruct e; cbn [machine_allowedb machine_allowed]; try done.
  - rewrite !andb_true_iff, orb_true_iff. intros [[[? ?]%bool_decide_eq_true Hr] Hc]. split; [done|]. split; [done|]. split; [done|].
    intros Hn. destruct Hc as [?%Z.eqb_eq|?]; [done|by apply user_currentb_ok].
  - intros H ->. by apply user_currentb_ok.
  - match goal with |- allowedb ?e _ _ = true -> _ => intros H; pose proof (allowedb_ok _ _ _ H); by destruct e end.
  - by intros ?%negb_true_iff%Z.eqb_neq.
  - intros H. by eapply entryb_ok.
  - by intros ?%bool_decide_eq_true.
  - by intros ?%bool_decide_eq_true.
  - intros H. eapply entryb_ok; [exact H|]. by intros x ?%negb_true_iff.
  - intros H. eapply entryb_ok; [exact H|]. by intros x ?%negb_true_iff.
  - destruct (cur st) as [p|] eqn:Hc; [|done]. rewrite !andb_true_iff. intros [[(?&?&?&?)%bool_decide_eq_true He] Ht]. exists p.
    split; [done|]. split; [by exists p|]. split; [done|]. split; [done|]. split; [eapply entryb_ok; [exact He|intros x; apply Z.eqb_eq]|].
    intros w' E. exact (tables_after_ok _ _ id w' Ht E).
  - destruct (cur st) as [p|] eqn:Hc; [|done]. rewrite !andb_true_iff. intros [(?&?)%bool_decide_eq_true He]. destruct (ids w !! p) as [i|] eqn:Hi; [|done].
    exists p, i. split_and!; try done. eapply entryb_ok; [exact He|]. by intros y [?%Z.eqb_eq ?]%andb_true_iff.
  - destruct (cur st) as [p|] eqn:Hc; [|done]. rewrite !andb_true_iff. intros [[(?&?)%bool_decide_eq_true Hi'] Ht]. destruct (ids w !! p) as [i|] eqn:Hi; [|done].
    apply andb_true_iff in Hi' as [?%negb_true_iff%Z.eqb_neq Hch]. destruct (pidhash w !! _) as [chain|] eqn:Hh; [|done]. apply bool_decide_eq_true in Hch.
    exists p, i, chain. split_and!; try done. intros st' w' E. exact (tables_after_ok _ _ snd (st', w') Ht E).
  - rewrite !andb_true_iff. intros [[[Hc [? ?]%bool_decide_eq_true] He] Ht]. split; [destruct (cur st) as [me|]; [by exists me|done]|].
    split_and!; try done; [eapply entryb_ok; [exact He|intros x; apply Z.eqb_eq]|]. intros st' w' E. exact (tables_after_ok _ _ snd (st', w') Ht E).
Qed.

(** Events as far as they are allowed and return. *)
Definition demo_step (e : event) (m : machine) : option machine :=
  if machine_allowedb e m then match machine_perform demo_addr 0x1100 0 0 60 e m with Ok m' => Some m' | _ => None end else None.

Fixpoint machine_run (es : list event) (m : machine) : option machine :=
  match es with [] => Some m | e :: es' => m' ← demo_step e m; machine_run es' m' end.

Lemma machine_run_reach n ncall es m m' : machine_run es m = Some m' -> machine_reach demo_addr 0x1100 0 0 60 n ncall m -> machine_reach demo_addr 0x1100 0 0 60 n ncall m'.
Proof.
  revert m. induction es as [|e es IH]; intros m; cbn [machine_run]; [by intros [= <-]|]. intros (m1&E1&E)%bind_Some Hr. apply (IH m1 E).
  unfold demo_step in E1. destruct (machine_allowedb e m) eqn:Ha; [|done]. destruct (machine_perform _ _ _ _ _ e m) eqn:Ep; [|done..]. injection E1 as ->.
  eapply machine_next; [exact Hr|by apply machine_allowedb_ok|exact Ep].
Qed.

(** The swapper makes process 1, which is swapped in, makes process 2 and
    waits for it, interruptibly and with a timeout; swapped out in turn, it
    is woken by a signal while process 2 runs, exits and is reaped. The
    swapper sleeps and is told three times. *)
Definition life : list event :=
  [NewprocBegin 1 1; NewprocEnd; Pass; Swapin 1 false; Pass; Userret; NewprocBegin 2 2; NewprocEnd; Sleep 0x2000 0x11e 5; Pass; Swapin 2 false; Pass;
   Signals (EPost 1 SIGTERM); Wakeup 0x2000; Second; Ticks (coutinit 2); Exit; Swapin 1 false; Pass; Resume true 0 5; Reap 2]%nat.

Definition boot_machine : machine := Machine (boot_sched 3) (demo_sigs [] [0%nat] (replicate 16 [])) (coutinit 2).
Definition demo_machine : machine := default boot_machine (machine_run life boot_machine).

Lemma demo_machine_reach : machine_reach demo_addr 0x1100 0 0 60 3 2 demo_machine.
Proof.
  apply (machine_run_reach 3 2 life boot_machine); [|exact (machine_boot _ _ _ _ _ 3 2 _ (boot_sigs_eq 3))].
  assert (match machine_run life boot_machine with Some _ => true | None => false end = true) as E by (vm_compute; reflexivity).
  unfold demo_machine. by destruct (machine_run life boot_machine).
Qed.

Lemma scheduler_queues_witness : cur (m_sched demo_machine) = Some 1%nat /\ NoDup (qs (m_sched demo_machine)) /\ runout (m_sched demo_machine) = 1 /\
  exists m', machine_perform demo_addr 0x1100 0 0 60 (Sleep 0x2000 0x11e 5) demo_machine = Ok m'.
Proof.
  destruct (scheduler_queues demo_addr ltac:(unfold demo_addr; lia) 0x1100 0 0 60 ltac:(lia) 3 2 demo_machine demo_machine_reach) as ((_&_&_&Hq&_)&He).
  split; [by vm_compute|]. split; [exact Hq|]. split; [by vm_compute|].
  destruct (He (Sleep 0x2000 0x11e 5)) as [?|[_ (p&_&_&_&_&Hh&_)]]; [apply machine_allowedb_ok; by vm_compute|done|]. vm_compute in Hh. discriminate.
Defined.
