(* ===== verification/Sigframe.v ===== *)
(** * Signal frames ([sendsig] and [sigreturn] of the rp2040
    [sig_machdep.c])

    What [sendsig] saves on the user's stack is what [sigreturn] takes from
    it: the interrupted registers and the mask come back. Where [sendsig]
    stores is checked on the main stack only. *)
From stdpp Require Import functions.
From S2P Require Import Prelude Clock Sched Cred Signal Sigcall.

(** ** Memory *)

Lemma load_store_below m a l b n : (forall i j, 0 <= i < Z.of_nat n -> 0 <= j < Z.of_nat (length l) -> u32 (b + 4 * i) <> u32 (a + 4 * j)) ->
  load (store m a l) b n = load m b n.
Proof.
  revert m a. induction l as [|v l IH]; intros m a H; [done|]. cbn [store]. rewrite IH.
  - clear IH. revert b H. induction n as [|n IHn]; intros b H; [done|]. cbn [load]. f_equal.
    + apply fn_lookup_insert_ne. intros E. apply (H 0 0); [lia|cbn; lia|]. by rewrite !Z.mul_0_r, !Z.add_0_r.
    + apply IHn. intros i j Hi Hj. replace (b + 4 + 4 * i) with (b + 4 * (i + 1)) by lia. apply H; lia.
  - intros i j Hi Hj. replace (a + 4 + 4 * j) with (a + 4 * (j + 1)) by lia. apply H; [done|]. cbn. lia.
Qed.

(** Addresses less than 4 GB apart are different words. *)
Lemma u32_apart a d : 0 < d < 2 ^ 32 -> u32 a <> u32 (a + d).
Proof.
  intros Hd E. unfold trunc in E. assert ((a + d - a) mod 2 ^ 32 = 0) as H.
  { rewrite Zminus_mod, <- E, Z.sub_diag. done. }
  replace (a + d - a) with d in H by lia. rewrite Z.mod_small in H by lia. lia.
Qed.

Lemma store_at m a l b : (forall j, 0 <= j < Z.of_nat (length l) -> u32 b <> u32 (a + 4 * j)) -> store m a l (u32 b) = m (u32 b).
Proof.
  intros H. assert (load (store m a l) b 1 = load m b 1) as E.
  { apply load_store_below. intros i j Hi Hj. replace (b + 4 * i) with b by lia. by apply H. }
  cbn in E. by injection E.
Qed.

Lemma load_store m a l : Z.of_nat (length l) < 2 ^ 30 -> load (store m a l) a (length l) = l.
Proof.
  revert m a. induction l as [|v l IH]; intros m a Hl; [done|]. cbn [length] in Hl. cbn [store load length]. rewrite IH by lia. f_equal.
  rewrite store_at; [apply fn_lookup_insert|]. intros j Hj.
  replace (a + 4 + 4 * j) with (a + (4 + 4 * j)) by lia. apply u32_apart. lia.
Qed.

(** The frame read back: the handler left the context alone. *)
Lemma load_agree m m' a n : (forall i, 0 <= i < Z.of_nat n -> m' (u32 (a + 4 * i)) = m (u32 (a + 4 * i))) -> load m' a n = load m a n.
Proof.
  revert a. induction n as [|n IH]; intros a H; [done|]. cbn [load]. f_equal.
  - specialize (H 0 ltac:(lia)). by rewrite Z.mul_0_r, Z.add_0_r in H.
  - apply IH. intros i Hi. replace (a + 4 + 4 * i) with (a + 4 * (i + 1)) by lia. apply H. lia.
Qed.

(** ** The round trip *)

(** What [sendsig] makes when it does not give up. *)
Lemma sendsig_some handler sig mask code r u um m m1 um1 u1 r1 : sendsig handler sig mask code r u um m = Some (m1, um1, u1, r1) ->
  m1 = store m (tf_sp r1 + 32) (sigcontext (Z.land (ss_flags (u_sigstk u)) SA_ONSTACK) mask r) /\ m_start um1 = m_start um /\ m_top um1 = m_top um /\
  0 <= tf_sp r1 < 2 ^ 32.
Proof.
  unfold sendsig. destruct (sendsig_frame u sig r) as [sfp flags] eqn:Ef. destruct (_ && _); [done|]. intros [= <- <- <- <-]. split; [done|].
  assert (0 <= sfp < 2 ^ 32) by (unfold sendsig_frame in Ef; destruct (_ && _ && _); injection Ef as <- _; apply Z.mod_pos_bound; lia).
  by destruct (_ && _).
Qed.

(** The mask the process had before the signal: what [sigsuspend] kept of it
    when the signal ended a [sigsuspend]. *)
Definition mask_before (y : sigproc) (u : usig) : Z := if has (u_psflags u) SAS_OLDMASK then u_oldmask u else p_sigmask y.

Lemma postsig_handles core p sig w w1 action mask : postsig core p sig w = Ok (w1, Handle action mask) ->
  mask = mask_before (words w p) (us w p) /\ u_sigstk (us w1 p) = u_sigstk (us w p).
Proof.
  unfold postsig, mask_before. intros (a&_&E)%outcome_bind_ok. destruct (negb (a =? SIG_DFL)).
  - change (us (take_away w p (sigmask sig)) p) with (us w p) in E. destruct (has (u_psflags (set_uerror (us w p) 0)) SAS_OLDMASK) eqn:Eo;
      apply outcome_bind_ok in E as (m&_&E); injection E as <- _ <-; rewrite us_at; change (u_psflags (set_uerror (us w p) 0)) with (u_psflags (us w p)) in Eo;
      rewrite Eo; (split; [|done]); [done|]. unfold take_away. cbn. by rewrite fn_lookup_insert.
  - by apply outcome_bind_ok in E as (prop&_&E).
Qed.

Lemma mask_before_ok y u : words_ok y u -> Z.ldiff (mask_before y u) sigcantmask = mask_before y u.
Proof.
  intros H. assert (no_cant (mask_before y u)) as Hn by (unfold mask_before; destruct (has _ _); [apply H|apply (wo_mask _ _ H)]).
  apply Z.bits_inj'. intros i Hi. rewrite Z.ldiff_spec. destruct (Z.testbit sigcantmask i) eqn:Ec; [|apply andb_true_r].
  assert (Z.testbit (Z.land (mask_before y u) sigcantmask) i = false) as Hz by (rewrite Hn; apply Z.bits_0).
  rewrite Z.land_spec, Ec, andb_true_r in Hz. by rewrite Hz.
Qed.

Lemma has_land_same f b : has (Z.land f b) b = has f b.
Proof. unfold has. by rewrite <- Z.land_assoc, Z.land_diag. Qed.

Lemma has_set_bit on f : has (set_bit on f SA_ONSTACK) SA_ONSTACK = on.
Proof.
  unfold has. change SA_ONSTACK with (2 ^ 0). unfold set_bit. rewrite land_bit by lia. destruct on.
  - rewrite Z.lor_spec. change (Z.testbit (2 ^ 0) 0) with true. apply orb_true_r.
  - rewrite Z.ldiff_spec. change (Z.testbit (2 ^ 0) 0) with true. apply andb_false_r.
Qed.

(** C25. A handled signal leaves no trace when its handler returns: with the
    context on the user's stack as [sendsig] stored it and the stack pointer
    back at the frame, [sigreturn] gives the process the sixteen registers it
    was interrupted with, the signal mask it had, the one from before
    [sigsuspend] when the signal ended that call, and its place on or off the
    alternate stack, provided the frame is in the user's window and the
    interrupted context was one of user code. *)
Theorem signal_roundtrip core p sig w w1 action returnmask code r um m m1 um1 u1 r1 um2 m2 r2 y2 u2 :
  words_ok (words w p) (us w p) ->
  postsig core p sig w = Ok (w1, Handle action returnmask) ->
  sendsig action sig returnmask code r (us w1 p) um m = Some (m1, um1, u1, r1) ->
  tf_sp r2 = tf_sp r1 -> m_start um2 = m_start um -> m_top um2 = m_top um ->
  (forall i, 0 <= i < 18 -> m2 (u32 (tf_sp r1 + 32 + 4 * i)) = m1 (u32 (tf_sp r1 + 32 + 4 * i))) ->
  tf_sp r1 <= 0xffffffff - 32 -> baduaddr_span um (tf_sp r1 + 32) 72 = false ->
  sigreturn_context_valid um (tf_pc r) (tf_sp r) (tf_psr r) = true ->
  exists u', sigreturn um2 m2 r2 y2 u2 = (set_sigmask y2 (mask_before (words w p) (us w p)), u', r) /\ us_error u' = EJUSTRETURN /\
    has (ss_flags (u_sigstk u')) SA_ONSTACK = has (ss_flags (u_sigstk (us w p))) SA_ONSTACK.
Proof.
  intros Hok Hp Hs Hsp Hst Htop Hm Hlo Hspan Hv.
  destruct (postsig_handles _ _ _ _ _ _ _ Hp) as [-> Hk]. destruct (sendsig_some _ _ _ _ _ _ _ _ _ _ _ _ Hs) as (->&_&_&Hr).
  assert (forall a n, baduaddr_span um2 a n = baduaddr_span um a n) as Hb by (intros a n; unfold baduaddr_span; by rewrite Hst, Htop).
  assert (forall pc sp psr, sigreturn_context_valid um2 pc sp psr = sigreturn_context_valid um pc sp psr) as Hv2.
  { intros pc sp psr. unfold sigreturn_context_valid, machine_user_pc_valid, machine_user_stack_valid. by rewrite !Hb. }
  unfold sigreturn. rewrite Hsp. destruct (Z.ltb_spec (0xffffffff - 32) (tf_sp r1)); [lia|].
  unfold copyin. change (4 * Z.of_nat 18) with 72. rewrite Hb, Hspan.
  rewrite (load_agree _ m2) by (intros i Hi; by apply Hm). rewrite Hk.
  set (l := sigcontext _ _ r). change 18%nat with (length l). rewrite load_store by (cbn; lia). unfold l, sigcontext. rewrite Hv2, Hv. cbn [negb]. rewrite mask_before_ok by done. eexists. split; [by destruct r|]. split; [done|].
  cbn. rewrite has_set_bit. apply has_land_same.
Qed.

(** An alternate stack whose frames start at [a]; it has the least size. *)
Definition stack_for (a : Z) : sigstk := Sigstk (u32 (a - 56)) MINSIGSTKSZ 0.

(** [sigaltstack] takes any base. *)
Lemma sigaltstack_sets p w base size : MINSIGSTKSZ <= size -> exists w',
  sigaltstack p (Some (Some (Sigstk base size 0))) None w = (w', None) /\ us_error (us w' p) = 0 /\ u_sigonstack (us w' p) = u_sigonstack (us w p) /\
  u_sigstk (us w' p) = Sigstk base size 0 /\ has (u_psflags (us w' p)) SAS_ALTSTACK = true.
Proof.
  intros Hs. unfold sigaltstack. cbn [ss_flags ss_size]. change (has 0 SA_DISABLE) with false. rewrite (proj2 (Z.ltb_ge _ _) Hs). cbv iota.
  eexists. split; [reflexivity|]. unfold set_error. rewrite !us_at. do 3 (split; [done|]). cbn. unfold has. change SAS_ALTSTACK with (2 ^ 1).
  rewrite land_bit by lia. rewrite Z.lor_spec. change (Z.testbit (2 ^ 1) 1) with true. apply orb_true_r.
Qed.

Lemma align8 a : 0 <= a < 2 ^ 32 -> a mod 8 = 0 -> Z.land a (u32 (Z.lnot 7)) = a.
Proof.
  intros Hr Ha. change (u32 (Z.lnot 7)) with (Z.land (Z.lnot (2 ^ 3 - 1)) (Z.ones 32)). rewrite Z.land_assoc, Z.land_ones, land_lnot_pow2 by lia.
  change (2 ^ 3) with 8. rewrite Ha, Z.mod_small; lia.
Qed.

(** On the alternate stack nothing is checked: [sigaltstack] takes any base
    address, and [sendsig] looks at the bounds of the process only when it is
    not on the alternate stack. For any eight-byte-aligned address, a process
    that has set SA_ONSTACK for a signal can so make the kernel store its
    registers there, eighteen words, whatever its window is. *)
Theorem sendsig_unchecked p w a r sig handler mask code um m :
  32 <= a -> a + 72 < 2 ^ 32 -> a mod 8 = 0 -> has (u_sigonstack (us w p)) (sigmask sig) = true ->
  exists w' old um' u' r', sigaltstack p (Some (Some (stack_for a))) None w = (w', old) /\ us_error (us w' p) = 0 /\
    sendsig handler sig mask code r (us w' p) um m = Some (store m a (sigcontext 0 mask r), um', u', r') /\ m_start um' = m_start um /\ m_top um' = m_top um.
Proof.
  intros Hlo Hhi Ha Hon. destruct (sigaltstack_sets p w (u32 (a - 56)) MINSIGSTKSZ) as (w'&E&E1&E2&E3&E4); [lia|].
  eexists _, _, _, _, _. split; [exact E|]. split; [exact E1|]. unfold sendsig, sendsig_frame. rewrite E2, E3, E4, Hon. cbn [ss_flags ss_base ss_size].
  change (has 0 SA_ONSTACK) with false. cbn [negb andb].
  assert (u32 (u32 (a - 56) + MINSIGSTKSZ) = a + 72) as ->.
  { unfold trunc, MINSIGSTKSZ. rewrite Zplus_mod_idemp_l, Z.mod_small; lia. }
  rewrite align8; [|lia|by rewrite Z.add_mod, Ha by done]. change (has (Z.lor 0 SA_ONSTACK) SA_ONSTACK) with true. cbn [negb andb].
  rewrite (trunc_small 32 (a + 72 - SIGFRAME)) by (unfold SIGFRAME; lia). unfold SIGFRAME.
  replace (a + 72 - 104 + 32) with a by lia. split; [reflexivity|done].
Qed.

(** *** Closed instances *)

(** Process 2 has a handler for SIGTERM; its window is 0x20010000 up to
    0x20030000. *)
Definition demo_user : usermem := Usermem 0x20010000 0x20030000 0x20010000 0x1000 0x400 0x2002fc00.
Definition demo_regs : trapframe := Trapframe 1 2 3 4 0x2002ff00 0x20010101 0x20010100 0x21000000 5 6 7 8 9 10 11 12.
Definition demo_words : sigproc := Sigproc (sigmask SIGTERM) (sigmask 2) default_ignored (sigmask SIGTERM) 0.
Definition demo_us : usig := Usig (<[15%nat:=0x20010201]> (replicate 32 0)) (replicate 32 0) (sigmask SIGTERM) 0 0 0 (Sigstk 0 0 0) 0x20010301 0 0.
Definition demo_caught : sigs := Sigs [] [] [] (fun _ => demo_words) (fun _ => demo_us).

Lemma demo_words_ok : words_ok demo_words demo_us.
Proof.
  constructor; try (by vm_compute).
  - intros s Hs. apply Bool.eqb_prop. revert s Hs. apply all_signals. by vm_compute.
  - intros s Hs. apply Bool.eqb_prop. revert s Hs. apply all_signals. by vm_compute.
  - apply Forall_forall. intros m Hm. apply list_elem_of_In in Hm. vm_compute in Hm. by destruct_or! Hm; subst.
Qed.

Definition demo_out : sigs * posted := match postsig false 2 SIGTERM demo_caught with Ok r => r | _ => (demo_caught, Dies 0) end.
Definition demo_frame : memory * usermem * usig * trapframe :=
  match sendsig 0x20010201 SIGTERM (sigmask 2) 0 demo_regs (us (fst demo_out) 2%nat) demo_user (fun _ => 0) with
  | Some f => f | None => ((fun _ => 0), demo_user, demo_us, demo_regs) end.

Lemma signal_roundtrip_witness : exists u',
  sigreturn demo_user (fst (fst (fst demo_frame))) (snd demo_frame) (words (fst demo_out) 2%nat) demo_us =
    (set_sigmask (words (fst demo_out) 2%nat) (sigmask 2), u', demo_regs) /\ us_error u' = EJUSTRETURN.
Proof.
  destruct (signal_roundtrip false 2 SIGTERM demo_caught (fst demo_out) 0x20010201 (sigmask 2) 0 demo_regs demo_user (fun _ => 0)
    (fst (fst (fst demo_frame))) (snd (fst (fst demo_frame))) (snd (fst demo_frame)) (snd demo_frame)
    demo_user (fst (fst (fst demo_frame))) (snd demo_frame) (words (fst demo_out) 2%nat) demo_us) as (u'&E&He&_);
    try reflexivity; [apply demo_words_ok|by vm_compute|].
  exists u'. split; [exact E|exact He].
Defined.

(** The kernel's memory at 0x20000100, outside the window. *)
Lemma sendsig_unchecked_witness : exists w' old um' u' r',
  sigaltstack 2 (Some (Some (stack_for 0x20000100))) None demo_caught = (w', old) /\ us_error (us w' 2%nat) = 0 /\
  sendsig 0x20010201 SIGTERM 0 0 demo_regs (us w' 2%nat) demo_user (fun _ => 0) =
    Some (store (fun _ => 0) 0x20000100 (sigcontext 0 0 demo_regs), um', u', r') /\ m_start um' = m_start demo_user /\ m_top um' = m_top demo_user.
Proof. apply (sendsig_unchecked 2 demo_caught 0x20000100 demo_regs SIGTERM 0x20010201 0 0 demo_user (fun _ => 0)); done. Defined.
