(* ===== verification/Hsx.v ===== *)
(** * The decoder of compressed images ([sys/arch/rp2040/rp2040/hsx_decoder.c],
    [hsx_stream.c], [sys/kern/subr_crc32.c])

    Heatshrink streams with a 9-bit window, most significant bit first: a
    one and eight literal bits, or a zero, a 9-bit distance less one and a
    count less one. The decoder keeps up to 32 bits in [acc], left aligned,
    with [sh] 24 less their number, and stops when its input holds no whole
    token or its output room is full; a back-reference may be left pending.
    The input chunk [ip..ie] is the list of bytes left; [base] is the memory
    written, a destination ([mask] all ones) or the ring of 512 bytes. *)
From S2P Require Import Prelude.

Definition HSXD_WINDOW_BITS : Z := 9.
Definition HSXD_WINDOW : Z := 512.

Record hsx_dec := Dec {
  d_in : list Z;
  d_acc : Z;
  d_sh : Z;
  d_pos : Z;
  d_cnt : Z;
  d_off : Z;
  d_lb : Z
}.

Definition hsx_dec_init (lookahead : Z) : hsx_dec := Dec [] 0 24 0 0 0 lookahead.

Definition hsx_dec_input (d : hsx_dec) (p : list Z) : hsx_dec :=
  Dec p (d_acc d) (d_sh d) (d_pos d) (d_cnt d) (d_off d) (d_lb d).

(** [while (sh >= 0 && ip != ie)]. *)
Fixpoint refill (ip : list Z) (acc sh : Z) : list Z * Z * Z :=
  match ip with
  | [] => ([], acc, sh)
  | b :: ip' => if 0 <=? sh then refill ip' (Z.lor acc (u32 (Z.shiftl b sh))) (sh - 8) else (ip, acc, sh)
  end.

(** [while (n != 0 && pos < off) *op++ = 0], then [pos] and [n]. *)
Fixpoint copy_zeros (n : nat) (off : Z) (base : list Z) (op pos : Z) : outcome (list Z * Z * Z * nat) :=
  match n with
  | O => Ok (base, op, pos, O)
  | S n' =>
      if pos <? off then base ← wr base (Z.to_nat op) 0; copy_zeros n' off base (op + 1) (pos + 1)
      else Ok (base, op, pos, n)
  end.

(** [while (n-- != 0) *op++ = base[src++ & mask]]. *)
Fixpoint copy_back (n : nat) (mask : Z) (base : list Z) (op src : Z) : outcome (list Z * Z) :=
  match n with
  | O => Ok (base, op)
  | S n' =>
      v ← rd base (Z.to_nat (Z.land src mask));
      base ← wr base (Z.to_nat op) v;
      copy_back n' mask base (op + 1) (u32 (src + 1))
  end.

(** The registers of [hsx_dec_run]. *)
Record regs := Regs { r_in : list Z; r_acc : Z; r_sh : Z; r_cnt : Z; r_off : Z; r_base : list Z; r_op : Z }.

Section run.
Context (mask op0 lim pos0 lb : Z).

(** From the label [copy] to the end of the loop body. *)
Definition do_copy (s : regs) : outcome regs :=
  let n := lim - r_op s in
  let n := if r_cnt s <? n then r_cnt s else n in
  let cnt := r_cnt s - n in
  let pos := u32 (pos0 + (r_op s - op0)) in
  z ← copy_zeros (Z.to_nat n) (r_off s) (r_base s) (r_op s) pos;
  let '(base, op, pos, n) := z in
  b ← copy_back n mask base op (u32 (pos - r_off s));
  Ok (Regs (r_in s) (r_acc s) (r_sh s) cnt (r_off s) (fst b) (snd b)).

(** The bits taken from the input, or the end of the chunk. *)
Definition fetch (s : regs) : bool * regs :=
  if 6 <? r_sh s then
    let '(ip, acc, sh) := refill (r_in s) (r_acc s) (r_sh s) in
    (15 <? sh, Regs ip acc sh (r_cnt s) (r_off s) (r_base s) (r_op s))
  else (false, s).

(** [while (op != lim)]; every round writes a byte or breaks. *)
Fixpoint dec_loop (fuel : nat) (s : regs) : outcome regs :=
  match fuel with
  | O => Fault
  | S fuel' =>
      if r_op s =? lim then Ok s
      else
        let '(stop, s) := fetch s in
        if stop then Ok s
        else if Z.testbit (r_acc s) 31 then
          base ← wr (r_base s) (Z.to_nat (r_op s)) (u8 (Z.shiftr (r_acc s) 23));
          dec_loop fuel' (Regs (r_in s) (u32 (Z.shiftl (r_acc s) 9)) (r_sh s + 9) (r_cnt s) (r_off s) base (r_op s + 1))
        else if 14 - lb <? r_sh s then Ok s
        else
          let off := Z.land (Z.shiftr (r_acc s) (31 - HSXD_WINDOW_BITS)) (HSXD_WINDOW - 1) + 1 in
          let cnt := Z.land (Z.shiftr (r_acc s) (31 - HSXD_WINDOW_BITS - lb)) (2 ^ lb - 1) + 1 in
          let acc := u32 (Z.shiftl (r_acc s) (1 + HSXD_WINDOW_BITS + lb)) in
          s ← do_copy (Regs (r_in s) acc (r_sh s + (1 + HSXD_WINDOW_BITS + lb)) cnt off (r_base s) (r_op s));
          dec_loop fuel' s
  end.

End run.

(** Produce up to [room] bytes: the decoder, the memory and the number of
    bytes produced. *)
Definition hsx_dec_run (d : hsx_dec) (base : list Z) (mask room : Z) : outcome (hsx_dec * list Z * Z) :=
  let op := Z.land (d_pos d) mask in
  let lim := op + room in
  let s := Regs (d_in d) (d_acc d) (d_sh d) (d_cnt d) (d_off d) base op in
  s ← (if negb (d_cnt d =? 0) then do_copy mask op lim (d_pos d) s else Ok s);
  s ← dec_loop mask op lim (d_pos d) (d_lb d) (S (Z.to_nat room)) s;
  let n := r_op s - op in
  Ok (Dec (r_in s) (r_acc s) (r_sh s) (u32 (d_pos d + n)) (r_cnt s) (r_off s) (d_lb d), r_base s, n).

(** ** CRC-32 *)

Definition crc32_nibble : list Z :=
  [0x00000000; 0x1db71064; 0x3b6e20c8; 0x26d930ac;
   0x76dc4190; 0x6b6b51f4; 0x4db26158; 0x5005713c;
   0xedb88320; 0xf00f9344; 0xd6d6a3e8; 0xcb61b38c;
   0x9b64c2b0; 0x86d3d2d4; 0xa00ae278; 0xbdbdf21c].

Definition crc32_step (crc : Z) : Z :=
  Z.lxor (Z.shiftr crc 4) (nth (Z.to_nat (Z.land crc 15)) crc32_nibble 0).

Definition crc32_update (crc : Z) (buf : list Z) : Z :=
  foldl (fun crc b => crc32_step (crc32_step (Z.lxor crc b))) crc buf.

Definition CRC32_INIT : Z := 0xffffffff.
Definition CRC32_FIN (crc : Z) : Z := Z.lxor crc 0xffffffff.

(** ** Expanding a packed stream *)

Definition HSX_LOOKAHEAD : nat := 3.
(** [HSX_WORK_SIZE - sizeof (struct hsx_dec)]: eight words and the ring. *)
Definition HSX_STAGE : Z := 1024 - (8 * 4 + 512).

Section expand.
(** [fill ctx off buf len]: the bytes read, or a failure. *)
Context (fill : Z -> Z -> option (list Z)) (rlen : Z).

Record work := Work { w_dec : hsx_dec; w_win : list Z; w_dst : option (list Z); w_out : Z; w_crc : Z }.

(** The [do ... while (n == room)] loop; [None] is the return of -1. *)
Fixpoint expand_chunk (fuel : nat) (w : work) : outcome (option work) :=
  match fuel with
  | O => Fault
  | S fuel' =>
      let room := u32 (rlen - w_out w) in
      let ring := Z.land (w_out w) (HSXD_WINDOW - 1) in
      '(linear, base, mask, room) ←
        Ok (match w_dst w with
            | Some dst => if negb (room =? 0) then (true, dst, 2 ^ 32 - 1, room)
                          else (false, w_win w, HSXD_WINDOW - 1, 1)
            | None => (false, w_win w, HSXD_WINDOW - 1,
                       if HSXD_WINDOW - ring <? room then HSXD_WINDOW - ring else if room =? 0 then 1 else room)
            end);
      r ← hsx_dec_run (w_dec w) base mask room;
      let '(d, base, n) := r in
      let win := if linear : bool then w_win w else base in
      let dst := if linear then Some base else w_dst w in
      if negb (n =? 0) && (w_out w =? rlen) then Ok None
      else
        let at_ := Z.to_nat (Z.land (w_out w) mask) in
        let crc := crc32_update (w_crc w) (take (Z.to_nat n) (drop at_ base)) in
        let w := Work d win dst (u32 (w_out w + n)) crc in
        if n =? room then expand_chunk fuel' w else Ok (Some w)
  end.

Fixpoint expand_loop (fuel : nat) (off clen in_ : Z) (w : work) : outcome (option work) :=
  match fuel with
  | O => Fault
  | S fuel' =>
      if in_ <? clen then
        let avail := clen - in_ in
        let avail := if HSX_STAGE <? avail then HSX_STAGE else avail in
        match fill (u32 (off + in_)) avail with
        | None => Ok None
        | Some stage =>
            r ← expand_chunk (Z.to_nat rlen + 3)
                  (Work (hsx_dec_input (w_dec w) stage) (w_win w) (w_dst w) (w_out w) (w_crc w));
            match r with None => Ok None | Some w => expand_loop fuel' off clen (in_ + avail) w end
        end
      else Ok (Some w)
  end.

(** The CRC and the destination, or the return of -1. *)
Definition hsx_expand (off clen : Z) (win : list Z) (dst : option (list Z)) : outcome (option (Z * option (list Z))) :=
  r ← expand_loop (S (Z.to_nat clen)) off clen 0 (Work (hsx_dec_init (Z.of_nat HSX_LOOKAHEAD)) win dst 0 CRC32_INIT);
  match r with
  | None => Ok None
  | Some w => if negb (w_out w =? rlen) then Ok None else Ok (Some (CRC32_FIN (w_crc w), w_dst w))
  end.

End expand.

(** ** The reference decoder *)

Definition bits_of_byte (b : Z) : list bool := map (Z.testbit b) [7; 6; 5; 4; 3; 2; 1; 0].
Definition bits_of (l : list Z) : list bool := flat_map bits_of_byte l.

Definition bits_val (l : list bool) : Z := foldl (fun n (b : bool) => 2 * n + if b then 1 else 0) 0 l.

Inductive token := Lit (b : Z) | Ref (off : Z) (cnt : nat).

(** The first whole token of a bit stream. *)
Definition next_token (lb : nat) (bits : list bool) : option (token * list bool) :=
  match bits with
  | [] => None
  | true :: r => if decide (8 <= length r)%nat then Some (Lit (bits_val (take 8 r)), drop 8 r) else None
  | false :: r =>
      if decide (9 + lb <= length r)%nat
      then Some (Ref (bits_val (take 9 r) + 1) (S (Z.to_nat (bits_val (take lb (drop 9 r))))), drop (9 + lb) r)
      else None
  end.

(** The byte [off] before the end of the output; zero before its start. *)
Definition back (off : Z) (out : list Z) : Z :=
  if decide (off <= Z.of_nat (length out)) then nth (length out - Z.to_nat off) out 0 else 0.

Fixpoint copy_ref (n : nat) (off : Z) (out : list Z) : list Z :=
  match n with O => out | S n' => copy_ref n' off (out ++ [back off out]) end.

(** The output and the bits left when no whole token is left. *)
Fixpoint decode_from (fuel lb : nat) (bits : list bool) (out : list Z) : list Z * list bool :=
  match fuel with
  | O => (out, bits)
  | S fuel' =>
      match next_token lb bits with
      | None => (out, bits)
      | Some (Lit b, bits') => decode_from fuel' lb bits' (out ++ [b])
      | Some (Ref off n, bits') => decode_from fuel' lb bits' (copy_ref n off out)
      end
  end.

(** The expansion of a stream. *)
Definition decode (lb : nat) (l : list Z) : list Z :=
  fst (decode_from (length (bits_of l)) lb (bits_of l) []).

(** Decoding in pieces. *)

Lemma length_copy_ref n off out : length (copy_ref n off out) = (length out + n)%nat.
Proof. revert out. induction n as [|n IH]; intros out; cbn [copy_ref]; [lia|]. rewrite IH, length_app. cbn. lia. Qed.

Section reference.
Context (lb : nat).

Definition total (out : list Z) (bits : list bool) : list Z * list bool := decode_from (length bits) lb bits out.

Lemma next_token_shorter bits t bits' : next_token lb bits = Some (t, bits') -> (length bits' < length bits)%nat.
Proof.
  destruct bits as [|[] bits]; cbn [next_token]; [done|..]; (case_decide; [|done]); intros [= _ <-]; rewrite length_drop; cbn; lia.
Qed.

Lemma decode_fuel fuel bits out : (length bits <= fuel)%nat -> decode_from fuel lb bits out = total out bits.
Proof.
  unfold total. enough (forall f1 f2 bits out, (length bits <= f1)%nat -> (length bits <= f2)%nat -> decode_from f1 lb bits out = decode_from f2 lb bits out) as H by (intros; by apply H).
  clear bits out. induction f1 as [|f1 IH]; intros f2 bits out H1 H2.
  { destruct bits; [|cbn in H1; lia]. by destruct f2. }
  destruct f2 as [|f2]; [destruct bits; [done|cbn in H2; lia]|]. cbn [decode_from].
  destruct (next_token lb bits) as [[t bits']|] eqn:E; [|done]. apply next_token_shorter in E. destruct t; apply IH; lia.
Qed.

Lemma total_lit out bits b bits' : next_token lb bits = Some (Lit b, bits') -> total out bits = total (out ++ [b]) bits'.
Proof.
  intros E. rewrite <- (decode_fuel (S (length bits))) by lia. cbn [decode_from]. rewrite E. apply decode_fuel. apply next_token_shorter in E. lia.
Qed.

Lemma total_ref out bits off n bits' : next_token lb bits = Some (Ref off n, bits') -> total out bits = total (copy_ref n off out) bits'.
Proof.
  intros E. rewrite <- (decode_fuel (S (length bits))) by lia. cbn [decode_from]. rewrite E. apply decode_fuel. apply next_token_shorter in E. lia.
Qed.

Lemma copy_ref_add a b off out : copy_ref (a + b) off out = copy_ref b off (copy_ref a off out).
Proof. revert out. induction a as [|a IH]; intros out; [done|]. cbn [Nat.add copy_ref]. apply IH. Qed.

Lemma copy_ref_prefix n off out : out `prefix_of` copy_ref n off out.
Proof. revert out. induction n as [|n IH]; intros out; cbn [copy_ref]; [done|]. etrans; [|apply IH]. by eexists. Qed.

Lemma next_token_app bits t r x : next_token lb bits = Some (t, r) -> next_token lb (bits ++ x) = Some (t, r ++ x).
Proof.
  destruct bits as [|[] bits]; cbn [next_token app]; [done|..]; (case_decide as Hd; [|done]); rewrite decide_True by (rewrite length_app; lia);
    intros [= <- <-]; rewrite ?drop_app_le, ?take_app_le by lia; [done|].
  by rewrite take_app_le by (rewrite length_drop; lia).
Qed.

(** Decoding a prefix first, and then the bits it left with the rest. *)
Lemma decode_app out b1 b2 : total out (b1 ++ b2) = total (fst (total out b1)) (snd (total out b1) ++ b2).
Proof.
  remember (length b1) as n eqn:En. revert b1 out En. induction n as [n IH] using lt_wf_ind. intros b1 out ->.
  destruct (next_token lb b1) as [[[b|off k] r]|] eqn:E.
  - rewrite (total_lit _ b1 _ _ E), (total_lit _ _ _ _ (next_token_app _ _ _ b2 E)). eapply IH; [|done]. by eapply next_token_shorter.
  - rewrite (total_ref _ b1 _ _ _ E), (total_ref _ _ _ _ _ (next_token_app _ _ _ b2 E)). eapply IH; [|done]. by eapply next_token_shorter.
  - assert (total out b1 = (out, b1)) as -> by (unfold total; destruct b1; [done|]; cbn [length decode_from]; by rewrite E). done.
Qed.

(** How much is decoded does not depend on the bytes before. *)
Lemma total_shape out out' bits : length out = length out' ->
  length (fst (total out bits)) = length (fst (total out' bits)) /\ snd (total out bits) = snd (total out' bits).
Proof.
  remember (length bits) as n eqn:En. revert bits out out' En. induction n as [n IH] using lt_wf_ind. intros bits out out' -> Hl.
  destruct (next_token lb bits) as [[[b|off k] r]|] eqn:E.
  - rewrite !(total_lit _ bits _ _ E). eapply IH; [|done|by rewrite !length_app, Hl]. by eapply next_token_shorter.
  - rewrite !(total_ref _ bits _ _ _ E). eapply IH; [|done|by rewrite !length_copy_ref, Hl]. by eapply next_token_shorter.
  - assert (forall o, total o bits = (o, bits)) as Hs by (intros o; unfold total; destruct bits; [done|]; cbn [length decode_from]; by rewrite E).
    by rewrite !Hs.
Qed.

Lemma total_prefix out bits : out `prefix_of` fst (total out bits).
Proof.
  remember (length bits) as n eqn:En. revert bits out En. induction n as [n IH] using lt_wf_ind. intros bits out ->.
  destruct (next_token lb bits) as [[[b|off k] r]|] eqn:E.
  - rewrite (total_lit _ bits _ _ E). eapply prefix_app_l. eapply IH; [by eapply next_token_shorter|done].
  - rewrite (total_ref _ bits _ _ _ E). etrans; [apply copy_ref_prefix|]. eapply IH; [by eapply next_token_shorter|done].
  - unfold total. destruct bits; [done|]. cbn [length decode_from]. by rewrite E.
Qed.

End reference.

(** ** The bit buffer *)

Definition byte (b : Z) : Prop := 0 <= b < 256.

(** [acc] holds the bits [bs], left aligned, and zeros after them. *)
Definition acc_rep (acc : Z) (bs : list bool) : Prop :=
  0 <= acc < 2 ^ 32 /\ (length bs <= 32)%nat /\
  forall i, (i < 32)%nat -> Z.testbit acc (31 - Z.of_nat i) = nth i bs false.

Lemma bits_of_byte_nth b i : nth i (bits_of_byte b) false = if decide (i < 8)%nat then Z.testbit b (7 - Z.of_nat i) else false.
Proof.
  case_decide; [|by rewrite nth_overflow by (cbn; lia)]. do 8 (destruct i as [|i]; [reflexivity|]). lia.
Qed.

Lemma byte_high b n : byte b -> 8 <= n -> Z.testbit b n = false.
Proof.
  intros [? ?] ?. destruct (decide (b = 0)) as [->|]; [apply Z.bits_0|]. apply Z.bits_above_log2; [lia|].
  apply Z.lt_le_trans with 8; [|lia]. apply Z.log2_lt_pow2; lia.
Qed.

Lemma testbit_trunc w x n : 0 <= n < w -> Z.testbit (trunc w x) n = Z.testbit x n.
Proof. intros. unfold trunc. apply Z.mod_pow2_bits_low; lia. Qed.

Lemma acc_push acc bs b : acc_rep acc bs -> (length bs <= 24)%nat -> byte b ->
  acc_rep (Z.lor acc (u32 (Z.shiftl b (24 - Z.of_nat (length bs))))) (bs ++ bits_of_byte b).
Proof.
  intros (Hr&Hl&Hb) Hle Hby. split.
  { pose proof (trunc_range 32 (Z.shiftl b (24 - Z.of_nat (length bs))) ltac:(lia)) as [Ht0 Ht].
    split; [apply Z.lor_nonneg; lia|].
    set (t := trunc 32 _) in *. destruct (decide (Z.lor acc t = 0)) as [->|Hn]; [lia|].
    assert (0 <= Z.lor acc t) by (apply Z.lor_nonneg; lia).
    apply Z.log2_lt_pow2; [lia|]. rewrite Z.log2_lor by lia. 
    assert (Z.log2 acc < 32) by (destruct (decide (acc = 0)) as [->|]; [done|apply Z.log2_lt_pow2; lia]).
    assert (Z.log2 t < 32) by (destruct (decide (t = 0)) as [->|]; [done|apply Z.log2_lt_pow2; lia]). lia. }
  split; [rewrite length_app; cbn; lia|]. intros i Hi. rewrite Z.lor_spec, Hb, testbit_trunc by lia. rewrite Z.shiftl_spec by lia.
  destruct (decide (i < length bs)%nat) as [Hlt|Hge].
  - rewrite app_nth1 by done. rewrite (byte_high b) by (try done; lia). by rewrite orb_false_r.
  - rewrite (nth_overflow bs) by lia. rewrite app_nth2 by lia. cbn [orb]. rewrite bits_of_byte_nth. case_decide as Hd.
    + f_equal. lia.
    + apply Z.testbit_neg_r. lia.
Qed.

Lemma refill_spec ip acc sh bs : acc_rep acc bs -> sh = 24 - Z.of_nat (length bs) -> Forall byte ip ->
  exists ip' acc' sh' bs', refill ip acc sh = (ip', acc', sh') /\ acc_rep acc' bs' /\ sh' = 24 - Z.of_nat (length bs') /\
    bs' ++ bits_of ip' = bs ++ bits_of ip /\ (ip' = [] \/ sh' < 0) /\ Forall byte ip'.
Proof.
  revert acc sh bs. induction ip as [|b ip IH]; intros acc sh bs Ha Hs Hip; cbn [refill].
  { exists [], acc, sh, bs. split_and?; try done. by left. }
  apply Forall_cons in Hip as [Hb Hip]. destruct (Z.leb_spec 0 sh).
  - destruct (IH (Z.lor acc (u32 (Z.shiftl b sh))) (sh - 8) (bs ++ bits_of_byte b)) as (ip'&acc'&sh'&bs'&E&?&?&Eb&?&?); [|rewrite length_app; cbn; lia|done|].
    { rewrite Hs. apply acc_push; [done|lia|done]. }
    exists ip', acc', sh', bs'. split_and?; try done. rewrite Eb. cbn [bits_of flat_map]. by rewrite <- (assoc_L (++)).
  - exists (b :: ip), acc, sh, bs. split_and?; try done; [by right|by constructor].
Qed.

Lemma acc_drop acc bs k : acc_rep acc bs -> (k <= length bs)%nat -> acc_rep (u32 (Z.shiftl acc (Z.of_nat k))) (drop k bs).
Proof.
  intros (Hr&Hl&Hb) Hk. split; [apply (trunc_range 32); lia|]. split; [rewrite length_drop; lia|]. intros i Hi.
  rewrite testbit_trunc, Z.shiftl_spec by lia. rewrite nth_skipn. destruct (decide (k + i < 32)%nat).
  - rewrite <- Hb by lia. f_equal. lia.
  - rewrite nth_overflow by lia. apply Z.testbit_neg_r. lia.
Qed.

Lemma bits_val_snoc l b : bits_val (l ++ [b]) = 2 * bits_val l + if b then 1 else 0.
Proof. unfold bits_val. by rewrite foldl_app. Qed.

Lemma bits_val_bit l j : 0 <= j -> Z.testbit (bits_val l) j = nth (length l - S (Z.to_nat j)) l false && bool_decide (j < Z.of_nat (length l)).
Proof.
  revert j. induction l as [|b l IH] using rev_ind; intros j Hj; [by rewrite andb_comm, bool_decide_eq_false_2, Z.bits_0 by (cbn; lia)|].
  rewrite bits_val_snoc, length_app. cbn [length]. destruct (decide (j = 0)) as [->|Hne].
  - rewrite bool_decide_eq_true_2, andb_true_r by lia. replace (length l + 1 - S (Z.to_nat 0))%nat with (length l) by lia.
    rewrite nth_middle. rewrite Z.add_comm, Z.mul_comm. destruct b; [|rewrite Z.add_0_l].
    + rewrite Z.add_comm, Z.mul_comm. apply Z.testbit_odd_0.
    + rewrite Z.mul_comm. apply Z.testbit_even_0.
  - replace j with (Z.succ (j - 1)) at 1 by lia.
    replace (Z.testbit (2 * bits_val l + (if b then 1 else 0)) (Z.succ (j - 1))) with (Z.testbit (bits_val l) (j - 1)).
    2:{ destruct b; [by rewrite Z.testbit_odd_succ by lia|rewrite Z.add_0_r; by rewrite Z.testbit_even_succ by lia]. }
    rewrite IH by lia. destruct (decide (j < Z.of_nat (length l) + 1)).
    + rewrite !bool_decide_eq_true_2 by lia. rewrite !andb_true_r, app_nth1 by lia. f_equal. lia.
    + rewrite !bool_decide_eq_false_2 by lia. by rewrite !andb_false_r.
Qed.

Lemma bits_val_range l : 0 <= bits_val l < 2 ^ Z.of_nat (length l).
Proof.
  induction l as [|b l IH] using rev_ind; [done|]. rewrite bits_val_snoc, length_app. cbn [length].
  rewrite Nat2Z.inj_add, Z.pow_add_r by lia. destruct b; lia.
Qed.

(** A field of [n] bits after the first [k]. *)
Lemma acc_field acc bs k n : acc_rep acc bs -> (k + n <= length bs)%nat ->
  Z.land (Z.shiftr acc (32 - Z.of_nat k - Z.of_nat n)) (2 ^ Z.of_nat n - 1) = bits_val (take n (drop k bs)).
Proof.
  intros (Hr&Hl&Hb) Hk. rewrite land_pow2_mod by lia. apply Z.bits_inj'. intros j Hj.
  assert (length (take n (drop k bs)) = n) as Hlen by (rewrite length_take, length_drop; lia).
  rewrite bits_val_bit by done. rewrite Hlen. destruct (decide (j < Z.of_nat n)).
  - rewrite bool_decide_eq_true_2, andb_true_r by lia. rewrite Z.mod_pow2_bits_low, Z.shiftr_spec by lia.
    rewrite nth_firstn, (proj2 (Nat.ltb_lt _ _)) by lia. rewrite nth_skipn, <- Hb by lia. f_equal. lia.
  - rewrite bool_decide_eq_false_2, andb_false_r by lia. apply Z.mod_pow2_bits_high. lia.
Qed.

(** ** The history *)

Section memory.
(** Byte [p] of the output lies at [p mod 2^m]; the last [w] bytes are kept. *)
Context (m : Z) (w : Z).
Hypothesis Hm : 0 <= m <= 32.
Hypothesis Hw : 512 <= w <= 2 ^ m.

Definition holds (base out : list Z) : Prop :=
  forall k, (k < length out)%nat -> Z.of_nat (length out) - w <= Z.of_nat k -> base !! Z.to_nat (Z.of_nat k mod 2 ^ m) = out !! k.

Lemma holds_write base out v : holds base out -> Z.of_nat (length out) mod 2 ^ m < Z.of_nat (length base) ->
  holds (<[Z.to_nat (Z.of_nat (length out) mod 2 ^ m):=v]> base) (out ++ [v]).
Proof.
  intros H Hlt k. rewrite length_app. cbn [length]. intros Hk Hwin.
  pose proof (Z.mod_pos_bound (Z.of_nat (length out)) (2 ^ m) ltac:(lia)). pose proof (Z.mod_pos_bound (Z.of_nat k) (2 ^ m) ltac:(lia)).
  destruct (decide (k = length out)) as [->|Hne].
  - rewrite list_lookup_insert_eq by lia. by rewrite list_lookup_middle.
  - rewrite list_lookup_insert_ne.
    + rewrite H by lia. by rewrite lookup_app_l by lia.
    + intros E. assert (Z.of_nat k mod 2 ^ m = Z.of_nat (length out) mod 2 ^ m) as E' by lia.
      assert ((Z.of_nat (length out) - Z.of_nat k) mod 2 ^ m = 0) as E2 by (rewrite Zminus_mod, E', Z.sub_diag; apply Z.mod_0_l; lia).
      rewrite Z.mod_small in E2 by lia. lia.
Qed.

Lemma holds_read base out off : holds base out -> 1 <= off <= 512 -> off <= Z.of_nat (length out) ->
  base !! Z.to_nat ((Z.of_nat (length out) - off) mod 2 ^ m) = Some (back off out).
Proof.
  intros H Ho Hle. unfold back. rewrite decide_True by done.
  destruct (nth_lookup_or_length out (length out - Z.to_nat off) 0) as [<-|]; [|lia].
  rewrite <- (H (length out - Z.to_nat off)%nat) by lia. do 3 f_equal. lia.
Qed.

(** One call: [pos0] bytes are out when it starts, and it may write up to
    the address [lim]. *)
Context (pos0 lim size : Z).
Hypothesis Hpos : 0 <= pos0.
Hypothesis Hlim : lim <= 2 ^ m.
Hypothesis Hsize : lim <= size.
Definition op0 : Z := pos0 mod 2 ^ m.
Hypothesis Hfit : pos0 + (lim - op0) < 2 ^ 32.

Record mem_ok (base : list Z) (op : Z) (out : list Z) : Prop := {
  mem_holds : holds base out;
  mem_op : op = op0 + (Z.of_nat (length out) - pos0);
  mem_pos : pos0 <= Z.of_nat (length out);
  mem_len : Z.of_nat (length base) = size
}.

Lemma op0_range : 0 <= op0 < 2 ^ m.
Proof. apply Z.mod_pos_bound. lia. Qed.

Lemma mem_addr base op out : mem_ok base op out -> op < lim -> op = Z.of_nat (length out) mod 2 ^ m.
Proof.
  intros [_ -> Hp _] Hl. pose proof op0_range. unfold op0 in *.
  replace (Z.of_nat (length out)) with (pos0 + (Z.of_nat (length out) - pos0)) at 2 by lia.
  rewrite Z.add_mod by lia. rewrite (Z.mod_small (Z.of_nat (length out) - pos0)) by lia.
  rewrite (Z.mod_small (pos0 mod 2 ^ m + _)) by lia. lia.
Qed.

Lemma mem_write base op out v : mem_ok base op out -> op < lim ->
  wr base (Z.to_nat op) v = Ok (<[Z.to_nat op:=v]> base) /\ mem_ok (<[Z.to_nat op:=v]> base) (op + 1) (out ++ [v]).
Proof.
  intros Hmem Hl. pose proof (mem_addr _ _ _ Hmem Hl) as Ha. pose proof (Z.mod_pos_bound (Z.of_nat (length out)) (2 ^ m) ltac:(lia)).
  destruct Hmem as [Hh Ho Hp Hb]. split; [apply wr_ok; lia|]. constructor.
  - rewrite Ha. apply holds_write; [done|lia].
  - rewrite length_app. cbn. lia.
  - rewrite length_app. cbn. lia.
  - rewrite length_insert. lia.
Qed.

Lemma copy_zeros_spec n off base op out : mem_ok base op out -> op + Z.of_nat n <= lim ->
  exists base' op' out' n', copy_zeros n off base op (Z.of_nat (length out)) = Ok (base', op', Z.of_nat (length out'), n') /\
    mem_ok base' op' out' /\ copy_ref n off out = copy_ref n' off out' /\ (n' = 0%nat \/ off <= Z.of_nat (length out')) /\ op' + Z.of_nat n' = op + Z.of_nat n /\ (n' <= n)%nat.
Proof.
  revert base op out. induction n as [|n IH]; intros base op out Hmem Hle; cbn [copy_zeros].
  { exists base, op, out, 0%nat. split_and?; try done. by left. }
  destruct (Z.ltb_spec (Z.of_nat (length out)) off) as [Hlt|Hge].
  - destruct (mem_write base op out 0 Hmem ltac:(lia)) as [-> Hmem']. cbn [mbind outcome_bind].
    destruct (IH _ _ _ Hmem' ltac:(lia)) as (base'&op'&out'&n'&E&?&Ec&?&?&?). exists base', op', out', n'.
    rewrite length_app, Nat2Z.inj_add in E. split_and?; try done; [|lia..]. rewrite <- Ec. cbn [copy_ref]. unfold back. by rewrite decide_False by lia.
  - exists base, op, out, (S n). split_and?; try done. by right.
Qed.

Lemma copy_back_spec n off base op out mask : mem_ok base op out -> mask = 2 ^ m - 1 -> op + Z.of_nat n <= lim -> 1 <= off <= 512 -> off <= Z.of_nat (length out) ->
  exists base', copy_back n mask base op (u32 (Z.of_nat (length out) - off)) = Ok (base', op + Z.of_nat n) /\ mem_ok base' (op + Z.of_nat n) (copy_ref n off out).
Proof.
  intros Hmem ->. revert base op out Hmem. induction n as [|n IH]; intros base op out Hmem Hle Ho Hge; cbn [copy_back copy_ref].
  { exists base. by rewrite Z.add_0_r. }
  pose proof (mem_op _ _ _ Hmem) as Hop. pose proof op0_range.
  rewrite land_pow2_mod, (trunc_small 32 (Z.of_nat (length out) - off)) by lia.
  rewrite (rd_ok _ _ (back off out)) by (apply holds_read; [by destruct Hmem|lia|lia]). cbn [mbind outcome_bind].
  destruct (mem_write base op out (back off out) Hmem ltac:(lia)) as [-> Hmem']. cbn [mbind outcome_bind].
  destruct (IH _ _ _ Hmem' ltac:(lia) Ho ltac:(rewrite length_app; cbn; lia)) as (base'&E&Hm'). exists base'.
  rewrite length_app in E. cbn [length] in E. replace (op + Z.of_nat (S n)) with (op + 1 + Z.of_nat n) by lia. split; [|done].
  rewrite <- E. f_equal. f_equal. lia.
Qed.

(** The registers stand for the output [out] and the bits left [bits]. *)
Definition regs_rep (s : regs) (out : list Z) (bits : list bool) : Prop :=
  mem_ok (r_base s) (r_op s) out /\ r_op s <= lim /\ Forall byte (r_in s) /\
  exists bs, acc_rep (r_acc s) bs /\ r_sh s = 24 - Z.of_nat (length bs) /\ bits = bs ++ bits_of (r_in s).

Lemma do_copy_spec s out bits : regs_rep s out bits -> 0 <= r_cnt s -> (0 < r_cnt s -> 1 <= r_off s <= 512) ->
  exists s' n, do_copy (2 ^ m - 1) op0 lim pos0 s = Ok s' /\ regs_rep s' (copy_ref n (r_off s) out) bits /\
    r_off s' = r_off s /\ r_cnt s = r_cnt s' + Z.of_nat n /\ 0 <= r_cnt s' /\ r_op s' = r_op s + Z.of_nat n /\ (r_cnt s' = 0 \/ r_op s' = lim).
Proof.
  intros (Hmem&Hle&Hin&bs&Hacc&Hsh&Hb) Hc Ho. unfold do_copy. set (n := if r_cnt s <? _ then _ else _).
  assert (0 <= n /\ n <= r_cnt s /\ n <= lim - r_op s /\ (n = r_cnt s \/ n = lim - r_op s)) as (Hn0&Hn1&Hn2&Hn3) by (unfold n; case_bool; lia).
  pose proof (mem_op _ _ _ Hmem) as Hop. pose proof (mem_pos _ _ _ Hmem). pose proof op0_range.
  replace (u32 (pos0 + (r_op s - op0))) with (Z.of_nat (length out)) by (rewrite trunc_small; lia).
  destruct (copy_zeros_spec (Z.to_nat n) (r_off s) (r_base s) (r_op s) out Hmem ltac:(lia)) as (base1&op1&out1&n1&->&Hm1&Ec&Hor&Hsum&Hn1').
  cbn [mbind outcome_bind].
  assert (exists base2, copy_back n1 (2 ^ m - 1) base1 op1 (u32 (Z.of_nat (length out1) - r_off s)) = Ok (base2, op1 + Z.of_nat n1) /\
    mem_ok base2 (op1 + Z.of_nat n1) (copy_ref n1 (r_off s) out1)) as (base2&->&Hm2).
  { destruct n1 as [|n1]; [exists base1; cbn [copy_back copy_ref]; by rewrite Z.add_0_r|]. destruct Hor as [?|Hor]; [done|].
    apply copy_back_spec; try done; [lia|apply Ho; lia]. }
  cbn [mbind outcome_bind fst snd]. eexists _, (Z.to_nat n). split; [done|]. cbn [r_in r_acc r_sh r_cnt r_off r_base r_op].
  split; [|split_and?; try done; lia]. rewrite Ec. split; [done|]. split; [cbn; lia|]. split; [done|]. by exists bs.
Qed.

(** ** The loop *)

Context (lb : nat).
Hypothesis Hlb : (lb <= 8)%nat.

Lemma fetch_spec s out bits : regs_rep s out bits ->
  exists stop s' bs, fetch s = (stop, s') /\ regs_rep s' out bits /\ r_cnt s' = r_cnt s /\ r_off s' = r_off s /\ r_op s' = r_op s /\
    acc_rep (r_acc s') bs /\ r_sh s' = 24 - Z.of_nat (length bs) /\ bits = bs ++ bits_of (r_in s') /\
    (r_in s' = [] \/ (18 <= length bs)%nat) /\ if stop then (length bs < 9)%nat /\ r_in s' = [] else (9 <= length bs)%nat.
Proof.
  intros (Hmem&Hle&Hin&bs&Hacc&Hsh&Hb). unfold fetch. destruct (Z.ltb_spec 6 (r_sh s)) as [H6|H6].
  - destruct (refill_spec (r_in s) (r_acc s) (r_sh s) bs Hacc Hsh Hin) as (ip'&acc'&sh'&bs'&->&Hacc'&Hsh'&Eb&Hend&Hin').
    eexists (15 <? sh'), _, bs'. split; [done|]. split.
    { split; [done|]. split; [done|]. split; [done|]. exists bs'. cbn. split_and?; try done. by rewrite Hb. }
    cbn. split_and?; try done; [by rewrite Hb|destruct Hend; [by left|right; lia]|].
    destruct (Z.ltb_spec 15 sh') as [H15|H15]; [|lia]. split; [lia|]. destruct Hend; [done|lia].
  - exists false, s, bs. split; [done|]. split; [split; [done|]; split; [done|]; split; [done|]; by exists bs|].
    split_and?; try done; [right; lia|lia].
Qed.

(** A one tag: a literal. *)
Lemma literal_token acc bs rest : acc_rep acc bs -> Z.testbit acc 31 = true -> (9 <= length bs)%nat ->
  next_token lb (bs ++ rest) = Some (Lit (u8 (Z.shiftr acc 23)), drop 9 bs ++ rest).
Proof.
  intros Ha Ht Hl. pose proof (acc_field acc bs 1 8 Ha ltac:(lia)) as Hf. change (32 - Z.of_nat 1 - Z.of_nat 8) with 23 in Hf.
  destruct Ha as (_&_&Hb). pose proof (Hb 0%nat ltac:(lia)) as H0. change (31 - Z.of_nat 0) with 31 in H0. rewrite Ht in H0.
  destruct bs as [|b r]; [cbn in Hl; lia|]. cbn in H0. subst b. cbn [app next_token]. cbn [length] in Hl.
  rewrite decide_True by (rewrite length_app; lia). cbn [drop skipn] in *. rewrite ?drop_0 in *.
  rewrite take_app_le, drop_app_le by lia. rewrite <- Hf. do 4 f_equal. unfold trunc. by rewrite <- land_pow2_mod by lia.
Qed.

(** A zero tag: a back-reference. *)
Lemma reference_token acc bs rest : acc_rep acc bs -> Z.testbit acc 31 = false -> (10 + lb <= length bs)%nat ->
  let off := Z.land (Z.shiftr acc (31 - HSXD_WINDOW_BITS)) (HSXD_WINDOW - 1) + 1 in
  let cnt := Z.land (Z.shiftr acc (31 - HSXD_WINDOW_BITS - Z.of_nat lb)) (2 ^ Z.of_nat lb - 1) + 1 in
  next_token lb (bs ++ rest) = Some (Ref off (Z.to_nat cnt), drop (10 + lb) bs ++ rest) /\ 1 <= off <= 512 /\ 1 <= cnt.
Proof.
  intros Ha Ht Hl off cnt. pose proof (acc_field acc bs 1 9 Ha ltac:(lia)) as Hf1. pose proof (acc_field acc bs 10 lb Ha ltac:(lia)) as Hf2.
  assert (off = bits_val (take 9 (drop 1 bs)) + 1) as Eo by (unfold off; rewrite <- Hf1; done).
  assert (cnt = bits_val (take lb (drop 10 bs)) + 1) as Ec.
  { unfold cnt, HSXD_WINDOW_BITS. rewrite <- Hf2. do 3 f_equal. }
  pose proof (bits_val_range (take 9 (drop 1 bs))) as R1. pose proof (bits_val_range (take lb (drop 10 bs))) as R2.
  rewrite length_take, length_drop, Nat.min_l in R1 by lia.
  destruct Ha as (_&_&Hb). pose proof (Hb 0%nat ltac:(lia)) as H0. change (31 - Z.of_nat 0) with 31 in H0. rewrite Ht in H0.
  destruct bs as [|b r]; [cbn in Hl; lia|]. cbn in H0. subst b. cbn [app next_token]. cbn [length] in Hl. split; [|lia].
  rewrite decide_True by (rewrite length_app; lia). cbn [drop skipn] in *. rewrite ?drop_0 in *. rewrite Eo, Ec.
  rewrite take_app_le, !drop_app_le by lia. rewrite take_app_le by (rewrite length_drop; lia).
  change (10 + lb)%nat with (S (9 + lb)). cbn [drop skipn]. do 4 f_equal. lia.
Qed.

Lemma no_token_short bits : (length bits < 9)%nat -> next_token lb bits = None.
Proof. intros. destruct bits as [|[] r]; [done|..]; cbn [next_token length] in *; by rewrite decide_False by lia. Qed.

Lemma no_reference acc bs : acc_rep acc bs -> Z.testbit acc 31 = false -> (length bs < 10 + lb)%nat -> next_token lb bs = None.
Proof.
  intros (_&_&Hb) Ht Hl. pose proof (Hb 0%nat ltac:(lia)) as H0. change (31 - Z.of_nat 0) with 31 in H0. rewrite Ht in H0.
  destruct bs as [|b r]; [done|]. cbn in H0. subst b. cbn [next_token length] in *. by rewrite decide_False by lia.
Qed.

(** What is still to come of the state: the pending copy, then the bits. *)
Definition to_come (s : regs) (out : list Z) (bits : list bool) : list Z * list bool :=
  total lb (copy_ref (Z.to_nat (r_cnt s)) (r_off s) out) bits.

Definition pending_ok (s : regs) : Prop := 0 <= r_cnt s /\ (0 < r_cnt s -> 1 <= r_off s <= 512).

(** The room is full, or the input holds no further token. *)
Definition stalled (s : regs) (bits : list bool) : Prop := r_cnt s = 0 /\ r_in s = [] /\ next_token lb bits = None.

Lemma copy_to_come s out bits : regs_rep s out bits -> pending_ok s ->
  exists s' n, do_copy (2 ^ m - 1) op0 lim pos0 s = Ok s' /\ regs_rep s' (copy_ref n (r_off s) out) bits /\ pending_ok s' /\
    to_come s' (copy_ref n (r_off s) out) bits = to_come s out bits /\ (r_cnt s' = 0 \/ r_op s' = lim) /\ r_op s' = r_op s + Z.of_nat n /\
    (r_op s < lim -> 0 < r_cnt s -> (0 < n)%nat).
Proof.
  intros Hr [Hc Ho]. destruct (do_copy_spec s out bits Hr Hc Ho) as (s'&n&E&Hr'&Eoff&Ecnt&Hc'&Eop&Hend).
  exists s', n. split; [done|]. split; [done|]. split; [split; [done|]; rewrite Eoff; intros ?; apply Ho; lia|].
  split; [|split_and?; try done; intros; destruct Hend; lia].
  unfold to_come. rewrite Eoff, Ecnt. rewrite Z2Nat.inj_add, Nat2Z.id, (Nat.add_comm _ n), copy_ref_add by lia. done.
Qed.

Lemma dec_loop_spec fuel s out bits : regs_rep s out bits -> lim - r_op s < Z.of_nat fuel -> pending_ok s -> (r_cnt s = 0 \/ r_op s = lim) ->
  exists s' out' bits', dec_loop (2 ^ m - 1) op0 lim pos0 (Z.of_nat lb) fuel s = Ok s' /\ regs_rep s' out' bits' /\ pending_ok s' /\
    to_come s' out' bits' = to_come s out bits /\ (r_op s' = lim \/ stalled s' bits') /\ out `prefix_of` out'.
Proof.
  revert s out bits. induction fuel as [|fuel IH]; intros s out bits Hr Hf Hp Hend.
  { exfalso. destruct Hr as (_&?&_). lia. }
  cbn [dec_loop]. destruct (Z.eqb_spec (r_op s) lim) as [Hl|Hl].
  { exists s, out, bits. split_and?; try done. by left. }
  assert (r_cnt s = 0) as Hc0 by (destruct Hend; done).
  destruct (fetch_spec s out bits Hr) as (stop&s1&bs&->&Hr1&Ec&Eo&Ep&Hacc&Hsh&Hb&Hfull&Hstop).
  assert (r_op s1 < lim) as Hlt by (destruct Hr as (_&?&_); lia).
  assert (forall b, to_come s out b = total lb out b) as Etc by (intros b; unfold to_come; by rewrite Hc0).
  assert (pending_ok s1) as Hp1 by (split; rewrite Ec; [lia|]; intros ?; lia).
  assert (to_come s1 out bits = to_come s out bits) as Etc1 by (unfold to_come; by rewrite Ec, Eo).
  destruct stop.
  { destruct Hstop as [Hs1 Hs2]. exists s1, out, bits. split_and?; try done. right. split; [lia|]. split; [done|].
    rewrite Hb, Hs2. cbn. rewrite app_nil_r. by apply no_token_short. }
  pose proof Hr1 as (Hmem1&_&Hin1&_). destruct (Z.testbit (r_acc s1) 31) eqn:Et.
  - pose proof (literal_token _ _ (bits_of (r_in s1)) Hacc Et Hstop) as Hnt. rewrite <- Hb in Hnt. set (b := u8 _) in *.
    destruct (mem_write _ _ _ b Hmem1 Hlt) as [-> Hmem2]. cbn [mbind outcome_bind]. set (s2 := Regs _ _ _ _ _ _ _).
    assert (regs_rep s2 (out ++ [b]) (drop 9 bs ++ bits_of (r_in s1))) as Hr2.
    { split; [done|]. split; [cbn; lia|]. split; [done|]. exists (drop 9 bs). split; [apply (acc_drop _ _ 9); [done|lia]|]. split; [|done].
      cbn. rewrite length_drop. lia. }
    destruct (IH s2 _ _ Hr2) as (s'&out'&bits'&->&Hr'&Hp'&Et'&Hend'&Hpre'); [cbn; lia|done|left; cbn; lia|].
    exists s', out', bits'. split_and?; try done; [|by eapply prefix_app_l]. rewrite Et', Etc, (total_lit _ _ _ _ _ Hnt). unfold to_come. cbn [s2 r_cnt]. by rewrite Ec, Hc0.
  - destruct (Z.ltb_spec (14 - Z.of_nat lb) (r_sh s1)) as [Hshort|Hlong].
    { exists s1, out, bits. split_and?; try done. right. split; [lia|]. assert (r_in s1 = []) as Hnil by (destruct Hfull; [done|lia]). split; [done|].
      rewrite Hb, Hnil. cbn. rewrite app_nil_r. eapply no_reference; [done|done|lia]. }
    destruct (reference_token _ _ (bits_of (r_in s1)) Hacc Et ltac:(lia)) as (Hnt&Hoff&Hcnt). rewrite <- Hb in Hnt.
    set (off := _ + 1) in Hnt, Hoff |- *. set (cnt := Z.land _ (2 ^ _ - 1) + 1) in Hnt, Hcnt |- *. set (s2 := Regs _ _ _ _ _ _ _).
    assert (regs_rep s2 out (drop (10 + lb) bs ++ bits_of (r_in s1))) as Hr2.
    { split; [done|]. split; [cbn; lia|]. split; [done|]. exists (drop (10 + lb) bs). split.
      { cbn [s2 r_acc]. unfold HSXD_WINDOW_BITS. replace (1 + 9 + Z.of_nat lb) with (Z.of_nat (10 + lb)) by lia. apply acc_drop; [done|lia]. }
      split; [|done]. cbn [s2 r_sh]. unfold HSXD_WINDOW_BITS. rewrite length_drop. lia. }
    destruct (copy_to_come s2 out _ Hr2) as (s3&n&->&Hr3&Hp3&Et3&Hend3&Eop3&Hpos3); [split; cbn [s2 r_cnt r_off]; lia|].
    cbn [mbind outcome_bind]. assert (0 < n)%nat by (apply Hpos3; cbn [s2 r_op r_cnt]; lia).
    destruct (IH s3 _ _ Hr3) as (s'&out'&bits'&->&Hr'&Hp'&Et'&Hend'&Hpre'); [cbn in Eop3; lia|done|done|].
    exists s', out', bits'. split_and?; try done; [|etrans; [apply copy_ref_prefix|done]]. rewrite Et', Et3, Etc, (total_ref _ _ _ _ _ _ Hnt). done.
Qed.

End memory.

(** ** One call of the decoder *)

Record dec_rep (lb : nat) (d : hsx_dec) (len : nat) (bits : list bool) : Prop := {
  dr_lb : d_lb d = Z.of_nat lb;
  dr_pos : d_pos d = Z.of_nat len;
  dr_cnt : 0 <= d_cnt d;
  dr_off : 0 < d_cnt d -> 1 <= d_off d <= 512;
  dr_in : Forall byte (d_in d);
  dr_bits : exists bs, acc_rep (d_acc d) bs /\ d_sh d = 24 - Z.of_nat (length bs) /\ bits = bs ++ bits_of (d_in d)
}.

(** The whole output, and the bits left after it, of a decoder that produced
    [out] and holds [bits]. *)
Definition expansion (lb : nat) (d : hsx_dec) (out : list Z) (bits : list bool) : list Z * list bool :=
  total lb (copy_ref (Z.to_nat (d_cnt d)) (d_off d) out) bits.

Lemma hsx_dec_run_spec m w lb d base out bits room :
  0 <= m <= 32 -> 512 <= w <= 2 ^ m -> (lb <= 8)%nat -> dec_rep lb d (length out) bits -> holds m w base out -> 0 <= room ->
  Z.of_nat (length out) mod 2 ^ m + room <= 2 ^ m -> Z.of_nat (length out) mod 2 ^ m + room <= Z.of_nat (length base) ->
  Z.of_nat (length out) + room < 2 ^ 32 ->
  exists d' base' ext bits', hsx_dec_run d base (2 ^ m - 1) room = Ok (d', base', Z.of_nat (length ext)) /\
    dec_rep lb d' (length (out ++ ext)) bits' /\ holds m w base' (out ++ ext) /\ length base' = length base /\
    expansion lb d' (out ++ ext) bits' = expansion lb d out bits /\ Z.of_nat (length ext) <= room /\
    (Z.of_nat (length ext) = room \/ (d_cnt d' = 0 /\ d_in d' = [] /\ next_token lb bits' = None)).
Proof.
  intros Hm Hw Hlb [Elb Epos Hc Ho Hin Hbits] Hh Hroom Hr1 Hr2 Hr3. unfold hsx_dec_run.
  rewrite land_pow2_mod, Epos, Elb by lia. set (pos0 := Z.of_nat (length out)) in *.
  pose proof (Z.mod_pos_bound pos0 (2 ^ m) ltac:(lia)) as Hop0.
  set (s0 := Regs _ _ _ _ _ _ _).
  set (lim := pos0 mod 2 ^ m + room) in *. set (size := Z.of_nat (length base)) in *.
  assert (regs_rep m w pos0 lim size s0 out bits) as Hrep0.
  { split; [|split; [unfold s0, lim; cbn; lia|split; [done|exact Hbits]]]. constructor; try done; unfold s0; cbn; unfold op0; lia. }
  assert (exists s1 out1, (if negb (d_cnt d =? 0) then do_copy (2 ^ m - 1) (pos0 mod 2 ^ m) lim pos0 s0 else Ok s0) = Ok s1 /\
    regs_rep m w pos0 lim size s1 out1 bits /\ pending_ok s1 /\ to_come lb s1 out1 bits = expansion lb d out bits /\
    (r_cnt s1 = 0 \/ r_op s1 = lim) /\ out `prefix_of` out1) as (s1&out1&->&Hrep1&Hp1&Et1&Hend1&Hpre1).
  { destruct (Z.eqb_spec (d_cnt d) 0) as [E|E]; cbn [negb].
    - exists s0, out. split; [done|]. split; [done|]. split; [split; cbn; lia|]. split; [done|]. split; [by left|done].
    - destruct (copy_to_come m w Hm Hw pos0 lim size ltac:(lia) Hr1 Hr2 ltac:(unfold op0, lim; lia) lb Hlb s0 out bits Hrep0) as (s1&n&E1&Hrep1&Hp1&Et1&Hend1&_).
      { by split. }
      exists s1, (copy_ref n (r_off s0) out). split; [done|]. split; [done|]. split; [done|]. split; [done|]. split; [done|apply copy_ref_prefix]. }
  cbn [mbind outcome_bind].
  destruct (dec_loop_spec m w Hm Hw pos0 lim size ltac:(lia) Hr1 Hr2 ltac:(unfold op0, lim; lia) lb Hlb (S (Z.to_nat room)) s1 out1 bits Hrep1)
    as (s'&out'&bits'&E'&([Hh' Hop' Hpos' Hlen']&Hle'&Hin'&Hbits')&[Hc' Ho']&Et'&Hend'&Hpre'); [|done|done|].
  { destruct Hrep1 as ([_ Hop1 Hpos1 _]&_). rewrite Hop1. unfold op0, lim. lia. }
  unfold op0 in E'. rewrite E'. cbn [mbind outcome_bind].
  assert (out `prefix_of` out') as [ext ->] by (by etrans). unfold op0 in Hop'.
  assert (r_op s' - pos0 mod 2 ^ m = Z.of_nat (length ext)) as En by (rewrite Hop', length_app; unfold pos0; lia). rewrite En.
  eexists _, _, ext, bits'. split; [done|].
  assert (lim = pos0 mod 2 ^ m + room) as El by done.
  split; [constructor; cbn [d_lb d_pos d_cnt d_off d_in d_acc d_sh]; try done; rewrite trunc_small; rewrite ?length_app; unfold pos0 in *; lia|].
  split; [done|]. split; [unfold size in Hlen'; lia|]. split; [rewrite <- Et1, <- Et'; done|]. split; [lia|].
  destruct Hend' as [?|Hst]; [left; lia|right; exact Hst].
Qed.

(** ** Decoding in pieces *)

Lemma expansion_prefix lb d out bits : out `prefix_of` fst (expansion lb d out bits).
Proof. unfold expansion. etrans; [apply copy_ref_prefix|apply total_prefix]. Qed.

Lemma expansion_stalled lb d out bits : d_cnt d = 0 -> next_token lb bits = None -> expansion lb d out bits = (out, bits).
Proof. intros Hc E. unfold expansion, total. rewrite Hc. destruct bits; [done|]. cbn [length decode_from]. by rewrite E. Qed.

Lemma holds_slice m w base out ext : 0 <= m -> holds m w base (out ++ ext) -> Z.of_nat (length ext) <= w ->
  Z.of_nat (length out) mod 2 ^ m + Z.of_nat (length ext) <= 2 ^ m ->
  take (length ext) (drop (Z.to_nat (Z.of_nat (length out) mod 2 ^ m)) base) = ext.
Proof.
  intros Hm Hh Hw Hfit. apply list_eq. intros i. pose proof (Z.mod_pos_bound (Z.of_nat (length out)) (2 ^ m) ltac:(lia)) as Hb.
  destruct (decide (i < length ext)%nat) as [Hi|Hi].
  - rewrite lookup_take_lt by lia. rewrite lookup_drop.
    pose proof (Hh (length out + i)%nat ltac:(rewrite length_app; lia) ltac:(rewrite length_app; lia)) as E.
    rewrite lookup_app_r in E by lia. replace (length out + i - length out)%nat with i in E by lia. rewrite <- E. f_equal.
    rewrite Nat2Z.inj_add, Z.add_mod by lia. rewrite (Z.mod_small (Z.of_nat i)) by lia. rewrite (Z.mod_small (_ mod _ + _)) by lia. lia.
  - rewrite lookup_take_ge by lia. symmetry. apply lookup_ge_None. lia.
Qed.

(** Any ring is the ring of some history. *)
Lemma some_history win len : length win = 512%nat -> exists out, length out = len /\ holds 9 512 win out.
Proof.
  intros Hl. exists (map (fun k => nth (k mod 512) win 0) (seq 0 len)). split; [by rewrite length_map, length_seq|].
  intros k Hk _. rewrite length_map, length_seq in Hk. change (2 ^ 9) with (Z.of_nat 512). rewrite <- Nat2Z.inj_mod, Nat2Z.id.
  pose proof (Nat.mod_upper_bound k 512 ltac:(lia)) as Hb. rewrite list_lookup_fmap, lookup_seq_lt by done.
  destruct (nth_lookup_or_length win (k mod 512) 0) as [E|]; [by rewrite E|lia].
Qed.

Lemma crc32_update_app c l1 l2 : crc32_update c (l1 ++ l2) = crc32_update (crc32_update c l1) l2.
Proof. apply foldl_app. Qed.

(** ** The stream *)

Definition dec_stalled (lb : nat) (d : hsx_dec) (bits : list bool) : Prop := d_cnt d = 0 /\ d_in d = [] /\ next_token lb bits = None.

Lemma expansion_shape lb d out out' bits : length out = length out' ->
  length (fst (expansion lb d out bits)) = length (fst (expansion lb d out' bits)) /\ snd (expansion lb d out bits) = snd (expansion lb d out' bits).
Proof. intros Hl. apply total_shape. by rewrite !length_copy_ref, Hl. Qed.

(** Trying for one more byte in the ring, whatever the ring holds: there is
    one exactly when the stream expands to more. *)
Lemma probe_spec lb d win out bits O L : (lb <= 8)%nat -> dec_rep lb d (length out) bits -> length win = 512%nat -> Z.of_nat (length out) + 1 < 2 ^ 32 ->
  expansion lb d out bits = (O, L) ->
  exists d' win' n, hsx_dec_run d win 511 1 = Ok (d', win', n) /\ length win' = 512%nat /\
    ((n = 1 /\ (length out < length O)%nat) \/ (n = 0 /\ O = out /\ dec_rep lb d' (length out) L /\ dec_stalled lb d' L)) /\
    (n = 0 -> holds 9 512 win out -> holds 9 512 win' out).
Proof.
  intros Hlb Hrep Hw Hlen HO. destruct (some_history win (length out) Hw) as (out'&Hl&Hh). rewrite <- Hl in Hrep.
  pose proof (Z.mod_pos_bound (Z.of_nat (length out')) (2 ^ 9) ltac:(lia)) as Hmod. change (2 ^ 9) with 512 in Hmod.
  destruct (hsx_dec_run_spec 9 512 lb d win out' bits 1) as (d'&win'&ext&bits'&E&Hrep'&Hh'&Hwl&He&Hle&Hend); try done; try lia;
    change (2 ^ 9) with 512; try lia.
  exists d', win', (Z.of_nat (length ext)). split; [exact E|]. split; [lia|]. split.
  2:{ intros Hz Hho. rewrite Hl in Hrep, Hmod. destruct (hsx_dec_run_spec 9 512 lb d win out bits 1) as (d2&win2&ext2&bits2&E2&_&Hh2&_); try done; try lia;
        change (2 ^ 9) with 512; try lia.
      change (2 ^ 9 - 1) with 511 in *. rewrite E in E2. injection E2 as <- <- Hn. destruct ext2; [by rewrite app_nil_r in Hh2|cbn in Hn; lia]. }
  destruct (expansion_shape lb d out out' bits ltac:(lia)) as [S1 S2]. rewrite HO in S1, S2. cbn in S1, S2. rewrite <- He in S1, S2.
  destruct ext as [|b ext].
  - right. destruct Hend as [Hend|Hst]; [cbn in Hend; lia|]. rewrite app_nil_r in *. rewrite (expansion_stalled lb d' out' bits') in S1, S2 by apply Hst.
    cbn in S1, S2. pose proof (expansion_prefix lb d out bits) as [x Hx]. rewrite HO in Hx. cbn in Hx.
    assert (x = []) as -> by (apply length_zero_iff_nil; apply (f_equal length) in Hx; rewrite length_app in Hx; lia).
    rewrite app_nil_r in Hx. subst. rewrite Hl in Hrep'. done.
  - left. cbn in Hle. split; [cbn; lia|]. pose proof (prefix_length _ _ (expansion_prefix lb d' (out' ++ b :: ext) bits')) as Hp.
    rewrite length_app in Hp. cbn in Hp. lia.
Qed.

Section stream.
Context (rlen : Z).
Hypothesis Hrlen : 0 <= rlen < 2 ^ 32 - 1.

Record work_rep (w : work) (dsize : option nat) (out : list Z) (bits : list bool) : Prop := {
  wr_dec : dec_rep HSX_LOOKAHEAD (w_dec w) (length out) bits;
  wr_out : w_out w = Z.of_nat (length out);
  wr_le : Z.of_nat (length out) <= rlen;
  wr_crc : w_crc w = crc32_update CRC32_INIT out;
  wr_win : length (w_win w) = 512%nat;
  wr_mem : match w_dst w, dsize with
           | Some b, Some n => holds 32 (2 ^ 32) b out /\ length b = n /\ rlen <= Z.of_nat n
           | None, None => holds 9 512 (w_win w) out
           | _, _ => False
           end
}.

(** A round that has room. *)
Lemma round_spec w dsize out bits : work_rep w dsize out bits -> Z.of_nat (length out) < rlen ->
  exists linear base mask room d' base' ext bits',
    match w_dst w with Some dst => (true, dst, 2 ^ 32 - 1, rlen - w_out w)
      | None => (false, w_win w, 511, if 512 - Z.land (w_out w) 511 <? rlen - w_out w then 512 - Z.land (w_out w) 511 else rlen - w_out w) end
      = (linear, base, mask, room) /\
    1 <= room <= rlen - w_out w /\ hsx_dec_run (w_dec w) base mask room = Ok (d', base', Z.of_nat (length ext)) /\
    work_rep (Work d' (if linear then w_win w else base') (if linear then Some base' else w_dst w) (w_out w + Z.of_nat (length ext))
       (crc32_update (w_crc w) (take (length ext) (drop (Z.to_nat (Z.land (w_out w) mask)) base')))) dsize (out ++ ext) bits' /\
    expansion HSX_LOOKAHEAD d' (out ++ ext) bits' = expansion HSX_LOOKAHEAD (w_dec w) out bits /\
    (Z.of_nat (length ext) = room \/ (Z.of_nat (length ext) <> room /\ dec_stalled HSX_LOOKAHEAD d' bits')).
Proof.
  intros [Hdec Hout Hle Hcrc Hwin Hmem] Hlt.
  assert (forall m W base room, 0 <= m <= 32 -> 512 <= W <= 2 ^ m -> holds m W base out -> 1 <= room <= rlen - Z.of_nat (length out) -> room <= W ->
    Z.of_nat (length out) mod 2 ^ m + room <= 2 ^ m -> Z.of_nat (length out) mod 2 ^ m + room <= Z.of_nat (length base) ->
    exists d' base' ext bits', hsx_dec_run (w_dec w) base (2 ^ m - 1) room = Ok (d', base', Z.of_nat (length ext)) /\
      dec_rep HSX_LOOKAHEAD d' (length (out ++ ext)) bits' /\ holds m W base' (out ++ ext) /\ length base' = length base /\
      expansion HSX_LOOKAHEAD d' (out ++ ext) bits' = expansion HSX_LOOKAHEAD (w_dec w) out bits /\
      Z.of_nat (length (out ++ ext)) <= rlen /\
      crc32_update (w_crc w) (take (length ext) (drop (Z.to_nat (Z.land (w_out w) (2 ^ m - 1))) base')) = crc32_update CRC32_INIT (out ++ ext) /\
      (Z.of_nat (length ext) = room \/ (Z.of_nat (length ext) <> room /\ dec_stalled HSX_LOOKAHEAD d' bits'))) as Hrun.
  { intros m W base room Hm HW Hh Hroom HrW Hf1 Hf2.
    destruct (hsx_dec_run_spec m W HSX_LOOKAHEAD (w_dec w) base out bits room) as (d'&base'&ext&bits'&E&Hrep'&Hh'&Hbl&He&Hel&Hend); try done; try (unfold HSX_LOOKAHEAD; lia); try lia.
    exists d', base', ext, bits'. split_and?; try done; [rewrite length_app; lia| |].
    - rewrite Hcrc, Hout, land_pow2_mod by lia. rewrite (holds_slice m W) by (try done; lia). by rewrite crc32_update_app.
    - destruct (decide (Z.of_nat (length ext) = room)); [by left|right; split; [done|]]. destruct Hend; [done|done]. }
  rewrite Hout. destruct (w_dst w) as [dst|] eqn:Ed.
  - destruct dsize as [n|]; [|done]. destruct Hmem as (Hh&Hdl&Hdr). eexists _, _, _, _. 
    destruct (Hrun 32 (2 ^ 32) dst (rlen - Z.of_nat (length out))) as (d'&base'&ext&bits'&E&?&?&?&?&?&Ec&?); try done; try lia; try (rewrite Z.mod_small; lia).
    exists d', base', ext, bits'. split; [done|]. split; [lia|]. split; [exact E|]. split; [|done]. rewrite Hout in Ec.
    constructor; cbn [w_dec w_win w_dst w_out w_crc]; try done; [rewrite length_app; lia|]. split; [done|]. split; [lia|done].
  - destruct dsize as [n|]; [done|]. eexists _, _, _, _. change 511 with (2 ^ 9 - 1). rewrite land_pow2_mod by lia. change (2 ^ 9) with 512 in *.
    pose proof (Z.mod_pos_bound (Z.of_nat (length out)) 512 ltac:(lia)) as Hmod.
    set (room := if _ <? _ then _ else _).
    assert (1 <= room <= rlen - Z.of_nat (length out) /\ room <= 512 - Z.of_nat (length out) mod 512) as [Hr1 Hr2] by (unfold room; case_bool; lia).
    destruct (Hrun 9 512 (w_win w) room) as (d'&base'&ext&bits'&E&?&?&?&?&?&Ec&?); try done; change (2 ^ 9) with 512; try lia.
    exists d', base', ext, bits'. split; [done|]. split; [lia|]. split; [exact E|]. split; [|done]. rewrite Hout in Ec.
    constructor; cbn [w_dec w_win w_dst w_out w_crc]; try done; rewrite ?length_app; lia.
Qed.

Lemma chunk_full w dsize out bits d win n : work_rep w dsize out bits -> Z.of_nat (length out) = rlen ->
  hsx_dec_run (w_dec w) (w_win w) 511 1 = Ok (d, win, n) -> 0 <= n <= 1 -> forall fuel,
  expand_chunk rlen (S fuel) w =
    if n =? 0 then Ok (Some (Work d win (w_dst w) (w_out w) (w_crc w))) else Ok None.
Proof.
  intros [_ Hout Hle _ _ _] Hl E Hn fuel. cbn [expand_chunk]. rewrite Hout, Hl. rewrite Z.sub_diag. change (u32 0) with 0. change (HSXD_WINDOW - 1) with 511.
  unfold HSXD_WINDOW. change (0 =? 0) with true. cbv iota. cbn [negb].
  assert (512 - Z.land rlen 511 <? 0 = false) as Hr.
  { apply Z.ltb_ge. change 511 with (2 ^ 9 - 1). rewrite land_pow2_mod by lia. pose proof (Z.mod_pos_bound rlen (2 ^ 9) ltac:(lia)). lia. }
  rewrite Hr.
  assert ((match w_dst w with Some _ => (false, w_win w, 511, 1) | None => (false, w_win w, 511, 1) end) = (false, w_win w, 511, 1)) as Em by (by destruct (w_dst w)).
  rewrite Em. cbn [mbind outcome_bind]. rewrite E. cbn [mbind outcome_bind]. rewrite Z.eqb_refl, andb_true_r.
  destruct (Z.eqb_spec n 0) as [->|Hne]; cbn [negb]; [|done]. cbn [Z.eqb Z.to_nat take]. rewrite Z.add_0_r, trunc_small by lia. done.
Qed.

Lemma chunk_spec dsize fuel w out bits O L : work_rep w dsize out bits -> expansion HSX_LOOKAHEAD (w_dec w) out bits = (O, L) ->
  rlen - Z.of_nat (length out) + 1 <= Z.of_nat fuel ->
  (expand_chunk rlen fuel w = Ok None /\ rlen < Z.of_nat (length O)) \/
  exists w', expand_chunk rlen fuel w = Ok (Some w') /\ work_rep w' dsize O L /\ dec_stalled HSX_LOOKAHEAD (w_dec w') L.
Proof.
  revert w out bits. induction fuel as [|fuel IH]; intros w out bits Hw HO Hf; [destruct Hw; lia|].
  destruct (decide (Z.of_nat (length out) = rlen)) as [Hl|Hl].
  - pose proof Hw as [Hdec Hout Hle Hcrc Hwin Hmem].
    destruct (probe_spec HSX_LOOKAHEAD (w_dec w) (w_win w) out bits O L) as (d'&win'&n&E&Hwl&Hcase&Hkeep); try done; [unfold HSX_LOOKAHEAD; lia|lia|].
    rewrite (chunk_full w dsize out bits d' win' n) by (try done; lia). destruct Hcase as [[-> Hlt]|(->&->&Hrep'&Hst)]; [left; split; [done|lia]|]. right.
    eexists. split; [done|]. split; [|done]. constructor; cbn [w_dec w_win w_dst w_out w_crc]; try done.
    destruct (w_dst w), dsize; try done. by apply Hkeep.
  - pose proof Hw as [_ Hout _ _ _ _].
    destruct (round_spec w dsize out bits Hw ltac:(destruct Hw; lia)) as (linear&base&mask&room&d'&base'&ext&bits'&Er&Hroom&E&Hw'&He&Hend).
    assert (expand_chunk rlen (S fuel) w =
      let w' := Work d' (if linear then w_win w else base') (if linear then Some base' else w_dst w) (w_out w + Z.of_nat (length ext))
         (crc32_update (w_crc w) (take (length ext) (drop (Z.to_nat (Z.land (w_out w) mask)) base'))) in
      if Z.of_nat (length ext) =? room then expand_chunk rlen fuel w' else Ok (Some w')) as ->.
    { cbn [expand_chunk]. rewrite (trunc_small 32 (rlen - w_out w)) by lia. rewrite (proj2 (Z.eqb_neq (rlen - w_out w) 0)) by lia. cbn [negb].
      change (HSXD_WINDOW - 1) with 511. change HSXD_WINDOW with 512.
      assert (match w_dst w with Some dst => (true, dst, 2 ^ 32 - 1, rlen - w_out w)
        | None => (false, w_win w, 511, if 512 - Z.land (w_out w) 511 <? rlen - w_out w then 512 - Z.land (w_out w) 511 else rlen - w_out w) end = (linear, base, mask, room)) as Er' by done.
      destruct (w_dst w); injection Er' as <- <- <- <-; cbn [mbind outcome_bind]; rewrite E; cbn [mbind outcome_bind];
        rewrite (proj2 (Z.eqb_neq (w_out w) rlen)), andb_false_r by lia; rewrite Nat2Z.id;
        rewrite (trunc_small 32 (w_out w + _)) by (pose proof (wr_le _ _ _ _ Hw'); rewrite length_app in *; lia); done. }
    cbv zeta. destruct Hend as [Hend|[Hne Hst]].
    + rewrite (proj2 (Z.eqb_eq _ _) Hend). eapply IH; [exact Hw'|cbn [w_dec]; by rewrite He|]. rewrite length_app. lia.
    + rewrite (proj2 (Z.eqb_neq _ _) Hne). right. eexists. split; [done|]. cbn [w_dec].
      rewrite (expansion_stalled _ d' (out ++ ext) bits') in He by apply Hst. rewrite HO in He. injection He as <- <-. done.
Qed.

Section packed.
Context (fill : Z -> Z -> option (list Z)) (packed : list Z) (off : Z).
Hypothesis Hbytes : Forall byte packed.
Hypothesis Hoff : 0 <= off /\ off + Z.of_nat (length packed) < 2 ^ 32.
(** [fill] reads the packed bytes. *)
Hypothesis Hfill : forall i n, 0 <= i -> 0 < n -> i + n <= Z.of_nat (length packed) ->
  fill (off + i) n = Some (take (Z.to_nat n) (drop (Z.to_nat i) packed)).

Lemma bits_of_app a b : bits_of (a ++ b) = bits_of a ++ bits_of b.
Proof. apply flat_map_app. Qed.

(** Feeding the next chunk to a stalled decoder. *)
Lemma feed_rep w dsize out bits chunk : work_rep w dsize out bits -> dec_stalled HSX_LOOKAHEAD (w_dec w) bits -> Forall byte chunk ->
  let w' := Work (hsx_dec_input (w_dec w) chunk) (w_win w) (w_dst w) (w_out w) (w_crc w) in
  work_rep w' dsize out (bits ++ bits_of chunk) /\
  expansion HSX_LOOKAHEAD (w_dec w') out (bits ++ bits_of chunk) = total HSX_LOOKAHEAD out (bits ++ bits_of chunk).
Proof.
  intros [[? ? ? ? ? (bs&Ha&Hs&Hb)] ? ? ? ? ?] (Hc&Hi&_) Hch. split.
  - constructor; try done. constructor; try done. exists bs. split; [done|]. split; [done|]. rewrite Hb, Hi. cbn. by rewrite app_nil_r.
  - unfold expansion. cbn [w_dec hsx_dec_input d_cnt]. by rewrite Hc.
Qed.

Lemma loop_spec dsize fuel i w : (i <= length packed)%nat -> (length packed - i < fuel)%nat ->
  let st := total HSX_LOOKAHEAD [] (bits_of (take i packed)) in
  work_rep w dsize (fst st) (snd st) -> dec_stalled HSX_LOOKAHEAD (w_dec w) (snd st) ->
  let fin := total HSX_LOOKAHEAD [] (bits_of packed) in
  (expand_loop fill rlen fuel off (Z.of_nat (length packed)) (Z.of_nat i) w = Ok None /\ rlen < Z.of_nat (length (fst fin))) \/
  exists w', expand_loop fill rlen fuel off (Z.of_nat (length packed)) (Z.of_nat i) w = Ok (Some w') /\ work_rep w' dsize (fst fin) (snd fin).
Proof.
  revert i w. induction fuel as [|fuel IH]; intros i w Hi Hf; [lia|]. intros st Hw Hst fin. cbn [expand_loop].
  destruct (Z.ltb_spec (Z.of_nat i) (Z.of_nat (length packed))) as [Hlt|Hge].
  2:{ right. exists w. split; [done|]. unfold fin, st in *. rewrite take_ge in Hw by lia. done. }
  set (avail := if HSX_STAGE <? _ then _ else _).
  assert (1 <= avail <= Z.of_nat (length packed) - Z.of_nat i) as Hav by (unfold avail, HSX_STAGE; case_bool; lia).
  rewrite (trunc_small 32 (off + Z.of_nat i)) by lia. rewrite Hfill by lia. rewrite Nat2Z.id. set (chunk := take _ (drop _ _)).
  assert (take i packed ++ chunk = take (i + Z.to_nat avail) packed) as Echunk by (unfold chunk; by rewrite take_take_drop).
  assert (Forall byte chunk) as Hch by (apply Forall_take, Forall_drop, Hbytes).
  destruct (feed_rep w dsize _ _ chunk Hw Hst Hch) as [Hw1 He1]. set (w1 := Work _ _ _ _ _) in *.
  assert (total HSX_LOOKAHEAD (fst st) (snd st ++ bits_of chunk) = total HSX_LOOKAHEAD [] (bits_of (take (i + Z.to_nat avail) packed))) as Et
    by (rewrite <- Echunk, bits_of_app; symmetry; apply decode_app).
  rewrite Et in He1. set (st' := total HSX_LOOKAHEAD [] (bits_of (take (i + Z.to_nat avail) packed))) in *.
  destruct (chunk_spec dsize (Z.to_nat rlen + 3) w1 _ _ (fst st') (snd st') Hw1) as [[-> Hlen]|(w'&->&Hw'&Hst')]; [by rewrite He1, <- surjective_pairing|lia|..].
  - left. cbn [mbind outcome_bind]. split; [done|]. unfold fin. rewrite <- (take_drop (i + Z.to_nat avail) packed), bits_of_app, decode_app. fold st'.
    pose proof (prefix_length _ _ (total_prefix HSX_LOOKAHEAD (fst st') (snd st' ++ bits_of (drop (i + Z.to_nat avail) packed)))). lia.
  - cbn [mbind outcome_bind]. replace (Z.of_nat i + avail) with (Z.of_nat (i + Z.to_nat avail)) by lia. apply IH; try done; lia.
Qed.

End packed.
End stream.

(** C16. [hsx_expand] is exact: it accepts a packed stream if and only if the
    stream, decoded by the reference decoder, yields exactly the promised
    number of bytes; it then returns the CRC-32 of those bytes and leaves
    them in the destination, if there is one. It reads and writes only the
    staging area, the ring and the destination, whatever the packed bytes
    are, and its result does not depend on how the input is cut in chunks. *)
Theorem hsx_expand_exact fill packed off rlen win dst :
  Forall byte packed -> 0 <= off -> off + Z.of_nat (length packed) < 2 ^ 32 -> 0 <= rlen < 2 ^ 32 - 1 -> length win = 512%nat ->
  (forall i n, 0 <= i -> 0 < n -> i + n <= Z.of_nat (length packed) ->
     fill (off + i) n = Some (take (Z.to_nat n) (drop (Z.to_nat i) packed))) ->
  match dst with Some b => Z.of_nat (length b) = rlen | None => True end ->
  let out := decode HSX_LOOKAHEAD packed in
  hsx_expand fill rlen off (Z.of_nat (length packed)) win dst =
    Ok (if decide (Z.of_nat (length out) = rlen)
        then Some (CRC32_FIN (crc32_update CRC32_INIT out), match dst with Some _ => Some out | None => None end)
        else None).
Proof.
  intros Hbytes Ho1 Ho2 Hrlen Hwin Hfill Hdst out. unfold hsx_expand. set (w0 := Work _ _ _ _ _).
  set (dsize := match dst with Some b => Some (length b) | None => None end).
  assert (work_rep rlen w0 dsize [] []) as Hw0.
  { constructor; cbn; try done; try lia.
    - constructor; cbn; try done. exists []. split; [|done]. split; [lia|]. split; [cbn; lia|]. intros i Hi. rewrite Z.bits_0. by destruct i.
    - unfold dsize. destruct dst; [|intros k; cbn; lia]. split; [intros k; cbn; lia|]. split; [done|lia]. }
  destruct (loop_spec rlen Hrlen fill packed off Hbytes (conj Ho1 Ho2) Hfill dsize (S (Z.to_nat (Z.of_nat (length packed)))) 0 w0) as [[E Hlt]|(w'&E&Hw')];
    [lia|lia|done|done|..]; change (Z.of_nat 0) with 0 in E; rewrite E; cbn [mbind outcome_bind].
  - unfold total in Hlt. by rewrite decide_False by (unfold out, decode; lia).
  - destruct Hw' as [_ Hout Hle Hcrc _ Hmem]. rewrite Hout, Hcrc. unfold out, decode, total in *. set (o := fst _) in *.
    destruct (Z.eqb_spec (Z.of_nat (length o)) rlen) as [El|El]; cbn [negb]; [rewrite decide_True by done|by rewrite decide_False].
    do 3 f_equal. unfold dsize in Hmem. destruct (w_dst w') as [b|], dst as [b0|]; try done. destruct Hmem as (Hh&Hbl&_). f_equal.
    apply list_eq. intros i. destruct (decide (i < length o)%nat) as [Hi|Hi].
    + rewrite <- (Hh i) by lia. f_equal. rewrite Z.mod_small by lia. lia.
    + rewrite !(proj2 (lookup_ge_None _ _)) by lia. done.
Qed.

Definition packed_ex : list Z := [0xb0; 0x80; 0x04; 0x00].

Lemma hsx_expand_exact_witness :
  hsx_expand (fun o n => Some (take (Z.to_nat n) (drop (Z.to_nat (o - 100)) packed_ex))) 3 100 4 (replicate 512 0) (Some [9; 9; 9])
    = Ok (Some (CRC32_FIN (crc32_update CRC32_INIT [97; 97; 97]), Some [97; 97; 97])).
Proof.
  apply (hsx_expand_exact _ packed_ex 100 3 (replicate 512 0) (Some [9; 9; 9])); try done.
  - repeat constructor; lia.
  - intros i n Hi Hn _. do 3 f_equal. lia.
Defined.

(** A run into a destination of exactly the room given. *)
Lemma dec_linear lb packed dst : (lb <= 8)%nat -> Forall byte packed -> Z.of_nat (length dst) < 2 ^ 32 ->
  let out := take (length dst) (decode lb packed) in
  exists d dst', hsx_dec_run (hsx_dec_input (hsx_dec_init (Z.of_nat lb)) packed) dst (2 ^ 32 - 1) (Z.of_nat (length dst)) =
    Ok (d, dst', Z.of_nat (length out)) /\ length dst' = length dst /\ take (length out) dst' = out.
Proof.
  intros Hlb Hb Hd out. set (d0 := hsx_dec_input _ _).
  assert (dec_rep lb d0 (length (@nil Z)) (bits_of packed)) as Hrep.
  { constructor; cbn; try done. exists []. split; [|done]. split; [lia|]. split; [cbn; lia|]. intros i Hi. rewrite Z.bits_0. by destruct i. }
  destruct (hsx_dec_run_spec 32 (2 ^ 32) lb d0 dst [] (bits_of packed) (Z.of_nat (length dst))) as (d'&dst'&ext&bits'&E&_&Hh&Hl&He&Hle&Hend);
    try done; [intros k; cbn; lia|change (Z.of_nat (length [])) with 0; rewrite ?Z.mod_0_l by lia; lia..|].
  cbn [app length] in *. change (expansion lb d0 [] (bits_of packed)) with (total lb [] (bits_of packed)) in He.
  assert (out = ext) as Eout.
  { unfold out, decode. fold (total lb [] (bits_of packed)). rewrite <- He. destruct (expansion_prefix lb d' ext bits') as [x Hx]. rewrite Hx.
    destruct Hend as [Hend|(Hc&_&Hn)]; [apply take_app_length'; lia|]. rewrite (expansion_stalled lb d' ext bits' Hc Hn) in Hx. cbn in Hx.
    rewrite <- Hx. apply take_ge. lia. }
  rewrite Eout. exists d', dst'. split; [exact E|]. split; [done|].
  apply (holds_slice 32 (2 ^ 32) dst' [] ext); [lia|done|lia|]. change (Z.of_nat (length [])) with 0. rewrite Z.mod_0_l by lia. lia.
Qed.

(** A run of the decoder into a destination, whatever the stream holds:
    it produces the first bytes of what the reference decoder makes of the
    stream, as many as there is room for, and returns their number. It stays
    inside the stream and the destination. *)
Theorem hsx_dec_linear lb packed dst : (lb <= 8)%nat -> Forall byte packed -> Z.of_nat (length dst) < 2 ^ 32 ->
  let out := take (length dst) (decode lb packed) in
  exists d dst', hsx_dec_run (hsx_dec_input (hsx_dec_init (Z.of_nat lb)) packed) dst (2 ^ 32 - 1) (Z.of_nat (length dst)) =
    Ok (d, dst', Z.of_nat (length out)) /\ length dst' = length dst /\ take (length out) dst' = out.
Proof. apply dec_linear. Qed.

Lemma hsx_dec_linear_witness : exists d dst',
  hsx_dec_run (hsx_dec_input (hsx_dec_init 3) packed_ex) [9; 9] (2 ^ 32 - 1) 2 = Ok (d, dst', 2) /\ dst' = [97; 97].
Proof.
  destruct (hsx_dec_linear 3 packed_ex [9; 9]) as (d&dst'&E&Hl&Ht); [lia|repeat constructor; lia|done|]. exists d, dst'.
  split; [exact E|]. vm_compute in E. by injection E as _ <-.
Defined.

(** ** CRC-32, bit by bit *)

(** One shift of the reflected register with polynomial 0xedb88320. *)
Definition crc_bit (c : Z) : Z :=
  if Z.testbit c 0 then Z.lxor (Z.shiftr c 1) 0xedb88320 else Z.shiftr c 1.

(** The textbook register: a byte is added and shifted out eight times. *)
Definition crc_byte (c b : Z) : Z := Nat.iter 8 crc_bit (Z.lxor c b).

Lemma crc_bit_lxor a b : crc_bit (Z.lxor a b) = Z.lxor (crc_bit a) (crc_bit b).
Proof.
  unfold crc_bit. rewrite Z.lxor_spec, Z.shiftr_lxor. destruct (Z.testbit a 0), (Z.testbit b 0); cbn [xorb].
  - rewrite (Z.lxor_comm (Z.shiftr b 1)), <- !Z.lxor_assoc. rewrite (Z.lxor_assoc (Z.shiftr a 1)), Z.lxor_nilpotent, Z.lxor_0_r. done.
  - rewrite !Z.lxor_assoc. f_equal. apply Z.lxor_comm.
  - by rewrite Z.lxor_assoc.
  - done.
Qed.

Lemma crc_bits_lxor n a b : Nat.iter n crc_bit (Z.lxor a b) = Z.lxor (Nat.iter n crc_bit a) (Nat.iter n crc_bit b).
Proof. induction n as [|n IH]; [done|]. cbn [Nat.iter nat_rect]. rewrite <- crc_bit_lxor. by f_equal. Qed.

Lemma crc_bits_even n h : Nat.iter n crc_bit (Z.shiftl h (Z.of_nat n)) = h.
Proof.
  revert h. induction n as [|n IH]; intros h; [apply Z.shiftl_0_r|]. rewrite Nat.iter_succ_r.
  assert (crc_bit (Z.shiftl h (Z.of_nat (S n))) = Z.shiftl h (Z.of_nat n)) as ->; [|apply IH].
  unfold crc_bit. rewrite Z.shiftl_spec by lia. rewrite Z.testbit_neg_r by lia. rewrite Z.shiftr_shiftl_l by lia. f_equal. lia.
Qed.

Lemma split_nibble c : c = Z.lxor (Z.shiftl (Z.shiftr c 4) 4) (Z.land c 15).
Proof.
  apply Z.bits_inj'. intros n Hn. rewrite Z.lxor_spec, Z.land_spec. change 15 with (Z.ones 4). destruct (decide (n < 4)).
  - rewrite Z.shiftl_spec_low, Z.ones_spec_low by lia. by rewrite andb_true_r, xorb_false_l.
  - rewrite Z.shiftl_spec, Z.shiftr_spec, Z.ones_spec_high by lia. rewrite andb_false_r, xorb_false_r. f_equal. lia.
Qed.

Lemma nibble_table i : 0 <= i < 16 -> Nat.iter 4 crc_bit i = nth (Z.to_nat i) crc32_nibble 0.
Proof.
  intros Hi. assert (Forall (fun i => Nat.iter 4 crc_bit i = nth (Z.to_nat i) crc32_nibble 0) (map Z.of_nat (seq 0 16))) as H by (repeat constructor).
  rewrite Forall_forall in H. apply H. apply list_elem_of_In, in_map_iff. exists (Z.to_nat i). split; [lia|]. apply in_seq. lia.
Qed.

Lemma crc32_step_bits c : crc32_step c = Nat.iter 4 crc_bit c.
Proof.
  unfold crc32_step. rewrite <- nibble_table.
  - rewrite (split_nibble c) at 3. rewrite crc_bits_lxor. f_equal. symmetry. apply (crc_bits_even 4).
  - change 15 with (2 ^ 4 - 1). rewrite land_pow2_mod by lia. apply Z.mod_pos_bound. lia.
Qed.

(** C17. The two table lookups per byte compute the textbook CRC-32: for every
    register and every buffer, [crc32_update] is eight shifts of the
    reflected polynomial 0xedb88320 for each byte. *)
Theorem crc32_bitwise crc buf : crc32_update crc buf = foldl crc_byte crc buf.
Proof.
  unfold crc32_update. revert crc. induction buf as [|b buf IH]; intros crc; [done|]. cbn [foldl]. rewrite IH. f_equal.
  unfold crc_byte. by rewrite !crc32_step_bits, <- Nat.iter_add.
Qed.

(** The check value of the standard: "123456789" gives 0xcbf43926. *)
Example crc32_check : CRC32_FIN (crc32_update CRC32_INIT [49; 50; 51; 52; 53; 54; 55; 56; 57]) = 0xcbf43926.
Proof. reflexivity. Qed.
