(* ===== verification/SwapRam.v ===== *)
(** * The compressed RAM tier ([sys/arch/rp2040/rp2040/swapram.c])

    Swapped-out images are compressed into a pool of bytes managed by
    [SwapPool] and expanded with the decoder of [Hsx]; exec's argument spools
    share the pool. Under the LARGE epoch the pool is empty and closed and
    its bytes belong to large processes; an evacuation moves every image to
    the flash swap of [Rmap] first. The heatshrink encoder is vendored code:
    the interface [Encoder] states its operations and [EncoderSpec] what
    swapram.c relies on. The bytes of a segment are passed as a list. The
    flash swap unit is a function from block numbers to blocks;
    [swap_with_buf] writes one. Debug printing is left out, and so is the
    sleep of [swapram_enter_large], which is its two halves. *)
From S2P Require Import Prelude Rmap SwapSpace SwapPool Hsx.

Definition SR_DATA : nat := 0.
Definition SR_STACK : nat := 1.
Definition SR_U : nat := 2.
Definition SR_NSEG : nat := 3.
Definition SR_WORST (n : Z) : Z := n + n / 8 + 4.

Definition SWAPRAM_CODEC_ENCODER : Z := 1.
Definition SWAPRAM_CODEC_DECODER : Z := 2.
Definition SWAPRAM_CODEC_PACKED_TEXT : Z := 3.
Definition SWAPRAM_EVAC_PENDING : Z := 1.
Definition SWAPRAM_EVAC_DONE : Z := 2.
Definition SWAPRAM_EVAC_NOFLASH : Z := 3.
Definition SWAPRAM_SMALL : Z := 0.
Definition SWAPRAM_LARGE : Z := 1.
Definition SR_ENOMEM : Z := 12.

(** The lookahead the swap tier encodes with. *)
Definition SR_LOOKAHEAD : nat := 8.

(** ** The encoder *)

(** The entry points of heatshrink_encoder.c: [None] is a negative result.
    [sink] gives the number of bytes taken, [poll] the bytes produced (at
    most the room given) and whether it says HSER_POLL_MORE, [finish] whether
    it says HSER_FINISH_DONE. [backlog] bounds the polls before one does not
    say MORE. *)
Class Encoder := {
  encoder : Type;
  encoder_reset : encoder;
  encoder_sink : encoder -> list Z -> option (encoder * nat);
  encoder_poll : encoder -> nat -> option (encoder * list Z * bool);
  encoder_finish : encoder -> option (encoder * bool);
  backlog : encoder -> nat
}.

Inductive phase := Idle | Busy | Finishing | Finished.

(** What the callers rely on: an encoder that took the bytes [i] and gave the
    bytes [o] takes more when idle and must be polled when busy; what it
    gives is a prefix of the compressed form of everything it will be given,
    and all of it once finished. *)
Class EncoderSpec `(E : Encoder) := {
  compress : list Z -> list Z;
  enc_rep : encoder -> list Z -> list Z -> phase -> Prop;
  enc_reset_ok : enc_rep encoder_reset [] [] Idle;
  enc_sink_ok e i o l : enc_rep e i o Idle -> l <> [] ->
    exists e' n, encoder_sink e l = Some (e', n) /\ (0 < n <= length l)%nat /\ enc_rep e' (i ++ take n l) o Busy;
  enc_poll_ok e i o ph room : enc_rep e i o ph -> ph = Busy \/ ph = Finishing -> (0 < room)%nat ->
    exists e' l more, encoder_poll e room = Some (e', l, more) /\ (length l <= room)%nat /\
      if more : bool then enc_rep e' i (o ++ l) ph /\ (backlog e' < backlog e)%nat
      else enc_rep e' i (o ++ l) (match ph with Busy => Idle | _ => Finished end);
  enc_finish_idle e i o : enc_rep e i o Idle -> exists e', encoder_finish e = Some (e', false) /\ enc_rep e' i o Finishing;
  enc_finish_done e i o : enc_rep e i o Finished -> exists e', encoder_finish e = Some (e', true) /\ o = compress i;
  enc_prefix e i o ph j : enc_rep e i o ph -> (ph = Finishing \/ ph = Finished -> j = []) -> o `prefix_of` compress (i ++ j);
  compress_bytes l : Forall byte l -> Forall byte (compress l);
  compress_worst l : l <> [] -> (0 < length (compress l))%nat /\ Z.of_nat (length (compress l)) <= SR_WORST (Z.of_nat (length l));
  compress_decode l : Forall byte l -> decode SR_LOOKAHEAD (compress l) = l
}.

(** ** State *)

Record sr_ent := Ent {
  e_rlen : list Z;               (* the length swapin must produce *)
  e_off : Z;
  e_res : Z;                     (* bytes reserved, then bytes used *)
  e_clen : list Z;               (* capacity, then compressed bytes *)
  e_live : bool
}.

Record swapram := SR {
  sr_pool : list Z;
  sr_map : swapram_pool;
  sr_ready : bool;
  sr_spools : Z;
  sr_tab : list sr_ent;
  sr_admit : bool;
  sr_codec_owner : Z;
  swapram_evac : Z;
  swapram_epoch : Z;
  sr_nlarge : Z;
  sr_large_want : bool;
  sr_small_want : bool;
  sr_large_seq : Z
}.

(** The words of [struct proc] used here. *)
Record vproc := Vproc { v_load : bool; v_large : bool; p_daddr : Z; p_saddr : Z; p_addr : Z }.

Definition set_pool (s : swapram) (v : list Z) : swapram :=
  SR v (sr_map s) (sr_ready s) (sr_spools s) (sr_tab s) (sr_admit s) (sr_codec_owner s) (swapram_evac s) (swapram_epoch s) (sr_nlarge s) (sr_large_want s) (sr_small_want s) (sr_large_seq s).
Definition set_map (s : swapram) (v : swapram_pool) : swapram :=
  SR (sr_pool s) v (sr_ready s) (sr_spools s) (sr_tab s) (sr_admit s) (sr_codec_owner s) (swapram_evac s) (swapram_epoch s) (sr_nlarge s) (sr_large_want s) (sr_small_want s) (sr_large_seq s).
Definition set_ready (s : swapram) (v : bool) : swapram :=
  SR (sr_pool s) (sr_map s) v (sr_spools s) (sr_tab s) (sr_admit s) (sr_codec_owner s) (swapram_evac s) (swapram_epoch s) (sr_nlarge s) (sr_large_want s) (sr_small_want s) (sr_large_seq s).
Definition set_spools (s : swapram) (v : Z) : swapram :=
  SR (sr_pool s) (sr_map s) (sr_ready s) v (sr_tab s) (sr_admit s) (sr_codec_owner s) (swapram_evac s) (swapram_epoch s) (sr_nlarge s) (sr_large_want s) (sr_small_want s) (sr_large_seq s).
Definition set_tab (s : swapram) (v : list sr_ent) : swapram :=
  SR (sr_pool s) (sr_map s) (sr_ready s) (sr_spools s) v (sr_admit s) (sr_codec_owner s) (swapram_evac s) (swapram_epoch s) (sr_nlarge s) (sr_large_want s) (sr_small_want s) (sr_large_seq s).
Definition set_owner (s : swapram) (v : Z) : swapram :=
  SR (sr_pool s) (sr_map s) (sr_ready s) (sr_spools s) (sr_tab s) (sr_admit s) v (swapram_evac s) (swapram_epoch s) (sr_nlarge s) (sr_large_want s) (sr_small_want s) (sr_large_seq s).
Definition swapram_admit (s : swapram) (v : bool) : swapram :=
  SR (sr_pool s) (sr_map s) (sr_ready s) (sr_spools s) (sr_tab s) v (sr_codec_owner s) (swapram_evac s) (swapram_epoch s) (sr_nlarge s) (sr_large_want s) (sr_small_want s) (sr_large_seq s).
Definition set_evac (s : swapram) (v : Z) : swapram :=
  SR (sr_pool s) (sr_map s) (sr_ready s) (sr_spools s) (sr_tab s) (sr_admit s) (sr_codec_owner s) v (swapram_epoch s) (sr_nlarge s) (sr_large_want s) (sr_small_want s) (sr_large_seq s).
Definition set_epoch (s : swapram) (v : Z) : swapram :=
  SR (sr_pool s) (sr_map s) (sr_ready s) (sr_spools s) (sr_tab s) (sr_admit s) (sr_codec_owner s) (swapram_evac s) v (sr_nlarge s) (sr_large_want s) (sr_small_want s) (sr_large_seq s).
Definition set_nlarge (s : swapram) (v : Z) : swapram :=
  SR (sr_pool s) (sr_map s) (sr_ready s) (sr_spools s) (sr_tab s) (sr_admit s) (sr_codec_owner s) (swapram_evac s) (swapram_epoch s) v (sr_large_want s) (sr_small_want s) (sr_large_seq s).
Definition set_large_want (s : swapram) (v : bool) : swapram :=
  SR (sr_pool s) (sr_map s) (sr_ready s) (sr_spools s) (sr_tab s) (sr_admit s) (sr_codec_owner s) (swapram_evac s) (swapram_epoch s) (sr_nlarge s) v (sr_small_want s) (sr_large_seq s).
Definition set_small_want (s : swapram) (v : bool) : swapram :=
  SR (sr_pool s) (sr_map s) (sr_ready s) (sr_spools s) (sr_tab s) (sr_admit s) (sr_codec_owner s) (swapram_evac s) (swapram_epoch s) (sr_nlarge s) (sr_large_want s) v (sr_large_seq s).
Definition bump_seq (s : swapram) : swapram :=
  SR (sr_pool s) (sr_map s) (sr_ready s) (sr_spools s) (sr_tab s) (sr_admit s) (sr_codec_owner s) (swapram_evac s) (swapram_epoch s) (sr_nlarge s) (sr_large_want s) (sr_small_want s) (u32 (sr_large_seq s + 1)).

(** Bytes at an address of the pool. *)
Definition mem_write (mem : list Z) (off : Z) (l : list Z) : outcome (list Z) :=
  if decide (0 <= off /\ off + Z.of_nat (length l) <= Z.of_nat (length mem))
  then Ok (take (Z.to_nat off) mem ++ l ++ drop (Z.to_nat off + length l) mem) else Fault.
Definition mem_read (mem : list Z) (off len : Z) : outcome (list Z) :=
  if decide (0 <= off /\ 0 <= len /\ off + len <= Z.of_nat (length mem))
  then Ok (take (Z.to_nat len) (drop (Z.to_nat off) mem)) else Fault.

(** ** The shared codec workspace *)

Definition swapram_codec_acquire (owner : Z) (s : swapram) : outcome swapram :=
  if (owner =? 0) || negb (sr_codec_owner s =? 0) then Panic "swapram: codec workspace busy"
  else Ok (set_owner s owner).

Definition swapram_codec_release (owner : Z) (s : swapram) : outcome swapram :=
  if (owner =? 0) || negb (sr_codec_owner s =? owner) then Panic "swapram: codec workspace owner"
  else Ok (set_owner s 0).

(** ** Encoding *)

Section Encode.
Context `{E : Encoder}.

(** The polling loop, with the capacity when there is a destination: the
    bytes out so far, or the jump to [done] with -1. *)
Fixpoint poll_loop (fuel : nat) (cap : option nat) (e : encoder) (out : list Z) : outcome (option (encoder * list Z)) :=
  match fuel with
  | O => Fault
  | S fuel' =>
      let scratch := match cap with Some c => negb (Nat.ltb (length out) c) | None => true end in
      let room := match cap with Some c => if Nat.ltb (length out) c then (c - length out)%nat else 1%nat | None => 64%nat end in
      match encoder_poll e room with
      | None => Ok None
      | Some (e, l, more) =>
          if scratch && bool_decide (is_Some cap) && bool_decide (l <> []) then Ok None
          else
            let out := out ++ l in
            if more : bool then poll_loop fuel' cap e out else Ok (Some (e, out))
      end
  end.

Fixpoint encode_loop (fuel : nat) (cap : option nat) (e : encoder) (src out : list Z) (moved : nat) : outcome (option (list Z)) :=
  match fuel with
  | O => Fault
  | S fuel' =>
      '(go, e, src) ←
        Ok (if bool_decide (src <> []) then
              match encoder_sink e src with
              | None => (Some None, e, src)
              | Some (e, n) => if bool_decide (n = 0%nat) && bool_decide (length out = moved) then (Some None, e, src) else (None, e, drop n src)
              end
            else
              match encoder_finish e with
              | None => (Some None, e, src)
              | Some (e, true) => (Some (Some out), e, src)
              | Some (e, false) => (None, e, src)
              end);
      match go with
      | Some r => Ok r
      | None =>
          let moved := length out in
          r ← poll_loop (S (backlog e)) cap e out;
          match r with None => Ok None | Some (e, out) => encode_loop fuel' cap e src out moved end
      end
  end.

(** [sr_encode]: the bytes of the result, or -1. Each round takes a byte of
    the input, or finishes. *)
Definition sr_encode (src : list Z) (cap : option nat) (s : swapram) : outcome (option (list Z) * swapram) :=
  s ← swapram_codec_acquire SWAPRAM_CODEC_ENCODER s;
  r ← encode_loop (length src + 3) cap encoder_reset src [] 0;
  s ← swapram_codec_release SWAPRAM_CODEC_ENCODER s;
  Ok (r, s).

End Encode.

(** ** Images and spools *)

Section Tier.
Context `{E : Encoder}.
(** [sizeof sr_pool] and the size of the process table. *)
Context (psize : Z) (NPROC : nat).

(** [sr_offset_t], 16 bits wide for the pools configured. *)
Abbreviation sr_offset := u16.

Definition nthz (l : list Z) (i : nat) : Z := nth i l 0.

Definition sr_compressed_before (e : sr_ent) (stop : nat) : Z :=
  u32 (foldr Z.add 0 (take stop (e_clen e))).
Definition sr_compressed_size (e : sr_ent) : Z := sr_compressed_before e SR_NSEG.

Definition sr_pool_init_once (s : swapram) : outcome swapram :=
  if sr_ready s then Ok s
  else m ← swapram_pool_init psize (replicate (NPROC + 1) map_end) (NPROC + 1); Ok (set_ready (set_map s m) true).

(** The state and [*offp], or the return of -1. *)
Definition swapram_spool_alloc (size : Z) (s : swapram) : outcome (option Z * swapram) :=
  s ← sr_pool_init_once s;
  if negb (sr_admit s) || negb (swapram_epoch s =? SWAPRAM_SMALL) then Ok (None, s)
  else
    r ← swapram_pool_alloc (sr_map s) size;
    match fst r with
    | None => Ok (None, set_map s (snd r))
    | Some off => Ok (Some off, set_spools (set_map s (snd r)) (sr_spools s + 1))
    end.

Definition spool_check (off pos len : Z) : bool :=
  (psize <? off) || (u32 (psize - off) <? pos) || (u32 (psize - off - pos) <? len).

Definition swapram_spool_write (off pos : Z) (src : list Z) (s : swapram) : outcome swapram :=
  if spool_check off pos (Z.of_nat (length src)) then Panic "swapram: spool write"
  else m ← mem_write (sr_pool s) (off + pos) src; Ok (set_pool s m).

Definition swapram_spool_read (off pos len : Z) (s : swapram) : outcome (list Z) :=
  if spool_check off pos len then Panic "swapram: spool read" else mem_read (sr_pool s) (off + pos) len.

(** The state, and whether the swapper is poked. *)
Definition swapram_spool_free (off size : Z) (s : swapram) : outcome (swapram * bool) :=
  if sr_spools s <=? 0 then Panic "swapram: spool free"
  else
    r ← swapram_pool_free (sr_map s) off size;
    if fst r : bool then
      let s := set_spools (set_map s (snd r)) (sr_spools s - 1) in
      Ok (s, (sr_spools s =? 0) && sr_large_want s)
    else Panic "swapram: spool free".

(** Claim the pool space of a whole image. *)
Definition swapram_out (p : nat) (dsrc ssrc : list Z) (ulen : Z) (s : swapram) : outcome (bool * swapram) :=
  if decide (p < NPROC)%nat then
    s ← sr_pool_init_once s;
    e ← rd (sr_tab s) p;
    if e_live e then Panic "swapram: image already resident"
    else if negb (sr_admit s) || (sr_codec_owner s =? SWAPRAM_CODEC_PACKED_TEXT) then Ok (false, s)
    else
      rd_ ← (if bool_decide (dsrc <> []) then sr_encode dsrc None s else Ok (Some [], s));
      match fst rd_ with
      | None => Ok (false, snd rd_)
      | Some dn =>
          rs ← (if bool_decide (ssrc <> []) then sr_encode ssrc None (snd rd_) else Ok (Some [], snd rd_));
          let s := snd rs in
          match fst rs with
          | None => Ok (false, s)
          | Some sn =>
              let want := u32 (Z.of_nat (length dn) + Z.of_nat (length sn) + SR_WORST ulen) in
              r ← swapram_pool_alloc (sr_map s) want;
              match fst r with
              | None => Ok (false, set_map s (snd r))
              | Some off =>
                  let e := Ent [u32 (Z.of_nat (length dsrc)); u32 (Z.of_nat (length ssrc)); u32 ulen] (sr_offset off) (sr_offset want)
                    [sr_offset (Z.of_nat (length dn)); sr_offset (Z.of_nat (length sn)); sr_offset (SR_WORST ulen)] (e_live e) in
                  t ← wr (sr_tab s) p e;
                  Ok (true, set_tab (set_map s (snd r)) t)
              end
          end
      end
  else Panic "swapram: proc slot".

(** Compress one segment into the reservation. *)
Definition swapram_put (p seg : nat) (src : list Z) (s : swapram) : outcome swapram :=
  if decide (p < NPROC)%nat then
    e ← rd (sr_tab s) p;
    let len := Z.of_nat (length src) in
    if negb (len =? nthz (e_rlen e) seg) then Panic "swapram: segment length changed"
    else if len =? 0 then
      t ← wr (sr_tab s) p (Ent (e_rlen e) (e_off e) (e_res e) (<[seg:=0]> (e_clen e)) (e_live e)); Ok (set_tab s t)
    else
      let cap := nthz (e_clen e) seg in
      let fill := sr_compressed_before e seg in
      r ← sr_encode src (Some (Z.to_nat cap)) s;
      let s := snd r in
      match fst r with
      | None => Panic "swapram: reservation overflow"
      | Some out =>
          m ← mem_write (sr_pool s) (e_off e + fill) out;
          let n := Z.of_nat (length out) in
          if negb (Nat.eqb seg SR_U) && negb (n =? cap) then Panic "swapram: count mismatch"
          else
            t ← wr (sr_tab s) p (Ent (e_rlen e) (e_off e) (e_res e) (<[seg:=sr_offset n]> (e_clen e)) (e_live e));
            Ok (set_tab (set_pool s m) t)
      end
  else Panic "swapram: proc slot".

Definition swapram_commit (p : nat) (s : swapram) : outcome swapram :=
  if decide (p < NPROC)%nat then
    e ← rd (sr_tab s) p;
    let used := sr_compressed_size e in
    r ← swapram_pool_trim (sr_map s) (e_off e) (e_res e) used;
    if fst r : bool then
      t ← wr (sr_tab s) p (Ent (e_rlen e) (e_off e) (sr_offset used) (e_clen e) true);
      Ok (set_tab (set_map s (snd r)) t)
    else Panic "swapram: trim"
  else Panic "swapram: proc slot".

Definition swapram_present (p : nat) (s : swapram) : outcome bool :=
  if decide (p < NPROC)%nat then e ← rd (sr_tab s) p; Ok (e_live e) else Panic "swapram: proc slot".

(** [sr_expand] to a destination: the bytes there and their number. *)
Definition sr_expand (off clen : Z) (dst : list Z) (s : swapram) : outcome (list Z * Z * swapram) :=
  s ← swapram_codec_acquire SWAPRAM_CODEC_DECODER s;
  l ← mem_read (sr_pool s) off clen;
  r ← hsx_dec_run (hsx_dec_input (hsx_dec_init (Z.of_nat SR_LOOKAHEAD)) l) dst (2 ^ 32 - 1) (Z.of_nat (length dst));
  s ← swapram_codec_release SWAPRAM_CODEC_DECODER s;
  Ok (snd (fst r), snd r, s).

(** The prefix of the u area copied, or -1. *)
Definition swapram_uarea_prefix (p : nat) (dst : list Z) (s : swapram) : outcome (option (list Z) * swapram) :=
  if decide (p < NPROC)%nat then
    e ← rd (sr_tab s) p;
    if negb (e_live e) || (nthz (e_rlen e) SR_U <? Z.of_nat (length dst)) then Ok (None, s)
    else
      let off := e_off e + nthz (e_clen e) SR_DATA + nthz (e_clen e) SR_STACK in
      r ← sr_expand off (nthz (e_clen e) SR_U) dst s;
      let '(l, n, s) := r in
      Ok (if n =? Z.of_nat (length dst) then Some l else None, s)
  else Panic "swapram: proc slot".

(** The loop of [swapram_in] over the segments; [dst] are the areas swapin
    computed, of the lengths recorded. *)
Fixpoint expand_segs (segs : list nat) (e : sr_ent) (off : Z) (dst : list (list Z)) (s : swapram) : outcome (list (list Z) * swapram) :=
  match segs with
  | [] => Ok (dst, s)
  | seg :: segs' =>
      if nthz (e_rlen e) seg =? 0 then expand_segs segs' e off dst s
      else
        d ← rd dst seg;
        r ← sr_expand off (nthz (e_clen e) seg) d s;
        let '(l, n, s) := r in
        if negb (n =? nthz (e_rlen e) seg) then Panic "swapram: short expand"
        else expand_segs segs' e (off + nthz (e_clen e) seg) (<[seg:=l]> dst) s
  end.

Definition swapram_in (p : nat) (dst : list (list Z)) (s : swapram) : outcome (list (list Z) * swapram) :=
  if decide (p < NPROC)%nat then
    e ← rd (sr_tab s) p;
    if negb (e_live e) then Panic "swapram: no image"
    else
      r ← expand_segs [SR_DATA; SR_STACK; SR_U] e (e_off e) dst s;
      let s := snd r in
      f ← swapram_pool_free (sr_map s) (e_off e) (e_res e);
      if fst f : bool then
        t ← wr (sr_tab s) p (Ent (e_rlen e) (e_off e) 0 (e_clen e) false);
        Ok (fst r, set_tab (set_map s (snd f)) t)
      else Panic "swapram: free"
  else Panic "swapram: proc slot".

Definition swapram_images (s : swapram) : nat := length (filter (fun e => e_live e = true) (sr_tab s)).

(** The part of [swapout] that uses the tier: whether it took the image. *)
Definition swapout_ram (p : nat) (data stack u_ : list Z) (s : swapram) : outcome (bool * swapram) :=
  r ← swapram_out p data stack (Z.of_nat (length u_)) s;
  if fst r : bool then
    s ← (if bool_decide (data <> []) then swapram_put p SR_DATA data (snd r) else Ok (snd r));
    s ← (if bool_decide (stack <> []) then swapram_put p SR_STACK stack s else Ok s);
    s ← swapram_put p SR_U u_ s;
    s ← swapram_commit p s;
    Ok (true, s)
  else Ok (false, snd r).

End Tier.

(** ** The encoder loop *)

Section EncodeSpec.
Context `{ES : EncoderSpec}.

Definition within (cap : option nat) (l : list Z) : Prop := match cap with Some c => (length l <= c)%nat | None => True end.
#[local] Instance within_dec cap l : Decision (within cap l).
Proof. destruct cap; unfold within; apply _. Defined.

Definition next_phase (ph : phase) : phase := match ph with Busy => Idle | _ => Finished end.

(** Every completion of the input the phase allows. *)
Definition completes (ph : phase) (i full : list Z) : Prop := exists j, full = i ++ j /\ (ph = Finishing \/ ph = Finished -> j = []).

Lemma poll_loop_spec fuel cap e i o ph full : enc_rep e i o ph -> ph = Busy \/ ph = Finishing -> completes ph i full -> within cap o ->
  (backlog e < fuel)%nat ->
  (poll_loop fuel cap e o = Ok None /\ ~ within cap (compress full)) \/
  exists e' o', poll_loop fuel cap e o = Ok (Some (e', o')) /\ enc_rep e' i o' (next_phase ph) /\ within cap o'.
Proof.
  intros He Hph (j&->&Hj). revert e o He. induction fuel as [|fuel IH]; intros e o He Hw Hf; [lia|]. cbn [poll_loop].
  set (scratch := match cap with Some c => negb _ | None => true end). set (room := match cap with Some c => if _ : bool then _ else _ | None => 64%nat end).
  assert (0 < room)%nat as Hroom by (unfold room; destruct cap; [destruct (Nat.ltb_spec (length o) n); lia|lia]).
  destruct (enc_poll_ok e i o ph room He Hph Hroom) as (e'&l&more&->&Hl&Hmore).
  assert (exists ph', enc_rep e' i (o ++ l) ph' /\ (ph' = Finishing \/ ph' = Finished -> j = [])) as (ph'&He'&Hj').
  { destruct more; [exists ph; split; [apply Hmore|done]|]. exists (match ph with Busy => Idle | _ => Finished end). split; [done|].
    destruct Hph as [-> | ->]; [by intros [?|?]|intros _; apply Hj; by left]. }
  pose proof (enc_prefix e' i (o ++ l) ph' j He' Hj') as Hpre. apply prefix_length in Hpre. rewrite length_app in Hpre.
  destruct (scratch && bool_decide (is_Some cap) && bool_decide (l <> [])) eqn:Eo.
  - left. split; [done|]. rewrite !andb_true_iff, !bool_decide_eq_true in Eo. destruct Eo as [[Es [c ->]] Hne]. unfold scratch in Es.
    apply negb_true_iff, Nat.ltb_ge in Es. destruct l; [done|]. cbn in Hpre |- *. lia.
  - assert (within cap (o ++ l)) as Hw'.
    { destruct cap as [c|]; [|done]. cbn in Hw |- *. rewrite length_app. unfold scratch, room in *. rewrite bool_decide_true, andb_true_r in Eo by done.
      destruct (Nat.ltb_spec (length o) c) as [Hlt|Hge]; cbn in Eo; [lia|]. rewrite bool_decide_eq_false in Eo.
      destruct l; [cbn; lia|]. exfalso. by apply Eo. }
    destruct more.
    + destruct Hmore as [Hr Hb]. apply IH; [done|done|lia].
    + right. exists e', (o ++ l). by split.
Qed.

Lemma encode_loop_spec fuel cap e i o src moved : enc_rep e i o Idle -> within cap o -> (length src + 2 < fuel)%nat ->
  encode_loop fuel cap e src o moved = Ok (if decide (within cap (compress (i ++ src))) then Some (compress (i ++ src)) else None).
Proof.
  revert e i o src moved. induction fuel as [|fuel IH]; intros e i o src moved He Hw Hf; [lia|]. cbn [encode_loop].
  destruct (decide (src = [])) as [->|Hne].
  - rewrite bool_decide_false by tauto. destruct (enc_finish_idle e i o He) as (e1&->&He1). cbn [mbind outcome_bind].
    destruct (poll_loop_spec (S (backlog e1)) cap e1 i o Finishing (i ++ []) He1) as [[-> Hn]|(e2&o2&->&He2&Hw2)]; [by right|exists []; by split|done|lia|..];
      cbn [mbind outcome_bind]; [by rewrite decide_False|].
    destruct fuel as [|fuel]; [cbn in Hf; lia|]. cbn [encode_loop]. rewrite bool_decide_false by tauto.
    destruct (enc_finish_done e2 i o2 He2) as (e3&->&->). cbn [mbind outcome_bind]. rewrite app_nil_r. by rewrite decide_True.
  - rewrite bool_decide_true by done. destruct (enc_sink_ok e i o src He Hne) as (e1&n&->&Hn&He1).
    rewrite (bool_decide_false (n = 0%nat)) by lia. cbn [andb mbind outcome_bind].
    assert (completes Busy (i ++ take n src) (i ++ src)) as Hcomp.
    { exists (drop n src). split; [by rewrite <- (assoc_L (++)), take_drop|]. by intros [?|?]. }
    destruct (poll_loop_spec (S (backlog e1)) cap e1 (i ++ take n src) o Busy (i ++ src) He1) as [[-> Hnw]|(e2&o2&->&He2&Hw2)]; [by left|done|done|lia|..];
      cbn [mbind outcome_bind]; [by rewrite decide_False|].
    rewrite (IH e2 (i ++ take n src) o2); [|done|done|rewrite length_drop; lia].
    by rewrite <- (assoc_L (++)), take_drop.
Qed.

Lemma sr_encode_spec src cap s : sr_codec_owner s = 0 ->
  sr_encode src cap s = Ok (if decide (within cap (compress src)) then Some (compress src) else None, s).
Proof.
  intros Ho. unfold sr_encode, swapram_codec_acquire, swapram_codec_release. rewrite Ho. cbn [SWAPRAM_CODEC_ENCODER Z.eqb negb orb mbind outcome_bind].
  rewrite (encode_loop_spec _ cap encoder_reset [] []); [|apply enc_reset_ok|destruct cap; [cbn; lia|done]|lia].
  cbn [mbind outcome_bind set_owner sr_codec_owner]. cbn. by destruct s; cbn in Ho; subst.
Qed.

End EncodeSpec.

(** ** The pool as a partition *)

Lemma runs_apart_sym r r' : runs_apart r r' -> runs_apart r' r.
Proof. intros H x Hx Hx'. by apply (H x). Qed.

Lemma pairwise_apart_perm l l' : l ≡ₚ l' -> pairwise_apart l -> pairwise_apart l'.
Proof.
  induction 1 as [|r l l' Hp IH|r r' l|l1 l2 l3 _ IH1 _ IH2]; cbn; [done|..|by auto].
  - intros [Hf ?]. split; [by rewrite <- Hp|by apply IH].
  - intros [[H1 H2]%Forall_cons [H3 H4]]. split_and?; try done. constructor; [by apply runs_apart_sym|done].
Qed.

Definition run_ok (r : Z * Z) : Prop := 0 <= fst r /\ 0 < snd r /\ fst r mod 4 = 0 /\ snd r mod 4 = 0.

(** Free bytes and the runs [L] handed out share the pool exactly. *)
Record pool_part (psize : Z) (nseg : nat) (mp : swapram_pool) (L : list (Z * Z)) (segs : list swapram_seg) : Prop := {
  pp_rep : pool_rep mp segs;
  pp_size : p_size mp = psize;
  pp_nseg : p_nseg mp = nseg;
  pp_ok : Forall run_ok L;
  pp_apart : pairwise_apart L;
  pp_cover : forall x, 0 <= x < psize <-> free segs x \/ Exists (in_run x) L;
  pp_disj : forall x, free segs x -> ~ Exists (in_run x) L
}.

Section Part.
Context (psize : Z) (nseg : nat).

Lemma part_perm mp L L' segs : L ≡ₚ L' -> pool_part psize nseg mp L segs -> pool_part psize nseg mp L' segs.
Proof.
  intros Hp []. constructor; try done; [by rewrite <- Hp|by eapply pairwise_apart_perm|intros x..]; by rewrite <- Hp; auto.
Qed.

Lemma part_bounds mp L segs r : pool_part psize nseg mp L segs -> r ∈ L -> run_ok r /\ fst r + snd r <= psize.
Proof.
  intros [] Hr. rewrite Forall_forall in pp_ok0. pose proof (pp_ok0 r Hr) as Hok. split; [done|]. destruct Hok as (?&?&_).
  assert (0 <= fst r + snd r - 1 < psize); [|lia]. apply pp_cover0. right. apply Exists_exists. exists r. split; [done|]. unfold in_run. lia.
Qed.

(** One free run more than the runs handed out, at most. *)
Lemma part_runs mp L segs : pool_part psize nseg mp L segs -> (length segs <= 1 + length L)%nat.
Proof.
  intros []. etransitivity; [|apply le_n_S, (filter_length (fun r => (-1 < fst r)%Z))]. destruct pp_rep0 as (Hok&_).
  apply (runs_bound 32 segs L (-1) psize); try done.
  - intros x F. assert (0 <= x < psize) by (apply pp_cover0; by left). lia.
  - intros x Hx e He Hle. apply pp_cover0. lia.
Qed.

Lemma part_alloc mp L segs size : pool_part psize nseg mp L segs -> 0 < size < 2 ^ 32 - 4 ->
  swapram_pool_alloc mp size = Ok (None, mp) \/
  exists a mp' segs', swapram_pool_alloc mp size = Ok (Some a, mp') /\ pool_part psize nseg mp' ((a, roundgrain size) :: L) segs' /\
    size <= roundgrain size < size + 4.
Proof.
  intros [] Hs. pose proof (pool_alloc_first_fit mp segs size pp_rep0 Hs) as Hm. destruct (roundgrain_spec size) as [Hw Hwm]; [lia|].
  set (want := roundgrain size) in *. destruct (first_fit want segs) as [[a segs']|] eqn:Ef; [right|by left].
  destruct Hm as (mp'&E&Hrep'&Es&En). exists a, mp', segs'. split; [done|]. split; [|done]. pose proof pp_rep0 as (Hok&Hal&Hb&_).
  destruct (first_fit_aligned (-1) want segs a segs' (p_size mp) Hok Hal Hb Hwm ltac:(lia) Ef) as (Ha&Hae&_&_).
  destruct (first_fit_some 32 (-1) want segs a segs' Hok ltac:(lia) Ef) as (Ha0&_&_&Hfr&Hnf&_).
  constructor; try done; [congruence|congruence|..].
  - constructor; [|done]. unfold run_ok. cbn. lia.
  - split; [|done]. apply Forall_forall. intros r Hr x Hx Hx'. apply (pp_disj0 x); [apply Hfr; right; exact Hx|]. apply Exists_exists. by exists r.
  - intros x. rewrite pp_cover0, Hfr, Exists_cons. unfold in_run at 2. cbn. tauto.
  - intros x F. rewrite Exists_cons. unfold in_run at 1. cbn. intros [Hx|Hx]; [by apply (Hnf x)|]. apply (pp_disj0 x); [apply Hfr; by left|done].
Qed.

(** Returning a run from offset [keep] on. *)
Lemma part_release mp off w L segs keep size : pool_part psize nseg mp ((off, w) :: L) segs -> (2 + length L < nseg)%nat ->
  0 <= keep < w -> keep mod 4 = 0 -> 0 < size < 2 ^ 32 - 4 -> roundgrain size = w - keep ->
  exists mp' segs', swapram_pool_free mp (off + keep) size = Ok (true, mp') /\
    pool_part psize nseg mp' (if decide (keep = 0) then L else (off, keep) :: L) segs'.
Proof.
  intros Hpart Hlen Hk Hkm Hs Hw. pose proof (part_runs _ _ _ Hpart) as Hruns. cbn [length] in Hruns.
  destruct (part_bounds _ _ _ (off, w) Hpart ltac:(by left)) as [(Ho&_&Hom&Hwm) Hend]. cbn [fst snd] in *. destruct Hpart.
  assert (psize < 2 ^ 32 - 4) as Hps by (destruct pp_rep0 as (_&_&_&?&_); lia). destruct pp_apart0 as [Hap Hapw].
  assert (forall x, off + keep <= x < off + w -> ~ free segs x) as Hnf.
  { intros x Hx F. apply (pp_disj0 x F). apply Exists_cons. left. unfold in_run. cbn. lia. }
  destruct (pool_free_returns mp segs (off + keep) size pp_rep0 Hs ltac:(lia) ltac:(lia)) as [[_ Href]|(mp'&segs'&E&Hrep'&Es&En&_&_&_&Hfr)].
  { exfalso. rewrite Hw in Href. destruct Href as [Hr|[Hr|[(x&Hx&Hf)|[Hr _]]]]; [|lia|apply (Hnf x); [lia|done]|lia].
    apply Hr. by apply mod_eq_add. }
  rewrite Hw in Hfr. exists mp', segs'. split; [done|].
  assert (forall x, in_run x (off, w) <-> in_run x (off, keep) \/ off + keep <= x < off + keep + (w - keep)) as Hsplit by (intros x; unfold in_run; cbn; lia).
  assert (forall x, Exists (in_run x) (if decide (keep = 0) then L else (off, keep) :: L) <-> in_run x (off, keep) \/ Exists (in_run x) L) as Hex.
  { intros x. case_decide; [unfold in_run at 2; cbn; intuition lia|by rewrite Exists_cons]. }
  assert (forall x, in_run x (off, w) -> ~ Exists (in_run x) L) as HL.
  { intros x Hx (r&Hr&Hxr)%Exists_exists. rewrite Forall_forall in Hap. by apply (Hap r Hr x). }
  apply Forall_cons in pp_ok0 as [_ Hok]. constructor; try done; try congruence.
  - case_decide; [done|]. constructor; [|done]. unfold run_ok. cbn. lia.
  - case_decide; [done|]. split; [|done]. apply Forall_forall. intros r Hr x Hx. rewrite Forall_forall in Hap. apply (Hap r Hr x).
    unfold in_run in *. cbn in *. lia.
  - intros x. rewrite pp_cover0, Hfr, Hex, Exists_cons, Hsplit. tauto.
  - intros x Hx. rewrite Hex. apply Hfr in Hx as [Hx|Hx].
    + specialize (pp_disj0 x Hx). rewrite Exists_cons, Hsplit in pp_disj0. tauto.
    + intros [Hr|Hr]; [unfold in_run in Hr; cbn in Hr; lia|]. apply (HL x); [unfold in_run; cbn; lia|done].
Qed.

Lemma part_free mp off size L segs : pool_part psize nseg mp ((off, roundgrain size) :: L) segs -> (2 + length L < nseg)%nat -> 0 < size < 2 ^ 32 - 4 ->
  exists mp' segs', swapram_pool_free mp off size = Ok (true, mp') /\ pool_part psize nseg mp' L segs'.
Proof.
  intros Hp Hl Hs. destruct (roundgrain_spec size) as [Hw _]; [lia|].
  destruct (part_release mp off _ L segs 0 size Hp Hl ltac:(lia) eq_refl Hs ltac:(lia)) as (mp'&segs'&E&Hp'). rewrite Z.add_0_r in E.
  rewrite decide_True in Hp' by done. by exists mp', segs'.
Qed.

Lemma part_trim mp off old new L segs : pool_part psize nseg mp ((off, roundgrain old) :: L) segs -> (2 + length L < nseg)%nat -> 0 < new <= old -> old < 2 ^ 32 - 8 ->
  exists mp' segs', swapram_pool_trim mp off old new = Ok (true, mp') /\ pool_part psize nseg mp' ((off, roundgrain new) :: L) segs'.
Proof.
  intros Hp Hl Hn Ho. destruct (roundgrain_spec old) as [Hw Hwm]; [lia|]. destruct (roundgrain_spec new) as [Hk Hkm]; [lia|].
  destruct (part_bounds _ _ _ _ Hp ltac:(by left)) as [(Hoff&_) Hend]. cbn [fst snd] in *.
  assert (psize < 2 ^ 32 - 4) as Hps by (destruct (pp_rep _ _ _ _ _ Hp) as (_&_&_&?&_); rewrite (pp_size _ _ _ _ _ Hp) in *; lia).
  assert (roundgrain new <= roundgrain old) as Hle by (apply (mod_eq_lt _ _ 4); try done; lia).
  unfold swapram_pool_trim. destruct (Z.ltb_spec (roundgrain old) (roundgrain new)); [lia|].
  destruct (Z.eqb_spec (roundgrain new) (roundgrain old)) as [Ee|Hne]; [exists mp, segs; split; [done|]; by rewrite Ee|].
  rewrite !trunc_small by lia.
  assert ((roundgrain old - roundgrain new) mod 4 = 0) as Hd by by apply mod_eq_sub.
  destruct (part_release mp off _ L segs (roundgrain new) (roundgrain old - roundgrain new) Hp Hl) as (mp'&segs'&E&Hp'); try done; try lia.
  { apply roundgrain_id; [lia|done]. }
  exists mp', segs'. split; [done|]. by rewrite decide_False in Hp' by lia.
Qed.

End Part.

(** ** Bytes of the pool *)

Definition slice (mem : list Z) (off len : Z) : list Z := take (Z.to_nat len) (drop (Z.to_nat off) mem).

Lemma lookup_mem_write mem off l m' i : mem_write mem off l = Ok m' ->
  m' !! i = if decide (Z.to_nat off <= i < Z.to_nat off + length l)%nat then l !! (i - Z.to_nat off)%nat else mem !! i.
Proof.
  unfold mem_write. case_decide as Hd; [|done]. intros [= <-]. set (o := Z.to_nat off) in *.
  assert (o <= length mem)%nat by lia. destruct (decide (i < o)%nat).
  - rewrite lookup_app_l by (rewrite length_take; lia). rewrite decide_False by lia. by apply lookup_take_lt.
  - rewrite lookup_app_r by (rewrite length_take; lia). rewrite length_take, Nat.min_l by lia. case_decide.
    + by rewrite lookup_app_l by lia.
    + rewrite lookup_app_r, lookup_drop by lia. f_equal. lia.
Qed.

Lemma mem_write_ok mem off l : 0 <= off -> off + Z.of_nat (length l) <= Z.of_nat (length mem) ->
  exists m', mem_write mem off l = Ok m' /\ length m' = length mem.
Proof.
  intros. unfold mem_write. rewrite decide_True by lia. eexists. split; [done|]. rewrite !length_app, length_take, length_drop. lia.
Qed.

Lemma slice_lookup mem off len i : slice mem off len !! i = if decide (i < Z.to_nat len)%nat then mem !! (Z.to_nat off + i)%nat else None.
Proof. unfold slice. case_decide; [by rewrite lookup_take_lt, lookup_drop|by rewrite lookup_take_ge by lia]. Qed.

Lemma slice_written mem off l m' : mem_write mem off l = Ok m' -> slice m' off (Z.of_nat (length l)) = l.
Proof.
  intros E. apply list_eq. intros i. rewrite slice_lookup, (lookup_mem_write _ _ _ _ _ E), Nat2Z.id. repeat case_decide; try lia.
  - f_equal. lia.
  - symmetry. apply lookup_ge_None. lia.
Qed.

(** A slice disjoint from the bytes written. *)
Lemma slice_kept mem off l m' o n : mem_write mem off l = Ok m' -> 0 <= o -> 0 <= off ->
  (forall x, o <= x < o + n -> ~ off <= x < off + Z.of_nat (length l)) -> slice m' o n = slice mem o n.
Proof.
  intros E Ho Hoff Hd. apply list_eq. intros i. rewrite !slice_lookup. case_decide as Hi; [|done]. rewrite (lookup_mem_write _ _ _ _ _ E).
  rewrite decide_False; [done|]. intros Hb. apply (Hd (o + Z.of_nat i)); lia.
Qed.

(** Writing inside a slice. *)
Lemma slice_splice mem off l m' o n : mem_write mem (o + off) l = Ok m' -> 0 <= o -> 0 <= off -> off + Z.of_nat (length l) <= n -> o + n <= Z.of_nat (length mem) ->
  mem_write (slice mem o n) off l = Ok (slice m' o n).
Proof.
  intros E Ho Hoff Hl Hn. assert (length (slice mem o n) = Z.to_nat n) as Hlen by (unfold slice; rewrite length_take, length_drop; lia).
  destruct (mem_write_ok (slice mem o n) off l) as (m2&E2&L2); [lia|lia|]. rewrite E2. f_equal. apply list_eq. intros i.
  rewrite (lookup_mem_write _ _ _ _ _ E2), !slice_lookup, (lookup_mem_write _ _ _ _ _ E). repeat case_decide; try lia; f_equal; lia || done.
Qed.

Lemma mem_read_slice mem off len : 0 <= off -> 0 <= len -> off + len <= Z.of_nat (length mem) -> mem_read mem off len = Ok (slice mem off len).
Proof. intros. unfold mem_read. by rewrite decide_True. Qed.

Lemma slice_sub mem off len o n : 0 <= off -> 0 <= o -> o + n <= len -> slice (slice mem off len) o n = slice mem (off + o) n.
Proof.
  intros. apply list_eq. intros i. rewrite !slice_lookup. repeat case_decide; try lia; try done. f_equal. lia.
Qed.

Lemma slice_app_l l1 l2 n : n = Z.of_nat (length l1) -> slice (l1 ++ l2) 0 n = l1.
Proof. intros ->. unfold slice. change (Z.to_nat 0) with 0%nat. rewrite drop_0, Nat2Z.id. by apply take_app_length. Qed.

Lemma slice_app_r l1 l2 o n : o = Z.of_nat (length l1) -> slice (l1 ++ l2) o n = take (Z.to_nat n) l2.
Proof. intros ->. unfold slice. rewrite Nat2Z.id. by rewrite drop_app_length. Qed.

Lemma length_slice mem off len : 0 <= off -> 0 <= len -> off + len <= Z.of_nat (length mem) -> Z.of_nat (length (slice mem off len)) = len.
Proof. intros. unfold slice. rewrite length_take, length_drop. lia. Qed.

(** ** What the tier holds *)

Record image := Image { im_data : list Z; im_stack : list Z; im_u : list Z }.

(** A live spool: its offset and its bytes. *)
Abbreviation spool := (Z * list Z)%type.
Definition spool_size (sp : spool) : Z := Z.of_nat (length (snd sp)).
Definition spool_run (sp : spool) : Z * Z := (fst sp, roundgrain (spool_size sp)).

Section Invariant.
Context `{ES : EncoderSpec}.
Context (psize : Z) (NPROC : nat).
Hypothesis Hpsize : 0 < psize <= 65535 /\ psize mod 4 = 0.

(** A segment of length zero is not encoded. *)
Definition comp (l : list Z) : list Z := if decide (l = []) then [] else compress l.
Definition packed (im : image) : list Z := comp (im_data im) ++ comp (im_stack im) ++ comp (im_u im).

(** Lengths and contents that fit the machine's types. *)
Definition image_ok (im : image) : Prop :=
  Forall byte (im_data im) /\ Forall byte (im_stack im) /\ Forall byte (im_u im) /\ im_u im <> [] /\
  Z.of_nat (length (im_data im)) < 2 ^ 28 /\ Z.of_nat (length (im_stack im)) < 2 ^ 28 /\ Z.of_nat (length (im_u im)) < 2 ^ 28.

Definition lenz {A} (l : list A) : Z := Z.of_nat (length l).

Record ent_ok (mem : list Z) (e : sr_ent) (im : image) : Prop := {
  eo_live : e_live e = true;
  eo_img : image_ok im;
  eo_rlen : e_rlen e = [lenz (im_data im); lenz (im_stack im); lenz (im_u im)];
  eo_clen : e_clen e = [lenz (comp (im_data im)); lenz (comp (im_stack im)); lenz (comp (im_u im))];
  eo_res : e_res e = lenz (packed im);
  eo_bytes : slice mem (e_off e) (e_res e) = packed im
}.

Definition ent_run (e : sr_ent) : Z * Z := (e_off e, roundgrain (e_res e)).
Definition tab_runs (t : list sr_ent) : list (Z * Z) := omap (fun e => if e_live e then Some (ent_run e) else None) t.

Definition runs (s : swapram) (SP : list spool) : list (Z * Z) := tab_runs (sr_tab s) ++ (spool_run <$> SP).

Definition spool_ok (mem : list Z) (sp : spool) : Prop :=
  snd sp <> [] /\ spool_size sp <= psize /\ slice mem (fst sp) (spool_size sp) = snd sp.

Record tier_inv (G : nat -> option image) (SP : list spool) (s : swapram) : Prop := {
  ti_pool : lenz (sr_pool s) = psize;
  ti_tab : length (sr_tab s) = NPROC;
  ti_part : if sr_ready s then exists segs, pool_part psize (NPROC + 1) (sr_map s) (runs s SP) segs else runs s SP = [];
  ti_ent : forall p e, sr_tab s !! p = Some e -> match G p with Some im => ent_ok (sr_pool s) e im | None => e_live e = false end;
  ti_dom : forall p, is_Some (G p) -> (p < NPROC)%nat;
  ti_owner : sr_codec_owner s = 0;
  ti_spools : sr_spools s = lenz SP;
  ti_contents : Forall (spool_ok (sr_pool s)) SP
}.

Lemma tab_runs_live t p e : t !! p = Some e -> e_live e = true -> forall e', e_live e' = false ->
  tab_runs t ≡ₚ ent_run e :: tab_runs (<[p:=e']> t).
Proof.
  revert p. induction t as [|x t IH]; intros [|p] Hp Hl e' Hl'; cbn in Hp; [done|done|..].
  - injection Hp as ->. cbn. by rewrite Hl, Hl'.
  - cbn. destruct (e_live x); [|by apply IH]. rewrite (IH p Hp Hl e' Hl'). apply Permutation_swap.
Qed.

Lemma tab_runs_new t p e e' : t !! p = Some e -> e_live e = false -> e_live e' = true -> tab_runs (<[p:=e']> t) ≡ₚ ent_run e' :: tab_runs t.
Proof.
  intros Hp Hl Hl'. assert ((<[p:=e']> t) !! p = Some e') as Hp' by (apply list_lookup_insert_eq; by eapply lookup_lt_Some).
  pose proof (tab_runs_live _ p e' Hp' Hl' e Hl) as Hr. rewrite list_insert_insert_eq, (list_insert_id t p e) in Hr by done. exact Hr.
Qed.

Lemma tab_runs_same t p e e' : t !! p = Some e -> e_live e = false -> e_live e' = false -> tab_runs (<[p:=e']> t) = tab_runs t.
Proof.
  revert p. induction t as [|x t IH]; intros [|p] Hp Hl Hl'; cbn in Hp; [done|done|..].
  - injection Hp as ->. cbn. by rewrite Hl, Hl'.
  - cbn. destruct (e_live x); [f_equal|]; by apply (IH p).
Qed.

Lemma elem_of_tab_runs t p e : t !! p = Some e -> e_live e = true -> ent_run e ∈ tab_runs t.
Proof. intros Hp Hl. rewrite (tab_runs_live t p e Hp Hl (Ent [] 0 0 [] false)) by done. by left. Qed.

Lemma comp_len l : l <> [] -> (0 < length (comp l))%nat /\ lenz (comp l) <= SR_WORST (lenz l).
Proof. intros Hl. unfold comp, lenz. rewrite decide_False by done. by apply compress_worst. Qed.

Lemma length_packed im : lenz (packed im) = lenz (comp (im_data im)) + lenz (comp (im_stack im)) + lenz (comp (im_u im)).
Proof. unfold packed, lenz. rewrite !length_app. lia. Qed.

Lemma comp_small l : Z.of_nat (length l) < 2 ^ 28 -> lenz (comp l) < 2 ^ 29.
Proof.
  intros Hl. destruct (decide (l = [])) as [->|Hn]; [unfold comp; by rewrite decide_True|]. destruct (comp_len l Hn) as [_ Hw]. unfold SR_WORST, lenz in *.
  pose proof (Z.div_le_upper_bound (Z.of_nat (length l)) 8 (2 ^ 25) ltac:(lia) ltac:(lia)). lia.
Qed.

(** The tier's control words, which images and spools leave alone. *)
Definition same_ctl (s s' : swapram) : Prop :=
  sr_admit s' = sr_admit s /\ swapram_evac s' = swapram_evac s /\ swapram_epoch s' = swapram_epoch s /\ sr_nlarge s' = sr_nlarge s /\
  sr_large_want s' = sr_large_want s /\ sr_small_want s' = sr_small_want s /\ sr_large_seq s' = sr_large_seq s.

(** Memory that differs only inside a run. *)
Definition agree_out (a w : Z) (m m' : list Z) : Prop :=
  length m' = length m /\ forall i : nat, ~ a <= Z.of_nat i < a + w -> m' !! i = m !! i.

Lemma agree_write a w m off l m' : mem_write m off l = Ok m' -> 0 <= a -> a <= off -> off + lenz l <= a + w -> agree_out a w m m'.
Proof.
  intros Ew Ha Ho Hl. unfold lenz in *. split.
  - unfold mem_write in Ew. case_decide; [|done]. injection Ew as <-. rewrite !length_app, length_take, length_drop. lia.
  - intros i Hi. rewrite (lookup_mem_write _ _ _ _ _ Ew), decide_False; [done|lia].
Qed.

Lemma agree_trans a w m1 m2 m3 : agree_out a w m1 m2 -> agree_out a w m2 m3 -> agree_out a w m1 m3.
Proof. intros [L1 H1] [L2 H2]. split; [congruence|]. intros i Hi. by rewrite H2, H1. Qed.

Lemma agree_slice a w m m' o n : agree_out a w m m' -> 0 <= o -> (forall x, o <= x < o + n -> ~ a <= x < a + w) -> slice m' o n = slice m o n.
Proof.
  intros [_ H] Ho Hd. apply list_eq. intros i. rewrite !slice_lookup. case_decide; [|done]. apply H. intros ?. apply (Hd (Z.of_nat (Z.to_nat o + i))); lia.
Qed.

(** What lies in runs apart from the bytes written stays. *)
Lemma keep_ent a w m m' e im : agree_out a w m m' -> runs_apart (a, w) (ent_run e) -> 0 <= e_off e -> ent_ok m e im -> ent_ok m' e im.
Proof.
  intros Ha Hr Ho []. constructor; try done. rewrite <- eo_bytes0. apply (agree_slice a w); [done|done|]. intros x Hx Hx'. apply (Hr x); [exact Hx'|].
  unfold in_run, ent_run. cbn. destruct (roundgrain_spec (e_res e)) as [? _]; [|lia]. rewrite eo_res0, length_packed in *.
  destruct eo_img0 as (_&_&_&_&H1&H2&H3). apply comp_small in H1, H2, H3. unfold lenz in *. lia.
Qed.

Lemma keep_spools a w m m' SP : agree_out a w m m' -> Forall (fun sp => runs_apart (a, w) (spool_run sp) /\ 0 <= fst sp) SP ->
  Forall (spool_ok m) SP -> Forall (spool_ok m') SP.
Proof.
  intros Ha Hr H. eapply Forall_impl; [apply Forall_and; split; [exact Hr|exact H]|]. intros sp [(Hap&Ho)(Hne&Hs&Hb)]. split; [done|]. split; [done|].
  etrans; [|exact Hb]. apply (agree_slice a w); [done|done|]. intros x Hx Hx'. apply (Hap x); [exact Hx'|]. unfold in_run, spool_run. cbn.
  destruct (roundgrain_spec (spool_size sp)) as [? _]; [unfold spool_size in *; lia|lia].
Qed.

Lemma init_once_ok G SP s : tier_inv G SP s -> exists s', sr_pool_init_once psize NPROC s = Ok s' /\ tier_inv G SP s' /\ sr_ready s' = true /\ same_ctl s s' /\
  sr_tab s' = sr_tab s /\ sr_pool s' = sr_pool s.
Proof.
  intros Hti. pose proof Hti as []. unfold sr_pool_init_once. destruct (sr_ready s) eqn:Er; [exists s; split_and?; done|].
  assert (Z.land psize (Z.lnot (SWAPRAM_GRAIN - 1)) = psize) as Ep.
  { unfold SWAPRAM_GRAIN. change (4 - 1) with (2 ^ 2 - 1). rewrite land_lnot_pow2 by lia. change (2 ^ 2) with 4. lia. }
  unfold swapram_pool_init. rewrite Ep. rewrite bool_decide_false by lia. rewrite (proj2 (Z.eqb_neq psize 0)) by lia. cbn [orb].
  rewrite wr_ok by (rewrite length_replicate; lia). cbn [mbind outcome_bind].
  assert (pool_part psize (NPROC + 1) (Pool psize (NPROC + 1) 1 (<[0%nat:=Mapent psize 0]> (replicate (NPROC + 1) map_end))) [] [Mapent psize 0]) as Hpart.
  { constructor; cbn [p_size p_nseg]; try done.
    - split; [cbn; unfold seg_end; cbn; lia|]. split; [repeat constructor; cbn; apply Hpsize|]. split; [repeat constructor; unfold seg_end; cbn; lia|].
      split; [cbn; lia|]. split; [done|]. split; [cbn; lia|]. split; [cbn [p_seg p_nseg]; by rewrite length_insert, length_replicate|].
      replace (NPROC + 1)%nat with (S NPROC) by lia. by exists (replicate NPROC map_end).
    - intros x. rewrite Exists_nil, free_cons. unfold seg_end. cbn. pose proof (free_nil x). intuition lia.
    - intros x _ Hx. by apply Exists_nil in Hx. }
  eexists. split; [done|]. split; [|split_and?; done]. constructor; try done. cbn [sr_ready set_ready sr_map set_map].
  exists [Mapent psize 0]. change (runs _ SP) with (runs s SP). by rewrite ti_part0.
Qed.

Lemma compress_comp l : l <> [] -> comp l = compress l.
Proof. intros. unfold comp. by rewrite decide_False. Qed.

Lemma put_spec p seg src s e m' : (p < NPROC)%nat -> sr_tab s !! p = Some e -> sr_codec_owner s = 0 -> src <> [] ->
  nthz (e_rlen e) seg = lenz src -> lenz (comp src) <= nthz (e_clen e) seg -> (seg <> SR_U -> nthz (e_clen e) seg = lenz (comp src)) ->
  mem_write (sr_pool s) (e_off e + sr_compressed_before e seg) (comp src) = Ok m' ->
  swapram_put NPROC p seg src s =
    Ok (set_tab (set_pool s m') (<[p:=Ent (e_rlen e) (e_off e) (e_res e) (<[seg:=u16 (lenz (comp src))]> (e_clen e)) (e_live e)]> (sr_tab s))).
Proof.
  intros Hp He Ho Hne Hrl Hcap Heq Hw. unfold swapram_put. rewrite decide_True by done. rewrite (rd_ok _ _ _ He). cbn [mbind outcome_bind].
  rewrite Hrl. fold (lenz src). rewrite Z.eqb_refl. cbn [negb]. rewrite (proj2 (Z.eqb_neq (lenz src) 0)) by (unfold lenz; destruct src; [done|cbn; lia]).
  rewrite compress_comp in * by done. rewrite sr_encode_spec by done. rewrite decide_True by (cbn; unfold lenz in *; lia). cbn [mbind outcome_bind fst snd].
  rewrite Hw. cbn [mbind outcome_bind].
  assert (negb (Nat.eqb seg SR_U) && negb (Z.of_nat (length (compress src)) =? nthz (e_clen e) seg) = false) as ->.
  { destruct (Nat.eqb_spec seg SR_U) as [|Hn]; [done|]. rewrite (Heq Hn). unfold lenz. by rewrite Z.eqb_refl. }
  rewrite wr_ok by (by eapply lookup_lt_Some). done.
Qed.

Lemma mem_write_nil mem off : 0 <= off -> off <= lenz mem -> mem_write mem off [] = Ok mem.
Proof.
  intros. unfold mem_write, lenz in *. rewrite decide_True by (cbn; lia). cbn [length app]. by rewrite Nat.add_0_r, take_drop.
Qed.

(** A data or stack segment: nothing is done for an empty one. The entry does
    not change, as the counting pass gave its length. *)
Lemma maybe_put p seg src s e m' : (p < NPROC)%nat -> sr_tab s !! p = Some e -> sr_codec_owner s = 0 -> seg <> SR_U -> (seg < length (e_clen e))%nat ->
  nthz (e_rlen e) seg = lenz src -> nthz (e_clen e) seg = lenz (comp src) -> lenz (comp src) < 2 ^ 16 ->
  0 <= e_off e + sr_compressed_before e seg -> mem_write (sr_pool s) (e_off e + sr_compressed_before e seg) (comp src) = Ok m' ->
  (if bool_decide (src <> []) then swapram_put NPROC p seg src s else Ok s) = Ok (set_pool s m').
Proof.
  intros Hp He Ho Hseg Hs Hrl Hcl Hsm Hoff Hw. destruct (decide (src = [])) as [->|Hne].
  - rewrite bool_decide_false by tauto. unfold comp in Hw. rewrite decide_True in Hw by done. unfold mem_write in Hw.
    case_decide; [|done]. cbn [length app] in Hw. rewrite Nat.add_0_r, take_drop in Hw. injection Hw as <-. by destruct s.
  - rewrite bool_decide_true by done. rewrite (put_spec p seg src s e m') by (try done; lia).
    rewrite trunc_small by (unfold lenz in *; lia). unfold nthz in Hcl. rewrite <- Hcl.
    rewrite (list_insert_id (e_clen e)); [|destruct (nth_lookup_or_length (e_clen e) seg 0); [done|lia]].
    rewrite (list_insert_id (sr_tab s)); [by destruct s|by destruct e].
Qed.

Lemma slice_cat m a n1 n2 : 0 <= a -> 0 <= n1 -> 0 <= n2 -> slice m a (n1 + n2) = slice m a n1 ++ slice m (a + n1) n2.
Proof.
  intros. unfold slice. rewrite !Z2Nat.inj_add by lia. rewrite <- drop_drop. by rewrite take_take_drop.
Qed.

(** Three segments written one after the other. *)
Lemma write_three m a A B C m1 m2 m3 : 0 <= a ->
  mem_write m a A = Ok m1 -> mem_write m1 (a + lenz A) B = Ok m2 -> mem_write m2 (a + lenz A + lenz B) C = Ok m3 ->
  slice m3 a (lenz A + lenz B + lenz C) = A ++ B ++ C /\ agree_out a (lenz A + lenz B + lenz C) m m3.
Proof.
  intros Ha E1 E2 E3. unfold lenz in *. split.
  - rewrite !slice_cat, Z.add_assoc by lia. rewrite (slice_written _ _ _ _ E3).
    rewrite (slice_kept m2 _ _ m3 a) by (try done; lia). rewrite (slice_kept m1 _ _ m2 a) by (try done; lia). rewrite (slice_written _ _ _ _ E1).
    rewrite (slice_kept m2 _ _ m3 (a + _)) by (try done; lia). rewrite (slice_written _ _ _ _ E2). by rewrite (assoc_L (++)).
  - eapply agree_trans; [eapply agree_write; [exact E1|unfold lenz; lia..]|].
    eapply agree_trans; [eapply agree_write; [exact E2|unfold lenz; lia..]|]. eapply agree_write; [exact E3|unfold lenz; lia..].
Qed.

(** The entry [swapram_out] makes. *)
Definition new_ent (im : image) (a want : Z) : sr_ent :=
  Ent [lenz (im_data im); lenz (im_stack im); lenz (im_u im)] a want
    [lenz (comp (im_data im)); lenz (comp (im_stack im)); SR_WORST (lenz (im_u im))] false.

Lemma out_spec G SP p im s : tier_inv G SP s -> (p < NPROC)%nat -> G p = None -> image_ok im ->
  let want := lenz (comp (im_data im)) + lenz (comp (im_stack im)) + SR_WORST (lenz (im_u im)) in
  exists s0, tier_inv G SP s0 /\ same_ctl s s0 /\ sr_ready s0 = true /\ sr_tab s0 = sr_tab s /\
  (swapram_out psize NPROC p (im_data im) (im_stack im) (lenz (im_u im)) s = Ok (false, s0) \/
   exists a mp segs, swapram_out psize NPROC p (im_data im) (im_stack im) (lenz (im_u im)) s =
       Ok (true, set_tab (set_map s0 mp) (<[p:=new_ent im a want]> (sr_tab s0))) /\
     pool_part psize (NPROC + 1) mp ((a, roundgrain want) :: runs s0 SP) segs /\ want <= psize).
Proof.
  intros Hti Hp HG Him want. destruct (init_once_ok G SP s Hti) as (s0&E0&Hti0&Hr0&Hc0&Et0&_). exists s0. split; [done|]. split; [done|]. split; [done|]. split; [done|].
  unfold swapram_out. rewrite decide_True by done. rewrite E0. cbn [mbind outcome_bind]. pose proof Hti0 as [].
  destruct (proj2 (lookup_lt_is_Some (sr_tab s0) p)) as [e He]; [lia|]. rewrite (rd_ok _ _ _ He). cbn [mbind outcome_bind].
  pose proof (ti_ent0 p e He) as Hdead. rewrite HG in Hdead. rewrite Hdead, ti_owner0. cbn [SWAPRAM_CODEC_PACKED_TEXT Z.eqb orb].
  destruct (sr_admit s0); cbn [negb orb]; [|by left].
  assert (forall l, (if bool_decide (l <> []) then sr_encode l None s0 else Ok (Some [], s0)) = Ok (Some (comp l), s0)) as Henc.
  { intros l. unfold comp. case_decide as Hl; [by rewrite bool_decide_false by tauto|]. rewrite bool_decide_true, sr_encode_spec by done. done. }
  rewrite Henc. cbn [mbind outcome_bind fst snd]. rewrite Henc. cbn [mbind outcome_bind fst snd]. fold (lenz (comp (im_data im))) (lenz (comp (im_stack im))).
  destruct Him as (_&_&_&Hu&H1&H2&H3).
  pose proof (comp_small _ H1) as C1. pose proof (comp_small _ H2) as C2.
  assert (0 < SR_WORST (lenz (im_u im)) < 2 ^ 29) as C3.
  { unfold SR_WORST, lenz. pose proof (Z.div_le_upper_bound (Z.of_nat (length (im_u im))) 8 (2 ^ 25) ltac:(lia) ltac:(lia)).
    pose proof (Z.div_pos (Z.of_nat (length (im_u im))) 8 ltac:(lia) ltac:(lia)). lia. }
  assert (0 < want < 2 ^ 31) as Hw by (unfold want, lenz in *; lia).
  fold want. rewrite (trunc_small 32 want) by lia. rewrite Hr0 in ti_part0. destruct ti_part0 as [segs0 Hpart].
  destruct (part_alloc psize (NPROC + 1) (sr_map s0) (runs s0 SP) segs0 want Hpart ltac:(lia)) as [-> |(a&mp&segs&->&Hpart'&Hrg)]; cbn [mbind outcome_bind fst snd].
  { left. by destruct s0. }
  right. exists a, mp, segs. destruct (part_bounds _ _ _ _ _ (a, roundgrain want) Hpart' ltac:(by left)) as [(Ha&_) Hend]. cbn [fst snd] in *.
  assert (want <= psize) by lia. rewrite wr_ok by lia. cbn [mbind outcome_bind]. split; [|done]. unfold new_ent.
  rewrite !(trunc_small 16) by (unfold want, lenz in *; lia). rewrite !(trunc_small 32) by (unfold lenz in *; lia). done.
Qed.

Definition upd {A} (G : nat -> option A) (p : nat) (v : option A) : nat -> option A := fun q => if decide (q = p) then v else G q.

(** Every run of the tier is apart from a run just taken, and in the pool. *)
Lemma runs_facts s SP mp r segs : pool_part psize (NPROC + 1) mp (r :: runs s SP) segs ->
  (forall q e, sr_tab s !! q = Some e -> e_live e = true -> runs_apart r (ent_run e) /\ 0 <= e_off e) /\
  Forall (fun sp => runs_apart r (spool_run sp) /\ 0 <= fst sp) SP.
Proof.
  intros [_ _ _ Hok [Hap _] _ _]. apply Forall_cons in Hok as [_ Hok]. rewrite Forall_forall in Hap, Hok. split.
  - intros q e He Hl. pose proof (elem_of_tab_runs _ _ _ He Hl) as Hin.
    assert (ent_run e ∈ runs s SP) as Hin' by (apply elem_of_app; by left). split; [by apply Hap|]. by destruct (Hok _ Hin').
  - apply Forall_forall. intros sp Hsp. assert (spool_run sp ∈ runs s SP) as Hin by (apply elem_of_app; right; by apply list_elem_of_fmap_2).
    split; [by apply Hap|]. by destruct (Hok _ Hin).
Qed.

Lemma worst_pos n : 0 <= n -> 0 < SR_WORST n.
Proof. intros. unfold SR_WORST. pose proof (Z.div_pos n 8 ltac:(lia) ltac:(lia)). lia. Qed.

Lemma compressed_before im a want : image_ok im -> lenz (comp (im_data im)) + lenz (comp (im_stack im)) + SR_WORST (lenz (im_u im)) <= psize ->
  sr_compressed_before (new_ent im a want) 0 = 0 /\ sr_compressed_before (new_ent im a want) 1 = lenz (comp (im_data im)) /\
  sr_compressed_before (new_ent im a want) 2 = lenz (comp (im_data im)) + lenz (comp (im_stack im)).
Proof.
  intros Him Hw. pose proof (worst_pos (lenz (im_u im)) ltac:(unfold lenz; lia)).
  unfold sr_compressed_before, new_ent. cbn [e_clen take foldr]. unfold lenz in *. rewrite !trunc_small by lia. lia.
Qed.

(** The puts and the commit of an image for which [swapram_out] made room. *)
Lemma store_spec G SP p im s0 a mp segs : tier_inv G SP s0 -> sr_ready s0 = true -> (p < NPROC)%nat -> G p = None -> image_ok im ->
  let want := lenz (comp (im_data im)) + lenz (comp (im_stack im)) + SR_WORST (lenz (im_u im)) in
  pool_part psize (NPROC + 1) mp ((a, roundgrain want) :: runs s0 SP) segs -> want <= psize -> (1 + length (runs s0 SP) < NPROC)%nat ->
  let s1 := set_tab (set_map s0 mp) (<[p:=new_ent im a want]> (sr_tab s0)) in
  exists s', (s ← (if bool_decide (im_data im <> []) then swapram_put NPROC p SR_DATA (im_data im) s1 else Ok s1);
              s ← (if bool_decide (im_stack im <> []) then swapram_put NPROC p SR_STACK (im_stack im) s else Ok s);
              s ← swapram_put NPROC p SR_U (im_u im) s;
              s ← swapram_commit NPROC p s;
              Ok (true, s)) = Ok (true, s') /\ tier_inv (upd G p (Some im)) SP s' /\ same_ctl s0 s'.
Proof.
  intros Hti Hr Hp HG Him want Hpart Hws Hcnt s1. pose proof Hti as [Hpl Htab _ Hent Hdom Hown Hspl Hcon].
  destruct (compressed_before im a want Him Hws) as (B0&B1&B2).
  destruct (part_bounds _ _ _ _ _ _ Hpart ltac:(by left)) as [(Ha&_) Hend]. cbn [fst snd] in *.
  pose proof (worst_pos (lenz (im_u im)) ltac:(unfold lenz; lia)) as Hwp.
  assert (0 < want) as Hw0 by (unfold want, lenz in *; lia). destruct (roundgrain_spec want) as [Hrg _]; [lia|].
  assert (im_u im <> []) as Hu by apply Him. destruct (comp_len _ Hu) as [Hu0 Hu1]. fold (lenz (comp (im_u im))) in Hu1.
  set (D := comp (im_data im)) in *. set (T := comp (im_stack im)) in *. set (U := comp (im_u im)) in *.
  assert (lenz D + lenz T + lenz U <= want) as Hfit by (unfold want; lia). assert (0 <= lenz D /\ 0 <= lenz T /\ 0 < lenz U) as (PD&PS&PU) by (unfold lenz; lia).
  destruct (mem_write_ok (sr_pool s0) a D) as (m1&E1&L1); [done|unfold lenz in *; lia|].
  destruct (mem_write_ok m1 (a + lenz D) T) as (m2&E2&L2); [lia|unfold lenz in *; lia|].
  destruct (mem_write_ok m2 (a + lenz D + lenz T) U) as (m3&E3&L3); [lia|unfold lenz in *; lia|].
  destruct (write_three _ _ _ _ _ _ _ _ Ha E1 E2 E3) as [Hbytes Hagree].
  assert ((<[p:=new_ent im a want]> (sr_tab s0)) !! p = Some (new_ent im a want)) as Hte by (apply list_lookup_insert_eq; lia).
  assert ((if bool_decide (im_data im <> []) then swapram_put NPROC p SR_DATA (im_data im) s1 else Ok s1) = Ok (set_pool s1 m1)) as ->.
  { apply (maybe_put p SR_DATA (im_data im) s1 (new_ent im a want) m1); try done; try (fold D; lia); change SR_DATA with 0%nat;
      [cbn; lia|rewrite B0; cbn; lia|rewrite B0, Z.add_0_r; done]. }
  cbn [mbind outcome_bind].
  assert ((if bool_decide (im_stack im <> []) then swapram_put NPROC p SR_STACK (im_stack im) (set_pool s1 m1) else Ok (set_pool s1 m1)) = Ok (set_pool s1 m2)) as ->.
  { apply (maybe_put p SR_STACK (im_stack im) (set_pool s1 m1) (new_ent im a want) m2); try done; try (fold T; lia); change SR_STACK with 1%nat;
      [cbn; lia|rewrite B1; cbn; lia|rewrite B1; done]. }
  cbn [mbind outcome_bind].
  rewrite (put_spec p SR_U (im_u im) (set_pool s1 m2) (new_ent im a want) m3); try done.
  2:{ change SR_U with 2%nat. rewrite B2, Z.add_assoc. done. }
  cbn [mbind outcome_bind]. fold U. rewrite (trunc_small 16 (lenz U)) by lia.
  set (e1 := Ent [lenz (im_data im); lenz (im_stack im); lenz (im_u im)] a want [lenz D; lenz T; lenz U] false).
  change (Ent (e_rlen _) _ _ _ _) with e1. set (t1 := <[p:=e1]> _).
  assert (t1 !! p = Some e1) as Ht1 by (apply list_lookup_insert_eq; cbn; rewrite length_insert; lia).
  unfold swapram_commit. rewrite decide_True by done. cbn [set_tab sr_tab]. rewrite (rd_ok _ _ _ Ht1). cbn [mbind outcome_bind].
  assert (sr_compressed_size e1 = lenz (packed im)) as Eu.
  { unfold sr_compressed_size, sr_compressed_before. cbn [e1 e_clen SR_NSEG take foldr]. rewrite length_packed. fold D T U. rewrite trunc_small; lia. }
  rewrite Eu. pose proof (length_packed im) as Hlp. fold D T U in Hlp.
  destruct (part_trim psize (NPROC + 1) mp a want (lenz (packed im)) (runs s0 SP) segs Hpart) as (mp'&segs'&Etr&Hpart'); [lia|lia|lia|].
  cbn [e1 e_off e_res set_map sr_map set_pool set_tab s1]. rewrite Etr. cbn [mbind outcome_bind fst snd].
  rewrite wr_ok by (by eapply lookup_lt_Some). cbn [mbind outcome_bind]. rewrite (trunc_small 16 (lenz (packed im))) by lia.
  set (e2 := Ent _ _ _ _ true). eexists. split; [done|]. split; [|done].
  destruct (runs_facts s0 SP mp _ segs Hpart) as [Hre Hrs].
  assert (agree_out a (roundgrain want) (sr_pool s0) m3) as Hag.
  { destruct Hagree as [Hl Hi]. split; [done|]. intros i Hn. apply Hi. lia. }
  assert (<[p:=e2]> t1 = <[p:=e2]> (sr_tab s0)) as Et by (unfold t1; cbn; by rewrite !list_insert_insert_eq).
  destruct (proj2 (lookup_lt_is_Some (sr_tab s0) p)) as [e He]; [lia|]. pose proof (Hent p e He) as Hdead. rewrite HG in Hdead.
  constructor; cbn [set_tab set_map set_pool sr_pool sr_tab sr_ready sr_map sr_codec_owner sr_spools s1]; try done.
  - unfold lenz in *. rewrite L3, L2, L1. done.
  - rewrite Et, length_insert. done.
  - rewrite Hr. exists segs'. eapply part_perm; [|exact Hpart']. unfold runs. cbn [sr_tab set_tab set_map set_pool].
    rewrite Et, (tab_runs_new _ p e e2 He Hdead eq_refl). done.
  - intros q eq. rewrite Et. intros Hq. unfold upd. destruct (decide (q = p)) as [->|Hne].
    + rewrite list_lookup_insert_eq in Hq by lia. injection Hq as <-. constructor; try done. cbn [e2 e_off e_res]. rewrite Hlp. exact Hbytes.
    + rewrite list_lookup_insert_ne in Hq by done. pose proof (Hent q eq Hq) as Hok. destruct (G q) as [imq|]; [|done].
      destruct (Hre q eq Hq (eo_live _ _ _ Hok)) as [Hap Ho]. by eapply keep_ent.
  - intros q. unfold upd. case_decide; [intros _; by subst|apply Hdom].
  - by eapply keep_spools.
Qed.

(** The RAM part of [swapout]: the image is refused and nothing changed, or
    it is in the pool. *)
Lemma swapout_ram_spec G SP p im s : tier_inv G SP s -> (p < NPROC)%nat -> G p = None -> image_ok im -> (1 + length (runs s SP) < NPROC)%nat ->
  exists s', same_ctl s s' /\
    ((swapout_ram psize NPROC p (im_data im) (im_stack im) (im_u im) s = Ok (false, s') /\ tier_inv G SP s') \/
     (swapout_ram psize NPROC p (im_data im) (im_stack im) (im_u im) s = Ok (true, s') /\ tier_inv (upd G p (Some im)) SP s')).
Proof.
  intros Hti Hp HG Him Hc. destruct (out_spec G SP p im s Hti Hp HG Him) as (s0&Hti0&Hsc&Hr0&Et&Hout). unfold swapout_ram. fold (lenz (im_u im)).
  assert (runs s0 SP = runs s SP) as Eruns by (unfold runs; by rewrite Et).
  destruct Hout as [-> |(a&mp&segs&->&Hpart&Hw)]; cbn [mbind outcome_bind fst snd]; [exists s0; split; [done|by left]|].
  destruct (store_spec G SP p im s0 a mp segs Hti0 Hr0 Hp HG Him Hpart Hw) as (s'&->&Hti'&Hsc'); [by rewrite Eruns|]. exists s'. split; [|by right].
  destruct Hsc as (?&?&?&?&?&?&?), Hsc' as (?&?&?&?&?&?&?). repeat split; congruence.
Qed.

(** Expanding a prefix of a stored segment. *)
Lemma sr_expand_spec s off clen dst l : sr_codec_owner s = 0 -> 0 <= off -> 0 <= clen -> off + clen <= lenz (sr_pool s) ->
  slice (sr_pool s) off clen = compress l -> Forall byte l -> (length dst <= length l)%nat -> lenz dst < 2 ^ 32 ->
  sr_expand off clen dst s = Ok (take (length dst) l, lenz dst, s).
Proof.
  intros Ho H0 H1 H2 Hs Hb Hle Hd. unfold sr_expand, swapram_codec_acquire, swapram_codec_release. rewrite Ho.
  cbn [SWAPRAM_CODEC_DECODER Z.eqb negb orb mbind outcome_bind set_owner sr_pool]. rewrite mem_read_slice by done. cbn [mbind outcome_bind]. rewrite Hs.
  destruct (dec_linear SR_LOOKAHEAD (compress l) dst) as (d&dst'&Er&Hl&Ht); [unfold SR_LOOKAHEAD; lia|by apply compress_bytes|done|].
  rewrite Er. cbn [mbind outcome_bind fst snd sr_codec_owner set_owner]. cbn [SWAPRAM_CODEC_DECODER Z.eqb negb orb Pos.eqb mbind outcome_bind].
  rewrite compress_decode in * by done. rewrite length_take, Nat.min_l in * by lia.
  rewrite <- Ht. rewrite take_ge by lia. destruct s; cbn in Ho; subst; done.
Qed.

Lemma ent_bounds G SP s p e im : tier_inv G SP s -> G p = Some im -> sr_tab s !! p = Some e ->
  ent_ok (sr_pool s) e im /\ sr_ready s = true /\ 0 <= e_off e /\ e_off e + lenz (packed im) <= lenz (sr_pool s) /\
  exists segs, pool_part psize (NPROC + 1) (sr_map s) (runs s SP) segs.
Proof.
  intros [] HG He. pose proof (ti_ent0 p e He) as Hok. rewrite HG in Hok. split; [done|].
  pose proof (elem_of_tab_runs _ _ _ He (eo_live _ _ _ Hok)) as Hin. assert (ent_run e ∈ runs s SP) as Hin' by (apply elem_of_app; by left).
  destruct (sr_ready s); [|rewrite ti_part0 in Hin'; by apply not_elem_of_nil in Hin']. split; [done|]. destruct ti_part0 as [segs Hpart].
  destruct (part_bounds _ _ _ _ _ _ Hpart Hin') as [(Ha&_) Hend]. cbn in Ha, Hend. split; [done|]. split; [|by exists segs].
  destruct (roundgrain_spec (e_res e)) as [? _]; [|rewrite <- (eo_res _ _ _ Hok); lia].
  rewrite (eo_res _ _ _ Hok), length_packed. destruct (eo_img _ _ _ Hok) as (_&_&_&_&H1&H2&H3). apply comp_small in H1, H2, H3. unfold lenz in *. lia.
Qed.

(** The segments of a packed image in the pool. *)
Lemma segment_slices mem e im : ent_ok mem e im -> 0 <= e_off e ->
  slice mem (e_off e) (lenz (comp (im_data im))) = comp (im_data im) /\
  slice mem (e_off e + lenz (comp (im_data im))) (lenz (comp (im_stack im))) = comp (im_stack im) /\
  slice mem (e_off e + lenz (comp (im_data im)) + lenz (comp (im_stack im))) (lenz (comp (im_u im))) = comp (im_u im).
Proof.
  intros [] Ho. rewrite eo_res0 in eo_bytes0. pose proof (length_packed im) as Hl. set (D := comp (im_data im)) in *. set (T := comp (im_stack im)) in *.
  set (U := comp (im_u im)) in *. assert (packed im = D ++ T ++ U) as Ep by done. unfold lenz in *. split_and?.
  - rewrite <- (Z.add_0_r (e_off e)), <- (slice_sub mem (e_off e) (Z.of_nat (length (packed im)))) by lia. rewrite eo_bytes0, Ep. by apply slice_app_l.
  - rewrite <- (slice_sub mem (e_off e) (Z.of_nat (length (packed im)))) by lia. rewrite eo_bytes0, Ep, slice_app_r by done. rewrite Nat2Z.id. by apply take_app_length.
  - rewrite <- Z.add_assoc, <- (slice_sub mem (e_off e) (Z.of_nat (length (packed im)))) by lia. rewrite eo_bytes0, Ep, (assoc_L (++)).
    rewrite slice_app_r by (rewrite length_app; lia). rewrite Nat2Z.id. by apply take_ge.
Qed.

(** One segment of [swapram_in]. *)
Lemma seg_spec s off clen dst l : sr_codec_owner s = 0 -> 0 <= off -> 0 <= clen -> off + clen <= lenz (sr_pool s) -> clen = lenz (comp l) ->
  slice (sr_pool s) off clen = comp l -> Forall byte l -> lenz dst = lenz l -> Z.of_nat (length l) < 2 ^ 28 -> l <> [] ->
  sr_expand off clen dst s = Ok (l, lenz l, s).
Proof.
  intros Ho H0 H1 H2 Hc Hs Hb Hd Hl Hne. rewrite compress_comp in Hs by done. unfold lenz in *.
  rewrite (sr_expand_spec s off clen dst l) by (try done; unfold lenz; lia). unfold lenz. rewrite Hd. rewrite take_ge by lia. done.
Qed.

Lemma expand_step seg segs e off dst s x l : dst !! seg = Some x -> lenz x = lenz l -> nthz (e_rlen e) seg = lenz l -> nthz (e_clen e) seg = lenz (comp l) ->
  sr_codec_owner s = 0 -> 0 <= off -> off + lenz (comp l) <= lenz (sr_pool s) -> slice (sr_pool s) off (lenz (comp l)) = comp l ->
  Forall byte l -> Z.of_nat (length l) < 2 ^ 28 ->
  expand_segs (seg :: segs) e off dst s = expand_segs segs e (off + lenz (comp l)) (<[seg:=l]> dst) s.
Proof.
  intros Hx Hl Hr Hc Ho H0 H1 Hs Hb Hsm. cbn [expand_segs]. rewrite Hr, Hc. destruct (decide (l = [])) as [->|Hn].
  - assert (x = []) as -> by (destruct x; [done|unfold lenz in Hl; cbn in Hl; lia]). rewrite list_insert_id by done.
    unfold comp. rewrite decide_True by done. by rewrite Z.add_0_r.
  - rewrite (proj2 (Z.eqb_neq (lenz l) 0)) by (destruct l; [done|unfold lenz; cbn; lia]). rewrite (rd_ok _ _ _ Hx). cbn [mbind outcome_bind].
    rewrite (seg_spec s off (lenz (comp l)) x l) by (try done; unfold lenz; lia). cbn [mbind outcome_bind]. by rewrite Z.eqb_refl.
Qed.

(** [swapram_in] gives back the bytes stored and frees their space. *)
Lemma in_spec G SP p im s d t v : tier_inv G SP s -> G p = Some im -> (length (runs s SP) < NPROC)%nat ->
  lenz d = lenz (im_data im) -> lenz t = lenz (im_stack im) -> lenz v = lenz (im_u im) ->
  exists s', swapram_in NPROC p [d; t; v] s = Ok ([im_data im; im_stack im; im_u im], s') /\ tier_inv (upd G p None) SP s' /\ same_ctl s s'.
Proof.
  intros Hti HG Hc Hd Ht Hv. pose proof (ti_dom _ _ _ Hti p ltac:(by rewrite HG)) as Hp.
  destruct (proj2 (lookup_lt_is_Some (sr_tab s) p)) as [e He]; [rewrite (ti_tab _ _ _ Hti); lia|].
  destruct (ent_bounds _ _ _ _ _ _ Hti HG He) as (Hok&Hr&Hoff&Hend&segs&Hpart). destruct (segment_slices _ _ _ Hok Hoff) as (S1&S2&S3).
  pose proof (length_packed im) as Hlp. pose proof Hok as [Hlive Himg Hrl Hcl Hres Hbytes]. pose proof Himg as (B1&B2&B3&Hu&L1&L2&L3).
  pose proof (ti_owner _ _ _ Hti) as Hown. unfold swapram_in. rewrite decide_True by done. rewrite (rd_ok _ _ _ He). cbn [mbind outcome_bind].
  rewrite Hlive. cbn [negb]. destruct (comp_len _ Hu) as [Hup _].
  assert (0 <= lenz (comp (im_data im)) /\ 0 <= lenz (comp (im_stack im)) /\ 0 < lenz (comp (im_u im))) as (N1&N2&N3) by (unfold lenz; lia).
  rewrite (expand_step SR_DATA _ e (e_off e) _ s d (im_data im)) by (try done; try (unfold nthz; by rewrite ?Hrl, ?Hcl); lia).
  rewrite (expand_step SR_STACK _ e _ _ s t (im_stack im)) by (try done; try (unfold nthz; by rewrite ?Hrl, ?Hcl); lia).
  rewrite (expand_step SR_U _ e _ _ s v (im_u im)) by (try done; try (unfold nthz; by rewrite ?Hrl, ?Hcl); lia).
  cbn [expand_segs mbind outcome_bind fst snd].
  set (e' := Ent (e_rlen e) (e_off e) 0 (e_clen e) false).
  assert (runs s SP ≡ₚ ent_run e :: runs (set_tab s (<[p:=e']> (sr_tab s))) SP) as Hperm.
  { unfold runs. cbn [set_tab sr_tab]. by rewrite (tab_runs_live _ p e He Hlive e' eq_refl). }
  assert (length (runs s SP) = S (length (runs (set_tab s (<[p:=e']> (sr_tab s))) SP))) as Hlen by (by rewrite Hperm).
  destruct (part_free psize (NPROC + 1) (sr_map s) (e_off e) (e_res e) (runs (set_tab s (<[p:=e']> (sr_tab s))) SP) segs) as (mp'&segs'&->&Hpart').
  { by eapply part_perm. } { lia. } { rewrite Hres. destruct Hpsize. rewrite (ti_pool _ _ _ Hti) in Hend. lia. }
  cbn [mbind outcome_bind fst snd]. rewrite wr_ok by (by eapply lookup_lt_Some). cbn [mbind outcome_bind]. eexists. split; [done|]. split; [|done].
  destruct Hti. constructor; cbn [set_tab set_map sr_pool sr_tab sr_ready sr_map sr_codec_owner sr_spools]; try done.
  - by rewrite length_insert.
  - rewrite Hr. by exists segs'.
  - intros q eq Hq. unfold upd. destruct (decide (q = p)) as [->|Hne].
    + rewrite list_lookup_insert_eq in Hq by (by eapply lookup_lt_Some). by injection Hq as <-.
    + rewrite list_lookup_insert_ne in Hq by done. by apply ti_ent0.
  - intros q. unfold upd. case_decide; [by intros [??]|apply ti_dom0].
Qed.

(** *** Spools *)

Lemma spool_alloc_spec G SP size s : tier_inv G SP s -> 0 < size <= psize ->
  exists s', same_ctl s s' /\
    ((swapram_spool_alloc psize NPROC size s = Ok (None, s') /\ tier_inv G SP s') \/
     exists off bytes, swapram_spool_alloc psize NPROC size s = Ok (Some off, s') /\ spool_size (off, bytes) = size /\
       sr_admit s = true /\ swapram_epoch s = SWAPRAM_SMALL /\ tier_inv G ((off, bytes) :: SP) s').
Proof.
  intros Hti Hs. destruct (init_once_ok G SP s Hti) as (s0&E0&Hti0&Hr0&Hc0&Et0&Ep0). unfold swapram_spool_alloc. rewrite E0. cbn [mbind outcome_bind].
  destruct (sr_admit s0) eqn:Ea; cbn [negb orb]; [|exists s0; split; [done|by left]].
  destruct (Z.eqb_spec (swapram_epoch s0) SWAPRAM_SMALL) as [Ee|]; cbn [negb orb]; [|exists s0; split; [done|by left]].
  pose proof Hti0 as []. rewrite Hr0 in ti_part0. destruct ti_part0 as [segs Hpart].
  destruct (part_alloc psize (NPROC + 1) (sr_map s0) (runs s0 SP) segs size Hpart ltac:(lia)) as [-> |(a&mp&segs'&->&Hpart'&Hrg)]; cbn [mbind outcome_bind fst snd].
  { exists s0. split; [done|]. left. split; [by destruct s0|done]. }
  exists (set_spools (set_map s0 mp) (sr_spools s0 + 1)). split; [destruct Hc0 as (?&?&?&?&?&?&?); by repeat split|right].
  destruct (part_bounds _ _ _ _ _ _ Hpart' ltac:(by left)) as [(Ha&_) Hend]. cbn [fst snd] in *.
  assert (lenz (slice (sr_pool s0) a size) = size) as Hlen by (apply length_slice; unfold lenz in *; lia).
  exists a, (slice (sr_pool s0) a size). split; [done|]. split; [exact Hlen|]. destruct Hc0 as (C1&_&C2&_). split; [congruence|]. split; [congruence|].
  constructor; cbn [set_spools set_map sr_pool sr_tab sr_ready sr_map sr_codec_owner sr_spools]; try done.
  - rewrite Hr0. exists segs'. eapply part_perm; [|exact Hpart']. unfold runs. cbn [set_spools set_map sr_tab fmap list_fmap].
    unfold spool_run at 2. cbn [fst]. replace (spool_size (a, slice (sr_pool s0) a size)) with size by (symmetry; exact Hlen). apply Permutation_middle.
  - rewrite ti_spools0. unfold lenz. cbn. lia.
  - constructor; [|done]. split; [intros E1; cbn in E1; rewrite E1 in Hlen; unfold lenz in Hlen; cbn in Hlen; lia|]. split; [unfold spool_size; cbn; fold (lenz (slice (sr_pool s0) a size)); lia|].
    cbn. unfold spool_size. cbn. fold (lenz (slice (sr_pool s0) a size)). by rewrite Hlen.
Qed.

Lemma spool_bounds G l1 l2 off bytes s : tier_inv G (l1 ++ (off, bytes) :: l2) s ->
  exists segs, pool_part psize (NPROC + 1) (sr_map s) (spool_run (off, bytes) :: runs s (l1 ++ l2)) segs /\ sr_ready s = true /\
    runs s (l1 ++ (off, bytes) :: l2) ≡ₚ spool_run (off, bytes) :: runs s (l1 ++ l2) /\
    0 <= off /\ off + lenz bytes <= psize /\ 0 < lenz bytes /\ slice (sr_pool s) off (lenz bytes) = bytes.
Proof.
  intros []. assert (runs s (l1 ++ (off, bytes) :: l2) ≡ₚ spool_run (off, bytes) :: runs s (l1 ++ l2)) as Hperm.
  { unfold runs. rewrite !fmap_app, fmap_cons. rewrite <- Permutation_middle. by rewrite <- Permutation_middle. }
  apply Forall_app in ti_contents0 as [_ [(Hne&Hsz&Hb) _]%Forall_cons].
  destruct (sr_ready s); [|exfalso; rewrite ti_part0 in Hperm; by apply Permutation_nil_cons in Hperm]. destruct ti_part0 as [segs Hpart].
  apply (part_perm _ _ _ _ _ _ Hperm) in Hpart. exists segs. destruct (part_bounds _ _ _ _ _ _ Hpart ltac:(by left)) as [(Ha&_) Hend]. cbn in Ha, Hend.
  unfold spool_size in *. cbn in Hsz, Hb, Hend. fold (lenz bytes) in *. destruct (roundgrain_spec (lenz bytes)) as [? _]; [unfold lenz in *; lia|].
  assert (0 < lenz bytes) by (unfold lenz; destruct bytes; [done|cbn; lia]). split_and?; try done. lia.
Qed.

Lemma spool_write_spec G l1 l2 off bytes s pos src : tier_inv G (l1 ++ (off, bytes) :: l2) s -> 0 <= pos -> pos + lenz src <= lenz bytes ->
  exists s' bytes', swapram_spool_write psize off pos src s = Ok s' /\ mem_write bytes pos src = Ok bytes' /\ tier_inv G (l1 ++ (off, bytes') :: l2) s' /\ same_ctl s s'.
Proof.
  intros Hti Hp Hl. destruct (spool_bounds _ _ _ _ _ _ Hti) as (segs&Hpart&Hr&Hperm&Ho&He&Hlb&Hb). pose proof Hti as [].
  unfold swapram_spool_write, spool_check. unfold lenz in *. rewrite (proj2 (Z.ltb_ge psize off)) by lia. rewrite !trunc_small by lia.
  rewrite (proj2 (Z.ltb_ge (psize - off) pos)), (proj2 (Z.ltb_ge (psize - off - pos) _)) by lia. cbn [orb].
  destruct (mem_write_ok (sr_pool s) (off + pos) src) as (m'&Ew&Lm); [lia|lia|]. rewrite Ew. cbn [mbind outcome_bind].
  pose proof (slice_splice _ _ _ _ off (Z.of_nat (length bytes)) Ew Ho Hp Hl ltac:(lia)) as Hsp. rewrite Hb in Hsp.
  set (bytes' := slice m' off (Z.of_nat (length bytes))) in *. assert (length bytes' = length bytes) as Lb.
  { unfold bytes'. pose proof (length_slice m' off (Z.of_nat (length bytes)) Ho ltac:(lia) ltac:(lia)). lia. }
  eexists _, bytes'. split; [done|]. split; [done|]. split; [|done].
  destruct (runs_facts s (l1 ++ l2) (sr_map s) _ segs Hpart) as [Hre Hrs].
  destruct (roundgrain_spec (Z.of_nat (length bytes))) as [Hrg _]; [lia|].
  assert (agree_out off (roundgrain (Z.of_nat (length bytes))) (sr_pool s) m') as Hag by (apply (agree_write off _ _ _ _ _ Ew); unfold lenz; lia).
  assert (spool_run (off, bytes') = spool_run (off, bytes)) as Erun by (unfold spool_run, spool_size; cbn; by rewrite Lb).
  constructor; cbn [set_pool sr_pool sr_tab sr_ready sr_map sr_codec_owner sr_spools]; try done.
  - unfold lenz. lia.
  - rewrite Hr in ti_part0 |- *. destruct ti_part0 as [segs0 Hp0]. exists segs0. unfold runs in *. cbn [set_pool sr_tab]. by rewrite !fmap_app, !fmap_cons, Erun in *.
  - intros q eq Hq. pose proof (ti_ent0 q eq Hq) as Hok. destruct (G q); [|done]. destruct (Hre q eq Hq (eo_live _ _ _ Hok)) as [Hap Hoq].
    eapply keep_ent; [exact Hag|exact Hap|done|done].
  - unfold lenz in *. rewrite ti_spools0, !length_app. done.
  - apply Forall_app in ti_contents0 as [Hc1 [(?&Hz&_) Hc2]%Forall_cons]. apply Forall_app in Hrs as [Hr1 Hr2]. apply Forall_app. split; [by eapply keep_spools|].
    constructor; [|by eapply keep_spools]. split; [cbn; destruct bytes'; [cbn in Lb; lia|done]|]. unfold spool_size in *. cbn in *. rewrite Lb. by split.
Qed.

Lemma spool_read_spec G l1 l2 off bytes s pos len : tier_inv G (l1 ++ (off, bytes) :: l2) s -> 0 <= pos -> 0 <= len -> pos + len <= lenz bytes ->
  swapram_spool_read psize off pos len s = Ok (slice bytes pos len).
Proof.
  intros Hti Hp Hn Hl. destruct (spool_bounds _ _ _ _ _ _ Hti) as (segs&_&_&_&Ho&He&Hlb&Hb). pose proof (ti_pool _ _ _ Hti).
  unfold swapram_spool_read, spool_check. unfold lenz in *. rewrite (proj2 (Z.ltb_ge psize off)) by lia. rewrite !trunc_small by lia.
  rewrite (proj2 (Z.ltb_ge (psize - off) pos)), (proj2 (Z.ltb_ge (psize - off - pos) _)) by lia. cbn [orb].
  rewrite mem_read_slice by lia. rewrite <- Hb. by rewrite slice_sub by lia.
Qed.

Lemma spool_free_spec G l1 l2 off bytes s : tier_inv G (l1 ++ (off, bytes) :: l2) s -> (length (runs s (l1 ++ (off, bytes) :: l2)) < NPROC)%nat ->
  exists s' poke, swapram_spool_free off (lenz bytes) s = Ok (s', poke) /\ tier_inv G (l1 ++ l2) s' /\ same_ctl s s' /\ poke = (lenz (l1 ++ l2) =? 0) && sr_large_want s.
Proof.
  intros Hti Hc. destruct (spool_bounds _ _ _ _ _ _ Hti) as (segs&Hpart&Hr&Hperm&Ho&He&Hlb&Hb). pose proof Hti as [].
  assert (length (runs s (l1 ++ (off, bytes) :: l2)) = S (length (runs s (l1 ++ l2)))) as Hlen by (by rewrite Hperm).
  unfold swapram_spool_free. unfold lenz in *. rewrite ti_spools0, length_app. cbn [length].
  rewrite (proj2 (Z.leb_gt _ 0)) by lia.
  destruct (part_free psize (NPROC + 1) (sr_map s) off (Z.of_nat (length bytes)) (runs s (l1 ++ l2)) segs Hpart) as (mp'&segs'&->&Hpart'); [lia|lia|].
  cbn [mbind outcome_bind fst snd]. eexists _, _. split; [done|]. split; [|split; [done|]].
  - constructor; cbn [set_spools set_map sr_pool sr_tab sr_ready sr_map sr_codec_owner sr_spools]; try done.
    + rewrite Hr. by exists segs'.
    + unfold lenz. rewrite length_app. lia.
    + apply Forall_app in ti_contents0 as [? [_ ?]%Forall_cons]. by apply Forall_app.
  - cbn [set_spools sr_spools sr_large_want set_map]. rewrite length_app. f_equal. f_equal. lia.
Qed.

Lemma prefix_spec G SP p im s dst : tier_inv G SP s -> (p < NPROC)%nat -> G p = Some im -> (length dst <= length (im_u im))%nat ->
  swapram_uarea_prefix NPROC p dst s = Ok (Some (take (length dst) (im_u im)), s).
Proof.
  intros Hti Hp HG Hl. destruct (proj2 (lookup_lt_is_Some (sr_tab s) p)) as [e He]; [rewrite (ti_tab _ _ _ Hti); lia|].
  destruct (ent_bounds _ _ _ _ _ _ Hti HG He) as (Hok&Hr&Hoff&Hend&_). destruct (segment_slices _ _ _ Hok Hoff) as (_&_&S3).
  pose proof (length_packed im) as Hlp. destruct Hok as [Hlive (_&_&B3&Hu&_&_&L3) Hrl Hcl _ _]. unfold swapram_uarea_prefix. rewrite decide_True by done.
  rewrite (rd_ok _ _ _ He). cbn [mbind outcome_bind]. unfold nthz. rewrite Hlive, Hrl, Hcl. cbn [negb orb nth SR_U SR_DATA SR_STACK].
  unfold lenz in *. rewrite (proj2 (Z.ltb_ge (Z.of_nat (length (im_u im))) _)) by lia.
  rewrite (compress_comp (im_u im)) in * by done.
  rewrite (sr_expand_spec s _ _ dst (im_u im)); try done; unfold lenz in *; try lia; [|apply (ti_owner _ _ _ Hti)].
  cbn [mbind outcome_bind]. by rewrite Z.eqb_refl.
Qed.

End Invariant.

(** ** The tier as an abstract store *)

(** The requests of the swap and exec code: a swapout and a swapin of the
    slot [p], the peek of a u area, and the calls on a spool, named by the
    offset its allocation gave. *)
Inductive request :=
  | ReqOut (p : nat) (im : image)
  | ReqIn (p : nat) (dst : list (list Z))
  | ReqPrefix (p : nat) (dst : list Z)
  | ReqAlloc (size : Z)
  | ReqWrite (off pos : Z) (src : list Z)
  | ReqRead (off pos len : Z)
  | ReqFree (off size : Z).

Inductive reply :=
  | RepTook (ram : bool)
  | RepImage (segs : list (list Z))
  | RepPrefix (l : option (list Z))
  | RepSpool (off : option Z)
  | RepBytes (l : list Z)
  | RepDone.

Section Serve.
Context `{E : Encoder}.
Context (psize : Z) (NPROC : nat).

Definition serve (q : request) (s : swapram) : outcome (reply * swapram) :=
  match q with
  | ReqOut p im => r ← swapout_ram psize NPROC p (im_data im) (im_stack im) (im_u im) s; Ok (RepTook (fst r), snd r)
  | ReqIn p dst => r ← swapram_in NPROC p dst s; Ok (RepImage (fst r), snd r)
  | ReqPrefix p dst => r ← swapram_uarea_prefix NPROC p dst s; Ok (RepPrefix (fst r), snd r)
  | ReqAlloc size => r ← swapram_spool_alloc psize NPROC size s; Ok (RepSpool (fst r), snd r)
  | ReqWrite off pos src => s ← swapram_spool_write psize off pos src s; Ok (RepDone, s)
  | ReqRead off pos len => l ← swapram_spool_read psize off pos len s; Ok (RepBytes l, s)
  | ReqFree off size => r ← swapram_spool_free off size s; Ok (RepDone, fst r)
  end.

(** A client asks on from the replies it has had, latest first. *)
Fixpoint serve_all (n : nat) (client : list reply -> request) (had : list reply) (s : swapram) : outcome (list reply * swapram) :=
  match n with
  | O => Ok (had, s)
  | S n' => r ← serve (client had) s; serve_all n' client (fst r :: had) (snd r)
  end.

End Serve.

(** Images by slot, and the spools with their bytes. *)
Definition store : Type := (nat -> option image) * list spool.

Definition held (NPROC : nat) (A : store) : nat :=
  (length (filter (fun p => is_Some (fst A p)) (seq 0 NPROC)) + length (snd A))%nat.

(** What a client may ask. *)
Definition may_ask (psize : Z) (NPROC : nat) (A : store) (q : request) : Prop :=
  match q with
  | ReqOut p im => (p < NPROC)%nat /\ fst A p = None /\ image_ok im /\ (1 + held NPROC A < NPROC)%nat
  | ReqIn p dst => exists im d t v, fst A p = Some im /\ dst = [d; t; v] /\ lenz d = lenz (im_data im) /\ lenz t = lenz (im_stack im) /\ lenz v = lenz (im_u im)
  | ReqPrefix p dst => exists im, fst A p = Some im /\ (length dst <= length (im_u im))%nat
  | ReqAlloc size => 0 < size <= psize /\ (1 + held NPROC A < NPROC)%nat
  | ReqWrite off pos src => exists bytes, (off, bytes) ∈ snd A /\ 0 <= pos /\ pos + lenz src <= lenz bytes
  | ReqRead off pos len => exists bytes, (off, bytes) ∈ snd A /\ 0 <= pos /\ 0 <= len /\ pos + len <= lenz bytes
  | ReqFree off size => exists bytes, (off, bytes) ∈ snd A /\ size = lenz bytes
  end.

(** The answers: the store may refuse to take an image or a spool, and
    otherwise keeps every byte. [ok] allows the store to take things. *)
Inductive answers (ok : bool) : store -> request -> reply -> store -> Prop :=
  | ans_out G SP p im : ok = true -> answers ok (G, SP) (ReqOut p im) (RepTook true) (upd G p (Some im), SP)
  | ans_flash G SP p im : answers ok (G, SP) (ReqOut p im) (RepTook false) (G, SP)
  | ans_in G SP p im dst : G p = Some im -> answers ok (G, SP) (ReqIn p dst) (RepImage [im_data im; im_stack im; im_u im]) (upd G p None, SP)
  | ans_prefix G SP p im dst : G p = Some im -> answers ok (G, SP) (ReqPrefix p dst) (RepPrefix (Some (take (length dst) (im_u im)))) (G, SP)
  | ans_spool G SP off bytes : ok = true -> off ∉ SP.*1 -> answers ok (G, SP) (ReqAlloc (lenz bytes)) (RepSpool (Some off)) (G, (off, bytes) :: SP)
  | ans_full G SP size : answers ok (G, SP) (ReqAlloc size) (RepSpool None) (G, SP)
  | ans_write G l1 l2 off bytes pos src bytes' : mem_write bytes pos src = Ok bytes' ->
      answers ok (G, l1 ++ (off, bytes) :: l2) (ReqWrite off pos src) RepDone (G, l1 ++ (off, bytes') :: l2)
  | ans_read G SP off bytes pos len : (off, bytes) ∈ SP -> answers ok (G, SP) (ReqRead off pos len) (RepBytes (slice bytes pos len)) (G, SP)
  | ans_free G l1 l2 off bytes : answers ok (G, l1 ++ (off, bytes) :: l2) (ReqFree off (lenz bytes)) RepDone (G, l1 ++ l2).

(** The replies of a run, latest first. *)
Inductive answers_all (ok : bool) (client : list reply -> request) (A : store) : list reply -> store -> Prop :=
  | all_none : answers_all ok client A [] A
  | all_more had A1 r A2 : answers_all ok client A had A1 -> answers ok A1 (client had) r A2 -> answers_all ok client A (r :: had) A2.

Section Refinement.
Context `{ES : EncoderSpec}.
Context (psize : Z) (NPROC : nat).
Hypothesis Hpsize : 0 < psize <= 65535 /\ psize mod 4 = 0.

Lemma tab_runs_count t (G : nat -> option image) k : (forall i e, t !! i = Some e -> e_live e = true <-> is_Some (G (k + i)%nat)) ->
  length (tab_runs t) = length (filter (fun p => is_Some (G p)) (seq k (length t))).
Proof.
  revert k. induction t as [|e t IH]; intros k Hl; [done|]. pose proof (Hl 0%nat e eq_refl) as H0. rewrite Nat.add_0_r in H0. cbn [length seq].
  assert (length (tab_runs t) = length (filter (fun p => is_Some (G p)) (seq (S k) (length t)))) as IH'.
  { apply IH. intros i e' Hi. rewrite (Hl (S i) e' Hi). by rewrite Nat.add_succ_r. }
  unfold tab_runs in *. cbn [omap list_omap]. rewrite filter_cons. destruct (e_live e); case_decide as Hd; cbn [length]; rewrite ?IH'; try done; exfalso; naive_solver.
Qed.

Lemma held_runs G SP s : tier_inv psize NPROC G SP s -> length (runs s SP) = held NPROC (G, SP).
Proof.
  intros Hti. unfold runs, held. rewrite length_app, length_fmap. cbn [fst snd]. f_equal.
  rewrite (tab_runs_count _ G 0), (ti_tab _ _ _ _ _ Hti); [done|]. intros i e Hi. cbn [Nat.add]. pose proof (ti_ent _ _ _ _ _ Hti i e Hi) as He.
  destruct (G i) as [im|]; [split; [by eexists|intros _; apply (eo_live _ _ _ He)]|]. rewrite He. split; [done|by intros [??]].
Qed.

Lemma swapram_out_closed p d t n s r : sr_admit s = false -> swapram_out psize NPROC p d t n s = Ok r -> fst r = false.
Proof.
  intros Ha. unfold swapram_out, sr_pool_init_once. case_decide; [|done]. destruct (sr_ready s); cbn [mbind outcome_bind].
  - destruct (rd (sr_tab s) p); cbn [mbind outcome_bind]; [|done..]. destruct (e_live _); [done|]. rewrite Ha. cbn [negb orb]. by intros [= <-].
  - destruct (swapram_pool_init _ _ _); cbn [mbind outcome_bind]; [|done..]. destruct (rd _ p); cbn [mbind outcome_bind]; [|done..].
    destruct (e_live _); [done|]. cbn [set_ready set_map sr_admit]. rewrite Ha. cbn [negb orb]. by intros [= <-].
Qed.

Lemma swapout_ram_closed p d t u_ s s' : sr_admit s = false -> swapout_ram psize NPROC p d t u_ s <> Ok (true, s').
Proof.
  intros Ha. unfold swapout_ram. destruct (swapram_out _ _ _ _ _ _ _) as [r| |] eqn:Er; cbn [mbind outcome_bind]; [|done..].
  by rewrite (swapram_out_closed _ _ _ _ _ _ Ha Er).
Qed.

(** Offsets name spools. *)
Lemma spool_fresh G l1 l2 off bytes s : tier_inv psize NPROC G (l1 ++ (off, bytes) :: l2) s -> off ∉ (l1 ++ l2).*1.
Proof.
  intros Hti Hin. destruct (spool_bounds psize NPROC Hpsize G l1 l2 off bytes s Hti) as (segs&Hpart&_&_&_&_&Hl&_).
  apply list_elem_of_fmap in Hin as ([o b]&->&Hin). cbn in *.
  assert (snd (o, b) <> []) as Hne. { pose proof (ti_contents _ _ _ _ _ Hti) as [H1 [_ H2]%Forall_cons]%Forall_app. apply elem_of_app in Hin as [Hin|Hin];
    [rewrite Forall_forall in H1; by apply H1|rewrite Forall_forall in H2; by apply H2]. }
  destruct (pp_apart _ _ _ _ _ Hpart) as [Hap _]. rewrite Forall_forall in Hap. apply (Hap (spool_run (o, b))) with o.
  - apply elem_of_app. right. by apply list_elem_of_fmap_2.
  - unfold in_run, spool_run, spool_size. cbn. unfold lenz in Hl. destruct (roundgrain_spec (Z.of_nat (length bytes))) as [? _]; [|lia].
    pose proof (ti_contents _ _ _ _ _ Hti) as [_ [(_&Hs&_) _]%Forall_cons]%Forall_app. unfold spool_size in Hs. cbn in Hs. lia.
  - unfold in_run, spool_run, spool_size. cbn in *. destruct (roundgrain_spec (Z.of_nat (length b))) as [? _].
    + pose proof (part_bounds _ _ _ _ _ (spool_run (o, b)) Hpart) as Hb. destruct Hb as [(?&?&_) ?]; [right; apply elem_of_app; right; by apply list_elem_of_fmap_2|].
      pose proof (ti_contents _ _ _ _ _ Hti) as Hc. rewrite Forall_forall in Hc. destruct (Hc (o, b)) as (_&Hs&_); [apply elem_of_app in Hin as [?|?]; apply elem_of_app; [by left|right; by right]|].
      unfold spool_size in Hs. cbn in Hs. lia.
    + destruct b; [done|]. cbn [length] in *. lia.
Qed.

(** The tier and the store it implements. *)
Definition stores (A : store) (s : swapram) : Prop := tier_inv psize NPROC (fst A) (snd A) s /\ (held NPROC A < NPROC)%nat.

Lemma held_in G SP p im : (p < NPROC)%nat -> G p = Some im -> (held NPROC (upd G p None, SP) <= held NPROC (G, SP))%nat.
Proof.
  intros Hp HG. unfold held. cbn [fst snd]. apply Nat.add_le_mono_r. induction (seq 0 NPROC) as [|q l IH]; [done|].
  rewrite !filter_cons. destruct (decide (is_Some (upd G p None q))) as [H1|H1], (decide (is_Some (G q))) as [H2|H2]; cbn [length]; try lia.
  exfalso. apply H2. unfold upd in H1. case_decide; [by destruct H1|done].
Qed.

Lemma filter_agree (G G' : nat -> option image) (l : list nat) : (forall q, q ∈ l -> G q = G' q) -> filter (fun q => is_Some (G q)) l = filter (fun q => is_Some (G' q)) l.
Proof.
  induction l as [|q l IH]; intros H; [done|]. rewrite !filter_cons, (IH ltac:(intros; apply H; by right)), (H q ltac:(by left)). done.
Qed.

Lemma held_out G SP p im : (held NPROC (upd G p (Some im), SP) <= 1 + held NPROC (G, SP))%nat.
Proof.
  unfold held. cbn [fst snd]. enough (length (filter (fun q => is_Some (upd G p (Some im) q)) (seq 0 NPROC)) <= 1 + length (filter (fun q => is_Some (G q)) (seq 0 NPROC)))%nat by lia.
  pose proof (NoDup_seq 0 NPROC) as Hnd. induction (seq 0 NPROC) as [|q l IH]; [cbn; lia|].
  apply NoDup_cons in Hnd as [Hq Hnd]. rewrite !filter_cons. destruct (decide (q = p)) as [->|Hne].
  - assert (filter (fun q => is_Some (upd G p (Some im) q)) l = filter (fun q => is_Some (G q)) l) as ->.
    { apply filter_agree. intros q Hin. unfold upd. rewrite decide_False; [done|]. by intros ->. }
    repeat case_decide; cbn [length]; lia.
  - specialize (IH Hnd). assert (upd G p (Some im) q = G q) as Eu by (unfold upd; by rewrite decide_False). rewrite Eu.
    repeat case_decide; cbn [length]; lia.
Qed.

Lemma serve_ok A q s : stores A s -> may_ask psize NPROC A q ->
  exists r s' A', serve psize NPROC q s = Ok (r, s') /\ answers (sr_admit s) A q r A' /\ stores A' s' /\ same_ctl s s'.
Proof.
  destruct A as [G SP]. intros [Hti Hh] Hq. cbn [fst snd] in Hti. pose proof (held_runs _ _ _ Hti) as Hr.
  destruct q as [p im|p dst|p dst|size|off pos src|off pos len|off size]; cbn [may_ask fst snd serve] in *.
  - destruct Hq as (Hp&HG&Him&Hc). rewrite <- Hr in Hc.
    destruct (swapout_ram_spec psize NPROC Hpsize G SP p im s Hti Hp HG Him Hc) as (s'&Hctl&[[Es Hti']|[Es Hti']]); rewrite Es; cbn [mbind outcome_bind fst snd].
    + eexists _, s', (G, SP). split; [done|]. split; [constructor|]. by split.
    + eexists _, s', (upd G p (Some im), SP). split; [done|]. split.
      * constructor. destruct (sr_admit s) eqn:Ea; [done|]. by destruct (swapout_ram_closed _ _ _ _ _ s' Ea Es).
      * split; [|done]. split; [done|]. pose proof (held_out G SP p im). lia.
  - destruct Hq as (im&d&t&v&HG&->&Hd&Ht&Hv). rewrite <- Hr in Hh. pose proof (ti_dom _ _ _ _ _ Hti p ltac:(by rewrite HG)) as Hp.
    destruct (in_spec psize NPROC Hpsize G SP p im s d t v Hti HG Hh Hd Ht Hv) as (s'&->&Hti'&Hctl). cbn [mbind outcome_bind fst snd].
    eexists _, s', (upd G p None, SP). split; [done|]. split; [by constructor|]. split; [|done]. split; [done|].
    pose proof (held_in G SP p im Hp HG). lia.
  - destruct Hq as (im&HG&Hl). pose proof (ti_dom _ _ _ _ _ Hti p ltac:(by rewrite HG)) as Hp.
    rewrite (prefix_spec psize NPROC G SP p im s dst Hti Hp HG Hl). cbn [mbind outcome_bind fst snd].
    eexists _, s, (G, SP). split; [done|]. split; [by constructor|]. split; [by split|by repeat split].
  - destruct Hq as (Hs&Hc). destruct (spool_alloc_spec psize NPROC Hpsize G SP size s Hti Hs) as (s'&Hctl&[[-> Hti']|(off&bytes&->&Hsz&Ha&_&Hti')]); cbn [mbind outcome_bind fst snd].
    + eexists _, s', (G, SP). split; [done|]. split; [constructor|]. by split.
    + eexists _, s', (G, (off, bytes) :: SP). split; [done|]. split.
      * replace size with (lenz bytes) by exact Hsz. constructor; [done|]. exact (spool_fresh G [] SP off bytes s' Hti').
      * split; [|done]. split; [done|]. unfold held in *. cbn [fst snd length] in *. lia.
  - destruct Hq as (bytes&(l1&l2&->)%list_elem_of_split&Hp&Hl).
    destruct (spool_write_spec psize NPROC Hpsize G l1 l2 off bytes s pos src Hti Hp Hl) as (s'&bytes'&->&Ew&Hti'&Hctl). cbn [mbind outcome_bind].
    eexists _, s', (G, l1 ++ (off, bytes') :: l2). split; [done|]. split; [by constructor|]. split; [|done]. split; [done|].
    unfold held in *. cbn [fst snd] in *. rewrite !length_app in *. cbn [length] in *. done.
  - destruct Hq as (bytes&Hin&Hp&Hn&Hl). pose proof Hin as (l1&l2&->)%list_elem_of_split.
    rewrite (spool_read_spec psize NPROC Hpsize G l1 l2 off bytes s pos len Hti Hp Hn Hl). cbn [mbind outcome_bind].
    eexists _, s, _. split; [done|]. split; [by constructor|]. split; [by split|by repeat split].
  - destruct Hq as (bytes&(l1&l2&->)%list_elem_of_split&->). rewrite <- Hr in Hh.
    destruct (spool_free_spec psize NPROC Hpsize G l1 l2 off bytes s Hti Hh) as (s'&poke&->&Hti'&Hctl&_). cbn [mbind outcome_bind fst snd].
    eexists _, s', (G, l1 ++ l2). split; [done|]. split; [constructor|]. split; [|done]. split; [done|]. rewrite Hr in Hh.
    unfold held in *. cbn [fst snd] in *. rewrite !length_app in *. cbn [length] in *. lia.
Qed.

Lemma serve_all_ok n client had A0 A s : stores A s -> answers_all (sr_admit s) client A0 had A ->
  (forall had A, answers_all (sr_admit s) client A0 had A -> may_ask psize NPROC A (client had)) ->
  exists had' s' A', serve_all psize NPROC n client had s = Ok (had', s') /\ length had' = (n + length had)%nat /\
    answers_all (sr_admit s) client A0 had' A' /\ stores A' s'.
Proof.
  revert had A s. induction n as [|n IH]; intros had A s Hs Hrun Hask; [by exists had, s, A|]. cbn [serve_all].
  destruct (serve_ok A (client had) s Hs) as (r&s1&A1&->&Hans&Hs1&Hctl); [by apply (Hask had A)|]. cbn [mbind outcome_bind fst snd].
  destruct Hctl as (Ha&_). assert (answers_all (sr_admit s) client A0 (r :: had) A1) as Hrun1 by (by eapply all_more).
  rewrite <- Ha in *. destruct (IH (r :: had) A1 s1 Hs1 Hrun1) as (had'&s'&A'&Er&Hl&Hans'&Hs').
  - exact Hask.
  - exists had', s', A'. split; [done|]. split; [cbn [length] in Hl; lia|done].
Qed.

End Refinement.

(** ** A concrete encoder

    It codes every byte as a literal; it shows that what is asked of the
    encoder can be had. *)
Definition lit_bits (l : list Z) : list bool := flat_map (fun b => true :: bits_of_byte b) l.

Fixpoint pack (n : nat) (bits : list bool) : list Z :=
  match n with O => [] | S n' => bits_val (take 8 bits) :: pack n' (drop 8 bits) end.

Definition lit_len (l : list Z) : nat := Nat.div (9 * length l + 7) 8.
Definition lit_compress (l : list Z) : list Z := pack (lit_len l) (lit_bits l ++ replicate (8 * lit_len l - 9 * length l) false).

Lemma lit_len_spec l : (9 * length l <= 8 * lit_len l < 9 * length l + 8)%nat.
Proof. unfold lit_len. pose proof (Nat.div_mod_eq (9 * length l + 7) 8). pose proof (Nat.mod_upper_bound (9 * length l + 7) 8 ltac:(lia)). lia. Qed.

Lemma length_lit_bits l : length (lit_bits l) = (9 * length l)%nat.
Proof. unfold lit_bits. induction l as [|b l IH]; [done|]. cbn [flat_map]. rewrite length_app, IH. cbn. lia. Qed.

Lemma length_pack n bits : length (pack n bits) = n.
Proof. revert bits. induction n as [|n IH]; intros bits; cbn; [done|]. by rewrite IH. Qed.

Lemma pack_bytes n bits : length bits = (8 * n)%nat -> Forall byte (pack n bits).
Proof.
  revert bits. induction n as [|n IH]; intros bits Hl; cbn [pack]; constructor.
  - pose proof (bits_val_range (take 8 bits)) as Hb. rewrite length_take, Nat.min_l in Hb by lia. exact Hb.
  - apply IH. rewrite length_drop. lia.
Qed.

Lemma byte_bits bits : length bits = 8%nat -> bits_of_byte (bits_val bits) = bits.
Proof.
  intros Hl. apply (nth_ext _ _ false false); [by rewrite Hl|]. intros i Hi. change (i < 8)%nat in Hi. rewrite bits_of_byte_nth, decide_True by done.
  rewrite bits_val_bit by lia. rewrite bool_decide_true by lia. rewrite andb_true_r. f_equal. lia.
Qed.

Lemma bits_of_pack n bits : length bits = (8 * n)%nat -> bits_of (pack n bits) = bits.
Proof.
  revert bits. induction n as [|n IH]; intros bits Hl; [by destruct bits|]. cbn [pack]. unfold bits_of in *. cbn [flat_map].
  rewrite byte_bits by (rewrite length_take; lia). rewrite IH by (rewrite length_drop; lia). apply take_drop.
Qed.

Lemma bits_byte b : byte b -> bits_val (bits_of_byte b) = b.
Proof.
  intros Hb. apply Z.bits_inj'. intros j Hj. rewrite bits_val_bit by done. change (length (bits_of_byte b)) with 8%nat. case_bool_decide as Hlt.
  - rewrite andb_true_r, bits_of_byte_nth, decide_True by lia. f_equal. lia.
  - rewrite andb_false_r. symmetry. apply byte_high; [done|lia].
Qed.

Lemma total_lits lb l out k : Forall byte l -> (k < 8)%nat -> total lb out (lit_bits l ++ replicate k false) = (out ++ l, replicate k false).
Proof.
  intros Hl Hk. revert out. induction Hl as [|b l Hb Hl IH]; intros out; cbn [lit_bits flat_map app].
  - unfold total. rewrite app_nil_r. destruct k as [|k]; [done|]. cbn [replicate length decode_from next_token].
    rewrite decide_False; [done|]. rewrite length_replicate. lia.
  - rewrite <- (assoc_L (++)). fold (lit_bits l). rewrite (total_lit lb _ _ b (lit_bits l ++ replicate k false)).
    + rewrite IH. by rewrite <- (assoc_L (++)).
    + cbn [next_token]. rewrite decide_True by (rewrite length_app; cbn; lia).
      change 8%nat with (length (bits_of_byte b)) at 1 2. rewrite take_app_length, drop_app_length. by rewrite bits_byte.
Qed.

Lemma lit_compress_decode l : Forall byte l -> decode SR_LOOKAHEAD (lit_compress l) = l.
Proof.
  intros Hl. pose proof (lit_len_spec l). unfold decode, lit_compress. rewrite bits_of_pack by (rewrite length_app, length_lit_bits, length_replicate; lia).
  fold (total SR_LOOKAHEAD [] (lit_bits l ++ replicate (8 * lit_len l - 9 * length l) false)). by rewrite total_lits by (try done; lia).
Qed.

Record lit_encoder := LitEnc { le_in : list Z; le_sent : nat; le_finishing : bool }.

#[local] Instance LitEncoder : Encoder := {|
  encoder := lit_encoder;
  encoder_reset := LitEnc [] 0 false;
  encoder_sink e l := Some (LitEnc (le_in e ++ l) 0 false, length l);
  encoder_poll e room :=
    if le_finishing e then
      let l := take room (drop (le_sent e) (lit_compress (le_in e))) in
      Some (LitEnc (le_in e) (le_sent e + length l)%nat true, l, Nat.ltb (le_sent e + length l) (length (lit_compress (le_in e))))
    else Some (e, [], false);
  encoder_finish e := Some (LitEnc (le_in e) (le_sent e) true, le_finishing e);
  backlog e := (length (lit_compress (le_in e)) - le_sent e)%nat
|}.

Definition lit_rep (e : lit_encoder) (i o : list Z) (ph : phase) : Prop :=
  le_in e = i /\ match ph with
    | Idle | Busy => le_finishing e = false /\ le_sent e = 0%nat /\ o = []
    | Finishing => le_finishing e = true \/ le_finishing e = false /\ le_sent e = 0%nat
    | Finished => le_finishing e = true /\ le_sent e = length (lit_compress i)
    end /\ o = take (le_sent e) (lit_compress i) /\ (le_sent e <= length (lit_compress i))%nat /\ (ph = Finishing -> le_finishing e = true).

Lemma take_take_drop {A} n m (l : list A) : take n l ++ take m (drop n l) = take (n + length (take m (drop n l))) l.
Proof.
  rewrite length_take, length_drop. transitivity (take (n + m) l); [by rewrite take_take_drop|]. destruct (decide (n + m <= length l)%nat).
  - f_equal. lia.
  - rewrite !take_ge by lia. done.
Qed.

#[local] Program Instance LitSpec : EncoderSpec LitEncoder := {| compress := lit_compress; enc_rep := lit_rep |}.
Next Obligation. done. Qed.
Next Obligation.
  intros e i o l (<-&(Hf&Hn&->)&_) Hl. eexists _, (length l). split; [done|]. rewrite take_ge by done.
  split; [destruct l; [done|cbn; lia]|]. split; [done|]. cbn. split; [done|]. split; [done|]. split; [lia|done].
Qed.
Next Obligation.
  intros e i o ph room (<-&Hph&Ho&Hle&Hf) [-> | ->] Hroom.
  - destruct Hph as (Hf'&Hn&->). exists e, [], false. cbn [encoder_poll LitEncoder]. rewrite Hf'. split; [done|]. split; [cbn; lia|].
    split; [done|]. cbn. rewrite Hn. split; [done|]. split; [done|]. split; [lia|done].
  - specialize (Hf eq_refl). cbn [encoder_poll LitEncoder]. rewrite Hf. eexists _, _, _. split; [done|].
    set (C := lit_compress (le_in e)) in *. set (l := take room (drop (le_sent e) C)).
    assert (length l = room `min` (length C - le_sent e))%nat as Hll by (unfold l; by rewrite length_take, length_drop).
    assert (o ++ l = take (le_sent e + length l) C) as Eo by (rewrite Ho; apply take_take_drop). split; [lia|].
    destruct (Nat.ltb_spec (le_sent e + length l) (length C)).
    + split; [|change (length C - (le_sent e + length l) < length C - le_sent e)%nat; lia]. split; [done|]. cbn [lit_rep le_in le_finishing le_sent]. fold C l. split; [by left|]. split; [done|]. split; [lia|done].
    + split; [done|]. cbn [lit_rep le_in le_finishing le_sent]. fold C l. split; [split; [done|lia]|]. split; [done|]. split; [lia|done].
Qed.
Next Obligation.
  intros e i o (<-&(Hf&Hn&->)&_&Hle&_). eexists. cbn. rewrite Hf. split; [done|]. split; [done|]. cbn. rewrite Hn. split; [by left|]. split; [done|]. split; [lia|done].
Qed.
Next Obligation.
  intros e i o (<-&(Hf&Hn)&->&_). eexists. cbn. rewrite Hf. split; [done|]. rewrite Hn. by rewrite take_ge.
Qed.
Next Obligation.
  intros e i o ph j (<-&Hph&Ho&_) Hj. destruct ph; try (destruct Hph as (_&_&->); apply prefix_nil);
    rewrite Hj, app_nil_r, Ho by tauto; apply prefix_take.
Qed.
Next Obligation. intros l _. apply pack_bytes. rewrite length_app, length_lit_bits, length_replicate. pose proof (lit_len_spec l). lia. Qed.
Next Obligation.
  intros l Hl. unfold lit_compress. rewrite length_pack. pose proof (lit_len_spec l). destruct l as [|b l]; [done|]. cbn [length] in *. split; [lia|].
  unfold SR_WORST. pose proof (Z.div_mod (Z.of_nat (S (length l))) 8 ltac:(lia)). pose proof (Z.mod_pos_bound (Z.of_nat (S (length l))) 8 ltac:(lia)). lia.
Qed.
Next Obligation. exact lit_compress_decode. Qed.

(** ** The store is kept *)

(** The static initialisers; the pool holds any bytes. *)
Definition swapram_boot (NPROC : nat) (pool : list Z) : swapram :=
  SR pool (Pool 0 0 0 []) false 0 (replicate NPROC (Ent [0; 0; 0] 0 0 [0; 0; 0] false)) true 0 0 SWAPRAM_SMALL 0 false false 0.

Lemma boot_stores `{ES : EncoderSpec} psize NPROC pool : 0 < psize -> lenz pool = psize -> (0 < NPROC)%nat ->
  stores psize NPROC (fun _ => None, []) (swapram_boot NPROC pool).
Proof.
  intros H0 Hl Hn. assert (tab_runs (replicate NPROC (Ent [0; 0; 0] 0 0 [0; 0; 0] false)) = []) as Er by (clear Hn; by induction NPROC).
  split.
  - constructor; cbn [swapram_boot fst snd sr_pool sr_tab sr_ready sr_spools sr_codec_owner]; try done.
    + apply length_replicate.
    + unfold runs. cbn [swapram_boot sr_tab]. by rewrite Er.
    + by intros p e [-> _]%lookup_replicate_1.
  - unfold held. cbn [fst snd length]. assert (filter (fun p : nat => is_Some (@None image)) (seq 0 NPROC) = []) as ->; [|cbn; lia].
    induction (seq 0 NPROC) as [|q l IH]; [done|]. rewrite filter_cons, decide_False; [done|by intros [??]].
Qed.

(** C18. From boot, whatever a client asks within its rights (slots in the
    table, no second image for a slot, spools it holds, accesses inside them,
    and fewer images and spools than processes), the compressed tier answers
    without a panic or a stray access, and its answers are those of a plain
    store: an image or a spool may be refused, but an image that was taken
    comes back byte for byte in its three segments, its u area can be read
    meanwhile, and a spool keeps what was written to it. *)
Theorem swapram_refines_store `{ES : EncoderSpec} psize NPROC pool n client :
  0 < psize <= 65535 -> psize mod 4 = 0 -> (0 < NPROC)%nat -> lenz pool = psize ->
  (forall had A, answers_all true client (fun _ => None, []) had A -> may_ask psize NPROC A (client had)) ->
  exists had s A, serve_all psize NPROC n client [] (swapram_boot NPROC pool) = Ok (had, s) /\ length had = n /\
    answers_all true client (fun _ => None, []) had A.
Proof.
  intros Hp Hm Hn Hl Hask. destruct (serve_all_ok psize NPROC ltac:(done) n client [] _ _ (swapram_boot NPROC pool) (boot_stores psize NPROC pool ltac:(lia) Hl Hn) (all_none _ _ _) Hask)
    as (had&s&A&Er&Hlen&Hans&_). exists had, s, A. split; [done|]. split; [cbn in Hlen; lia|done].
Qed.

Definition im_ex : image := Image [1; 2; 3; 3; 3] [] [9; 8].
(** Swap out until taken, then in again. *)
Definition client_ex (had : list reply) : request :=
  match had with RepTook true :: _ => ReqIn 1 [[0; 0; 0; 0; 0]; []; [0; 0]] | _ => ReqOut 1 im_ex end.

Lemma client_ex_may had A : answers_all true client_ex (fun _ => None, []) had A -> may_ask 64 4 A (client_ex had).
Proof.
  intros Hrun. assert (snd A = [] /\ (forall q, q <> 1%nat -> fst A q = None) /\
    fst A 1%nat = (match had with RepTook true :: _ => Some im_ex | _ => None end)) as (HS&Hq&H1).
  { induction Hrun as [|had A1 r A2 _ IH Hans]; [done|]. destruct IH as (HS&Hq&H1). unfold client_ex in Hans.
    destruct had as [|[[]| | | | |] had]; inversion Hans; subst; cbn in *; (split; [done|]); (split; [|by rewrite ?H1]);
      intros q Hne; unfold upd; rewrite ?decide_False by done; by apply Hq. }
  assert (held 4 A < 2)%nat as Hh. { unfold held. rewrite HS. cbn [seq]. rewrite !filter_cons. rewrite !(Hq 0%nat), !(Hq 2%nat), !(Hq 3%nat) by done.
    rewrite H1. destruct had as [|[[]| | | | |] had]; vm_compute; lia. }
  assert (image_ok im_ex) as Him. { unfold image_ok, im_ex. cbn [im_data im_stack im_u]. split_and?; try done; repeat constructor; unfold byte; lia. }
  unfold client_ex. destruct had as [|[[]| | | | |] had]; cbn [may_ask]; try (split_and?; try done; lia).
  exists im_ex, [0; 0; 0; 0; 0], [], [0; 0]. by split_and?.
Qed.

Lemma swapram_refines_store_witness : exists had s A, serve_all 64 4 5 client_ex [] (swapram_boot 4 (replicate 64 7)) = Ok (had, s) /\ length had = 5%nat /\
    answers_all true client_ex (fun _ => None, []) had A.
Proof.
  apply (swapram_refines_store 64 4 (replicate 64 7) 5 client_ex); [lia|reflexivity|lia|reflexivity|exact client_ex_may].
Defined.

(** The same run, computed. *)
Example serve_ex : exists s, serve_all 64 4 2 client_ex [] (swapram_boot 4 (replicate 64 7)) = Ok ([RepImage [[1; 2; 3; 3; 3]; []; [9; 8]]; RepTook true], s).
Proof. eexists. vm_compute. reflexivity. Qed.
