(* ===== verification/SwapEvac.v ===== *)
(** * Evacuation and epochs of the compressed tier
    ([sys/arch/rp2040/rp2040/swapram.c], [sys/kern/vm_swp.c])

    The second half of swapram.c: moving every image of the pool to the
    flash swap unit, and the SMALL and LARGE epochs that decide whether the
    pool's bytes hold images or belong to large processes. The unit is a
    function from byte addresses; a block is 1024 bytes. [swapram_service] is
    one step of the swapper: the sleeps of its transfers are not interleaved
    with other processes. [swapram_enter_large] is cut at its sleep. *)
From S2P Require Import Prelude Rmap SwapSpace SwapPool Hsx SwapRam.

Definition DEV_BSIZE : Z := 1024.
Definition btod (x : Z) : Z := Z.shiftr (u32 (x + DEV_BSIZE - 1)) 10.

Abbreviation flash := (Z -> Z).

(** The unit with the bytes [l] from address [a] on. *)
Definition flash_write (f : flash) (a : Z) (l : list Z) : flash :=
  fun x => if decide (a <= x < a + lenz l) then nth (Z.to_nat (x - a)) l 0 else f x.

(** Everything the swapper moves. *)
Record world := World {
  w_sr : swapram;
  w_proc : list vproc;
  w_map : map;
  w_next : Z;                    (* swapnext *)
  w_cursor : Z;                  (* the word published *)
  w_flash : flash
}.
Definition with_sr (w : world) (s : swapram) : world := World s (w_proc w) (w_map w) (w_next w) (w_cursor w) (w_flash w).
Definition with_proc (w : world) (l : list vproc) : world := World (w_sr w) l (w_map w) (w_next w) (w_cursor w) (w_flash w).

Definition set_large (p : vproc) (b : bool) : vproc := Vproc (v_load p) b (p_daddr p) (p_saddr p) (p_addr p).
Definition set_addrs (p : vproc) (d s a : Z) : vproc := Vproc (v_load p) (v_large p) d s a.

(** ** Evacuation *)

Section Evacuate.
(** The blocks whose transfer fails, the size of the unit, and the bytes the
    codec workspace holds when a segment of a slot is expanded. *)
Context (hard_err : Z -> bool) (nswap : Z) (codec_win : nat -> nat -> list Z) (NPROC : nat).

(** A write through a busy buffer header. *)
Definition swap_with_buf (blk : Z) (l : list Z) (f : flash) : outcome flash :=
  if bool_decide (l = []) then Ok f
  else if hard_err blk then Panic "hard err: swap"
  else Ok (flash_write f (blk * DEV_BSIZE) l).

(** The loop of [sr_expand] without a destination; [buf] is the payload of
    the buffer and [win] the ring of the decoder. Every round that goes on
    gives a byte. *)
Fixpoint flash_loop (fuel : nat) (rlen : Z) (d : hsx_dec) (win buf : list Z) (blk out fill : Z) (f : flash) : outcome (list Z * Z * flash) :=
  match fuel with
  | O => Fault
  | S fuel' =>
      if out <? rlen then
        let ring := Z.land out (HSXD_WINDOW - 1) in
        let room := rlen - out in
        let room := if DEV_BSIZE - fill <? room then DEV_BSIZE - fill else room in
        let room := if HSXD_WINDOW - ring <? room then HSXD_WINDOW - ring else room in
        r ← hsx_dec_run d win (HSXD_WINDOW - 1) room;
        let '(d, win, n) := r in
        piece ← mem_read win ring n;
        buf ← mem_write buf fill piece;
        let out := out + n in
        let fill := fill + n in
        b ← (if (fill =? DEV_BSIZE) || (out =? rlen) then
               f ← swap_with_buf blk (take (Z.to_nat fill) buf) f;
               Ok (f, blk + btod fill, 0)
             else Ok (f, blk, fill));
        let '(f, blk, fill) := b in
        if n <? room then Ok (buf, out, f) else flash_loop fuel' rlen d win buf blk out fill f
      else Ok (buf, out, f)
  end.

Definition sr_expand_flash (off clen rlen blk : Z) (win buf : list Z) (s : swapram) (f : flash) : outcome (list Z * Z * swapram * flash) :=
  s ← swapram_codec_acquire SWAPRAM_CODEC_DECODER s;
  l ← mem_read (sr_pool s) off clen;
  r ← flash_loop (S (Z.to_nat rlen)) rlen (hsx_dec_input (hsx_dec_init (Z.of_nat SR_LOOKAHEAD)) l) win buf blk 0 0 f;
  let '(buf, out, f) := r in
  s ← swapram_codec_release SWAPRAM_CODEC_DECODER s;
  Ok (buf, out, s, f).

Definition sr_flash_span (e : sr_ent) : Z :=
  let blocks := u32 (btod (nthz (e_rlen e) SR_DATA) + btod (nthz (e_rlen e) SR_STACK) + btod (nthz (e_rlen e) SR_U)) in
  Z.land (u32 (blocks + SWAP_IMAGE_ALIGN - 1)) (Z.lnot (SWAP_IMAGE_ALIGN - 1)).

(** Giving the reservations of the slots from [j] on back. *)
Fixpoint unreserve (n j : nat) (tab : list sr_ent) (procs : list vproc) (mp : map) : outcome (list vproc * map) :=
  match n with
  | O => Ok (procs, mp)
  | S n' =>
      e ← rd tab j;
      if negb (e_live e) then unreserve n' (S j) tab procs mp
      else
        p ← rd procs j;
        r ← mfree 16 mp (sr_flash_span e) (p_daddr p);
        procs ← wr procs j (set_addrs p 0 0 0);
        unreserve n' (S j) tab procs (fst r)
  end.

(** Reserving flash for the images of the slots from [i] on: whether all got
    theirs, the number of images and the cursor. *)
Fixpoint reserve (n i : nat) (tab : list sr_ent) (images next : Z) (procs : list vproc) (mp : map) : outcome (bool * Z * Z * list vproc * map) :=
  match n with
  | O => Ok (true, images, next, procs, mp)
  | S n' =>
      e ← rd tab i;
      if negb (e_live e) then reserve n' (S i) tab images next procs mp
      else
        p ← rd procs i;
        if v_load p then Panic "swapram: evacuate loaded"
        else if negb (p_daddr p =? 0) || negb (p_saddr p =? 0) || negb (p_addr p =? 0) then Panic "swapram: flash blocks already assigned"
        else
          r ← malloc3_contiguous_next 16 mp (btod (nthz (e_rlen e) SR_DATA)) (btod (nthz (e_rlen e) SR_STACK)) (btod (nthz (e_rlen e) SR_U))
                SWAP_IMAGE_ALIGN (Some next) (0, 0, 0);
          let '(span, mp, next', (d, s, a)) := r in
          if span =? 0 then
            b ← unreserve i 0 tab procs mp;
            Ok (false, images + 1, next, fst b, snd b)
          else
            procs ← wr procs i (set_addrs p d s a);
            reserve n' (S i) tab (images + 1) (default next next') procs mp
  end.

(** The segments of one image. *)
Fixpoint expand_to_flash (segs : list nat) (i : nat) (e : sr_ent) (p : vproc) (off : Z) (buf : list Z) (s : swapram) (f : flash) : outcome (list Z * swapram * flash) :=
  match segs with
  | [] => Ok (buf, s, f)
  | seg :: segs' =>
      if nthz (e_rlen e) seg =? 0 then expand_to_flash segs' i e p off buf s f
      else
        let blk := if Nat.eqb seg SR_DATA then p_daddr p else if Nat.eqb seg SR_STACK then p_saddr p else p_addr p in
        r ← sr_expand_flash off (nthz (e_clen e) seg) (nthz (e_rlen e) seg) blk (codec_win i seg) buf s f;
        let '(buf, n, s, f) := r in
        if negb (n =? nthz (e_rlen e) seg) then Panic "swapram: evacuate expand"
        else expand_to_flash segs' i e p (off + nthz (e_clen e) seg) buf s f
  end.

(** The images of the slots from [i] on. *)
Fixpoint move (n i : nat) (procs : list vproc) (buf : list Z) (s : swapram) (f : flash) : outcome (list Z * swapram * flash) :=
  match n with
  | O => Ok (buf, s, f)
  | S n' =>
      e ← rd (sr_tab s) i;
      if negb (e_live e) then move n' (S i) procs buf s f
      else
        p ← rd procs i;
        r ← expand_to_flash [SR_DATA; SR_STACK; SR_U] i e p (e_off e) buf s f;
        let '(buf, s, f) := r in
        b ← swapram_pool_free (sr_map s) (e_off e) (e_res e);
        if fst b : bool then
          t ← wr (sr_tab s) i (Ent (e_rlen e) (e_off e) 0 (e_clen e) false);
          move n' (S i) procs buf (set_tab (set_map s (snd b)) t) f
        else Panic "swapram: evacuate free"
  end.

(** Whether the images moved, given the payload of the buffer claimed. *)
Definition swapram_evacuate (buf : list Z) (w : world) : outcome (bool * world) :=
  r ← reserve NPROC 0 (sr_tab (w_sr w)) 0 (w_next w) (w_proc w) (w_map w);
  let '(ok, images, next, procs, mp) := r in
  if negb ok then Ok (false, World (w_sr w) procs mp (w_next w) (w_cursor w) (w_flash w))
  else if images =? 0 then Ok (true, World (w_sr w) procs mp (w_next w) (w_cursor w) (w_flash w))
  else
    m ← move NPROC 0 procs buf (w_sr w) (w_flash w);
    let '(_, s, f) := m in
    Ok (true, World s procs mp next (swap_cursor_publish nswap next) f).

(** ** Epochs *)

(** The request of the sysctl. *)
Definition service_evac (buf : list Z) (w : world) : outcome world :=
  if swapram_evac (w_sr w) =? SWAPRAM_EVAC_PENDING then
    r ← swapram_evacuate buf (with_sr w (swapram_admit (w_sr w) false));
    let s := set_evac (w_sr (snd r)) (if fst r : bool then SWAPRAM_EVAC_DONE else SWAPRAM_EVAC_NOFLASH) in
    Ok (with_sr (snd r) (swapram_admit s (swapram_epoch s =? SWAPRAM_SMALL)))
  else Ok w.

(** The request for LARGE, and whether the sleepers were woken. *)
Definition service_large (buf : list Z) (w : world) : outcome (world * bool) :=
  let s := w_sr w in
  if sr_large_want s && (negb (swapram_epoch s =? SWAPRAM_SMALL) || (sr_spools s =? 0)) then
    let w := with_sr w (set_large_want s false) in
    w ← (if swapram_epoch s =? SWAPRAM_SMALL then
           r ← swapram_evacuate buf (with_sr w (swapram_admit (w_sr w) false));
           let s := w_sr (snd r) in
           Ok (with_sr (snd r) (if fst r : bool then set_epoch s SWAPRAM_LARGE else swapram_admit s true))
         else Ok w);
    Ok (with_sr w (bump_seq (w_sr w)), true)
  else if sr_large_want s then Ok (with_sr w (swapram_admit s false), false)
  else Ok (w, false).

(** The request for SMALL. *)
Definition service_small (w : world) (woken : bool) : world * bool :=
  let s := w_sr w in
  if sr_small_want s then
    let s := set_small_want s false in
    let s := if (swapram_epoch s =? SWAPRAM_LARGE) && (sr_nlarge s =? 0) then swapram_admit (set_epoch s SWAPRAM_SMALL) true else s in
    (with_sr w s, true)
  else (w, woken).

(** The state, and whether the sleepers on [swapram_epoch] were woken. *)
Definition swapram_service (buf : list Z) (w : world) : outcome (world * bool) :=
  w ← service_evac buf w;
  r ← service_large buf w;
  Ok (service_small (fst r) (snd r)).

End Evacuate.

Definition swapram_nlarge (s : swapram) : Z := sr_nlarge s.

(** The window of a process of size [maxmem], with the pool's bytes when it
    is large, and the top of the window. *)
Definition swapram_ceiling (maxmem psize : Z) (p : vproc) : Z := u32 (maxmem + if v_large p then psize else 0).
Definition user_top (user_data_end psize : Z) (p : vproc) : Z := u32 (user_data_end + if v_large p then psize else 0).

Definition swapram_init (pool_addr user_data_end : Z) : outcome unit :=
  if negb (pool_addr =? user_data_end) then Panic "swapram: pool is not at the window end" else Ok ().

(** A process in [swapram_enter_large] returns, or sleeps with the sequence
    number it read. *)
Inductive entering := Entered (errno : Z) | Asleep (seq : Z).

(** One round of the loop up to the sleep. *)
Definition enter_round (p : nat) (w : world) : outcome (entering * world) :=
  let s := w_sr w in
  if swapram_epoch s =? SWAPRAM_LARGE then
    v ← rd (w_proc w) p;
    procs ← wr (w_proc w) p (set_large v true);
    Ok (Entered 0, with_sr (with_proc w procs) (set_nlarge s (sr_nlarge s + 1)))
  else Ok (Asleep (sr_large_seq s), with_sr w (set_large_want s true)).

Definition swapram_enter_large (p : nat) (w : world) : outcome (entering * world) :=
  v ← rd (w_proc w) p;
  if v_large v then Ok (Entered 0, w) else enter_round p w.

(** From the return of [sleep]. *)
Definition enter_woken (p : nat) (seq : Z) (w : world) : outcome (entering * world) :=
  let s := w_sr w in
  if (swapram_epoch s =? SWAPRAM_SMALL) && negb (seq =? sr_large_seq s) then Ok (Entered SR_ENOMEM, w)
  else enter_round p w.

(** The state, and whether the swapper is poked. *)
Definition swapram_leave_large (p : nat) (w : world) : outcome (world * bool) :=
  v ← rd (w_proc w) p;
  if negb (v_large v) then Ok (w, false)
  else
    procs ← wr (w_proc w) p (set_large v false);
    let s := set_nlarge (w_sr w) (sr_nlarge (w_sr w) - 1) in
    if sr_nlarge s =? 0 then Ok (with_sr (with_proc w procs) (set_small_want s true), true)
    else Ok (with_sr (with_proc w procs) s, false).

Definition swapram_inherit (child parent : nat) (w : world) : outcome world :=
  v ← rd (w_proc w) parent;
  if v_large v then
    c ← rd (w_proc w) child;
    procs ← wr (w_proc w) child (set_large c true);
    Ok (with_sr (with_proc w procs) (set_nlarge (w_sr w) (sr_nlarge (w_sr w) + 1)))
  else Ok w.

Definition swapram_set_epoch (e : Z) (w : world) : world :=
  with_sr w (if e =? SWAPRAM_LARGE then set_large_want (w_sr w) true else set_small_want (w_sr w) true).

(** ** Events *)

(** What happens to the tier: a request of the swap or exec code (with the
    core addresses a swapin chose), the swapper's turn, the calls on behalf
    of processes, and the operator's requests. *)
Inductive event :=
  | EvRequest (q : request) (core : Z * Z * Z)
  | EvService (buf : list Z)
  | EvEnter (p : nat)
  | EvWoken (p : nat) (seq : Z)
  | EvLeave (p : nat)
  | EvInherit (child parent : nat)
  | EvSetEpoch (e : Z)
  | EvPost.

Section Events.
Context `{E : Encoder}.
Context (hard_err : Z -> bool) (nswap psize : Z) (codec_win : nat -> nat -> list Z) (NPROC : nat).

(** [swapout] and [swapin] keep the flag SLOAD and the three addresses. *)
Definition do_request (q : request) (core : Z * Z * Z) (w : world) : outcome world :=
  r ← serve psize NPROC q (w_sr w);
  let w := with_sr w (snd r) in
  match q, fst r with
  | ReqOut p _, RepTook true => v ← rd (w_proc w) p; l ← wr (w_proc w) p (Vproc false (v_large v) 0 0 0); Ok (with_proc w l)
  | ReqIn p _, RepImage _ =>
      v ← rd (w_proc w) p; l ← wr (w_proc w) p (Vproc true (v_large v) (fst (fst core)) (snd (fst core)) (snd core)); Ok (with_proc w l)
  | _, _ => Ok w
  end.

Definition happens (ev : event) (w : world) : outcome world :=
  match ev with
  | EvRequest q core => do_request q core w
  | EvService buf => r ← swapram_service hard_err nswap codec_win NPROC buf w; Ok (fst r)
  | EvEnter p => r ← swapram_enter_large p w; Ok (snd r)
  | EvWoken p seq => r ← enter_woken p seq w; Ok (snd r)
  | EvLeave p => r ← swapram_leave_large p w; Ok (fst r)
  | EvInherit child parent => swapram_inherit child parent w
  | EvSetEpoch e => Ok (swapram_set_epoch e w)
  | EvPost => Ok (with_sr w (set_evac (w_sr w) SWAPRAM_EVAC_PENDING))
  end.

End Events.

(** ** Writing an expansion to flash *)

Lemma flash_write_app f a l1 l2 x : flash_write (flash_write f a l1) (a + lenz l1) l2 x = flash_write f a (l1 ++ l2) x.
Proof.
  unfold flash_write, lenz. rewrite length_app. repeat case_decide; try lia; try done.
  - rewrite app_nth2 by lia. f_equal. lia.
  - by rewrite app_nth1 by lia.
Qed.

Lemma flash_write_ext f g a l x : f x = g x -> flash_write f a l x = flash_write g a l x.
Proof. unfold flash_write. by case_decide. Qed.

Section Flash.
Context (hard_err : Z -> bool).
Hypothesis Hdev : forall b, hard_err b = false.
Context (l : list Z) (f0 : flash) (blk0 : Z).
Hypothesis Hl : lenz l < 2 ^ 28.

Record flash_inv (o : list Z) (bits : list bool) (nb : nat) (d : hsx_dec) (win buf : list Z) (fill : Z) (f : flash) : Prop := {
  fi_pre : o `prefix_of` l;
  fi_dec : dec_rep SR_LOOKAHEAD d (length o) bits;
  fi_exp : fst (expansion SR_LOOKAHEAD d o bits) = l;
  fi_ring : holds 9 512 win o;
  fi_win : length win = 512%nat;
  fi_buf : length buf = 1024%nat;
  fi_fill : 0 <= fill < DEV_BSIZE /\ lenz o = Z.of_nat nb * DEV_BSIZE + fill;
  fi_end : lenz o = lenz l -> fill = 0;
  fi_tail : take (Z.to_nat fill) buf = drop (nb * 1024) o;
  fi_flash : forall x, f x = flash_write f0 (blk0 * DEV_BSIZE) (take (nb * 1024) o) x
}.

(** One call of the decoder into the ring. *)
Lemma ring_run o bits nb d win buf fill f room : flash_inv o bits nb d win buf fill f -> 0 <= room -> room <= lenz l - lenz o ->
  lenz o mod 512 + room <= 512 ->
  exists d' win' ext bits', hsx_dec_run d win 511 room = Ok (d', win', room) /\ lenz ext = room /\ o ++ ext `prefix_of` l /\
    dec_rep SR_LOOKAHEAD d' (length (o ++ ext)) bits' /\ fst (expansion SR_LOOKAHEAD d' (o ++ ext) bits') = l /\
    holds 9 512 win' (o ++ ext) /\ length win' = 512%nat /\ mem_read win' (lenz o mod 512) room = Ok ext.
Proof.
  intros [] Hr0 Hr1 Hr2. unfold lenz in *. pose proof (Z.mod_pos_bound (Z.of_nat (length o)) 512 ltac:(lia)) as Hmod.
  destruct (hsx_dec_run_spec 9 512 SR_LOOKAHEAD d win o bits room) as (d'&win'&ext&bits'&E&Hrep&Hh&Hlen&He&Hle&Hend);
    try done; change (2 ^ 9) with 512 in *; try lia; change (512 - 1) with 511 in *.
  assert (fst (expansion SR_LOOKAHEAD d' (o ++ ext) bits') = l) as Ex by by rewrite He.
  assert (o ++ ext `prefix_of` l) as Hp by (rewrite <- Ex; apply expansion_prefix).
  assert (Z.of_nat (length ext) = room) as Hn.
  { destruct Hend as [?|(Hc&_&Hn)]; [done|]. rewrite (expansion_stalled _ _ _ _ Hc Hn) in Ex. cbn in Ex. rewrite <- Ex, length_app in Hr1. lia. }
  exists d', win', ext, bits'. split; [by rewrite E, Hn|]. split_and?; try done; [congruence|].
  rewrite mem_read_slice by lia. unfold slice. f_equal. rewrite <- Hn, Nat2Z.id. apply (holds_slice 9 512); try done; try lia.
  change (2 ^ 9) with 512. lia.
Qed.

Lemma flash_loop_spec fuel o bits nb d win buf fill f : flash_inv o bits nb d win buf fill f -> (length l - length o < fuel)%nat ->
  exists buf' f', flash_loop hard_err fuel (lenz l) d win buf (blk0 + Z.of_nat nb) (lenz o) fill f = Ok (buf', lenz l, f') /\
    length buf' = 1024%nat /\ forall x, f' x = flash_write f0 (blk0 * DEV_BSIZE) l x.
Proof.
  revert o bits nb d win buf fill f. induction fuel as [|fuel IH]; intros o bits nb d win buf fill f Hi Hf; [lia|]. pose proof Hi as [].
  pose proof (prefix_length _ _ fi_pre0) as Hpl. destruct fi_fill0 as [Hfill Ho]. unfold DEV_BSIZE in *. cbn [flash_loop]. unfold DEV_BSIZE.
  destruct (Z.ltb_spec (lenz o) (lenz l)) as [Hlt|Hge].
  2:{ assert (o = l) as -> by (apply prefix_length_eq; [done|unfold lenz in *; lia]). rewrite fi_end0 in * by done. exists buf, f. split; [done|]. split; [done|].
      intros x. rewrite fi_flash0, take_ge; [done|unfold lenz in *; lia]. }
  change (HSXD_WINDOW - 1) with (2 ^ 9 - 1). rewrite land_pow2_mod by lia. change (2 ^ 9 - 1) with 511. change (2 ^ 9) with 512. change HSXD_WINDOW with 512.
  pose proof (Z.mod_pos_bound (lenz o) 512 ltac:(lia)) as Hmod.
  set (room0 := if 1024 - fill <? lenz l - lenz o then 1024 - fill else lenz l - lenz o).
  set (room := if 512 - lenz o mod 512 <? room0 then 512 - lenz o mod 512 else room0).
  assert (1 <= room <= lenz l - lenz o /\ room <= 1024 - fill /\ lenz o mod 512 + room <= 512) as (Hr1&Hr2&Hr3).
  { unfold room. assert (1 <= room0 <= lenz l - lenz o /\ room0 <= 1024 - fill) by (unfold room0; case_bool; lia). case_bool; lia. }
  destruct (ring_run o bits nb d win buf fill f room Hi ltac:(lia) ltac:(lia) Hr3) as (d'&win'&ext&bits'&->&Hle&Hpre&Hdec&Hexp&Hh&Hw&Em).
  cbn [mbind outcome_bind]. rewrite Em. cbn [mbind outcome_bind].
  destruct (mem_write_ok buf fill ext) as (buf'&Ew&Lb); [lia|unfold lenz in *; lia|]. rewrite Ew. cbn [mbind outcome_bind]. rewrite Z.ltb_irrefl.
  assert (lenz (o ++ ext) = lenz o + room) as Hoe by (unfold lenz in *; rewrite length_app; lia).
  assert (take (Z.to_nat (fill + room)) buf' = drop (nb * 1024) (o ++ ext)) as Htail.
  { unfold mem_write in Ew. rewrite decide_True in Ew by (unfold lenz in *; lia). injection Ew as <-. rewrite drop_app_le by (unfold lenz in *; lia).
    rewrite <- fi_tail0, (assoc_L (++)). apply take_app_length'. rewrite length_app, length_take. unfold lenz in *. lia. }
  pose proof (prefix_length _ _ Hpre) as Hpl'.
  destruct ((fill + room =? 1024) || (lenz o + room =? lenz l)) eqn:Et.
  2:{ apply orb_false_iff in Et as [?%Z.eqb_neq ?%Z.eqb_neq]. cbn [mbind outcome_bind]. rewrite <- Hoe. apply (IH _ bits'); [|unfold lenz in *; lia].
      constructor; try done; unfold DEV_BSIZE; try lia. intros x. rewrite fi_flash0. f_equal. rewrite take_app_le by (unfold lenz in *; lia). done. }
  unfold swap_with_buf. rewrite Htail, Hdev. rewrite bool_decide_false.
  2:{ intros Hn%(f_equal (@length Z)). rewrite length_drop in Hn. cbn in Hn. unfold lenz in *. lia. }
  cbn [mbind outcome_bind]. unfold DEV_BSIZE.
  assert (forall x, flash_write f ((blk0 + Z.of_nat nb) * 1024) (drop (nb * 1024) (o ++ ext)) x = flash_write f0 (blk0 * 1024) (o ++ ext) x) as Hfl.
  { intros x. rewrite <- (take_drop (nb * 1024) (o ++ ext)) at 2. rewrite <- flash_write_app.
    replace ((blk0 + Z.of_nat nb) * 1024) with (blk0 * 1024 + lenz (take (nb * 1024) (o ++ ext))) by (unfold lenz in *; rewrite length_take; lia).
    apply flash_write_ext. rewrite fi_flash0. f_equal. rewrite take_app_le by (unfold lenz in *; lia). done. }
  rewrite <- Hoe. destruct (decide (lenz (o ++ ext) = lenz l)) as [He|Hne].
  - assert (o ++ ext = l) as El by (apply prefix_length_eq; [done|unfold lenz in *; lia]). rewrite El in *.
    destruct fuel as [|fuel]; [unfold lenz in *; lia|]. cbn [flash_loop]. rewrite Z.ltb_irrefl. eexists _, _. split; [done|]. split; [lia|done].
  - assert (fill + room = 1024) as Hfr by (apply orb_true_iff in Et as [?%Z.eqb_eq|?%Z.eqb_eq]; lia). rewrite Hfr. change (btod 1024) with 1.
    replace (blk0 + Z.of_nat nb + 1) with (blk0 + Z.of_nat (S nb)) by lia. apply (IH _ bits'); [|unfold lenz in *; lia].
    assert (length (o ++ ext) = S nb * 1024)%nat as HS by (unfold lenz in *; lia).
    constructor; try done; unfold DEV_BSIZE; try lia; [change (Z.to_nat 0) with 0%nat; rewrite take_0, drop_ge by lia; done|].
    intros x. rewrite Hfl. by rewrite take_ge by lia.
Qed.
End Flash.

Lemma btod_spec x : 0 <= x < 2 ^ 28 -> x <= btod x * 1024 < x + 1024 /\ 0 <= btod x < 2 ^ 19.
Proof.
  intros Hx. unfold btod, DEV_BSIZE. rewrite trunc_small, Z.shiftr_div_pow2 by lia. change (2 ^ 10) with 1024.
  pose proof (Z.div_mod (x + 1024 - 1) 1024 ltac:(lia)). pose proof (Z.mod_pos_bound (x + 1024 - 1) 1024 ltac:(lia)). lia.
Qed.

(** The bytes [l] are on the unit from block [blk] on. *)
Definition on_flash (f : flash) (blk : Z) (l : list Z) : Prop := forall i : nat, (i < length l)%nat -> f (blk * DEV_BSIZE + Z.of_nat i) = nth i l 0.

Lemma on_flash_write f blk l : on_flash (flash_write f (blk * DEV_BSIZE) l) blk l.
Proof. intros i Hi. unfold flash_write, lenz. rewrite decide_True by lia. f_equal. lia. Qed.

Lemma on_flash_keep f f' blk l : on_flash f blk l -> (forall x, blk * DEV_BSIZE <= x < blk * DEV_BSIZE + lenz l -> f' x = f x) -> on_flash f' blk l.
Proof. intros H Hk i Hi. rewrite Hk by (unfold lenz; lia). by apply H. Qed.

(** An image at the addresses of a process. *)
Definition image_at (f : flash) (v : vproc) (im : image) : Prop :=
  on_flash f (p_daddr v) (im_data im) /\ on_flash f (p_saddr v) (im_stack im) /\ on_flash f (p_addr v) (im_u im).

Definition blocks_of (im : image) : Z := btod (lenz (im_data im)) + btod (lenz (im_stack im)) + btod (lenz (im_u im)).
Definition span_of (im : image) : Z := round_up 2 (blocks_of im).

(** The three segments follow each other. *)
Definition laid (v : vproc) (im : image) : Prop :=
  p_saddr v = p_daddr v + btod (lenz (im_data im)) /\ p_addr v = p_saddr v + btod (lenz (im_stack im)).

Lemma blocks_spec im : image_ok im -> run_total 2 (btod (lenz (im_data im))) (btod (lenz (im_stack im))) (btod (lenz (im_u im))) /\
  blocks_of im <= span_of im < blocks_of im + 4 /\ 0 < blocks_of im < 2 ^ 21 /\ span_of im mod 4 = 0.
Proof.
  intros (_&_&_&Hu&H1&H2&H3). unfold span_of, blocks_of. destruct (btod_spec (lenz (im_data im))) as [? ?]; [unfold lenz in *; lia|].
  destruct (btod_spec (lenz (im_stack im))) as [? ?]; [unfold lenz in *; lia|]. destruct (btod_spec (lenz (im_u im))) as [? ?]; [unfold lenz in *; lia|].
  assert (0 < lenz (im_u im)) by (destruct (im_u im); [done|unfold lenz; cbn; lia]).
  pose proof (round_up_spec 2 ltac:(lia) (blocks_of im)) as Hr. unfold blocks_of in Hr. change (2 ^ 2) with 4 in Hr.
  destruct Hr as [Hr Hr4]; [lia..|]. split; [unfold run_total; change (2 ^ 2) with 4; lia|]. split; [lia|]. split; [lia|done].
Qed.

Section Moves.
Context `{ES : EncoderSpec}.
Context (hard_err : Z -> bool) (codec_win : nat -> nat -> list Z) (psize : Z) (NPROC : nat).
Hypothesis Hdev : forall b, hard_err b = false.
Hypothesis Hwin : forall i seg, length (codec_win i seg) = 512%nat.
Hypothesis Hpsize : 0 < psize <= 65535 /\ psize mod 4 = 0.

Lemma sr_expand_flash_spec s f off clen blk win buf l : sr_codec_owner s = 0 -> 0 <= off -> 0 <= clen -> off + clen <= lenz (sr_pool s) ->
  slice (sr_pool s) off clen = compress l -> Forall byte l -> lenz l < 2 ^ 28 -> length win = 512%nat -> length buf = 1024%nat ->
  exists buf' f', sr_expand_flash hard_err off clen (lenz l) blk win buf s f = Ok (buf', lenz l, s, f') /\ length buf' = 1024%nat /\
    forall x, f' x = flash_write f (blk * DEV_BSIZE) l x.
Proof.
  intros Ho H0 H1 H2 Hs Hb Hl Hw Hbuf. unfold sr_expand_flash, swapram_codec_acquire, swapram_codec_release. rewrite Ho.
  cbn [SWAPRAM_CODEC_DECODER Z.eqb negb orb mbind outcome_bind set_owner sr_pool]. rewrite mem_read_slice by done. cbn [mbind outcome_bind]. rewrite Hs.
  destruct (flash_loop_spec hard_err Hdev l f blk Hl (S (Z.to_nat (lenz l))) [] (bits_of (compress l)) 0
    (hsx_dec_input (hsx_dec_init (Z.of_nat SR_LOOKAHEAD)) (compress l)) win buf 0 f) as (buf'&f'&Er&Lb&Hf); [|unfold lenz; cbn [length]; lia|].
  - constructor; try done; [apply prefix_nil| | | |intros x..]; try done.
    + constructor; cbn; try done; [by apply compress_bytes|]. exists []. split; [|done]. split; [lia|]. split; [cbn; lia|]. intros i Hi. rewrite Z.bits_0. by destruct i.
    + exact (compress_decode l Hb).
    + intros k Hk. cbn in Hk. lia.
    + unfold flash_write, lenz. rewrite take_nil. cbn [length]. by rewrite decide_False by lia.
  - rewrite Z.add_0_r in Er. change (lenz []) with 0 in Er. rewrite Er. cbn [mbind outcome_bind]. cbn [Z.eqb negb orb SWAPRAM_CODEC_DECODER set_owner sr_codec_owner].
    exists buf', f'. split; [by destruct s; cbn in Ho |- *; subst|]. done.
Qed.

Lemma seg_to_flash seg segs i e p off buf s f l blk : blk = (if Nat.eqb seg SR_DATA then p_daddr p else if Nat.eqb seg SR_STACK then p_saddr p else p_addr p) ->
  nthz (e_rlen e) seg = lenz l -> nthz (e_clen e) seg = lenz (comp l) -> sr_codec_owner s = 0 -> 0 <= off -> off + lenz (comp l) <= lenz (sr_pool s) ->
  slice (sr_pool s) off (lenz (comp l)) = comp l -> Forall byte l -> lenz l < 2 ^ 28 -> length buf = 1024%nat ->
  exists buf' f', expand_to_flash hard_err codec_win (seg :: segs) i e p off buf s f =
      expand_to_flash hard_err codec_win segs i e p (off + lenz (comp l)) buf' s f' /\ length buf' = 1024%nat /\
    forall x, f' x = flash_write f (blk * DEV_BSIZE) l x.
Proof.
  intros -> Hr Hc Ho H0 H1 Hs Hb Hl Hbuf. cbn [expand_to_flash]. rewrite Hr, Hc. destruct (decide (l = [])) as [->|Hn].
  - exists buf, f. unfold comp. rewrite decide_True by done. rewrite Z.add_0_r. split; [done|]. split; [done|].
    intros x. unfold flash_write, lenz. cbn [length]. by rewrite decide_False by lia.
  - rewrite (proj2 (Z.eqb_neq (lenz l) 0)) by (destruct l; [done|unfold lenz; cbn; lia]).
    destruct (sr_expand_flash_spec s f off (lenz (comp l)) (if Nat.eqb seg SR_DATA then p_daddr p else if Nat.eqb seg SR_STACK then p_saddr p else p_addr p)
      (codec_win i seg) buf l) as (buf'&f'&E1&Lb&Hf); try done; [unfold lenz; lia|rewrite Hs; by apply compress_comp|].
    rewrite E1. cbn [mbind outcome_bind]. rewrite Z.eqb_refl. cbn [negb]. by exists buf', f'.
Qed.

(** The three segments of an image. *)
Lemma image_to_flash G SP q e im s f p buf : tier_inv psize NPROC G SP s -> G q = Some im -> sr_tab s !! q = Some e -> laid p im -> length buf = 1024%nat ->
  exists buf' f', expand_to_flash hard_err codec_win [SR_DATA; SR_STACK; SR_U] q e p (e_off e) buf s f = Ok (buf', s, f') /\ length buf' = 1024%nat /\
    image_at f' p im /\ forall x, ~ p_daddr p * DEV_BSIZE <= x < (p_daddr p + span_of im) * DEV_BSIZE -> f' x = f x.
Proof.
  intros Hti HG He [Ls La] Hbuf. destruct (ent_bounds _ _ _ _ _ _ _ _ Hti HG He) as (Hok&_&Hoff&Hend&_).
  destruct (segment_slices _ _ _ Hok Hoff) as (S1&S2&S3). pose proof (length_packed im) as Hlp. destruct Hok as [_ Him Hrl Hcl _ _].
  pose proof (ti_owner _ _ _ _ _ Hti) as Ho. pose proof (ti_pool _ _ _ _ _ Hti) as Hpl.
  destruct (blocks_spec im Him) as (_&Hsp&_). unfold blocks_of in Hsp. destruct Him as (B1&B2&B3&Hu&N1&N2&N3).
  destruct (btod_spec (lenz (im_data im))) as [D1 D1']; [unfold lenz in *; lia|]. destruct (btod_spec (lenz (im_stack im))) as [D2 D2']; [unfold lenz in *; lia|].
  destruct (btod_spec (lenz (im_u im))) as [D3 D3']; [unfold lenz in *; lia|].
  assert (forall l, 0 <= lenz (comp l)) as Hc0 by (intros; unfold lenz; lia). pose proof (Hc0 (im_data im)). pose proof (Hc0 (im_stack im)). pose proof (Hc0 (im_u im)).
  destruct (seg_to_flash SR_DATA [SR_STACK; SR_U] q e p (e_off e) buf s f (im_data im) (p_daddr p)) as (b1&f1&->&L1&F1);
    try done; try (unfold nthz; by rewrite ?Hrl, ?Hcl); try lia.
  destruct (seg_to_flash SR_STACK [SR_U] q e p (e_off e + lenz (comp (im_data im))) b1 s f1 (im_stack im) (p_saddr p)) as (b2&f2&->&L2&F2);
    try done; try (unfold nthz; by rewrite ?Hrl, ?Hcl); try lia.
  destruct (seg_to_flash SR_U [] q e p (e_off e + lenz (comp (im_data im)) + lenz (comp (im_stack im))) b2 s f2 (im_u im) (p_addr p)) as (b3&f3&->&L3&F3);
    try done; try (unfold nthz; by rewrite ?Hrl, ?Hcl); try lia.
  exists b3, f3. split; [done|]. split; [done|]. unfold DEV_BSIZE in *.
  assert (forall x, ~ (p_addr p * 1024 <= x < p_addr p * 1024 + lenz (im_u im)) -> f3 x = f2 x) as K3 by (intros x Hx; rewrite F3; unfold flash_write; by rewrite decide_False).
  assert (forall x, ~ (p_saddr p * 1024 <= x < p_saddr p * 1024 + lenz (im_stack im)) -> f2 x = f1 x) as K2 by (intros x Hx; rewrite F2; unfold flash_write; by rewrite decide_False).
  assert (forall x, ~ (p_daddr p * 1024 <= x < p_daddr p * 1024 + lenz (im_data im)) -> f1 x = f x) as K1 by (intros x Hx; rewrite F1; unfold flash_write; by rewrite decide_False).
  split; [split; [|split]|].
  - apply (on_flash_keep f1); [|intros x Hx; unfold DEV_BSIZE in Hx; rewrite K3, K2 by lia; done]. apply (on_flash_keep _ _ _ _ (on_flash_write f (p_daddr p) (im_data im))). intros x _. apply F1.
  - apply (on_flash_keep f2); [|intros x Hx; unfold DEV_BSIZE in Hx; rewrite K3 by lia; done]. apply (on_flash_keep _ _ _ _ (on_flash_write f1 (p_saddr p) (im_stack im))). intros x _. apply F2.
  - apply (on_flash_keep _ _ _ _ (on_flash_write f2 (p_addr p) (im_u im))). intros x _. apply F3.
  - intros x Hx. rewrite K3, K2, K1 by lia. done.
Qed.

(** Taking an image out of the pool once it has been expanded. *)
Lemma drop_image G SP q e im s : tier_inv psize NPROC G SP s -> G q = Some im -> sr_tab s !! q = Some e -> (length (runs s SP) < NPROC)%nat ->
  exists mp, swapram_pool_free (sr_map s) (e_off e) (e_res e) = Ok (true, mp) /\
    tier_inv psize NPROC (upd G q None) SP (set_tab (set_map s mp) (<[q:=Ent (e_rlen e) (e_off e) 0 (e_clen e) false]> (sr_tab s))).
Proof.
  intros Hti HG He Hc. destruct (ent_bounds _ _ _ _ _ _ _ _ Hti HG He) as (Hok&Hr&Hoff&Hend&segs&Hpart).
  pose proof (eo_live _ _ _ Hok) as Hlive. set (e' := Ent _ _ _ _ _). set (t := <[q:=e']> (sr_tab s)).
  assert (runs s SP ≡ₚ ent_run e :: runs (set_tab s t) SP) as Hperm.
  { unfold runs. cbn [set_tab sr_tab]. by rewrite (tab_runs_live _ q e He Hlive e' eq_refl). }
  assert (length (runs s SP) = S (length (runs (set_tab s t) SP))) as Hlen by (by rewrite Hperm).
  assert (0 < e_res e < 2 ^ 32 - 4) as Hres.
  { rewrite (eo_res _ _ _ Hok). pose proof (length_packed im) as Hp. destruct (eo_img _ _ _ Hok) as (_&_&_&Hu&N1&N2&N3).
    apply comp_small in N1, N2, N3. destruct (comp_len _ Hu) as [Hu' _]. unfold lenz in *. lia. }
  destruct (part_free psize (NPROC + 1) (sr_map s) (e_off e) (e_res e) (runs (set_tab s t) SP) segs) as (mp&segs'&Ef&Hpart'); [by eapply part_perm|lia|lia|].
  exists mp. split; [done|]. destruct Hti. constructor; cbn [set_tab set_map sr_pool sr_tab sr_ready sr_map sr_codec_owner sr_spools]; try done.
  - unfold t. by rewrite length_insert.
  - rewrite Hr. by exists segs'.
  - intros q' eq Hq. unfold upd, t in *. destruct (decide (q' = q)) as [->|Hne].
    + rewrite list_lookup_insert_eq in Hq by (by eapply lookup_lt_Some). by injection Hq as <-.
    + rewrite list_lookup_insert_ne in Hq by done. by apply ti_ent.
  - intros q'. unfold upd. case_decide; [by intros [??]|apply ti_dom].
Qed.

(** The addresses of the images yet to be moved. *)
Definition assigned (G : nat -> option image) (procs : list vproc) : Prop :=
  (forall q im, G q = Some im -> exists v, procs !! q = Some v /\ laid v im) /\
  (forall q q' im im' v v', G q = Some im -> G q' = Some im' -> procs !! q = Some v -> procs !! q' = Some v' -> q <> q' ->
     runs_apart (p_daddr v, span_of im) (p_daddr v', span_of im')).

Lemma assigned_upd G procs q : assigned G procs -> assigned (upd G q None) procs.
Proof.
  intros [H1 H2]. split.
  - intros p im. unfold upd. case_decide; [done|]. apply H1.
  - intros p p' im im' v v'. unfold upd. do 2 (case_decide; [done|]). apply H2.
Qed.

(** A byte of the unit lies in the blocks of an image. *)
Definition of_image (v : vproc) (im : image) (x : Z) : Prop := p_daddr v * DEV_BSIZE <= x < (p_daddr v + span_of im) * DEV_BSIZE.

Lemma of_image_run v im x : of_image v im x -> in_run (x / DEV_BSIZE) (p_daddr v, span_of im).
Proof.
  unfold of_image, in_run, DEV_BSIZE. cbn. intros Hx. pose proof (Z.div_mod x 1024 ltac:(lia)). pose proof (Z.mod_pos_bound x 1024 ltac:(lia)). lia.
Qed.

Lemma image_keep f f' v im : image_ok im -> laid v im -> image_at f v im -> (forall x, of_image v im x -> f' x = f x) -> image_at f' v im.
Proof.
  intros Him [Ls La] (H1&H2&H3) Hk. destruct (blocks_spec im Him) as (_&Hsp&_). unfold blocks_of in Hsp. destruct Him as (_&_&_&_&N1&N2&N3).
  destruct (btod_spec (lenz (im_data im))) as [D1 D1']; [unfold lenz in *; lia|]. destruct (btod_spec (lenz (im_stack im))) as [D2 D2']; [unfold lenz in *; lia|].
  destruct (btod_spec (lenz (im_u im))) as [D3 D3']; [unfold lenz in *; lia|].
  split; [|split]; (eapply on_flash_keep; [eassumption|]); intros x Hx; apply Hk; unfold of_image, DEV_BSIZE in *; lia.
Qed.

Lemma move_spec n i procs : (i + n = NPROC)%nat -> forall G SP s f buf, tier_inv psize NPROC G SP s -> (forall q, (q < i)%nat -> G q = None) ->
  (length (runs s SP) < NPROC)%nat -> assigned G procs -> length buf = 1024%nat ->
  exists buf' s' f', move hard_err codec_win n i procs buf s f = Ok (buf', s', f') /\ tier_inv psize NPROC (fun _ => None) SP s' /\ same_ctl s s' /\
    (forall q im v, G q = Some im -> procs !! q = Some v -> image_at f' v im) /\
    (forall x, (forall q im v, G q = Some im -> procs !! q = Some v -> ~ of_image v im x) -> f' x = f x).
Proof.
  revert i. induction n as [|n IH]; intros i Hi G SP s f buf Hti Hpast Hc Has Hbuf; cbn [move].
  - assert (forall q, G q = None) as HG. { intros q. destruct (G q) eqn:Eq; [|done]. pose proof (ti_dom _ _ _ _ _ Hti q ltac:(by rewrite Eq)).
      rewrite Hpast in Eq by lia. done. }
    exists buf, s, f. split; [done|]. split; [|split; [by repeat split|split; [intros q im v Eq; by rewrite HG in Eq|done]]].
    destruct Hti. constructor; try done. intros p e Hp. specialize (ti_ent p e Hp). by rewrite HG in ti_ent.
  - destruct (proj2 (lookup_lt_is_Some (sr_tab s) i)) as [e He]; [rewrite (ti_tab _ _ _ _ _ Hti); lia|]. rewrite (rd_ok _ _ _ He). cbn [mbind outcome_bind].
    pose proof (ti_ent _ _ _ _ _ Hti i e He) as Hent. destruct (G i) as [im|] eqn:HG.
    2:{ rewrite Hent. cbn [negb]. apply IH; try done; [lia|]. intros q Hq. destruct (decide (q = i)) as [->|]; [done|apply Hpast; lia]. }
    rewrite (eo_live _ _ _ Hent). cbn [negb]. destruct (proj1 Has i im HG) as (v&Hv&Hlaid). rewrite (rd_ok _ _ _ Hv). cbn [mbind outcome_bind].
    destruct (image_to_flash G SP i e im s f v buf Hti HG He Hlaid Hbuf) as (b1&f1&->&Lb1&Hat&Hk1). cbn [mbind outcome_bind].
    destruct (drop_image G SP i e im s Hti HG He Hc) as (mp&->&Hti1). cbn [mbind outcome_bind fst snd]. rewrite wr_ok by (by eapply lookup_lt_Some). cbn [mbind outcome_bind].
    set (s1 := set_tab _ _) in *.
    assert (length (runs s1 SP) < NPROC)%nat as Hc1.
    { unfold runs, s1. cbn [set_tab set_map sr_tab]. unfold runs in Hc. rewrite (tab_runs_live _ i e He (eo_live _ _ _ Hent) (Ent (e_rlen e) (e_off e) 0 (e_clen e) false) eq_refl) in Hc.
      cbn in Hc. lia. }
    destruct (IH (S i) ltac:(lia) (upd G i None) SP s1 f1 b1 Hti1) as (b2&s2&f2&->&Hti2&Hctl2&Hat2&Hk2); try done.
    { intros q Hq. unfold upd. case_decide; [done|]. apply Hpast. lia. } { by apply assigned_upd. }
    exists b2, s2, f2. split; [done|]. split; [done|]. split; [exact Hctl2|].
    assert (forall q im' v' x, G q = Some im' -> procs !! q = Some v' -> q <> i -> of_image v im x -> ~ of_image v' im' x) as Hap.
    { intros q im' v' x Hq Hv' Hne Hx Hx'. apply (proj2 Has i q im im' v v' HG Hq Hv Hv' ltac:(done) (x / DEV_BSIZE)); by apply of_image_run. }
    split.
    + intros q im' v' Hq Hv'. destruct (decide (q = i)) as [->|Hne].
      * rewrite Hv in Hv'. rewrite HG in Hq. injection Hv' as <-. injection Hq as <-. apply (image_keep f1); [apply (eo_img _ _ _ Hent)|done|done|].
        intros x Hx. apply Hk2. intros q im' v'. unfold upd. case_decide; [done|]. intros Hq Hv'. by apply (Hap q).
      * apply (Hat2 q); [|done]. unfold upd. by rewrite decide_False.
    + intros x Hx. rewrite Hk2, Hk1; [done|exact (Hx i im v HG Hv)|]. intros q im' v'. unfold upd. case_decide; [done|]. apply Hx.
Qed.
End Moves.

(** ** Reserving flash, all or none *)

Lemma swap_inv_perm nswap mp next next' L L' : L ≡ₚ L' -> 0 <= next' < 2 ^ 32 -> swap_inv nswap (Swap mp next L) -> swap_inv nswap (Swap mp next' L').
Proof.
  intros Hp Hn (segs&H1&H2&H3&_&H5&H6&H7&H8&H9). cbn in *. exists segs. cbn. split; [done|]. split; [done|]. split; [done|]. split; [done|].
  split; [by rewrite <- Hp|]. split; [by eapply pairwise_apart_perm|]. split; [by rewrite <- Hp|]. split; intros x; by rewrite <- Hp; auto.
Qed.

Section Reserve.
Context (nswap : Z) (live : list (Z * Z)) (G : nat -> option image) (tab : list sr_ent) (procs0 : list vproc).
Hypothesis Hn : SWAP_IMAGE_ALIGN < nswap < 2 ^ 16.
Hypothesis Htab : forall q e, tab !! q = Some e -> match G q with
  | Some im => e_live e = true /\ image_ok im /\ e_rlen e = [lenz (im_data im); lenz (im_stack im); lenz (im_u im)]
  | None => e_live e = false end.
Hypothesis Hout : forall q im, G q = Some im -> exists v, procs0 !! q = Some v /\ v_load v = false /\ v = set_addrs v 0 0 0.

Definition slot_run (procs : list vproc) (q : nat) : option (Z * Z) :=
  match G q, procs !! q with Some im, Some v => Some (p_daddr v, span_of im) | _, _ => None end.
Definition slot_runs (procs : list vproc) (js : list nat) : list (Z * Z) := omap (slot_run procs) js.

Lemma slot_runs_insert procs j v js : j ∉ js -> slot_runs (<[j:=v]> procs) js = slot_runs procs js.
Proof.
  unfold slot_runs. induction js as [|q js IH]; intros Hj; [done|]. apply not_elem_of_cons in Hj as [Hq Hj]. cbn [omap list_omap]. rewrite IH by done.
  unfold slot_run at 1 3. by rewrite list_lookup_insert_ne.
Qed.

(** The slots from [j] to [i] have addresses; the rest is as it was. *)
Definition mixed (j i : nat) (procs : list vproc) : Prop :=
  forall q, if decide (j <= q < i /\ is_Some (G q))%nat then exists v0 d s a, procs0 !! q = Some v0 /\ procs !! q = Some (set_addrs v0 d s a)
            else procs !! q = procs0 !! q.

Lemma mixed_none j i i' procs : (forall q, (i <= q < i')%nat -> G q = None) -> (i <= i')%nat -> mixed j i procs -> mixed j i' procs.
Proof.
  intros HG Hle Hm q. specialize (Hm q).
  destruct (decide (j <= q < i /\ is_Some (G q))%nat) as [D|D], (decide (j <= q < i' /\ is_Some (G q))%nat) as [D'|D']; try done; exfalso; [apply D'; split; [lia|apply D]|].
  destruct D' as [? [im Eq]]. destruct (decide (q < i)%nat); [apply D; split; [lia|by rewrite Eq]|]. by rewrite HG in Eq by lia.
Qed.

Lemma span_eq q im e : tab !! q = Some e -> G q = Some im -> sr_flash_span e = span_of im.
Proof.
  intros Hq HG. specialize (Htab q e Hq). rewrite HG in Htab. destruct Htab as (_&Him&Hrl). unfold sr_flash_span, span_of, round_up, nthz. rewrite Hrl. cbn [nth SR_DATA SR_STACK SR_U].
  destruct (blocks_spec im Him) as (_&_&Hb&_). unfold blocks_of in *. rewrite (trunc_small 32 (_ + _ + _)) by lia. done.
Qed.

Lemma unreserve_spec n : forall j procs mp next, (j + n <= length tab)%nat -> mixed j (j + n) procs ->
  swap_inv nswap (Swap mp next (slot_runs procs (seq j n) ++ live)) ->
  exists mp', unreserve n j tab procs mp = Ok (procs0, mp') /\ swap_inv nswap (Swap mp' next live).
Proof.
  induction n as [|n IH]; intros j procs mp next Hj Hm Hs; cbn [unreserve].
  - exists mp. split; [|done]. do 2 f_equal. apply list_eq. intros q. specialize (Hm q). by rewrite decide_False in Hm by lia.
  - destruct (proj2 (lookup_lt_is_Some tab j)) as [e He]; [lia|]. rewrite (rd_ok _ _ _ He). cbn [mbind outcome_bind].
    pose proof (Htab j e He) as Ht. rewrite <- Nat.add_succ_comm in Hm, Hj. destruct (G j) as [im|] eqn:HG.
    + destruct Ht as (->&_). cbn [negb]. pose proof (Hm j) as Hmj. rewrite decide_True in Hmj by (rewrite HG; split; [lia|done]).
      destruct Hmj as (v0&d&s&a&Hv0&Hv). rewrite (rd_ok _ _ _ Hv). cbn [mbind outcome_bind]. rewrite (span_eq j im e He HG).
      cbn [seq] in Hs. unfold slot_runs in Hs. cbn [omap list_omap] in Hs. unfold slot_run at 1 in Hs. rewrite HG, Hv in Hs. fold (slot_runs procs (seq (S j) n)) in Hs.
      destruct (swap_free_ok nswap Hn mp next [] _ _ _ Hs) as (mp1&->&Hs1). cbn [mbind outcome_bind fst app] in *.
      rewrite wr_ok by (by eapply lookup_lt_Some). cbn [mbind outcome_bind]. apply IH; [lia| |].
      * intros q. destruct (decide (q = j)) as [->|Hne].
        -- rewrite decide_False by lia. rewrite list_lookup_insert_eq by (by eapply lookup_lt_Some). rewrite Hv0. f_equal.
           destruct (Hout j im HG) as (v&Hv'&_&Hz). rewrite Hv0 in Hv'. injection Hv' as <-. rewrite Hz at 2. done.
        -- rewrite list_lookup_insert_ne by done. specialize (Hm q). 
           destruct (decide (j <= q < S j + n /\ is_Some (G q))%nat) as [D|D], (decide (S j <= q < S j + n /\ is_Some (G q))%nat) as [D'|D']; try done; exfalso;
             [apply D'; split; [lia|apply D]|apply D; split; [lia|apply D']].
      * by rewrite slot_runs_insert by (rewrite elem_of_seq; lia).
    + rewrite Ht. cbn [negb]. apply IH; [lia| |].
      * intros q. specialize (Hm q).
        destruct (decide (j <= q < S j + n /\ is_Some (G q))%nat) as [D|D], (decide (S j <= q < S j + n /\ is_Some (G q))%nat) as [D'|D']; try done; exfalso;
          [|apply D; split; [lia|apply D']].
        destruct D as [? [im Eq]]. destruct (decide (q = j)) as [->|]; [congruence|]. apply D'. split; [lia|by rewrite Eq].
      * cbn [seq] in Hs. unfold slot_runs in Hs. cbn [omap list_omap] in Hs. unfold slot_run at 1 in Hs. by rewrite HG in Hs.
Qed.

(** One reservation. *)
Lemma take_run mp next L d s u : run_total 2 d s u -> (length L < max_live)%nat -> swap_inv nswap (Swap mp next L) ->
  malloc3_contiguous_next 16 mp d s u SWAP_IMAGE_ALIGN (Some next) (0, 0, 0) = Ok (0, mp, Some next, (0, 0, 0)) \/
  exists base mp', malloc3_contiguous_next 16 mp d s u SWAP_IMAGE_ALIGN (Some next) (0, 0, 0) =
      Ok (round_up 2 (d + s + u), mp', Some (base + round_up 2 (d + s + u)), (base, base + d, base + d + s)) /\
    round_up 2 (d + s + u) <> 0 /\ swap_inv nswap (Swap mp' (base + round_up 2 (d + s + u)) ((base, round_up 2 (d + s + u)) :: L)).
Proof.
  intros Hrun Hl Hs. pose proof Hs as (segs&Hrep&_&Hal&Hnx&_). cbn in *.
  destruct (next_returns 16 ltac:(lia) 2 ltac:(lia) mp segs d s u next (0, 0, 0) Hrep Hal Hrun Hnx) as [[Hm _]|(base&mp'&segs'&Hm&_&_&Hsp&_)];
    change (2 ^ 2) with SWAP_IMAGE_ALIGN in Hm; [by left|right].
  exists base, mp'. split; [done|]. assert (round_up 2 (d + s + u) <> 0) as Hz by (destruct Hrun as (_&_&_&?&_); lia). split; [done|].
  destruct (swap_alloc_ok nswap Hn mp next L d s u (0, 0, 0) _ _ _ _ Hs Hrun Hm) as [_ Ha]. by apply Ha.
Qed.

Lemma slot_runs_snoc procs i : slot_runs procs (seq 0 (S i)) = slot_runs procs (seq 0 i) ++ slot_runs procs [i].
Proof. unfold slot_runs. rewrite seq_S. by rewrite omap_app. Qed.

Definition all_laid (i : nat) (procs : list vproc) : Prop := forall q im v, (q < i)%nat -> G q = Some im -> procs !! q = Some v -> laid v im.

Lemma reserve_spec n : forall i next procs mp, (i + n = length tab)%nat -> mixed 0 i procs -> all_laid i procs ->
  swap_inv nswap (Swap mp next (slot_runs procs (seq 0 i) ++ live)) ->
  (length (slot_runs procs (seq 0 i)) + length (tab_runs (drop i tab)) + length live <= max_live)%nat ->
  (exists images' next' mp', reserve n i tab (lenz (slot_runs procs (seq 0 i))) next procs mp = Ok (false, images', next', procs0, mp') /\
     swap_inv nswap (Swap mp' next live)) \/
  (exists next' procs' mp', reserve n i tab (lenz (slot_runs procs (seq 0 i))) next procs mp =
       Ok (true, lenz (slot_runs procs' (seq 0 (i + n))), next', procs', mp') /\
     mixed 0 (i + n) procs' /\ all_laid (i + n) procs' /\ swap_inv nswap (Swap mp' next' (slot_runs procs' (seq 0 (i + n)) ++ live))).
Proof.
  induction n as [|n IH]; intros i next procs mp Hi Hm Hlaid Hs Hcap; cbn [reserve].
  - right. rewrite Nat.add_0_r. by exists next, procs, mp.
  - destruct (proj2 (lookup_lt_is_Some tab i)) as [e He]; [lia|]. rewrite (rd_ok _ _ _ He). cbn [mbind outcome_bind].
    pose proof (Htab i e He) as Ht. rewrite (drop_S _ _ _ He) in Hcap. unfold tab_runs in Hcap. cbn [omap list_omap] in Hcap. fold (tab_runs (drop (S i) tab)) in Hcap.
    rewrite <- Nat.add_succ_comm in Hi |- *. pose proof (slot_runs_snoc procs i) as Hsn. destruct (G i) as [im|] eqn:HG.
    2:{ rewrite Ht in Hcap |- *. cbn [negb]. assert (slot_runs procs [i] = []) as E0 by (unfold slot_runs, slot_run; cbn; by rewrite HG). rewrite E0, app_nil_r in Hsn.
        rewrite <- Hsn in *. apply IH; try done.
        - apply (mixed_none 0 i); [|lia|done]. intros q Hq. by replace q with i by lia.
        - intros q im v Hq HGq. destruct (decide (q = i)) as [->|]; [congruence|]. apply Hlaid; [lia|done]. }
    destruct Ht as (Hl&Him&Hrl). rewrite Hl in Hcap |- *. cbn [negb length] in Hcap |- *.
    destruct (Hout i im HG) as (v&Hv&Hload&Hz). pose proof (Hm i) as Hmi. rewrite decide_False, Hv in Hmi by lia. rewrite (rd_ok _ _ _ Hmi). cbn [mbind outcome_bind].
    rewrite Hload. assert (p_daddr v = 0 /\ p_saddr v = 0 /\ p_addr v = 0) as (Z1&Z2&Z3) by (rewrite Hz; done). rewrite Z1, Z2, Z3. cbn [Z.eqb negb orb].
    rewrite Hrl. unfold nthz. cbn [nth SR_DATA SR_STACK SR_U]. destruct (blocks_spec im Him) as (Hrun&_).
    destruct (take_run mp next (slot_runs procs (seq 0 i) ++ live) _ _ _ Hrun) as [E1|(base&mp'&E1&Hz0&Hs1)];
      [rewrite length_app; lia|done|..]; fold (blocks_of im) in *; try (fold (span_of im) in *); rewrite E1; cbn [mbind outcome_bind].
    + rewrite Z.eqb_refl. destruct (unreserve_spec i 0 procs mp next ltac:(lia) Hm Hs) as (mp1&->&Hs1). left. cbn [mbind outcome_bind fst snd]. eexists _, _, mp1. done.
    + rewrite (proj2 (Z.eqb_neq _ 0)) by done. rewrite wr_ok by (by eapply lookup_lt_Some). cbn [mbind outcome_bind default]. set (v' := set_addrs v _ _ _).
      set (procs' := <[i:=v']> procs). assert (procs' !! i = Some v') as Hv' by (apply list_lookup_insert_eq; by eapply lookup_lt_Some).
      assert (slot_runs procs' (seq 0 (S i)) = slot_runs procs (seq 0 i) ++ [(base, span_of im)]) as Hsn'.
      { rewrite slot_runs_snoc. unfold procs' at 1. rewrite slot_runs_insert by (rewrite elem_of_seq; lia). f_equal.
        unfold slot_runs, slot_run. cbn. by rewrite HG, Hv'. }
      replace (lenz (slot_runs procs (seq 0 i)) + 1) with (lenz (slot_runs procs' (seq 0 (S i)))) by (unfold lenz; rewrite Hsn', length_app; cbn; lia).
      destruct (IH (S i) (base + span_of im) procs' mp') as [(images'&next'&mp1&Er&Hs2)|Hok]; [lia| | | | |left|by right].
      * intros q. specialize (Hm q). destruct (decide (q = i)) as [->|Hne].
        -- rewrite decide_True by (rewrite HG; split; [lia|done]). exists v, base, (base + btod (lenz (im_data im))), (base + btod (lenz (im_data im)) + btod (lenz (im_stack im))). done.
        -- unfold procs'. rewrite list_lookup_insert_ne by done.
           destruct (decide (0 <= q < i /\ is_Some (G q))%nat) as [D|D], (decide (0 <= q < S i /\ is_Some (G q))%nat) as [D'|D']; try done; exfalso;
             [apply D'; split; [lia|apply D]|apply D; split; [lia|apply D']].
      * intros q im' v1 Hq HGq Hv1. destruct (decide (q = i)) as [->|Hne].
        -- rewrite HG in HGq. injection HGq as <-. rewrite Hv' in Hv1. injection Hv1 as <-. by split.
        -- unfold procs' in Hv1. rewrite list_lookup_insert_ne in Hv1 by done. apply (Hlaid q); [lia|done|done].
      * eapply swap_inv_perm; [|by destruct Hs1 as (?&_&_&_&?&_)|exact Hs1]. rewrite Hsn', <- (assoc_L (++)). cbn [app]. apply Permutation_middle.
      * rewrite Hsn', length_app. cbn [length]. lia.
      * eexists _, _, mp1. split; [exact Er|]. eapply swap_inv_perm; [done| |exact Hs2]. by destruct Hs as (?&_&_&_&?&_).
Qed.
End Reserve.

Lemma pairwise_apart_l A B : pairwise_apart (A ++ B) -> pairwise_apart A.
Proof. induction A as [|r A IH]; cbn; [done|]. intros [Hf Hp]. split; [by apply Forall_app in Hf as [? _]|by apply IH]. Qed.

Lemma elem_of_slot_runs G procs js q im v : q ∈ js -> G q = Some im -> procs !! q = Some v -> (p_daddr v, span_of im) ∈ slot_runs G procs js.
Proof. intros Hq HG Hv. apply list_elem_of_omap. exists q. split; [done|]. unfold slot_run. by rewrite HG, Hv. Qed.

Lemma slot_runs_apart G procs js : pairwise_apart (slot_runs G procs js) -> forall q q' im im' v v', q ∈ js -> q' ∈ js -> q <> q' ->
  G q = Some im -> G q' = Some im' -> procs !! q = Some v -> procs !! q' = Some v' -> runs_apart (p_daddr v, span_of im) (p_daddr v', span_of im').
Proof.
  unfold slot_runs. induction js as [|j js IH]; intros Hp q q' im im' v v' Hq Hq' Hne HG HG' Hv Hv'; [by apply not_elem_of_nil in Hq|].
  cbn [omap list_omap] in Hp. apply elem_of_cons in Hq as [->|Hq], Hq' as [->|Hq']; [done| | |].
  - unfold slot_run at 1 in Hp. rewrite HG, Hv in Hp. destruct Hp as [Hf _]. rewrite Forall_forall in Hf. apply Hf. by apply (elem_of_slot_runs G procs js q').
  - unfold slot_run at 1 in Hp. rewrite HG', Hv' in Hp. destruct Hp as [Hf _]. rewrite Forall_forall in Hf. apply runs_apart_sym, Hf. by apply (elem_of_slot_runs G procs js q).
  - apply (IH ltac:(by destruct (slot_run G procs j); [destruct Hp|]) q q'); done.
Qed.

Section World.
Context `{ES : EncoderSpec}.
Context (hard_err : Z -> bool) (codec_win : nat -> nat -> list Z) (nswap psize : Z) (NPROC : nat).
Hypothesis Hdev : forall b, hard_err b = false.
Hypothesis Hwin : forall i seg, length (codec_win i seg) = 512%nat.
Hypothesis Hpsize : 0 < psize <= 65535 /\ psize mod 4 = 0.
Hypothesis Hnswap : SWAP_IMAGE_ALIGN < nswap < 2 ^ 16.

Definition images (G : nat -> option image) : nat := length (filter (fun p => is_Some (G p)) (seq 0 NPROC)).

(** The tier, the process table and the swap unit. [live] are the runs of
    the unit in use. *)
Record world_inv (G : nat -> option image) (SP : list spool) (live : list (Z * Z)) (w : world) : Prop := {
  wi_tier : tier_inv psize NPROC G SP (w_sr w);
  wi_room : (held NPROC (G, SP) < NPROC)%nat;
  wi_procs : length (w_proc w) = NPROC;
  wi_out : forall q im, G q = Some im -> exists v, w_proc w !! q = Some v /\ v_load v = false /\ v = set_addrs v 0 0 0;
  wi_swap : swap_inv nswap (Swap (w_map w) (w_next w) live);
  wi_cap : (images G + length live <= max_live)%nat
}.

(** The images are on the unit where their processes say, and every other
    process and every run in use are as they were. *)
Definition evacuated (G : nat -> option image) (live : list (Z * Z)) (w w' : world) : Prop :=
  (forall q v, w_proc w !! q = Some v -> exists v', w_proc w' !! q = Some v' /\ v_load v' = v_load v /\ v_large v' = v_large v /\
     match G q with Some im => image_at (w_flash w') v' im | None => v' = v end) /\
  (forall x r, r ∈ live -> in_run (x / DEV_BSIZE) r -> w_flash w' x = w_flash w x).

Lemma no_images G SP s : tier_inv psize NPROC G SP s -> images G = 0%nat -> forall q, G q = None.
Proof.
  intros Hti Hi q. destruct (G q) as [im|] eqn:HG; [|done]. pose proof (ti_dom _ _ _ _ _ Hti q ltac:(by rewrite HG)) as Hq.
  assert (q ∈ filter (fun p => is_Some (G p)) (seq 0 NPROC)) as Hin by (apply list_elem_of_filter; rewrite HG, elem_of_seq; split; [done|lia]).
  unfold images in Hi. apply nil_length_inv in Hi. rewrite Hi in Hin. by apply not_elem_of_nil in Hin.
Qed.

Lemma count_slot_runs G procs : (forall q, is_Some (G q) -> is_Some (procs !! q)) -> length (slot_runs G procs (seq 0 NPROC)) = images G.
Proof.
  intros Hd. unfold slot_runs, images. induction (seq 0 NPROC) as [|q l IH]; [done|]. cbn [omap list_omap]. rewrite filter_cons. unfold slot_run at 1.
  destruct (G q) as [im|] eqn:HG; [|rewrite decide_False by (by intros [??]); exact IH].
  rewrite decide_True by done. destruct (Hd q ltac:(by rewrite HG)) as [v ->]. cbn [length]. by rewrite IH.
Qed.

Lemma images_count G SP s : tier_inv psize NPROC G SP s -> swapram_images s = images G.
Proof.
  intros Hti. unfold images, swapram_images. rewrite <- (ti_tab _ _ _ _ _ Hti). rewrite <- (tab_runs_count psize Hpsize (sr_tab s) G 0).
  - unfold tab_runs. induction (sr_tab s) as [|e t IH]; [done|]. cbn [omap list_omap]. rewrite filter_cons. destruct (e_live e); case_decide; try done. cbn [length]. by rewrite IH.
  - intros i e Hi. cbn [Nat.add]. pose proof (ti_ent _ _ _ _ _ Hti i e Hi) as He. destruct (G i) as [im|]; [split; [by eexists|intros _; apply (eo_live _ _ _ He)]|].
    rewrite He. split; [done|by intros [??]].
Qed.

Lemma images_zero G : (forall q, G q = None) -> images G = 0%nat.
Proof. intros H. unfold images. induction (seq 0 NPROC) as [|q l IH]; [done|]. rewrite filter_cons, decide_False; [done|]. rewrite H. by intros [??]. Qed.

Lemma images_none : images (fun _ => None) = 0%nat.
Proof. by apply images_zero. Qed.

Lemma tier_none G SP s : tier_inv psize NPROC G SP s -> (forall q, G q = None) -> tier_inv psize NPROC (fun _ => None) SP s.
Proof. intros [] HG. constructor; try done. intros p e Hp. specialize (ti_ent p e Hp). by rewrite HG in ti_ent. Qed.

(** What is left to show once every image has a run. *)
Definition reserved (G : nat -> option image) (w : world) (procs : list vproc) : Prop :=
  length procs = NPROC /\
  forall q v, w_proc w !! q = Some v -> exists v', procs !! q = Some v' /\ v_load v' = v_load v /\ v_large v' = v_large v /\ (G q = None -> v' = v).

Lemma mixed_reserved G w procs : length (w_proc w) = NPROC -> mixed G (w_proc w) 0 NPROC procs -> reserved G w procs.
Proof.
  intros Hpl Hmix. split.
  - apply Nat.le_antisymm; apply Nat.nlt_ge; intros Hlt.
    + destruct (proj2 (lookup_lt_is_Some procs NPROC) ltac:(lia)) as [v Hv]. specialize (Hmix NPROC).
      rewrite decide_False in Hmix by lia. rewrite Hv in Hmix. symmetry in Hmix. apply lookup_lt_Some in Hmix. lia.
    + destruct (proj2 (lookup_lt_is_Some (w_proc w) (length procs)) ltac:(lia)) as [v Hv]. specialize (Hmix (length procs)).
      case_decide; [destruct Hmix as (?&?&?&?&_&Hx); apply lookup_lt_Some in Hx; lia|]. rewrite Hv in Hmix. apply lookup_lt_Some in Hmix. lia.
  - intros q v Hv. specialize (Hmix q). case_decide as D; [|exists v; split; [by rewrite Hmix|done]].
    destruct Hmix as (v0&d&s&a&Hv0&Hv'). rewrite Hv in Hv0. injection Hv0 as <-. eexists. split; [exact Hv'|]. split; [done|]. split; [done|].
    destruct D as [_ [im Eq]]. congruence.
Qed.

Lemma reserved_assigned G SP live w procs mp next : world_inv G SP live w -> reserved G w procs -> all_laid G NPROC procs ->
  swap_inv nswap (Swap mp next (slot_runs G procs (seq 0 NPROC) ++ live)) ->
  assigned G procs /\ length (slot_runs G procs (seq 0 NPROC)) = images G /\
  forall q im v x r, G q = Some im -> procs !! q = Some v -> r ∈ live -> in_run (x / DEV_BSIZE) r -> ~ of_image v im x.
Proof.
  intros [Hti _ Hpl _ _ _] [Hlen _] Hlaid (segs&_&_&_&_&_&Hap&_). cbn [sw_live] in Hap.
  assert (forall q im, G q = Some im -> q ∈ seq 0 NPROC) as Hseq by (intros q im HG; apply elem_of_seq; pose proof (ti_dom _ _ _ _ _ Hti q ltac:(by rewrite HG)); lia).
  split; [split|split].
  - intros q im HG. pose proof (ti_dom _ _ _ _ _ Hti q ltac:(by rewrite HG)) as Hq.
    destruct (proj2 (lookup_lt_is_Some procs q)) as [v Hv]; [lia|]. exists v. split; [done|]. by apply (Hlaid q).
  - intros q q' im im' v v' HG HG' Hv Hv' Hne. apply (slot_runs_apart G procs (seq 0 NPROC) (pairwise_apart_l _ _ Hap) q q'); by eauto.
  - apply count_slot_runs. intros q Hq. apply lookup_lt_is_Some. pose proof (ti_dom _ _ _ _ _ Hti q Hq). lia.
  - intros q im v x r HG Hv Hr Hx Hof. apply of_image_run in Hof.
    assert (exists l1 l2, slot_runs G procs (seq 0 NPROC) = l1 ++ (p_daddr v, span_of im) :: l2) as (l1&l2&El).
    { apply list_elem_of_split. apply (elem_of_slot_runs _ _ _ q); by eauto. }
    rewrite El, <- (assoc_L (++)) in Hap. cbn [app] in Hap. apply pairwise_apart_app in Hap as [_ Hap]. apply (Hap _ Hof). apply Exists_exists. exists r.
    split; [|done]. apply elem_of_app. right. apply elem_of_app. by right.
Qed.

Lemma evacuate_spec G SP live w buf : world_inv G SP live w -> length buf = 1024%nat ->
  (exists mp', swapram_evacuate hard_err nswap codec_win NPROC buf w = Ok (false, World (w_sr w) (w_proc w) mp' (w_next w) (w_cursor w) (w_flash w)) /\
     world_inv G SP live (World (w_sr w) (w_proc w) mp' (w_next w) (w_cursor w) (w_flash w))) \/
  (exists w' live', swapram_evacuate hard_err nswap codec_win NPROC buf w = Ok (true, w') /\ world_inv (fun _ => None) SP (live' ++ live) w' /\
     length live' = images G /\ same_ctl (w_sr w) (w_sr w') /\ evacuated G live w w').
Proof.
  intros Hw Hbuf. pose proof Hw as [Hti Hroom Hpl Hout Hswap Hcap]. unfold swapram_evacuate.
  assert (forall q e, sr_tab (w_sr w) !! q = Some e -> match G q with
    | Some im => e_live e = true /\ image_ok im /\ e_rlen e = [lenz (im_data im); lenz (im_stack im); lenz (im_u im)] | None => e_live e = false end) as Htab.
  { intros q e He. pose proof (ti_ent _ _ _ _ _ Hti q e He) as Hent. destruct (G q); [|done]. by destruct Hent. }
  pose proof (held_runs psize NPROC Hpsize G SP (w_sr w) Hti) as Hruns.
  assert (length (tab_runs (sr_tab (w_sr w))) = images G) as Hcnt.
  { unfold runs, held in Hruns. rewrite length_app, length_fmap in Hruns. cbn [fst snd] in Hruns. unfold images. lia. }
  destruct (reserve_spec nswap live G (sr_tab (w_sr w)) (w_proc w) Hnswap Htab Hout NPROC 0 (w_next w) (w_proc w) (w_map w))
    as [(im'&next'&mp'&Er&Hs)|(next'&procs'&mp'&Er&Hmix&Hlaid&Hs)].
  { by rewrite (ti_tab _ _ _ _ _ Hti). } { intros q. by rewrite decide_False by lia. } { intros q im v Hq. lia. } { done. }
  { cbn [seq slot_runs omap list_omap length]. rewrite drop_0, Hcnt. lia. }
  all: change (lenz (slot_runs G (w_proc w) (seq 0 0))) with 0 in Er; rewrite Er; cbn [mbind outcome_bind negb]; cbn [Nat.add] in *.
  { left. exists mp'. split; [done|]. by constructor. }
  right. pose proof (mixed_reserved G w procs' Hpl Hmix) as Hres. destruct (reserved_assigned G SP live w procs' mp' next' Hw Hres Hlaid Hs) as (Has&Hsl&Hkeep).
  destruct Hres as [Hlp Hprocs]. set (L := slot_runs G procs' (seq 0 NPROC)) in *. pose proof images_none as Hnone. unfold images in Hnone.
  assert (held NPROC (fun _ => None, SP) < NPROC)%nat as Hroom' by (unfold held in *; cbn [fst snd] in *; lia).
  destruct (Z.eqb_spec (lenz L) 0) as [Hz|Hz].
  - assert (images G = 0%nat) as Hi0 by (unfold lenz in Hz; lia). pose proof (no_images G SP _ Hti Hi0) as HG0.
    assert (L = []) as EL by (apply nil_length_inv; lia). rewrite EL in Hs.
    eexists _, []. split; [done|]. split; [|split; [done|split; [by repeat split|split]]].
    + constructor; cbn [w_sr w_proc w_map w_next app]; try done; [by eapply tier_none|by destruct Hswap as (?&_&_&_&?&_); eapply swap_inv_perm|]. rewrite images_none. lia.
    + intros q v Hv. destruct (Hprocs q v Hv) as (v'&?&?&?&?). exists v'. rewrite HG0. by auto.
    + done.
  - destruct (move_spec hard_err codec_win psize NPROC Hdev Hwin NPROC 0 procs' ltac:(lia) G SP (w_sr w) (w_flash w) buf Hti ltac:(lia) ltac:(lia) Has Hbuf)
      as (buf'&s'&f'&->&Hti'&Hctl&Hat&Hk). cbn [mbind outcome_bind].
    eexists _, L. split; [done|]. split; [|split; [done|split; [exact Hctl|split]]].
    + constructor; cbn [w_sr w_proc w_map w_next app]; try done. rewrite images_none, length_app. lia.
    + cbn [w_proc w_flash]. intros q v Hv. destruct (Hprocs q v Hv) as (v'&Hv'&?&?&?). exists v'. split; [done|]. split; [done|]. split; [done|].
      destruct (G q) as [im|] eqn:HG; [by apply (Hat q)|by auto].
    + cbn [w_flash]. intros x r Hr Hx. apply Hk. intros q im v HG Hv. by apply (Hkeep q im v x r).
Qed.

(** *** Epochs *)

Definition count_large (procs : list vproc) : Z := lenz (filter (fun b : bool => b = true) (v_large <$> procs)).

(** The pool and a large process never own the pool's bytes together. *)
Record exclusive (G : nat -> option image) (SP : list spool) (w : world) : Prop := {
  ex_epoch : swapram_epoch (w_sr w) = SWAPRAM_SMALL \/ swapram_epoch (w_sr w) = SWAPRAM_LARGE;
  ex_large : swapram_epoch (w_sr w) = SWAPRAM_LARGE -> (forall q, G q = None) /\ SP = [] /\ sr_admit (w_sr w) = false;
  ex_small : swapram_epoch (w_sr w) = SWAPRAM_SMALL -> forall q v, w_proc w !! q = Some v -> v_large v = false;
  ex_count : sr_nlarge (w_sr w) = count_large (w_proc w)
}.

Lemma tier_ext G SP s s' : tier_inv psize NPROC G SP s -> sr_pool s' = sr_pool s -> sr_map s' = sr_map s -> sr_ready s' = sr_ready s ->
  sr_spools s' = sr_spools s -> sr_tab s' = sr_tab s -> sr_codec_owner s' = sr_codec_owner s -> tier_inv psize NPROC G SP s'.
Proof. intros [] E1 E2 E3 E4 E5 E6. constructor; unfold runs; rewrite ?E1, ?E2, ?E3, ?E4, ?E5, ?E6; done. Qed.

Lemma world_ext G SP live w s' : world_inv G SP live w -> tier_inv psize NPROC G SP s' -> world_inv G SP live (with_sr w s').
Proof. intros [] H. by constructor. Qed.

Lemma count_small procs : (forall q v, procs !! q = Some v -> v_large v = false) -> count_large procs = 0.
Proof.
  unfold count_large. induction procs as [|v l IH]; intros H; [done|]. cbn [fmap list_fmap]. rewrite filter_cons, decide_False by (by rewrite (H 0%nat v)).
  apply IH. intros q. apply (H (S q)).
Qed.

Lemma count_zero procs : count_large procs = 0 -> forall q v, procs !! q = Some v -> v_large v = false.
Proof.
  unfold count_large, lenz. induction procs as [|v l IH]; intros H q v' Hq; [done|]. cbn [fmap list_fmap] in H. rewrite filter_cons in H.
  destruct q; cbn in Hq; [injection Hq as <-|apply (IH ltac:(case_decide; cbn [length] in H; lia) _ _ Hq)].
  case_decide as D; cbn [length] in H; [lia|]. by destruct (v_large v).
Qed.

Lemma count_set procs p v b : procs !! p = Some v -> v_large v = negb b ->
  count_large (<[p:=set_large v b]> procs) = count_large procs + if b then 1 else -1.
Proof.
  unfold count_large, lenz. revert p. induction procs as [|u l IH]; intros [|p] Hp Hb; cbn in Hp; [done..| |].
  - injection Hp as ->. cbn [insert list_insert fmap list_fmap set_large v_large]. rewrite !filter_cons, Hb. destruct b; cbn [negb]; [rewrite decide_True, decide_False by done|rewrite decide_False, decide_True by done]; cbn [length]; lia.
  - change (<[S p:=set_large v b]> (u :: l)) with (u :: <[p:=set_large v b]> l). rewrite !fmap_cons, !filter_cons. specialize (IH p Hp Hb).
    case_decide; cbn [length]; lia.
Qed.

Lemma count_same procs procs' : length procs' = length procs -> (forall q v, procs !! q = Some v -> exists v', procs' !! q = Some v' /\ v_large v' = v_large v) ->
  count_large procs' = count_large procs.
Proof.
  intros Hl H. unfold count_large. do 2 f_equal. apply list_eq. intros q. rewrite !list_lookup_fmap. destruct (procs !! q) as [v|] eqn:Hv.
  - destruct (H q v Hv) as (v'&->&Hv'). cbn. by rewrite Hv'.
  - apply lookup_ge_None in Hv. by rewrite (proj2 (lookup_ge_None procs' q)) by lia.
Qed.

(** An evacuation keeps the pool and the processes apart. *)
Lemma evacuated_procs G live w w' : length (w_proc w') = length (w_proc w) -> evacuated G live w w' ->
  count_large (w_proc w') = count_large (w_proc w).
Proof. intros Hl [H _]. apply count_same; [done|]. intros q v Hv. destruct (H q v Hv) as (v'&?&_&?&_). by exists v'. Qed.

Definition consistent (A : store) (live : list (Z * Z)) (w : world) : Prop := world_inv (fst A) (snd A) live w /\ exclusive (fst A) (snd A) w.

(** The control words of a state whose data are those of [w]. *)
Lemma exclusive_intro G SP w : (swapram_epoch (w_sr w) = SWAPRAM_SMALL /\ count_large (w_proc w) = 0 \/
    swapram_epoch (w_sr w) = SWAPRAM_LARGE /\ (forall q, G q = None) /\ SP = [] /\ sr_admit (w_sr w) = false) ->
  sr_nlarge (w_sr w) = count_large (w_proc w) -> exclusive G SP w.
Proof.
  intros [[E0 Hc]|(E0&Hl)] Hn.
  - constructor; [by left|by rewrite E0|intros _; by apply count_zero|done].
  - constructor; [by right|done|by rewrite E0|done].
Qed.

Lemma exclusive_cases G SP w : exclusive G SP w -> swapram_epoch (w_sr w) = SWAPRAM_SMALL /\ count_large (w_proc w) = 0 \/
  swapram_epoch (w_sr w) = SWAPRAM_LARGE /\ (forall q, G q = None) /\ SP = [] /\ sr_admit (w_sr w) = false.
Proof. intros []. destruct ex_epoch0 as [E0|E0]; [left; split; [done|apply count_small; by apply ex_small0]|right; split; [done|by apply ex_large0]]. Qed.

(** An evacuation with the pool closed, from the swapper. *)
Lemma evac_stage G SP live w buf : world_inv G SP live w -> length buf = 1024%nat ->
  exists ok w1 G1 live1, swapram_evacuate hard_err nswap codec_win NPROC buf (with_sr w (swapram_admit (w_sr w) false)) = Ok (ok, w1) /\
    world_inv G1 SP live1 w1 /\ same_ctl (swapram_admit (w_sr w) false) (w_sr w1) /\ count_large (w_proc w1) = count_large (w_proc w) /\
    (ok = true \/ (forall q, G q = None) -> forall q, G1 q = None).
Proof.
  intros Hw Hbuf. assert (world_inv G SP live (with_sr w (swapram_admit (w_sr w) false))) as Hw0 by (apply world_ext; [done|by apply (tier_ext G SP (w_sr w)); [apply Hw|..]]).
  destruct (evacuate_spec G SP live _ buf Hw0 Hbuf) as [(mp'&->&Hw')|(w'&live'&->&Hw'&_&Hctl&Hev)].
  - eexists false, _, G, live. split; [done|]. split; [done|]. split; [by repeat split|]. split; [done|]. by intros [?|?].
  - exists true, w', (fun _ => None), (live' ++ live). split; [done|]. split; [done|]. split; [done|]. split; [|done].
    apply (evacuated_procs _ _ _ _ ltac:(rewrite (wi_procs _ _ _ _ Hw'); by rewrite (wi_procs _ _ _ _ Hw0)) Hev).
Qed.

(** The request for an evacuation. *)
Lemma service_evac_spec G SP live w buf : consistent (G, SP) live w -> length buf = 1024%nat ->
  exists w1 G1 live1, service_evac hard_err nswap codec_win NPROC buf w = Ok w1 /\ consistent (G1, SP) live1 w1 /\ sr_large_want (w_sr w1) = sr_large_want (w_sr w) /\ swapram_epoch (w_sr w1) = swapram_epoch (w_sr w) /\
       sr_large_seq (w_sr w1) = sr_large_seq (w_sr w) /\ sr_small_want (w_sr w1) = sr_small_want (w_sr w) /\ sr_nlarge (w_sr w1) = sr_nlarge (w_sr w).
Proof.
  intros [Hw Hx] Hbuf. unfold service_evac. cbn [fst snd] in *. destruct (swapram_evac (w_sr w) =? SWAPRAM_EVAC_PENDING); [|by exists w, G, live].
  destruct (evac_stage G SP live w buf Hw Hbuf) as (ok&w1&G1&live1&->&Hw1&(C1&C2&C3&C4&C5&C6&C7)&Hc&Hg). cbn [mbind outcome_bind fst snd].
  eexists _, G1, live1. split; [done|]. split; [|by split_and?]. split; cbn [fst snd].
  - apply world_ext; [done|]. by apply (tier_ext G1 SP (w_sr w1)); [apply Hw1|..].
  - cbn [swapram_admit set_evac swapram_epoch sr_nlarge] in *. apply exclusive_intro; cbn [with_sr w_sr w_proc swapram_admit set_evac swapram_epoch sr_nlarge sr_admit].
    + rewrite C3, Hc. destruct (exclusive_cases _ _ _ Hx) as [[-> ->]|(->&HG&->&_)]; [by left|right]. split_and?; [done|apply Hg; by right|done|done].
    + rewrite C4, Hc. apply Hx.
Qed.

(** The request for LARGE. *)
Lemma service_large_spec G SP live w buf : consistent (G, SP) live w -> length buf = 1024%nat -> let s := w_sr w in
  exists w2 woken G2 live2,
    service_large hard_err nswap codec_win NPROC buf w = Ok (w2, woken) /\ consistent (G2, SP) live2 w2 /\ sr_small_want (w_sr w2) = sr_small_want s /\ sr_nlarge (w_sr w2) = sr_nlarge s /\
    (sr_large_want s = true -> SP = [] \/ swapram_epoch s = SWAPRAM_LARGE -> sr_large_want (w_sr w2) = false /\ sr_large_seq (w_sr w2) = u32 (sr_large_seq s + 1) /\ woken = true).
Proof.
  intros [Hw Hx] Hbuf s. unfold service_large. fold s. cbn [fst snd] in *. pose proof (exclusive_cases _ _ _ Hx) as Hcase. fold s in Hcase. pose proof (ex_count _ _ _ Hx) as Hcnt. fold s in Hcnt.
  assert (tier_inv psize NPROC G SP s) as Ht by apply Hw.
  destruct (sr_large_want s) eqn:Ewant; cbn [andb]; [|exists w, false, G, live; by split_and?].
  destruct Hcase as [[Ee Hc]|(Ee&HG&->&Ha)]; rewrite Ee; cbn [Z.eqb SWAPRAM_SMALL SWAPRAM_LARGE negb orb].
  - destruct (Z.eqb_spec (sr_spools s) 0) as [Hz|Hz].
    + assert (SP = []) as -> by (rewrite (ti_spools _ _ _ _ _ Ht) in Hz; destruct SP; [done|unfold lenz in Hz; cbn in Hz; lia]).
      destruct (evac_stage G [] live (with_sr w (set_large_want s false)) buf) as (ok&w1&G1&live1&->&Hw1&(C1&C2&C3&C4&C5&C6&C7)&Hc1&Hg);
        [apply world_ext; [done|by apply (tier_ext G [] s)]|done|]. cbn [mbind outcome_bind fst snd].
      cbn [swapram_admit set_large_want with_sr w_sr w_proc sr_admit swapram_epoch sr_nlarge sr_large_want sr_small_want sr_large_seq] in *.
      eexists _, true, G1, live1. split; [done|]. split; [|destruct ok; cbn [with_sr w_sr bump_seq set_epoch swapram_admit sr_small_want sr_nlarge sr_large_want sr_large_seq]; split_and?; try done; intros; by rewrite C7].
      split; cbn [fst snd].
      * apply world_ext; [apply world_ext; [done|]|]; destruct ok; apply (tier_ext G1 [] (w_sr w1)); try done; apply Hw1.
      * apply exclusive_intro; cbn [with_sr w_sr w_proc]; destruct ok; cbn [bump_seq set_epoch swapram_admit swapram_epoch sr_admit sr_nlarge]; try (rewrite C4; by rewrite Hc1).
        -- right. split_and?; try done. apply Hg. by left.
        -- left. split; [congruence|]. by rewrite Hc1.
    + eexists _, false, G, live. split; [done|]. split; [|split_and?; try done; intros _ [-> |?]; [|done]; by rewrite (ti_spools _ _ _ _ _ Ht) in Hz]. split; cbn [fst snd].
      * apply world_ext; [done|]. by apply (tier_ext G SP s).
      * apply exclusive_intro; [left; split; [exact Ee|done]|exact Hcnt].
  - cbn [mbind outcome_bind]. eexists _, true, G, live. split; [done|]. split; [|by split_and?]. split; cbn [fst snd].
    + apply world_ext; [apply world_ext; [done|]|]; by apply (tier_ext G [] s).
    + apply exclusive_intro; [right; split_and?; try done; exact Ee|exact Hcnt].
Qed.

(** One turn of the swapper. *)
Lemma service_spec G SP live w buf : consistent (G, SP) live w -> length buf = 1024%nat ->
  exists w' woken G' live', swapram_service hard_err nswap codec_win NPROC buf w = Ok (w', woken) /\ consistent (G', SP) live' w' /\ sr_small_want (w_sr w') = false /\
    sr_nlarge (w_sr w') = sr_nlarge (w_sr w) /\
    (sr_large_want (w_sr w) = true -> SP = [] \/ swapram_epoch (w_sr w) = SWAPRAM_LARGE ->
       sr_large_want (w_sr w') = false /\ sr_large_seq (w_sr w') = u32 (sr_large_seq (w_sr w) + 1) /\ woken = true) /\
    (sr_small_want (w_sr w) = true -> woken = true /\ (sr_nlarge (w_sr w) = 0 -> swapram_epoch (w_sr w') = SWAPRAM_SMALL)).
Proof.
  intros Hc Hbuf. unfold swapram_service.
  destruct (service_evac_spec G SP live w buf Hc Hbuf) as (w1&G1&live1&->&Hc1&W1&W2&W3&W4&W5). cbn [mbind outcome_bind].
  destruct (service_large_spec G1 SP live1 w1 buf Hc1 Hbuf) as (w2&woken&G2&live2&->&Hc2&W6&W7&Hl). cbn [mbind outcome_bind fst snd]. unfold service_small.
  rewrite W1, W2, W3 in Hl. rewrite W4 in W6. rewrite W5 in W7. rewrite <- W6, <- W7.
  destruct Hc2 as [Hw2 Hx2]. cbn [fst snd] in *. pose proof (exclusive_cases _ _ _ Hx2) as Hcase. pose proof (ex_count _ _ _ Hx2) as Hcnt.
  destruct (sr_small_want (w_sr w2)) eqn:Es; [|exists w2, woken, G2, live2; by split_and?].
  assert (tier_inv psize NPROC G2 SP (w_sr w2)) as Ht by apply Hw2.
  eexists _, true, G2, live2. split; [done|]. cbn [set_small_want swapram_epoch sr_nlarge].
  set (b := (swapram_epoch (w_sr w2) =? SWAPRAM_LARGE) && (sr_nlarge (w_sr w2) =? 0)) in *.
  split; [split; cbn [fst snd]|].
  - apply world_ext; [done|]. destruct b; by apply (tier_ext G2 SP (w_sr w2)).
  - apply exclusive_intro; cbn [with_sr w_sr w_proc]; [|by destruct b]. destruct b eqn:Eb; unfold b in Eb.
    + left. split; [done|]. apply andb_true_iff in Eb as [_ Eb%Z.eqb_eq]. by rewrite <- Hcnt.
    + exact Hcase.
  - cbn [with_sr w_sr]. split; [by destruct b|]. split; [by destruct b|]. split; [intros H1 H2; destruct (Hl H1 H2) as (?&?&_); destruct b; by split_and?|].
    intros _. split; [done|]. intros Hz. unfold b. rewrite Hz. cbn [Z.eqb andb].
    destruct Hcase as [[Ee _]|(Ee&_)]; rewrite Ee; [exact Ee|done].
Qed.

(** *** Preservation *)

(** What the rest of the kernel keeps to: requests within a client's rights,
    with flash left for the image should it be evacuated; a buffer of one
    block; processes of the table; a process that slept in
    [swapram_enter_large] and a new child are not large yet. *)
Definition allowed (A : store) (live : list (Z * Z)) (w : world) (ev : event) : Prop :=
  match ev with
  | EvRequest q _ => may_ask psize NPROC A q /\ match q with ReqOut _ _ => (1 + images (fst A) + length live <= max_live)%nat | _ => True end
  | EvService buf => length buf = 1024%nat
  | EvEnter p | EvLeave p => (p < NPROC)%nat
  | EvWoken p _ => exists v, w_proc w !! p = Some v /\ v_large v = false
  | EvInherit child parent => (parent < NPROC)%nat /\ exists v, w_proc w !! child = Some v /\ v_large v = false
  | EvSetEpoch _ | EvPost => True
  end.

Lemma consistent_ctl G SP live w s' : consistent (G, SP) live w -> same_ctl (w_sr w) s' \/ s' = set_large_want (w_sr w) true \/ s' = set_small_want (w_sr w) true \/
    s' = set_evac (w_sr w) SWAPRAM_EVAC_PENDING -> tier_inv psize NPROC G SP s' -> consistent (G, SP) live (with_sr w s').
Proof.
  intros [Hw Hx] Hs Ht. split; cbn [fst snd] in *; [by apply world_ext|]. pose proof (ex_count _ _ _ Hx) as Hc.
  destruct Hs as [(Ha&_&He&Hn&_)|[-> |[-> | ->]]]; (apply exclusive_intro; [|try exact Hc; cbn; congruence]);
    pose proof (exclusive_cases _ _ _ Hx) as Hcase; cbn [with_sr w_sr w_proc]; [rewrite He, Ha; exact Hcase|exact Hcase..].
Qed.

Lemma enter_round_ok G SP live w p : consistent (G, SP) live w -> (exists v, w_proc w !! p = Some v /\ v_large v = false) ->
  exists r w', enter_round p w = Ok (r, w') /\ consistent (G, SP) live w' /\
    (swapram_epoch (w_sr w) = SWAPRAM_LARGE /\ r = Entered 0 /\ swapram_epoch (w_sr w') = SWAPRAM_LARGE /\ (exists v, w_proc w' !! p = Some v /\ v_large v = true) \/
     swapram_epoch (w_sr w) = SWAPRAM_SMALL /\ r = Asleep (sr_large_seq (w_sr w)) /\ w' = with_sr w (set_large_want (w_sr w) true)).
Proof.
  intros Hcons (v&Hv&Hl). pose proof Hcons as [Hw Hx]. cbn [fst snd] in *. unfold enter_round.
  destruct (exclusive_cases _ _ _ Hx) as [[Ee Hc]|(Ee&HG&HS&Ha)]; rewrite Ee; cbn [Z.eqb SWAPRAM_SMALL SWAPRAM_LARGE].
  - eexists _, _. split; [done|]. split; [|right; done]. apply consistent_ctl; [done|by right; left|]. by apply (tier_ext G SP (w_sr w)); [apply Hw|..].
  - rewrite (rd_ok _ _ _ Hv). cbn [mbind outcome_bind]. rewrite wr_ok by (by eapply lookup_lt_Some). cbn [mbind outcome_bind].
    eexists _, _. split; [done|]. split; [split; cbn [fst snd]|left; split; [done|]; split; [done|]; split; [exact Ee|]].
    + destruct Hw. constructor; cbn [with_sr with_proc w_sr w_proc w_map w_next]; try done.
      * by apply (tier_ext G SP (w_sr w)).
      * by rewrite length_insert.
      * intros q im Hq. by rewrite HG in Hq.
    + apply exclusive_intro; cbn [with_sr with_proc w_sr w_proc set_nlarge swapram_epoch sr_nlarge sr_admit]; [by right|].
      rewrite (count_set _ _ _ true Hv Hl), (ex_count _ _ _ Hx). done.
    + cbn [with_sr with_proc w_proc]. exists (set_large v true). split; [apply list_lookup_insert_eq; by eapply lookup_lt_Some|done].
Qed.

Lemma set_procs_ok G SP live w p v v' : consistent (G, SP) live w -> w_proc w !! p = Some v -> v_large v' = v_large v ->
  (forall im, G p = Some im -> v_load v' = false /\ v' = set_addrs v' 0 0 0) -> consistent (G, SP) live (with_proc w (<[p:=v']> (w_proc w))).
Proof.
  intros [Hw Hx] Hv Hl Ho. pose proof (exclusive_cases _ _ _ Hx) as Hcase. pose proof (ex_count _ _ _ Hx) as Hcnt. cbn [fst snd] in *.
  assert (count_large (<[p:=v']> (w_proc w)) = count_large (w_proc w)) as Hc.
  { apply count_same; [apply length_insert|]. intros q u Hu. destruct (decide (q = p)) as [->|Hne].
    - exists v'. rewrite list_lookup_insert_eq by (by eapply lookup_lt_Some). split; [done|]. congruence.
    - exists u. by rewrite list_lookup_insert_ne. }
  split; cbn [fst snd].
  - destruct Hw. constructor; cbn [with_proc w_sr w_proc w_map w_next]; try done; [by rewrite length_insert|].
    intros q im HG. destruct (decide (q = p)) as [->|Hne].
    + exists v'. rewrite list_lookup_insert_eq by (by eapply lookup_lt_Some). split; [done|]. by apply (Ho im).
    + rewrite list_lookup_insert_ne by done. by apply wi_out0 with im.
  - apply exclusive_intro; cbn [with_proc w_sr w_proc]; by rewrite Hc.
Qed.

Lemma answers_closed A q r A' : answers false A q r A' -> (forall q, fst A q = None) -> snd A = [] -> (forall q, fst A' q = None) /\ snd A' = [].
Proof.
  intros Ha HG HS. destruct Ha; cbn [fst snd] in *; try done; try (by rewrite HG in *); try (by destruct l1).
Qed.

(** A request that leaves the process table alone. *)
Lemma replace_store G SP G' SP' live w s' q r : consistent (G, SP) live w -> answers (sr_admit (w_sr w)) (G, SP) q r (G', SP') ->
  stores psize NPROC (G', SP') s' -> same_ctl (w_sr w) s' -> (images G' + length live <= max_live)%nat ->
  (forall p im, G' p = Some im -> exists v, w_proc w !! p = Some v /\ v_load v = false /\ v = set_addrs v 0 0 0) ->
  consistent (G', SP') live (with_sr w s').
Proof.
  intros [Hw Hx] Hans [Ht Hh] (Ca&_&Ce&Cn&_) Hcap Ho. pose proof (exclusive_cases _ _ _ Hx) as Hcase. cbn [fst snd] in *. split; cbn [fst snd].
  - destruct Hw. by constructor.
  - apply exclusive_intro; cbn [with_sr w_sr w_proc]; [|rewrite Cn; apply Hx]. rewrite Ce, Ca. destruct Hcase as [?|(Ee&HG&HS&Ea)]; [by left|right].
    rewrite Ea in Hans. destruct (answers_closed _ _ _ _ Hans HG HS). by split_and?.
Qed.

Lemma images_in G p im : (p < NPROC)%nat -> G p = Some im -> (images (upd G p None) <= images G)%nat.
Proof. intros Hp HG. pose proof (held_in NPROC G [] p im Hp HG) as H. unfold held in H. cbn [fst snd length] in H. unfold images. lia. Qed.

Lemma images_out G p im : (images (upd G p (Some im)) <= 1 + images G)%nat.
Proof. pose proof (held_out NPROC G [] p im) as H. unfold held in H. cbn [fst snd length] in H. unfold images. lia. Qed.

Lemma request_ok G SP live w q core : consistent (G, SP) live w -> allowed (G, SP) live w (EvRequest q core) ->
  exists w' A', do_request psize NPROC q core w = Ok w' /\ consistent A' live w'.
Proof.
  intros Hcons [Hq Hcap]. pose proof Hcons as [Hw _]. cbn [fst snd] in Hw.
  destruct (serve_ok psize NPROC Hpsize (G, SP) q (w_sr w)) as (r&s'&[G' SP']&Es&Hans&Hst&Hctl); [split; [exact (wi_tier _ _ _ _ Hw)|exact (wi_room _ _ _ _ Hw)]|done|].
  unfold do_request. rewrite Es. cbn [mbind outcome_bind fst snd].
  assert (forall p, (p < NPROC)%nat -> exists v, w_proc w !! p = Some v) as Hp by (intros p Hp; apply lookup_lt_is_Some; by rewrite (wi_procs _ _ _ _ Hw)).
  pose proof (replace_store G SP G' SP' live) as Hrep. pose proof (wi_cap _ _ _ _ Hw) as Hc0.
  assert (G' = G -> exists w' A', Ok (with_sr w s') = Ok w' /\ consistent A' live w') as Hplain.
  { intros ->. eexists _, (G, SP'). split; [done|]. apply (Hrep w s' q r); try done. apply Hw. }
  inversion Hans; subst; try (by apply Hplain).
  - destruct Hq as (Hpn&HG&_). destruct (Hp p Hpn) as [v Hv]. cbn [with_sr w_proc]. rewrite (rd_ok _ _ _ Hv). cbn [mbind outcome_bind].
    rewrite wr_ok by (by eapply lookup_lt_Some). cbn [mbind outcome_bind]. eexists _, _. split; [done|].
    assert (consistent (G, SP') live (with_proc w (<[p:=Vproc false (v_large v) 0 0 0]> (w_proc w)))) as Hc1 by (by apply (set_procs_ok G SP' live w p v)).
    apply (Hrep (with_proc w _) s' (ReqOut p im) (RepTook true) Hc1); try done; [pose proof (images_out G p im); cbn [fst] in Hcap; lia|].
    intros p' im' Hp'. cbn [with_proc w_proc]. unfold upd in Hp'. destruct (decide (p' = p)) as [->|Hne].
    + eexists. rewrite list_lookup_insert_eq by (by eapply lookup_lt_Some). by split_and?.
    + rewrite list_lookup_insert_ne by done. by apply (wi_out _ _ _ _ Hw p' im').
  - pose proof (ti_dom _ _ _ _ _ (wi_tier _ _ _ _ Hw) p ltac:(by eexists)) as Hpn. destruct (Hp p Hpn) as [v Hv]. cbn [with_sr w_proc]. rewrite (rd_ok _ _ _ Hv). cbn [mbind outcome_bind].
    rewrite wr_ok by (by eapply lookup_lt_Some). cbn [mbind outcome_bind]. eexists _, _. split; [done|].
    assert (consistent (upd G p None, SP') live (with_sr w s')) as Hc1.
    { apply (Hrep w s' (ReqIn p dst) _ Hcons Hans Hst Hctl); [pose proof (images_in G p im Hpn ltac:(done)); lia|].
      intros p' im'. unfold upd. case_decide; [done|]. apply (wi_out _ _ _ _ Hw). }
    apply (set_procs_ok (upd G p None) SP' live (with_sr w s') p v (Vproc true (v_large v) (fst (fst core)) (snd (fst core)) (snd core)) Hc1 Hv eq_refl).
    unfold upd. by rewrite decide_True.
Qed.

Lemma leave_ok G SP live w p : consistent (G, SP) live w -> (p < NPROC)%nat -> exists r, swapram_leave_large p w = Ok r /\ consistent (G, SP) live (fst r).
Proof.
  intros Hcons Hp. pose proof Hcons as [Hw Hx]. cbn [fst snd] in *. pose proof (ex_count _ _ _ Hx) as Hcnt. unfold swapram_leave_large.
  destruct (proj2 (lookup_lt_is_Some (w_proc w) p)) as [v Hv]; [by rewrite (wi_procs _ _ _ _ Hw)|]. rewrite (rd_ok _ _ _ Hv). cbn [mbind outcome_bind].
  destruct (v_large v) eqn:Hl; cbn [negb]; [|by eexists]. rewrite wr_ok by (by eapply lookup_lt_Some). cbn [mbind outcome_bind].
  destruct (exclusive_cases _ _ _ Hx) as [[_ Hc]|(Ee&HG&HS&Ha)]; [pose proof (count_zero _ Hc p v Hv); congruence|].
  set (procs := <[p:=set_large v false]> (w_proc w)). set (s0 := set_nlarge (w_sr w) (sr_nlarge (w_sr w) - 1)).
  assert (forall s', sr_nlarge s' = sr_nlarge s0 -> swapram_epoch s' = SWAPRAM_LARGE -> sr_admit s' = false -> tier_inv psize NPROC G SP s' ->
    consistent (G, SP) live (with_sr (with_proc w procs) s')) as Hgo.
  { intros s' N1 N2 N3 Ht. split; cbn [fst snd].
    - destruct Hw. constructor; cbn [with_sr with_proc w_sr w_proc w_map w_next]; try done; [unfold procs; by rewrite length_insert|]. intros q im Hq. by rewrite HG in Hq.
    - apply exclusive_intro; cbn [with_sr with_proc w_sr w_proc]; [right; by split_and?|]. rewrite N1. unfold procs.
      rewrite (count_set _ _ _ false Hv Hl). unfold s0. cbn [set_nlarge sr_nlarge]. lia. }
  destruct (sr_nlarge s0 =? 0); eexists; (split; [done|]); apply Hgo; try done; by apply (tier_ext G SP (w_sr w)); [apply Hw|..].
Qed.

Lemma inherit_ok G SP live w child parent : consistent (G, SP) live w -> (parent < NPROC)%nat -> (exists v, w_proc w !! child = Some v /\ v_large v = false) ->
  exists w', swapram_inherit child parent w = Ok w' /\ consistent (G, SP) live w'.
Proof.
  intros Hcons Hp Hchild. pose proof Hcons as [Hw Hx]. cbn [fst snd] in *. unfold swapram_inherit.
  destruct (proj2 (lookup_lt_is_Some (w_proc w) parent)) as [v Hv]; [by rewrite (wi_procs _ _ _ _ Hw)|]. rewrite (rd_ok _ _ _ Hv). cbn [mbind outcome_bind].
  destruct (v_large v) eqn:Hl; [|by eexists]. destruct (enter_round_ok G SP live w child Hcons Hchild) as (r&w'&Er&Hc'&_).
  destruct (exclusive_cases _ _ _ Hx) as [[_ Hc]|(Ee&_)]; [pose proof (count_zero _ Hc parent v Hv); congruence|].
  unfold enter_round in Er. rewrite Ee in Er. cbn [Z.eqb SWAPRAM_LARGE] in Er. destruct (rd (w_proc w) child); cbn [mbind outcome_bind] in *; [|done..].
  destruct (wr _ _ _); cbn [mbind outcome_bind] in *; [|done..]. injection Er as _ <-. by eexists.
Qed.

Lemma happens_ok A live w ev : consistent A live w -> allowed A live w ev ->
  exists w' A' live', happens hard_err nswap psize codec_win NPROC ev w = Ok w' /\ consistent A' live' w'.
Proof.
  destruct A as [G SP]. intros Hcons Hal. assert (tier_inv psize NPROC G SP (w_sr w)) as Ht by apply Hcons.
  destruct ev as [q core|buf|p|p seq|p|child parent|e|]; cbn [happens] in *.
  - destruct (request_ok G SP live w q core Hcons Hal) as (w'&A'&->&Hc). by exists w', A', live.
  - destruct (service_spec G SP live w buf Hcons Hal) as (w'&woken&G'&live'&->&Hc&_). by eexists w', _, live'.
  - unfold swapram_enter_large. destruct (proj2 (lookup_lt_is_Some (w_proc w) p)) as [v Hv]; [destruct Hcons as [Hw _]; by rewrite (wi_procs _ _ _ _ Hw)|].
    rewrite (rd_ok _ _ _ Hv). cbn [mbind outcome_bind]. destruct (v_large v) eqn:Hl; [by eexists w, _, live|].
    destruct (enter_round_ok G SP live w p Hcons ltac:(by exists v)) as (r&w'&->&Hc&_). by eexists w', _, live.
  - unfold enter_woken. destruct (_ && _); [by eexists w, _, live|]. destruct (enter_round_ok G SP live w p Hcons Hal) as (r&w'&->&Hc&_). by eexists w', _, live.
  - destruct (leave_ok G SP live w p Hcons Hal) as (r&->&Hc). by eexists (fst r), _, live.
  - destruct Hal as [Hp Hch]. destruct (inherit_ok G SP live w child parent Hcons Hp Hch) as (w'&->&Hc). by eexists w', _, live.
  - eexists _, (G, SP), live. split; [done|]. unfold swapram_set_epoch. apply consistent_ctl; [done| |]; destruct (e =? SWAPRAM_LARGE); try tauto; by apply (tier_ext G SP (w_sr w)).
  - eexists _, (G, SP), live. split; [done|]. apply consistent_ctl; [done|tauto|]. by apply (tier_ext G SP (w_sr w)).
Qed.
End World.

(** ** Theorems *)

(** The board: transfers do not fail, the decoder's ring has 512 bytes, the
    pool is at most 64 KB less one and the swap unit fits 16-bit block
    numbers. *)
Record board (hard_err : Z -> bool) (nswap psize : Z) (codec_win : nat -> nat -> list Z) : Prop := {
  bd_dev : forall b, hard_err b = false;
  bd_win : forall i seg, length (codec_win i seg) = 512%nat;
  bd_pool : 0 < psize <= 65535 /\ psize mod 4 = 0;
  bd_unit : SWAP_IMAGE_ALIGN < nswap < 2 ^ 16 /\ nswap mod 4 = 0
}.

(** After [main] set the swap map up. *)
Definition world_boot (NPROC : nat) (pool : list Z) (mp : map) (next cursor : Z) (f : flash) : world :=
  World (swapram_boot NPROC pool) (replicate NPROC (Vproc false false 0 0 0)) mp next cursor f.

Lemma boot_consistent `{ES : EncoderSpec} nswap psize NPROC pool mp next cursor f :
  0 < psize -> SWAP_IMAGE_ALIGN < nswap < 2 ^ 16 /\ nswap mod 4 = 0 -> (0 < NPROC)%nat -> lenz pool = psize -> swap_init swapmap_init nswap = Ok mp -> 0 <= next < 2 ^ 32 ->
  consistent nswap psize NPROC (fun _ => None, []) [] (world_boot NPROC pool mp next cursor f).
Proof.
  intros Hp [Hs Hs4] Hn Hl Hi Hx. destruct (boot_stores psize NPROC pool Hp Hl Hn) as [Ht Hh]. split; cbn [fst snd].
  - constructor; cbn [world_boot w_sr w_proc w_map w_next]; try done; [apply length_replicate|by apply swap_init_inv|]. rewrite images_none. unfold max_live. cbn. lia.
  - apply exclusive_intro; [left|]; cbn [world_boot w_sr w_proc swapram_boot swapram_epoch sr_nlarge].
    + split; [done|]. apply count_small. by intros q v [-> _]%lookup_replicate_1.
    + symmetry. apply count_small. by intros q v [-> _]%lookup_replicate_1.
Qed.

(** C19. An evacuation is all or none. It never panics. When some image
    finds no flash it returns -1 and every byte of the pool, every process
    and the flash unit are as they were, with every block it had reserved
    given back; otherwise the pool holds no image any more, each process
    whose image was there points at blocks that hold its three segments byte
    for byte, no other process is touched, and no block that was in use is
    written. *)
Theorem evacuate_all_or_none `{ES : EncoderSpec} hard_err nswap psize codec_win NPROC G SP live w buf :
  board hard_err nswap psize codec_win -> world_inv nswap psize NPROC G SP live w -> length buf = 1024%nat ->
  (exists mp', swapram_evacuate hard_err nswap codec_win NPROC buf w = Ok (false, World (w_sr w) (w_proc w) mp' (w_next w) (w_cursor w) (w_flash w)) /\
     swap_inv nswap (Swap mp' (w_next w) live)) \/
  (exists w' live', swapram_evacuate hard_err nswap codec_win NPROC buf w = Ok (true, w') /\ world_inv nswap psize NPROC (fun _ => None) SP (live' ++ live) w' /\
     swapram_images (w_sr w') = 0%nat /\ length live' = swapram_images (w_sr w) /\ same_ctl (w_sr w) (w_sr w') /\ evacuated G live w w').
Proof.
  intros [Hd Hwin Hps [Hns _]] Hw Hbuf.
  destruct (evacuate_spec hard_err codec_win nswap psize NPROC Hd Hwin Hps Hns G SP live w buf Hw Hbuf) as [(mp'&He&Hw')|(w'&live'&He&Hw'&Hl&Hctl&Hev)].
  - left. exists mp'. split; [done|]. apply Hw'.
  - right. exists w', live'. split; [done|]. split; [done|]. rewrite !(images_count psize NPROC Hps _ SP) by (apply Hw || apply Hw').
    by rewrite images_none.
Qed.

(** C20. The pool and a large process never own the pool's bytes at the same
    time. The boot state is consistent, and whatever happens next within the
    rules (requests for images and spools, the swapper's turn, a process
    entering, leaving or inheriting the bonus, the operator's requests) the
    kernel does not panic and the state is consistent again: under SMALL no
    process is large; under LARGE the pool holds no image and no spool and
    admits none; and [sr_nlarge] counts the large processes. *)
Theorem pool_never_shared `{ES : EncoderSpec} hard_err nswap psize codec_win NPROC pool mp next cursor f :
  board hard_err nswap psize codec_win -> (0 < NPROC)%nat -> lenz pool = psize -> swap_init swapmap_init nswap = Ok mp -> 0 <= next < 2 ^ 32 ->
  consistent nswap psize NPROC (fun _ => None, []) [] (world_boot NPROC pool mp next cursor f) /\
  forall A live w ev, consistent nswap psize NPROC A live w -> allowed psize NPROC A live w ev ->
    exists w' A' live', happens hard_err nswap psize codec_win NPROC ev w = Ok w' /\ consistent nswap psize NPROC A' live' w'.
Proof.
  intros [Hd Hwin Hps Hns] Hn Hl Hi Hx. split; [by apply boot_consistent; [lia|..]|].
  intros A live w ev. apply happens_ok; by destruct Hns.
Qed.

(** C21. A process that asks for the bonus is answered. With no argument
    spool live, it posts its request and sleeps, one turn of the swapper
    wakes it, and it returns at once: with the bonus, under LARGE and an
    empty closed pool, or with ENOMEM under SMALL and without it. It never
    goes back to sleep. An operator's request for SMALL that is pending
    refuses it even when the pool was moved to flash. *)
Theorem enter_large_answered `{ES : EncoderSpec} hard_err nswap psize codec_win NPROC G live w p buf :
  board hard_err nswap psize codec_win -> consistent nswap psize NPROC (G, []) live w -> (p < NPROC)%nat ->
  swapram_epoch (w_sr w) = SWAPRAM_SMALL -> length buf = 1024%nat ->
  exists seq w1 w2 r w3, swapram_enter_large p w = Ok (Asleep seq, w1) /\
    swapram_service hard_err nswap codec_win NPROC buf w1 = Ok (w2, true) /\ enter_woken p seq w2 = Ok (Entered r, w3) /\
    (r = 0 /\ swapram_epoch (w_sr w3) = SWAPRAM_LARGE /\ swapram_images (w_sr w3) = 0%nat /\ sr_admit (w_sr w3) = false /\
       (exists v, w_proc w3 !! p = Some v /\ v_large v = true) \/
     r = SR_ENOMEM /\ swapram_epoch (w_sr w3) = SWAPRAM_SMALL /\ (exists v, w_proc w3 !! p = Some v /\ v_large v = false)) /\
    (sr_small_want (w_sr w) = true -> r = SR_ENOMEM).
Proof.
  intros [Hd Hwin Hps [Hns _]] Hcons Hp Ee Hbuf. pose proof Hcons as [Hw Hx]. cbn [fst snd] in *.
  assert (forall A live w q, consistent nswap psize NPROC A live w -> (q < NPROC)%nat -> exists v, w_proc w !! q = Some v) as Hproc.
  { intros A lv u q [Hu _] Hq. apply lookup_lt_is_Some. by rewrite (wi_procs _ _ _ _ _ _ _ Hu). }
  destruct (Hproc _ _ _ p Hcons Hp) as [v Hv]. pose proof (ex_small _ _ _ Hx Ee p v Hv) as Hl.
  unfold swapram_enter_large. rewrite (rd_ok _ _ _ Hv). cbn [mbind outcome_bind]. rewrite Hl.
  destruct (enter_round_ok nswap psize NPROC G [] live w p Hcons ltac:(by exists v)) as (r1&w1&->&Hc1&[(El&_)|(_&->&Ew1)]); [by rewrite Ee in El|].
  destruct (service_spec hard_err codec_win nswap psize NPROC Hd Hwin Hps Hns G [] live w1 buf Hc1 Hbuf) as (w2&woken&G2&live2&Es&Hc2&_&Hnl&Hlarge&Hsmall).
  destruct Hlarge as (_&Hseq&->); [by rewrite Ew1|by left|]. rewrite Ew1 in Hsmall, Hseq. cbn [with_sr w_sr set_large_want sr_small_want sr_nlarge sr_large_seq] in Hsmall, Hseq.
  assert (sr_large_seq (w_sr w) <> sr_large_seq (w_sr w2)) as Hne.
  { rewrite Hseq. unfold trunc. intros Hq. pose proof (Z.mod_pos_bound (sr_large_seq (w_sr w) + 1) (2 ^ 32) ltac:(lia)).
    pose proof (Z.div_mod (sr_large_seq (w_sr w) + 1) (2 ^ 32) ltac:(lia)). lia. }
  destruct (Hproc _ _ _ p Hc2 Hp) as [v2 Hv2]. pose proof Hc2 as [_ Hx2]. cbn [fst snd] in Hx2.
  eexists _, w1, w2. unfold enter_woken. destruct (exclusive_cases _ _ _ Hx2) as [[E2 Hc]|(E2&HG2&_)]; rewrite E2; cbn [Z.eqb SWAPRAM_SMALL SWAPRAM_LARGE andb].
  - rewrite (proj2 (Z.eqb_neq _ _)) by done. cbn [negb]. eexists _, w2. split; [done|]. split; [done|]. split; [done|]. split; [|done].
    right. split; [done|]. split; [done|]. exists v2. split; [done|]. by apply (count_zero _ Hc p).
  - assert (v_large v2 = false) as Hl2.
    { apply (count_zero (w_proc w2)) with p; [|done]. rewrite <- (ex_count _ _ _ Hx2), Hnl, Ew1. cbn [with_sr w_sr set_large_want sr_nlarge].
      rewrite (ex_count _ _ _ Hx). apply count_small. by apply (ex_small _ _ _ Hx). }
    destruct (enter_round_ok nswap psize NPROC G2 [] live2 w2 p Hc2 ltac:(by exists v2)) as (r&w3&->&Hc3&[(_&->&E3&Hlv)|(Es2&_)]); [|by rewrite E2 in Es2].
    eexists _, w3. split; [done|]. split; [done|]. split; [done|]. pose proof Hc3 as [Hw3 Hx3]. cbn [fst snd] in *.
    split.
    + left. split; [done|]. split; [done|]. destruct (ex_large _ _ _ Hx3 E3) as (HG3&_&Ha3). split; [|done].
      rewrite (images_count psize NPROC Hps G2 [] (w_sr w3)) by apply Hw3. by apply images_zero.
    + intros Hsm. destruct (Hsmall Hsm) as [_ Hs0]. rewrite Hs0 in E2; [done|]. rewrite (ex_count _ _ _ Hx). apply count_small. by apply (ex_small _ _ _ Hx).
Qed.

(** ** Witnesses *)

#[local] Existing Instances LitEncoder LitSpec.

Definition pool_ex : list Z := replicate 64 7.
Definition map_384 : map := Map (Mapent 380 4 :: replicate 28 map_end) 28.
Definition win_ex : nat -> nat -> list Z := fun _ _ => replicate 512 0.
Definition buf_ex : list Z := replicate 1024 0.
Definition world_ex : world := world_boot 4 pool_ex map_384 4 0 (fun _ => 0).
(** The image of slot 1 swapped out. *)
Definition world_out : world :=
  match do_request (E := LitEncoder) 64 4 (ReqOut 1 im_ex) (0, 0, 0) world_ex with Ok w => w | _ => world_ex end.

Lemma board_ex : board (fun _ => false) 384 64 win_ex.
Proof. constructor; [done|intros; apply length_replicate|split; [lia|reflexivity]|split; [unfold SWAP_IMAGE_ALIGN; lia|reflexivity]]. Qed.

Lemma world_ex_consistent : consistent 384 64 4 (fun _ => None, []) [] world_ex.
Proof. apply boot_consistent; [lia|split; [unfold SWAP_IMAGE_ALIGN; lia|reflexivity]|lia|reflexivity|reflexivity|lia]. Qed.

Lemma world_out_consistent : exists A, consistent 384 64 4 A [] world_out.
Proof.
  destruct (request_ok 384 64 4 ltac:(split; [lia|reflexivity]) (fun _ => None) [] [] world_ex (ReqOut 1 im_ex) (0, 0, 0) world_ex_consistent) as (w'&A'&Er&Hc).
  - split; [|cbn [fst]; rewrite images_none; unfold max_live; cbn; lia].
    apply (client_ex_may []). constructor.
  - exists A'. unfold world_out. by rewrite Er.
Qed.

Lemma evacuate_all_or_none_witness : exists G SP,
  (exists mp', swapram_evacuate (fun _ => false) 384 win_ex 4 buf_ex world_out = Ok (false, World (w_sr world_out) (w_proc world_out) mp' (w_next world_out) (w_cursor world_out) (w_flash world_out)) /\
     swap_inv 384 (Swap mp' (w_next world_out) [])) \/
  (exists w' live', swapram_evacuate (fun _ => false) 384 win_ex 4 buf_ex world_out = Ok (true, w') /\ world_inv 384 64 4 (fun _ => None) SP (live' ++ []) w' /\
     swapram_images (w_sr w') = 0%nat /\ length live' = swapram_images (w_sr world_out) /\ same_ctl (w_sr world_out) (w_sr w') /\ evacuated G [] world_out w').
Proof.
  destruct world_out_consistent as [[G SP] [Hw _]]. exists G, SP. apply (evacuate_all_or_none (fun _ => false) 384 64 win_ex 4 G SP [] world_out buf_ex); [exact board_ex|exact Hw|apply length_replicate].
Defined.

Lemma pool_never_shared_witness : consistent 384 64 4 (fun _ => None, []) [] (world_boot 4 pool_ex map_384 4 0 (fun _ => 0)) /\
  forall A live w ev, consistent 384 64 4 A live w -> allowed 64 4 A live w ev ->
    exists w' A' live', happens (fun _ => false) 384 64 win_ex 4 ev w = Ok w' /\ consistent 384 64 4 A' live' w'.
Proof. apply (pool_never_shared (fun _ => false) 384 64 win_ex 4 pool_ex map_384 4 0 (fun _ => 0)); [exact board_ex|lia|reflexivity|reflexivity|lia]. Defined.

Lemma enter_large_answered_witness : exists seq w1 w2 r w3, swapram_enter_large 2 world_ex = Ok (Asleep seq, w1) /\
    swapram_service (fun _ => false) 384 win_ex 4 buf_ex w1 = Ok (w2, true) /\ enter_woken 2 seq w2 = Ok (Entered r, w3) /\
    (r = 0 /\ swapram_epoch (w_sr w3) = SWAPRAM_LARGE /\ swapram_images (w_sr w3) = 0%nat /\ sr_admit (w_sr w3) = false /\
       (exists v, w_proc w3 !! 2%nat = Some v /\ v_large v = true) \/
     r = SR_ENOMEM /\ swapram_epoch (w_sr w3) = SWAPRAM_SMALL /\ (exists v, w_proc w3 !! 2%nat = Some v /\ v_large v = false)) /\
    (sr_small_want (w_sr world_ex) = true -> r = SR_ENOMEM).
Proof.
  apply (enter_large_answered (fun _ => false) 384 64 win_ex 4 (fun _ => None) [] world_ex 2 buf_ex);
    [exact board_ex|exact world_ex_consistent|lia|reflexivity|apply length_replicate].
Defined.

(** The evacuation of the image, computed: its first bytes on the unit. *)
Example evacuate_ex : match swapram_evacuate (fun _ => false) 384 win_ex 4 buf_ex world_out with
  | Ok (true, w) => (p_daddr <$> w_proc w, (fun i => w_flash w (4 * 1024 + i)) <$> [0; 1; 2; 3; 4; 5], swapram_images (w_sr w)) = ([0; 4; 0; 0], [1; 2; 3; 3; 3; 0], 0%nat)
  | _ => False end.
Proof. vm_compute. reflexivity. Qed.
