(* ===== verification/Bufqueue.v ===== *)
(** * The free lists of the buffer cache ([sys/sys/buf.h])

    [bremfree], [binsheadfree] and [binstailfree] on the link arrays
    themselves: a node is the index of a buffer or of a list head, and a list
    is the circle of nodes from its head along [av_forw], with [av_back]
    leading the other way. *)
From stdpp Require Import list.
From S2P Require Import Prelude.

Record links := Links { av_forw : list nat; av_back : list nat }.

Definition set_forw (l : links) (i v : nat) : outcome links := f ← wr (av_forw l) i v; Ok (Links f (av_back l)).
Definition set_back (l : links) (i v : nat) : outcome links := b ← wr (av_back l) i v; Ok (Links (av_forw l) b).

(** [(bp)->av_back->av_forw = (bp)->av_forw; (bp)->av_forw->av_back = (bp)->av_back;] *)
Definition bremfree (l : links) (bp : nat) : outcome links :=
  p ← rd (av_back l) bp; n ← rd (av_forw l) bp;
  l ← set_forw l p n;
  n ← rd (av_forw l) bp; p ← rd (av_back l) bp;
  set_back l n p.

(** [(dp)->av_forw->av_back = (bp); (bp)->av_forw = (dp)->av_forw; (dp)->av_forw = (bp); (bp)->av_back = (dp);] *)
Definition binsheadfree (l : links) (bp dp : nat) : outcome links :=
  n ← rd (av_forw l) dp;
  l ← set_back l n bp;
  n ← rd (av_forw l) dp;
  l ← set_forw l bp n;
  l ← set_forw l dp bp;
  set_back l bp dp.

(** [(dp)->av_back->av_forw = (bp); (bp)->av_back = (dp)->av_back; (dp)->av_back = (bp); (bp)->av_forw = (dp);] *)
Definition binstailfree (l : links) (bp dp : nat) : outcome links :=
  p ← rd (av_back l) dp;
  l ← set_forw l p bp;
  p ← rd (av_back l) dp;
  l ← set_back l bp p;
  l ← set_back l dp bp;
  set_forw l bp dp.

(** A path of nodes that are linked both ways. *)
Fixpoint linked (l : links) (xs : list nat) : Prop :=
  match xs with
  | x :: ((y :: _) as r) => av_forw l !! x = Some y /\ av_back l !! y = Some x /\ linked l r
  | _ => True
  end.

(** The nodes of a list with head [h], in order. *)
Definition ring (l : links) (h : nat) (ms : list nat) : Prop := linked l (h :: ms ++ [h]).

Lemma linked_cons l x y r : linked l (x :: y :: r) <-> av_forw l !! x = Some y /\ av_back l !! y = Some x /\ linked l (y :: r).
Proof. done. Qed.

Lemma linked_app l xs x ys : linked l (xs ++ x :: ys) <-> linked l (xs ++ [x]) /\ linked l (x :: ys).
Proof.
  induction xs as [|a xs IH]; [cbn [app]; split; [intros H; split; [done | exact H] | by intros [_ H]]|].
  destruct xs as [|b xs]; cbn [app] in *; rewrite !linked_cons; [tauto|]. rewrite IH. tauto.
Qed.

(** A store to [av_forw] keeps the paths that do not leave its node, a store
    to [av_back] those that do not enter it. *)
Lemma linked_forw l a v xs z : a ∉ xs -> linked l (xs ++ [z]) -> linked (Links (<[a:=v]> (av_forw l)) (av_back l)) (xs ++ [z]).
Proof.
  induction xs as [|x [|y xs] IH]; cbn [app] in *; [done| |]; rewrite !linked_cons; intros Ha (H1 & H2 & H3); cbn [av_forw av_back].
  - split; [|done]. rewrite list_lookup_insert_ne; [done|]. set_solver.
  - split; [|split; [done | apply IH; [set_solver | exact H3]]]. rewrite list_lookup_insert_ne; [done|]. set_solver.
Qed.

Lemma linked_back l a v z xs : a ∉ xs -> linked l (z :: xs) -> linked (Links (av_forw l) (<[a:=v]> (av_back l))) (z :: xs).
Proof.
  revert z. induction xs as [|x xs IH]; intros z; [done|]. rewrite !linked_cons. intros Ha (H1 & H2 & H3). cbn [av_forw av_back].
  split; [done|]. split; [rewrite list_lookup_insert_ne; [done | set_solver] | apply IH; [set_solver | done]].
Qed.

Lemma set_forw_ok l i v : (i < length (av_forw l))%nat -> set_forw l i v = Ok (Links (<[i:=v]> (av_forw l)) (av_back l)).
Proof. intros Hi. unfold set_forw. by rewrite wr_ok. Qed.
Lemma set_back_ok l i v : (i < length (av_back l))%nat -> set_back l i v = Ok (Links (av_forw l) (<[i:=v]> (av_back l))).
Proof. intros Hi. unfold set_back. by rewrite wr_ok. Qed.

(** A ring seen around one of its edges. *)
Lemma ring_split (h b : nat) (m1 m2 : list nat) : exists (pre : list nat) (p n : nat) (post : list nat), h :: m1 = pre ++ [p] /\ m2 ++ [h] = n :: post /\ h :: (m1 ++ b :: m2) ++ [h] = pre ++ p :: b :: n :: post.
Proof.
  destruct (@exists_last nat (h :: m1)) as (pre & p & E1); [done|].
  destruct (m2 ++ [h]) as [|n post] eqn:E2; [by destruct m2|].
  exists pre, p, n, post. split; [done|]. split; [done|].
  rewrite <- (app_assoc m1). change (h :: m1 ++ (b :: m2) ++ [h]) with ((h :: m1) ++ b :: (m2 ++ [h])).
  by rewrite E1, E2, <- app_assoc.
Qed.

Definition nodes (l : links) (k : nat) : Prop := length (av_forw l) = k /\ length (av_back l) = k.
Definition in_nodes (k : nat) (xs : list nat) : Prop := Forall (fun x => (x < k)%nat) xs.

(** A list not touched by a store. *)
Lemma ring_forw l a v h ms : a ∉ h :: ms -> ring l h ms -> ring (Links (<[a:=v]> (av_forw l)) (av_back l)) h ms.
Proof. intros Ha Hr. exact (linked_forw l a v (h :: ms) h Ha Hr). Qed.
Lemma ring_back l a v h ms : a ∉ h :: ms -> ring l h ms -> ring (Links (av_forw l) (<[a:=v]> (av_back l))) h ms.
Proof. intros Ha Hr. apply (linked_back l a v h (ms ++ [h])); [|exact Hr]. set_solver. Qed.

(** What an operation on the list of head [h] leaves: the other lists. *)
Definition others (l l' : links) (ms : list nat) : Prop :=
  forall h' ms', (forall x, x ∈ h' :: ms' -> x ∉ ms) -> ring l h' ms' -> ring l' h' ms'.

Lemma others_forw l a v ms : a ∈ ms -> others l (Links (<[a:=v]> (av_forw l)) (av_back l)) ms.
Proof. intros Ha h' ms' Hd Hr. apply ring_forw; [|done]. intros Hx. exact (Hd _ Hx Ha). Qed.
Lemma others_back l a v ms : a ∈ ms -> others l (Links (av_forw l) (<[a:=v]> (av_back l))) ms.
Proof. intros Ha h' ms' Hd Hr. apply ring_back; [|done]. intros Hx. exact (Hd _ Hx Ha). Qed.
Lemma others_trans l1 l2 l3 ms : others l1 l2 ms -> others l2 l3 ms -> others l1 l3 ms.
Proof. intros H1 H2 h' ms' Hd Hr. by apply H2, H1. Qed.

(** A path around an edge that goes from [p] through [b] to [n]. *)
Lemma linked_mid l pre p b n post : linked l (pre ++ p :: b :: n :: post) <->
  linked l (pre ++ [p]) /\ av_forw l !! p = Some b /\ av_back l !! b = Some p /\ av_forw l !! b = Some n /\ av_back l !! n = Some b /\ linked l (n :: post).
Proof. rewrite linked_app, !linked_cons. tauto. Qed.
Lemma linked_edge l pre p n post : linked l (pre ++ p :: n :: post) <->
  linked l (pre ++ [p]) /\ av_forw l !! p = Some n /\ av_back l !! n = Some p /\ linked l (n :: post).
Proof. rewrite linked_app, !linked_cons. tauto. Qed.

Lemma in_ring_last (h p : nat) (m1 pre : list nat) : h :: m1 = pre ++ [p] -> NoDup (h :: m1) -> p ∈ h :: m1 /\ p ∉ pre /\ (forall x, x ∈ pre -> x ∈ h :: m1).
Proof.
  intros E Hn. rewrite E in *. apply NoDup_app in Hn as (_ & Hd & _). split; [set_solver|]. split; [|set_solver].
  intros Hp. exact (Hd p Hp ltac:(set_solver)).
Qed.
Lemma in_ring_head (h n : nat) (m2 post : list nat) : m2 ++ [h] = n :: post -> NoDup (m2 ++ [h]) -> n ∈ m2 ++ [h] /\ n ∉ post /\ (forall x, x ∈ post -> x ∈ m2 ++ [h]).
Proof. intros E Hn. rewrite E in *. apply NoDup_cons in Hn as [Hd _]. set_solver. Qed.

Lemma NoDup_ring_parts (h b : nat) (m1 m2 : list nat) : NoDup (h :: m1 ++ b :: m2) -> NoDup (h :: m1) /\ NoDup (m2 ++ [h]) /\ b ∉ h :: m1 /\ b ∉ m2 ++ [h] /\ (forall x, x ∈ h :: m1 -> x ∉ m2).
Proof.
  rewrite !NoDup_cons, NoDup_app, NoDup_cons. intros (Hh & H1 & Hd & Hb & H2). rewrite elem_of_app, elem_of_cons in Hh.
  split; [split; [tauto | done]|]. split.
  - apply NoDup_app. split; [done|]. split; [|apply NoDup_singleton]. intros x Hx1 Hx2%list_elem_of_singleton. subst. tauto.
  - split; [intros [->|Hm]%elem_of_cons; [tauto|]; exact (Hd b Hm ltac:(set_solver))|]. split; [intros [Hm|Hm%list_elem_of_singleton]%elem_of_app; subst; tauto|].
    intros x [->|Hm]%elem_of_cons; [tauto|]. intros Hx. exact (Hd x Hm ltac:(set_solver)).
Qed.

(** [bremfree] takes the buffer out and leaves the order of the others. *)
Lemma bremfree_spec l k h m1 b m2 :
  nodes l k -> in_nodes k (h :: m1 ++ b :: m2) -> NoDup (h :: m1 ++ b :: m2) -> ring l h (m1 ++ b :: m2) ->
  exists l', bremfree l b = Ok l' /\ nodes l' k /\ ring l' h (m1 ++ m2) /\ others l l' (h :: m1 ++ m2).
Proof.
  intros [Hf Hb] Hin Hnd Hr. destruct (NoDup_ring_parts _ _ _ _ Hnd) as (Hn1 & Hn2 & Hb1 & Hb2 & Hd).
  destruct (ring_split h b m1 m2) as (pre & p & n & post & E1 & E2 & E3).
  unfold ring in Hr. rewrite E3 in Hr. apply linked_mid in Hr as (Hpre & Hpb & Hbp & Hbn & Hnb & Hpost).
  destruct (in_ring_last _ _ _ _ E1 Hn1) as (Hp1 & Hp2 & Hp3). destruct (in_ring_head _ _ _ _ E2 Hn2) as (Hq1 & Hq2 & Hq3).
  assert (p <> b) as Hpb' by (intros ->; tauto). assert (n <> b) as Hnb' by (intros ->; tauto).
  pose proof (lookup_lt_Some _ _ _ Hpb) as Hpl. pose proof (lookup_lt_Some _ _ _ Hnb) as Hnl.
  exists (Links (<[p:=n]> (av_forw l)) (<[n:=p]> (av_back l))). split; [|split; [|split]].
  - unfold bremfree. rewrite (rd_ok _ _ _ Hbp). cbn. rewrite (rd_ok _ _ _ Hbn). cbn. rewrite set_forw_ok by done. cbn.
    unfold rd. rewrite list_lookup_insert_ne by congruence. rewrite Hbn, Hbp. cbn. by rewrite set_back_ok by done.
  - split; cbn; by rewrite length_insert.
  - unfold ring. change (h :: (m1 ++ m2) ++ [h]) with ((h :: m1 ++ m2) ++ [h]). replace ((h :: m1 ++ m2) ++ [h]) with (pre ++ p :: n :: post).
    2: { change (h :: m1 ++ m2) with ((h :: m1) ++ m2). by rewrite <- app_assoc, E1, E2, <- app_assoc. }
    apply linked_edge. cbn [av_forw av_back]. rewrite !list_lookup_insert_eq by done. split; [|split; [done | split; [done|]]].
    + destruct pre as [|x pre']; [done|]. cbn [app] in *. apply (linked_back (Links (<[p:=n]> (av_forw l)) (av_back l)) n p x (pre' ++ [p])).
      * injection E1 as -> E1. rewrite <- E1. intros Hm. rewrite E2 in Hq1.
        apply NoDup_cons in Hn1 as [Hh1 _]. destruct (decide (n = x)) as [->|Hnx]; [done|].
        apply (Hd n ltac:(set_solver)). rewrite <- E2 in Hq1. apply elem_of_app in Hq1 as [|]; set_solver.
      * exact (linked_forw l p n (x :: pre') p Hp2 Hpre).
    + apply (linked_back (Links (<[p:=n]> (av_forw l)) (av_back l)) n p n post Hq2).
      rewrite <- E2 in Hpost |- *. apply (linked_forw l p n m2 h); [|done]. by apply Hd.
  - apply (others_trans l (Links (<[p:=n]> (av_forw l)) (av_back l))); [apply others_forw | apply (others_back (Links _ _))].
    + set_solver.
    + set_solver.
Qed.

(** The nodes at both ends of a list. *)
Lemma ring_ends l h ms : ring l h ms -> exists n p post pre,
  ms ++ [h] = n :: post /\ h :: ms = pre ++ [p] /\ av_forw l !! h = Some n /\ av_back l !! n = Some h /\ av_back l !! h = Some p /\ av_forw l !! p = Some h /\
  linked l (n :: post) /\ linked l (pre ++ [p]).
Proof.
  unfold ring. intros Hr. destruct (ms ++ [h]) as [|n post] eqn:E1; [by destruct ms|].
  destruct (@exists_last nat (h :: ms)) as (pre & p & E2); [done|]. exists n, p, post, pre.
  assert (pre ++ p :: [h] = h :: n :: post) as E3 by (rewrite <- E1; change (h :: ms ++ [h]) with ((h :: ms) ++ [h]); by rewrite E2, <- app_assoc).
  assert (linked l (pre ++ p :: [h])) as H2 by (by rewrite E3). apply linked_app in H2 as [H2 (H3 & H4 & _)].
  destruct Hr as (H5 & H6 & H7). done.
Qed.

Lemma binsheadfree_spec l k h b ms :
  nodes l k -> in_nodes k (b :: h :: ms) -> NoDup (b :: h :: ms) -> ring l h ms ->
  exists l', binsheadfree l b h = Ok l' /\ nodes l' k /\ ring l' h (b :: ms) /\ others l l' (h :: b :: ms).
Proof.
  intros [Hf Hk] Hin Hnd Hr. destruct (ring_ends _ _ _ Hr) as (n & p & post & pre & E1 & _ & Hn & Hnb & _ & _ & Hl & _).
  apply NoDup_cons in Hnd as [Hbn Hnd]. assert (NoDup (ms ++ [h])) as Hn2 by (by rewrite Permutation_app_comm).
  destruct (in_ring_head _ _ _ _ E1 Hn2) as (Hq1 & Hq2 & Hq3).
  assert (h < k /\ b < k)%nat as [Hhl Hbl] by (apply Forall_cons in Hin as [? [? ?]%Forall_cons]; done).
  pose proof (lookup_lt_Some _ _ _ Hnb) as Hnl. assert (n <> b) as Hnb' by (intros ->; set_solver). assert (b <> h) as Hbh by set_solver.
  set (l1 := Links (av_forw l) (<[n:=b]> (av_back l))). set (l2 := Links (<[b:=n]> (av_forw l1)) (av_back l1)).
  set (l3 := Links (<[h:=b]> (av_forw l2)) (av_back l2)). set (l4 := Links (av_forw l3) (<[b:=h]> (av_back l3))).
  exists l4. split; [|split; [|split]].
  - unfold binsheadfree. rewrite (rd_ok _ _ _ Hn). cbn. rewrite set_back_ok by lia. cbn. rewrite (rd_ok _ _ _ Hn). cbn.
    rewrite set_forw_ok by (cbn; lia). cbn. rewrite set_forw_ok by (cbn; rewrite length_insert; lia). cbn. by rewrite set_back_ok by (cbn; rewrite length_insert; lia).
  - split; cbn; rewrite !length_insert; done.
  - unfold ring. cbn [app]. rewrite E1, !linked_cons. unfold l4, l3, l2, l1. cbn [av_forw av_back].
    rewrite (list_lookup_insert_eq _ h) by (rewrite length_insert; lia). rewrite (list_lookup_insert_eq _ b h) by (rewrite length_insert; lia).
    rewrite (list_lookup_insert_ne _ h b), list_lookup_insert_eq by (done || lia). rewrite (list_lookup_insert_ne _ b n), list_lookup_insert_eq by (done || lia).
    repeat (split; [done|]).
    assert (linked l1 (ms ++ [h])) as H1 by (rewrite E1; by apply linked_back).
    assert (linked l3 (ms ++ [h])) as H3.
    { apply (linked_forw l2); [apply NoDup_cons in Hnd; tauto|]. apply (linked_forw l1); [set_solver | done]. }
    rewrite E1 in H3. apply (linked_back l3 b h n post); [intros Hx; pose proof (Hq3 b Hx); set_solver | done].
  - apply (others_trans l l1); [apply others_back | apply (others_trans l1 l2); [apply others_forw | apply (others_trans l2 l3); [apply others_forw | apply (others_back l3)]]]; set_solver.
Qed.

Lemma binstailfree_spec l k h b ms :
  nodes l k -> in_nodes k (b :: h :: ms) -> NoDup (b :: h :: ms) -> ring l h ms ->
  exists l', binstailfree l b h = Ok l' /\ nodes l' k /\ ring l' h (ms ++ [b]) /\ others l l' (h :: b :: ms).
Proof.
  intros [Hf Hk] Hin Hnd Hr. destruct (ring_ends _ _ _ Hr) as (n & p & post & pre & _ & E2 & _ & _ & Hp & Hpf & _ & Hl).
  apply NoDup_cons in Hnd as [Hbn Hnd]. destruct (in_ring_last _ _ _ _ E2 Hnd) as (Hq1 & Hq2 & Hq3).
  assert (h < k /\ b < k)%nat as [Hhl Hbl] by (apply Forall_cons in Hin as [? [? ?]%Forall_cons]; done).
  pose proof (lookup_lt_Some _ _ _ Hpf) as Hpl. assert (p <> b) as Hpb' by (intros ->; done). assert (b <> h) as Hbh by set_solver.
  set (l1 := Links (<[p:=b]> (av_forw l)) (av_back l)). set (l2 := Links (av_forw l1) (<[b:=p]> (av_back l1))).
  set (l3 := Links (av_forw l2) (<[h:=b]> (av_back l2))). set (l4 := Links (<[b:=h]> (av_forw l3)) (av_back l3)).
  exists l4. split; [|split; [|split]].
  - unfold binstailfree. rewrite (rd_ok _ _ _ Hp). cbn. rewrite set_forw_ok by lia. cbn. rewrite (rd_ok _ _ _ Hp). cbn.
    rewrite set_back_ok by (cbn; lia). cbn. rewrite set_back_ok by (cbn; rewrite length_insert; lia). cbn. by rewrite set_forw_ok by (cbn; rewrite length_insert; lia).
  - split; cbn; rewrite !length_insert; done.
  - unfold ring. replace (h :: (ms ++ [b]) ++ [h]) with (pre ++ p :: b :: [h]).
    2: { rewrite <- (app_assoc ms). change (h :: ms ++ [b] ++ [h]) with ((h :: ms) ++ [b; h]). by rewrite E2, <- app_assoc. }
    apply linked_mid. unfold l4, l3, l2, l1. cbn [av_forw av_back].
    rewrite (list_lookup_insert_ne _ b p), (list_lookup_insert_eq _ p), (list_lookup_insert_ne _ h b), (list_lookup_insert_eq _ b p), (list_lookup_insert_eq _ b h), (list_lookup_insert_eq _ h b)
      by (rewrite ?length_insert; congruence || lia).
    split; [|done].
    assert (linked l1 (pre ++ [p])) as H1 by (by apply linked_forw). rewrite <- E2 in H1.
    assert (linked l3 (h :: ms)) as H3.
    { apply (linked_back l2); [apply NoDup_cons in Hnd; tauto|]. apply (linked_back l1); [set_solver | done]. }
    rewrite E2 in H3. apply (linked_forw l3); [|done]. intros Hx. exact (Hbn (Hq3 b Hx)).
  - apply (others_trans l l1); [apply others_forw | apply (others_trans l1 l2); [apply others_back | apply (others_trans l2 l3); [apply others_back | apply (others_forw l3)]]]; set_solver.
Qed.

(** ** The three free lists of a cache

    The lists by number, with [n] buffers and the heads after them. *)
Definition queues_ok (n : nat) (l : links) (Q : nat -> list nat) : Prop :=
  nodes l (n + 3) /\
  (forall q, (q < 3)%nat -> NoDup (Q q) /\ Forall (fun i => (i < n)%nat) (Q q) /\ ring l (n + q) (Q q)) /\
  (forall q r i, (q < 3)%nat -> (r < 3)%nat -> i ∈ Q q -> i ∈ Q r -> q = r).

Definition queued (Q : nat -> list nat) (i : nat) : Prop := exists q, (q < 3)%nat /\ i ∈ Q q.
Definition setq (Q : nat -> list nat) (q : nat) (x : list nat) : nat -> list nat := fun r => if decide (r = q) then x else Q r.

Lemma setq_eq Q q x : setq Q q x q = x.
Proof. unfold setq. by rewrite decide_True. Qed.
Lemma setq_ne Q q x r : r <> q -> setq Q q x r = Q r.
Proof. intros Hr. unfold setq. by rewrite decide_False. Qed.
Lemma elem_setq Q q x r i : i ∈ setq Q q x r <-> r = q /\ i ∈ x \/ r <> q /\ i ∈ Q r.
Proof. unfold setq. destruct (decide (r = q)); naive_solver. Qed.

(** One list changed within its own nodes and those of no list. *)
Lemma queues_set n l l' Q q x :
  queues_ok n l Q -> (q < 3)%nat -> nodes l' (n + 3) -> NoDup x -> Forall (fun i => (i < n)%nat) x -> ring l' (n + q) x ->
  (forall i, i ∈ x -> i ∈ Q q \/ ~ queued Q i) -> others l l' ((n + q)%nat :: x ++ Q q) -> queues_ok n l' (setq Q q x).
Proof.
  intros (Hn & HQ & Hd) Hq Hn' Hx Hb Hr Hin Ho. split; [done|]. split.
  - intros r Hr3. destruct (decide (r = q)) as [->|Hrq]; [by rewrite setq_eq|]. rewrite setq_ne by done. destruct (HQ r Hr3) as (H1 & H2 & H3).
    split; [done|]. split; [done|]. apply Ho; [|done].
    intros y [->|Hy]%elem_of_cons; rewrite elem_of_cons, elem_of_app.
    + rewrite !Forall_forall in Hb. pose proof (proj1 (proj2 (HQ q Hq))) as Hb'. rewrite Forall_forall in Hb'.
      intros [H|[H|H]]; [lia | specialize (Hb _ H) | specialize (Hb' _ H)]; lia.
    + rewrite Forall_forall in H2. specialize (H2 _ Hy). intros [H|[H|H]]; [lia | | by apply Hrq, (Hd r q y)].
      destruct (Hin _ H) as [H'|H']; [by apply Hrq, (Hd r q y) | apply H'; by exists r].
  - intros r r' i Hr3 Hr3'. rewrite !elem_setq. intros [[-> H1]|[Hrq H1]] [[-> H2]|[Hrq' H2]]; [done| | |by apply (Hd r r' i)].
    + destruct (Hin _ H1) as [H|H]; [by apply (Hd q r' i) | destruct H; by exists r'].
    + destruct (Hin _ H2) as [H|H]; [by apply (Hd r q i) | destruct H; by exists r].
Qed.

Lemma others_mono l l' a b : others l l' a -> (forall x, x ∈ a -> x ∈ b) -> others l l' b.
Proof. intros Ho Hi h ms Hd. apply Ho. intros x Hx Ha. exact (Hd x Hx (Hi x Ha)). Qed.

Lemma queued_lt n l Q i : queues_ok n l Q -> queued Q i -> (i < n)%nat.
Proof. intros (_ & HQ & _) (q & Hq & Hi). destruct (HQ q Hq) as (_ & Hb & _). rewrite Forall_forall in Hb. by apply Hb. Qed.

Lemma queue_nodes n l Q q i : queues_ok n l Q -> (q < 3)%nat -> (i < n)%nat -> ~ queued Q i -> NoDup (i :: n + q :: Q q)%nat /\ in_nodes (n + 3) (i :: n + q :: Q q)%nat.
Proof.
  intros (_ & HQ & _) Hq Hi Hni. destruct (HQ q Hq) as (Hnd & Hb & _). rewrite Forall_forall in Hb. split.
  - rewrite !NoDup_cons, elem_of_cons. split; [|split; [intros H; specialize (Hb _ H); lia | done]].
    intros [->|H]; [lia | apply Hni; by exists q].
  - unfold in_nodes. rewrite !Forall_cons. split; [lia|]. split; [lia|]. apply Forall_forall. intros x Hx. specialize (Hb _ Hx). lia.
Qed.

Lemma insert_head n l Q q i : queues_ok n l Q -> (q < 3)%nat -> (i < n)%nat -> ~ queued Q i ->
  exists l', binsheadfree l i (n + q) = Ok l' /\ queues_ok n l' (setq Q q (i :: Q q)).
Proof.
  intros HQ Hq Hi Hni. destruct (queue_nodes _ _ _ _ _ HQ Hq Hi Hni) as [Hnd Hin].
  pose proof HQ as (Hn & HQ' & _). destruct (HQ' q Hq) as (H1 & H2 & H3).
  destruct (binsheadfree_spec l (n + 3) (n + q) i (Q q) Hn Hin Hnd H3) as (l' & E & Hn' & Hr & Ho).
  exists l'. split; [done|]. apply (queues_set n l); [done | done | done | | by apply Forall_cons | done | set_solver |].
  - apply NoDup_cons in Hnd as [Hx _]. apply NoDup_cons. split; [set_solver | done].
  - apply (others_mono _ _ _ _ Ho). set_solver.
Qed.

Lemma insert_tail n l Q q i : queues_ok n l Q -> (q < 3)%nat -> (i < n)%nat -> ~ queued Q i ->
  exists l', binstailfree l i (n + q) = Ok l' /\ queues_ok n l' (setq Q q (Q q ++ [i])).
Proof.
  intros HQ Hq Hi Hni. destruct (queue_nodes _ _ _ _ _ HQ Hq Hi Hni) as [Hnd Hin].
  pose proof HQ as (Hn & HQ' & _). destruct (HQ' q Hq) as (H1 & H2 & H3).
  destruct (binstailfree_spec l (n + 3) (n + q) i (Q q) Hn Hin Hnd H3) as (l' & E & Hn' & Hr & Ho).
  exists l'. split; [done|]. apply (queues_set n l); [done | done | done | | | done | set_solver |].
  - apply NoDup_cons in Hnd as [Hx _]. rewrite Permutation_app_comm. apply NoDup_cons. split; [set_solver | done].
  - apply Forall_app. split; [done|]. by apply Forall_singleton.
  - apply (others_mono _ _ _ _ Ho). set_solver.
Qed.

Definition without (i : nat) (x : list nat) : list nat := filter (fun j => j <> i) x.

Lemma without_notin (x : list nat) i : i ∉ x -> without i x = x.
Proof.
  induction x as [|j x IH]; [done|]. intros Hi. unfold without in *. rewrite filter_cons_True by (intros ->; set_solver).
  f_equal. apply IH. set_solver.
Qed.
Lemma without_split (m1 m2 : list nat) i : NoDup (m1 ++ i :: m2) -> without i (m1 ++ i :: m2) = m1 ++ m2.
Proof.
  intros (_ & Hd & [Hi _]%NoDup_cons)%NoDup_app. unfold without. rewrite filter_app, filter_cons_False by tauto.
  fold (without i m1) (without i m2). rewrite !without_notin; [done | done|]. intros H. exact (Hd i H ltac:(set_solver)).
Qed.

Lemma remove_queued n l Q q i : queues_ok n l Q -> (q < 3)%nat -> i ∈ Q q ->
  exists l', bremfree l i = Ok l' /\ queues_ok n l' (setq Q q (without i (Q q))) /\ ~ queued (setq Q q (without i (Q q))) i.
Proof.
  intros HQ Hq Hi. pose proof HQ as (Hn & HQ' & Hd). destruct (HQ' q Hq) as (H1 & H2 & H3).
  apply list_elem_of_split in Hi as (m1 & m2 & E). rewrite E in *. rewrite without_split by done.
  pose proof H2 as Hb. rewrite Forall_forall in Hb.
  destruct (bremfree_spec l (n + 3) (n + q) m1 i m2 Hn) as (l' & E' & Hn' & Hr & Ho); [| | done |].
  - unfold in_nodes. apply Forall_cons. split; [lia|]. apply Forall_forall. intros x Hx. specialize (Hb _ Hx). lia.
  - apply NoDup_cons. split; [intros Hx; specialize (Hb _ Hx); lia | done].
  - exists l'. split; [done|]. apply NoDup_app in H1 as (Ha & Hab & [Hc Hd']%NoDup_cons). split.
    + apply (queues_set n l); [done | done | done | | | done | rewrite E; set_solver | apply (others_mono _ _ _ _ Ho); set_solver].
      * apply NoDup_app. split; [done|]. split; [|done]. intros x Hx Hx2. apply (Hab x Hx). set_solver.
      * apply Forall_forall. intros x Hx. apply Hb. set_solver.
    + intros (r & Hr3 & Hir). destruct (decide (r = q)) as [->|Hrq].
      * rewrite setq_eq in Hir. apply elem_of_app in Hir as [Hir|Hir]; [apply (Hab i Hir); set_solver | done].
      * rewrite setq_ne in Hir by done. apply Hrq, (Hd r q i); [done | done | done | rewrite E; set_solver].
Qed.

(** The node after a head is the first of its list, or the head. *)
Lemma queue_first n l Q q : queues_ok n l Q -> (q < 3)%nat -> av_forw l !! (n + q)%nat = Some (default (n + q)%nat (head (Q q))).
Proof. intros (_ & HQ & _) Hq. destruct (HQ q Hq) as (_ & _ & Hr). unfold ring in Hr. destruct (Q q) as [|i x]; cbn in *; tauto. Qed.

(** The node after a member is the next member, or the head. *)
Lemma queue_next n l Q q m1 i m2 : queues_ok n l Q -> (q < 3)%nat -> Q q = m1 ++ i :: m2 -> av_forw l !! i = Some (default (n + q)%nat (head m2)).
Proof.
  intros (_ & HQ & _) Hq E. destruct (HQ q Hq) as (_ & _ & Hr). unfold ring in Hr. rewrite E in Hr.
  change (linked l ((n + q)%nat :: (m1 ++ i :: m2) ++ [(n + q)%nat])) with (linked l (((n + q)%nat :: m1 ++ i :: m2) ++ [(n + q)%nat])) in Hr.
  rewrite app_comm_cons, <- (app_assoc (_ :: m1)) in Hr. cbn [app] in Hr. apply (linked_app l (_ :: m1) i) in Hr as [_ Hr].
  destruct m2; cbn in *; tauto.
Qed.
