(* ===== verification/Bufcache.v ===== *)
(** * The buffer cache ([sys/kern/ufs_bio.c], [sys/sys/buf.h])

    The rp2040 kernels are built with LINEAR_BUFFER_CACHE: the buffers are an
    array that is searched from its start, and the free lists are the circles
    of [Bufqueue] with their heads after the buffers. A buffer is the index
    of its header; its block is at the same index of [bdata], which is where
    [b_addr] points. The block drivers of the port finish a transfer, and call
    [biodone], before [d_strategy] returns: the transfer itself is the
    interface [Disk]. An operation that would sleep ends there and says on
    what; statistics that the default kernels compile out are left out. *)
From stdpp Require Import list.
From S2P Require Import Prelude Bufqueue.

Definition B_READ : Z := 0x1.
Definition B_DONE : Z := 0x2.
Definition B_ERROR : Z := 0x4.
Definition B_BUSY : Z := 0x8.
Definition B_PHYS : Z := 0x10.
Definition B_WANTED : Z := 0x40.
Definition B_AGE : Z := 0x80.
Definition B_ASYNC : Z := 0x100.
Definition B_DELWRI : Z := 0x200.
Definition B_TAPE : Z := 0x400.
Definition B_INVAL : Z := 0x800.
Definition B_LOCKED : Z := 0x2000.
Definition B_RAMREMAP : Z := 0x8000.

Definition BQUEUES : nat := 3.
Definition BQ_LOCKED : nat := 0.
Definition BQ_LRU : nat := 1.
Definition BQ_AGE : nat := 2.

Definition NBUF : nat := 4.
Definition NMOUNT : nat := 2.
Definition DEV_BSIZE : Z := 1024.
Definition NODEV : Z := -1.
Definition EIO : Z := 5.

(** [b_addr] counts from [bufdata]. *)
Record buf := Buf { b_flags : Z; b_bcount : Z; b_error : Z; b_dev : Z; b_addr : Z; b_blkno : Z; b_resid : Z }.

Definition with_flags (b : buf) (f : Z) : buf := Buf f (b_bcount b) (b_error b) (b_dev b) (b_addr b) (b_blkno b) (b_resid b).
Definition with_bcount (b : buf) (n : Z) : buf := Buf (b_flags b) n (b_error b) (b_dev b) (b_addr b) (b_blkno b) (b_resid b).
Definition with_bdev (b : buf) (d : Z) : buf := Buf (b_flags b) (b_bcount b) (b_error b) d (b_addr b) (b_blkno b) (b_resid b).
Definition with_addr (b : buf) (a : Z) : buf := Buf (b_flags b) (b_bcount b) (b_error b) (b_dev b) a (b_blkno b) (b_resid b).
Definition with_block (b : buf) (dev blkno : Z) : buf := Buf (b_flags b) (b_bcount b) 0 dev (b_addr b) blkno (b_resid b).
(** What a driver stores: [b_resid], and for a failure [b_error] and B_ERROR. *)
Definition with_result (b : buf) (error : option Z) (resid : Z) : buf :=
  match error with
  | Some e => Buf (Z.lor (b_flags b) B_ERROR) (b_bcount b) e (b_dev b) (b_addr b) (b_blkno b) resid
  | None => Buf (b_flags b) (b_bcount b) (b_error b) (b_dev b) (b_addr b) (b_blkno b) resid
  end.

(** The fields of a mount table entry that a write error concerns. *)
Record mount := Mount { m_inodp : option nat; m_dev : Z; m_write_error : Z }.

Inductive chan := BufChan (bp : nat) | FreeChan.

Abbreviation words := (list Z).

(** The block devices: [transfer] is what a driver does for a request to read
    or write [b_bcount] bytes at [b_blkno] of [b_dev], given the words in
    memory: the device afterwards, the words in memory, the error if the
    request failed, and [b_resid]. [d_flags] is that of [bdevsw]. *)
Record xfer := Xfer { x_data : words; x_error : option Z; x_resid : Z }.
Class Disk (K : Type) := {
  transfer : K -> bool -> Z -> Z -> Z -> words -> K * xfer;
  d_flags : Z -> Z
}.

(** A transfer is of whole blocks of 256 words, and a write leaves memory. *)
Class DiskShape (K : Type) `{Disk K} := {
  transfer_words : forall k rd dev bn n x, length x = 256%nat -> length (x_data (snd (transfer k rd dev bn n x))) = 256%nat;
  transfer_write : forall k dev bn n x, x_data (snd (transfer k false dev bn n x)) = x
}.

(** Devices that store what they are given: [platter] is what a block holds,
    [dev_blocks] the size of a device. A write within the device that reports
    no error has stored the block; a write touches no other block. *)
Class DiskSpec (K : Type) `{Disk K} := {
  platter : K -> Z -> Z -> words;
  dev_blocks : Z -> Z;
  write_stores : forall k dev bn x, 0 <= bn < dev_blocks dev -> length x = 256%nat ->
    x_error (snd (transfer k false dev bn DEV_BSIZE x)) = None -> platter (fst (transfer k false dev bn DEV_BSIZE x)) dev bn = x;
  write_other : forall k dev bn x d b, 0 <= bn < dev_blocks dev -> (d, b) <> (dev, bn) -> platter (fst (transfer k false dev bn DEV_BSIZE x)) d b = platter k d b
}.

(** The buffers, their blocks, the links, whether [bfreelist[0]] has B_WANTED,
    the devices, the mount table, the channels woken so far with the latest
    first, [ru_inblock], [ru_oublock] and [u_error]. *)
Record bcache (K : Type) := Bcache {
  bufs : list buf; bdata : list words; av : links; bfreelist_wanted : bool; disk : K;
  mounts : list mount; woken : list chan; ru_inblock : Z; ru_oublock : Z; u_error : Z
}.
Arguments Bcache {K} _ _ _ _ _ _ _ _ _ _.
Arguments bufs {K} _.
Arguments bdata {K} _.
Arguments av {K} _.
Arguments bfreelist_wanted {K} _.
Arguments disk {K} _.
Arguments mounts {K} _.
Arguments woken {K} _.
Arguments ru_inblock {K} _.
Arguments ru_oublock {K} _.
Arguments u_error {K} _.

(** What a caller of [getblk] gets: a buffer, a sleep on a busy buffer, or a
    sleep until a buffer is free. *)
Inductive got := Held (bp : nat) | SleepBuf (bp : nat) | SleepFree.

Section cache.
Context {K : Type} {DK : Disk K}.
Implicit Type c : bcache K.

Definition set_bufs c (l : list buf) : bcache K := Bcache l (bdata c) (av c) (bfreelist_wanted c) (disk c) (mounts c) (woken c) (ru_inblock c) (ru_oublock c) (u_error c).
Definition set_av c (l : links) : bcache K := Bcache (bufs c) (bdata c) l (bfreelist_wanted c) (disk c) (mounts c) (woken c) (ru_inblock c) (ru_oublock c) (u_error c).
Definition set_wanted c (w : bool) : bcache K := Bcache (bufs c) (bdata c) (av c) w (disk c) (mounts c) (woken c) (ru_inblock c) (ru_oublock c) (u_error c).
Definition set_io c (k : K) (d : list words) : bcache K := Bcache (bufs c) d (av c) (bfreelist_wanted c) k (mounts c) (woken c) (ru_inblock c) (ru_oublock c) (u_error c).
Definition set_mounts c (m : list mount) : bcache K := Bcache (bufs c) (bdata c) (av c) (bfreelist_wanted c) (disk c) m (woken c) (ru_inblock c) (ru_oublock c) (u_error c).
Definition pay c (i o : Z) : bcache K := Bcache (bufs c) (bdata c) (av c) (bfreelist_wanted c) (disk c) (mounts c) (woken c) (ru_inblock c + i) (ru_oublock c + o) (u_error c).
Definition set_u_error c (e : Z) : bcache K := Bcache (bufs c) (bdata c) (av c) (bfreelist_wanted c) (disk c) (mounts c) (woken c) (ru_inblock c) (ru_oublock c) e.
Definition wake_chan c (ch : chan) : bcache K := Bcache (bufs c) (bdata c) (av c) (bfreelist_wanted c) (disk c) (mounts c) (ch :: woken c) (ru_inblock c) (ru_oublock c) (u_error c).

(** A store through [bp]. *)
Definition set_hdr c (bp : nat) (f : buf -> buf) : outcome (bcache K) :=
  b ← rd (bufs c) bp; l ← wr (bufs c) bp (f b); Ok (set_bufs c l).
Definition setbits c (bp : nat) (m : Z) : outcome (bcache K) := set_hdr c bp (fun b => with_flags b (Z.lor (b_flags b) m)).
Definition clrbits c (bp : nat) (m : Z) : outcome (bcache K) := set_hdr c bp (fun b => with_flags b (Z.land (b_flags b) (Z.lnot m))).

(** The node of [&bfreelist[q]]. *)
Definition bq c (q : nat) : nat := (length (bufs c) + q)%nat.

Definition geterror (b : buf) : Z := if on (b_flags b) B_ERROR then (if b_error b =? 0 then EIO else b_error b) else 0.

(** The first entry that is mounted on the device keeps its first error. *)
Fixpoint note_write_error (l : list mount) (dev e : Z) : list mount :=
  match l with
  | [] => []
  | m :: r => if negb (bool_decide (is_Some (m_inodp m))) || negb (m_dev m =? dev) then m :: note_write_error r dev e
              else (if m_write_error m =? 0 then Mount (m_inodp m) (m_dev m) e else m) :: r
  end.

Definition brelse c (bp : nat) : outcome (bcache K) :=
  b ← rd (bufs c) bp;
  let c := if on (b_flags b) B_WANTED then wake_chan c (BufChan bp) else c in
  let c := if bfreelist_wanted c then wake_chan (set_wanted c false) FreeChan else c in
  c ← (if on (b_flags b) B_ERROR then
         if on (b_flags b) B_LOCKED then clrbits c bp B_ERROR else set_hdr c bp (fun b => with_bdev b NODEV)
       else Ok c);
  b ← rd (bufs c) bp;
  l ← (if on (b_flags b) (Z.lor B_ERROR B_INVAL) then binsheadfree (av c) bp (bq c BQ_AGE)
       else binstailfree (av c) bp (bq c (if on (b_flags b) B_LOCKED then BQ_LOCKED else if on (b_flags b) B_AGE then BQ_AGE else BQ_LRU)));
  clrbits (set_av c l) bp (Z.lor B_WANTED (Z.lor B_BUSY (Z.lor B_ASYNC B_AGE))).

Definition biodone c (bp : nat) : outcome (bcache K) :=
  b ← rd (bufs c) bp;
  if on (b_flags b) B_DONE then Panic "dup biodone" else
  c ← setbits c bp B_DONE;
  b ← rd (bufs c) bp;
  let c := if Z.land (b_flags b) (Z.lor B_READ B_ERROR) =? B_ERROR then set_mounts c (note_write_error (mounts c) (b_dev b) (geterror b)) else c in
  if on (b_flags b) B_ASYNC then brelse c bp else c ← clrbits c bp B_WANTED; Ok (wake_chan c (BufChan bp)).

(** [( *bdevsw[major(bp->b_dev)].d_strategy)(bp)]: only a buffer whose [b_addr]
    is its own block is described, and [bdevsw] has no entry for NODEV. *)
Definition strategy c (bp : nat) : outcome (bcache K) :=
  b ← rd (bufs c) bp; x ← rd (bdata c) bp;
  if (b_dev b =? NODEV) || negb (b_addr b =? DEV_BSIZE * Z.of_nat bp) then Fault else
  let '(k, r) := transfer (disk c) (on (b_flags b) B_READ) (b_dev b) (b_blkno b) (b_bcount b) x in
  d ← wr (bdata c) bp (x_data r);
  c ← set_hdr (set_io c k d) bp (fun b => with_result b (x_error r) (x_resid r));
  biodone c bp.

(** A transfer that is not done would not be finished by anything. *)
Definition biowait c (bp : nat) : outcome (bcache K) :=
  b ← rd (bufs c) bp;
  if negb (on (b_flags b) B_DONE) then Fault else
  Ok (if u_error c =? 0 then set_u_error c (geterror b) else c).

Definition bwrite c (bp : nat) : outcome (bcache K * Z) :=
  b ← rd (bufs c) bp;
  let flag := b_flags b in
  c ← clrbits c bp (Z.lor B_READ (Z.lor B_DONE (Z.lor B_ERROR B_DELWRI)));
  let c := if negb (on flag B_DELWRI) then pay c 0 1 else c in
  c ← set_hdr c bp (fun b => with_bcount b DEV_BSIZE);
  c ← strategy c bp;
  if negb (on flag B_ASYNC) then
    c ← biowait c bp;
    b ← rd (bufs c) bp;
    let error := geterror b in
    c ← brelse c bp; Ok (c, error)
  else if on flag B_DELWRI then c ← setbits c bp B_AGE; Ok (c, 0)
  else Ok (c, 0).

Definition bawrite c (bp : nat) : outcome (bcache K) := c ← setbits c bp B_ASYNC; r ← bwrite c bp; Ok (fst r).

Definition bdwrite c (bp : nat) : outcome (bcache K) :=
  b ← rd (bufs c) bp;
  let c := if negb (on (b_flags b) B_DELWRI) then pay c 0 1 else c in
  if on (d_flags (b_dev b)) B_TAPE then bawrite c bp
  else c ← setbits c bp (Z.lor B_DELWRI B_DONE); brelse c bp.

Definition notavail c (bp : nat) : outcome (bcache K) := l ← bremfree (av c) bp; setbits (set_av c l) bp B_BUSY.
Definition bfree c (bp : nat) : outcome (bcache K) := set_hdr c bp (fun b => with_bcount b 0).

(** The free list a buffer is taken from: AGE, then LRU. *)
Definition first_free c : outcome (option nat) :=
  a ← rd (av_forw (av c)) (bq c BQ_AGE);
  if negb (bool_decide (a = bq c BQ_AGE)) then Ok (Some a) else
  l ← rd (av_forw (av c)) (bq c BQ_LRU);
  if negb (bool_decide (l = bq c BQ_LRU)) then Ok (Some l) else Ok None.

Fixpoint getnewbuf (fuel : nat) c : outcome (bcache K * got) :=
  match fuel with
  | O => Fault
  | S fuel =>
      o ← first_free c;
      match o with
      | None => Ok (set_wanted c true, SleepFree)
      | Some bp =>
          c ← notavail c bp;
          b ← rd (bufs c) bp;
          if on (b_flags b) B_DELWRI then c ← bawrite c bp; getnewbuf fuel c else
          c ← (if on (b_flags b) (Z.lor B_RAMREMAP B_PHYS) then set_hdr c bp (fun b => with_addr b (DEV_BSIZE * Z.of_nat bp)) else Ok c);
          c ← set_hdr c bp (fun b => with_flags b B_BUSY);
          Ok (c, Held bp)
      end
  end.

Definition hit (dev blkno : Z) (b : buf) : bool := (b_blkno b =? blkno) && (b_dev b =? dev) && negb (on (b_flags b) B_INVAL).
Definition lookup_buf c (dev blkno : Z) : option nat := fst <$> list_find (hit dev blkno) (bufs c).

Definition incore c (dev blkno : Z) : bool := existsb (hit dev blkno) (bufs c).

(** [getblk] from the call of [getnewbuf]: where it goes on after a sleep
    there. Every buffer is written at most once before one is found. *)
Definition getblk_miss c (dev blkno : Z) : outcome (bcache K * got) :=
  r ← getnewbuf (S (length (bufs c))) c;
  match snd r with
  | Held bp => c ← bfree (fst r) bp; c ← set_hdr c bp (fun b => with_block b dev blkno); Ok (c, Held bp)
  | g => Ok (fst r, g)
  end.

Definition getblk c (dev blkno : Z) : outcome (bcache K * got) :=
  match lookup_buf c dev blkno with
  | Some bp =>
      b ← rd (bufs c) bp;
      if on (b_flags b) B_BUSY then c ← setbits c bp B_WANTED; Ok (c, SleepBuf bp)
      else c ← notavail c bp; Ok (c, Held bp)
  | None => getblk_miss c dev blkno
  end.

Definition geteblk c : outcome (bcache K * got) :=
  r ← getnewbuf (S (length (bufs c))) c;
  match snd r with
  | Held bp =>
      c ← setbits (fst r) bp B_INVAL; c ← bfree c bp;
      c ← set_hdr c bp (fun b => with_block b NODEV (b_blkno b)); Ok (c, Held bp)
  | g => Ok (fst r, g)
  end.

(** A read started on a held buffer, waited for or not. *)
Definition start_read c (bp : nat) (async : bool) : outcome (bcache K) :=
  c ← setbits c bp (if async then Z.lor B_READ B_ASYNC else B_READ);
  c ← set_hdr c bp (fun b => with_bcount b DEV_BSIZE);
  c ← strategy c bp; Ok (pay c 1 0).

(** [bread] once it has its buffer. *)
Definition fill c (bp : nat) : outcome (bcache K) :=
  b ← rd (bufs c) bp;
  if on (b_flags b) (Z.lor B_DONE B_DELWRI) then Ok c else c ← start_read c bp false; biowait c bp.

Definition bread c (dev blkno : Z) : outcome (bcache K * got) :=
  r ← getblk c dev blkno;
  match snd r with
  | Held bp => c ← fill (fst r) bp; Ok (c, Held bp)
  | g => Ok (fst r, g)
  end.

(** The parts of [breada]: the block itself, the block after it, and the
    wait. A sleep in the second part keeps the buffer of the first. *)
Definition breada_first c (dev blkno : Z) : outcome (bcache K * option got) :=
  if incore c dev blkno then Ok (c, None) else
  r ← getblk c dev blkno;
  match snd r with
  | Held bp =>
      b ← rd (bufs (fst r)) bp;
      c ← (if negb (on (b_flags b) (Z.lor B_DONE B_DELWRI)) then start_read (fst r) bp false else Ok (fst r));
      Ok (c, Some (Held bp))
  | g => Ok (fst r, Some g)
  end.
Definition read_ahead c (bp : nat) : outcome (bcache K) :=
  b ← rd (bufs c) bp;
  if on (b_flags b) (Z.lor B_DONE B_DELWRI) then brelse c bp else start_read c bp true.
Definition breada_ahead c (dev rablkno : Z) : outcome (bcache K * option got) :=
  if (rablkno =? 0) || incore c dev rablkno then Ok (c, None) else
  r ← getblk c dev rablkno;
  match snd r with
  | Held bp => c ← read_ahead (fst r) bp; Ok (c, None)
  | g => Ok (fst r, Some g)
  end.
Definition breada c (dev blkno rablkno : Z) : outcome (bcache K * got) :=
  r ← breada_first c dev blkno;
  match snd r with
  | Some (SleepBuf i) => Ok (fst r, SleepBuf i)
  | Some SleepFree => Ok (fst r, SleepFree)
  | o =>
      a ← breada_ahead (fst r) dev rablkno;
      match snd a, o with
      | Some g, _ => Ok (fst a, g)
      | None, Some (Held bp) => c ← biowait (fst a) bp; Ok (c, Held bp)
      | None, _ => bread (fst a) dev blkno
      end
  end.

(** Writing out the delayed block of a free buffer. *)
Definition flush_one c (bp : nat) : outcome (bcache K * Z) := c ← notavail c bp; bwrite c bp.

(** One search of [blkflush] through the buffers from index [i]: the sleep, or
    the buffer to write. *)
Inductive flushing := FlushDone (error : Z) | FlushSleep (bp : nat).
Fixpoint blkflush (fuel : nat) c (dev blkno : Z) : outcome (bcache K * flushing) :=
  match fuel with
  | O => Fault
  | S fuel =>
      match list_find (fun b => Is_true (hit dev blkno b && (on (b_flags b) B_BUSY || on (b_flags b) B_DELWRI))) (bufs c) with
      | None => Ok (c, FlushDone 0)
      | Some (bp, b) =>
          if on (b_flags b) B_BUSY then c ← setbits c bp B_WANTED; Ok (c, FlushSleep bp) else
          r ← flush_one c bp;
          if negb (snd r =? 0) then Ok (fst r, FlushDone (snd r)) else blkflush fuel (fst r) dev blkno
      end
  end.

(** [bflush]: a walk along one list for the first delayed block of the device,
    the three lists in order, and the loop. *)
Fixpoint flush_walk (fuel : nat) c (dev : Z) (flist bp : nat) : outcome (option nat) :=
  match fuel with
  | O => Fault
  | S fuel =>
      if bool_decide (bp = flist) then Ok None else
      b ← rd (bufs c) bp;
      if on (b_flags b) B_DELWRI && (dev =? b_dev b) then Ok (Some bp) else
      n ← rd (av_forw (av c)) bp; flush_walk fuel c dev flist n
  end.
Definition flush_list c (dev : Z) (q : nat) : outcome (option nat) :=
  n ← rd (av_forw (av c)) (bq c q); flush_walk (S (length (bufs c))) c dev (bq c q) n.
Fixpoint flush_next c (dev : Z) (qs : list nat) : outcome (option nat) :=
  match qs with
  | [] => Ok None
  | q :: qs => o ← flush_list c dev q; match o with Some bp => Ok (Some bp) | None => flush_next c dev qs end
  end.
Fixpoint bflush_loop (fuel : nat) c (dev first_error : Z) : outcome (bcache K * Z) :=
  match fuel with
  | O => Fault
  | S fuel =>
      o ← flush_next c dev [BQ_LOCKED; BQ_LRU; BQ_AGE];
      match o with
      | None => Ok (c, first_error)
      | Some bp =>
          r ← flush_one c bp;
          bflush_loop fuel (fst r) dev (if negb (snd r =? 0) && (first_error =? 0) then snd r else first_error)
      end
  end.
Definition bflush c (dev : Z) : outcome (bcache K * Z) := bflush_loop (S (length (bufs c))) c dev 0.

Definition binval c (dev : Z) : bcache K :=
  set_bufs c ((fun b => if b_dev b =? dev then with_flags b (Z.lor (b_flags b) B_INVAL) else b) <$> bufs c).

(** [binit]: the heads alone on their lists, then every buffer released. *)
Definition binit_buf c (bp : nat) : outcome (bcache K) :=
  c ← set_hdr c bp (fun b => Buf (Z.lor B_BUSY B_INVAL) 0 (b_error b) NODEV (DEV_BSIZE * Z.of_nat bp) (b_blkno b) (b_resid b));
  brelse c bp.
Fixpoint binit_loop (l : list nat) c : outcome (bcache K) :=
  match l with
  | [] => Ok c
  | i :: l => c ← binit_buf c i; binit_loop l c
  end.
(** The zeroed data of the kernel. *)
Definition bss (n : nat) (k : K) (m : list mount) : bcache K :=
  Bcache (replicate n (Buf 0 0 0 0 0 0 0)) (replicate n (replicate 256 0)) (Links (replicate (n + BQUEUES) 0%nat) (replicate (n + BQUEUES) 0%nat))
    false k m [] 0 0 0.
Definition binit (n : nat) (k : K) (m : list mount) : outcome (bcache K) :=
  let c := bss n k m in
  let heads l := replicate n 0%nat ++ ((fun q => (n + q)%nat) <$> seq 0 BQUEUES) in
  binit_loop (seq 0 n) (set_av c (Links (heads (av_forw (av c))) (heads (av_back (av c))))).

End cache.

(** ** Steps on one buffer

    What the operations make of a header. *)
Definition unbusy (b : buf) : buf := with_flags b (Z.land (b_flags b) (Z.lnot (Z.lor B_WANTED (Z.lor B_BUSY (Z.lor B_ASYNC B_AGE))))).
Definition disowned (b : buf) : buf :=
  if on (b_flags b) B_ERROR then
    if on (b_flags b) B_LOCKED then with_flags b (Z.land (b_flags b) (Z.lnot B_ERROR)) else with_bdev b NODEV
  else b.
Definition released (b : buf) : buf := unbusy (disowned b).
(** The free list of a released buffer, and its place there. *)
Definition back_list (b : buf) : nat :=
  if on (b_flags (disowned b)) (Z.lor B_ERROR B_INVAL) then BQ_AGE else
  if on (b_flags b) B_LOCKED then BQ_LOCKED else if on (b_flags b) B_AGE then BQ_AGE else BQ_LRU.
Definition back (Q : nat -> list nat) (b : buf) (bp : nat) : nat -> list nat :=
  setq Q (back_list b) (if on (b_flags (disowned b)) (Z.lor B_ERROR B_INVAL) then bp :: Q (back_list b) else Q (back_list b) ++ [bp]).

Definition write_flags (b : buf) : buf :=
  with_bcount (with_flags b (Z.land (b_flags b) (Z.lnot (Z.lor B_READ (Z.lor B_DONE (Z.lor B_ERROR B_DELWRI)))))) DEV_BSIZE.
Definition read_flags (b : buf) (async : bool) : buf :=
  with_bcount (with_flags b (Z.lor (b_flags b) (if async then Z.lor B_READ B_ASYNC else B_READ))) DEV_BSIZE.
(** A transfer that is over, before [biodone] looks at B_ASYNC. *)
Definition transferred (b : buf) (r : xfer) : buf :=
  let b := with_result b (x_error r) (x_resid r) in with_flags b (Z.lor (b_flags b) B_DONE).
Definition unwanted (b : buf) : buf := with_flags b (Z.land (b_flags b) (Z.lnot B_WANTED)).

Section steps.
Context {K : Type} {DK : Disk K}.
Implicit Type c : bcache K.

Definition put c (bp : nat) (b : buf) : bcache K := set_bufs c (<[bp:=b]> (bufs c)).

Lemma put_put c bp b b' : put (put c bp b) bp b' = put c bp b'.
Proof. unfold put, set_bufs. cbn. by rewrite list_insert_insert_eq. Qed.
Lemma put_lookup c bp b b0 : bufs c !! bp = Some b0 -> bufs (put c bp b) !! bp = Some b.
Proof. intros H. cbn. apply list_lookup_insert_eq. by eapply lookup_lt_Some. Qed.
Lemma put_length c bp b : length (bufs (put c bp b)) = length (bufs c).
Proof. apply length_insert. Qed.
Lemma set_hdr_ok c bp f b : bufs c !! bp = Some b -> set_hdr c bp f = Ok (put c bp (f b)).
Proof. intros H. unfold set_hdr. rewrite (rd_ok _ _ _ H). cbn. rewrite wr_ok by (by eapply lookup_lt_Some). done. Qed.

(** What [brelse] does besides the lists and the header. *)
Definition waking c (bp : nat) (b : buf) : bcache K :=
  let c := if on (b_flags b) B_WANTED then wake_chan c (BufChan bp) else c in
  if bfreelist_wanted c then wake_chan (set_wanted c false) FreeChan else c.

Lemma waking_bufs c bp b : bufs (waking c bp b) = bufs c.
Proof. unfold waking. destruct (on (b_flags b) B_WANTED); cbn; by destruct (bfreelist_wanted c). Qed.
Lemma waking_data c bp b : bdata (waking c bp b) = bdata c /\ disk (waking c bp b) = disk c /\ mounts (waking c bp b) = mounts c /\ av (waking c bp b) = av c /\
  bfreelist_wanted (waking c bp b) = false /\ u_error (waking c bp b) = u_error c.
Proof. unfold waking. destruct (on (b_flags b) B_WANTED); cbn; by destruct (bfreelist_wanted c) eqn:E. Qed.

Lemma brelse_run c Q bp b : queues_ok (length (bufs c)) (av c) Q -> bufs c !! bp = Some b -> ~ queued Q bp ->
  exists l, brelse c bp = Ok (put (set_av (waking c bp b) l) bp (released b)) /\ queues_ok (length (bufs c)) l (back Q b bp).
Proof.
  intros HQ Hb Hq. pose proof (lookup_lt_Some _ _ _ Hb) as Hlt.
  assert (back_list b < 3)%nat as Hl by (unfold back_list, BQ_AGE, BQ_LRU, BQ_LOCKED; repeat case_match; lia).
  assert (exists l, (if on (b_flags (disowned b)) (Z.lor B_ERROR B_INVAL) then binsheadfree (av c) bp (length (bufs c) + BQ_AGE)%nat
     else binstailfree (av c) bp (length (bufs c) + (if on (b_flags (disowned b)) B_LOCKED then BQ_LOCKED else if on (b_flags (disowned b)) B_AGE then BQ_AGE else BQ_LRU))%nat) = Ok l /\
     queues_ok (length (bufs c)) l (back Q b bp)) as (l & E & Hl').
  { assert (on (b_flags (disowned b)) B_LOCKED = on (b_flags b) B_LOCKED) as -> by (unfold disowned; repeat case_match; cbn [b_flags with_flags with_bdev]; flags; congruence).
    assert (on (b_flags (disowned b)) B_AGE = on (b_flags b) B_AGE) as -> by (unfold disowned; repeat case_match; cbn [b_flags with_flags with_bdev]; flags; congruence).
    unfold back in *. unfold back_list in *.
    destruct (on (b_flags (disowned b)) (Z.lor B_ERROR B_INVAL)); [by apply insert_head | by apply insert_tail]. }
  exists l. split; [|done]. unfold brelse. rewrite (rd_ok _ _ _ Hb). cbn [mbind outcome_bind].
  fold (waking c bp b). rewrite <- (waking_bufs c bp b) in Hb.
  assert ((if on (b_flags b) B_ERROR then if on (b_flags b) B_LOCKED then clrbits (waking c bp b) bp B_ERROR else set_hdr (waking c bp b) bp (fun b => with_bdev b NODEV)
    else Ok (waking c bp b)) = Ok (put (waking c bp b) bp (disowned b))) as ->.
  { unfold disowned, clrbits. destruct (on (b_flags b) B_ERROR), (on (b_flags b) B_LOCKED); rewrite ?(set_hdr_ok _ _ _ _ Hb); try done;
      unfold put; rewrite list_insert_id by done; by destruct (waking c bp b). }
  cbn [mbind outcome_bind]. rewrite (rd_ok _ _ _ (put_lookup _ _ _ _ Hb)). cbn [mbind outcome_bind].
  unfold bq. rewrite put_length, waking_bufs. change (av (put (waking c bp b) bp (disowned b))) with (av (waking c bp b)).
  destruct (waking_data c bp b) as (_ & _ & _ & -> & _). rewrite E. cbn [mbind outcome_bind].
  unfold clrbits. rewrite (set_hdr_ok _ _ _ (disowned b)) by exact (put_lookup _ _ _ _ Hb).
  f_equal. exact (put_put (set_av (waking c bp b) l) bp _ _).
Qed.

Definition noted c (b : buf) : bcache K :=
  if Z.land (b_flags b) (Z.lor B_READ B_ERROR) =? B_ERROR then set_mounts c (note_write_error (mounts c) (b_dev b) (geterror b)) else c.

Lemma noted_put c b bp b' : put (noted c b) bp b' = noted (put c bp b') b.
Proof. unfold noted. by destruct (Z.land (b_flags b) (Z.lor B_READ B_ERROR) =? B_ERROR). Qed.
Lemma noted_same c b : bufs (noted c b) = bufs c /\ bdata (noted c b) = bdata c /\ disk (noted c b) = disk c /\ av (noted c b) = av c /\
  bfreelist_wanted (noted c b) = bfreelist_wanted c /\ woken (noted c b) = woken c /\ u_error (noted c b) = u_error c.
Proof. unfold noted. by destruct (Z.land (b_flags b) (Z.lor B_READ B_ERROR) =? B_ERROR). Qed.

Lemma biodone_run c bp b : bufs c !! bp = Some b -> on (b_flags b) B_DONE = false ->
  biodone c bp = let b1 := with_flags b (Z.lor (b_flags b) B_DONE) in let c1 := noted (put c bp b1) b1 in
                 if on (b_flags b) B_ASYNC then brelse c1 bp else Ok (wake_chan (put c1 bp (unwanted b1)) (BufChan bp)).
Proof.
  intros Hb Hd. unfold biodone. rewrite (rd_ok _ _ _ Hb). cbn [mbind outcome_bind]. rewrite Hd.
  unfold setbits. rewrite (set_hdr_ok _ _ _ _ Hb). cbn [mbind outcome_bind]. set (b1 := with_flags b _).
  pose proof (put_lookup c bp b1 b Hb) as H1. rewrite (rd_ok _ _ _ H1). cbn [mbind outcome_bind].
  fold (noted (put c bp b1) b1). assert (on (b_flags b1) B_ASYNC = on (b_flags b) B_ASYNC) as -> by (cbn; by flags).
  destruct (on (b_flags b) B_ASYNC); [done|]. unfold clrbits.
  rewrite (set_hdr_ok _ _ _ b1); [done|]. by destruct (noted_same (put c bp b1) b1) as (-> & _).
Qed.

(** The state after a transfer, before [biodone] looks at B_ASYNC. *)
Definition after_io c (bp : nat) (b : buf) (k : K) (r : xfer) : bcache K :=
  noted (put (set_io c k (<[bp:=x_data r]> (bdata c))) bp (transferred b r)) (transferred b r).

Lemma with_result_flags b e n m : on m B_ERROR = false -> on (b_flags (with_result b e n)) m = on (b_flags b) m.
Proof.
  intros Hm. assert (on B_ERROR m = false) as Hm' by (unfold on in *; by rewrite Z.land_comm).
  destruct e; cbn [with_result b_flags]; [|done]. by rewrite on_or, Hm', orb_false_r.
Qed.

Lemma strategy_run c bp b x k r : bufs c !! bp = Some b -> bdata c !! bp = Some x -> b_dev b <> NODEV -> b_addr b = DEV_BSIZE * Z.of_nat bp ->
  on (b_flags b) B_DONE = false -> transfer (disk c) (on (b_flags b) B_READ) (b_dev b) (b_blkno b) (b_bcount b) x = (k, r) ->
  strategy c bp = let c1 := after_io c bp b k r in
                  if on (b_flags b) B_ASYNC then brelse c1 bp else Ok (wake_chan (put c1 bp (unwanted (transferred b r))) (BufChan bp)).
Proof.
  intros Hb Hx Hdev Ha Hd Ht. unfold strategy. rewrite (rd_ok _ _ _ Hb). cbn [mbind outcome_bind]. rewrite (rd_ok _ _ _ Hx). cbn [mbind outcome_bind].
  rewrite Ha, Z.eqb_refl, (proj2 (Z.eqb_neq _ _) Hdev). cbn [orb negb]. rewrite Ht, wr_ok by (by eapply lookup_lt_Some). cbn [mbind outcome_bind].
  set (c1 := set_io c k _). rewrite (set_hdr_ok c1 bp _ b) by exact Hb. cbn [mbind outcome_bind].
  rewrite (biodone_run _ _ _ (put_lookup c1 bp _ _ Hb)) by (by rewrite with_result_flags). cbn zeta.
  unfold after_io. fold c1. rewrite put_put, with_result_flags by done. done.
Qed.

Lemma biowait_run c bp b : bufs c !! bp = Some b -> on (b_flags b) B_DONE = true -> biowait c bp = Ok (if u_error c =? 0 then set_u_error c (geterror b) else c).
Proof. intros Hb Hd. unfold biowait. by rewrite (rd_ok _ _ _ Hb); cbn; rewrite Hd. Qed.

(** ** The invariant

    A buffer is on one of the lists when it is not busy; a delayed buffer has
    its contents and belongs to a device; B_LOCKED is not used, and B_ASYNC is
    set only inside an operation. *)
Record buf_ok (Q : nat -> list nat) (i : nat) (b : buf) : Prop := {
  bo_addr : b_addr b = DEV_BSIZE * Z.of_nat i;
  bo_locked : on (b_flags b) B_LOCKED = false;
  bo_async : on (b_flags b) B_ASYNC = false;
  bo_delwri : on (b_flags b) B_DELWRI = true -> on (b_flags b) B_DONE = true /\ on (b_flags b) B_ERROR = false /\ b_dev b <> NODEV;
  bo_busy : queued Q i <-> on (b_flags b) B_BUSY = false;
  bo_wanted : on (b_flags b) B_BUSY = false -> on (b_flags b) B_WANTED = false
}.

(** Everything in order but the header of [x]. *)
Record wf_but c (Q : nat -> list nat) (x : option nat) : Prop := {
  wf_queues : queues_ok (length (bufs c)) (av c) Q;
  wf_locked : Q BQ_LOCKED = [];
  wf_data : length (bdata c) = length (bufs c);
  wf_words : Forall (fun w => length w = 256%nat) (bdata c);
  wf_buf : forall i b, Some i <> x -> bufs c !! i = Some b -> buf_ok Q i b;
  wf_wanted : bfreelist_wanted c = true -> Q BQ_LRU = [] /\ Q BQ_AGE = []
}.
Abbreviation wf c Q := (wf_but c Q None).

(** [bp] is in the hands of an operation. *)
Record held c (Q : nat -> list nat) (bp : nat) (b : buf) : Prop := {
  hd_wf : wf_but c Q (Some bp);
  hd_out : ~ queued Q bp;
  hd_buf : bufs c !! bp = Some b;
  hd_addr : b_addr b = DEV_BSIZE * Z.of_nat bp;
  hd_locked : on (b_flags b) B_LOCKED = false
}.

(** A busy buffer is held, and a held one that is in order and busy completes
    the invariant. *)
Lemma held_busy c Q bp b : wf c Q -> bufs c !! bp = Some b -> on (b_flags b) B_BUSY = true -> held c Q bp b.
Proof.
  intros [H1 H2 H3 H4 H5 H6] Hb Hbusy. destruct (H5 bp b ltac:(done) Hb) as [A1 A2 A3 A4 A5 A6].
  split; [split; try done; intros i b' _; by apply H5 | rewrite A5; congruence | done..].
Qed.
Lemma busy_wf c Q bp b : held c Q bp b -> on (b_flags b) B_BUSY = true -> on (b_flags b) B_ASYNC = false ->
  (on (b_flags b) B_DELWRI = true -> on (b_flags b) B_DONE = true /\ on (b_flags b) B_ERROR = false /\ b_dev b <> NODEV) -> wf c Q.
Proof.
  intros [[H1 H2 H3 H4 H5 H6] Ho Hb Ha Hl] Hbusy Has Hd. split; try done. intros i b' _ Hb'. destruct (decide (i = bp)) as [->|Hi]; [|apply H5; congruence].
  assert (b' = b) as -> by congruence. split; try done; [split; [done|]|]; congruence.
Qed.

Lemma held_put c Q bp b b' : held c Q bp b -> b_addr b' = b_addr b -> on (b_flags b') B_LOCKED = false -> held (put c bp b') Q bp b'.
Proof.
  intros [[H1 H2 H3 H4 H5 H6] Ho Hb Ha Hl] Ea El. split; [split| | | |]; try done; cbn [put set_bufs bufs bdata av bfreelist_wanted]; rewrite ?length_insert; try done.
  - intros i b1 Hi. rewrite list_lookup_insert_ne by congruence. by apply H5.
  - by rewrite list_lookup_insert_eq by (by eapply lookup_lt_Some).
  - congruence.
Qed.

(** Changes elsewhere. *)
Lemma held_same c c' Q bp b : held c Q bp b -> bufs c' = bufs c -> av c' = av c -> bfreelist_wanted c' = bfreelist_wanted c ->
  length (bdata c') = length (bdata c) -> Forall (fun w => length w = 256%nat) (bdata c') -> held c' Q bp b.
Proof.
  intros [[H1 H2 H3 H4 H5 H6] Ho Hb Ha Hl] E1 E2 E3 E4 E5. split; [split|..]; try done; rewrite ?E1, ?E2, ?E3, ?E4; done.
Qed.

(** [back] adds the buffer to one of the two lists in use. *)
Lemma queued_back Q b bp i : queued (back Q b bp) i <-> queued Q i \/ i = bp.
Proof.
  assert (back_list b < 3)%nat as Hl by (unfold back_list, BQ_AGE, BQ_LRU, BQ_LOCKED; repeat case_match; lia).
  unfold queued, back. setoid_rewrite elem_setq. split.
  - intros (q & Hq & [[-> Hi]|[Hn Hi]]); [|naive_solver]. case_match; [apply elem_of_cons in Hi | apply elem_of_app in Hi as [|Hi%list_elem_of_singleton]]; naive_solver.
  - intros [(q & Hq & Hi)| ->].
    + exists q. split; [done|]. destruct (decide (q = back_list b)) as [->|Hn]; [left; split; [done|]; case_match; set_solver | by right].
    + exists (back_list b). split; [done|]. left. split; [done|]. case_match; set_solver.
Qed.
Lemma back_locked Q b bp : on (b_flags b) B_LOCKED = false -> back Q b bp BQ_LOCKED = Q BQ_LOCKED.
Proof.
  intros Hl. unfold back. rewrite setq_ne; [done|]. unfold back_list. rewrite Hl. unfold BQ_LOCKED, BQ_AGE, BQ_LRU. by repeat case_match.
Qed.

Lemma disowned_flags b m : on (b_flags b) B_LOCKED = false -> on (b_flags (disowned b)) m = on (b_flags b) m.
Proof. intros Hl. unfold disowned. rewrite Hl. by destruct (on (b_flags b) B_ERROR). Qed.

(** What a release tells the sleepers. *)
Definition woke c c' (bp : nat) (b : buf) : Prop :=
  exists ws, woken c' = ws ++ woken c /\ (on (b_flags b) B_WANTED = true -> BufChan bp ∈ ws) /\ (bfreelist_wanted c = true -> FreeChan ∈ ws).

Lemma waking_woke c bp b : exists ws, woken (waking c bp b) = ws ++ woken c /\ (on (b_flags b) B_WANTED = true -> BufChan bp ∈ ws) /\ (bfreelist_wanted c = true -> FreeChan ∈ ws).
Proof.
  unfold waking. destruct (on (b_flags b) B_WANTED); destruct (bfreelist_wanted c) eqn:E; cbn; rewrite ?E; cbn.
  - exists [FreeChan; BufChan bp]. set_solver.
  - exists [BufChan bp]. set_solver.
  - exists [FreeChan]. set_solver.
  - exists []. done.
Qed.

Lemma brelse_held c Q bp b : held c Q bp b -> (on (b_flags b) B_DELWRI = true -> on (b_flags b) B_DONE = true /\ on (b_flags b) B_ERROR = false /\ b_dev b <> NODEV) ->
  exists c', brelse c bp = Ok c' /\ wf c' (back Q b bp) /\ bufs c' = <[bp:=released b]> (bufs c) /\ bdata c' = bdata c /\ disk c' = disk c /\ mounts c' = mounts c /\
    bfreelist_wanted c' = false /\ u_error c' = u_error c /\ woke c c' bp b.
Proof.
  intros [[H1 H2 H3 H4 H5 H6] Ho Hb Ha Hl] Hd. destruct (brelse_run c Q bp b H1 Hb Ho) as (l & E & Hq).
  destruct (waking_data c bp b) as (D1 & D2 & D3 & _ & D5 & D6). exists (put (set_av (waking c bp b) l) bp (released b)).
  assert (bufs (put (set_av (waking c bp b) l) bp (released b)) = <[bp:=released b]> (bufs c)) as Eb by (cbn; by rewrite waking_bufs).
  split; [done|]. split; [|repeat split; try done; by apply waking_woke].
  split; rewrite ?Eb, ?length_insert; try done.
  - by rewrite back_locked.
  - cbn [bdata put set_bufs set_av]. by rewrite D1.
  - cbn [bdata put set_bufs set_av]. by rewrite D1.
  - intros i b' _. destruct (decide (i = bp)) as [->|Hi].
    + rewrite list_lookup_insert_eq by (by eapply lookup_lt_Some). intros [= <-].
      assert (b_addr (released b) = b_addr b) as Ea by (unfold released, unbusy, disowned; by repeat case_match).
      assert (on (b_flags b) B_ERROR = false -> b_dev (released b) = b_dev b) as Ed by (intros He; unfold released, unbusy, disowned; by rewrite He).
      assert (b_flags (released b) = Z.land (b_flags (disowned b)) (Z.lnot (Z.lor B_WANTED (Z.lor B_BUSY (Z.lor B_ASYNC B_AGE))))) as Ef by done.
      split; rewrite ?Ef, ?Ea; flags; rewrite ?disowned_flags by done; try done.
      * intros HD. destruct (Hd HD) as (? & ? & ?). rewrite Ed by done. done.
      * rewrite queued_back. split; [done | by right].
    + rewrite list_lookup_insert_ne by done. intros Hi'. destruct (H5 i b' ltac:(congruence) Hi') as [A1 A2 A3 A4 A5 A6]. split; try done. rewrite queued_back, <- A5. naive_solver.
  - change (bfreelist_wanted (waking c bp b) = true -> back Q b bp BQ_LRU = [] /\ back Q b bp BQ_AGE = []). congruence.
Qed.

Context {DS : DiskShape K}.

Lemma data_lookup c Q bp b : held c Q bp b -> exists x, bdata c !! bp = Some x /\ length x = 256%nat.
Proof.
  intros [[_ _ H3 H4 _ _] _ Hb _ _]. apply lookup_lt_Some in Hb. rewrite <- H3 in Hb. apply lookup_lt_is_Some_2 in Hb as [x Hx].
  exists x. split; [done|]. by apply (Forall_lookup_1 _ _ _ _ H4 Hx).
Qed.

(** One transfer and what it leaves. *)
Record moved c (bp : nat) (x : words) (k : K) (r : xfer) (b' : buf) c' : Prop := {
  mv_bufs : bufs c' = <[bp:=b']> (bufs c);
  mv_data : bdata c' = <[bp:=x_data r]> (bdata c);
  mv_disk : disk c' = k
}.

Lemma transferred_flags b r m : on m B_ERROR = false -> on m B_DONE = false -> on (b_flags (transferred b r)) m = on (b_flags b) m.
Proof.
  intros H1 H2. unfold transferred. cbn [with_flags b_flags]. rewrite on_or, with_result_flags by done.
  replace (on B_DONE m) with (on m B_DONE) by (unfold on; by rewrite Z.land_comm). by rewrite H2, orb_false_r.
Qed.
Lemma transferred_done b r : on (b_flags (transferred b r)) B_DONE = true.
Proof. unfold transferred. cbn [with_flags b_flags]. by flags. Qed.
Lemma transferred_error b r : on (b_flags b) B_ERROR = false -> on (b_flags (transferred b r)) B_ERROR = bool_decide (is_Some (x_error r)).
Proof.
  intros He. unfold transferred. cbn [with_flags b_flags]. rewrite on_or. destruct (x_error r); cbn [with_result b_flags]; flags; rewrite ?orb_true_r; done.
Qed.
Lemma transferred_fields b r : b_dev (transferred b r) = b_dev b /\ b_blkno (transferred b r) = b_blkno b /\ b_addr (transferred b r) = b_addr b /\ b_bcount (transferred b r) = b_bcount b.
Proof. unfold transferred. by destruct (x_error r). Qed.

Lemma after_io_moved c Q bp b x k r : held c Q bp b -> length (x_data r) = 256%nat ->
  held (after_io c bp b k r) Q bp (transferred b r) /\ moved c bp x k r (transferred b r) (after_io c bp b k r) /\
  woken (after_io c bp b k r) = woken c /\ bfreelist_wanted (after_io c bp b k r) = bfreelist_wanted c /\ u_error (after_io c bp b k r) = u_error c.
Proof.
  intros Hh Hx. unfold after_io. set (c1 := put _ bp _). destruct (noted_same c1 (transferred b r)) as (E1 & E2 & E3 & E4 & E5 & E6 & E7).
  assert (held c1 Q bp (transferred b r)) as Hh1.
  { destruct Hh as [[H1 H2 H3 H4 H5 H6] Ho Hb Ha Hl]. apply (held_put (set_io c k (<[bp:=x_data r]> (bdata c))) Q bp b).
    - apply (held_same c); try done; cbn; [by rewrite length_insert|]. by apply Forall_insert.
    - by destruct (transferred_fields b r) as (_ & _ & -> & _).
    - by rewrite transferred_flags. }
  split; [|split; [split; rewrite ?E1, ?E2, ?E3; done | by rewrite E5, E6, E7]].
  apply (held_same c1); try done; rewrite ?E2; [done|]. apply (wf_words _ _ _ (hd_wf _ _ _ _ Hh1)).
Qed.

(** A driver's answer to a request of a held buffer. *)
Definition request c (bp : nat) (b : buf) (x : words) : K * xfer := transfer (disk c) (on (b_flags b) B_READ) (b_dev b) (b_blkno b) (b_bcount b) x.

Lemma strategy_held c Q bp b x : held c Q bp b -> bdata c !! bp = Some x -> b_dev b <> NODEV -> on (b_flags b) B_DONE = false ->
  let k := fst (request c bp b x) in let r := snd (request c bp b x) in
  strategy c bp = (if on (b_flags b) B_ASYNC then brelse (after_io c bp b k r) bp
                   else Ok (wake_chan (put (after_io c bp b k r) bp (unwanted (transferred b r))) (BufChan bp))) /\ length (x_data r) = 256%nat.
Proof.
  intros Hh Hx Hdev Hd k r. split.
  - pose proof Hh as [_ _ Hb Ha _]. by apply (strategy_run c bp b x); [..| apply surjective_pairing].
  - apply transfer_words. destruct (data_lookup c Q bp b Hh) as (y & Hy & Hl). congruence.
Qed.

(** The buffer of a read that [bread] waits for. *)
Definition read_done (b : buf) (r : xfer) : buf := unwanted (transferred (read_flags b false) r).

Lemma start_read_held c Q bp b x : held c Q bp b -> bdata c !! bp = Some x -> b_dev b <> NODEV -> on (b_flags b) B_DONE = false -> on (b_flags b) B_ASYNC = false ->
  let k := fst (transfer (disk c) true (b_dev b) (b_blkno b) DEV_BSIZE x) in let r := snd (transfer (disk c) true (b_dev b) (b_blkno b) DEV_BSIZE x) in
  exists c', start_read c bp false = Ok c' /\ held c' Q bp (read_done b r) /\ moved c bp x k r (read_done b r) c' /\
    woken c' = BufChan bp :: woken c /\ bfreelist_wanted c' = bfreelist_wanted c /\ u_error c' = u_error c.
Proof.
  intros Hh Hx Hdev Hd Has k r. pose proof Hh as [_ _ Hb Ha Hl]. unfold start_read, setbits.
  rewrite (set_hdr_ok _ _ _ _ Hb). cbn [mbind outcome_bind]. rewrite (set_hdr_ok _ _ _ _ (put_lookup _ _ _ _ Hb)), put_put. cbn [mbind outcome_bind].
  change (with_bcount (with_flags b (Z.lor (b_flags b) B_READ)) DEV_BSIZE) with (read_flags b false). set (c1 := put c bp (read_flags b false)).
  assert (held c1 Q bp (read_flags b false)) as Hh1 by (apply (held_put c Q bp b); [done | done | cbn; by flags]).
  destruct (strategy_held c1 Q bp _ x Hh1 Hx) as [E Hr]; [done | cbn; by flags|].
  assert (request c1 bp (read_flags b false) x = transfer (disk c) true (b_dev b) (b_blkno b) DEV_BSIZE x) as Er.
  { unfold request. cbn [read_flags with_bcount with_flags b_flags b_dev b_blkno b_bcount]. f_equal. by flags. }
  rewrite Er in E, Hr. fold k r in E, Hr. rewrite E. cbn [mbind outcome_bind].
  assert (on (b_flags (read_flags b false)) B_ASYNC = false) as -> by (cbn; by flags). cbn [mbind outcome_bind].
  destruct (after_io_moved c1 Q bp (read_flags b false) x k r Hh1 Hr) as (Hh2 & [M1 M2 M3] & W1 & W2 & W3).
  eexists. split; [reflexivity|].
  assert (held (put (after_io c1 bp (read_flags b false) k r) bp (read_done b r)) Q bp (read_done b r)) as Hh3.
  { apply (held_put _ Q bp _ _ Hh2); [done|]. cbn [read_done unwanted with_flags b_flags]. flags. apply (hd_locked _ _ _ _ Hh2). }
  split; [apply (held_same _ _ _ _ _ Hh3); try done; apply (wf_words _ _ _ (hd_wf _ _ _ _ Hh3))|].
  split; [split | split; [cbn; by rewrite W1 | done]]; cbn; [|by rewrite M2 | done].
  rewrite M1. unfold c1. cbn. by rewrite !list_insert_insert_eq.
Qed.

(** ** Writing *)

(** A header after a write and the release of its buffer. *)
Record write_result (b : buf) (r : xfer) (b' : buf) : Prop := {
  wt_done : on (b_flags b') B_DONE = true;
  wt_delwri : on (b_flags b') B_DELWRI = false;
  wt_error : on (b_flags b') B_ERROR = bool_decide (is_Some (x_error r));
  wt_inval : on (b_flags b') B_INVAL = on (b_flags b) B_INVAL;
  wt_blkno : b_blkno b' = b_blkno b;
  wt_dev : b_dev b' = if x_error r then NODEV else b_dev b;
  wt_resid : b_resid b' = x_resid r
}.

(** A held buffer has been written and released. *)
Record wrote c Q (bp : nat) (b : buf) (k : K) (r : xfer) c' Q' (b' : buf) : Prop := {
  wo_wf : wf c' Q';
  wo_queued : forall i, queued Q' i <-> queued Q i \/ i = bp;
  wo_bufs : bufs c' = <[bp:=b']> (bufs c);
  wo_data : bdata c' = bdata c;
  wo_disk : disk c' = k;
  wo_wanted : bfreelist_wanted c' = false;
  wo_result : write_result b r b';
  wo_woke : woke c c' bp b
}.

Lemma wf_age c Q bp b : wf c Q -> bufs c !! bp = Some b -> wf (put c bp (with_flags b (Z.lor (b_flags b) B_AGE))) Q.
Proof.
  intros [H1 H2 H3 H4 H5 H6] Hb. split; cbn [put set_bufs bufs bdata av bfreelist_wanted]; rewrite ?length_insert; try done.
  intros i b' _ Hi. apply list_lookup_insert_Some in Hi as [(<- & <- & _)|[_ Hi]]; [|by apply H5].
  destruct (H5 bp b ltac:(done) Hb) as [A1 A2 A3 A4 A5 A6]. split; cbn [with_flags b_flags b_dev b_addr]; flags; done.
Qed.

Lemma geterror_result b r : on (b_flags b) B_ERROR = false ->
  geterror (transferred b r) = match x_error r with Some e => if e =? 0 then EIO else e | None => 0 end.
Proof.
  intros He. unfold geterror. rewrite transferred_error by done. unfold transferred. by destruct (x_error r).
Qed.

Lemma released_write b r b3 : on (b_flags b) B_LOCKED = false -> (forall m, on m (Z.lor B_WANTED (Z.lor B_BUSY (Z.lor B_ASYNC B_AGE))) = false ->
  on (b_flags b3) m = on (b_flags (transferred (write_flags b) r)) m) -> b_dev b3 = b_dev b -> b_blkno b3 = b_blkno b -> b_resid b3 = x_resid r ->
  write_result b r (released b3).
Proof.
  intros Hl Hf Hd Hb Hr. assert (on (b_flags b3) B_LOCKED = false) as Hl3 by (rewrite Hf by done; rewrite transferred_flags by done; cbn; by flags).
  assert (on (b_flags b3) B_ERROR = bool_decide (is_Some (x_error r))) as He.
  { rewrite Hf by done. apply transferred_error. cbn. by flags. }
  assert (forall m, Z.land (Z.lnot (Z.lor B_WANTED (Z.lor B_BUSY (Z.lor B_ASYNC B_AGE)))) m = m -> on (b_flags (released b3)) m = on (b_flags b3) m) as Hr'.
  { intros m Hm. unfold released, unbusy. cbn [with_flags b_flags]. rewrite on_and_not, Hm. by apply disowned_flags. }
  split; rewrite ?Hr' by done.
  - rewrite Hf by done. apply transferred_done.
  - rewrite Hf, transferred_flags by done. cbn. by flags.
  - done.
  - rewrite Hf, transferred_flags by done. cbn. by flags.
  - rewrite <- Hb. unfold released, unbusy, disowned. by repeat case_match.
  - unfold released, unbusy, disowned. rewrite He, Hl3. destruct (x_error r); cbn; congruence.
  - rewrite <- Hr. unfold released, unbusy, disowned. by repeat case_match.
Qed.

(** The release that ends a write. *)
Lemma finish_write c c2 Q bp b b3 k r ws : held c2 Q bp b3 -> bufs c2 = <[bp:=b3]> (bufs c) -> bdata c2 = bdata c -> disk c2 = k ->
  on (b_flags b) B_LOCKED = false -> (forall m, on m (Z.lor B_WANTED (Z.lor B_BUSY (Z.lor B_ASYNC B_AGE))) = false ->
  on (b_flags b3) m = on (b_flags (transferred (write_flags b) r)) m) -> b_dev b3 = b_dev b -> b_blkno b3 = b_blkno b -> b_resid b3 = x_resid r ->
  woken c2 = ws ++ woken c -> (on (b_flags b) B_WANTED = true -> BufChan bp ∈ ws \/ on (b_flags b3) B_WANTED = true) -> bfreelist_wanted c2 = bfreelist_wanted c ->
  exists c', brelse c2 bp = Ok c' /\ wrote c Q bp b k r c' (back Q b3 bp) (released b3).
Proof.
  intros Hh Hb Hd Hk Hl Hf Hdev Hbn Hr Hw Hwb Hwf.
  assert (on (b_flags b3) B_DELWRI = false) as Hdw by (rewrite Hf, transferred_flags by done; cbn; by flags).
  destruct (brelse_held c2 Q bp b3 Hh ltac:(congruence)) as (c3 & E & Hwf3 & G1 & G2 & G3 & G4 & G5 & G6 & (vs & Hv & Hv1 & Hv2)).
  exists c3. split; [done|]. split; [done | apply queued_back | by rewrite G1, Hb, list_insert_insert_eq | congruence | congruence | done | by apply released_write |].
  exists (vs ++ ws). rewrite Hv, Hw, <- app_assoc. split; [done|]. split.
  - intros H. apply elem_of_app. destruct (Hwb H) as [H'|H']; [by right | left; by apply Hv1].
  - intros H. apply elem_of_app. left. apply Hv2. congruence.
Qed.

Lemma wrote_age c Q bp b k r c' Q' b' : wrote c Q bp b k r c' Q' b' -> (bp < length (bufs c))%nat ->
  wrote c Q bp b k r (put c' bp (with_flags b' (Z.lor (b_flags b') B_AGE))) Q' (with_flags b' (Z.lor (b_flags b') B_AGE)).
Proof.
  intros [W1 W2 W3 W4 W5 W6 [R1 R2 R3 R4 R5 R6 R7] W8] Hlt.
  assert (bufs c' !! bp = Some b') as Hb by (rewrite W3; by apply list_lookup_insert_eq).
  split; try done.
  - by apply wf_age.
  - cbn. by rewrite W3, list_insert_insert_eq.
  - split; cbn [with_flags b_flags b_dev b_blkno b_resid]; flags; done.
Qed.

Lemma on_disjoint x a b m : on m (Z.lor a b) = false -> on (Z.land x (Z.lnot a)) m = on x m.
Proof.
  rewrite on_or_r. intros [Ha _]%orb_false_iff. rewrite on_and_not. f_equal. rewrite Z.land_comm.
  unfold on in Ha. apply negb_false_iff, Z.eqb_eq in Ha. apply Z.bits_inj'. intros j Hj. rewrite Z.land_spec, Z.lnot_spec by done.
  apply (f_equal (fun z => Z.testbit z j)) in Ha. rewrite Z.land_spec, Z.bits_0 in Ha. by destruct (Z.testbit m j), (Z.testbit a j).
Qed.

(** [bwrite] up to the transfer. *)
Lemma bwrite_start c Q bp b : held c Q bp b -> exists c1, held c1 Q bp (write_flags b) /\ bufs c1 = <[bp:=write_flags b]> (bufs c) /\
  bdata c1 = bdata c /\ disk c1 = disk c /\ woken c1 = woken c /\ bfreelist_wanted c1 = bfreelist_wanted c /\
  (c ← clrbits c bp (Z.lor B_READ (Z.lor B_DONE (Z.lor B_ERROR B_DELWRI))); set_hdr (if negb (on (b_flags b) B_DELWRI) then pay c 0 1 else c) bp (fun b => with_bcount b DEV_BSIZE)) = Ok c1.
Proof.
  intros Hh. pose proof Hh as [Hw _ Hb Ha Hl]. unfold clrbits. rewrite (set_hdr_ok _ _ _ _ Hb). cbn [mbind outcome_bind].
  set (b0 := with_flags b _). set (c0 := if negb _ then _ else _).
  assert (bufs c0 = <[bp:=b0]> (bufs c) /\ bdata c0 = bdata c /\ disk c0 = disk c /\ woken c0 = woken c /\ bfreelist_wanted c0 = bfreelist_wanted c /\ av c0 = av c)
    as (B0 & D0 & K0 & W0 & F0 & A0) by (unfold c0; by destruct (on (b_flags b) B_DELWRI)).
  exists (put c0 bp (write_flags b)). split; [|cbn; rewrite B0, list_insert_insert_eq; repeat (split; [done|]);
    refine (set_hdr_ok c0 bp (fun b => with_bcount b DEV_BSIZE) b0 _); rewrite B0; apply list_lookup_insert_eq; by eapply lookup_lt_Some].
  apply (held_same (put c bp (write_flags b))); try (cbn; rewrite ?B0, ?D0, ?F0, ?A0, ?list_insert_insert_eq; done).
  - apply (held_put c Q bp b); [done | done | cbn; by flags].
  - cbn. rewrite D0. apply (wf_words _ _ _ Hw).
Qed.

Lemma write_fields b r : let b2 := transferred (write_flags b) r in b_dev b2 = b_dev b /\ b_blkno b2 = b_blkno b /\ b_resid b2 = x_resid r.
Proof. unfold transferred. by destruct (x_error r). Qed.

(** The write of a held buffer: the error [bwrite] returns, and the state. *)
Definition write_error (b : buf) (r : xfer) : Z :=
  if on (b_flags b) B_ASYNC then 0 else match x_error r with Some e => if e =? 0 then EIO else e | None => 0 end.

Lemma bwrite_held c Q bp b x : held c Q bp b -> bdata c !! bp = Some x -> b_dev b <> NODEV ->
  let k := fst (transfer (disk c) false (b_dev b) (b_blkno b) DEV_BSIZE x) in let r := snd (transfer (disk c) false (b_dev b) (b_blkno b) DEV_BSIZE x) in
  exists c' Q' b', bwrite c bp = Ok (c', write_error b r) /\ wrote c Q bp b k r c' Q' b'.
Proof.
  intros Hh Hx Hdev k r. pose proof Hh as [_ _ Hb Ha Hl]. pose proof (lookup_lt_Some _ _ _ Hb) as Hlt. unfold bwrite.
  rewrite (rd_ok _ _ _ Hb). cbn [mbind outcome_bind]. cbv zeta.
  destruct (bwrite_start c Q bp b Hh) as (c1 & Hh1 & B1 & D1 & K1 & W1 & F1 & E1).
  match goal with |- context [clrbits c bp ?m ≫= ?f] => 
    replace (clrbits c bp m ≫= f) with (Ok c1 ≫= fun c => c ← strategy c bp; if negb (on (b_flags b) B_ASYNC) then
      c ← biowait c bp; b ← rd (bufs c) bp; let error := geterror b in c ← brelse c bp; Ok (c, error)
      else if on (b_flags b) B_DELWRI then c ← setbits c bp B_AGE; Ok (c, 0) else Ok (c, 0)) by (rewrite <- E1, outcome_bind_assoc; done) end.
  cbn [mbind outcome_bind].
  destruct (strategy_held c1 Q bp _ x Hh1) as [E Hr]; [by rewrite D1 | done | cbn; by flags|].
  assert (request c1 bp (write_flags b) x = transfer (disk c) false (b_dev b) (b_blkno b) DEV_BSIZE x) as Er.
  { unfold request. rewrite K1. cbn [write_flags with_bcount with_flags b_flags b_dev b_blkno b_bcount]. f_equal. by flags. }
  rewrite Er in E, Hr. fold k r in E, Hr. rewrite E. assert (x_data r = x) as Hxr by apply transfer_write.
  assert (on (b_flags (write_flags b)) B_ASYNC = on (b_flags b) B_ASYNC) as -> by (cbn; by flags).
  destruct (after_io_moved c1 Q bp (write_flags b) x k r Hh1 Hr) as (Hh2 & [M1 M2 M3] & W2 & F2 & _).
  set (c2 := after_io c1 bp (write_flags b) k r) in *. set (b2 := transferred (write_flags b) r) in *.
  rewrite B1, list_insert_insert_eq in M1. rewrite Hxr, D1, list_insert_id in M2 by done. rewrite W1 in W2. rewrite F1 in F2.
  destruct (write_fields b r) as (H1 & H2 & H3). fold b2 in H1, H2, H3.
  assert (on (b_flags b2) B_DONE = true) as Hdone by apply transferred_done.
  assert (geterror b2 = match x_error r with Some e => if e =? 0 then EIO else e | None => 0 end) as Hge by (apply geterror_result; cbn; by flags).
  unfold write_error. destruct (on (b_flags b) B_ASYNC) eqn:Ea; cbn [negb].
  - destruct (finish_write c c2 Q bp b b2 k r [] Hh2) as (c3 & E3 & Hw3); try done.
    { intros H. right. unfold b2. rewrite transferred_flags by done. cbn. by flags. }
    rewrite E3. cbn [mbind outcome_bind]. destruct (on (b_flags b) B_DELWRI); [|by eexists _, _, _].
    unfold setbits. rewrite (set_hdr_ok c3 bp _ (released b2)) by (rewrite (wo_bufs _ _ _ _ _ _ _ _ _ Hw3); by apply list_lookup_insert_eq).
    cbn [mbind outcome_bind]. eexists _, _, _. split; [reflexivity|]. by apply wrote_age.
  - cbn [mbind outcome_bind]. set (c3 := wake_chan (put c2 bp (unwanted b2)) (BufChan bp)).
    assert (bufs c3 = <[bp:=unwanted b2]> (bufs c)) as B3 by (cbn; by rewrite M1, list_insert_insert_eq).
    rewrite (biowait_run c3 bp (unwanted b2)) by first [rewrite B3; by apply list_lookup_insert_eq | cbn; by flags]. cbn [mbind outcome_bind].
    set (c4 := if u_error c3 =? 0 then set_u_error c3 (geterror (unwanted b2)) else c3).
    assert (bufs c4 = bufs c3 /\ bdata c4 = bdata c3 /\ disk c4 = disk c3 /\ woken c4 = woken c3 /\ bfreelist_wanted c4 = bfreelist_wanted c3 /\ av c4 = av c3)
      as (B4 & D4 & K4 & W4 & F4 & A4) by (unfold c4; by destruct (u_error c3 =? 0)).
    rewrite (rd_ok (bufs c4) bp (unwanted b2)) by (rewrite B4, B3; by apply list_lookup_insert_eq). cbn [mbind outcome_bind].
    destruct (finish_write c c4 Q bp b (unwanted b2) k r [BufChan bp]) as (c5 & E5 & Hw5); try done.
    + apply (held_same (put c2 bp (unwanted b2))); try (rewrite ?B4, ?D4, ?F4, ?A4; done).
      * apply (held_put c2 Q bp b2); [done | done|]. cbn [unwanted with_flags b_flags]. flags. apply (hd_locked _ _ _ _ Hh2).
      * rewrite D4. apply (wf_words _ _ _ (hd_wf _ _ _ _ Hh2)).
    + by rewrite B4.
    + by rewrite D4.
    + by rewrite K4.
    + intros m Hm. cbn [unwanted with_flags b_flags]. by apply (on_disjoint _ B_WANTED) in Hm as ->.
    + rewrite W4. cbn. by rewrite W2.
    + intros _. left. set_solver.
    + rewrite F4. done.
    + rewrite E5. cbn [mbind outcome_bind]. eexists _, _, _. split; [|done]. f_equal. f_equal. rewrite <- Hge. unfold geterror. cbn [unwanted with_flags b_flags b_error]. by flags.
Qed.

(** ** Finding a buffer *)

Lemma notavail_ok c Q bp b : wf c Q -> queued Q bp -> bufs c !! bp = Some b ->
  exists c' Q', notavail c bp = Ok c' /\ held c' Q' bp (with_flags b (Z.lor (b_flags b) B_BUSY)) /\ (forall i, queued Q' i <-> queued Q i /\ i <> bp) /\
    bufs c' = <[bp:=with_flags b (Z.lor (b_flags b) B_BUSY)]> (bufs c) /\ bdata c' = bdata c /\ disk c' = disk c /\ woken c' = woken c /\ bfreelist_wanted c' = false.
Proof.
  intros [H1 H2 H3 H4 H5 H6] (q & Hq & Hi) Hb. destruct (remove_queued _ _ _ _ _ H1 Hq Hi) as (l & E & Hl & Hno).
  destruct (H5 bp b ltac:(done) Hb) as [A1 A2 A3 A4 A5 A6].
  assert (bfreelist_wanted c = false) as Hw.
  { destruct (bfreelist_wanted c); [|done]. destruct (H6 eq_refl) as [HL HA]. exfalso. unfold BQ_LOCKED, BQ_LRU, BQ_AGE in *.
    destruct q as [|[|[|q]]]; [rewrite H2 in Hi | rewrite HL in Hi | rewrite HA in Hi | lia]; set_solver. }
  assert (forall i, queued (setq Q q (without bp (Q q))) i <-> queued Q i /\ i <> bp) as Hqd.
  { intros i. split.
    - intros (r & Hr & Hir). split; [|intros ->; apply Hno; by exists r]. apply elem_setq in Hir as [[-> Hir]|[_ Hir]]; [|by exists r].
      apply list_elem_of_filter in Hir as [_ Hir]. by exists q.
    - intros [(r & Hr & Hir) Hne]. exists r. split; [done|]. apply elem_setq. destruct (decide (r = q)) as [->|Hrq]; [left; split; [done|] | by right].
      by apply list_elem_of_filter. }
  unfold notavail, setbits. rewrite E. cbn [mbind outcome_bind]. rewrite (set_hdr_ok (set_av c l) bp _ b Hb).
  eexists _, _. split; [reflexivity|]. split; [|split; [exact Hqd|]; do 4 (split; [reflexivity|]); exact Hw].
  apply (held_put (set_av c l) _ bp b); [|done|cbn; by flags].
  split; [|done..]. split; try done.
  - unfold setq. case_decide; [|done]. subst. by rewrite H2.
  - intros i b' Hne Hb'. destruct (H5 i b' ltac:(done) Hb') as [B1 B2 B3 B4 B5 B6]. split; try done. rewrite Hqd, <- B5. split; [by intros []|]. split; congruence.
  - cbn. congruence.
Qed.

(** A free delayed buffer has been written, waited for or not. *)
Record flushed c Q (bp : nat) (b : buf) (k : K) (r : xfer) c' Q' (b' : buf) : Prop := {
  fl_wf : wf c' Q';
  fl_queued : forall i, queued Q' i <-> queued Q i;
  fl_bufs : bufs c' = <[bp:=b']> (bufs c);
  fl_data : bdata c' = bdata c;
  fl_disk : disk c' = k;
  fl_result : write_result b r b';
  fl_woken : exists ws, woken c' = ws ++ woken c
}.

Definition disk_write c (b : buf) (x : words) : K * xfer := transfer (disk c) false (b_dev b) (b_blkno b) DEV_BSIZE x.

Lemma wrote_flushed c0 c Q0 Q bp b fl k r c' Q' b' : queued Q0 bp -> (forall i, queued Q i <-> queued Q0 i /\ i <> bp) -> on fl B_INVAL = on (b_flags b) B_INVAL ->
  bufs c = <[bp:=with_flags b fl]> (bufs c0) -> bdata c = bdata c0 -> woken c = woken c0 -> wrote c Q bp (with_flags b fl) k r c' Q' b' -> flushed c0 Q0 bp b k r c' Q' b'.
Proof.
  intros Hq HQ Hfl Hb Hd Hw [W1 W2 W3 W4 W5 W6 [R1 R2 R3 R4 R5 R6 R7] (ws & W8 & _)]. split; try done.
  - intros i. rewrite W2, HQ. destruct (decide (i = bp)); naive_solver.
  - by rewrite W3, Hb, list_insert_insert_eq.
  - congruence.
  - split; try done. cbn in R4. congruence.
  - exists ws. congruence.
Qed.

(** [evict] of [getnewbuf] and [flush_one] of the flushes. *)
Definition evict c (bp : nat) : outcome (bcache K) := c ← notavail c bp; bawrite c bp.

Lemma flush_ok c Q bp b x : wf c Q -> queued Q bp -> bufs c !! bp = Some b -> bdata c !! bp = Some x -> on (b_flags b) B_DELWRI = true ->
  (exists c' Q' b', flush_one c bp = Ok (c', match x_error (snd (disk_write c b x)) with Some e => if e =? 0 then EIO else e | None => 0 end) /\
    flushed c Q bp b (fst (disk_write c b x)) (snd (disk_write c b x)) c' Q' b') /\
  (exists c' Q' b', evict c bp = Ok c' /\ flushed c Q bp b (fst (disk_write c b x)) (snd (disk_write c b x)) c' Q' b').
Proof.
  intros Hw Hq Hb Hx Hd. destruct (notavail_ok c Q bp b Hw Hq Hb) as (c1 & Q1 & E1 & Hh & HQ & B1 & D1 & K1 & W1 & _).
  destruct (wf_buf _ _ _ Hw bp b ltac:(done) Hb) as [A1 A2 A3 A4 A5 A6]. destruct (A4 Hd) as (_ & _ & Hdev).
  pose proof (lookup_lt_Some _ _ _ Hb) as Hlt. split.
  - destruct (bwrite_held c1 Q1 bp _ x Hh) as (c2 & Q2 & b2 & E2 & Hwr); [by rewrite D1 | done|]. exists c2, Q2, b2. unfold flush_one. rewrite E1. cbn [mbind outcome_bind]. rewrite E2, K1.
    split; [|rewrite K1 in Hwr; refine (wrote_flushed _ _ _ _ _ _ _ _ _ _ _ _ Hq HQ _ B1 D1 W1 Hwr); by flags].
    unfold write_error. cbn [with_flags b_flags]. flags. by rewrite A3.
  - unfold evict, bawrite. rewrite E1. cbn [mbind outcome_bind]. unfold setbits. rewrite (set_hdr_ok _ _ _ _ (hd_buf _ _ _ _ Hh)). cbn [mbind outcome_bind].
    set (b1 := with_flags b (Z.lor (Z.lor (b_flags b) B_BUSY) B_ASYNC)). match goal with |- context [put c1 bp ?z] => change (put c1 bp z) with (put c1 bp b1) end.
    assert (held (put c1 bp b1) Q1 bp b1) as Hh1 by (apply (held_put c1 Q1 bp _ _ Hh); [done | cbn; by flags]).
    destruct (bwrite_held _ Q1 bp b1 x Hh1) as (c2 & Q2 & b2 & E2 & Hwr); [cbn; by rewrite D1 | done|]. exists c2, Q2, b2. rewrite E2. split; [done|].
    cbn [disk put set_bufs] in Hwr. rewrite K1 in Hwr. 
    refine (wrote_flushed c (put c1 bp b1) Q Q1 bp b (Z.lor (Z.lor (b_flags b) B_BUSY) B_ASYNC) _ _ c2 Q2 b2 Hq HQ _ _ D1 W1 Hwr); [by flags|]. cbn. by rewrite B1, list_insert_insert_eq.
Qed.

(** Delayed free buffers written one after the other. *)
Inductive cleans : bcache K -> (nat -> list nat) -> bcache K -> (nat -> list nat) -> Prop :=
| cleans_none c Q : cleans c Q c Q
| cleans_one c Q bp b x c1 Q1 b1 c2 Q2 : wf c Q -> queued Q bp -> bufs c !! bp = Some b -> bdata c !! bp = Some x -> on (b_flags b) B_DELWRI = true ->
    flushed c Q bp b (fst (disk_write c b x)) (snd (disk_write c b x)) c1 Q1 b1 -> cleans c1 Q1 c2 Q2 -> cleans c Q c2 Q2.

Definition delayed c : nat := length (filter (fun b => on (b_flags b) B_DELWRI = true) (bufs c)).

Lemma filter_insert_less {A} (P : A -> Prop) `{forall x, Decision (P x)} (l : list A) i x y :
  l !! i = Some x -> P x -> ~ P y -> (length (filter P (<[i:=y]> l)) < length (filter P l))%nat.
Proof.
  revert i. induction l as [|z l IH]; intros [|i] Hl Hx Hy; [done | done | |].
  - injection Hl as ->. change (<[0%nat:=y]> (x :: l)) with (y :: l). rewrite filter_cons_False, filter_cons_True by done. cbn [length]. lia.
  - specialize (IH i Hl Hx Hy). change (<[S i:=y]> (z :: l)) with (z :: <[i:=y]> l). rewrite !filter_cons. case_decide; cbn [length]; lia.
Qed.

Lemma flushed_delayed c Q bp b k r c' Q' b' : bufs c !! bp = Some b -> on (b_flags b) B_DELWRI = true -> flushed c Q bp b k r c' Q' b' -> (delayed c' < delayed c)%nat.
Proof.
  intros Hb Hd [_ _ Hl _ _ [_ R2 _ _ _ _ _] _]. unfold delayed. rewrite Hl. apply (filter_insert_less _ _ _ b); [done | done | congruence].
Qed.

(** The buffer a search would take: the head of AGE, then of LRU. *)
Definition next_free (Q : nat -> list nat) : option nat := head (Q BQ_AGE ++ Q BQ_LRU).

Lemma first_free_ok c Q : wf c Q -> first_free c = Ok (next_free Q).
Proof.
  intros Hw. pose proof (wf_queues _ _ _ Hw) as HQ. unfold first_free, bq, next_free.
  rewrite (rd_ok _ _ _ (queue_first _ _ _ BQ_AGE HQ ltac:(unfold BQ_AGE; lia))). cbn [mbind outcome_bind].
  assert (forall q i, (q < 3)%nat -> i ∈ Q q -> i <> (length (bufs c) + q)%nat) as Hne.
  { intros q i Hq Hi ->. pose proof (queued_lt _ _ _ _ HQ (ex_intro _ q (conj Hq Hi))). lia. }
  destruct (Q BQ_AGE) as [|a l] eqn:EA; cbn [head default app].
  - rewrite bool_decide_eq_true_2 by done. cbn [negb]. rewrite (rd_ok _ _ _ (queue_first _ _ _ BQ_LRU HQ ltac:(unfold BQ_LRU; lia))). cbn [mbind outcome_bind].
    destruct (Q BQ_LRU) as [|a l] eqn:EL; cbn [head default]; [by rewrite bool_decide_eq_true_2|].
    rewrite bool_decide_eq_false_2; [done|]. apply (Hne BQ_LRU); [unfold BQ_LRU; lia | rewrite EL; set_solver].
  - rewrite bool_decide_eq_false_2; [done|]. apply (Hne BQ_AGE); [unfold BQ_AGE; lia | rewrite EA; set_solver].
Qed.

Lemma next_free_queued Q i : next_free Q = Some i -> queued Q i.
Proof.
  unfold next_free. intros H. assert (i ∈ Q BQ_AGE ++ Q BQ_LRU) as [Hi|Hi]%elem_of_app by (destruct (Q BQ_AGE ++ Q BQ_LRU); [done | injection H as ->; set_solver]).
  - exists BQ_AGE. split; [unfold BQ_AGE; lia | done].
  - exists BQ_LRU. split; [unfold BQ_LRU; lia | done].
Qed.
Lemma next_free_none c Q : wf c Q -> next_free Q = None -> Q BQ_LRU = [] /\ Q BQ_AGE = [] /\ forall i, ~ queued Q i.
Proof.
  intros Hw. unfold next_free. destruct (Q BQ_AGE) as [|a l] eqn:EA; [|done]. destruct (Q BQ_LRU) as [|a l] eqn:EL; [|done]. intros _.
  split; [done|]. split; [done|]. intros i (q & Hq & Hi). pose proof (wf_locked _ _ _ Hw) as EK. unfold BQ_LOCKED, BQ_LRU, BQ_AGE in *.
  destruct q as [|[|[|q]]]; rewrite ?EA, ?EL, ?EK in Hi; [set_solver.. | lia].
Qed.

(** The buffer [getnewbuf] gives: taken off its list, with only B_BUSY. *)
Record taken c Q (bp : nat) (b : buf) c' Q' : Prop := {
  tk_held : held c' Q' bp (with_flags b B_BUSY);
  tk_queued : forall i, queued Q' i <-> queued Q i /\ i <> bp;
  tk_bufs : bufs c' = <[bp:=with_flags b B_BUSY]> (bufs c);
  tk_data : bdata c' = bdata c;
  tk_disk : disk c' = disk c;
  tk_woken : woken c' = woken c;
  tk_wanted : bfreelist_wanted c' = false
}.

Lemma take_clean c Q bp b : wf c Q -> queued Q bp -> bufs c !! bp = Some b -> on (b_flags b) B_DELWRI = false ->
  exists c1 c' Q', notavail c bp = Ok c1 /\ rd (bufs c1) bp = Ok (with_flags b (Z.lor (b_flags b) B_BUSY)) /\ taken c Q bp b c' Q' /\
    (c ← (if on (Z.lor (b_flags b) B_BUSY) (Z.lor B_RAMREMAP B_PHYS) then set_hdr c1 bp (fun b => with_addr b (DEV_BSIZE * Z.of_nat bp)) else Ok c1);
     c ← set_hdr c bp (fun b => with_flags b B_BUSY); Ok (c, Held bp)) = Ok (c', Held bp).
Proof.
  intros Hw Hq Hb Hd. destruct (notavail_ok c Q bp b Hw Hq Hb) as (c1 & Q1 & E1 & Hh & HQ & B1 & D1 & K1 & W1 & F1).
  pose proof (bo_addr _ _ _ (wf_buf _ _ _ Hw bp b ltac:(done) Hb)) as Ha. set (b1 := with_flags b _) in *.
  exists c1, (put c1 bp (with_flags b B_BUSY)), Q1. split; [done|]. split; [apply rd_ok, Hh|]. split.
  - split; try done; [by apply (held_put c1 Q1 bp b1)|]. cbn. by rewrite B1, list_insert_insert_eq.
  - assert (forall c2, c2 = c1 -> (c ← set_hdr c2 bp (fun b => with_flags b B_BUSY); Ok (c, Held bp)) = Ok (put c1 bp (with_flags b B_BUSY), Held bp)) as H.
    { intros c2 ->. by rewrite (set_hdr_ok _ _ _ _ (hd_buf _ _ _ _ Hh)). }
    case_match; [|by apply H]. rewrite (set_hdr_ok _ _ _ _ (hd_buf _ _ _ _ Hh)). cbn [mbind outcome_bind]. apply H.
    assert (with_addr b1 (DEV_BSIZE * Z.of_nat bp) = b1) as -> by (rewrite <- Ha; by destruct b).
    unfold put. rewrite list_insert_id by apply Hh. by destruct c1.
Qed.

(** [getnewbuf] writes the delayed buffers at the head of the lists until a
    clean one is there, and takes it; it sleeps only when every buffer is
    busy. *)
Lemma getnewbuf_ok fuel c Q : wf c Q -> (delayed c < fuel)%nat ->
  (exists c1 Q1 bp b c' Q', getnewbuf fuel c = Ok (c', Held bp) /\ cleans c Q c1 Q1 /\ wf c1 Q1 /\ next_free Q1 = Some bp /\ bufs c1 !! bp = Some b /\
     on (b_flags b) B_DELWRI = false /\ taken c1 Q1 bp b c' Q') \/
  (getnewbuf fuel c = Ok (set_wanted c true, SleepFree) /\ forall i, ~ queued Q i).
Proof.
  revert c Q. induction fuel as [|fuel IH]; intros c Q Hw Hf; [lia|]. cbn [getnewbuf]. rewrite (first_free_ok c Q Hw). cbn [mbind outcome_bind].
  destruct (next_free Q) as [bp|] eqn:EN; [|right; by destruct (next_free_none _ _ Hw EN) as (_ & _ & ?)].
  pose proof (next_free_queued _ _ EN) as Hq. pose proof (queued_lt _ _ _ _ (wf_queues _ _ _ Hw) Hq) as Hlt.
  destruct (lookup_lt_is_Some_2 (bufs c) bp Hlt) as [b Hb]. left. destruct (on (b_flags b) B_DELWRI) eqn:Hd.
  - destruct (notavail_ok c Q bp b Hw Hq Hb) as (c0 & Q0 & E0 & Hh & _). destruct (lookup_lt_is_Some_2 (bdata c) bp) as [x Hx]; [by rewrite (wf_data _ _ _ Hw)|].
    destruct (flush_ok c Q bp b x Hw Hq Hb Hx Hd) as [_ (c1 & Q1 & b1 & E1 & Hfl)]. unfold evict in E1. rewrite E0 in E1 |- *. cbn [mbind outcome_bind] in *.
    rewrite (rd_ok _ _ _ (hd_buf _ _ _ _ Hh)). cbn [mbind outcome_bind]. assert (on (b_flags (with_flags b (Z.lor (b_flags b) B_BUSY))) B_DELWRI = true) as -> by (cbn; by flags).
    rewrite E1. cbn [mbind outcome_bind]. pose proof (flushed_delayed _ _ _ _ _ _ _ _ _ Hb Hd Hfl).
    destruct (IH c1 Q1 (fl_wf _ _ _ _ _ _ _ _ _ Hfl) ltac:(lia)) as [(c2 & Q2 & bp2 & b2 & c3 & Q3 & E & Hcl & H1)|[_ H2]].
    + exists c2, Q2, bp2, b2, c3, Q3. split; [done|]. split; [by eapply cleans_one|done].
    + exfalso. apply (H2 bp). by apply (fl_queued _ _ _ _ _ _ _ _ _ Hfl).
  - destruct (take_clean c Q bp b Hw Hq Hb Hd) as (c1 & c' & Q' & E1 & E2 & Ht & E3). exists c, Q, bp, b, c', Q'. rewrite E1. cbn [mbind outcome_bind].
    rewrite E2. cbn [mbind outcome_bind]. assert (on (b_flags (with_flags b (Z.lor (b_flags b) B_BUSY))) B_DELWRI = false) as -> by (cbn; by flags).
    rewrite <- E3. split; [done|]. split; [constructor|done].
Qed.

Lemma delayed_le c : (delayed c < S (length (bufs c)))%nat.
Proof. unfold delayed. pose proof (length_filter (fun b => on (b_flags b) B_DELWRI = true) (bufs c)). lia. Qed.

(** ** The operations *)

Lemma lookup_buf_Some c dev bn i : lookup_buf c dev bn = Some i -> exists b, bufs c !! i = Some b /\ hit dev bn b = true /\ (forall j b', bufs c !! j = Some b' -> (j < i)%nat -> hit dev bn b' = false).
Proof.
  unfold lookup_buf. destruct (list_find (hit dev bn) (bufs c)) as [[j b]|] eqn:E; [|done]. intros [= <-]. apply list_find_Some in E as (H1 & H2 & H3).
  exists b. split; [done|]. split; [by apply Is_true_true|]. intros j' b' Hb Hj. specialize (H3 j' b' Hb Hj). by destruct (hit dev bn b').
Qed.
Lemma lookup_buf_None c dev bn i b : lookup_buf c dev bn = None -> bufs c !! i = Some b -> hit dev bn b = false.
Proof.
  unfold lookup_buf. destruct (list_find (hit dev bn) (bufs c)) as [[j b']|] eqn:E; [done|]. intros _ Hb. apply list_find_None in E.
  rewrite Forall_forall in E. specialize (E b (list_elem_of_lookup_2 _ _ _ Hb)). by destruct (hit dev bn b).
Qed.
Lemma hit_true dev bn b : hit dev bn b = true <-> b_blkno b = bn /\ b_dev b = dev /\ on (b_flags b) B_INVAL = false.
Proof. unfold hit. rewrite !andb_true_iff, !Z.eqb_eq, negb_true_iff. tauto. Qed.

(** A block that no buffer holds: a clean buffer takes it. *)
Definition fresh (b : buf) (dev bn : Z) : buf := with_block (with_bcount (with_flags b B_BUSY) 0) dev bn.
Lemma getblk_miss_ok c Q dev bn : wf c Q ->
  (exists c1 Q1 bp b c' Q', getblk_miss c dev bn = Ok (c', Held bp) /\ cleans c Q c1 Q1 /\ wf c1 Q1 /\ next_free Q1 = Some bp /\ bufs c1 !! bp = Some b /\ on (b_flags b) B_DELWRI = false /\
     held c' Q' bp (fresh b dev bn) /\ (forall i, queued Q' i <-> queued Q1 i /\ i <> bp) /\ bufs c' = <[bp:=fresh b dev bn]> (bufs c1) /\ bdata c' = bdata c1 /\ disk c' = disk c1 /\
     woken c' = woken c1 /\ bfreelist_wanted c' = false) \/
  (getblk_miss c dev bn = Ok (set_wanted c true, SleepFree) /\ forall i, ~ queued Q i).
Proof.
  intros Hw. unfold getblk_miss. destruct (getnewbuf_ok (S (length (bufs c))) c Q Hw (delayed_le c)) as [(c1 & Q1 & bp & b & c2 & Q2 & E & Hcl & Hw1 & Hn & Hb & Hd & [T1 T2 T3 T4 T5 T6 T7])|[E Hn]];
    rewrite E; cbn [mbind outcome_bind fst snd]; [|by right]. left.
  unfold bfree. rewrite (set_hdr_ok _ _ _ _ (hd_buf _ _ _ _ T1)). cbn [mbind outcome_bind]. rewrite (set_hdr_ok _ _ _ _ (put_lookup _ _ _ _ (hd_buf _ _ _ _ T1))), put_put. cbn [mbind outcome_bind].
  exists c1, Q1, bp, b, (put c2 bp (fresh b dev bn)), Q2. repeat (split; [done|]). split; [by apply (held_put c2 Q2 bp _ _ T1)|]. split; [done|].
  split; [|done]. cbn. by rewrite T3, list_insert_insert_eq.
Qed.

Definition empty (b : buf) : buf := with_block (with_bcount (with_flags b (Z.lor B_BUSY B_INVAL)) 0) NODEV (b_blkno b).
Lemma geteblk_ok c Q : wf c Q ->
  (exists c1 Q1 bp b c' Q', geteblk c = Ok (c', Held bp) /\ cleans c Q c1 Q1 /\ wf c1 Q1 /\ next_free Q1 = Some bp /\ bufs c1 !! bp = Some b /\ on (b_flags b) B_DELWRI = false /\
     held c' Q' bp (empty b) /\ (forall i, queued Q' i <-> queued Q1 i /\ i <> bp) /\ bufs c' = <[bp:=empty b]> (bufs c1) /\ bdata c' = bdata c1 /\ disk c' = disk c1 /\
     woken c' = woken c1 /\ bfreelist_wanted c' = false) \/
  (geteblk c = Ok (set_wanted c true, SleepFree) /\ forall i, ~ queued Q i).
Proof.
  intros Hw. unfold geteblk. destruct (getnewbuf_ok (S (length (bufs c))) c Q Hw (delayed_le c)) as [(c1 & Q1 & bp & b & c2 & Q2 & E & Hcl & Hw1 & Hn & Hb & Hd & [T1 T2 T3 T4 T5 T6 T7])|[E Hn]];
    rewrite E; cbn [mbind outcome_bind fst snd]; [|by right]. left.
  unfold bfree, setbits. rewrite (set_hdr_ok _ _ _ _ (hd_buf _ _ _ _ T1)). cbn [mbind outcome_bind]. rewrite (set_hdr_ok _ _ _ _ (put_lookup _ _ _ _ (hd_buf _ _ _ _ T1))), put_put. cbn [mbind outcome_bind].
  rewrite (set_hdr_ok _ _ _ _ (put_lookup _ _ _ _ (hd_buf _ _ _ _ T1))), put_put. cbn [mbind outcome_bind].
  exists c1, Q1, bp, b, (put c2 bp (empty b)), Q2. repeat (split; [done|]). split; [by apply (held_put c2 Q2 bp _ _ T1)|]. split; [done|].
  split; [|done]. cbn. by rewrite T3, list_insert_insert_eq.
Qed.

(** A block found: its buffer, or a sleep that leaves it B_WANTED. *)
Lemma getblk_hit_ok c Q dev bn bp : wf c Q -> lookup_buf c dev bn = Some bp -> exists b, bufs c !! bp = Some b /\
  (on (b_flags b) B_BUSY = true /\ getblk c dev bn = Ok (put c bp (with_flags b (Z.lor (b_flags b) B_WANTED)), SleepBuf bp) \/
   on (b_flags b) B_BUSY = false /\ queued Q bp /\ exists c', getblk c dev bn = Ok (c', Held bp) /\ notavail c bp = Ok c').
Proof.
  intros Hw Hl. destruct (lookup_buf_Some _ _ _ _ Hl) as (b & Hb & _). exists b. split; [done|]. unfold getblk. rewrite Hl, (rd_ok _ _ _ Hb). cbn [mbind outcome_bind].
  destruct (on (b_flags b) B_BUSY) eqn:Eb; [left; split; [done|]; unfold setbits; by rewrite (set_hdr_ok _ _ _ _ Hb)|].
  right. split; [done|]. assert (queued Q bp) as Hq by (by apply (bo_busy _ _ _ (wf_buf _ _ _ Hw bp b ltac:(done) Hb))). split; [done|].
  destruct (notavail_ok c Q bp b Hw Hq Hb) as (c' & Q' & E & _). exists c'. by rewrite E.
Qed.

(** A delayed write of a device that is no tape. *)
Lemma bdwrite_held c Q bp b : held c Q bp b -> b_dev b <> NODEV -> on (b_flags b) B_ERROR = false -> on (d_flags (b_dev b)) B_TAPE = false ->
  exists c' Q', bdwrite c bp = Ok c' /\ wf c' Q' /\ (forall i, queued Q' i <-> queued Q i \/ i = bp) /\
    bufs c' = <[bp:=released (with_flags b (Z.lor (b_flags b) (Z.lor B_DELWRI B_DONE)))]> (bufs c) /\ bdata c' = bdata c /\ disk c' = disk c /\ bfreelist_wanted c' = false /\ woke c c' bp b.
Proof.
  intros Hh Hdev He Ht. pose proof Hh as [Hw _ Hb Ha Hl]. unfold bdwrite. rewrite (rd_ok _ _ _ Hb). cbn [mbind outcome_bind]. rewrite Ht.
  set (c0 := if negb _ then _ else _). assert (bufs c0 = bufs c /\ bdata c0 = bdata c /\ disk c0 = disk c /\ woken c0 = woken c /\ bfreelist_wanted c0 = bfreelist_wanted c /\ av c0 = av c)
    as (B0 & D0 & K0 & W0 & F0 & A0) by (unfold c0; by destruct (on (b_flags b) B_DELWRI)).
  unfold setbits. rewrite (set_hdr_ok c0 bp _ b) by (by rewrite B0). cbn [mbind outcome_bind]. set (b1 := with_flags b _).
  assert (held (put c0 bp b1) Q bp b1) as Hh1.
  { apply (held_put c0 Q bp b); [|done|cbn; by flags]. apply (held_same c); try done; [by rewrite D0|]. rewrite D0. apply (wf_words _ _ _ Hw). }
  destruct (brelse_held _ Q bp b1 Hh1) as (c' & E & Hw' & G1 & G2 & G3 & G4 & G5 & G6 & (ws & G7 & G8 & G9)); [intros _; cbn; flags; done|].
  exists c', (back Q b1 bp). split; [done|]. split; [done|]. split; [apply queued_back|]. split; [rewrite G1; cbn; by rewrite B0, list_insert_insert_eq|].
  split; [by rewrite G2|]. split; [by rewrite G3|]. split; [done|]. exists ws. rewrite G7. cbn. rewrite W0. split; [done|]. split; [|by rewrite <- F0].
  intros H. apply G8. unfold b1. cbn [with_flags b_flags]. flags. by rewrite H.
Qed.

(** [fill] reads the block unless the buffer has it. *)
Lemma fill_held c Q bp b x : held c Q bp b -> bdata c !! bp = Some x -> b_dev b <> NODEV -> on (b_flags b) B_ASYNC = false ->
  on (b_flags b) (Z.lor B_DONE B_DELWRI) = true /\ fill c bp = Ok c \/
  on (b_flags b) (Z.lor B_DONE B_DELWRI) = false /\
  let k := fst (transfer (disk c) true (b_dev b) (b_blkno b) DEV_BSIZE x) in let r := snd (transfer (disk c) true (b_dev b) (b_blkno b) DEV_BSIZE x) in
  exists c', fill c bp = Ok c' /\ held c' Q bp (read_done b r) /\ moved c bp x k r (read_done b r) c' /\
    woken c' = BufChan bp :: woken c /\ bfreelist_wanted c' = bfreelist_wanted c /\
    u_error c' = if u_error c =? 0 then geterror (read_done b r) else u_error c.
Proof.
  intros Hh Hx Hdev Has. assert (fill c bp = if on (b_flags b) (Z.lor B_DONE B_DELWRI) then Ok c else c ← start_read c bp false; biowait c bp) as ->
    by (unfold fill; by rewrite (rd_ok _ _ _ (hd_buf _ _ _ _ Hh))).
  destruct (on (b_flags b) (Z.lor B_DONE B_DELWRI)) eqn:Ed; [by left|right]. split; [done|]. intros k r. rewrite on_or_r in Ed. apply orb_false_iff in Ed as [Ed _].
  destruct (start_read_held c Q bp b x Hh Hx Hdev Ed Has) as (c1 & E & Hh1 & [M1 M2 M3] & W1 & F1 & U1). fold k r in Hh1, M1, M2, M3. rewrite E. cbn [mbind outcome_bind].
  rewrite (biowait_run _ _ _ (hd_buf _ _ _ _ Hh1)) by (cbn [read_done unwanted with_flags b_flags]; flags; apply transferred_done).
  eexists. split; [reflexivity|]. destruct (u_error c1 =? 0) eqn:Eu; rewrite <- U1, Eu; [|done].
  split; [apply (held_same _ _ _ _ _ Hh1); try done; apply (wf_words _ _ _ (hd_wf _ _ _ _ Hh1))|done].
Qed.

Lemma bufs_length_wrote c Q bp b k r c' Q' b' : wrote c Q bp b k r c' Q' b' -> length (bufs c') = length (bufs c).
Proof. intros H. rewrite (wo_bufs _ _ _ _ _ _ _ _ _ H). apply length_insert. Qed.

(** ** Flushing *)

Definition wants_flush (dev : Z) (b : buf) : bool := on (b_flags b) B_DELWRI && (dev =? b_dev b).
Definition bio_error (r : xfer) : Z := match x_error r with Some e => if e =? 0 then EIO else e | None => 0 end.

(** The writes of a flush, with the first error carried along. *)
Inductive flushes (dev : Z) : bcache K -> (nat -> list nat) -> Z -> bcache K -> (nat -> list nat) -> Z -> Prop :=
| flushes_none c Q e : flushes dev c Q e c Q e
| flushes_one c Q e bp b x c1 Q1 b1 c2 Q2 e2 : wf c Q -> queued Q bp -> bufs c !! bp = Some b -> bdata c !! bp = Some x -> wants_flush dev b = true ->
    flushed c Q bp b (fst (disk_write c b x)) (snd (disk_write c b x)) c1 Q1 b1 ->
    flushes dev c1 Q1 (if negb (bio_error (snd (disk_write c b x)) =? 0) && (e =? 0) then bio_error (snd (disk_write c b x)) else e) c2 Q2 e2 -> flushes dev c Q e c2 Q2 e2.

(** No free buffer holds a delayed block of the device. *)
Definition flushed_out c Q (dev : Z) : Prop := forall i b, queued Q i -> bufs c !! i = Some b -> wants_flush dev b = false.

Lemma flush_walk_ok c Q dev q m1 m2 fuel : wf c Q -> (q < 3)%nat -> Q q = m1 ++ m2 -> (length m2 < fuel)%nat ->
  exists o, flush_walk fuel c dev (length (bufs c) + q) (default (length (bufs c) + q)%nat (head m2)) = Ok o /\
    match o with
    | Some bp => bp ∈ m2 /\ exists b, bufs c !! bp = Some b /\ wants_flush dev b = true
    | None => forall i b, i ∈ m2 -> bufs c !! i = Some b -> wants_flush dev b = false
    end.
Proof.
  revert m1 fuel. induction m2 as [|i m2 IH]; intros m1 [|fuel] Hw Hq E Hf; cbn [length] in Hf; [lia | | lia |]; cbn [flush_walk head default from_option id].
  - rewrite bool_decide_eq_true_2 by done. exists None. split; [done | set_solver].
  - pose proof (wf_queues _ _ _ Hw) as HQ. assert (i < length (bufs c))%nat as Hlt by (apply (queued_lt _ _ _ _ HQ); exists q; split; [done | rewrite E; set_solver]).
    rewrite (bool_decide_eq_false_2 (i = (length (bufs c) + q)%nat)) by lia. destruct (lookup_lt_is_Some_2 _ _ Hlt) as [b Hb]. rewrite (rd_ok _ _ _ Hb). cbn [mbind outcome_bind].
    destruct (on (b_flags b) B_DELWRI && (dev =? b_dev b)) eqn:Ew; [exists (Some i); split; [done|]; split; [set_solver | by exists b]|].
    rewrite (rd_ok _ _ _ (queue_next _ _ _ _ m1 i m2 HQ Hq E)). cbn [mbind outcome_bind].
    destruct (IH (m1 ++ [i]) fuel Hw Hq) as (o & Eo & Ho); [by rewrite <- app_assoc | lia|]. exists o. split; [done|]. destruct o as [bp|]; [set_solver|].
    intros j b' [->|Hj]%elem_of_cons Hb'; [unfold wants_flush; congruence | by apply (Ho j)].
Qed.

Lemma flush_next_ok c Q dev qs : wf c Q -> (forall q, q ∈ qs -> (q < 3)%nat) ->
  exists o, flush_next c dev qs = Ok o /\
    match o with
    | Some bp => queued Q bp /\ exists b, bufs c !! bp = Some b /\ wants_flush dev b = true
    | None => forall q i b, q ∈ qs -> i ∈ Q q -> bufs c !! i = Some b -> wants_flush dev b = false
    end.
Proof.
  intros Hw. induction qs as [|q qs IH]; intros Hq; cbn [flush_next]; [exists None; split; [done | set_solver]|].
  assert (q < 3)%nat as Hq3 by (apply Hq; set_solver). pose proof (wf_queues _ _ _ Hw) as HQ.
  unfold flush_list, bq. rewrite (rd_ok _ _ _ (queue_first _ _ _ q HQ Hq3)). cbn [mbind outcome_bind].
  destruct (flush_walk_ok c Q dev q [] (Q q) (S (length (bufs c))) Hw Hq3 eq_refl) as (o & E & Ho).
  { destruct HQ as (_ & HQ & _). destruct (HQ q Hq3) as (Hnd & Hb & _). apply le_n_S. transitivity (length (seq 0 (length (bufs c)))); [|by rewrite length_seq].
    apply submseteq_length, NoDup_submseteq; [done|]. intros i Hi. rewrite Forall_forall in Hb. specialize (Hb i Hi). apply elem_of_seq. lia. }
  rewrite E. cbn [mbind outcome_bind]. destruct o as [bp|].
  - exists (Some bp). split; [done|]. destruct Ho as [Hin Hb]. split; [by exists q | done].
  - destruct IH as (o & E' & Ho'); [intros r Hr; apply Hq; set_solver|]. exists o. split; [done|]. destruct o as [bp|]; [done|].
    intros r i b [->|Hr]%elem_of_cons; [apply Ho | by apply Ho'].
Qed.

Lemma bflush_loop_ok fuel c Q dev e : wf c Q -> (delayed c < fuel)%nat ->
  exists c' Q' e', bflush_loop fuel c dev e = Ok (c', e') /\ flushes dev c Q e c' Q' e' /\ wf c' Q' /\ flushed_out c' Q' dev.
Proof.
  revert c Q e. induction fuel as [|fuel IH]; intros c Q e Hw Hf; [lia|]. cbn [bflush_loop].
  destruct (flush_next_ok c Q dev [BQ_LOCKED; BQ_LRU; BQ_AGE] Hw) as (o & E & Ho); [unfold BQ_LOCKED, BQ_LRU, BQ_AGE; set_solver by lia|].
  rewrite E. cbn [mbind outcome_bind]. destruct o as [bp|].
  - destruct Ho as (Hq & b & Hb & Hwf). pose proof Hwf as [Hd _]%andb_true_iff.
    destruct (lookup_lt_is_Some_2 (bdata c) bp) as [x Hx]; [rewrite (wf_data _ _ _ Hw); by eapply lookup_lt_Some|].
    destruct (flush_ok c Q bp b x Hw Hq Hb Hx Hd) as [(c1 & Q1 & b1 & E1 & Hfl) _]. rewrite E1. cbn [mbind outcome_bind fst snd]. pose proof (flushed_delayed _ _ _ _ _ _ _ _ _ Hb Hd Hfl).
    destruct (IH c1 Q1 (if negb (bio_error (snd (disk_write c b x)) =? 0) && (e =? 0) then bio_error (snd (disk_write c b x)) else e) (fl_wf _ _ _ _ _ _ _ _ _ Hfl) ltac:(lia))
      as (c2 & Q2 & e2 & E2 & Hfs & Hw2 & Ho2). exists c2, Q2, e2. split; [done|]. split; [by eapply flushes_one | done].
  - exists c, Q, e. split; [done|]. split; [constructor|]. split; [done|]. intros i b (q & Hq & Hi) Hb. apply (Ho q i b); [|done..].
    unfold BQ_LOCKED, BQ_LRU, BQ_AGE. destruct q as [|[|[|]]]; [set_solver.. | lia].
Qed.

(** Blocks a flush does not write stay as they are; and none is written twice. *)
Definition unique c : Prop := forall i j bi bj, bufs c !! i = Some bi -> bufs c !! j = Some bj -> b_dev bi <> NODEV ->
  b_dev bi = b_dev bj -> b_blkno bi = b_blkno bj -> on (b_flags bi) B_INVAL = false -> on (b_flags bj) B_INVAL = false -> i = j.

Lemma flushed_other c Q bp b k r c' Q' b' i : flushed c Q bp b k r c' Q' b' -> i <> bp -> bufs c' !! i = bufs c !! i.
Proof. intros Hf Hi. rewrite (fl_bufs _ _ _ _ _ _ _ _ _ Hf). by apply list_lookup_insert_ne. Qed.
Lemma flushed_unique c Q bp b k r c' Q' b' : bufs c !! bp = Some b -> flushed c Q bp b k r c' Q' b' -> unique c -> unique c'.
Proof.
  intros Hb [_ _ F3 _ _ [R1 R2 R3 R4 R5 R6 R7] _] Hu i j bi bj. rewrite F3. intros Hi Hj Hdi Hd Hbn Hvi Hvj.
  assert (forall i bi, <[bp:=b']> (bufs c) !! i = Some bi -> b_dev bi <> NODEV -> on (b_flags bi) B_INVAL = false -> exists b0, bufs c !! i = Some b0 /\ b_dev b0 = b_dev bi /\ b_blkno b0 = b_blkno bi /\ on (b_flags b0) B_INVAL = false) as H.
  { intros i0 b0 H1 H2 H3. apply list_lookup_insert_Some in H1 as [(<- & <- & _)|[_ H1]]; [|by exists b0]. exists b. rewrite R6 in H2 |- *. destruct (x_error r); [done|]. split; [done|]. split; [done|]. by rewrite <- R4. }
  destruct (H i bi Hi Hdi Hvi) as (b1 & H1 & H2 & H3 & H4). destruct (H j bj Hj ltac:(congruence) Hvj) as (b2 & H5 & H6 & H7 & H8).
  apply (Hu i j b1 b2); congruence.
Qed.

Context {DSp : DiskSpec K}.

(** What the delayed blocks of a device are before a flush: valid, on the
    device, and waiting on a free buffer. *)
Definition flushable c (dev : Z) : Prop := dev <> NODEV /\ unique c /\
  forall i b, bufs c !! i = Some b -> wants_flush dev b = true -> on (b_flags b) B_INVAL = false /\ 0 <= b_blkno b < dev_blocks dev.
Definition waits c Q (dev bn : Z) (x : words) : Prop :=
  exists i b, queued Q i /\ bufs c !! i = Some b /\ bdata c !! i = Some x /\ wants_flush dev b = true /\ b_blkno b = bn.

Lemma flushed_clean c Q bp b k r c' Q' b' dev b0 : bufs c !! bp = Some b -> flushed c Q bp b k r c' Q' b' -> bufs c' !! bp = Some b0 -> wants_flush dev b0 = false.
Proof.
  intros Hb Hf. rewrite (fl_bufs _ _ _ _ _ _ _ _ _ Hf), list_lookup_insert_eq by (by eapply lookup_lt_Some). intros [= <-].
  unfold wants_flush. by rewrite (wt_delwri _ _ _ (fl_result _ _ _ _ _ _ _ _ _ Hf)).
Qed.

Lemma flushed_flushable c Q bp b k r c' Q' b' dev : bufs c !! bp = Some b -> flushed c Q bp b k r c' Q' b' -> flushable c dev -> flushable c' dev.
Proof.
  intros Hb Hf (Hdev & Hu & Hv). split; [done|]. split; [by eapply flushed_unique|]. intros i b0 Hi Hw. destruct (decide (i = bp)) as [->|Hne].
  - by rewrite (flushed_clean _ _ _ _ _ _ _ _ _ dev _ Hb Hf Hi) in Hw.
  - rewrite (flushed_other _ _ _ _ _ _ _ _ _ _ Hf Hne) in Hi. by apply (Hv i).
Qed.

(** What still waits after one write, and what does not. *)
Lemma flushed_waits c Q bp b k r c' Q' b' dev bn x : bufs c !! bp = Some b -> flushed c Q bp b k r c' Q' b' -> waits c' Q' dev bn x -> waits c Q dev bn x.
Proof.
  intros Hb Hf (i & b0 & Hq & Hi & Hx & Hw & Hn). destruct (decide (i = bp)) as [->|Hne].
  - by rewrite (flushed_clean _ _ _ _ _ _ _ _ _ dev _ Hb Hf Hi) in Hw.
  - exists i, b0. rewrite (flushed_other _ _ _ _ _ _ _ _ _ _ Hf Hne) in Hi. rewrite (fl_data _ _ _ _ _ _ _ _ _ Hf) in Hx. by rewrite <- (fl_queued _ _ _ _ _ _ _ _ _ Hf).
Qed.
Lemma flushed_rest c Q bp b k r c' Q' b' dev bn x : bufs c !! bp = Some b -> flushed c Q bp b k r c' Q' b' -> waits c Q dev bn x ->
  bdata c !! bp = Some x /\ b_blkno b = bn \/ waits c' Q' dev bn x.
Proof.
  intros Hb Hf (i & b0 & Hq & Hi & Hx & Hw & Hn). destruct (decide (i = bp)) as [->|Hne]; [left; split; [done | congruence]|right].
  exists i, b0. rewrite (flushed_other _ _ _ _ _ _ _ _ _ _ Hf Hne), (fl_data _ _ _ _ _ _ _ _ _ Hf), (fl_queued _ _ _ _ _ _ _ _ _ Hf). done.
Qed.
Lemma flushed_once c Q bp b k r c' Q' b' dev : bufs c !! bp = Some b -> wants_flush dev b = true -> flushable c dev -> flushed c Q bp b k r c' Q' b' -> forall x, ~ waits c' Q' dev (b_blkno b) x.
Proof.
  intros Hb Hwb (Hdev & Hu & Hv) Hf x (i & b0 & Hq & Hi & Hx & Hw & Hn). destruct (decide (i = bp)) as [->|Hne].
  - by rewrite (flushed_clean _ _ _ _ _ _ _ _ _ dev _ Hb Hf Hi) in Hw.
  - rewrite (flushed_other _ _ _ _ _ _ _ _ _ _ Hf Hne) in Hi. apply Hne. destruct (Hv _ _ Hb Hwb) as [V1 _], (Hv _ _ Hi Hw) as [V2 _].
    unfold wants_flush in *. apply andb_true_iff in Hw as [_ Hw%Z.eqb_eq], Hwb as [_ Hwb%Z.eqb_eq]. apply (Hu i bp b0 b); congruence.
Qed.

Lemma flushes_error dev c Q e c' Q' e' : flushes dev c Q e c' Q' e' -> e <> 0 -> e' = e.
Proof. induction 1 as [|c Q e bp b x c1 Q1 b1 c2 Q2 e2 _ _ _ _ _ _ _ IH]; [done|]. intros He. rewrite (proj2 (Z.eqb_neq _ _) He), andb_false_r in IH. by apply IH. Qed.

Lemma flushes_dropped dev c Q e c' Q' e' i b : flushes dev c Q e c' Q' e' -> dev <> NODEV -> bufs c !! i = Some b -> b_dev b = NODEV -> bufs c' !! i = Some b.
Proof.
  induction 1 as [|c Q e bp b2 x c1 Q1 b1 c2 Q2 e2 _ _ Hb _ Hw Hf _ IH]; [done|]. intros Hdev Hi Hn. apply IH; [done| |done].
  rewrite (flushed_other _ _ _ _ _ _ _ _ _ _ Hf); [done|]. intros ->. unfold wants_flush in Hw. apply andb_true_iff in Hw as [_ Hw%Z.eqb_eq]. congruence.
Qed.

(** A flush without error stores every waiting block that it leaves out of
    the cache, and stores nothing else. *)
Lemma flushes_platter dev c Q e c' Q' e' : flushes dev c Q e c' Q' e' -> flushable c dev ->
  (forall i, queued Q' i <-> queued Q i) /\
  (forall d bn, d <> dev \/ (forall x, ~ waits c Q dev bn x) -> platter (disk c') d bn = platter (disk c) d bn) /\
  (e' = 0 -> forall bn x, waits c Q dev bn x -> waits c' Q' dev bn x \/ platter (disk c') dev bn = x) /\
  (e = 0 -> e' <> 0 -> exists i b b', queued Q i /\ bufs c !! i = Some b /\ wants_flush dev b = true /\ bufs c' !! i = Some b' /\ b_dev b' = NODEV).
Proof.
  induction 1 as [c Q e|c Q e bp b x c1 Q1 b1 c2 Q2 e2 Hw Hq Hb Hx Hwb Hf Hfs IH]; intros Hfl; [split; [done|]; split; [done|]; split; [by left | congruence]|].
  destruct (IH (flushed_flushable _ _ _ _ _ _ _ _ _ _ Hb Hf Hfl)) as (I1 & I2 & I3 & I4). pose proof Hfl as (Hdev & Hu & Hv).
  destruct (Hv _ _ Hb Hwb) as [Hval Hr]. assert (b_dev b = dev) as Ed by (unfold wants_flush in Hwb; apply andb_true_iff in Hwb as [_ ?%Z.eqb_eq]; congruence).
  assert (length x = 256%nat) as Hlx by (apply (Forall_lookup_1 _ _ _ _ (wf_words _ _ _ Hw) Hx)).
  assert (forall d bn, (d, bn) <> (dev, b_blkno b) -> platter (disk c1) d bn = platter (disk c) d bn) as Hoth.
  { intros d bn Hne. rewrite (fl_disk _ _ _ _ _ _ _ _ _ Hf). unfold disk_write. rewrite Ed. by apply write_other. }
  split; [intros i; by rewrite I1, (fl_queued _ _ _ _ _ _ _ _ _ Hf)|]. split; [|split].
  - intros d bn Hd. rewrite I2, Hoth; [done| |].
    + intros [= -> ->]. destruct Hd as [Hd|Hd]; [done|]. by apply (Hd x); exists bp, b.
    + destruct Hd as [Hd|Hd]; [by left | right]. intros y Hy. by eapply Hd, flushed_waits.
  - intros He2 bn y Hy. destruct (flushed_rest _ _ _ _ _ _ _ _ _ _ _ _ Hb Hf Hy) as [[Hy' <-]|Hy']; [|by apply I3]. right.
    rewrite I2 by (right; by eapply flushed_once). rewrite (fl_disk _ _ _ _ _ _ _ _ _ Hf). unfold disk_write. rewrite Ed. assert (y = x) as -> by congruence.
    apply write_stores; [done | done|]. destruct (x_error (snd (disk_write c b x))) as [z|] eqn:Ez; [exfalso|unfold disk_write in Ez; by rewrite Ed in Ez].
    assert (bio_error (snd (disk_write c b x)) <> 0) as Hz by (unfold bio_error; rewrite Ez; destruct (Z.eqb_spec z 0); [done | congruence]).
    rewrite (proj2 (Z.eqb_neq _ _) Hz) in Hfs. cbn [negb andb] in Hfs. pose proof (flushes_error _ _ _ _ _ _ _ Hfs) as Hnz. destruct (Z.eqb_spec e 0); [|by rewrite Hnz in He2]. apply Hz. rewrite <- He2. symmetry. apply Hnz. done.
  - intros -> He2. rewrite andb_true_r in I4. destruct (Z.eqb_spec (bio_error (snd (disk_write c b x))) 0) as [Hz|Hz]; cbn [negb] in I4.
    + destruct (I4 eq_refl He2) as (i & b0 & b' & J1 & J2 & J3 & J4 & J5). exists i, b0, b'. rewrite <- (fl_queued _ _ _ _ _ _ _ _ _ Hf). split; [done|]. split; [|done].
      destruct (decide (i = bp)) as [->|Hne]; [|by rewrite <- (flushed_other _ _ _ _ _ _ _ _ _ _ Hf Hne)].
      by rewrite (flushed_clean _ _ _ _ _ _ _ _ _ dev _ Hb Hf J2) in J3.
    + exists bp, b, b1. do 3 (split; [done|]).
      assert (b_dev b1 = NODEV) as Hn1. { rewrite (wt_dev _ _ _ (fl_result _ _ _ _ _ _ _ _ _ Hf)). unfold bio_error in Hz. by destruct (x_error _). }
      split; [|done]. apply (flushes_dropped _ _ _ _ _ _ _ _ _ Hfs Hdev); [|done].
      rewrite (fl_bufs _ _ _ _ _ _ _ _ _ Hf). apply list_lookup_insert_eq. by eapply lookup_lt_Some.
Qed.

(** C33. [bflush] ends with no free buffer left that holds a delayed block of
    the device. If it returns 0, every such block is on the device as the
    buffer had it, and nothing else on any device has changed; if it returns an
    error, a block has been dropped: its buffer belongs to no device. *)
Theorem bflush_flushes c Q dev : wf c Q -> flushable c dev ->
  exists c' Q' e, bflush c dev = Ok (c', e) /\ wf c' Q' /\ (forall i, queued Q' i <-> queued Q i) /\ flushed_out c' Q' dev /\
    (e = 0 -> forall bn x, waits c Q dev bn x -> platter (disk c') dev bn = x) /\
    (forall d bn, d <> dev \/ (forall x, ~ waits c Q dev bn x) -> platter (disk c') d bn = platter (disk c) d bn) /\
    (e <> 0 -> exists i b b', queued Q i /\ bufs c !! i = Some b /\ wants_flush dev b = true /\ bufs c' !! i = Some b' /\ b_dev b' = NODEV).
Proof.
  intros Hw Hfl. destruct (bflush_loop_ok (S (length (bufs c))) c Q dev 0 Hw (delayed_le c)) as (c' & Q' & e & E & Hfs & Hw' & Ho).
  destruct (flushes_platter _ _ _ _ _ _ _ Hfs Hfl) as (H1 & H2 & H3 & H4). exists c', Q', e.
  split; [done|]. split; [done|]. split; [done|]. split; [done|]. split; [|split; [done | by apply H4]].
  intros He bn x Hx. destruct (H3 He bn x Hx) as [(i & b & Hq & Hb & _ & Hwf & _)|]; [|done]. by rewrite (Ho i b Hq Hb) in Hwf.
Qed.
End steps.
Abbreviation wf c Q := (wf_but c Q None).

(** ** Boot, and a device in memory *)

(** [binit] leaves every buffer on AGE, the last one first. *)
Definition booted {K} (k : K) (m : list mount) : bcache K :=
  Bcache ((fun i => Buf B_INVAL 0 0 NODEV (DEV_BSIZE * Z.of_nat i) 0 0) <$> seq 0 NBUF) (replicate NBUF (replicate 256 0))
    (Links [6; 0; 1; 2; 4; 5; 3] [1; 2; 3; 6; 4; 5; 0])%nat false k m [] 0 0 0.
Definition boot_queues (q : nat) : list nat := if bool_decide (q = BQ_AGE) then [3; 2; 1; 0]%nat else [].

(** [queues_check] decides that the links are the given lists, and
    [wf_check] the invariant. *)
Fixpoint linked_check (l : links) (xs : list nat) : bool :=
  match xs with
  | x :: ((y :: _) as r) => bool_decide (av_forw l !! x = Some y) && bool_decide (av_back l !! y = Some x) && linked_check l r
  | _ => true
  end.
Definition queues_check (n : nat) (l : links) (Q : nat -> list nat) : bool :=
  bool_decide (length (av_forw l) = n + 3)%nat && bool_decide (length (av_back l) = n + 3)%nat &&
  forallb (fun q => bool_decide (NoDup (Q q)) && forallb (fun i => bool_decide (i < n)%nat) (Q q) && linked_check l ((n + q)%nat :: Q q ++ [(n + q)%nat])) [0; 1; 2]%nat &&
  bool_decide (NoDup (Q 0%nat ++ Q 1%nat ++ Q 2%nat)).
Definition buf_check (Q : nat -> list nat) (i : nat) (b : buf) : bool :=
  (b_addr b =? DEV_BSIZE * Z.of_nat i) && negb (on (b_flags b) B_LOCKED) && negb (on (b_flags b) B_ASYNC) &&
  (negb (on (b_flags b) B_DELWRI) || (on (b_flags b) B_DONE && negb (on (b_flags b) B_ERROR) && negb (b_dev b =? NODEV))) &&
  eqb (bool_decide (i ∈ Q 0%nat ++ Q 1%nat ++ Q 2%nat)) (negb (on (b_flags b) B_BUSY)) && (on (b_flags b) B_BUSY || negb (on (b_flags b) B_WANTED)).
Definition wf_check {K} (c : bcache K) (Q : nat -> list nat) : bool :=
  queues_check (length (bufs c)) (av c) Q && bool_decide (Q BQ_LOCKED = []) && bool_decide (length (bdata c) = length (bufs c)) &&
  forallb (fun w => bool_decide (length w = 256%nat)) (bdata c) && forallb (fun p => buf_check Q (fst p) (snd p)) (imap pair (bufs c)) &&
  (negb (bfreelist_wanted c) || bool_decide (Q BQ_LRU = []) && bool_decide (Q BQ_AGE = [])).

Lemma linked_check_ok l xs : linked_check l xs = true -> linked l xs.
Proof.
  induction xs as [|x [|y r] IH]; [done..|]. cbn [linked_check]. rewrite !andb_true_iff, !bool_decide_eq_true. intros [[H1 H2] H3].
  rewrite linked_cons. split; [done|]. split; [done|]. by apply IH.
Qed.
Lemma queued_three Q i : queued Q i <-> i ∈ Q 0%nat ++ Q 1%nat ++ Q 2%nat.
Proof.
  rewrite !elem_of_app. split.
  - intros ([|[|[|q]]] & Hq & Hi); [tauto..|lia].
  - intros [Hi|[Hi|Hi]]; [exists 0%nat | exists 1%nat | exists 2%nat]; split; lia || done.
Qed.
Lemma queues_check_ok n l Q : queues_check n l Q = true -> queues_ok n l Q.
Proof.
  unfold queues_check. rewrite !andb_true_iff, !bool_decide_eq_true. intros [[[H1 H2] H3] H4]. rewrite forallb_forall in H3. split; [done|]. split.
  - intros q Hq. assert (In q [0; 1; 2]%nat) as Hin by (cbn; lia). specialize (H3 q Hin). rewrite !andb_true_iff, bool_decide_eq_true, forallb_forall in H3.
    destruct H3 as [[H5 H6] H7]. split; [done|]. split; [|by apply linked_check_ok]. apply Forall_forall. intros i Hi. specialize (H6 i ltac:(by apply list_elem_of_In)). by apply bool_decide_eq_true in H6.
  - intros q r i Hq Hr Hiq Hir. apply NoDup_app in H4 as (_ & D1 & (_ & D2 & _)%NoDup_app).
    destruct q as [|[|[|]]], r as [|[|[|]]]; try lia; try (exfalso; first [apply (D1 i); [done | set_solver] | apply (D2 i); done]).
Qed.
Lemma buf_check_ok Q i b : buf_check Q i b = true -> buf_ok Q i b.
Proof.
  unfold buf_check. rewrite !andb_true_iff, !orb_true_iff, !andb_true_iff, !negb_true_iff, Z.eqb_eq, Z.eqb_neq, eqb_true_iff.
  intros [[[[[H1 H2] H3] H4] H5] H6]. split; try done.
  - intros Hd. destruct H4 as [H4|[[H4 H7] H8]]; [congruence | done].
  - rewrite queued_three. destruct (on (b_flags b) B_BUSY); cbn [negb] in H5; [apply bool_decide_eq_false in H5 | apply bool_decide_eq_true in H5]; naive_solver.
  - intros Hb. destruct H6; congruence.
Qed.
Lemma wf_check_ok {K} (c : bcache K) Q : wf_check c Q = true -> wf c Q.
Proof.
  unfold wf_check. rewrite !andb_true_iff, orb_true_iff, !andb_true_iff, negb_true_iff, !bool_decide_eq_true, !forallb_forall.
  intros [[[[[H1 H2] H3] H4] H5] H6]. split; [by apply queues_check_ok | done | done | | |].
  - apply Forall_forall. intros w Hw. specialize (H4 w ltac:(by apply list_elem_of_In)). by apply bool_decide_eq_true in H4.
  - intros i b _ Hb. apply (buf_check_ok Q i b), (H5 (i, b)). apply list_elem_of_In, list_elem_of_lookup. exists i. by rewrite list_lookup_imap, Hb.
  - intros Hf. destruct H6; [congruence | done].
Qed.

Lemma binit_booted {K} {DK : Disk K} (k : K) m : binit NBUF k m = Ok (booted k m).
Proof. reflexivity. Qed.
Lemma booted_wf {K} (k : K) m : wf (booted k m) boot_queues.
Proof. apply wf_check_ok. vm_compute. reflexivity. Qed.

(** The caller's stores to the block of a buffer. *)
Definition store {K} (c : bcache K) (bp : nat) (x : words) : bcache K := set_io c (disk c) (<[bp:=x]> (bdata c)).

(** Devices of a hundred blocks kept by a function: a request beyond the end
    fails. *)
Definition memdisk : Type := Z -> Z -> words.
Definition fit (w : words) : words := take 256 (w ++ replicate 256 0).
Definition mem_transfer (k : memdisk) (rd : bool) (dev bn n : Z) (x : words) : memdisk * xfer :=
  if (bn <? 0) || (100 <=? bn) then (k, Xfer x (Some EIO) n)
  else if rd then (k, Xfer (fit (k dev bn)) None 0)
  else ((fun d b => if (d =? dev) && (b =? bn) then x else k d b), Xfer x None 0).
#[export] Instance memdisk_disk : Disk memdisk := { transfer := mem_transfer; d_flags _ := 0 }.

Lemma fit_length w : length (fit w) = 256%nat.
Proof. unfold fit. rewrite length_take, length_app, length_replicate. lia. Qed.
Lemma fit_id w : length w = 256%nat -> fit w = w.
Proof. intros H. unfold fit. rewrite take_app_le by lia. by rewrite <- H, firstn_all. Qed.

#[export] Instance memdisk_shape : DiskShape memdisk.
Proof.
  split; [intros k reading dev bn n x Hx | intros k dev bn n x]; cbn [transfer memdisk_disk]; unfold mem_transfer; destruct (_ || _); [done| |done|done].
  destruct reading; [apply fit_length | done].
Qed.
Lemma mem_stores (k : memdisk) dev bn x : 0 <= bn < 100 -> length x = 256%nat -> fit (fst (mem_transfer k false dev bn DEV_BSIZE x) dev bn) = x.
Proof. intros Hr Hx. unfold mem_transfer. replace ((bn <? 0) || (100 <=? bn)) with false by lia. cbn [fst]. rewrite !Z.eqb_refl. by apply fit_id. Qed.
Lemma mem_other (k : memdisk) dev bn x d b : 0 <= bn < 100 -> (d, b) <> (dev, bn) -> fst (mem_transfer k false dev bn DEV_BSIZE x) d b = k d b.
Proof.
  intros Hr Hne. unfold mem_transfer. replace ((bn <? 0) || (100 <=? bn)) with false by lia. cbn [fst].
  destruct (Z.eqb_spec d dev), (Z.eqb_spec b bn); cbn [andb]; congruence.
Qed.
#[export] Instance memdisk_spec : DiskSpec memdisk := {
  platter k d b := fit (k d b); dev_blocks _ := 100;
  write_stores k dev bn x Hr Hx _ := mem_stores k dev bn x Hr Hx;
  write_other k dev bn x d b Hr Hne := f_equal fit (mem_other k dev bn x d b Hr Hne)
}.

(** Two blocks written with delay. *)
Definition demo_delayed : outcome (bcache memdisk) :=
  c ← binit NBUF (fun _ _ => []) [Mount (Some 0%nat) 3 0];
  r ← getblk c 3 7; c ← bdwrite (store (fst r) 3 (replicate 256 1)) 3;
  r ← getblk c 3 8; bdwrite (store (fst r) 2 (replicate 256 2)) 2.
Definition demo_queues (q : nat) : list nat := if bool_decide (q = BQ_AGE) then [1; 0]%nat else if bool_decide (q = BQ_LRU) then [3; 2]%nat else [].
Definition from_ok {A} (d : A) (r : outcome A) : A := match r with Ok a => a | _ => d end.
Definition demo_cache : bcache memdisk := from_ok (booted (fun _ _ => []) []) demo_delayed.

Lemma demo_bufs : bufs demo_cache = [Buf B_INVAL 0 0 NODEV 0 0 0; Buf B_INVAL 0 0 NODEV 1024 0 0; Buf 0x202 0 0 3 2048 8 0; Buf 0x202 0 0 3 3072 7 0].
Proof. vm_compute. reflexivity. Qed.

Lemma bflush_flushes_witness : exists c', bflush demo_cache 3 = Ok (c', 0) /\ platter (disk c') 3 8 = replicate 256 2.
Proof.
  destruct (bflush_flushes demo_cache demo_queues 3) as (c' & Q' & e & E & _ & _ & _ & Hp & _).
  - apply wf_check_ok. vm_compute. reflexivity.
  - split; [done|]. unfold unique. rewrite demo_bufs. split.
    + intros i j bi bj Hi Hj. do 4 (destruct i as [|i]; [do 4 (destruct j as [|j]; [injection Hi as <-; injection Hj as <-;
        unfold NODEV; cbn [b_dev b_blkno b_flags]; intros H1 H2 H3 _ _; first [reflexivity | exfalso; congruence]|]); discriminate Hj|]); discriminate Hi.
    + intros i b Hi. do 4 (destruct i as [|i]; [injection Hi as <-; vm_compute; intros H; first [discriminate H | split; [reflexivity | split; [discriminate | reflexivity]]]|]). discriminate Hi.
  - exists c'. assert (e = 0) as ->.
    { assert (match bflush demo_cache 3 with Ok (_, e) => e = 0 | _ => False end) as H by (vm_compute; reflexivity). by rewrite E in H. }
    split; [done|]. apply Hp; [done|]. exists 2%nat. eexists. split; [exists BQ_LRU; split; [unfold BQ_LRU; lia | apply (bool_decide_eq_true_1 _); vm_compute; reflexivity]|].
    split; [vm_compute; reflexivity|]. split; [vm_compute; reflexivity|]. split; vm_compute; reflexivity.
Defined.
