(* ===== verification/Bufproc.v ===== *)
(** * Processes that share the buffer cache

    [Bufcache] has one operation at a time; here any number of processes run
    them, sleep in them and go on when they are woken. A process holds the
    buffers it got and has not released. After a sleep on a busy buffer
    [getblk] and [blkflush] search again from the start; after a sleep for a
    free buffer it is the loop of [getnewbuf] that goes on, without a new
    search. *)
From stdpp Require Import list.
From S2P Require Import Prelude Bufqueue Bufcache.

(** Where a sleeping process goes on. *)
Inductive resume := AtSearch (dev bn : Z) | AtFree (dev bn : Z) | AtFreeEmpty | AtFlush (dev bn : Z).
Inductive pstate := Running | Asleep (ch : chan) (r : resume) | Woken (r : resume).
Record proc := Proc { holds : list nat; st : pstate }.
Record world (K : Type) := World { cache : bcache K; procs : list proc }.
Arguments World {K} _ _.
Arguments cache {K} _.
Arguments procs {K} _.

(** What a process does: the operations of the cache on a buffer it holds, and
    those that need none. *)
Inductive event :=
| EGetblk (p : nat) (dev bn : Z) | EGeteblk (p : nat) | EResume (p : nat)
| EFill (p bp : nat) | EAhead (p bp : nat) | EStore (p bp : nat) (x : list Z) | EAge (p bp : nat)
| EBrelse (p bp : nat) | EBwrite (p bp : nat) | EBawrite (p bp : nat) | EBdwrite (p bp : nat)
| EBlkflush (p : nat) (dev bn : Z) | EBflush (p : nat) (dev : Z) | EBinval (p : nat) (dev : Z).

#[global] Instance chan_eq_dec : EqDecision chan.
Proof. solve_decision. Defined.
#[global] Instance resume_eq_dec : EqDecision resume.
Proof. solve_decision. Defined.
#[global] Instance pstate_eq_dec : EqDecision pstate.
Proof. solve_decision. Defined.

Section procs.
Context {K : Type} {DK : Disk K}.
Implicit Types (c : bcache K) (w : world K).

(** The wakeups of an operation reach the processes asleep. *)
Definition wake (ws : list chan) (q : proc) : proc :=
  match st q with
  | Asleep ch r => if bool_decide (ch ∈ ws) then Proc (holds q) (Woken r) else q
  | _ => q
  end.
Definition forget c : bcache K := Bcache (bufs c) (bdata c) (av c) (bfreelist_wanted c) (disk c) (mounts c) [] (ru_inblock c) (ru_oublock c) (u_error c).

(** The state after an operation of [p]: its own holdings and what it does
    next. *)
Definition after w (p : nat) (c : bcache K) (h : list nat) (s : pstate) : world K :=
  World (forget c) (<[p := Proc h s]> (wake (woken c) <$> procs w)).

Definition get w (p : nat) (h : list nat) (again free : resume) (o : outcome (bcache K * got)) : outcome (world K) :=
  r ← o;
  Ok (match snd r with
      | Held bp => after w p (fst r) (bp :: h) Running
      | SleepBuf bp => after w p (fst r) h (Asleep (BufChan bp) again)
      | SleepFree => after w p (fst r) h (Asleep FreeChan free)
      end).
Definition flush w (p : nat) (h : list nat) (dev bn : Z) (o : outcome (bcache K * flushing)) : outcome (world K) :=
  r ← o;
  Ok (match snd r with
      | FlushDone _ => after w p (fst r) h Running
      | FlushSleep bp => after w p (fst r) h (Asleep (BufChan bp) (AtFlush dev bn))
      end).

(** Going on after a sleep. *)
Definition go_on w (p : nat) (h : list nat) (r : resume) : outcome (world K) :=
  let c := cache w in
  match r with
  | AtSearch dev bn => get w p h (AtSearch dev bn) (AtFree dev bn) (getblk c dev bn)
  | AtFree dev bn => get w p h (AtSearch dev bn) (AtFree dev bn) (getblk_miss c dev bn)
  | AtFreeEmpty => get w p h AtFreeEmpty AtFreeEmpty (geteblk c)
  | AtFlush dev bn => flush w p h dev bn (blkflush (S (length (bufs c))) c dev bn)
  end.

(** An operation on a buffer that the process keeps, or releases. *)
Definition keep w (p : nat) (h : list nat) (o : outcome (bcache K)) : outcome (world K) := c ← o; Ok (after w p c h Running).

(** The buffer belongs to a device: what a caller may read or write. *)
Definition of_block c (bp : nat) : bool := match bufs c !! bp with Some b => negb (b_dev b =? NODEV) | None => false end.
Definition no_error c (bp : nat) : bool := match bufs c !! bp with Some b => negb (on (b_flags b) B_ERROR) | None => false end.

Definition on_held w (p bp : nat) (h : list nat) (ok : bool) (o : outcome (world K)) : outcome (world K) :=
  if bool_decide (bp ∈ h) && ok then o else Ok w.

(** A step. A process that sleeps does nothing, one that was woken goes on,
    and no process touches a buffer it does not hold, transfers one that
    belongs to no device or delays the write of one in error. *)
Definition act w (p : nat) (h : list nat) (e : event) : outcome (world K) :=
  let c := cache w in
  match e with
  | EGetblk _ dev bn => if dev =? NODEV then Ok w else go_on w p h (AtSearch dev bn)
  | EGeteblk _ => go_on w p h AtFreeEmpty
  | EBlkflush _ dev bn => go_on w p h (AtFlush dev bn)
  | EResume _ => Ok w
  | EFill _ bp => on_held w p bp h (of_block c bp) (keep w p h (fill c bp))
  | EStore _ bp x => on_held w p bp h (bool_decide (length x = 256%nat)) (keep w p h (Ok (store c bp x)))
  | EAge _ bp => on_held w p bp h true (keep w p h (setbits c bp B_AGE))
  | EAhead _ bp => on_held w p bp h (of_block c bp) (keep w p (without bp h) (read_ahead c bp))
  | EBrelse _ bp => on_held w p bp h true (keep w p (without bp h) (brelse c bp))
  | EBwrite _ bp => on_held w p bp h (of_block c bp) (keep w p (without bp h) (r ← bwrite c bp; Ok (fst r)))
  | EBawrite _ bp => on_held w p bp h (of_block c bp) (keep w p (without bp h) (bawrite c bp))
  | EBdwrite _ bp => on_held w p bp h (of_block c bp && no_error c bp) (keep w p (without bp h) (bdwrite c bp))
  | EBflush _ dev => keep w p h (r ← bflush c dev; Ok (fst r))
  | EBinval _ dev => keep w p h (Ok (binval c dev))
  end.

Definition event_proc (e : event) : nat :=
  match e with
  | EGetblk p _ _ | EGeteblk p | EResume p | EFill p _ | EAhead p _ | EStore p _ _ | EAge p _ | EBrelse p _ | EBwrite p _ | EBawrite p _ | EBdwrite p _
  | EBlkflush p _ _ | EBflush p _ | EBinval p _ => p
  end.
Definition is_resume (e : event) : bool := match e with EResume _ => true | _ => false end.

Definition step w (e : event) : outcome (world K) :=
  match procs w !! event_proc e with
  | Some (Proc h Running) => act w (event_proc e) h e
  | Some (Proc h (Woken r)) => if is_resume e then go_on w (event_proc e) h r else Ok w
  | _ => Ok w
  end.
Fixpoint steps w (l : list event) : outcome (world K) :=
  match l with
  | [] => Ok w
  | e :: l => w ← step w e; steps w l
  end.

(** ** The invariant *)

Definition all_held w : list nat := concat (holds <$> procs w).
Definition wanted c (ch : chan) : Prop :=
  match ch with
  | BufChan i => exists b, bufs c !! i = Some b /\ on (b_flags b) B_BUSY = true /\ on (b_flags b) B_WANTED = true
  | FreeChan => bfreelist_wanted c = true
  end.

(** A buffer is busy when one process holds it, and a process that sleeps is
    owed a wake_chan. *)
Record orderly w (Q : nat -> list nat) : Prop := {
  od_wf : wf (cache w) Q;
  od_woken : woken (cache w) = [];
  od_once : NoDup (all_held w);
  od_held : forall i, i ∈ all_held w <-> (i < length (bufs (cache w)))%nat /\ ~ queued Q i;
  od_asleep : forall p h ch r, procs w !! p = Some (Proc h (Asleep ch r)) -> wanted (cache w) ch
}.

(** What an operation owes to the sleepers. *)
Definition alarms c c' : Prop := exists ws, woken c' = ws ++ woken c /\ forall ch, wanted c ch -> wanted c' ch \/ ch ∈ ws.

Lemma alarms_refl c : alarms c c.
Proof. exists []. split; [done|]. by left. Qed.
Lemma alarms_trans c1 c2 c3 : alarms c1 c2 -> alarms c2 c3 -> alarms c1 c3.
Proof.
  intros (ws1 & E1 & H1) (ws2 & E2 & H2). exists (ws2 ++ ws1). rewrite E2, E1, app_assoc. split; [done|]. intros ch Hw.
  destruct (H1 ch Hw) as [Hw1|Hin]; [|right; set_solver]. destruct (H2 ch Hw1) as [|Hin]; [by left | right; set_solver].
Qed.

(** The effect of an operation on who holds what. *)
Inductive moves (Q Q' : nat -> list nat) (h : list nat) : list nat -> Prop :=
| moves_none : (forall i, queued Q' i <-> queued Q i) -> moves Q Q' h h
| moves_take bp : queued Q bp -> (forall i, queued Q' i <-> queued Q i /\ i <> bp) -> moves Q Q' h (bp :: h)
| moves_give bp : bp ∈ h -> (forall i, queued Q' i <-> queued Q i \/ i = bp) -> moves Q Q' h (without bp h).

Lemma concat_delete (ls : list (list nat)) p h : ls !! p = Some h -> concat ls ≡ₚ h ++ concat (delete p ls).
Proof.
  intros Hp. rewrite delete_take_drop, concat_app. rewrite <- (take_drop_middle ls p h Hp) at 1. rewrite concat_app. cbn [concat]. solve_Permutation.
Qed.
Lemma wake_holds ws (l : list proc) : holds <$> (wake ws <$> l) = holds <$> l.
Proof. induction l as [|[x []] l IH]; [done|..]; rewrite !fmap_cons, IH; f_equal; cbn; by case_match. Qed.

Lemma all_held_insert (l : list proc) p h s h' s' ws : l !! p = Some (Proc h s) ->
  concat (holds <$> l) ≡ₚ h ++ concat (delete p (holds <$> l)) /\ concat (holds <$> <[p := Proc h' s']> (wake ws <$> l)) ≡ₚ h' ++ concat (delete p (holds <$> l)).
Proof.
  intros Hp. assert ((holds <$> l) !! p = Some h) as Hh by (by rewrite list_lookup_fmap, Hp). split; [by apply concat_delete|].
  rewrite list_fmap_insert, wake_holds. cbn [holds]. etrans; [apply (concat_delete _ p h'); apply list_lookup_insert_eq; by eapply lookup_lt_Some|].
  rewrite !delete_take_drop, take_insert_ge, drop_insert_lt by lia. done.
Qed.

Lemma wanted_ext c c' ch : bufs c' = bufs c -> bfreelist_wanted c' = bfreelist_wanted c -> wanted c ch -> wanted c' ch.
Proof. intros E1 E2. destruct ch; cbn; by rewrite ?E1, ?E2. Qed.

(** An operation of a running process keeps the order. *)
Lemma orderly_after w p h s Q c Q' h' s' : orderly w Q -> procs w !! p = Some (Proc h s) -> (forall ch r, s <> Asleep ch r) ->
  alarms (cache w) c -> wf c Q' -> length (bufs c) = length (bufs (cache w)) -> moves Q Q' h h' ->
  (forall ch r, s' = Asleep ch r -> wanted c ch) -> orderly (after w p c h' s') Q'.
Proof.
  intros [O1 O2 O3 O4 O5] Hp Hs (ws & Ew & Ha) Hwf Hl Hm Hs'. rewrite O2, app_nil_r in Ew.
  destruct (all_held_insert (procs w) p h s h' s' ws Hp) as [P1 P2]. unfold all_held in *. set (rest := concat (delete p (holds <$> procs w))) in *.
  rewrite P1 in O3. setoid_rewrite P1 in O4.
  assert (NoDup (h' ++ rest) /\ forall i, i ∈ h' ++ rest <-> (i < length (bufs c))%nat /\ ~ queued Q' i) as [N1 N2].
  { rewrite Hl. destruct Hm as [Hq|bp Hbq Hq|bp Hbp Hq].
    - split; [done|]. intros i. rewrite Hq. apply O4.
    - split; [cbn; apply NoDup_cons; split; [rewrite O4; tauto | done]|]. intros i. cbn. rewrite elem_of_cons, O4, Hq.
      pose proof (queued_lt _ _ _ _ (wf_queues _ _ _ O1) Hbq). destruct (decide (i = bp)); naive_solver.
    - split.
      + apply NoDup_app in O3 as (A & B & C). apply NoDup_app. split; [by apply NoDup_filter|]. split; [|done]. intros x [_ Hx]%list_elem_of_filter. by apply B.
      + apply NoDup_app in O3 as (A & B & C). assert (bp ∉ rest) as Hr by (by apply B). intros i. rewrite Hq. specialize (O4 i). rewrite elem_of_app in *.
        unfold without. rewrite list_elem_of_filter. destruct (decide (i = bp)); naive_solver. }
  split; cbn [after cache forget woken bufs]; rewrite ?Ew.
  - destruct Hwf as [W1 W2 W3 W4 W5 W6]. by split.
  - done.
  - unfold all_held. cbn [procs after]. by rewrite Ew, P2.
  - intros i. unfold all_held. cbn [procs after]. rewrite Ew, P2. apply N2.
  - intros q hq ch r. cbn [procs after]. rewrite Ew. intros Hq. apply list_lookup_insert_Some in Hq as [(<- & [= -> ->] & _)|[Hne Hq]]; [by apply (Hs' ch r)|].
    rewrite list_lookup_fmap in Hq. destruct (procs w !! q) as [[hx sx]|] eqn:Eq; [|done]. cbn in Hq.
    destruct sx as [|ch' r'|r']; cbn [wake st] in Hq; [done| |done]. case_bool_decide as Hin; [done|]. injection Hq as -> -> ->.
    destruct (Ha ch (O5 _ _ _ _ Eq)) as [H|H]; [exact H | done].
Qed.

Context {DS : DiskShape K}.

(** The block a valid buffer has, and the blocks that a step may name: those
    named before, and the given one. *)
Definition names c (i : nat) (dev bn : Z) : Prop :=
  exists b, bufs c !! i = Some b /\ dev <> NODEV /\ b_dev b = dev /\ b_blkno b = bn /\ on (b_flags b) B_INVAL = false.
Definition fewer (n : option (nat * Z * Z)) c c' : Prop := forall i dev bn, names c' i dev bn -> names c i dev bn \/ n = Some (i, dev, bn).
Definition keeps_name (b b' : buf) : Prop :=
  b_dev b' <> NODEV -> on (b_flags b') B_INVAL = false -> b_dev b' = b_dev b /\ b_blkno b' = b_blkno b /\ on (b_flags b) B_INVAL = false.

Lemma fewer_refl c : fewer None c c.
Proof. intros i dev bn H. by left. Qed.
Lemma fewer_trans n c1 c2 c3 : fewer None c1 c2 -> fewer n c2 c3 -> fewer n c1 c3.
Proof. intros H1 H2 i dev bn H. destruct (H2 _ _ _ H) as [H'|H']; [|by right]. destruct (H1 _ _ _ H'); [by left | done]. Qed.
Lemma fewer_same c c' : bufs c' = bufs c -> fewer None c c'.
Proof. intros E i dev bn. unfold names. rewrite E. by left. Qed.
Lemma fewer_put c c' bp b b' : bufs c !! bp = Some b -> bufs c' = <[bp:=b']> (bufs c) -> keeps_name b b' -> fewer None c c'.
Proof.
  intros Hb E Hk i dev bn (b0 & Hi & Hd & H1 & H2 & H3). left. rewrite E in Hi. apply list_lookup_insert_Some in Hi as [(<- & <- & _)|[_ Hi]]; [|by exists b0].
  exists b. destruct (Hk ltac:(congruence) H3) as (E1 & E2 & E3). repeat split; congruence.
Qed.
Lemma fewer_named c c' bp b' dev bn : bufs c' = <[bp:=b']> (bufs c) -> b_dev b' = dev -> b_blkno b' = bn -> fewer (Some (bp, dev, bn)) c c'.
Proof.
  intros E H1 H2 i d n (b0 & Hi & Hd & E1 & E2 & E3). rewrite E in Hi. apply list_lookup_insert_Some in Hi as [(<- & <- & _)|[_ Hi]]; [right; congruence|].
  left. by exists b0.
Qed.
Lemma keeps_write b r b' : write_result b r b' -> keeps_name b b'.
Proof. intros [R1 R2 R3 R4 R5 R6 R7]. unfold keeps_name. rewrite R6, R4. by destruct (x_error r). Qed.
Lemma keeps_released b : keeps_name b (released b).
Proof.
  unfold keeps_name, released, unbusy, disowned. repeat case_match; cbn [with_flags with_bdev b_dev b_flags b_blkno]; flags; done.
Qed.

Lemma keeps_flags b f : on f B_INVAL = on (b_flags b) B_INVAL -> keeps_name b (with_flags b f).
Proof. intros E _ Hv. cbn [with_flags b_flags] in Hv. split; [done|]. split; [done | congruence]. Qed.

(** What an operation does to a cache in order. *)
Definition did (n : option (nat * Z * Z)) c Q (h : list nat) c' (h' : list nat) : Prop :=
  exists Q', alarms c c' /\ wf c' Q' /\ length (bufs c') = length (bufs c) /\ moves Q Q' h h' /\ fewer n c c'.

(** The lists and headers of the buffers of an operation on one header that
    a process holds, or on one that is free. *)
Lemma alarms_free c Q c' bp b' : wf c Q -> queued Q bp -> bufs c' = <[bp:=b']> (bufs c) -> (exists ws, woken c' = ws ++ woken c) -> alarms c c'.
Proof.
  intros Hw Hq Hb (ws & Ews). exists ws. split; [done|]. intros [i|] H; left.
  - destruct H as (b & Hi & Hbusy & Hwant). exists b. split; [|done]. rewrite Hb, list_lookup_insert_ne; [done|]. intros ->.
    pose proof (proj1 (bo_busy _ _ _ (wf_buf _ _ _ Hw i b ltac:(done) Hi)) Hq). congruence.
  - exfalso. assert (exists b, bufs c !! bp = Some b) as [b Hbp] by (apply lookup_lt_is_Some_2; by eapply queued_lt, Hq; apply Hw).
    destruct (wf_wanted _ _ _ Hw H) as [HL HA]. destruct Hq as (q & Hq3 & Hq). pose proof (wf_locked _ _ _ Hw) as HK. unfold BQ_LOCKED, BQ_LRU, BQ_AGE in *.
    destruct q as [|[|[|q]]]; [rewrite HK in Hq | rewrite HL in Hq | rewrite HA in Hq | lia]; set_solver.
Qed.
Lemma alarms_woke c c' bp b b' : bufs c !! bp = Some b -> bufs c' = <[bp:=b']> (bufs c) -> woke c c' bp b -> alarms c c'.
Proof.
  intros Hb E (ws & Ews & H1 & H2). exists ws. split; [done|]. intros [i|] H; [|right; by apply H2].
  destruct H as (b0 & Hi & Hbusy & Hwant). destruct (decide (i = bp)) as [->|Hne]; [right; apply H1; congruence|]. left. exists b0.
  by rewrite E, list_lookup_insert_ne.
Qed.

Lemma flushed_fewer c Q bp b k r c' Q' b' : bufs c !! bp = Some b -> flushed c Q bp b k r c' Q' b' -> fewer None c c'.
Proof. intros Hb [F1 F2 F3 F4 F5 F6 F7]. by eapply fewer_put, keeps_write. Qed.
Lemma flushed_did c Q bp b k r c' Q' b' h : wf c Q -> queued Q bp -> bufs c !! bp = Some b -> flushed c Q bp b k r c' Q' b' -> did None c Q h c' h.
Proof.
  intros Hw Hq Hb Hf. pose proof (flushed_fewer _ _ _ _ _ _ _ _ _ Hb Hf). destruct Hf as [F1 F2 F3 F4 F5 F6 F7].
  exists Q'. split; [by eapply alarms_free|]. split; [done|]. split; [by rewrite F3, length_insert |]. split; [by constructor | done].
Qed.
Lemma did_trans n c Q c1 Q1 c2 h h' : alarms c c1 -> fewer None c c1 -> length (bufs c1) = length (bufs c) -> (forall i, queued Q1 i <-> queued Q i) -> did n c1 Q1 h c2 h' -> did n c Q h c2 h'.
Proof.
  intros Ha Hfw Hl Hq (Q2 & A & W & L & M & F). exists Q2. split; [by eapply alarms_trans|]. split; [done|]. split; [congruence|]. split; [|by eapply fewer_trans].
  destruct M as [Hm|bp Hb Hm|bp Hb Hm]; [apply moves_none | apply moves_take; [by apply Hq|] | apply moves_give; [done|]]; intros i; by rewrite Hm, ?Hq.
Qed.
Lemma cleans_quiet c Q c' Q' : cleans c Q c' Q' -> alarms c c' /\ fewer None c c' /\ length (bufs c') = length (bufs c) /\ forall i, queued Q' i <-> queued Q i.
Proof.
  induction 1 as [c Q|c Q bp b x c1 Q1 b1 c2 Q2 Hw Hq Hb Hx Hd Hf _ (IH1 & IHf & IH2 & IH3)]; [split; [apply alarms_refl | split; [apply fewer_refl | done]]|].
  pose proof Hf as [F1 F2 F3 F4 F5 F6 F7]. split; [eapply alarms_trans; [by eapply alarms_free | done]|]. split; [eapply fewer_trans; [by eapply flushed_fewer | done]|]. split; [by rewrite IH2, F3, length_insert|].
  intros i. by rewrite IH3.
Qed.
Lemma flushes_quiet dev c Q e c' Q' e' : flushes dev c Q e c' Q' e' -> alarms c c' /\ fewer None c c' /\ length (bufs c') = length (bufs c) /\ forall i, queued Q' i <-> queued Q i.
Proof.
  induction 1 as [c Q e|c Q e bp b x c1 Q1 b1 c2 Q2 e2 Hw Hq Hb Hx Hd Hf _ (IH1 & IHf & IH2 & IH3)]; [split; [apply alarms_refl | split; [apply fewer_refl | done]]|].
  pose proof Hf as [F1 F2 F3 F4 F5 F6 F7]. split; [eapply alarms_trans; [by eapply alarms_free | done]|]. split; [eapply fewer_trans; [by eapply flushed_fewer | done]|]. split; [by rewrite IH2, F3, length_insert|].
  intros i. by rewrite IH3.
Qed.

(** A buffer got. *)
Lemma took_did n c Q bp b' c' Q' h : fewer n c c' -> wf c Q -> queued Q bp -> held c' Q' bp b' -> on (b_flags b') B_BUSY = true -> on (b_flags b') B_ASYNC = false ->
  (on (b_flags b') B_DELWRI = true -> on (b_flags b') B_DONE = true /\ on (b_flags b') B_ERROR = false /\ b_dev b' <> NODEV) ->
  (forall i, queued Q' i <-> queued Q i /\ i <> bp) -> bufs c' = <[bp:=b']> (bufs c) -> woken c' = woken c -> did n c Q h c' (bp :: h).
Proof.
  intros Hfw Hw Hq Hh H1 H2 H3 HQ Hb Hwk. exists Q'. split; [eapply alarms_free; try done; by exists []|]. split; [by eapply busy_wf|]. split; [by rewrite Hb, length_insert|].
  split; [by constructor | done].
Qed.

(** The sleeps of [getblk]: the channel is marked. *)
Lemma mark_wanted c Q bp b : wf c Q -> bufs c !! bp = Some b -> on (b_flags b) B_BUSY = true ->
  let c' := put c bp (with_flags b (Z.lor (b_flags b) B_WANTED)) in
  alarms c c' /\ wf c' Q /\ length (bufs c') = length (bufs c) /\ wanted c' (BufChan bp).
Proof.
  intros Hw Hb Hbusy. cbv zeta. set (b1 := with_flags b _). pose proof (held_busy _ _ _ _ Hw Hb Hbusy) as Hh.
  pose proof (wf_buf _ _ _ Hw bp b ltac:(done) Hb) as [A1 A2 A3 A4 A5 A6]. assert (held (put c bp b1) Q bp b1) as Hh1 by (apply (held_put c Q bp b); [done | done | cbn; by flags]).
  assert (on (b_flags b1) B_BUSY = true) as Hb1 by (cbn; by flags).
  assert (wanted (put c bp b1) (BufChan bp)) as Hwt by (exists b1; split; [apply Hh1|]; split; [done | cbn; by flags]).
  split; [|split; [apply (busy_wf _ _ bp b1 Hh1 Hb1); cbn; flags; done | split; [apply put_length | done]]].
  exists []. split; [done|]. intros [i|] H; left; [|exact H]. destruct (decide (i = bp)) as [->|Hne]; [done|].
  destruct H as (b0 & H). exists b0. cbn. by rewrite list_lookup_insert_ne.
Qed.
Lemma free_wanted c Q : wf c Q -> (forall i, ~ queued Q i) -> alarms c (set_wanted c true) /\ wf (set_wanted c true) Q /\ wanted (set_wanted c true) FreeChan.
Proof.
  intros Hw Hn. split; [exists []; split; [done|]; intros [i|] H; by left|]. split; [|done]. destruct Hw as [W1 W2 W3 W4 W5 W6]. split; try done.
  intros _. unfold queued in Hn. split; apply elem_of_nil_inv; intros i Hi; apply (Hn i); [exists BQ_LRU | exists BQ_AGE]; split; [unfold BQ_LRU; lia | done | unfold BQ_AGE; lia | done].
Qed.

(** How a request for a buffer ends: [nm] is the block a new buffer gets. *)
Definition got_ok (nm : option (Z * Z)) c Q (h : list nat) (o : outcome (bcache K * got)) : Prop :=
  exists c' g, o = Ok (c', g) /\ match g with
  | Held bp => did ((fun m => (bp, fst m, snd m)) <$> nm) c Q h c' (bp :: h)
  | SleepBuf bp => did None c Q h c' h /\ wanted c' (BufChan bp)
  | SleepFree => did None c Q h c' h /\ wanted c' FreeChan
  end.

Lemma sleep_free_ok nm c Q h : wf c Q -> (forall i, ~ queued Q i) -> got_ok nm c Q h (Ok (set_wanted c true, SleepFree)).
Proof.
  intros Hw Hn. destruct (free_wanted c Q Hw Hn) as (A & W & F). eexists _, _. split; [done|]. split; [|done]. exists Q. split; [done|]. split; [done|]. split; [done|].
  split; [by constructor | by apply fewer_same].
Qed.

Lemma getblk_miss_got c Q h dev bn : wf c Q -> got_ok (Some (dev, bn)) c Q h (getblk_miss c dev bn).
Proof.
  intros Hw. destruct (getblk_miss_ok c Q dev bn Hw) as [(c1 & Q1 & bp & b & c' & Q' & E & Hcl & Hw1 & Hn & Hb & Hd & Hh & HQ & Hbf & _ & _ & Hwk & _)|[E Hn]]; rewrite E; [|by apply sleep_free_ok].
  eexists _, _. split; [done|]. destruct (cleans_quiet _ _ _ _ Hcl) as (A & F & L & HQ1). apply (did_trans _ c Q c1 Q1); try done.
  apply (took_did _ c1 Q1 bp (fresh b dev bn) c' Q'); try done; [by eapply fewer_named | by apply next_free_queued].
Qed.
Lemma geteblk_got c Q h : wf c Q -> got_ok None c Q h (geteblk c).
Proof.
  intros Hw. destruct (geteblk_ok c Q Hw) as [(c1 & Q1 & bp & b & c' & Q' & E & Hcl & Hw1 & Hn & Hb & Hd & Hh & HQ & Hbf & _ & _ & Hwk & _)|[E Hn]]; rewrite E; [|by apply sleep_free_ok].
  eexists _, _. split; [done|]. destruct (cleans_quiet _ _ _ _ Hcl) as (A & F & L & HQ1). apply (did_trans _ c Q c1 Q1); try done.
  apply (took_did _ c1 Q1 bp (empty b) c' Q'); try done; [|by apply next_free_queued]. apply (fewer_put c1 c' bp b (empty b) Hb Hbf). intros H. by destruct H.
Qed.
Lemma getblk_got c Q h dev bn : wf c Q -> got_ok (if lookup_buf c dev bn then None else Some (dev, bn)) c Q h (getblk c dev bn).
Proof.
  intros Hw. destruct (lookup_buf c dev bn) as [bp|] eqn:El; [|unfold getblk; rewrite El; by apply getblk_miss_got].
  destruct (getblk_hit_ok c Q dev bn bp Hw El) as (b & Hb & [(Hbusy & E)|(Hbusy & Hq & c' & E & En)]); rewrite E; eexists _, _; (split; [done|]).
  - destruct (mark_wanted c Q bp b Hw Hb Hbusy) as (A & W & L & Hwt). split; [|done]. exists Q. split; [done|]. split; [done|]. split; [done|]. split; [by constructor|].
    eapply fewer_put; [exact Hb | reflexivity | apply keeps_flags; by flags].
  - destruct (notavail_ok c Q bp b Hw Hq Hb) as (c1 & Q1 & E1 & Hh & HQ & B1 & D1 & K1 & W1 & _). assert (c1 = c') as -> by congruence.
    pose proof (wf_buf _ _ _ Hw bp b ltac:(done) Hb) as [A1 A2 A3 A4 A5 A6].
    apply (fun F => took_did None c Q bp _ c' Q1 h F Hw Hq Hh); try done; cbn [with_flags b_flags b_dev]; flags; try done.
    eapply fewer_put; [exact Hb | exact B1 | apply keeps_flags; by flags].
Qed.

(** ** Operations on a held buffer *)

(** A buffer in the hands of a process: busy and in order. *)
Record mine c Q (bp : nat) (b : buf) : Prop := {
  mi_wf : wf c Q;
  mi_buf : bufs c !! bp = Some b;
  mi_busy : on (b_flags b) B_BUSY = true
}.
Lemma mine_held c Q bp b : mine c Q bp b -> held c Q bp b.
Proof. intros [H1 H2 H3]. by apply held_busy. Qed.
Lemma mine_ok c Q bp b : mine c Q bp b -> buf_ok Q bp b.
Proof. intros [H1 H2 H3]. by apply (wf_buf _ _ _ H1). Qed.

Lemma kept_did c Q c' h : wf c' Q -> alarms c c' -> length (bufs c') = length (bufs c) -> fewer None c c' -> did None c Q h c' h.
Proof. intros Hw Ha Hl Hf. exists Q. split; [done|]. split; [done|]. split; [done|]. split; [by constructor | done]. Qed.
Lemma gave_did c Q c' Q' bp h : bp ∈ h -> wf c' Q' -> alarms c c' -> length (bufs c') = length (bufs c) -> (forall i, queued Q' i <-> queued Q i \/ i = bp) -> fewer None c c' -> did None c Q h c' (without bp h).
Proof. intros Hin Hw Ha Hl HQ Hf. exists Q'. split; [done|]. split; [done|]. split; [done|]. split; [by constructor | done]. Qed.

Lemma brelse_did c Q bp b h : mine c Q bp b -> bp ∈ h -> exists c', brelse c bp = Ok c' /\ did None c Q h c' (without bp h).
Proof.
  intros Hm Hin. pose proof (mine_ok _ _ _ _ Hm) as [A1 A2 A3 A4 A5 A6].
  destruct (brelse_held c Q bp b (mine_held _ _ _ _ Hm) A4) as (c' & E & Hw & Hb & _ & _ & _ & _ & _ & Hwk).
  exists c'. split; [done|]. apply (gave_did c Q c' (back Q b bp)); [done | done | | by rewrite Hb, length_insert | apply queued_back |].
  - by apply (alarms_woke c c' bp b (released b) (mi_buf _ _ _ _ Hm)).
  - by apply (fewer_put c c' bp b _ (mi_buf _ _ _ _ Hm) Hb), keeps_released.
Qed.

Lemma wrote_did c Q bp b k r c' Q' b' h : bufs c !! bp = Some b -> bp ∈ h -> wrote c Q bp b k r c' Q' b' -> did None c Q h c' (without bp h).
Proof.
  intros Hb Hin [W1 W2 W3 W4 W5 W6 W7 W8]. apply (gave_did c Q c' Q'); [done | done | by apply (alarms_woke c c' bp b b') | by rewrite W3, length_insert | done | by eapply fewer_put, keeps_write].
Qed.

Lemma bwrite_did c Q bp b h : mine c Q bp b -> b_dev b <> NODEV -> bp ∈ h -> exists c' e, bwrite c bp = Ok (c', e) /\ did None c Q h c' (without bp h).
Proof.
  intros Hm Hdev Hin. destruct (data_lookup c Q bp b (mine_held _ _ _ _ Hm)) as (x & Hx & _).
  destruct (bwrite_held c Q bp b x (mine_held _ _ _ _ Hm) Hx Hdev) as (c' & Q' & b' & E & Hw). eexists _, _. split; [done|]. by eapply wrote_did, Hw; [apply Hm|].
Qed.

Lemma bawrite_did c Q bp b h : mine c Q bp b -> b_dev b <> NODEV -> bp ∈ h -> exists c', bawrite c bp = Ok c' /\ did None c Q h c' (without bp h).
Proof.
  intros Hm Hdev Hin. pose proof (mine_ok _ _ _ _ Hm) as [A1 A2 A3 A4 A5 A6]. pose proof (mine_held _ _ _ _ Hm) as Hh.
  destruct (data_lookup c Q bp b Hh) as (x & Hx & _). unfold bawrite, setbits. rewrite (set_hdr_ok _ _ _ _ (mi_buf _ _ _ _ Hm)). cbn [mbind outcome_bind].
  set (b1 := with_flags b _). assert (held (put c bp b1) Q bp b1) as Hh1 by (apply (held_put c Q bp b); [done | done | cbn; by flags]).
  destruct (bwrite_held (put c bp b1) Q bp b1 x Hh1 Hx Hdev) as (c' & Q' & b' & E & [W1 W2 W3 W4 W5 W6 W7 (ws & W8 & W9 & W10)]). rewrite E. cbn [mbind outcome_bind fst].
  exists c'. split; [done|]. apply (gave_did c Q c' Q'); [done | done | | rewrite W3, length_insert; apply put_length | done |].
  2: { apply (fewer_put c c' bp b b' (mi_buf _ _ _ _ Hm)); [rewrite W3; cbn; by rewrite list_insert_insert_eq|].
    apply keeps_write in W7. intros H1 H2. destruct (W7 H1 H2) as (E1 & E2 & E3). unfold b1 in E3. cbn [with_flags b_flags] in E3. split; [done|]. split; [done|]. revert E3. by flags. }
  apply (alarms_woke c c' bp b b'); [apply Hm | rewrite W3; cbn; by rewrite list_insert_insert_eq |]. exists ws. split; [done|]. split; [|done].
  intros H. apply W9. unfold b1. cbn [with_flags b_flags]. flags. done.
Qed.

Lemma bdwrite_did c Q bp b h : mine c Q bp b -> b_dev b <> NODEV -> on (b_flags b) B_ERROR = false -> bp ∈ h -> exists c', bdwrite c bp = Ok c' /\ did None c Q h c' (without bp h).
Proof.
  intros Hm Hdev He Hin. destruct (on (d_flags (b_dev b)) B_TAPE) eqn:Et.
  - unfold bdwrite. rewrite (rd_ok _ _ _ (mi_buf _ _ _ _ Hm)). cbn [mbind outcome_bind]. rewrite Et. set (c0 := if negb _ then _ else _).
    assert (forall c0, bufs c0 = bufs c -> bdata c0 = bdata c -> av c0 = av c -> bfreelist_wanted c0 = bfreelist_wanted c -> woken c0 = woken c -> exists c', bawrite c0 bp = Ok c' /\ did None c Q h c' (without bp h)) as H;
      [|apply H; unfold c0; by destruct (on (b_flags b) B_DELWRI)].
    clear c0. intros c0 E1 E2 E3 E4 E5. destruct (bawrite_did c0 Q bp b h) as (c' & E & (Q' & (ws & Ews & Ha) & W & L & M & F)); [|done|done|].
    { destruct Hm as [[] Hb ?]. split; [|by rewrite E1|done]. split; rewrite ?E1, ?E2, ?E3, ?E4; done. }
    exists c'. split; [done|]. exists Q'. split; [|split; [done|]; split; [congruence|]; split; [done|]; eapply fewer_trans; [by apply fewer_same | done]]. exists ws. split; [congruence|].
    intros ch Hch. apply Ha. by apply (wanted_ext c).
  - destruct (bdwrite_held c Q bp b (mine_held _ _ _ _ Hm) Hdev He Et) as (c' & Q' & E & W & HQ & Hb & _ & _ & _ & Hwk). exists c'. split; [done|].
    apply (gave_did c Q c' Q'); [done | done | eapply alarms_woke; [apply Hm | done | done] | by rewrite Hb, length_insert | done |].
    apply (fewer_put c c' bp b _ (mi_buf _ _ _ _ Hm) Hb). intros H1 H2. destruct (keeps_released _ H1 H2) as (E1 & E2 & E3). cbn [with_flags b_flags] in E3. split; [done|]. split; [done|]. revert E3. by flags.
Qed.

Lemma mine_put c Q bp b b' : mine c Q bp b -> b_addr b' = b_addr b -> on (b_flags b') B_LOCKED = false -> on (b_flags b') B_BUSY = true -> on (b_flags b') B_ASYNC = false ->
  (on (b_flags b') B_DELWRI = true -> on (b_flags b') B_DONE = true /\ on (b_flags b') B_ERROR = false /\ b_dev b' <> NODEV) -> wf (put c bp b') Q.
Proof. intros Hm H1 H2 H3 H4 H5. apply (busy_wf _ _ bp b'); try done. by apply (held_put c Q bp b); [apply mine_held|..]. Qed.

Lemma age_did c Q bp b h : mine c Q bp b -> exists c', setbits c bp B_AGE = Ok c' /\ did None c Q h c' h.
Proof.
  intros Hm. pose proof (mine_ok _ _ _ _ Hm) as [A1 A2 A3 A4 A5 A6]. pose proof Hm as [Hw Hb Hbusy]. unfold setbits. rewrite (set_hdr_ok _ _ _ _ Hb). eexists. split; [done|].
  apply kept_did; [|exists []; split; [done|]|apply put_length | eapply fewer_put; [exact Hb | reflexivity | apply keeps_flags; by flags]].
  - apply (mine_put c Q bp b); cbn [with_flags b_flags b_dev b_addr]; flags; done.
  - intros [i|] H; left; [|exact H]. destruct H as (b0 & Hi & H). destruct (decide (i = bp)) as [->|Hne]; [|exists b0; cbn; by rewrite list_lookup_insert_ne].
    assert (b0 = b) as -> by congruence. eexists. split; [apply (put_lookup _ _ _ _ Hb)|]. cbn [with_flags b_flags]. flags. done.
Qed.

Lemma store_did c Q bp b x h : mine c Q bp b -> length x = 256%nat -> did None c Q h (store c bp x) h.
Proof.
  intros [[W1 W2 W3 W4 W5 W6] Hb Hbusy] Hx. apply kept_did; [|exists []; split; [done|]; by left|done | by apply fewer_same].
  split; cbn; rewrite ?length_insert; try done. by apply Forall_insert.
Qed.

(** The read that nobody waits for. *)
Lemma fill_did c Q bp b h : mine c Q bp b -> b_dev b <> NODEV -> exists c', fill c bp = Ok c' /\ did None c Q h c' h.
Proof.
  intros Hm Hdev. pose proof (mine_ok _ _ _ _ Hm) as [A1 A2 A3 A4 A5 A6]. pose proof (mine_held _ _ _ _ Hm) as Hh. destruct (data_lookup c Q bp b Hh) as (x & Hx & _).
  destruct (fill_held c Q bp b x Hh Hx Hdev A3) as [(_ & E)|(Hd & c' & E & Hh' & [M1 M2 M3] & Wk & F & _)].
  - exists c. split; [done|]. apply kept_did; [apply Hm | apply alarms_refl | done | apply fewer_refl].
  - exists c'. split; [done|]. rewrite on_or_r in Hd. apply orb_false_iff in Hd as [Hd1 Hd2]. apply kept_did.
    + apply (busy_wf _ _ bp _ Hh'); unfold read_done; cbn [unwanted with_flags b_flags]; flags; rewrite ?transferred_flags by done; cbn [read_flags with_bcount with_flags b_flags]; flags;
        [apply Hm | done | congruence].
    + exists [BufChan bp]. split; [done|]. intros [i|] H; [|left; cbn; congruence]. destruct (decide (i = bp)) as [->|Hne]; [right; set_solver | left].
      destruct H as (b0 & H). exists b0. by rewrite M1, list_lookup_insert_ne.
    + by rewrite M1, length_insert.
    + apply (fewer_put c c' bp b _ (mi_buf _ _ _ _ Hm) M1). intros _ Hv. unfold read_done in *. cbn [unwanted with_flags b_flags b_dev b_blkno] in *. revert Hv. flags. rewrite transferred_flags by done.
      destruct (transferred_fields (read_flags b false) (snd (transfer (disk c) true (b_dev b) (b_blkno b) DEV_BSIZE x))) as (-> & -> & _). cbn [read_flags with_bcount with_flags b_flags]. by flags.
Qed.

Lemma read_async_held c Q bp b x : held c Q bp b -> bdata c !! bp = Some x -> b_dev b <> NODEV -> on (b_flags b) B_DONE = false -> on (b_flags b) B_DELWRI = false ->
  exists c' Q' b', start_read c bp true = Ok c' /\ wf c' Q' /\ (forall i, queued Q' i <-> queued Q i \/ i = bp) /\ bufs c' = <[bp:=b']> (bufs c) /\ woke c c' bp b /\ keeps_name b b'.
Proof.
  intros Hh Hx Hdev Hd Hdw. pose proof Hh as [_ _ Hb Ha Hl]. unfold start_read, setbits.
  rewrite (set_hdr_ok _ _ _ _ Hb). cbn [mbind outcome_bind]. rewrite (set_hdr_ok _ _ _ _ (put_lookup _ _ _ _ Hb)), put_put. cbn [mbind outcome_bind].
  change (with_bcount (with_flags b (Z.lor (b_flags b) (Z.lor B_READ B_ASYNC))) DEV_BSIZE) with (read_flags b true). set (b1 := read_flags b true). set (c1 := put c bp b1).
  assert (held c1 Q bp b1) as Hh1 by (apply (held_put c Q bp b); [done | done | cbn; by flags]).
  destruct (strategy_held c1 Q bp b1 x Hh1 Hx) as [E Hr]; [done | cbn; by flags|]. set (k := fst _) in *. set (r := snd _) in *. rewrite E.
  assert (on (b_flags b1) B_ASYNC = true) as -> by (cbn; by flags).
  destruct (after_io_moved c1 Q bp b1 x k r Hh1 Hr) as (Hh2 & [M1 M2 M3] & W1 & W2 & _).
  destruct (brelse_held _ Q bp (transferred b1 r) Hh2) as (c' & E' & Hw & Hb' & _ & _ & _ & _ & _ & (ws & Ews & H1 & H2)).
  { rewrite transferred_flags by done. cbn [b1 read_flags with_bcount with_flags b_flags]. flags. congruence. }
  rewrite E'. cbn [mbind outcome_bind]. eexists _, (back Q (transferred b1 r) bp), _. split; [done|]. split; [by destruct Hw; split|]. split; [apply queued_back|].
  split; [cbn; rewrite Hb', M1; unfold c1; cbn; by rewrite !list_insert_insert_eq|]. split.
  2: { intros K1 K2. destruct (keeps_released _ K1 K2) as (E1 & E2 & E3). destruct (transferred_fields b1 r) as (F1 & F2 & _). rewrite E1, E2, F1, F2.
    split; [done|]. split; [done|]. rewrite transferred_flags in E3 by done. cbn [b1 read_flags with_bcount with_flags b_flags] in E3. revert E3. by flags. }
  exists ws. cbn. rewrite Ews, W1. split; [done|]. split; [|intros H; apply H2; by rewrite W2].
  intros H. apply H1. rewrite transferred_flags by done. cbn [b1 read_flags with_bcount with_flags b_flags]. flags. done.
Qed.

Lemma ahead_did c Q bp b h : mine c Q bp b -> b_dev b <> NODEV -> bp ∈ h -> exists c', read_ahead c bp = Ok c' /\ did None c Q h c' (without bp h).
Proof.
  intros Hm Hdev Hin. pose proof (mine_held _ _ _ _ Hm) as Hh. destruct (data_lookup c Q bp b Hh) as (x & Hx & _). unfold read_ahead. rewrite (rd_ok _ _ _ (mi_buf _ _ _ _ Hm)). cbn [mbind outcome_bind].
  destruct (on (b_flags b) (Z.lor B_DONE B_DELWRI)) eqn:Ed; [by apply (brelse_did c Q bp b)|]. rewrite on_or_r in Ed. apply orb_false_iff in Ed as [Hd1 Hd2].
  destruct (read_async_held c Q bp b x Hh Hx Hdev Hd1 Hd2) as (c' & Q' & b' & E & Hw & HQ & Hb & Hwk & Hk). exists c'. split; [done|].
  apply (gave_did c Q c' Q'); [done | done | | by rewrite Hb, length_insert | done | by apply (fewer_put c c' bp b b' (mi_buf _ _ _ _ Hm))]. eapply alarms_woke; [apply Hm | done | done].
Qed.

(** ** Flushes *)

Lemma mark_wanted_did c Q bp b h : wf c Q -> bufs c !! bp = Some b -> on (b_flags b) B_BUSY = true ->
  did None c Q h (put c bp (with_flags b (Z.lor (b_flags b) B_WANTED))) h /\ wanted (put c bp (with_flags b (Z.lor (b_flags b) B_WANTED))) (BufChan bp).
Proof. intros Hw Hb Hbusy. destruct (mark_wanted c Q bp b Hw Hb Hbusy) as (A & W & L & H). split; [|done].
  apply kept_did; [done..|]. eapply fewer_put; [exact Hb | reflexivity | apply keeps_flags; by flags]. Qed.

Lemma blkflush_did fuel c Q h dev bn : wf c Q -> (delayed c < fuel)%nat ->
  exists c' g, blkflush fuel c dev bn = Ok (c', g) /\ did None c Q h c' h /\ match g with FlushSleep bp => wanted c' (BufChan bp) | FlushDone _ => True end.
Proof.
  revert c Q. induction fuel as [|fuel IH]; intros c Q Hw Hf; [lia|]. cbn [blkflush].
  destruct (list_find _ (bufs c)) as [[bp b]|] eqn:El; [|eexists _, _; split; [done|]; split; [apply kept_did; [done | apply alarms_refl | done | apply fewer_refl] | done]].
  apply list_find_Some in El as (Hb & Hit%Is_true_true & _). apply andb_true_iff in Hit as [_ Hit].
  destruct (on (b_flags b) B_BUSY) eqn:Ebusy.
  - unfold setbits. rewrite (set_hdr_ok _ _ _ _ Hb). eexists _, _. split; [done|]. by apply mark_wanted_did.
  - cbn [orb] in Hit. assert (queued Q bp) as Hq by (by apply (bo_busy _ _ _ (wf_buf _ _ _ Hw bp b ltac:(done) Hb))).
    destruct (lookup_lt_is_Some_2 (bdata c) bp) as [x Hx]; [rewrite (wf_data _ _ _ Hw); by eapply lookup_lt_Some|].
    destruct (flush_ok c Q bp b x Hw Hq Hb Hx Hit) as [(c1 & Q1 & b1 & E & Hfl) _]. rewrite E. cbn [mbind outcome_bind fst snd].
    pose proof (flushed_did _ _ _ _ _ _ _ _ _ h Hw Hq Hb Hfl) as Hd. destruct (negb _); [by eexists _, _|].
    pose proof (flushed_delayed _ _ _ _ _ _ _ _ _ Hb Hit Hfl). pose proof Hfl as [F1 F2 F3 _ _ _ F7]. destruct (IH c1 Q1 F1 ltac:(lia)) as (c' & g & E' & Hd' & Hg).
    exists c', g. split; [done|]. split; [|done]. apply (did_trans _ c Q c1 Q1); [by eapply alarms_free | by eapply flushed_fewer | by rewrite F3, length_insert | done | done].
Qed.

Lemma bflush_did c Q h dev : wf c Q -> exists c' e, bflush c dev = Ok (c', e) /\ did None c Q h c' h.
Proof.
  intros Hw. destruct (bflush_loop_ok (S (length (bufs c))) c Q dev 0 Hw (delayed_le c)) as (c' & Q' & e & E & Hfs & Hw' & _).
  destruct (flushes_quiet _ _ _ _ _ _ _ Hfs) as (A & F & L & HQ). exists c', e. split; [done|]. exists Q'. split; [done|]. split; [done|]. split; [done|]. split; [by constructor | done].
Qed.

Lemma binval_did c Q h dev : wf c Q -> did None c Q h (binval c dev) h.
Proof.
  intros Hw. apply kept_did.
  - destruct Hw as [W1 W2 W3 W4 W5 W6]. split; cbn; rewrite ?length_fmap; try done. intros i b' _ Hi. rewrite list_lookup_fmap in Hi. destruct (bufs c !! i) as [b|] eqn:Eb; [|done].
    injection Hi as <-. destruct (W5 i b ltac:(done) Eb) as [A1 A2 A3 A4 A5 A6]. destruct (b_dev b =? dev); split; cbn [with_flags b_flags b_dev b_addr]; flags; done.
  - exists []. split; [done|]. intros [i|] H; left; [|exact H]. destruct H as (b & Hi & H1 & H2). cbn. rewrite list_lookup_fmap, Hi. eexists. split; [done|].
    destruct (b_dev b =? dev); cbn [with_flags b_flags]; flags; done.
  - apply length_fmap.
  - intros i d n (b' & Hi & Hd & H1 & H2 & H3). left. cbn in Hi. rewrite list_lookup_fmap in Hi. destruct (bufs c !! i) as [b|] eqn:Eb; [|done]. injection Hi as <-.
    exists b. destruct (b_dev b =? dev); [|done]. cbn [with_flags b_flags b_dev b_blkno] in *. revert H3. flags. done.
Qed.

(** ** Steps *)

(** A step in order: it gives at most one buffer to a block, and [P] holds of
    that block. *)
Definition stepped w (P : Z -> Z -> Prop) (o : outcome (world K)) : Prop :=
  exists w' Q' n, o = Ok w' /\ orderly w' Q' /\ length (bufs (cache w')) = length (bufs (cache w)) /\ fewer n (cache w) (cache w') /\
    forall i dev bn, n = Some (i, dev, bn) -> P dev bn.

Lemma stepped_none w Q P : orderly w Q -> stepped w P (Ok w).
Proof. intros Ho. exists w, Q, None. split; [done|]. split; [done|]. split; [done|]. split; [apply fewer_refl | done]. Qed.

Lemma did_stepped w p h s Q h' s' c' n P : orderly w Q -> procs w !! p = Some (Proc h s) -> (forall ch r, s <> Asleep ch r) ->
  did n (cache w) Q h c' h' -> (forall ch r, s' = Asleep ch r -> wanted c' ch) -> (forall i dev bn, n = Some (i, dev, bn) -> P dev bn) -> stepped w P (Ok (after w p c' h' s')).
Proof.
  intros Ho Hp Hs (Q' & A & W & L & M & F) Hs' HP. eexists _, Q', n. split; [done|]. split; [by eapply orderly_after|]. done.
Qed.

Lemma get_stepped w p h s Q again free o nm P : orderly w Q -> procs w !! p = Some (Proc h s) -> (forall ch r, s <> Asleep ch r) -> got_ok nm (cache w) Q h o ->
  (forall dev bn, nm = Some (dev, bn) -> P dev bn) -> stepped w P (get w p h again free o).
Proof.
  intros Ho Hp Hs (c' & g & -> & Hg) HP. unfold get. cbn [mbind outcome_bind fst snd]. destruct g as [bp|bp|].
  - eapply did_stepped; try done. intros i dev bn H. destruct nm as [[d b]|]; [|done]. injection H as _ <- <-. by apply HP.
  - destruct Hg as (Hd & Hwt). eapply did_stepped; try done. by intros ch r [= <- <-].
  - destruct Hg as (Hd & Hwt). eapply did_stepped; try done. by intros ch r [= <- <-].
Qed.

Lemma go_on_stepped w p h s Q r (P : Z -> Z -> Prop) : orderly w Q -> procs w !! p = Some (Proc h s) -> (forall ch r, s <> Asleep ch r) ->
  (forall dev bn, lookup_buf (cache w) dev bn = None \/ r = AtFree dev bn -> P dev bn) -> stepped w P (go_on w p h r).
Proof.
  intros Ho Hp Hs HP. pose proof (od_wf _ _ Ho) as Hw. destruct r as [dev bn|dev bn| |dev bn]; cbn [go_on].
  - eapply get_stepped; [done..|by apply getblk_got|]. intros d b. destruct (lookup_buf (cache w) dev bn) eqn:E; [done|]. intros [= <- <-]. apply HP. by left.
  - eapply get_stepped; [done..|by apply getblk_miss_got|]. intros d b [= <- <-]. apply HP. by right.
  - eapply get_stepped; [done..|by apply geteblk_got|]. done.
  - destruct (blkflush_did (S (length (bufs (cache w)))) (cache w) Q h dev bn Hw (delayed_le _)) as (c' & g & E & Hd & Hg).
    unfold flush. rewrite E. cbn [mbind outcome_bind fst snd]. destruct g as [e|bp]; eapply did_stepped; try done. by intros ch r [= <- <-].
Qed.

Lemma held_mine w p h s Q bp : orderly w Q -> procs w !! p = Some (Proc h s) -> bp ∈ h -> exists b, mine (cache w) Q bp b.
Proof.
  intros [O1 O2 O3 O4 O5] Hp Hin. assert (bp ∈ all_held w) as Ha.
  { destruct (all_held_insert (procs w) p h s h s [] Hp) as [P _]. unfold all_held. rewrite P. set_solver. }
  apply O4 in Ha as [Hlt Hq]. destruct (lookup_lt_is_Some_2 _ _ Hlt) as [b Hb]. exists b. split; [done | done|].
  destruct (on (b_flags b) B_BUSY) eqn:E; [done|]. destruct Hq. by apply (bo_busy _ _ _ (wf_buf _ _ _ O1 bp b ltac:(done) Hb)).
Qed.

Lemma on_held_stepped w p h Q bp ok h' o P : orderly w Q -> procs w !! p = Some (Proc h Running) ->
  (forall b, mine (cache w) Q bp b -> ok = true -> bp ∈ h -> exists c', o = Ok c' /\ did None (cache w) Q h c' h') ->
  stepped w P (on_held w p bp h ok (keep w p h' o)).
Proof.
  intros Ho Hp H. unfold on_held. destruct (bool_decide (bp ∈ h)) eqn:Ein; [|by eapply stepped_none]. destruct ok; [|by eapply stepped_none].
  apply bool_decide_eq_true in Ein. cbn [andb]. destruct (held_mine w p h Running Q bp Ho Hp Ein) as [b Hm]. destruct (H b Hm eq_refl Ein) as (c' & -> & Hd).
  by eapply did_stepped.
Qed.

Lemma act_stepped w p h Q e (P : Z -> Z -> Prop) : orderly w Q -> procs w !! p = Some (Proc h Running) ->
  (forall dev bn, lookup_buf (cache w) dev bn = None -> P dev bn) -> stepped w P (act w p h e).
Proof.
  intros Ho Hp HP. assert (forall ch r, Running <> Asleep ch r) as Hs by done. pose proof (od_wf _ _ Ho) as Hw.
  assert (forall bp b, mine (cache w) Q bp b -> of_block (cache w) bp = true -> b_dev b <> NODEV) as Hdev.
  { intros bp b Hm. unfold of_block. rewrite (mi_buf _ _ _ _ Hm). intros H%negb_true_iff%Z.eqb_neq. done. }
  destruct e as [q dev bn|q|q|q bp|q bp|q bp x|q bp|q bp|q bp|q bp|q bp|q dev bn|q dev|q dev]; cbn [act];
    try (eapply on_held_stepped; [done..|]; intros b Hm Hok Hin).
  - destruct (dev =? NODEV); [by eapply stepped_none|]. eapply go_on_stepped; [done..|]. intros d n [H|H]; [by apply HP | done].
  - eapply go_on_stepped; [done..|]. intros d n [H|H]; [by apply HP | done].
  - by eapply stepped_none.
  - by apply (fill_did (cache w) Q bp b h Hm), (Hdev bp).
  - apply (ahead_did (cache w) Q bp b h Hm); [by apply (Hdev bp) | done].
  - apply bool_decide_eq_true in Hok. eexists. split; [done|]. by apply (store_did (cache w) Q bp b x h).
  - by apply (age_did (cache w) Q bp b h).
  - by apply (brelse_did (cache w) Q bp b h).
  - destruct (bwrite_did (cache w) Q bp b h Hm (Hdev _ _ Hm Hok) Hin) as (c' & e & E & Hd). rewrite E. by exists c'.
  - apply (bawrite_did (cache w) Q bp b h Hm); [by apply (Hdev bp) | done].
  - apply andb_true_iff in Hok as [Hok Herr]. apply (bdwrite_did (cache w) Q bp b h Hm); [by apply (Hdev bp) | | done].
    unfold no_error in Herr. rewrite (mi_buf _ _ _ _ Hm) in Herr. by apply negb_true_iff.
  - eapply go_on_stepped; [done..|]. intros d n [H|H]; [by apply HP | done].
  - destruct (bflush_did (cache w) Q h dev Hw) as (c' & e & E & Hd). rewrite E. by eapply did_stepped.
  - eapply did_stepped; [done..| by apply binval_did | done | done].
Qed.

(** The block for which a step goes on inside [getnewbuf]. *)
Definition goes_on w (e : event) (dev bn : Z) : Prop := is_resume e = true /\ exists h, procs w !! event_proc e = Some (Proc h (Woken (AtFree dev bn))).

Lemma step_stepped w Q e : orderly w Q -> stepped w (fun dev bn => lookup_buf (cache w) dev bn = None \/ goes_on w e dev bn) (step w e).
Proof.
  intros Ho. unfold step. destruct (procs w !! event_proc e) as [[h [|ch r|r]]|] eqn:Hp; try by eapply stepped_none.
  - eapply act_stepped; [done..|]. by left.
  - destruct (is_resume e) eqn:Er; [|by eapply stepped_none]. eapply go_on_stepped; [done..|]. intros dev bn [H|H]; [by left | right]. subst. split; [done|]. by exists h.
Qed.
Lemma steps_orderly l w Q : orderly w Q -> exists w' Q', steps w l = Ok w' /\ orderly w' Q' /\ length (bufs (cache w')) = length (bufs (cache w)).
Proof.
  revert w Q. induction l as [|e l IH]; intros w Q Ho; [by exists w, Q|]. destruct (step_stepped w Q e Ho) as (w1 & Q1 & n & E & Ho1 & L1 & _).
  destruct (IH w1 Q1 Ho1) as (w2 & Q2 & E2 & Ho2 & L2). exists w2, Q2. cbn [steps]. rewrite E. cbn [mbind outcome_bind]. split; [done|]. split; [done | congruence].
Qed.

(** Processes that start with nothing. *)
Definition start (n : nat) (k : K) (m : list mount) : world K := World (booted k m) (replicate n (Proc [] Running)).
Lemma start_orderly n k m : orderly (start n k m) boot_queues.
Proof.
  assert (all_held (start n k m) = []) as E by (unfold all_held, start; cbn [procs]; induction n; done).
  split; [apply booted_wf | done | rewrite E; constructor | | ].
  - intros i. rewrite E. split; [set_solver|]. intros [Hi Hn]. exfalso. apply Hn. apply queued_three. cbn in *. do 4 (destruct i as [|i]; [set_solver|]). lia.
  - intros p h ch r Hp. cbn in Hp. apply lookup_replicate in Hp as [Hp _]. done.
Qed.

(** C31. From boot, whatever any number of processes do with the buffer cache,
    in any order and with any transfer errors, no operation panics, loops or
    leaves the arrays. Every buffer is busy, held by exactly one process and on
    no free list, or held by none and on exactly one; a process sleeps on a
    buffer only while another holds it and B_WANTED is set, and sleeps for a free
    buffer only while all of them are held, so that the release of a buffer
    always wakes those who wait. *)
Theorem bufcache_orderly n k m l : exists w, steps (start n k m) l = Ok w /\ length (bufs (cache w)) = NBUF /\
  (exists Q, queues_ok NBUF (av (cache w)) Q /\ forall i b, bufs (cache w) !! i = Some b ->
     (on (b_flags b) B_BUSY = true /\ ~ queued Q i /\ exists p h s, procs w !! p = Some (Proc h s) /\ i ∈ h) \/
     (on (b_flags b) B_BUSY = false /\ queued Q i /\ i ∉ all_held w)) /\
  NoDup (all_held w) /\
  (forall p h i r, procs w !! p = Some (Proc h (Asleep (BufChan i) r)) ->
     i ∈ all_held w /\ exists b, bufs (cache w) !! i = Some b /\ on (b_flags b) B_WANTED = true) /\
  (forall p h r, procs w !! p = Some (Proc h (Asleep FreeChan r)) -> bfreelist_wanted (cache w) = true /\ forall i, (i < NBUF)%nat -> i ∈ all_held w).
Proof.
  destruct (steps_orderly l (start n k m) boot_queues (start_orderly n k m)) as (w & Q & E & [O1 O2 O3 O4 O5] & L). exists w. change (length (bufs (cache (start n k m)))) with NBUF in L.
  split; [done|]. split; [done|]. split; [|split; [done|split]].
  - exists Q. split; [rewrite <- L; apply O1|]. intros i b Hb. pose proof (bo_busy _ _ _ (wf_buf _ _ _ O1 i b ltac:(done) Hb)) as HB. pose proof (lookup_lt_Some _ _ _ Hb) as Hlt.
    destruct (on (b_flags b) B_BUSY) eqn:EB.
    + left. assert (~ queued Q i) as Hnq by (intros H; apply HB in H; done). split; [done|]. split; [done|]. assert (i ∈ all_held w) as Hin by (by apply O4).
      unfold all_held in Hin. apply list_elem_of_In, in_concat in Hin as (h & Hh & Hi). apply list_elem_of_In, list_elem_of_fmap in Hh as ([h' s] & -> & Hp).
      apply list_elem_of_lookup in Hp as [p Hp]. exists p, h', s. split; [done|]. by apply list_elem_of_In.
    + right. split; [done|]. assert (queued Q i) as Hq by (by apply HB). split; [done|]. rewrite O4. tauto.
  - intros p h i r Hp. destruct (O5 _ _ _ _ Hp) as (b & Hb & Hbusy & Hwt). split; [|by exists b]. apply O4. split; [by eapply lookup_lt_Some|].
    intros Hq. apply (bo_busy _ _ _ (wf_buf _ _ _ O1 i b ltac:(done) Hb)) in Hq. congruence.
  - intros p h r Hp. pose proof (O5 _ _ _ _ Hp) as Hf. split; [done|]. intros i Hi. apply O4. split; [by rewrite L|]. destruct (wf_wanted _ _ _ O1 Hf) as [HL HA].
    intros (q & Hq3 & Hq). pose proof (wf_locked _ _ _ O1) as HK. unfold BQ_LOCKED, BQ_LRU, BQ_AGE in *. destruct q as [|[|[|q]]]; [rewrite HK in Hq | rewrite HL in Hq | rewrite HA in Hq | lia]; set_solver.
Qed.

(** ** One buffer for a block *)

Lemma names_hit c i dev bn : names c i dev bn -> exists b, bufs c !! i = Some b /\ hit dev bn b = true.
Proof. intros (b & Hb & _ & H1 & H2 & H3). exists b. split; [done|]. by apply hit_true. Qed.

Definition single c : Prop := forall i j dev bn, names c i dev bn -> names c j dev bn -> i = j.

Lemma fewer_single n c c' : single c -> fewer n c c' -> (forall i dev bn, n = Some (i, dev, bn) -> lookup_buf c dev bn = None) -> single c'.
Proof.
  intros Hs Hf Hn i j dev bn Hi Hj. destruct (Hf _ _ _ Hi) as [Hi'|Hi'], (Hf _ _ _ Hj) as [Hj'|Hj'].
  - by eapply Hs.
  - destruct (names_hit _ _ _ _ Hi') as (b & Hb & Hh). pose proof (lookup_buf_None _ _ _ _ _ (Hn _ _ _ Hj') Hb). congruence.
  - destruct (names_hit _ _ _ _ Hj') as (b & Hb & Hh). pose proof (lookup_buf_None _ _ _ _ _ (Hn _ _ _ Hi') Hb). congruence.
  - congruence.
Qed.

(** No process goes on inside [getnewbuf] for a block that another brought in
    while it slept. *)
Fixpoint no_late_hit w (l : list event) : Prop :=
  match l with
  | [] => True
  | e :: l => (forall dev bn, goes_on w e dev bn -> incore (cache w) dev bn = false) /\ forall w', step w e = Ok w' -> no_late_hit w' l
  end.

Lemma incore_lookup c dev bn : incore c dev bn = false -> lookup_buf c dev bn = None.
Proof.
  unfold incore. intros H. destruct (lookup_buf c dev bn) as [i|] eqn:E; [|done]. destruct (lookup_buf_Some _ _ _ _ E) as (b & Hb & Hh & _).
  assert (existsb (hit dev bn) (bufs c) = true) as Ht by (apply existsb_exists; exists b; split; [apply list_elem_of_In; by eapply list_elem_of_lookup_2 | done]). congruence.
Qed.

(** C32. Without a late hit no block is ever in two valid buffers: what the
    search of [getblk] and [blkflush] and the in-core test of [breada] rely
    on. *)
Theorem bufcache_single n k m l w : no_late_hit (start n k m) l -> steps (start n k m) l = Ok w -> single (cache w).
Proof.
  assert (single (cache (start n k m))) as Hs.
  { intros i j dev bn (b & Hb & Hd & H1 & _) _. exfalso. apply Hd. rewrite <- H1. cbn in Hb. do 4 (destruct i as [|i]; [injection Hb as <-; reflexivity|]). done. }
  revert Hs. generalize (start_orderly n k m). generalize boot_queues. generalize (start n k m). induction l as [|e l IH]; intros w0 Q Ho Hs Hl E; [injection E as <-; done|].
  destruct Hl as [He Hl]. destruct (step_stepped w0 Q e Ho) as (w1 & Q1 & nm & E1 & Ho1 & _ & Hf & Hn). cbn [steps] in E. rewrite E1 in E. cbn [mbind outcome_bind] in E.
  apply (IH w1 Q1 Ho1); [|by apply Hl | done]. eapply fewer_single; [done..|]. intros i dev bn H. destruct (Hn _ _ _ H) as [|Hg]; [done | by apply incore_lookup, He].
Qed.
End procs.

(** ** Two processes that want the same block

    Process 0 has all four buffers; 1 and 2 both ask for block 50 of device 3
    and sleep for a free buffer. *)
Definition contend : list event :=
  [EGeteblk 0; EGeteblk 0; EGeteblk 0; EGeteblk 0; EGetblk 1 3 50; EGetblk 2 3 50; EBrelse 0 3; EResume 1; EBrelse 0 2; EResume 2].
(** Each changes a word of the block and delays the write. *)
Definition update : list event :=
  [EFill 1 3; EFill 2 2; EStore 1 3 (<[0%nat:=1]> (replicate 256 0)); EStore 2 2 (<[1%nat:=2]> (replicate 256 0)); EBdwrite 1 3; EBdwrite 2 2; EBflush 0 3].

Definition no_world : world memdisk := World (booted (fun _ _ => []) []) [].
Definition contended : world memdisk := from_ok no_world (steps (start 3 (fun _ _ => []) []) contend).
Definition updated : world memdisk := from_ok no_world (steps contended update).

Lemma bufcache_orderly_witness : (exists w, steps (start 3 ((fun _ _ => []) : memdisk) []) contend = Ok w /\ length (bufs (cache w)) = NBUF) /\
  (exists Q, forall i b, bufs (cache contended) !! i = Some b -> on (b_flags b) B_BUSY = true /\ ~ queued Q i \/ on (b_flags b) B_BUSY = false /\ queued Q i).
Proof.
  destruct (bufcache_orderly 3 ((fun _ _ => []) : memdisk) [] contend) as (w & E & L & (Q & _ & H) & _). split; [exists w; exact (conj E L)|].
  exists Q. intros i b Hb. assert (contended = w) as Ew by exact (f_equal (from_ok no_world) E). rewrite Ew in Hb. destruct (H i b Hb) as [(H1 & H2 & _)|(H1 & H2 & _)]; [left | right]; exact (conj H1 H2).
Defined.

Definition no_late_check {K} {DK : Disk K} (w : world K) (e : event) : bool :=
  match procs w !! event_proc e with
  | Some (Proc _ (Woken (AtFree dev bn))) => negb (is_resume e) || negb (incore (cache w) dev bn)
  | _ => true
  end.
Fixpoint no_late_run {K} {DK : Disk K} (w : world K) (l : list event) : bool :=
  match l with
  | [] => true
  | e :: l => no_late_check w e && match step w e with Ok w' => no_late_run w' l | _ => true end
  end.
Lemma no_late_run_ok {K} {DK : Disk K} (w : world K) l : no_late_run w l = true -> no_late_hit w l.
Proof.
  revert w. induction l as [|e l IH]; intros w; [done|]. cbn [no_late_run no_late_hit]. intros [H1 H2]%andb_true_iff. split.
  - intros dev bn (Hr & h & Hp). unfold no_late_check in H1. rewrite Hp, Hr in H1. by destruct (incore (cache w) dev bn).
  - intros w' E. rewrite E in H2. by apply IH.
Qed.

Lemma bufcache_single_witness : exists w, steps (start 3 ((fun _ _ => []) : memdisk) []) (take 8 contend) = Ok w /\ procs w !! 1%nat = Some (Proc [3]%nat Running) /\ single (cache w).
Proof.
  assert (match steps (start 3 ((fun _ _ => []) : memdisk) []) (take 8 contend) with Ok w => procs w !! 1%nat = Some (Proc [3]%nat Running) | _ => False end) as H by (vm_compute; reflexivity).
  destruct (steps (start 3 ((fun _ _ => []) : memdisk) []) (take 8 contend)) as [w|s|] eqn:E; [|destruct H..].
  exists w. split; [reflexivity|]. split; [exact H|]. apply (bufcache_single 3 (fun _ _ => []) [] (take 8 contend)); [apply no_late_run_ok; vm_compute; reflexivity | exact E].
Defined.

Definition names_check {K} (c : bcache K) (i : nat) (dev bn : Z) : bool :=
  match bufs c !! i with Some b => negb (dev =? NODEV) && hit dev bn b | None => false end.
Lemma names_check_ok {K} (c : bcache K) i dev bn : names_check c i dev bn = true -> names c i dev bn.
Proof.
  unfold names_check. destruct (bufs c !! i) as [b|] eqn:E; [|done]. intros [H1 H2]%andb_true_iff. apply negb_true_iff, Z.eqb_neq in H1. apply hit_true in H2 as (? & ? & ?).
  by exists b.
Qed.

(** [getblk] can give one block to two processes at once: the second goes
    on in [getnewbuf] after its sleep, which does not search again for the block
    that the first brought in meanwhile. Each then changes its own copy, and the
    change of the first is gone from the device after a flush. *)
Theorem getblk_duplicates :
  steps (start 3 ((fun _ _ => []) : memdisk) []) contend = Ok contended /\ steps contended update = Ok updated /\
  procs contended !! 1%nat = Some (Proc [3]%nat Running) /\ procs contended !! 2%nat = Some (Proc [2]%nat Running) /\
  names (cache contended) 3 3 50 /\ names (cache contended) 2 3 50 /\
  platter (disk (cache updated)) 3 50 = <[1%nat:=2]> (replicate 256 0).
Proof.
  assert (match steps (start 3 ((fun _ _ => []) : memdisk) []) contend with Ok _ => True | _ => False end) as H1 by (vm_compute; exact I).
  assert (match steps contended update with Ok _ => True | _ => False end) as H2 by (vm_compute; exact I).
  split; [unfold contended; destruct (steps _ contend); [reflexivity | destruct H1..]|]. split; [unfold updated; destruct (steps contended update); [reflexivity | destruct H2..]|].
  split; [vm_compute; reflexivity|]. split; [vm_compute; reflexivity|].
  split; [apply names_check_ok; vm_compute; reflexivity|]. split; [apply names_check_ok; vm_compute; reflexivity | vm_compute; reflexivity].
Qed.
