(* ===== verification/Fsalloc.v ===== *)
(** * Free blocks of a file system ([sys/kern/ufs_alloc.c], [badblock] of
    [ufs_subr.c])

    A block is 256 words of 32 bits, signed as [daddr_t]. The device seen
    through the buffer cache is the interface [BufDev]: a block obtained with
    [getblk] or [bread] is held until [brelse], [bwrite] or [bdwrite] of it.
    The free list of a file system is up to NICFREE numbers in the superblock;
    the first of them, unless it is zero, is a block that holds the next ones.
    An operation works alone on the file system: a sleep on a lock it would
    itself have to release is the panic "deadlock". *)
From stdpp Require Import gmap sets.
From S2P Require Import Prelude.

Definition NICFREE : Z := 200.
Definition NICINOD : Z := 32.
Definition SUPERB : Z := 0.
Definition MNT_ASYNC : Z := 0x40.
Definition B_CLRBUF : Z := 0x01.
Definition B_SYNC : Z := 0x02.
Definition FS_ENOSPC : Z := 28.

Abbreviation block := (list Z).
Definition zeros : block := replicate 256 0.

(** ** The buffer cache, as the file system sees it *)

(** What [bread] found: the contents, which a short transfer may have left
    unfinished ([b_resid]), or B_ERROR with [geterror] of the buffer. *)
Inductive bufread := Contents (x : block) (short : bool) | Failed (error : Z).

(** The contents when neither B_ERROR nor [b_resid] is set, and when B_ERROR
    is not. *)
Definition whole (r : bufread) : option block := match r with Contents x false => Some x | _ => None end.
Definition no_error (r : bufread) : option block := match r with Contents x _ => Some x | Failed _ => None end.

(** [geteblk] gives a buffer of no block, which [brelse_empty] gives back. *)
Class BufDev (D : Type) := {
  getblk : D -> Z -> outcome (D * block);
  bread : D -> Z -> outcome (D * bufread);
  brelse : D -> Z -> outcome D;
  bwrite : D -> Z -> block -> outcome (D * Z);
  bdwrite : D -> Z -> block -> outcome D;
  geteblk : D -> outcome D;
  brelse_empty : D -> outcome D
}.

(** A device without errors: [content] is the block as any reader finds it,
    [held] are the blocks held and [anon] counts the buffers of no block. A
    buffer can be had while fewer than [nbuf] are out. *)
Class BufSpec (D : Type) `{BufDev D} := {
  nbuf : nat;
  content : D -> Z -> block;
  held : D -> gset Z;
  anon : D -> nat;
  content_length : forall d b, length (content d b) = 256%nat;
  getblk_spec : forall d b, b ∉ held d -> (size (held d) + anon d < nbuf)%nat ->
    exists d' x, getblk d b = Ok (d', x) /\ length x = 256%nat /\ (forall a, content d' a = content d a) /\ held d' = {[b]} ∪ held d /\ anon d' = anon d;
  bread_spec : forall d b, b ∉ held d -> (size (held d) + anon d < nbuf)%nat ->
    exists d', bread d b = Ok (d', Contents (content d b) false) /\ (forall a, content d' a = content d a) /\ held d' = {[b]} ∪ held d /\ anon d' = anon d;
  brelse_spec : forall d b, b ∈ held d ->
    exists d', brelse d b = Ok d' /\ (forall a, content d' a = content d a) /\ held d' = held d ∖ {[b]} /\ anon d' = anon d;
  bwrite_spec : forall d b x, b ∈ held d -> length x = 256%nat ->
    exists d', bwrite d b x = Ok (d', 0) /\ (forall a, content d' a = if decide (a = b) then x else content d a) /\ held d' = held d ∖ {[b]} /\ anon d' = anon d;
  bdwrite_spec : forall d b x, b ∈ held d -> length x = 256%nat ->
    exists d', bdwrite d b x = Ok d' /\ (forall a, content d' a = if decide (a = b) then x else content d a) /\ held d' = held d ∖ {[b]} /\ anon d' = anon d;
  geteblk_spec : forall d, (size (held d) + anon d < nbuf)%nat ->
    exists d', geteblk d = Ok d' /\ (forall a, content d' a = content d a) /\ held d' = held d /\ anon d' = S (anon d);
  brelse_empty_spec : forall d, (0 < anon d)%nat ->
    exists d', brelse_empty d = Ok d' /\ (forall a, content d' a = content d a) /\ held d' = held d /\ anon d' = pred (anon d)
}.

(** ** The superblock *)

Record fs := Fs {
  fs_magic1 : Z; fs_isize : Z; fs_fsize : Z; fs_swapsz : Z;
  fs_nfree : Z; fs_free : list Z; fs_ninode : Z; fs_inode : list Z;
  fs_flock : Z; fs_fmod : Z; fs_ilock : Z; fs_ronly : Z; fs_time : Z;
  fs_tfree : Z; fs_tinode : Z; fs_fsmnt : list Z; fs_lasti : Z; fs_nbehind : Z;
  fs_flags : Z; fs_magic2 : Z
}.

(** The superblock as the words of its block. *)
Definition fs_words (f : fs) : block :=
  [fs_magic1 f; fs_isize f; fs_fsize f; fs_swapsz f; fs_nfree f] ++ fs_free f ++ [fs_ninode f] ++ fs_inode f ++
  [fs_flock f; fs_fmod f; fs_ilock f; fs_ronly f; fs_time f; fs_tfree f; fs_tinode f] ++ fs_fsmnt f ++
  [fs_lasti f; fs_nbehind f; fs_flags f; fs_magic2 f].

Definition set_frees (f : fs) (n : Z) (l : list Z) : fs :=
  Fs (fs_magic1 f) (fs_isize f) (fs_fsize f) (fs_swapsz f) n l (fs_ninode f) (fs_inode f) (fs_flock f) (fs_fmod f) (fs_ilock f)
    (fs_ronly f) (fs_time f) (fs_tfree f) (fs_tinode f) (fs_fsmnt f) (fs_lasti f) (fs_nbehind f) (fs_flags f) (fs_magic2 f).
Definition set_flock (f : fs) (v : Z) : fs :=
  Fs (fs_magic1 f) (fs_isize f) (fs_fsize f) (fs_swapsz f) (fs_nfree f) (fs_free f) (fs_ninode f) (fs_inode f) v (fs_fmod f) (fs_ilock f)
    (fs_ronly f) (fs_time f) (fs_tfree f) (fs_tinode f) (fs_fsmnt f) (fs_lasti f) (fs_nbehind f) (fs_flags f) (fs_magic2 f).
Definition set_fmod (f : fs) (v : Z) : fs :=
  Fs (fs_magic1 f) (fs_isize f) (fs_fsize f) (fs_swapsz f) (fs_nfree f) (fs_free f) (fs_ninode f) (fs_inode f) (fs_flock f) v (fs_ilock f)
    (fs_ronly f) (fs_time f) (fs_tfree f) (fs_tinode f) (fs_fsmnt f) (fs_lasti f) (fs_nbehind f) (fs_flags f) (fs_magic2 f).
Definition set_time (f : fs) (v : Z) : fs :=
  Fs (fs_magic1 f) (fs_isize f) (fs_fsize f) (fs_swapsz f) (fs_nfree f) (fs_free f) (fs_ninode f) (fs_inode f) (fs_flock f) (fs_fmod f) (fs_ilock f)
    (fs_ronly f) v (fs_tfree f) (fs_tinode f) (fs_fsmnt f) (fs_lasti f) (fs_nbehind f) (fs_flags f) (fs_magic2 f).
Definition set_tfree (f : fs) (v : Z) : fs :=
  Fs (fs_magic1 f) (fs_isize f) (fs_fsize f) (fs_swapsz f) (fs_nfree f) (fs_free f) (fs_ninode f) (fs_inode f) (fs_flock f) (fs_fmod f) (fs_ilock f)
    (fs_ronly f) (fs_time f) v (fs_tinode f) (fs_fsmnt f) (fs_lasti f) (fs_nbehind f) (fs_flags f) (fs_magic2 f).

(** [badblock]. *)
Definition badblock (f : fs) (bn : Z) : bool := (bn <? 0) || (u32 bn <? fs_isize f) || (fs_fsize f <=? u32 bn).

(** [struct fblk] at the start of a block. *)
Definition df_nfree (x : block) : Z := default 0 (head x).
Definition df_free (x : block) : list Z := take (Z.to_nat NICFREE) (tail x).
Definition fblk_put (f : fs) (x : block) : block := fs_nfree f :: fs_free f ++ drop (S (Z.to_nat NICFREE)) x.

(** ** Operations *)

(** The state: the device, the superblock in core, [u.u_error] and
    [time.tv_sec]. *)
Record fsys (D : Type) := Fsys { fdev : D; fsb : fs; ferr : Z; fnow : Z }.
Arguments Fsys {D} _ _ _ _.
Arguments fdev {D} _.
Arguments fsb {D} _.
Arguments ferr {D} _.
Arguments fnow {D} _.

Section alloc.
Context {D : Type} {BD : BufDev D}.

Definition with_dev (s : fsys D) (d : D) : fsys D := Fsys d (fsb s) (ferr s) (fnow s).
Definition with_fs (s : fsys D) (f : fs) : fsys D := Fsys (fdev s) f (ferr s) (fnow s).
Definition with_err (s : fsys D) (e : Z) : fsys D := Fsys (fdev s) (fsb s) e (fnow s).

(** [biowait] keeps the first error. *)
Definition biowait (s : fsys D) (e : Z) : fsys D := if ferr s =? 0 then with_err s e else s.

Definition fs_bread (s : fsys D) (b : Z) : outcome (fsys D * bufread) :=
  r ← bread (fdev s) b;
  let s := with_dev s (fst r) in
  Ok (match snd r with Contents _ _ => s | Failed e => biowait s e end, snd r).
Definition fs_getblk (s : fsys D) (b : Z) : outcome (fsys D * block) :=
  r ← getblk (fdev s) b; Ok (with_dev s (fst r), snd r).
Definition fs_brelse (s : fsys D) (b : Z) : outcome (fsys D) := d ← brelse (fdev s) b; Ok (with_dev s d).
Definition fs_bwrite (s : fsys D) (b : Z) (x : block) : outcome (fsys D * Z) :=
  r ← bwrite (fdev s) b x; Ok (biowait (with_dev s (fst r)) (snd r), snd r).
Definition fs_bdwrite (s : fsys D) (b : Z) (x : block) : outcome (fsys D) := d ← bdwrite (fdev s) b x; Ok (with_dev s d).

(** Written with the delay of an asynchronous mount, or waited for, the error
    ignored. *)
Definition put_block (s : fsys D) (b : Z) (x : block) : outcome (fsys D) :=
  if on (fs_flags (fsb s)) MNT_ASYNC then fs_bdwrite s b x else r ← fs_bwrite s b x; Ok (fst r).

(** The first loop of [balloc], for [n] free numbers: none left, or the next
    good one. *)
Fixpoint balloc_scan (n : nat) (f : fs) : outcome (fs * option Z) :=
  match n with
  | O => Ok (f, None)
  | S n' =>
      if NICFREE <? fs_nfree f then Ok (f, None)
      else
        let f := set_frees f (fs_nfree f - 1) (fs_free f) in
        bno ← rdz (fs_free f) (fs_nfree f);
        if bno =? 0 then Ok (f, None) else if badblock f bno then balloc_scan n' f else Ok (f, Some bno)
  end.

(** The next chunk of the free list, from the block [bno] just taken, and the
    superblock written back. *)
Definition balloc_refill (s : fsys D) (bno : Z) : outcome (fsys D) :=
  let s := with_fs s (set_flock (fsb s) (fs_flock (fsb s) + 1)) in
  r ← fs_bread s bno;
  let s := match whole (snd r) with
           | Some x => with_fs (fst r) (set_frees (fsb (fst r)) (df_nfree x) (df_free x))
           | None => fst r
           end in
  s ← fs_brelse s bno;
  r ← fs_getblk s SUPERB;
  let s := fst r in
  s ← put_block s SUPERB (fs_words (set_time (set_fmod (fsb s) 0) (fnow s)));
  Ok (with_fs s (set_flock (fsb s) 0)).

(** [nospace], its message and its five sleeps left out. *)
Definition nospace (s : fsys D) : fsys D :=
  with_err (with_fs s (set_fmod (set_tfree (set_frees (fsb s) 0 (fs_free (fsb s))) 0) 1)) FS_ENOSPC.

(** [balloc]: a block and its buffer's contents, held, or nothing. *)
Definition balloc (flags : Z) (s : fsys D) : outcome (fsys D * option (Z * block)) :=
  if negb (fs_flock (fsb s) =? 0) then Panic "deadlock"
  else
    r ← balloc_scan (Z.to_nat (fs_nfree (fsb s))) (fsb s);
    let s := with_fs s (fst r) in
    match snd r with
    | None => Ok (nospace s, None)
    | Some bno =>
        s ← (if fs_nfree (fsb s) <=? 0 then balloc_refill s bno else Ok s);
        if fs_nfree (fsb s) <=? 0 then Ok (nospace s, None)
        else
          r ← fs_getblk s bno;
          let s := fst r in
          let f := fsb s in
          Ok (with_fs s (set_tfree (set_fmod f 1) (u32 (fs_tfree f - 1))), Some (bno, if on flags B_CLRBUF then zeros else snd r))
    end.

(** [free]. *)
Definition free (bno : Z) (s : fsys D) : outcome (fsys D) :=
  if badblock (fsb s) bno then Ok s
  else if negb (fs_flock (fsb s) =? 0) then Panic "deadlock"
  else
    l ← (if fs_nfree (fsb s) <=? 0 then wrz (fs_free (fsb s)) 0 0 else Ok (fs_free (fsb s)));
    let s := with_fs s (set_frees (fsb s) (if fs_nfree (fsb s) <=? 0 then 1 else fs_nfree (fsb s)) l) in
    s ← (if NICFREE <=? fs_nfree (fsb s) then
           let s := with_fs s (set_flock (fsb s) (fs_flock (fsb s) + 1)) in
           r ← fs_getblk s bno;
           let x := fblk_put (fsb s) (snd r) in
           let s := with_fs (fst r) (set_frees (fsb s) 0 (fs_free (fsb s))) in
           s ← put_block s bno x;
           Ok (with_fs s (set_flock (fsb s) 0))
         else Ok s);
    let f := fsb s in
    l ← wrz (fs_free f) (fs_nfree f) bno;
    Ok (with_fs s (set_fmod (set_tfree (set_frees f (fs_nfree f + 1) l) (u32 (fs_tfree f + 1))) 1)).

End alloc.

(** ** The free list as a stack *)

(** The numbers of a chunk above its first, in the order they are taken. *)
Definition above (n : Z) (l : list Z) : list Z := rev (take (Z.to_nat n - 1) (tail l)).

(** The chunk of [n] numbers [l] and what follows it on the device are the
    blocks [s], the next to be taken first. *)
Inductive chain (c : Z -> block) : Z -> list Z -> list Z -> Prop :=
| chain_end n l s : 1 <= n <= NICFREE -> length l = 200%nat -> head l = Some 0 -> s = above n l -> chain c n l s
| chain_more n l b s t : 1 <= n <= NICFREE -> length l = 200%nat -> head l = Some b -> b <> 0 ->
    chain c (df_nfree (c b)) (df_free (c b)) t -> s = above n l ++ b :: t -> chain c n l s.

Definition free_rep (c : Z -> block) (f : fs) (s : list Z) : Prop :=
  fs_nfree f <= 0 /\ s = [] \/ chain c (fs_nfree f) (fs_free f) s.

(** The arrays have their lengths, so the image fills a block. *)
Definition fs_wf (f : fs) : Prop := length (fs_free f) = 200%nat /\ length (fs_inode f) = 32%nat /\ length (fs_fsmnt f) = 7%nat.

Lemma fs_words_length f : fs_wf f -> length (fs_words f) = 256%nat.
Proof. intros (H1&H2&H3). unfold fs_words. rewrite !length_app, H1, H2, H3. done. Qed.

(** A block of the data area. *)
Definition in_data (f : fs) (b : Z) : Prop := fs_isize f <= b < fs_fsize f.

(** The superblock [f] on a device with the contents [c] has the free blocks
    [s], and counts them. *)
Record alloc_ok (c : Z -> block) (f : fs) (s : list Z) : Prop := {
  al_wf : fs_wf f;
  al_rep : free_rep c f s;
  al_data : Forall (in_data f) s;
  al_nodup : NoDup s;
  al_count : fs_tfree f = Z.of_nat (length s);
  al_flock : fs_flock f = 0;
  al_size : 0 < fs_isize f <= fs_fsize f /\ fs_fsize f < 2 ^ 31
}.

(** What allocation never changes. *)
Definition same_shape (f f' : fs) : Prop :=
  fs_isize f' = fs_isize f /\ fs_fsize f' = fs_fsize f /\ fs_flags f' = fs_flags f /\ fs_ronly f' = fs_ronly f /\
  fs_ninode f' = fs_ninode f /\ fs_inode f' = fs_inode f /\ fs_tinode f' = fs_tinode f /\
  fs_ilock f' = fs_ilock f /\ fs_lasti f' = fs_lasti f /\ fs_nbehind f' = fs_nbehind f.

#[export] Instance same_shape_preorder : PreOrder same_shape.
Proof. split; [by intros f|]. unfold same_shape. intros f1 f2 f3 H1 H2. naive_solver congruence. Qed.

Lemma in_data_shape f f' b : same_shape f f' -> in_data f b -> in_data f' b.
Proof. intros (E1&E2&_). unfold in_data. by rewrite E1, E2. Qed.

Lemma frees_ext c c' n l s : chain c n l s -> (forall b, b ∈ s -> c' b = c b) -> chain c' n l s.
Proof.
  induction 1 as [n l s H1 H2 H3 ->|n l b s t H1 H2 H3 H4 Hc IH ->]; intros He; [by econstructor|].
  assert (c' b = c b) as Eb by (apply He; set_solver). econstructor; [done..| |reflexivity]. rewrite Eb. apply IH. intros a Ha. apply He. set_solver.
Qed.

Lemma alloc_ext c c' f s : alloc_ok c f s -> (forall b, b ∈ s -> c' b = c b) -> alloc_ok c' f s.
Proof.
  intros [? Hr ? ? ? ? ?] He. constructor; try done. destruct Hr as [?|Hc]; [by left|right]. by eapply frees_ext.
Qed.

Lemma chain_bounds c n l s : chain c n l s -> 1 <= n <= NICFREE /\ length l = 200%nat.
Proof. by inversion 1. Qed.

Lemma above_one l : above 1 l = [].
Proof. done. Qed.

(** Taking and adding a number at the top of a chunk. *)
Lemma above_pop n l x : 2 <= n <= NICFREE -> l !! Z.to_nat (n - 1) = Some x -> above n l = x :: above (n - 1) l.
Proof.
  intros Hn Hx. unfold above. destruct l as [|a l]; [done|]. cbn [tail].
  replace (Z.to_nat (n - 1)) with (S (Z.to_nat n - 2)) in Hx by lia. cbn in Hx.
  replace (Z.to_nat n - 1)%nat with (S (Z.to_nat n - 2)) by lia. rewrite (take_S_r _ _ _ Hx), rev_app_distr. cbn.
  by replace (Z.to_nat (n - 1) - 1)%nat with (Z.to_nat n - 2)%nat by lia.
Qed.

Lemma above_push n l x : 1 <= n < NICFREE -> length l = 200%nat -> above (n + 1) (<[Z.to_nat n:=x]> l) = x :: above n l.
Proof.
  intros Hn Hl. rewrite (above_pop (n + 1) _ x).
  - f_equal. replace (n + 1 - 1) with n by lia. unfold above. destruct l as [|a l]; [done|]. destruct (Z.to_nat n) as [|k] eqn:Ek; [lia|].
    cbn [list_insert tail]. change (<[S k:=x]> (a :: l)) with (a :: <[k:=x]> l). cbn [tail]. f_equal. apply take_insert_ge. lia.
  - unfold NICFREE in *. lia.
  - replace (n + 1 - 1) with n by lia. apply list_lookup_insert_eq. unfold NICFREE in *. lia.
Qed.

Lemma head_insert {A} (l : list A) n x : (0 < n)%nat -> head (<[n:=x]> l) = head l.
Proof. intros Hn. destruct l as [|a l], n; done || lia. Qed.

Lemma lookup_zero {A} (l : list A) x : head l = Some x -> l !! 0%nat = Some x.
Proof. by destruct l. Qed.

Section alloc_proofs.
Context {D : Type} {BD : BufDev D} {BS : BufSpec D}.

(** Another buffer can be had. *)
Definition room (s : fsys D) : Prop := (size (held (fdev s)) + anon (fdev s) < nbuf)%nat.

(** A step of the device alone: the new contents, blocks held and empty
    buffers out. *)
Record dev_step (s s' : fsys D) (c : Z -> block) (h : gset Z) (k : nat) : Prop := {
  ds_fs : fsb s' = fsb s;
  ds_err : ferr s' = ferr s;
  ds_now : fnow s' = fnow s;
  ds_content : forall a, content (fdev s') a = c a;
  ds_held : held (fdev s') = h;
  ds_anon : anon (fdev s') = k
}.

Definition wrote (c : Z -> block) (b : Z) (x : block) : Z -> block := fun a => if decide (a = b) then x else c a.

Lemma biowait_ok (s : fsys D) : biowait s 0 = s.
Proof. unfold biowait. destruct (Z.eqb_spec (ferr s) 0) as [E|]; [|done]. destruct s. cbn in *. by subst. Qed.

Lemma fs_bread_ok s b : b ∉ held (fdev s) -> room s ->
  exists s', fs_bread s b = Ok (s', Contents (content (fdev s) b) false) /\ dev_step s s' (content (fdev s)) ({[b]} ∪ held (fdev s)) (anon (fdev s)).
Proof. intros Hb Hr. destruct (bread_spec (fdev s) b Hb Hr) as (d&E&?&?&?). unfold fs_bread. rewrite E. by eexists. Qed.

Lemma fs_getblk_ok s b : b ∉ held (fdev s) -> room s ->
  exists s' x, fs_getblk s b = Ok (s', x) /\ length x = 256%nat /\ dev_step s s' (content (fdev s)) ({[b]} ∪ held (fdev s)) (anon (fdev s)).
Proof. intros Hb Hr. destruct (getblk_spec (fdev s) b Hb Hr) as (d&x&E&?&?&?&?). unfold fs_getblk. rewrite E. by eexists _, x. Qed.

Lemma fs_brelse_ok s b : b ∈ held (fdev s) ->
  exists s', fs_brelse s b = Ok s' /\ dev_step s s' (content (fdev s)) (held (fdev s) ∖ {[b]}) (anon (fdev s)).
Proof. intros Hb. destruct (brelse_spec (fdev s) b Hb) as (d&E&?&?&?). unfold fs_brelse. rewrite E. by eexists. Qed.

Lemma fs_bwrite_ok s b x : b ∈ held (fdev s) -> length x = 256%nat ->
  exists s', fs_bwrite s b x = Ok (s', 0) /\ dev_step s s' (wrote (content (fdev s)) b x) (held (fdev s) ∖ {[b]}) (anon (fdev s)).
Proof.
  intros Hb Hx. destruct (bwrite_spec (fdev s) b x Hb Hx) as (d&E&?&?&?). unfold fs_bwrite. rewrite E. cbn [mbind outcome_bind fst snd].
  rewrite biowait_ok. by eexists.
Qed.

Lemma fs_bdwrite_ok s b x : b ∈ held (fdev s) -> length x = 256%nat ->
  exists s', fs_bdwrite s b x = Ok s' /\ dev_step s s' (wrote (content (fdev s)) b x) (held (fdev s) ∖ {[b]}) (anon (fdev s)).
Proof. intros Hb Hx. destruct (bdwrite_spec (fdev s) b x Hb Hx) as (d&E&?&?&?). unfold fs_bdwrite. rewrite E. by eexists. Qed.

Lemma put_block_ok s b x : b ∈ held (fdev s) -> length x = 256%nat ->
  exists s', put_block s b x = Ok s' /\ dev_step s s' (wrote (content (fdev s)) b x) (held (fdev s) ∖ {[b]}) (anon (fdev s)).
Proof.
  intros Hb Hx. unfold put_block. destruct (on _ _); [by apply fs_bdwrite_ok|]. destruct (fs_bwrite_ok s b x Hb Hx) as (s'&->&?). by exists s'.
Qed.

Lemma badblock_data f b : in_data f b -> 0 < fs_isize f -> fs_fsize f < 2 ^ 31 -> badblock f b = false.
Proof.
  unfold in_data, badblock. intros Hb H1 H2. rewrite trunc_small by lia. destruct (Z.ltb_spec b 0), (Z.ltb_spec b (fs_isize f)), (Z.leb_spec (fs_fsize f) b); done || lia.
Qed.

Lemma scan_pop f b : 1 <= fs_nfree f <= NICFREE -> fs_free f !! Z.to_nat (fs_nfree f - 1) = Some b -> in_data f b -> 0 < fs_isize f -> fs_fsize f < 2 ^ 31 ->
  balloc_scan (Z.to_nat (fs_nfree f)) f = Ok (set_frees f (fs_nfree f - 1) (fs_free f), Some b).
Proof.
  intros Hn Hb Hd H1 H2. replace (Z.to_nat (fs_nfree f)) with (S (Z.to_nat (fs_nfree f - 1))) by lia. cbn [balloc_scan].
  destruct (Z.ltb_spec NICFREE (fs_nfree f)); [lia|]. cbn [set_frees fs_nfree fs_free]. rewrite (rdz_ok _ _ b) by (done || lia). cbn [mbind outcome_bind].
  destruct (Z.eqb_spec b 0) as [->|]; [unfold in_data in Hd; lia|]. by rewrite (badblock_data (set_frees f (fs_nfree f - 1) (fs_free f))).
Qed.

(** Reading the next chunk. *)
Lemma balloc_refill_ok s b : fs_wf (fsb s) -> fs_flock (fsb s) = 0 -> b ∉ held (fdev s) -> SUPERB ∉ held (fdev s) -> room s ->
  exists s', balloc_refill s b = Ok s' /\ fsb s' = set_frees (fsb s) (df_nfree (content (fdev s) b)) (df_free (content (fdev s) b)) /\
    ferr s' = ferr s /\ fnow s' = fnow s /\ (forall a, a <> SUPERB -> content (fdev s') a = content (fdev s) a) /\
    held (fdev s') = held (fdev s) /\ anon (fdev s') = anon (fdev s).
Proof.
  intros Hwf Hfl Hb Hsb Hroom. unfold balloc_refill. set (s1 := with_fs s _).
  destruct (fs_bread_ok s1 b Hb Hroom) as (s2&->&[F2 E2 N2 C2 H2 A2]). cbn [mbind outcome_bind fst snd whole]. set (x := content (fdev s1) b) in *.
  set (s3 := with_fs s2 _). change (fdev s1) with (fdev s) in *.
  destruct (fs_brelse_ok s3 b) as (s4&->&[F4 E4 N4 C4 H4 A4]); [cbn; rewrite H2; set_solver|]. cbn [mbind outcome_bind].
  change (fdev s3) with (fdev s2) in *.
  assert (held (fdev s4) = held (fdev s)) as Hh4 by (rewrite H4, H2; set_solver).
  destruct (fs_getblk_ok s4 SUPERB) as (s5&y&->&Hy&[F5 E5 N5 C5 H5 A5]); [by rewrite Hh4|unfold room in *; by rewrite Hh4, A4, A2|].
  cbn [mbind outcome_bind fst snd]. set (img := fs_words _).
  assert (length img = 256%nat) as Hi.
  { apply fs_words_length. rewrite F5, F4. destruct Hwf as (W1&W2&W3). unfold fs_wf. cbn. rewrite F2. split; [|done]. unfold df_free.
    rewrite length_take, length_tl. unfold x. by rewrite content_length. }
  destruct (put_block_ok s5 SUPERB img) as (s6&->&[F6 E6 N6 C6 H6 A6]); [rewrite H5; set_solver|done|]. cbn [mbind outcome_bind].
  eexists. split; [reflexivity|]. cbn [with_fs fsb ferr fnow fdev]. split.
  { rewrite F6, F5, F4. cbn. rewrite F2. unfold s1. cbn. unfold set_flock, set_frees. cbn. by rewrite Hfl. }
  split; [by rewrite E6, E5, E4|]. split; [by rewrite N6, N5, N4|]. split; [|split].
  - intros a Ha. rewrite C6. unfold wrote. rewrite decide_False by done. by rewrite C5, C4, C2.
  - rewrite H6, H5, Hh4. set_solver.
  - by rewrite A6, A5, A4, A2.
Qed.

Lemma alloc_length c f l : alloc_ok c f l -> Z.of_nat (length l) < 2 ^ 31.
Proof.
  intros [? ? Hd Hn ? ? [Hs1 Hs2]]. assert (length l <= length (seqZ 0 (fs_fsize f)))%nat as Hlen.
  { apply submseteq_length, NoDup_submseteq; [done|]. intros x Hx. rewrite Forall_forall in Hd. specialize (Hd x Hx). unfold in_data in Hd.
    apply elem_of_seqZ. lia. }
  rewrite length_seqZ in Hlen. lia.
Qed.

(** The same file system with other free blocks. *)
Record fs_step (s s' : fsys D) (free' : list Z) : Prop := {
  st_alloc : alloc_ok (content (fdev s')) (fsb s') free';
  st_shape : same_shape (fsb s) (fsb s');
  st_err : ferr s' = ferr s;
  st_now : fnow s' = fnow s;
  st_anon : anon (fdev s') = anon (fdev s)
}.

(** A pop leaves the rest on the list, at once or after a refill. *)
Lemma pop_rep c f b rest : alloc_ok c f (b :: rest) ->
  1 <= fs_nfree f <= NICFREE /\ fs_free f !! Z.to_nat (fs_nfree f - 1) = Some b /\
  (fs_nfree f = 1 /\ chain c (df_nfree (c b)) (df_free (c b)) rest \/ 1 < fs_nfree f /\ chain c (fs_nfree f - 1) (fs_free f) rest).
Proof.
  intros [? Hr Hd ? ? ? ?]. apply Forall_cons in Hd as [Hb _]. destruct Hr as [[_ E]|Hc]; [done|]. destruct (chain_bounds _ _ _ _ Hc) as [Hn Hl]. split; [done|].
  assert (forall a, 2 <= fs_nfree f -> above (fs_nfree f) (fs_free f) !! 0%nat = Some a -> fs_free f !! Z.to_nat (fs_nfree f - 1) = Some a) as Htop.
  { intros a Hn2 Ha. destruct (lookup_lt_is_Some_2 (fs_free f) (Z.to_nat (fs_nfree f - 1))) as [x Hx]; [unfold NICFREE in *; lia|].
    rewrite (above_pop _ _ x) in Ha by (done || lia). cbn in Ha. congruence. }
  inversion Hc as [n l s H1 H2 H3 E En|n l b' s t H1 H2 H3 H4 Hc' E En]; subst n l s.
  - destruct (decide (fs_nfree f = 1)) as [E1|E1]; [rewrite E1, above_one in E; done|].
    destruct (lookup_lt_is_Some_2 (fs_free f) (Z.to_nat (fs_nfree f - 1))) as [x Hx]; [unfold NICFREE in *; lia|].
    rewrite (above_pop _ _ x) in E by (done || lia). injection E as <- Er. split; [done|]. right. split; [lia|]. apply chain_end; [lia|done|done|done].
  - destruct (decide (fs_nfree f = 1)) as [E1|E1].
    + rewrite E1, above_one in E. injection E as <- <-. rewrite E1. change (Z.to_nat (1 - 1)) with 0%nat. split; [by apply lookup_zero|]. by left.
    + destruct (lookup_lt_is_Some_2 (fs_free f) (Z.to_nat (fs_nfree f - 1))) as [x Hx]; [unfold NICFREE in *; lia|].
      rewrite (above_pop _ _ x) in E by (done || lia). injection E as <- Er. split; [done|]. right. split; [lia|]. eapply chain_more; [lia|done|done|done|done|done].
Qed.

Lemma rest_ok c c' f b rest f' : alloc_ok c f (b :: rest) -> same_shape f f' -> fs_wf f' -> free_rep c' f' rest ->
  fs_flock f' = 0 -> fs_tfree f' = Z.of_nat (length rest) -> alloc_ok c' f' rest.
Proof.
  intros [? ? Hd Hn ? ? ?] Hs Hw Hr Hf Ht. apply Forall_cons in Hd as [_ Hd]. apply NoDup_cons in Hn as [_ Hn]. constructor; try done.
  - eapply Forall_impl; [exact Hd|]. intros a. by apply in_data_shape.
  - destruct Hs as (->&->&_). done.
Qed.

Lemma data_not_super f b : in_data f b -> 0 < fs_isize f -> b <> SUPERB.
Proof. unfold in_data, SUPERB. lia. Qed.

Lemma balloc_takes flags s b rest : alloc_ok (content (fdev s)) (fsb s) (b :: rest) -> b ∉ held (fdev s) -> SUPERB ∉ held (fdev s) -> room s ->
  exists s' x, balloc flags s = Ok (s', Some (b, x)) /\ length x = 256%nat /\ (on flags B_CLRBUF = true -> x = zeros) /\ fs_step s s' rest /\
    held (fdev s') = {[b]} ∪ held (fdev s) /\ (forall a, a <> SUPERB -> content (fdev s') a = content (fdev s) a).
Proof.
  intros Ha Hb Hsb Hroom. destruct (pop_rep _ _ _ _ Ha) as (Hn&Htop&Hrest). pose proof Ha as [Hwf Hr Hd Hnd Hcnt Hfl [Hs1 Hs2]].
  apply Forall_cons in Hd as [Hbd Hd]. set (f := fsb s) in *. set (f1 := set_frees f (fs_nfree f - 1) (fs_free f)).
  unfold balloc. fold f. rewrite Hfl. cbn [Z.eqb negb]. rewrite (scan_pop f b) by (done || lia). cbn [mbind outcome_bind fst snd]. fold f1. set (s1 := with_fs s f1).
  assert (exists s2, (if fs_nfree (fsb s1) <=? 0 then balloc_refill s1 b else Ok s1) = Ok s2 /\ chain (content (fdev s2)) (fs_nfree (fsb s2)) (fs_free (fsb s2)) rest /\
    fsb s2 = set_frees f (fs_nfree (fsb s2)) (fs_free (fsb s2)) /\ ferr s2 = ferr s /\ fnow s2 = fnow s /\
    (forall a, a <> SUPERB -> content (fdev s2) a = content (fdev s) a) /\ held (fdev s2) = held (fdev s) /\ anon (fdev s2) = anon (fdev s))
    as (s2&->&Hc2&F2&E2&N2&C2&H2&A2).
  { change (fs_nfree (fsb s1)) with (fs_nfree f - 1). destruct Hrest as [[E1 Hc]|[E1 Hc]].
    - rewrite E1. change (1 - 1 <=? 0) with true. cbv iota.
      destruct (balloc_refill_ok s1 b) as (s2&->&F2&E2&N2&C2&H2&A2); [done|done|done|done|done|]. exists s2. split; [done|].
      rewrite F2. cbn [set_frees fs_nfree fs_free]. split; [|split; [done|done]]. eapply frees_ext; [exact Hc|]. intros a Hin. apply C2.
      apply (data_not_super f); [|lia]. rewrite Forall_forall in Hd. by apply Hd.
    - destruct (Z.leb_spec (fs_nfree f - 1) 0); [lia|]. exists s1. do 2 (split; [done|]). by destruct f. }
  cbn [mbind outcome_bind]. pose proof (chain_bounds _ _ _ _ Hc2) as [Hn2 Hl2]. destruct (Z.leb_spec (fs_nfree (fsb s2)) 0); [lia|].
  destruct (fs_getblk_ok s2 b) as (s3&x&->&Hx&[F3 E3 N3 C3 H3 A3]); [by rewrite H2|unfold room in *; by rewrite H2, A2|]. cbn [mbind outcome_bind fst snd].
  eexists _, _. split; [reflexivity|]. split; [by destruct (on _ _)|]. split; [by intros ->|].
  assert (same_shape f (fsb s2)) as Hsh by (rewrite F2; done).
  split; [|split; [cbn; by rewrite H3, H2|intros a Hne; cbn; by rewrite C3, C2]].
  constructor; [|by cbn; rewrite F3|cbn; by rewrite E3, E2|cbn; by rewrite N3, N2|cbn; by rewrite A3, A2]. cbn [with_fs fsb fdev].
  rewrite F3. apply (rest_ok (content (fdev s)) _ f b); [done|by rewrite F2|rewrite F2; by destruct Hwf as (_&?&?)| |by rewrite F2|].
  - right. cbn. eapply frees_ext; [exact Hc2|]. intros a _. apply C3.
  - cbn. rewrite F2. cbn. fold f. rewrite Hcnt. cbn [length]. replace (Z.of_nat (S (length rest)) - 1) with (Z.of_nat (length rest)) by lia.
    apply trunc_small. pose proof (alloc_length _ _ _ Ha) as Hlen. cbn in Hlen. lia.
Qed.

(** A full file system: nothing changes but the flag and the counts. *)
Lemma balloc_full flags s : alloc_ok (content (fdev s)) (fsb s) [] ->
  exists s', balloc flags s = Ok (s', None) /\ fdev s' = fdev s /\ same_shape (fsb s) (fsb s') /\ alloc_ok (content (fdev s')) (fsb s') [] /\
    ferr s' = FS_ENOSPC /\ fnow s' = fnow s.
Proof.
  intros [Hwf Hr Hd Hnd Hcnt Hfl Hsz]. unfold balloc. rewrite Hfl. cbn [Z.eqb negb].
  assert (exists n, balloc_scan (Z.to_nat (fs_nfree (fsb s))) (fsb s) = Ok (set_frees (fsb s) n (fs_free (fsb s)), None)) as [n ->].
  { destruct Hr as [[Hn _]|Hc]; [replace (Z.to_nat (fs_nfree (fsb s))) with 0%nat by lia; exists (fs_nfree (fsb s)); by destruct (fsb s)|].
    inversion Hc as [n l t H1 H2 H3 E En|n l b' t u H1 H2 H3 H4 Hc' E En]; subst n l t; [|by destruct (above _ _)].
    assert (fs_nfree (fsb s) = 1) as E1.
    { destruct (decide (fs_nfree (fsb s) = 1)) as [|Hne]; [done|]. destruct (lookup_lt_is_Some_2 (fs_free (fsb s)) (Z.to_nat (fs_nfree (fsb s) - 1))) as [x Hx]; [unfold NICFREE in *; lia|].
      rewrite (above_pop _ _ x) in E by (done || lia). done. }
    rewrite E1. change (Z.to_nat 1) with 1%nat. cbn [balloc_scan set_frees fs_free fs_nfree]. rewrite E1. change (NICFREE <? 1) with false. cbv iota.
    change (1 - 1) with 0. rewrite (rdz_ok _ _ 0) by (done || by apply lookup_zero). cbn [mbind outcome_bind Z.eqb]. by eexists. }
  cbn [mbind outcome_bind fst snd]. eexists. split; [reflexivity|]. split; [done|]. split; [done|]. split; [|done].
  constructor; try done. by left.
Qed.

(** [free] puts the block on the stack. *)
Lemma free_puts s b l : alloc_ok (content (fdev s)) (fsb s) l -> in_data (fsb s) b -> b ∉ l -> b ∉ held (fdev s) -> room s ->
  exists s', free b s = Ok s' /\ fs_step s s' (b :: l) /\ held (fdev s') = held (fdev s) /\
    (forall a, a <> b -> content (fdev s') a = content (fdev s) a).
Proof.
  intros Ha Hbd Hnin Hb Hroom. pose proof Ha as [Hwf Hr Hd Hnd Hcnt Hfl [Hs1 Hs2]]. set (f := fsb s) in *.
  unfold free. fold f. rewrite (badblock_data f b), Hfl by (done || lia). cbn [Z.eqb negb].
  (* an empty list starts with the end mark *)
  set (n1 := if fs_nfree f <=? 0 then 1 else fs_nfree f).
  assert (exists l1, (if fs_nfree f <=? 0 then wrz (fs_free f) 0 0 else Ok (fs_free f)) = Ok l1 /\ chain (content (fdev s)) n1 l1 l) as (l1&->&Hc1).
  { unfold n1. destruct Hwf as (W1&_). destruct Hr as [[Hn ->]|Hc].
    - rewrite (proj2 (Z.leb_le _ _) Hn). rewrite wrz_ok by lia. eexists. split; [done|]. apply chain_end; [unfold NICFREE; lia|by rewrite length_insert| |done].
      by destruct (fs_free f).
    - destruct (chain_bounds _ _ _ _ Hc) as [Hn _]. rewrite (proj2 (Z.leb_gt _ _)) by lia. by exists (fs_free f). }
  cbn [mbind outcome_bind]. set (f1 := set_frees f n1 l1). set (s1 := with_fs s f1). pose proof (chain_bounds _ _ _ _ Hc1) as [Hn1 Hl1].
  assert (exists s2 n2 l2, (if NICFREE <=? fs_nfree (fsb s1) then
      (let s2 := with_fs s1 (set_flock (fsb s1) (fs_flock (fsb s1) + 1)) in
       r ← fs_getblk s2 b; let x := fblk_put (fsb s2) (snd r) in let s3 := with_fs (fst r) (set_frees (fsb s2) 0 (fs_free (fsb s2))) in
       s4 ← put_block s3 b x; Ok (with_fs s4 (set_flock (fsb s4) 0))) else Ok s1) = Ok s2 /\
    fsb s2 = set_frees f n2 l2 /\ ferr s2 = ferr s /\ fnow s2 = fnow s /\ anon (fdev s2) = anon (fdev s) /\ held (fdev s2) = held (fdev s) /\
    (forall a, a <> b -> content (fdev s2) a = content (fdev s) a) /\ 0 <= n2 < NICFREE /\ length l2 = 200%nat /\
    chain (content (fdev s2)) (n2 + 1) (<[Z.to_nat n2:=b]> l2) (b :: l))
    as (s2&n2&l2&E2&F2&R2&N2&A2&H2&C2&Hn2&Hl2&Hc2).
  { destruct (Z.leb_spec NICFREE (fs_nfree (fsb s1))) as [Hfull|Hroom1]; cbn [s1 with_fs fsb f1 set_frees fs_nfree] in *.
    - (* the chunk goes to the block *)
      assert (n1 = NICFREE) as E1 by lia. set (s2 := with_fs s1 _).
      destruct (fs_getblk_ok s2 b Hb Hroom) as (s3&x&->&Hx&[F3 E3 N3 C3 H3 A3]). cbn [mbind outcome_bind fst snd].
      set (y := fblk_put _ _). set (s4 := with_fs s3 _).
      assert (length y = 256%nat) as Hy.
      { unfold y, fblk_put. cbn. rewrite length_app, length_drop, Hx, Hl1. done. }
      destruct (put_block_ok s4 b y) as (s5&->&[F5 E5 N5 C5 H5 A5]); [cbn; rewrite H3; set_solver|done|]. cbn [mbind outcome_bind].
      eexists _, 0, l1. split; [reflexivity|]. cbn [with_fs fsb fdev ferr fnow]. split; [rewrite F5; unfold set_flock, set_frees; cbn; rewrite Hfl; by destruct f|].
      split; [by rewrite E5; cbn; rewrite E3|]. split; [by rewrite N5; cbn; rewrite N3|]. split; [by rewrite A5; cbn; rewrite A3|].
      split; [rewrite H5; cbn; rewrite H3; cbn; set_solver|].
      assert (forall a, content (fdev s5) a = wrote (content (fdev s)) b y a) as HC.
      { intros a. rewrite C5. unfold wrote. case_decide; [done|]. cbn. by rewrite C3. }
      split; [intros a Hne; rewrite HC; unfold wrote; by rewrite decide_False|]. split; [done|]. split; [done|].
      assert (df_nfree y = NICFREE /\ df_free y = l1) as [Hdn Hdf].
      { unfold df_nfree, df_free, y, fblk_put. cbn. rewrite E1. split; [done|]. apply take_app_length'. by rewrite Hl1. }
      change (0 + 1) with 1. eapply (chain_more _ 1 _ b _ l); [unfold NICFREE; lia|by rewrite length_insert|by destruct l1| | |done].
      + unfold in_data in Hbd. lia.
      + rewrite HC. unfold wrote. rewrite decide_True by done. rewrite Hdn, Hdf, <- E1. eapply frees_ext; [exact Hc1|].
        intros a Hin. rewrite HC. unfold wrote. rewrite decide_False by (intros ->; done). done.
    - eexists s1, n1, l1. split; [reflexivity|]. split; [done|]. do 4 (split; [done|]). split; [done|]. split; [lia|]. split; [done|]. cbn [s1 with_fs fdev].
      assert (above (n1 + 1) (<[Z.to_nat n1:=b]> l1) = b :: above n1 l1) as Eab by (apply above_push; [lia|done]).
      assert (head (<[Z.to_nat n1:=b]> l1) = head l1) as Eh by (apply head_insert; lia).
      inversion Hc1 as [n ll t H1 H2 H3 E En|n ll b' t u H1 H2 H3 H4 Hc' E En]; subst.
      + apply chain_end; [lia|by rewrite length_insert|by rewrite Eh|by rewrite Eab].
      + eapply chain_more; [lia|by rewrite length_insert|by rewrite Eh|done|done|by rewrite Eab]. }
  cbv zeta in E2. rewrite E2. cbn [mbind outcome_bind]. rewrite F2. cbn [set_frees fs_free fs_nfree fs_tfree].
  rewrite wrz_ok by (unfold NICFREE in *; lia). cbn [mbind outcome_bind]. eexists. split; [reflexivity|]. split; [|split; [done|done]].
  constructor; [|done|done|done|done]. cbn [with_fs fsb fdev]. constructor.
  - destruct Hwf as (_&?&?). split; [cbn; by rewrite length_insert|done].
  - right. exact Hc2.
  - apply Forall_cons. split; [exact Hbd|exact Hd].
  - by apply NoDup_cons.
  - cbn. fold f. rewrite Hcnt. pose proof (alloc_length _ _ _ Ha). rewrite trunc_small; cbn [length]; lia.
  - exact Hfl.
  - done.
Qed.

End alloc_proofs.

(** ** The allocator is a stack *)

Section stack.
Context {D : Type} {BD : BufDev D} {BS : BufSpec D}.

(** What the file system asks of the allocator: a block, whose buffer it
    writes with [x]; or to take a block back. *)
Inductive request := Alloc (flags : Z) (x : block) | Release (b : Z).

Definition serve (q : request) (s : fsys D) : outcome (fsys D * option Z) :=
  match q with
  | Alloc flags x =>
      r ← balloc flags s;
      match snd r with
      | None => Ok (fst r, None)
      | Some (b, _) => s ← fs_bdwrite (fst r) b x; Ok (s, Some b)
      end
  | Release b => s ← free b s; Ok (s, None)
  end.

Fixpoint serve_all (l : list request) (s : fsys D) : outcome (fsys D * list (option Z)) :=
  match l with
  | [] => Ok (s, [])
  | q :: l' => r ← serve q s; t ← serve_all l' (fst r); Ok (fst t, snd r :: snd t)
  end.

(** The same requests to a stack. *)
Definition stack_serve (q : request) (l : list Z) : list Z * option Z :=
  match q with
  | Alloc _ _ => match l with [] => ([], None) | b :: l' => (l', Some b) end
  | Release b => (b :: l, None)
  end.

Fixpoint stack_all (q : list request) (l : list Z) : list Z * list (option Z) :=
  match q with
  | [] => (l, [])
  | a :: q' => let t := stack_all q' (fst (stack_serve a l)) in (fst t, snd (stack_serve a l) :: snd t)
  end.

(** Only a block of the data area that is not free is released. *)
Fixpoint proper (f : fs) (q : list request) (l : list Z) : Prop :=
  match q with
  | [] => True
  | a :: q' =>
      match a with Alloc _ x => length x = 256%nat | Release b => in_data f b /\ b ∉ l end /\ proper f q' (fst (stack_serve a l))
  end.

#[export] Instance in_data_dec f b : Decision (in_data f b).
Proof. unfold in_data. apply _. Defined.

#[export] Instance proper_dec f q l : Decision (proper f q l).
Proof. revert l. induction q as [|a q IH]; intros l; cbn; [apply _|]. apply and_dec; [destruct a; apply _|apply IH]. Defined.

Lemma proper_shape f f' q l : same_shape f f' -> proper f q l -> proper f' q l.
Proof.
  intros Hs. revert l. induction q as [|a q IH]; intros l; [done|]. intros [H1 H2]. split; [|by apply IH].
  destruct a; [done|]. destruct H1. split; [by eapply in_data_shape|done].
Qed.

(** No block is held between requests. *)
Definition at_rest (s : fsys D) (l : list Z) : Prop := alloc_ok (content (fdev s)) (fsb s) l /\ held (fdev s) = ∅ /\ anon (fdev s) = 0%nat.

Lemma rest_room s l : (0 < nbuf)%nat -> at_rest s l -> room s.
Proof. intros Hn (_&Hh&Ha). unfold room. rewrite Hh, Ha, size_empty. lia. Qed.

Lemma serve_stack q q' s l : (0 < nbuf)%nat -> at_rest s l -> proper (fsb s) (q :: q') l ->
  exists s', serve q s = Ok (s', snd (stack_serve q l)) /\ at_rest s' (fst (stack_serve q l)) /\ same_shape (fsb s) (fsb s').
Proof.
  intros Hn Hr [Hp _]. pose proof (rest_room s l Hn Hr) as Hroom. destruct Hr as (Ha&Hh&Hk). destruct q as [flags x|b]; cbn [serve stack_serve].
  - destruct l as [|b l].
    + destruct (balloc_full flags s Ha) as (s'&->&Hd&Hs&Ha'&_). exists s'. split; [done|]. split; [|done]. unfold at_rest. by rewrite Hd in *.
    + destruct (balloc_takes flags s b l Ha) as (s1&y&->&Hy&_&[A1 S1 _ _ K1]&H1&_); [rewrite Hh; set_solver..|done|]. cbn [mbind outcome_bind fst snd].
      destruct (fs_bdwrite_ok s1 b x) as (s2&->&[F2 _ _ C2 H2 K2]); [rewrite H1; set_solver|done|]. cbn [mbind outcome_bind]. exists s2. split; [done|].
      rewrite F2. split; [|done]. split; [|rewrite H2, H1, Hh, K2, K1, Hk; split; [set_solver|done]]. rewrite F2. eapply alloc_ext; [exact A1|].
      intros a Hin. rewrite C2. unfold wrote. rewrite decide_False; [done|]. intros ->. apply al_nodup in Ha. apply NoDup_cons in Ha as [? _]. done.
  - destruct Hp as [Hb Hnin]. destruct (free_puts s b l Ha Hb Hnin) as (s'&->&[A1 S1 _ _ K1]&H1&_); [rewrite Hh; set_solver|done|].
    exists s'. split; [done|]. split; [|done]. split; [done|]. by rewrite H1, K1.
Qed.

(** C27. The free list is a stack. Whatever sequence of blocks is asked for and
    given back, [balloc] and [free] answer as a stack of block numbers would,
    though the stack is spread over the superblock and chunks of two hundred
    numbers in the free blocks themselves; they never fail nor wait for
    themselves, the file system is reported full exactly when no block is
    free, and [fs_tfree] stays the number of free blocks. *)
Theorem balloc_refines_stack q s l : (0 < nbuf)%nat -> at_rest s l -> proper (fsb s) q l ->
  exists s', serve_all q s = Ok (s', snd (stack_all q l)) /\ at_rest s' (fst (stack_all q l)) /\ fs_tfree (fsb s') = Z.of_nat (length (fst (stack_all q l))).
Proof.
  intros Hn. revert s l. induction q as [|a q IH]; intros s l Hr Hp.
  - exists s. split; [done|]. split; [done|]. apply Hr.
  - cbn [serve_all]. destruct (serve_stack a q s l Hn Hr Hp) as (s1&->&Hr1&Hs1). cbn [mbind outcome_bind fst snd].
    destruct (IH s1 (fst (stack_serve a l)) Hr1) as (s2&->&Hr2&Ht2); [destruct Hp as [_ Hp]; by eapply proper_shape|].
    cbn [mbind outcome_bind fst snd stack_all]. by exists s2.
Qed.

End stack.

(** ** A device in memory *)

(** Blocks, the blocks held and the empty buffers out; four buffers, the
    NBUF of the machine. *)
Record ramdisk := Ramdisk { rd_blk : Z -> block; rd_held : gset Z; rd_anon : nat }.

Definition NBUF : nat := 4.

Definition rd_free (d : ramdisk) : bool := bool_decide (size (rd_held d) + rd_anon d < NBUF)%nat.
Definition rd_take (d : ramdisk) (b : Z) : outcome ramdisk :=
  if bool_decide (b ∉ rd_held d) && rd_free d then Ok (Ramdisk (rd_blk d) ({[b]} ∪ rd_held d) (rd_anon d)) else Panic "deadlock".
Definition rd_drop (d : ramdisk) (b : Z) (f : Z -> block) : outcome ramdisk :=
  if bool_decide (b ∈ rd_held d) then Ok (Ramdisk f (rd_held d ∖ {[b]}) (rd_anon d)) else Fault.
Definition rd_content (d : ramdisk) (b : Z) : block := resize 256 0 (rd_blk d b).

#[export] Instance ramdisk_dev : BufDev ramdisk := {
  getblk d b := d' ← rd_take d b; Ok (d', rd_content d b);
  bread d b := d' ← rd_take d b; Ok (d', Contents (rd_content d b) false);
  brelse d b := rd_drop d b (rd_blk d);
  bwrite d b x := d' ← rd_drop d b (fun a => if decide (a = b) then x else rd_blk d a); Ok (d', 0);
  bdwrite d b x := rd_drop d b (fun a => if decide (a = b) then x else rd_blk d a);
  geteblk d := if rd_free d then Ok (Ramdisk (rd_blk d) (rd_held d) (S (rd_anon d))) else Panic "deadlock";
  brelse_empty d := if (0 <? rd_anon d)%nat then Ok (Ramdisk (rd_blk d) (rd_held d) (pred (rd_anon d))) else Fault
}.

Lemma rd_take_ok d b : b ∉ rd_held d -> (size (rd_held d) + rd_anon d < NBUF)%nat -> rd_take d b = Ok (Ramdisk (rd_blk d) ({[b]} ∪ rd_held d) (rd_anon d)).
Proof. intros H1 H2. unfold rd_take, rd_free. by rewrite !bool_decide_eq_true_2. Qed.

Lemma rd_drop_ok d b f : b ∈ rd_held d -> rd_drop d b f = Ok (Ramdisk f (rd_held d ∖ {[b]}) (rd_anon d)).
Proof. intros H. unfold rd_drop. by rewrite bool_decide_eq_true_2. Qed.

Lemma rd_wrote d b x a : length x = 256%nat -> resize 256 0 (if decide (a = b) then x else rd_blk d a) = if decide (a = b) then x else rd_content d a.
Proof. intros Hx. case_decide; [by apply resize_all_alt|done]. Qed.

#[export, refine] Instance ramdisk_spec : BufSpec ramdisk := {
  nbuf := NBUF; content := rd_content; held := rd_held; anon := rd_anon
}.
Proof.
  - intros d b. apply length_resize.
  - intros d b H1 H2. cbn. rewrite rd_take_ok by done. eexists _, _. split; [done|]. split; [apply length_resize|done].
  - intros d b H1 H2. cbn. rewrite rd_take_ok by done. by eexists.
  - intros d b H1. cbn. rewrite rd_drop_ok by done. by eexists.
  - intros d b x H1 Hx. cbn. rewrite rd_drop_ok by done. eexists. split; [done|]. split; [intros a; by apply rd_wrote|done].
  - intros d b x H1 Hx. cbn. rewrite rd_drop_ok by done. eexists. split; [done|]. split; [intros a; by apply rd_wrote|done].
  - intros d H1. cbn. unfold rd_free. rewrite bool_decide_eq_true_2 by done. by eexists.
  - intros [f h [|k]] H1; cbn in *; [lia|by eexists].
Defined.

(** A new file system: its 512 blocks from 64 on are free, in chunks. *)
Definition demo_fs (n : Z) (l : list Z) : fs :=
  Fs 0 64 0x240 0 n l 0 (replicate 32 0) 0 0 0 0 0 n 0 (replicate 7 0) 0 0 0 0.
Definition demo_empty : fsys ramdisk := Fsys (Ramdisk (fun _ => zeros) ∅ 0) (demo_fs 0 (replicate 200 0)) 0 0.
Definition demo_fill : list request := Release <$> seqZ 64 250.

Lemma demo_empty_rest : at_rest demo_empty [].
Proof.
  split; [|done]. constructor; try done; [by left|constructor].
Qed.

(** Two hundred and fifty blocks freed, the last fifty-one of them and then
    the chunk below taken again. *)
Lemma balloc_refines_stack_witness : exists s' t,
  serve_all (demo_fill ++ replicate 52 (Alloc 0 zeros)) demo_empty = Ok (s', t) /\ fs_tfree (fsb s') = 198.
Proof.
  destruct (balloc_refines_stack (demo_fill ++ replicate 52 (Alloc 0 zeros)) demo_empty []) as (s'&E&_&Ht); [apply (bool_decide_eq_true_1 _); by vm_compute|apply demo_empty_rest| |].
  - apply (bool_decide_eq_true_1 _). by vm_compute.
  - eexists _, _. split; [exact E|]. rewrite Ht. by vm_compute.
Defined.
