(* ===== verification/Bufdev.v ===== *)
(** * The buffer cache under the file system

    The cache of [Bufcache], used for one device that does not fail, meets the
    interface [Fsalloc.BufDev] and [BufSpec] that the file-system operations are
    proved against: a block is what its delayed buffer holds, or else what the
    device holds. So [Fsalloc], [Fsmap] and [Fstrunc] hold on the cache itself,
    and a flush at the end leaves everything on the device. *)
From stdpp Require Import gmap sets.
From S2P Require Import Prelude Bufqueue Bufcache.
From S2P Require Fsalloc.

(** A device that stores every block it is given and is no tape. *)
Class DiskFine (K : Type) `{Disk K} := {
  plate : K -> Z -> Z -> words;
  plate_length : forall k dev bn, length (plate k dev bn) = 256%nat;
  read_fine : forall k dev bn x, snd (transfer k true dev bn DEV_BSIZE x) = Xfer (plate k dev bn) None 0;
  read_keeps : forall k dev bn x d b, plate (fst (transfer k true dev bn DEV_BSIZE x)) d b = plate k d b;
  write_fine : forall k dev bn x, length x = 256%nat -> snd (transfer k false dev bn DEV_BSIZE x) = Xfer x None 0;
  write_keeps : forall k dev bn x d b, length x = 256%nat ->
    plate (fst (transfer k false dev bn DEV_BSIZE x)) d b = if decide (d = dev /\ b = bn) then x else plate k d b;
  no_tape : forall dev, on (d_flags dev) B_TAPE = false
}.

Section dev.
Context {K : Type} {DK : Disk K} {DS : DiskShape K} {DF : DiskFine K}.
Variable dev : Z.
Hypothesis dev_ok : dev <> NODEV.
Implicit Type c : bcache K.

(** ** Blocks in the cache *)

Definition valid (b : buf) : bool := negb (on (b_flags b) B_INVAL).
Definition busy (b : buf) : bool := on (b_flags b) B_BUSY.

(** Buffer [i] has block [bn] of device [d]. *)
Record has c (i : nat) (d bn : Z) (b : buf) (x : words) : Prop := {
  ha_buf : bufs c !! i = Some b;
  ha_data : bdata c !! i = Some x;
  ha_valid : valid b = true;
  ha_dev : b_dev b = d;
  ha_blkno : b_blkno b = bn
}.

(** A cache in order on devices that do not fail: one buffer for a block, no
    errors, and a buffer that is done and not delayed is as on the device. What
    is busy belongs to the device or to none. *)
Record coherent c Q : Prop := {
  co_wf : wf c Q;
  co_single : forall i j d bn b x b' x', d <> NODEV -> has c i d bn b x -> has c j d bn b' x' -> i = j;
  co_error : forall i b, bufs c !! i = Some b -> on (b_flags b) B_ERROR = false /\ b_resid b = 0;
  co_delwri : forall i b, bufs c !! i = Some b -> on (b_flags b) B_DELWRI = true -> valid b = true;
  co_clean : forall i d bn b x, d <> NODEV -> has c i d bn b x -> on (b_flags b) B_DONE = true -> on (b_flags b) B_DELWRI = false -> x = plate (disk c) d bn;
  co_busy : forall i b, bufs c !! i = Some b -> busy b = true -> valid b = true -> b_dev b = dev
}.

(** A delayed block. *)
Definition dirty c (d bn : Z) (x : words) : Prop := exists i b, has c i d bn b x /\ on (b_flags b) B_DELWRI = true.

(** What a reader finds. *)
Definition content c (bn : Z) : words :=
  match lookup_buf c dev bn with
  | Some i => match bufs c !! i, bdata c !! i with Some b, Some x => if on (b_flags b) B_DELWRI then x else plate (disk c) dev bn | _, _ => plate (disk c) dev bn end
  | None => plate (disk c) dev bn
  end.

Definition busy_blocks c : list Z := b_blkno <$> filter (fun b => busy b && valid b) (bufs c).
Definition held_blocks c : gset Z := list_to_set (busy_blocks c).
Definition empties c : nat := length (filter (fun b => busy b && negb (valid b)) (bufs c)).

Lemma has_hit c i d bn b x : has c i d bn b x -> hit d bn b = true.
Proof. intros [H1 H2 H3 H4 H5]. apply hit_true. unfold valid in H3. apply negb_true_iff in H3. done. Qed.
Lemma hit_has c Q i d bn b : wf c Q -> bufs c !! i = Some b -> hit d bn b = true -> exists x, has c i d bn b x.
Proof.
  intros Hw Hb (H1 & H2 & H3)%hit_true. destruct (lookup_lt_is_Some_2 (bdata c) i) as [x Hx]; [rewrite (wf_data _ _ _ Hw); by eapply lookup_lt_Some|].
  exists x. split; try done. unfold valid. by rewrite H3.
Qed.

Lemma lookup_has c Q i bn b x : coherent c Q -> has c i dev bn b x -> lookup_buf c dev bn = Some i.
Proof.
  intros Hc Hh. destruct (lookup_buf c dev bn) as [j|] eqn:E.
  - destruct (lookup_buf_Some _ _ _ _ E) as (b' & Hb' & Hhit & _). destruct (hit_has c Q j dev bn b' (co_wf _ _ Hc) Hb' Hhit) as [y Hy].
    f_equal. by apply (co_single _ _ Hc j i dev bn b' y b x).
  - pose proof (lookup_buf_None _ _ _ _ _ E (ha_buf _ _ _ _ _ _ Hh)) as Hn. by rewrite (has_hit _ _ _ _ _ _ Hh) in Hn.
Qed.

Lemma content_dirty c Q bn x : coherent c Q -> dirty c dev bn x -> content c bn = x.
Proof. intros Hc (i & b & Hh & Hd). unfold content. rewrite (lookup_has c Q i bn b x Hc Hh), (ha_buf _ _ _ _ _ _ Hh), (ha_data _ _ _ _ _ _ Hh). by rewrite Hd. Qed.
Lemma content_plate c Q bn : coherent c Q -> (forall x, ~ dirty c dev bn x) -> content c bn = plate (disk c) dev bn.
Proof.
  intros Hc Hn. unfold content. destruct (lookup_buf c dev bn) as [i|] eqn:E; [|done]. destruct (lookup_buf_Some _ _ _ _ E) as (b & Hb & Hhit & _).
  destruct (hit_has c Q i dev bn b (co_wf _ _ Hc) Hb Hhit) as [x Hh]. rewrite Hb, (ha_data _ _ _ _ _ _ Hh). destruct (on (b_flags b) B_DELWRI) eqn:Ed; [|done].
  destruct (Hn x). by exists i, b.
Qed.
(** A block that a buffer has, done, is what the reader finds. *)
Lemma content_has c Q i bn b x : coherent c Q -> has c i dev bn b x -> on (b_flags b) B_DONE = true -> content c bn = x.
Proof.
  intros Hc Hh Hd. destruct (on (b_flags b) B_DELWRI) eqn:Ed; [eapply content_dirty; [done|]; by exists i, b|].
  rewrite (co_clean _ _ Hc i dev bn b x dev_ok Hh Hd Ed). eapply content_plate; [done|]. intros y (j & b' & Hh' & Hd').
  assert (j = i) as -> by (by eapply (co_single _ _ Hc j i dev bn)). destruct Hh as [H1 _ _ _ _], Hh' as [H2 _ _ _ _]. congruence.
Qed.

(** Contents follow the delayed blocks and the device. *)
Lemma content_ext c Q c' Q' bn : coherent c Q -> coherent c' Q' -> (forall x, dirty c' dev bn x <-> dirty c dev bn x) -> plate (disk c') dev bn = plate (disk c) dev bn -> content c' bn = content c bn.
Proof.
  intros Hc Hc' Hd Hp. destruct (lookup_buf c dev bn) as [i|] eqn:E.
  2: { rewrite (content_plate c Q bn Hc), (content_plate c' Q' bn Hc'); [done | |]; intros x Hx; [apply Hd in Hx|]; destruct Hx as (i & b & Hh & _);
    pose proof (lookup_has c Q i bn b x Hc Hh); congruence. }
  destruct (lookup_buf_Some _ _ _ _ E) as (b & Hb & Hhit & _). destruct (hit_has c Q i dev bn b (co_wf _ _ Hc) Hb Hhit) as [x Hh].
  destruct (on (b_flags b) B_DELWRI) eqn:Ed.
  - assert (dirty c dev bn x) as Hx by (by exists i, b). rewrite (content_dirty c Q bn x Hc Hx). by apply (content_dirty c' Q' bn x Hc'), Hd.
  - assert (forall y, ~ dirty c dev bn y) as Hn.
    { intros y (j & b' & Hh' & Hd'). assert (j = i) as -> by (by eapply (co_single _ _ Hc j i dev bn)). destruct Hh as [H1 _ _ _ _], Hh' as [H2 _ _ _ _]. congruence. }
    rewrite (content_plate c Q bn Hc Hn), (content_plate c' Q' bn Hc'); [done|]. intros y Hy. by apply (Hn y), Hd.
Qed.

Lemma content_len c Q bn : coherent c Q -> length (content c bn) = 256%nat.
Proof.
  intros Hc. unfold content. destruct (lookup_buf c dev bn) as [i|]; [|apply plate_length]. destruct (bufs c !! i) as [b|]; [|apply plate_length].
  destruct (bdata c !! i) as [x|] eqn:Ex; [|apply plate_length]. destruct (on (b_flags b) B_DELWRI); [|apply plate_length].
  apply (Forall_lookup_1 _ _ _ _ (wf_words _ _ _ (co_wf _ _ Hc)) Ex).
Qed.

(** ** One buffer changed *)

Record changed c c' (i : nat) (b b' : buf) (x x' : words) : Prop := {
  ch_buf : bufs c !! i = Some b;
  ch_data : bdata c !! i = Some x;
  ch_buf' : bufs c' = <[i:=b']> (bufs c);
  ch_data' : bdata c' = <[i:=x']> (bdata c)
}.

Lemma changed_at c c' i b b' x x' : changed c c' i b b' x x' -> bufs c' !! i = Some b' /\ bdata c' !! i = Some x'.
Proof. intros [H1 H2 H3 H4]. rewrite H3, H4. split; apply list_lookup_insert_eq; by eapply lookup_lt_Some. Qed.
Lemma changed_has c c' i b b' x x' j d bn bj xj : changed c c' i b b' x x' ->
  has c' j d bn bj xj <-> j = i /\ bj = b' /\ xj = x' /\ valid b' = true /\ b_dev b' = d /\ b_blkno b' = bn \/ j <> i /\ has c j d bn bj xj.
Proof.
  intros Hch. destruct (changed_at _ _ _ _ _ _ _ Hch) as [A1 A2]. destruct Hch as [H1 H2 H3 H4]. split.
  - intros [B1 B2 B3 B4 B5]. destruct (decide (j = i)) as [->|Hne]; [left; assert (bj = b') as -> by congruence; assert (xj = x') as -> by congruence; done|].
    right. split; [done|]. rewrite H3, list_lookup_insert_ne in B1 by done. rewrite H4, list_lookup_insert_ne in B2 by done. done.
  - intros [(-> & -> & -> & B1 & B2 & B3)|(Hne & [B1 B2 B3 B4 B5])]; [done|]. split; try done; [by rewrite H3, list_lookup_insert_ne | by rewrite H4, list_lookup_insert_ne].
Qed.
Lemma changed_dirty c c' i b b' x x' d bn y : changed c c' i b b' x x' ->
  let others := exists j bj, j <> i /\ has c j d bn bj y /\ on (b_flags bj) B_DELWRI = true in
  let here (b : buf) (x : words) := on (b_flags b) B_DELWRI = true /\ valid b = true /\ b_dev b = d /\ b_blkno b = bn /\ y = x in
  (dirty c' d bn y <-> others \/ here b' x') /\ (dirty c d bn y <-> others \/ here b x).
Proof.
  intros Hch. cbv zeta. unfold dirty. setoid_rewrite (changed_has c c' i b b' x x' _ d bn _ y Hch). destruct Hch as [H1 H2 H3 H4]. split.
  - naive_solver.
  - split.
    + intros (j & bj & Hh & Hd). destruct (decide (j = i)) as [->|Hne]; [right|left; by exists j, bj]. destruct Hh as [B1 B2 B3 B4 B5]. assert (bj = b) as -> by congruence. naive_solver congruence.
    + intros [(j & bj & Hne & Hh & Hd)|(B1 & B2 & B3 & B4 & ->)]; [by exists j, bj|]. exists i, b. done.
Qed.

(** No other buffer has the block of [b]. *)
Definition alone c (i : nat) (b : buf) : Prop := valid b = true -> b_dev b <> NODEV -> forall j bj xj, j <> i -> ~ has c j (b_dev b) (b_blkno b) bj xj.

Lemma alone_same c Q i b b' : coherent c Q -> bufs c !! i = Some b -> b_dev b' = b_dev b -> b_blkno b' = b_blkno b -> valid b' = valid b -> alone c i b'.
Proof.
  intros Hc Hb E1 E2 E3 Hv Hd j bj xj Hne Hh. destruct (hit_has c Q i (b_dev b') (b_blkno b') b (co_wf _ _ Hc) Hb) as [x Hi].
  { apply hit_true. split; [done|]. split; [done|]. unfold valid in *. apply negb_true_iff. congruence. }
  apply Hne. by eapply (co_single _ _ Hc j i).
Qed.

Lemma coherent_change c Q c' Q' i b b' x x' : coherent c Q -> changed c c' i b b' x x' -> wf c' Q' -> on (b_flags b') B_ERROR = false -> b_resid b' = 0 ->
  (on (b_flags b') B_DELWRI = true -> valid b' = true) -> (busy b' = true -> valid b' = true -> b_dev b' = dev) -> alone c i b' ->
  (valid b' = true -> b_dev b' <> NODEV -> on (b_flags b') B_DONE = true -> on (b_flags b') B_DELWRI = false -> x' = plate (disk c') (b_dev b') (b_blkno b')) ->
  (forall j d bn bj xj, j <> i -> d <> NODEV -> has c j d bn bj xj -> plate (disk c') d bn = plate (disk c) d bn) -> coherent c' Q'.
Proof.
  intros [C1 C2 C3 C4 C5 C6] Hch Hw He Hres Hdw Hbd Hal Hcl Hpl. pose proof (fun j d bn bj xj => changed_has c c' i b b' x x' j d bn bj xj Hch) as Hhas.
  assert (forall j bj, bufs c' !! j = Some bj -> j = i /\ bj = b' \/ j <> i /\ bufs c !! j = Some bj) as Hl.
  { intros j bj. rewrite (ch_buf' _ _ _ _ _ _ _ Hch). intros [(<- & <- & _)|[Hne Hj]]%list_lookup_insert_Some; [by left | right; done]. }
  split; [done|..].
  - intros j k d bn bj xj bk xk Hd. rewrite !Hhas. intros [(-> & -> & -> & V & <- & <-)|[Hj H1]] [(-> & -> & -> & V2 & E1 & E2)|[Hk H2]].
    + done.
    + by destruct (Hal V Hd k bk xk Hk H2).
    + subst. by destruct (Hal V2 Hd j bj xj Hj H1).
    + by eapply C2.
  - intros j bj [[-> ->]|[_ Hj]]%Hl; [done | by eapply C3].
  - intros j bj [[-> ->]|[_ Hj]]%Hl; [done | by eapply C4].
  - intros j d bn bj xj Hd. rewrite Hhas. intros [(-> & -> & -> & V & <- & <-)|[Hj H1]]; [by apply Hcl|]. rewrite (Hpl j d bn bj xj) by done. by eapply C5.
  - intros j bj [[-> ->]|[_ Hj]]%Hl; [done | by eapply C6].
Qed.

(** Counting the busy buffers. *)
Definition bcount_block (b : buf) : list Z := if busy b && valid b then [b_blkno b] else [].
Definition bcount_empty (b : buf) : nat := if busy b && negb (valid b) then 1 else 0.
Lemma changed_busy c c' i b b' x x' : changed c c' i b b' x x' -> exists rest n,
  busy_blocks c ≡ₚ bcount_block b ++ rest /\ busy_blocks c' ≡ₚ bcount_block b' ++ rest /\ empties c = (bcount_empty b + n)%nat /\ empties c' = (bcount_empty b' + n)%nat.
Proof.
  intros [H1 H2 H3 H4]. unfold busy_blocks, empties. rewrite H3. assert (exists l1 l2, bufs c = l1 ++ b :: l2 /\ <[i:=b']> (bufs c) = l1 ++ b' :: l2) as (l1 & l2 & E1 & E2).
  { exists (take i (bufs c)), (drop (S i) (bufs c)). split; [by rewrite take_drop_middle | apply insert_take_drop; by eapply lookup_lt_Some]. }
  rewrite E2, E1. clear E1 E2.
  exists (b_blkno <$> filter (fun b => busy b && valid b) (l1 ++ l2)), (length (filter (fun b => busy b && negb (valid b)) (l1 ++ l2))).
  assert (forall z, b_blkno <$> filter (fun b => busy b && valid b) (l1 ++ z :: l2) ≡ₚ bcount_block z ++ (b_blkno <$> filter (fun b => busy b && valid b) (l1 ++ l2))) as A.
  { intros z. unfold bcount_block. rewrite !filter_app, filter_cons. destruct (busy z && valid z); cbn; rewrite !fmap_app; [cbn; solve_Permutation | done]. }
  assert (forall z, length (filter (fun b => busy b && negb (valid b)) (l1 ++ z :: l2)) = (bcount_empty z + length (filter (fun b => busy b && negb (valid b)) (l1 ++ l2)))%nat) as B.
  { intros z. unfold bcount_empty. rewrite !filter_app, filter_cons, !length_app.
    destruct (busy z && negb (valid z)); [rewrite (decide_True (P := Is_true true)) by done; cbn [length]; lia | rewrite (decide_False (P := Is_true false)) by (by intros []); lia]. }
  split; [apply A|]. split; [apply A|]. split; apply B.
Qed.

Lemma NoDup_filter_map {A B} (P : A -> Prop) `{forall x, Decision (P x)} (f : A -> B) (l : list A) :
  (forall i j x y, l !! i = Some x -> l !! j = Some y -> P x -> P y -> f x = f y -> i = j) -> NoDup (f <$> filter P l).
Proof.
  induction l as [|z l IH]; intros Hu; [constructor|].
  assert (NoDup (f <$> filter P l)) as Hn by (apply IH; intros i j x y Hi Hj Hx Hy E; assert (S i = S j) by (by apply (Hu (S i) (S j) x y)); lia).
  rewrite filter_cons. case_decide as Hz; [|done]. rewrite fmap_cons. apply NoDup_cons. split; [|done].
  intros (y & E & [Hy Hin]%list_elem_of_filter)%list_elem_of_fmap. apply list_elem_of_lookup in Hin as [j Hj]. pose proof (Hu 0%nat (S j) z y eq_refl Hj Hz Hy E). lia.
Qed.

Lemma busy_nodup c Q : coherent c Q -> NoDup (busy_blocks c).
Proof.
  intros Hc. apply NoDup_filter_map. intros i j x y Hi Hj [Hx1 Hx2]%Is_true_true%andb_true_iff [Hy1 Hy2]%Is_true_true%andb_true_iff E.
  pose proof (co_busy _ _ Hc i x Hi Hx1 Hx2) as Ex. pose proof (co_busy _ _ Hc j y Hj Hy1 Hy2) as Ey.
  destruct (hit_has c Q i dev (b_blkno x) x (co_wf _ _ Hc) Hi) as [dx Hhx]; [apply hit_true; unfold valid in Hx2; by apply negb_true_iff in Hx2|].
  destruct (hit_has c Q j dev (b_blkno x) y (co_wf _ _ Hc) Hj) as [dy Hhy]; [apply hit_true; unfold valid in Hy2; by apply negb_true_iff in Hy2|].
  by eapply (co_single _ _ Hc i j).
Qed.
Lemma held_size c Q : coherent c Q -> size (held_blocks c) = length (busy_blocks c).
Proof. intros Hc. unfold held_blocks. by rewrite size_list_to_set by (by eapply busy_nodup). Qed.

(** Every busy buffer is counted once. *)
Lemma busy_count c Q : coherent c Q -> (size (held_blocks c) + empties c < length (bufs c))%nat -> exists i, queued Q i.
Proof.
  intros Hc. rewrite (held_size c Q Hc). unfold busy_blocks, empties. rewrite length_fmap. intros Hlt.
  destruct (decide (Forall (fun b => busy b = true) (bufs c))) as [Hall|Hex].
  - exfalso. assert (forall l, Forall (fun b => busy b = true) l -> (length (filter (fun b => busy b && valid b) l) + length (filter (fun b => busy b && negb (valid b)) l) = length l)%nat) as H.
    { induction 1 as [|b l Hb _ IH]; [done|]. rewrite !filter_cons, Hb. cbn [andb]. destruct (valid b); cbn [negb];
        rewrite (decide_True (P := Is_true true)), (decide_False (P := Is_true false)) by (done || intros []); cbn [length]; lia. }
    specialize (H _ Hall). lia.
  - apply not_Forall_Exists in Hex; [|intros b; apply _]. apply Exists_exists in Hex as (b & Hin & Hb). apply list_elem_of_lookup in Hin as [i Hi]. exists i.
    apply (bo_busy _ _ _ (wf_buf _ _ _ (co_wf _ _ Hc) i b ltac:(done) Hi)). by apply not_true_is_false.
Qed.

(** ** The operations on a coherent cache *)

(** What readers find does not change. *)
Definition quiet c c' : Prop := forall a, content c' a = content c a.

Lemma content_clean c Q c' Q' i b b' x x' : coherent c Q -> coherent c' Q' -> changed c c' i b b' x x' -> on (b_flags b) B_DELWRI = false -> on (b_flags b') B_DELWRI = false ->
  (forall bn, plate (disk c') dev bn = plate (disk c) dev bn) -> quiet c c'.
Proof.
  intros Hc Hc' Hch H1 H2 Hp a. apply (content_ext c Q c' Q'); try done. intros y. destruct (changed_dirty c c' i b b' x x' dev a y Hch) as [-> ->]. naive_solver congruence.
Qed.
Lemma content_flags c Q c' Q' i b b' x : coherent c Q -> coherent c' Q' -> changed c c' i b b' x x -> on (b_flags b') B_DELWRI = on (b_flags b) B_DELWRI ->
  valid b' = valid b -> b_dev b' = b_dev b -> b_blkno b' = b_blkno b -> (forall bn, plate (disk c') dev bn = plate (disk c) dev bn) -> quiet c c'.
Proof.
  intros Hc Hc' Hch H1 H2 H3 H4 Hp a. apply (content_ext c Q c' Q'); try done. intros y. destruct (changed_dirty c c' i b b' x x dev a y Hch) as [-> ->]. by rewrite H1, H2, H3, H4.
Qed.

(** The blocks held, and the empty buffers, before and after. *)
Definition keeps_held c c' : Prop := held_blocks c' = held_blocks c /\ empties c' = empties c.

Lemma held_same_count c c' i b b' x x' : changed c c' i b b' x x' -> bcount_block b' = bcount_block b -> bcount_empty b' = bcount_empty b -> keeps_held c c'.
Proof.
  intros Hch E1 E2. destruct (changed_busy _ _ _ _ _ _ _ Hch) as (rest & n & P1 & P2 & N1 & N2). split; [|congruence].
  unfold held_blocks. apply list_to_set_perm_L. rewrite P2, P1. by rewrite E1.
Qed.
Lemma held_more c c' i b b' x x' bn : changed c c' i b b' x x' -> bcount_block b' = [bn] -> bcount_block b = [] -> bcount_empty b' = bcount_empty b ->
  held_blocks c' = {[bn]} ∪ held_blocks c /\ empties c' = empties c.
Proof.
  intros Hch E1 E2 E3. destruct (changed_busy _ _ _ _ _ _ _ Hch) as (rest & n & P1 & P2 & N1 & N2). split; [|congruence].
  unfold held_blocks. rewrite (list_to_set_perm_L _ _ P2), (list_to_set_perm_L _ _ P1), E1, E2. cbn [app list_to_set]. done.
Qed.
Lemma held_less c c' Q i b b' x x' bn : coherent c Q -> changed c c' i b b' x x' -> bcount_block b = [bn] -> bcount_block b' = [] -> bcount_empty b' = bcount_empty b ->
  held_blocks c' = held_blocks c ∖ {[bn]} /\ empties c' = empties c.
Proof.
  intros Hc Hch E1 E2 E3. destruct (changed_busy _ _ _ _ _ _ _ Hch) as (rest & n & P1 & P2 & N1 & N2). split; [|congruence].
  pose proof (busy_nodup c Q Hc) as Hnd. rewrite P1, E1 in Hnd. apply NoDup_cons in Hnd as [Hn _].
  unfold held_blocks. rewrite (list_to_set_perm_L _ _ P2), (list_to_set_perm_L _ _ P1), E1, E2. cbn [app list_to_set].
  apply set_eq. intros z. rewrite elem_of_difference, elem_of_union, elem_of_singleton, elem_of_list_to_set. split; [|tauto].
  intros Hz. split; [by right|]. intros ->. done.
Qed.

Lemma released_flags b m : on (b_flags b) B_LOCKED = false -> Z.land (Z.lnot (Z.lor B_WANTED (Z.lor B_BUSY (Z.lor B_ASYNC B_AGE)))) m = m -> on (b_flags (released b)) m = on (b_flags b) m.
Proof. intros Hl Hm. unfold released, unbusy. cbn [with_flags b_flags]. rewrite on_and_not, Hm. by apply disowned_flags. Qed.
Lemma released_name b : on (b_flags b) B_ERROR = false -> b_dev (released b) = b_dev b /\ b_blkno (released b) = b_blkno b /\ b_resid (released b) = b_resid b.
Proof. intros He. unfold released, unbusy, disowned. by rewrite He. Qed.
Lemma released_free b : busy (released b) = false.
Proof. unfold busy, released, unbusy. cbn [with_flags b_flags]. by flags. Qed.

Lemma same_changed c c' i b b' x : bufs c !! i = Some b -> bdata c !! i = Some x -> bufs c' = <[i:=b']> (bufs c) -> bdata c' = bdata c -> changed c c' i b b' x x.
Proof. intros H1 H2 H3 H4. split; try done. by rewrite list_insert_id. Qed.

(** A delayed free buffer written: the device now has what a reader found. *)
Lemma flushed_coherent c Q i b x c' Q' b' : coherent c Q -> queued Q i -> bufs c !! i = Some b -> bdata c !! i = Some x -> on (b_flags b) B_DELWRI = true ->
  flushed c Q i b (fst (disk_write c b x)) (snd (disk_write c b x)) c' Q' b' -> coherent c' Q' /\ quiet c c' /\ keeps_held c c'.
Proof.
  intros Hc Hq Hb Hx Hd [F1 F2 F3 F4 F5 [R1 R2 R3 R4 R5 R6 R7] F7]. pose proof (same_changed c c' i b b' x Hb Hx F3 F4) as Hch.
  pose proof (Forall_lookup_1 _ _ _ _ (wf_words _ _ _ (co_wf _ _ Hc)) Hx) as Hlen. cbv beta in Hlen.
  unfold disk_write in *. rewrite write_fine in * by done. cbn [x_error x_resid] in *. pose proof (wf_buf _ _ _ (co_wf _ _ Hc) i b ltac:(done) Hb) as [A1 A2 A3 A4 A5 A6]. destruct (A4 Hd) as (_ & _ & Hdev).
  pose proof (co_delwri _ _ Hc i b Hb Hd) as Hv. assert (valid b' = valid b) as Ev by (unfold valid; by rewrite R4).
  assert (busy b = false) as Hnb by (by apply A5). assert (busy b' = false) as Hnb'.
  { pose proof (wf_buf _ _ _ F1 i b' ltac:(done) (proj1 (changed_at _ _ _ _ _ _ _ Hch))) as [_ _ _ _ B5 _]. by apply B5, F2. }
  destruct (hit_has c Q i (b_dev b) (b_blkno b) b (co_wf _ _ Hc) Hb) as [x0 Hhas]; [apply hit_true; unfold valid in Hv; by apply negb_true_iff in Hv|].
  assert (x0 = x) as -> by (pose proof (ha_data _ _ _ _ _ _ Hhas); congruence).
  assert (coherent c' Q') as Hc'.
  { apply (coherent_change c Q c' Q' i b b' x x Hc Hch F1); [done | done | congruence | congruence | by apply (alone_same c Q i b) | |].
    - intros _ _ _ _. rewrite F5, R6, R5, write_keeps by done. by rewrite decide_True by done.
    - intros j d bn bj xj Hne Hd' Hh. rewrite F5, write_keeps by done. rewrite decide_False; [done|]. intros [-> ->]. apply Hne. by eapply (co_single _ _ Hc j i). }
  split; [done|]. split; [|by apply (held_same_count _ _ _ _ _ _ _ Hch); unfold bcount_block, bcount_empty; rewrite Hnb, Hnb'].
  intros a. destruct (decide (b_dev b = dev /\ a = b_blkno b)) as [[Ed ->]|Hne].
  - rewrite (content_dirty c Q _ x Hc) by (exists i, b; rewrite <- Ed; done). rewrite (content_has c' Q' i (b_blkno b) b' x Hc'); [done| |done].
    apply (changed_has _ _ _ _ _ _ _ i dev (b_blkno b) b' x Hch). left. repeat split; congruence.
  - apply (content_ext c Q c' Q' a Hc Hc'); [|rewrite F5, write_keeps by done; rewrite decide_False by (intros [? ?]; apply Hne; split; congruence); done].
    intros y. destruct (changed_dirty c c' i b b' x x dev a y Hch) as [-> ->]. split; (intros [H|(H1 & H2 & H3 & H4 & H5)]; [by left|]); exfalso; [congruence | apply Hne; split; congruence].
Qed.

Lemma cleans_coherent c Q c' Q' : cleans c Q c' Q' -> coherent c Q -> coherent c' Q' /\ quiet c c' /\ keeps_held c c'.
Proof.
  induction 1 as [c Q|c Q i b x c1 Q1 b1 c2 Q2 _ Hq Hb Hx Hd Hf _ IH]; intros Hc; [done|].
  destruct (flushed_coherent c Q i b x c1 Q1 b1 Hc Hq Hb Hx Hd Hf) as (Hc1 & Hq1 & [H1 H2]). destruct (IH Hc1) as (Hc2 & Hq2 & [H3 H4]).
  split; [done|]. split; [intros a; by rewrite Hq2, Hq1 | split; congruence].
Qed.
Lemma flushes_coherent d c Q e c' Q' e' : flushes d c Q e c' Q' e' -> coherent c Q -> coherent c' Q' /\ quiet c c' /\ keeps_held c c' /\ e' = e.
Proof.
  induction 1 as [c Q e|c Q e i b x c1 Q1 b1 c2 Q2 e2 Hw Hq Hb Hx Hd Hf _ IH]; intros Hc; [done|]. apply andb_true_iff in Hd as [Hd _].
  destruct (flushed_coherent c Q i b x c1 Q1 b1 Hc Hq Hb Hx Hd Hf) as (Hc1 & Hq1 & [H1 H2]). destruct (IH Hc1) as (Hc2 & Hq2 & [H3 H4] & ->).
  split; [done|]. split; [intros a; by rewrite Hq2, Hq1|]. split; [split; congruence|]. unfold disk_write.
  rewrite write_fine; [done|]. exact (Forall_lookup_1 _ _ _ _ (wf_words _ _ _ Hw) Hx).
Qed.

Lemma flushed_length c Q bp b k r c' Q' b' : flushed c Q bp b k r c' Q' b' -> length (bufs c') = length (bufs c).
Proof. intros H. by rewrite (fl_bufs _ _ _ _ _ _ _ _ _ H), length_insert. Qed.
Lemma cleans_length c Q c' Q' : cleans c Q c' Q' -> length (bufs c') = length (bufs c).
Proof. induction 1 as [|c Q i b x c1 Q1 b1 c2 Q2 _ _ _ _ _ Hf _ IH]; [done|]. by rewrite IH, (flushed_length _ _ _ _ _ _ _ _ _ Hf). Qed.

(** The buffer of a block got for the caller. *)
Record obtained c (bn : Z) c' (i : nat) : Prop := {
  ob_coherent : exists Q', coherent c' Q';
  ob_quiet : quiet c c';
  ob_held : held_blocks c' = {[bn]} ∪ held_blocks c;
  ob_empties : empties c' = empties c;
  ob_length : length (bufs c') = length (bufs c);
  ob_has : exists b x, has c' i dev bn b x /\ busy b = true
}.

Lemma mine_held_block c Q i bn b x : coherent c Q -> has c i dev bn b x -> busy b = true -> bn ∈ held_blocks c.
Proof.
  intros Hc [H1 H2 H3 H4 H5] Hb. unfold held_blocks. apply elem_of_list_to_set, list_elem_of_fmap. exists b. split; [done|].
  apply list_elem_of_filter. split; [by rewrite Hb, H3 | by eapply list_elem_of_lookup_2].
Qed.

Lemma hit_obtained c Q i bn b c1 Q1 : coherent c Q -> bufs c !! i = Some b -> hit dev bn b = true -> busy b = false -> held c1 Q1 i (with_flags b (Z.lor (b_flags b) B_BUSY)) ->
  bufs c1 = <[i:=with_flags b (Z.lor (b_flags b) B_BUSY)]> (bufs c) -> bdata c1 = bdata c -> disk c1 = disk c -> obtained c bn c1 i.
Proof.
  intros Hc Hb Hhit Hfree Hh B1 D1 K1. destruct (hit_has c Q i dev bn b (co_wf _ _ Hc) Hb Hhit) as [x Hx]. pose proof (wf_buf _ _ _ (co_wf _ _ Hc) i b ltac:(done) Hb) as [A1 A2 A3 A4 A5 A6].
  set (b1 := with_flags b _) in *. pose proof (same_changed c c1 i b b1 x Hb (ha_data _ _ _ _ _ _ Hx) B1 D1) as Hch. pose proof Hx as [_ _ Hv Hdev Hbn].
  assert (valid b1 = valid b) as Ev by (unfold valid; cbn; by flags). assert (on (b_flags b1) B_DELWRI = on (b_flags b) B_DELWRI) as Edw by (cbn; by flags).
  assert (busy b1 = true) as Eb by (unfold busy; cbn; by flags).
  assert (wf c1 Q1) as Hw by (apply (busy_wf c1 Q1 i b1 Hh Eb); cbn [b1 with_flags b_flags b_dev]; flags; done).
  assert (bcount_block b1 = [bn] /\ bcount_block b = [] /\ bcount_empty b1 = bcount_empty b) as (N1 & N2 & N3).
  { unfold bcount_block, bcount_empty. rewrite Eb, Ev, Hfree, Hv. rewrite <- Hbn. done. }
  assert (coherent c1 Q1) as Hc1.
  { apply (coherent_change c Q c1 Q1 i b b1 x x Hc Hch Hw); [cbn; flags; by apply (co_error _ _ Hc i) | by apply (co_error _ _ Hc i b) | congruence | done | by apply (alone_same c Q i b) | |].
    - intros _ H1 H2 H3. rewrite K1. apply (co_clean _ _ Hc i _ _ b x H1); [destruct Hx; by split | revert H2; cbn; by flags | congruence].
    - intros j d n bj xj _ _ _. by rewrite K1. }
  split.
  - by exists Q1.
  - apply (content_flags c Q c1 Q1 i b b1 x Hc Hc1 Hch); try done. intros n. by rewrite K1.
  - by apply (held_more c c1 i b b1 x x bn Hch).
  - by apply (held_more c c1 i b b1 x x bn Hch).
  - by rewrite B1, length_insert.
  - exists b1, x. split; [|done]. apply (changed_has _ _ _ _ _ _ _ i dev bn b1 x Hch). left. do 3 (split; [done|]). split; [by rewrite Ev | by split].
Qed.

Lemma fresh_obtained c Q i bn b c1 Q1 : coherent c Q -> lookup_buf c dev bn = None -> bufs c !! i = Some b -> queued Q i -> on (b_flags b) B_DELWRI = false -> held c1 Q1 i (fresh b dev bn) ->
  bufs c1 = <[i:=fresh b dev bn]> (bufs c) -> bdata c1 = bdata c -> disk c1 = disk c -> obtained c bn c1 i.
Proof.
  intros Hc Hl Hb Hq Hd Hh B1 D1 K1. pose proof (wf_buf _ _ _ (co_wf _ _ Hc) i b ltac:(done) Hb) as [A1 A2 A3 A4 A5 A6].
  destruct (lookup_lt_is_Some_2 (bdata c) i) as [x Hx]; [rewrite (wf_data _ _ _ (co_wf _ _ Hc)); by eapply lookup_lt_Some|].
  set (b1 := fresh b dev bn) in *. pose proof (same_changed c c1 i b b1 x Hb Hx B1 D1) as Hch.
  assert (busy b = false) as Hfree by (by apply A5). assert (wf c1 Q1) as Hw by (by apply (busy_wf c1 Q1 i b1 Hh)).
  assert (coherent c1 Q1) as Hc1.
  { apply (coherent_change c Q c1 Q1 i b b1 x x Hc Hch Hw); try done.
    - by apply (co_error _ _ Hc i b).
    - intros _ _ j bj xj Hne Hh'. change (has c j dev bn bj xj) in Hh'. pose proof (lookup_buf_None _ _ _ _ _ Hl (ha_buf _ _ _ _ _ _ Hh')) as H. by rewrite (has_hit _ _ _ _ _ _ Hh') in H.
    - intros j d n bj xj _ _ _. by rewrite K1. }
  split.
  - by exists Q1.
  - apply (content_clean c Q c1 Q1 i b b1 x x Hc Hc1 Hch); try done. intros n. by rewrite K1.
  - apply (held_more c c1 i b b1 x x bn Hch); unfold bcount_block, bcount_empty; rewrite ?Hfree; done.
  - apply (held_more c c1 i b b1 x x bn Hch); unfold bcount_block, bcount_empty; rewrite ?Hfree; done.
  - by rewrite B1, length_insert.
  - exists b1, x. split; [|done]. apply (changed_has _ _ _ _ _ _ _ i dev bn b1 x Hch). by left.
Qed.

Lemma cleans_no_hit c Q c' Q' bn : cleans c Q c' Q' -> lookup_buf c dev bn = None -> lookup_buf c' dev bn = None.
Proof.
  induction 1 as [|c Q i b x c1 Q1 b1 c2 Q2 _ _ Hb _ _ [F1 F2 F3 F4 F5 [R1 R2 R3 R4 R5 R6 R7] F7] _ IH]; [done|]. intros Hl. apply IH.
  destruct (lookup_buf c1 dev bn) as [j|] eqn:E; [|done]. destruct (lookup_buf_Some _ _ _ _ E) as (bj & Hbj & (H1 & H2 & H3)%hit_true & _).
  rewrite F3 in Hbj. apply list_lookup_insert_Some in Hbj as [(<- & <- & _)|[_ Hbj]].
  - pose proof (lookup_buf_None _ _ _ _ _ Hl Hb) as Hn. assert (hit dev bn b = true); [|congruence]. apply hit_true. rewrite R6 in H2. destruct (x_error _); [by destruct dev_ok|]. repeat split; congruence.
  - pose proof (lookup_buf_None _ _ _ _ _ Hl Hbj) as Hn. assert (hit dev bn bj = true) by (by apply hit_true). congruence.
Qed.

Lemma obtained_after c c1 bn c' i : quiet c c1 -> keeps_held c c1 -> length (bufs c1) = length (bufs c) -> obtained c1 bn c' i -> obtained c bn c' i.
Proof.
  intros Hq [H1 H2] Hl [O1 O2 O3 O4 O5 O6]. split; try done; [intros a; by rewrite O2, Hq | by rewrite O3, H1 | by rewrite O4, H2 | by rewrite O5, Hl].
Qed.

(** [getblk] gives the buffer, or sleeps because the block is held or because
    every buffer is. *)
Lemma getblk_coherent c Q bn : coherent c Q ->
  (exists c' i, getblk c dev bn = Ok (c', Held i) /\ obtained c bn c' i) \/
  (exists c' g, getblk c dev bn = Ok (c', g) /\ (forall i, g <> Held i) /\ (bn ∈ held_blocks c \/ forall i, ~ queued Q i)).
Proof.
  intros Hc. pose proof (co_wf _ _ Hc) as Hw. destruct (lookup_buf c dev bn) as [i|] eqn:El.
  - destruct (lookup_buf_Some _ _ _ _ El) as (b & Hb & Hhit & _). destruct (getblk_hit_ok c Q dev bn i Hw El) as (b' & Hb' & H). assert (b' = b) as -> by congruence.
    destruct (hit_has c Q i dev bn b Hw Hb Hhit) as [x Hx]. destruct H as [(Hbusy & E)|(Hbusy & Hq & c' & E & En)].
    + right. eexists _, _. split; [done|]. split; [done|]. left. by eapply mine_held_block.
    + left. destruct (notavail_ok c Q i b Hw Hq Hb) as (c1 & Q1 & E1 & Hh & HQ & B1 & D1 & K1 & _). assert (c1 = c') as -> by congruence.
      exists c', i. split; [done|]. by eapply hit_obtained.
  - unfold getblk. rewrite El. destruct (getblk_miss_ok c Q dev bn Hw) as [(c1 & Q1 & i & b & c' & Q' & E & Hcl & Hw1 & Hn & Hb & Hd & Hh & HQ & B1 & D1 & K1 & _)|[E Hn]]; rewrite E; [left|right].
    + destruct (cleans_coherent _ _ _ _ Hcl Hc) as (Hc1 & Hq1 & Hk1). exists c', i. split; [done|].
      apply (obtained_after c c1); [done | done | by eapply cleans_length|]. eapply fresh_obtained; try done; [by eapply cleans_no_hit | by apply next_free_queued].
    + eexists _, _. split; [done|]. split; [done|]. by right.
Qed.

(** A buffer that the caller holds with a block of the device. *)
Lemma mine_held_ok c Q i bn b x : coherent c Q -> has c i dev bn b x -> busy b = true -> held c Q i b /\ buf_ok Q i b.
Proof. intros Hc [H1 H2 H3 H4 H5] Hb. split; [by apply held_busy; [apply Hc|..] | by apply (wf_buf _ _ _ (co_wf _ _ Hc))]. Qed.

(** [fill]: the buffer has what a reader finds. *)
Lemma fill_coherent c Q i bn b x : coherent c Q -> has c i dev bn b x -> busy b = true ->
  exists c' b', fill c i = Ok c' /\ coherent c' Q /\ quiet c c' /\ keeps_held c c' /\ length (bufs c') = length (bufs c) /\ has c' i dev bn b' (content c bn) /\ busy b' = true.
Proof.
  intros Hc Hh Hb. destruct (mine_held_ok c Q i bn b x Hc Hh Hb) as [Hhd [A1 A2 A3 A4 A5 A6]]. pose proof Hh as [H1 H2 H3 H4 H5].
  assert (b_dev b <> NODEV) as Hdev by congruence. destruct (fill_held c Q i b x Hhd H2 Hdev A3) as [(Hd & E)|(Hd & c' & E & Hh' & [M1 M2 M3] & _)].
  - assert (on (b_flags b) B_DONE = true) as Hdone.
    { rewrite on_or_r in Hd. destruct (on (b_flags b) B_DELWRI) eqn:Ed; [by apply A4 | by rewrite orb_false_r in Hd]. }
    exists c, b. split; [done|]. split; [done|]. split; [done|]. split; [done|]. split; [done|]. split; [|done]. by rewrite (content_has c Q i bn b x Hc Hh Hdone).
  - rewrite on_or_r in Hd. apply orb_false_iff in Hd as [Hd1 Hd2]. rewrite H4, H5 in Hh', M1, M2, M3. rewrite read_fine in Hh', M1, M2. cbn [x_data] in M2.
    set (b' := read_done b _) in *. exists c', b'. split; [done|].
    assert (forall m, on m B_ERROR = false -> on m B_DONE = false -> on m B_WANTED = false -> on m B_READ = false -> Z.land (Z.lnot B_WANTED) m = m -> on (b_flags b') m = on (b_flags b) m) as Hf.
    { intros m F1 F2 F3 F4 F5. unfold b', read_done. cbn [unwanted with_flags b_flags]. rewrite on_and_not, F5, transferred_flags by done. cbn [read_flags with_bcount with_flags b_flags].
      rewrite on_or. replace (on B_READ m) with (on m B_READ) by (unfold on; by rewrite Z.land_comm). by rewrite F4, orb_false_r. }
    assert (valid b' = valid b /\ busy b' = busy b /\ on (b_flags b') B_DELWRI = false) as (V & B & W) by (unfold valid, busy; rewrite !Hf by done; done).
    assert (changed c c' i b b' x (plate (disk c) dev bn)) as Hch by (by split).
    assert (wf c' Q) as Hw by (apply (busy_wf c' Q i b' Hh'); [unfold busy in *; congruence | by rewrite Hf | congruence]).
    assert (forall d n, plate (disk c') d n = plate (disk c) d n) as Hpl by (intros d n; rewrite M3; apply read_keeps).
    assert (coherent c' Q) as Hc'.
    { apply (coherent_change c Q c' Q i b b' x (plate (disk c) dev bn) Hc Hch Hw); try done.
      - unfold b', read_done. cbn [unwanted with_flags b_flags]. flags. rewrite transferred_error; [done|]. cbn [read_flags with_bcount with_flags b_flags]. flags. by apply (co_error _ _ Hc i b).
      - congruence.
      - by apply (alone_same c Q i b).
      - intros _ _ _ _. change (plate (disk c) dev bn = plate (disk c') (b_dev b) (b_blkno b)). by rewrite Hpl, H4, H5. }
    assert (quiet c c') as Hq by (eapply content_clean; done).
    split; [done|]. split; [done|]. split; [apply (held_same_count _ _ _ _ _ _ _ Hch); unfold bcount_block, bcount_empty; by rewrite V, B|].
    split; [by rewrite M1, length_insert|]. split; [|congruence].
    assert (has c' i dev bn b' (plate (disk c) dev bn)) as Hi by (apply (changed_has _ _ _ _ _ _ _ i dev bn b' _ Hch); left; do 3 (split; [done|]); split; [by rewrite V | by split]).
    assert (content c bn = plate (disk c) dev bn) as ->; [|done]. rewrite <- (Hq bn). apply (content_has c' Q i bn b' _ Hc' Hi).
    unfold b', read_done. cbn [unwanted with_flags b_flags]. flags. apply transferred_done.
Qed.

(** A held buffer given back. *)
Record gave c (bn : Z) c' : Prop := {
  gv_coherent : exists Q', coherent c' Q';
  gv_held : held_blocks c' = held_blocks c ∖ {[bn]};
  gv_empties : empties c' = empties c;
  gv_length : length (bufs c') = length (bufs c)
}.
Lemma gave_changed c Q c' Q' i bn b b' x x' : coherent c Q -> coherent c' Q' -> changed c c' i b b' x x' -> has c i dev bn b x -> busy b = true -> busy b' = false -> gave c bn c'.
Proof.
  intros Hc Hc' Hch [H1 H2 H3 H4 H5] Hb Hb'.
  assert (bcount_block b = [bn] /\ bcount_block b' = [] /\ bcount_empty b' = bcount_empty b) as (N1 & N2 & N3) by (unfold bcount_block, bcount_empty; rewrite Hb, Hb', H3; rewrite <- H5; done).
  destruct (held_less c c' Q i b b' x x' bn Hc Hch N1 N2 N3) as [E1 E2]. split; [by exists Q' | done | done | by rewrite (ch_buf' _ _ _ _ _ _ _ Hch), length_insert].
Qed.

Lemma brelse_coherent c Q i bn b x : coherent c Q -> has c i dev bn b x -> busy b = true -> exists c', brelse c i = Ok c' /\ gave c bn c' /\ quiet c c'.
Proof.
  intros Hc Hh Hb. destruct (mine_held_ok c Q i bn b x Hc Hh Hb) as [Hhd [A1 A2 A3 A4 A5 A6]]. pose proof Hh as [H1 H2 H3 H4 H5]. destruct (co_error _ _ Hc i b H1) as [He Hr].
  destruct (brelse_held c Q i b Hhd A4) as (c' & E & Hw & B1 & D1 & K1 & _). exists c'. split; [done|].
  pose proof (same_changed c c' i b (released b) x H1 H2 B1 D1) as Hch. destruct (released_name b He) as (N1 & N2 & N3).
  assert (valid (released b) = valid b) as V by (unfold valid; by rewrite released_flags). assert (on (b_flags (released b)) B_DELWRI = on (b_flags b) B_DELWRI) as W by (by rewrite released_flags).
  assert (coherent c' (back Q b i)) as Hc'.
  { apply (coherent_change c Q c' (back Q b i) i b (released b) x x Hc Hch Hw); [by rewrite released_flags | congruence | by rewrite W, V; intros _ | intros Hbs; by rewrite released_free in Hbs | by apply (alone_same c Q i b) | |].
    - rewrite N1, N2, K1, W. rewrite released_flags by done. intros _ Hd Hdone Hdw. apply (co_clean _ _ Hc i _ _ b x Hd); [by split | done | done].
    - intros j d n bj xj _ _ _. by rewrite K1. }
  split; [by apply (gave_changed c Q c' (back Q b i) i bn b (released b) x x); try done; apply released_free|].
  apply (content_flags c Q c' (back Q b i) i b (released b) x Hc Hc' Hch W V N1 N2). intros n. by rewrite K1.
Qed.

(** Contents when one block gets new words. *)
Definition sets c c' (bn : Z) (x : words) : Prop := forall a, content c' a = if decide (a = bn) then x else content c a.

Lemma store_has c i bn b x y : has c i dev bn b x -> has (store c i y) i dev bn b y.
Proof. intros [H1 H2 H3 H4 H5]. split; try done. cbn. apply list_lookup_insert_eq. by eapply lookup_lt_Some. Qed.
Lemma store_held c Q i b y : held c Q i b -> length y = 256%nat -> held (store c i y) Q i b.
Proof.
  intros Hh Hy. apply (held_same c); try done; cbn; [by rewrite length_insert|]. apply Forall_insert; [apply (wf_words _ _ _ (hd_wf _ _ _ _ Hh)) | done].
Qed.

Lemma bwrite_coherent c Q i bn b x y : coherent c Q -> has c i dev bn b x -> busy b = true -> length y = 256%nat ->
  exists c', bwrite (store c i y) i = Ok (c', 0) /\ gave c bn c' /\ sets c c' bn y.
Proof.
  intros Hc Hh Hb Hy. destruct (mine_held_ok c Q i bn b x Hc Hh Hb) as [Hhd [A1 A2 A3 A4 A5 A6]]. pose proof Hh as [H1 H2 H3 H4 H5].
  destruct (bwrite_held (store c i y) Q i b y (store_held c Q i b y Hhd Hy)) as (c' & Q' & b' & E & [W1 W2 W3 W4 W5 W6 [R1 R2 R3 R4 R5 R6 R7] W8]); [apply (store_has c i bn b x y Hh) | congruence|].
  cbn [disk store set_io] in E, W5, R3, R6, R7. rewrite H4, H5 in *. rewrite write_fine in * by done. cbn [x_error x_resid] in *. unfold write_error in E. rewrite A3 in E. cbn [x_error] in E.
  exists c'. split; [done|]. assert (changed c c' i b b' x y) as Hch by (by split; [..|rewrite W4]).
  assert (valid b' = valid b) as V by (unfold valid; by rewrite R4). assert (busy b' = false) as Hnb.
  { pose proof (wf_buf _ _ _ W1 i b' ltac:(done) (proj1 (changed_at _ _ _ _ _ _ _ Hch))) as [_ _ _ _ B5 _]. apply B5, W2. by right. }
  assert (forall d n, plate (disk c') d n = if decide (d = dev /\ n = bn) then y else plate (disk c) d n) as Hpl by (intros d n; rewrite W5; by apply write_keeps).
  assert (coherent c' Q') as Hc'.
  { apply (coherent_change c Q c' Q' i b b' x y Hc Hch W1); [done | done | congruence | congruence | apply (alone_same c Q i b); congruence | |].
    - intros _ _ _ _. rewrite Hpl, R6, R5, decide_True by done. done.
    - intros j d n bj xj Hne Hd Hj. rewrite Hpl, decide_False; [done|]. intros [-> ->]. apply Hne. by eapply (co_single _ _ Hc j i). }
  split; [by apply (gave_changed c Q c' Q' i bn b b' x y)|]. intros a. case_decide as Ha.
  - subst a. apply (content_has c' Q' i bn b' y Hc'); [|done]. apply (changed_has _ _ _ _ _ _ _ i dev bn b' y Hch). left. repeat split; congruence.
  - apply (content_ext c Q c' Q' a Hc Hc'); [|rewrite Hpl, decide_False; [done|]; by intros []]. intros z. destruct (changed_dirty c c' i b b' x y dev a z Hch) as [-> ->].
    split; (intros [H|(F1 & F2 & F3 & F4 & F5)]; [by left|]); exfalso; congruence.
Qed.

Lemma bdwrite_coherent c Q i bn b x y : coherent c Q -> has c i dev bn b x -> busy b = true -> length y = 256%nat ->
  exists c', bdwrite (store c i y) i = Ok c' /\ gave c bn c' /\ sets c c' bn y.
Proof.
  intros Hc Hh Hb Hy. destruct (mine_held_ok c Q i bn b x Hc Hh Hb) as [Hhd [A1 A2 A3 A4 A5 A6]]. pose proof Hh as [H1 H2 H3 H4 H5]. destruct (co_error _ _ Hc i b H1) as [He Hr].
  destruct (bdwrite_held (store c i y) Q i b (store_held c Q i b y Hhd Hy)) as (c' & Q' & E & W1 & W2 & B1 & D1 & K1 & _); [congruence | done | apply no_tape|].
  exists c'. split; [done|]. cbn [bufs bdata disk store set_io] in B1, D1, K1. set (b1 := with_flags b _) in B1.
  assert (on (b_flags b1) B_LOCKED = false) as L1 by (cbn; by flags). assert (on (b_flags b1) B_ERROR = false) as E1 by (cbn; by flags). destruct (released_name b1 E1) as (N1 & N2 & N3).
  assert (changed c c' i b (released b1) x y) as Hch by (by split). assert (valid (released b1) = true) as V by (unfold valid; rewrite released_flags by done; rewrite <- H3; unfold valid; cbn; by flags).
  assert (on (b_flags (released b1)) B_DELWRI = true) as Hdw by (rewrite released_flags by done; cbn; by flags).
  assert (coherent c' Q') as Hc'.
  { apply (coherent_change c Q c' Q' i b (released b1) x y Hc Hch W1); [by rewrite released_flags | rewrite N3; done | done | intros Hbs; by rewrite released_free in Hbs | by apply (alone_same c Q i b); [..|congruence] | congruence |].
    intros j d n bj xj _ _ _. by rewrite K1. }
  split; [by apply (gave_changed c Q c' Q' i bn b (released b1) x y); try done; apply released_free|]. intros a. case_decide as Ha.
  - subst a. apply (content_dirty c' Q' bn y Hc'). exists i, (released b1). split; [|done]. apply (changed_has _ _ _ _ _ _ _ i dev bn (released b1) y Hch). left. do 3 (split; [done|]).
    rewrite N1, N2. done.
  - apply (content_ext c Q c' Q' a Hc Hc'); [|by rewrite K1]. intros z. destruct (changed_dirty c c' i b (released b1) x y dev a z Hch) as [-> ->]. rewrite N1, N2.
    split; (intros [H|(F1 & F2 & F3 & F4 & F5)]; [by left|]); exfalso; apply Ha; rewrite <- F4; done.
Qed.

(** A buffer of no block. *)
Lemma geteblk_coherent c Q : coherent c Q ->
  (exists c' i, geteblk c = Ok (c', Held i) /\ (exists Q', coherent c' Q') /\ quiet c c' /\ held_blocks c' = held_blocks c /\ empties c' = S (empties c) /\ length (bufs c') = length (bufs c)) \/
  (exists c' g, geteblk c = Ok (c', g) /\ (forall i, g <> Held i) /\ forall i, ~ queued Q i).
Proof.
  intros Hc. destruct (geteblk_ok c Q (co_wf _ _ Hc)) as [(c1 & Q1 & i & b & c' & Q' & E & Hcl & Hw1 & Hn & Hb & Hd & Hh & HQ & B1 & D1 & K1 & _)|[E Hn]]; rewrite E; [left|right; by eexists _, _].
  destruct (cleans_coherent _ _ _ _ Hcl Hc) as (Hc1 & Hq1 & [Hk1 Hk2]). pose proof (cleans_length _ _ _ _ Hcl) as Hl. apply next_free_queued in Hn as Hq.
  pose proof (wf_buf _ _ _ Hw1 i b ltac:(done) Hb) as [A1 A2 A3 A4 A5 A6]. destruct (lookup_lt_is_Some_2 (bdata c1) i) as [x Hx]; [rewrite (wf_data _ _ _ Hw1); by eapply lookup_lt_Some|].
  set (b1 := empty b) in *. pose proof (same_changed c1 c' i b b1 x Hb Hx B1 D1) as Hch. assert (busy b = false) as Hfree by (by apply A5). assert (valid b1 = false) as Hv by done.
  assert (coherent c' Q') as Hc'.
  { apply (coherent_change c1 Q1 c' Q' i b b1 x x Hc1 Hch); try done; [by apply (busy_wf c' Q' i b1 Hh) | by apply (co_error _ _ Hc1 i b)|]. intros j d n bj xj _ _ _. by rewrite K1. }
  exists c', i. split; [done|]. split; [by exists Q'|]. split.
  { intros a. rewrite <- Hq1. apply (content_clean c1 Q1 c' Q' i b b1 x x Hc1 Hc' Hch); try done. intros n. by rewrite K1. }
  destruct (changed_busy _ _ _ _ _ _ _ Hch) as (rest & n & P1 & P2 & M1 & M2).
  assert (bcount_block b = [] /\ bcount_empty b = 0%nat) as [N1 N2] by (unfold bcount_block, bcount_empty; by rewrite Hfree).
  assert (bcount_block b1 = [] /\ bcount_empty b1 = 1%nat) as [N3 N4] by done. rewrite N1 in P1. rewrite N3 in P2. rewrite N2 in M1. rewrite N4 in M2.
  split; [|split; [lia | by rewrite B1, length_insert]]. rewrite <- Hk1. unfold held_blocks. apply list_to_set_perm_L. by rewrite P2, P1.
Qed.

Lemma brelse_empty_coherent c Q i b : coherent c Q -> bufs c !! i = Some b -> busy b = true -> valid b = false ->
  exists c', brelse c i = Ok c' /\ (exists Q', coherent c' Q') /\ quiet c c' /\ held_blocks c' = held_blocks c /\ S (empties c') = empties c /\ length (bufs c') = length (bufs c).
Proof.
  intros Hc Hb Hbusy Hv. pose proof (wf_buf _ _ _ (co_wf _ _ Hc) i b ltac:(done) Hb) as [A1 A2 A3 A4 A5 A6]. destruct (co_error _ _ Hc i b Hb) as [He Hr].
  destruct (lookup_lt_is_Some_2 (bdata c) i) as [x Hx]; [rewrite (wf_data _ _ _ (co_wf _ _ Hc)); by eapply lookup_lt_Some|].
  destruct (brelse_held c Q i b (held_busy _ _ _ _ (co_wf _ _ Hc) Hb Hbusy) A4) as (c' & E & Hw & B1 & D1 & K1 & _). exists c'. split; [done|].
  pose proof (same_changed c c' i b (released b) x Hb Hx B1 D1) as Hch. destruct (released_name b He) as (N1 & N2 & N3).
  assert (valid (released b) = false) as V by (unfold valid; by rewrite released_flags). assert (on (b_flags b) B_DELWRI = false) as Hd.
  { destruct (on (b_flags b) B_DELWRI) eqn:Ed; [|done]. pose proof (co_delwri _ _ Hc i b Hb Ed). congruence. }
  assert (on (b_flags (released b)) B_DELWRI = false) as W by (by rewrite released_flags). pose proof (released_free b) as Hfree.
  assert (coherent c' (back Q b i)) as Hc'.
  { apply (coherent_change c Q c' (back Q b i) i b (released b) x x Hc Hch Hw); [by rewrite released_flags | congruence | congruence | congruence | intros H; congruence | intros H; congruence |].
    intros j d n bj xj _ _ _. by rewrite K1. }
  split; [by eexists|]. split; [apply (content_clean c Q c' (back Q b i) i b (released b) x x Hc Hc' Hch Hd W); intros n; by rewrite K1|].
  destruct (changed_busy _ _ _ _ _ _ _ Hch) as (rest & n & P1 & P2 & M1 & M2). 
  assert (bcount_block b = [] /\ bcount_empty b = 1%nat) as [E1 E2] by (unfold bcount_block, bcount_empty; by rewrite Hbusy, Hv).
  assert (bcount_block (released b) = [] /\ bcount_empty (released b) = 0%nat) as [E3 E4] by (unfold bcount_block, bcount_empty; by rewrite Hfree).
  rewrite E1 in P1. rewrite E3 in P2. rewrite E2 in M1. rewrite E4 in M2.
  split; [|split; [lia | by rewrite B1, length_insert]]. unfold held_blocks. apply list_to_set_perm_L. by rewrite P2, P1.
Qed.

(** ** The interface of the file system *)

(** The buffer that holds a block for the caller, and a buffer of no block. *)
Definition held_buf c (bn : Z) : option nat :=
  match lookup_buf c dev bn with
  | Some i => match bufs c !! i with Some b => if busy b then Some i else None | None => None end
  | None => None
  end.
Definition empty_buf c : option nat := fst <$> list_find (fun b => busy b && negb (valid b)) (bufs c).

Definition of_held c (bn : Z) (ok : bool) {A} (f : nat -> outcome A) : outcome A :=
  match held_buf c bn with Some i => if ok then f i else Fault | None => Fault end.

Definition dev_getblk c (bn : Z) : outcome (bcache K * words) :=
  r ← getblk c dev bn;
  match snd r with Held i => x ← rd (bdata (fst r)) i; Ok (fst r, x) | _ => Panic "deadlock" end.
Definition dev_bread c (bn : Z) : outcome (bcache K * Fsalloc.bufread) :=
  r ← bread c dev bn;
  match snd r with
  | Held i => b ← rd (bufs (fst r)) i; x ← rd (bdata (fst r)) i;
              Ok (fst r, if on (b_flags b) B_ERROR then Fsalloc.Failed (geterror b) else Fsalloc.Contents x (negb (b_resid b =? 0)))
  | _ => Panic "deadlock"
  end.
Definition dev_brelse c (bn : Z) : outcome (bcache K) := of_held c bn true (brelse c).
Definition dev_bwrite c (bn : Z) (x : words) : outcome (bcache K * Z) := of_held c bn (bool_decide (length x = 256%nat)) (fun i => bwrite (store c i x) i).
Definition dev_bdwrite c (bn : Z) (x : words) : outcome (bcache K) := of_held c bn (bool_decide (length x = 256%nat)) (fun i => bdwrite (store c i x) i).
Definition dev_geteblk c : outcome (bcache K) := r ← geteblk c; match snd r with Held _ => Ok (fst r) | _ => Panic "deadlock" end.
Definition dev_brelse_empty c : outcome (bcache K) := match empty_buf c with Some i => brelse c i | None => Fault end.

(** A cache the file system may be given. *)
Definition good c : Prop := length (bufs c) = NBUF /\ exists Q, coherent c Q.

Lemma held_buf_Some c Q bn i : coherent c Q -> held_buf c bn = Some i -> exists b x, has c i dev bn b x /\ busy b = true.
Proof.
  intros Hc. unfold held_buf. destruct (lookup_buf c dev bn) as [j|] eqn:El; [|done]. destruct (lookup_buf_Some _ _ _ _ El) as (b & Hb & Hhit & _). rewrite Hb.
  destruct (busy b) eqn:Eb; [|done]. intros [= <-]. destruct (hit_has c Q j dev bn b (co_wf _ _ Hc) Hb Hhit) as [x Hx]. by exists b, x.
Qed.
Lemma held_buf_in c Q bn : coherent c Q -> bn ∈ held_blocks c -> exists i, held_buf c bn = Some i.
Proof.
  intros Hc Hin. unfold held_blocks in Hin. apply elem_of_list_to_set, list_elem_of_fmap in Hin as (b & -> & Hin). apply list_elem_of_filter in Hin as [[Hb Hv]%Is_true_true%andb_true_iff Hin].
  apply list_elem_of_lookup in Hin as [i Hi]. destruct (hit_has c Q i dev (b_blkno b) b (co_wf _ _ Hc) Hi) as [x Hx].
  { apply hit_true. pose proof (co_busy _ _ Hc i b Hi Hb Hv). unfold valid in Hv. by apply negb_true_iff in Hv. }
  exists i. unfold held_buf. by rewrite (lookup_has c Q i _ b x Hc Hx), Hi, Hb.
Qed.
Lemma empty_buf_Some c i : empty_buf c = Some i -> exists b, bufs c !! i = Some b /\ busy b = true /\ valid b = false.
Proof.
  unfold empty_buf. destruct (list_find _ (bufs c)) as [[j b]|] eqn:E; [|done]. intros [= <-]. apply list_find_Some in E as (Hb & [H1 H2]%Is_true_true%andb_true_iff & _).
  exists b. split; [done|]. split; [done|]. by apply negb_true_iff.
Qed.
Lemma empty_buf_pos c : (0 < empties c)%nat -> exists i, empty_buf c = Some i.
Proof.
  unfold empties, empty_buf. intros Hn. destruct (list_find _ (bufs c)) as [[j b]|] eqn:E; [by exists j|]. exfalso. apply list_find_None in E.
  assert (filter (fun b => busy b && negb (valid b)) (bufs c) = []) as Ef; [|rewrite Ef in Hn; cbn in Hn; lia].
  induction E as [|b l Hb _ IH]; [done|]. rewrite filter_cons_False by done. apply IH. by rewrite filter_cons_False in Hn.
Qed.

(** How each operation ends, when it does. *)
Definition dev_same c c' : Prop := quiet c c' /\ held_blocks c' = held_blocks c.

Lemma room_free c Q bn : coherent c Q -> bn ∉ held_blocks c -> (size (held_blocks c) + empties c < length (bufs c))%nat -> ~ (bn ∈ held_blocks c \/ forall i, ~ queued Q i).
Proof. intros Hc Hn Hlt [H|H]; [done|]. destruct (busy_count c Q Hc Hlt) as [i Hi]. by apply (H i). Qed.

Lemma dev_getblk_ok c bn : good c ->
  (forall c' x, dev_getblk c bn = Ok (c', x) -> good c' /\ quiet c c' /\ held_blocks c' = {[bn]} ∪ held_blocks c /\ empties c' = empties c /\ length x = 256%nat) /\
  (bn ∉ held_blocks c -> (size (held_blocks c) + empties c < NBUF)%nat -> exists c' x, dev_getblk c bn = Ok (c', x)).
Proof.
  intros [Hl [Q Hc]]. unfold dev_getblk. destruct (getblk_coherent c Q bn Hc) as [(c1 & i & E & [O1 O2 O3 O4 O5 (b & x & Hh & Hb)])|(c1 & g & E & Hg & Hno)]; rewrite E; cbn [mbind outcome_bind fst snd].
  - rewrite (rd_ok _ _ _ (ha_data _ _ _ _ _ _ Hh)). cbn [mbind outcome_bind]. split; [|intros; by exists c1, x]. intros c' x' [= <- <-].
    split; [split; [congruence | done]|]. split; [done|]. split; [done|]. split; [done|]. destruct O1 as [Q1 Hc1].
    exact (Forall_lookup_1 _ _ _ _ (wf_words _ _ _ (co_wf _ _ Hc1)) (ha_data _ _ _ _ _ _ Hh)).
  - destruct g as [i|i|]; [by destruct (Hg i)|..]; (split; [done|]; intros H1 H2; exfalso; rewrite <- Hl in H2; by apply (room_free c Q bn Hc H1 H2)).
Qed.

Lemma dev_bread_ok c bn : good c ->
  (forall c' r, dev_bread c bn = Ok (c', r) -> good c' /\ quiet c c' /\ held_blocks c' = {[bn]} ∪ held_blocks c /\ empties c' = empties c /\ r = Fsalloc.Contents (content c bn) false) /\
  (bn ∉ held_blocks c -> (size (held_blocks c) + empties c < NBUF)%nat -> exists c' r, dev_bread c bn = Ok (c', r)).
Proof.
  intros [Hl [Q Hc]]. unfold dev_bread, bread. destruct (getblk_coherent c Q bn Hc) as [(c1 & i & E & [[Q1 O1] O2 O3 O4 O5 (b & x & Hh & Hb)])|(c1 & g & E & Hg & Hno)]; rewrite E; cbn [mbind outcome_bind fst snd].
  - destruct (fill_coherent c1 Q1 i bn b x O1 Hh Hb) as (c2 & b2 & E2 & Hc2 & Hq2 & [Hk1 Hk2] & Hl2 & [H1 H2 _ _ _] & _). rewrite E2. cbn [mbind outcome_bind fst snd].
    rewrite (rd_ok _ _ _ H1). cbn [mbind outcome_bind]. rewrite (rd_ok _ _ _ H2). cbn [mbind outcome_bind]. destruct (co_error _ _ Hc2 i b2 H1) as [-> ->].
    split; [|intros; by eexists _, _]. intros c' r [= <- <-]. split; [split; [congruence | by exists Q1]|]. split; [intros a; by rewrite Hq2, O2|].
    split; [congruence|]. split; [congruence|]. cbn. by rewrite O2.
  - destruct g as [i|i|]; [by destruct (Hg i)|..]; (split; [done|]; intros H1 H2; exfalso; rewrite <- Hl in H2; by apply (room_free c Q bn Hc H1 H2)).
Qed.

Lemma dev_brelse_ok c bn : good c ->
  (forall c', dev_brelse c bn = Ok c' -> good c' /\ quiet c c' /\ held_blocks c' = held_blocks c ∖ {[bn]} /\ empties c' = empties c) /\
  (bn ∈ held_blocks c -> exists c', dev_brelse c bn = Ok c').
Proof.
  intros [Hl [Q Hc]]. unfold dev_brelse, of_held. destruct (held_buf c bn) as [i|] eqn:Eh.
  - destruct (held_buf_Some c Q bn i Hc Eh) as (b & x & Hh & Hb). destruct (brelse_coherent c Q i bn b x Hc Hh Hb) as (c1 & E & [G1 G2 G3 G4] & Hq). rewrite E.
    split; [|intros; by exists c1]. intros c' [= <-]. split; [split; [congruence | done]|]. done.
  - split; [done|]. intros Hin. destruct (held_buf_in c Q bn Hc Hin). congruence.
Qed.

Lemma dev_bwrite_ok c bn x : good c ->
  (forall c' e, dev_bwrite c bn x = Ok (c', e) -> good c' /\ sets c c' bn x /\ held_blocks c' = held_blocks c ∖ {[bn]} /\ empties c' = empties c /\ e = 0) /\
  (bn ∈ held_blocks c -> length x = 256%nat -> exists c' e, dev_bwrite c bn x = Ok (c', e)).
Proof.
  intros [Hl [Q Hc]]. unfold dev_bwrite, of_held. destruct (held_buf c bn) as [i|] eqn:Eh.
  - destruct (held_buf_Some c Q bn i Hc Eh) as (b & y & Hh & Hb). case_bool_decide as Hx; [|by split].
    destruct (bwrite_coherent c Q i bn b y x Hc Hh Hb Hx) as (c1 & E & [G1 G2 G3 G4] & Hs). rewrite E.
    split; [|intros; by eexists _, _]. intros c' e [= <- <-]. split; [split; [congruence | done]|]. done.
  - split; [done|]. intros Hin. destruct (held_buf_in c Q bn Hc Hin). congruence.
Qed.

Lemma dev_bdwrite_ok c bn x : good c ->
  (forall c', dev_bdwrite c bn x = Ok c' -> good c' /\ sets c c' bn x /\ held_blocks c' = held_blocks c ∖ {[bn]} /\ empties c' = empties c) /\
  (bn ∈ held_blocks c -> length x = 256%nat -> exists c', dev_bdwrite c bn x = Ok c').
Proof.
  intros [Hl [Q Hc]]. unfold dev_bdwrite, of_held. destruct (held_buf c bn) as [i|] eqn:Eh.
  - destruct (held_buf_Some c Q bn i Hc Eh) as (b & y & Hh & Hb). case_bool_decide as Hx; [|by split].
    destruct (bdwrite_coherent c Q i bn b y x Hc Hh Hb Hx) as (c1 & E & [G1 G2 G3 G4] & Hs). rewrite E.
    split; [|intros; by eexists]. intros c' [= <-]. split; [split; [congruence | done]|]. done.
  - split; [done|]. intros Hin. destruct (held_buf_in c Q bn Hc Hin). congruence.
Qed.

Lemma dev_geteblk_ok c : good c ->
  (forall c', dev_geteblk c = Ok c' -> good c' /\ quiet c c' /\ held_blocks c' = held_blocks c /\ empties c' = S (empties c)) /\
  ((size (held_blocks c) + empties c < NBUF)%nat -> exists c', dev_geteblk c = Ok c').
Proof.
  intros [Hl [Q Hc]]. unfold dev_geteblk. destruct (geteblk_coherent c Q Hc) as [(c1 & i & E & G1 & G2 & G3 & G4 & G5)|(c1 & g & E & Hg & Hno)]; rewrite E; cbn [mbind outcome_bind fst snd].
  - split; [|intros; by eexists]. intros c' [= <-]. split; [split; [congruence | done]|]. done.
  - destruct g as [i|i|]; [by destruct (Hg i)|..]; (split; [done|]; intros H; exfalso; rewrite <- Hl in H; destruct (busy_count c Q Hc H) as [j Hj]; by apply (Hno j)).
Qed.

Lemma dev_brelse_empty_ok c : good c ->
  (forall c', dev_brelse_empty c = Ok c' -> good c' /\ quiet c c' /\ held_blocks c' = held_blocks c /\ empties c' = pred (empties c)) /\
  ((0 < empties c)%nat -> exists c', dev_brelse_empty c = Ok c').
Proof.
  intros [Hl [Q Hc]]. unfold dev_brelse_empty. destruct (empty_buf c) as [i|] eqn:Ee.
  - destruct (empty_buf_Some c i Ee) as (b & Hb & Hbusy & Hv). destruct (brelse_empty_coherent c Q i b Hc Hb Hbusy Hv) as (c1 & E & G1 & G2 & G3 & G4 & G5). rewrite E.
    split; [|intros; by eexists]. intros c' [= <-]. split; [split; [congruence | done]|]. split; [done|]. split; [done|]. by rewrite <- G4.
  - split; [done|]. intros H. destruct (empty_buf_pos c H). congruence.
Qed.

(** The caches in order are a device of the file system. *)
Definition cached : Type := { c : bcache K | good c }.

Definition pack {A} (o : outcome (bcache K * A)) : (forall c a, o = Ok (c, a) -> good c) -> outcome (cached * A) :=
  match o with
  | Ok (c, a) => fun H => Ok (exist _ c (H c a eq_refl), a)
  | Panic s => fun _ => Panic s
  | Fault => fun _ => Fault
  end.
Definition pack1 (o : outcome (bcache K)) : (forall c, o = Ok c -> good c) -> outcome cached :=
  match o with
  | Ok c => fun H => Ok (exist _ c (H c eq_refl))
  | Panic s => fun _ => Panic s
  | Fault => fun _ => Fault
  end.
Lemma pack_ok {A} (o : outcome (bcache K * A)) H c a : o = Ok (c, a) -> exists d, pack o H = Ok (d, a) /\ proj1_sig d = c.
Proof. intros ->. by eexists. Qed.
Lemma pack1_ok (o : outcome (bcache K)) H c : o = Ok c -> exists d, pack1 o H = Ok d /\ proj1_sig d = c.
Proof. intros ->. by eexists. Qed.

#[export] Instance cached_dev : Fsalloc.BufDev cached := {
  Fsalloc.getblk d bn := pack (dev_getblk (proj1_sig d) bn) (fun c x E => proj1 (proj1 (dev_getblk_ok _ bn (proj2_sig d)) c x E));
  Fsalloc.bread d bn := pack (dev_bread (proj1_sig d) bn) (fun c x E => proj1 (proj1 (dev_bread_ok _ bn (proj2_sig d)) c x E));
  Fsalloc.brelse d bn := pack1 (dev_brelse (proj1_sig d) bn) (fun c E => proj1 (proj1 (dev_brelse_ok _ bn (proj2_sig d)) c E));
  Fsalloc.bwrite d bn x := pack (dev_bwrite (proj1_sig d) bn x) (fun c e E => proj1 (proj1 (dev_bwrite_ok _ bn x (proj2_sig d)) c e E));
  Fsalloc.bdwrite d bn x := pack1 (dev_bdwrite (proj1_sig d) bn x) (fun c E => proj1 (proj1 (dev_bdwrite_ok _ bn x (proj2_sig d)) c E));
  Fsalloc.geteblk d := pack1 (dev_geteblk (proj1_sig d)) (fun c E => proj1 (proj1 (dev_geteblk_ok _ (proj2_sig d)) c E));
  Fsalloc.brelse_empty d := pack1 (dev_brelse_empty (proj1_sig d)) (fun c E => proj1 (proj1 (dev_brelse_empty_ok _ (proj2_sig d)) c E))
}.

#[export] Program Instance cached_spec : Fsalloc.BufSpec cached := {
  Fsalloc.nbuf := NBUF;
  Fsalloc.content d := content (proj1_sig d);
  Fsalloc.held d := held_blocks (proj1_sig d);
  Fsalloc.anon d := empties (proj1_sig d)
}.
Next Obligation. intros [c [Hl [Q Hc]]] b. by apply (content_len c Q). Qed.
Next Obligation.
  intros [c Hg] b Hb Hlt. destruct (dev_getblk_ok c b Hg) as [H1 H2]. destruct (H2 Hb Hlt) as (c' & x & E). destruct (H1 c' x E) as (_ & G2 & G3 & G4 & G5).
  destruct (pack_ok (dev_getblk c b) (fun c x E => proj1 (proj1 (dev_getblk_ok _ b Hg) c x E)) c' x E) as (d' & Ed & <-). by exists d', x.
Qed.
Next Obligation.
  intros [c Hg] b Hb Hlt. destruct (dev_bread_ok c b Hg) as [H1 H2]. destruct (H2 Hb Hlt) as (c' & x & E). destruct (H1 c' x E) as (_ & G2 & G3 & G4 & ->).
  destruct (pack_ok (dev_bread c b) (fun c x E => proj1 (proj1 (dev_bread_ok _ b Hg) c x E)) c' _ E) as (d' & Ed & <-). by exists d'.
Qed.
Next Obligation.
  intros [c Hg] b Hb. destruct (dev_brelse_ok c b Hg) as [H1 H2]. destruct (H2 Hb) as (c' & E). destruct (H1 c' E) as (_ & G2 & G3 & G4).
  destruct (pack1_ok (dev_brelse c b) (fun c E => proj1 (proj1 (dev_brelse_ok _ b Hg) c E)) c' E) as (d' & Ed & <-). by exists d'.
Qed.
Next Obligation.
  intros [c Hg] b x Hb Hx. destruct (dev_bwrite_ok c b x Hg) as [H1 H2]. destruct (H2 Hb Hx) as (c' & e & E). destruct (H1 c' e E) as (_ & G2 & G3 & G4 & ->).
  destruct (pack_ok (dev_bwrite c b x) (fun c e E => proj1 (proj1 (dev_bwrite_ok _ b x Hg) c e E)) c' 0 E) as (d' & Ed & <-). by exists d'.
Qed.
Next Obligation.
  intros [c Hg] b x Hb Hx. destruct (dev_bdwrite_ok c b x Hg) as [H1 H2]. destruct (H2 Hb Hx) as (c' & E). destruct (H1 c' E) as (_ & G2 & G3 & G4).
  destruct (pack1_ok (dev_bdwrite c b x) (fun c E => proj1 (proj1 (dev_bdwrite_ok _ b x Hg) c E)) c' E) as (d' & Ed & <-). by exists d'.
Qed.
Next Obligation.
  intros [c Hg] Hlt. destruct (dev_geteblk_ok c Hg) as [H1 H2]. destruct (H2 Hlt) as (c' & E). destruct (H1 c' E) as (_ & G2 & G3 & G4).
  destruct (pack1_ok (dev_geteblk c) (fun c E => proj1 (proj1 (dev_geteblk_ok _ Hg) c E)) c' E) as (d' & Ed & <-). by exists d'.
Qed.
Next Obligation.
  intros [c Hg] Hlt. destruct (dev_brelse_empty_ok c Hg) as [H1 H2]. destruct (H2 Hlt) as (c' & E). destruct (H1 c' E) as (_ & G2 & G3 & G4).
  destruct (pack1_ok (dev_brelse_empty c) (fun c E => proj1 (proj1 (dev_brelse_empty_ok _ Hg) c E)) c' E) as (d' & Ed & <-). by exists d'.
Qed.

Lemma booted_good k m : good (booted k m).
Proof.
  split; [done|]. exists boot_queues.
  assert (forall i b, bufs (booted k m) !! i = Some b -> on (b_flags b) B_ERROR = false /\ b_resid b = 0 /\ on (b_flags b) B_DELWRI = false /\ valid b = false) as H.
  { intros i b Hb. do 4 (destruct i as [|i]; [injection Hb as <-; done|]). done. }
  split; [apply booted_wf | | | | |].
  - intros i j d bn b x b' x' _ [Hb _ Hv _ _] _. destruct (H i b Hb) as (_ & _ & _ & Hn). congruence.
  - intros i b Hb. by destruct (H i b Hb) as (? & ? & _).
  - intros i b Hb Hd. destruct (H i b Hb) as (_ & _ & Hn & _). congruence.
  - intros i d bn b x _ [Hb _ Hv _ _]. destruct (H i b Hb) as (_ & _ & _ & Hn). congruence.
  - intros i b Hb _ Hv. destruct (H i b Hb) as (_ & _ & _ & Hn). congruence.
Qed.
Definition boot (k : K) (m : list mount) : cached := exist _ (booted k m) (booted_good k m).

Lemma boot_content k m bn : content (booted k m) bn = plate k dev bn.
Proof. destruct (booted_good k m) as [_ [Q Hc]]. apply (content_plate _ Q bn Hc). intros x (i & b & [Hb _ Hv _ _] & _). do 4 (destruct i as [|i]; [injection Hb as <-; done|]). done. Qed.

(** A flush with nothing held leaves on the device what readers find. *)
Lemma bflush_coherent c Q : coherent c Q -> held_blocks c = ∅ -> exists c', bflush c dev = Ok (c', 0) /\ forall bn, plate (disk c') dev bn = content c bn.
Proof.
  intros Hc Hh. destruct (bflush_loop_ok (S (length (bufs c))) c Q dev 0 (co_wf _ _ Hc) (delayed_le c)) as (c' & Q' & e & E & Hf & Hw & Ho).
  destruct (flushes_coherent dev _ _ _ _ _ _ Hf Hc) as (Hc' & Hq & [Hk _] & ->). exists c'. split; [done|]. intros bn. rewrite <- (Hq bn). symmetry. apply (content_plate c' Q' bn Hc').
  intros x (i & b & Hi & Hd). destruct (busy b) eqn:Eb.
  - pose proof (mine_held_block c' Q' i bn b x Hc' Hi Eb) as Hin. rewrite Hk, Hh in Hin. by apply elem_of_empty in Hin.
  - assert (queued Q' i) as Hqd by (apply (bo_busy _ _ _ (wf_buf _ _ _ Hw i b ltac:(done) (ha_buf _ _ _ _ _ _ Hi))); exact Eb).
    pose proof (Ho i b Hqd (ha_buf _ _ _ _ _ _ Hi)) as Hn. unfold wants_flush in Hn. by rewrite Hd, (ha_dev _ _ _ _ _ _ Hi), Z.eqb_refl in Hn.
Qed.
End dev.

(** ** A client of the interface, and plain memory *)

Inductive request := ReadBlock (bn : Z) | WriteBlock (bn : Z) (x : words) | DelayBlock (bn : Z) (x : words).
Definition sound_request (r : request) : Prop := match r with ReadBlock _ => True | WriteBlock _ x | DelayBlock _ x => length x = 256%nat end.

Section client.
Context {D : Type} {BD : Fsalloc.BufDev D}.

(** A block read and given back, written, or written with delay. *)
Definition serve (d : D) (r : request) : outcome (D * option words) :=
  match r with
  | ReadBlock bn =>
      a ← Fsalloc.bread d bn; d ← Fsalloc.brelse (fst a) bn;
      Ok (d, match snd a with Fsalloc.Contents x false => Some x | _ => None end)
  | WriteBlock bn x => a ← Fsalloc.getblk d bn; b ← Fsalloc.bwrite (fst a) bn x; Ok (fst b, if snd b =? 0 then Some x else None)
  | DelayBlock bn x => a ← Fsalloc.getblk d bn; d ← Fsalloc.bdwrite (fst a) bn x; Ok (d, Some x)
  end.
Fixpoint serves (d : D) (l : list request) : outcome (D * list (option words)) :=
  match l with
  | [] => Ok (d, [])
  | r :: l => a ← serve d r; b ← serves (fst a) l; Ok (fst b, snd a :: snd b)
  end.

(** The same requests on a memory of blocks. *)
Definition mem_step (m : Z -> words) (r : request) : Z -> words :=
  match r with ReadBlock _ => m | WriteBlock bn x | DelayBlock bn x => fun a => if decide (a = bn) then x else m a end.
Fixpoint answers (m : Z -> words) (l : list request) : list (option words) :=
  match l with
  | [] => []
  | r :: l => Some (match r with ReadBlock bn => m bn | WriteBlock _ x | DelayBlock _ x => x end) :: answers (mem_step m r) l
  end.
Definition final (m : Z -> words) (l : list request) : Z -> words := foldl mem_step m l.

Context {BS : Fsalloc.BufSpec D}.

(** Nothing is held between requests. *)
Definition idle (d : D) (m : Z -> words) : Prop := Fsalloc.held d = ∅ /\ Fsalloc.anon d = 0%nat /\ forall bn, Fsalloc.content d bn = m bn.

Lemma serve_idle d m r : (0 < Fsalloc.nbuf (D := D))%nat -> idle d m -> sound_request r ->
  exists d', serve d r = Ok (d', Some (match r with ReadBlock bn => m bn | WriteBlock _ x | DelayBlock _ x => x end)) /\ idle d' (mem_step m r).
Proof.
  intros Hn (Hh & Ha & Hm) Hr.
  assert (forall bn, bn ∉ Fsalloc.held d /\ (size (Fsalloc.held d) + Fsalloc.anon d < Fsalloc.nbuf (D := D))%nat) as Hfree by (intros bn; rewrite Hh, Ha, size_empty; split; [set_solver | lia]).
  assert (forall (d1 : D) bn, Fsalloc.held d1 = {[bn]} ∪ Fsalloc.held d -> bn ∈ Fsalloc.held d1 /\ Fsalloc.held d1 ∖ {[bn]} = ∅) as Hheld by (intros d1 bn ->; rewrite Hh; set_solver).
  destruct r as [bn|bn x|bn x]; cbn [serve mem_step]; destruct (Hfree bn) as [F1 F2].
  - destruct (Fsalloc.bread_spec d bn F1 F2) as (d1 & E1 & C1 & H1 & A1). rewrite E1. cbn [mbind outcome_bind fst snd]. destruct (Hheld d1 bn H1) as [G1 G2].
    destruct (Fsalloc.brelse_spec d1 bn G1) as (d2 & E2 & C2 & H2 & A2). rewrite E2. cbn [mbind outcome_bind]. exists d2. rewrite <- Hm. split; [done|].
    split; [congruence|]. split; [congruence|]. intros a. by rewrite C2, C1.
  - destruct (Fsalloc.getblk_spec d bn F1 F2) as (d1 & y & E1 & _ & C1 & H1 & A1). rewrite E1. cbn [mbind outcome_bind fst snd]. destruct (Hheld d1 bn H1) as [G1 G2].
    destruct (Fsalloc.bwrite_spec d1 bn x G1 Hr) as (d2 & E2 & C2 & H2 & A2). rewrite E2. cbn [mbind outcome_bind fst snd]. exists d2. split; [done|].
    split; [congruence|]. split; [congruence|]. intros a. rewrite C2, C1, Hm. done.
  - destruct (Fsalloc.getblk_spec d bn F1 F2) as (d1 & y & E1 & _ & C1 & H1 & A1). rewrite E1. cbn [mbind outcome_bind fst snd]. destruct (Hheld d1 bn H1) as [G1 G2].
    destruct (Fsalloc.bdwrite_spec d1 bn x G1 Hr) as (d2 & E2 & C2 & H2 & A2). rewrite E2. cbn [mbind outcome_bind fst snd]. exists d2. split; [done|].
    split; [congruence|]. split; [congruence|]. intros a. rewrite C2, C1, Hm. done.
Qed.
Lemma serves_idle l d m : (0 < Fsalloc.nbuf (D := D))%nat -> idle d m -> Forall sound_request l -> exists d', serves d l = Ok (d', answers m l) /\ idle d' (final m l).
Proof.
  intros Hn. revert d m. induction l as [|r l IH]; intros d m Hi Hl; [by exists d|]. apply Forall_cons in Hl as [Hr Hl].
  destruct (serve_idle d m r Hn Hi Hr) as (d1 & E1 & Hi1). destruct (IH d1 (mem_step m r) Hi1 Hl) as (d2 & E2 & Hi2). exists d2. cbn [serves answers]. rewrite E1. cbn [mbind outcome_bind fst snd].
  rewrite E2. done.
Qed.
End client.

(** C30. From boot, on a device that does not fail, any sequence of reads, writes
    and delayed writes through the buffer cache answers as a memory of blocks
    that starts as the device is; and a flush then reports no error and leaves
    the device as that memory. *)
Theorem cache_transparent {K} {DK : Disk K} {DS : DiskShape K} {DF : DiskFine K} dev (dev_ok : dev <> NODEV) (k : K) m l : Forall sound_request l ->
  exists d c', serves (BD := cached_dev dev dev_ok) (boot dev k m) l = Ok (d, answers (plate k dev) l) /\ bflush (proj1_sig d) dev = Ok (c', 0) /\
    forall bn, plate (disk c') dev bn = final (plate k dev) l bn.
Proof.
  intros Hl. assert (idle (BS := cached_spec dev dev_ok) (boot dev k m) (plate k dev)) as Hi by (split; [done|]; split; [done|]; intros bn; by apply boot_content).
  destruct (serves_idle (BS := cached_spec dev dev_ok) l (boot dev k m) (plate k dev) ltac:(cbn; unfold NBUF; lia) Hi Hl) as ([c [Hc [Q Hq]]] & E & (Hh & _ & Hm)).
  destruct (bflush_coherent dev dev_ok c Q Hq Hh) as (c' & Ef & Hp). eexists _, c'. split; [exact E|]. split; [exact Ef|]. intros bn. rewrite Hp. apply Hm.
Qed.

(** A device in memory. *)
Record ram := Ram { ram_words : Z -> Z -> words }.
Definition ram_transfer (k : ram) (reading : bool) (dev bn n : Z) (x : words) : ram * xfer :=
  if reading then (k, Xfer (fit (ram_words k dev bn)) None 0)
  else (Ram (fun d b => if decide (d = dev /\ b = bn) then x else ram_words k d b), Xfer x None 0).
#[export] Instance ram_disk : Disk ram := { transfer := ram_transfer; d_flags _ := 0 }.
#[export] Instance ram_shape : DiskShape ram.
Proof. split; [intros k reading dev bn n x Hx; destruct reading; [apply fit_length | done] | done]. Qed.
#[export] Program Instance ram_fine : DiskFine ram := { plate k d b := fit (ram_words k d b) }.
Next Obligation. intros k dev bn. apply fit_length. Qed.
Next Obligation. done. Qed.
Next Obligation. done. Qed.
Next Obligation. done. Qed.
Next Obligation. intros k dev bn x d b Hx. cbn. case_decide; [by apply fit_id | done]. Qed.
Next Obligation. done. Qed.

Definition demo_requests : list request := [DelayBlock 1 (replicate 256 1); DelayBlock 2 (replicate 256 2); DelayBlock 3 (replicate 256 3); DelayBlock 4 (replicate 256 4); WriteBlock 5 (replicate 256 5); ReadBlock 1].
Lemma dev3_ok : 3 <> NODEV.
Proof. done. Qed.
Lemma cache_transparent_witness : exists d c', serves (BD := cached_dev 3 dev3_ok) (boot 3 (Ram (fun _ _ => [])) []) demo_requests = Ok (d, answers (fun _ => replicate 256 0) demo_requests) /\
  bflush (proj1_sig d) 3 = Ok (c', 0) /\ plate (disk c') 3 4 = replicate 256 4.
Proof.
  destruct (cache_transparent 3 dev3_ok (Ram (fun _ _ => [])) [] demo_requests) as (d & c' & E & Ef & Hp); [repeat constructor|].
  exists d, c'. split; [exact E|]. split; [exact Ef|]. exact (Hp 4).
Defined.
