(* ===== verification/Fsmap.v ===== *)
(** * Blocks of a file ([sys/kern/ufs_bmap.c])

    An inode has four direct block numbers and the roots of a single, a double
    and a triple indirect tree of fan-out 256; zero is a hole. [bmap] finds a
    logical block and fills holes. *)
From stdpp Require Import gmap sets.
From S2P Require Import Prelude Fsalloc.

Definition NADDR : Z := 7.
Definition NDADDR : Z := 4.
Definition NSHIFT : Z := 8.
Definition NMASK : Z := 255.
Definition NINDIR : Z := 256.
Definition EFBIG : Z := 27.
Definition FS_EINVAL : Z := 22.
Definition FS_EIO : Z := 5.
Definition ICHG : Z := 0x0040.
Definition IUPD : Z := 0x0002.
Definition IACC : Z := 0x0004.
Definition IMOD : Z := 0x0400.
Definition IPIPE : Z := 0x1000.
Definition INOPB : Z := 16.
Definition DEV_BSIZE : Z := 1024.
Definition MAXPIPSIZ : Z := NDADDR * DEV_BSIZE.
Definition IO_SYNC : Z := 0x04.

(** The fields of the inode in core that these routines use. *)
Record inode := Inode {
  i_number : Z; i_flag : Z; i_addr : list Z; i_mode : Z; i_nlink : Z; i_uid : Z; i_gid : Z; i_size : Z; i_flags : Z;
  i_atime : Z; i_mtime : Z; i_ctime : Z
}.

Definition set_iaddr (ip : inode) (l : list Z) : inode :=
  Inode (i_number ip) (i_flag ip) l (i_mode ip) (i_nlink ip) (i_uid ip) (i_gid ip) (i_size ip) (i_flags ip) (i_atime ip) (i_mtime ip) (i_ctime ip).
Definition set_iflag (ip : inode) (f : Z) : inode :=
  Inode (i_number ip) f (i_addr ip) (i_mode ip) (i_nlink ip) (i_uid ip) (i_gid ip) (i_size ip) (i_flags ip) (i_atime ip) (i_mtime ip) (i_ctime ip).
Definition set_isize (ip : inode) (n : Z) : inode :=
  Inode (i_number ip) (i_flag ip) (i_addr ip) (i_mode ip) (i_nlink ip) (i_uid ip) (i_gid ip) n (i_flags ip) (i_atime ip) (i_mtime ip) (i_ctime ip).
Definition set_itimes (ip : inode) (a m c : Z) : inode :=
  Inode (i_number ip) (i_flag ip) (i_addr ip) (i_mode ip) (i_nlink ip) (i_uid ip) (i_gid ip) (i_size ip) (i_flags ip) a m c.

(** Which of reading and writing [bmap] is for. *)
Inductive rwflg := B_READ | B_WRITE.

Section map.
Context {D : Type} {BD : BufDev D}.

(** The end of [bmap] when the write of a new block failed. *)
Definition write_failed (nb error : Z) (s : fsys D) : outcome (fsys D) := s ← free nb s; Ok (with_err s error).

(** A new block written and waited for, or left to the cache. *)
Definition put_now (now : bool) (b : Z) (x : block) (s : fsys D) : outcome (fsys D * Z) :=
  if now then fs_bwrite s b x else s ← fs_bdwrite s b x; Ok (s, 0).

(** [bmap]'s loop through [k] levels of indirect blocks, from the block [nb];
    the value and the block to read ahead, which is set on success only. *)
Fixpoint bmap_levels (k : nat) (bn nb ra : Z) (rw : rwflg) (flags : Z) (async : bool) (s : fsys D) : outcome (fsys D * Z * option Z) :=
  match k with
  | O => Ok (s, nb, Some ra)
  | S k' =>
      r ← fs_bread s nb;
      let s := fst r in
      match whole (snd r) with
      | None => s ← fs_brelse s nb; Ok (s, 0, None)
      | Some bap =>
          let i := Z.land (Z.shiftr bn (NSHIFT * Z.of_nat k')) NMASK in
          nb' ← rdz bap i;
          ra ← (if i <? NINDIR - 1 then rdz bap (i + 1) else Ok ra);
          if nb' =? 0 then
            match rw with
            | B_READ => s ← fs_brelse s nb; Ok (s, -1, None)
            | B_WRITE =>
                r ← balloc (Z.lor flags B_CLRBUF) s;
                let s := fst r in
                match snd r with
                | None => s ← fs_brelse s nb; Ok (s, -1, None)
                | Some (new, nbp) =>
                    r ← put_now (negb async && ((0 <? Z.of_nat k') || on flags B_SYNC)) new nbp s;
                    let '(s, error) := r in
                    if negb (error =? 0) then s ← fs_brelse s nb; s ← write_failed new error s; Ok (s, -1, None)
                    else
                      bap ← wrz bap i new;
                      s ← fs_bdwrite s nb bap;
                      bmap_levels k' bn new ra rw flags async s
                end
            end
          else s ← fs_brelse s nb; bmap_levels k' bn nb' ra rw flags async s
      end
  end.

(** The number of levels for the block [bn] past the direct ones, its number
    below them, or too far; [j] counts down as in [bmap]. *)
Fixpoint bmap_depth (j : nat) (nb bn : Z) : option (nat * Z) :=
  match j with
  | O => None
  | S j' => let nb := Z.shiftl nb NSHIFT in if bn <? nb then Some (j, bn) else bmap_depth j' nb (bn - nb)
  end.

(** The address [i] of the inode, with a block of its own if it had none and
    one is wanted and can be had. [bmap] does this twice: for a direct block,
    and for the root of an indirect tree. *)
Definition bmap_root (ip : inode) (i : Z) (rw : rwflg) (flags : Z) (now : bool) (s : fsys D) : outcome (fsys D * inode * option Z) :=
  nb ← rdz (i_addr ip) i;
  if negb (nb =? 0) then Ok (s, ip, Some nb)
  else
    match rw with
    | B_READ => Ok (s, ip, None)
    | B_WRITE =>
        r ← balloc flags s;
        let s := fst r in
        match snd r with
        | None => Ok (s, ip, None)
        | Some (nb, x) =>
            r ← put_now now nb x s;
            let '(s, error) := r in
            if negb (error =? 0) then s ← write_failed nb error s; Ok (s, ip, None)
            else
              l ← wrz (i_addr ip) i nb;
              Ok (s, set_iflag (set_iaddr ip l) (Z.lor (i_flag ip) (Z.lor IUPD ICHG)), Some nb)
        end
    end.

(** [bmap]: the state, the inode, the value and [rablock], given as it was. *)
Definition bmap (ip : inode) (bn : Z) (rw : rwflg) (flags : Z) (rablock : Z) (s : fsys D) : outcome (fsys D * inode * Z * Z) :=
  let async := on (fs_flags (fsb s)) MNT_ASYNC && negb (on flags B_SYNC) in
  if bn <? 0 then Ok (with_err s EFBIG, ip, 0, rablock)
  else if bn <? NADDR - 3 then
    r ← bmap_root ip bn rw flags (on flags B_SYNC) s;
    let '(s, ip, nb) := r in
    match nb with
    | None => Ok (s, ip, -1, 0)
    | Some nb => ra ← (if bn <? NADDR - 4 then rdz (i_addr ip) (bn + 1) else Ok 0); Ok (s, ip, nb, ra)
    end
  else
    match bmap_depth 3 1 (bn - (NADDR - 3)) with
    | None => Ok (with_err s EFBIG, ip, 0, 0)
    | Some (j, bn) =>
        r ← bmap_root ip (NADDR - Z.of_nat j) rw (Z.lor flags B_CLRBUF) (negb async) s;
        let '(s, ip, nb) := r in
        match nb with
        | None => Ok (s, ip, -1, 0)
        | Some nb => r ← bmap_levels (4 - j) bn nb 0 rw flags async s; let '(s, v, ra) := r in Ok (s, ip, v, default 0 ra)
        end
    end.

End map.

(** ** What a file is made of *)

(** The blocks of the tree of [lvl] levels of indirection at [b]. *)
Fixpoint tree (c : Z -> block) (lvl : nat) (b : Z) : list Z :=
  if b =? 0 then [] else b :: match lvl with O => [] | S l => concat (tree c l <$> c b) end.

(** The block a number below [256 ^ lvl] leads to, zero in a hole. *)
Fixpoint walk (c : Z -> block) (lvl : nat) (b n : Z) : Z :=
  if b =? 0 then 0
  else match lvl with
       | O => b
       | S l => walk c l (default 0 (c b !! Z.to_nat (n / 256 ^ Z.of_nat l))) (n mod 256 ^ Z.of_nat l)
       end.

(** Trees side by side: the children of an indirect block, like the addresses
    of an inode, are the roots of trees. *)
Definition forest (c : Z -> block) (lvs : list nat) (ch : list Z) : list Z := concat (zip_with (tree c) lvs ch).

(** The levels of the seven addresses, and the address and number of a
    logical block. *)
Definition levels : list nat := [0; 0; 0; 0; 1; 2; 3]%nat.
Definition slot (bn : Z) : option (nat * Z) :=
  if bn <? 0 then None
  else if bn <? 4 then Some (Z.to_nat bn, 0)
  else if bn - 4 <? 256 then Some (4%nat, bn - 4)
  else if bn - 4 - 256 <? 256 ^ 2 then Some (5%nat, bn - 4 - 256)
  else if bn - 4 - 256 - 256 ^ 2 <? 256 ^ 3 then Some (6%nat, bn - 4 - 256 - 256 ^ 2)
  else None.

(** The blocks of a file, and its map from logical to device blocks. *)
Definition owned (c : Z -> block) (addr : list Z) : list Z := forest c levels addr.
Definition file_block (c : Z -> block) (addr : list Z) (bn : Z) : Z :=
  match slot bn with Some (k, n) => walk c (default 0%nat (levels !! k)) (default 0 (addr !! k)) n | None => 0 end.

Lemma tree_hole c lvl : tree c lvl 0 = [].
Proof. by destruct lvl. Qed.

Lemma tree_root c lvl b : b <> 0 -> b ∈ tree c lvl b.
Proof. intros Hb. destruct lvl; cbn; destruct (Z.eqb_spec b 0); set_solver. Qed.

Lemma tree_S c lvl b : b <> 0 -> tree c (S lvl) b = b :: concat (tree c lvl <$> c b).
Proof. intros Hb. cbn [tree]. by destruct (Z.eqb_spec b 0). Qed.

Lemma walk_S c lvl b n : b <> 0 -> walk c (S lvl) b n = walk c lvl (default 0 (c b !! Z.to_nat (n / 256 ^ Z.of_nat lvl))) (n mod 256 ^ Z.of_nat lvl).
Proof. intros Hb. cbn [walk]. by destruct (Z.eqb_spec b 0). Qed.

Lemma walk_hole c lvl n : walk c lvl 0 n = 0.
Proof. by destruct lvl. Qed.

Lemma concat_in {A} (x : A) (l : list (list A)) (y : list A) : y ∈ l -> x ∈ y -> x ∈ concat l.
Proof. intros Hy Hx. induction l as [|z l IH]; [set_solver|]. cbn. set_solver. Qed.

Lemma tree_ext c c' lvl b : (forall a, a ∈ tree c lvl b -> c' a = c a) -> tree c' lvl b = tree c lvl b.
Proof.
  revert b. induction lvl as [|lvl IH]; intros b He; [done|]. destruct (decide (b = 0)) as [->|Hb]; [by rewrite !tree_hole|].
  rewrite !tree_S in * by done. rewrite (He b) by set_solver. f_equal. f_equal. apply list_fmap_ext. intros j y Hy. apply IH. intros a Ha. apply He.
  right. eapply concat_in; [|exact Ha]. apply list_elem_of_fmap. exists y. split; [done|]. by eapply list_elem_of_lookup_2.
Qed.

Lemma walk_ext c c' lvl b n : (forall a, a ∈ tree c lvl b -> c' a = c a) -> walk c' lvl b n = walk c lvl b n.
Proof.
  revert b n. induction lvl as [|lvl IH]; intros b n He; [done|]. destruct (decide (b = 0)) as [->|Hb]; [by rewrite !walk_hole|].
  rewrite !walk_S by done. rewrite tree_S in He by done. rewrite (He b) by set_solver. apply IH. intros a Ha. apply He. right.
  destruct (c b !! Z.to_nat (n / 256 ^ Z.of_nat lvl)) as [y|] eqn:Ey; cbn in Ha; [|rewrite tree_hole in Ha; set_solver].
  eapply concat_in; [|exact Ha]. apply list_elem_of_fmap. exists y. split; [done|]. by eapply list_elem_of_lookup_2.
Qed.

(** A cleared block has no children. *)
Lemma concat_nils {A} n : concat (replicate n (@nil A)) = [].
Proof. induction n; done. Qed.

Lemma tree_zeros c lvl b : b <> 0 -> c b = zeros -> tree c lvl b = [b].
Proof.
  intros Hb Hz. destruct lvl; [cbn; by destruct (Z.eqb_spec b 0)|]. rewrite tree_S, Hz by done. unfold zeros. rewrite fmap_replicate, tree_hole.
  by rewrite concat_nils.
Qed.

Lemma zeros_lookup j : default 0 (zeros !! j) = 0.
Proof. destruct (zeros !! j) as [y|] eqn:E; [|done]. apply lookup_replicate in E as [-> _]. done. Qed.

Lemma walk_zeros c lvl b n : b <> 0 -> c b = zeros -> walk c (S lvl) b n = 0.
Proof.
  intros Hb Hz. rewrite walk_S, Hz by done. rewrite zeros_lookup. apply walk_hole.
Qed.

(** A number split into the index of a child and the number below it. *)
Lemma digit_range lvl n : 0 <= n < 256 ^ Z.of_nat (S lvl) -> 0 <= n / 256 ^ Z.of_nat lvl < 256 /\ 0 <= n mod 256 ^ Z.of_nat lvl < 256 ^ Z.of_nat lvl.
Proof.
  intros Hn. assert (0 < 256 ^ Z.of_nat lvl) as Hp by (apply Z.pow_pos_nonneg; lia). rewrite Nat2Z.inj_succ, Z.pow_succ_r in Hn by lia.
  split; [|by apply Z.mod_pos_bound]. split; [apply Z.div_pos; lia|]. apply Z.div_lt_upper_bound; lia.
Qed.

(** The index [bmap] computes. *)
Lemma digit_code lvl n : 0 <= n -> Z.land (Z.shiftr n (NSHIFT * Z.of_nat lvl)) NMASK = (n mod 256 ^ Z.of_nat (S lvl)) / 256 ^ Z.of_nat lvl.
Proof.
  intros Hn. change NMASK with (2 ^ 8 - 1). rewrite land_pow2_mod by lia. rewrite Z.shiftr_div_pow2 by (unfold NSHIFT; lia).
  assert (256 ^ Z.of_nat lvl = 2 ^ (NSHIFT * Z.of_nat lvl)) as <-.
  { unfold NSHIFT. rewrite Z.pow_mul_r by lia. done. }
  change (2 ^ 8) with 256. rewrite Nat2Z.inj_succ, Z.pow_succ_r by lia. rewrite (Z.mul_comm 256).
  set (p := 256 ^ Z.of_nat lvl). assert (0 < p) by (apply Z.pow_pos_nonneg; lia). rewrite Z.rem_mul_r by lia.
  rewrite (Z.mul_comm p ((n / p) mod 256)), Z.div_add by lia. rewrite (Z.div_small (n mod p) p) by (apply Z.mod_pos_bound; lia). lia.
Qed.

(** ** Trees side by side *)

(** All the trees but the one at [j]. *)
Definition rest (c : Z -> block) (lvs : list nat) (ch : list Z) (j : nat) : list Z :=
  forest c (take j lvs) (take j ch) ++ forest c (drop (S j) lvs) (drop (S j) ch).

Lemma tree_forest c k b : b <> 0 -> tree c (S k) b = b :: forest c (replicate (length (c b)) k) (c b).
Proof. intros Hb. rewrite tree_S by done. unfold forest. by rewrite zip_with_replicate_l. Qed.

Lemma forest_split c lvs ch j k y : lvs !! j = Some k -> ch !! j = Some y ->
  forest c lvs ch = forest c (take j lvs) (take j ch) ++ tree c k y ++ forest c (drop (S j) lvs) (drop (S j) ch).
Proof.
  revert lvs ch. induction j as [|j IH]; intros [|k0 lvs] [|y0 ch] Hk Hy; try done; cbn in Hk, Hy; [injection Hk as ->; by injection Hy as ->|].
  unfold forest in *. cbn. rewrite <- app_assoc. f_equal. by apply IH.
Qed.

Lemma forest_pick c lvs ch j k y : lvs !! j = Some k -> ch !! j = Some y -> forest c lvs ch ≡ₚ tree c k y ++ rest c lvs ch j.
Proof. intros Hk Hy. rewrite (forest_split _ _ _ _ _ _ Hk Hy). unfold rest. apply Permutation_app_swap_app. Qed.

Lemma forest_in c lvs ch a : a ∈ forest c lvs ch <-> exists j k y, lvs !! j = Some k /\ ch !! j = Some y /\ a ∈ tree c k y.
Proof.
  split.
  - revert ch. induction lvs as [|k lvs IH]; intros [|y ch] Ha; try by apply not_elem_of_nil in Ha. unfold forest in Ha. cbn in Ha. apply elem_of_app in Ha as [Ha|Ha].
    + by exists 0%nat, k, y.
    + destruct (IH ch Ha) as (j&k'&y'&?&?&?). by exists (S j), k', y'.
  - intros (j&k&y&Hk&Hy&Ha). rewrite (forest_pick _ _ _ _ _ _ Hk Hy). set_solver.
Qed.

Lemma forest_ext c c' lvs ch : (forall a, a ∈ forest c lvs ch -> c' a = c a) -> forest c' lvs ch = forest c lvs ch.
Proof.
  revert ch. induction lvs as [|k lvs IH]; intros [|y ch] He; try done. unfold forest in *. cbn in *. f_equal; [apply tree_ext|apply IH]; intros a Ha; apply He; set_solver.
Qed.

Lemma rest_ext c c' lvs ch j : (forall a, a ∈ rest c lvs ch j -> c' a = c a) -> rest c' lvs ch j = rest c lvs ch j.
Proof. intros He. unfold rest. f_equal; apply forest_ext; intros a Ha; apply He; unfold rest; set_solver. Qed.

Lemma rest_insert c lvs ch j y : rest c lvs (<[j:=y]> ch) j = rest c lvs ch j.
Proof. unfold rest. by rewrite take_insert_ge, drop_insert_lt by lia. Qed.

Lemma rest_in c lvs ch j i k y a : i <> j -> lvs !! i = Some k -> ch !! i = Some y -> a ∈ tree c k y -> a ∈ rest c lvs ch j.
Proof.
  intros Hne Hk Hy Ha. unfold rest. apply elem_of_app. destruct (decide (i < j)%nat); [left|right]; apply forest_in.
  - exists i, k, y. by rewrite !lookup_take_lt.
  - exists (i - S j)%nat, k, y. rewrite !lookup_drop. by replace (S j + (i - S j))%nat with i by lia.
Qed.

Lemma walk_in c k b n : walk c k b n <> 0 -> walk c k b n ∈ tree c k b.
Proof.
  revert b n. induction k as [|k IH]; intros b n Hw; (destruct (decide (b = 0)) as [->|Hb]; [by rewrite walk_hole in Hw|]).
  - cbn in *. destruct (Z.eqb_spec b 0); [done|]. set_solver.
  - rewrite walk_S in * by done. destruct (c b !! Z.to_nat (n / 256 ^ Z.of_nat k)) as [y|] eqn:Ey; cbn [default] in *; [|by rewrite walk_hole in Hw].
    rewrite tree_forest by done. right. apply forest_in. exists (Z.to_nat (n / 256 ^ Z.of_nat k)), k, y. split; [apply lookup_replicate_2; by eapply lookup_lt_Some|]. split; [done|by apply IH].
Qed.

(** Replacing the root [y] at [j], a hole or not, with [y'], and then changing
    only the tree below it. *)
Definition planted (c1 : Z -> block) (k : nat) (y y' : Z) (new : list Z) : Prop :=
  y' = y /\ new = [] \/ y = 0 /\ new = [y'] /\ (k <> 0%nat -> c1 y' = zeros).

Section descent.
Context (c c1 c' : Z -> block) (up : list Z) (lvs : list nat) (ch : list Z) (j k : nat) (y y' : Z) (new0 new1 l' : list Z).
Context (Hn : NoDup (up ++ forest c lvs ch ++ new0 ++ new1 ++ l')) (Hs : SUPERB ∉ up ++ forest c lvs ch ++ new0 ++ new1 ++ l').
Context (Hk : lvs !! j = Some k) (Hy : ch !! j = Some y) (Hy' : y' <> 0) (Hp : planted c1 k y y' new0).
Context (H1 : forall a, a <> SUPERB -> a ∉ up -> a ∉ new0 -> c1 a = c a).
Context (Ht : tree c' k y' ≡ₚ tree c1 k y' ++ new1) (H' : forall a, a <> SUPERB -> a ∉ tree c1 k y' -> a ∉ new1 -> c' a = c1 a).

Lemma planted_same a : a ∈ forest c lvs ch -> c1 a = c a.
Proof using All.
  intros Ha. apply H1; [intros ->; set_solver| |]; intros Hin.
  - apply NoDup_app in Hn as (_&Hd&_). apply (Hd a); set_solver.
  - apply NoDup_app in Hn as (_&_&Hn'). apply NoDup_app in Hn' as (_&Hd&_). apply (Hd a); set_solver.
Qed.

Lemma planted_tree : tree c1 k y' ≡ₚ tree c k y ++ new0.
Proof using All.
  pose proof planted_same as Hps. destruct Hp as [[-> ->]|(->&->&Hz)].
  - rewrite app_nil_r. rewrite (tree_ext c c1); [done|]. intros a Ha. apply Hps, forest_in. by exists j, k, y.
  - rewrite tree_hole. destruct k as [|k']; [|by rewrite tree_zeros by auto]. cbn. by destruct (Z.eqb_spec y' 0).
Qed.

Lemma planted_walk m : walk c1 k y' m = walk c k y m \/ y = 0 /\ new0 = [y'] /\ walk c k y m = 0 /\ (k <> 0%nat -> walk c1 k y' m = 0).
Proof using All.
  pose proof planted_same as Hps. destruct Hp as [[-> ->]|(->&->&Hz)]; [left|right].
  - apply walk_ext. intros a Ha. apply Hps, forest_in. by exists j, k, y.
  - split; [done|]. split; [done|]. split; [apply walk_hole|]. intros Hk0. destruct k as [|k']; [done|]. by apply walk_zeros; auto.
Qed.

Lemma descent_perm : up ++ forest c lvs ch ++ new0 ++ new1 ++ l' ≡ₚ tree c1 k y' ++ (up ++ rest c lvs ch j ++ new1 ++ l').
Proof using All. rewrite (forest_pick _ _ _ _ _ _ Hk Hy), planted_tree. solve_Permutation. Qed.

Lemma descent_above a : a ∈ up -> c' a = c1 a.
Proof using All.
  intros Ha. pose proof Hn as Hn'. rewrite descent_perm in Hn'. apply NoDup_app in Hn' as (_&Hd&Hn'). apply NoDup_app in Hn' as (_&Hd'&_). apply H'.
  - intros ->. set_solver.
  - intros Hin. apply (Hd a); set_solver.
  - intros Hin. apply (Hd' a); set_solver.
Qed.

Lemma descent_rest a : a ∈ rest c lvs ch j -> c' a = c a.
Proof using All.
  intros Ha. assert (a ∈ forest c lvs ch) as Haf by (rewrite (forest_pick _ _ _ _ _ _ Hk Hy); set_solver).
  pose proof Hn as Hn'. rewrite descent_perm in Hn'. apply NoDup_app in Hn' as (_&Hd&Hn'). apply NoDup_app in Hn' as (_&_&Hn'). apply NoDup_app in Hn' as (_&Hd'&_).
  rewrite H'; [by apply planted_same|intros ->; set_solver| |]; intros Hin; [apply (Hd a)|apply (Hd' a)]; set_solver.
Qed.

Lemma descent_forest : forest c' lvs (<[j:=y']> ch) ≡ₚ forest c lvs ch ++ new0 ++ new1.
Proof using All.
  rewrite (forest_pick c' lvs _ j k y') by (done || (apply list_lookup_insert_eq; by eapply lookup_lt_Some)). rewrite rest_insert, (rest_ext c c') by apply descent_rest.
  rewrite Ht, planted_tree, (forest_pick c lvs ch j k y) by done. solve_Permutation.
Qed.

Lemma descent_frame a : a <> SUPERB -> a ∉ up -> a ∉ forest c lvs ch -> a ∉ new0 ++ new1 -> c' a = c a.
Proof using All.
  intros Ha1 Ha2 Ha3 Ha4. rewrite H'; [apply H1; set_solver|done| |set_solver]. rewrite planted_tree. intros [Hin|Hin]%elem_of_app; [|set_solver].
  apply Ha3, forest_in. by exists j, k, y.
Qed.

Lemma descent_other i k2 y2 m : i <> j -> lvs !! i = Some k2 -> ch !! i = Some y2 -> walk c' k2 y2 m = walk c k2 y2 m.
Proof using All. intros Hne Hk2 Hy2. apply walk_ext. intros a Ha. apply descent_rest. by eapply rest_in. Qed.

End descent.

Section map_proofs.
Context {D : Type} {BD : BufDev D} {BS : BufSpec D}.

(** [m] more buffers can be had. *)
Definition spare (s : fsys D) (m : nat) : Prop := (size (held (fdev s)) + anon (fdev s) + m <= nbuf)%nat.

(** The blocks [new] were taken from the free ones for the tree [T], which is
    now [T']; nothing else changed. *)
Record extends (s s' : fsys D) (l new l' T T' : list Z) : Prop := {
  ex_list : l = new ++ l';
  ex_alloc : alloc_ok (content (fdev s')) (fsb s') l';
  ex_shape : same_shape (fsb s) (fsb s');
  ex_now : fnow s' = fnow s;
  ex_anon : anon (fdev s') = anon (fdev s);
  ex_held : held (fdev s') = held (fdev s);
  ex_tree : T' ≡ₚ T ++ new;
  ex_frame : forall a, a <> SUPERB -> a ∉ T -> a ∉ new -> content (fdev s') a = content (fdev s) a;
  ex_same : new = [] -> forall a, content (fdev s') a = content (fdev s) a
}.

(** What a search for a block with the value [w] before and [w'] after found:
    the block, new if there was a hole; or -1 in a hole. *)
Definition found (rw : rwflg) (w w' v : Z) (new l' : list Z) (e e' : Z) : Prop :=
  (v = w' /\ v <> 0 /\ e' = e /\ (w <> 0 -> w' = w /\ new = []) /\ (w = 0 -> rw = B_WRITE /\ v ∈ new)) \/
  (v = -1 /\ w = 0 /\ w' = 0 /\ (rw = B_READ /\ new = [] /\ e' = e \/ rw = B_WRITE /\ l' = [] /\ e' = FS_ENOSPC)).

(** The parts of a file system no step may touch by accident. *)
Record ready (s : fsys D) (l T : list Z) : Prop := {
  rd_alloc : alloc_ok (content (fdev s)) (fsb s) l;
  rd_nodup : NoDup (T ++ l);
  rd_data : Forall (in_data (fsb s)) T;
  rd_clear : forall a, a ∈ T ++ l -> a ∉ held (fdev s);
  rd_super : SUPERB ∉ held (fdev s);
  rd_room : spare s 1
}.

Lemma ready_room s l T : ready s l T -> room s.
Proof. intros [_ _ _ _ _ Hr]. unfold spare, room in *. lia. Qed.

Lemma ready_not_super s l T a : ready s l T -> a ∈ T ++ l -> a <> SUPERB.
Proof.
  intros [Ha _ Hd _ _ _] [Hin|Hin]%elem_of_app; (apply (data_not_super (fsb s)); [|apply Ha]).
  - rewrite Forall_forall in Hd. by apply Hd.
  - apply al_data in Ha. rewrite Forall_forall in Ha. by apply Ha.
Qed.

Lemma extends_refl s s' l T : ready s l T -> dev_step s s' (content (fdev s)) (held (fdev s)) (anon (fdev s)) -> extends s s' l [] l T T.
Proof.
  intros [Ha _ _ _ _ _] [F E N C Hh K]. constructor; try done; [|by rewrite F|by rewrite app_nil_r].
  rewrite F. eapply alloc_ext; [exact Ha|]. intros a _. apply C.
Qed.

Lemma dev_trans s1 s2 s3 c h k c' h' k' : dev_step s1 s2 c h k -> dev_step s2 s3 c' h' k' -> dev_step s1 s3 c' h' k'.
Proof. intros [] []. constructor; congruence. Qed.

(** A look at a block that is not held. *)
Lemma peek s b : b ∉ held (fdev s) -> room s -> exists s1 s2, fs_bread s b = Ok (s1, Contents (content (fdev s) b) false) /\
  dev_step s s1 (content (fdev s)) ({[b]} ∪ held (fdev s)) (anon (fdev s)) /\
  fs_brelse s1 b = Ok s2 /\ dev_step s s2 (content (fdev s)) (held (fdev s)) (anon (fdev s)).
Proof.
  intros Hb Hr. destruct (fs_bread_ok s b Hb Hr) as (s1&E1&D1). destruct (fs_brelse_ok s1 b) as (s2&E2&D2); [rewrite (ds_held _ _ _ _ _ D1); set_solver|].
  exists s1, s2. split; [done|]. split; [done|]. split; [done|]. destruct D1 as [F1 R1 N1 C1 H1 A1], D2 as [F2 R2 N2 C2 H2 A2]. constructor; try congruence.
  rewrite H2, H1. set_solver.
Qed.

Lemma in_ready_tree s l T T' : ready s l T -> (forall a, a ∈ T' -> a ∈ T) -> NoDup T' -> ready s l T'.
Proof.
  intros [Ha Hn Hd Hc Hs Hr] Hsub Hn'. apply NoDup_app in Hn as (_&Hdis&Hnl). constructor; try done.
  - apply NoDup_app. split; [done|]. split; [|done]. auto.
  - rewrite Forall_forall in *. auto.
  - intros a [?|?]%elem_of_app; apply Hc; set_solver.
Qed.

Lemma ready_step s s' l T : ready s l T -> dev_step s s' (content (fdev s)) (held (fdev s)) (anon (fdev s)) -> ready s' l T.
Proof.
  intros [Ha Hn Hd Hc Hs Hr] [F E N C Hh K]. constructor; rewrite ?F, ?Hh; try done; [|unfold spare in *; by rewrite Hh, K].
  eapply alloc_ext; [exact Ha|]. intros a _. apply C.
Qed.

Lemma on_clrbuf flags : on (Z.lor flags B_CLRBUF) B_CLRBUF = true.
Proof.
  unfold on. apply negb_true_iff, Z.eqb_neq. intros E. assert (Z.testbit (Z.land (Z.lor flags B_CLRBUF) B_CLRBUF) 0 = false) as Hb by (rewrite E; apply Z.testbit_0_l).
  rewrite Z.land_spec, Z.lor_spec in Hb. change (Z.testbit B_CLRBUF 0) with true in Hb. by rewrite orb_true_r in Hb.
Qed.

(** A new block written and let go. *)
Lemma put_new now s b x : b ∈ held (fdev s) -> length x = 256%nat ->
  exists s', put_now now b x s = Ok (s', 0) /\
    dev_step s s' (wrote (content (fdev s)) b x) (held (fdev s) ∖ {[b]}) (anon (fdev s)).
Proof.
  intros Hb Hx. unfold put_now. destruct now; [by apply fs_bwrite_ok|]. destruct (fs_bdwrite_ok s b x Hb Hx) as (s'&->&?). by exists s'.
Qed.

(** The state [s'] has the cleared block [new], off the free list, and the
    other changes [c]. *)
Record filled (s s' : fsys D) (l : list Z) (c : Z -> block) : Prop := {
  fi_alloc : alloc_ok (content (fdev s')) (fsb s') l;
  fi_shape : same_shape (fsb s) (fsb s');
  fi_err : ferr s' = ferr s;
  fi_now : fnow s' = fnow s;
  fi_anon : anon (fdev s') = anon (fdev s);
  fi_held : held (fdev s') = held (fdev s);
  fi_content : forall a, a <> SUPERB -> content (fdev s') a = c a
}.

(** A block taken for a pointer and written. *)
Lemma new_block now flags s l T new : ready s (new :: l) T -> exists s2 x s3, balloc flags s = Ok (s2, Some (new, x)) /\ length x = 256%nat /\ (on flags B_CLRBUF = true -> x = zeros) /\
  put_now now new x s2 = Ok (s3, 0) /\ filled s s3 l (wrote (content (fdev s)) new x).
Proof.
  intros Hr. pose proof Hr as [Ha Hn Hd Hc Hs _]. assert (new ∉ held (fdev s)) as Hnew by (apply Hc; set_solver).
  destruct (balloc_takes flags s new l Ha Hnew Hs (ready_room _ _ _ Hr)) as (s2&x&E2&Hx&Hz&[A2 S2 R2 N2 K2]&H2&C2).
  destruct (put_new now s2 new x) as (s3&E3&[F3 R3 N3 C3 H3 K3]); [rewrite H2; set_solver|done|].
  exists s2, x, s3. do 4 (split; [done|]). constructor; [|by rewrite F3|congruence|congruence|congruence|rewrite H3, H2; set_solver|].
  - rewrite F3. eapply alloc_ext; [exact A2|]. intros a Hin. rewrite C3. unfold wrote. rewrite decide_False; [done|]. intros ->.
    apply NoDup_app in Hn as (_&_&Hn). apply NoDup_cons in Hn as [? _]. done.
  - intros a Ha'. rewrite C3. unfold wrote. case_decide; [done|]. by apply C2.
Qed.

(** The states a loop of [bmap_levels] goes through when it fills a hole of
    the block [b], which it has read. *)
Lemma hole_filled now flags s s1 l T b x new : ready s (new :: l) T -> spare s 2 -> b ∈ T -> dev_step s s1 (content (fdev s)) ({[b]} ∪ held (fdev s)) (anon (fdev s)) ->
  length x = 256%nat ->
  exists s2 s3 s4, balloc (Z.lor flags B_CLRBUF) s1 = Ok (s2, Some (new, zeros)) /\
    put_now now new zeros s2 = Ok (s3, 0) /\ fs_bdwrite s3 b x = Ok s4 /\
    filled s s4 l (wrote (wrote (content (fdev s)) new zeros) b x).
Proof.
  intros Hr H2s Hb [F1 R1 N1 C1 H1 K1] Hx. pose proof Hr as [Ha Hn Hd Hc Hs Hroom].
  assert (b <> SUPERB) as Hbs by (apply (ready_not_super _ _ _ b Hr); set_solver).
  assert (b ∉ new :: l) as Hbl by (apply NoDup_app in Hn as (_&Hdis&_); auto).
  assert (new ∉ held (fdev s)) as Hnew by (apply Hc; set_solver). assert (b ∉ held (fdev s)) as Hbh by (apply Hc; set_solver).
  destruct (balloc_takes (Z.lor flags B_CLRBUF) s1 new l) as (s2&y&E2&_&Hz&[A2 S2 R2 N2 K2]&H2&C2).
  { rewrite F1. eapply alloc_ext; [exact Ha|]. intros a _. apply C1. }
  { rewrite H1. set_solver. }
  { rewrite H1. set_solver. }
  { unfold room, spare in *. rewrite H1, K1, size_union, size_singleton by set_solver. lia. }
  rewrite (Hz (on_clrbuf _)) in E2. destruct (put_new now s2 new zeros) as (s3&E3&[F3 R3 N3 C3 H3 K3]); [rewrite H2; set_solver|done|].
  destruct (fs_bdwrite_ok s3 b x) as (s4&E4&[F4 R4 N4 C4 H4 K4]); [rewrite H3, H2, H1; set_solver|done|].
  exists s2, s3, s4. do 3 (split; [done|]). constructor; [|rewrite F4, F3, <- F1; done|congruence|congruence|congruence|rewrite H4, H3, H2, H1; set_solver|].
  - rewrite F4, F3. eapply alloc_ext; [exact A2|]. intros a Hin. rewrite C4. unfold wrote. rewrite decide_False by (intros ->; set_solver). rewrite C3. unfold wrote.
    rewrite decide_False; [done|]. intros ->. apply NoDup_app in Hn as (_&_&Hn). apply NoDup_cons in Hn as [? _]. done.
  - intros a Ha'. rewrite C4. unfold wrote. case_decide; [done|]. rewrite C3. unfold wrote. case_decide; [done|]. by rewrite C2, C1.
Qed.

(** What a search of [k] levels below [b] does; a new block is found
    cleared, and no data is written. *)
Definition searched (k : nat) (rw : rwflg) (n b : Z) (s : fsys D) (l : list Z) (s' : fsys D) (v : Z) (new l' : list Z) : Prop :=
  extends s s' l new l' (tree (content (fdev s)) k b) (tree (content (fdev s')) k b) /\
  (forall m, 0 <= m < 256 ^ Z.of_nat k -> m <> n -> walk (content (fdev s')) k b m = walk (content (fdev s)) k b m) /\
  found rw (walk (content (fdev s)) k b n) (walk (content (fdev s')) k b n) v new l' (ferr s) (ferr s') /\
  (walk (content (fdev s)) k b n = 0 -> v <> -1 -> content (fdev s') v = zeros) /\
  (forall m, walk (content (fdev s)) k b m <> 0 -> content (fdev s') (walk (content (fdev s)) k b m) = content (fdev s) (walk (content (fdev s)) k b m)).

(** A step that leaves the blocks as they are. *)
Record settled (s s' : fsys D) (l : list Z) : Prop := {
  se_alloc : alloc_ok (content (fdev s')) (fsb s') l;
  se_shape : same_shape (fsb s) (fsb s');
  se_now : fnow s' = fnow s;
  se_content : forall a, content (fdev s') a = content (fdev s) a;
  se_held : held (fdev s') = held (fdev s);
  se_anon : anon (fdev s') = anon (fdev s)
}.

Lemma settled_dev s s' l : alloc_ok (content (fdev s)) (fsb s) l -> dev_step s s' (content (fdev s)) (held (fdev s)) (anon (fdev s)) -> settled s s' l.
Proof. intros Ha [F _ N C H K]. constructor; rewrite ?F; try done. eapply alloc_ext; [exact Ha|]. intros a _. apply C. Qed.

Lemma searched_none k n b s l rw s' : b <> 0 -> walk (content (fdev s)) k b n = 0 -> settled s s' l ->
  (rw = B_READ /\ ferr s' = ferr s \/ rw = B_WRITE /\ l = [] /\ ferr s' = FS_ENOSPC) -> searched k rw n b s l s' (-1) [] l.
Proof.
  intros Hb Hw [A S N C H K] He.
  assert (forall m, walk (content (fdev s')) k b m = walk (content (fdev s)) k b m) as Hwalk by (intros m; apply walk_ext; intros a _; apply C).
  split; [|split; [intros m _ _; apply Hwalk|]].
  - constructor; try done. rewrite app_nil_r. erewrite tree_ext; [done|]. intros a _. apply C.
  - split; [|split; [done|intros m _; apply C]]. right. rewrite Hwalk. split; [done|]. split; [done|]. split; [done|]. destruct He as [[-> ->]|(->&->&->)]; [left|right]; done.
Qed.

(** A search below a root that was there, or was planted in a hole. *)
Lemma found_up rw c c1 k y y' m v w' new0 new1 l' e e' : y' <> 0 ->
  walk c1 k y' m = walk c k y m /\ new0 = [] \/ rw = B_WRITE /\ new0 = [y'] /\ walk c k y m = 0 /\ (k <> 0%nat -> walk c1 k y' m = 0) ->
  found rw (walk c1 k y' m) w' v new1 l' e e' -> found rw (walk c k y m) w' v (new0 ++ new1) l' e e'.
Proof.
  intros Hy' [[-> ->]|(->&->&E&Hz)] Hf; [done|]. rewrite E. destruct Hf as [(->&Hv&He&H3&H4)|(->&Hw&Hw'&[(?&_)|(_&->&->)])]; [|done|].
  - left. split; [done|]. split; [done|]. split; [done|]. split; [done|]. intros _. split; [done|]. destruct k as [|k].
    + cbn [walk] in H3. destruct (Z.eqb_spec y' 0); [done|]. destruct H3 as [-> _]; [done|]. set_solver.
    + destruct H4 as [_ H4]; [by apply Hz|]. set_solver.
  - right. split; [done|]. split; [done|]. split; [done|]. by right.
Qed.

(** What the descent below one of the roots [ch] gives for all of them; [up]
    is the block that holds them, if any. *)
Record below (s s1 s' : fsys D) (up : list Z) (lvs : list nat) (ch : list Z) (j k : nat) (y y' n v : Z) (rw : rwflg) (new l' : list Z) : Prop := {
  be_forest : forest (content (fdev s')) lvs (<[j:=y']> ch) ≡ₚ forest (content (fdev s)) lvs ch ++ new;
  be_frame : forall a, a <> SUPERB -> a ∉ up -> a ∉ forest (content (fdev s)) lvs ch -> a ∉ new -> content (fdev s') a = content (fdev s) a;
  be_other : forall i k2 y2 m, i <> j -> lvs !! i = Some k2 -> ch !! i = Some y2 -> walk (content (fdev s')) k2 y2 m = walk (content (fdev s)) k2 y2 m;
  be_same : forall m, 0 <= m < 256 ^ Z.of_nat k -> m <> n -> walk (content (fdev s')) k y' m = walk (content (fdev s)) k y m;
  be_found : found rw (walk (content (fdev s)) k y n) (walk (content (fdev s')) k y' n) v new l' (ferr s) (ferr s');
  be_clear : (y <> 0 \/ content (fdev s1) y' = zeros \/ k <> 0%nat) -> walk (content (fdev s)) k y n = 0 -> v <> -1 -> content (fdev s') v = zeros;
  be_data : forall m, walk (content (fdev s)) k y m <> 0 -> content (fdev s') (walk (content (fdev s)) k y m) = content (fdev s) (walk (content (fdev s)) k y m);
  be_rest : forall a, a ∈ rest (content (fdev s)) lvs ch j -> content (fdev s') a = content (fdev s) a
}.

Lemma searched_below up lvs ch j k y y' n rw s l s1 new0 l1 s' v new1 l' :
  NoDup (up ++ forest (content (fdev s)) lvs ch ++ l) -> SUPERB ∉ up ++ forest (content (fdev s)) lvs ch ++ l ->
  lvs !! j = Some k -> ch !! j = Some y -> y' <> 0 -> 0 <= n < 256 ^ Z.of_nat k -> planted (content (fdev s1)) k y y' new0 -> (new0 = [] \/ rw = B_WRITE) ->
  filled s s1 l1 (content (fdev s1)) -> l = new0 ++ l1 ->
  (forall a, a <> SUPERB -> a ∉ up -> a ∉ new0 -> content (fdev s1) a = content (fdev s) a) ->
  searched k rw n y' s1 l1 s' v new1 l' ->
  below s s1 s' up lvs ch j k y y' n v rw (new0 ++ new1) l' /\ (forall a, a ∈ up -> content (fdev s') a = content (fdev s1) a).
Proof.
  intros Hnd Hns Hk Hy Hy' Hn Hp Hrw Hfi Hl Hfr (Hex&Hot&Hf&Hz&Hdt). pose proof Hex as [E2 A2 S2 N2 K2 H2 T2 F2 Q2].
  rewrite Hl, E2 in Hnd, Hns. set (c := content (fdev s)) in *. set (c1 := content (fdev s1)) in *. set (c' := content (fdev s')) in *.
  pose proof (planted_walk c c1 c' up lvs ch j k y y' new0 new1 l' Hnd Hns Hk Hy Hy' Hp Hfr T2 F2) as Hw. split; [|by eapply descent_above].
  assert (forall m, walk c k y m = walk c1 k y' m /\ new0 = [] \/ y = 0 /\ new0 = [y'] /\ walk c k y m = 0 /\ (k <> 0%nat -> walk c1 k y' m = 0)) as Hw'.
  { intros m. destruct Hp as [[-> ->]|(->&->&Hz0)].
    - left. by destruct (Hw m) as [E|(_&?&_)].
    - right. split; [done|]. split; [done|]. split; [apply walk_hole|]. intros Hk0. destruct k as [|k']; [done|]. by apply walk_zeros, Hz0. }
  constructor.
  - by eapply descent_forest.
  - intros a Ha1 Ha2 Ha3 Ha4. eapply (descent_frame c c1 c' up lvs ch j k y y' new0 new1 l'); done.
  - intros. eapply (descent_other c c1 c' up lvs ch j k y y' new0 new1 l'); done.
  - intros m Hm Hne. fold c c'. rewrite Hot by done. destruct (Hw' m) as [[-> _]|(->&_&E&Hk0)]; [done|]. rewrite E. destruct k as [|k']; [|by apply Hk0].
    change (256 ^ Z.of_nat 0) with 1 in *. lia.
  - apply (found_up rw c c1 k y y'); [done| |rewrite <- (fi_err _ _ _ _ Hfi); exact Hf]. destruct (Hw' n) as [[-> ->]|(->&->&?&?)]; [by left|right]. destruct Hrw; done.
  - intros Hcl E Hv. destruct (Hw' n) as [[E' _]|(->&Hnew&_&Hk0)]; [apply Hz; [by rewrite <- E'|done]|]. destruct k as [|k']; [|apply Hz; [by apply Hk0|done]].
    cbn [walk] in Hf. destruct (Z.eqb_spec y' 0); [done|]. destruct Hf as [(->&_&_&Hsm&_)|(->&_)]; [|done]. destruct Hsm as [_ Hnil]; [done|].
    cbn [walk]. destruct (Z.eqb_spec y' 0); [done|]. destruct Hcl as [?|[E1|?]]; [done| |done]. fold c'. rewrite Q2 by done. exact E1.
  - intros m Hm. fold c in Hm |- *. fold c'. destruct (Hw' m) as [[E _]|(_&_&E&_)]; [|by rewrite E in Hm]. rewrite E at 1. rewrite Hdt by (by rewrite <- E). rewrite <- E.
    eapply (planted_same c c1 c' up lvs ch j k y y' new0 new1 l'); [done..|]. apply forest_in. exists j, k, y. split; [done|]. split; [done|]. by apply walk_in.
  - intros a. eapply (descent_rest c c1 c' up lvs ch j k y y' new0 new1 l'); done.
Qed.

Lemma searched_up k rw n b s l s1 y y' new0 l1 s' v new1 l' :
  ready s l (tree (content (fdev s)) (S k) b) -> b <> 0 -> 0 <= n < 256 ^ Z.of_nat (S k) ->
  content (fdev s) b !! Z.to_nat (n / 256 ^ Z.of_nat k) = Some y -> y' <> 0 ->
  planted (content (fdev s1)) k y y' new0 -> (new0 = [] \/ content (fdev s1) y' = zeros /\ rw = B_WRITE) ->
  filled s s1 l1 (content (fdev s1)) -> l = new0 ++ l1 -> content (fdev s1) b = <[Z.to_nat (n / 256 ^ Z.of_nat k):=y']> (content (fdev s) b) ->
  (forall a, a <> SUPERB -> a <> b -> a ∉ new0 -> content (fdev s1) a = content (fdev s) a) ->
  (new0 = [] -> forall a, content (fdev s1) a = content (fdev s) a) ->
  searched k rw (n mod 256 ^ Z.of_nat k) y' s1 l1 s' v new1 l' -> searched (S k) rw n b s l s' v (new0 ++ new1) l'.
Proof.
  intros Hr Hb Hn Hy Hy' Hp Hrw Hfi Hl Eb Hfr Hsame Hse. pose proof Hr as [_ Hnd _ _ _ _]. destruct (digit_range k n Hn) as [Hd1 Hd2].
  pose proof Hse as ([E2 A2 S2 N2 K2 H2 T2 F2 Q2]&_). set (c := content (fdev s)) in *. set (i := Z.to_nat (n / 256 ^ Z.of_nat k)) in *. pose proof (lookup_lt_Some _ _ _ Hy) as Hi.
  assert (SUPERB ∉ tree c (S k) b ++ l) as Hns by (intros Hin; by apply (ready_not_super _ _ _ _ Hr Hin)). rewrite tree_forest in Hnd, Hns by done.
  destruct (searched_below [b] (replicate (length (c b)) k) (c b) i k y y' (n mod 256 ^ Z.of_nat k) rw s l s1 new0 l1 s' v new1 l') as [[Bf Bfr Bo Bs Bfo Bc Bd Br] Hab];
    [exact Hnd|exact Hns|by apply lookup_replicate_2|done|done|done|done|destruct Hrw as [|[_ ?]]; auto|done|done|intros; apply Hfr; set_solver|done|].
  assert (content (fdev s') b = <[i:=y']> (c b)) as Eb' by (rewrite Hab, Eb by set_solver; done). change (content (fdev s)) with c in Bf, Bfr, Bo, Bs, Bfo, Bc, Bd, Br.
  assert (forall m, Z.to_nat (m / 256 ^ Z.of_nat k) = i -> walk (content (fdev s')) (S k) b m = walk (content (fdev s')) k y' (m mod 256 ^ Z.of_nat k)) as Ew'.
  { intros m Em. rewrite walk_S, Eb', Em by done. by rewrite list_lookup_insert_eq. }
  assert (forall m, Z.to_nat (m / 256 ^ Z.of_nat k) = i -> walk c (S k) b m = walk c k y (m mod 256 ^ Z.of_nat k)) as Ew by (intros m Em; rewrite walk_S, Em by done; by rewrite Hy).
  destruct Hfi as [A1 S1 R1 N1 K1 H1 _]. split; [constructor; try congruence|split; [|split; [|split]]].
  - by rewrite E2, app_assoc in Hl.
  - by etransitivity.
  - rewrite !tree_forest by done. rewrite Eb', length_insert, Bf. done.
  - intros a Ha1 Ha2 Ha3. rewrite tree_forest in Ha2 by done. apply Bfr; set_solver.
  - intros Hnil a. apply app_eq_nil in Hnil as [-> ->]. rewrite Q2 by done. by apply Hsame.
  - intros m Hm Hne. fold c. destruct (digit_range k m Hm) as [Hm1 Hm2]. destruct (decide (Z.to_nat (m / 256 ^ Z.of_nat k) = i)) as [Ei|Ei].
    + rewrite Ew', Ew by done. apply Bs; [done|]. assert (m / 256 ^ Z.of_nat k = n / 256 ^ Z.of_nat k) as Ed by (unfold i in Ei; lia).
      pose proof (Z.div_mod m (256 ^ Z.of_nat k) ltac:(lia)). pose proof (Z.div_mod n (256 ^ Z.of_nat k) ltac:(lia)). congruence.
    + rewrite !walk_S, Eb', list_lookup_insert_ne by done. destruct (c b !! Z.to_nat (m / 256 ^ Z.of_nat k)) as [z|] eqn:Ez; cbn [default]; [|by rewrite !walk_hole].
      apply (Bo (Z.to_nat (m / 256 ^ Z.of_nat k))); [done| |done]. apply lookup_replicate_2. by eapply lookup_lt_Some.
  - fold c. rewrite Ew', Ew by done. exact Bfo.
  - fold c. rewrite Ew by done. apply Bc. destruct Hp as [[-> _]|(_&->&Hz)]; [by left|]. right. left. by destruct Hrw as [?|[Hz' _]].
  - intros m. change (content (fdev s)) with c. rewrite walk_S by done. destruct (decide (Z.to_nat (m / 256 ^ Z.of_nat k) = i)) as [Ei|Ei].
    + rewrite Ei, Hy. change (default 0 (Some y)) with y. exact (Bd _).
    + destruct (c b !! Z.to_nat (m / 256 ^ Z.of_nat k)) as [z|] eqn:Ez; cbn [default]; [|by rewrite walk_hole]. intros Hm. apply Br.
      eapply (rest_in c _ _ i (Z.to_nat (m / 256 ^ Z.of_nat k)) k z); [done| |done|by apply walk_in]. apply lookup_replicate_2. by eapply lookup_lt_Some.
Qed.

(** No block could be had for the hole that was read in [b]. *)
Lemma hole_full flags s s1 b : alloc_ok (content (fdev s)) (fsb s) [] -> b ∉ held (fdev s) ->
  dev_step s s1 (content (fdev s)) ({[b]} ∪ held (fdev s)) (anon (fdev s)) ->
  exists s2 s3, balloc flags s1 = Ok (s2, None) /\ fs_brelse s2 b = Ok s3 /\ settled s s3 [] /\ ferr s3 = FS_ENOSPC.
Proof.
  intros Ha Hb [F1 R1 N1 C1 H1 K1]. destruct (balloc_full flags s1) as (s2&E2&D2&S2&A2&R2&N2).
  { rewrite F1. eapply alloc_ext; [exact Ha|]. intros a _. apply C1. }
  destruct (fs_brelse_ok s2 b) as (s3&E3&[F3 R3 N3 C3 H3 K3]); [rewrite D2, H1; set_solver|]. exists s2, s3. split; [done|]. split; [done|].
  split; [|congruence]. constructor; [|by rewrite F3, <- F1|congruence| |rewrite H3, D2, H1; set_solver|congruence].
  - rewrite F3. eapply alloc_ext; [exact A2|]. intros a _. by rewrite C3.
  - intros a. by rewrite C3, D2, C1.
Qed.

Lemma child_in c k b i y a : b <> 0 -> c b !! i = Some y -> a ∈ tree c k y -> a ∈ tree c (S k) b.
Proof.
  intros Hb Hy Ha. rewrite tree_forest by done. right. apply forest_in. exists i, k, y. split; [|done]. apply lookup_replicate_2. by eapply lookup_lt_Some.
Qed.

Lemma child_nodup c k b i y l : b <> 0 -> c b !! i = Some y -> NoDup (tree c (S k) b ++ l) -> NoDup (tree c k y).
Proof.
  intros Hb Hy Hn. rewrite tree_forest in Hn by done. rewrite (forest_pick _ _ _ i k y) in Hn; [|apply lookup_replicate_2; by eapply lookup_lt_Some|done].
  apply NoDup_app in Hn as (Hn&_&_). apply NoDup_cons in Hn as [_ Hn]. by apply NoDup_app in Hn as (Hn&_&_).
Qed.

Lemma spare_filled s s' l c m : spare s m -> filled s s' l c -> spare s' m.
Proof. intros Hm [_ _ _ _ K H _]. unfold spare in *. by rewrite H, K. Qed.

Lemma spare_step s s' c m : spare s m -> dev_step s s' c (held (fdev s)) (anon (fdev s)) -> spare s' m.
Proof. intros Hm [_ _ _ _ H K]. unfold spare in *. by rewrite H, K. Qed.

Lemma filled_ready s s' new l T c : ready s (new :: l) T -> filled s s' l c -> ready s' l [new].
Proof.
  intros [[_ _ Hda _ _ _ _] Hn Hd Hc Hs Hr] [A S _ _ K H _]. apply Forall_cons in Hda as [Hda _]. constructor; rewrite ?H; try done.
  - apply NoDup_app in Hn as (_&_&Hn). exact Hn.
  - apply Forall_singleton. by eapply in_data_shape.
  - intros a Ha. apply Hc. set_solver.
  - unfold spare in *. by rewrite H, K.
Qed.

Lemma bmap_levels_ok k bn rw flags async : 0 <= bn -> forall s l b ra, ready s l (tree (content (fdev s)) k b) -> spare s 2 -> b <> 0 ->
  exists s' v ra' new l', bmap_levels k bn b ra rw flags async s = Ok (s', v, ra') /\ searched k rw (bn mod 256 ^ Z.of_nat k) b s l s' v new l'.
Proof.
  intros Hbn. induction k as [|k IH]; intros s l b ra Hr H2s Hb.
  { exists s, b, (Some ra), [], l. split; [done|]. split; [|split; [done|]].
    - apply extends_refl; [done|]. constructor; done.
    - cbn [walk]. destruct (Z.eqb_spec b 0); [done|]. split; [by left|done]. }
  set (c := content (fdev s)) in *. pose proof Hr as [Ha Hn _ Hc _ _]. assert (b ∈ tree c (S k) b) as Hbt by by apply tree_root.
  assert (b ∉ held (fdev s)) as Hbh by (apply Hc; set_solver).
  destruct (peek s b Hbh (ready_room _ _ _ Hr)) as (s1&s2&E1&D1&E2&D2). cbn [bmap_levels]. rewrite E1. cbn [mbind outcome_bind fst snd whole].
  rewrite digit_code by done. set (n := bn mod 256 ^ Z.of_nat (S k)). assert (0 <= n < 256 ^ Z.of_nat (S k)) as Hnr by (apply Z.mod_pos_bound, Z.pow_pos_nonneg; lia).
  destruct (digit_range k n Hnr) as [Hd _]. set (i := n / 256 ^ Z.of_nat k) in *.
  assert (n mod 256 ^ Z.of_nat k = bn mod 256 ^ Z.of_nat k) as Enk.
  { unfold n. rewrite Nat2Z.inj_succ, Z.pow_succ_r by lia. apply Z.mod_mod_divide. by exists 256. }
  destruct (lookup_lt_is_Some_2 (c b) (Z.to_nat i)) as [y Hy]; [unfold c; rewrite content_length; lia|].
  fold c. rewrite (rdz_ok (c b) i y) by (done || lia). cbn [mbind outcome_bind].
  assert (exists ra1, (if i <? NINDIR - 1 then rdz (c b) (i + 1) else Ok ra) = Ok ra1) as [ra1 ->].
  { destruct (Z.ltb_spec i (NINDIR - 1)); [|by eexists]. destruct (lookup_lt_is_Some_2 (c b) (Z.to_nat (i + 1))) as [z Hz]; [unfold c, NINDIR in *; rewrite content_length; lia|].
    exists z. by rewrite (rdz_ok _ _ z) by (done || lia). }
  cbn [mbind outcome_bind]. destruct (Z.eqb_spec y 0) as [->|Hy0].
  - (* a hole *)
    assert (walk c (S k) b n = 0) as Hw by (rewrite walk_S by done; fold i; rewrite Hy; apply walk_hole). destruct rw.
    + rewrite E2. cbn [mbind outcome_bind]. exists s2, (-1), None, [], l. split; [done|]. apply searched_none; [done|done|by apply settled_dev|]. left. split; [done|apply D2].
    + destruct l as [|nw l].
      * destruct (hole_full (Z.lor flags B_CLRBUF) s s1 b) as (s3&s4&->&E4&Hse&He); [done|done|done|]. cbn [mbind outcome_bind fst snd]. rewrite E4. cbn [mbind outcome_bind].
        exists s4, (-1), None, [], []. split; [done|]. apply searched_none; [done|done|done|]. by right.
      * set (x := <[Z.to_nat i:=nw]> (c b)).
        destruct (hole_filled (negb async && ((0 <? Z.of_nat k) || on flags B_SYNC)) flags s s1 l _ b x nw Hr H2s Hbt D1) as (s3&s4&s5&->&E4&E5&Hf); [unfold x, c; by rewrite length_insert, content_length|].
        cbn [mbind outcome_bind fst snd]. rewrite E4. cbn [mbind outcome_bind Z.eqb negb]. rewrite wrz_ok by (unfold c; rewrite content_length; lia). cbn [mbind outcome_bind].
        fold x. rewrite E5. cbn [mbind outcome_bind].
        assert (forall a, a ∈ tree c (S k) b ++ nw :: l -> a <> SUPERB) as Hns by (intros a Hin; by eapply ready_not_super).
        assert (b <> nw) as Hbn' by (intros <-; apply NoDup_app in Hn as (_&Hdis&_); apply (Hdis b); set_solver).
        assert (content (fdev s5) nw = zeros) as Hz by (rewrite (fi_content _ _ _ _ Hf) by (apply Hns; set_solver); unfold wrote; by rewrite decide_False, decide_True).
        assert (content (fdev s5) b = x) as Hx by (rewrite (fi_content _ _ _ _ Hf) by (apply Hns; set_solver); unfold wrote; by rewrite decide_True).
        assert (nw <> 0) as Hnw0 by (apply Hns; set_solver).
        destruct (IH s5 l nw ra1) as (s'&v&ra'&new&l'&->&Hs); [rewrite tree_zeros by done; by eapply filled_ready|by eapply spare_filled|done|].
        exists s', v, ra', ([nw] ++ new), l'. split; [done|]. eapply (searched_up k B_WRITE n b s _ s5 0 nw [nw] l); [done|done|done|done|done|by right; auto|by right|by destruct Hf|done|by rewrite Hx| |done|by rewrite Enk].
        intros a Ha1 Ha2 Ha3. rewrite (fi_content _ _ _ _ Hf) by done. unfold wrote. rewrite !decide_False by set_solver. done.
  - rewrite E2. cbn [mbind outcome_bind]. assert (forall a, content (fdev s2) a = c a) as C2 by apply D2.
    assert (tree (content (fdev s2)) k y = tree c k y) as Et by (apply tree_ext; intros a _; apply C2).
    destruct (IH s2 l y ra1) as (s'&v&ra'&new&l'&->&Hs); [|by eapply spare_step|done|].
    { rewrite Et. eapply in_ready_tree; [by eapply ready_step| |exact (child_nodup _ _ _ _ _ _ Hb Hy Hn)]. intros a. exact (child_in _ _ _ _ _ a Hb Hy). }
    exists s', v, ra', ([] ++ new), l'. split; [done|].
    eapply (searched_up k rw n b s l s2 y y [] l); [done|done|done|done|done|by left|by left| |done| |by intros; apply C2|by intros; apply C2|by rewrite Enk].
    + destruct D2 as [F2 R2 N2 _ H2 K2]. constructor; rewrite ?F2; try done. eapply alloc_ext; [exact Ha|]. intros a _. apply C2.
    + rewrite list_insert_id by done. apply C2.
Qed.

(** ** The file *)

Lemma slot_range bn j n : slot bn = Some (j, n) -> exists k, levels !! j = Some k /\ 0 <= n < 256 ^ Z.of_nat k.
Proof.
  unfold slot. destruct (Z.ltb_spec bn 0); [done|]. destruct (Z.ltb_spec bn 4).
  { intros [= <- <-]. assert (bn = 0 \/ bn = 1 \/ bn = 2 \/ bn = 3) as [->|[->|[->| ->]]] by lia; exists 0%nat; done. }
  destruct (Z.ltb_spec (bn - 4) 256); [intros [= <- <-]; exists 1%nat; split; [done|change (256 ^ Z.of_nat 1) with (256 ^ 1); lia]|].
  destruct (Z.ltb_spec (bn - 4 - 256) (256 ^ 2)); [intros [= <- <-]; exists 2%nat; split; [done|change (256 ^ Z.of_nat 2) with (256 ^ 2); lia]|].
  destruct (Z.ltb_spec (bn - 4 - 256 - 256 ^ 2) (256 ^ 3)); [intros [= <- <-]; exists 3%nat; split; [done|change (256 ^ Z.of_nat 3) with (256 ^ 3); lia]|done].
Qed.

Lemma slot_inj a b j n : slot a = Some (j, n) -> slot b = Some (j, n) -> a = b.
Proof.
  unfold slot. destruct (Z.ltb_spec a 0); [done|]. destruct (Z.ltb_spec b 0); [done|].
  destruct (Z.ltb_spec a 4), (Z.ltb_spec b 4), (Z.ltb_spec (a - 4) 256), (Z.ltb_spec (b - 4) 256),
    (Z.ltb_spec (a - 4 - 256) (256 ^ 2)), (Z.ltb_spec (b - 4 - 256) (256 ^ 2)),
    (Z.ltb_spec (a - 4 - 256 - 256 ^ 2) (256 ^ 3)), (Z.ltb_spec (b - 4 - 256 - 256 ^ 2) (256 ^ 3)); intros Ha Hb; simplify_eq; lia.
Qed.

(** The blocks a file can have. *)
Definition MAXBLK : Z := 4 + 256 + 256 ^ 2 + 256 ^ 3.

Lemma slot_direct bn : 0 <= bn < 4 -> slot bn = Some (Z.to_nat bn, 0).
Proof. intros Hb. unfold slot. destruct (Z.ltb_spec bn 0); [lia|]. destruct (Z.ltb_spec bn 4); [done|lia]. Qed.

(** [bmap_depth] finds the slot. *)
Lemma slot_indirect bn : 4 <= bn < MAXBLK -> exists j n, slot bn = Some (j, n) /\ bmap_depth 3 1 (bn - 4) = Some ((7 - j)%nat, n) /\ (4 <= j <= 6)%nat.
Proof.
  unfold MAXBLK. intros Hb. unfold slot. destruct (Z.ltb_spec bn 0); [lia|]. destruct (Z.ltb_spec bn 4); [lia|].
  cbn [bmap_depth]. change (Z.shiftl 1 NSHIFT) with 256. change (Z.shiftl 256 NSHIFT) with (256 ^ 2). change (Z.shiftl (256 ^ 2) NSHIFT) with (256 ^ 3).
  destruct (Z.ltb_spec (bn - 4) 256); [exists 4%nat, (bn - 4); split; [done|split; [done|lia]]|].
  destruct (Z.ltb_spec (bn - 4 - 256) (256 ^ 2)); [exists 5%nat, (bn - 4 - 256); split; [done|split; [done|lia]]|].
  destruct (Z.ltb_spec (bn - 4 - 256 - 256 ^ 2) (256 ^ 3)); [exists 6%nat, (bn - 4 - 256 - 256 ^ 2); split; [done|split; [done|lia]]|lia].
Qed.

Lemma levels_indirect j : (4 <= j <= 6)%nat -> levels !! j = Some (j - 3)%nat.
Proof. intros Hj. assert (j = 4 \/ j = 5 \/ j = 6)%nat as [->|[->| ->]] by lia; done. Qed.

Lemma file_block_slot c addr bn j n k y : slot bn = Some (j, n) -> levels !! j = Some k -> addr !! j = Some y -> file_block c addr bn = walk c k y n.
Proof. intros E Hk Hy. unfold file_block. by rewrite E, Hk, Hy. Qed.

(** What [bmap] does to a file: at most the hole at [bn] is filled, with a
    block off the free list. *)
Definition mapped (rw : rwflg) (bn flags : Z) (addr : list Z) (s : fsys D) (l : list Z) (s' : fsys D) (addr' : list Z) (v : Z) (new l' : list Z) : Prop :=
  length addr' = 7%nat /\ extends s s' l new l' (owned (content (fdev s)) addr) (owned (content (fdev s')) addr') /\
  (forall m, m <> bn -> file_block (content (fdev s')) addr' m = file_block (content (fdev s)) addr m) /\
  found rw (file_block (content (fdev s)) addr bn) (file_block (content (fdev s')) addr' bn) v new l' (ferr s) (ferr s') /\
  (4 <= bn \/ on flags B_CLRBUF = true -> file_block (content (fdev s)) addr bn = 0 -> v <> -1 -> content (fdev s') v = zeros) /\
  (forall m, file_block (content (fdev s)) addr m <> 0 -> content (fdev s') (file_block (content (fdev s)) addr m) = content (fdev s) (file_block (content (fdev s)) addr m)).

Lemma searched_file bn flags j k n addr y y' rw s l s1 new0 l1 s' v new1 l' :
  ready s l (owned (content (fdev s)) addr) -> length addr = 7%nat -> slot bn = Some (j, n) -> levels !! j = Some k -> addr !! j = Some y -> y' <> 0 ->
  planted (content (fdev s1)) k y y' new0 -> (new0 = [] \/ rw = B_WRITE) -> (k <> 0%nat -> 4 <= bn) -> (new0 = [] \/ k <> 0%nat \/ (on flags B_CLRBUF = true -> content (fdev s1) y' = zeros)) ->
  filled s s1 l1 (content (fdev s1)) -> l = new0 ++ l1 -> (k = 0%nat -> bn < 4) ->
  (forall a, a <> SUPERB -> a ∉ new0 -> content (fdev s1) a = content (fdev s) a) -> (new0 = [] -> forall a, content (fdev s1) a = content (fdev s) a) ->
  searched k rw n y' s1 l1 s' v new1 l' -> mapped rw bn flags addr s l s' (<[j:=y']> addr) v (new0 ++ new1) l'.
Proof.
  intros Hr Hlen Hsl Hk Hy Hy' Hp Hrw Hk4 Hcl Hfi Hl Hk0 Hfr Hsame Hse. pose proof Hr as [_ Hnd _ _ _ _].
  destruct (slot_range _ _ _ Hsl) as (k'&Hk'&Hn). rewrite Hk in Hk'. injection Hk' as <-.
  pose proof Hse as ([E2 A2 S2 N2 K2 H2 T2 F2 Q2]&_). set (c := content (fdev s)) in *. pose proof (lookup_lt_Some _ _ _ Hy) as Hi.
  assert (SUPERB ∉ owned c addr ++ l) as Hns by (intros Hin; by apply (ready_not_super _ _ _ _ Hr Hin)).
  destruct (searched_below [] levels addr j k y y' n rw s l s1 new0 l1 s' v new1 l') as [[Bf Bfr Bo Bs Bfo Bc Bd Br] _]; try done; [intros; by apply Hfr|].
  assert (<[j:=y']> addr !! j = Some y') as Hy1 by (by apply list_lookup_insert_eq). destruct Hfi as [A1 S1 R1 N1 K1 H1 _].
  split; [by rewrite length_insert|]. split; [constructor; try congruence|split; [|split; [|split]]].
  - by rewrite E2, app_assoc in Hl.
  - by etransitivity.
  - exact Bf.
  - intros a Ha1 Ha2 Ha3. apply Bfr; set_solver.
  - intros Hnil a. apply app_eq_nil in Hnil as [-> ->]. rewrite Q2 by done. by apply Hsame.
  - intros m Hm. unfold file_block. destruct (slot m) as [[i p]|] eqn:Em; [|done]. destruct (decide (i = j)) as [->|Hne].
    + rewrite Hk, Hy, Hy1. cbn [default]. destruct (slot_range _ _ _ Em) as (k'&Hk'&Hp'). rewrite Hk in Hk'. injection Hk' as <-.
      apply Bs; [done|]. intros ->. apply Hm. by eapply slot_inj.
    + rewrite list_lookup_insert_ne by done. destruct (slot_range _ _ _ Em) as (k'&Hk'&Hp'). rewrite Hk'. cbn [default].
      destruct (addr !! i) as [z|] eqn:Ez; cbn [default]; [|by rewrite !walk_hole]. by eapply Bo.
  - rewrite (file_block_slot _ _ _ _ _ _ _ Hsl Hk Hy), (file_block_slot _ _ _ _ _ _ _ Hsl Hk Hy1). exact Bfo.
  - rewrite (file_block_slot _ _ _ _ _ _ _ Hsl Hk Hy). intros Hb. apply Bc. destruct Hp as [[-> _]|(_&->&Hz)]; [by left|]. right.
    destruct Hcl as [?|[?|Hc0]]; [done|by right|]. destruct Hb as [Hb|Hb]; [right; intros ->; by specialize (Hk0 eq_refl); lia|left; by apply Hc0].
  - intros m. unfold file_block. destruct (slot m) as [[i p]|] eqn:Em; [|done]. destruct (slot_range _ _ _ Em) as (k'&Hk'&_). destruct (decide (i = j)) as [->|Hne].
    + rewrite Hk, Hy. exact (Bd _).
    + rewrite Hk'. cbn [default]. destruct (addr !! i) as [z|] eqn:Ez; cbn [default]; [|by rewrite walk_hole]. intros Hm. apply Br. eapply rest_in; [done|done|done|by apply walk_in].
Qed.

(** The two ways [bmap_root] ends: there is no root, or there is one, and the
    search below it gives the rest. *)
Lemma bmap_root_ok bn flags flags' now j n k ip rw s l y : ready s l (owned (content (fdev s)) (i_addr ip)) -> length (i_addr ip) = 7%nat ->
  slot bn = Some (j, n) -> levels !! j = Some k -> i_addr ip !! j = Some y -> (k <> 0%nat -> 4 <= bn) -> (k = 0%nat -> bn < 4) ->
  (k <> 0%nat -> on flags' B_CLRBUF = true) -> (on flags B_CLRBUF = true -> on flags' B_CLRBUF = true) ->
  exists s1 ip1 nb, bmap_root ip (Z.of_nat j) rw flags' now s = Ok (s1, ip1, nb) /\
    (ip1 = ip \/ ip1 = set_iflag (set_iaddr ip (i_addr ip1)) (Z.lor (i_flag ip) (Z.lor IUPD ICHG))) /\ length (i_addr ip1) = 7%nat /\
    match nb with
    | None => mapped rw bn flags (i_addr ip) s l s1 (i_addr ip) (-1) [] l /\ ip1 = ip
    | Some y' => exists new0 l1, y' <> 0 /\ ready s1 l1 (tree (content (fdev s1)) k y') /\ (spare s 2 -> spare s1 2) /\
        forall s' v new1 l', searched k rw n y' s1 l1 s' v new1 l' -> mapped rw bn flags (i_addr ip) s l s' (i_addr ip1) v (new0 ++ new1) l'
    end.
Proof.
  intros Hr Hlen Hsl Hk Hy Hk4 Hk0 Hf1 Hf2. pose proof Hr as [Ha Hn Hd Hc _ _]. set (c := content (fdev s)) in *. unfold bmap_root.
  rewrite (rdz_ok _ _ y) by (lia || by rewrite Nat2Z.id). cbn [mbind outcome_bind].
  assert (forall s', settled s s' l -> y = 0 -> (rw = B_READ /\ ferr s' = ferr s \/ rw = B_WRITE /\ l = [] /\ ferr s' = FS_ENOSPC) ->
    mapped rw bn flags (i_addr ip) s l s' (i_addr ip) (-1) [] l) as Hnone.
  { intros s' [A S N C H K] -> He. fold c in C. assert (forall m, file_block (content (fdev s')) (i_addr ip) m = file_block c (i_addr ip) m) as Hfb.
    { intros m. unfold file_block. destruct (slot m) as [[]|]; [|done]. apply walk_ext. intros a _. apply C. }
    assert (file_block c (i_addr ip) bn = 0) as Hz by (rewrite (file_block_slot _ _ _ _ _ _ _ Hsl Hk Hy); apply walk_hole).
    split; [done|]. split; [|split; [done|split; [|split; [done|intros m _; apply C]]]].
    - constructor; try done. unfold owned. rewrite app_nil_r. rewrite (forest_ext c); [done|]. intros a _. apply C.
    - right. fold c. rewrite Hfb. do 3 (split; [done|]). destruct He as [[-> ->]|(->&->&->)]; [left|right]; done. }
  destruct (Z.eqb_spec y 0) as [->|Hy0]; cbn [negb].
  - destruct rw.
    + exists s, ip, None. split; [done|]. split; [by left|]. split; [done|]. split; [|done]. apply Hnone; [|done|by left]. by constructor.
    + destruct l as [|nw l].
      * destruct (balloc_full flags' s) as (s1&->&Hd1&Hs1&Ha1&He1&Hn1); [done|]. cbn [mbind outcome_bind fst snd]. exists s1, ip, None. split; [done|].
        split; [by left|]. split; [done|]. split; [|done]. apply Hnone; [|done|by right]. constructor; try done; by rewrite Hd1.
      * destruct (new_block now flags' s l _ nw Hr) as (s1&x&s2&->&Hx&Hz&E&Hfi). cbn [mbind outcome_bind fst snd]. rewrite E. cbn [mbind outcome_bind Z.eqb negb].
        rewrite wrz_ok by (apply lookup_lt_Some in Hy; lia). cbn [mbind outcome_bind]. rewrite Nat2Z.id. eexists s2, _, (Some nw). split; [done|].
        split; [by right|]. split; [cbn; by rewrite length_insert|]. assert (nw <> 0) as Hnw by (eapply (ready_not_super _ _ _ _ Hr); set_solver).
        assert (content (fdev s2) nw = x) as Ex by (rewrite (fi_content _ _ _ _ Hfi) by done; unfold wrote; by rewrite decide_True).
        exists [nw], l. split; [done|]. split.
        { replace (tree (content (fdev s2)) k nw) with [nw]; [by eapply filled_ready|]. destruct k; [cbn; by destruct (Z.eqb_spec nw 0)|]. rewrite tree_zeros; [done|done|]. by rewrite Ex, Hz by auto. }
        split; [intros ?; by eapply spare_filled|]. intros s' v new1 l' Hse. eapply (searched_file bn flags j k n (i_addr ip) 0 nw B_WRITE s _ s2 [nw] l); try done; [right; split; [done|split; [done|intros ?; rewrite Ex; auto]]|by right| |by destruct Hfi|].
        -- right. right. intros ?. rewrite Ex. auto.
        -- intros a Ha1 Ha2. rewrite (fi_content _ _ _ _ Hfi) by done. unfold wrote. rewrite decide_False by set_solver. done.
  - exists s, ip, (Some y). split; [done|]. split; [by left|]. split; [done|]. exists [], l. split; [done|]. split.
    + eapply in_ready_tree; [done| |].
      * intros a Hin. apply forest_in. by exists j, k, y.
      * apply NoDup_app in Hn as (Hn&_). unfold owned in Hn. rewrite (forest_pick _ _ _ j k y) in Hn by done. by apply NoDup_app in Hn as (Hn&_).
    + split; [done|]. intros s' v new1 l' Hse. rewrite <- (list_insert_id (i_addr ip) j y) at 2 by done. eapply (searched_file bn flags j k n (i_addr ip) y y rw s l s [] l); try done; try (by left); by constructor.
Qed.

Lemma bmap_ok ip bn rw flags ra s l : 0 <= bn < MAXBLK -> length (i_addr ip) = 7%nat -> ready s l (owned (content (fdev s)) (i_addr ip)) -> spare s 2 ->
  exists s' ip' v ra' new l', bmap ip bn rw flags ra s = Ok (s', ip', v, ra') /\ mapped rw bn flags (i_addr ip) s l s' (i_addr ip') v new l' /\
    (ip' = ip \/ ip' = set_iflag (set_iaddr ip (i_addr ip')) (Z.lor (i_flag ip) (Z.lor IUPD ICHG))).
Proof.
  intros Hbn Hlen Hr H2s. unfold bmap. destruct (Z.ltb_spec bn 0); [lia|]. set (async := _ && _). change (NADDR - 3) with 4. destruct (Z.ltb_spec bn 4).
  - destruct (lookup_lt_is_Some_2 (i_addr ip) (Z.to_nat bn)) as [y Hy]; [lia|].
    assert (levels !! Z.to_nat bn = Some 0%nat) as Hk by (assert (bn = 0 \/ bn = 1 \/ bn = 2 \/ bn = 3) as [->|[->|[->| ->]]] by lia; done).
    destruct (bmap_root_ok bn flags flags (on flags B_SYNC) (Z.to_nat bn) 0 0 ip rw s l y Hr Hlen) as (s1&ip1&nb&E&Hip&Hlen1&Hcase);
      [apply slot_direct; lia|done|done|done|done|done|done|]. rewrite Z2Nat.id in E by lia. rewrite E. cbn [mbind outcome_bind]. destruct nb as [y'|].
    + destruct Hcase as (new0&l1&Hy'&Hr1&Hsp&Hup).
      destruct (bmap_levels_ok 0 0 rw flags async ltac:(lia) s1 l1 y' 0 Hr1 (Hsp H2s) Hy') as (s'&v&ra'&new&l'&E'&Hse). cbn [bmap_levels] in E'. injection E' as <- <- _.
      assert (exists ra1, (if bn <? NADDR - 4 then rdz (i_addr ip1) (bn + 1) else Ok 0) = Ok ra1) as [ra1 ->].
      { destruct (Z.ltb_spec bn (NADDR - 4)); [|by eexists]. destruct (lookup_lt_is_Some_2 (i_addr ip1) (Z.to_nat (bn + 1))) as [z Hz]; [unfold NADDR in *; lia|].
        exists z. by rewrite (rdz_ok _ _ z) by (done || lia). }
      cbn [mbind outcome_bind]. exists s1, ip1, y', ra1, (new0 ++ new), l'. split; [done|]. split; [|done]. by apply Hup.
    + destruct Hcase as [Hm ->]. exists s1, ip, (-1), 0, [], l. done.
  - destruct (slot_indirect bn) as (j&n&Hsl&->&Hj); [lia|]. pose proof (levels_indirect j Hj) as Hk. destruct (slot_range _ _ _ Hsl) as (k&Hk'&Hn).
    rewrite Hk in Hk'. injection Hk' as <-. destruct (lookup_lt_is_Some_2 (i_addr ip) j) as [y Hy]; [lia|].
    destruct (bmap_root_ok bn flags (Z.lor flags B_CLRBUF) (negb async) j n (j - 3) ip rw s l y Hr Hlen) as (s1&ip1&nb&E&Hip&Hlen1&Hcase);
      [done|done|done|done|lia|intros _; apply on_clrbuf|intros _; apply on_clrbuf|].
    replace (NADDR - Z.of_nat (7 - j)) with (Z.of_nat j) by (unfold NADDR; lia). rewrite E. cbn [mbind outcome_bind]. destruct nb as [y'|].
    + destruct Hcase as (new0&l1&Hy'&Hr1&Hsp&Hup). replace (4 - (7 - j))%nat with (j - 3)%nat by lia.
      destruct (bmap_levels_ok (j - 3) n rw flags async ltac:(lia) s1 l1 y' 0 Hr1 (Hsp H2s) Hy') as (s'&v&ra'&new&l'&->&Hse). cbn [mbind outcome_bind].
      exists s', ip1, v, (default 0 ra'), (new0 ++ new), l'. split; [done|]. split; [|done]. apply Hup. by rewrite Z.mod_small in Hse.
    + destruct Hcase as [Hm ->]. exists s1, ip, (-1), 0, [], l. done.
Qed.

(** C28. [bmap] is the map of a file. For every block number a file can have,
    [bmap] of a well-formed file on a device without errors returns; asked to
    read it gives the block the inode's trees hold there, or -1 in a hole;
    asked to write it fills a hole with a block of the free list, which is
    found cleared below an indirect block, or gives -1 when there is none left.
    No other block of the file moves, the blocks it takes (indirect ones
    included) are now the file's and no longer free, and no block of anything
    else is written. *)
Theorem bmap_maps ip bn rw flags ra s l : 0 <= bn < MAXBLK -> length (i_addr ip) = 7%nat -> ready s l (owned (content (fdev s)) (i_addr ip)) -> spare s 2 ->
  exists s' ip' v ra' new l', bmap ip bn rw flags ra s = Ok (s', ip', v, ra') /\ mapped rw bn flags (i_addr ip) s l s' (i_addr ip') v new l' /\
    (ip' = ip \/ ip' = set_iflag (set_iaddr ip (i_addr ip')) (Z.lor (i_flag ip) (Z.lor IUPD ICHG))).
Proof. apply bmap_ok. Qed.

End map_proofs.

(** ** A file of the device in memory *)

(** Eleven free blocks, and an empty file. *)
Definition demo_free : list Z := seqZ 64 11.
Definition demo_sys : fsys ramdisk := Fsys (Ramdisk (fun _ => zeros) ∅ 0) (set_frees (demo_fs 11 []) 12 (0 :: rev demo_free ++ replicate 188 0)) 0 0.
Definition demo_inode : inode := Inode 3 0 (replicate 7 0) 0x8180 1 0 0 0 0 0 0 0.

Lemma demo_alloc : alloc_ok (content (fdev demo_sys)) (fsb demo_sys) demo_free.
Proof.
  constructor; [done| |apply (bool_decide_eq_true_1 _); by vm_compute|apply (bool_decide_eq_true_1 _); by vm_compute|done|done|done].
  right. apply chain_end; done.
Qed.

Lemma demo_ready : ready demo_sys demo_free [].
Proof.
  constructor; [exact demo_alloc|apply demo_alloc|constructor|intros a _; apply not_elem_of_empty|apply not_elem_of_empty|].
  unfold spare. apply (bool_decide_eq_true_1 _). by vm_compute.
Qed.

(** Writing far into an empty file takes the roots on the way. *)
Lemma bmap_maps_witness : exists s' ip' ra', bmap demo_inode 300 B_WRITE 0 0 demo_sys = Ok (s', ip', 66, ra') /\
  file_block (content (fdev s')) (i_addr ip') 300 = 66 /\ content (fdev s') 66 = zeros.
Proof.
  assert (match bmap demo_inode 300 B_WRITE 0 0 demo_sys with Ok (_, _, v, _) => v | _ => 0 end = 66) as Hv by by vm_compute.
  destruct (bmap_maps demo_inode 300 B_WRITE 0 0 demo_sys demo_free) as (s'&ip'&v&ra'&new&l'&E&(_&_&_&Hf&Hz&_)&_); [apply (bool_decide_eq_true_1 _); by vm_compute|reflexivity|exact demo_ready|unfold spare; apply (bool_decide_eq_true_1 _); by vm_compute|].
  rewrite E in Hv. subst v. exists s', ip', ra'. split; [exact E|]. assert (file_block (content (fdev demo_sys)) (i_addr demo_inode) 300 = 0) as H0 by (vm_compute; reflexivity). split.
  - destruct Hf as [(Ev&_)|(Ev&_)]; [exact (eq_sym Ev)|discriminate Ev].
  - apply Hz; [left; lia|exact H0|lia].
Defined.
