(* ===== verification/Fstrunc.v ===== *)
(** * Truncation ([itrunc], [indirtrunc], [trsingle], [iupdat] of
    [sys/kern/ufs_inode.c])

    [itrunc] cuts the end of a file off: each indirect block that stays is
    first rewritten without the numbers past the cut, then what hung below
    them is freed, last block first. A copy of the block being cut stays in
    an empty buffer meanwhile. *)
From stdpp Require Import gmap sets.
From S2P Require Import Prelude Fsalloc Fsmap.

Section trunc.
Context {D : Type} {BD : BufDev D}.

(** Written without waiting, its error not seen. *)
Definition fs_bawrite (s : fsys D) (b : Z) (x : block) : outcome (fsys D) := r ← bwrite (fdev s) b x; Ok (with_dev s (fst r)).

(** [trsingle]: the numbers of an indirect block past [last], last one
    first. *)
Fixpoint free_each (l : list Z) (s : fsys D) : outcome (fsys D) :=
  match l with
  | [] => Ok s
  | b :: l' => s ← (if b =? 0 then Ok s else free b s); free_each l' s
  end.

Definition trsingle (x : block) (last : Z) (s : fsys D) : outcome (fsys D) := free_each (rev (drop (Z.to_nat (last + 1)) x)) s.

(** The loop of [indirtrunc] over whole trees, whose roots are freed last;
    [trunc] is the recursive call. *)
Fixpoint indir_each (trunc : Z -> fsys D -> outcome (fsys D)) (l : list Z) (s : fsys D) : outcome (fsys D) :=
  match l with
  | [] => Ok s
  | nb :: l' => s ← (if nb =? 0 then Ok s else s ← trunc nb s; free nb s); indir_each trunc l' s
  end.

(** [indirtrunc]; [level] 0, 1 and 2 are SINGLE, DOUBLE and TRIPLE. *)
Fixpoint indirtrunc (level : nat) (bn lastbn : Z) (aflags : Z) (s : fsys D) : outcome (fsys D) :=
  let factor := NINDIR ^ Z.of_nat level in
  let last := if 0 <? lastbn then lastbn / factor else lastbn in
  r ← fs_bread s bn;
  let s := fst r in
  match no_error (snd r) with
  | None => fs_brelse s bn
  | Some x =>
      d ← geteblk (fdev s);
      let s := with_dev s d in
      let kept := take (Z.to_nat (last + 1)) x ++ replicate (256 - Z.to_nat (last + 1)) 0 in
      s ← (if on aflags B_SYNC then r ← fs_bwrite s bn kept; Ok (fst r) else fs_bawrite s bn kept);
      s ← match level with
          | O => trsingle x last s
          | S l =>
              s ← indir_each (fun nb => indirtrunc l nb (-1) aflags) (rev (drop (Z.to_nat (last + 1)) x)) s;
              if 0 <=? lastbn then
                nb ← rdz x last;
                if nb =? 0 then Ok s else indirtrunc l nb (lastbn mod factor) aflags s
              else Ok s
          end;
      d ← brelse_empty (fdev s);
      Ok (with_dev s d)
  end.

(** [itod] and [itoo]. *)
Definition itod (n : Z) : Z := u32 (n + INOPB - 1) / INOPB.
Definition itoo (n : Z) : Z := u32 (n + INOPB - 1) mod INOPB.

(** [struct dinode] of [ip], in a block at [k]. *)
Definition dinode_put (ip : inode) (k : nat) (x : block) : block :=
  take (16 * k) x ++ [i_mode ip + Z.shiftl (i_nlink ip) 16; i_uid ip; i_gid ip; i_size ip] ++ i_addr ip ++
  [default 0 (x !! (16 * k + 11)%nat); i_flags ip; i_atime ip; i_mtime ip; i_ctime ip] ++ drop (16 * k + 16) x.

(** [iupdat], with the times [ta] and [tm] for the access and the
    modification. *)
Definition iupdat_at (ta tm : Z) (ip : inode) (waitfor : bool) (s : fsys D) : outcome (fsys D * inode * Z) :=
  let dirty := Z.land (i_flag ip) (Z.lor (Z.lor IUPD IACC) (Z.lor ICHG IMOD)) in
  if dirty =? 0 then Ok (s, ip, 0)
  else if negb (fs_ronly (fsb s) =? 0) then Ok (s, ip, 0)
  else
    let b := itod (i_number ip) in
    r ← fs_bread s b;
    let s := fst r in
    match snd r with
    | Failed e => s ← fs_brelse s b; Ok (s, ip, e)
    | Contents x _ =>
        let now := fnow s in
        let ip := set_itimes ip (if on (i_flag ip) IACC then ta else i_atime ip) (if on (i_flag ip) IUPD then tm else i_mtime ip)
                    (if on (i_flag ip) ICHG then now else i_ctime ip) in
        let ip := set_iflag ip (Z.ldiff (i_flag ip) (Z.lor (Z.lor IUPD IACC) (Z.lor ICHG IMOD))) in
        let x := dinode_put ip (Z.to_nat (itoo (i_number ip))) x in
        if waitfor then
          r ← fs_bwrite s b x;
          Ok (fst r, if snd r =? 0 then ip else set_iflag ip (Z.lor (i_flag ip) dirty), snd r)
        else s ← fs_bdwrite s b x; Ok (s, ip, 0)
    end.

(** With the present time for both. *)
Definition iupdat (ip : inode) (waitfor : bool) (s : fsys D) : outcome (fsys D * inode * Z) := iupdat_at (fnow s) (fnow s) ip waitfor s.

(** [bzero] of a block from a byte on. *)
Definition zero_from (x : block) (off : Z) : block :=
  let n := Z.to_nat (off / 4) in
  if off mod 4 =? 0 then take n x ++ replicate (256 - n) 0
  else take n x ++ Z.land (default 0 (x !! n)) (Z.ones (8 * (off mod 4))) :: replicate (256 - S n) 0.

(** [lblkno] and [blkoff]. *)
Definition lblkno (loc : Z) : Z := Z.shiftr (u32 loc) 10.
Definition blkoff (loc : Z) : Z := Z.land loc (DEV_BSIZE - 1).

(** The last block kept, of the file and below each indirect root; -1 for
    none. *)
Definition lastblock (length : Z) : Z := lblkno (length + DEV_BSIZE - 1) - 1.
Definition lastiblock (length : Z) (level : nat) : Z :=
  let n := match level with
           | O => lastblock length - NDADDR
           | 1%nat => lastblock length - NDADDR - NINDIR
           | _ => lastblock length - NDADDR - NINDIR - NINDIR * NINDIR
           end in
  if n <? 0 then -1 else n.

(** The addresses kept in the inode. *)
Definition addr_kept (length : Z) (l : list Z) : list Z :=
  imap (fun i b =>
    if (i <? Z.to_nat NDADDR)%nat then if lastblock length <? Z.of_nat i then 0 else b
    else if lastiblock length (i - Z.to_nat NDADDR) <? 0 then 0 else b) l.

(** The indirect roots of the inode, the triple one first; whether direct
    blocks remain to be freed. *)
Fixpoint itrunc_levels (levels : list nat) (addr : list Z) (length aflags : Z) (s : fsys D) : outcome (fsys D * bool) :=
  match levels with
  | [] => Ok (s, true)
  | level :: levels' =>
      bn ← rdz addr (NDADDR + Z.of_nat level);
      let last := lastiblock length level in
      s ← (if bn =? 0 then Ok s
           else
             s ← indirtrunc level bn last aflags s;
             if last <? 0 then free bn s else Ok s);
      if 0 <=? last then Ok (s, false) else itrunc_levels levels' addr length aflags s
  end.

(** The end of [itrunc]. *)
Definition itrunc_updret (ip : inode) (s : fsys D) : outcome (fsys D * inode) :=
  r ← iupdat (set_iflag ip (Z.lor (i_flag ip) (Z.lor ICHG IUPD))) true s; Ok (fst r).

(** From the computation of [lastblock] on: the file shrinks. *)
Definition itrunc_shrink (ip : inode) (length aflags : Z) (s : fsys D) : outcome (fsys D * inode) :=
  r ← (if blkoff length =? 0 then Ok (s, ip, true)
       else
         r ← bmap ip (lblkno length) B_WRITE aflags 0 s;
         let '(s, ip, bn, _) := r in
         if negb (ferr s =? 0) || (bn <? 0) then Ok (s, ip, false)
         else
           r ← fs_bread s bn;
           let s := fst r in
           match no_error (snd r) with
           | None => s ← fs_brelse (with_err s FS_EIO) bn; Ok (s, ip, false)
           | Some x => s ← fs_bdwrite s bn (zero_from x (blkoff length)); Ok (s, ip, true)
           end);
  let '(s, ip, ok) := r in
  if negb ok then Ok (s, ip)
  else
    let addr := i_addr ip in
    let ip := set_iaddr (set_isize ip length) (addr_kept length addr) in
    r ← itrunc_levels [2; 1; 0]%nat addr length aflags s;
    s ← (if snd r : bool then free_each (rev (drop (Z.to_nat (lastblock length + 1)) (take (Z.to_nat NDADDR) addr))) (fst r) else Ok (fst r));
    itrunc_updret ip s.

(** [itrunc]. *)
Definition itrunc (ip : inode) (length ioflags : Z) (s : fsys D) : outcome (fsys D * inode) :=
  if length <? 0 then Ok (with_err s FS_EINVAL, ip)
  else
    let aflags := if on ioflags IO_SYNC then Z.lor B_CLRBUF B_SYNC else B_CLRBUF in
    if negb (on (i_flag ip) IPIPE) && (i_size ip =? length) then itrunc_updret ip s
    else
      let ip := if on (i_flag ip) IPIPE then set_isize ip MAXPIPSIZ else ip in
      if i_size ip <? length then
        r ← bmap ip (lblkno (length - 1)) B_WRITE aflags 0 s;
        let '(s, ip, bn, _) := r in
        if negb (ferr s =? 0) || (bn <? 0) then Ok (s, ip) else itrunc_updret (set_isize ip length) s
      else itrunc_shrink ip length aflags s.

End trunc.

(** ** What a cut leaves *)

(** The trees at the roots [l], all of [k] levels. *)
Definition kids (c : Z -> block) (k : nat) (l : list Z) : list Z := concat (tree c k <$> l).

Lemma kids_forest c k l : kids c k l = forest c (replicate (length l) k) l.
Proof. unfold kids, forest. by rewrite zip_with_replicate_l. Qed.

Lemma kids_app c k l1 l2 : kids c k (l1 ++ l2) = kids c k l1 ++ kids c k l2.
Proof. unfold kids. by rewrite fmap_app, concat_app. Qed.

Lemma kids_rev c k l : kids c k (rev l) ≡ₚ kids c k l.
Proof. induction l as [|b l IH]; [done|]. cbn [rev]. rewrite kids_app, IH. unfold kids. cbn. rewrite app_nil_r. apply Permutation_app_comm. Qed.

Lemma kids_holes c k n : kids c k (replicate n 0) = [].
Proof. unfold kids. rewrite fmap_replicate, tree_hole. apply concat_nils. Qed.

Lemma kids_ext c c' k l : (forall a, a ∈ kids c k l -> c' a = c a) -> kids c' k l = kids c k l.
Proof. rewrite !kids_forest. apply forest_ext. Qed.

Lemma kids_in c k l y a : y ∈ l -> a ∈ tree c k y -> a ∈ kids c k l.
Proof. intros Hy Ha. eapply concat_in; [|exact Ha]. apply list_elem_of_fmap. by exists y. Qed.

(** The tree of [k] levels at [b], in [c'], is the one in [c] without the
    numbers past [last]. *)
Record cut (c c' : Z -> block) (k : nat) (b last : Z) : Prop := {
  cut_walk : forall n, 0 <= n < 256 ^ Z.of_nat k -> walk c' k b n = if n <=? last then walk c k b n else 0;
  cut_data : forall n, 0 <= n < 256 ^ Z.of_nat k -> n <= last -> walk c k b n <> 0 -> c' (walk c k b n) = c (walk c k b n)
}.

Lemma cut_ext c1 c1' c2 c2' k b last : (forall a, a ∈ tree c1 k b -> c1' a = c1 a) -> (forall a, c2' a = c2 a) -> cut c1' c2 k b last -> cut c1 c2' k b last.
Proof.
  intros H1 H2 [Hw Hd]. constructor.
  - intros n Hn. rewrite (walk_ext c2) by auto. rewrite Hw by done. by rewrite (walk_ext c1 c1').
  - intros n Hn Hle Hne. specialize (Hd n Hn Hle). rewrite (walk_ext c1 c1') in Hd by done. rewrite H2, Hd by done. apply H1. by apply walk_in.
Qed.

(** A cut at [last] below a block [b] that kept its first numbers. *)
Lemma cut_all c c' k b last : b <> 0 -> last < 0 -> c' b = zeros -> cut c c' (S k) b last.
Proof.
  intros Hb Hl Hz. constructor; [|lia]. intros n Hn. rewrite walk_zeros by done. destruct (Z.leb_spec n last); [lia|done].
Qed.

Section cut_part.
Context (c c' : Z -> block) (k : nat) (b last y : Z) (q : nat).
Context (Hb : b <> 0) (Hlen : length (c b) = 256%nat) (Hl : 0 <= last < 256 ^ Z.of_nat (S k)) (Hq : q = Z.to_nat (last / 256 ^ Z.of_nat k)).
Context (Hy : c b !! q = Some y) (Hc' : c' b = take (S q) (c b) ++ replicate (256 - S q) 0).
Context (Hsame : forall a, a ∈ kids c k (take q (c b)) -> c' a = c a) (Hcut : cut c c' k y (last mod 256 ^ Z.of_nat k)).

Lemma kept_lookup i : c' b !! i = if decide (i <= q)%nat then c b !! i else if decide (i < 256)%nat then Some 0 else None.
Proof using All.
  pose proof (lookup_lt_Some _ _ _ Hy) as Hlt. rewrite Hc'. destruct (decide (i <= q)%nat) as [Hi|Hi].
  - rewrite lookup_app_l by (rewrite length_take; lia). rewrite lookup_take_lt by lia. done.
  - rewrite lookup_app_r by (rewrite length_take; lia). rewrite length_take_le by lia. case_decide; [apply lookup_replicate_2; lia|apply lookup_replicate_None; lia].
Qed.

(** The number [n] against the child on its way. *)
Lemma cut_digit n : 0 <= n < 256 ^ Z.of_nat (S k) ->
  let i := Z.to_nat (n / 256 ^ Z.of_nat k) in let m := n mod 256 ^ Z.of_nat k in
  (i < 256)%nat /\ 0 <= m < 256 ^ Z.of_nat k /\ ((i < q)%nat /\ n <= last \/ i = q /\ (n <= last <-> m <= last mod 256 ^ Z.of_nat k) \/ (q < i)%nat /\ last < n).
Proof using All.
  intros Hn. cbv zeta. destruct (digit_range k n Hn) as [H1 H2]. destruct (digit_range k last Hl) as [H3 H4]. split; [lia|]. split; [done|].
  assert (0 < 256 ^ Z.of_nat k) as Hp by (apply Z.pow_pos_nonneg; lia). set (F := 256 ^ Z.of_nat k) in *.
  pose proof (Z.div_mod n F ltac:(lia)). pose proof (Z.div_mod last F ltac:(lia)). rewrite Hq.
  destruct (Z.lt_trichotomy (n / F) (last / F)) as [Hlt|[Heq|Hgt]].
  - left. split; [lia|]. assert (F * (n / F) + F <= F * (last / F)) by nia. lia.
  - right. left. split; [lia|]. rewrite Heq in *. lia.
  - right. right. split; [lia|]. assert (F * (last / F) + F <= F * (n / F)) by nia. lia.
Qed.

Lemma cut_below : cut c c' (S k) b last.
Proof using All.
  assert (forall n, 0 <= n < 256 ^ Z.of_nat (S k) -> (Z.to_nat (n / 256 ^ Z.of_nat k) < q)%nat -> exists z, c b !! Z.to_nat (n / 256 ^ Z.of_nat k) = Some z /\
    (forall a, a ∈ tree c k z -> c' a = c a)) as Hleft.
  { intros n Hn Hi. destruct (cut_digit n Hn) as (H1&_). destruct (lookup_lt_is_Some_2 (c b) (Z.to_nat (n / 256 ^ Z.of_nat k))) as [z Hz]; [lia|]. exists z. split; [done|].
    intros a Ha. apply Hsame. eapply kids_in; [|exact Ha]. apply list_elem_of_lookup. exists (Z.to_nat (n / 256 ^ Z.of_nat k)). by rewrite lookup_take_lt. }
  constructor.
  - intros n Hn. rewrite !walk_S, kept_lookup by done. destruct (cut_digit n Hn) as (H1&H2&[[Hi Hle]|[[Hi Hle]|[Hi Hle]]]).
    + rewrite decide_True by lia. rewrite (proj2 (Z.leb_le _ _) Hle). destruct (Hleft n Hn Hi) as (z&->&Hz). cbn [default]. by apply walk_ext.
    + rewrite decide_True by lia. rewrite Hi, Hy. cbn [default]. rewrite (cut_walk _ _ _ _ _ Hcut) by done.
      destruct (Z.leb_spec n last), (Z.leb_spec (n mod 256 ^ Z.of_nat k) (last mod 256 ^ Z.of_nat k)); done || lia.
    + rewrite decide_False, decide_True by lia. cbn [default]. rewrite (proj2 (Z.leb_gt _ _)) by done. apply walk_hole.
  - intros n Hn Hle Hw. rewrite walk_S in * by done. destruct (cut_digit n Hn) as (H1&H2&[[Hi _]|[[Hi Hm]|[Hi ?]]]); [| |lia].
    + destruct (Hleft n Hn Hi) as (z&E&Hz). rewrite E in *. cbn [default] in *. apply Hz. by apply walk_in.
    + rewrite Hi, Hy in *. cbn [default] in *. apply (cut_data _ _ _ _ _ Hcut); [done|tauto|done].
Qed.

Lemma cut_trees f : tree c k y ≡ₚ tree c' k y ++ f -> tree c (S k) b ≡ₚ tree c' (S k) b ++ f ++ kids c k (drop (S q) (c b)).
Proof using All.
  intros Hp. rewrite !tree_S by done. change (concat (tree ?d k <$> ?l)) with (kids d k l). rewrite Hc', kids_app, kids_holes, app_nil_r.
  rewrite <- (take_drop (S q) (c b)) at 1. rewrite (take_S_r _ _ _ Hy), !kids_app. rewrite (kids_ext c c' k (take q (c b))) by exact Hsame.
  unfold kids at 2 4. cbn. rewrite !app_nil_r, Hp. solve_Permutation.
Qed.

End cut_part.

(** ** Writing the data of a file *)

Lemma leaf_tree c c' k b n : NoDup (tree c k b) -> walk c k b n <> 0 -> (forall a, a <> walk c k b n -> c' a = c a) ->
  tree c' k b = tree c k b /\ forall m, walk c' k b m = walk c k b m.
Proof.
  revert b n. induction k as [|k IH]; intros b n Hn Hw He; [done|]. destruct (decide (b = 0)) as [->|Hb]; [by rewrite walk_hole in Hw|].
  pose proof (walk_in c (S k) b n Hw) as Hin. rewrite walk_S in * by done. destruct (c b !! Z.to_nat (n / 256 ^ Z.of_nat k)) as [y|] eqn:Ey; cbn [default] in *; [|by rewrite walk_hole in Hw].
  change (id y) with y in *. set (v := walk c k y (n mod 256 ^ Z.of_nat k)) in *. set (i := Z.to_nat (n / 256 ^ Z.of_nat k)) in *.
  assert (v ∈ tree c k y) as Hv by by apply walk_in. pose proof Hn as Hn'. rewrite tree_forest in Hn' by done. apply NoDup_cons in Hn' as [Hb' Hn'].
  pose proof (lookup_lt_Some _ _ _ Ey) as Hi. assert (replicate (length (c b)) k !! i = Some k) as Hk by by apply lookup_replicate_2.
  assert (c' b = c b) as Eb.
  { apply He. intros ->. apply Hb'. apply forest_in. by exists i, k, y. }
  rewrite (forest_pick c _ _ i k y) in Hn' by done. apply NoDup_app in Hn' as (Hny&Hdis&_). destruct (IH y _ Hny Hw He) as [Ht Hwk].
  assert (forall j z, j <> i -> c b !! j = Some z -> forall a, a ∈ tree c k z -> c' a = c a) as Hoth.
  { intros j z Hj Hz a Ha. apply He. intros ->. apply (Hdis v Hv). eapply (rest_in c _ _ i j k z); [done| |done|done]. apply lookup_replicate_2. by eapply lookup_lt_Some. }
  assert (forall j z, c b !! j = Some z -> tree c' k z = tree c k z /\ forall m, walk c' k z m = walk c k z m) as Hall.
  { intros j z Hz. destruct (decide (j = i)) as [->|Hj]; [by assert (z = y) as -> by congruence|]. split; [|intros m]; [apply tree_ext|apply walk_ext]; by eapply Hoth. }
  split.
  - rewrite !tree_S, Eb by done. f_equal. f_equal. apply list_fmap_ext. intros j z Hz. by eapply Hall.
  - intros m. rewrite !walk_S, Eb by done. destruct (c b !! Z.to_nat (m / 256 ^ Z.of_nat k)) as [z|] eqn:Ez; cbn [default]; [by eapply Hall|by rewrite !walk_hole].
Qed.

Lemma leaf_file c c' addr n : NoDup (owned c addr) -> file_block c addr n <> 0 -> (forall a, a <> file_block c addr n -> c' a = c a) ->
  owned c' addr = owned c addr /\ forall m, file_block c' addr m = file_block c addr m.
Proof.
  intros Hn Hw He. pose proof Hw as Hw'. unfold file_block in Hw'. destruct (slot n) as [[i p]|] eqn:Es; [|done]. destruct (slot_range _ _ _ Es) as (k&Hk&Hp).
  destruct (addr !! i) as [y|] eqn:Ey; [|rewrite Hk in Hw'; cbn in Hw'; by rewrite walk_hole in Hw']. pose proof (file_block_slot c addr n i p k y Es Hk Ey) as Ef. rewrite Ef in *. clear Hw'.
  assert (walk c k y p ∈ tree c k y) as Hv by by apply walk_in. pose proof Hn as Hn'. unfold owned in Hn'. rewrite (forest_pick c _ _ i k y) in Hn' by done. apply NoDup_app in Hn' as (Hny&Hdis&_).
  destruct (leaf_tree c c' k y p Hny Hw He) as [Ht Hwk].
  assert (forall j k2 z, levels !! j = Some k2 -> addr !! j = Some z -> tree c' k2 z = tree c k2 z /\ forall m, walk c' k2 z m = walk c k2 z m) as Hall.
  { intros j k2 z Hk2 Hz. destruct (decide (j = i)) as [->|Hj]; [by assert (z = y) as -> by congruence; assert (k2 = k) as -> by congruence|].
    assert (forall a, a ∈ tree c k2 z -> c' a = c a) as Hz'. { intros a Ha. apply He. intros ->. apply (Hdis _ Hv). by eapply rest_in. }
    split; [|intros m]; [by apply tree_ext|by apply walk_ext]. }
  split.
  - unfold owned. rewrite (forest_split c' _ _ i k y), (forest_split c _ _ i k y), Ht by done.
    assert (rest c' levels addr i = rest c levels addr i) as Er. { apply rest_ext. intros a Ha. apply He. intros ->. by apply (Hdis _ Hv). }
    unfold rest in Er. assert (forall a, a ∈ forest c (take i levels) (take i addr) ++ forest c (drop (S i) levels) (drop (S i) addr) -> c' a = c a) as Hr'.
    { intros a Ha. apply He. intros ->. by apply (Hdis _ Hv). }
    rewrite (forest_ext c c') by (intros a Ha; apply Hr'; set_solver). rewrite (forest_ext c c' (drop _ _)) by (intros a Ha; apply Hr'; set_solver). done.
  - intros m. unfold file_block. destruct (slot m) as [[j q]|] eqn:Em; [|done]. destruct (slot_range _ _ _ Em) as (k2&Hk2&_). rewrite Hk2. cbn [default].
    destruct (addr !! j) as [z|] eqn:Ez; cbn [default]; [by eapply Hall|by rewrite !walk_hole].
Qed.

(** Two numbers of a file never share a block. *)
Lemma walk_inj c k b n m : NoDup (tree c k b) -> 0 <= n < 256 ^ Z.of_nat k -> 0 <= m < 256 ^ Z.of_nat k -> walk c k b n <> 0 -> walk c k b n = walk c k b m -> n = m.
Proof.
  revert b n m. induction k as [|k IH]; intros b n m Hn Hrn Hrm Hw He; [change (256 ^ Z.of_nat 0) with 1 in *; lia|].
  destruct (decide (b = 0)) as [->|Hb]; [by rewrite walk_hole in Hw|]. destruct (digit_range k n Hrn) as [Hn1 Hn2], (digit_range k m Hrm) as [Hm1 Hm2].
  rewrite tree_forest in Hn by done. apply NoDup_cons in Hn as [_ Hn]. rewrite !walk_S in * by done. assert (walk c (S k) b m <> 0) as Hwm by (rewrite walk_S, <- He by done; done). rewrite walk_S in Hwm by done.
  set (i := Z.to_nat (n / 256 ^ Z.of_nat k)) in *. set (j := Z.to_nat (m / 256 ^ Z.of_nat k)) in *.
  destruct (c b !! i) as [y|] eqn:Ey; cbn [default] in *; [|by rewrite walk_hole in Hw]. destruct (c b !! j) as [z|] eqn:Ez; cbn [default] in *; [|by rewrite walk_hole in Hwm].
  change (id y) with y in *. change (id z) with z in *.
  assert (replicate (length (c b)) k !! i = Some k) as Hki by (apply lookup_replicate_2; by eapply lookup_lt_Some).
  assert (replicate (length (c b)) k !! j = Some k) as Hkj by (apply lookup_replicate_2; by eapply lookup_lt_Some).
  rewrite (forest_pick c _ _ i k y) in Hn by done. apply NoDup_app in Hn as (Hny&Hdis&_). destruct (decide (j = i)) as [Eji|Hne].
  - rewrite Eji, Ey in Ez. injection Ez as <-. specialize (IH y _ _ Hny Hn2 Hm2 Hw He).
    pose proof (Z.div_mod n (256 ^ Z.of_nat k) ltac:(lia)). pose proof (Z.div_mod m (256 ^ Z.of_nat k) ltac:(lia)). assert (n / 256 ^ Z.of_nat k = m / 256 ^ Z.of_nat k) as Ed by (unfold i, j in Eji; lia). congruence.
  - exfalso. apply (Hdis (walk c k y (n mod 256 ^ Z.of_nat k))); [by apply walk_in|]. rewrite He. eapply (rest_in c _ _ i j k z); [done|done|done|by apply walk_in].
Qed.

Lemma file_block_in c addr n : file_block c addr n <> 0 -> file_block c addr n ∈ owned c addr.
Proof.
  unfold file_block. destruct (slot n) as [[i p]|] eqn:E; [|done]. destruct (slot_range _ _ _ E) as (k&Hk&_). rewrite Hk. cbn [default].
  destruct (addr !! i) as [y|] eqn:Ey; cbn [default]; [|by rewrite walk_hole]. intros Hw. apply forest_in. exists i, k, y. split; [done|]. split; [done|by apply walk_in].
Qed.

Lemma file_inj c addr n m : NoDup (owned c addr) -> file_block c addr n <> 0 -> file_block c addr n = file_block c addr m -> n = m.
Proof.
  intros Hn Hw He. assert (file_block c addr m <> 0) as Hwm by by rewrite <- He. unfold file_block in *.
  destruct (slot n) as [[i p]|] eqn:En; [|done]. destruct (slot m) as [[j q]|] eqn:Em; [|done].
  destruct (slot_range _ _ _ En) as (k&Hk&Hp), (slot_range _ _ _ Em) as (k2&Hk2&Hq). rewrite Hk in Hw, He. rewrite Hk2 in Hwm, He. cbn [default] in *. change (id k) with k in *. change (id k2) with k2 in *.
  destruct (addr !! i) as [y|] eqn:Ey; cbn [default] in *; [|by rewrite walk_hole in Hw]. destruct (addr !! j) as [z|] eqn:Ez; cbn [default] in *; [|by rewrite walk_hole in Hwm].
  change (id y) with y in *. change (id z) with z in *. unfold owned in Hn. rewrite (forest_pick c _ _ i k y) in Hn by done. apply NoDup_app in Hn as (Hny&Hdis&_).
  destruct (decide (j = i)) as [->|Hne].
  - rewrite Ey in Ez. injection Ez as <-. rewrite Hk in Hk2. injection Hk2 as <-. rewrite (walk_inj c k y p q Hny Hp Hq Hw He) in En. by eapply slot_inj.
  - exfalso. apply (Hdis (walk c k y p)); [by apply walk_in|]. rewrite He. eapply (rest_in c levels addr i j k2 z); [done|done|done|by apply walk_in].
Qed.

(** ** The cut of a whole file *)

(** The last number kept below each address, and the addresses [itrunc]
    visits, in its order. *)
Definition last_of (length : Z) (j : nat) : Z :=
  if (j <? 4)%nat then (if lastblock length <? Z.of_nat j then -1 else 0) else lastiblock length (j - 4).
Definition visited (length : Z) : list nat :=
  if 0 <=? lastiblock length 2 then [6]%nat
  else if 0 <=? lastiblock length 1 then [6; 5]%nat
  else if 0 <=? lastiblock length 0 then [6; 5; 4]%nat
  else ([6; 5; 4] ++ rev (seq (Z.to_nat (lastblock length + 1)) (4 - Z.to_nat (lastblock length + 1))))%nat.

Lemma lastblock_range length : 0 <= length < 2 ^ 31 -> lastblock length = (length + 1023) / 1024 - 1 /\ -1 <= lastblock length < 2 ^ 21.
Proof.
  intros Hl. unfold lastblock, lblkno, DEV_BSIZE. rewrite trunc_small by lia. rewrite Z.shiftr_div_pow2 by lia. change (2 ^ 10) with 1024.
  replace (length + 1024 - 1) with (length + 1023) by lia. split; [done|]. assert (0 <= (length + 1023) / 1024) by (apply Z.div_pos; lia).
  assert ((length + 1023) / 1024 < 2 ^ 21 + 1) by (apply Z.div_lt_upper_bound; lia). lia.
Qed.

Lemma lastiblock_eq length i : lastiblock length i =
  Z.max (-1) (match i with O => lastblock length - 4 | 1%nat => lastblock length - 260 | _ => lastblock length - 65796 end).
Proof.
  unfold lastiblock, NDADDR, NINDIR. set (L := lastblock length).
  destruct i as [|[|i]]; [destruct (Z.ltb_spec (L - 4) 0)|destruct (Z.ltb_spec (L - 4 - 256) 0)|destruct (Z.ltb_spec (L - 4 - 256 - 256 * 256) 0)]; lia.
Qed.

(** Either the cut is below an indirect address, or among the direct ones. *)
Lemma visited_cases length : -1 <= lastblock length -> let L := lastblock length in
  65796 <= L /\ visited length = [6]%nat \/ 260 <= L < 65796 /\ visited length = [6; 5]%nat \/ 4 <= L < 260 /\ visited length = [6; 5; 4]%nat \/
  L = 3 /\ visited length = [6; 5; 4]%nat \/ L = 2 /\ visited length = [6; 5; 4; 3]%nat \/ L = 1 /\ visited length = [6; 5; 4; 3; 2]%nat \/
  L = 0 /\ visited length = [6; 5; 4; 3; 2; 1]%nat \/ L = -1 /\ visited length = [6; 5; 4; 3; 2; 1; 0]%nat.
Proof.
  cbv zeta. intros HL. unfold visited. rewrite !lastiblock_eq.
  destruct (Z.leb_spec 0 (Z.max (-1) (lastblock length - 65796))); [left; split; [lia|done]|].
  destruct (Z.leb_spec 0 (Z.max (-1) (lastblock length - 260))); [right; left; split; [lia|done]|].
  destruct (Z.leb_spec 0 (Z.max (-1) (lastblock length - 4))); [right; right; left; split; [lia|done]|].
  do 3 right. assert (lastblock length = 3 \/ lastblock length = 2 \/ lastblock length = 1 \/ lastblock length = 0 \/ lastblock length = -1) as [->|[->|[->|[->| ->]]]] by lia; cbn; tauto.
Qed.

(** The number [m] stays when [last] is the last one kept below the address
    [j]. *)
Definition kept_at (j : nat) (last : Z) (m : Z) : bool := match slot m with Some (i, n) => negb (i =? j)%nat || (n <=? last) | None => true end.

(** The addresses once the whole trees at [js] are gone. *)
Fixpoint zapped (last : nat -> Z) (js : list nat) (cur : list Z) : list Z :=
  match js with [] => cur | j :: js' => zapped last js' (if last j <? 0 then <[j:=0]> cur else cur) end.

Lemma zapped_length last js cur : length (zapped last js cur) = length cur.
Proof. revert cur. induction js as [|j js IH]; intros cur; [done|]. cbn. rewrite IH. case_bool; [by rewrite length_insert|done]. Qed.

Lemma zapped_lookup last js cur i : (i < length cur)%nat ->
  zapped last js cur !! i = if decide (i ∈ js /\ last i < 0) then Some 0 else cur !! i.
Proof.
  revert cur. induction js as [|j js IH]; intros cur Hi; cbn [zapped]; [by rewrite decide_False by set_solver|].
  rewrite IH by (case_bool; by rewrite ?length_insert). destruct (decide (i = j)) as [->|Hne].
  - destruct (Z.ltb_spec (last j) 0).
    + rewrite list_lookup_insert_eq by done. rewrite (decide_True (P := j ∈ j :: js /\ _)) by set_solver. by case_decide.
    + rewrite !decide_False by lia. done.
  - assert ((if last j <? 0 then <[j:=0]> cur else cur) !! i = cur !! i) as -> by (case_bool; [by rewrite list_lookup_insert_ne|done]).
    destruct (decide (i ∈ js /\ last i < 0)); [rewrite decide_True by set_solver|rewrite decide_False by set_solver]; done.
Qed.

Lemma visited_facts length : -1 <= lastblock length < 2 ^ 21 -> NoDup (visited length) /\
  (forall j, j ∈ visited length -> (j < 7)%nat /\ exists k, levels !! j = Some k /\ -1 <= last_of length j < 256 ^ Z.of_nat k).
Proof.
  intros HL. assert (forall j, (j < 7)%nat -> (4 <= j)%nat -> (j = 6%nat \/ j = 5%nat /\ lastblock length < 65796 \/ j = 4%nat /\ lastblock length < 260) ->
    exists k, levels !! j = Some k /\ -1 <= last_of length j < 256 ^ Z.of_nat k) as Hind.
  { intros j _ _ [->|[[-> ?]|[-> ?]]]; unfold last_of; rewrite lastiblock_eq; cbn [Nat.ltb Nat.leb Nat.sub].
    - exists 3%nat. split; [done|]. change (256 ^ Z.of_nat 3) with (2 ^ 24). lia.
    - exists 2%nat. split; [done|]. change (256 ^ Z.of_nat 2) with 65536. lia.
    - exists 1%nat. split; [done|]. change (256 ^ Z.of_nat 1) with 256. lia. }
  assert (forall j, (j < 4)%nat -> exists k, levels !! j = Some k /\ -1 <= last_of length j < 256 ^ Z.of_nat k) as Hdir.
  { intros j Hj. exists 0%nat. split; [do 4 (destruct j as [|j]; [done|]); lia|]. unfold last_of. rewrite (proj2 (Nat.ltb_lt _ _) Hj). change (256 ^ Z.of_nat 0) with 1. case_bool; lia. }
  destruct (visited_cases length) as [[? ->]|[[? ->]|[[? ->]|[[? ->]|[[? ->]|[[? ->]|[[? ->]|[? ->]]]]]]]]; try lia;
    (split; [apply (bool_decide_eq_true_1 _); by vm_compute|]); intros j Hj; repeat (apply elem_of_cons in Hj as [->|Hj]); try (by apply not_elem_of_nil in Hj);
    (split; [lia|]); first [apply Hdir; lia|apply Hind; lia].
Qed.

Lemma kept_direct i m j : (i < 4)%nat -> 0 <= m -> slot m = Some j -> kept_at i (-1) m = negb (m =? Z.of_nat i).
Proof.
  intros Hi Hm Hs. unfold kept_at. destruct j as [j n]. rewrite Hs. destruct (slot_range _ _ _ Hs) as (k&Hk&Hn). destruct (Nat.eqb_spec j i) as [->|Hne]; cbn [negb orb].
  - rewrite (proj2 (Z.leb_gt _ _)) by lia. symmetry. apply negb_false_iff, Z.eqb_eq. eapply slot_inj; [exact Hs|]. rewrite slot_direct by lia. rewrite Nat2Z.id. f_equal. f_equal.
    assert (levels !! i = Some 0%nat) as Hk0 by (do 4 (destruct i as [|i]; [done|]); lia). rewrite Hk in Hk0. injection Hk0 as ->. change (256 ^ Z.of_nat 0) with 1 in Hn. lia.
  - symmetry. apply negb_true_iff, Z.eqb_neq. intros ->. rewrite slot_direct in Hs by lia. rewrite Nat2Z.id in Hs. congruence.
Qed.

Lemma kept_indirect i last m j : (4 <= i <= 6)%nat -> -1 <= last -> slot m = Some j ->
  let base := match i with 4%nat => 4 | 5%nat => 260 | _ => 65796 end in
  let top := match i with 4%nat => 260 | 5%nat => 65796 | _ => MAXBLK end in
  kept_at i last m = (m <? base) || (top <=? m) || (m <=? base + last).
Proof.
  intros Hi Hl Hs. cbv zeta. unfold kept_at. rewrite Hs. destruct j as [j n]. unfold slot in Hs. unfold MAXBLK.
  destruct (Z.ltb_spec m 0); [done|]. destruct (Z.ltb_spec m 4); [|destruct (Z.ltb_spec (m - 4) 256); [|destruct (Z.ltb_spec (m - 4 - 256) (256 ^ 2)); [|destruct (Z.ltb_spec (m - 4 - 256 - 256 ^ 2) (256 ^ 3)); [|done]]]];
    injection Hs as <- <-; assert (i = 4 \/ i = 5 \/ i = 6)%nat as [->|[->| ->]] by lia; cbn [Nat.eqb negb orb];
    try (destruct (Nat.eqb_spec (Z.to_nat m) 4); [lia|]); try (destruct (Nat.eqb_spec (Z.to_nat m) 5); [lia|]); try (destruct (Nat.eqb_spec (Z.to_nat m) 6); [lia|]); cbn [negb orb]; lia.
Qed.

(** Cutting at every address visited cuts at the last block. *)
Lemma visited_kept length m : -1 <= lastblock length < 2 ^ 21 ->
  forallb (fun j => kept_at j (last_of length j) m) (visited length) = (m <=? lastblock length) \/ slot m = None.
Proof.
  intros HL. destruct (slot m) as [p|] eqn:Hs; [|by right]. left. assert (0 <= m < MAXBLK) as Hm.
  { unfold slot in Hs. unfold MAXBLK. revert Hs. repeat case_bool; intros Hs; try done; lia. }
  assert (forall j, (4 <= j)%nat -> last_of length j = lastiblock length (j - 4)) as El4 by (intros j Hj; unfold last_of; by rewrite (proj2 (Nat.ltb_ge _ _) Hj)).
  assert (forall j, (j < 4)%nat -> lastblock length < Z.of_nat j -> last_of length j = -1) as El0 by (intros j Hj Hlt; unfold last_of; rewrite (proj2 (Nat.ltb_lt _ _) Hj); by rewrite (proj2 (Z.ltb_lt _ _) Hlt)).
  pose proof (kept_indirect 6 (lastiblock length 2) m p ltac:(lia) ltac:(rewrite lastiblock_eq; lia) Hs) as K6.
  pose proof (kept_indirect 5 (lastiblock length 1) m p ltac:(lia) ltac:(rewrite lastiblock_eq; lia) Hs) as K5.
  pose proof (kept_indirect 4 (lastiblock length 0) m p ltac:(lia) ltac:(rewrite lastiblock_eq; lia) Hs) as K4.
  cbv zeta in K4, K5, K6. rewrite lastiblock_eq in K4, K5, K6.
  destruct (visited_cases length) as [[? ->]|[[? ->]|[[? ->]|[[? ->]|[[? ->]|[[? ->]|[[? ->]|[? ->]]]]]]]]; try lia; cbn [forallb];
    rewrite ?(El4 6%nat), ?(El4 5%nat), ?(El4 4%nat), ?(El0 3%nat), ?(El0 2%nat), ?(El0 1%nat), ?(El0 0%nat) by lia; cbn [Nat.sub];
    rewrite ?(lastiblock_eq length 2), ?(lastiblock_eq length 1), ?(lastiblock_eq length 0), ?K6, ?K5, ?K4;
    rewrite ?(kept_direct 3 m p), ?(kept_direct 2 m p), ?(kept_direct 1 m p), ?(kept_direct 0 m p) by (done || lia);
    change (Z.of_nat 3) with 3; change (Z.of_nat 2) with 2; change (Z.of_nat 1) with 1; change (Z.of_nat 0) with 0; rewrite ?andb_true_r; lia.
Qed.

Lemma visited_addr length addr : -1 <= lastblock length < 2 ^ 21 -> List.length addr = 7%nat -> zapped (last_of length) (visited length) addr = addr_kept length addr.
Proof.
  intros HL Hlen. apply list_eq. intros i. destruct (decide (i < 7)%nat) as [Hi|Hi].
  2: { rewrite !lookup_ge_None_2; [done|unfold addr_kept; rewrite length_imap; lia|rewrite zapped_length; lia]. }
  rewrite zapped_lookup by lia. unfold addr_kept. rewrite list_lookup_imap. destruct (lookup_lt_is_Some_2 addr i) as [b Hb]; [lia|]. rewrite Hb. cbn [fmap option_fmap option_map].
  assert (forall n, lastiblock length n < 0 <-> match n with O => lastblock length < 4 | 1%nat => lastblock length < 260 | _ => lastblock length < 65796 end) as Hlb.
  { intros n. rewrite lastiblock_eq. destruct n as [|[|n]]; lia. }
  unfold last_of. change (Z.to_nat NDADDR) with 4%nat. destruct (Nat.ltb_spec i 4).
  - destruct (Z.ltb_spec (lastblock length) (Z.of_nat i)).
    + rewrite decide_True; [done|]. split; [|lia].
      destruct (visited_cases length) as [[? ->]|[[? ->]|[[? ->]|[[? ->]|[[? ->]|[[? ->]|[[? ->]|[? ->]]]]]]]]; try lia; (assert (i = 0 \/ i = 1 \/ i = 2 \/ i = 3)%nat as [->|[->|[->| ->]]] by lia; lia || set_solver).
    + rewrite decide_False by lia. done.
  - destruct (Z.ltb_spec (lastiblock length (i - 4)) 0) as [Hneg|Hpos].
    + rewrite decide_True; [done|]. split; [|done]. apply Hlb in Hneg.
      destruct (visited_cases length) as [[? ->]|[[? ->]|[[? ->]|[[? ->]|[[? ->]|[[? ->]|[[? ->]|[? ->]]]]]]]]; try lia; (assert (i = 4 \/ i = 5 \/ i = 6)%nat as [->|[->| ->]] by lia; cbn [Nat.sub] in Hneg; lia || set_solver).
    + rewrite decide_False by lia. done.
Qed.


Section trunc_proofs.
Context {D : Type} {BD : BufDev D} {BS : BufSpec D}.

(** The blocks [freed] of the tree [T], which is now [T'], are on the free
    list, and nothing outside [T] changed. *)
Record gave_back (s s' : fsys D) (l freed T T' : list Z) : Prop := {
  gb_alloc : alloc_ok (content (fdev s')) (fsb s') (freed ++ l);
  gb_shape : same_shape (fsb s) (fsb s');
  gb_err : ferr s' = ferr s;
  gb_now : fnow s' = fnow s;
  gb_anon : anon (fdev s') = anon (fdev s);
  gb_held : held (fdev s') = held (fdev s);
  gb_tree : T ≡ₚ T' ++ freed;
  gb_frame : forall a, a ∉ T -> content (fdev s') a = content (fdev s) a
}.

Lemma ready_gave s s' l f T U U' T1 : ready s l T -> gave_back s s' l f U U' -> T ≡ₚ T1 ++ f -> ready s' (f ++ l) T1.
Proof.
  intros [Ha Hn Hd Hc Hs Hr] [A S _ _ K H _ _] Hp. rewrite Hp in Hn, Hd. constructor; rewrite ?H; try done.
  - by rewrite app_assoc.
  - apply Forall_app in Hd as [Hd _]. eapply Forall_impl; [exact Hd|]. intros a. by apply in_data_shape.
  - intros a Hin. apply Hc. rewrite Hp. set_solver.
  - unfold spare in *. by rewrite H, K.
Qed.

Lemma spare_after s s' l f U U' m : spare s m -> gave_back s s' l f U U' -> spare s' m.
Proof. intros Hs [_ _ _ _ K H _ _]. unfold spare in *. by rewrite K, H. Qed.

Lemma gave_none s l T : alloc_ok (content (fdev s)) (fsb s) l -> gave_back s s l [] T T.
Proof. intros Ha. constructor; try done. by rewrite app_nil_r. Qed.

Lemma give_one s l T b : ready s l T -> b ∈ T -> exists s', free b s = Ok s' /\ gave_back s s' l [b] [b] [].
Proof.
  intros Hr Hb. pose proof Hr as [Ha Hn Hd Hc Hs Hroom]. rewrite Forall_forall in Hd.
  destruct (free_puts s b l Ha) as (s'&E&[A S R N K]&H&C); [by apply Hd| |apply Hc; set_solver|by eapply ready_room|].
  - apply NoDup_app in Hn as (_&Hdis&_). by apply Hdis.
  - exists s'. split; [done|]. constructor; try done. intros a Hin. apply C. set_solver.
Qed.

(** Two steps on parts of the tree that do not meet. *)
Lemma gave_both s s1 s2 l f1 f2 T1 T1' T2 T2' T T' : gave_back s s1 l f1 T1 T1' -> gave_back s1 s2 (f1 ++ l) f2 T2 T2' ->
  T ≡ₚ T' ++ f2 ++ f1 -> (forall a, a ∈ T1 -> a ∈ T) -> (forall a, a ∈ T2 -> a ∈ T) -> gave_back s s2 l (f2 ++ f1) T T'.
Proof.
  intros [A1 S1 R1 N1 K1 H1 P1 C1] [A2 S2 R2 N2 K2 H2 P2 C2] HT HT1 HT2. constructor; try congruence.
  - by rewrite <- app_assoc.
  - by etransitivity.
  - intros a Ha. rewrite C2, C1; [done|auto|auto].
Qed.

(** The loop over whole trees. *)
Lemma indir_each_ok trunc k m : (forall s l nb, ready s l (tree (content (fdev s)) k nb) -> spare s m -> nb <> 0 ->
    exists s' f, trunc nb s = Ok s' /\ gave_back s s' l f (tree (content (fdev s)) k nb) [nb]) ->
  forall chs s l, ready s l (kids (content (fdev s)) k chs) -> spare s m ->
  exists s' f, indir_each trunc chs s = Ok s' /\ gave_back s s' l f (kids (content (fdev s)) k chs) [].
Proof.
  intros Htr. induction chs as [|nb chs IH]; intros s l Hr Hm; cbn [indir_each].
  { exists s, []. split; [done|]. apply gave_none, Hr. }
  set (c := content (fdev s)) in *. change (kids c k (nb :: chs)) with (tree c k nb ++ kids c k chs) in *. pose proof Hr as [Ha Hn _ _ _ _].
  destruct (Z.eqb_spec nb 0) as [->|Hnb].
  { cbn [mbind outcome_bind]. rewrite tree_hole in *. by apply IH. }
  assert (NoDup (tree c k nb) /\ forall a, a ∈ tree c k nb -> a ∉ kids c k chs) as [Hn1 Hn2].
  { apply NoDup_app in Hn as (Hn&_). apply NoDup_app in Hn as (Hn&Hd&_). done. }
  destruct (Htr s l nb) as (s1&f1&->&G1); [eapply in_ready_tree; [done| |done]; set_solver|done|done|]. cbn [mbind outcome_bind].
  pose proof (gb_tree _ _ _ _ _ _ G1) as P1. fold c in G1, P1.
  assert (ready s1 (f1 ++ l) (nb :: kids c k chs)) as Hr1 by (eapply ready_gave; [exact Hr|exact G1|rewrite P1; solve_Permutation]).
  destruct (give_one s1 (f1 ++ l) _ nb Hr1) as (s2&->&G2); [set_solver|]. cbn [mbind outcome_bind].
  assert (gave_back s s2 l ([nb] ++ f1) (tree c k nb) []) as G.
  { eapply gave_both; [exact G1|exact G2|by rewrite P1|done|]. intros a Hin. apply list_elem_of_singleton in Hin as ->. by apply tree_root. }
  assert (kids (content (fdev s2)) k chs = kids c k chs) as Ek.
  { apply kids_ext. intros a Hin. apply (gb_frame _ _ _ _ _ _ G). intros Hin'. by apply (Hn2 a). }
  destruct (IH s2 (([nb] ++ f1) ++ l)) as (s3&f3&->&G3); [|by eapply spare_after|].
  { rewrite Ek. eapply ready_gave; [exact Hr|exact G|]. rewrite P1. solve_Permutation. }
  rewrite Ek in G3. exists s3, (f3 ++ [nb] ++ f1). split; [done|]. pose proof (gb_tree _ _ _ _ _ _ G3) as P3. cbn in P3.
  eapply gave_both; [exact G|exact G3| |set_solver|set_solver]. rewrite P1, P3. cbn. solve_Permutation.
Qed.

Lemma free_each_indir chs s : free_each chs s = indir_each (fun _ s => Ok s) chs s.
Proof.
  revert s. induction chs as [|b chs IH]; intros s; [done|]. cbn [free_each indir_each]. destruct (b =? 0); cbn [mbind outcome_bind]; [apply IH|].
  destruct (free b s); cbn [mbind outcome_bind]; [apply IH|done|done].
Qed.

Lemma free_each_ok chs s l : ready s l (kids (content (fdev s)) 0 chs) ->
  exists s' f, free_each chs s = Ok s' /\ gave_back s s' l f (kids (content (fdev s)) 0 chs) [].
Proof.
  intros Hr. rewrite free_each_indir. eapply (indir_each_ok _ 0 0); [|done|].
  - clear. intros s l nb Hr _ Hnb. exists s, []. split; [done|]. cbn [tree]. destruct (Z.eqb_spec nb 0); [done|]. apply gave_none, Hr.
  - destruct Hr as [_ _ _ _ _ Hroom]. unfold spare in *. lia.
Qed.

(** What [indirtrunc] of [k] levels does. *)
Definition truncates (k : nat) (trunc : Z -> Z -> fsys D -> outcome (fsys D)) : Prop :=
  forall b last s l, ready s l (tree (content (fdev s)) k b) -> spare s (S k) -> b <> 0 -> -1 <= last < 256 ^ Z.of_nat k ->
  exists s' f, trunc b last s = Ok s' /\ gave_back s s' l f (tree (content (fdev s)) k b) (tree (content (fdev s')) k b) /\
    cut (content (fdev s)) (content (fdev s')) k b last /\ (last < 0 -> tree (content (fdev s')) k b = [b]).

(** The buffer of the copy, and the block written back. *)
Lemma cut_block (sync : bool) s b x : b ∉ held (fdev s) -> spare s 2 -> length x = 256%nat -> exists s1 d s2,
  fs_bread s b = Ok (s1, Contents (content (fdev s) b) false) /\ geteblk (fdev s1) = Ok d /\
  (if sync then r ← fs_bwrite (with_dev s1 d) b x; Ok (fst r) else fs_bawrite (with_dev s1 d) b x) = Ok s2 /\
  dev_step s s2 (wrote (content (fdev s)) b x) (held (fdev s)) (S (anon (fdev s))).
Proof.
  intros Hb Hm Hx. unfold spare in Hm. destruct (fs_bread_ok s b Hb) as (s1&E1&[F1 R1 N1 C1 H1 K1]); [unfold room; lia|].
  destruct (geteblk_spec (fdev s1)) as (d&E2&C2&H2&K2); [rewrite H1, K1, size_union, size_singleton by set_solver; lia|].
  exists s1, d. assert (b ∈ held d) as Hbd by (rewrite H2, H1; set_solver). destruct sync.
  - destruct (fs_bwrite_ok (with_dev s1 d) b x Hbd Hx) as (s2&E3&[F3 R3 N3 C3 H3 K3]). cbn in *. exists s2. rewrite E3. split; [done|]. split; [done|]. split; [done|].
    constructor; try congruence; [|rewrite H3, H2, H1; set_solver]. intros a. rewrite C3. unfold wrote. case_decide; [done|]. by rewrite C2, C1.
  - unfold fs_bawrite. cbn [with_dev fdev]. destruct (bwrite_spec d b x Hbd Hx) as (d'&E3&C3&H3&K3). exists (with_dev (with_dev s1 d) d'). rewrite E3. split; [done|]. split; [done|].
    split; [done|]. constructor; cbn; try congruence; [|rewrite H3, H2, H1; set_solver]. intros a. rewrite C3. unfold wrote. case_decide; [done|]. by rewrite C2, C1.
Qed.

(** The state [s2] has the block [b] written with its first [p] numbers, and
    one buffer less. *)
Section after_cut.
Context (s s2 : fsys D) (l : list Z) (k p : nat) (b : Z).
Let c := content (fdev s).
Let kept := take p (c b) ++ replicate (256 - p) 0.
Context (Hr : ready s l (tree c (S k) b)) (Hm : spare s (S (S k))) (Hb : b <> 0) (Hp : (p <= 256)%nat).
Context (Hs2 : dev_step s s2 (wrote c b kept) (held (fdev s)) (S (anon (fdev s)))).

Lemma cut_nodup : NoDup (b :: kids c k (take p (c b)) ++ kids c k (drop p (c b)) ++ l).
Proof using All.
  pose proof (rd_nodup _ _ _ Hr) as Hn. rewrite tree_S in Hn by done. change (concat (tree c k <$> c b)) with (kids c k (c b)) in Hn.
  rewrite <- (take_drop p (c b)) in Hn at 1. rewrite kids_app in Hn. by rewrite app_assoc.
Qed.

Lemma cut_others a : a <> b -> content (fdev s2) a = c a.
Proof using All. intros Ha. rewrite (ds_content _ _ _ _ _ Hs2). unfold wrote. by rewrite decide_False. Qed.

Lemma cut_kept : content (fdev s2) b = kept.
Proof using All. rewrite (ds_content _ _ _ _ _ Hs2). unfold wrote. by rewrite decide_True. Qed.

Lemma cut_sub chs a : (forall y, y ∈ chs -> y ∈ c b) -> a ∈ kids c k chs -> a <> b /\ a ∈ tree c (S k) b.
Proof using All.
  intros Hsub Ha. assert (a ∈ kids c k (c b)) as Ha'.
  { unfold kids in Ha. apply list_elem_of_In, in_concat in Ha as (t&Ht&Ha). apply list_elem_of_In in Ha, Ht. apply list_elem_of_fmap in Ht as (y&->&Hy). eapply kids_in; [|exact Ha]. auto. }
  split; [|rewrite tree_S by done; by right]. intros ->. pose proof cut_nodup as Hn. apply NoDup_cons in Hn as [Hn _]. apply Hn.
  rewrite app_assoc, <- kids_app, take_drop. set_solver.
Qed.

Lemma cut_kids chs : (forall y, y ∈ chs -> y ∈ c b) -> kids (content (fdev s2)) k chs = kids c k chs.
Proof using All. intros Hsub. apply kids_ext. intros a Ha. apply cut_others. by eapply cut_sub. Qed.

Lemma cut_limbo : ready s2 l (kids (content (fdev s2)) k (rev (drop p (c b)))).
Proof using All.
  pose proof cut_nodup as Hn. pose proof Hs2 as [F _ _ _ H K]. pose proof Hr as [Ha _ Hd Hc Hs Hroom].
  assert (forall y, y ∈ rev (drop p (c b)) -> y ∈ c b) as Hsub.
  { intros y Hy. rewrite <- (take_drop p (c b)). apply list_elem_of_In, in_rev, list_elem_of_In in Hy. set_solver. }
  rewrite (cut_kids _ Hsub). apply NoDup_cons in Hn as [Hb1 Hn]. apply NoDup_app in Hn as (_&_&Hn). pose proof Hd as Hd'. rewrite Forall_forall in Hd'.
  assert (forall a, a ∈ kids c k (rev (drop p (c b))) -> a ∈ tree c (S k) b) as Hin by (intros a Ha'; by eapply cut_sub).
  constructor; rewrite ?F, ?H; try done.
  - eapply alloc_ext; [exact Ha|]. intros a Hal. apply cut_others. intros ->. set_solver.
  - by rewrite kids_rev.
  - apply Forall_forall. auto.
  - intros a [Ha'|Ha']%elem_of_app; apply Hc; set_solver.
  - unfold spare in *. rewrite H, K. lia.
Qed.

(** The rest freed, the last child kept is as it was. *)
Lemma cut_last s3 f1 q y : p = S q -> c b !! q = Some y -> gave_back s2 s3 l f1 (kids (content (fdev s2)) k (rev (drop p (c b)))) [] ->
  (forall a, a ∈ tree c (S k) b -> a ∉ kids c k (drop p (c b)) -> a <> b -> content (fdev s3) a = c a) /\
  f1 ≡ₚ kids c k (drop p (c b)) /\ tree (content (fdev s3)) k y = tree c k y /\ ready s3 (f1 ++ l) (tree (content (fdev s3)) k y) /\ spare s3 (S k).
Proof using All.
  intros Ep Hy G. assert (take p (c b) = take q (c b) ++ [y]) as Etk by (rewrite Ep; by apply take_S_r). pose proof cut_nodup as Hn. assert (forall z, z ∈ rev (drop p (c b)) -> z ∈ c b) as Hsub.
  { intros z Hz. rewrite <- (take_drop p (c b)). apply list_elem_of_In, in_rev, list_elem_of_In in Hz. set_solver. }
  assert (y ∈ c b) as Hyb by by eapply list_elem_of_lookup_2.
  rewrite (cut_kids _ Hsub) in G. pose proof G as [A S1 R N K H P C]. cbn in P. rewrite kids_rev in P. rewrite Etk, kids_app in Hn. unfold kids at 2 in Hn. cbn in Hn.
  rewrite app_nil_r in Hn. apply NoDup_cons in Hn as [Hb1 Hn].
  assert (forall a, a ∈ tree c (S k) b -> a ∉ kids c k (drop p (c b)) -> a <> b -> content (fdev s3) a = c a) as Hkeep.
  { intros a Ha Hd Hne. rewrite C by (rewrite kids_rev; done). by apply cut_others. }
  split; [done|]. split; [by rewrite P|].
  assert (forall a, a ∈ tree c k y -> a ∈ tree c (S k) b /\ a ∉ kids c k (drop p (c b)) /\ a <> b) as Hty.
  { intros a Ha. destruct (cut_sub [y] a) as [Hne Hin]; [set_solver|unfold kids; cbn; by rewrite app_nil_r|]. split; [done|]. split; [|done].
    rewrite <- app_assoc in Hn. apply NoDup_app in Hn as (_&_&Hn). apply NoDup_app in Hn as (_&Hd&_). intros Hk. apply (Hd a Ha). set_solver. }
  assert (tree (content (fdev s3)) k y = tree c k y) as Et by (apply tree_ext; intros a Ha; destruct (Hty a Ha) as (?&?&?); by apply Hkeep). split; [done|]. rewrite Et.
  pose proof Hs2 as [F2 _ _ _ H2 K2]. pose proof Hr as [Ha _ Hd Hc Hs _]. split.
  - rewrite Forall_forall in Hd. constructor; [done| | | |by rewrite H, H2|unfold spare in *; rewrite H, K, H2, K2; lia].
    + rewrite <- app_assoc in Hn. apply NoDup_app in Hn as (_&_&Hn). by rewrite P in Hn.
    + apply Forall_forall. intros a Hin. eapply in_data_shape; [exact S1|]. rewrite F2. apply Hd. by apply Hty.
    + intros a Hin. rewrite H, H2. rewrite <- P in Hin. apply elem_of_app in Hin as [Hin|[Hin|Hin]%elem_of_app]; apply Hc; [by apply elem_of_app; left; apply Hty| |set_solver].
      apply elem_of_app. left. apply (cut_sub (drop p (c b))); [|done]. intros z Hz. rewrite <- (take_drop p (c b)). set_solver.
  - unfold spare in *. rewrite H, K, H2, K2. lia.
Qed.

End after_cut.

(** The copy let go, all is done. *)
Lemma cut_close s s2 s4 l f b x U U' T T' : dev_step s s2 (wrote (content (fdev s)) b x) (held (fdev s)) (S (anon (fdev s))) -> gave_back s2 s4 l f U U' ->
  b ∈ T -> (forall a, a ∈ U -> a ∈ T) -> T ≡ₚ T' ++ f ->
  exists d, brelse_empty (fdev s4) = Ok d /\ (forall a, content d a = content (fdev s4) a) /\ gave_back s (with_dev s4 d) l f T T'.
Proof.
  intros [F2 R2 N2 C2 H2 K2] [A S1 R N K H P C] Hb HU HT. destruct (brelse_empty_spec (fdev s4)) as (d&E&Cd&Hd&Kd); [lia|]. exists d. split; [done|]. split; [done|].
  constructor; cbn; try congruence; [|rewrite Kd, K, K2; done|].
  - eapply alloc_ext; [exact A|]. intros a _. apply Cd.
  - intros a Ha. rewrite Cd, C by auto. rewrite C2. unfold wrote. rewrite decide_False; [done|]. by intros ->.
Qed.

(** [indirtrunc] around the freeing [F] of what is past the cut. *)
Lemma cut_tree s l k b last (sync : bool) (F : fsys D -> outcome (fsys D)) : let c := content (fdev s) in let p := Z.to_nat (last / 256 ^ Z.of_nat k + 1) in
  ready s l (tree c (S k) b) -> spare s (S (S k)) -> b <> 0 -> -1 <= last < 256 ^ Z.of_nat (S k) ->
  (forall s2, ready s2 l (kids (content (fdev s2)) k (rev (drop p (c b)))) -> spare s2 (S k) ->
     exists s3 f1, gave_back s2 s3 l f1 (kids (content (fdev s2)) k (rev (drop p (c b)))) [] /\
       (last < 0 -> F s2 = Ok s3) /\
       (forall y, 0 <= last -> c b !! Z.to_nat (last / 256 ^ Z.of_nat k) = Some y -> ready s3 (f1 ++ l) (tree (content (fdev s3)) k y) -> spare s3 (S k) ->
          exists s4 f2, F s2 = Ok s4 /\ gave_back s3 s4 (f1 ++ l) f2 (tree (content (fdev s3)) k y) (tree (content (fdev s4)) k y) /\
            cut (content (fdev s3)) (content (fdev s4)) k y (last mod 256 ^ Z.of_nat k))) ->
  exists s1 d s2 s4 d' f, fs_bread s b = Ok (s1, Contents (c b) false) /\ geteblk (fdev s1) = Ok d /\
    (let kept := take p (c b) ++ replicate (256 - p) 0 in if sync then r ← fs_bwrite (with_dev s1 d) b kept; Ok (fst r) else fs_bawrite (with_dev s1 d) b kept) = Ok s2 /\
    F s2 = Ok s4 /\ brelse_empty (fdev s4) = Ok d' /\ gave_back s (with_dev s4 d') l f (tree c (S k) b) (tree (content d') (S k) b) /\
    cut c (content d') (S k) b last /\ (last < 0 -> tree (content d') (S k) b = [b]).
Proof.
  cbv zeta. set (c := content (fdev s)). set (p := Z.to_nat (last / 256 ^ Z.of_nat k + 1)). intros Hr Hm Hb Hl HF.
  assert (0 < 256 ^ Z.of_nat k) as Hpk by (apply Z.pow_pos_nonneg; lia). assert (length (c b) = 256%nat) as Hlen by apply content_length.
  assert (last / 256 ^ Z.of_nat k < 256) as Hd by (apply Z.div_lt_upper_bound; [lia|]; rewrite Nat2Z.inj_succ, Z.pow_succ_r in Hl by lia; lia).
  assert ((p <= 256)%nat) as Hp by (unfold p; lia). set (kept := take p (c b) ++ replicate (256 - p) 0).
  assert (b ∉ held (fdev s)) as Hbh by (apply (rd_clear _ _ _ Hr), elem_of_app; left; by apply tree_root).
  destruct (cut_block sync s b kept Hbh) as (s1&d&s2&E1&E2&E3&D2); [unfold spare in *; lia|unfold kept; rewrite length_app, length_take, length_replicate; lia|].
  destruct (HF s2) as (s3&f1&G1&HF1&HF2).
  { by eapply (cut_limbo s s2 l k p b). }
  { unfold spare in *. destruct D2 as [_ _ _ _ H K]. rewrite H, K. lia. }
  pose proof (cut_sub s s2 l k p b Hr Hm Hb Hp D2) as Hsub. pose proof (cut_kids s s2 l k p b Hr Hm Hb Hp D2) as Hkids.
  pose proof (cut_kept s s2 l k p b Hr Hm Hb Hp D2) as Hkept. pose proof (cut_others s s2 l k p b Hr Hm Hb Hp D2) as Hoth. fold c kept in Hsub, Hkids, Hkept, Hoth.
  assert (forall z, z ∈ rev (drop p (c b)) -> z ∈ c b) as Hrev.
  { intros z Hz. rewrite <- (take_drop p (c b)). apply list_elem_of_In, in_rev, list_elem_of_In in Hz. set_solver. }
  assert (b ∈ tree c (S k) b) as Hbt by by apply tree_root.
  assert (forall a, a ∈ kids (content (fdev s2)) k (rev (drop p (c b))) -> a <> b /\ a ∈ tree c (S k) b) as HU.
  { intros a Ha. rewrite (Hkids _ Hrev) in Ha. by apply (Hsub (rev (drop p (c b)))). }
  exists s1, d, s2. destruct (decide (last < 0)) as [Hneg|Hpos].
  - (* nothing is kept *)
    assert (p = 0%nat) as Ep. { unfold p. assert (last = -1) as -> by lia. enough (-1 / 256 ^ Z.of_nat k < 0) by lia. apply Z.div_lt_upper_bound; lia. }
    pose proof (gb_tree _ _ _ _ _ _ G1) as P1. rewrite (Hkids _ Hrev), kids_rev, Ep in P1. cbn in P1.
    destruct (cut_close s s2 s3 l f1 b kept _ [] (tree c (S k) b) [b] D2 G1 Hbt) as (d'&E5&C5&G); [apply HU|rewrite tree_S by done; cbn; by rewrite <- P1|].
    assert (content d' b = zeros) as Hz.
    { rewrite C5, (gb_frame _ _ _ _ _ _ G1) by (intros Hin; by destruct (HU _ Hin)). rewrite Hkept. unfold kept. by rewrite Ep. }
    assert (tree (content d') (S k) b = [b]) as Et by by apply tree_zeros.
    exists s3, d', f1. do 3 (split; [done|]). split; [by apply HF1|]. split; [done|]. rewrite Et. split; [done|]. split; [by apply cut_all|done].
  - set (q := Z.to_nat (last / 256 ^ Z.of_nat k)). assert (0 <= last / 256 ^ Z.of_nat k) as Hd0 by (apply Z.div_pos; lia). assert (p = S q) as Ep by (unfold p, q; lia).
    destruct (lookup_lt_is_Some_2 (c b) q) as [y Hy]; [lia|].
    destruct (cut_last s s2 l k p b Hr Hm Hb Hp D2 s3 f1 q y Ep Hy G1) as (Hkeep&Pf1&Et&Hr3&Hs3).
    destruct (HF2 y ltac:(lia) Hy Hr3 Hs3) as (s4&f2&EF&G2&Hcut).
    pose proof (cut_nodup s s2 l k p b Hr Hm Hb Hp D2) as Hn. fold c in Hn, Hkeep, Pf1, Et. rewrite Ep, (take_S_r _ _ _ Hy), kids_app, <- Ep in Hn. unfold kids at 2 in Hn. cbn in Hn.
    rewrite app_nil_r in Hn. apply NoDup_cons in Hn as [Hb1 Hn]. rewrite Et in G2. rewrite (Hkids _ Hrev) in G1.
    assert (forall a, a ∈ tree c k y -> a <> b /\ a ∈ tree c (S k) b /\ a ∉ kids c k (drop p (c b))) as Hty.
    { intros a Ha. destruct (Hsub [y] a) as [Hne Hin]; [intros z ->%list_elem_of_singleton; by eapply list_elem_of_lookup_2|unfold kids; cbn; by rewrite app_nil_r|].
      split; [done|]. split; [done|]. rewrite <- app_assoc in Hn. apply NoDup_app in Hn as (_&_&Hn). apply NoDup_app in Hn as (_&Hdd&_). intros Hk. apply (Hdd a Ha). set_solver. }
    assert (gave_back s2 s4 l (f2 ++ f1) (kids c k (rev (drop p (c b))) ++ tree c k y) (tree (content (fdev s4)) k y)) as G12.
    { eapply gave_both; [exact G1|exact G2| |set_solver|set_solver]. rewrite kids_rev, Pf1, (gb_tree _ _ _ _ _ _ G2). solve_Permutation. }
    assert (forall a, a ∈ kids c k (take q (c b)) -> content (fdev s4) a = c a) as Hleft.
    { intros a Ha. destruct (Hsub (take q (c b)) a) as [Hne Hin]; [intros z Hz; rewrite <- (take_drop q (c b)); set_solver|done|].
      rewrite <- app_assoc in Hn. apply NoDup_app in Hn as (_&Hdd&_). rewrite (gb_frame _ _ _ _ _ _ G2) by (intros Hx; apply (Hdd a Ha); set_solver).
      apply Hkeep; [done| |done]. intros Hx. apply (Hdd a Ha). set_solver. }
    assert (content (fdev s4) b = take (S q) (c b) ++ replicate (256 - S q) 0) as Hb4.
    { rewrite (gb_frame _ _ _ _ _ _ G12), Hkept; [unfold kept; by rewrite Ep|]. intros [Hx|Hx]%elem_of_app; [by destruct (Hsub _ _ Hrev Hx)|by destruct (Hty _ Hx)]. }
    assert (tree c k y ≡ₚ tree (content (fdev s4)) k y ++ f2) as P2 by apply G2.
    pose proof (cut_ext c (content (fdev s3)) _ (content (fdev s4)) k y _ ltac:(intros a Ha; destruct (Hty a Ha) as (?&?&?); by apply Hkeep) ltac:(done) Hcut) as Hcut'.
    pose proof (cut_trees c (content (fdev s4)) k b last y q Hb Hlen ltac:(lia) eq_refl Hy Hb4 Hleft Hcut' f2 P2) as HT.
    destruct (cut_close s s2 s4 l (f2 ++ f1) b kept _ _ (tree c (S k) b) (tree (content (fdev s4)) (S k) b) D2 G12 Hbt) as (d'&E5&C5&G).
    { intros a [Hx|Hx]%elem_of_app; [by destruct (Hsub _ _ Hrev Hx)|by destruct (Hty _ Hx) as (_&?&_)]. }
    { rewrite HT, Pf1, Ep. done. }
    exists s4, d', (f2 ++ f1). do 5 (split; [done|]). rewrite (tree_ext (content (fdev s4)) (content d')) by auto. split; [exact G|]. split; [|lia].
    eapply cut_ext; [|exact C5|]; [done|]. by apply (cut_below c (content (fdev s4)) k b last y q Hb Hlen ltac:(lia) eq_refl Hy Hb4 Hleft Hcut').
Qed.

Lemma indirtrunc_ok aflags level : truncates (S level) (fun b last s => indirtrunc level b last aflags s).
Proof.
  induction level as [|level IH]; intros b last s l Hr Hm Hb Hl.
  - destruct (cut_tree s l 0 b last (on aflags B_SYNC) (trsingle (content (fdev s) b) (last / 256 ^ Z.of_nat 0)) Hr Hm Hb Hl) as (s1&d&s2&s4&d'&f&E1&E2&E3&E4&E5&G&Hcut&Hz).
    { intros s2 Hr2 Hs2. destruct (free_each_ok _ s2 l Hr2) as (s3&f1&E&G). exists s3, f1. split; [exact G|]. split; [intros _; exact E|].
      intros y Hl0 Hy Hr3 _. exists s3, []. split; [exact E|]. split; [apply gave_none, Hr3|]. constructor; [|done]. change (256 ^ Z.of_nat 0) with 1. intros n Hn.
      rewrite Z.mod_1_r. destruct (Z.leb_spec n 0); [done|lia]. }
    assert ((if 0 <? last then last / 256 ^ Z.of_nat 0 else last) = last / 256 ^ Z.of_nat 0) as El by (change (256 ^ Z.of_nat 0) with 1; rewrite Z.div_1_r; by destruct (0 <? last)).
    cbn [indirtrunc]. change NINDIR with 256. rewrite El, E1. cbn [mbind outcome_bind fst snd no_error]. rewrite E2. cbn [mbind outcome_bind]. cbv zeta in E3. rewrite E3.
    cbn [mbind outcome_bind]. rewrite E4. cbn [mbind outcome_bind]. rewrite E5. cbn [mbind outcome_bind]. by exists (with_dev s4 d'), f.
  - set (F := 256 ^ Z.of_nat (S level)) in *. assert (0 < F) as HF by (apply Z.pow_pos_nonneg; lia).
    assert ((if 0 <? last then last / F else last) = last / F) as El.
    { destruct (Z.ltb_spec 0 last); [done|]. assert (last = 0 \/ last = -1) as [->| ->] by lia; [by rewrite Z.div_0_l by lia|].
      assert (1 < F) by (apply Z.pow_gt_1; lia). apply (Z.div_unique (-1) F (-1) (F - 1)); lia. }
    set (x := content (fdev s) b).
    destruct (cut_tree s l (S level) b last (on aflags B_SYNC) (fun s2 => s3 ← indir_each (fun nb => indirtrunc level nb (-1) aflags) (rev (drop (Z.to_nat (last / F + 1)) x)) s2;
        if 0 <=? last then nb ← rdz x (last / F); if nb =? 0 then Ok s3 else indirtrunc level nb (last mod F) aflags s3 else Ok s3) Hr Hm Hb Hl)
      as (s1&d&s2&s4&d'&f&E1&E2&E3&E4&E5&G&Hcut&Hz).
    { intros s2 Hr2 Hs2. destruct (indir_each_ok (fun nb => indirtrunc level nb (-1) aflags) (S level) (S (S level))) with (chs := rev (drop (Z.to_nat (last / F + 1)) x)) (s := s2) (l := l) as (s3&f1&E&G); [|done|done|].
      - clear -IH. intros s l nb Hr Hm Hnb. destruct (IH nb (-1) s l Hr Hm Hnb) as (s'&f&E&G&_&Hz); [assert (0 < 256 ^ Z.of_nat (S level)) by (apply Z.pow_pos_nonneg; lia); lia|].
        rewrite Hz in G by lia. by exists s', f.
      - exists s3, f1. split; [exact G|]. rewrite E. cbn [mbind outcome_bind]. split; [intros ?; by rewrite (proj2 (Z.leb_gt _ _))|].
        intros y Hl0 Hy Hr3 Hs3. rewrite (proj2 (Z.leb_le _ _)) by done. rewrite (rdz_ok _ _ y) by (done || apply Z.div_pos; lia). cbn [mbind outcome_bind].
        destruct (Z.eqb_spec y 0) as [->|Hy0].
        + exists s3, []. split; [done|]. split; [apply gave_none, Hr3|]. constructor; intros; rewrite !walk_hole in *; [by destruct (_ <=? _)|done].
        + destruct (IH y (last mod F) s3 (f1 ++ l) Hr3 Hs3 Hy0) as (s4&f2&E4&G2&Hc&_); [pose proof (Z.mod_pos_bound last F HF); fold F; lia|]. by exists s4, f2. }
    cbn [indirtrunc]. change (NINDIR ^ Z.of_nat (S level)) with F. rewrite El, E1. cbn [mbind outcome_bind fst snd no_error]. rewrite E2. cbn [mbind outcome_bind]. cbv zeta in E3.
    fold x F in E3. fold x. rewrite E3. cbn [mbind outcome_bind]. rewrite E4. cbn [mbind outcome_bind]. rewrite E5. cbn [mbind outcome_bind]. by exists (with_dev s4 d'), f.
Qed.

(** ** The addresses of the inode *)

(** Of a file with the addresses [addr] the numbers [P] are left, under the
    addresses [addr']; the blocks [f] of the others are free. *)
Record shrunk (s s' : fsys D) (l f addr addr' : list Z) (P : Z -> bool) : Prop := {
  sh_gave : gave_back s s' l f (owned (content (fdev s)) addr) (owned (content (fdev s')) addr');
  sh_map : forall m, file_block (content (fdev s')) addr' m = if P m then file_block (content (fdev s)) addr m else 0;
  sh_data : forall m, P m = true -> let a := file_block (content (fdev s)) addr m in a <> 0 -> content (fdev s') a = content (fdev s) a
}.

Lemma shrunk_none s l addr : alloc_ok (content (fdev s)) (fsb s) l -> shrunk s s l [] addr addr (fun _ => true).
Proof. intros Ha. constructor; [by apply gave_none|done|done]. Qed.

Lemma shrunk_trans s s1 s2 l f1 f2 addr addr1 addr2 P1 P2 : shrunk s s1 l f1 addr addr1 P1 -> shrunk s1 s2 (f1 ++ l) f2 addr1 addr2 P2 ->
  shrunk s s2 l (f2 ++ f1) addr addr2 (fun m => P1 m && P2 m).
Proof.
  intros [G1 M1 D1] [G2 M2 D2]. pose proof (gb_tree _ _ _ _ _ _ G1) as T1. pose proof (gb_tree _ _ _ _ _ _ G2) as T2. constructor.
  - eapply gave_both; [exact G1|exact G2|rewrite T1, T2; solve_Permutation|done|]. intros a Ha. rewrite T1. set_solver.
  - intros m. rewrite M2, M1. by destruct (P1 m), (P2 m).
  - cbv zeta. intros m [H1 H2]%andb_prop Hne. specialize (M1 m). rewrite H1 in M1. rewrite <- M1. rewrite (D2 m H2) by (by rewrite M1). rewrite M1. by apply D1.
Qed.

Lemma shrunk_weaken s s' l f addr addr' (P Q : Z -> bool) : shrunk s s' l f addr addr' P -> (forall m, P m = Q m \/ slot m = None) -> shrunk s s' l f addr addr' Q.
Proof.
  intros [G M Dt] HPQ. assert (forall c a m, slot m = None -> file_block c a m = 0) as Hnone by (intros c a m E; unfold file_block; by rewrite E).
  constructor; [done| |]; cbv zeta; intros m; (destruct (HPQ m) as [<-|E]; [auto|]).
  - rewrite !Hnone by done. by destruct (Q m).
  - intros _ Hne. by rewrite Hnone in Hne.
Qed.

(** The work at one address. *)
Definition cut_slot (aflags : Z) (k : nat) (bn last : Z) (s : fsys D) : outcome (fsys D) :=
  if bn =? 0 then Ok s
  else
    s ← match k with O => Ok s | S level => indirtrunc level bn last aflags s end;
    if last <? 0 then free bn s else Ok s.

Lemma cut_root aflags k last s l bn : ready s l (tree (content (fdev s)) k bn) -> spare s (S k) -> bn <> 0 -> -1 <= last < 256 ^ Z.of_nat k ->
  exists s' f, cut_slot aflags k bn last s = Ok s' /\ let bn' := if last <? 0 then 0 else bn in
    gave_back s s' l f (tree (content (fdev s)) k bn) (tree (content (fdev s')) k bn') /\
    (forall n, 0 <= n < 256 ^ Z.of_nat k -> walk (content (fdev s')) k bn' n = if n <=? last then walk (content (fdev s)) k bn n else 0) /\
    (forall n, 0 <= n < 256 ^ Z.of_nat k -> n <= last -> walk (content (fdev s)) k bn n <> 0 ->
       content (fdev s') (walk (content (fdev s)) k bn n) = content (fdev s) (walk (content (fdev s)) k bn n)).
Proof.
  intros Hr Hm Hb Hl. set (c := content (fdev s)) in *. cbv zeta. unfold cut_slot. destruct (Z.eqb_spec bn 0); [done|].
  assert (exists s1 f1, match k with O => Ok s | S level => indirtrunc level bn last aflags s end = Ok s1 /\ gave_back s s1 l f1 (tree c k bn) (tree (content (fdev s1)) k bn) /\
    (0 <= last -> cut c (content (fdev s1)) k bn last) /\ (last < 0 -> tree (content (fdev s1)) k bn = [bn])) as (s1&f1&->&G1&Hc&Hz).
  { destruct k as [|level].
    - exists s, []. split; [done|]. split; [apply gave_none, Hr|]. split; [|intros _; cbn; by destruct (Z.eqb_spec bn 0)]. intros Hp. constructor; [|done].
      change (256 ^ Z.of_nat 0) with 1 in *. intros n1 Hn1. destruct (Z.leb_spec n1 last); [done|lia].
    - destruct (indirtrunc_ok aflags level bn last s l Hr Hm Hb Hl) as (s1&f1&E&G&Hc&Hz). by exists s1, f1. }
  cbn [mbind outcome_bind]. destruct (Z.ltb_spec last 0) as [Hneg|Hpos].
  - rewrite (Hz Hneg) in G1. pose proof (gb_tree _ _ _ _ _ _ G1) as P1.
    assert (ready s1 (f1 ++ l) [bn]) as Hr1 by (eapply ready_gave; [exact Hr|exact G1|by rewrite P1]).
    destruct (give_one s1 (f1 ++ l) [bn] bn Hr1) as (s2&E2&G2); [set_solver|]. exists s2, ([bn] ++ f1). split; [exact E2|]. split; [|split].
    + rewrite tree_hole. eapply gave_both; [exact G1|exact G2|by rewrite P1|done|]. intros a Ha. rewrite P1. set_solver.
    + intros n1 Hn1. rewrite walk_hole. destruct (Z.leb_spec n1 last); [lia|done].
    + lia.
  - exists s1, f1. split; [done|]. split; [done|]. destruct (Hc Hpos) as [Hw Hd]. done.
Qed.

Lemma slot_cut aflags j k last s l addr bn : ready s l (owned (content (fdev s)) addr) -> spare s (S k) -> length addr = 7%nat -> levels !! j = Some k -> addr !! j = Some bn ->
  -1 <= last < 256 ^ Z.of_nat k ->
  exists s' f, cut_slot aflags k bn last s = Ok s' /\ shrunk s s' l f addr (if last <? 0 then <[j:=0]> addr else addr) (kept_at j last).
Proof.
  intros Hr Hm Hlen Hk Hbn Hl. set (c := content (fdev s)) in *. pose proof Hr as [Ha Hn _ _ _ _]. pose proof (lookup_lt_Some _ _ _ Hbn) as Hj.
  set (bn' := if last <? 0 then 0 else bn). assert ((if last <? 0 then <[j:=0]> addr else addr) = <[j:=bn']> addr) as ->.
  { unfold bn'. destruct (last <? 0); [done|]. by rewrite list_insert_id. }
  assert (forest c levels addr ≡ₚ tree c k bn ++ rest c levels addr j) as Hpick by by apply forest_pick.
  assert (exists s' f, cut_slot aflags k bn last s = Ok s' /\ gave_back s s' l f (tree c k bn) (tree (content (fdev s')) k bn') /\
    (forall n, 0 <= n < 256 ^ Z.of_nat k -> walk (content (fdev s')) k bn' n = if n <=? last then walk c k bn n else 0) /\
    (forall n, 0 <= n < 256 ^ Z.of_nat k -> n <= last -> walk c k bn n <> 0 -> content (fdev s') (walk c k bn n) = c (walk c k bn n))) as (s'&f&E&G&Hw&Hd).
  { destruct (decide (bn = 0)) as [->|Hb0].
    - exists s, []. unfold cut_slot. split; [done|]. replace bn' with 0 by (unfold bn'; by destruct (last <? 0)). split; [apply gave_none, Ha|].
      split; intros; rewrite !walk_hole in *; [by destruct (_ <=? _)|done].
    - destruct (cut_root aflags k last s l bn) as (s'&f&E&G&Hw&Hd); [|done|done|done|by exists s', f]. eapply in_ready_tree; [done| |].
      + intros a Hin. unfold owned. rewrite Hpick. set_solver.
      + apply NoDup_app in Hn as (Hn&_). unfold owned in Hn. rewrite Hpick in Hn. by apply NoDup_app in Hn as (Hn&_). }
  exists s', f. split; [done|]. assert (forall a, a ∈ rest c levels addr j -> content (fdev s') a = c a) as Hrest.
  { intros a Hin. apply (gb_frame _ _ _ _ _ _ G). intros Hin'. apply NoDup_app in Hn as (Hn&_). unfold owned in Hn. rewrite Hpick in Hn. apply NoDup_app in Hn as (_&Hd'&_). by apply (Hd' a). }
  assert (forall i k2 y2, i <> j -> levels !! i = Some k2 -> addr !! i = Some y2 -> forall a, a ∈ tree c k2 y2 -> content (fdev s') a = c a) as Hoth.
  { intros i k2 y2 Hne Hk2 Hy2 a Hin. apply Hrest. by eapply rest_in. }
  assert (<[j:=bn']> addr !! j = Some bn') as Hbn' by by apply list_lookup_insert_eq. constructor.
  - destruct G as [A S1 R N K H P C]. constructor; try done.
    + unfold owned; fold c. rewrite Hpick, (forest_pick (content (fdev s')) _ _ j k bn') by done. rewrite rest_insert, (rest_ext c (content (fdev s'))) by done. rewrite P. solve_Permutation.
    + intros a Hin. apply C. intros Hin'. apply Hin. unfold owned; fold c. rewrite Hpick. set_solver.
  - intros m. unfold file_block, kept_at. destruct (slot m) as [[i n]|] eqn:Em; [|done]. destruct (slot_range _ _ _ Em) as (k'&Hk'&Hn'). destruct (Nat.eqb_spec i j) as [->|Hne]; cbn [negb orb].
    + rewrite Hk in Hk'. injection Hk' as <-. rewrite Hk, Hbn, Hbn'. cbn [default]. by apply Hw.
    + rewrite list_lookup_insert_ne, Hk' by done. cbn [default]. destruct (addr !! i) as [z|] eqn:Ez; cbn [default]; [|by rewrite !walk_hole].
      apply walk_ext. by eapply Hoth.
  - cbv zeta. intros m. unfold file_block, kept_at. fold c. destruct (slot m) as [[i n]|] eqn:Em; [|done]. destruct (slot_range _ _ _ Em) as (k'&Hk'&Hn'). destruct (Nat.eqb_spec i j) as [->|Hne]; cbn [negb orb].
    + rewrite Hk in Hk'. injection Hk' as <-. rewrite Hk, Hbn. cbn [default]. intros Hle%Z.leb_le. by apply Hd.
    + intros _. rewrite Hk'. cbn [default]. destruct (addr !! i) as [z|] eqn:Ez; cbn [default]; [|by rewrite walk_hole]. intros Hz. eapply Hoth; [exact Hne|exact Hk'|exact Ez|]. by apply walk_in.
Qed.

(** The work at a list of addresses [js] of [addr], with the last numbers
    [last]. *)
Fixpoint cut_slots (aflags : Z) (addr : list Z) (last : nat -> Z) (js : list nat) (s : fsys D) : outcome (fsys D) :=
  match js with
  | [] => Ok s
  | j :: js' => s ← cut_slot aflags (default 0%nat (levels !! j)) (default 0 (addr !! j)) (last j) s; cut_slots aflags addr last js' s
  end.

Lemma cut_slots_ok aflags addr last js : forall s l cur, ready s l (owned (content (fdev s)) cur) -> spare s 4 -> length cur = 7%nat -> NoDup js ->
  (forall j, j ∈ js -> (j < 7)%nat /\ cur !! j = addr !! j /\ exists k, levels !! j = Some k /\ -1 <= last j < 256 ^ Z.of_nat k) ->
  exists s' f, cut_slots aflags addr last js s = Ok s' /\ shrunk s s' l f cur (zapped last js cur) (fun m => forallb (fun j => kept_at j (last j) m) js).
Proof.
  induction js as [|j js IH]; intros s l cur Hr Hm Hlen Hn Hjs.
  { exists s, []. split; [done|]. apply shrunk_none, Hr. }
  apply NoDup_cons in Hn as [Hj Hn]. destruct (Hjs j) as (Hj7&Hcur&k&Hk&Hl); [set_solver|]. destruct (lookup_lt_is_Some_2 cur j) as [bn Hbn]; [lia|].
  assert ((S k <= 4)%nat) as Hk4 by (do 7 (destruct j as [|j]; [cbn in Hk; injection Hk as <-; lia|]); lia).
  destruct (slot_cut aflags j k (last j) s l cur bn Hr) as (s1&f1&E&Sh); [unfold spare in *; lia|done|done|done|done|].
  cbn [cut_slots zapped]. rewrite Hk, <- Hcur, Hbn. cbn [default]. change (id k) with k; change (id bn) with bn. rewrite E. cbn [mbind outcome_bind]. pose proof (sh_gave _ _ _ _ _ _ _ Sh) as G.
  set (cur1 := if last j <? 0 then <[j:=0]> cur else cur) in *.
  destruct (IH s1 (f1 ++ l) cur1) as (s2&f2&E2&Sh2).
  - eapply ready_gave; [exact Hr|exact G|apply G].
  - by eapply spare_after.
  - unfold cur1. case_bool; by rewrite ?length_insert.
  - done.
  - intros i Hi. destruct (Hjs i) as (?&?&?); [set_solver|]. split; [done|]. split; [|done]. unfold cur1. case_bool; [rewrite list_lookup_insert_ne by set_solver|]; done.
  - exists s2, (f2 ++ f1). split; [done|]. by eapply shrunk_trans.
Qed.

(** The loop over the indirect addresses. *)
Lemma itrunc_levels_step aflags addr length lv lvs s : List.length addr = 7%nat -> (lv <= 2)%nat ->
  itrunc_levels (lv :: lvs) addr length aflags s =
  (s1 ← cut_slot aflags (S lv) (default 0 (addr !! (4 + lv)%nat)) (lastiblock length lv) s; if 0 <=? lastiblock length lv then Ok (s1, false) else itrunc_levels lvs addr length aflags s1).
Proof.
  intros Hlen Hlv. cbn [itrunc_levels]. destruct (lookup_lt_is_Some_2 addr (4 + lv)) as [bn Hbn]; [lia|]. change NDADDR with 4.
  rewrite (rdz_ok _ _ bn); [|lia|by replace (Z.to_nat (4 + Z.of_nat lv)) with (4 + lv)%nat by lia]. cbn [mbind outcome_bind]. rewrite Hbn. change (default 0 (Some bn)) with bn. unfold cut_slot.
  by destruct (bn =? 0).
Qed.

Lemma free_slot aflags b s : (if b =? 0 then Ok s else free b s) = cut_slot aflags 0 b (-1) s.
Proof. done. Qed.

Lemma directs_slots aflags addr length s : List.length addr = 7%nat -> -1 <= lastblock length ->
  free_each (rev (drop (Z.to_nat (lastblock length + 1)) (take 4 addr))) s =
  cut_slots aflags addr (last_of length) (rev (seq (Z.to_nat (lastblock length + 1)) (4 - Z.to_nat (lastblock length + 1)))) s.
Proof.
  intros Hlen HL. do 7 (destruct addr as [|? addr]; [done|]). destruct addr as [|]; [|done]. clear Hlen. cbn [take].
  destruct (decide (3 <= lastblock length)) as [H3|H3].
  - rewrite drop_ge by (cbn; lia). by replace (4 - Z.to_nat (lastblock length + 1))%nat with 0%nat by lia.
  - assert (forall j, (j < 4)%nat -> lastblock length < Z.of_nat j -> last_of length j = -1) as El0 by (intros j Hj Hlt; unfold last_of; rewrite (proj2 (Nat.ltb_lt _ _) Hj); by rewrite (proj2 (Z.ltb_lt _ _) Hlt)).
    assert (Z.to_nat (lastblock length + 1) = 3 \/ Z.to_nat (lastblock length + 1) = 2 \/ Z.to_nat (lastblock length + 1) = 1 \/ Z.to_nat (lastblock length + 1) = 0)%nat
      as [E|[E|[E|E]]] by lia; rewrite E; cbn [Nat.sub seq rev app drop cut_slots free_each];
      rewrite ?(El0 3%nat), ?(El0 2%nat), ?(El0 1%nat), ?(El0 0%nat) by lia; reflexivity.
Qed.

Lemma itrunc_visits aflags addr length s : List.length addr = 7%nat -> -1 <= lastblock length ->
  (r ← itrunc_levels [2; 1; 0]%nat addr length aflags s;
   if snd r : bool then free_each (rev (drop (Z.to_nat (lastblock length + 1)) (take (Z.to_nat NDADDR) addr))) (fst r) else Ok (fst r)) =
  cut_slots aflags addr (last_of length) (visited length) s.
Proof.
  intros Hlen HL. change (Z.to_nat NDADDR) with 4%nat. unfold visited. rewrite itrunc_levels_step by (done || lia). change (lastiblock length 2) with (last_of length 6).
  change (default 0 (addr !! (4 + 2)%nat)) with (default 0 (addr !! 6%nat)).
  assert (forall js s, cut_slots aflags addr (last_of length) (6 :: js)%nat s = (s1 ← cut_slot aflags 3 (default 0 (addr !! 6%nat)) (last_of length 6) s; cut_slots aflags addr (last_of length) js s1)) as S6 by done.
  assert (forall js s, cut_slots aflags addr (last_of length) (5 :: js)%nat s = (s1 ← cut_slot aflags 2 (default 0 (addr !! 5%nat)) (lastiblock length 1) s; cut_slots aflags addr (last_of length) js s1)) as S5 by done.
  assert (forall js s, cut_slots aflags addr (last_of length) (4 :: js)%nat s = (s1 ← cut_slot aflags 1 (default 0 (addr !! 4%nat)) (lastiblock length 0) s; cut_slots aflags addr (last_of length) js s1)) as S4 by done.
  destruct (cut_slot aflags 3 (default 0 (addr !! 6%nat)) (last_of length 6) s) as [s1| |] eqn:E6;
    [|repeat case_match; cbn [app]; rewrite S6, E6; done..].
  cbn [mbind outcome_bind]. destruct (0 <=? last_of length 6); [rewrite S6, E6; done|]. rewrite itrunc_levels_step by (done || lia).
  change (default 0 (addr !! (4 + 1)%nat)) with (default 0 (addr !! 5%nat)).
  destruct (cut_slot aflags 2 (default 0 (addr !! 5%nat)) (lastiblock length 1) s1) as [s2| |] eqn:E5;
    [|repeat case_match; cbn [app]; rewrite S6, E6; cbn [mbind outcome_bind]; rewrite S5, E5; done..].
  cbn [mbind outcome_bind]. destruct (0 <=? lastiblock length 1); [rewrite S6, E6; cbn [mbind outcome_bind]; rewrite S5, E5; done|]. rewrite itrunc_levels_step by (done || lia).
  change (default 0 (addr !! (4 + 0)%nat)) with (default 0 (addr !! 4%nat)). cbn [app].
  destruct (0 <=? lastiblock length 0); rewrite S6, E6; cbn [mbind outcome_bind]; rewrite S5, E5; cbn [mbind outcome_bind]; rewrite S4;
    (destruct (cut_slot aflags 1 (default 0 (addr !! 4%nat)) (lastiblock length 0) s2) as [s3| |]; cbn [mbind outcome_bind itrunc_levels fst snd]; [|done..]); [done|].
  by apply directs_slots.
Qed.

(** The freeing half of [itrunc]. *)
Lemma itrunc_cut aflags addr length s l : ready s l (owned (content (fdev s)) addr) -> spare s 4 -> List.length addr = 7%nat -> 0 <= length < 2 ^ 31 ->
  exists s' f, (r ← itrunc_levels [2; 1; 0]%nat addr length aflags s;
    if snd r : bool then free_each (rev (drop (Z.to_nat (lastblock length + 1)) (take (Z.to_nat NDADDR) addr))) (fst r) else Ok (fst r)) = Ok s' /\
    shrunk s s' l f addr (addr_kept length addr) (fun m => m <=? lastblock length).
Proof.
  intros Hr Hm Hlen Hl. destruct (lastblock_range length Hl) as [_ HL]. rewrite itrunc_visits by (done || lia). destruct (visited_facts length HL) as [Hn Hv].
  destruct (cut_slots_ok aflags addr (last_of length) (visited length) s l addr Hr Hm Hlen Hn) as (s'&f&E&Sh); [intros j Hj; destruct (Hv j Hj) as (?&?); done|].
  exists s', f. split; [done|]. rewrite visited_addr in Sh by done. eapply shrunk_weaken; [exact Sh|]. intros m. by apply visited_kept.
Qed.

(** The inode on the device can be written. *)
Record inode_ok (ip : inode) (s : fsys D) : Prop := {
  io_addr : List.length (i_addr ip) = 7%nat;
  io_block : SUPERB < itod (i_number ip) < fs_isize (fsb s);
  io_clear : itod (i_number ip) ∉ held (fdev s);
  io_rw : fs_ronly (fsb s) = 0
}.

Lemma inode_ok_shape ip ip' s s' : inode_ok ip s -> i_number ip' = i_number ip -> List.length (i_addr ip') = 7%nat -> same_shape (fsb s) (fsb s') ->
  held (fdev s') = held (fdev s) -> inode_ok ip' s'.
Proof. intros [H1 H2 H3 H4] En El (S1&S2&S3&S4&_) Hh. constructor; rewrite ?En, ?Hh; [done|by rewrite S1|done|by rewrite S4]. Qed.

Lemma itrunc_updret_ok ip s : inode_ok ip s -> spare s 1 -> exists s' ip', itrunc_updret ip s = Ok (s', ip') /\
  i_addr ip' = i_addr ip /\ i_size ip' = i_size ip /\ i_number ip' = i_number ip /\
  dev_step s s' (wrote (content (fdev s)) (itod (i_number ip)) (dinode_put ip' (Z.to_nat (itoo (i_number ip))) (content (fdev s) (itod (i_number ip))))) (held (fdev s)) (anon (fdev s)).
Proof.
  intros [Hlen Hb Hc Hro] Hm. unfold itrunc_updret, iupdat, iupdat_at. set (fl := Z.lor (i_flag ip) (Z.lor ICHG IUPD)). cbn [set_iflag i_flag i_number].
  assert (Z.land fl (Z.lor (Z.lor IUPD IACC) (Z.lor ICHG IMOD)) =? 0 = false) as ->.
  { apply Z.eqb_neq. intros E. assert (Z.testbit (Z.land fl (Z.lor (Z.lor IUPD IACC) (Z.lor ICHG IMOD))) 1 = false) as Hf by (rewrite E; apply Z.testbit_0_l).
    unfold fl in Hf. rewrite Z.land_spec, Z.lor_spec in Hf. change (Z.testbit (Z.lor ICHG IUPD) 1) with true in Hf. rewrite orb_true_r in Hf. done. }
  rewrite Hro. cbn [Z.eqb negb]. set (b := itod (i_number ip)) in *. destruct (fs_bread_ok s b Hc) as (s1&->&[F1 R1 N1 C1 H1 K1]); [unfold spare, room in *; lia|].
  cbn [mbind outcome_bind fst snd]. set (ip1 := set_iflag (set_itimes _ _ _ _) _).
  assert (0 <= itoo (i_number ip) < 16) as Hk by (unfold itoo, INOPB; apply Z.mod_pos_bound; lia).
  set (x := dinode_put ip1 _ _). assert (List.length x = 256%nat) as Hx.
  { unfold x, dinode_put. rewrite !length_app, length_take, length_drop, content_length. cbn [List.length]. change (i_addr ip1) with (i_addr ip). rewrite Hlen. cbn [i_number set_itimes set_iflag]. lia. }
  destruct (fs_bwrite_ok s1 b x) as (s2&->&[F2 R2 N2 C2 H2 K2]); [rewrite H1; set_solver|done|]. cbn [mbind outcome_bind fst snd Z.eqb]. exists s2, ip1. split; [done|]. split; [done|]. split; [done|]. split; [done|].
  constructor; try congruence; [|rewrite H2, H1; set_solver]. intros a. rewrite C2. unfold wrote. case_decide; [done|apply C1].
Qed.

(** The end of the last block kept is cleared; [None] when there is no block
    for it. *)
Definition partial_block (length : Z) : Z := length / 1024.

Lemma lblkno_eq length : 0 <= length < 2 ^ 31 -> lblkno length = partial_block length.
Proof. intros Hl. unfold lblkno, partial_block. rewrite trunc_small by lia. rewrite Z.shiftr_div_pow2 by lia. done. Qed.

Lemma zero_from_length x off : List.length x = 256%nat -> 0 <= off < 1024 -> List.length (zero_from x off) = 256%nat.
Proof.
  intros Hx Ho. unfold zero_from. assert (0 <= off / 4 < 256) by (split; [apply Z.div_pos; lia|apply Z.div_lt_upper_bound; lia]).
  destruct (_ =? 0); [rewrite length_app, length_take, length_replicate|rewrite length_app, length_take; cbn [List.length]; rewrite length_replicate]; lia.
Qed.

(** What [itrunc] promises: the map of the file is the old one up to the new
    length. *)
Record truncated (ip : inode) (length : Z) (s : fsys D) (l : list Z) (s' : fsys D) (ip' : inode) (l' : list Z) : Prop := {
  tr_size : i_size ip' = length;
  tr_addr : List.length (i_addr ip') = 7%nat;
  tr_ready : ready s' l' (owned (content (fdev s')) (i_addr ip'));
  tr_parts : owned (content (fdev s')) (i_addr ip') ++ l' ≡ₚ owned (content (fdev s)) (i_addr ip) ++ l;
  tr_past : forall m, lastblock length < m -> file_block (content (fdev s')) (i_addr ip') m = 0;
  tr_kept : forall m, m <= lastblock length -> (blkoff length = 0 \/ m <> partial_block length) ->
    let a := file_block (content (fdev s)) (i_addr ip) m in
    file_block (content (fdev s')) (i_addr ip') m = a /\ (a <> 0 -> content (fdev s') a = content (fdev s) a);
  tr_partial : blkoff length <> 0 -> let a := file_block (content (fdev s)) (i_addr ip) (partial_block length) in let a' := file_block (content (fdev s')) (i_addr ip') (partial_block length) in
    a' <> 0 /\ (a <> 0 -> a' = a) /\ content (fdev s') a' = zero_from (if a =? 0 then zeros else content (fdev s) a) (blkoff length);
  tr_disk : content (fdev s') (itod (i_number ip)) = dinode_put ip' (Z.to_nat (itoo (i_number ip))) (content (fdev s) (itod (i_number ip)));
  tr_frame : forall a, a <> SUPERB -> a <> itod (i_number ip) -> a ∉ owned (content (fdev s)) (i_addr ip) -> a ∉ l -> content (fdev s') a = content (fdev s) a;
  tr_calm : same_shape (fsb s) (fsb s') /\ ferr s' = ferr s /\ held (fdev s') = held (fdev s) /\ anon (fdev s') = anon (fdev s)
}.

Lemma ready_extends s s' l new l' T T' : ready s l T -> extends s s' l new l' T T' -> ready s' l' T'.
Proof.
  intros [Ha Hn Hd Hc Hs Hr] [El A S N K H P F Q]. rewrite El in *. pose proof (al_data _ _ _ Ha) as Hdl. constructor; rewrite ?H; try done.
  - rewrite P, <- app_assoc. done.
  - rewrite P. apply Forall_app in Hdl as [Hdl _]. apply Forall_app. split; (eapply Forall_impl; [eassumption|intros a; by apply in_data_shape]).
  - intros a Hin. apply Hc. rewrite P in Hin. set_solver.
  - unfold spare in *. by rewrite H, K.
Qed.

(** Before the cut: the last block kept is there, and cleared past the end. *)
Record opened (ip : inode) (length : Z) (s : fsys D) (l : list Z) (s1 : fsys D) (ip1 : inode) (l1 : list Z) : Prop := {
  op_ready : ready s1 l1 (owned (content (fdev s1)) (i_addr ip1));
  op_addr : List.length (i_addr ip1) = 7%nat;
  op_number : i_number ip1 = i_number ip;
  op_parts : owned (content (fdev s1)) (i_addr ip1) ++ l1 ≡ₚ owned (content (fdev s)) (i_addr ip) ++ l;
  op_map : forall m, (blkoff length = 0 \/ m <> partial_block length) -> let a := file_block (content (fdev s)) (i_addr ip) m in
    file_block (content (fdev s1)) (i_addr ip1) m = a /\ (a <> 0 -> content (fdev s1) a = content (fdev s) a);
  op_partial : blkoff length <> 0 -> let a := file_block (content (fdev s)) (i_addr ip) (partial_block length) in let a' := file_block (content (fdev s1)) (i_addr ip1) (partial_block length) in
    a' <> 0 /\ (a <> 0 -> a' = a) /\ content (fdev s1) a' = zero_from (if a =? 0 then zeros else content (fdev s) a) (blkoff length);
  op_frame : forall a, a <> SUPERB -> a ∉ owned (content (fdev s)) (i_addr ip) -> a ∉ l -> content (fdev s1) a = content (fdev s) a;
  op_calm : same_shape (fsb s) (fsb s1) /\ ferr s1 = ferr s /\ held (fdev s1) = held (fdev s) /\ anon (fdev s1) = anon (fdev s)
}.

(** No block for it. *)
Definition no_block (ip : inode) (n : Z) (s : fsys D) (l : list Z) (s1 : fsys D) (ip1 : inode) : Prop :=
  ferr s1 = FS_ENOSPC /\ i_size ip1 = i_size ip /\ exists new, extends s s1 l new [] (owned (content (fdev s)) (i_addr ip)) (owned (content (fdev s1)) (i_addr ip1)) /\
    forall m, file_block (content (fdev s1)) (i_addr ip1) m = file_block (content (fdev s)) (i_addr ip) m.

Lemma open_partial ip length aflags s l : ready s l (owned (content (fdev s)) (i_addr ip)) -> List.length (i_addr ip) = 7%nat -> spare s 4 -> ferr s = 0 ->
  0 <= length < 2 ^ 31 -> on aflags B_CLRBUF = true -> blkoff length <> 0 ->
  exists s1 ip1 ok, (r ← bmap ip (lblkno length) B_WRITE aflags 0 s;
    let '(s, ip, bn, _) := r in
    if negb (ferr s =? 0) || (bn <? 0) then Ok (s, ip, false)
    else
      r ← fs_bread s bn;
      let s := fst r in
      match no_error (snd r) with
      | None => s ← fs_brelse (with_err s FS_EIO) bn; Ok (s, ip, false)
      | Some x => s ← fs_bdwrite s bn (zero_from x (blkoff length)); Ok (s, ip, true)
      end) = Ok (s1, ip1, ok) /\
    if ok : bool then exists l1, opened ip length s l s1 ip1 l1 else no_block ip (partial_block length) s l s1 ip1.
Proof.
  intros Hr Hlen Hm He Hl Hcb Hoff. rewrite lblkno_eq by done. assert (0 <= partial_block length < MAXBLK) as Hp.
  { unfold partial_block, MAXBLK. split; [apply Z.div_pos; lia|]. apply Z.div_lt_upper_bound; lia. }
  destruct (bmap_ok ip (partial_block length) B_WRITE aflags 0 s l Hp Hlen Hr) as (s1&ip1&v&ra&new&l1&->&(Hl1&Hex&Hot&Hf&Hz&Hd)&Hip); [unfold spare in *; lia|]. cbn [mbind outcome_bind].
  set (c := content (fdev s)) in *. set (c1 := content (fdev s1)) in *. set (p := partial_block length) in *.
  assert (i_size ip1 = i_size ip /\ i_number ip1 = i_number ip) as [Hsz Hnb] by (destruct Hip as [->| ->]; done).
  pose proof (ready_extends _ _ _ _ _ _ _ Hr Hex) as Hr1. fold c1 in Hr1. destruct Hf as [(Ev&Hv&Hev&Hf1&Hf2)|(Ev&Hw&Hw'&[(?&_)|(_&El&Hev)])]; [| done |].
  2: { rewrite Hev, Ev. cbn [Z.eqb negb orb FS_ENOSPC]. exists s1, ip1, false. split; [done|]. split; [done|]. split; [done|]. exists new. rewrite <- El. split; [done|].
       intros m. destruct (decide (m = p)) as [->|Hne]; [fold c c1; by rewrite Hw, Hw'|by apply Hot]. }
  rewrite Hev, He. cbn [Z.eqb negb orb]. assert (v ∈ owned c1 (i_addr ip1)) as Hvin by (rewrite Ev; apply file_block_in; by rewrite <- Ev).
  assert (in_data (fsb s1) v) as Hvd by (pose proof (rd_data _ _ _ Hr1) as Hd1; rewrite Forall_forall in Hd1; by apply Hd1).
  destruct (Z.ltb_spec v 0); [pose proof (al_size _ _ _ (rd_alloc _ _ _ Hr1)); unfold in_data in Hvd; lia|].
  assert (v ∉ held (fdev s1)) as Hvh by (apply (rd_clear _ _ _ Hr1); set_solver).
  destruct (fs_bread_ok s1 v Hvh (ready_room _ _ _ Hr1)) as (s2&->&[F2 R2 N2 C2 H2 K2]). cbn [mbind outcome_bind fst snd no_error]. fold c1 in C2 |- *.
  assert (0 <= blkoff length < 1024) as Hob by (unfold blkoff, DEV_BSIZE; change (1024 - 1) with (2 ^ 10 - 1); rewrite land_pow2_mod by lia; apply Z.mod_pos_bound; lia).
  destruct (fs_bdwrite_ok s2 v (zero_from (c1 v) (blkoff length))) as (s3&->&[F3 R3 N3 C3 H3 K3]); [rewrite H2; set_solver|apply zero_from_length; [apply content_length|done]|].
  cbn [mbind outcome_bind]. exists s3, ip1, true. split; [done|]. exists l1. set (c3 := content (fdev s3)) in *.
  assert (forall a, a <> v -> c3 a = c1 a) as Hc3. { intros a Ha. unfold c3. rewrite C3. unfold wrote. rewrite decide_False by done. apply C2. }
  assert (c3 v = zero_from (c1 v) (blkoff length)) as Hc3v by (unfold c3; rewrite C3; unfold wrote; by rewrite decide_True).
  pose proof (rd_nodup _ _ _ Hr1) as Hn1. apply NoDup_app in Hn1 as (Hn1&Hd1&_).
  destruct (leaf_file c1 c3 (i_addr ip1) p Hn1) as [Eo Ef]; [by rewrite <- Ev|intros a; rewrite <- Ev; apply Hc3|].
  constructor; fold c c3 p; rewrite ?Eo.
  - destruct Hr1 as [A N Dt C S R]. assert (held (fdev s3) = held (fdev s1)) as Hh by (rewrite H3, H2; set_solver). constructor; rewrite ?F3, ?F2, ?Hh; try done.
    + eapply alloc_ext; [exact A|]. intros a Ha. apply Hc3. intros ->. by apply (Hd1 v).
    + unfold spare in *. rewrite Hh, K3, K2. done.
  - done.
  - done.
  - destruct Hex as [El _ _ _ _ _ P _ _]. rewrite P, El. by rewrite <- app_assoc.
  - cbv zeta. intros m [?|Hm']; [done|]. rewrite Ef, Hot by done. split; [done|]. intros Ha. rewrite Hc3, Hd; [done|done|]. intros E. apply Hm'.
    apply (file_inj c1 (i_addr ip1)); [done|by rewrite Hot|]. rewrite Hot by done. by rewrite E, Ev.
  - cbv zeta. intros _. rewrite Ef, <- Ev. split; [done|]. split.
    + intros Ha. rewrite Ev. by apply Hf1.
    + rewrite Hc3v. destruct (Z.eqb_spec (file_block c (i_addr ip) p) 0) as [E|E].
      * rewrite Hz; [done|by right|done|]. intros ->. unfold in_data in Hvd. lia.
      * f_equal. destruct (Hf1 E) as [E1 _]. rewrite Ev, E1. by apply Hd.
  - intros a Ha1 Ha2 Ha3. rewrite Hc3.
    + apply (ex_frame _ _ _ _ _ _ _ Hex); [done|done|]. intros Hin. apply Ha3. rewrite (ex_list _ _ _ _ _ _ _ Hex). set_solver.
    + intros ->. pose proof (ex_tree _ _ _ _ _ _ _ Hex) as P. fold c1 in P. rewrite P in Hvin. apply elem_of_app in Hvin as [?|?]; [done|]. apply Ha3. rewrite (ex_list _ _ _ _ _ _ _ Hex). set_solver.
  - destruct Hex as [_ _ S _ K Hh _ _ _]. split; [by rewrite F3, F2|]. split; [by rewrite R3, R2|]. split; [rewrite H3, H2, Hh; set_solver|by rewrite K3, K2].
Qed.

Lemma opened_none ip length s l : ready s l (owned (content (fdev s)) (i_addr ip)) -> List.length (i_addr ip) = 7%nat -> blkoff length = 0 -> opened ip length s l s ip l.
Proof. intros Hr Hlen Hb. constructor; done. Qed.

Lemma partial_last length : 0 <= length < 2 ^ 31 -> blkoff length <> 0 -> partial_block length <= lastblock length.
Proof.
  intros Hl Hb. destruct (lastblock_range length Hl) as [-> _]. unfold partial_block, blkoff, DEV_BSIZE in *. change (1024 - 1) with (2 ^ 10 - 1) in Hb.
  rewrite land_pow2_mod in Hb by lia. change (2 ^ 10) with 1024 in Hb. pose proof (Z.div_mod length 1024 ltac:(lia)). pose proof (Z.mod_pos_bound length 1024 ltac:(lia)).
  assert (length / 1024 + 1 <= (length + 1023) / 1024) by (apply Z.div_le_lower_bound; lia). lia.
Qed.

Lemma ready_not_inode s l T ip : ready s l T -> inode_ok ip s -> itod (i_number ip) ∉ T ++ l.
Proof.
  intros [Ha _ Hd _ _ _] [_ Hb _ _] Hin. assert (in_data (fsb s) (itod (i_number ip))) as Hid.
  { apply elem_of_app in Hin as [Hin|Hin]; [|pose proof (al_data _ _ _ Ha) as Hd']; rewrite Forall_forall in *; auto. }
  unfold in_data in Hid. lia.
Qed.

Lemma ready_elsewhere s s' l T b x : ready s l T -> dev_step s s' (wrote (content (fdev s)) b x) (held (fdev s)) (anon (fdev s)) -> b ∉ T ++ l -> ready s' l T.
Proof.
  intros [A N Dt C S R] [F _ _ Cs H K] Hb. constructor; rewrite ?F, ?H; try done; [|unfold spare in *; by rewrite H, K].
  eapply alloc_ext; [exact A|]. intros a Ha. rewrite Cs. unfold wrote. rewrite decide_False; [done|]. intros ->. set_solver.
Qed.

(** The freed blocks and the inode written, after the last block was opened. *)
Lemma itrunc_finish ip length aflags s l s1 ip1 l1 : inode_ok ip s -> spare s 4 -> 0 <= length < 2 ^ 31 -> ready s l (owned (content (fdev s)) (i_addr ip)) -> opened ip length s l s1 ip1 l1 ->
  exists s' ip' l', (let addr := i_addr ip1 in
    let ip := set_iaddr (set_isize ip1 length) (addr_kept length addr) in
    r ← itrunc_levels [2; 1; 0]%nat addr length aflags s1;
    s ← (if snd r : bool then free_each (rev (drop (Z.to_nat (lastblock length + 1)) (take (Z.to_nat NDADDR) addr))) (fst r) else Ok (fst r));
    itrunc_updret ip s) = Ok (s', ip') /\ truncated ip length s l s' ip' l'.
Proof.
  intros Hio Hm Hl Hr [Hr1 Hlen1 Hnb Hparts Hmap Hpart Hfr (Hsh&Herr&Hh&Hk)]. cbv zeta. set (c := content (fdev s)) in *. set (c1 := content (fdev s1)) in *.
  rewrite <- outcome_bind_assoc. destruct (itrunc_cut aflags (i_addr ip1) length s1 l1 Hr1) as (s2&f&->&[G M Dt]); [unfold spare in *; by rewrite Hh, Hk|done|done|]. cbn [mbind outcome_bind].
  fold c1 in G, M, Dt. pose proof G as [A2 S2 R2 N2 K2 H2 P2 C2]. fold c1 in C2. set (c2 := content (fdev s2)) in *. set (ip2 := set_iaddr _ _).
  assert (ready s2 (f ++ l1) (owned c2 (i_addr ip2))) as Hr2 by (eapply ready_gave; [exact Hr1|exact G|exact P2]).
  assert (inode_ok ip1 s1) as Hio1 by (by eapply inode_ok_shape).
  assert (inode_ok ip2 s2) as Hio2.
  { eapply inode_ok_shape; [exact Hio|exact Hnb| |etransitivity; [exact Hsh|exact S2]|congruence]. cbn. unfold addr_kept. by rewrite length_imap. }
  destruct (itrunc_updret_ok ip2 s2 Hio2) as (s3&ip3&->&Ea&Es&En&D3); [by apply rd_room in Hr2|]. exists s3, ip3, (f ++ l1). split; [done|].
  pose proof D3 as [F3 R3 N3 C3 H3 K3]. set (ib := itod (i_number ip2)) in *. assert (ib = itod (i_number ip)) as Eib by (unfold ib; cbn; by rewrite Hnb).
  set (c3 := content (fdev s3)) in *. pose proof (io_block _ _ Hio2) as Hib. fold ib in Hib.
  pose proof (ready_not_inode _ _ _ _ Hr2 Hio2) as Hibn. fold ib in Hibn.
  assert (forall T, Forall (in_data (fsb s2)) T -> forall a, a ∈ T -> c3 a = c2 a) as Hc3.
  { intros T HT a Ha. unfold c3. rewrite C3. unfold wrote. rewrite decide_False; [done|]. intros ->. rewrite Forall_forall in HT. specialize (HT _ Ha). unfold in_data in HT. lia. }
  assert (owned c3 (i_addr ip2) = owned c2 (i_addr ip2)) as Eo by (apply forest_ext, Hc3, Hr2).
  assert (forall m, file_block c3 (i_addr ip2) m = file_block c2 (i_addr ip2) m) as Ef.
  { intros m. unfold file_block. destruct (slot m) as [[j n]|] eqn:Em; [|done]. destruct (slot_range _ _ _ Em) as (k&Ek&_). rewrite Ek. apply walk_ext. intros a Ha. apply (Hc3 _ (rd_data _ _ _ Hr2)).
    destruct (i_addr ip2 !! j) as [y|] eqn:Ey; cbn [default] in Ha; [apply forest_in; by exists j, k, y|rewrite tree_hole in Ha; set_solver]. }
  assert (forall m, file_block c2 (i_addr ip2) m <> 0 -> c3 (file_block c2 (i_addr ip2) m) = c2 (file_block c2 (i_addr ip2) m)) as Ed.
  { intros m Hm'. apply (Hc3 _ (rd_data _ _ _ Hr2)). by apply file_block_in. }
  pose proof (lastblock_range length Hl) as [HL _].
  constructor; rewrite ?Ea; fold c c3; rewrite ?Eo.
  - by rewrite Es.
  - exact (io_addr _ _ Hio2).
  - eapply ready_elsewhere; [exact Hr2|exact D3|]. exact Hibn.
  - cbn [i_addr]. rewrite <- Hparts. cbn in P2. fold c1. rewrite P2. by rewrite app_assoc.
  - intros m Hm'. rewrite Ef, M. by rewrite (proj2 (Z.leb_gt _ _)).
  - cbv zeta. intros m Hm' Hp. rewrite Ef, M, (proj2 (Z.leb_le _ _)) by done. destruct (Hmap m Hp) as [E1 E2]. fold c c1 in E1, E2. split; [done|]. intros Ha.
    assert (file_block c2 (i_addr ip2) m = file_block c (i_addr ip) m) as E3 by (rewrite M, (proj2 (Z.leb_le _ _)) by done; done).
    rewrite <- E3, Ed, E3 by (by rewrite E3). rewrite <- E1, Dt by (rewrite ?E1; auto; by apply Z.leb_le). rewrite E1. by apply E2.
  - cbv zeta. intros Hb. destruct (Hpart Hb) as (E1&E2&E3). fold c c1 in E1, E2, E3.
    assert (partial_block length <= lastblock length) as Hpl.
    { by apply partial_last. }
    assert (file_block c2 (i_addr ip2) (partial_block length) = file_block c1 (i_addr ip1) (partial_block length)) as E4 by (rewrite M, (proj2 (Z.leb_le _ _)) by done; done).
    rewrite Ef, E4. split; [done|]. split; [done|]. rewrite <- E4, Ed, E4 by (by rewrite E4). rewrite Dt; [done|by apply Z.leb_le|done].
  - rewrite <- Eib. unfold c3. rewrite C3. unfold wrote. rewrite decide_True by done. cbn [i_number ip2 set_iaddr set_isize]. rewrite Hnb. f_equal. fold c2. rewrite C2.
    + rewrite Eib. apply Hfr; [lia|intros Hin; by apply (ready_not_inode s l _ ip Hr Hio), elem_of_app; left|intros Hin; by apply (ready_not_inode s l _ ip Hr Hio), elem_of_app; right].
    + intros Hin. apply (ready_not_inode s1 l1 _ ip1 Hr1 Hio1). rewrite Hnb, <- Eib. set_solver.
  - intros a Ha1 Ha2 Ha3 Ha4. unfold c3. rewrite C3. unfold wrote. rewrite decide_False by congruence. fold c2. rewrite C2.
    + by apply Hfr.
    + intros Hin. assert (a ∈ owned c1 (i_addr ip1) ++ l1) as Hin' by set_solver. rewrite Hparts in Hin'. set_solver.
  - split; [etransitivity; [exact Hsh|]; by rewrite F3|]. split; [congruence|]. split; congruence.
Qed.

(** C29. [itrunc] cuts a file exactly at the new length. For a well-formed file
    that gets shorter, on a device without errors: it ends; every block of the
    file up to the new length stays, its data untouched, and all the others
    are gone from the file's map; the blocks it took out are on the free list,
    each once, indirect ones included, so that none is lost or doubled; the
    last block is cleared past the end; the inode on the device is the one in
    core; nothing else on the device changed. The only failure is a hole in
    the last block kept with no free block left to fill it, which leaves the
    file as it was. The copies of the blocks being cut take one buffer a
    level: four, the machine's NBUF, are enough for a triple tree. *)
Theorem itrunc_truncates ip length ioflags s l : ready s l (owned (content (fdev s)) (i_addr ip)) -> inode_ok ip s -> spare s 4 -> ferr s = 0 ->
  on (i_flag ip) IPIPE = false -> 0 <= length < i_size ip -> i_size ip < 2 ^ 31 ->
  exists s' ip', itrunc ip length ioflags s = Ok (s', ip') /\
    ((exists l', truncated ip length s l s' ip' l') \/
     blkoff length <> 0 /\ no_block ip (partial_block length) s l s' ip').
Proof.
  intros Hr Hio Hm He Hp Hl Hsz. pose proof (io_addr _ _ Hio) as Hlen. unfold itrunc. destruct (Z.ltb_spec length 0); [lia|]. rewrite Hp. cbn [negb andb].
  destruct (Z.eqb_spec (i_size ip) length); [lia|]. destruct (Z.ltb_spec (i_size ip) length); [lia|]. unfold itrunc_shrink. set (aflags := if on ioflags IO_SYNC then _ else _).
  assert (on aflags B_CLRBUF = true) as Hcb by (unfold aflags; by destruct (on ioflags IO_SYNC)).
  destruct (Z.eqb_spec (blkoff length) 0) as [Hb|Hb].
  - cbn [mbind outcome_bind negb]. destruct (itrunc_finish ip length aflags s l s ip l Hio Hm ltac:(lia) Hr (opened_none _ _ _ _ Hr Hlen Hb)) as (s'&ip'&l'&E&Ht).
    exists s', ip'. split; [exact E|]. left. by exists l'.
  - destruct (open_partial ip length aflags s l Hr Hlen Hm He ltac:(lia) Hcb Hb) as (s1&ip1&ok&E&Hok). cbv zeta in E |- *. rewrite E. cbn [mbind outcome_bind]. destruct ok; cbn [negb].
    + destruct Hok as [l1 Ho]. destruct (itrunc_finish ip length aflags s l s1 ip1 l1 Hio Hm ltac:(lia) Hr Ho) as (s'&ip'&l'&E'&Ht).
      exists s', ip'. split; [exact E'|]. left. by exists l'.
    + exists s1, ip1. split; [done|]. by right.
Qed.

End trunc_proofs.

(** ** A cut on the device in memory *)

(** A file of block 0 and block 300, whose number 40 below the second child
    of the double tree 71 is the block 73. *)
Definition cut_disk (b : Z) : block :=
  if b =? 71 then <[0%nat:=72]> zeros else if b =? 72 then <[40%nat:=73]> zeros else zeros.
Definition cut_sys : fsys ramdisk := Fsys (Ramdisk cut_disk ∅ 0) (set_frees (demo_fs 6 []) 7 (0 :: rev (seqZ 64 6) ++ replicate 193 0)) 0 0.
Definition cut_inode : inode := Inode 3 0 [70; 0; 0; 0; 0; 71; 0] 0x8180 1 0 0 (301 * 1024) 0 0 0 0.

Lemma cut_ready : ready cut_sys (seqZ 64 6) [70; 71; 72; 73].
Proof.
  constructor; [|apply (bool_decide_eq_true_1 _); by vm_compute|apply (bool_decide_eq_true_1 _); by vm_compute|intros a _; apply not_elem_of_empty|apply not_elem_of_empty|].
  - constructor; [done| |apply (bool_decide_eq_true_1 _); by vm_compute|apply (bool_decide_eq_true_1 _); by vm_compute|done|done|done]. right. by apply chain_end.
  - unfold spare. apply (bool_decide_eq_true_1 _). by vm_compute.
Qed.

Lemma itrunc_truncates_witness : exists s' ip', itrunc cut_inode 1024 0 cut_sys = Ok (s', ip') /\ i_size ip' = 1024 /\
  file_block (content (fdev s')) (i_addr ip') 0 = 70 /\ file_block (content (fdev s')) (i_addr ip') 300 = 0.
Proof.
  destruct (itrunc_truncates cut_inode 1024 0 cut_sys (seqZ 64 6)) as (s'&ip'&E&[[l' H]|[H _]]).
  - replace (owned (content (fdev cut_sys)) (i_addr cut_inode)) with [70; 71; 72; 73]; [exact cut_ready|vm_compute; reflexivity].
  - constructor; [reflexivity|apply (bool_decide_eq_true_1 _); vm_compute; reflexivity|apply not_elem_of_empty|reflexivity].
  - unfold spare. apply (bool_decide_eq_true_1 _). vm_compute. reflexivity.
  - reflexivity.
  - reflexivity.
  - cbn. lia.
  - cbn. lia.
  - exists s', ip'. split; [exact E|]. split; [apply H|]. split.
    + destruct (tr_kept _ _ _ _ _ _ _ H 0) as [-> _]; [vm_compute; discriminate|left; vm_compute; reflexivity|vm_compute; reflexivity].
    + apply (tr_past _ _ _ _ _ _ _ H). vm_compute. reflexivity.
  - exfalso. apply H. vm_compute. reflexivity.
Defined.
