(* ===== verification/Frdwr.v ===== *)
(** * Writing to a file ([rwip] of [sys/kern/sys_inode.c])

    The loop of [rwip] for a write to a regular file or a link: a pass finds or
    makes the block of the offset, moves bytes from the user into its buffer
    and gives the buffer back to be written later. The limits on the file size
    and the append flags are tested first. Left out: devices and directories
    ([IO_SYNC], which forces blocks and superblock out), the signal [SIGXFSZ],
    user memory that is not there, and transfers that the driver cuts short
    ([b_resid]). A byte of a block is a byte of one of its words. *)
From stdpp Require Import gmap.
From S2P Require Import Prelude Fsalloc Fsmap Fstrunc.

Definition FS_EPERM : Z := 1.
Definition APPEND : Z := 0x0404.
Definition ISUID : Z := 0x800.
Definition ISGID : Z := 0x400.

(** ** Bytes of a block *)

Definition byte_at (x : block) (i : nat) : Z := Z.shiftr (default 0 (x !! (i / 4)%nat)) (8 * Z.of_nat (i mod 4)) mod 256.
Definition word_of (b : nat -> Z) (j : nat) : Z := b (4 * j)%nat + 256 * (b (4 * j + 1)%nat + 256 * (b (4 * j + 2)%nat + 256 * b (4 * j + 3)%nat)).

(** [uiomove] of [l] to the buffer, from the byte [on]. *)
Definition put_bytes (x : block) (on : nat) (l : list Z) : block :=
  word_of (fun i => if decide (on <= i)%nat then default (byte_at x i) (l !! (i - on)%nat) else byte_at x i) <$> seq 0 256.

(** ** The passes *)

(** What a pass ends with: more can be done; the error that ended the loop; or
    the error returned at once. *)
Inductive pass_end := Again | Broke (e : Z) | Gone (e : Z).

Section rdwr.
Context {D : Type} {BD : BufDev D}.

(** One pass of the loop, for the user [ruid]: the state, the inode, how many
    bytes were moved, and how it ended. *)
Definition write_pass (ruid : Z) (ip : inode) (off : Z) (data : list Z) (s : fsys D) : outcome (fsys D * inode * nat * pass_end) :=
  let lbn := lblkno off in
  let start := Z.to_nat (blkoff off) in
  let n := Nat.min (1024 - start) (length data) in
  r ← bmap ip lbn B_WRITE (if (n =? 1024)%nat then 0 else B_CLRBUF) 0 s;
  let '(s, ip, bn, _) := r in
  if negb (ferr s =? 0) || (bn <? 0) then Ok (s, ip, 0%nat, Gone (ferr s))
  else
    let ip := if i_size ip <? off + Z.of_nat n then set_isize ip (off + Z.of_nat n) else ip in
    r ← (if (n =? 1024)%nat then r ← fs_getblk s bn; Ok (fst r, Some (snd r)) else r ← fs_bread s bn; Ok (fst r, no_error (snd r)));
    let s := fst r in
    match snd r with
    | None => s ← fs_brelse s bn; Ok (s, ip, 0%nat, Broke FS_EIO)
    | Some x =>
        let x := put_bytes x start (take n data) in
        s ← (if (n + start =? 1024)%nat && negb (on (i_flag ip) IPIPE) then fs_bawrite s bn x else fs_bdwrite s bn x);
        let ip := set_iflag ip (Z.lor (i_flag ip) (Z.lor IUPD ICHG)) in
        let ip := if ruid =? 0 then ip
                  else Inode (i_number ip) (i_flag ip) (i_addr ip) (Z.ldiff (i_mode ip) (Z.lor ISUID ISGID)) (i_nlink ip) (i_uid ip) (i_gid ip) (i_size ip) (i_flags ip) (i_atime ip) (i_mtime ip) (i_ctime ip) in
        Ok (s, ip, n, Again)
    end.

(** The loop: the bytes left, and how it ended; [Gone] skips what follows the
    loop. *)
Fixpoint write_loop (fuel : nat) (ruid : Z) (ip : inode) (off : Z) (data : list Z) (s : fsys D) : outcome (fsys D * inode * Z * list Z * pass_end) :=
  match fuel with
  | O => Panic "out of fuel"
  | S fuel =>
      r ← write_pass ruid ip off data s;
      let '(s, ip, n, e) := r in
      let off := off + Z.of_nat n in
      let data := drop n data in
      match e with
      | Again => if (length data =? 0)%nat then Ok (s, ip, off, data, Again) else write_loop fuel ruid ip off data s
      | _ => Ok (s, ip, off, data, e)
      end
  end.

(** [rwip] to write [data] at [off], under the limit [fsize] on the size: the
    state, the inode, the offset, the bytes left and the error. *)
Definition rwip_write (append_io unit_io regular : bool) (fsize ruid : Z) (ip : inode) (off : Z) (data : list Z) (s : fsys D) : outcome (fsys D * inode * Z * list Z * Z) :=
  let off := if regular && append_io then i_size ip else off in
  if regular && on (i_flags ip) APPEND && negb (off =? i_size ip) then Ok (s, ip, off, data, FS_EPERM)
  else if (length data =? 0)%nat then Ok (s, ip, off, data, 0)
  else if regular && (fsize <? u32 (off + Z.of_nat (length data))) then Ok (s, ip, off, data, EFBIG)
  else
    let osize := i_size ip in
    r ← write_loop (length data) ruid ip off data s;
    let '(s, ip, off', rest, e) := r in
    match e with
    | Again => Ok (s, ip, off', rest, 0)
    | Gone e => Ok (s, ip, off', rest, e)
    | Broke e => if unit_io then r ← itrunc ip osize 0 s; Ok (fst r, snd r, off, data, e) else Ok (s, ip, off', rest, e)
    end.

End rdwr.

(** ** The bytes of a buffer *)

Lemma word_byte b0 b1 b2 b3 r : 0 <= b0 < 256 -> 0 <= b1 < 256 -> 0 <= b2 < 256 -> 0 <= b3 < 256 -> (r < 4)%nat ->
  Z.shiftr (b0 + 256 * (b1 + 256 * (b2 + 256 * b3))) (8 * Z.of_nat r) mod 256 = match r with 0 => b0 | 1 => b1 | 2 => b2 | _ => b3 end%nat.
Proof.
  intros H0 H1 H2 H3 Hr. rewrite Z.shiftr_div_pow2 by lia.
  assert (forall b q, 0 <= b < 256 -> (b + 256 * q) mod 256 = b) as Hm by (intros b q Hb; rewrite (Z.mul_comm 256), Z.mod_add by lia; by apply Z.mod_small).
  assert (forall b q, 0 <= b < 256 -> (b + 256 * q) / 256 = q) as Hd by (intros b q Hb; rewrite (Z.mul_comm 256), Z.div_add by lia; rewrite Z.div_small by lia; lia).
  destruct r as [|[|[|[|r]]]]; [..|lia].
  - change (2 ^ (8 * Z.of_nat 0)) with 1. rewrite Z.div_1_r. by apply Hm.
  - change (2 ^ (8 * Z.of_nat 1)) with 256. rewrite Hd by lia. by apply Hm.
  - change (2 ^ (8 * Z.of_nat 2)) with (256 * 256). rewrite <- Z.div_div, !Hd by lia. by apply Hm.
  - change (2 ^ (8 * Z.of_nat 3)) with (256 * (256 * 256)). rewrite <- Z.div_div, Hd, <- Z.div_div, !Hd by lia. by apply Z.mod_small.
Qed.

Lemma byte_range x i : 0 <= byte_at x i < 256.
Proof. unfold byte_at. apply Z.mod_pos_bound. lia. Qed.

Lemma put_bytes_length x on l : length (put_bytes x on l) = 256%nat.
Proof. unfold put_bytes. by rewrite length_fmap, length_seq. Qed.

(** The bytes moved are the ones given, and the others stay. *)
Lemma put_bytes_at x on l i : Forall (fun b => 0 <= b < 256) l -> (i < 1024)%nat ->
  byte_at (put_bytes x on l) i = if decide (on <= i)%nat then default (byte_at x i) (l !! (i - on)%nat) else byte_at x i.
Proof.
  intros Hl Hi. unfold byte_at at 1, put_bytes. rewrite list_lookup_fmap. pose proof (Nat.div_mod i 4 ltac:(lia)) as Hdm. assert (i mod 4 < 4)%nat as Hr by (apply Nat.mod_upper_bound; lia).
  rewrite lookup_seq_lt by (apply Nat.Div0.div_lt_upper_bound; lia). cbn [fmap option_fmap option_map default]. unfold id. set (b := fun i => _).
  assert (forall j, 0 <= b j < 256) as Hb.
  { intros j. unfold b. case_decide; [|apply byte_range]. destruct (l !! (j - on)%nat) as [z|] eqn:Ez; cbn; [|apply byte_range]. rewrite Forall_lookup in Hl. by apply (Hl _ _ Ez). }
  rewrite Nat.add_0_l. unfold word_of. rewrite word_byte by auto. change (match (i mod 4)%nat with 0%nat => b (4 * (i / 4))%nat | 1%nat => b (4 * (i / 4) + 1)%nat | 2%nat => b (4 * (i / 4) + 2)%nat | _ => b (4 * (i / 4) + 3)%nat end = b i).
  destruct (i mod 4)%nat as [|[|[|[|r]]]]; [..|lia]; f_equal; lia.
Qed.

(** ** The bytes of a file *)

(** The byte [i] of the file of the addresses [addr]; a hole reads as 0. *)
Definition file_byte (c : Z -> block) (addr : list Z) (i : Z) : Z :=
  let a := file_block c addr (i / 1024) in if a =? 0 then 0 else byte_at (c a) (Z.to_nat (i mod 1024)).

Section writes.
Context {D : Type} {BD : BufDev D} {BS : BufSpec D}.
Implicit Types (s : fsys D).

(** A file of the addresses [addr] has been written to: it may have taken
    blocks off the free list [l]; nothing else has changed. *)
Record rewritten s (l addr : list Z) s' (l' addr' : list Z) : Prop := {
  rw_ready : ready s' l' (owned (content (fdev s')) addr');
  rw_parts : exists new, l = new ++ l' /\ owned (content (fdev s')) addr' ≡ₚ owned (content (fdev s)) addr ++ new;
  rw_shape : same_shape (fsb s) (fsb s');
  rw_still : held (fdev s') = held (fdev s) /\ anon (fdev s') = anon (fdev s) /\ fnow s' = fnow s;
  rw_addr : length addr' = 7%nat;
  rw_frame : forall a, a <> SUPERB -> a ∉ owned (content (fdev s)) addr -> a ∉ l -> content (fdev s') a = content (fdev s) a
}.

Lemma rewritten_trans s l addr s1 l1 addr1 s2 l2 addr2 : rewritten s l addr s1 l1 addr1 -> rewritten s1 l1 addr1 s2 l2 addr2 -> rewritten s l addr s2 l2 addr2.
Proof.
  intros [_ (n1&->&P1) S1 (H1&K1&N1) _ F1] [R2 (n2&->&P2) S2 (H2&K2&N2) A2 F2]. constructor; try done.
  - exists (n1 ++ n2). rewrite <- app_assoc. split; [done|]. by rewrite P2, P1, app_assoc.
  - by etransitivity.
  - split; [congruence|]. split; congruence.
  - intros a Ha Ho Hl. rewrite F2; [apply F1; [done|done|]|done| |]; [done| |].
    + rewrite P1. set_solver.
    + set_solver.
Qed.

Lemma rewritten_extends s s' l new l' addr addr' : ready s l (owned (content (fdev s)) addr) -> length addr' = 7%nat ->
  extends s s' l new l' (owned (content (fdev s)) addr) (owned (content (fdev s')) addr') -> rewritten s l addr s' l' addr'.
Proof.
  intros Hr Hlen He. pose proof (ready_extends _ _ _ _ _ _ _ Hr He) as Hr'. destruct He as [El A S N K H P F Q]. constructor; try done.
  - exists new. by split.
  - intros a Ha Ho Hl. apply F; [done|done|]. rewrite El in Hl. set_solver.
Qed.

(** A data block of the file stored to. *)
Lemma rewritten_leaf s s' l addr m x : ready s l (owned (content (fdev s)) addr) -> length addr = 7%nat -> let v := file_block (content (fdev s)) addr m in v <> 0 ->
  dev_step s s' (wrote (content (fdev s)) v x) (held (fdev s)) (anon (fdev s)) ->
  rewritten s l addr s' l addr /\ (forall j, file_block (content (fdev s')) addr j = file_block (content (fdev s)) addr j).
Proof.
  intros Hr Hlen v Hv [F R N C H K]. pose proof (proj1 (proj1 (NoDup_app _ _) (rd_nodup _ _ _ Hr))) as Hnd. assert (forall a, a <> v -> content (fdev s') a = content (fdev s) a) as Hc by (intros a Ha; rewrite C; unfold wrote; by rewrite decide_False).
  destruct (leaf_file (content (fdev s)) (content (fdev s')) addr m Hnd Hv Hc) as [Eo Ef]. split; [|exact Ef]. pose proof (file_block_in _ _ _ Hv) as Hin. destruct Hr as [A Nd Dt Cl Sp Rm]. constructor; rewrite ?Eo, ?F, ?H, ?K; try done.
  - constructor; rewrite ?F, ?H; try done; [|unfold spare in *; by rewrite H, K]. eapply alloc_ext; [exact A|]. intros a Ha. apply Hc. intros ->. apply NoDup_app in Nd as (_&Hx&_). by apply (Hx v).
  - exists []. by rewrite app_nil_r.
  - intros a _ Ha _. apply Hc. intros ->. done.
Qed.

(** The bytes [data] stand from [off] on, and the others as before. *)
Definition spliced (c : Z -> block) (addr : list Z) (off : Z) (data : list Z) (c' : Z -> block) (addr' : list Z) : Prop :=
  forall i, 0 <= i < 1024 * MAXBLK -> file_byte c' addr' i = if decide (off <= i) then default (file_byte c addr i) (data !! Z.to_nat (i - off)) else file_byte c addr i.

Lemma spliced_trans c addr off l1 c1 addr1 l2 c2 addr2 : spliced c addr off l1 c1 addr1 -> spliced c1 addr1 (off + Z.of_nat (length l1)) l2 c2 addr2 -> spliced c addr off (l1 ++ l2) c2 addr2.
Proof.
  intros H1 H2 i Hi. rewrite (H2 i Hi), (H1 i Hi). destruct (decide (off <= i)) as [Ho|Ho].
  - destruct (decide (i - off < Z.of_nat (length l1))) as [Hl|Hl].
    + rewrite decide_False by lia. rewrite lookup_app_l by lia. done.
    + rewrite decide_True by lia. rewrite lookup_app_r by lia. rewrite (lookup_ge_None_2 l1) by lia. cbn [default]. unfold id. f_equal. f_equal. lia.
  - by rewrite decide_False by lia.
Qed.
Lemma spliced_none c addr off : spliced c addr off [] c addr.
Proof. intros i _. by case_decide. Qed.

(** Where a pass begins: the block of the offset and the place in it. *)
Lemma pass_place off : 0 <= off < 2 ^ 31 -> lblkno off = off / 1024 /\ blkoff off = off mod 1024 /\ 0 <= off / 1024 < 2 ^ 21.
Proof.
  intros H. split; [by apply lblkno_eq|]. split; [|split; [apply Z.div_pos; lia|apply Z.div_lt_upper_bound; lia]].
  unfold blkoff. change (DEV_BSIZE - 1) with (Z.ones 10). rewrite Z.land_ones by lia. done.
Qed.

Lemma byte_place i off : 0 <= off -> off <= i -> i / 1024 = off / 1024 -> Z.to_nat (i mod 1024) = (Z.to_nat (off mod 1024) + Z.to_nat (i - off))%nat.
Proof.
  intros Ho Hi E. pose proof (Z.div_mod i 1024 ltac:(lia)). pose proof (Z.div_mod off 1024 ltac:(lia)). pose proof (Z.mod_pos_bound i 1024 ltac:(lia)). pose proof (Z.mod_pos_bound off 1024 ltac:(lia)). lia.
Qed.

(** The buffer of a block stored to. *)
Lemma store_ok (now : bool) s b x : b ∈ held (fdev s) -> length x = 256%nat ->
  exists s', (if now then fs_bawrite s b x else fs_bdwrite s b x) = Ok s' /\ dev_step s s' (wrote (content (fdev s)) b x) (held (fdev s) ∖ {[b]}) (anon (fdev s)).
Proof.
  intros Hb Hx. destruct now; [|by apply fs_bdwrite_ok]. unfold fs_bawrite. destruct (bwrite_spec (fdev s) b x Hb Hx) as (d&E&?&?&?). rewrite E. cbn. eexists. split; [done|]. by constructor.
Qed.

(** A block of the file fetched, changed and stored. *)
Lemma update_ok (full now : bool) s b (f : block -> block) : b ∉ held (fdev s) -> room s -> (forall x, length (f x) = 256%nat) ->
  exists s1 x s2, (if full then r ← fs_getblk s b; Ok (fst r, Some (snd r)) else r ← fs_bread s b; Ok (fst r, no_error (snd r))) = Ok (s1, Some x) /\
    (full = false -> x = content (fdev s) b) /\ ferr s1 = ferr s /\ (if now then fs_bawrite s1 b (f x) else fs_bdwrite s1 b (f x)) = Ok s2 /\
    dev_step s s2 (wrote (content (fdev s)) b (f x)) (held (fdev s)) (anon (fdev s)).
Proof.
  intros Hb Hr Hf. assert (exists s1 x, (if full then r ← fs_getblk s b; Ok (fst r, Some (snd r)) else r ← fs_bread s b; Ok (fst r, no_error (snd r))) = Ok (s1, Some x) /\
    (full = false -> x = content (fdev s) b) /\ dev_step s s1 (content (fdev s)) ({[b]} ∪ held (fdev s)) (anon (fdev s))) as (s1&x&E&Hx&[F1 R1 N1 C1 H1 K1]).
  { destruct full; [destruct (fs_getblk_ok s b Hb Hr) as (s1&x&->&_&Hd)|destruct (fs_bread_ok s b Hb Hr) as (s1&->&Hd)]; rewrite bind_ok; by eexists s1, _. }
  destruct (store_ok now s1 b (f x)) as (s2&E2&[F2 R2 N2 C2 H2 K2]); [rewrite H1; by apply elem_of_union_l, elem_of_singleton_2|done|]. exists s1, x, s2. split; [exact E|]. split; [exact Hx|]. split; [exact R1|]. split; [exact E2|].
  constructor; try congruence; [|rewrite H2, H1; clear -Hb; set_solver]. intros a. rewrite C2. unfold wrote. case_decide; [done|apply C1].
Qed.



(** What a write leaves of the inode: the rest of its fields; the bits that
    run it as another user go, unless the writer is root; a change is marked. *)
Definition fixed_of (ip : inode) := (i_number ip, i_nlink ip, i_uid ip, i_gid ip, i_flags ip).
Record touched (ruid : Z) (ip ip' : inode) : Prop := {
  tc_fixed : fixed_of ip' = fixed_of ip;
  tc_flag : forall m, Z.land (Z.lor IUPD ICHG) m = 0 -> on (i_flag ip') m = on (i_flag ip) m;
  tc_mode : i_mode ip' = i_mode ip \/ ruid <> 0 /\ i_mode ip' = Z.ldiff (i_mode ip) (Z.lor ISUID ISGID);
  tc_marked : ip' = ip \/ on (i_flag ip') ICHG = true
}.

#[export] Instance touched_preorder ruid : PreOrder (touched ruid).
Proof.
  split; [intros ip; constructor; auto|]. intros x y z [A1 A2 A3 A4] [B1 B2 B3 B4]. constructor; [congruence|intros m Hm; rewrite B2, A2; done| |].
  - destruct B3 as [->|[Hr ->]]; [done|]. right. split; [done|]. destruct A3 as [->|[_ ->]]; [done|]. rewrite !Z.ldiff_land, <- Z.land_assoc, Z.land_diag. done.
  - destruct B4 as [->|]; [done|by right].
Qed.

Lemma touched_bmap ruid ip l : touched ruid ip (set_iflag (set_iaddr ip l) (Z.lor (i_flag ip) (Z.lor IUPD ICHG))).
Proof.
  constructor; [done| |by left|right; cbn; rewrite on_or; by rewrite orb_true_r]. intros m Hm. cbn. rewrite on_or. unfold on at 2. by rewrite Hm, orb_false_r.
Qed.

(** The inode after bytes were moved. *)
Definition moved_to (ruid : Z) (ip : inode) (upto : Z) : inode :=
  let ip := if i_size ip <? upto then set_isize ip upto else ip in
  let ip := set_iflag ip (Z.lor (i_flag ip) (Z.lor IUPD ICHG)) in
  if ruid =? 0 then ip
  else Inode (i_number ip) (i_flag ip) (i_addr ip) (Z.ldiff (i_mode ip) (Z.lor ISUID ISGID)) (i_nlink ip) (i_uid ip) (i_gid ip) (i_size ip) (i_flags ip) (i_atime ip) (i_mtime ip) (i_ctime ip).

Lemma moved_to_facts ruid ip upto : touched ruid ip (moved_to ruid ip upto) /\ i_size (moved_to ruid ip upto) = Z.max (i_size ip) upto /\ i_addr (moved_to ruid ip upto) = i_addr ip.
Proof.
  unfold moved_to. set (ip1 := if _ <? _ then _ else _). assert (i_flag ip1 = i_flag ip /\ i_mode ip1 = i_mode ip /\ i_addr ip1 = i_addr ip /\ fixed_of ip1 = fixed_of ip /\ i_size ip1 = Z.max (i_size ip) upto) as (E1&E2&E3&E4&E5).
  { unfold ip1. destruct (Z.ltb_spec (i_size ip) upto); repeat (split; [done|]); cbn; lia. }
  assert (forall m, Z.land (Z.lor IUPD ICHG) m = 0 -> on (Z.lor (i_flag ip) (Z.lor IUPD ICHG)) m = on (i_flag ip) m) as Hm by (intros m Hm; rewrite on_or; unfold on at 2; by rewrite Hm, orb_false_r).
  assert (on (Z.lor (i_flag ip) (Z.lor IUPD ICHG)) ICHG = true) as Hc by (rewrite on_or; by rewrite orb_true_r).
  cbv zeta. destruct (Z.eqb_spec ruid 0) as [E|E]; cbn [set_iflag i_size i_addr i_flag]; rewrite E1; (split; [|by split]); constructor; cbn [set_iflag i_flag i_mode]; try done; [by left|by right|right; by rewrite E2|by right].
Qed.

(** A pass: the bytes it moved stand in the file, and the rest of the file and
    of the device is as it was; it fails only for want of a free block. *)
Record passed (ruid : Z) (ip : inode) (off : Z) (data : list Z) s (l : list Z) s' (ip' : inode) (n : nat) (e : pass_end) (l' : list Z) : Prop := {
  ps_files : rewritten s l (i_addr ip) s' l' (i_addr ip');
  ps_bytes : spliced (content (fdev s)) (i_addr ip) off (take n data) (content (fdev s')) (i_addr ip');
  ps_inode : touched ruid ip ip';
  ps_direct : n = 0%nat -> off < 4096 -> i_addr ip' = i_addr ip;
  ps_end : (e = Again /\ (0 < n <= length data)%nat /\ ferr s' = 0 /\ i_size ip' = Z.max (i_size ip) (off + Z.of_nat n)) \/
    (e = Gone FS_ENOSPC /\ n = 0%nat /\ l' = [] /\ i_size ip' = i_size ip)
}.

(** Nothing is taken for a direct block that cannot be had. *)
Lemma bmap_root_end ip i rw fl now s s' ip' nb : 0 <= i -> bmap_root ip i rw fl now s = Ok (s', ip', nb) -> match nb with None => ip' = ip | Some x => i_addr ip' !! Z.to_nat i = Some x end.
Proof.
  intros Hi H. unfold bmap_root in H. apply outcome_bind_ok in H as (y&Ey&H). unfold rdz in Ey. rewrite (proj2 (Z.ltb_ge i 0) Hi) in Ey. apply rd_inv in Ey. destruct (negb (y =? 0)); [by injection H as _ <- <-|].
  destruct rw; [by injection H as _ <- <-|]. apply outcome_bind_ok in H as ([s1 [[nb0 x]|]]&_&H); cbn in H; [|by injection H as _ <- <-].
  apply outcome_bind_ok in H as ([s2 e]&_&H). destruct (negb (e =? 0)); [apply outcome_bind_ok in H as (s3&_&H); by injection H as _ <- <-|]. apply outcome_bind_ok in H as (l&El&H). injection H as _ <- <-. cbn.
  unfold wrz in El. rewrite (proj2 (Z.ltb_ge i 0) Hi) in El. unfold wr in El. case_decide; [|done]. injection El as <-. by apply list_lookup_insert_eq.
Qed.

Lemma bmap_direct ip bn rw fl ra s s' ip' ra' : 0 <= bn < 4 -> bmap ip bn rw fl ra s = Ok (s', ip', -1, ra') -> ip' = ip \/ i_addr ip' !! Z.to_nat bn = Some (-1).
Proof.
  intros Hbn H. unfold bmap in H. rewrite (proj2 (Z.ltb_ge bn 0)) in H by lia. change (NADDR - 3) with 4 in H. rewrite (proj2 (Z.ltb_lt bn 4)) in H by lia.
  apply outcome_bind_ok in H as ([[s1 ip1] nb]&E1&H). apply bmap_root_end in E1; [|lia]. destruct nb as [nb|].
  - apply outcome_bind_ok in H as (ra1&_&H). injection H as -> -> -> _. by right.
  - injection H as -> -> _. by left.
Qed.

Section one_pass.
Context (ruid : Z) (ip : inode) (off : Z) (data : list Z) (s : fsys D) (l : list Z).
Context (Hr : ready s l (owned (content (fdev s)) (i_addr ip))) (Hlen : length (i_addr ip) = 7%nat) (Hm : spare s 2) (He : ferr s = 0).
Context (Hoff : 0 <= off < 2 ^ 31) (Hdata : data <> []) (Hbytes : Forall (fun b => 0 <= b < 256) data).
Let m := off / 1024.
Let start := Z.to_nat (off mod 1024).
Let n := Nat.min (1024 - start) (length data).
Let fl := if (n =? 1024)%nat then 0 else B_CLRBUF.

Lemma pass_size : (start < 1024)%nat /\ (0 < n <= length data)%nat /\ (n = 1024%nat -> start = 0%nat).
Proof. pose proof (Z.mod_pos_bound off 1024 ltac:(lia)). unfold n, start. destruct data; [done|]. cbn. lia. Qed.

(** No block could be had. *)
Lemma pass_full s1 addr1 new l1 v : mapped B_WRITE m fl (i_addr ip) s l s1 addr1 v new l1 -> v = -1 ->
  l1 = [] /\ ferr s1 = FS_ENOSPC /\ file_block (content (fdev s1)) addr1 m = 0 /\ rewritten s l (i_addr ip) s1 l1 addr1 /\ spliced (content (fdev s)) (i_addr ip) off [] (content (fdev s1)) addr1.
Proof.
  intros (H1&Hex&Hoth&Hf&_&Hold) ->. destruct Hf as [(Hv&Hn0&_)|(_&W0&W1&[(?&_)|(_&L1&Ee)])]; [|done|].
  - exfalso. assert (-1 ∈ owned (content (fdev s1)) addr1) as Hin by (rewrite Hv; apply file_block_in; by rewrite <- Hv).
    pose proof (ready_extends _ _ _ _ _ _ _ Hr Hex) as [[_ _ _ _ _ _ Hz] _ Hd _ _ _]. rewrite Forall_forall in Hd. apply Hd in Hin. unfold in_data in Hin. lia.
  - do 3 (split; [done|]). split; [by eapply rewritten_extends|]. intros i Hi. assert (file_byte (content (fdev s1)) addr1 i = file_byte (content (fdev s)) (i_addr ip) i) as ->; [|by case_decide].
    unfold file_byte. destruct (decide (i / 1024 = m)) as [E|E]; [by rewrite E, W0, W1|]. rewrite Hoth by done. destruct (Z.eqb_spec (file_block (content (fdev s)) (i_addr ip) (i / 1024)) 0); [done|]. by rewrite Hold.
Qed.

(** The block found or made, and stored to. *)
Lemma pass_bytes s1 s2 addr1 new l1 v x : mapped B_WRITE m fl (i_addr ip) s l s1 addr1 v new l1 -> v <> -1 -> ((n =? 1024)%nat = false -> x = content (fdev s1) v) ->
  dev_step s1 s2 (wrote (content (fdev s1)) v (put_bytes x start (take n data))) (held (fdev s1)) (anon (fdev s1)) ->
  rewritten s l (i_addr ip) s2 l1 addr1 /\ spliced (content (fdev s)) (i_addr ip) off (take n data) (content (fdev s2)) addr1.
Proof.
  intros (H1&Hex&Hoth&Hf&Hz&Hold) Hv Hx Hd. destruct Hf as [(Ev&Hv0&_&Hw&Hw0)|(?&_)]; [|done]. pose proof (ready_extends _ _ _ _ _ _ _ Hr Hex) as Hr1. destruct pass_size as (Hst&Hn&Hfull).
  assert (file_block (content (fdev s1)) addr1 m <> 0) as Hv0' by (by rewrite <- Ev). rewrite Ev in Hd. destruct (rewritten_leaf s1 s2 l1 addr1 m _ Hr1 H1 Hv0' Hd) as [Hr2 Hfb]. rewrite <- Ev in *.
  split; [eapply rewritten_trans; [by eapply rewritten_extends|exact Hr2]|]. intros i Hi. unfold file_byte at 1. rewrite Hfb. pose proof (ds_content _ _ _ _ _ Hd) as C2. pose proof (Z.mod_pos_bound i 1024 ltac:(lia)) as Hib.
  destruct (decide (i / 1024 = m)) as [E|E].
  - rewrite E, <- Ev, (proj2 (Z.eqb_neq _ _) Hv0), C2. unfold wrote. rewrite decide_True by done. rewrite put_bytes_at by (by apply Forall_take || lia).
    assert (Hbefore : (n =? 1024)%nat = false -> byte_at x (Z.to_nat (i mod 1024)) = file_byte (content (fdev s)) (i_addr ip) i).
    { intros En. rewrite (Hx En). unfold file_byte. rewrite E. destruct (Z.eqb_spec (file_block (content (fdev s)) (i_addr ip) m) 0) as [W0|W0].
      - rewrite Hz; [unfold byte_at; by rewrite zeros_lookup, Z.shiftr_0_l|right; unfold fl; by rewrite En|done|done].
      - destruct (Hw W0) as [W1 _]. rewrite W1, Hold by done. done. }
    pose proof (Z.div_mod i 1024 ltac:(lia)) as Di. pose proof (Z.div_mod off 1024 ltac:(lia)) as Do. pose proof (Z.mod_pos_bound off 1024 ltac:(lia)) as Bo. fold m in Do. rewrite E in Di.
    destruct (decide (off <= i)) as [Ho|Ho].
    + rewrite decide_True by (unfold start; lia). replace (Z.to_nat (i mod 1024) - start)%nat with (Z.to_nat (i - off)) by (unfold start; lia).
      destruct (take n data !! Z.to_nat (i - off)) as [z|] eqn:Ez; [done|]. cbn [default]. unfold id. apply Hbefore. apply Nat.eqb_neq. intros En. apply lookup_ge_None_1 in Ez. rewrite length_take in Ez. pose proof (Hfull En). unfold start in *. lia.
    + rewrite decide_False by (unfold start; lia). apply Hbefore. apply Nat.eqb_neq. intros En. pose proof (Hfull En). unfold start in *. lia.
  - rewrite Hoth by done. assert (file_byte (content (fdev s)) (i_addr ip) i = (let a := file_block (content (fdev s)) (i_addr ip) (i / 1024) in if a =? 0 then 0 else byte_at (content (fdev s2) a) (Z.to_nat (i mod 1024)))) as Eb.
    { unfold file_byte. cbv zeta. destruct (Z.eqb_spec (file_block (content (fdev s)) (i_addr ip) (i / 1024)) 0) as [|W]; [done|]. rewrite C2. unfold wrote. rewrite decide_False; [by rewrite Hold|].
      intros Ea. apply E. apply (file_inj (content (fdev s1)) addr1); [apply (proj1 (proj1 (NoDup_app _ _) (rd_nodup _ _ _ Hr1)))|by rewrite Hoth|by rewrite Hoth, Ea]. }
    cbv zeta in Eb. rewrite <- Eb. destruct (decide (off <= i)) as [Ho|Ho]; [|done]. rewrite lookup_ge_None_2; [done|]. rewrite length_take.
    pose proof (Z.div_mod i 1024 ltac:(lia)) as Di. pose proof (Z.div_mod off 1024 ltac:(lia)) as Do. fold m in Do. pose proof (Z.mod_pos_bound off 1024 ltac:(lia)).
    assert (m < i / 1024) by (assert (m <= i / 1024) by (apply Z.div_le_mono; lia); lia). unfold n, start in *. lia.
Qed.

Lemma write_pass_ok : exists s' ip' k e l', write_pass ruid ip off data s = Ok (s', ip', k, e) /\ passed ruid ip off data s l s' ip' k e l'.
Proof.
  destruct (pass_place off Hoff) as (El&Eo&Hlb). destruct pass_size as (Hst&Hn&Hfull). unfold write_pass. cbv zeta. rewrite El, Eo. fold m start. fold n. fold fl.
  destruct (bmap_ok ip m B_WRITE fl 0 s l) as (s1&ip1&v&ra&new&l1&Eb&Hmap&Hip); [unfold MAXBLK; unfold m; lia|done|done|done|]. rewrite Eb, bind_ok.
  assert (touched ruid ip ip1 /\ i_size ip1 = i_size ip) as [Ht1 Es1] by (destruct Hip as [->| ->]; [done|split; [apply touched_bmap|done]]).
  destruct (decide (v = -1)) as [Ev|Ev].
  - destruct (pass_full _ _ _ _ _ Hmap Ev) as (L1&Ee&W1&Hrw&Hsp). rewrite Ee. cbn [negb Z.eqb orb FS_ENOSPC]. eexists s1, ip1, 0%nat, _, l1. split; [done|]. constructor; try done; [|by right].
    intros _ H4. assert (0 <= m < 4) as Hm4 by (unfold m; split; [lia|by apply Z.div_lt_upper_bound]). rewrite Ev in Eb. destruct (bmap_direct _ _ _ _ _ _ _ _ _ Hm4 Eb) as [->|Hy]; [done|]. exfalso.
    unfold file_block in W1. rewrite (slot_direct m Hm4), Hy in W1. cbn [default] in W1. assert (levels !! Z.to_nat m = Some 0%nat) as Ek by (assert (m = 0 \/ m = 1 \/ m = 2 \/ m = 3) as [E|[E|[E|E]]] by lia; rewrite E; done). rewrite Ek in W1. by cbn in W1.
  - assert (Hmap' := Hmap). destruct Hmap' as (H1&Hex&_&Hf&_&_). destruct Hf as [(Ev1&Hv0&Ee&_)|(?&_)]; [|done]. pose proof (ready_extends _ _ _ _ _ _ _ Hr Hex) as Hr1.
    assert (v ∈ owned (content (fdev s1)) (i_addr ip1)) as Hin by (rewrite Ev1; apply file_block_in; by rewrite <- Ev1). assert (in_data (fsb s1) v) as Hvd by (pose proof (rd_data _ _ _ Hr1) as Hd; rewrite Forall_forall in Hd; by apply Hd).
    pose proof (al_size _ _ _ (rd_alloc _ _ _ Hr1)) as [Hz _]. unfold in_data in Hvd. rewrite Ee, He, (proj2 (Z.ltb_ge v 0)) by lia. cbn [negb Z.eqb orb].
    set (ip2 := if i_size ip1 <? off + Z.of_nat n then _ else _). destruct (update_ok (n =? 1024)%nat ((n + start =? 1024)%nat && negb (on (i_flag ip2) IPIPE)) s1 v (fun x => put_bytes x start (take n data)))
      as (s2&x&s3&->&Hx&Ee2&E3&Hd); [apply (rd_clear _ _ _ Hr1), elem_of_app; by left|by eapply ready_room|intros x; apply put_bytes_length|]. rewrite bind_ok. cbn [fst snd]. rewrite E3, bind_ok.
    destruct (pass_bytes s1 s3 _ new l1 v x Hmap Ev Hx Hd) as [Hrw Hsp]. destruct (moved_to_facts ruid ip1 (off + Z.of_nat n)) as (Ht2&Es2&Ea2). fold ip2.
    eexists s3, (moved_to ruid ip1 (off + Z.of_nat n)), n, Again, l1. split; [done|]. constructor; rewrite ?Ea2; [done|done|by etransitivity|intros E0; lia|]. left. split; [done|]. split; [done|]. split; [rewrite (ds_err _ _ _ _ _ Hd); congruence|]. by rewrite Es2, Es1.
Qed.

End one_pass.



(** The loop: it moves bytes until none is left or no block is. *)
Lemma write_loop_ok ruid fuel : forall ip off data s l, (length data <= fuel)%nat -> ready s l (owned (content (fdev s)) (i_addr ip)) -> length (i_addr ip) = 7%nat -> spare s 2 -> ferr s = 0 ->
  0 <= off -> off + Z.of_nat (length data) < 2 ^ 31 -> data <> [] -> Forall (fun b => 0 <= b < 256) data ->
  exists s' ip' n e l', write_loop fuel ruid ip off data s = Ok (s', ip', off + Z.of_nat n, drop n data, e) /\
    rewritten s l (i_addr ip) s' l' (i_addr ip') /\ spliced (content (fdev s)) (i_addr ip) off (take n data) (content (fdev s')) (i_addr ip') /\ touched ruid ip ip' /\ (n = 0%nat -> off < 4096 -> i_addr ip' = i_addr ip) /\
    i_size ip' = (if (n =? 0)%nat then i_size ip else Z.max (i_size ip) (off + Z.of_nat n)) /\ (e = Again /\ n = length data \/ e = Gone FS_ENOSPC /\ (n < length data)%nat /\ l' = []).
Proof.
  induction fuel as [|fuel IH]; intros ip off data s l Hfuel Hr Hlen Hm He Ho Hend Hd Hb; [destruct data; [done|cbn in Hfuel; lia]|]. cbn [write_loop].
  destruct (write_pass_ok ruid ip off data s l Hr Hlen Hm He) as (s1&ip1&n1&e1&l1&->&[Rw Sp Tc Dr Hcase]); [lia|done|done|]. rewrite bind_ok. destruct Hcase as [(->&Hn&Ee&Es)|(->&->&->&Es)].
  2:{ exists s1, ip1, 0%nat, (Gone FS_ENOSPC), []. rewrite drop_0. split; [done|]. do 4 (split; [done|]). split; [done|]. right. destruct data; [done|]. cbn. split; [done|]. split; [lia|done]. }
  rewrite length_drop. assert (Hne : (n1 =? 0)%nat = false) by (apply Nat.eqb_neq; lia). destruct (Nat.eqb_spec (length data - n1) 0) as [E0|E0].
  { exists s1, ip1, n1, Again, l1. split; [done|]. do 4 (split; [done|]). rewrite Hne. split; [done|]. left. split; [done|lia]. }
  assert (spare s1 2) as Hm1 by (destruct (rw_still _ _ _ _ _ _ Rw) as (H1&H2&_); unfold spare in *; by rewrite H1, H2).
  destruct (IH ip1 (off + Z.of_nat n1) (drop n1 data) s1 l1) as (s'&ip'&n&e&l'&E&Rw'&Sp'&Tc'&_&Es'&Hcase); [rewrite length_drop; lia|apply Rw|apply Rw|done|done|lia|rewrite length_drop; lia| |by apply Forall_drop|].
  { intros E. apply (f_equal length) in E. rewrite length_drop in E. cbn in E. lia. }
  exists s', ip', (n1 + n)%nat, e, l'. split; [rewrite E, drop_drop; do 4 f_equal; lia|]. split; [by eapply rewritten_trans|]. split; [|split; [by etransitivity|split; [intros E0'; lia|split]]].
  - assert (take (n1 + n) data = take n1 data ++ take n (drop n1 data)) as -> by (rewrite take_take_drop; done). eapply spliced_trans; [exact Sp|]. rewrite length_take, Nat.min_l by lia. exact Sp'.
  - rewrite Es', Es. assert ((n1 + n =? 0)%nat = false) as -> by (apply Nat.eqb_neq; lia). destruct (Nat.eqb_spec n 0) as [->|]; lia.
  - rewrite length_drop in Hcase. destruct Hcase as [[-> ->]|(->&Hlt&->)]; [left; split; [done|lia]|right; split; [done|split; [lia|done]]].
Qed.

(** The bytes [n] of [data] have been written at [off]. *)
Record written (ruid : Z) (ip : inode) (off : Z) (data : list Z) s (l : list Z) s' (ip' : inode) (n : nat) (l' : list Z) : Prop := {
  wr_files : rewritten s l (i_addr ip) s' l' (i_addr ip');
  wr_bytes : spliced (content (fdev s)) (i_addr ip) off (take n data) (content (fdev s')) (i_addr ip');
  wr_inode : touched ruid ip ip';
  wr_direct : n = 0%nat -> off < 4096 -> i_addr ip' = i_addr ip;
  wr_size : i_size ip' = if (n =? 0)%nat then i_size ip else Z.max (i_size ip) (off + Z.of_nat n)
}.

Lemma rwip_write_ok append_io unit_io regular fsize ruid ip off data s l : ready s l (owned (content (fdev s)) (i_addr ip)) -> length (i_addr ip) = 7%nat -> spare s 2 -> ferr s = 0 ->
  let off' := if regular && append_io then i_size ip else off in
  0 <= off' -> off' + Z.of_nat (length data) < 2 ^ 31 -> Forall (fun b => 0 <= b < 256) data ->
  exists s' ip' n l' e, rwip_write append_io unit_io regular fsize ruid ip off data s = Ok (s', ip', off' + Z.of_nat n, drop n data, e) /\ written ruid ip off' data s l s' ip' n l' /\
    (e = 0 /\ n = length data \/ e = FS_ENOSPC /\ (n < length data)%nat /\ l' = [] \/
     n = 0%nat /\ data <> [] /\ regular = true /\ (e = FS_EPERM /\ off' <> i_size ip \/ e = EFBIG /\ fsize < off' + Z.of_nat (length data)) \/
     n = 0%nat /\ data = [] /\ e = FS_EPERM /\ off' <> i_size ip).
Proof.
  intros Hr Hlen Hm He off' Ho Hend Hb. unfold rwip_write. fold off'.
  assert (written ruid ip off' data s l s ip 0 l) as Hnone.
  { constructor; [|apply spliced_none|done|done|done]. constructor; try done. exists []. by rewrite app_nil_r. }
  destruct (regular && on (i_flags ip) APPEND && negb (off' =? i_size ip)) eqn:Ea.
  { exists s, ip, 0%nat, l, FS_EPERM. rewrite Z.add_0_r, drop_0. split; [done|]. split; [done|]. right. right. apply andb_true_iff in Ea as [[-> _]%andb_true_iff Hne%negb_true_iff%Z.eqb_neq]. destruct data as [|z data]; [by right|]. left. split; [done|]. split; [done|]. split; [done|by left]. }
  destruct (Nat.eqb_spec (length data) 0) as [E0|E0].
  { apply nil_length_inv in E0. subst data. exists s, ip, 0%nat, l, 0. rewrite Z.add_0_r. split; [done|]. split; [done|]. by left. }
  destruct (regular && (fsize <? u32 (off' + Z.of_nat (length data)))) eqn:Ef.
  { exists s, ip, 0%nat, l, EFBIG. rewrite Z.add_0_r, drop_0. split; [done|]. split; [done|]. apply andb_true_iff in Ef as [-> Hlt%Z.ltb_lt]. rewrite trunc_small in Hlt by lia. right. right. left. split; [done|]. split; [by destruct data|]. split; [done|by right]. }
  destruct (write_loop_ok ruid (length data) ip off' data s l) as (s'&ip'&n&e&l'&->&Rw&Sp&Tc&Dr&Es&Hcase); [lia|done..|by destruct data|done|]. rewrite bind_ok.
  exists s', ip', n, l'. destruct Hcase as [[-> ->]|(->&Hlt&->)]; eexists; (split; [done|]); (split; [by constructor|]); [by left|right; by left].
Qed.

End writes.

(** C37. A write of [rwip] with at least two buffers to spare and no error
    pending does what the arguments say on every branch: an append-only file is
    not written elsewhere than at its end (EPERM), a limit that would be passed
    stops the write before it begins (EFBIG), and otherwise the bytes go to the
    offset (the end, for [IO_APPEND]) one after the other until all are there or
    the device has no free block left (ENOSPC). The bytes moved stand in the
    file and every other byte of it, holes included, is as before; the size is
    the old one or where the write ended; the blocks taken are the file's and no
    longer free; no block of anything else is stored to. [IO_UNIT] makes no
    difference: a write that ran out of space is not undone. *)
Theorem rwip_writes {D} `{BS : BufSpec D} append_io unit_io regular fsize ruid ip off data (s : fsys D) l :
  ready s l (owned (content (fdev s)) (i_addr ip)) -> length (i_addr ip) = 7%nat -> spare s 2 -> ferr s = 0 ->
  let off' := if regular && append_io then i_size ip else off in
  0 <= off' -> off' + Z.of_nat (length data) < 2 ^ 31 -> Forall (fun b => 0 <= b < 256) data ->
  exists s' ip' n l' e, rwip_write append_io unit_io regular fsize ruid ip off data s = Ok (s', ip', off' + Z.of_nat n, drop n data, e) /\ written ruid ip off' data s l s' ip' n l' /\
    (e = 0 /\ n = length data \/ e = FS_ENOSPC /\ (n < length data)%nat /\ l' = [] \/
     n = 0%nat /\ data <> [] /\ regular = true /\ (e = FS_EPERM /\ off' <> i_size ip \/ e = EFBIG /\ fsize < off' + Z.of_nat (length data)) \/
     n = 0%nat /\ data = [] /\ e = FS_EPERM /\ off' <> i_size ip).
Proof. apply rwip_write_ok. Qed.

(** ** A write on the device in memory *)

(** Three thousand bytes from byte 3500 of the empty file: the end of block 3,
    blocks 4 and 5 below an indirect block, and a part of block 6. *)
Definition demo_bytes : list Z := replicate 3000 7.

Lemma rwip_writes_witness : exists s' ip', rwip_write false false true 100000 0 demo_inode 3500 demo_bytes demo_sys = Ok (s', ip', 6500, [], 0) /\
  i_size ip' = 6500 /\ file_byte (content (fdev s')) (i_addr ip') 6499 = 7 /\ file_byte (content (fdev s')) (i_addr ip') 3499 = 0.
Proof.
  destruct (rwip_writes false false true 100000 0 demo_inode 3500 demo_bytes demo_sys demo_free) as (s'&ip'&n&l'&e&E&[_ Hb _ _ Hs]&Hc).
  - exact demo_ready.
  - reflexivity.
  - unfold spare. apply (bool_decide_eq_true_1 _). by vm_compute.
  - reflexivity.
  - cbn. lia.
  - cbn. lia.
  - apply Forall_replicate. lia.
  - assert (e = 0 /\ n = 3000%nat) as [-> ->].
    { assert ((r ← rwip_write false false true 100000 0 demo_inode 3500 demo_bytes demo_sys; Ok (snd r)) = Ok 0) as E0 by (vm_compute; reflexivity). rewrite E, bind_ok in E0. injection E0 as E0. cbn in E0. subst e.
      destruct Hc as [[_ ->]|[(?&_)|[(_&_&_&[[? _]|[? _]])|(_&_&?&_)]]]; [|done..]. split; [done|]. unfold demo_bytes. by rewrite length_replicate. }
    exists s', ip'. split; [exact E|]. split; [exact Hs|]. split; rewrite Hb by (unfold MAXBLK; lia); reflexivity.
Defined.
