(* ===== verification/Icache.v ===== *)
(** * Inodes in core ([sys/kern/ufs_inode.c], configuration of the rp2040)

    The inode table is an array searched from its start
    ([LINEAR_INODE_CACHE]); an inode nobody refers to stays in it on a free
    list of doubly linked slots, whose back links point to the link that
    points to the slot. A device is seen through the buffer cache, the
    interface [BufDev]. [iget] and [irele] are written as the parts between
    which they can sleep: the search, the slot claimed, the reading of the
    inode; the inode locked, its last rites, its return to the free list.
    [capacity_note], the log and the name cache that [cinvalall] empties are
    left out. *)
From stdpp Require Import gmap.
From S2P Require Import Prelude Fsalloc Fsmap Fstrunc.

Definition NINODE : nat := 24.
Definition NMOUNT : nat := 2.
Definition ILOCKED : Z := 0x1.
Definition IMOUNT : Z := 0x8.
Definition IWANT : Z := 0x10.
Definition ROOTINO : Z := 2.
Definition IFMT : Z := 0xF000.
Definition IFBLK : Z := 0x6000.
Definition FS_ENFILE : Z := 23.

(** ** The table *)

(** A pointer to a link: to [ifreeh] or to the [i_freef] of a slot. *)
Inductive place := Head | Fwd (i : nat).

(** The first word of the union [i_un3]: [i_lastr], or [i_freef]. *)
Inductive word0 := Lastr (bn : Z) | Freef (p : option nat).

(** [struct inode]: the fields of [Fsmap.inode], and those of the table.
    [i_fs] points into the mount table. *)
Record cinode := Cinode {
  i_in : inode; i_count : Z; i_id : Z; i_dev : Z; i_fs : option nat; i_un3 : word0; i_freeb : option place
}.
Abbreviation i_num b := (i_number (i_in b)).
Abbreviation i_flg b := (i_flag (i_in b)).

Definition set_in (b : cinode) (ip : inode) : cinode := Cinode ip (i_count b) (i_id b) (i_dev b) (i_fs b) (i_un3 b) (i_freeb b).
Definition set_flg (b : cinode) (f : Z) : cinode := set_in b (set_iflag (i_in b) f).
Definition set_count (b : cinode) (n : Z) : cinode := Cinode (i_in b) n (i_id b) (i_dev b) (i_fs b) (i_un3 b) (i_freeb b).
Definition set_un3 (b : cinode) (w : word0) : cinode := Cinode (i_in b) (i_count b) (i_id b) (i_dev b) (i_fs b) w (i_freeb b).
Definition set_freeb (b : cinode) (p : option place) : cinode := Cinode (i_in b) (i_count b) (i_id b) (i_dev b) (i_fs b) (i_un3 b) p.
Definition set_name (b : cinode) (dev : Z) (k : nat) (ino id : Z) : cinode :=
  let ip := i_in b in
  Cinode (Inode ino (i_flag ip) (i_addr ip) (i_mode ip) (i_nlink ip) (i_uid ip) (i_gid ip) (i_size ip) (i_flags ip) (i_atime ip) (i_mtime ip) (i_ctime ip))
    (i_count b) id dev (Some k) (i_un3 b) (i_freeb b).
Definition set_inum (ip : inode) (ino : Z) : inode :=
  Inode ino (i_flag ip) (i_addr ip) (i_mode ip) (i_nlink ip) (i_uid ip) (i_gid ip) (i_size ip) (i_flags ip) (i_atime ip) (i_mtime ip) (i_ctime ip).
Definition set_imode (ip : inode) (mode : Z) : inode :=
  Inode (i_number ip) (i_flag ip) (i_addr ip) mode (i_nlink ip) (i_uid ip) (i_gid ip) (i_size ip) (i_flags ip) (i_atime ip) (i_mtime ip) (i_ctime ip).

(** [struct mount], as far as [iget] reads it; the root has the mark 1 for the
    inode it is mounted on. *)
Inductive mounted_on := Unmounted | Boot | On (ip : nat).
Record mount := Mount { m_dev : Z; m_filsys : fs; m_inodp : mounted_on }.
#[global] Instance mounted_on_eq_dec : EqDecision mounted_on.
Proof. solve_decision. Defined.

(** The inode table and its list, the mount table, the devices, [u.u_error]
    and [time.tv_sec]; [woken] collects the inodes whose sleepers were
    woken. *)
Record icore (D : Type) := Icore {
  inodes : list cinode; ifreeh : option nat; ifreet : place; nextinodeid : Z;
  mounts : list mount; disks : gmap Z D; u_error : Z; time : Z; woken : list nat
}.
Arguments Icore {D} _ _ _ _ _ _ _ _ _.
Arguments inodes {D} _.
Arguments ifreeh {D} _.
Arguments ifreet {D} _.
Arguments nextinodeid {D} _.
Arguments mounts {D} _.
Arguments disks {D} _.
Arguments u_error {D} _.
Arguments time {D} _.
Arguments woken {D} _.

Section icache.
Context {D : Type} {BD : BufDev D}.
Implicit Types (c : icore D) (b : cinode).

Definition with_inodes c (l : list cinode) : icore D := Icore l (ifreeh c) (ifreet c) (nextinodeid c) (mounts c) (disks c) (u_error c) (time c) (woken c).
Definition with_head c (p : option nat) : icore D := Icore (inodes c) p (ifreet c) (nextinodeid c) (mounts c) (disks c) (u_error c) (time c) (woken c).
Definition with_tail c (p : place) : icore D := Icore (inodes c) (ifreeh c) p (nextinodeid c) (mounts c) (disks c) (u_error c) (time c) (woken c).
Definition with_nextid c (n : Z) : icore D := Icore (inodes c) (ifreeh c) (ifreet c) n (mounts c) (disks c) (u_error c) (time c) (woken c).
Definition with_uerr c (e : Z) : icore D := Icore (inodes c) (ifreeh c) (ifreet c) (nextinodeid c) (mounts c) (disks c) e (time c) (woken c).
Definition wake_slot c (ip : nat) : icore D := Icore (inodes c) (ifreeh c) (ifreet c) (nextinodeid c) (mounts c) (disks c) (u_error c) (time c) (ip :: woken c).
Definition with_fsys c (dev : Z) (k : nat) (m : mount) (s : fsys D) : icore D :=
  Icore (inodes c) (ifreeh c) (ifreet c) (nextinodeid c) (<[k := Mount (m_dev m) (fsb s) (m_inodp m)]> (mounts c)) (<[dev := fdev s]> (disks c)) (ferr s) (time c) (woken c).

(** A store to a slot. *)
Definition put_slot c (ip : nat) (b : cinode) : icore D := with_inodes c (<[ip := b]> (inodes c)).
Definition change c (ip : nat) (f : cinode -> cinode) : outcome (icore D) := b ← rd (inodes c) ip; Ok (put_slot c ip (f b)).

(** Work on the device [dev] and the superblock of the mount table's entry
    [k]. A device nobody serves is a fault. *)
Definition on_fs {A} c (dev : Z) (k : option nat) (f : fsys D -> outcome (fsys D * A)) : outcome (icore D * A) :=
  match k with
  | None => Fault
  | Some k =>
      m ← rd (mounts c) k;
      match disks c !! dev with
      | None => Fault
      | Some d => r ← f (Fsys d (m_filsys m) (u_error c) (time c)); Ok (with_fsys c dev k m (fst r), snd r)
      end
  end.

(** The forward link of a slot, and a store through a back link. *)
Definition freef b : outcome (option nat) := match i_un3 b with Freef p => Ok p | Lastr _ => Fault end.
Definition put_place c (p : option place) (q : option nat) : outcome (icore D) :=
  match p with
  | None => Fault
  | Some Head => Ok (with_head c q)
  | Some (Fwd i) => change c i (fun b => set_un3 b (Freef q))
  end.

(** ** Initialisation *)

(** One turn of the loop of [ihinit]: the slot [ip] at the end of the list. *)
Definition ihinit_add c (ip : nat) : outcome (icore D) :=
  let t := ifreet c in
  c ← put_place c (Some t) (Some ip);
  c ← change c ip (fun b => set_freeb b (Some t));
  Ok (with_tail c (Fwd ip)).
Fixpoint ihinit_loop (l : list nat) c : outcome (icore D) :=
  match l with
  | [] => Ok c
  | ip :: l => c ← ihinit_add c ip; ihinit_loop l c
  end.
Definition ihinit c : outcome (icore D) :=
  let n := length (inodes c) in
  let c := with_tail (with_head c (Some 0%nat)) (Fwd 0) in
  c ← change c 0 (fun b => set_freeb b (Some Head));
  c ← ihinit_loop (seq 1 (n - 1)) c;
  change c (n - 1) (fun b => set_un3 b (Freef None)).

(** ** Locks and references *)

Definition iunlock c (ip : nat) : outcome (icore D) :=
  c ← change c ip (fun b => set_flg b (Z.land (i_flg b) (Z.lnot ILOCKED)));
  b ← rd (inodes c) ip;
  if on (i_flg b) IWANT then Ok (wake_slot (put_slot c ip (set_flg b (Z.land (i_flg b) (Z.lnot IWANT)))) ip) else Ok c.

(** One turn of the loop of [ilock]: whether it got the lock, or sleeps on
    the inode. *)
Definition ilock c (ip : nat) : outcome (icore D * bool) :=
  b ← rd (inodes c) ip;
  if on (i_flg b) ILOCKED then Ok (put_slot c ip (set_flg b (Z.lor (i_flg b) IWANT)), false)
  else Ok (put_slot c ip (set_flg b (Z.lor (i_flg b) ILOCKED)), true).

(** An inode on the free list is taken off it. *)
Definition unlink_free c (ip : nat) : outcome (icore D) :=
  b ← rd (inodes c) ip;
  iq ← freef b;
  c ← match iq with
      | Some q => change c q (fun b' => set_freeb b' (i_freeb b))
      | None => match i_freeb b with Some t => Ok (with_tail c t) | None => Fault end
      end;
  c ← put_place c (i_freeb b) iq;
  change c ip (fun b => set_freeb (set_un3 b (Freef None)) None).

(** A reference more, and the lock. *)
Definition take_ref c (ip : nat) : outcome (icore D) :=
  b ← rd (inodes c) ip;
  c ← (if i_count b =? 0 then unlink_free c ip else Ok c);
  change c ip (fun b => set_flg (set_count b (u16 (i_count b + 1))) (Z.lor (i_flg b) ILOCKED)).

(** [igrab], to its first sleep: whether it got the inode. *)
Definition igrab c (ip : nat) : outcome (icore D * bool) :=
  b ← rd (inodes c) ip;
  if on (i_flg b) ILOCKED then Ok (put_slot c ip (set_flg b (Z.lor (i_flg b) IWANT)), false)
  else c ← take_ref c ip; Ok (c, true).

(** ** Truncation and freeing at the last reference *)

Definition set_inodes_free (f : fs) (n : Z) (l : list Z) : fs :=
  Fs (fs_magic1 f) (fs_isize f) (fs_fsize f) (fs_swapsz f) (fs_nfree f) (fs_free f) n l (fs_flock f) (fs_fmod f) (fs_ilock f)
    (fs_ronly f) (fs_time f) (fs_tfree f) (fs_tinode f) (fs_fsmnt f) (fs_lasti f) (fs_nbehind f) (fs_flags f) (fs_magic2 f).
Definition set_tinode (f : fs) (v : Z) : fs :=
  Fs (fs_magic1 f) (fs_isize f) (fs_fsize f) (fs_swapsz f) (fs_nfree f) (fs_free f) (fs_ninode f) (fs_inode f) (fs_flock f) (fs_fmod f) (fs_ilock f)
    (fs_ronly f) (fs_time f) (fs_tfree f) v (fs_fsmnt f) (fs_lasti f) (fs_nbehind f) (fs_flags f) (fs_magic2 f).
Definition set_iscan (f : fs) (lock lasti nbehind : Z) : fs :=
  Fs (fs_magic1 f) (fs_isize f) (fs_fsize f) (fs_swapsz f) (fs_nfree f) (fs_free f) (fs_ninode f) (fs_inode f) (fs_flock f) (fs_fmod f) lock
    (fs_ronly f) (fs_time f) (fs_tfree f) (fs_tinode f) (fs_fsmnt f) lasti nbehind (fs_flags f) (fs_magic2 f).

(** [ifree]. *)
Definition ifree (ino : Z) (f : fs) : outcome fs :=
  let f := set_tinode f (u32 (fs_tinode f + 1)) in
  if negb (fs_ilock f =? 0) then Ok f
  else if NICINOD <=? fs_ninode f then Ok (if ino <? fs_lasti f then set_iscan f (fs_ilock f) (fs_lasti f) (u32 (fs_nbehind f + 1)) else f)
  else l ← wrz (fs_inode f) (fs_ninode f) ino; Ok (set_fmod (set_inodes_free f (fs_ninode f + 1) l) 1).

Definition IDIRTY : Z := Z.lor (Z.lor IUPD IACC) (Z.lor ICHG IMOD).

(** The macro [IUPDAT]. *)
Definition iupdat_dirty (ip : inode) (s : fsys D) : outcome (fsys D * inode) :=
  if on (i_flag ip) IDIRTY then r ← iupdat ip false s; Ok (fst r) else Ok (s, ip).

(** The last reference goes: an inode without links gives back its blocks and
    its number; what is left is written. *)
Definition irele_write (ip : inode) (s : fsys D) : outcome (fsys D * inode) :=
  r ← (if (i_nlink ip <=? 0) && (fs_ronly (fsb s) =? 0) then
         r ← itrunc ip 0 0 s;
         let ip := set_iaddr (set_imode (snd r) 0) (<[1%nat := 0]> (i_addr (snd r))) in
         let ip := set_iflag ip (Z.lor (i_flag ip) (Z.lor IUPD ICHG)) in
         f ← ifree (i_number ip) (fsb (fst r));
         Ok (with_fs (fst r) f, ip)
       else Ok (s, ip));
  iupdat_dirty (snd r) (fst r).

Definition irele_first c (ip : nat) : outcome (icore D) := change c ip (fun b => set_flg b (Z.lor (i_flg b) ILOCKED)).
Definition irele_io c (ip : nat) : outcome (icore D) :=
  b ← rd (inodes c) ip;
  r ← on_fs c (i_dev b) (i_fs b) (irele_write (i_in b));
  change (fst r) ip (fun b => set_in b (snd r)).
Definition append_free c (ip : nat) : outcome (icore D) :=
  match ifreeh c with
  | Some _ => let t := ifreet c in c ← put_place c (Some t) (Some ip); change c ip (fun b => set_freeb b (Some t))
  | None => change (with_head c (Some ip)) ip (fun b => set_freeb b (Some Head))
  end.
Definition push_free c (ip : nat) : outcome (icore D) :=
  c ← append_free c ip;
  c ← change c ip (fun b => set_un3 b (Freef None));
  Ok (with_tail c (Fwd ip)).
Definition irele_free c (ip : nat) : outcome (icore D) :=
  c ← iunlock c ip;
  c ← change c ip (fun b => set_flg b 0);
  push_free c ip.
Definition drop_ref c (ip : nat) : outcome (icore D) := change c ip (fun b => set_count b (u16 (i_count b - 1))).

(** The macro [ITIMES]. *)
Definition itimes (now : Z) (ip : inode) : inode :=
  if on (i_flag ip) (Z.lor IUPD (Z.lor IACC ICHG)) then
    let f := Z.lor (i_flag ip) IMOD in
    set_iflag (set_itimes ip (if on f IACC then now else i_atime ip) (if on f IUPD then now else i_mtime ip) (if on f ICHG then now else i_ctime ip))
      (Z.land f (Z.lnot (Z.lor IACC (Z.lor IUPD ICHG))))
  else ip.

Definition irele c (ip : nat) : outcome (icore D) :=
  b ← rd (inodes c) ip;
  c ← (if i_count b =? 1 then c ← irele_first c ip; c ← irele_io c ip; irele_free c ip
       else if on (i_flg b) ILOCKED then Ok c else change c ip (fun b => set_in b (itimes (time c) (i_in b))));
  drop_ref c ip.
Definition iput c (ip : nat) : outcome (icore D) := c ← iunlock c ip; irele c ip.

(** ** Finding and reading *)

Definition names (dev ino : Z) b : bool := (ino =? i_num b) && (dev =? i_dev b).
Definition ifind c (dev ino : Z) : option nat := fst <$> list_find (fun b => names dev ino b = true) (inodes c).
Definition find_mount (l : list mount) (ip : nat) : option (nat * mount) := list_find (fun m => m_inodp m = On ip) l.

(** What [iget] ends with, to its first sleep: the inode, an error, or the
    inode slept on and where the search goes on then. *)
Inductive igot := Igot (ip : nat) | Inone | Isleep (ip : nat) (dev : Z) (k : nat) (ino : Z).

(** The search, through [n] mounted file systems at most; the name that is
    not in core. *)
Fixpoint iget_search (n : nat) c (dev : Z) (k : nat) (ino : Z) : outcome (icore D * (igot + Z * nat * Z)) :=
  match ifind c dev ino with
  | None => Ok (c, inr (dev, k, ino))
  | Some ip =>
      b ← rd (inodes c) ip;
      if on (i_flg b) ILOCKED then Ok (put_slot c ip (set_flg b (Z.lor (i_flg b) IWANT)), inl (Isleep ip dev k ino))
      else if on (i_flg b) IMOUNT then
        match find_mount (mounts c) ip with
        | None => Panic "no imt"
        | Some (j, m) => match n with O => Panic "out of fuel" | S n => iget_search n c (m_dev m) j ROOTINO end
        end
      else c ← take_ref c ip; Ok (c, inl (Igot ip))
  end.

(** [cacheinval]: the generation number of a slot. *)
Definition cacheinval c : icore D * Z :=
  let n := u32 (nextinodeid c + 1) in
  let n := if u16 n =? 0 then u32 (n + 1) else n in
  (with_nextid c n, u16 n).

(** The oldest free slot takes the name, with the lock. *)
Definition iget_claim c (dev : Z) (k : nat) (ino : Z) : outcome (icore D * option nat) :=
  match ifreeh c with
  | None => Ok (with_uerr c FS_ENFILE, None)
  | Some ip =>
      b ← rd (inodes c) ip;
      if negb (i_count b =? 0) then Panic "free inode isn't"
      else
        iq ← freef b;
        c ← match iq with Some q => change c q (fun b' => set_freeb b' (Some Head)) | None => Ok c end;
        let c := with_head c iq in
        let '(c, id) := cacheinval c in
        c ← change c ip (fun b => set_name (set_freeb (set_un3 b (Freef None)) None) dev k ino id);
        c ← change c ip (fun b => set_un3 (set_count (set_flg b ILOCKED) (u16 (i_count b + 1))) (Lastr 0));
        Ok (c, Some ip)
  end.

(** [struct dinode] number [k] of a block. *)
Definition dinode_get (ip : inode) (k : nat) (x : block) : inode :=
  let w i := default 0 (x !! (16 * k + i)%nat) in
  Inode (i_number ip) (i_flag ip) (take 7 (drop (16 * k + 4) x)) (u16 (w 0%nat)) (u16 (Z.shiftr (w 0%nat) 16)) (w 1%nat) (w 2%nat) (w 3%nat) (u16 (w 12%nat))
    (w 13%nat) (w 14%nat) (w 15%nat).
Definition di_flags (k : nat) (x : block) : Z := default 0 (x !! (16 * k + 12)%nat).

(** The inode read into its slot; [None] after an error, with the error that
    is recorded besides the one of the buffer. *)
Definition iget_read (ip : inode) (s : fsys D) : outcome (fsys D * option inode) :=
  let bn := itod (i_number ip) in
  let k := Z.to_nat (itoo (i_number ip)) in
  r ← fs_bread s bn;
  s ← fs_brelse (fst r) bn;
  match snd r with
  | Failed _ => Ok (s, None)
  | Contents x _ => if u32 (di_flags k x) <=? 0xffff then Ok (s, Some (dinode_get ip k x)) else Ok (with_err s FS_EIO, None)
  end.
(** The slot read, or the reference to be dropped by an [iput] of the inode 0
    it now is. *)
Definition iget_fill c (ip : nat) : outcome (icore D * bool) :=
  b ← rd (inodes c) ip;
  r ← on_fs c (i_dev b) (i_fs b) (iget_read (i_in b));
  match snd r with
  | Some i => c ← change (fst r) ip (fun b => set_in b i); Ok (c, true)
  | None => c ← change (fst r) ip (fun b => set_in b (set_inum (i_in b) 0)); Ok (c, false)
  end.

Definition iget c (dev : Z) (k : nat) (ino : Z) : outcome (icore D * igot) :=
  r ← iget_search NMOUNT c dev k ino;
  match snd r with
  | inl g => Ok (fst r, g)
  | inr (dev, k, ino) =>
      r ← iget_claim (fst r) dev k ino;
      match snd r with
      | None => Ok (fst r, Inone)
      | Some ip =>
          r ← iget_fill (fst r) ip;
          if snd r : bool then Ok (fst r, Igot ip) else c ← iput (fst r) ip; Ok (c, Inone)
      end
  end.

(** ** Unmounting *)

(** [iflush]: -1 when an inode of the device is in use, else how many block
    special files of it are. *)
Fixpoint iflush_loop (dev : Z) (l : list cinode) (n : Z) : list cinode * Z :=
  match l with
  | [] => ([], n)
  | b :: l' =>
      if i_dev b =? dev then
        if negb (i_count b =? 0) then (l, -1)
        else let r := iflush_loop dev l' n in (set_in b (set_inum (i_in b) 0) :: fst r, snd r)
      else
        let hit := negb (i_count b =? 0) && (Z.land (i_mode (i_in b)) IFMT =? IFBLK) && (default 0 (i_addr (i_in b) !! 1%nat) =? dev) in
        let r := iflush_loop dev l' (if hit then n + 1 else n) in (b :: fst r, snd r)
  end.
Definition iflush c (dev : Z) : icore D * Z := let r := iflush_loop dev (inodes c) 0 in (with_inodes c (fst r), snd r).

End icache.

(** ** The free list *)

Definition first_of (l : list nat) (nx : option nat) : option nat := match l with [] => nx | i :: _ => Some i end.
Fixpoint last_place (p : place) (l : list nat) : place := match l with [] => p | i :: l => last_place (Fwd i) l end.

(** The slots [l] are linked in this order, from the link [p] to [nx]. *)
Fixpoint linked (s : list cinode) (p : place) (l : list nat) (nx : option nat) : Prop :=
  match l with
  | [] => True
  | i :: l => (exists b, s !! i = Some b /\ i_un3 b = Freef (first_of l nx) /\ i_freeb b = Some p) /\ linked s (Fwd i) l nx
  end.

(** The free list holds the slots [l], the next to be used first. *)
Record free_list {D} (c : icore D) (l : list nat) : Prop := {
  fl_head : ifreeh c = first_of l None;
  fl_tail : l <> [] -> ifreet c = last_place Head l;
  fl_links : linked (inodes c) Head l None;
  fl_nodup : NoDup l
}.

Lemma last_place_app p l1 l2 : last_place p (l1 ++ l2) = last_place (last_place p l1) l2.
Proof. revert p. by induction l1 as [|i l1 IH]; intros p; cbn; [|rewrite IH]. Qed.
Lemma first_of_app l1 l2 nx : first_of (l1 ++ l2) nx = first_of l1 (first_of l2 nx).
Proof. by destruct l1. Qed.

Lemma ilinked_app s p l1 l2 nx : linked s p (l1 ++ l2) nx <-> linked s p l1 (first_of l2 nx) /\ linked s (last_place p l1) l2 nx.
Proof.
  revert p. induction l1 as [|i l1 IH]; intros p; cbn; [tauto|]. rewrite IH, first_of_app. tauto.
Qed.

(** A slot off the list can be changed at will, one on the list but for its
    links. *)
Lemma linked_off s p l nx i b : i ∉ l -> linked s p l nx -> linked (<[i := b]> s) p l nx.
Proof.
  revert p. induction l as [|j l IH]; intros p Hi; cbn; [done|]. apply not_elem_of_cons in Hi as [Hij Hi]. intros [(b'&Hb&Hb') Hl].
  split; [|by apply IH]. exists b'. by rewrite list_lookup_insert_ne.
Qed.

Lemma linked_on s p l nx i b b' : s !! i = Some b -> i_un3 b' = i_un3 b -> i_freeb b' = i_freeb b -> linked s p l nx -> linked (<[i := b']> s) p l nx.
Proof.
  intros Hs Hu Hf. revert p. induction l as [|j l IH]; intros p; cbn; [done|]. intros [(b0&Hb&Eu&Ef) H]. split; [|by apply IH].
  destruct (decide (i = j)) as [<-|]; [|exists b0; by rewrite list_lookup_insert_ne]. simplify_eq. exists b'. rewrite list_lookup_insert_eq by (by eapply lookup_lt_Some).
  split; [done|]. split; congruence.
Qed.

Lemma linked_in s p l nx i : linked s p l nx -> i ∈ l -> exists b q, s !! i = Some b /\ i_un3 b = Freef q.
Proof. revert p. induction l as [|j l IH]; intros p; cbn; [set_solver|]. intros [(b&Hb&Hu&_) Hl] [->|Hi]%elem_of_cons; eauto. Qed.

(** The link [q] that points to the rest of the list. *)
Lemma linked_relink s p i l nx nx' : linked s p (l ++ [i]) nx -> i ∉ l -> exists b, s !! i = Some b /\
  linked (<[i := set_un3 b (Freef nx')]> s) p (l ++ [i]) nx'.
Proof.
  intros H Hi. apply ilinked_app in H as [H1 [(b&Hb&Eu&Ef) _]]. exists b. split; [done|]. apply ilinked_app. split.
  - by apply linked_off.
  - cbn. split; [|done]. exists (set_un3 b (Freef nx')). rewrite list_lookup_insert_eq by (by eapply lookup_lt_Some). done.
Qed.

(** What a change of links leaves as it was. *)
Definition data (b : cinode) : inode * Z * Z * Z * option nat := (i_in b, i_count b, i_id b, i_dev b, i_fs b).
Record relinked {D} (c c' : icore D) : Prop := {
  rl_data : data <$> inodes c' = data <$> inodes c;
  rl_id : nextinodeid c' = nextinodeid c;
  rl_mounts : mounts c' = mounts c;
  rl_disks : disks c' = disks c;
  rl_err : u_error c' = u_error c;
  rl_time : time c' = time c;
  rl_woken : woken c' = woken c
}.

#[export] Instance relinked_preorder D : PreOrder (@relinked D).
Proof. split; [by intros c|]. intros c1 c2 c3 [] []. constructor; congruence. Qed.

Lemma data_insert (s : list cinode) i b b' : s !! i = Some b -> data b' = data b -> data <$> <[i := b']> s = data <$> s.
Proof. intros Hs E. rewrite list_fmap_insert, E. apply list_insert_id. by rewrite list_lookup_fmap, Hs. Qed.

(** [inv_ok] opens a computation that returned. *)
Ltac inv_ok H :=
  let x := fresh "r" in let H1 := fresh "E" in apply outcome_bind_ok in H as (x&H1&H).

(** The list without a slot. *)
Abbreviation others ip l := (filter (fun j : nat => j <> ip) l).

Section lists.
Context {D : Type} {BD : BufDev D}.
Implicit Types (c : icore D) (b : cinode).

Lemma change_ok c i b f : inodes c !! i = Some b -> change c i f = Ok (put_slot c i (f b)).
Proof. intros Hb. unfold change. by rewrite (rd_ok _ _ _ Hb). Qed.

Lemma relinked_put c i b b' : inodes c !! i = Some b -> data b' = data b -> relinked c (put_slot c i b').
Proof. intros Hb E. constructor; try done. by eapply data_insert. Qed.

Lemma relinked_lookup c c' i b : relinked c c' -> inodes c !! i = Some b -> exists b', inodes c' !! i = Some b' /\ data b' = data b.
Proof.
  intros H Hb. pose proof (f_equal (.!! i) (rl_data _ _ H)) as E. rewrite !list_lookup_fmap, Hb in E. destruct (inodes c' !! i) as [b'|]; [|done]. exists b'. cbn in E. split; congruence.
Qed.

(** A list begins with a link to it and continues from a link. *)
Lemma split_prev (l1 : list nat) : l1 = [] \/ exists l0 j, l1 = l0 ++ [j].
Proof. destruct l1 as [|? ? _] using rev_ind; eauto. Qed.

(** [put_place] at the end of the part [l1] of the list. *)
Lemma put_place_ok c l1 nx q : linked (inodes c) Head l1 nx -> NoDup l1 -> ifreeh c = first_of l1 nx ->
  exists c', put_place c (Some (last_place Head l1)) q = Ok c' /\ relinked c c' /\ linked (inodes c') Head l1 q /\ ifreeh c' = first_of l1 q /\ ifreet c' = ifreet c /\
    forall i b, i ∉ l1 -> inodes c !! i = Some b -> inodes c' !! i = Some b.
Proof.
  intros Hl Hn Hh. destruct (split_prev l1) as [->|(l0&j&->)]; [by exists (with_head c q)|].
  rewrite last_place_app. cbn [last_place put_place]. apply NoDup_app in Hn as (_&Hj&_).
  destruct (linked_relink _ _ _ _ _ q Hl) as (b&Hb&Hl'); [intros H; apply (Hj _ H); set_solver|].
  rewrite (change_ok _ _ _ _ Hb). eexists. split; [done|]. split; [by eapply relinked_put|]. split; [exact Hl'|]. cbn [ifreeh ifreet put_slot with_inodes inodes].
  rewrite Hh, !first_of_app. split; [by destruct l0|]. split; [done|]. intros i b' Hi Hb'. rewrite list_lookup_insert_ne by set_solver. done.
Qed.

Lemma linked_retarget s p i l nx p' : linked s p (i :: l) nx -> i ∉ l -> exists b, s !! i = Some b /\ linked (<[i := set_freeb b (Some p')]> s) p' (i :: l) nx.
Proof.
  intros [(b&Hb&Hu&Hf) Hl] Hi. exists b. split; [done|]. split; [|by apply linked_off]. exists (set_freeb b (Some p')). by rewrite list_lookup_insert_eq by (by eapply lookup_lt_Some).
Qed.

(** What follows a slot taken out is linked from the link before it. *)
Lemma skip_ok c p l2 q nx : linked (inodes c) q l2 nx -> NoDup l2 -> (nx = None) ->
  exists c', (match first_of l2 nx with Some j => change c j (fun b' => set_freeb b' (Some p)) | None => Ok (with_tail c p) end) = Ok c' /\ relinked c c' /\ linked (inodes c') p l2 nx /\ ifreeh c' = ifreeh c /\
    (ifreet c' = if l2 then p else ifreet c) /\ forall i b, i ∉ l2 -> inodes c !! i = Some b -> inodes c' !! i = Some b.
Proof.
  intros Hl Hn ->. destruct l2 as [|j l2]; cbn [first_of]; [by exists (with_tail c p)|].
  apply NoDup_cons in Hn as [Hj Hn]. destruct (linked_retarget _ _ _ _ _ p Hl Hj) as (b&Hb&Hl'). rewrite (change_ok _ _ _ _ Hb).
  eexists. split; [done|]. split; [by eapply relinked_put|]. split; [exact Hl'|]. split; [done|]. split; [done|].
  intros i b' Hi Hb'. cbn [inodes put_slot with_inodes]. rewrite list_lookup_insert_ne by set_solver. done.
Qed.

Lemma last_place_nonempty p q l : l <> [] -> last_place p l = last_place q l.
Proof. by destruct l. Qed.

Lemma unlink_free_ok c l1 ip l2 b : free_list c (l1 ++ ip :: l2) -> inodes c !! ip = Some b ->
  exists c', unlink_free c ip = Ok c' /\ relinked c c' /\ free_list c' (l1 ++ l2) /\ exists b', inodes c' !! ip = Some b' /\ data b' = data b.
Proof.
  intros [Hh Ht Hl Hn] Hb. pose proof Hl as Hl0. apply ilinked_app in Hl as [H1 [(b0&Hb0&Hu&Hf) H2]]. rewrite Hb in Hb0. injection Hb0 as <-.
  apply NoDup_app in Hn as (Hn1&Hx&Hn2). apply NoDup_cons in Hn2 as [Hi2 Hn2]. assert (ip ∉ l1) as Hi1 by (intros H; apply (Hx _ H); set_solver).
  assert (forall j, j ∈ l1 -> j ∉ l2) as Hd by (intros j Hj Hj'; apply (Hx _ Hj); set_solver).
  unfold unlink_free. rewrite (rd_ok _ _ _ Hb). cbn [mbind outcome_bind]. unfold freef. rewrite Hu, Hf. cbn [mbind outcome_bind].
  destruct (skip_ok c (last_place Head l1) l2 (Fwd ip) None H2 Hn2 eq_refl) as (c1&E1&R1&L1&Hh1&Ht1&F1). rewrite E1. cbn [mbind outcome_bind].
  assert (linked (inodes c1) Head l1 (Some ip)) as L1'.
  { destruct l2 as [|j l2]; cbn [first_of] in E1.
    - injection E1 as <-. done.
    - destruct (rd (inodes c) j) as [bj| |] eqn:Ej; unfold change in E1; rewrite Ej in E1; [|done..]. injection E1 as <-. apply linked_off; [|done]. intros H. apply (Hd _ H). set_solver. }
  destruct (put_place_ok c1 l1 (Some ip) (first_of l2 None) L1' Hn1) as (c2&E2&R2&L2&Hh2&Ht2&F2); [rewrite Hh1, Hh, first_of_app; done|].
  rewrite E2. cbn [mbind outcome_bind]. assert (inodes c2 !! ip = Some b) as Hb2 by auto. rewrite (change_ok _ _ _ _ Hb2). eexists. split; [done|].
  assert (linked (inodes c2) (last_place Head l1) l2 None) as L2'.
  { destruct (split_prev l1) as [->|(l0&j&->)]; cbn [last_place put_place] in *; [injection E2 as <-; done|].
    rewrite last_place_app in E2. cbn [last_place put_place] in E2. destruct (rd (inodes c1) j) as [bj| |] eqn:Ej; unfold change in E2; rewrite Ej in E2; [|done..]. injection E2 as <-. apply linked_off; [|done]. apply Hd. set_solver. }
  split; [etransitivity; [exact R1|]; etransitivity; [exact R2|]; by eapply relinked_put|]. split; [|eexists; cbn [inodes put_slot with_inodes]; rewrite list_lookup_insert_eq by (by eapply lookup_lt_Some); done].
  constructor; cbn [ifreeh ifreet inodes put_slot with_inodes].
  - rewrite Hh2, first_of_app. done.
  - intros Hne. rewrite Ht2, Ht1, last_place_app. destruct l2 as [|j l2]; [done|]. rewrite Ht by (by destruct l1). rewrite last_place_app. done.
  - apply linked_off; [set_solver|]. apply ilinked_app. by split.
  - apply NoDup_app. split; [done|]. split; [set_solver|done].
Qed.

(** A slot changed, and its links with those of its neighbours. *)
Record moved c c' (ip : nat) (b : cinode) (w : list nat) : Prop := {
  mv_data : data <$> inodes c' = <[ip := data b]> (data <$> inodes c);
  mv_mounts : mounts c' = mounts c;
  mv_disks : disks c' = disks c;
  mv_err : u_error c' = u_error c;
  mv_time : time c' = time c;
  mv_woken : woken c' = w
}.

Lemma moved_put c ip b : moved c (put_slot c ip b) ip b (woken c).
Proof. constructor; try done. cbn. by rewrite list_fmap_insert. Qed.

Lemma moved_relinked c c1 c2 ip b w : moved c c1 ip b w -> relinked c1 c2 -> moved c c2 ip b w.
Proof. intros [] []. constructor; congruence. Qed.
Lemma relinked_moved c c1 c2 ip b w : relinked c c1 -> moved c1 c2 ip b w -> moved c c2 ip b w.
Proof. intros [] []. constructor; congruence. Qed.
Lemma moved_trans c c1 c2 ip b1 b2 w1 w2 : moved c c1 ip b1 w1 -> moved c1 c2 ip b2 w2 -> moved c c2 ip b2 w2.
Proof. intros [E1 ?????] [E2 ?????]. constructor; try congruence. by rewrite E2, E1, list_insert_insert_eq. Qed.

Lemma moved_lookup c c' ip b w i : moved c c' ip b w -> i <> ip -> data <$> inodes c' !! i = data <$> inodes c !! i.
Proof. intros H Hi. rewrite <- !list_lookup_fmap, (mv_data _ _ _ _ _ H). by rewrite list_lookup_insert_ne. Qed.
Lemma moved_self c c' ip b b0 w : moved c c' ip b w -> inodes c !! ip = Some b0 -> exists b', inodes c' !! ip = Some b' /\ data b' = data b.
Proof.
  intros H Hb. assert ((data <$> inodes c') !! ip = Some (data b)) as E.
  { rewrite (mv_data _ _ _ _ _ H), list_lookup_insert_eq; [done|]. rewrite length_fmap. by eapply lookup_lt_Some. }
  rewrite list_lookup_fmap in E. destruct (inodes c' !! ip) as [b'|]; [|done]. exists b'. cbn in E. split; congruence.
Qed.

(** [IUNLOCK]. *)
Definition unlocked (f : Z) : Z := let f := Z.land f (Z.lnot ILOCKED) in if on f IWANT then Z.land f (Z.lnot IWANT) else f.

Lemma on_unlock f : on (Z.land f (Z.lnot ILOCKED)) IWANT = on f IWANT.
Proof. by flags. Qed.

Lemma iunlock_ok c ip b : inodes c !! ip = Some b ->
  iunlock c ip = Ok (let c' := put_slot c ip (set_flg b (unlocked (i_flg b))) in if on (i_flg b) IWANT then wake_slot c' ip else c').
Proof.
  intros Hb. pose proof (lookup_lt_Some _ _ _ Hb) as Hlt. unfold iunlock. rewrite (change_ok _ _ _ _ Hb). cbn [mbind outcome_bind]. rewrite (rd_ok _ ip (set_flg b (Z.land (i_flg b) (Z.lnot ILOCKED)))) by (by apply list_lookup_insert_eq).
  cbn [mbind outcome_bind set_flg set_in i_in i_flag set_iflag]. unfold unlocked. rewrite on_unlock. destruct (on (i_flg b) IWANT); [|done]. unfold put_slot, wake_slot, with_inodes. cbn. by rewrite list_insert_insert_eq.
Qed.

Definition wake_if (w : bool) (ip : nat) (l : list nat) : list nat := if w then ip :: l else l.

Lemma iunlock_moved c ip b : inodes c !! ip = Some b -> exists c', iunlock c ip = Ok c' /\
  moved c c' ip (set_flg b (unlocked (i_flg b))) (wake_if (on (i_flg b) IWANT) ip (woken c)) /\ inodes c' !! ip = Some (set_flg b (unlocked (i_flg b))) /\
  (forall l, free_list c l -> ip ∉ l -> free_list c' l).
Proof.
  intros Hb. rewrite (iunlock_ok _ _ _ Hb). cbv zeta. eexists. split; [done|]. pose proof (lookup_lt_Some _ _ _ Hb) as Hlt. unfold wake_if.
  split; [|split].
  - destruct (on (i_flg b) IWANT); constructor; try done; cbn; by rewrite list_fmap_insert.
  - destruct (on (i_flg b) IWANT); cbn; by apply list_lookup_insert_eq.
  - intros l [Hh Ht Hl Hn] Hi. destruct (on (i_flg b) IWANT); (constructor; cbn; [done..|by apply linked_off|done]).
Qed.

Lemma free_list_off c l ip b : free_list c l -> ip ∉ l -> free_list (put_slot c ip b) l.
Proof. intros [Hh Ht Hl Hn] Hi. constructor; cbn; [done..|by apply linked_off|done]. Qed.

Lemma linked_snoc (s : list cinode) l ip b : linked s Head l (Some ip) -> s !! ip = Some b -> i_un3 b = Freef None -> i_freeb b = Some (last_place Head l) -> linked s Head (l ++ [ip]) None.
Proof. intros H Hb Hu Hf. apply ilinked_app. split; [done|]. cbn. eauto. Qed.

(** The end of the free list. *)
Lemma push_free_ok c l ip b : free_list c l -> ip ∉ l -> inodes c !! ip = Some b ->
  exists c', push_free c ip = Ok c' /\ relinked c c' /\ free_list c' (l ++ [ip]).
Proof.
  intros [Hh Ht Hl Hn] Hi Hb. pose proof (lookup_lt_Some _ _ _ Hb) as Hlt. unfold push_free.
  assert (exists c1, append_free c ip = Ok (put_slot c1 ip (set_freeb b (Some (last_place Head l)))) /\ relinked c c1 /\ inodes c1 !! ip = Some b /\ linked (inodes c1) Head l (Some ip) /\ ifreeh c1 = first_of l (Some ip)) as (c1&->&R&Hb1&L1&Hh1).
  { unfold append_free. rewrite Hh. destruct l as [|j l]; cbn [first_of].
    - exists (with_head c (Some ip)). rewrite (change_ok _ _ b) by done. done.
    - cbv zeta. rewrite Ht by done. destruct (put_place_ok c (j :: l) None (Some ip) Hl Hn Hh) as (c1&->&R&L1&Hh1&_&F). cbn [mbind outcome_bind]. exists c1.
      rewrite (change_ok _ _ b) by auto. auto. }
  cbn [mbind outcome_bind]. rewrite (change_ok _ _ (set_freeb b (Some (last_place Head l)))) by (apply list_lookup_insert_eq; by eapply lookup_lt_Some).
  cbn [mbind outcome_bind]. eexists. split; [done|]. split.
  - etransitivity; [exact R|]. constructor; try done. cbn. rewrite list_insert_insert_eq. by apply (data_insert _ _ b).
  - constructor; cbn [ifreeh ifreet inodes put_slot with_inodes with_tail].
    + rewrite Hh1, first_of_app. done.
    + intros _. by rewrite last_place_app.
    + rewrite list_insert_insert_eq. eapply linked_snoc; [by apply linked_off|apply list_lookup_insert_eq; by eapply lookup_lt_Some|done|done].
    + apply NoDup_app. split; [done|]. split; [set_solver|apply NoDup_singleton].
Qed.

Lemma irele_free_ok c l ip b : free_list c l -> ip ∉ l -> inodes c !! ip = Some b ->
  exists c', irele_free c ip = Ok c' /\ free_list c' (l ++ [ip]) /\ moved c c' ip (set_flg b 0) (wake_if (on (i_flg b) IWANT) ip (woken c)).
Proof.
  intros Hf Hi Hb. unfold irele_free. destruct (iunlock_moved c ip b Hb) as (c1&->&M1&Hb1&Hf1). cbn [mbind outcome_bind].
  rewrite (change_ok _ _ _ _ Hb1). cbn [mbind outcome_bind]. set (c2 := put_slot c1 ip _).
  destruct (push_free_ok c2 l ip (set_flg (set_flg b (unlocked (i_flg b))) 0)) as (c3&->&R&Hf3); [apply free_list_off; auto|done|apply list_lookup_insert_eq; by eapply lookup_lt_Some|].
  exists c3. split; [done|]. split; [done|]. eapply moved_relinked; [|exact R]. eapply moved_trans; [exact M1|]. rewrite <- (mv_woken _ _ _ _ _ M1). apply moved_put.
Qed.

(** The head of the free list is taken for a new name. *)
Definition claimed (b : cinode) (dev : Z) (k : nat) (ino id : Z) : cinode := set_flg (set_count (set_name b dev k ino id) (u16 (i_count b + 1))) ILOCKED.

Lemma iget_claim_ok c l dev k ino ip b : free_list c (ip :: l) -> inodes c !! ip = Some b -> i_count b = 0 ->
  exists c' id, iget_claim c dev k ino = Ok (c', Some ip) /\ free_list c' l /\ moved c c' ip (claimed b dev k ino id) (woken c).
Proof.
  intros [Hh Ht Hl Hn] Hb Hc. pose proof (lookup_lt_Some _ _ _ Hb) as Hlt. unfold iget_claim. rewrite Hh. cbn [first_of]. rewrite (rd_ok _ _ _ Hb). cbn [mbind outcome_bind]. rewrite Hc. cbn [Z.eqb negb].
  pose proof Hl as [(b0&Hb0&Hu&Hfb) Hl2]. rewrite Hb in Hb0. injection Hb0 as <-. unfold freef. rewrite Hu. cbn [mbind outcome_bind]. apply NoDup_cons in Hn as [Hi Hn].
  assert (exists c1, match first_of l None with Some q => change c q (fun b' => set_freeb b' (Some Head)) | None => Ok c end = Ok c1 /\ relinked c c1 /\ linked (inodes c1) Head l None /\ ifreet c1 = ifreet c /\ inodes c1 !! ip = Some b)
    as (c1&->&R&L1&Ht1&Hb1).
  { destruct l as [|j l]; cbn [first_of]; [by exists c|]. apply NoDup_cons in Hn as [Hj Hn]. destruct (linked_retarget _ _ _ _ _ Head Hl2 Hj) as (bj&Hbj&L1).
    rewrite (change_ok _ _ _ _ Hbj). eexists. split; [done|]. split; [by eapply relinked_put|]. split; [exact L1|]. split; [done|]. cbn. rewrite list_lookup_insert_ne by set_solver. done. }
  cbn [mbind outcome_bind]. unfold cacheinval. set (id := u16 _). set (nx := if _ =? 0 then _ else _).
  rewrite (change_ok _ _ b) by done. cbn [mbind outcome_bind].
  set (b1 := set_name _ _ _ _ _). set (c2 := put_slot _ _ _). assert (inodes c2 !! ip = Some b1) as Hb2 by (apply list_lookup_insert_eq; by eapply lookup_lt_Some).
  rewrite (change_ok _ _ _ _ Hb2). cbn [mbind outcome_bind]. eexists _, (u16 nx). split; [done|]. split.
  - constructor; cbn [ifreeh ifreet inodes put_slot with_inodes with_nextid with_head c2]; [done| |by apply linked_off, linked_off|done].
    intros Hne. rewrite Ht1, Ht by done. cbn. by apply last_place_nonempty.
  - eapply relinked_moved; [exact R|]. constructor; try done; [|apply (rl_woken _ _ R)]. cbn. by rewrite list_insert_insert_eq, list_fmap_insert.
Qed.

(** [ihinit] links all the slots in their order. *)
Definition unset (b : cinode) : Prop := exists p, i_un3 b = Freef p.

Lemma ihinit_add_ok c l nx ip b : linked (inodes c) Head l nx -> NoDup l -> l <> [] -> ifreeh c = first_of l None -> ifreet c = last_place Head l -> ip ∉ l ->
  inodes c !! ip = Some b -> unset b ->
  exists c' p, ihinit_add c ip = Ok c' /\ relinked c c' /\ linked (inodes c') Head (l ++ [ip]) p /\ ifreeh c' = first_of (l ++ [ip]) None /\ ifreet c' = Fwd ip /\
    forall j b', j ∉ l ++ [ip] -> inodes c !! j = Some b' -> inodes c' !! j = Some b'.
Proof.
  intros Hl Hn Hne Hh Ht Hi Hb [p Hu]. unfold ihinit_add. cbv zeta. rewrite Ht.
  destruct (put_place_ok c l nx (Some ip) Hl Hn) as (c1&->&R&L1&Hh1&_&F); [rewrite Hh; by destruct l|]. cbn [mbind outcome_bind].
  assert (inodes c1 !! ip = Some b) as Hb1 by auto. rewrite (change_ok _ _ _ _ Hb1). cbn [mbind outcome_bind]. eexists _, p. split; [done|]. split.
  { etransitivity; [exact R|]. pose proof (relinked_put c1 ip b (set_freeb b (Some (last_place Head l))) Hb1 eq_refl) as [? ? ? ? ? ? ?]. by constructor. }
  cbn [inodes put_slot with_inodes with_tail ifreeh ifreet]. split.
  - apply ilinked_app. split; [by apply linked_off|]. split; [|done]. exists (set_freeb b (Some (last_place Head l))). rewrite list_lookup_insert_eq by (by eapply lookup_lt_Some). done.
  - split; [rewrite Hh1; by destruct l|]. split; [done|]. intros j b' Hj Hb'. rewrite list_lookup_insert_ne by set_solver. apply F; [set_solver|done].
Qed.

Lemma ihinit_loop_ok n m c nx : linked (inodes c) Head (seq 0 (S m)) nx -> ifreeh c = Some 0%nat -> ifreet c = Fwd m -> length (inodes c) = (S m + n)%nat -> (forall j b, (m < j)%nat -> inodes c !! j = Some b -> unset b) ->
  exists c' p, ihinit_loop (seq (S m) n) c = Ok c' /\ relinked c c' /\ linked (inodes c') Head (seq 0 (S m + n)) p /\ ifreeh c' = Some 0%nat /\ ifreet c' = Fwd (m + n).
Proof.
  revert m c nx. induction n as [|n IH]; intros m c nx Hl Hh Ht Hlen Hun; cbn [seq ihinit_loop].
  { exists c, nx. rewrite !Nat.add_0_r. done. }
  destruct (lookup_lt_is_Some_2 (inodes c) (S m)) as [b Hb]; [lia|].
  destruct (ihinit_add_ok c (seq 0 (S m)) nx (S m) b) as (c1&p&->&R&L1&Hh1&Ht1&F1); [done|apply NoDup_seq|done|done| | |done|by eapply Hun; [|exact Hb]; lia|].
  { rewrite Ht, seq_S, last_place_app. done. }
  { rewrite elem_of_seq. lia. }
  cbn [mbind outcome_bind]. rewrite <- seq_S in *. cbn [seq first_of] in Hh1.
  destruct (IH (S m) c1 p) as (c2&p2&->&R2&L2&Hh2&Ht2); [exact L1|done|done| | |].
  - pose proof (f_equal length (rl_data _ _ R)) as E. rewrite !length_fmap in E. lia.
  - intros j b' Hj Hb'. destruct (lookup_lt_is_Some_2 (inodes c) j) as [b0 Hb0].
    { pose proof (f_equal length (rl_data _ _ R)) as E. rewrite !length_fmap in E. apply lookup_lt_Some in Hb'. lia. }
    rewrite (F1 j b0) in Hb'; [simplify_eq; apply (Hun j); [lia|done]|rewrite elem_of_seq; lia|done].
  - exists c2, p2. split; [done|]. split; [by etransitivity|]. replace (S m + S n)%nat with (S (S m) + n)%nat by lia. replace (m + S n)%nat with (S m + n)%nat by lia. done.
Qed.

Lemma ihinit_ok c : inodes c <> [] -> Forall unset (inodes c) -> exists c', ihinit c = Ok c' /\ relinked c c' /\ free_list c' (seq 0 (length (inodes c))).
Proof.
  intros Hne Hun. rewrite Forall_lookup in Hun. destruct (length (inodes c)) as [|n] eqn:Hlen; [by destruct (inodes c)|].
  destruct (lookup_lt_is_Some_2 (inodes c) 0) as [b Hb]; [lia|]. destruct (Hun _ _ Hb) as [p Hu]. unfold ihinit. rewrite Hlen. cbv zeta.
  set (c0 := with_tail _ _). rewrite (change_ok c0 0 b) by done. cbn [mbind outcome_bind]. set (c1 := put_slot c0 0 _).
  destruct (ihinit_loop_ok n 0 c1 p) as (c2&p2&E2&R2&L2&Hh2&Ht2); [|done|done|by cbn; rewrite length_insert| |].
  - cbn. split; [|done]. exists (set_freeb b (Some Head)). rewrite list_lookup_insert_eq by (by eapply lookup_lt_Some). done.
  - intros j b' Hj Hb'. cbn in Hb'. rewrite list_lookup_insert_ne in Hb' by lia. by eapply Hun.
  - replace (S n - 1)%nat with n by lia. rewrite E2. cbn [mbind outcome_bind].
    assert (seq 0 (1 + n) = seq 0 n ++ [n]) as Es by (replace (1 + n)%nat with (S n) by lia; apply seq_S).
    rewrite Es in L2. destruct (linked_relink _ _ _ _ _ None L2) as (bn&Hbn&L3); [rewrite elem_of_seq; lia|]. rewrite (change_ok _ _ _ _ Hbn). eexists. split; [done|]. split.
    + etransitivity; [|etransitivity; [exact R2|by eapply relinked_put]]. constructor; try done. apply (data_insert _ _ b); done.
    + rewrite seq_S. constructor; cbn [ifreeh ifreet inodes put_slot with_inodes]; [rewrite Hh2, first_of_app; by destruct n| |done|rewrite <- seq_S; apply NoDup_seq].
      intros _. rewrite Ht2, last_place_app. done.
Qed.

Lemma others_id ip (l : list nat) : ip ∉ l -> others ip l = l.
Proof. induction l as [|j l IH]; [done|]. intros [? ?]%not_elem_of_cons. rewrite filter_cons_True by done. by rewrite IH. Qed.
Lemma others_split ip (l1 l2 : list nat) : NoDup (l1 ++ ip :: l2) -> others ip (l1 ++ ip :: l2) = l1 ++ l2.
Proof.
  intros (H1&Hx&[H2 _]%NoDup_cons)%NoDup_app. rewrite filter_app, filter_cons_False by tauto. rewrite !others_id; [done|done|]. intros H. apply (Hx _ H). set_solver.
Qed.

(** Another reference. *)
Definition referred (b : cinode) : cinode := set_flg (set_count b (u16 (i_count b + 1))) (Z.lor (i_flg b) ILOCKED).

Lemma take_ref_ok c l ip b : free_list c l -> inodes c !! ip = Some b -> (ip ∈ l <-> i_count b = 0) ->
  exists c', take_ref c ip = Ok c' /\ free_list c' (others ip l) /\ moved c c' ip (referred b) (woken c).
Proof.
  intros Hf Hb Hi. unfold take_ref. rewrite (rd_ok _ _ _ Hb). cbn [mbind outcome_bind]. destruct (Z.eqb_spec (i_count b) 0) as [E|E].
  - apply Hi in E as Hin. apply list_elem_of_split in Hin as (l1&l2&->). destruct (unlink_free_ok c l1 ip l2 b Hf Hb) as (c1&->&R&Hf1&b1&Hb1&Eb).
    cbn [mbind outcome_bind]. rewrite (change_ok _ _ _ _ Hb1). rewrite others_split by apply Hf. eexists. split; [done|]. split.
    + apply free_list_off; [done|]. destruct Hf as [_ _ _ (H1&Hx&[H2 _]%NoDup_cons)%NoDup_app]. intros [H|H]%elem_of_app; [apply (Hx _ H); set_solver|done].
    + eapply relinked_moved; [exact R|]. rewrite <- (rl_woken _ _ R). 
      constructor; try done. cbn. rewrite list_fmap_insert. f_equal. destruct b, b1. unfold data in *. cbn in *. by simplify_eq.
  - cbn [mbind outcome_bind]. rewrite (change_ok _ _ _ _ Hb). rewrite others_id by tauto. eexists. split; [done|]. split; [apply free_list_off; tauto|]. apply moved_put.
Qed.

(** ** What input and output leave as it was *)

(** The bits of [i_flag] that lock an inode and mark it mounted on. *)
Definition kept (ip ip' : inode) : Prop := i_number ip' = i_number ip /\ Z.land (i_flag ip') 0x19 = Z.land (i_flag ip) 0x19.

#[export] Instance kept_preorder : PreOrder kept.
Proof. split; [by intros ip|]. intros x y z [] []. split; congruence. Qed.

Lemma kept_or f m k : Z.land m k = 0 -> Z.land (Z.lor f m) k = Z.land f k.
Proof. intros E. by rewrite Z.land_lor_distr_l, E, Z.lor_0_r. Qed.
Lemma kept_diff f m k : Z.land k m = 0 -> Z.land (Z.ldiff f m) k = Z.land f k.
Proof.
  intros E. apply Z.bits_inj'. intros i Hi. rewrite !Z.land_spec, Z.ldiff_spec. assert (Z.testbit (Z.land k m) i = false) as E' by (rewrite E; apply Z.bits_0).
  rewrite Z.land_spec in E'. destruct (Z.testbit f i), (Z.testbit m i), (Z.testbit k i); done.
Qed.

Lemma kept_on ip ip' m : kept ip ip' -> Z.land 0x19 m = m -> on (i_flag ip') m = on (i_flag ip) m.
Proof. intros [_ E] Em. unfold on. by rewrite <- Em, !Z.land_assoc, E. Qed.

(** What of an inode a cut or a new block leaves as it was; the mark of a pipe
    stays as well. *)
Definition rest_of (ip : inode) := (i_mode ip, i_nlink ip, i_uid ip, i_gid ip, i_flags ip, i_number ip).
Definition framed (ip ip' : inode) : Prop := rest_of ip' = rest_of ip /\ Z.land (i_flag ip') 0x1039 = Z.land (i_flag ip) 0x1039.

#[export] Instance framed_preorder : PreOrder framed.
Proof. split; [by intros ip|]. intros x y z [] []. split; congruence. Qed.
Lemma framed_kept ip ip' : framed ip ip' -> kept ip ip'.
Proof. intros [E1 E2]. injection E1 as _ _ _ _ _ E1. split; [done|]. change 0x19 with (Z.land 0x1039 0x19). by rewrite !Z.land_assoc, E2. Qed.
Lemma framed_on ip ip' m : framed ip ip' -> Z.land 0x1039 m = m -> on (i_flag ip') m = on (i_flag ip) m.
Proof. intros [_ E] Em. unfold on. by rewrite <- Em, !Z.land_assoc, E. Qed.

Lemma iupdat_at_framed ta tm ip w s s' ip' e : iupdat_at ta tm ip w s = Ok (s', ip', e) -> framed ip ip'.
Proof.
  unfold iupdat_at. intros H. destruct (_ =? 0); [by simplify_eq|]. destruct (negb _); [by simplify_eq|]. inv_ok H. destruct (snd r) as [x sh|].
  - cbv zeta in H. destruct w; inv_ok H; simplify_eq.
    + destruct (snd r0 =? 0); (split; [done|]); cbn; [by apply kept_diff|]. rewrite kept_or; [by apply kept_diff|]. rewrite <- Z.land_assoc. apply Z.land_0_r.
    + split; [done|]. cbn. by apply kept_diff.
  - inv_ok H. by simplify_eq.
Qed.

Lemma iupdat_framed ip w s s' ip' e : iupdat ip w s = Ok (s', ip', e) -> framed ip ip'.
Proof. apply iupdat_at_framed. Qed.

Lemma bmap_root_framed ip i rw flags now s s' ip' nb : bmap_root ip i rw flags now s = Ok (s', ip', nb) -> framed ip ip'.
Proof.
  unfold bmap_root. intros H. inv_ok H. destruct (negb _); [by simplify_eq|]. destruct rw; [by simplify_eq|]. inv_ok H. destruct (snd r0) as [[nb0 x]|]; [|by simplify_eq].
  inv_ok H. destruct r1 as [s1 e]. destruct (negb _); inv_ok H; simplify_eq; [done|]. split; [done|]. cbn. by apply kept_or.
Qed.

Lemma bmap_framed ip bn rw flags ra s s' ip' v ra' : bmap ip bn rw flags ra s = Ok (s', ip', v, ra') -> framed ip ip'.
Proof.
  unfold bmap. intros H. destruct (bn <? 0); [by simplify_eq|]. destruct (bn <? NADDR - 3).
  - inv_ok H. destruct r as [[s1 ip1] [nb|]]; [inv_ok H|]; simplify_eq; by eapply bmap_root_framed.
  - destruct (bmap_depth 3 1 _) as [[j m]|]; [|by simplify_eq]. inv_ok H. destruct r as [[s1 ip1] [nb|]]; [inv_ok H; destruct r as [[? ?] ?]|]; simplify_eq; by eapply bmap_root_framed.
Qed.

Lemma itrunc_updret_framed ip s s' ip' : itrunc_updret ip s = Ok (s', ip') -> framed ip ip'.
Proof. unfold itrunc_updret. intros H. inv_ok H. destruct r as [[s1 ip1] e]. simplify_eq. etransitivity; [|by eapply iupdat_framed]. split; [done|]. cbn. by apply kept_or. Qed.

Lemma itrunc_framed ip n fl s s' ip' : itrunc ip n fl s = Ok (s', ip') -> framed ip ip'.
Proof.
  unfold itrunc. intros H. destruct (n <? 0); [by simplify_eq|]. destruct (negb _ && _); [by eapply itrunc_updret_framed|]. cbv zeta in H.
  set (ip0 := if on (i_flag ip) IPIPE then _ else ip) in H. assert (framed ip ip0) as K by (unfold ip0; by destruct (on _ _)). etransitivity; [exact K|]. destruct (i_size ip0 <? n).
  - inv_ok H. destruct r as [[[s1 ip1] bn] ra]. apply bmap_framed in E. destruct (_ || _); [by simplify_eq|]. etransitivity; [exact E|]. apply itrunc_updret_framed in H. destruct H. by split.
  - unfold itrunc_shrink in H. inv_ok H. destruct r as [[s1 ip1] ok]. assert (framed ip0 ip1) as K1.
    { destruct (blkoff n =? 0); [by simplify_eq|]. inv_ok E. destruct r as [[[s2 ip2] bn] ra]. apply bmap_framed in E0. destruct (_ || _); [by simplify_eq|]. inv_ok E.
      cbv zeta in E. destruct (Fsalloc.no_error (snd r)); inv_ok E; by simplify_eq. }
    destruct (negb ok); [by simplify_eq|]. cbv zeta in H. inv_ok H. inv_ok H. etransitivity; [exact K1|]. apply itrunc_updret_framed in H. destruct H. by split.
Qed.

Lemma irele_write_kept ip s s' ip' : irele_write ip s = Ok (s', ip') -> kept ip ip'.
Proof.
  unfold irele_write. intros H. inv_ok H. destruct r as [s1 ip1]. cbn [fst snd] in H. assert (kept ip ip1) as K.
  { destruct (_ && _); [|by simplify_eq]. inv_ok E. destruct r as [s2 ip2]. cbn [fst snd] in *. inv_ok E. simplify_eq. apply itrunc_framed, framed_kept in E0. etransitivity; [exact E0|]. split; [done|]. cbn. by apply kept_or. }
  etransitivity; [exact K|]. unfold iupdat_dirty in H. destruct (on _ _); [|by simplify_eq]. inv_ok H. destruct r as [[? ?] ?]. simplify_eq. apply framed_kept. by eapply iupdat_framed.
Qed.

Lemma iget_read_kept ip s s' ip' : iget_read ip s = Ok (s', Some ip') -> i_number ip' = i_number ip /\ i_flag ip' = i_flag ip.
Proof. unfold iget_read. intros H. inv_ok H. inv_ok H. destruct (snd r); [|by simplify_eq]. destruct (_ <=? _); by simplify_eq. Qed.

(** The parts of the state that [on_fs] does not touch. *)
Record same_table c c' : Prop := {
  st_inodes : inodes c' = inodes c; st_head : ifreeh c' = ifreeh c; st_tail : ifreet c' = ifreet c;
  st_time : time c' = time c; st_woken : woken c' = woken c;
  st_mounts : m_dev <$> mounts c' = m_dev <$> mounts c; st_on : m_inodp <$> mounts c' = m_inodp <$> mounts c
}.

Lemma on_fs_same {A} c dev k (f : fsys D -> outcome (fsys D * A)) c' a : on_fs c dev k f = Ok (c', a) -> same_table c c' /\ exists s s', f s = Ok (s', a).
Proof.
  unfold on_fs. intros H. destruct k as [k|]; [|done]. inv_ok H. apply rd_inv in E. destruct (disks c !! dev) as [d|]; [|done]. inv_ok H. destruct r0 as [s' a']. simplify_eq. split; [|eauto].
  constructor; try done; cbn; rewrite list_fmap_insert; apply list_insert_id; by rewrite list_lookup_fmap, E.
Qed.

Lemma free_list_table c c' l : same_table c c' -> free_list c l -> free_list c' l.
Proof. intros [Ei Eh Et _ _ _ _] []. constructor; rewrite ?Ei, ?Eh, ?Et; done. Qed.

End lists.
