(* ===== verification/Icacheproc.v ===== *)
(** * Processes that share the inode cache

    Any number of processes look inodes up, lock, change and release them; a
    process gives the processor away when it finds an inode locked, while the
    inode it claimed is read, and while the last reference to an inode is
    written out. A process keeps to its rights: it unlocks and puts what it
    has locked, releases what it refers to, changes an inode it refers to but
    for the bits that lock it, and holds at most [limit] references, the bound
    of the assertion [fixed references must fit i_count]. The mount table does
    not change; an inode mounted on has a reference from it. *)
From stdpp Require Import gmap.
From S2P Require Import Prelude Fsalloc Fsmap Fstrunc Icache.

(** Where a process that slept on an inode goes on. *)
Inductive iresume := AtIget (dev : Z) (k : nat) (ino : Z) | AtIgrab (ip : nat) | AtIlock (ip : nat).
Inductive istate := IRun | IAsleep (ip : nat) (r : iresume) | IWoken (r : iresume) | IReading (ip : nat) | IReleasing (ip : nat).

(** The references and the locks of a process. *)
Record iproc := Iproc { irefs : list nat; ilocks : list nat; ist : istate }.
Record iworld (D : Type) := Iworld { core : icore D; iprocs : list iproc }.
Arguments Iworld {D} _ _.
Arguments core {D} _.
Arguments iprocs {D} _.

Inductive ievent :=
| EGet (p : nat) (dev : Z) (k : nat) (ino : Z) | EGrab (p ip : nat) | ELock (p ip : nat) | EUnlock (p ip : nat)
| EPut (p ip : nat) | ERele (p ip : nat) | EEdit (p ip : nat) (i : inode) | EGo (p : nat).

Definition ievent_proc (e : ievent) : nat :=
  match e with EGet p _ _ _ | EGrab p _ | ELock p _ | EUnlock p _ | EPut p _ | ERele p _ | EEdit p _ _ | EGo p => p end.

(** A reference given back. *)
Fixpoint rm1 (i : nat) (l : list nat) : list nat :=
  match l with [] => [] | j :: l => if decide (j = i) then l else j :: rm1 i l end.

Section procs.
Context {D : Type} {BD : BufDev D}.
Context (limit : nat).
Implicit Types (c : icore D) (w : iworld D).

Definition wake (ws : list nat) (q : iproc) : iproc :=
  match ist q with
  | IAsleep ip r => if bool_decide (ip ∈ ws) then Iproc (irefs q) (ilocks q) (IWoken r) else q
  | _ => q
  end.
Definition forget c : icore D := Icore (inodes c) (ifreeh c) (ifreet c) (nextinodeid c) (mounts c) (disks c) (u_error c) (time c) [].
Definition after w (p : nat) c (refs locks : list nat) (s : istate) : iworld D :=
  Iworld (forget c) (<[p := Iproc refs locks s]> (wake (woken c) <$> iprocs w)).

(** [iget], to the first point where it gives the processor away. *)
Definition do_get w (p : nat) (q : iproc) (dev : Z) (k : nat) (ino : Z) : outcome (iworld D) :=
  r ← iget_search NMOUNT (core w) dev k ino;
  match snd r with
  | inl (Igot ip) => Ok (after w p (fst r) (ip :: irefs q) (ip :: ilocks q) IRun)
  | inl (Isleep ip dev k ino) => Ok (after w p (fst r) (irefs q) (ilocks q) (IAsleep ip (AtIget dev k ino)))
  | inl Inone => Ok (after w p (fst r) (irefs q) (ilocks q) IRun)
  | inr (dev, k, ino) =>
      r ← iget_claim (fst r) dev k ino;
      match snd r with
      | None => Ok (after w p (fst r) (irefs q) (ilocks q) IRun)
      | Some ip => Ok (after w p (fst r) (ip :: irefs q) (ip :: ilocks q) (IReading ip))
      end
  end.
Definition do_grab w (p : nat) (q : iproc) (ip : nat) : outcome (iworld D) :=
  r ← igrab (core w) ip;
  Ok (if snd r : bool then after w p (fst r) (ip :: irefs q) (ip :: ilocks q) IRun else after w p (fst r) (irefs q) (ilocks q) (IAsleep ip (AtIgrab ip))).
Definition do_lock w (p : nat) (q : iproc) (ip : nat) : outcome (iworld D) :=
  r ← ilock (core w) ip;
  Ok (if snd r : bool then after w p (fst r) (irefs q) (ip :: ilocks q) IRun else after w p (fst r) (irefs q) (ilocks q) (IAsleep ip (AtIlock ip))).
Definition resume w (p : nat) (q : iproc) (r : iresume) : outcome (iworld D) :=
  match r with AtIget dev k ino => do_get w p q dev k ino | AtIgrab ip => do_grab w p q ip | AtIlock ip => do_lock w p q ip end.

(** [irele] of a reference, without the lock: the last one is written out
    under the lock. *)
Definition do_rele w (p : nat) (q : iproc) (c : icore D) (locks : list nat) (ip : nat) : outcome (iworld D) :=
  b ← rd (inodes c) ip;
  if i_count b =? 1 then c ← irele_first c ip; Ok (after w p c (irefs q) (ip :: locks) (IReleasing ip))
  else c ← irele c ip; Ok (after w p c (rm1 ip (irefs q)) locks IRun).

(** The rest of [iget] and of [irele] after their input and output. *)
Definition go_on w (p : nat) (q : iproc) : outcome (iworld D) :=
  match ist q with
  | IWoken r => resume w p q r
  | IReading ip =>
      r ← iget_fill (core w) ip;
      if snd r : bool then Ok (after w p (fst r) (irefs q) (ilocks q) IRun)
      else c ← iunlock (fst r) ip; do_rele w p q c (rm1 ip (ilocks q)) ip
  | IReleasing ip =>
      c ← irele_io (core w) ip; c ← irele_free c ip; c ← drop_ref c ip;
      Ok (after w p c (rm1 ip (irefs q)) (rm1 ip (ilocks q)) IRun)
  | _ => Ok w
  end.

Definition may (b : bool) w (o : outcome (iworld D)) : outcome (iworld D) := if b then o else Ok w.
Definition editable c (ip : nat) (i : inode) : bool :=
  match inodes c !! ip with
  | Some b => (i_number i =? i_num b) && (Z.land (i_flag i) 0x19 =? Z.land (i_flg b) 0x19)
  | None => false
  end.
Definition istep w (e : ievent) : outcome (iworld D) :=
  let p := ievent_proc e in
  match iprocs w !! p with
  | None => Ok w
  | Some q =>
      let c := core w in
      let room := bool_decide (length (irefs q) < limit)%nat in
      match e, ist q with
      | EGo _, _ => go_on w p q
      | EGet _ dev k ino, IRun => may room w (do_get w p q dev k ino)
      | EGrab _ ip, IRun => may (room && bool_decide (ip < length (inodes c))%nat) w (do_grab w p q ip)
      | ELock _ ip, IRun => may (bool_decide (ip ∈ irefs q)) w (do_lock w p q ip)
      | EUnlock _ ip, IRun => may (bool_decide (ip ∈ ilocks q)) w (c ← iunlock c ip; Ok (after w p c (irefs q) (rm1 ip (ilocks q)) IRun))
      | EPut _ ip, IRun => may (bool_decide (ip ∈ ilocks q)) w (c ← iunlock c ip; do_rele w p q c (rm1 ip (ilocks q)) ip)
      | ERele _ ip, IRun => may (bool_decide (ip ∈ irefs q) && bool_decide (ip ∉ ilocks q)) w (do_rele w p q c (ilocks q) ip)
      | EEdit _ ip i, IRun => may (bool_decide (ip ∈ irefs q) && editable c ip i) w (c ← change c ip (fun b => set_in b i); Ok (after w p c (irefs q) (ilocks q) IRun))
      | _, _ => Ok w
      end
  end.
Fixpoint isteps w (l : list ievent) : outcome (iworld D) :=
  match l with [] => Ok w | e :: l => w ← istep w e; isteps w l end.

(** ** The invariant *)

Definition occ (i : nat) (l : list nat) : nat := length (filter (fun j => j = i) l).
Definition all_refs w : list nat := concat (irefs <$> iprocs w).
Definition all_locks w : list nat := concat (ilocks <$> iprocs w).
Definition mounted (b : cinode) : nat := if on (i_flg b) IMOUNT then 1 else 0.

(** What a process needs to go on after its sleep. *)
Definition can_resume w (q : iproc) (r : iresume) : Prop :=
  match r with
  | AtIget _ _ _ => (length (irefs q) < limit)%nat
  | AtIgrab ip => (length (irefs q) < limit)%nat /\ is_Some (inodes (core w) !! ip)
  | AtIlock ip => ip ∈ irefs q
  end.

(** The references that processes and the mount table hold are the ones the
    inodes count; the free list holds the inodes without any; an inode is
    locked when one process has locked it, who refers to it; who sleeps on an
    inode is owed a wakeup; no two slots have one name. *)
Record iorderly w (l : list nat) : Prop := {
  io_slots : inodes (core w) <> [];
  io_free : free_list (core w) l;
  io_idle : forall i b, inodes (core w) !! i = Some b -> (i ∈ l <-> i_count b = 0);
  io_count : forall i b, inodes (core w) !! i = Some b -> i_count b = Z.of_nat (occ i (all_refs w) + mounted b);
  io_refs : forall i, i ∈ all_refs w -> is_Some (inodes (core w) !! i);
  io_limit : Forall (fun q => (length (irefs q) <= limit)%nat) (iprocs w);
  io_bound : Z.of_nat (length (iprocs w) * limit) < 65535;
  io_room : forall p q r, iprocs w !! p = Some q -> (exists ip, ist q = IAsleep ip r) \/ ist q = IWoken r -> can_resume w q r;
  io_locked : forall i b, inodes (core w) !! i = Some b -> (on (i_flg b) ILOCKED = true <-> i ∈ all_locks w);
  io_single : NoDup (all_locks w);
  io_own : forall p q, iprocs w !! p = Some q -> ilocks q ⊆ irefs q;
  io_sleep : forall p q ip r, iprocs w !! p = Some q -> ist q = IAsleep ip r ->
    exists b, inodes (core w) !! ip = Some b /\ on (i_flg b) ILOCKED = true /\ on (i_flg b) IWANT = true;
  io_busy : forall p q ip, iprocs w !! p = Some q -> ist q = IReading ip \/ ist q = IReleasing ip ->
    ip ∈ ilocks q /\ exists b, inodes (core w) !! ip = Some b /\ i_count b = 1;
  io_names : forall i j bi bj, inodes (core w) !! i = Some bi -> inodes (core w) !! j = Some bj ->
    i_num bi <> 0 -> i_num bi = i_num bj -> i_dev bi = i_dev bj -> i = j;
  io_mount : forall i b, inodes (core w) !! i = Some b -> on (i_flg b) IMOUNT = true ->
    i_num b <> ROOTINO /\ exists m, m ∈ mounts (core w) /\ m_inodp m = On i;
  io_calm : woken (core w) = []
}.

(** ** Counting references *)

Lemma occ_app i l1 l2 : occ i (l1 ++ l2) = (occ i l1 + occ i l2)%nat.
Proof. unfold occ. by rewrite filter_app, length_app. Qed.
Lemma occ_cons i j l : occ i (j :: l) = ((if decide (j = i) then 1 else 0) + occ i l)%nat.
Proof. unfold occ. rewrite filter_cons. by destruct (decide (j = i)). Qed.
Lemma occ_in i l : i ∈ l <-> (0 < occ i l)%nat.
Proof.
  induction l as [|j l IH]; [cbn; split; [set_solver|lia]|]. rewrite occ_cons, elem_of_cons. destruct (decide (j = i)); [split; [lia|by left]|].
  split; [intros [->|Hi]; [done|apply IH in Hi; lia]|intros Hi; right; apply IH; lia].
Qed.
Lemma occ_length i l : (occ i l <= length l)%nat.
Proof. apply length_filter. Qed.
Lemma occ_rm1 i j l : i ∈ l -> occ j l = ((if decide (i = j) then 1 else 0) + occ j (rm1 i l))%nat.
Proof.
  induction l as [|x l IH]; [set_solver|]. intros Hi. cbn [rm1]. rewrite occ_cons. destruct (decide (x = i)) as [->|]; [done|]. apply elem_of_cons in Hi as [|Hi]; [done|].
  rewrite occ_cons, (IH Hi). lia.
Qed.
Lemma rm1_subset i l : rm1 i l ⊆ l.
Proof. induction l as [|x l IH]; cbn; [done|]. case_decide; set_solver. Qed.
Lemma rm1_length i l : (length (rm1 i l) <= length l)%nat.
Proof. induction l as [|x l IH]; cbn; [done|]. case_decide; cbn; lia. Qed.
Lemma rm1_nodup i j l : NoDup l -> j ∈ rm1 i l <-> j ∈ l /\ j <> i.
Proof.
  induction l as [|x l IH]; cbn; [set_solver|]. intros [Hx Hn]%NoDup_cons. case_decide; [set_solver|]. rewrite !elem_of_cons, IH by done. naive_solver.
Qed.
Lemma rm1_NoDup i l : NoDup l -> NoDup (rm1 i l).
Proof.
  induction l as [|x l IH]; cbn; [done|]. intros [Hx Hn]%NoDup_cons. case_decide; [done|]. apply NoDup_cons. split; [|auto]. intros Hin. by apply rm1_subset in Hin.
Qed.

(** The references or the locks of all, with those of one set apart. *)
Lemma concat_set {A} (f : A -> list nat) (l : list A) p q : l !! p = Some q ->
  exists rest, concat (f <$> l) ≡ₚ f q ++ rest /\ (forall q', concat (f <$> <[p := q']> l) ≡ₚ f q' ++ rest) /\
    forall p' q', p' <> p -> l !! p' = Some q' -> f q' ⊆ rest.
Proof.
  intros Hp. exists (concat (f <$> take p l) ++ concat (f <$> drop (S p) l)). split; [|split].
  - pattern l at 1. rewrite <- (take_drop_middle l p q Hp). rewrite fmap_app, concat_app. cbn. by rewrite !app_assoc, (Permutation_app_comm (concat (f <$> take p l))).
  - intros q'. rewrite insert_take_drop by (by eapply lookup_lt_Some). rewrite fmap_app, concat_app. cbn. by rewrite !app_assoc, (Permutation_app_comm (concat (f <$> take p l))).
  - intros p' q' Hne Hp' i Hi. apply elem_of_app. destruct (decide (p' < p)%nat) as [Hlt|Hge]; [left|right]; (apply (concat_in _ _ (f q')); [|done]); apply list_elem_of_fmap; exists q'; (split; [done|]).
    + apply (list_elem_of_lookup_2 _ p'). by rewrite lookup_take_lt.
    + apply (list_elem_of_lookup_2 _ (p' - S p)). rewrite lookup_drop. by replace (S p + (p' - S p))%nat with p' by lia.
Qed.

Lemma wake_refs ws (l : list iproc) : irefs <$> (wake ws <$> l) = irefs <$> l.
Proof. rewrite <- list_fmap_compose. apply list_fmap_ext. intros i q _. cbn. unfold wake. destruct (ist q); try done. by case_bool_decide. Qed.
Lemma wake_locks ws (l : list iproc) : ilocks <$> (wake ws <$> l) = ilocks <$> l.
Proof. rewrite <- list_fmap_compose. apply list_fmap_ext. intros i q _. cbn. unfold wake. destruct (ist q); try done. by case_bool_decide. Qed.

Lemma occ_perm i (l l' : list nat) : l ≡ₚ l' -> occ i l = occ i l'.
Proof. intros H. unfold occ. by rewrite H. Qed.

Lemma wake_same ws q : irefs (wake ws q) = irefs q /\ ilocks (wake ws q) = ilocks q.
Proof. unfold wake. destruct (ist q); try done. by case_bool_decide. Qed.

Lemma after_refs w p q c refs locks s : iprocs w !! p = Some q ->
  exists rest, all_refs w ≡ₚ irefs q ++ rest /\ all_refs (after w p c refs locks s) ≡ₚ refs ++ rest.
Proof.
  intros Hp. unfold all_refs, after. cbn [iprocs]. rewrite <- (wake_refs (woken c)). destruct (concat_set irefs (wake (woken c) <$> iprocs w) p (wake (woken c) q)) as (rest&H1&H2&_).
  { by rewrite list_lookup_fmap, Hp. }
  exists rest. split; [|apply H2]. by rewrite H1, (proj1 (wake_same _ _)).
Qed.
Lemma after_locks w p q c refs locks s : iprocs w !! p = Some q ->
  exists rest, all_locks w ≡ₚ ilocks q ++ rest /\ all_locks (after w p c refs locks s) ≡ₚ locks ++ rest /\
    forall p' q', p' <> p -> iprocs w !! p' = Some q' -> ilocks q' ⊆ rest.
Proof.
  intros Hp. unfold all_locks, after. cbn [iprocs]. rewrite <- (wake_locks (woken c)). destruct (concat_set ilocks (wake (woken c) <$> iprocs w) p (wake (woken c) q)) as (rest&H1&H2&H3).
  { by rewrite list_lookup_fmap, Hp. }
  exists rest. split; [|split; [apply H2|]]; [by rewrite H1, (proj2 (wake_same _ _))|]. intros p' q' Hne Hq. rewrite <- (proj2 (wake_same (woken c) q')). apply (H3 p'); [done|]. by rewrite list_lookup_fmap, Hq.
Qed.

(** ** One step keeps the invariant *)

(** The table after a step that changed the slot [ip] to [b]. *)
Record stepped c c' (ip : nat) (b : cinode) : Prop := {
  sp_data : data <$> inodes c' = <[ip := data b]> (data <$> inodes c);
  sp_on : m_inodp <$> mounts c' = m_inodp <$> mounts c
}.

Lemma moved_stepped c c' ip b ws : moved c c' ip b ws -> stepped c c' ip b.
Proof. intros []. constructor; congruence. Qed.

Lemma stepped_trans c c1 c2 ip b1 b2 ws : stepped c c1 ip b1 -> moved c1 c2 ip b2 ws -> stepped c c2 ip b2.
Proof. intros [E1 M1] [E2 M2 _ _ _ _]. constructor; [by rewrite E2, E1, list_insert_insert_eq|congruence]. Qed.

Lemma stepped_lookup c c' ip b b0 j bj : stepped c c' ip b -> inodes c !! ip = Some b0 -> inodes c' !! j = Some bj ->
  if decide (j = ip) then data bj = data b else exists bj0, inodes c !! j = Some bj0 /\ data bj = data bj0.
Proof.
  intros [E _] Hb Hj. pose proof (f_equal (.!! j) E) as Ej. rewrite list_lookup_fmap, Hj in Ej. case_decide as Hd.
  - subst j. rewrite list_lookup_insert_eq in Ej by (rewrite length_fmap; by eapply lookup_lt_Some). change (Some (data bj) = Some (data b)) in Ej. congruence.
  - rewrite list_lookup_insert_ne, list_lookup_fmap in Ej by done. destruct (inodes c !! j) as [bj0|]; [|done]. exists bj0. change (Some (data bj) = Some (data bj0)) in Ej. split; congruence.
Qed.
Lemma stepped_some c c' ip b j : stepped c c' ip b -> is_Some (inodes c !! j) <-> is_Some (inodes c' !! j).
Proof.
  intros [E _]. rewrite !lookup_lt_is_Some. apply (f_equal length) in E. rewrite length_insert, !length_fmap in E. by rewrite E.
Qed.
Lemma stepped_other c c' ip b j bj : stepped c c' ip b -> j <> ip -> inodes c !! j = Some bj -> exists bj', inodes c' !! j = Some bj' /\ data bj' = data bj.
Proof.
  intros H Hj Hb. destruct (proj1 (stepped_some _ _ _ _ j H) ltac:(eauto)) as [bj' Hb']. exists bj'. split; [done|].
  destruct H as [E _]. apply (f_equal (.!! j)) in E. rewrite list_lookup_insert_ne, !list_lookup_fmap, Hb, Hb' in E by done. change (Some (data bj') = Some (data bj)) in E. congruence.
Qed.
Lemma stepped_self c c' ip b b0 : stepped c c' ip b -> inodes c !! ip = Some b0 -> exists b', inodes c' !! ip = Some b' /\ data b' = data b.
Proof.
  intros H Hb. destruct (proj1 (stepped_some _ _ _ _ ip H) ltac:(eauto)) as [b' Hb']. exists b'. split; [done|].
  pose proof (stepped_lookup _ _ _ _ _ _ _ H Hb Hb') as E. by rewrite decide_True in E.
Qed.

Lemma stepped_mount c c' ip b m i : stepped c c' ip b -> m ∈ mounts c -> m_inodp m = On i -> exists m', m' ∈ mounts c' /\ m_inodp m' = On i.
Proof.
  intros H Hin Em. assert (On i ∈ m_inodp <$> mounts c') as Hi by (rewrite (sp_on _ _ _ _ H); apply list_elem_of_fmap; eauto).
  apply list_elem_of_fmap in Hi as (m'&?&?). eauto.
Qed.

Lemma data_eq b b' : data b' = data b -> i_num b' = i_num b /\ i_flg b' = i_flg b /\ i_count b' = i_count b /\ i_dev b' = i_dev b.
Proof. unfold data. intros E. simplify_eq. split_and!; congruence. Qed.

(** What a step of [q] may do to the slot [ip] it works on. *)
Record fair (w : iworld D) (q : iproc) (ip : nat) (b b' : cinode) (ws : list nat) (l l' refs locks : list nat) : Prop := {
  fa_list : forall j, j <> ip -> j ∈ l' <-> j ∈ l;
  fa_idle : ip ∈ l' <-> i_count b' = 0;
  fa_refs : forall j, j <> ip -> occ j refs = occ j (irefs q);
  fa_count : i_count b' + Z.of_nat (occ ip (irefs q)) = i_count b + Z.of_nat (occ ip refs);
  fa_limit : (length refs <= limit)%nat;
  fa_locks : forall j, j <> ip -> j ∈ locks <-> j ∈ ilocks q;
  fa_single : NoDup locks;
  fa_locked : on (i_flg b') ILOCKED = true <-> ip ∈ locks \/ on (i_flg b) ILOCKED = true /\ ip ∉ ilocks q;
  fa_lock : ip ∈ locks -> ip ∈ ilocks q \/ on (i_flg b) ILOCKED = false;
  fa_own : ip ∈ locks -> ip ∈ refs;
  fa_want : on (i_flg b) ILOCKED = true -> on (i_flg b) IWANT = true -> ip ∈ ws \/ on (i_flg b') IWANT = true /\ on (i_flg b') ILOCKED = true;
  fa_busy : on (i_flg b) ILOCKED = true -> ip ∉ ilocks q -> i_count b = 1 -> i_count b' = 1;
  fa_name : i_num b' <> 0 -> (i_num b' = i_num b /\ i_dev b' = i_dev b) \/
    forall j bj, inodes (core w) !! j = Some bj -> ~ (i_num bj = i_num b' /\ i_dev bj = i_dev b');
  fa_mount : on (i_flg b') IMOUNT = on (i_flg b) IMOUNT;
  fa_mnum : on (i_flg b) IMOUNT = true -> i_num b' = i_num b
}.

(** What the process does next. *)
Definition next_ok (w : iworld D) (ip : nat) (b' : cinode) (refs locks : list nat) (s : istate) : Prop :=
  match s with
  | IRun => True
  | IAsleep i r => i = ip /\ on (i_flg b') ILOCKED = true /\ on (i_flg b') IWANT = true /\ can_resume w (Iproc refs locks s) r
  | IWoken r => False
  | IReading i | IReleasing i => i = ip /\ ip ∈ locks /\ i_count b' = 1
  end.

Lemma after_lookup w p c refs locks s p' q' : iprocs (after w p c refs locks s) !! p' = Some q' ->
  p' = p /\ q' = Iproc refs locks s \/ p' <> p /\ exists q0, iprocs w !! p' = Some q0 /\ q' = wake (woken c) q0.
Proof.
  cbn. destruct (decide (p' = p)) as [->|Hne].
  - intros H. left. split; [done|]. destruct (lookup_lt_is_Some_2 (wake (woken c) <$> iprocs w) p) as [x Hx]; [apply lookup_lt_Some in H; by rewrite length_insert in H|].
    rewrite list_lookup_insert_eq in H by (by eapply lookup_lt_Some). congruence.
  - rewrite list_lookup_insert_ne by done. rewrite list_lookup_fmap. destruct (iprocs w !! p') as [q0|]; [|done]. intros [= <-]. right. split; [done|]. by exists q0.
Qed.

Lemma can_resume_wake w w' q r ws : (forall j, is_Some (inodes (core w) !! j) -> is_Some (inodes (core w') !! j)) -> can_resume w q r -> can_resume w' (wake ws q) r.
Proof. intros Hs. destruct (wake_same ws q) as [E _]. unfold can_resume. rewrite E. destruct r; naive_solver. Qed.

Lemma all_refs_in w p q i : iprocs w !! p = Some q -> i ∈ irefs q -> i ∈ all_refs w.
Proof. intros Hp Hi. unfold all_refs. apply (concat_in _ _ (irefs q)); [|done]. apply list_elem_of_fmap. exists q. split; [done|]. by eapply list_elem_of_lookup_2. Qed.
Lemma all_locks_in w p q i : iprocs w !! p = Some q -> i ∈ ilocks q -> i ∈ all_locks w.
Proof. intros Hp Hi. unfold all_locks. apply (concat_in _ _ (ilocks q)); [|done]. apply list_elem_of_fmap. exists q. split; [done|]. by eapply list_elem_of_lookup_2. Qed.

Section step.
Context (w : iworld D) (l : list nat) (p : nat) (q : iproc) (c' : icore D) (ip : nat) (b b' : cinode) (l' refs locks : list nat) (s : istate).
Context (Ho : iorderly w l) (Hp : iprocs w !! p = Some q) (Hb : inodes (core w) !! ip = Some b) (St : stepped (core w) c' ip b').
Context (F : fair w q ip b b' (woken c') l l' refs locks) (Hnext : next_ok w ip b' refs locks s).
Local Abbreviation w' := (after w p c' refs locks s).

Lemma step_slot j bj : inodes c' !! j = Some bj -> if decide (j = ip) then data bj = data b' else exists bj0, inodes (core w) !! j = Some bj0 /\ data bj = data bj0.
Proof. intros Hj. by eapply stepped_lookup. Qed.

Lemma step_count j bj : inodes c' !! j = Some bj -> i_count bj = Z.of_nat (occ j (all_refs w') + mounted bj).
Proof.
  intros Hj. destruct (after_refs w p q c' refs locks s Hp) as (rr&Pr&Pr'). rewrite (occ_perm _ _ _ Pr'), occ_app. apply step_slot in Hj. unfold mounted. case_decide as Hd.
  - subst j. apply data_eq in Hj as (_&->&->&_). pose proof (io_count _ _ Ho ip b Hb) as E. rewrite (occ_perm _ _ _ Pr), occ_app in E. unfold mounted in E.
    rewrite (fa_mount _ _ _ _ _ _ _ _ _ _ F). pose proof (fa_count _ _ _ _ _ _ _ _ _ _ F). lia.
  - destruct Hj as (bj0&Hj0&E). apply data_eq in E as (_&->&->&_). rewrite (io_count _ _ Ho j bj0 Hj0), (occ_perm _ _ _ Pr), occ_app, (fa_refs _ _ _ _ _ _ _ _ _ _ F) by done. done.
Qed.

Lemma step_refs j : j ∈ all_refs w' -> is_Some (inodes c' !! j).
Proof.
  destruct (after_refs w p q c' refs locks s Hp) as (rr&Pr&->). intros Hj. apply (stepped_some _ _ _ _ j St). destruct (decide (j = ip)) as [->|Hd]; [eauto|]. apply (io_refs _ _ Ho). rewrite Pr.
  apply elem_of_app in Hj as [Hj|Hj]; apply elem_of_app; [left|by right]. rewrite occ_in in *. by rewrite <- (fa_refs _ _ _ _ _ _ _ _ _ _ F).
Qed.

Lemma step_room p' q' r : iprocs w' !! p' = Some q' -> (exists i, ist q' = IAsleep i r) \/ ist q' = IWoken r -> can_resume w' q' r.
Proof.
  intros Hq Hst. apply after_lookup in Hq as [[-> ->]|(Hne&q0&Hq0&->)].
  - destruct Hst as [[i Ei]|Ei]; cbn in Ei; rewrite Ei in Hnext; cbn in Hnext; [|done]. destruct Hnext as (_&_&_&Hr). destruct r; cbn in *; try done. split; [easy|]. apply (stepped_some _ _ _ _ _ St). easy.
  - apply (can_resume_wake w); [intros j; apply (stepped_some _ _ _ _ _ St)|]. apply (io_room _ _ Ho p'); [done|]. unfold wake in Hst. destruct (ist q0) as [|i r0|r0|i|i] eqn:Eq; rewrite ?Eq in Hst; try (by right); [naive_solver| |naive_solver..].
    case_bool_decide; cbn in Hst; rewrite ?Eq in Hst; naive_solver.
Qed.

Lemma step_locked j bj : inodes c' !! j = Some bj -> on (i_flg bj) ILOCKED = true <-> j ∈ all_locks w'.
Proof.
  destruct (after_locks w p q c' refs locks s Hp) as (rl&Pl&->&_). rewrite elem_of_app. intros Hj. apply step_slot in Hj. case_decide as Hd.
  - subst j. apply data_eq in Hj as (_&->&_&_). rewrite (fa_locked _ _ _ _ _ _ _ _ _ _ F), (io_locked _ _ Ho ip b Hb), Pl, elem_of_app. pose proof (io_single _ _ Ho) as Os. rewrite Pl in Os. apply NoDup_app in Os as (_&Hx&_).
    split; [naive_solver|]. intros [H|H]; [by left|]. right. split; [by right|]. intros H'. by apply (Hx ip).
  - destruct Hj as (bj0&Hj0&E). apply data_eq in E as (_&->&_&_). rewrite (io_locked _ _ Ho j bj0 Hj0), Pl, elem_of_app, (fa_locks _ _ _ _ _ _ _ _ _ _ F) by done. done.
Qed.

Lemma step_single : NoDup (all_locks w').
Proof.
  destruct (after_locks w p q c' refs locks s Hp) as (rl&Pl&->&_). pose proof (io_single _ _ Ho) as Os. rewrite Pl in Os. apply NoDup_app in Os as (_&Hx&Hn). apply NoDup_app. split; [apply F|]. split; [|done].
  intros j Hj Hj'. destruct (decide (j = ip)) as [->|Hd]; [|apply (Hx j); [by apply (fa_locks _ _ _ _ _ _ _ _ _ _ F)|done]].
  destruct (fa_lock _ _ _ _ _ _ _ _ _ _ F Hj) as [Hl|Hl]; [by apply (Hx ip)|]. assert (on (i_flg b) ILOCKED = true); [|congruence]. apply (io_locked _ _ Ho ip b Hb). rewrite Pl. set_solver.
Qed.

Lemma step_own p' q' : iprocs w' !! p' = Some q' -> ilocks q' ⊆ irefs q'.
Proof.
  intros Hq. apply after_lookup in Hq as [[-> ->]|(Hne&q0&Hq0&->)]; cbn [ilocks irefs].
  - intros j Hj. destruct (decide (j = ip)) as [->|Hd]; [by apply F|]. rewrite (fa_locks _ _ _ _ _ _ _ _ _ _ F) in Hj by done. apply (io_own _ _ Ho p q Hp) in Hj. rewrite occ_in in *. by rewrite (fa_refs _ _ _ _ _ _ _ _ _ _ F).
  - destruct (wake_same (woken c') q0) as [-> ->]. by apply (io_own _ _ Ho p').
Qed.

Lemma step_sleep p' q' i r : iprocs w' !! p' = Some q' -> ist q' = IAsleep i r -> exists bi, inodes c' !! i = Some bi /\ on (i_flg bi) ILOCKED = true /\ on (i_flg bi) IWANT = true.
Proof.
  destruct (stepped_self _ _ _ _ _ St Hb) as (b2&Hb2&E). apply data_eq in E as (_&Ef&_&_). intros Hq Hst. apply after_lookup in Hq as [[-> ->]|(Hne&q0&Hq0&->)].
  - cbn in Hst. rewrite Hst in Hnext. destruct Hnext as (->&Hl&Hw&_). exists b2. by rewrite Ef.
  - unfold wake in Hst. destruct (ist q0) as [|i0 r0|r0|i0|i0] eqn:Eq; try congruence. case_bool_decide as Hin; [done|]. rewrite Eq in Hst. injection Hst as -> ->.
    destruct (io_sleep _ _ Ho p' q0 i r Hq0 Eq) as (bi&Hbi&Hl&Hw). destruct (decide (i = ip)) as [->|Hd].
    + rewrite Hb in Hbi. injection Hbi as <-. destruct (fa_want _ _ _ _ _ _ _ _ _ _ F Hl Hw) as [|[Hw' Hl']]; [done|]. exists b2. by rewrite Ef.
    + destruct (stepped_other _ _ _ _ _ _ St Hd Hbi) as (b3&Hb3&E). apply data_eq in E as (_&Ef3&_&_). exists b3. by rewrite Ef3.
Qed.

Lemma step_busy p' q' i : iprocs w' !! p' = Some q' -> ist q' = IReading i \/ ist q' = IReleasing i -> i ∈ ilocks q' /\ exists bi, inodes c' !! i = Some bi /\ i_count bi = 1.
Proof.
  destruct (stepped_self _ _ _ _ _ St Hb) as (b2&Hb2&E). apply data_eq in E as (_&_&Ec&_). intros Hq Hst. apply after_lookup in Hq as [[-> ->]|(Hne&q0&Hq0&->)].
  - cbn [ist ilocks] in *. destruct Hst as [E|E]; rewrite E in Hnext; destruct Hnext as (->&H1&H2); (split; [done|]; exists b2; split; [done|congruence]).
  - assert (ist q0 = IReading i \/ ist q0 = IReleasing i) as Hst0.
    { unfold wake in Hst. destruct (ist q0) as [|i0 r0|r0|i0|i0] eqn:Eq; rewrite ?Eq in Hst; try done. case_bool_decide; cbn in Hst; rewrite ?Eq in Hst; naive_solver. }
    rewrite (proj2 (wake_same _ _)). destruct (io_busy _ _ Ho p' q0 i Hq0 Hst0) as (Hl&bi&Hbi&Hc). split; [done|]. destruct (decide (i = ip)) as [->|Hd].
    + rewrite Hb in Hbi. injection Hbi as <-. exists b2. split; [done|]. rewrite Ec. apply (fa_busy _ _ _ _ _ _ _ _ _ _ F); [apply (io_locked _ _ Ho ip b Hb); by eapply all_locks_in| |done].
      intros Hin. destruct (after_locks w p q c' refs locks s Hp) as (rl&Pl&_&Hrl). pose proof (io_single _ _ Ho) as Os. rewrite Pl in Os. apply NoDup_app in Os as (_&Hx&_). apply (Hx ip Hin). by apply (Hrl p' q0).
    + destruct (stepped_other _ _ _ _ _ _ St Hd Hbi) as (b3&Hb3&E). apply data_eq in E as (_&_&Ec3&_). exists b3. split; [done|congruence].
Qed.

Lemma step_fresh i bi : inodes c' !! i = Some bi -> i <> ip -> i_num bi <> 0 -> ~ (i_num bi = i_num b' /\ i_dev bi = i_dev b').
Proof.
  intros Hi Hd Hz [E1 E2]. apply step_slot in Hi. rewrite decide_False in Hi by done. destruct Hi as (b0&H0&E). apply data_eq in E as (Ea&_&_&Eb).
  destruct (fa_name _ _ _ _ _ _ _ _ _ _ F) as [[F1' F2']|Fn]; [congruence| |apply (Fn i b0); [done|split; congruence]]. apply Hd, (io_names _ _ Ho i ip b0 b); congruence.
Qed.

Lemma step_names i j bi bj : inodes c' !! i = Some bi -> inodes c' !! j = Some bj -> i_num bi <> 0 -> i_num bi = i_num bj -> i_dev bi = i_dev bj -> i = j.
Proof.
  intros Hi Hj Hz E1 E2. pose proof (step_slot i bi Hi) as Hi'. pose proof (step_slot j bj Hj) as Hj'. destruct (decide (i = ip)) as [->|Hdi], (decide (j = ip)) as [->|Hdj]; try done.
  - exfalso. apply data_eq in Hi' as (Ea&_&_&Eb). apply (step_fresh j bj); congruence || (split; congruence).
  - exfalso. apply data_eq in Hj' as (Ea&_&_&Eb). apply (step_fresh i bi); congruence || (split; congruence).
  - destruct Hi' as (bi0&Hi0&Ei), Hj' as (bj0&Hj0&Ej). apply data_eq in Ei as (?&_&_&?), Ej as (?&_&_&?). apply (io_names _ _ Ho i j bi0 bj0); congruence.
Qed.

Lemma step_mount i bi : inodes c' !! i = Some bi -> on (i_flg bi) IMOUNT = true -> i_num bi <> ROOTINO /\ exists m, m ∈ mounts c' /\ m_inodp m = On i.
Proof.
  intros Hi Hm. apply step_slot in Hi. case_decide as Hd.
  - subst i. apply data_eq in Hi as (En&Ef&_&_). rewrite Ef, (fa_mount _ _ _ _ _ _ _ _ _ _ F) in Hm. destruct (io_mount _ _ Ho ip b Hb Hm) as (H1&m&H2&H3). rewrite En, (fa_mnum _ _ _ _ _ _ _ _ _ _ F) by done.
    split; [done|]. by eapply stepped_mount.
  - destruct Hi as (bi0&Hi0&E). apply data_eq in E as (En&Ef&_&_). rewrite Ef in Hm. destruct (io_mount _ _ Ho i bi0 Hi0 Hm) as (H1&m&H2&H3). rewrite En. split; [done|]. by eapply stepped_mount.
Qed.

Lemma step_idle i bi : inodes c' !! i = Some bi -> i ∈ l' <-> i_count bi = 0.
Proof.
  intros Hi. apply step_slot in Hi. case_decide as Hd.
  - subst i. apply data_eq in Hi as (_&_&->&_). apply F.
  - destruct Hi as (bj0&Hj0&E). apply data_eq in E as (_&_&->&_). rewrite (fa_list _ _ _ _ _ _ _ _ _ _ F) by done. by apply (io_idle _ _ Ho).
Qed.

Lemma step_orderly : free_list c' l' -> iorderly w' l'.
Proof.
  intros Hf. constructor; [..|done].
  - intros E. destruct (stepped_self _ _ _ _ _ St Hb) as (b2&Hb2&_). cbn in E. by rewrite E in Hb2.
  - by destruct Hf.
  - exact step_idle.
  - exact step_count.
  - exact step_refs.
  - rewrite Forall_lookup. intros p' q' Hq. apply after_lookup in Hq as [[-> ->]|(Hne&q0&Hq0&->)]; [apply F|]. rewrite (proj1 (wake_same _ _)). pose proof (io_limit _ _ Ho) as Hl. rewrite Forall_lookup in Hl. eauto.
  - unfold after. cbn [iprocs]. rewrite length_insert, length_fmap. apply Ho.
  - exact step_room.
  - exact step_locked.
  - exact step_single.
  - exact step_own.
  - exact step_sleep.
  - exact step_busy.
  - exact step_names.
  - exact step_mount.
Qed.

End step.

Lemma after_orderly w l p q c' ip b b' l' refs locks s : iorderly w l -> iprocs w !! p = Some q -> inodes (core w) !! ip = Some b ->
  stepped (core w) c' ip b' -> free_list c' l' -> fair w q ip b b' (woken c') l l' refs locks -> next_ok w ip b' refs locks s -> iorderly (after w p c' refs locks s) l'.
Proof. intros Ho Hp Hb St Hf F Hn. exact (step_orderly w l p q c' ip b b' l' refs locks s Ho Hp Hb St F Hn Hf). Qed.

(** ** The operations *)

Lemma ifind_some c dev ino ip : ifind c dev ino = Some ip -> exists b, inodes c !! ip = Some b /\ i_num b = ino /\ i_dev b = dev.
Proof.
  unfold ifind. destruct (list_find _ _) as [[j b]|] eqn:E; [|done]. intros [= ->]. apply list_find_Some in E as (Hb&Hn&_). exists b. split; [done|].
  unfold names in Hn. apply andb_true_iff in Hn as [H1%Z.eqb_eq H2%Z.eqb_eq]. done.
Qed.
Lemma ifind_none c dev ino j b : ifind c dev ino = None -> inodes c !! j = Some b -> ~ (i_num b = ino /\ i_dev b = dev).
Proof.
  unfold ifind. destruct (list_find _ _) as [|] eqn:E; [done|]. intros _ Hb [E1 E2]. apply list_find_None in E. rewrite Forall_lookup in E. apply (E j b Hb).
  unfold names. by rewrite E1, E2, !Z.eqb_refl.
Qed.

Lemma find_mount_some l ip : (exists m, m ∈ l /\ m_inodp m = On ip) -> exists j m, find_mount l ip = Some (j, m).
Proof.
  intros (m&Hm&Em). unfold find_mount. destruct (list_find _ l) as [[j m']|] eqn:E; [eauto|]. apply list_find_None in E. rewrite Forall_forall in E. exfalso. by apply (E m).
Qed.

(** What [iget] found in core. *)
Inductive searched c : icore D * (igot + Z * nat * Z) -> Prop :=
| s_got ip b c' : inodes c !! ip = Some b -> on (i_flg b) ILOCKED = false -> on (i_flg b) IMOUNT = false -> take_ref c ip = Ok c' -> searched c (c', inl (Igot ip))
| s_sleep ip b dev k ino : inodes c !! ip = Some b -> on (i_flg b) ILOCKED = true ->
    searched c (put_slot c ip (set_flg b (Z.lor (i_flg b) IWANT)), inl (Isleep ip dev k ino))
| s_miss dev k ino : ifind c dev ino = None -> searched c (c, inr (dev, k, ino)).

(** No root is mounted on, so one crossing is enough. *)
Lemma iget_search_ok n w l dev k ino : iorderly w l -> exists r, iget_search (S n) (core w) dev k ino = Ok r /\ searched (core w) r.
Proof.
  intros Ho. assert (forall m dev k ino, (m = 0%nat -> ino = ROOTINO) -> exists r, iget_search m (core w) dev k ino = Ok r /\ searched (core w) r) as H; [|apply H; lia].
  clear dev k ino. intros m. induction m as [|m IH]; intros dev k ino Hm; cbn [iget_search]; (destruct (ifind (core w) dev ino) as [ip|] eqn:E; [|eexists; split; [done|by apply s_miss]]);
    destruct (ifind_some _ _ _ _ E) as (b&Hb&En&_); rewrite (rd_ok _ _ _ Hb); cbn [mbind outcome_bind];
    (destruct (on (i_flg b) ILOCKED) eqn:El; [eexists; split; [done|by eapply s_sleep]|]);
    (destruct (on (i_flg b) IMOUNT) eqn:Em; [destruct (io_mount _ _ Ho ip b Hb Em) as (Hroot&Hex); destruct (find_mount_some _ _ Hex) as (j&mt&->)|
      destruct (take_ref_ok (core w) l ip b (io_free _ _ Ho) Hb (io_idle _ _ Ho _ _ Hb)) as (c'&E'&_); rewrite E'; eexists; split; [done|by eapply s_got]]).
  - rewrite En in Hroot. by specialize (Hm eq_refl).
  - apply IH. done.
Qed.

Lemma refs_length (qs : list iproc) : Forall (fun q => (length (irefs q) <= limit)%nat) qs -> (length (concat (irefs <$> qs)) <= length qs * limit)%nat.
Proof. induction 1 as [|x qs Hx Hl IH]; cbn; [done|]. rewrite length_app. lia. Qed.

Lemma all_refs_length w p q : Forall (fun q => (length (irefs q) <= limit)%nat) (iprocs w) -> iprocs w !! p = Some q ->
  (length (all_refs w) + limit <= length (iprocs w) * limit + length (irefs q))%nat.
Proof.
  unfold all_refs. generalize (iprocs w). intros qs Hl. revert p. induction Hl as [|x qs Hx Hl IH]; intros p Hp; [done|]. cbn. rewrite length_app. destruct p as [|p]; cbn in Hp.
  - simplify_eq. pose proof (refs_length qs Hl). lia.
  - specialize (IH p Hp). lia.
Qed.

(** A count that can be stepped. *)
Lemma count_room w l p q ip b : iorderly w l -> iprocs w !! p = Some q -> inodes (core w) !! ip = Some b -> (length (irefs q) < limit)%nat ->
  u16 (i_count b + 1) = i_count b + 1.
Proof.
  intros Ho Hp Hb Hr. apply trunc_small. rewrite (io_count _ _ Ho ip b Hb). pose proof (occ_length ip (all_refs w)). pose proof (all_refs_length w p q (io_limit _ _ Ho) Hp).
  pose proof (io_bound _ _ Ho). unfold mounted. destruct (on _ _); lia.
Qed.
Lemma count_less w l ip b : iorderly w l -> inodes (core w) !! ip = Some b -> ip ∈ all_refs w -> u16 (i_count b - 1) = i_count b - 1.
Proof.
  intros Ho Hb Hi. apply trunc_small. rewrite (io_count _ _ Ho ip b Hb). apply occ_in in Hi. pose proof (occ_length ip (all_refs w)). pose proof (io_bound _ _ Ho).
  pose proof (refs_length _ (io_limit _ _ Ho)) as Hl. fold (all_refs w) in Hl.
  unfold mounted. destruct (on _ _); lia.
Qed.

Lemma others_in ip (l : list nat) j : j ∈ others ip l <-> j ∈ l /\ j <> ip.
Proof. rewrite list_elem_of_filter. tauto. Qed.

Lemma own_nodup w l p q : iorderly w l -> iprocs w !! p = Some q -> NoDup (ilocks q).
Proof. intros Ho Hp. destruct (concat_set ilocks (iprocs w) p q Hp) as (rest&P&_). pose proof (io_single _ _ Ho) as Hn. unfold all_locks in Hn. rewrite P in Hn. by apply NoDup_app in Hn as [? _]. Qed.
Lemma own_locked w l p q ip b : iorderly w l -> iprocs w !! p = Some q -> inodes (core w) !! ip = Some b -> on (i_flg b) ILOCKED = false -> ip ∉ ilocks q.
Proof. intros Ho Hp Hb Hf Hi. apply (all_locks_in w p q) in Hi; [|done]. apply (io_locked _ _ Ho ip b Hb) in Hi. congruence. Qed.

Lemma occ_other i j l : j <> i -> occ j (i :: l) = occ j l.
Proof. intros H. rewrite occ_cons, decide_False by congruence. done. Qed.
Lemma occ_self i l : occ i (i :: l) = S (occ i l).
Proof. by rewrite occ_cons, decide_True. Qed.

(** A reference and the lock of an inode nobody has locked. *)
Lemma fair_got w l p q ip b b' ws : iorderly w l -> iprocs w !! p = Some q -> inodes (core w) !! ip = Some b -> (length (irefs q) < limit)%nat ->
  on (i_flg b) ILOCKED = false -> i_count b' = i_count b + 1 -> on (i_flg b') ILOCKED = true ->
  on (i_flg b') IMOUNT = on (i_flg b) IMOUNT -> (on (i_flg b) IMOUNT = true -> i_num b' = i_num b) ->
  (i_num b' <> 0 -> (i_num b' = i_num b /\ i_dev b' = i_dev b) \/ forall j bj, inodes (core w) !! j = Some bj -> ~ (i_num bj = i_num b' /\ i_dev bj = i_dev b')) ->
  fair w q ip b b' ws l (others ip l) (ip :: irefs q) (ip :: ilocks q).
Proof.
  intros Ho Hp Hb Hr Hf Hc Hl Hm Hn Hnm. pose proof (own_locked _ _ _ _ _ _ Ho Hp Hb Hf) as Hnl. constructor; try done.
  - intros j Hj. rewrite others_in. tauto.
  - rewrite others_in, Hc. pose proof (io_count _ _ Ho ip b Hb). split; [tauto|intros; exfalso; lia].
  - intros j Hj. by apply occ_other.
  - rewrite Hc, occ_self. lia.
  - intros j Hj. set_solver.
  - apply NoDup_cons. split; [done|]. by eapply own_nodup.
  - rewrite Hl. set_solver.
  - intros _. by right.
  - set_solver.
  - intros H. congruence.
  - intros H. congruence.
Qed.

(** The name stays, or is lost to the inode 0, unless it is mounted on. *)
Definition renamed (b b' : cinode) : Prop := (i_num b' <> 0 -> i_num b' = i_num b /\ i_dev b' = i_dev b) /\ (on (i_flg b) IMOUNT = true -> i_num b' = i_num b).
Lemma renamed_same b b' : i_num b' = i_num b -> i_dev b' = i_dev b -> renamed b b'.
Proof. by intros H1 H2. Qed.

(** The references and the free list stay; the lock may change hands. *)
Lemma fair_flag w l p q ip b b' ws locks : iorderly w l -> iprocs w !! p = Some q -> inodes (core w) !! ip = Some b ->
  i_count b' = i_count b -> renamed b b' -> on (i_flg b') IMOUNT = on (i_flg b) IMOUNT ->
  (forall j, j <> ip -> j ∈ locks <-> j ∈ ilocks q) -> NoDup locks ->
  (on (i_flg b') ILOCKED = true <-> ip ∈ locks \/ on (i_flg b) ILOCKED = true /\ ip ∉ ilocks q) ->
  (ip ∈ locks -> ip ∈ ilocks q \/ on (i_flg b) ILOCKED = false) -> (ip ∈ locks -> ip ∈ irefs q) ->
  (on (i_flg b) ILOCKED = true -> on (i_flg b) IWANT = true -> ip ∈ ws \/ on (i_flg b') IWANT = true /\ on (i_flg b') ILOCKED = true) ->
  fair w q ip b b' ws l l (irefs q) locks.
Proof.
  intros Ho Hp Hb Hc [Hn Hd] Hm H1 H2 H3 H4 H5 H6. constructor; try done.
  - rewrite Hc. by apply (io_idle _ _ Ho).
  - lia.
  - pose proof (io_limit _ _ Ho) as Hl. rewrite Forall_lookup in Hl. eauto.
  - intros _ _ E. congruence.
  - left. auto.
Qed.

(** The lock stays where it is. *)
Lemma fair_keep w l p q ip b b' ws : iorderly w l -> iprocs w !! p = Some q -> inodes (core w) !! ip = Some b ->
  i_count b' = i_count b -> renamed b b' -> on (i_flg b') IMOUNT = on (i_flg b) IMOUNT ->
  on (i_flg b') ILOCKED = on (i_flg b) ILOCKED -> (on (i_flg b) IWANT = true -> on (i_flg b') IWANT = true) -> fair w q ip b b' ws l l (irefs q) (ilocks q).
Proof.
  intros Ho Hp Hb Hc Hn Hm Hl Hw. assert (ip ∈ ilocks q -> on (i_flg b) ILOCKED = true) as Hk.
  { intros Hi. apply (io_locked _ _ Ho ip b Hb). by eapply all_locks_in. }
  apply (fair_flag w l p); try done; [by eapply own_nodup| |by left|by apply (io_own _ _ Ho p q)|].
  - rewrite Hl. destruct (decide (ip ∈ ilocks q)); naive_solver.
  - rewrite Hl. naive_solver.
Qed.

Lemma concat_out {A} (x : A) (ls : list (list A)) : x ∈ concat ls -> exists l, l ∈ ls /\ x ∈ l.
Proof. induction ls as [|l ls IH]; cbn; [set_solver|]. intros [H|(l'&?&?)%IH]%elem_of_app; [exists l|exists l']; set_solver. Qed.

Lemma all_locks_out w ip : ip ∈ all_locks w -> exists p q, iprocs w !! p = Some q /\ ip ∈ ilocks q.
Proof.
  unfold all_locks. intros (ls&Hin&Hi)%concat_out.
  apply list_elem_of_fmap in Hin as (q&->&[p Hp]%list_elem_of_lookup). eauto.
Qed.

(** Who locked an inode is another holder of it than a process that did not. *)
Lemma two_refs w l p q ip b : iorderly w l -> iprocs w !! p = Some q -> inodes (core w) !! ip = Some b -> ip ∈ irefs q -> on (i_flg b) ILOCKED = true -> ip ∉ ilocks q -> 2 <= i_count b.
Proof.
  intros Ho Hp Hb Hr Hl Hn. apply (io_locked _ _ Ho ip b Hb), all_locks_out in Hl as (p'&q'&Hp'&Hi). assert (p' <> p) as Hne by (intros ->; congruence).
  destruct (concat_set irefs (iprocs w) p q Hp) as (rest&P&_&Hrest). rewrite (io_count _ _ Ho ip b Hb). unfold all_refs. rewrite (occ_perm _ _ _ P), occ_app.
  apply occ_in in Hr. assert (ip ∈ rest) as Hin%occ_in by (apply (Hrest p' q'); [done..|]; by apply (io_own _ _ Ho p' q')). lia.
Qed.

(** A reference less. *)
Lemma fair_drop w l p q ip b b' ws l' locks : iorderly w l -> iprocs w !! p = Some q -> inodes (core w) !! ip = Some b -> ip ∈ irefs q ->
  i_count b' = i_count b - 1 -> renamed b b' -> on (i_flg b') IMOUNT = on (i_flg b) IMOUNT ->
  (forall j, j <> ip -> j ∈ l' <-> j ∈ l) -> (ip ∈ l' <-> i_count b' = 0) ->
  (forall j, j <> ip -> j ∈ locks <-> j ∈ ilocks q) -> NoDup locks -> ip ∉ locks ->
  (on (i_flg b') ILOCKED = true <-> on (i_flg b) ILOCKED = true /\ ip ∉ ilocks q) ->
  (on (i_flg b) ILOCKED = true -> on (i_flg b) IWANT = true -> ip ∈ ws \/ on (i_flg b') IWANT = true /\ on (i_flg b') ILOCKED = true) ->
  fair w q ip b b' ws l l' (rm1 ip (irefs q)) locks.
Proof.
  intros Ho Hp Hb Hr Hc [Hn Hd] Hm Hl1 Hl2 H1 H2 H3 H4 H5. constructor; try done.
  - intros j Hj. rewrite (occ_rm1 ip j (irefs q) Hr). by rewrite decide_False by congruence.
  - rewrite Hc, (occ_rm1 ip ip (irefs q) Hr), decide_True by done. lia.
  - pose proof (io_limit _ _ Ho) as Hl. rewrite Forall_lookup in Hl. specialize (Hl _ _ Hp). cbn in Hl. pose proof (rm1_length ip (irefs q)). lia.
  - rewrite H4. naive_solver.
  - intros Hf Hnl Hc1. exfalso. pose proof (two_refs w l p q ip b Ho Hp Hb Hr Hf Hnl). lia.
  - left. auto.
Qed.

Lemma on_unlocked f : on (unlocked f) ILOCKED = false /\ on (unlocked f) IWANT = false /\ on (unlocked f) IMOUNT = on f IMOUNT.
Proof.
  unfold unlocked. cbv zeta. destruct (on (Z.land f (Z.lnot ILOCKED)) IWANT) eqn:E; cbv iota; [|split; [|split; [exact E|]]; by flags].
  split; [|split]; rewrite !on_and_not; [apply (on_0_r f)|apply (on_0_r f)|reflexivity].
Qed.

Lemma itimes_kept now ip : kept ip (itimes now ip).
Proof.
  unfold itimes. destruct (on _ _); [|done]. split; [done|]. cbn. rewrite <- Z.ldiff_land. rewrite kept_diff by done. by apply kept_or.
Qed.

Lemma kept_bits i i' : kept i i' -> on (i_flag i') ILOCKED = on (i_flag i) ILOCKED /\ on (i_flag i') IWANT = on (i_flag i) IWANT /\ on (i_flag i') IMOUNT = on (i_flag i) IMOUNT.
Proof. intros H. split; [|split]; by apply kept_on. Qed.

Lemma drop_ref_moved c ip b : inodes c !! ip = Some b -> exists c', drop_ref c ip = Ok c' /\ moved c c' ip (set_count b (u16 (i_count b - 1))) (woken c) /\ (forall l, ip ∉ l -> free_list c l -> free_list c' l).
Proof.
  intros Hb. unfold drop_ref. rewrite (change_ok _ _ _ _ Hb). eexists. split; [done|]. split; [apply moved_put|]. intros l Hi Hf. by apply free_list_off.
Qed.

(** [irele] of a reference that is not the last. *)
Lemma irele_shared c ip b l : inodes c !! ip = Some b -> i_count b <> 1 -> free_list c l -> ip ∉ l ->
  exists c' i', irele c ip = Ok c' /\ kept (i_in b) i' /\ moved c c' ip (set_count (set_in b i') (u16 (i_count b - 1))) (woken c) /\ free_list c' l.
Proof.
  intros Hb Hc Hfl Hi. unfold irele. rewrite (rd_ok _ _ _ Hb). cbn [mbind outcome_bind]. rewrite (proj2 (Z.eqb_neq _ _) Hc). destruct (on (i_flg b) ILOCKED).
  - cbn [mbind outcome_bind]. destruct (drop_ref_moved c ip b Hb) as (c2&->&M&F2). exists c2, (i_in b). split; [done|]. split; [done|]. split; [by destruct b|by apply F2].
  - rewrite (change_ok _ _ _ _ Hb). cbn [mbind outcome_bind]. set (c1 := put_slot c ip _).
    destruct (drop_ref_moved c1 ip (set_in b (itimes (time c) (i_in b)))) as (c2&->&M&F2); [apply list_lookup_insert_eq; by eapply lookup_lt_Some|].
    exists c2, (itimes (time c) (i_in b)). split; [done|]. split; [apply itimes_kept|]. split; [|apply F2; [done|by apply free_list_off]].
    eapply moved_trans; [|exact M]. apply moved_put.
Qed.

Lemma do_rele_ok w l p q ip b c b1 locks : iorderly w l -> iprocs w !! p = Some q -> inodes (core w) !! ip = Some b -> ip ∈ irefs q ->
  stepped (core w) c ip b1 -> inodes c !! ip = Some b1 -> free_list c l ->
  i_count b1 = i_count b -> renamed b b1 -> on (i_flg b1) IMOUNT = on (i_flg b) IMOUNT ->
  (forall j, j <> ip -> j ∈ locks <-> j ∈ ilocks q) -> NoDup locks -> ip ∉ locks ->
  (on (i_flg b1) ILOCKED = true <-> on (i_flg b) ILOCKED = true /\ ip ∉ ilocks q) ->
  (on (i_flg b) ILOCKED = true -> on (i_flg b) IWANT = true -> ip ∈ woken c \/ on (i_flg b1) IWANT = true /\ on (i_flg b1) ILOCKED = true) ->
  exists w' l', do_rele w p q c locks ip = Ok w' /\ iorderly w' l'.
Proof.
  intros Ho Hp Hb Hr M Hb1 Hf Hc Hn Hm H1 H2 H3 H4 H5. unfold do_rele. rewrite (rd_ok _ _ _ Hb1). cbn [mbind outcome_bind].
  assert (ip ∈ all_refs w) as Hin by (by eapply all_refs_in). pose proof (io_count _ _ Ho ip b Hb) as Hcnt. apply occ_in in Hin as Hocc.
  assert (ip ∉ l) as Hil by (rewrite (io_idle _ _ Ho ip b Hb); lia). destruct (Z.eqb_spec (i_count b1) 1) as [E|E].
  - assert (on (i_flg b) ILOCKED = true -> ip ∈ ilocks q) as Hown.
    { intros Hl. destruct (decide (ip ∈ ilocks q)) as [|Hq]; [done|]. pose proof (two_refs w l p q ip b Ho Hp Hb Hr Hl Hq). lia. }
    unfold irele_first. rewrite (change_ok _ _ _ _ Hb1). cbn [mbind outcome_bind]. eexists _, l. split; [done|].
    assert (on (Z.lor (i_flg b1) ILOCKED) IMOUNT = on (i_flg b) IMOUNT) as Hm' by (rewrite <- Hm; by flags).
    apply (after_orderly w l p q _ ip b (set_flg b1 (Z.lor (i_flg b1) ILOCKED))); try done.
    + eapply stepped_trans; [exact M|]. apply moved_put.
    + by apply free_list_off.
    + apply (fair_flag w l p); try done.
      * intros j Hj. rewrite elem_of_cons. rewrite <- H1 by done. tauto.
      * by apply NoDup_cons.
      * cbn. split; [set_solver|]. intros _. by flags.
      * intros _. destruct (on (i_flg b) ILOCKED) eqn:El; [left; auto|by right].
      * intros Hl Hw. destruct (H5 Hl Hw) as [|[_ Hl1]]; [by left|]. apply H4 in Hl1 as [_ ?]. naive_solver.
    + cbn. split; [done|]. split; [set_solver|done].
  - destruct (irele_shared c ip b1 l Hb1 E Hf Hil) as (c2&i'&->&K&M2&Hf2). cbn [mbind outcome_bind]. eexists _, l. split; [done|]. pose proof (kept_bits _ _ K) as (K1&K2&K3).
    eapply (after_orderly w l p q _ ip b); [done..| |exact Hf2| |done].
    + eapply stepped_trans; [exact M|exact M2].
    + rewrite (mv_woken _ _ _ _ _ M2). destruct K as [Kn _]. eapply fair_drop; try done; cbn; rewrite ?K1, ?K2, ?K3; try done.
      * rewrite Hc. by eapply count_less.
      * unfold renamed in *. cbn. by rewrite Kn.
      * rewrite Hc, (count_less w l ip b) by done. rewrite (io_idle _ _ Ho ip b Hb). lia.
Qed.

Lemma free_list_same c l ip b b' : inodes c !! ip = Some b -> i_un3 b' = i_un3 b -> i_freeb b' = i_freeb b -> free_list c l -> free_list (put_slot c ip b') l.
Proof. intros Hb Hu Hf [Hh Ht Hl Hn]. constructor; cbn; [done..|by eapply linked_on|done]. Qed.

Lemma locked_refs w l ip b : iorderly w l -> inodes (core w) !! ip = Some b -> on (i_flg b) ILOCKED = true -> ip ∈ all_refs w.
Proof.
  intros Ho Hb Hl. apply (io_locked _ _ Ho ip b Hb), all_locks_out in Hl as (p&q&Hp&Hq). eapply all_refs_in; [exact Hp|]. by apply (io_own _ _ Ho p q).
Qed.
Lemma idle_flags w l ip b : iorderly w l -> inodes (core w) !! ip = Some b -> i_count b = 0 -> on (i_flg b) ILOCKED = false /\ on (i_flg b) IMOUNT = false.
Proof.
  intros Ho Hb Hc. pose proof (io_count _ _ Ho ip b Hb) as Hn. split.
  - destruct (on (i_flg b) ILOCKED) eqn:E; [|done]. eapply locked_refs, occ_in in E; [|done..]. lia.
  - unfold mounted in Hn. destruct (on (i_flg b) IMOUNT); [lia|done].
Qed.

(** A step that leaves the table alone. *)
Lemma still_orderly w l p q c' : iorderly w l -> iprocs w !! p = Some q -> inodes c' = inodes (core w) -> mounts c' = mounts (core w) -> free_list c' l ->
  iorderly (after w p c' (irefs q) (ilocks q) IRun) l.
Proof.
  intros Ho Hp Ei Em Hf. destruct (lookup_lt_is_Some_2 (inodes (core w)) 0) as [b Hb].
  { pose proof (io_slots _ _ Ho). destruct (inodes (core w)); [done|cbn; lia]. }
  apply (after_orderly w l p q c' 0 b b); try done.
  - constructor; [|by rewrite Em]. rewrite Ei. symmetry. apply list_insert_id. by rewrite list_lookup_fmap, Hb.
  - by apply (fair_keep w l p).
Qed.

(** A process that finds the inode locked sleeps on it. *)
Lemma sleep_orderly w l p q ip b r : iorderly w l -> iprocs w !! p = Some q -> inodes (core w) !! ip = Some b -> on (i_flg b) ILOCKED = true -> can_resume w q r ->
  iorderly (after w p (put_slot (core w) ip (set_flg b (Z.lor (i_flg b) IWANT))) (irefs q) (ilocks q) (IAsleep ip r)) l.
Proof.
  intros Ho Hp Hb Hl Hr. apply (after_orderly w l p q _ ip b (set_flg b (Z.lor (i_flg b) IWANT))); try done.
  - eapply moved_stepped, moved_put.
  - eapply free_list_same; [exact Hb|done..|apply Ho].
  - apply (fair_keep w l p); try done; cbn; [by flags|by flags|]. intros _. by flags.
  - cbn. split; [done|]. split; [flags; by rewrite Hl|]. split; [by flags|]. destruct q. by destruct r.
Qed.

Lemma got_orderly w l p q ip b c' : iorderly w l -> iprocs w !! p = Some q -> (length (irefs q) < limit)%nat -> inodes (core w) !! ip = Some b -> on (i_flg b) ILOCKED = false ->
  take_ref (core w) ip = Ok c' -> iorderly (after w p c' (ip :: irefs q) (ip :: ilocks q) IRun) (others ip l).
Proof.
  intros Ho Hp Hr Hb Hl Ht. destruct (take_ref_ok (core w) l ip b (io_free _ _ Ho) Hb (io_idle _ _ Ho _ _ Hb)) as (c2&E&Hf&M). rewrite Ht in E. injection E as <-.
  apply (after_orderly w l p q _ ip b (referred b)); try done; [by eapply moved_stepped|].
  eapply fair_got; try done; cbn; [by eapply count_room|by flags|by flags|]. by left.
Qed.

Lemma claim_orderly w l p q dev k ino : iorderly w l -> iprocs w !! p = Some q -> (length (irefs q) < limit)%nat -> ifind (core w) dev ino = None ->
  exists c' r l', iget_claim (core w) dev k ino = Ok (c', r) /\
    iorderly (match r with None => after w p c' (irefs q) (ilocks q) IRun | Some ip => after w p c' (ip :: irefs q) (ip :: ilocks q) (IReading ip) end) l'.
Proof.
  intros Ho Hp Hr Hfind. pose proof (io_free _ _ Ho) as Hf. destruct l as [|ip l].
  - unfold iget_claim. rewrite (fl_head _ _ Hf). cbn. eexists _, None, []. split; [done|]. apply still_orderly; [done..|]. by destruct Hf.
  - pose proof (fl_links _ _ Hf) as [(b&Hb&_) _]. assert (i_count b = 0) as Hc by (apply (io_idle _ _ Ho ip b Hb); set_solver).
    destruct (idle_flags _ _ _ _ Ho Hb Hc) as [Hl Hm]. destruct (iget_claim_ok (core w) l dev k ino ip b Hf Hb Hc) as (c'&id&->&Hf'&M).
    exists c', (Some ip), (others ip (ip :: l)). split; [done|]. pose proof (fl_nodup _ _ Hf) as Hn. apply (after_orderly w (ip :: l) p q _ ip b (claimed b dev k ino id)); try done.
    + by eapply moved_stepped.
    + pose proof (others_split ip [] l Hn) as Eo. cbn [app] in Eo. by rewrite Eo.
    + eapply fair_got; try done; cbn; [by eapply count_room|by rewrite Hm|]. intros _. right. intros j bj Hj. by eapply ifind_none.
    + cbn. split; [done|]. split; [set_solver|]. by rewrite Hc.
Qed.

Lemma do_get_ok w l p q dev k ino : iorderly w l -> iprocs w !! p = Some q -> (length (irefs q) < limit)%nat ->
  exists w' l', do_get w p q dev k ino = Ok w' /\ iorderly w' l'.
Proof.
  intros Ho Hp Hr. unfold do_get. destruct (iget_search_ok 1 w l dev k ino Ho) as (r&E&Hs). change (iget_search NMOUNT) with (iget_search (D:=D) 2). rewrite E. cbn [mbind outcome_bind].
  destruct Hs as [ip b c' Hb Hl Hm Ht|ip b dev' k' ino' Hb Hl|dev' k' ino' Hfind]; cbn [fst snd].
  - eexists _, _. split; [done|]. by eapply got_orderly.
  - eexists _, l. split; [done|]. by eapply sleep_orderly.
  - destruct (claim_orderly w l p q dev' k' ino' Ho Hp Hr Hfind) as (c'&r&l'&->&Ho'). cbn [mbind outcome_bind fst snd]. destruct r; eexists _, l'; done.
Qed.

Lemma do_grab_ok w l p q ip : iorderly w l -> iprocs w !! p = Some q -> (length (irefs q) < limit)%nat -> is_Some (inodes (core w) !! ip) ->
  exists w' l', do_grab w p q ip = Ok w' /\ iorderly w' l'.
Proof.
  intros Ho Hp Hr [b Hb]. unfold do_grab, igrab. rewrite (rd_ok _ _ _ Hb). cbn [mbind outcome_bind]. destruct (on (i_flg b) ILOCKED) eqn:Hl.
  - eexists _, l. split; [done|]. eapply sleep_orderly; [done..|]. split; [done|eauto].
  - destruct (take_ref_ok (core w) l ip b (io_free _ _ Ho) Hb (io_idle _ _ Ho _ _ Hb)) as (c2&E&_). rewrite E. eexists _, _. split; [done|]. by eapply got_orderly.
Qed.

Lemma do_lock_ok w l p q ip : iorderly w l -> iprocs w !! p = Some q -> ip ∈ irefs q -> exists w' l', do_lock w p q ip = Ok w' /\ iorderly w' l'.
Proof.
  intros Ho Hp Hr. destruct (io_refs _ _ Ho ip) as [b Hb]; [by eapply all_refs_in|]. unfold do_lock, ilock. rewrite (rd_ok _ _ _ Hb). cbn [mbind outcome_bind]. destruct (on (i_flg b) ILOCKED) eqn:Hl.
  - eexists _, l. split; [done|]. by eapply sleep_orderly.
  - eexists _, l. split; [done|]. pose proof (own_locked _ _ _ _ _ _ Ho Hp Hb Hl) as Hn. apply (after_orderly w l p q _ ip b (set_flg b (Z.lor (i_flg b) ILOCKED))); try done.
    + eapply moved_stepped, moved_put.
    + eapply free_list_same; [exact Hb|done..|apply Ho].
    + apply (fair_flag w l p); try done; cbn; [by flags|set_solver|apply NoDup_cons; split; [done|by eapply own_nodup]| |by right|congruence]. split; [set_solver|by flags].
Qed.

Lemma resume_ok w l p q r : iorderly w l -> iprocs w !! p = Some q -> can_resume w q r -> exists w' l', resume w p q r = Ok w' /\ iorderly w' l'.
Proof. intros Ho Hp Hr. destruct r; cbn in *; [by eapply do_get_ok|apply (do_grab_ok w l); tauto|by eapply do_lock_ok]. Qed.

Lemma unlock_facts w l p q ip : iorderly w l -> iprocs w !! p = Some q -> ip ∈ ilocks q ->
  exists b c, inodes (core w) !! ip = Some b /\ iunlock (core w) ip = Ok c /\ moved (core w) c ip (set_flg b (unlocked (i_flg b))) (woken c) /\
    inodes c !! ip = Some (set_flg b (unlocked (i_flg b))) /\ free_list c l /\ (on (i_flg b) IWANT = true -> ip ∈ woken c) /\ ip ∈ irefs q.
Proof.
  intros Ho Hp Hi. pose proof (io_own _ _ Ho p q Hp ip Hi) as Hr. destruct (io_refs _ _ Ho ip) as [b Hb]; [by eapply all_refs_in|].
  assert (ip ∉ l) as Hil. { rewrite (io_idle _ _ Ho ip b Hb), (io_count _ _ Ho ip b Hb). apply (all_refs_in w p q) in Hr; [|done]. apply occ_in in Hr. lia. }
  destruct (iunlock_moved (core w) ip b Hb) as (c&E&M&Hb'&Hf). pose proof (mv_woken _ _ _ _ _ M) as Ew. exists b, c. rewrite Ew. split; [done|]. split; [done|]. split; [done|]. split; [done|]. split; [apply Hf; [apply Ho|done]|].
  split; [|done]. intros ->. cbn. set_solver.
Qed.

Lemma unlock_orderly w l p q ip : iorderly w l -> iprocs w !! p = Some q -> ip ∈ ilocks q ->
  exists c, iunlock (core w) ip = Ok c /\ iorderly (after w p c (irefs q) (rm1 ip (ilocks q)) IRun) l.
Proof.
  intros Ho Hp Hi. destruct (unlock_facts w l p q ip Ho Hp Hi) as (b&c&Hb&E&M&Hb'&Hf&Hw&Hr). exists c. split; [done|]. pose proof (own_nodup _ _ _ _ Ho Hp) as Hn. destruct (on_unlocked (i_flg b)) as (U1&U2&U3).
  apply (after_orderly w l p q _ ip b (set_flg b (unlocked (i_flg b)))); try done; [by eapply moved_stepped|].
  apply (fair_flag w l p); try done; cbn; rewrite ?U1.
  - intros j Hj. rewrite rm1_nodup by done. tauto.
  - by apply rm1_NoDup.
  - rewrite rm1_nodup by done. naive_solver.
  - rewrite rm1_nodup by done. tauto.
  - intros _ H. left. auto.
Qed.

Lemma slot_put_ok w l p q ip : iorderly w l -> iprocs w !! p = Some q -> ip ∈ ilocks q ->
  exists w' l', (c ← iunlock (core w) ip; do_rele w p q c (rm1 ip (ilocks q)) ip) = Ok w' /\ iorderly w' l'.
Proof.
  intros Ho Hp Hi. destruct (unlock_facts w l p q ip Ho Hp Hi) as (b&c&Hb&->&M&Hb'&Hf&Hw&Hr). cbn [mbind outcome_bind]. pose proof (own_nodup _ _ _ _ Ho Hp) as Hn. destruct (on_unlocked (i_flg b)) as (U1&U2&U3).
  eapply (do_rele_ok w l p q ip b c); try done; cbn; rewrite ?U1; [by eapply moved_stepped| |by apply rm1_NoDup|rewrite rm1_nodup by done; tauto|naive_solver|auto].
  intros j Hj. rewrite rm1_nodup by done. tauto.
Qed.

Lemma rele_ok w l p q ip : iorderly w l -> iprocs w !! p = Some q -> ip ∈ irefs q -> ip ∉ ilocks q -> exists w' l', do_rele w p q (core w) (ilocks q) ip = Ok w' /\ iorderly w' l'.
Proof.
  intros Ho Hp Hr Hn. destruct (io_refs _ _ Ho ip) as [b Hb]; [by eapply all_refs_in|].
  apply (do_rele_ok w l p q ip b (core w) b); try done; [|apply Ho|by eapply own_nodup|naive_solver|auto].
  constructor; [|done]. symmetry. apply list_insert_id. by rewrite list_lookup_fmap, Hb.
Qed.

Lemma edit_ok w l p q ip i : iorderly w l -> iprocs w !! p = Some q -> ip ∈ irefs q -> editable (core w) ip i = true ->
  exists w' l', (c ← change (core w) ip (fun b => set_in b i); Ok (after w p c (irefs q) (ilocks q) IRun)) = Ok w' /\ iorderly w' l'.
Proof.
  intros Ho Hp Hr He. unfold editable in He. destruct (inodes (core w) !! ip) as [b|] eqn:Hb; [|done]. apply andb_true_iff in He as [En%Z.eqb_eq Ef%Z.eqb_eq].
  assert (kept (i_in b) i) as (K1&K2&K3)%kept_bits by done. rewrite (change_ok _ _ _ _ Hb). eexists _, l. split; [done|].
  apply (after_orderly w l p q _ ip b (set_in b i)); try done; [eapply moved_stepped, moved_put|eapply free_list_same; [exact Hb|done..|apply Ho]|].
  apply (fair_keep w l p); cbn; first [done|by apply renamed_same|congruence].
Qed.

(** ** Input and output *)

(** The part of a step that the file system does. *)
Definition io_part w (e : ievent) : Prop := exists p q ip b, e = EGo p /\ iprocs w !! p = Some q /\ inodes (core w) !! ip = Some b /\
  (ist q = IReading ip /\ (forall r, on_fs (core w) (i_dev b) (i_fs b) (iget_read (i_in b)) <> Ok r) \/
   ist q = IReleasing ip /\ (forall r, on_fs (core w) (i_dev b) (i_fs b) (irele_write (i_in b)) <> Ok r)).

Lemma busy_facts w l p q ip : iorderly w l -> iprocs w !! p = Some q -> ist q = IReading ip \/ ist q = IReleasing ip ->
  exists b, inodes (core w) !! ip = Some b /\ i_count b = 1 /\ ip ∈ ilocks q /\ ip ∈ irefs q /\ ip ∉ l /\ on (i_flg b) ILOCKED = true /\ on (i_flg b) IMOUNT = false.
Proof.
  intros Ho Hp Hs. destruct (io_busy _ _ Ho p q ip Hp Hs) as (Hl&b&Hb&Hc). exists b. pose proof (io_own _ _ Ho p q Hp ip Hl) as Hr. split; [done|]. split; [done|]. split; [done|]. split; [done|].
  split; [rewrite (io_idle _ _ Ho ip b Hb); lia|]. split; [apply (io_locked _ _ Ho ip b Hb); by eapply all_locks_in|].
  pose proof (io_count _ _ Ho ip b Hb) as E. apply (all_refs_in w p q) in Hr; [|done]. apply occ_in in Hr. unfold mounted in E. destruct (on _ _); [lia|done].
Qed.

Lemma same_stepped c c' ip b b' : same_table c c' -> inodes c !! ip = Some b -> stepped c (put_slot c' ip b') ip b'.
Proof. intros [E _ _ _ _ _ Em] Hb. constructor; [|done]. cbn. by rewrite list_fmap_insert, E. Qed.

Lemma reading_ok w l p q ip : iorderly w l -> iprocs w !! p = Some q -> ist q = IReading ip -> (exists w' l', go_on w p q = Ok w' /\ iorderly w' l') \/ io_part w (EGo p) /\ forall w', go_on w p q <> Ok w'.
Proof.
  intros Ho Hp Hs. destruct (busy_facts w l p q ip Ho Hp (or_introl Hs)) as (b&Hb&Hc&Hlk&Hr&Hil&Hl&Hm). unfold go_on. rewrite Hs. unfold iget_fill. rewrite (rd_ok _ _ _ Hb). cbn [mbind outcome_bind].
  destruct (on_fs (core w) (i_dev b) (i_fs b) (iget_read (i_in b))) as [[c1 r]|m|] eqn:E; [|right; split; [exists p, q, ip, b; rewrite E; naive_solver|done]..]. left.
  apply on_fs_same in E as (T&s&s'&E). cbn [mbind outcome_bind fst snd]. assert (inodes c1 !! ip = Some b) as Hb1 by (by rewrite (st_inodes _ _ T)).
  assert (free_list c1 l) as Hf by (eapply free_list_table; [exact T|apply Ho]). destruct r as [i|]; rewrite (change_ok _ _ _ _ Hb1); cbn [mbind outcome_bind fst snd].
  - apply iget_read_kept in E as [En Ef]. eexists _, l. split; [done|]. apply (after_orderly w l p q _ ip b (set_in b i)); try done; [by eapply same_stepped|by apply free_list_off|].
    apply (fair_keep w l p); cbn; first [done|by apply renamed_same|congruence].
  - set (b1 := set_in b _). set (c2 := put_slot c1 ip b1). assert (inodes c2 !! ip = Some b1) as Hb2 by (apply list_lookup_insert_eq; by eapply lookup_lt_Some).
    destruct (iunlock_moved c2 ip b1 Hb2) as (c3&->&M&Hb3&Hf3). cbn [mbind outcome_bind]. pose proof (own_nodup _ _ _ _ Ho Hp) as Hn. destruct (on_unlocked (i_flg b)) as (U1&U2&U3).
    eapply (do_rele_ok w l p q ip b c3); try done; cbn; rewrite ?U1.
    + eapply stepped_trans; [by eapply (same_stepped _ _ _ _ b1)|exact M].
    + apply Hf3; [by apply free_list_off|done].
    + split; [done|]. cbn. congruence.
    + intros j Hj. rewrite rm1_nodup by done. tauto.
    + by apply rm1_NoDup.
    + rewrite rm1_nodup by done. tauto.
    + naive_solver.
    + intros _ Hw. left. rewrite (mv_woken _ _ _ _ _ M). change (on (i_flg b1) IWANT) with (on (i_flg b) IWANT). rewrite Hw. cbn. set_solver.
Qed.

Lemma releasing_ok w l p q ip : iorderly w l -> iprocs w !! p = Some q -> ist q = IReleasing ip -> (exists w' l', go_on w p q = Ok w' /\ iorderly w' l') \/ io_part w (EGo p) /\ forall w', go_on w p q <> Ok w'.
Proof.
  intros Ho Hp Hs. destruct (busy_facts w l p q ip Ho Hp (or_intror Hs)) as (b&Hb&Hc&Hlk&Hr&Hil&Hl&Hm). unfold go_on. rewrite Hs. unfold irele_io. rewrite (rd_ok _ _ _ Hb). cbn [mbind outcome_bind].
  destruct (on_fs (core w) (i_dev b) (i_fs b) (irele_write (i_in b))) as [[c1 i]|m|] eqn:E; [|right; split; [exists p, q, ip, b; rewrite E; naive_solver|done]..]. left.
  apply on_fs_same in E as (T&s&s'&E). cbn [mbind outcome_bind fst snd]. assert (inodes c1 !! ip = Some b) as Hb1 by (by rewrite (st_inodes _ _ T)).
  assert (free_list c1 l) as Hf by (eapply free_list_table; [exact T|apply Ho]). apply irele_write_kept in E as K. pose proof (kept_bits _ _ K) as (K1&K2&K3). rewrite (change_ok _ _ _ _ Hb1). cbn [mbind outcome_bind].
  set (b1 := set_in b i). set (c2 := put_slot c1 ip b1). assert (inodes c2 !! ip = Some b1) as Hb2 by (apply list_lookup_insert_eq; by eapply lookup_lt_Some).
  destruct (irele_free_ok c2 l ip b1 (free_list_off c1 l ip b1 Hf Hil) Hil Hb2) as (c3&->&Hf3&M3). cbn [mbind outcome_bind]. destruct (moved_self _ _ _ _ _ _ M3 Hb2) as (b3&Hb3&E3).
  unfold drop_ref. rewrite (change_ok _ _ _ _ Hb3). cbn [mbind outcome_bind]. eexists _, (l ++ [ip]). split; [done|].
  pose proof (own_nodup _ _ _ _ Ho Hp) as Hn. assert (Hd := E3). apply data_eq in Hd as (En&Ef&Ec&Ed). destruct K as [Kn _].
  assert (u16 (i_count b3 - 1) = 0) as Hz by (rewrite Ec; cbn; by rewrite Hc). eapply (after_orderly w l p q _ ip b); [done..| | | |done].
  - eapply stepped_trans; [|apply moved_put]. eapply stepped_trans; [by eapply (same_stepped _ _ _ _ b1)|exact M3].
  - eapply free_list_same; [exact Hb3|done..|exact Hf3].
  - eapply fair_drop; try done; cbn; rewrite ?Hz.
    + by rewrite Hc.
    + apply renamed_same; cbn; [rewrite En; cbn; by rewrite Kn|by rewrite Ed].
    + rewrite Ef, Hm. done.
    + intros j Hj. rewrite elem_of_app, list_elem_of_singleton. tauto.
    + rewrite elem_of_app, list_elem_of_singleton. tauto.
    + intros j Hj. rewrite rm1_nodup by done. tauto.
    + by apply rm1_NoDup.
    + rewrite rm1_nodup by done. tauto.
    + rewrite Ef. cbn. split; [done|tauto].
    + intros _ Hw. left. rewrite (mv_woken _ _ _ _ _ M3). change (on (i_flg b1) IWANT) with (on (i_flag i) IWANT). rewrite K2, Hw. cbn. set_solver.
Qed.

Lemma istep_ok w l e : iorderly w l -> (exists w' l', istep w e = Ok w' /\ iorderly w' l') \/ io_part w e /\ forall w', istep w e <> Ok w'.
Proof.
  intros Ho. unfold istep. destruct (iprocs w !! ievent_proc e) as [q|] eqn:Hp; [|left; eauto].
  assert (forall b o, (b = true -> exists w' l', o = Ok w' /\ iorderly w' l') -> (exists w' l', may b w o = Ok w' /\ iorderly w' l') \/ io_part w e /\ forall w', may b w o <> Ok w') as Hmay.
  { intros b o H. left. destruct b; cbn; [auto|eauto]. }
  destruct e as [p dev k ino|p ip|p ip|p ip|p ip|p ip|p ip i|p]; cbn [ievent_proc] in Hp; (destruct (ist q) as [|ip' r|r|ip'|ip'] eqn:Hs; try (left; by eauto)); try apply Hmay.
  - intros H%bool_decide_eq_true_1. by eapply do_get_ok.
  - intros [H1%bool_decide_eq_true_1 H2%bool_decide_eq_true_1]%andb_true_iff. eapply do_grab_ok; [done..|]. by apply lookup_lt_is_Some.
  - intros H%bool_decide_eq_true_1. by eapply do_lock_ok.
  - intros H%bool_decide_eq_true_1. destruct (unlock_orderly w l p q ip Ho Hp H) as (c&->&Ho'). eexists _, l. split; [done|exact Ho'].
  - intros H%bool_decide_eq_true_1. by eapply slot_put_ok.
  - intros [H1%bool_decide_eq_true_1 H2%bool_decide_eq_true_1]%andb_true_iff. by eapply rele_ok.
  - intros [H1%bool_decide_eq_true_1 H2]%andb_true_iff. by eapply edit_ok.
  - left. unfold go_on. rewrite Hs. eauto.
  - left. unfold go_on. rewrite Hs. eauto.
  - left. unfold go_on. rewrite Hs. eapply resume_ok; [done..|]. apply (io_room _ _ Ho p); [done|by right].
  - by eapply reading_ok.
  - by eapply releasing_ok.
Qed.

(** C34. Any number of processes that keep to their rights share the inode
    table in order. Whatever they do in whatever order, every step returns and
    keeps the invariant [iorderly]: an inode counts exactly the references
    that processes and the mount table hold, and is on the free list when
    there are none; an inode is locked when exactly one process has locked it,
    and who sleeps on one is owed a wakeup, so none sleeps on an inode that
    nobody has locked; two slots never have the same name, so that two
    processes that look one inode up share it, also while it is still being
    read or already on its way out. None of the panics of [iget] is reached,
    and no counter wraps. What can fail is only the input or output itself:
    the reading of an inode, or its writing at the last reference. *)
Theorem icache_orderly w l es : iorderly w l ->
  match isteps w es with
  | Ok w' => exists l', iorderly w' l'
  | _ => exists es1 e es2 w1 l1, es = es1 ++ e :: es2 /\ isteps w es1 = Ok w1 /\ iorderly w1 l1 /\ io_part w1 e
  end.
Proof.
  revert w l. induction es as [|e es IH]; intros w l Ho; [by exists l|]. cbn [isteps]. destruct (istep_ok w l e Ho) as [(w1&l1&E&Ho1)|Hio].
  - rewrite E. cbn [mbind outcome_bind]. specialize (IH w1 l1 Ho1). destruct (isteps w1 es); [done|..]; destruct IH as (es1&e'&es2&w2&l2&->&E2&Ho2&Hio); exists (e :: es1), e', es2, w2, l2; cbn [isteps]; by rewrite E.
  - destruct Hio as [Hio Hno]. destruct (istep w e) as [w1| |]; [by destruct (Hno w1)|by exists [], e, es, w, l..].
Qed.

(** ** From the boot *)

Definition bss_inode : cinode := Cinode (Inode 0 0 (replicate 7 0) 0 0 0 0 0 0 0 0 0) 0 0 0 None (Freef None) None.
Definition bss (n : nat) (ms : list mount) (ds : gmap Z D) : icore D := Icore (replicate n bss_inode) None Head 0 ms ds 0 0 [].
Definition boot_world (c : icore D) (n : nat) : iworld D := Iworld c (replicate n (Iproc [] [] IRun)).

Lemma boot_lookup n c p q : iprocs (boot_world c n) !! p = Some q -> q = Iproc [] [] IRun.
Proof. cbn. intros H. by apply lookup_replicate in H as [? _]. Qed.

Lemma concat_nothing {A} (f : A -> list nat) n x : f x = [] -> concat (f <$> replicate n x) = [].
Proof. intros E. induction n as [|n IH]; cbn; [done|]. by rewrite E, IH. Qed.

(** The table as [ihinit] leaves it is in order. *)
Lemma boot_orderly n ms ds np : (0 < n)%nat -> Z.of_nat (np * limit) < 65535 -> exists c, ihinit (bss n ms ds) = Ok c /\ iorderly (boot_world c np) (seq 0 n).
Proof.
  intros Hn Hl. destruct (ihinit_ok (bss n ms ds)) as (c&E&R&Hf); [destruct n; [lia|done]|apply Forall_replicate; by exists None|]. cbn [inodes bss] in Hf. rewrite length_replicate in Hf. exists c. split; [done|].
  assert (forall i b, inodes c !! i = Some b -> (i < n)%nat /\ data b = data bss_inode) as Hd.
  { intros i b Hb. pose proof (f_equal (.!! i) (rl_data _ _ R)) as Ei. rewrite !list_lookup_fmap, Hb in Ei. cbn [inodes bss] in Ei. destruct (replicate n bss_inode !! i) as [b0|] eqn:Eb; [|done].
    apply lookup_replicate in Eb as [-> Hi]. change (Some (data b) = Some (data bss_inode)) in Ei. split; [done|congruence]. }
  assert (all_refs (boot_world c np) = []) as Er by (by apply concat_nothing). assert (all_locks (boot_world c np) = []) as El by (by apply concat_nothing).
  assert (forall i b, inodes c !! i = Some b -> i_num b = 0 /\ i_flg b = 0 /\ i_count b = 0 /\ i_dev b = 0) as Hz by (intros i b Hb; by destruct (Hd i b Hb) as [_ ?%data_eq]).
  constructor; cbn [core boot_world]; rewrite ?Er, ?El; try done.
  - intros En. pose proof (f_equal length (rl_data _ _ R)) as Elen. rewrite !length_fmap, En in Elen. cbn in Elen. rewrite length_replicate in Elen. lia.
  - intros i b Hb. destruct (Hd i b Hb) as [Hi _]. destruct (Hz i b Hb) as (_&_&->&_). rewrite elem_of_seq. split; [done|lia].
  - intros i b Hb. unfold mounted. by destruct (Hz i b Hb) as (_&->&->&_).
  - intros i Hi. by apply elem_of_nil in Hi.
  - apply Forall_replicate. cbn. lia.
  - cbn. by rewrite length_replicate.
  - intros p q r Hq%boot_lookup. subst q. intros [[? ?]|?]; done.
  - intros i b Hb. destruct (Hz i b Hb) as (_&->&_&_). split; [done|set_solver].
  - apply NoDup_nil_2.
  - intros p q Hq%boot_lookup. by subst q.
  - intros p q ip r Hq%boot_lookup. by subst q.
  - intros p q ip Hq%boot_lookup. subst q. intros [?|?]; done.
  - intros i j bi bj Hi _ Hne. by destruct (Hz i bi Hi) as (?&_).
  - intros i b Hb. by destruct (Hz i b Hb) as (_&->&_&_).
  - apply (rl_woken _ _ R).
Qed.

End procs.

(** ** Two processes and one inode *)

(** The disk has the root directory, two links. *)
Definition root_disk (b : Z) : block := if b =? 1 then <[16%nat := 0x41ED + Z.shiftl 2 16]> zeros else zeros.
Definition root_mount : mount := Mount 0 (demo_fs 0 (replicate 200 0)) Boot.
Definition boot_table : icore ramdisk := bss 3 [root_mount] {[0 := Ramdisk root_disk ∅ 0]}.
Definition boot_core : icore ramdisk := match ihinit boot_table with Ok c => c | _ => boot_table end.

(** Both look up the root: the second sleeps while the first reads it, and
    gets the same slot when it is unlocked. *)
Definition sharing : list ievent := [EGet 0 0 0 2; EGet 1 0 0 2; EGo 0; EUnlock 0 0; EGo 1; ERele 0 0].

Lemma icache_orderly_witness : exists w' l', isteps 4 (boot_world boot_core 2) sharing = Ok w' /\ iorderly 4 w' l' /\
  (irefs <$> iprocs w') = [[]; [0%nat]] /\ (i_count <$> inodes (core w')) = [1; 0; 0].
Proof.
  destruct (boot_orderly 4 3 [root_mount] {[0 := Ramdisk root_disk ∅ 0]} 2) as (c&E&Ho); [lia|lia|].
  assert (c = boot_core) as -> by (unfold boot_core, boot_table; by rewrite E).
  pose proof (icache_orderly 4 (boot_world boot_core 2) (seq 0 3) sharing Ho) as H.
  destruct (isteps 4 (boot_world boot_core 2) sharing) as [w'| |] eqn:Es; [|exfalso; vm_compute in Es; discriminate..].
  destruct H as [l' Hl']. exists w', l'. split; [reflexivity|]. split; [exact Hl'|]. vm_compute in Es. injection Es as <-. split; reflexivity.
Defined.
