(* ===== verification/Finode.v ===== *)
(** * Files behind the inode cache

    The inodes of a file system are 16 to a block. Seen through the cache, an
    inode is what its slot holds, or what its block holds when no slot does.
    Here: an inode written and read back is the same and disturbs no other;
    [iget] finds the inode wherever it is; releasing a reference loses nothing,
    and the last one of an inode without links gives all its blocks and its
    number back. *)
From stdpp Require Import gmap.
From S2P Require Import Prelude Fsalloc Fsmap Fstrunc Icache.

(** ** Inodes in a block *)

(** The fields that a block holds, but for the times. *)
Definition file_of (ip : inode) : Z * Z * Z * Z * Z * list Z * Z :=
  (i_mode ip, i_nlink ip, i_uid ip, i_gid ip, i_size ip, i_addr ip, i_flags ip).

(** The fields have the widths of [struct dinode]. *)
Record fits (ip : inode) : Prop := {
  ft_addr : length (i_addr ip) = 7%nat;
  ft_mode : 0 <= i_mode ip < 2 ^ 16;
  ft_nlink : 0 <= i_nlink ip < 2 ^ 16;
  ft_flags : 0 <= i_flags ip < 2 ^ 16
}.

Definition dinode_words (ip : inode) (pad : Z) : list Z :=
  [i_mode ip + Z.shiftl (i_nlink ip) 16; i_uid ip; i_gid ip; i_size ip] ++ i_addr ip ++ [pad; i_flags ip; i_atime ip; i_mtime ip; i_ctime ip].

Lemma dinode_words_length ip pad : length (i_addr ip) = 7%nat -> length (dinode_words ip pad) = 16%nat.
Proof. intros E. unfold dinode_words. rewrite !length_app, E. done. Qed.

Lemma dinode_put_words ip k x : dinode_put ip k x = take (16 * k) x ++ dinode_words ip (default 0 (x !! (16 * k + 11)%nat)) ++ drop (16 * k + 16) x.
Proof. unfold dinode_put, dinode_words. by rewrite <- !app_assoc. Qed.

Lemma dinode_put_length ip k x : length (i_addr ip) = 7%nat -> (k < 16)%nat -> length x = 256%nat -> length (dinode_put ip k x) = 256%nat.
Proof. intros E Hk Hx. rewrite dinode_put_words, !length_app, length_take, length_drop, dinode_words_length by done. lia. Qed.

Lemma dinode_put_in ip k x i : length (i_addr ip) = 7%nat -> (k < 16)%nat -> length x = 256%nat -> (i < 16)%nat ->
  dinode_put ip k x !! (16 * k + i)%nat = dinode_words ip (default 0 (x !! (16 * k + 11)%nat)) !! i.
Proof.
  intros E Hk Hx Hi. rewrite dinode_put_words, lookup_app_r by (rewrite length_take; lia). rewrite length_take, Nat.min_l by lia.
  rewrite lookup_app_l by (rewrite dinode_words_length by done; lia). f_equal. lia.
Qed.
Lemma dinode_put_out ip k x j : length (i_addr ip) = 7%nat -> (k < 16)%nat -> length x = 256%nat -> (j < 16 * k \/ 16 * k + 16 <= j)%nat -> dinode_put ip k x !! j = x !! j.
Proof.
  intros E Hk Hx Hj. rewrite dinode_put_words. destruct Hj as [Hj|Hj].
  - rewrite lookup_app_l by (rewrite length_take; lia). by apply lookup_take_lt.
  - rewrite lookup_app_r by (rewrite length_take; lia). rewrite length_take, Nat.min_l by lia. rewrite lookup_app_r by (rewrite dinode_words_length by done; lia).
    rewrite dinode_words_length, lookup_drop by done. f_equal. lia.
Qed.

Lemma low_half m n : 0 <= m < 2 ^ 16 -> u16 (m + Z.shiftl n 16) = m.
Proof. intros H. unfold trunc. rewrite Z.shiftl_mul_pow2, Z.mod_add by lia. by apply Z.mod_small. Qed.
Lemma high_half m n : 0 <= m < 2 ^ 16 -> 0 <= n < 2 ^ 16 -> u16 (Z.shiftr (m + Z.shiftl n 16) 16) = n.
Proof. intros Hm Hn. unfold trunc. rewrite Z.shiftr_div_pow2, Z.shiftl_mul_pow2, Z.div_add, Z.div_small by lia. by apply Z.mod_small. Qed.

Lemma take7 (a b : list Z) : length a = 7%nat -> take 7 (a ++ b) = a.
Proof. intros E. rewrite <- E. apply take_app_length. Qed.

Definition same_but (ip jp : inode) : inode :=
  Inode (i_number ip) (i_flag ip) (i_addr jp) (i_mode jp) (i_nlink jp) (i_uid jp) (i_gid jp) (i_size jp) (i_flags jp) (i_atime jp) (i_mtime jp) (i_ctime jp).

Lemma dinode_words_lookup jp pad i : length (i_addr jp) = 7%nat -> (11 <= i)%nat -> dinode_words jp pad !! i = [pad; i_flags jp; i_atime jp; i_mtime jp; i_ctime jp] !! (i - 11)%nat.
Proof. intros E Hi. unfold dinode_words. rewrite lookup_app_r by (cbn; lia). rewrite lookup_app_r by (rewrite E; cbn; lia). rewrite E. f_equal. cbn. lia. Qed.

(** An inode read back is the one that was written. *)
Lemma dinode_get_put ip jp k x : fits jp -> (k < 16)%nat -> length x = 256%nat -> dinode_get ip k (dinode_put jp k x) = same_but ip jp.
Proof.
  intros [Ha Hm Hn Hf] Hk Hx. unfold dinode_get, same_but. rewrite !dinode_put_in by (done || lia). rewrite (dinode_words_lookup _ _ 12), (dinode_words_lookup _ _ 13), (dinode_words_lookup _ _ 14), (dinode_words_lookup _ _ 15) by (done || lia).
  set (pad := default 0 (x !! (16 * k + 11)%nat)). change (dinode_words jp pad !! 0%nat) with (Some (i_mode jp + Z.shiftl (i_nlink jp) 16)).
  change (dinode_words jp pad !! 1%nat) with (Some (i_uid jp)). change (dinode_words jp pad !! 2%nat) with (Some (i_gid jp)). change (dinode_words jp pad !! 3%nat) with (Some (i_size jp)).
  cbn [default Nat.sub lookup list_lookup i_number i_flag id]. unfold id. rewrite low_half, high_half by done. f_equal; [|by apply trunc_small].
  rewrite dinode_put_words, drop_app_ge by (rewrite length_take; lia). rewrite length_take, Nat.min_l by lia. replace (16 * k + 4 - 16 * k)%nat with 4%nat by lia.
  unfold dinode_words. cbn [app drop]. rewrite <- app_assoc. by apply take7.
Qed.

(** Another inode of the block stays. *)
Lemma dinode_get_other ip jp k k' x : length (i_addr jp) = 7%nat -> (k < 16)%nat -> (k' < 16)%nat -> k <> k' -> length x = 256%nat ->
  dinode_get ip k' (dinode_put jp k x) = dinode_get ip k' x.
Proof.
  intros Ha Hk Hk' Hne Hx. assert (forall i, (i < 16)%nat -> dinode_put jp k x !! (16 * k' + i)%nat = x !! (16 * k' + i)%nat) as E by (intros i Hi; apply dinode_put_out; [done..|lia]).
  unfold dinode_get. rewrite !E by lia. f_equal. apply list_eq. intros i. destruct (decide (i < 7)%nat) as [Hi|Hi]; [|rewrite !lookup_take_ge by lia; done].
  rewrite !lookup_take_lt, !lookup_drop by done. replace (16 * k' + 4 + i)%nat with (16 * k' + (4 + i))%nat by lia. apply E. lia.
Qed.
Lemma di_flags_put jp k x : fits jp -> (k < 16)%nat -> length x = 256%nat -> di_flags k (dinode_put jp k x) = i_flags jp.
Proof. intros [Ha _ _ _] Hk Hx. unfold di_flags. rewrite dinode_put_in, dinode_words_lookup by (done || lia). done. Qed.
Lemma di_flags_other jp k k' x : length (i_addr jp) = 7%nat -> (k < 16)%nat -> (k' < 16)%nat -> k <> k' -> length x = 256%nat -> di_flags k' (dinode_put jp k x) = di_flags k' x.
Proof. intros Ha Hk Hk' Hne Hx. unfold di_flags. by rewrite dinode_put_out by (done || lia). Qed.

(** The place of an inode on the device. *)
Lemma itoo_range n : 0 <= itoo n < 16.
Proof. unfold itoo, INOPB. apply Z.mod_pos_bound. lia. Qed.
Lemma place_inj a b : 0 < a < 2 ^ 31 -> 0 < b < 2 ^ 31 -> itod a = itod b -> itoo a = itoo b -> a = b.
Proof.
  unfold itod, itoo, INOPB. intros Ha Hb E1 E2. rewrite !trunc_small in * by lia. pose proof (Z.div_mod (a + 16 - 1) 16 ltac:(lia)). pose proof (Z.div_mod (b + 16 - 1) 16 ltac:(lia)). lia.
Qed.

Definition disk_inode (c : Z -> block) (ino : Z) : inode := dinode_get (Inode ino 0 [] 0 0 0 0 0 0 0 0 0) (Z.to_nat (itoo ino)) (c (itod ino)).
Definition disk_flags (c : Z -> block) (ino : Z) : Z := di_flags (Z.to_nat (itoo ino)) (c (itod ino)).

Lemma disk_put c c' n jp : fits jp -> length (c (itod n)) = 256%nat -> c' (itod n) = dinode_put jp (Z.to_nat (itoo n)) (c (itod n)) ->
  file_of (disk_inode c' n) = file_of jp /\ disk_flags c' n = i_flags jp.
Proof.
  intros Hf Hx E. pose proof (itoo_range n). unfold disk_inode, disk_flags. rewrite E, dinode_get_put, di_flags_put by (done || lia). done.
Qed.

Lemma disk_put_other c c' n m jp : length (i_addr jp) = 7%nat -> 0 < n < 2 ^ 31 -> 0 < m < 2 ^ 31 -> m <> n -> length (c (itod n)) = 256%nat ->
  c' (itod n) = dinode_put jp (Z.to_nat (itoo n)) (c (itod n)) -> (itod m <> itod n -> c' (itod m) = c (itod m)) ->
  disk_inode c' m = disk_inode c m /\ disk_flags c' m = disk_flags c m.
Proof.
  intros Hj Hn Hm Hne Hx E Ho. unfold disk_inode, disk_flags. pose proof (itoo_range n). pose proof (itoo_range m).
  destruct (decide (itod m = itod n)) as [Eb|Hb]; [|by rewrite Ho].
  assert (Z.to_nat (itoo n) <> Z.to_nat (itoo m)) as Hk by (intros Ek; apply Hne, place_inj; [done..|lia]).
  rewrite Eb, E, dinode_get_other, di_flags_other by (done || lia). done.
Qed.

Lemma disk_same c c' n : c' (itod n) = c (itod n) -> disk_inode c' n = disk_inode c n /\ disk_flags c' n = disk_flags c n.
Proof. intros E. unfold disk_inode, disk_flags. by rewrite E. Qed.

(** ** Writing an inode out *)

Section write.
Context {D : Type} {BD : BufDev D} {BS : BufSpec D}.
Implicit Types (s : fsys D).

(** An inode as it was but for its times and the marks that it changed. *)
Definition cleaned (ip ip' : inode) : Prop := file_of ip' = file_of ip /\ i_number ip' = i_number ip /\ on (i_flag ip') IDIRTY = false.

Lemma not_dirty f : on (Z.ldiff f IDIRTY) IDIRTY = false.
Proof. unfold on. rewrite Z.land_comm, Z.ldiff_land, (Z.land_comm f), Z.land_assoc. change (Z.land IDIRTY (Z.lnot IDIRTY)) with 0. by rewrite Z.land_0_l. Qed.

Lemma iupdat_at_ok ta tm ip w s : inode_ok ip s -> spare s 1 -> on (i_flag ip) IDIRTY = true ->
  exists s' ip', iupdat_at ta tm ip w s = Ok (s', ip', 0) /\ cleaned ip ip' /\
    (i_atime ip' = (if on (i_flag ip) IACC then ta else i_atime ip) /\ i_mtime ip' = if on (i_flag ip) IUPD then tm else i_mtime ip) /\
    dev_step s s' (wrote (content (fdev s)) (itod (i_number ip)) (dinode_put ip' (Z.to_nat (itoo (i_number ip))) (content (fdev s) (itod (i_number ip))))) (held (fdev s)) (anon (fdev s)).
Proof.
  intros [Hlen Hb Hc Hro] Hm Hd. unfold iupdat_at. assert (Z.land (i_flag ip) (Z.lor (Z.lor IUPD IACC) (Z.lor ICHG IMOD)) =? 0 = false) as -> by (unfold on, IDIRTY in Hd; by apply negb_true_iff in Hd).
  rewrite Hro. cbn [Z.eqb negb]. set (b := itod (i_number ip)) in *. destruct (fs_bread_ok s b Hc) as (s1&->&[F1 R1 N1 C1 H1 K1]); [unfold spare, room in *; lia|].
  cbn [mbind outcome_bind fst snd]. set (ip1 := set_iflag (set_itimes _ _ _ _) _). pose proof (itoo_range (i_number ip)) as Hk.
  set (x := dinode_put ip1 _ _). assert (length x = 256%nat) as Hx by (apply dinode_put_length; [done|cbn; lia|apply content_length]).
  assert (forall s2, dev_step s1 s2 (wrote (content (fdev s1)) b x) (held (fdev s1) ∖ {[b]}) (anon (fdev s1)) -> dev_step s s2 (wrote (content (fdev s)) b x) (held (fdev s)) (anon (fdev s))) as Hstep.
  { intros s2 [F2 R2 N2 C2 H2 K2]. constructor; try congruence; [|rewrite H2, H1; set_solver]. intros a. rewrite C2. unfold wrote. case_decide; [done|apply C1]. }
  assert (cleaned ip ip1) as Hcl by (split; [done|]; split; [done|]; apply not_dirty).
  destruct w.
  - destruct (fs_bwrite_ok s1 b x) as (s2&->&D2); [rewrite H1; set_solver|done|]. cbn [mbind outcome_bind fst snd Z.eqb]. exists s2, ip1. split; [done|]. split; [done|]. split; [done|]. by apply Hstep.
  - destruct (fs_bdwrite_ok s1 b x) as (s2&->&D2); [rewrite H1; set_solver|done|]. cbn [mbind outcome_bind fst snd Z.eqb]. exists s2, ip1. split; [done|]. split; [done|]. split; [done|]. by apply Hstep.
Qed.
Lemma iupdat_ok ip w s : inode_ok ip s -> spare s 1 -> on (i_flag ip) IDIRTY = true ->
  exists s' ip', iupdat ip w s = Ok (s', ip', 0) /\ cleaned ip ip' /\
    dev_step s s' (wrote (content (fdev s)) (itod (i_number ip)) (dinode_put ip' (Z.to_nat (itoo (i_number ip))) (content (fdev s) (itod (i_number ip))))) (held (fdev s)) (anon (fdev s)).
Proof. intros Hi Hm Hd. destruct (iupdat_at_ok (fnow s) (fnow s) ip w s Hi Hm Hd) as (s'&ip'&E&Hc&_&Hs). by exists s', ip'. Qed.

Lemma iupdat_dirty_ok ip s : inode_ok ip s -> spare s 1 ->
  exists s' ip', iupdat_dirty ip s = Ok (s', ip') /\ cleaned ip ip' /\
    dev_step s s' (if on (i_flag ip) IDIRTY then wrote (content (fdev s)) (itod (i_number ip)) (dinode_put ip' (Z.to_nat (itoo (i_number ip))) (content (fdev s) (itod (i_number ip)))) else content (fdev s))
      (held (fdev s)) (anon (fdev s)).
Proof.
  intros Hi Hm. unfold iupdat_dirty. destruct (on (i_flag ip) IDIRTY) eqn:E.
  - destruct (iupdat_ok ip false s Hi Hm E) as (s'&ip'&->&Hc&Hd). by exists s', ip'.
  - exists s, ip. split; [done|]. split; [|by constructor]. by split.
Qed.

(** The last reference to an inode that has links. *)
Lemma irele_write_live ip s : inode_ok ip s -> spare s 1 -> 0 < i_nlink ip ->
  exists s' ip', irele_write ip s = Ok (s', ip') /\ cleaned ip ip' /\
    dev_step s s' (if on (i_flag ip) IDIRTY then wrote (content (fdev s)) (itod (i_number ip)) (dinode_put ip' (Z.to_nat (itoo (i_number ip))) (content (fdev s) (itod (i_number ip)))) else content (fdev s))
      (held (fdev s)) (anon (fdev s)).
Proof.
  intros Hi Hm Hn. unfold irele_write. rewrite (proj2 (Z.leb_gt _ _)) by done. cbn [andb mbind outcome_bind fst snd]. by apply iupdat_dirty_ok.
Qed.

(** ** The last reference to an inode without links *)

Lemma addr_kept_none l : length l = 7%nat -> addr_kept 0 l = replicate 7 0.
Proof. intros E. do 8 (destruct l as [|? l]; [done|]). done. Qed.

Lemma owned_none c : owned c (replicate 7 0) = [].
Proof. reflexivity. Qed.

(** The blocks of a file: none, when its size is 0. A pipe has its blocks
    whatever is left in it. *)
Definition file_blocks (c : Z -> block) (ip : inode) : list Z :=
  if (i_size ip =? 0) && negb (on (i_flag ip) IPIPE) then [] else owned c (i_addr ip).

(** A file of the blocks [T] cut to nothing has them all on the free list. *)
Record emptied (T : list Z) (ip : inode) s l s' (ip' : inode) (freed : list Z) : Prop := {
  em_rest : rest_of ip' = rest_of ip;
  em_addr : length (i_addr ip') = 7%nat;
  em_size : i_size ip' = 0;
  em_zero : i_addr ip' = replicate 7 0 \/ i_size ip = 0 /\ i_addr ip' = i_addr ip;
  em_freed : freed ≡ₚ T;
  em_alloc : alloc_ok (content (fdev s')) (fsb s') (freed ++ l);
  em_shape : same_shape (fsb s) (fsb s');
  em_calm : ferr s' = ferr s /\ fnow s' = fnow s /\ held (fdev s') = held (fdev s) /\ anon (fdev s') = anon (fdev s);
  em_block : content (fdev s') (itod (i_number ip)) = dinode_put ip' (Z.to_nat (itoo (i_number ip))) (content (fdev s) (itod (i_number ip)));
  em_frame : forall a, a <> itod (i_number ip) -> a ∉ T -> content (fdev s') a = content (fdev s) a
}.

Lemma updret_ok ip s : inode_ok ip s -> spare s 1 -> exists s' ip', itrunc_updret ip s = Ok (s', ip') /\ file_of ip' = file_of ip /\ i_number ip' = i_number ip /\
  dev_step s s' (wrote (content (fdev s)) (itod (i_number ip)) (dinode_put ip' (Z.to_nat (itoo (i_number ip))) (content (fdev s) (itod (i_number ip))))) (held (fdev s)) (anon (fdev s)).
Proof.
  intros Hi Hm. unfold itrunc_updret. destruct (iupdat_ok (set_iflag ip (Z.lor (i_flag ip) (Z.lor ICHG IUPD))) true s) as (s'&ip'&->&(E1&E2&_)&Hd).
  - by destruct Hi.
  - done.
  - cbn. rewrite on_or. change (on (Z.lor ICHG IUPD) IDIRTY) with true. by rewrite orb_true_r.
  - by exists s', ip'.
Qed.

(** A write to the block of inodes leaves the free list. *)
Lemma alloc_elsewhere c c' f l b x : alloc_ok c f l -> (forall a, c' a = wrote c b x a) -> ~ in_data f b -> alloc_ok c' f l.
Proof.
  intros Ha Hc Hb. eapply alloc_ext; [exact Ha|]. intros a Hin. rewrite Hc. unfold wrote. rewrite decide_False; [done|]. intros ->. apply Hb. pose proof (al_data _ _ _ Ha) as Hd. rewrite Forall_forall in Hd. auto.
Qed.

Lemma inode_not_data ip s : inode_ok ip s -> ~ in_data (fsb s) (itod (i_number ip)).
Proof. intros [_ Hb _ _]. unfold in_data. lia. Qed.

Lemma updret_empties ip s l : ready s l [] -> inode_ok ip s -> i_size ip = 0 -> exists s' ip', itrunc_updret ip s = Ok (s', ip') /\ emptied [] ip s l s' ip' [].
Proof.
  intros Hr Hi Hz. destruct (updret_ok ip s Hi ltac:(by apply rd_room in Hr)) as (s'&ip'&E&Ef&En&[F R N C H K]). exists s', ip'. split; [done|]. injection Ef as F1 F2 F3 F4 F5 F6 F7.
  constructor; unfold rest_of; rewrite ?F1, ?F2, ?F3, ?F4, ?F7, ?En, ?F; try done.
  - rewrite F6. apply Hi.
  - congruence.
  - right. by split.
  - eapply alloc_elsewhere; [apply Hr|exact C|by apply inode_not_data].
  - rewrite C. unfold wrote. by rewrite decide_True.
  - intros a Ha _. rewrite C. unfold wrote. by rewrite decide_False.
Qed.

Lemma shrink_empties ip aflags s l : ready s l (owned (content (fdev s)) (i_addr ip)) -> inode_ok ip s -> spare s 4 ->
  exists s' ip' freed, itrunc_shrink ip 0 aflags s = Ok (s', ip') /\ emptied (owned (content (fdev s)) (i_addr ip)) ip s l s' ip' freed.
Proof.
  intros Hr Hi Hm. pose proof (io_addr _ _ Hi) as Hlen. unfold itrunc_shrink. change (blkoff 0 =? 0) with true. cbn [mbind outcome_bind negb set_isize i_addr].
  rewrite <- outcome_bind_assoc. destruct (itrunc_cut aflags (i_addr ip) 0 s l Hr Hm Hlen ltac:(lia)) as (s1&f&->&[[A S R N K H P C] _ _]). cbn [mbind outcome_bind].
  rewrite addr_kept_none in * by done. rewrite owned_none in P. cbn [app] in P. set (ip1 := set_iaddr _ _).
  assert (inode_ok ip1 s1) as Hi1 by (eapply inode_ok_shape; [exact Hi|done|done|exact S|exact H]).
  destruct (updret_ok ip1 s1 Hi1) as (s'&ip'&E&Ef&En&[F2 R2 N2 C2 H2 K2]); [unfold spare in *; rewrite H, K; lia|].
  exists s', ip', f. split; [exact E|]. injection Ef as F3 F4 F5 F6 F7 F8 F9. change (i_number ip1) with (i_number ip) in *.
  assert (itod (i_number ip) ∉ owned (content (fdev s)) (i_addr ip)) as Hni.
  { intros Hin. apply (inode_not_data ip s Hi). pose proof (rd_data _ _ _ Hr) as Hd. rewrite Forall_forall in Hd. by apply Hd. }
  constructor; unfold rest_of; rewrite ?F3, ?F4, ?F5, ?F6, ?F9, ?En; try done.
  - by rewrite F8.
  - by left.
  - rewrite F2. eapply alloc_elsewhere; [exact A|exact C2|apply (inode_not_data ip1 s1 Hi1)].
  - by rewrite F2.
  - split; [congruence|]. split; [congruence|]. split; congruence.
  - rewrite C2. unfold wrote. rewrite decide_True by done. by rewrite C.
  - intros a Ha Ha'. rewrite C2. unfold wrote. rewrite decide_False by done. by apply C.
Qed.

(** [itrunc] to the length 0, pipes included. *)
Lemma itrunc_empties ip s l : ready s l (file_blocks (content (fdev s)) ip) -> inode_ok ip s -> spare s 4 -> 0 <= i_size ip ->
  exists s' ip' freed, itrunc ip 0 0 s = Ok (s', ip') /\ emptied (file_blocks (content (fdev s)) ip) ip s l s' ip' freed.
Proof.
  intros Hr Hi Hm Hs. unfold itrunc, file_blocks in *. change (0 <? 0) with false. cbv iota. destruct (on (i_flag ip) IPIPE) eqn:Ep; cbn [negb] in *; rewrite ?andb_false_r, ?andb_true_r in *; cbn [andb].
  - change (on 0 IO_SYNC) with false. cbv iota zeta. change (i_size (set_isize ip MAXPIPSIZ) <? 0) with false. cbv iota.
    destruct (shrink_empties (set_isize ip MAXPIPSIZ) B_CLRBUF s l Hr) as (s'&ip'&f&E&He); [by destruct Hi|done|]. exists s', ip', f. split; [exact E|]. destruct He as [? ? ? Hz]. constructor; try done. left. by destruct Hz as [|[? _]].
  - destruct (Z.eqb_spec (i_size ip) 0) as [E0|E0].
    + destruct (updret_empties ip s l Hr Hi E0) as (s'&ip'&E&He). by exists s', ip', [].
    + cbv zeta. rewrite (proj2 (Z.ltb_ge _ _)) by lia. by apply shrink_empties.
Qed.

(** *** The number of the inode *)

(** The free inodes that the superblock lists, the last to be used first. *)
Definition listed (f : fs) : list Z := take (Z.to_nat (fs_ninode f)) (fs_inode f).
Definition inodes_ok (f : fs) : Prop := 0 <= fs_ninode f <= NICINOD /\ length (fs_inode f) = 32%nat.

(** What the lists of inodes have no part in. *)
Definition same_blocks (f f' : fs) : Prop :=
  (fs_isize f', fs_fsize f', fs_nfree f', fs_free f', fs_tfree f', fs_flock f', fs_flags f', fs_ronly f', fs_fsmnt f') =
  (fs_isize f, fs_fsize f, fs_nfree f, fs_free f, fs_tfree f, fs_flock f, fs_flags f, fs_ronly f, fs_fsmnt f).

Lemma alloc_same_blocks c f f' l : same_blocks f f' -> length (fs_inode f') = 32%nat -> alloc_ok c f l -> alloc_ok c f' l.
Proof.
  unfold same_blocks. intros E Hl [[W1 [W2 W3]] Hr Hd Hn Ht Hk Hs]. injection E as E1 E2 E3 E4 E5 E6 E7 E8 E9. constructor; rewrite ?E1, ?E2, ?E5, ?E6; try done.
  - split; [by rewrite E4|]. split; [done|by rewrite E9].
  - unfold free_rep in *. by rewrite E3, E4.
  - eapply Forall_impl; [exact Hd|]. intros a. unfold in_data. by rewrite E1, E2.
Qed.

(** The number is listed while there is room, unless the list is being made. *)
Record ifreed (ino : Z) (f f' : fs) : Prop := {
  if_blocks : same_blocks f f';
  if_count : fs_tinode f' = u32 (fs_tinode f + 1);
  if_ok : inodes_ok f';
  if_list : listed f' = if (fs_ilock f =? 0) && (fs_ninode f <? NICINOD) then listed f ++ [ino] else listed f;
  if_lock : fs_ilock f' = fs_ilock f;
  if_last : fs_lasti f' = fs_lasti f
}.

Lemma ifree_ok ino f : inodes_ok f -> exists f', ifree ino f = Ok f' /\ ifreed ino f f'.
Proof.
  intros [Hn Hl]. unfold ifree. cbn [fs_ilock set_tinode fs_ninode fs_lasti]. destruct (Z.eqb_spec (fs_ilock f) 0) as [E|E]; cbn [negb].
  2:{ eexists. split; [done|]. constructor; try done. cbn. by rewrite (proj2 (Z.eqb_neq _ _) E). }
  destruct (Z.leb_spec NICINOD (fs_ninode f)) as [Hf|Hf].
  - eexists. split; [done|]. destruct (ino <? fs_lasti f); (constructor; try done; cbn; by rewrite (proj2 (Z.ltb_ge _ _)), andb_false_r).
  - cbn [fs_inode set_tinode]. unfold NICINOD in *. rewrite wrz_ok by lia. cbn [mbind outcome_bind]. eexists. split; [done|]. constructor; try done.
    + split; cbn; [unfold NICINOD; lia|by rewrite length_insert].
    + cbn. rewrite E. rewrite (proj2 (Z.ltb_lt _ _)) by done. cbn. unfold listed. cbn. replace (Z.to_nat (fs_ninode f + 1)) with (S (Z.to_nat (fs_ninode f))) by lia.
      rewrite (take_S_r _ _ ino) by (apply list_lookup_insert_eq; lia). by rewrite take_insert_ge by lia.
Qed.

(** The last reference to an inode without links: its blocks [T] are on the
    free list, its number is free, and its place on the device says so. *)
Record deleted (T : list Z) (ip : inode) s l s' (ip' : inode) (freed : list Z) : Prop := {
  dl_mode : i_mode ip' = 0;
  dl_number : i_number ip' = i_number ip;
  dl_size : i_size ip' = 0;
  dl_clean : on (i_flag ip') IDIRTY = false;
  dl_fits : fits ip';
  dl_freed : freed ≡ₚ T;
  dl_alloc : alloc_ok (content (fdev s')) (fsb s') (freed ++ l);
  dl_fs : exists f, same_shape (fsb s) f /\ fs_ilock f = fs_ilock (fsb s) /\ ifreed (i_number ip) f (fsb s');
  dl_calm : ferr s' = ferr s /\ fnow s' = fnow s /\ held (fdev s') = held (fdev s) /\ anon (fdev s') = anon (fdev s);
  dl_disk : file_of (disk_inode (content (fdev s')) (i_number ip)) = file_of ip' /\ disk_flags (content (fdev s')) (i_number ip) = i_flags ip';
  dl_others : forall m, m <> i_number ip -> 0 < m < 2 ^ 31 -> itod m ∉ T ->
    disk_inode (content (fdev s')) m = disk_inode (content (fdev s)) m /\ disk_flags (content (fdev s')) m = disk_flags (content (fdev s)) m;
  dl_frame : forall a, a <> itod (i_number ip) -> a ∉ T -> content (fdev s') a = content (fdev s) a
}.

Lemma irele_write_dead ip s l : ready s l (file_blocks (content (fdev s)) ip) -> inode_ok ip s -> spare s 4 -> 0 <= i_size ip -> fits ip -> i_nlink ip = 0 -> inodes_ok (fsb s) -> 0 < i_number ip < 2 ^ 31 ->
  exists s' ip' freed, irele_write ip s = Ok (s', ip') /\ deleted (file_blocks (content (fdev s)) ip) ip s l s' ip' freed.
Proof.
  intros Hr Hi Hm Hs Hfit Hn Hio Hnum. unfold irele_write. rewrite Hn, (io_rw _ _ Hi). cbn [Z.leb Z.compare andb Z.eqb].
  destruct (itrunc_empties ip s l Hr Hi Hm Hs) as (s1&ip1&freed&->&[E1 E2 Esz _ E3 E4 E5 (E6&E7&E8&E9) E10 E11]). cbn [mbind outcome_bind fst snd]. injection E1 as M1 M2 M3 M4 M5 M6.
  set (ip2 := set_iflag _ _). set (T := file_blocks _ _) in *. assert (i_number ip2 = i_number ip) as N2 by done.
  assert (Hsh := E5). destruct Hsh as (S1&S2&S3&S4&S5&S6&S7&S8&_).
  destruct (ifree_ok (i_number ip2) (fsb s1)) as (f&->&Hf); [unfold inodes_ok in *; by rewrite S5, S6|]. cbn [mbind outcome_bind fst snd]. pose proof (if_blocks _ _ _ Hf) as Hsb. assert (Hsb' := Hsb). injection Hsb' as B1 B2 B3 B4 B5 B6 B7 B8 B9.
  set (s2 := with_fs s1 f). assert (inode_ok ip2 s2) as Hi2.
  { destruct Hi as [H1 H2 H3 H4]. constructor; cbn; rewrite ?M6; [by rewrite length_insert|by rewrite B1, S1|by rewrite E8|by rewrite B8, S4]. }
  assert (on (i_flag ip2) IDIRTY = true) as Hd by (cbn; rewrite on_or; change (on (Z.lor IUPD ICHG) IDIRTY) with true; by rewrite orb_true_r).
  destruct (iupdat_dirty_ok ip2 s2 Hi2) as (s3&ip3&->&(C1&C2&C3)&[F3 R3 Nw3 Ct3 H3 K3]); [apply rd_room in Hr; unfold spare in *; cbn; rewrite E8, E9; lia|]. rewrite Hd in Ct3. rewrite N2, ?M6 in *. cbn [fdev with_fs s2] in Ct3.
  injection C1 as G1 G2 G3 G4 G5 G6 G7. assert (fits ip3) as Hfit3.
  { destruct Hfit as [? ? ? ?]. constructor; rewrite ?G1, ?G2, ?G6, ?G7; cbn; [by rewrite length_insert|lia|by rewrite M2|by rewrite M5]. }
  assert (length (i_addr ip1) = 7%nat /\ length (content (fdev s) (itod (i_number ip))) = 256%nat /\ length (content (fdev s1) (itod (i_number ip))) = 256%nat) as (L1&L2&L3) by (rewrite !content_length; done).
  assert (content (fdev s3) (itod (i_number ip)) = dinode_put ip3 (Z.to_nat (itoo (i_number ip))) (content (fdev s1) (itod (i_number ip)))) as Hblk by (rewrite Ct3; unfold wrote; by rewrite decide_True).
  exists s3, ip3, freed. split; [done|]. constructor; try done.
  - by rewrite G5.
  - rewrite F3. eapply alloc_same_blocks; [exact Hsb|apply Hf|]. eapply alloc_elsewhere; [exact E4|exact Ct3|]. rewrite <- M6. apply (inode_not_data ip1 s1). destruct Hi as [? ? ? ?]. constructor; rewrite ?M6, ?S1, ?S4, ?E8; done.
  - exists (fsb s1). rewrite F3. split; [done|]. by split.
  - cbn in *. rewrite R3, Nw3, H3, K3. done.
  - by eapply disk_put.
  - intros m Hne Hmr Hmt. assert (forall a, a <> itod (i_number ip) -> content (fdev s3) a = content (fdev s1) a) as Ho by (intros a Ha; rewrite Ct3; unfold wrote; by rewrite decide_False).
    destruct (disk_put_other (content (fdev s1)) (content (fdev s3)) (i_number ip) m ip3) as [-> ->]; [by destruct Hfit3|done..|auto|].
    apply (disk_put_other (content (fdev s)) (content (fdev s1)) (i_number ip) m ip1); [done..|]. intros Hb. by apply E11.
  - intros a Ha Ha'. rewrite Ct3. unfold wrote. rewrite decide_False by done. by apply E11.
Qed.

End write.
