(* ===== verification/Fattr.v ===== *)
(** * Attributes of a file ([ufs_setattr] of [sys/kern/ufs_fio.c]; [chmod1],
    [chown1] and the system calls that change attributes, of
    [ufs_syscalls.c] and [ufs_syscalls2.c])

    The calls that change the flags, owner, size, times and mode of an inode
    all end in [ufs_setattr], which takes a set of attributes, those marked
    VNOVAL not to be changed. A call is modelled from the inode its name or
    descriptor leads to on. The credential is that of [Cred]; [u.u_error] is
    the one of the file system's state. The flags are those that 16 bits hold
    ([COMPACT_INODE_FIELDS]). Left out: the log. *)
From stdpp Require Import gmap.
From S2P Require Import Prelude Cred Fsalloc Fsmap Fstrunc Frdwr Icache Finode.

Definition IFDIR : Z := 0x4000.
Definition ISVTX : Z := 0x200.
Definition SF_IMMUTABLE : Z := 0x0200.
Definition SF_APPEND : Z := 0x0400.
Definition SF_SETTABLE : Z := 0xff00.
Definition UF_SETTABLE : Z := 0x00ff.
Definition VA_UTIMES_NULL : Z := 1.
Definition FS_EISDIR : Z := 21.
Definition EFTYPE : Z := 79.

(** [struct vattr]; [None] for VNOVAL. *)
Record vattr := Vattr {
  va_mode : option Z; va_uid : option Z; va_gid : option Z; va_size : option Z;
  va_atime : option Z; va_mtime : option Z; va_flags : option Z; va_vaflags : Z
}.

Definition set_iids (ip : inode) (uid gid : Z) : inode :=
  Inode (i_number ip) (i_flag ip) (i_addr ip) (i_mode ip) (i_nlink ip) uid gid (i_size ip) (i_flags ip) (i_atime ip) (i_mtime ip) (i_ctime ip).
Definition set_iflags (ip : inode) (flags : Z) : inode :=
  Inode (i_number ip) (i_flag ip) (i_addr ip) (i_mode ip) (i_nlink ip) (i_uid ip) (i_gid ip) (i_size ip) flags (i_atime ip) (i_mtime ip) (i_ctime ip).
Definition mark (ip : inode) (m : Z) : inode := set_iflag ip (Z.lor (i_flag ip) m).

Section attr.
Context {D : Type} {BD : BufDev D}.
Implicit Types (s : fsys D).

(** [suser], its error put into [u.u_error]. *)
Definition fs_suser (cr : cred) s : bool * fsys D :=
  let '(ok, cr) := suser cr in (ok, if ok then s else with_err s (Cred.u_error cr)).
(** [u.u_uid != ip->i_uid && !suser()]. *)
Definition not_owner (cr : cred) (ip : inode) s : bool * fsys D :=
  if u_uid cr =? i_uid ip then (false, s) else let '(ok, s) := fs_suser cr s in (negb ok, s).

(** [chmod1]: the state, the inode and the error. *)
Definition chmod1 (cr : cred) (ip : inode) (mode : Z) s : fsys D * inode * Z :=
  let '(no, s) := not_owner cr ip s in
  if no then (s, ip, ferr s)
  else if negb (u_uid cr =? 0) && negb (Z.land (i_mode ip) IFMT =? IFDIR) && on mode ISVTX then (s, ip, EFTYPE)
  else if negb (u_uid cr =? 0) && negb (groupmember (i_gid ip) cr) && on mode ISGID then (s, ip, FS_EPERM)
  else (s, mark (set_imode ip (Z.lor (Z.ldiff (i_mode ip) 0xfff) (Z.land mode 0xfff))) ICHG, 0).

(** [chown1]. *)
Definition chown1 (cr : cred) (ip : inode) (uid gid : option Z) s : fsys D * inode * Z :=
  let uid := default (i_uid ip) uid in
  let gid := default (i_gid ip) gid in
  let '(ok, s) := if negb (u_uid cr =? i_uid ip) || negb (uid =? i_uid ip) || negb (groupmember gid cr) then fs_suser cr s else (true, s) in
  if negb ok then (s, ip, ferr s)
  else
    let ouid := i_uid ip in
    let ogid := i_gid ip in
    let ip := set_iids ip uid gid in
    let ip := if negb (ouid =? uid) || negb (ogid =? gid) then mark ip ICHG else ip in
    let ip := if negb (ouid =? uid) && negb (u_uid cr =? 0) then set_imode ip (Z.ldiff (i_mode ip) ISUID) else ip in
    let ip := if negb (ogid =? gid) && negb (u_uid cr =? 0) then set_imode ip (Z.ldiff (i_mode ip) ISGID) else ip in
    (s, ip, 0).

(** The flags: [Some e] when [ufs_setattr] returns [e] there. *)
Definition setattr_flags (securelevel : Z) (cr : cred) (ip : inode) (flags : Z) s : fsys D * inode * option Z :=
  if negb (Z.land flags (Z.lnot 0xffff) =? 0) then (s, ip, Some FS_EINVAL)
  else
    let '(no, s) := not_owner cr ip s in
    if no then (s, ip, Some (ferr s))
    else
      let sealed := on (i_flags ip) (Z.lor SF_IMMUTABLE SF_APPEND) in
      if (u_uid cr =? 0) && sealed && (0 <? securelevel) || negb (u_uid cr =? 0) && sealed then (s, ip, Some FS_EPERM)
      else
        let ip := set_iflags ip (if u_uid cr =? 0 then flags else Z.lor (Z.land (i_flags ip) SF_SETTABLE) (Z.land flags UF_SETTABLE)) in
        let ip := mark ip ICHG in
        (s, ip, if on flags (Z.lor IMMUTABLE APPEND) then Some 0 else None).

(** The inode as [access] reads it. *)
Definition perm_of (ip : inode) s : perm_inode :=
  Perm (i_mode ip) (i_uid ip) (i_gid ip) (i_flags ip) (i_flag ip) (negb (fs_ronly (fsb s) =? 0)).

(** The times; the inode is written at once. *)
Definition setattr_times (cr : cred) (va : vattr) (ip : inode) s : outcome (fsys D * inode * option Z) :=
  match va_atime va, va_mtime va with
  | None, None => Ok (s, ip, None)
  | at_, mt =>
      let '(no, s) := not_owner cr ip s in
      let '(no, s) :=
        if no then
          if negb (on (va_vaflags va) VA_UTIMES_NULL) then (true, s)
          else
            let '(refused, cr) := access (perm_of ip s) IWRITE (set_error cr (ferr s)) in
            (refused, with_err s (Cred.u_error cr))
        else (false, s) in
      if no then Ok (s, ip, Some (ferr s))
      else
        let ip := if at_ then mark ip IACC else ip in
        let ip := if mt then mark ip (Z.lor IUPD ICHG) else ip in
        r ← iupdat_at (default (-1) at_) (default (-1) mt) ip true s;
        Ok (fst r, None)
  end.

(** [ufs_setattr]. *)
Definition ufs_setattr (securelevel : Z) (cr : cred) (ip : inode) (va : vattr) s : outcome (fsys D * inode * Z) :=
  if negb (fs_ronly (fsb s) =? 0) then Ok (s, ip, EROFS)
  else
    let '(s, ip, r) := match va_flags va with Some fl => setattr_flags securelevel cr ip fl s | None => (s, ip, None) end in
    match r with
    | Some e => Ok (s, ip, e)
    | None =>
        if on (i_flags ip) (Z.lor IMMUTABLE APPEND) then Ok (s, ip, FS_EPERM)
        else
          let '(s, ip, e) := match va_uid va, va_gid va with None, None => (s, ip, 0) | uid, gid => chown1 cr ip uid gid s end in
          if negb (e =? 0) then Ok (s, ip, e)
          else
            r ← match va_size va with
                | None => Ok (s, ip, None)
                | Some size =>
                    if Z.land (i_mode ip) IFMT =? IFDIR then Ok (s, ip, Some FS_EISDIR)
                    else r ← itrunc ip size 0 s; Ok (r, if ferr (fst r) =? 0 then None else Some (ferr (fst r)))
                end;
            match snd r with
            | Some e => Ok (fst r, e)
            | None =>
                r ← setattr_times cr va (snd (fst r)) (fst (fst r));
                match snd r, va_mode va with
                | Some e, _ => Ok (fst r, e)
                | None, Some mode => Ok (chmod1 cr (snd (fst r)) mode (fst (fst r)))
                | None, None => Ok (fst r, 0)
                end
            end
    end.

(** A value of VNOVAL asks for nothing. *)
Definition asked (v : Z) : option Z := if v =? -1 then None else Some v.

(** The system calls, by name or by descriptor: [fwrite] is FWRITE of the
    descriptor [ftruncate] is given; no times means the present ones. *)
Inductive attr_call :=
| Chflags (flags : Z)
| Chmod (mode : Z)
| Chown (uid gid : Z)
| Truncate (length : Z)
| Ftruncate (fwrite : bool) (length : Z)
| Utimes (times : option (Z * Z)).

Definition sized (length : Z) : vattr := Vattr None None None (asked length) None None None 0xffffffff.

(** [prepare_utimes_attributes]. *)
Definition utimes_attributes (times : option (Z * Z)) (now : Z) : vattr :=
  let '(a, m) := default (now, now) times in
  Vattr None None None None (asked a) (asked m) None (if times then 0 else VA_UTIMES_NULL).

Definition setattr_call (securelevel : Z) (cr : cred) (ip : inode) (c : attr_call) s : outcome (fsys D * inode * Z) :=
  match c with
  | Chflags flags => ufs_setattr securelevel cr ip (Vattr None None None None None None (Some (trunc 16 flags)) 0xffffffff) s
  | Chmod mode => ufs_setattr securelevel cr ip (Vattr (Some (Z.land mode 0xfff)) None None None None None None 0xffffffff) s
  | Chown uid gid => ufs_setattr securelevel cr ip (Vattr None (asked uid) (asked gid) None None None None 0xffffffff) s
  | Truncate length =>
      let '(refused, cr') := access (perm_of ip s) IWRITE (set_error cr (ferr s)) in
      if refused then Ok (with_err s (Cred.u_error cr'), ip, Cred.u_error cr') else ufs_setattr securelevel cr ip (sized length) s
  | Ftruncate fwrite length => if negb fwrite then Ok (s, ip, FS_EINVAL) else ufs_setattr securelevel cr ip (sized length) s
  | Utimes times => ufs_setattr securelevel cr ip (utimes_attributes times (fnow s)) s
  end.

End attr.

(** ** What a caller without privilege can change *)

Section confinement.
Context {D : Type} {BD : BufDev D} (cr : cred) (Huser : u_uid cr <> 0).
Implicit Types (s : fsys D).

(** The caller owns the inode. *)
Abbreviation owns ip := (u_uid cr = i_uid ip).
Abbreviation kind ip := (Z.land (i_mode ip) IFMT).

(** The change from [ip] to [ip'] is within the caller's rights. *)
Record within (ip ip' : inode) : Prop := {
  wi_fixed : i_number ip' = i_number ip /\ i_nlink ip' = i_nlink ip /\ i_uid ip' = i_uid ip;
  wi_kind : kind ip' = kind ip;
  wi_system : Z.land (i_flags ip') SF_SETTABLE = Z.land (i_flags ip) SF_SETTABLE;
  wi_group : i_gid ip' = i_gid ip \/ groupmember (i_gid ip') cr = true;
  wi_setgid : on (i_mode ip') ISGID = true -> on (i_mode ip) ISGID = true /\ i_gid ip' = i_gid ip \/ groupmember (i_gid ip') cr = true;
  wi_sticky : on (i_mode ip') ISVTX = true -> on (i_mode ip) ISVTX = true \/ kind ip' = IFDIR;
  wi_owner : owns ip \/ i_mode ip' = i_mode ip /\ i_gid ip' = i_gid ip /\ i_flags ip' = i_flags ip
}.

#[export] Instance within_preorder : PreOrder within.
Proof.
  split; [intros ip; constructor; auto|]. intros x y z [(A1&A2&A3) A4 A5 A6 A7 A8 A9] [(B1&B2&B3) B4 B5 B6 B7 B8 B9]. constructor; [|congruence|congruence|..].
  - split; [congruence|split; congruence].
  - destruct B6 as [->|]; [done|by right].
  - intros H. destruct (B7 H) as [[H1 ->]|]; [|by right]. by apply A7.
  - intros H. destruct (B8 H) as [H1|]; [|by right]. destruct (A8 H1) as [|E]; [by left|right]. congruence.
  - rewrite A3 in B9. destruct A9 as [|(?&?&?)]; [by left|]. destruct B9 as [|(?&?&?)]; [by left|right]. split; [congruence|split; congruence].
Qed.

Lemma within_rest ip ip' : rest_of ip' = rest_of ip -> within ip ip'.
Proof. unfold rest_of. intros E. injection E as E1 E2 E3 E4 E5 E6. constructor; rewrite ?E1, ?E2, ?E3, ?E4, ?E5, ?E6; auto. Qed.
Lemma within_mark ip m : within ip (mark ip m).
Proof. by apply within_rest. Qed.

Lemma suser_refused s : exists s', fs_suser cr s = (false, s') /\ fdev s' = fdev s /\ fsb s' = fsb s /\ ferr s' = FS_EPERM.
Proof. unfold fs_suser, suser. rewrite (proj2 (Z.eqb_neq _ _) Huser). by eexists. Qed.
Lemma not_owner_cases ip s : owns ip /\ not_owner cr ip s = (false, s) \/ ~ owns ip /\ exists s', not_owner cr ip s = (true, s') /\ ferr s' = FS_EPERM.
Proof.
  unfold not_owner. destruct (Z.eqb_spec (u_uid cr) (i_uid ip)) as [E|E]; [by left|right]. split; [done|]. destruct (suser_refused s) as (s'&->&_&_&?). by exists s'.
Qed.

(** Bits of a new mode: the kind stays, and the rest is what was asked for. *)
Lemma new_mode m mode : Z.land (Z.lor (Z.ldiff m 0xfff) (Z.land mode 0xfff)) IFMT = Z.land m IFMT.
Proof.
  rewrite Z.land_lor_distr_l, Z.ldiff_land, <- !Z.land_assoc. change (Z.land 0xfff IFMT) with 0. rewrite Z.land_0_r, Z.lor_0_r. done.
Qed.
Lemma new_mode_on m mode k : Z.land 0xfff k = k -> on (Z.lor (Z.ldiff m 0xfff) (Z.land mode 0xfff)) k = on mode k.
Proof.
  intros Hk. rewrite on_or. unfold on. rewrite Z.ldiff_land, <- !Z.land_assoc, Hk. assert (Z.land (Z.lnot 0xfff) k = 0) as -> by (rewrite <- Hk, Z.land_assoc, (Z.land_comm (Z.lnot _)), Z.land_lnot_diag; done).
  by rewrite Z.land_0_r.
Qed.

Lemma chmod1_within ip mode s s' ip' e : chmod1 cr ip mode s = (s', ip', e) -> within ip ip'.
Proof.
  unfold chmod1. destruct (not_owner_cases ip s) as [[Ho ->]|[Ho (s1&->&_)]]; [|by intros [= _ <- _]]. rewrite (proj2 (Z.eqb_neq _ _) Huser). cbn [negb andb].
  destruct (negb (Z.land (i_mode ip) IFMT =? IFDIR) && on mode ISVTX) eqn:E1; [by intros [= _ <- _]|]. destruct (negb (groupmember (i_gid ip) cr) && on mode ISGID) eqn:E2; [by intros [= _ <- _]|].
  intros [= _ <- _]. constructor; cbn [mark set_iflag set_imode i_number i_nlink i_uid i_gid i_mode i_flags]; rewrite ?new_mode, ?new_mode_on by done; auto.
  - intros Hg. rewrite Hg, andb_true_r in E2. apply negb_false_iff in E2. auto.
  - intros Hv. rewrite Hv, andb_true_r in E1. apply negb_false_iff, Z.eqb_eq in E1. auto.
Qed.

(** Taking the set-group bit away. *)
Lemma ldiff_bit m k j : Z.land k j = 0 -> Z.land (Z.ldiff m k) j = Z.land m j.
Proof. intros E. apply kept_diff. by rewrite Z.land_comm. Qed.
Lemma ldiff_on m k j : Z.land k j = 0 -> on (Z.ldiff m k) j = on m j.
Proof. intros E. unfold on. by rewrite ldiff_bit. Qed.
Lemma ldiff_off m k : on (Z.ldiff m k) k = false.
Proof. unfold on. rewrite Z.ldiff_land, <- Z.land_assoc, (Z.land_comm (Z.lnot k)), Z.land_lnot_diag. by rewrite Z.land_0_r. Qed.

Lemma chown1_within ip uid gid s s' ip' e : chown1 cr ip uid gid s = (s', ip', e) -> within ip ip'.
Proof.
  unfold chown1. cbv zeta. set (u := default _ uid). set (g := default _ gid). destruct (suser_refused s) as (s1&E1&_).
  destruct (negb (u_uid cr =? i_uid ip) || negb (u =? i_uid ip) || negb (groupmember g cr)) eqn:E; [rewrite E1; by intros [= _ <- _]|]. cbn [negb].
  apply orb_false_iff in E as [[Eo%negb_false_iff%Z.eqb_eq Eu%negb_false_iff%Z.eqb_eq]%orb_false_iff Eg%negb_false_iff]. rewrite Eu, Z.eqb_refl, (proj2 (Z.eqb_neq _ _) Huser). cbn [negb andb orb].
  intros [= _ <- _]. destruct (Z.eqb_spec (i_gid ip) g) as [Ei|Ei]; cbn [negb andb].
  - rewrite <- Ei. constructor; cbn; auto.
  - constructor; cbn [mark set_iflag set_imode set_iids i_number i_nlink i_uid i_gid i_mode i_flags]; auto.
    + by apply ldiff_bit.
    + intros H. by rewrite ldiff_on in H by done; left.
Qed.

Lemma flags_within sl ip fl s s' ip' r : setattr_flags sl cr ip fl s = (s', ip', r) -> within ip ip' /\ (on (i_flags ip) (Z.lor SF_IMMUTABLE SF_APPEND) = true -> ip' = ip /\ r <> None).
Proof.
  unfold setattr_flags. destruct (negb _); [by intros [= _ <- <-]|]. destruct (not_owner_cases ip s) as [[Ho ->]|[Ho (s1&->&_)]]; [|by intros [= _ <- <-]].
  rewrite (proj2 (Z.eqb_neq _ _) Huser). cbn [negb andb orb]. destruct (on (i_flags ip) (Z.lor SF_IMMUTABLE SF_APPEND)) eqn:Es; [by intros [= _ <- <-]|]. intros [= _ <- _]. split; [|done].
  constructor; cbn [mark set_iflag set_iflags i_number i_nlink i_uid i_gid i_mode i_flags]; auto.
  rewrite Z.land_lor_distr_l, <- !Z.land_assoc. change (Z.land UF_SETTABLE SF_SETTABLE) with 0. rewrite Z.land_diag, Z.land_0_r. apply Z.lor_0_r.
Qed.

Lemma times_within va ip s s' ip' r : setattr_times cr va ip s = Ok (s', ip', r) -> within ip ip'.
Proof.
  unfold setattr_times. intros H. assert (forall (a m : option Z) s0, (r ← iupdat_at (default (-1) a) (default (-1) m) (if m then mark (if a then mark ip IACC else ip) (Z.lor IUPD ICHG) else if a then mark ip IACC else ip) true s0; Ok (fst r, None)) = Ok (s', ip', r) -> within ip ip') as Hup.
  { intros a m s0 Hu. inv_ok Hu. destruct r0 as [[s1 ip1] e]. simplify_eq. cbn in *. simplify_eq. apply iupdat_at_framed in E. etransitivity; [|apply within_rest, E]. destruct m, a; by apply within_rest. }
  destruct (va_atime va) as [a|]; [|destruct (va_mtime va) as [m|]; [|by simplify_eq]].
  - destruct (not_owner cr ip s) as [no s1]. destruct no; [destruct (negb _)|]; [by simplify_eq| |by apply (Hup (Some a) (va_mtime va) s1)]. destruct (access _ _ _) as [refused cr1]. destruct refused; [by simplify_eq|]. by eapply (Hup (Some a) (va_mtime va)).
  - destruct (not_owner cr ip s) as [no s1]. destruct no; [destruct (negb _)|]; [by simplify_eq| |by apply (Hup None (Some m) s1)]. destruct (access _ _ _) as [refused cr1]. destruct refused; [by simplify_eq|]. by eapply (Hup None (Some m)).
Qed.

End confinement.

Section returns.
Context {D : Type} {BD : BufDev D} {BS : BufSpec D}.
Implicit Types (s : fsys D).

Lemma inode_ok_calm ip ip' s s' : inode_ok ip s -> i_number ip' = i_number ip -> length (i_addr ip') = 7%nat -> same_shape (fsb s) (fsb s') -> held (fdev s') = held (fdev s) -> inode_ok ip' s'.
Proof. intros [A B C E] En Ha (S1&S2&_&S4&_) Hh. constructor; rewrite ?En, ?S1, ?S4, ?Hh; done. Qed.

(** [itrunc] returns, whatever the new length; when it reports no error the
    inode can still be written. *)
Lemma itrunc_returns ip n s l : ready s l (owned (content (fdev s)) (i_addr ip)) -> inode_ok ip s -> spare s 4 -> ferr s = 0 -> on (i_flag ip) IPIPE = false -> 0 <= i_size ip < 2 ^ 31 -> n < 2 ^ 31 ->
  exists s' ip', itrunc ip n 0 s = Ok (s', ip') /\ (ferr s' = 0 -> inode_ok ip' s' /\ spare s' 4).
Proof.
  intros Hr Hio Hm He Hp Hs Hn. assert (forall s' ip', itrunc ip n 0 s = Ok (s', ip') -> i_number ip' = i_number ip) as Hnum by (intros s' ip' E; apply itrunc_framed, framed_kept in E; apply E).
  assert (forall s', held (fdev s') = held (fdev s) -> anon (fdev s') = anon (fdev s) -> spare s' 4) as Hsp by (intros s' E1 E2; unfold spare in *; by rewrite E1, E2).
  destruct (Z.lt_ge_cases n 0) as [Hn0|Hn0].
  { eexists _, _. unfold itrunc. rewrite (proj2 (Z.ltb_lt _ _) Hn0). split; [done|]. done. }
  destruct (Z.lt_trichotomy n (i_size ip)) as [Hlt|[Heq|Hgt]].
  - destruct (itrunc_truncates ip n 0 s l Hr Hio Hm He Hp ltac:(lia) ltac:(lia)) as (s'&ip'&E&Hcase). exists s', ip'. split; [exact E|]. destruct Hcase as [[l' T]|[_ (Ee&_)]]; [|by rewrite Ee].
    intros _. destruct (tr_calm _ _ _ _ _ _ _ T) as (Sh&_&Hh&Hk). split; [|by apply Hsp]. eapply inode_ok_calm; [exact Hio|by eapply Hnum|apply T|done|done].
  - unfold itrunc in *. rewrite (proj2 (Z.ltb_ge n 0)), Hp, Heq, Z.eqb_refl in * by lia. cbn [negb andb] in *. destruct (itrunc_updret_ok ip s Hio) as (s'&ip'&E&Ea&_&En&[F R N C H K]); [unfold spare in *; lia|]. exists s', ip'. split; [exact E|].
    intros _. split; [|by apply Hsp]. eapply inode_ok_calm; [exact Hio|done|rewrite Ea; apply Hio|by rewrite F|done].
  - unfold itrunc. rewrite (proj2 (Z.ltb_ge n 0)), Hp, (proj2 (Z.eqb_neq _ _)), (proj2 (Z.ltb_lt _ _) Hgt) by lia. cbn [negb andb]. change (on 0 IO_SYNC) with false. cbv iota zeta.
    destruct (pass_place (n - 1)) as (El&_&Hb); [lia|]. rewrite El. destruct (bmap_ok ip ((n - 1) / 1024) B_WRITE B_CLRBUF 0 s l) as (s1&ip1&v&ra&new&l1&->&(Hlen&Hex&_)&Hip); [unfold MAXBLK; lia|apply Hio|exact Hr|unfold spare in *; lia|]. rewrite bind_ok.
    destruct (negb (ferr s1 =? 0) || (v <? 0)) eqn:Ev.
    + eexists s1, ip1. split; [done|]. intros E0. rewrite E0 in Ev. cbn in Ev. destruct Hex as [_ _ Sh _ K H _ _ _]. split; [|by apply Hsp]. eapply inode_ok_calm; [exact Hio| |done|done|done]. destruct Hip as [->| ->]; done.
    + destruct Hex as [_ _ Sh _ K H _ _ _]. assert (inode_ok (set_isize ip1 n) s1) as Hio1 by (eapply inode_ok_calm; [exact Hio| |done|done|done]; destruct Hip as [->| ->]; done).
      destruct (itrunc_updret_ok (set_isize ip1 n) s1 Hio1) as (s'&ip'&E&Ea&_&En&[F R N C H' K']); [pose proof (Hsp s1 H K); unfold spare in *; lia|]. exists s', ip'. split; [exact E|].
      intros _. split; [|apply Hsp; congruence]. eapply inode_ok_calm; [exact Hio1|done|rewrite Ea; exact Hlen|by rewrite F|done].
Qed.

Lemma times_returns cr va ip s : inode_ok ip s -> spare s 4 -> exists s' ip' r, setattr_times cr va ip s = Ok (s', ip', r).
Proof.
  intros Hio Hm. unfold setattr_times. assert (forall (a m : option Z) s0 (o : option Z), fdev s0 = fdev s -> fsb s0 = fsb s ->
    exists s' ip' r, (r ← iupdat_at (default (-1) a) (default (-1) m) (if m then mark (if a then mark ip IACC else ip) (Z.lor IUPD ICHG) else if a then mark ip IACC else ip) true s0; Ok (fst r, o)) = Ok (s', ip', r)) as Hup.
  { intros a m s0 o E1 E2. set (ip1 := if m then _ else _). assert (inode_ok ip1 s0) as Hi1 by (destruct Hio; unfold ip1; destruct m, a; constructor; rewrite ?E1, ?E2; done).
    destruct (on (i_flag ip1) IDIRTY) eqn:Ed.
    - destruct (iupdat_at_ok (default (-1) a) (default (-1) m) ip1 true s0 Hi1) as (s'&ip'&->&_); [unfold spare in *; rewrite E1; lia|exact Ed|]. rewrite bind_ok. by eexists _, _, _.
    - unfold iupdat_at. unfold on, IDIRTY in Ed. apply negb_false_iff in Ed. rewrite Ed, bind_ok. by eexists _, _, _. }
  assert (forall s0, exists no s1, not_owner cr ip s0 = (no, s1) /\ fdev s1 = fdev s0 /\ fsb s1 = fsb s0) as Hno.
  { intros s0. unfold not_owner, fs_suser, suser. destruct (_ =? i_uid ip); [by eexists _, _|]. destruct (_ =? 0); by eexists _, _. }
  destruct (Hno s) as (no&s1&->&E1&E2). destruct (va_atime va) as [a|]; [|destruct (va_mtime va) as [m|]; [|by eexists _, _, _]].
  - destruct no; [destruct (negb _); [by eexists _, _, _|]; destruct (access _ _ _) as [refused cr1]; destruct refused; [by eexists _, _, _|]|]; by apply (Hup (Some a) (va_mtime va)).
  - destruct no; [destruct (negb _); [by eexists _, _, _|]; destruct (access _ _ _) as [refused cr1]; destruct refused; [by eexists _, _, _|]|]; by apply (Hup None (Some m)).
Qed.

End returns.

Section confined.
Context {D : Type} {BD : BufDev D} {BS : BufSpec D} (cr : cred) (Huser : u_uid cr <> 0).
Implicit Types (s : fsys D).
Abbreviation owns ip := (u_uid cr = i_uid ip).
Abbreviation kind ip := (Z.land (i_mode ip) IFMT).

(** The caller may write the file, and may set its times as asked. *)
Definition may_write (ip : inode) s : bool := negb (fst (access (perm_of ip s) IWRITE cr)).
Definition asks_times (va : vattr) : bool := match va_atime va, va_mtime va with None, None => false | _, _ => true end.
Definition may_date (ip : inode) (va : vattr) s : bool := (u_uid cr =? i_uid ip) || (on (va_vaflags va) VA_UTIMES_NULL && may_write ip s).

Definition times_of (ip : inode) := (i_atime ip, i_mtime ip, i_ctime ip).
Definition body_of (ip : inode) := (i_size ip, i_addr ip).

(** The mode, flags and owner changed: the inode has the blocks and the times
    it had. *)
Definition same_body (ip ip' : inode) : Prop :=
  i_number ip' = i_number ip /\ body_of ip' = body_of ip /\ times_of ip' = times_of ip /\
  on (i_flag ip') IPIPE = on (i_flag ip) IPIPE /\ on (i_flag ip') ITEXT = on (i_flag ip) ITEXT.

Lemma body_refl ip : same_body ip ip.
Proof. by split_and!. Qed.
Lemma body_mark ip ip' m : same_body ip ip' -> Z.land m IPIPE = 0 -> Z.land m ITEXT = 0 -> same_body ip (mark ip' m).
Proof. intros (E1&E2&E3&E4&E5) H1 H2. do 3 (split; [done|]). cbn. rewrite !on_or, E4, E5. assert (forall k, Z.land m k = 0 -> on m k = false) as Hk by (intros k E; unfold on; by rewrite E). by rewrite !Hk, !orb_false_r. Qed.

Lemma flags_body sl ip fl s s' ip' r : setattr_flags sl cr ip fl s = (s', ip', r) -> same_body ip ip' /\ (r = None -> s' = s).
Proof.
  unfold setattr_flags. destruct (negb _); [intros [= <- <- <-]; by split; [apply body_refl|]|].
  destruct (not_owner_cases cr Huser ip s) as [[Ho ->]|[Ho (s1&->&_)]]; [|intros [= <- <- <-]; by split; [apply body_refl|]]. cbv zeta.
  destruct (_ || _); [intros [= <- <- <-]; by split; [apply body_refl|]|]. intros [= <- <- _]. split; [|done]. apply (body_mark ip); [|done..]. by split_and!.
Qed.
Lemma chown1_body ip uid gid s s' ip' e : chown1 cr ip uid gid s = (s', ip', e) -> same_body ip ip' /\ (e = 0 -> s' = s).
Proof.
  unfold chown1. cbv zeta. destruct (suser_refused cr Huser s) as (s1&E1&_&_&Ee).
  destruct (_ || _); [rewrite E1; cbn [negb]; intros [= <- <- <-]; split; [apply body_refl|by rewrite Ee]|]. cbn [negb]. intros [= <- <- _]. split; [|done].
  set (ip1 := set_iids _ _ _). assert (same_body ip ip1) as B by by split_and!. destruct (_ || _); repeat (destruct (_ && _)); try done; by apply (body_mark ip ip1 ICHG).
Qed.
Lemma chmod1_body ip mode s s' ip' e : chmod1 cr ip mode s = (s', ip', e) -> same_body ip ip'.
Proof.
  unfold chmod1. destruct (not_owner cr ip s) as [no s1]. destruct no; [intros [= _ <- _]; apply body_refl|]. repeat (destruct (_ && _ && _); [intros [= _ <- _]; apply body_refl|]).
  intros [= _ <- _]. apply (body_mark ip); [|done..]. by split_and!.
Qed.
Lemma iupdat_at_body ta tm ip w s s' ip' e : iupdat_at ta tm ip w s = Ok (s', ip', e) -> body_of ip' = body_of ip.
Proof.
  unfold iupdat_at. intros H. destruct (_ =? 0); [by simplify_eq|]. destruct (negb _); [by simplify_eq|]. inv_ok H. destruct (snd r) as [x sh|].
  - cbv zeta in H. destruct w; inv_ok H; simplify_eq; [by destruct (_ =? 0)|done].
  - inv_ok H. by simplify_eq.
Qed.

Lemma sealed_on f : on f (Z.lor SF_IMMUTABLE SF_APPEND) = true -> on f (Z.lor IMMUTABLE APPEND) = true.
Proof. change (Z.lor IMMUTABLE APPEND) with (Z.lor (Z.lor SF_IMMUTABLE SF_APPEND) 6). intros H. by rewrite on_or_r, H. Qed.

(** Write permission is the same for an inode of the same mode, owner and
    flags; the error the credential holds does not matter. *)
Lemma may_write_eq ip ip' s s' e : i_mode ip' = i_mode ip -> i_uid ip' = i_uid ip -> i_gid ip' = i_gid ip -> i_flags ip' = i_flags ip ->
  on (i_flag ip') ITEXT = on (i_flag ip) ITEXT -> fs_ronly (fsb s') = fs_ronly (fsb s) ->
  fst (access (perm_of ip' s') IWRITE (set_error cr e)) = fst (access (perm_of ip s) IWRITE cr).
Proof.
  intros E1 E2 E3 E4 E5 E6. unfold access, perm_of, access_mode. cbn. rewrite E1, E2, E3, E4, E6. unfold on in E5. rewrite E5.
  repeat match goal with |- fst (if ?b then _ else _) = fst (if ?b then _ else _) => destruct b; [done|] end. done.
Qed.

(** A refusal of [access] leaves an error. *)
Lemma access_error p m c : fst (access p m c) = true -> Cred.u_error (snd (access p m c)) <> 0.
Proof. unfold access. repeat (match goal with |- context [if ?b then _ else _] => destruct b end; cbn [fst snd set_error Cred.u_error]; [done|]). done. Qed.

(** What a change of attributes comes to. *)
Record changed (ip : inode) (va : vattr) s s' (ip' : inode) (e : Z) : Prop := {
  ch_within : within cr ip ip';
  ch_sealed : on (i_flags ip) (Z.lor SF_IMMUTABLE SF_APPEND) = true -> ip' = ip /\ e <> 0 /\ fdev s' = fdev s /\ fsb s' = fsb s;
  ch_body : va_size va = None \/ kind ip = IFDIR -> body_of ip' = body_of ip;
  ch_refused : asks_times va = true -> may_date ip va s = false -> e <> 0;
  ch_times : va_size va = None -> asks_times va = false \/ may_date ip va s = false -> times_of ip' = times_of ip
}.

(** Nothing to do with the flags, or they were set. *)
Lemma flags_part sl va ip s : exists s1 ip1 r, match va_flags va with Some fl => setattr_flags sl cr ip fl s | None => (s, ip, None) end = (s1, ip1, r) /\
  within cr ip ip1 /\ same_body ip ip1 /\ fdev s1 = fdev s /\ fsb s1 = fsb s /\ (r = None -> s1 = s) /\ (~ owns ip -> r <> Some 0) /\
  (on (i_flags ip) (Z.lor SF_IMMUTABLE SF_APPEND) = true -> ip1 = ip /\ r <> Some 0).
Proof.
  destruct (va_flags va) as [fl|]; [|eexists s, ip, None; split_and!; by try apply body_refl]. destruct (setattr_flags sl cr ip fl s) as [[s1 ip1] r] eqn:E. exists s1, ip1, r. split; [done|].
  destruct (flags_within cr Huser _ _ _ _ _ _ _ E) as [Hw Hs]. destruct (flags_body _ _ _ _ _ _ _ E) as [Hb Hn].
  split; [exact Hw|]. split; [exact Hb|]. assert (H := E). unfold setattr_flags in H. destruct (negb (Z.land fl _ =? 0)).
  { injection H as <- <- <-. repeat (split; [done|]). done. }
  destruct (not_owner_cases cr Huser ip s) as [[Ho Eo]|[Ho (s2&Eo&Ee)]]; rewrite Eo in H.
  - cbv zeta in H. rewrite (proj2 (Z.eqb_neq _ _) Huser) in H. cbn [negb andb orb] in H. destruct (on (i_flags ip) (Z.lor SF_IMMUTABLE SF_APPEND)) eqn:Es.
    + injection H as <- <- <-. repeat (split; [done|]). done.
    + do 2 (split; [by injection H as <- _ _|]). split; [exact Hn|]. done.
  - injection H as -> -> <-. unfold not_owner, fs_suser, suser in Eo. destruct (_ =? i_uid ip1); [done|]. rewrite (proj2 (Z.eqb_neq _ _) Huser) in Eo. injection Eo as <-. repeat (split; [done|]). done.
Qed.

(** The owner: nothing to change, refused, or changed. *)
Lemma owner_part va ip s : exists s1 ip1 e, match va_uid va, va_gid va with None, None => (s, ip, 0) | uid, gid => chown1 cr ip uid gid s end = (s1, ip1, e) /\
  within cr ip ip1 /\ same_body ip ip1 /\ (e = 0 -> s1 = s).
Proof.
  assert (forall uid gid, exists s1 ip1 e, chown1 cr ip uid gid s = (s1, ip1, e) /\ within cr ip ip1 /\ same_body ip ip1 /\ (e = 0 -> s1 = s)) as H.
  { intros uid gid. destruct (chown1 cr ip uid gid s) as [[s1 ip1] e] eqn:E. exists s1, ip1, e. split; [done|]. split; [by eapply chown1_within|]. by eapply chown1_body. }
  destruct (va_uid va) as [u|]; [apply H|]. destruct (va_gid va) as [g|]; [apply H|]. eexists s, ip, 0. split_and!; by try apply body_refl.
Qed.

(** The size, and what follows it. *)
Lemma size_part va ip s l : ready s l (owned (content (fdev s)) (i_addr ip)) -> inode_ok ip s -> spare s 4 -> ferr s = 0 -> on (i_flag ip) IPIPE = false -> 0 <= i_size ip < 2 ^ 31 ->
  (forall n, va_size va = Some n -> n < 2 ^ 31) ->
  exists s1 ip1 r, (match va_size va with
                | None => Ok (s, ip, None)
                | Some size =>
                    if Z.land (i_mode ip) IFMT =? IFDIR then Ok (s, ip, Some FS_EISDIR)
                    else r ← itrunc ip size 0 s; Ok (r, if ferr (fst r) =? 0 then None else Some (ferr (fst r)))
                end) = Ok (s1, ip1, r) /\ framed ip ip1 /\ r <> Some 0 /\ (r = None -> inode_ok ip1 s1 /\ spare s1 4) /\
    (va_size va = None \/ kind ip = IFDIR -> ip1 = ip).
Proof.
  intros Hr Hio Hm He Hp Hs Hn. destruct (va_size va) as [n|]; [|by eexists s, ip, None]. destruct (Z.eqb_spec (Z.land (i_mode ip) IFMT) IFDIR); [by eexists s, ip, _|].
  destruct (itrunc_returns ip n s l Hr Hio Hm He Hp Hs (Hn n eq_refl)) as (s1&ip1&E&Hok). rewrite E, bind_ok. cbn [fst]. eexists s1, ip1, _. split; [done|]. apply itrunc_framed in E. split; [apply E|].
  destruct (Z.eqb_spec (ferr s1) 0) as [E0|E0]; [split; [done|split; [auto|by intros [?|?]]]|split; [congruence|split; [done|by intros [?|?]]]].
Qed.

(** The times: the blocks stay; and who may not set them is told so and they
    stay too. *)
Lemma times_part va ip s : inode_ok ip s -> spare s 4 -> exists s' ip' r, setattr_times cr va ip s = Ok (s', ip', r) /\
  within cr ip ip' /\ body_of ip' = body_of ip /\ (asks_times va = false -> ip' = ip) /\
  (asks_times va = true -> may_date ip va s = false -> ip' = ip /\ exists e, r = Some e /\ e <> 0).
Proof.
  intros Hio Hm. destruct (times_returns cr va ip s Hio Hm) as (s'&ip'&r&E). exists s', ip', r. split; [exact E|]. split; [by eapply times_within|].
  assert (setattr_times cr va ip s = Ok (s', ip', r) -> body_of ip' = body_of ip) as Hbody.
  { unfold setattr_times. intros H. assert (forall (a m : option Z) s0, (r ← iupdat_at (default (-1) a) (default (-1) m) (if m then mark (if a then mark ip IACC else ip) (Z.lor IUPD ICHG) else if a then mark ip IACC else ip) true s0; Ok (fst r, None)) = Ok (s', ip', r) -> body_of ip' = body_of ip) as Hup.
    { intros a m s0 Hu. inv_ok Hu. destruct r0 as [[s1 ip1] e]. simplify_eq. cbn in *. simplify_eq. apply iupdat_at_body in E0. rewrite E0. by destruct m, a. }
    destruct (va_atime va) as [a|]; [|destruct (va_mtime va) as [m|]; [|by simplify_eq]].
    - destruct (not_owner cr ip s) as [no s1]. destruct no; [destruct (negb _)|]; [by simplify_eq| |by apply (Hup (Some a) (va_mtime va) s1)]. destruct (access _ _ _) as [refused cr1]. destruct refused; [by simplify_eq|]. by eapply (Hup (Some a) (va_mtime va)).
    - destruct (not_owner cr ip s) as [no s1]. destruct no; [destruct (negb _)|]; [by simplify_eq| |by apply (Hup None (Some m) s1)]. destruct (access _ _ _) as [refused cr1]. destruct refused; [by simplify_eq|]. by eapply (Hup None (Some m)). }
  split; [by apply Hbody|]. split.
  { unfold asks_times, setattr_times in *. destruct (va_atime va), (va_mtime va); try done. by simplify_eq. }
  intros Hask Hmay. unfold may_date in Hmay. apply orb_false_iff in Hmay as [Ho Hmay].
  assert (exists s1, not_owner cr ip s = (true, s1) /\ ferr s1 = FS_EPERM /\ fsb s1 = fsb s) as (s1&Eo&Ee&Ef).
  { unfold not_owner. rewrite Ho. destruct (suser_refused cr Huser s) as (s1&->&_&?&?). by exists s1. }
  assert (forall (k : outcome (fsys D * inode * option Z)) (no : bool) s2,
    (if negb (on (va_vaflags va) VA_UTIMES_NULL) then (true, s1) else let '(refused, cr) := access (perm_of ip s1) IWRITE (set_error cr (ferr s1)) in (refused, with_err s1 (Cred.u_error cr))) = (no, s2) ->
    (if no then Ok (s2, ip, Some (ferr s2)) else k) = Ok (s', ip', r) -> ip' = ip /\ exists e, r = Some e /\ e <> 0) as Hend.
  { intros k no s2 E2 Ek. destruct (on (va_vaflags va) VA_UTIMES_NULL); cbn [negb andb] in *.
    - apply negb_false_iff in Hmay. rewrite <- (may_write_eq ip ip s s1 (ferr s1)) in Hmay by (done || by rewrite Ef). pose proof (access_error _ _ _ Hmay) as Hne.
      destruct (access _ _ _) as [refused cr1]. cbn in *. subst refused. injection E2 as <- <-. simplify_eq. split; [done|]. by eexists.
    - injection E2 as <- <-. simplify_eq. split; [done|]. eexists. split; [done|]. by rewrite Ee. }
  unfold setattr_times in E. unfold asks_times in Hask. rewrite Eo in E. destruct (va_atime va) as [a|]; [|destruct (va_mtime va) as [m|]; [|done]];
    (destruct (if negb (on _ _) then _ else _) as [no s2] eqn:E2; by eapply Hend).
Qed.

Lemma same_body_trans ip1 ip2 ip3 : same_body ip1 ip2 -> same_body ip2 ip3 -> same_body ip1 ip3.
Proof. intros (?&?&?&?&?) (?&?&?&?&?). split_and!; congruence. Qed.

(** An early end: nothing was done to the blocks and the times. *)
Lemma changed_early ip va s s' ip' e : within cr ip ip' -> same_body ip ip' -> on (i_flags ip) (Z.lor SF_IMMUTABLE SF_APPEND) = false -> (~ owns ip -> e <> 0) -> changed ip va s s' ip' e.
Proof.
  intros Hw (_&Hb&Ht&_) Hs He. constructor; try done; [by rewrite Hs|]. intros _ Hm. apply He. unfold may_date in Hm. apply orb_false_iff in Hm as [Hm _]. by apply Z.eqb_neq.
Qed.

(** Who does not own the file changed nothing [access] reads. *)
Lemma may_date_later ip ip' va s s' : within cr ip ip' -> on (i_flag ip') ITEXT = on (i_flag ip) ITEXT -> fs_ronly (fsb s') = fs_ronly (fsb s) ->
  may_date ip' va s' = may_date ip va s.
Proof.
  intros [(_&_&Eu) _ _ _ _ _ Ho] Et Er. unfold may_date. rewrite Eu. destruct (Z.eqb_spec (u_uid cr) (i_uid ip)) as [|Hne]; [done|]. destruct Ho as [|(E1&E2&E3)]; [done|].
  unfold may_write. cbn [orb]. f_equal. f_equal. rewrite <- (may_write_eq ip' ip' s' s' (Cred.u_error cr)) by done. by apply may_write_eq.
Qed.

Lemma setattr_ok sl ip va s l : ready s l (owned (content (fdev s)) (i_addr ip)) -> inode_ok ip s -> spare s 4 -> ferr s = 0 -> on (i_flag ip) IPIPE = false -> 0 <= i_size ip < 2 ^ 31 ->
  (forall n, va_size va = Some n -> n < 2 ^ 31) -> exists s' ip' e, ufs_setattr sl cr ip va s = Ok (s', ip', e) /\ changed ip va s s' ip' e.
Proof.
  intros Hr Hio Hm He Hp Hs Hn. unfold ufs_setattr. assert (fs_ronly (fsb s) = 0) as Hro by apply Hio. rewrite Hro. cbn [Z.eqb negb].
  destruct (flags_part sl va ip s) as (s1&ip1&r1&->&W1&B1&D1&F1&K1&N1&Z1). destruct r1 as [e1|].
  { eexists s1, ip1, e1. split; [done|]. destruct (on (i_flags ip) (Z.lor SF_IMMUTABLE SF_APPEND)) eqn:Es; [|apply changed_early; try done; intros Hne E0; apply (N1 Hne); congruence].
    destruct (Z1 eq_refl) as [-> Hne]. assert (e1 <> 0) by congruence. by constructor. }
  specialize (K1 eq_refl) as ->. destruct (on (i_flags ip1) (Z.lor IMMUTABLE APPEND)) eqn:Eimm.
  { eexists s, ip1, _. split; [done|]. destruct (on (i_flags ip) (Z.lor SF_IMMUTABLE SF_APPEND)) eqn:Es; [|by apply changed_early]. destruct (Z1 eq_refl) as [-> _]. by constructor. }
  assert (Hnot : on (i_flags ip) (Z.lor SF_IMMUTABLE SF_APPEND) = false) by (apply not_true_iff_false; intros Hz; destruct (Z1 Hz) as [-> _]; apply sealed_on in Hz; congruence).
  destruct (owner_part va ip1 s) as (s2&ip2&e2&->&W2&B2&K2). assert (W12 : within cr ip ip2) by by etransitivity. pose proof (same_body_trans _ _ _ B1 B2) as B12.
  destruct (Z.eqb_spec e2 0) as [->|He2]; cbn [negb]; [|eexists s2, ip2, e2; split; [done|]; by apply changed_early].
  specialize (K2 eq_refl) as ->. destruct B12 as (C1&C2&C3&C4&C5). injection C2 as Csz Ca.
  destruct (size_part va ip2 s l) as (s3&ip3&r3&->&W3&N3&K3&V3); [by rewrite Ca|by eapply inode_ok_calm; [exact Hio|congruence|rewrite Ca; apply Hio|done|done]|done|done|congruence|congruence|done|]. rewrite bind_ok. cbn [fst snd].
  assert (kind ip2 = kind ip) as Hk by apply W12. assert (W13 : within cr ip ip3) by (etransitivity; [exact W12|apply within_rest, W3]).
  assert (va_size va = None \/ kind ip = IFDIR -> body_of ip3 = body_of ip /\ times_of ip3 = times_of ip) as Hb3.
  { intros H. rewrite V3 by (by rewrite Hk). split; [unfold body_of; congruence|done]. }
  destruct r3 as [e3|].
  { eexists s3, ip3, e3. split; [done|]. assert (e3 <> 0) by congruence. constructor; [done|by rewrite Hnot|naive_solver|done|]. intros Hv _. by apply Hb3; left. }
  destruct (K3 eq_refl) as [Hio3 Hm3]. destruct (times_part va ip3 s3 Hio3 Hm3) as (s4&ip4&r4&->&W4&B4&U4&R4). rewrite bind_ok. cbn [fst snd].
  assert (may_date ip3 va s3 = may_date ip va s) as Hmd.
  { apply may_date_later; [done| |]; [|rewrite Hro; apply Hio3]. rewrite <- C5. apply framed_on; [exact W3|done]. }
  rewrite Hmd in R4. assert (W14 : within cr ip ip4) by by etransitivity.
  assert (va_size va = None \/ kind ip = IFDIR -> body_of ip4 = body_of ip) as Hb4 by (intros [H _]%Hb3; congruence).
  assert (va_size va = None -> asks_times va = false \/ may_date ip va s = false -> times_of ip4 = times_of ip) as Ht4.
  { intros Hv Hno. destruct (Hb3 (or_introl Hv)) as [_ <-]. destruct (asks_times va) eqn:Ea; [destruct Hno as [|Hno]; [done|]; by destruct (R4 eq_refl Hno) as [-> _]|by rewrite U4]. }
  destruct r4 as [e4|].
  { eexists s4, ip4, e4. split; [done|]. constructor; [done|by rewrite Hnot|done| |done]. intros Ha Hb. by destruct (R4 Ha Hb) as [_ (e&[= ->]&?)]. }
  assert (asks_times va = true -> may_date ip va s = false -> False) as Hgo by (intros Ha Hb; by destruct (R4 Ha Hb) as [_ (e&?&_)]).
  destruct (va_mode va) as [mode|]; [|eexists s4, ip4, 0; split; [done|]; constructor; [done|by rewrite Hnot|done|intros Ha Hb; by destruct (Hgo Ha Hb)|done]].
  destruct (chmod1 cr ip4 mode s4) as [[s5 ip5] e5] eqn:E5. eexists s5, ip5, e5. split; [done|]. pose proof (chmod1_body _ _ _ _ _ _ E5) as (_&B5&T5&_). apply (chmod1_within cr Huser) in E5.
  constructor; [by etransitivity|by rewrite Hnot|intros H; rewrite B5; auto|intros Ha Hb; by destruct (Hgo Ha Hb)|intros H1 H2; rewrite T5; auto].
Qed.

(** ** The system calls *)

(** The call may change the size of the file; it may change its times. *)
Definition may_cut (ip : inode) (c : attr_call) s : bool :=
  match c with Truncate _ => may_write ip s | Ftruncate fwrite _ => fwrite | _ => false end.
Definition may_redate (ip : inode) (c : attr_call) s : bool :=
  match c with
  | Utimes times => (u_uid cr =? i_uid ip) || (match times with None => true | Some _ => false end && may_write ip s)
  | _ => may_cut ip c s
  end.

Definition call_length (c : attr_call) : Z := match c with Truncate n | Ftruncate _ n => n | _ => 0 end.

Lemma call_ok sl ip c s l : ready s l (owned (content (fdev s)) (i_addr ip)) -> inode_ok ip s -> spare s 4 -> ferr s = 0 -> on (i_flag ip) IPIPE = false -> 0 <= i_size ip < 2 ^ 31 ->
  call_length c < 2 ^ 31 -> exists s' ip' e, setattr_call sl cr ip c s = Ok (s', ip', e) /\ within cr ip ip' /\
    (may_cut ip c s = false -> body_of ip' = body_of ip) /\ (may_redate ip c s = false -> times_of ip' = times_of ip).
Proof.
  intros Hr Hio Hm He Hp Hs Hn. assert (forall va, (forall n, va_size va = Some n -> n < 2 ^ 31) -> exists s' ip' e, ufs_setattr sl cr ip va s = Ok (s', ip', e) /\ changed ip va s s' ip' e) as Hset.
  { intros va Hva. by eapply setattr_ok. }
  assert (forall n, n < 2 ^ 31 -> forall m, va_size (sized n) = Some m -> m < 2 ^ 31) as Hsized by (intros n Hlt m; cbn; unfold asked; destruct (n =? -1); [done|by intros [= <-]]).
  destruct c as [flags|mode|uid gid|n|fwrite n|times]; cbn [setattr_call may_cut may_redate call_length] in *.
  1-3: match goal with |- context [ufs_setattr _ _ _ ?va _] => destruct (Hset va ltac:(done)) as (s'&ip'&e&->&C) end; exists s', ip', e; split; [done|]; split; [apply C|]; split; [intros _; apply C; by left|intros _; apply C; [done|by left]].
  - destruct (access _ _ _) as [refused cr'] eqn:Ea. assert (may_write ip s = negb refused) as ->.
    { unfold may_write. rewrite <- (may_write_eq ip ip s s (ferr s)) by done. by rewrite Ea. }
    destruct refused; [by eexists _, ip, _|]. destruct (Hset (sized n) (Hsized n Hn)) as (s'&ip'&e&->&C). exists s', ip', e. split; [done|]. by split; [apply C|].
  - destruct fwrite; [|by eexists _, ip, _]. destruct (Hset (sized n) (Hsized n Hn)) as (s'&ip'&e&->&C). exists s', ip', e. split; [done|]. by split; [apply C|].
  - destruct (Hset (utimes_attributes times (fnow s))) as (s'&ip'&e&->&C); [by destruct times as [[]|]|]. exists s', ip', e. split; [done|]. split; [apply C|].
    assert (va_size (utimes_attributes times (fnow s)) = None) as Hv by by destruct times as [[]|]. split; [intros _; apply C; by left|]. intros Hd. apply C; [done|]. right.
    unfold may_date. by destruct times as [[]|].
Qed.

End confined.

(** C38. For a caller other than root, whatever attributes are asked for,
    [ufs_setattr] returns, and the inode stays within the caller's rights: its
    number, links and owner and the kind of the file are as before; the flags
    of the system too; a new group is one the caller is a member of; the
    set-group bit stands only where it stood with the same group or where the
    caller belongs to the group; the sticky bit is not gained by what is not a
    directory; and one who does not own the file changes neither mode nor
    group nor flags. A file that the system sealed (immutable or append-only)
    is not changed at all, nor is the device, and the caller is told. Times
    asked for by one who neither owns the file nor, asking for the present
    time, may write it are refused with an error, and without a change of size
    the times then stay; without times asked for they stay too. The size and
    the blocks stay unless a size is asked for, and always for a directory;
    whether the caller may set it the system calls decide. So for these: the
    size and the blocks change only by [truncate] of a file the caller may
    write and by [ftruncate] of a descriptor open for writing, and the times
    only by these and by [utimes] of the owner or, for the present time, of
    one who may write the file. *)
Theorem setattr_confined {D} `{BS : BufSpec D} sl cr ip (s : fsys D) l : u_uid cr <> 0 ->
  ready s l (owned (content (fdev s)) (i_addr ip)) -> inode_ok ip s -> spare s 4 -> ferr s = 0 -> on (i_flag ip) IPIPE = false -> 0 <= i_size ip < 2 ^ 31 ->
  (forall va, (forall n, va_size va = Some n -> n < 2 ^ 31) -> exists s' ip' e, ufs_setattr sl cr ip va s = Ok (s', ip', e) /\ changed cr ip va s s' ip' e) /\
  (forall c, call_length c < 2 ^ 31 -> exists s' ip' e, setattr_call sl cr ip c s = Ok (s', ip', e) /\ within cr ip ip' /\
     (may_cut cr ip c s = false -> body_of ip' = body_of ip) /\ (may_redate cr ip c s = false -> times_of ip' = times_of ip)).
Proof. intros Hu Hr Hio Hm He Hp Hs. split; [intros va; by apply (setattr_ok cr Hu sl ip va s l)|intros c; by apply (call_ok cr Hu sl ip c s l)]. Qed.

(** ** An owner's change of mode and group *)

(** The user 5 of the groups 3 and 7 owns the file 3; the group is to be 7, the
    mode 06755, the size 2000. *)
Definition attr_cred : cred := Cred.sample_cred.
Definition attr_inode : inode := Inode 3 0 (replicate 7 0) 0x8180 1 5 3 0 0 0 0 0.
Definition attr_change : vattr := Vattr (Some 0xded) None (Some 7) (Some 2000) None (Some 99) None 0.

(** A file of another user, that the caller may read only. *)
Definition other_inode : inode := Inode 3 0 (replicate 7 0) 0x81a4 1 9 2 0 0 11 12 13.

Lemma setattr_confined_witness :
  (exists s' ip', ufs_setattr 1 attr_cred attr_inode attr_change demo_sys = Ok (s', ip', 0) /\
     i_mode ip' = 0x8ded /\ i_gid ip' = 7 /\ i_size ip' = 2000 /\ within attr_cred attr_inode ip') /\
  exists s' ip', setattr_call 1 attr_cred other_inode (Utimes (Some (5, 6))) demo_sys = Ok (s', ip', FS_EPERM) /\ times_of ip' = (11, 12, 13).
Proof.
  assert (forall ip, i_addr ip = replicate 7 0 -> i_number ip = 3 -> inode_ok ip demo_sys) as Hok.
  { intros ip Ea En. constructor; rewrite ?Ea, ?En; [done|split; apply (bool_decide_eq_true_1 _); vm_compute; reflexivity|apply not_elem_of_empty|reflexivity]. }
  assert (spare demo_sys 4) as Hm by (unfold spare; apply (bool_decide_eq_true_1 _); by vm_compute). split.
  - destruct (setattr_confined 1 attr_cred attr_inode demo_sys demo_free) as [Hset _]; [done|exact demo_ready|by apply Hok|exact Hm|reflexivity|reflexivity|cbn; lia|].
    destruct (Hset attr_change) as (s'&ip'&e&E&[W _ _ _ _]); [intros n [= <-]; lia|].
    exists s', ip'. assert ((r ← ufs_setattr 1 attr_cred attr_inode attr_change demo_sys; Ok (snd r, i_mode (snd (fst r)), i_gid (snd (fst r)), i_size (snd (fst r)))) = Ok (0, 0x8ded, 7, 2000)) as Ev by (vm_compute; reflexivity).
    rewrite E, bind_ok in Ev. injection Ev as -> Em Eg Es. split; [exact E|]. split; [exact Em|]. split; [exact Eg|]. split; [exact Es|exact W].
  - destruct (setattr_confined 1 attr_cred other_inode demo_sys demo_free) as [_ Hcall]; [done|exact demo_ready|by apply Hok|exact Hm|reflexivity|reflexivity|cbn; lia|].
    destruct (Hcall (Utimes (Some (5, 6)))) as (s'&ip'&e&E&_&_&T); [cbn; lia|]. exists s', ip'.
    assert ((r ← setattr_call 1 attr_cred other_inode (Utimes (Some (5, 6))) demo_sys; Ok (snd r)) = Ok FS_EPERM) as Ev by (vm_compute; reflexivity).
    rewrite E, bind_ok in Ev. injection Ev as ->. split; [exact E|]. apply T. by vm_compute.
Defined.
