(* ===== verification/Ialloc.v ===== *)
(** * Allocation of inodes ([ialloc] of [sys/kern/ufs_alloc.c])

    The superblock lists at most NICINOD free inodes, [fs_inode]; when the
    list is used up the blocks of inodes are scanned for more, from where the
    last scan ended or, when that finds too few, from the first. As in
    [Fsalloc] an operation works alone: a sleep on a lock it would itself have
    to release is the panic "deadlock". *)
From stdpp Require Import gmap.
From S2P Require Import Prelude Fsalloc Fsmap Fstrunc Icache Finode.

Section ialloc.
Context {D : Type} {BD : BufDev D}.
Implicit Types (c : icore D) (s : fsys D).

(** A change of the superblock [fs] of the mount table's entry [k]. *)
Definition get_fs c (k : nat) : outcome fs := m ← rd (mounts c) k; Ok (m_filsys m).
Definition put_fs c (k : nat) (f : fs) : outcome (icore D) :=
  m ← rd (mounts c) k;
  Ok (Icore (inodes c) (ifreeh c) (ifreet c) (nextinodeid c) (<[k := Mount (m_dev m) f (m_inodp m)]> (mounts c)) (disks c) (u_error c) (time c) (woken c)).

(** ** Taking a number from the list *)

(** The fields of a fresh inode, and the superblock's count. *)
Definition fresh_inode (ip : inode) : inode :=
  Inode (i_number ip) (i_flag ip) (replicate 7 0) (i_mode ip) (i_nlink ip) (i_uid ip) (i_gid ip) (i_size ip) 0 (i_atime ip) (i_mtime ip) (i_ctime ip).
Definition took_inode (f : fs) : fs := set_fmod (set_tinode f (u32 (fs_tinode f - 1))) 1.

(** The loop that pops numbers, [n] of them: what [ialloc] returns, or the
    list is empty. *)
Fixpoint ialloc_pop (n : nat) c (dev : Z) (k : nat) : outcome (icore D * option (option nat)) :=
  f ← get_fs c k;
  if fs_ninode f <=? 0 then Ok (c, None)
  else
    match n with
    | O => Panic "out of fuel"
    | S n =>
        ino ← rdz (fs_inode f) (fs_ninode f - 1);
        c ← put_fs c k (set_inodes_free f (fs_ninode f - 1) (fs_inode f));
        if ino <=? ROOTINO then ialloc_pop n c dev k
        else
          r ← iget c dev k ino;
          match snd r with
          | Inone => Ok (fst r, Some None)
          | Isleep _ _ _ _ => Panic "deadlock"
          | Igot ip =>
              b ← rd (inodes (fst r)) ip;
              if i_mode (i_in b) =? 0 then
                c ← change (fst r) ip (fun b => set_in b (fresh_inode (i_in b)));
                f ← get_fs c k; c ← put_fs c k (took_inode f);
                Ok (c, Some (Some ip))
              else c ← iput (fst r) ip; ialloc_pop n c dev k
          end
    end.

(** ** The scan *)

(** The inodes of one block, from number [i] of it on, which is [ino]. The
    scan ends in the middle of a block only when the list is full. *)
Fixpoint scan_block (n : nat) (incore : Z -> bool) (x : block) (i : nat) (ino : Z) (f : fs) : outcome (fs * Z) :=
  match n with
  | O => Ok (f, ino)
  | S n =>
      if negb (u16 (default 0 (x !! (16 * i)%nat)) =? 0) || incore ino then scan_block n incore x (S i) (u32 (ino + 1)) f
      else
        l ← wrz (fs_inode f) (fs_ninode f) ino;
        let f := set_inodes_free f (fs_ninode f + 1) l in
        if NICINOD <=? fs_ninode f then Ok (f, ino) else scan_block n incore x (S i) (u32 (ino + 1)) f
  end.

(** The loop over the blocks: the first inode of the last block looked at. *)
Fixpoint scan (n : nat) (incore : Z -> bool) (adr ino inobas : Z) (s : fsys D) : outcome (fsys D * Z) :=
  if u32 adr <? fs_isize (fsb s) then
    match n with
    | O => Panic "out of fuel"
    | S n =>
        r ← fs_bread s adr;
        let s := fst r in
        match whole (snd r) with
        | None => s ← fs_brelse s adr; scan n incore (adr + 1) (u32 (ino + INOPB)) ino s
        | Some x =>
            q ← scan_block (Z.to_nat INOPB) incore x 0 ino (fsb s);
            s ← fs_brelse (with_fs s (fst q)) adr;
            if NICINOD <=? fs_ninode (fsb s) then Ok (s, ino) else scan n incore (adr + 1) (snd q) ino s
        end
    end
  else Ok (s, inobas).

(** A pass from the top, and the whole of the refill. *)
Definition scan_from_top (incore : Z -> bool) (s : fsys D) : outcome (fsys D * Z) :=
  let f := fsb s in
  scan (Z.to_nat (fs_isize f)) incore (SUPERB + 1) 1 0 (with_fs s (set_iscan f (fs_ilock f) (fs_lasti f) 0)).
Definition ialloc_refill (incore : Z -> bool) (s : fsys D) : outcome (fsys D * unit) :=
  let f := fsb s in
  let s := with_fs s (set_iscan f (fs_ilock f + 1) (fs_lasti f) (fs_nbehind f)) in
  r ← (if fs_nbehind f <? 4 * NICINOD then
         r ← scan (Z.to_nat (fs_isize f)) incore (itod (fs_lasti f)) (fs_lasti f) 0 s;
         if fs_ninode (fsb (fst r)) <? NICINOD then scan_from_top incore (with_fs (fst r) (set_inodes_free (fsb (fst r)) 0 (fs_inode (fsb (fst r))))) else Ok r
       else scan_from_top incore s);
  let s := fst r in
  Ok (with_fs s (set_iscan (fsb s) 0 (snd r) (fs_nbehind (fsb s))), tt).

(** [ialloc], for the file system of the slot [pip]; it refills the list [n]
    times at most. *)
Fixpoint ialloc_loop (n : nat) c (dev : Z) (k : nat) : outcome (icore D * option nat) :=
  f ← get_fs c k;
  r ← ialloc_pop (Z.to_nat (fs_ninode f)) c dev k;
  match snd r with
  | Some o => Ok (fst r, o)
  | None =>
      match n with
      | O => Panic "out of fuel"
      | S n =>
          let c := fst r in
          r ← on_fs c dev (Some k) (ialloc_refill (fun ino => bool_decide (is_Some (ifind c dev ino))));
          f ← get_fs (fst r) k;
          if 0 <? fs_ninode f then ialloc_loop n (fst r) dev k else Ok (with_uerr (fst r) FS_ENOSPC, None)
      end
  end.
Definition ialloc (n : nat) c (pip : nat) : outcome (icore D * option nat) :=
  b ← rd (inodes c) pip;
  match i_fs b with
  | None => Fault
  | Some k => f ← get_fs c k; if negb (fs_ilock f =? 0) then Panic "deadlock" else ialloc_loop n c (i_dev b) k
  end.

End ialloc.

(** ** What a refill lists *)

(** The inode [n] is free on the device and not in core. *)
Definition avail (incore : Z -> bool) (c : Z -> block) (n : Z) : Prop := incore n = false /\ i_mode (disk_inode c n) = 0.
#[global] Instance avail_dec incore c n : Decision (avail incore c n).
Proof. unfold avail. apply _. Defined.

(** The available ones of the numbers from [a] below [b]. *)
Definition avails (incore : Z -> bool) (c : Z -> block) (a b : Z) : list Z := filter (avail incore c) (seqZ a (b - a)).

(** The number past the last inode, and the first of a block of inodes. *)
Definition past (f : fs) : Z := 16 * (fs_isize f - 1) + 1.
Definition base_of (adr : Z) : Z := 16 * (adr - 1) + 1.

Lemma avails_none incore c a b : b <= a -> avails incore c a b = [].
Proof. intros H. unfold avails. by rewrite seqZ_nil by lia. Qed.
Lemma avails_next incore c a b : a < b -> avails incore c a b = (if decide (avail incore c a) then [a] else []) ++ avails incore c (a + 1) b.
Proof.
  intros H. unfold avails. rewrite seqZ_cons by lia. rewrite filter_cons. replace (Z.succ a) with (a + 1) by lia. replace (Z.pred (b - a)) with (b - (a + 1)) by lia. by case_decide.
Qed.
Lemma avails_split incore c a m b : a <= m <= b -> avails incore c a b = avails incore c a m ++ avails incore c m b.
Proof.
  intros H. unfold avails. rewrite <- filter_app. f_equal. replace (b - a) with ((m - a) + (b - m)) by lia. rewrite seqZ_app by lia. by replace (a + (m - a)) with m by lia.
Qed.

Lemma nodup_take {A} n (l : list A) : NoDup l -> NoDup (take n l).
Proof. intros H. rewrite <- (take_drop n l) in H. by apply NoDup_app in H as [? _]. Qed.
Lemma in_take {A} (x : A) n l : x ∈ take n l -> x ∈ l.
Proof. intros H. rewrite <- (take_drop n l). apply elem_of_app. by left. Qed.
Lemma avails_in incore c a b n : n ∈ avails incore c a b <-> avail incore c n /\ a <= n < b.
Proof. unfold avails. rewrite list_elem_of_filter, elem_of_seqZ. replace (a + (b - a)) with b by lia. done. Qed.
Lemma avails_nodup incore c a b : NoDup (avails incore c a b).
Proof. apply NoDup_filter, NoDup_seqZ. Qed.

Lemma base_place adr i : 0 < adr < 2 ^ 26 -> (i < 16)%nat -> itod (base_of adr + Z.of_nat i) = adr /\ Z.to_nat (itoo (base_of adr + Z.of_nat i)) = i.
Proof.
  intros Ha Hi. unfold itod, itoo, INOPB, base_of. rewrite trunc_small by lia. replace (16 * (adr - 1) + 1 + Z.of_nat i + 16 - 1) with (Z.of_nat i + adr * 16) by lia.
  rewrite Z.div_add, Z.mod_add by lia. rewrite Z.div_small, Z.mod_small by lia. lia.
Qed.

Lemma mode_read c adr i : 0 < adr < 2 ^ 26 -> (i < 16)%nat -> i_mode (disk_inode c (base_of adr + Z.of_nat i)) = u16 (default 0 (c adr !! (16 * i)%nat)).
Proof. intros Ha Hi. destruct (base_place adr i Ha Hi) as [E1 E2]. unfold disk_inode. rewrite E1, E2. cbn [dinode_get i_mode]. by rewrite Nat.add_0_r. Qed.

(** Only the list of free inodes has changed. *)
Definition relisted (f f' : fs) : Prop := f' = set_inodes_free f (fs_ninode f') (fs_inode f').
Lemma relisted_refl f : relisted f f.
Proof. by destruct f. Qed.
Lemma relisted_trans f1 f2 f3 : relisted f1 f2 -> relisted f2 f3 -> relisted f1 f3.
Proof. unfold relisted. intros E1 E2. rewrite E2, E1. by destruct f1. Qed.

Lemma listed_length f : inodes_ok f -> length (listed f) = Z.to_nat (fs_ninode f).
Proof. intros [Hn Hl]. unfold listed. rewrite length_take, Hl. unfold NICINOD in *. lia. Qed.

Lemma push_listed f ino : inodes_ok f -> fs_ninode f < NICINOD -> exists l, wrz (fs_inode f) (fs_ninode f) ino = Ok l /\
  let f' := set_inodes_free f (fs_ninode f + 1) l in inodes_ok f' /\ listed f' = listed f ++ [ino].
Proof.
  intros [Hn Hl] Hf. unfold NICINOD in *. rewrite wrz_ok by lia. eexists. split; [done|]. cbv zeta. split; [split; cbn; [unfold NICINOD; lia|by rewrite length_insert]|].
  unfold listed. cbn. replace (Z.to_nat (fs_ninode f + 1)) with (S (Z.to_nat (fs_ninode f))) by lia.
  rewrite (take_S_r _ _ ino) by (apply list_lookup_insert_eq; lia). by rewrite take_insert_ge by lia.
Qed.

Lemma take_full {A} n (l l' : list A) : (n <= length l)%nat -> take n (l ++ l') = take n l.
Proof. intros H. rewrite take_app_le by done. done. Qed.

Lemma scan_block_ok incore c adr n : 0 < adr < 2 ^ 26 -> forall i f, (i + n = 16)%nat -> inodes_ok f -> fs_ninode f < NICINOD ->
  exists f' ino', scan_block n incore (c adr) i (base_of adr + Z.of_nat i) f = Ok (f', ino') /\ inodes_ok f' /\ relisted f f' /\
    listed f' = take 32 (listed f ++ avails incore c (base_of adr + Z.of_nat i) (base_of (adr + 1))) /\ (fs_ninode f' < NICINOD -> ino' = base_of (adr + 1)).
Proof.
  intros Ha. induction n as [|n IH]; intros i f Hi Hf Hn; cbn [scan_block].
  - exists f, (base_of adr + Z.of_nat i). split; [done|]. split; [done|]. split; [apply relisted_refl|]. unfold base_of in *. rewrite avails_none, app_nil_r by lia. split; [|lia].
    rewrite take_ge; [done|]. rewrite listed_length by done. unfold NICINOD in *. lia.
  - assert (base_of adr + Z.of_nat i < base_of (adr + 1)) as Hlt by (unfold base_of; lia). rewrite avails_next by done. pose proof (mode_read c adr i Ha ltac:(lia)) as Em.
    assert (u32 (base_of adr + Z.of_nat i + 1) = base_of adr + Z.of_nat (S i)) as -> by (unfold base_of; rewrite trunc_small by lia; lia).
    replace (base_of adr + Z.of_nat i + 1) with (base_of adr + Z.of_nat (S i)) by lia. case_decide as Hav.
    + destruct Hav as [Hin Hm]. rewrite Em in Hm. rewrite Hm, Hin. cbn [Z.eqb negb orb]. destruct (push_listed f (base_of adr + Z.of_nat i) Hf Hn) as (l&->&Hf1&El). cbn [mbind outcome_bind]. cbv zeta in *.
      set (f1 := set_inodes_free _ _ _) in *. assert (relisted f f1) as Hr by (by destruct f). rewrite app_assoc, <- El. destruct (Z.leb_spec NICINOD (fs_ninode f1)) as [Hfull|Hroom].
      * eexists f1, _. split; [done|]. split; [done|]. split; [done|]. assert (length (listed f1) = 32%nat) as Hlen by (rewrite listed_length by done; destruct Hf1; unfold NICINOD in *; lia).
        rewrite take_full, take_ge by lia. split; [done|lia].
      * destruct (IH (S i) f1) as (f'&ino'&E&H1&H2&H3&H4); [lia|done|done|]. exists f', ino'. split; [exact E|]. split; [done|]. split; [exact (relisted_trans _ _ _ Hr H2)|]. by split.
    + assert (negb (u16 (default 0 (c adr !! (16 * i)%nat)) =? 0) || incore (base_of adr + Z.of_nat i) = true) as ->.
      { rewrite <- Em. destruct (incore _) eqn:Ei; [by rewrite orb_true_r|]. destruct (Z.eqb_spec (i_mode (disk_inode c (base_of adr + Z.of_nat i))) 0) as [E0|]; [|done]. exfalso. by apply Hav. }
      apply IH; [lia|done|done].
Qed.

Section refills.
Context {D : Type} {BD : BufDev D} {BS : BufSpec D}.
Implicit Types (s : fsys D).

(** The device is as it was, and so is the superblock but for what [f] says. *)
Record quiet s s' : Prop := {
  qt_content : forall a, content (fdev s') a = content (fdev s) a;
  qt_held : held (fdev s') = held (fdev s) /\ anon (fdev s') = anon (fdev s);
  qt_calm : ferr s' = ferr s /\ fnow s' = fnow s
}.
Lemma quiet_trans s1 s2 s3 : quiet s1 s2 -> quiet s2 s3 -> quiet s1 s3.
Proof. intros [C1 [H1 K1] [E1 N1]] [C2 [H2 K2] [E2 N2]]. constructor; [intros a; by rewrite C2|split; congruence|split; congruence]. Qed.
Lemma quiet_fs s f : quiet s (with_fs s f).
Proof. by constructor. Qed.

Lemma quiet_to s f s' : quiet (with_fs s f) s' -> forall g, quiet s s' /\ quiet s (with_fs s' g).
Proof. intros [C H E] g. split; by constructor. Qed.

(** The blocks of inodes can be read. *)
Definition scannable s : Prop := (forall a, SUPERB < a < fs_isize (fsb s) -> a ∉ held (fdev s)) /\ room s /\ fs_isize (fsb s) < 2 ^ 26.

Lemma scannable_quiet s s' : quiet s s' -> fs_isize (fsb s') = fs_isize (fsb s) -> scannable s -> scannable s'.
Proof. intros [_ [H K] _] E (S1&S2&S3). unfold scannable, room in *. by rewrite H, K, E. Qed.

Lemma avails_content incore c c' a b : (forall n, c' n = c n) -> avails incore c' a b = avails incore c a b.
Proof. intros E. unfold avails. apply list_filter_iff. intros n. unfold avail, disk_inode. by rewrite E. Qed.

(** A pass from [adr] on ends with the list as long as it can be. *)
Definition scan_end incore (adr ino inobas : Z) s (o : outcome (fsys D * Z)) : Prop :=
  exists s' bas, o = Ok (s', bas) /\ quiet s s' /\ inodes_ok (fsb s') /\ relisted (fsb s) (fsb s') /\
    listed (fsb s') = take 32 (listed (fsb s) ++ avails incore (content (fdev s)) ino (past (fsb s))) /\
    if decide (adr < fs_isize (fsb s)) then exists a, 0 < a < fs_isize (fsb s) /\ bas = base_of a else bas = inobas.

(** One block of the scan. *)
Lemma scan_one incore adr s : scannable s -> inodes_ok (fsb s) -> fs_ninode (fsb s) < NICINOD -> 0 < adr < fs_isize (fsb s) ->
  exists s1 s2 f' ino', fs_bread s adr = Ok (s1, Contents (content (fdev s) adr) false) /\
    scan_block (Z.to_nat INOPB) incore (content (fdev s) adr) 0 (base_of adr) (fsb s1) = Ok (f', ino') /\ fs_brelse (with_fs s1 f') adr = Ok s2 /\
    quiet s s2 /\ fsb s2 = f' /\ inodes_ok f' /\ relisted (fsb s) f' /\
    listed f' = take 32 (listed (fsb s) ++ avails incore (content (fdev s)) (base_of adr) (base_of (adr + 1))) /\ (fs_ninode f' < NICINOD -> ino' = base_of (adr + 1)).
Proof.
  intros (S1&S2&S3) Hf Hn Ha. assert (adr ∉ held (fdev s)) as Hnh by (apply S1; exact Ha). destruct (fs_bread_ok s adr Hnh S2) as (s1&E1&[F1 R1 N1 C1 H1 K1]).
  destruct (scan_block_ok incore (content (fdev s)) adr 16 ltac:(lia) 0%nat (fsb s)) as (f'&ino'&E&Hf'&Hr&Hl&Hi); [lia|done|done|]. rewrite Z.add_0_r in E, Hl.
  destruct (fs_brelse_ok (with_fs s1 f') adr) as (s2&E2&[F2 R2 N2 C2 H2 K2]); [cbn; rewrite H1; by apply elem_of_union_l, elem_of_singleton_2|]. cbn [fdev fsb ferr fnow with_fs] in *.
  exists s1, s2, f', ino'. split; [done|]. rewrite F1. split; [exact E|]. split; [exact E2|]. split; [|done].
  constructor; [intros a; by rewrite C2, C1| |split; congruence]. split; [|congruence]. rewrite H2, H1. clear -Hnh. set_solver.
Qed.

Lemma scan_over incore adr inobas s : scannable s -> inodes_ok (fsb s) -> fs_ninode (fsb s) < NICINOD -> adr = fs_isize (fsb s) -> scan_end incore adr (base_of adr) inobas s (Ok (s, inobas)).
Proof.
  intros Hs Hf Hn ->. exists s, inobas. split; [done|]. split; [by constructor|]. split; [done|]. split; [apply relisted_refl|]. split; [|by rewrite decide_False by lia].
  rewrite avails_none by (unfold past, base_of; lia). rewrite app_nil_r, take_ge; [done|]. rewrite listed_length by done. unfold NICINOD in *. lia.
Qed.

Lemma scan_ok incore n : forall adr inobas s, scannable s -> inodes_ok (fsb s) -> fs_ninode (fsb s) < NICINOD -> 0 < adr <= fs_isize (fsb s) -> (Z.to_nat (fs_isize (fsb s) - adr) <= n)%nat ->
  exists s' bas, scan n incore adr (base_of adr) inobas s = Ok (s', bas) /\ quiet s s' /\ inodes_ok (fsb s') /\ relisted (fsb s) (fsb s') /\
    listed (fsb s') = take 32 (listed (fsb s) ++ avails incore (content (fdev s)) (base_of adr) (past (fsb s))) /\
    if decide (adr < fs_isize (fsb s)) then exists a, 0 < a < fs_isize (fsb s) /\ bas = base_of a else bas = inobas.
Proof.
  induction n as [|n IH]; intros adr inobas s Hs Hf Hn Ha Hfuel; cbn [scan]; assert (Hs' := Hs); destruct Hs' as (S1&S2&S3); rewrite trunc_small by lia.
  - rewrite (proj2 (Z.ltb_ge _ _)) by lia. apply scan_over; try done. lia.
  - destruct (Z.ltb_spec adr (fs_isize (fsb s))) as [Hlt|Hge]; [|apply scan_over; try done; lia].
    destruct (scan_one incore adr s) as (s1&s2&f'&ino'&->&E&E2&Hq&F2&Hf'&Hr&Hl&Hi); [done..|lia|]. rewrite bind_ok. cbn [fst snd whole]. rewrite E, bind_ok. cbn [fst snd]. rewrite E2, bind_ok. subst f'.
    rewrite (avails_split incore _ (base_of adr) (base_of (adr + 1)) (past (fsb s))) in * by (unfold base_of, past; lia).
    assert (Hsz : fs_isize (fsb s2) = fs_isize (fsb s)) by (by rewrite Hr). pose proof (listed_length _ Hf') as Hlen. destruct (Z.leb_spec NICINOD (fs_ninode (fsb s2))) as [Hfull|Hroom].
    + exists s2, (base_of adr). split; [done|]. split; [done|]. split; [done|]. split; [done|]. split; [|rewrite decide_True by done; exists adr; split; [lia|done]].
      rewrite app_assoc, take_full, <- Hl; [done|]. rewrite Hl in Hlen. rewrite length_take in Hlen. destruct Hf' as [Hb _]. unfold NICINOD in *. lia.
    + rewrite Hi by done. destruct (IH (adr + 1) (base_of adr) s2) as (s'&bas&E'&Hq'&Hf''&Hr'&Hl'&Hb); [exact (scannable_quiet _ _ Hq Hsz Hs)|done|done|rewrite Hsz; lia|rewrite Hsz; lia|].
      rewrite Hsz in Hb. exists s', bas. split; [exact E'|]. split; [exact (quiet_trans _ _ _ Hq Hq')|]. split; [done|]. split; [exact (relisted_trans _ _ _ Hr Hr')|]. split.
      * rewrite Hl', Hl. unfold past. rewrite Hsz, (avails_content _ (content (fdev s)) (content (fdev s2))) by apply Hq. rewrite (take_ge (listed (fsb s) ++ _)), app_assoc; [done|].
        destruct (decide (length (listed (fsb s) ++ avails incore (content (fdev s)) (base_of adr) (base_of (adr + 1))) <= 32)%nat) as [|Hgt]; [done|].
        rewrite Hl, length_take in Hlen. unfold NICINOD in *. lia.
      * rewrite decide_True by done. destruct (decide (adr + 1 < fs_isize (fsb s))); [done|]. rewrite Hb. exists adr. lia.
Qed.

(** A superblock as the scan needs it: the place where the last one ended is
    the first inode of a block. *)
Record scan_ready s : Prop := {
  sr_scan : scannable s;
  sr_list : inodes_ok (fsb s);
  sr_size : 1 < fs_isize (fsb s);
  sr_last : exists a, 0 < a < fs_isize (fsb s) /\ fs_lasti (fsb s) = base_of a
}.

(** What a refill of an empty list leaves: the available inodes from [from] on,
    as many as fit; all of them, if there is room left. *)
Record refilled (incore : Z -> bool) s s' : Prop := {
  rf_quiet : quiet s s';
  rf_ready : scan_ready s';
  rf_same : same_blocks (fsb s) (fsb s') /\ fs_tinode (fsb s') = fs_tinode (fsb s);
  rf_lock : fs_ilock (fsb s') = 0;
  rf_list : exists from, 0 < from /\ listed (fsb s') = take 32 (avails incore (content (fdev s)) from (past (fsb s))) /\ (fs_ninode (fsb s') < NICINOD -> from = 1)
}.

Lemma with_fs_twice s f g : with_fs (with_fs s f) g = with_fs s g.
Proof. done. Qed.

Lemma listed_none f : fs_ninode f = 0 -> listed f = [].
Proof. intros E. unfold listed. by rewrite E. Qed.

(** A pass of the refill, from the block [a]. *)
Lemma pass_ok incore a s : scannable s -> inodes_ok (fsb s) -> fs_ninode (fsb s) = 0 -> 0 < a < fs_isize (fsb s) ->
  exists s' b, scan (Z.to_nat (fs_isize (fsb s))) incore a (base_of a) 0 s = Ok (s', base_of b) /\ quiet s s' /\ inodes_ok (fsb s') /\ relisted (fsb s) (fsb s') /\
    listed (fsb s') = take 32 (avails incore (content (fdev s)) (base_of a) (past (fsb s))) /\ 0 < b < fs_isize (fsb s).
Proof.
  intros Hs Hf Hn Ha. destruct (scan_ok incore (Z.to_nat (fs_isize (fsb s))) a 0 s Hs Hf) as (s'&bas&E&Hq&Hf'&Hr&Hl&Hb); [rewrite Hn; unfold NICINOD; lia|lia|lia|].
  rewrite decide_True in Hb by lia. destruct Hb as (b&Hb&->). rewrite (listed_none (fsb s) Hn) in Hl. by exists s', b.
Qed.

Lemma refill_done incore s s1 a b from : scan_ready s -> scannable s1 -> quiet s s1 -> inodes_ok (fsb s1) -> (exists l n i nb, fsb s1 = set_iscan (set_inodes_free (fsb s) n l) i (fs_lasti (fsb s)) nb) ->
  0 < b < fs_isize (fsb s) -> from = base_of a -> 0 < a -> listed (fsb s1) = take 32 (avails incore (content (fdev s)) from (past (fsb s))) -> (fs_ninode (fsb s1) < NICINOD -> from = 1) ->
  refilled incore s (with_fs s1 (set_iscan (fsb s1) 0 (base_of b) (fs_nbehind (fsb s1)))).
Proof.
  intros [S1 S2 S3 S4] Hs Hq Hf (l&n&i&nb&Ef) Hb -> Ha Hl Hn. constructor; [eapply quiet_trans; [exact Hq|apply quiet_fs]| | |done|].
  - constructor; [destruct Hs as (H1&H2&H3); split; [exact H1|split; [exact H2|exact H3]]|exact Hf|cbn; by rewrite Ef|]. exists b. cbn. by rewrite Ef.
  - cbn. by rewrite Ef.
  - exists (base_of a). split; [unfold base_of; lia|]. by split.
Qed.

Lemma ialloc_refill_ok incore s : scan_ready s -> fs_ninode (fsb s) = 0 -> exists s', ialloc_refill incore s = Ok (s', tt) /\ refilled incore s s'.
Proof.
  intros Hr Hn. assert (Hr' := Hr). destruct Hr' as [S1 S2 S3 (a&Ha&Ela)]. unfold ialloc_refill. cbv zeta. set (s0 := with_fs s (set_iscan (fsb s) (fs_ilock (fsb s) + 1) _ _)).
  assert (scannable s0) as Hs0 by exact S1.
  assert (forall t, scannable t -> quiet s t -> (exists l i nb, inodes_ok (fsb t) /\ fsb t = set_iscan (set_inodes_free (fsb s) 0 l) i (fs_lasti (fsb s)) nb) ->
    exists s', (r ← scan_from_top incore t; let s := fst r in Ok (with_fs s (set_iscan (fsb s) 0 (snd r) (fs_nbehind (fsb s))), tt)) = Ok (s', tt) /\ refilled incore s s') as Htop.
  { intros t Ht Hq (l&i&nb&Hi&Ef). unfold scan_from_top. cbv zeta. set (t0 := with_fs t _). assert (fs_isize (fsb t) = fs_isize (fsb s)) as Ez by (by rewrite Ef).
    destruct (pass_ok incore 1 t0) as (t1&b&E&Hq1&Hi1&Hr1&Hl1&Hb); [exact Ht|exact Hi|cbn; by rewrite Ef|cbn; lia|]. cbn [fsb with_fs t0 set_iscan fs_isize] in E.
    change (SUPERB + 1) with 1. change 1 with (base_of 1) at 2. rewrite E, bind_ok. cbv zeta. cbn [fst snd]. eexists. split; [done|].
    apply (refill_done incore s t1 1 b 1); [done| | |done| |by cbn in Hb; rewrite Ez in Hb|done|done| |done].
    - eapply scannable_quiet; [exact Hq1|by rewrite Hr1|exact Ht].
    - eapply quiet_trans; [exact Hq|]. eapply quiet_trans; [|exact Hq1]. apply quiet_fs.
    - rewrite Hr1. cbn [fsb with_fs t0]. rewrite Ef. by eexists _, _, _, _.
    - rewrite Hl1. unfold past. cbn. rewrite Ez. f_equal. apply avails_content. apply Hq. }
  destruct (fs_nbehind (fsb s) <? 4 * NICINOD).
  - destruct (base_place a 0) as [Ei _]; [destruct S1 as (_&_&H); lia|lia|]. rewrite Z.add_0_r in Ei. rewrite Ela, Ei.
    destruct (pass_ok incore a s0) as (s1&b&E&Hq1&Hi1&Hr1&Hl1&Hb); [done|exact S2|exact Hn|exact Ha|]. change (fsb s0) with (set_iscan (fsb s) (fs_ilock (fsb s) + 1) (fs_lasti (fsb s)) (fs_nbehind (fsb s))) in E. cbn [fs_isize set_iscan] in E.
    rewrite E, bind_ok. cbn [fst snd]. assert (scannable s1) as Hs1 by (eapply scannable_quiet; [exact Hq1|by rewrite Hr1|exact S1]).
    destruct (Z.ltb_spec (fs_ninode (fsb s1)) NICINOD) as [Hlt|Hge].
    + apply Htop; [exact Hs1|by apply (quiet_to _ _ _ Hq1)|]. eexists _, _, _. split; [|cbn; rewrite Hr1; done]. destruct Hi1. split; [cbn; unfold NICINOD; lia|done].
    + rewrite bind_ok. cbn [fst snd]. eexists. split; [done|]. apply (refill_done incore s s1 a b (base_of a)); [done|done|by apply (quiet_to _ _ _ Hq1 (fsb s))|done| |done|done|lia|done|lia].
      rewrite Hr1. by eexists _, _, _, _.
  - apply Htop; [exact Hs0|by constructor|]. exists (fs_inode (fsb s)), (fs_ilock (fsb s) + 1), (fs_nbehind (fsb s)). split; [exact S2|]. rewrite <- Hn. cbn [fsb with_fs s0]. clear. by destruct (fsb s).
Qed.

End refills.

(** C35. On a superblock whose list of inodes is empty and whose last scan ended
    at the beginning of a block of inodes, the refill of [ialloc] ends, with a
    list of distinct inodes that are free on the device and not in core. If
    there is room left on the list, every such inode of the file system is on
    it. The scan leaves the lock open and the device, the free blocks and the
    counts as they were, and the superblock as the next refill needs it. *)
Theorem refill_lists {D} `{BS : BufSpec D} incore (s : fsys D) : scan_ready s -> fs_ninode (fsb s) = 0 ->
  exists s', ialloc_refill incore s = Ok (s', tt) /\ refilled incore s s' /\ NoDup (listed (fsb s')) /\
    (forall n, n ∈ listed (fsb s') -> avail incore (content (fdev s)) n /\ 0 < n < past (fsb s)) /\
    (fs_ninode (fsb s') < NICINOD -> forall n, 0 < n < past (fsb s) -> avail incore (content (fdev s)) n -> n ∈ listed (fsb s')).
Proof.
  intros Hr Hn. destruct (ialloc_refill_ok incore s Hr Hn) as (s'&E&Hf). exists s'. split; [exact E|]. split; [exact Hf|]. destruct Hf as [_ [_ Hl _ _] _ _ (from&Hp&El&Hall)]. rewrite El. split; [apply nodup_take, avails_nodup|]. split.
  - intros n Hin%in_take. apply avails_in in Hin as [Ha Hr']. split; [exact Ha|lia].
  - intros Hlt n Hr' Ha. rewrite (Hall Hlt) in *. rewrite take_ge; [apply avails_in; split; [exact Ha|lia]|]. pose proof (f_equal length El) as Elen. rewrite listed_length, length_take in Elen by exact Hl. unfold NICINOD in *. destruct Hl as [[? _] _]. lia.
Qed.

(** Two blocks of inodes, some of them taken; the inode 20 is in core. *)
Definition scan_fs : fs := Fs 0 3 0x240 0 0 (replicate 200 0) 0 (replicate 32 0) 0 0 0 0 0 0 0 (replicate 7 0) 17 0 0 0.
Definition scan_disk (b : Z) : block := if (b =? 1) || (b =? 2) then (fun j => if (j mod 16 =? 0)%nat then Z.of_nat (j / 16) mod 3 else 0) <$> seq 0 256 else zeros.
Definition scan_sys : fsys ramdisk := Fsys (Ramdisk scan_disk ∅ 0) scan_fs 0 0.

Lemma refill_lists_witness : exists s', ialloc_refill (fun n => n =? 20) scan_sys = Ok (s', tt) /\ listed (fsb s') = [1; 4; 7; 10; 13; 16; 17; 23; 26; 29; 32].
Proof.
  destruct (refill_lists (fun n => n =? 20) scan_sys) as (s'&E&_).
  - constructor; [|split; [done|reflexivity]|done|by exists 2]. split; [intros a _; apply not_elem_of_empty|]. split; [unfold room; apply (bool_decide_eq_true_1 _); by vm_compute|done].
  - reflexivity.
  - exists s'. split; [exact E|]. assert (match ialloc_refill (fun n => n =? 20) scan_sys with Ok (s, _) => listed (fsb s) | _ => [] end = [1; 4; 7; 10; 13; 16; 17; 23; 26; 29; 32]) as Ev by (vm_compute; reflexivity). by rewrite E in Ev.
Defined.
