(* ===== verification/Fstidy.v ===== *)
(** * A file system through its inodes

    One mounted file system, [dev] with the mount table's entry [k], seen
    through the inode cache and the block device [BufSpec]: every inode is
    what its slot or the device says, and every block of the data area belongs
    to one file, to the free list, or to nobody. A client looks inodes up,
    creates, grows, cuts, links, and releases them; whatever it does within
    its rights, the file system stays tidy. *)
From stdpp Require Import gmap.
From S2P Require Import Prelude Fsalloc Fsmap Fstrunc Icache Finode Ialloc.

(** ** What the file system holds *)

(** The inode numbers of the file system. *)
Definition inos (f : fs) : list Z := seqZ 1 (16 * (fs_isize f - 1)).

(** The inode [ino] of the device [dev], in core or on the device. *)
Definition in_core (dev : Z) (t : list cinode) (ino : Z) : option inode := i_in ∘ snd <$> list_find (fun b => names dev ino b = true) t.
Definition view (dev : Z) (t : list cinode) (c : Z -> block) (ino : Z) : inode := default (disk_inode c ino) (in_core dev t ino).

(** The blocks of a file; free inodes and those of size 0 have none. *)
Definition ip_blocks (c : Z -> block) (ip : inode) : list Z := if (i_mode ip =? 0) || (i_size ip =? 0) then [] else owned c (i_addr ip).
Definition blocks_at (dev : Z) (t : list cinode) (c : Z -> block) (ino : Z) : list Z := ip_blocks c (view dev t c ino).
Definition all_blocks (dev : Z) (t : list cinode) (c : Z -> block) (ns : list Z) : list Z := concat (blocks_at dev t c <$> ns).

Lemma blocks_file c ip ip' : file_of ip' = file_of ip -> ip_blocks c ip' = ip_blocks c ip.
Proof. unfold file_of, ip_blocks. intros E. injection E as E1 _ _ _ E5 E6 _. by rewrite E1, E5, E6. Qed.

(** The same file, or no file at all. *)
Definition same_view (ip jp : inode) : Prop := file_of ip = file_of jp \/ i_mode ip = 0 /\ i_mode jp = 0.

Lemma same_view_trans x y z : same_view x y -> same_view y z -> same_view x z.
Proof. unfold same_view, file_of. intros [E1|[E1 E2]] [E3|[E3 E4]]; [left|right..]; split || idtac; congruence. Qed.
Lemma view_mode x y : same_view x y -> i_mode x = i_mode y.
Proof. unfold same_view, file_of. intros [E|[E1 E2]]; congruence. Qed.
Lemma view_blocks c x y : same_view x y -> ip_blocks c x = ip_blocks c y.
Proof. intros [E|[E1 E2]]; [by apply blocks_file|]. unfold ip_blocks. by rewrite E1, E2. Qed.

Lemma blocks_ext c c' ip : (forall a, a ∈ ip_blocks c ip -> c' a = c a) -> ip_blocks c' ip = ip_blocks c ip.
Proof. unfold ip_blocks. destruct (_ || _); [done|]. apply forest_ext. Qed.

Lemma inos_in f n : n ∈ inos f <-> 1 <= n <= 16 * (fs_isize f - 1).
Proof. unfold inos. rewrite elem_of_seqZ. lia. Qed.
Lemma inos_nodup f : NoDup (inos f).
Proof. apply NoDup_seqZ. Qed.

(** One file set apart from the others. *)
Lemma all_blocks_split dev t c ns n : NoDup ns -> n ∈ ns -> all_blocks dev t c ns ≡ₚ blocks_at dev t c n ++ all_blocks dev t c (filter (fun m => m <> n) ns).
Proof.
  unfold all_blocks. induction ns as [|m ns IH]; [set_solver|]. intros [Hm Hn]%NoDup_cons Hin. destruct (decide (m = n)) as [->|Hne].
  - rewrite filter_cons_False by tauto. assert (filter (fun m => m <> n) ns = ns) as ->; [|done]. clear IH Hin Hn. induction ns as [|x ns IH]; [done|].
    apply not_elem_of_cons in Hm as [? ?]. rewrite filter_cons_True by done. by rewrite IH.
  - rewrite filter_cons_True by done. cbn. rewrite IH by set_solver. by rewrite !app_assoc, (Permutation_app_comm (blocks_at _ _ _ m)).
Qed.

Lemma all_blocks_ext dev t t' c c' ns : (forall n, n ∈ ns -> blocks_at dev t' c' n = blocks_at dev t c n) -> all_blocks dev t' c' ns = all_blocks dev t c ns.
Proof. unfold all_blocks. induction ns as [|n ns IH]; intros H; [done|]. cbn. rewrite H by set_solver. f_equal. apply IH. set_solver. Qed.

Lemma blocks_at_in dev t c ns n a : n ∈ ns -> a ∈ blocks_at dev t c n -> a ∈ all_blocks dev t c ns.
Proof. intros Hn Ha. eapply concat_in; [|exact Ha]. apply list_elem_of_fmap. eauto. Qed.

(** ** Trading blocks between a file and the free list *)

Section trade.
Context {D : Type} {BD : BufDev D} {BS : BufSpec D}.
Implicit Types (s : fsys D).

(** A step that works on one file: its blocks [T] and the free ones [fl] are
    dealt out anew; nothing happens to other blocks of data. *)
Record trade s (fl T : list Z) s' (fl' T' : list Z) : Prop := {
  td_alloc : alloc_ok (content (fdev s')) (fsb s') fl';
  td_perm : T' ++ fl' ≡ₚ T ++ fl;
  td_size : fs_isize (fsb s') = fs_isize (fsb s) /\ fs_fsize (fsb s') = fs_fsize (fsb s) /\ fs_ronly (fsb s') = fs_ronly (fsb s);
  td_held : held (fdev s') = held (fdev s) /\ anon (fdev s') = anon (fdev s);
  td_others : forall a, a <> SUPERB -> fs_isize (fsb s) <= a -> a ∉ T ++ fl -> content (fdev s') a = content (fdev s) a
}.

Lemma trade_ready s fl T O s' fl' T' : ready s fl (T ++ O) -> trade s fl T s' fl' T' -> ready s' fl' (T' ++ O) /\ forall a, a ∈ O -> content (fdev s') a = content (fdev s) a.
Proof.
  intros [A N Dt C S R] [A' P (Z1&Z2&_) [H K] F]. assert (T' ++ O ++ fl' ≡ₚ T ++ O ++ fl) as P2.
  { rewrite (Permutation_app_comm O fl'), (Permutation_app_comm O fl), !app_assoc. by rewrite P. }
  rewrite Forall_app in Dt. destruct Dt as [Dt Do]. pose proof (al_data _ _ _ A) as Df. split.
  - constructor; rewrite ?H; try done.
    + rewrite <- app_assoc, P2, app_assoc. done.
    + apply Forall_app. split; [|eapply Forall_impl; [exact Do|]; intros a; unfold in_data; by rewrite Z1, Z2].
      rewrite Forall_forall. intros a Ha. assert (a ∈ T ++ fl) as Hin by (rewrite <- P; set_solver). rewrite Forall_forall in Dt, Df. unfold in_data. rewrite Z1, Z2. apply elem_of_app in Hin as [?|?]; [by apply Dt|by apply Df].
    + intros a Ha. apply C. rewrite <- app_assoc, <- P2, app_assoc. done.
    + unfold spare in *. by rewrite H, K.
  - intros a Ha. rewrite Forall_forall in Do. specialize (Do a Ha). apply F; [by eapply data_not_super; [|apply A]|apply Do|].
    intros Hin. rewrite <- app_assoc, (Permutation_app_comm O fl), app_assoc in N. apply NoDup_app in N as (_&Hx&_). by apply (Hx a).
Qed.

Lemma trade_none s s' fl T : alloc_ok (content (fdev s)) (fsb s) fl -> fsb s' = fsb s -> held (fdev s') = held (fdev s) -> anon (fdev s') = anon (fdev s) ->
  (forall a, fs_isize (fsb s) <= a -> content (fdev s') a = content (fdev s) a) -> trade s fl T s' fl T.
Proof.
  intros A F H K C. constructor; rewrite ?F; try done; [|auto]. eapply alloc_ext; [exact A|]. intros a Ha. apply C. pose proof (al_data _ _ _ A) as Hd. rewrite Forall_forall in Hd. by apply Hd.
Qed.

Lemma in_ready_perm s l T T' : ready s l T -> T ≡ₚ T' -> ready s l T'.
Proof. intros [A N Dt C S R] P. constructor; try done; [by rewrite <- P|by rewrite <- P|]. intros a Ha. apply C. by rewrite P. Qed.

End trade.

(** ** The table *)

Definition uniq (t : list cinode) : Prop := forall i j bi bj, t !! i = Some bi -> t !! j = Some bj -> i_num bi <> 0 -> i_num bi = i_num bj -> i_dev bi = i_dev bj -> i = j.

Lemma in_core_inv dev t m x : in_core dev t m = Some x -> exists i b, t !! i = Some b /\ i_num b = m /\ i_dev b = dev /\ i_in b = x.
Proof.
  unfold in_core. destruct (list_find _ t) as [[i b]|] eqn:E; [|done]. intros [= <-]. apply list_find_Some in E as (Hb&Hn&_). unfold names in Hn. apply andb_true_iff in Hn as [H1%Z.eqb_eq H2%Z.eqb_eq].
  exists i, b. done.
Qed.
Lemma in_core_none dev t m : (forall i b, t !! i = Some b -> ~ (i_num b = m /\ i_dev b = dev)) -> in_core dev t m = None.
Proof. intros H. destruct (in_core dev t m) as [x|] eqn:E; [|done]. apply in_core_inv in E as (i&b&Hb&?&?&_). by destruct (H i b Hb). Qed.
Lemma in_core_in dev t m i b : uniq t -> m <> 0 -> t !! i = Some b -> i_num b = m -> i_dev b = dev -> in_core dev t m = Some (i_in b).
Proof.
  intros Hu Hm Hb Hn Hd. destruct (in_core dev t m) as [x|] eqn:E.
  - apply in_core_inv in E as (j&bj&Hj&Hnj&Hdj&<-). assert (i = j) as <- by (apply (Hu i j b bj); congruence). congruence.
  - exfalso. unfold in_core in E. destruct (list_find _ t) as [|] eqn:F; [done|]. apply list_find_None in F. rewrite Forall_lookup in F. apply (F i b Hb). unfold names. by rewrite Hn, Hd, !Z.eqb_refl.
Qed.
Lemma in_core_out dev t m i b : in_core dev t m = None -> t !! i = Some b -> ~ (i_num b = m /\ i_dev b = dev).
Proof.
  intros E Hb [Hn Hd]. unfold in_core in E. destruct (list_find _ t) as [|] eqn:F; [done|]. apply list_find_None in F. rewrite Forall_lookup in F. apply (F i b Hb). unfold names. by rewrite Hn, Hd, !Z.eqb_refl.
Qed.

(** A table with one slot changed. *)
Definition retabled (t t' : list cinode) (i : nat) (b' : cinode) : Prop := data <$> t' = <[i := data b']> (data <$> t).

Lemma data_parts b b' : data b' = data b -> i_in b' = i_in b /\ i_count b' = i_count b /\ i_dev b' = i_dev b /\ i_fs b' = i_fs b.
Proof. unfold data. intros E. by injection E. Qed.

Lemma retabled_lookup t t' i b b' j bj : retabled t t' i b' -> t !! i = Some b -> t' !! j = Some bj -> if decide (j = i) then data bj = data b' else exists bj0, t !! j = Some bj0 /\ data bj = data bj0.
Proof.
  intros E Hb Hj. pose proof (f_equal (.!! j) E) as Ej. rewrite list_lookup_fmap, Hj in Ej. case_decide as Hd.
  - subst j. rewrite list_lookup_insert_eq in Ej by (rewrite length_fmap; by eapply lookup_lt_Some). exact (Some_inj _ _ Ej).
  - rewrite list_lookup_insert_ne, list_lookup_fmap in Ej by done. destruct (t !! j) as [bj0|]; [|done]. exists bj0. split; [done|]. exact (Some_inj _ _ Ej).
Qed.
Lemma retabled_other t t' i b' j bj : retabled t t' i b' -> j <> i -> t !! j = Some bj -> exists bj', t' !! j = Some bj' /\ data bj' = data bj.
Proof.
  intros E Hj Hb. pose proof (f_equal (.!! j) E) as Ej. rewrite list_lookup_insert_ne, !list_lookup_fmap, Hb in Ej by done. destruct (t' !! j) as [bj'|]; [|done]. exists bj'. split; [done|]. exact (Some_inj _ _ Ej).
Qed.
Lemma retabled_self t t' i b b' : retabled t t' i b' -> t !! i = Some b -> exists b2, t' !! i = Some b2 /\ data b2 = data b'.
Proof.
  intros E Hb. pose proof (f_equal (.!! i) E) as Ej. rewrite list_lookup_insert_eq, list_lookup_fmap in Ej by (rewrite length_fmap; by eapply lookup_lt_Some).
  destruct (t' !! i) as [b2|]; [|done]. exists b2. split; [done|]. exact (Some_inj _ _ Ej).
Qed.

(** The slot keeps its name, or takes one that is new. *)
Lemma retabled_uniq t t' i b b' : uniq t -> retabled t t' i b' -> t !! i = Some b ->
  (i_num b' <> 0 -> i_num b' = i_num b /\ i_dev b' = i_dev b \/ forall j bj, t !! j = Some bj -> ~ (i_num bj = i_num b' /\ i_dev bj = i_dev b')) -> uniq t'.
Proof.
  intros Hu Hr Hb Hn. assert (forall j bj, t' !! j = Some bj -> j <> i -> i_num bj <> 0 -> ~ (i_num bj = i_num b' /\ i_dev bj = i_dev b')) as Hf.
  { intros j bj Hj Hd Hz [E1 E2]. pose proof (retabled_lookup _ _ _ _ _ _ _ Hr Hb Hj) as H. rewrite decide_False in H by done. destruct H as (b0&H0&(Ei&_&Ed&_)%data_parts).
    destruct Hn as [[Ea Eb]|Hn]; [congruence| |apply (Hn j b0 H0); split; congruence]. apply Hd, (Hu j i b0 b); congruence. }
  intros x y bx bY Hx Hy Hz E1 E2. pose proof (retabled_lookup _ _ _ _ _ _ _ Hr Hb Hx) as Dx. pose proof (retabled_lookup _ _ _ _ _ _ _ Hr Hb Hy) as Dy.
  destruct (decide (x = i)) as [->|Hxi], (decide (y = i)) as [->|Hyi]; [done|..].
  - exfalso. apply data_parts in Dx as (Ei&_&Ed&_). apply (Hf y bY Hy Hyi); [congruence|split; congruence].
  - exfalso. apply data_parts in Dy as (Ei&_&Ed&_). apply (Hf x bx Hx Hxi); [congruence|split; congruence].
  - destruct Dx as (bx0&Hx0&(?&_&?&_)%data_parts), Dy as (by0&Hy0&(?&_&?&_)%data_parts). apply (Hu x y bx0 by0); congruence.
Qed.

Lemma in_core_changed dev t t' i b b' m : uniq t -> uniq t' -> retabled t t' i b' -> t !! i = Some b -> m <> 0 ->
  (i_num b = m /\ i_dev b = dev -> i_num b' = m /\ i_dev b' = dev) ->
  in_core dev t' m = if decide (i_num b' = m /\ i_dev b' = dev) then Some (i_in b') else in_core dev t m.
Proof.
  intros Hu Hu' Hr Hb Hm Hn. destruct (retabled_self _ _ _ _ _ Hr Hb) as (b2&Hb2&(Ei&_&Ed&_)%data_parts). case_decide as Hd.
  - destruct Hd as [Hd1 Hd2]. rewrite <- Ei. apply (in_core_in _ _ _ i); congruence || done.
  - destruct (in_core dev t m) as [x|] eqn:E.
    + apply in_core_inv in E as (j&bj&Hj&Hnj&Hdj&<-). assert (j <> i) as Hji by (intros ->; simplify_eq; tauto). destruct (retabled_other _ _ _ _ _ _ Hr Hji Hj) as (bj'&Hj'&(Ej&_&Edj&_)%data_parts).
      rewrite <- Ej. apply (in_core_in _ _ _ j); congruence || done.
    + apply in_core_none. intros j bj Hj [E1 E2]. pose proof (retabled_lookup _ _ _ _ _ _ _ Hr Hb Hj) as H. case_decide as Hji.
      * apply data_parts in H as (Ej&_&Edj&_). apply Hd. split; congruence.
      * destruct H as (bj0&Hj0&(Ej&_&Edj&_)%data_parts). apply (in_core_out _ _ _ _ _ E Hj0). split; congruence.
Qed.

(** ** A tidy file system *)

Section tidy.
Context {D : Type} {BD : BufDev D} {BS : BufSpec D}.
Context {dev : Z} {k : nat}.
Implicit Types (c : icore D) (s : fsys D).

(** The file system as an operation finds it. *)
Definition sys_of c : option (fsys D) :=
  m ← mounts c !! k; d ← disks c !! dev; Some (Fsys d (m_filsys m) (u_error c) (time c)).
Definition at_hand c s : Prop := sys_of c = Some s.

(** A slot of this file system holds an inode of it; unless it is marked, what
    it holds is on the device. *)
Record slot_ok s b : Prop := {
  so_home : i_fs b = Some k;
  so_num : i_num b ∈ inos (fsb s);
  so_fits : fits (i_in b);
  so_size : 0 <= i_size (i_in b) < 2 ^ 31;
  so_clean : on (i_flg b) IDIRTY = false -> same_view (i_in b) (disk_inode (content (fdev s)) (i_num b));
  so_plain : on (i_flg b) IMOUNT = false /\ on (i_flg b) IPIPE = false
}.

(** The inodes on the device have the widths that [iget] accepts. *)
Definition disk_ok s (n : Z) : Prop := u32 (disk_flags (content (fdev s)) n) <= 0xffff /\ 0 <= i_size (disk_inode (content (fdev s)) n) < 2 ^ 31.

Abbreviation look c s := (view dev (inodes c) (content (fdev s))).
Abbreviation in_files c s := (all_blocks dev (inodes c) (content (fdev s)) (inos (fsb s))).

(** [lt] is the free list of the inode table and [fl] that of the blocks. The
    slot [x] may hold a free inode that [ialloc] has not cleared yet. *)
Record tidy_but (x : option nat) c (lt : list nat) s (fl : list Z) : Prop := {
  ty_hand : at_hand c s;
  ty_list : free_list c lt;
  ty_idle : forall i b, inodes c !! i = Some b -> i ∈ lt <-> i_count b = 0;
  ty_rest : forall i b, inodes c !! i = Some b -> i_count b = 0 -> i_flg b = 0;
  ty_count : forall i b, inodes c !! i = Some b -> 0 <= i_count b < 65536;
  ty_uniq : uniq (inodes c);
  ty_slot : forall i b, inodes c !! i = Some b -> i_num b <> 0 -> i_dev b = dev -> slot_ok s b;
  ty_fresh : forall i b, inodes c !! i = Some b -> i_num b <> 0 -> i_dev b = dev -> i_count b <> 0 -> Some i <> x -> i_mode (i_in b) = 0 -> i_addr (i_in b) = replicate 7 0;
  ty_ready : ready s fl (in_files c s);
  ty_still : held (fdev s) = ∅ /\ anon (fdev s) = 0%nat /\ (4 <= nbuf)%nat;
  ty_disk : forall n, n ∈ inos (fsb s) -> disk_ok s n;
  ty_super : inodes_ok (fsb s) /\ fs_ilock (fsb s) = 0 /\ fs_ronly (fsb s) = 0 /\ 1 < fs_isize (fsb s) < 2 ^ 26;
  ty_last : exists a, 0 < a < fs_isize (fsb s) /\ fs_lasti (fsb s) = base_of a;
  ty_listed : NoDup (listed (fsb s)) /\ forall n, n ∈ listed (fsb s) -> ROOTINO < n /\ n ∈ inos (fsb s) /\ i_mode (look c s n) = 0 /\
    forall i b, inodes c !! i = Some b -> i_num b = n -> i_dev b = dev -> i_count b = 0;
  ty_roots : (forall n, 1 <= n <= ROOTINO -> i_mode (look c s n) <> 0) /\ 0 < i_nlink (look c s ROOTINO) /\
    forall i b, inodes c !! i = Some b -> i_num b = 1 -> i_dev b = dev -> i_count b = 0
}.

Lemma look_slot x c lt s fl i b : tidy_but x c lt s fl -> inodes c !! i = Some b -> i_num b <> 0 -> i_dev b = dev -> look c s (i_num b) = i_in b.
Proof. intros Ht Hb Hn Hd. unfold view. by rewrite (in_core_in dev _ _ i b (ty_uniq _ _ _ _ _ Ht) Hn Hb eq_refl Hd). Qed.

Lemma inos_range x c lt s fl n : tidy_but x c lt s fl -> n ∈ inos (fsb s) -> 0 < n < 2 ^ 31 /\ SUPERB < itod n < fs_isize (fsb s).
Proof.
  intros Ht Hn%inos_in. destruct (ty_super _ _ _ _ _ Ht) as (_&_&_&Hs). assert (0 < n < 2 ^ 31) as Hr by lia. split; [done|].
  unfold itod, INOPB, SUPERB. rewrite trunc_small by lia. split; [apply Z.div_str_pos; lia|apply Z.div_lt_upper_bound; lia].
Qed.

(** The inode of a slot can be written. *)
Lemma slot_inode_ok x c lt s fl b : tidy_but x c lt s fl -> slot_ok s b -> inode_ok (i_in b) s.
Proof.
  intros Ht Hs. destruct (inos_range _ _ _ _ _ _ Ht (so_num _ _ Hs)) as [_ Hr]. constructor; [apply Hs|done| |apply Ht].
  destruct (ty_still _ _ _ _ _ Ht) as (->&_). apply not_elem_of_empty.
Qed.

Lemma tidy_spare x c lt s fl : tidy_but x c lt s fl -> spare s 4.
Proof. intros Ht. destruct (ty_still _ _ _ _ _ Ht) as (E1&E2&E3). unfold spare. rewrite E1, E2, size_empty. lia. Qed.

(** The blocks of the slot's file, among those of all. *)
Lemma slot_blocks x c lt s fl i b : tidy_but x c lt s fl -> inodes c !! i = Some b -> i_num b <> 0 -> i_dev b = dev ->
  exists O, in_files c s ≡ₚ ip_blocks (content (fdev s)) (i_in b) ++ O /\ O = all_blocks dev (inodes c) (content (fdev s)) (filter (fun m => m <> i_num b) (inos (fsb s))) /\
    ready s fl (ip_blocks (content (fdev s)) (i_in b) ++ O).
Proof.
  intros Ht Hb Hn Hd. eexists. assert (in_files c s ≡ₚ ip_blocks (content (fdev s)) (i_in b) ++ all_blocks dev (inodes c) (content (fdev s)) (filter (fun m => m <> i_num b) (inos (fsb s)))) as P.
  { rewrite (all_blocks_split _ _ _ _ (i_num b)); [|apply inos_nodup|by apply (so_num s b), (ty_slot _ _ _ _ _ Ht i)]. unfold blocks_at. by rewrite (look_slot _ _ _ _ _ _ _ Ht Hb Hn Hd). }
  split; [exact P|]. split; [done|]. eapply in_ready_perm; [apply Ht|exact P].
Qed.

(** What every operation promises: the file system is tidy after it, every
    block is in a file or free as before, and but for the inode [w] no file has
    changed and what was in use still is. *)
Record keeps (w : option Z) (x : option nat) c s fl c' lt' s' fl' : Prop := {
  kp_tidy : tidy_but x c' lt' s' fl';
  kp_blocks : in_files c' s' ++ fl' ≡ₚ in_files c s ++ fl;
  kp_size : fs_isize (fsb s') = fs_isize (fsb s);
  kp_others : forall m, m ∈ inos (fsb s) -> Some m <> w -> same_view (look c s m) (look c' s' m) /\
    forall a, a ∈ ip_blocks (content (fdev s)) (look c s m) -> content (fdev s') a = content (fdev s) a;
  kp_busy : forall i b, inodes c !! i = Some b -> i_num b <> 0 -> i_dev b = dev -> i_count b <> 0 -> Some (i_num b) <> w ->
    exists b', inodes c' !! i = Some b' /\ i_num b' = i_num b /\ i_dev b' = dev /\ i_count b' <> 0
}.

Lemma tidied {w x c s fl c' lt' s' fl'} : keeps w x c s fl c' lt' s' fl' -> tidy_but x c' lt' s' fl'.
Proof. apply kp_tidy. Qed.

Lemma keeps_trans w x x' c s fl c1 lt1 s1 fl1 c2 lt2 s2 fl2 : keeps w x c s fl c1 lt1 s1 fl1 -> keeps w x' c1 s1 fl1 c2 lt2 s2 fl2 -> keeps w x' c s fl c2 lt2 s2 fl2.
Proof.
  intros [_ P1 Z1 O1 B1] [T2 P2 Z2 O2 B2]. constructor; [exact T2|by rewrite P2|congruence| |].
  2:{ intros i b Hb Hn Hd Hc Hw. destruct (B1 i b Hb Hn Hd Hc Hw) as (b1&Hb1&N1&D1&C1). destruct (B2 i b1 Hb1) as (b2&Hb2&N2&D2&C2); [congruence..|]. exists b2. split; [done|]. split; [congruence|done]. }
  intros m Hm Hw. destruct (O1 m Hm Hw) as [V1 C1]. destruct (O2 m) as [V2 C2]; [by unfold inos in *; rewrite Z1|done|].
  split; [by eapply same_view_trans|]. intros a Ha. rewrite C2; [by apply C1|]. rewrite <- (view_blocks _ _ _ V1), (blocks_ext (content (fdev s))); done.
Qed.
Lemma keeps_any w x c s fl c' lt' s' fl' : keeps None x c s fl c' lt' s' fl' -> keeps w x c s fl c' lt' s' fl'.
Proof. intros [T P Z O B]. constructor; [done..| |]; [intros m Hm _; by apply O|]. intros i b Hb Hn Hd Hc _. by apply B. Qed.

(** ** A step that works on the inode of one slot *)

Section step.
Context (x x' : option nat) (c c' : icore D) (lt lt' : list nat) (s s' : fsys D) (fl fl' : list Z) (i : nat) (b b' : cinode).
Context (Ht : tidy_but x c lt s fl) (Hb : inodes c !! i = Some b) (Hn : i_num b <> 0) (Hd : i_dev b = dev).

(** The table: the slot changes, and keeps its name. *)
Record table_step : Prop := {
  ts_table : retabled (inodes c) (inodes c') i b';
  ts_name : i_num b' = i_num b /\ i_dev b' = i_dev b;
  ts_hand : at_hand c' s';
  ts_list : free_list c' lt';
  ts_others : forall j, j <> i -> j ∈ lt' <-> j ∈ lt;
  ts_idle : i ∈ lt' <-> i_count b' = 0;
  ts_rest : i_count b' = 0 -> i_flg b' = 0;
  ts_count : 0 <= i_count b' < 65536;
  ts_fresh : i_count b' <> 0 -> Some i <> x' -> i_mode (i_in b') = 0 -> i_addr (i_in b') = replicate 7 0;
  ts_exempt : forall j, j <> i -> Some j <> x' -> Some j <> x
}.

(** The device and the superblock: blocks move between the file and the free
    list, and only the place of this inode changes. *)
Record file_step : Prop := {
  fi_slot : slot_ok s' b';
  fi_trade : trade s fl (ip_blocks (content (fdev s)) (i_in b)) s' fl' (ip_blocks (content (fdev s')) (i_in b'));
  fi_other : forall m, m ∈ inos (fsb s) -> m <> i_num b ->
    disk_inode (content (fdev s')) m = disk_inode (content (fdev s)) m /\ disk_flags (content (fdev s')) m = disk_flags (content (fdev s)) m;
  fi_disk : disk_ok s' (i_num b);
  fi_super : inodes_ok (fsb s') /\ fs_ilock (fsb s') = 0 /\ fs_lasti (fsb s') = fs_lasti (fsb s);
  fi_nodup : NoDup (listed (fsb s'));
  fi_listed : forall m, m ∈ listed (fsb s') -> m <> i_num b /\ m ∈ listed (fsb s) \/ m = i_num b /\ ROOTINO < m /\ i_mode (i_in b') = 0 /\ i_count b' = 0;
  fi_roots : (i_num b <= ROOTINO -> i_mode (i_in b') <> 0) /\ (i_num b = ROOTINO -> 0 < i_nlink (i_in b')) /\ (i_num b = 1 -> i_count b' = 0)
}.

Context (T : table_step) (F : file_step).

Lemma step_uniq : uniq (inodes c').
Proof. eapply retabled_uniq; [apply Ht|apply T|exact Hb|]. intros _. left. apply T. Qed.

Lemma step_look m : m ∈ inos (fsb s) -> look c' s' m = if decide (m = i_num b) then i_in b' else look c s m.
Proof.
  intros Hm. destruct (inos_range _ _ _ _ _ _ Ht Hm) as [Hr _]. destruct (ts_name T) as [E1 E2]. unfold view.
  rewrite (in_core_changed dev (inodes c) (inodes c') i b b' m (ty_uniq _ _ _ _ _ Ht) step_uniq (ts_table T) Hb) by (lia || (intros [? ?]; split; congruence)).
  case_decide as Hm1; case_decide as Hm2; cbn; try done; [exfalso; apply Hm2; symmetry; destruct Hm1; congruence|exfalso; apply Hm1; split; congruence|].
  f_equal. by apply (fi_other F).
Qed.

Lemma step_inos : inos (fsb s') = inos (fsb s).
Proof. unfold inos. by rewrite (proj1 (td_size _ _ _ _ _ _ (fi_trade F))). Qed.

Lemma step_blocks : in_files c' s' ≡ₚ ip_blocks (content (fdev s')) (i_in b') ++ all_blocks dev (inodes c) (content (fdev s)) (filter (fun m => m <> i_num b) (inos (fsb s))) /\
  ready s' fl' (in_files c' s').
Proof.
  destruct (slot_blocks _ _ _ _ _ _ _ Ht Hb Hn Hd) as (O&P&EO&Hr). destruct (trade_ready _ _ _ _ _ _ _ Hr (fi_trade F)) as [Hr' Hf].
  assert (i_num b ∈ inos (fsb s)) as Hin by (by apply (so_num s b), (ty_slot _ _ _ _ _ Ht i)).
  assert (in_files c' s' ≡ₚ ip_blocks (content (fdev s')) (i_in b') ++ O) as P'.
  { rewrite step_inos, (all_blocks_split _ _ _ _ (i_num b)) by (apply inos_nodup || done). unfold blocks_at at 1. rewrite step_look, decide_True by done. f_equiv. rewrite EO. erewrite all_blocks_ext; [done|].
    intros m [Hne Hm]%list_elem_of_filter. unfold blocks_at. rewrite step_look, decide_False by done. apply blocks_ext. intros a Ha. apply Hf. rewrite EO. eapply blocks_at_in; [|exact Ha]. by apply list_elem_of_filter. }
  rewrite <- EO. split; [done|]. eapply in_ready_perm; [exact Hr'|]. by rewrite P'.
Qed.

Lemma tidy_step_slot j bj : inodes c' !! j = Some bj -> i_num bj <> 0 -> i_dev bj = dev -> slot_ok s' bj.
Proof.
  intros Hj Hnj Hdj. pose proof (retabled_lookup _ _ _ _ _ _ _ (ts_table T) Hb Hj) as H. case_decide as Hji.
  - apply data_parts in H as (E1&_&E3&E4). destruct (fi_slot F) as [? ? ? ? ? ?]. constructor; rewrite ?E1, ?E3, ?E4; done.
  - destruct H as (bj0&Hj0&(E1&_&E3&E4)%data_parts). rewrite E1 in Hnj. rewrite E3 in Hdj. destruct (ty_slot _ _ _ _ _ Ht j bj0 Hj0 Hnj Hdj) as [? Hin ? ? Hc ?].
    assert (i_num bj0 <> i_num b) as Hne by (intros E; apply Hji, (ty_uniq _ _ _ _ _ Ht j i bj0 b); congruence).
    constructor; rewrite ?E1, ?E4; try done; [by rewrite step_inos|]. by rewrite (proj1 (fi_other F _ Hin Hne)).
Qed.

Lemma step_disk m : m ∈ inos (fsb s') -> disk_ok s' m.
Proof.
  rewrite step_inos. intros Hm. destruct (decide (m = i_num b)) as [->|Hne]; [apply F|]. destruct (fi_other F m Hm Hne) as [E1 E2]. unfold disk_ok. rewrite E1, E2. by apply (ty_disk _ _ _ _ _ Ht).
Qed.

(** What slots named [m] count. *)
Lemma step_counts m : m <> i_num b -> (forall j bj, inodes c !! j = Some bj -> i_num bj = m -> i_dev bj = dev -> i_count bj = 0) ->
  forall j bj, inodes c' !! j = Some bj -> i_num bj = m -> i_dev bj = dev -> i_count bj = 0.
Proof.
  intros Hne H j bj Hj Hnj Hdj. pose proof (retabled_lookup _ _ _ _ _ _ _ (ts_table T) Hb Hj) as E. destruct (ts_name T) as [En Ed]. case_decide as Hji.
  - apply data_parts in E as (E1&_&E3&_). exfalso. apply Hne. rewrite <- Hnj, E1. done.
  - destruct E as (bj0&Hj0&(E1&E2&E3&_)%data_parts). rewrite E2. apply (H j bj0); congruence.
Qed.
Lemma step_counts_self : i_count b' = 0 -> forall j bj, inodes c' !! j = Some bj -> i_num bj = i_num b -> i_dev bj = dev -> i_count bj = 0.
Proof.
  intros Hc j bj Hj Hnj Hdj. pose proof (retabled_lookup _ _ _ _ _ _ _ (ts_table T) Hb Hj) as E. case_decide as Hji; [apply data_parts in E as (_&->&_); done|].
  destruct E as (bj0&Hj0&(E1&E2&E3&_)%data_parts). exfalso. apply Hji, (ty_uniq _ _ _ _ _ Ht j i bj0 b); congruence.
Qed.

Lemma step_listed m : m ∈ listed (fsb s') -> ROOTINO < m /\ m ∈ inos (fsb s') /\ i_mode (look c' s' m) = 0 /\
  forall j bj, inodes c' !! j = Some bj -> i_num bj = m -> i_dev bj = dev -> i_count bj = 0.
Proof.
  rewrite step_inos. intros Hm. destruct (fi_listed F m Hm) as [[Hne Hl]|(->&Hr&Hm0&Hc)].
  - destruct (proj2 (ty_listed _ _ _ _ _ Ht) m Hl) as (H1&H2&H3&H4). split; [done|]. split; [done|]. rewrite step_look, decide_False by done. split; [done|]. by apply step_counts.
  - assert (i_num b ∈ inos (fsb s)) as Hin by (by apply (so_num s b), (ty_slot _ _ _ _ _ Ht i)). split; [done|]. split; [done|]. rewrite step_look, decide_True by done. split; [done|]. by apply step_counts_self.
Qed.

Lemma step_roots : (forall n, 1 <= n <= ROOTINO -> i_mode (look c' s' n) <> 0) /\ 0 < i_nlink (look c' s' ROOTINO) /\
    forall j bj, inodes c' !! j = Some bj -> i_num bj = 1 -> i_dev bj = dev -> i_count bj = 0.
Proof.
  destruct (ty_roots _ _ _ _ _ Ht) as (R1&R2&R3). destruct (fi_roots F) as (F1&F2&F3). pose proof (al_size _ _ _ (rd_alloc _ _ _ (ty_ready _ _ _ _ _ Ht))) as Hsz.
  assert (forall n, 1 <= n <= ROOTINO -> n ∈ inos (fsb s)) as Hin.
  { intros n Hr. apply inos_in. pose proof (so_num s b (ty_slot _ _ _ _ _ Ht i b Hb Hn Hd)) as Hi%inos_in. unfold ROOTINO in *. lia. }
  split; [|split].
  - intros n Hr. rewrite step_look by auto. case_decide as E; [subst n; apply F1; lia|auto].
  - rewrite step_look by (apply Hin; unfold ROOTINO; lia). case_decide as E; [by apply F2|done].
  - destruct (decide (i_num b = 1)) as [E|E]; [rewrite <- E; apply step_counts_self; auto|by apply step_counts].
Qed.

Lemma step_tidy : tidy_but x' c' lt' s' fl'.
Proof.
  destruct (fi_trade F) as [A P (Z1&Z2&Z3) [H K] C]. destruct (fi_super F) as (S1&S2&S5). destruct (ty_super _ _ _ _ _ Ht) as (_&_&S3&S4). destruct (ty_still _ _ _ _ _ Ht) as (Q1&Q2&Q3). constructor.
  - apply T.
  - apply T.
  - intros j bj Hj. pose proof (retabled_lookup _ _ _ _ _ _ _ (ts_table T) Hb Hj) as E. case_decide as Hji; [subst j; apply data_parts in E as (_&->&_); apply T|].
    destruct E as (bj0&Hj0&(_&->&_)%data_parts). rewrite (ts_others T) by done. by apply (ty_idle _ _ _ _ _ Ht).
  - intros j bj Hj. pose proof (retabled_lookup _ _ _ _ _ _ _ (ts_table T) Hb Hj) as E. case_decide as Hji; [apply data_parts in E as (->&->&_); apply T|].
    destruct E as (bj0&Hj0&(->&->&_)%data_parts). by apply (ty_rest _ _ _ _ _ Ht j).
  - intros j bj Hj. pose proof (retabled_lookup _ _ _ _ _ _ _ (ts_table T) Hb Hj) as E. case_decide as Hji; [apply data_parts in E as (_&->&_); apply T|].
    destruct E as (bj0&Hj0&(_&->&_)%data_parts). by apply (ty_count _ _ _ _ _ Ht j).
  - exact step_uniq.
  - exact tidy_step_slot.
  - intros j bj Hj Hnj Hdj Hc Hx Hm. pose proof (retabled_lookup _ _ _ _ _ _ _ (ts_table T) Hb Hj) as E. case_decide as Hji.
    + subst j. apply data_parts in E as (E1&E2&_). rewrite E1 in *. rewrite E2 in *. by apply T.
    + destruct E as (bj0&Hj0&(E1&E2&E3&_)%data_parts). rewrite E1 in *. rewrite E2 in *. rewrite E3 in *. apply (ty_fresh _ _ _ _ _ Ht j); try done. by apply T.
  - apply step_blocks.
  - by rewrite H, K.
  - exact step_disk.
  - by rewrite Z3, Z1.
  - destruct (ty_last _ _ _ _ _ Ht) as (a&Ha&El). exists a. by rewrite Z1, S5.
  - split; [apply F|]. exact step_listed.
  - exact step_roots.
Qed.

(** Every block stays with a file or free. *)
Lemma step_conserves : in_files c' s' ++ fl' ≡ₚ in_files c s ++ fl.
Proof.
  destruct (slot_blocks _ _ _ _ _ _ _ Ht Hb Hn Hd) as (O&P&->&_). rewrite (proj1 step_blocks), P. rewrite <- !app_assoc, (Permutation_app_comm _ fl'), (Permutation_app_comm _ fl), !app_assoc.
  by rewrite (td_perm _ _ _ _ _ _ (fi_trade F)).
Qed.

Lemma step_others m : m ∈ inos (fsb s) -> m <> i_num b -> look c' s' m = look c s m /\ forall a, a ∈ ip_blocks (content (fdev s)) (look c s m) -> content (fdev s') a = content (fdev s) a.
Proof.
  intros Hm Hne. split; [by rewrite step_look, decide_False|]. intros a Ha. destruct (slot_blocks _ _ _ _ _ _ _ Ht Hb Hn Hd) as (O&_&EO&Hr). apply (trade_ready _ _ _ _ _ _ _ Hr (fi_trade F)).
  rewrite EO. eapply blocks_at_in; [|exact Ha]. by apply list_elem_of_filter.
Qed.

Lemma step_keeps : keeps (Some (i_num b)) x' c s fl c' lt' s' fl'.
Proof.
  constructor; [exact step_tidy|exact step_conserves|apply (fi_trade F)| |].
  - intros m Hm Hw. destruct (step_others m Hm) as [E C]; [congruence|]. split; [rewrite E; by left|exact C].
  - intros j bj Hj Hnj Hdj Hcj Hw. assert (j <> i) as Hji by (intros ->; congruence). destruct (retabled_other _ _ _ _ _ _ (ts_table T) Hji Hj) as (b2&Hb2&(E1&E2&E3&_)%data_parts). exists b2. rewrite E1, E2, E3. done.
Qed.

(** The file itself can be the same as well. *)
Lemma step_keeps_all : (i_count b <> 0 -> i_count b' <> 0) -> same_view (i_in b) (i_in b') -> (forall a, a ∈ ip_blocks (content (fdev s)) (i_in b) -> content (fdev s') a = content (fdev s) a) -> keeps None x' c s fl c' lt' s' fl'.
Proof.
  intros U V C. destruct step_keeps as [H1 H2 H3 H4 H5]. constructor; [done..| |].
  2:{ intros j bj Hj Hnj Hdj Hcj _. destruct (decide (j = i)) as [->|Hji]; [|apply (H5 j bj Hj Hnj Hdj Hcj); intros [= E]; apply Hji, (ty_uniq _ _ _ _ _ Ht j i bj b); congruence].
      destruct (retabled_self _ _ _ _ _ (ts_table T) Hb) as (b2&Hb2&(E1&E2&E3&_)%data_parts). destruct (ts_name T) as [N1 N2]. assert (bj = b) as -> by congruence. exists b2. rewrite E1, E2, E3, N1, N2. auto. }
  intros m Hm _. destruct (decide (m = i_num b)) as [->|Hne]; [|apply H4; congruence].
  rewrite step_look, decide_True by done. by rewrite (look_slot _ _ _ _ _ _ _ Ht Hb Hn Hd).
Qed.

End step.

(** ** Steps that leave the device alone *)

Lemma hand_fs c s : at_hand c s -> exists m, mounts c !! k = Some m /\ fsb s = m_filsys m /\
  (forall A (f : fsys D -> outcome (fsys D * A)), on_fs c dev (Some k) f = r ← f s; Ok (with_fsys c dev k m (fst r), snd r)) /\
  (forall s', fnow s' = fnow s -> at_hand (with_fsys c dev k m s') s').
Proof.
  unfold at_hand, sys_of. intros H. destruct (mounts c !! k) as [m|] eqn:Em; [|done]. cbn in H. destruct (disks c !! dev) as [d|] eqn:Ed; [|done]. cbn in H. injection H as <-.
  exists m. split; [done|]. split; [done|]. split; [intros A f; unfold on_fs; by rewrite (rd_ok _ _ _ Em), Ed|]. intros s' Hn. cbn. rewrite list_lookup_insert_eq by (by eapply lookup_lt_Some).
  cbn. rewrite lookup_insert_eq. cbn in *. rewrite <- Hn. by destruct s'.
Qed.

Lemma hand_moved c c' s i b w : at_hand c s -> moved c c' i b w -> at_hand c' s.
Proof. intros H [_ E1 E2 E3 E4 _]. unfold at_hand, sys_of in *. by rewrite E1, E2, E3, E4. Qed.

Lemma hand_frame c s : at_hand c s -> fnow s = time c /\ ferr s = u_error c.
Proof. unfold at_hand, sys_of. destruct (mounts c !! k); [|done]. cbn. destruct (disks c !! dev); [|done]. cbn. by intros [= <-]. Qed.

(** The slot [b] changed to [b'] but for what is written out of it. *)
Record same_file (b b' : cinode) : Prop := {
  sf_file : file_of (i_in b') = file_of (i_in b);
  sf_name : i_num b' = i_num b /\ i_dev b' = i_dev b /\ i_fs b' = i_fs b;
  sf_dirty : on (i_flg b') IDIRTY = false -> on (i_flg b) IDIRTY = false;
  sf_plain : on (i_flg b') IMOUNT = on (i_flg b) IMOUNT /\ on (i_flg b') IPIPE = on (i_flg b) IPIPE
}.

Lemma file_fits ip ip' : file_of ip' = file_of ip -> fits ip -> fits ip'.
Proof. unfold file_of. intros E [H1 H2 H3 H4]. injection E as E1 E2 _ _ _ E6 E7. constructor; congruence. Qed.

Lemma listed_idle x c lt s fl i b : tidy_but x c lt s fl -> inodes c !! i = Some b -> i_dev b = dev -> i_count b <> 0 -> i_num b ∉ listed (fsb s) /\ i_num b <> 1.
Proof.
  intros Ht Hb Hd Hc. split; [intros Hl; destruct (proj2 (ty_listed _ _ _ _ _ Ht) _ Hl) as (_&_&_&H)|intros E; destruct (ty_roots _ _ _ _ _ Ht) as (_&_&H)]; by apply Hc, (H i b).
Qed.

(** A change of one slot, its flags, times or references. *)
Lemma table_keeps x x' c c' lt lt' s fl i b b' w : tidy_but x c lt s fl -> inodes c !! i = Some b -> i_num b <> 0 -> i_dev b = dev -> same_file b b' -> moved c c' i b' w -> free_list c' lt' ->
  (forall j, j <> i -> j ∈ lt' <-> j ∈ lt) -> (i ∈ lt' <-> i_count b' = 0) -> (i_count b' = 0 -> i_flg b' = 0) -> 0 <= i_count b' < 65536 ->
  (i_count b' <> 0 -> i_num b ∉ listed (fsb s) /\ i_num b <> 1) -> (i_count b' <> 0 -> Some i <> x' -> i_mode (i_in b) = 0 -> i_addr (i_in b) = replicate 7 0) ->
  (forall j, j <> i -> Some j <> x' -> Some j <> x) -> (i_count b <> 0 -> i_count b' <> 0) -> keeps None x' c s fl c' lt' s fl.
Proof.
  intros Ht Hb Hn Hd [Sf (Sn&Sd&Sk) Sc [Sm Sp]] Hmv Hfl Hlo Hli Hrest Hcnt Hl1 Hfr Hex Hused. assert (Hso := ty_slot _ _ _ _ _ Ht i b Hb Hn Hd). pose proof (so_num _ _ Hso) as Hin.
  assert (i_mode (i_in b') = i_mode (i_in b) /\ i_nlink (i_in b') = i_nlink (i_in b) /\ i_addr (i_in b') = i_addr (i_in b) /\ i_size (i_in b') = i_size (i_in b)) as (Em&El&Ea&Es) by (unfold file_of in Sf; by injection Sf).
  pose proof (look_slot _ _ _ _ _ _ _ Ht Hb Hn Hd) as Hlook. destruct (ty_roots _ _ _ _ _ Ht) as (R1&R2&R3).
  apply (step_keeps_all x x' c c' lt lt' s s fl fl i b b' Ht Hb Hn Hd).
  - constructor; try done; [apply Hmv|eapply hand_moved; [apply Ht|exact Hmv]|]. rewrite Em, Ea. done.
  - constructor.
    + destruct Hso as [H1 H2 H3 H4 H5 H6]. constructor; rewrite ?Sn, ?Sk, ?Es, ?Sm, ?Sp; try done; [by eapply file_fits|]. intros Hcl. apply (same_view_trans _ (i_in b)); [by left|auto].
    + rewrite (blocks_file _ _ _ Sf). apply trade_none; [apply Ht|done..].
    + done.
    + by apply (ty_disk _ _ _ _ _ Ht).
    + destruct (ty_super _ _ _ _ _ Ht) as (?&?&_). done.
    + apply (ty_listed _ _ _ _ _ Ht).
    + intros m Hm. destruct (decide (m = i_num b)) as [->|]; [|by left]. right. destruct (proj2 (ty_listed _ _ _ _ _ Ht) _ Hm) as (H1&_&H3&_). rewrite Hlook in H3. rewrite Em. split; [done|]. split; [done|]. split; [done|].
      destruct (decide (i_count b' = 0)) as [|Hc]; [done|]. by destruct (proj1 (Hl1 Hc)).
    + rewrite Em, El. split; [intros Hr; rewrite <- Hlook; apply R1; pose proof (inos_range _ _ _ _ _ _ Ht Hin); lia|]. split; [intros E; by rewrite <- Hlook, E|].
      intros E. destruct (decide (i_count b' = 0)) as [|Hc]; [done|]. by destruct (proj2 (Hl1 Hc)).
  - exact Hused.
  - by left.
  - done.
Qed.

Lemma unlocked_on f m : Z.land (Z.lnot ILOCKED) m = m -> Z.land (Z.lnot IWANT) m = m -> on (unlocked f) m = on f m.
Proof.
  intros E1 E2. unfold unlocked. assert (on (Z.land f (Z.lnot ILOCKED)) m = on f m) as E by (unfold on; by rewrite <- Z.land_assoc, E1).
  destruct (on (Z.land f (Z.lnot ILOCKED)) IWANT); [|done]. rewrite <- E. unfold on at 1. by rewrite <- Z.land_assoc, E2.
Qed.

(** Marks that lock an inode say nothing about its file. *)
Lemma same_flags b f : on f IDIRTY = on (i_flg b) IDIRTY -> on f IMOUNT = on (i_flg b) IMOUNT -> on f IPIPE = on (i_flg b) IPIPE -> same_file b (set_flg b f).
Proof. intros E1 E2 E3. constructor; cbn; [done|done|by rewrite E1|done]. Qed.

Lemma in_use x c lt s fl i b : tidy_but x c lt s fl -> inodes c !! i = Some b -> i_count b <> 0 -> i ∉ lt.
Proof. intros Ht Hb Hc Hi. by apply Hc, (ty_idle _ _ _ _ _ Ht i b Hb). Qed.

(** A change of the flags of an inode in use. *)
Lemma flags_keep x c c' lt s fl i b f w : tidy_but x c lt s fl -> inodes c !! i = Some b -> i_num b <> 0 -> i_dev b = dev -> i_count b <> 0 -> same_file b (set_flg b f) ->
  moved c c' i (set_flg b f) w -> free_list c' lt -> keeps None x c s fl c' lt s fl.
Proof.
  intros Ht Hb Hn Hd Hc Hs Hm Hf. pose proof (ty_idle _ _ _ _ _ Ht i b Hb) as Hi. pose proof (ty_count _ _ _ _ _ Ht i b Hb) as Hr.
  apply (table_keeps x x c c' lt lt s fl i b (set_flg b f) w Ht Hb Hn Hd Hs Hm Hf); try done.
  - intros _. exact (listed_idle _ _ _ _ _ _ _ Ht Hb Hd Hc).
  - intros _ Hx. by apply (ty_fresh _ _ _ _ _ Ht i b Hb Hn Hd Hc).
Qed.

Lemma iunlock_keeps x c lt s fl i b : tidy_but x c lt s fl -> inodes c !! i = Some b -> i_num b <> 0 -> i_dev b = dev -> i_count b <> 0 ->
  exists c', iunlock c i = Ok c' /\ inodes c' !! i = Some (set_flg b (unlocked (i_flg b))) /\ keeps None x c s fl c' lt s fl.
Proof.
  intros Ht Hb Hn Hd Hc. destruct (iunlock_moved c i b Hb) as (c'&E&Hm&Hb'&Hf). exists c'. split; [exact E|]. split; [exact Hb'|].
  eapply flags_keep; [exact Ht|exact Hb|done..| |exact Hm|]; [apply same_flags; by apply unlocked_on|]. apply Hf; [apply Ht|]. exact (in_use _ _ _ _ _ _ _ Ht Hb Hc).
Qed.

Lemma put_flags_keep x c lt s fl i b f : tidy_but x c lt s fl -> inodes c !! i = Some b -> i_num b <> 0 -> i_dev b = dev -> i_count b <> 0 -> same_file b (set_flg b f) ->
  keeps None x c s fl (put_slot c i (set_flg b f)) lt s fl.
Proof.
  intros Ht Hb Hn Hd Hc Hs. eapply flags_keep; [exact Ht|exact Hb|done..|exact Hs|apply moved_put|]. apply free_list_off; [apply Ht|]. exact (in_use _ _ _ _ _ _ _ Ht Hb Hc).
Qed.

Lemma same_or b m : Z.land m IDIRTY = 0 -> Z.land m IMOUNT = 0 -> Z.land m IPIPE = 0 -> same_file b (set_flg b (Z.lor (i_flg b) m)).
Proof. intros E1 E2 E3. apply same_flags; rewrite on_or; unfold on at 2; rewrite ?E1, ?E2, ?E3; by rewrite orb_false_r. Qed.

(** A locked inode is in use, so it is found with its mark. *)
Lemma locked_in_use x c lt s fl i b f : tidy_but x c lt s fl -> inodes c !! i = Some b -> on (i_flg b) f = true -> i_count b <> 0.
Proof. intros Ht Hb Hl Hc. rewrite (ty_rest _ _ _ _ _ Ht i b Hb Hc) in Hl. done. Qed.

(** One reference more. *)
Lemma ref_keeps x x' c lt s fl i b : tidy_but x c lt s fl -> inodes c !! i = Some b -> i_num b <> 0 -> i_dev b = dev -> i_count b < 65535 ->
  i_num b ∉ listed (fsb s) -> i_num b <> 1 -> (Some i <> x' -> i_mode (i_in b) = 0 -> i_addr (i_in b) = replicate 7 0) -> (forall j, j <> i -> Some j <> x' -> Some j <> x) ->
  exists c', take_ref c i = Ok c' /\ (exists b', inodes c' !! i = Some b' /\ data b' = data (referred b)) /\ keeps None x' c s fl c' (others i lt) s fl.
Proof.
  intros Ht Hb Hn Hd Hc Hl H1 Hx Hx'. pose proof (ty_count _ _ _ _ _ Ht i b Hb) as Hr. destruct (take_ref_ok c lt i b (ty_list _ _ _ _ _ Ht) Hb (ty_idle _ _ _ _ _ Ht i b Hb)) as (c'&E&Hf&Hm).
  exists c'. split; [exact E|]. split; [exact (moved_self _ _ _ _ _ _ Hm Hb)|]. assert (u16 (i_count b + 1) = i_count b + 1) as Eu by (apply trunc_small; lia).
  eapply (table_keeps x x' c c' lt (others i lt) s fl i b (referred b)); [exact Ht|exact Hb|done|done| |exact Hm|exact Hf|..]; cbn [referred i_count set_flg set_count set_in]; rewrite ?Eu; try lia; try done.
  - destruct (same_or b ILOCKED) as [S1 S2 S3 S4]; [done..|]. constructor; [exact S1|exact S2|exact S3|exact S4].
  - intros j Hj. rewrite list_elem_of_filter. tauto.
  - rewrite list_elem_of_filter. split; [tauto|lia].
Qed.

(** One reference less, others being left. *)
Lemma drop_keeps c lt s fl i b : tidy_but None c lt s fl -> inodes c !! i = Some b -> i_num b <> 0 -> i_dev b = dev -> 1 < i_count b ->
  exists c', drop_ref c i = Ok c' /\ keeps None None c s fl c' lt s fl.
Proof.
  intros Ht Hb Hn Hd Hc. pose proof (ty_count _ _ _ _ _ Ht i b Hb) as Hr. pose proof (ty_idle _ _ _ _ _ Ht i b Hb) as Hi. unfold drop_ref. rewrite (change_ok _ _ _ _ Hb). eexists. split; [done|].
  assert (u16 (i_count b - 1) = i_count b - 1) as Eu by (apply trunc_small; lia).
  eapply (table_keeps None None c _ lt lt s fl i b); [exact Ht|exact Hb|done|done| |apply moved_put|apply free_list_off; [apply Ht|apply (in_use _ _ _ _ _ _ _ Ht Hb); lia]|..]; cbn [i_count set_count]; rewrite ?Eu; try lia; try done.
  - rewrite Hi. lia.
  - intros _. apply (listed_idle _ _ _ _ _ _ _ Ht Hb Hd). lia.
  - intros _ _. apply (ty_fresh _ _ _ _ _ Ht i b Hb Hn Hd); [lia|done].
Qed.

Lemma times_file now b : same_file b (set_in b (itimes now (i_in b))).
Proof.
  unfold itimes. destruct (on (i_flg b) (Z.lor IUPD (Z.lor IACC ICHG))) eqn:E; [|by destruct b]. assert (forall f, on (Z.land (Z.lor f IMOD) (Z.lnot (Z.lor IACC (Z.lor IUPD ICHG)))) IDIRTY = true) as Hd.
  { intros f. rewrite on_and_not. change (Z.land (Z.lnot (Z.lor IACC (Z.lor IUPD ICHG))) IDIRTY) with IMOD. rewrite on_or. by rewrite orb_true_r. }
  constructor; cbn [set_in i_in set_iflag set_itimes i_flag]; [done|done|by rewrite Hd|]. rewrite !on_and_not, !on_or.
  change (Z.land (Z.lnot (Z.lor IACC (Z.lor IUPD ICHG))) IMOUNT) with IMOUNT. change (Z.land (Z.lnot (Z.lor IACC (Z.lor IUPD ICHG))) IPIPE) with IPIPE. by rewrite !orb_false_r.
Qed.

(** A slot changed in what is not its links. *)
Lemma free_list_on c l i b b' : free_list c l -> inodes c !! i = Some b -> i_un3 b' = i_un3 b -> i_freeb b' = i_freeb b -> free_list (put_slot c i b') l.
Proof. intros [Hh Ht Hl Hn] Hb Hu Hf. constructor; cbn; [done..|by eapply linked_on|done]. Qed.

(** The last reference to an inode is dropped: what the table is then. *)
Definition released b (ip : inode) : cinode := set_count (set_in b (set_iflag ip 0)) 0.

Lemma rele_last c lt s fl i b s' ip' : tidy_but None c lt s fl -> inodes c !! i = Some b -> i_num b <> 0 -> i_dev b = dev -> i_count b = 1 ->
  irele_write (set_iflag (i_in b) (Z.lor (i_flg b) ILOCKED)) s = Ok (s', ip') -> fnow s' = fnow s ->
  exists c', irele c i = Ok c' /\ retabled (inodes c) (inodes c') i (released b ip') /\ at_hand c' s' /\ free_list c' (lt ++ [i]).
Proof.
  intros Ht Hb Hn Hd Hc Hw Hnow. pose proof (lookup_lt_Some _ _ _ Hb) as Hlt. assert (i ∉ lt) as Hi by (apply (in_use _ _ _ _ _ _ _ Ht Hb); lia).
  unfold irele. rewrite (rd_ok _ _ _ Hb), bind_ok, Hc. cbn [Z.eqb Pos.eqb]. unfold irele_first. rewrite (change_ok _ _ _ _ Hb), bind_ok. set (b1 := set_flg b (Z.lor (i_flg b) ILOCKED)). set (c1 := put_slot c i b1).
  assert (inodes c1 !! i = Some b1) as Hb1 by (by apply list_lookup_insert_eq). assert (at_hand c1 s) as H1 by (eapply hand_moved; [apply Ht|apply moved_put]).
  destruct (hand_fs _ _ H1) as (m&Hm&_&Hon&Hat). unfold irele_io. rewrite (rd_ok _ _ _ Hb1), bind_ok. change (i_dev b1) with (i_dev b). change (i_fs b1) with (i_fs b). rewrite Hd, (so_home _ _ (ty_slot _ _ _ _ _ Ht i b Hb Hn Hd)), Hon.
  change (i_in b1) with (set_iflag (i_in b) (Z.lor (i_flg b) ILOCKED)). rewrite Hw, !bind_ok. cbn [fst snd]. set (c2 := with_fsys c1 dev k m s').
  assert (inodes c2 !! i = Some b1) as Hb2 by exact Hb1. rewrite (change_ok _ _ _ _ Hb2), bind_ok. set (b3 := set_in b1 ip'). set (c3 := put_slot c2 i b3).
  assert (free_list c3 lt) as Hf3. { apply free_list_off; [|done]. pose proof (free_list_off _ _ i b1 (ty_list _ _ _ _ _ Ht) Hi) as [F1 F2 F3 F4]. by constructor. }
  destruct (irele_free_ok c3 lt i b3 Hf3 Hi) as (c4&->&Hf4&Hm4); [apply list_lookup_insert_eq; cbn; by rewrite length_insert|]. rewrite bind_ok.
  destruct (moved_self _ _ _ _ b3 _ Hm4) as (b4&Hb4&Ed); [apply list_lookup_insert_eq; cbn; by rewrite length_insert|].
  unfold drop_ref. rewrite (change_ok _ _ _ _ Hb4). eexists. split; [done|]. split; [|split].
  - unfold retabled. cbn. rewrite list_fmap_insert, (mv_data _ _ _ _ _ Hm4). cbn. rewrite !list_fmap_insert, !list_insert_insert_eq. f_equal. unfold data in *. cbn. injection Ed as -> -> -> -> ->. cbn. by rewrite Hc.
  - assert (moved c3 c4 i (set_flg b3 0) (wake_if (on (i_flg b3) IWANT) i (woken c3))) as Hm4' by exact Hm4. unfold at_hand, sys_of. cbn. destruct Hm4' as [_ -> -> -> -> _]. exact (Hat s' Hnow).
  - eapply free_list_on; [exact Hf4|exact Hb4|done|done].
Qed.

(** The table's part of it. *)
Lemma rele_table c c' lt s s' fl i b ip' : tidy_but None c lt s fl -> inodes c !! i = Some b -> retabled (inodes c) (inodes c') i (released b ip') -> i_number ip' = i_num b ->
  at_hand c' s' -> free_list c' (lt ++ [i]) -> table_step None None c c' lt (lt ++ [i]) s' i b (released b ip').
Proof.
  intros Ht Hb Hr Hn Ha Hf. constructor; try done.
  - intros j Hj. rewrite elem_of_app, list_elem_of_singleton. tauto.
  - cbn. rewrite elem_of_app, list_elem_of_singleton. tauto.
Qed.

(** The inode as [irele] writes it out. *)
Abbreviation locked_in b := (set_iflag (i_in b) (Z.lor (i_flg b) ILOCKED)).

Lemma locked_dirty b : on (i_flag (locked_in b)) IDIRTY = on (i_flg b) IDIRTY.
Proof. cbn. rewrite on_or. by rewrite orb_false_r. Qed.


(** An inode written out when it was marked: the device holds it, and the other
    inodes as before. *)
Lemma inode_written x c lt s fl b s' ip' : tidy_but x c lt s fl -> slot_ok s b -> fits ip' -> file_of ip' = file_of (i_in b) ->
  (forall a, content (fdev s') a = (if on (i_flg b) IDIRTY then wrote (content (fdev s)) (itod (i_num b)) (dinode_put ip' (Z.to_nat (itoo (i_num b))) (content (fdev s) (itod (i_num b)))) else content (fdev s)) a) ->
  same_view ip' (disk_inode (content (fdev s')) (i_num b)) /\ disk_ok s' (i_num b) /\ forall m, m ∈ inos (fsb s) -> m <> i_num b ->
    disk_inode (content (fdev s')) m = disk_inode (content (fdev s)) m /\ disk_flags (content (fdev s')) m = disk_flags (content (fdev s)) m.
Proof.
  intros Ht Hso Hfit E1 C. destruct (inos_range _ _ _ _ _ _ Ht (so_num _ _ Hso)) as [Hnr Hbr]. pose proof (content_length (fdev s) (itod (i_num b))) as Hx.
  destruct (on (i_flg b) IDIRTY) eqn:Ed.
  - assert (content (fdev s') (itod (i_num b)) = dinode_put ip' (Z.to_nat (itoo (i_num b))) (content (fdev s) (itod (i_num b)))) as Cb by (rewrite C; unfold wrote; by rewrite decide_True).
    destruct (disk_put _ _ _ _ Hfit Hx Cb) as [D1 D2]. split; [by left|]. split.
    + unfold disk_ok. rewrite D2. split; [destruct Hfit as [_ _ _ ?]; rewrite trunc_small; lia|]. assert (i_size (disk_inode (content (fdev s')) (i_num b)) = i_size (i_in b)) as -> by (unfold file_of in *; congruence). apply Hso.
    + intros m Hm Hne. apply (disk_put_other _ _ (i_num b) m ip'); [apply Hfit|done|by apply (inos_range _ _ _ _ _ _ Ht)|done|done|exact Cb|].
      intros Hb'. rewrite C. unfold wrote. by rewrite decide_False.
  - assert (forall n, disk_inode (content (fdev s')) n = disk_inode (content (fdev s)) n /\ disk_flags (content (fdev s')) n = disk_flags (content (fdev s)) n) as Hs by (intros n; by apply disk_same).
    split; [rewrite (proj1 (Hs _)); apply (same_view_trans _ (i_in b)); [by left|by apply Hso]|]. split; [|by intros]. unfold disk_ok. rewrite (proj1 (Hs _)), (proj2 (Hs _)). by apply (ty_disk _ _ _ _ _ Ht), Hso.
Qed.

Lemma rele_live c lt s fl i b : tidy_but None c lt s fl -> inodes c !! i = Some b -> i_num b <> 0 -> i_dev b = dev -> i_count b = 1 -> 0 < i_nlink (i_in b) ->
  exists c' lt' s', irele c i = Ok c' /\ keeps (Some (i_num b)) None c s fl c' lt' s' fl.
Proof.
  intros Ht Hb Hn Hd Hc Hl. pose proof (ty_slot _ _ _ _ _ Ht i b Hb Hn Hd) as Hso. pose proof (slot_inode_ok _ _ _ _ _ _ Ht Hso) as Hio. pose proof (tidy_spare _ _ _ _ _ Ht) as Hsp.
  destruct (inos_range _ _ _ _ _ _ Ht (so_num _ _ Hso)) as [Hnr Hbr]. set (ip := locked_in b).
  destruct (irele_write_live ip s) as (s'&ip'&E&(E1&E2&E3)&[F R N C H K]); [by destruct Hio|unfold spare in *; lia|exact Hl|]. change (i_number ip) with (i_num b) in *. unfold ip in C. rewrite locked_dirty in C.
  destruct (rele_last c lt s fl i b s' ip' Ht Hb Hn Hd Hc E N) as (c'&Er&Hr&Ha&Hf). exists c', (lt ++ [i]), s'. split; [exact Er|].
  assert (fits ip') as Hfit by (apply (file_fits (i_in b)); [exact E1|apply Hso]). assert (file_of (i_in (released b ip')) = file_of (i_in b)) as Ef by exact E1.
  destruct (inode_written _ _ _ _ _ b s' ip' Ht Hso Hfit E1 C) as (Hd1&Hd2&Hd3). pose proof (look_slot _ _ _ _ _ _ _ Ht Hb Hn Hd) as Hlook. destruct (ty_roots _ _ _ _ _ Ht) as (R1&R2&R3).
  assert (i_mode ip' = i_mode (i_in b) /\ i_nlink ip' = i_nlink (i_in b) /\ i_size ip' = i_size (i_in b)) as (Em&El&Es) by (unfold file_of in E1; cbn in E1; by injection E1).
  assert (forall a, fs_isize (fsb s) <= a -> content (fdev s') a = content (fdev s) a) as Hc1. { intros a Ha'. rewrite C. destruct (on (i_flg b) IDIRTY); [|done]. unfold wrote. rewrite decide_False; [done|]. lia. }
  assert (forall a, a ∈ ip_blocks (content (fdev s)) (i_in b) -> content (fdev s') a = content (fdev s) a) as Hc2.
  { intros a Ha'. apply Hc1. destruct (slot_blocks _ _ _ _ _ _ _ Ht Hb Hn Hd) as (O&_&_&[_ _ Hdt _ _ _]). rewrite Forall_app, Forall_forall in Hdt. by apply Hdt. }
  apply (step_keeps None None c c' lt (lt ++ [i]) s s' fl fl i b (released b ip') Ht Hb Hn Hd); [exact (rele_table _ _ _ _ _ _ _ _ _ Ht Hb Hr E2 Ha Hf)|]. constructor.
  - constructor; cbn [released set_count set_in i_in set_iflag i_number i_fs i_size i_flag]; rewrite ?E2, ?F, ?Es; try apply Hso; [destruct Hfit; by constructor|intros _; exact Hd1|done].
  - rewrite (blocks_file _ _ _ Ef).
    rewrite (blocks_ext (content (fdev s)) (content (fdev s')) (i_in b) Hc2). apply trade_none; [apply Ht|done..].
  - exact Hd3.
  - exact Hd2.
  - rewrite F. destruct (ty_super _ _ _ _ _ Ht) as (?&?&_). done.
  - rewrite F. apply (ty_listed _ _ _ _ _ Ht).
  - rewrite F. intros m Hm. left. split; [|done]. intros ->. destruct (proj1 (listed_idle _ _ _ _ _ _ _ Ht Hb Hd ltac:(lia))). exact Hm.
  - cbn. rewrite Em, El. split; [intros Hr'; rewrite <- Hlook; apply R1; lia|]. split; [intros E'; rewrite <- Hlook, E'; exact R2|done].
Qed.

Lemma ready_part s l T O : ready s l (T ++ O) -> ready s l T.
Proof.
  intros [A N Dt C S R]. rewrite Forall_app in Dt. rewrite <- app_assoc, (Permutation_app_comm O l), app_assoc in N. apply NoDup_app in N as (N&_&_).
  constructor; try done; [apply Dt|]. intros a Ha. apply C. set_solver.
Qed.

(** The blocks of a file in core are those that a cut to nothing gives back. *)
Lemma cut_blocks c lt s fl i b : tidy_but None c lt s fl -> inodes c !! i = Some b -> i_num b <> 0 -> i_dev b = dev -> i_count b <> 0 ->
  file_blocks (content (fdev s)) (locked_in b) = ip_blocks (content (fdev s)) (i_in b).
Proof.
  intros Ht Hb Hn Hd Hc. pose proof (ty_slot _ _ _ _ _ Ht i b Hb Hn Hd) as Hso. unfold file_blocks, ip_blocks. cbn [set_iflag i_size i_flag i_addr].
  assert (on (Z.lor (i_flg b) ILOCKED) IPIPE = false) as -> by (rewrite on_or, (proj2 (so_plain _ _ Hso)); done). rewrite andb_true_r. destruct (Z.eqb_spec (i_size (i_in b)) 0) as [|]; [by rewrite orb_true_r|]. rewrite orb_false_r.
  destruct (Z.eqb_spec (i_mode (i_in b)) 0) as [E|]; [|done]. by rewrite (ty_fresh _ _ _ _ _ Ht i b Hb Hn Hd Hc).
Qed.

(** What the superblock and the list are after a deletion. *)
Lemma deleted_super T ip s l s' ip' freed : deleted T ip s l s' ip' freed -> fs_isize (fsb s') = fs_isize (fsb s) /\ fs_fsize (fsb s') = fs_fsize (fsb s) /\ fs_ronly (fsb s') = fs_ronly (fsb s) /\
  fs_ilock (fsb s') = fs_ilock (fsb s) /\ fs_lasti (fsb s') = fs_lasti (fsb s) /\ inodes_ok (fsb s') /\ (listed (fsb s') = listed (fsb s) ++ [i_number ip] \/ listed (fsb s') = listed (fsb s)).
Proof.
  intros Hdl. destruct (dl_fs _ _ _ _ _ _ _ Hdl) as (f&(S1&S2&_&S4&S5&S6&_&_&S9&_)&El&[Bl _ Ok Li Lo La]). injection Bl as B1 B2 B3 B4 B5 B6 B7 B8 B9.
  assert (listed f = listed (fsb s)) as Ef by (unfold listed; by rewrite S5, S6). rewrite Ef in Li. do 5 (split; [congruence|]). split; [done|]. destruct (_ && _); auto.
Qed.

Lemma rele_dead c lt s fl i b : tidy_but None c lt s fl -> inodes c !! i = Some b -> i_num b <> 0 -> i_dev b = dev -> i_count b = 1 -> i_nlink (i_in b) = 0 ->
  exists c' lt' s' fl', irele c i = Ok c' /\ keeps (Some (i_num b)) None c s fl c' lt' s' fl'.
Proof.
  intros Ht Hb Hn Hd Hc Hl. pose proof (ty_slot _ _ _ _ _ Ht i b Hb Hn Hd) as Hso. pose proof (slot_inode_ok _ _ _ _ _ _ Ht Hso) as Hio.
  destruct (inos_range _ _ _ _ _ _ Ht (so_num _ _ Hso)) as [Hnr Hbr]. destruct (slot_blocks _ _ _ _ _ _ _ Ht Hb Hn Hd) as (O&_&_&Hrdy). apply ready_part in Hrdy. set (ip := locked_in b).
  pose proof (cut_blocks _ _ _ _ _ _ Ht Hb Hn Hd ltac:(lia)) as HT. set (T := ip_blocks (content (fdev s)) (i_in b)) in *.
  destruct (irele_write_dead ip s fl) as (s'&ip'&freed&E&Hdl); [exact (eq_ind_r (ready s fl) Hrdy HT)|by destruct Hio|exact (tidy_spare _ _ _ _ _ Ht)|apply Hso|destruct (so_fits _ _ Hso); by constructor|done|apply Ht|done|].
  change (locked_in b) with ip in HT. rewrite HT in Hdl. destruct (rele_last c lt s fl i b s' ip' Ht Hb Hn Hd Hc E) as (c'&Er&Hr&Ha&Hf); [apply Hdl|]. exists c', (lt ++ [i]), s', (freed ++ fl). split; [exact Er|].
  destruct (deleted_super _ _ _ _ _ _ _ Hdl) as (Z1&Z2&Z3&Z4&Z5&Z6&Z7). destruct Hdl as [D1 D2 D3 D4 D5 D6 D7 _ (_&_&D8&D9) [D10 D11] D12 D13]. change (i_number ip) with (i_num b) in *.
  destruct (listed_idle _ _ _ _ _ _ _ Ht Hb Hd ltac:(lia)) as [Hnl Hn1]. pose proof (look_slot _ _ _ _ _ _ _ Ht Hb Hn Hd) as Hlook. destruct (ty_roots _ _ _ _ _ Ht) as (R1&R2&R3).
  assert (ROOTINO < i_num b) as Hroot. { destruct (decide (i_num b = ROOTINO)) as [E2|]; [rewrite <- E2, Hlook, Hl in R2; lia|]. unfold ROOTINO in *. lia. }
  assert (Forall (in_data (fsb s)) T) as HTd by apply Hrdy. rewrite Forall_forall in HTd.
  apply (step_keeps None None c c' lt (lt ++ [i]) s s' fl (freed ++ fl) i b (released b ip') Ht Hb Hn Hd); [exact (rele_table _ _ _ _ _ _ _ _ _ Ht Hb Hr D2 Ha Hf)|]. constructor.
  - constructor; cbn [released set_count set_in i_in set_iflag i_number i_fs i_size i_flag]; rewrite ?D2, ?D3; try done; [apply Hso|unfold inos; rewrite Z1; apply Hso|destruct D5; by constructor|intros _; left; by rewrite D10].
  - unfold ip_blocks at 2. cbn [released set_count set_in i_in set_iflag i_mode]. rewrite D1. cbn [Z.eqb orb]. constructor; try done; [by rewrite D6|]. intros a _ Hge Ha'. apply D13; [lia|set_solver].
  - intros m Hm Hne. apply D12; [done|by apply (inos_range _ _ _ _ _ _ Ht)|]. intros Hin. apply HTd in Hin. unfold in_data in Hin. destruct (inos_range _ _ _ _ _ _ Ht Hm). lia.
  - unfold disk_ok. rewrite D11. split; [destruct D5; rewrite trunc_small; lia|]. assert (i_size (disk_inode (content (fdev s')) (i_num b)) = 0) as -> by (unfold file_of in D10; congruence). lia.
  - rewrite Z4, Z5. split; [done|]. destruct (ty_super _ _ _ _ _ Ht) as (_&?&_). done.
  - destruct (ty_listed _ _ _ _ _ Ht) as [Hnd _]. destruct Z7 as [-> | ->]; [|done]. apply NoDup_app. split; [done|]. split; [|apply NoDup_singleton]. intros m Hm ->%list_elem_of_singleton. done.
  - intros m Hm. assert (m ∈ listed (fsb s) \/ m = i_num b) as [Hm'| ->] by (destruct Z7 as [Z7|Z7]; rewrite Z7 in Hm; set_solver); [left; split; [intros ->|]; done|right]. done.
  - split; [lia|]. split; [lia|done].
Qed.

(** A reference released, whoever else refers to the inode. *)
Lemma rele_keeps c lt s fl i b : tidy_but None c lt s fl -> inodes c !! i = Some b -> i_num b <> 0 -> i_dev b = dev -> i_count b <> 0 ->
  exists c' lt' s' fl', irele c i = Ok c' /\ keeps (Some (i_num b)) None c s fl c' lt' s' fl'.
Proof.
  intros Ht Hb Hn Hd Hc. pose proof (ty_count _ _ _ _ _ Ht i b Hb) as Hr. pose proof (so_fits _ _ (ty_slot _ _ _ _ _ Ht i b Hb Hn Hd)) as [_ _ Hl _]. destruct (decide (i_count b = 1)) as [E1|E1].
  - destruct (decide (i_nlink (i_in b) = 0)) as [E|E]; [by apply (rele_dead c lt s fl i b)|]. destruct (rele_live c lt s fl i b) as (c'&lt'&s'&Er&H); [done..|lia|]. by exists c', lt', s', fl.
  - unfold irele. rewrite (rd_ok _ _ _ Hb), bind_ok, (proj2 (Z.eqb_neq _ _) E1). destruct (on (i_flg b) ILOCKED) eqn:El.
    + rewrite bind_ok. destruct (drop_keeps c lt s fl i b) as (c'&E&H); [done..|lia|]. exists c', lt, s, fl. split; [exact E|by apply keeps_any].
    + rewrite (change_ok _ _ _ _ Hb), bind_ok. set (b1 := set_in b _). set (c1 := put_slot c i b1).
      assert (keeps None None c s fl c1 lt s fl) as H1.
      { pose proof (ty_idle _ _ _ _ _ Ht i b Hb) as Hi. apply (table_keeps None None c c1 lt lt s fl i b b1 (woken c)); try done.
        - apply times_file.
        - apply moved_put.
        - apply free_list_off; [apply Ht|]. by apply (in_use _ _ _ _ _ _ _ Ht Hb).
        - intros _. exact (listed_idle _ _ _ _ _ _ _ Ht Hb Hd Hc).
        - intros _ _. by apply (ty_fresh _ _ _ _ _ Ht i b Hb Hn Hd Hc). }
      assert (inodes c1 !! i = Some b1) as Hb1 by (apply list_lookup_insert_eq; by eapply lookup_lt_Some). assert (i_num b1 = i_num b) as Hn1 by (apply (sf_name _ _ (times_file (time c) b))).
      destruct (drop_keeps c1 lt s fl i b1) as (c'&E&H); [apply H1|done|by rewrite Hn1|done|change (i_count b1) with (i_count b); lia|]. exists c', lt, s, fl. split; [exact E|]. apply keeps_any. by eapply keeps_trans.
Qed.

Lemma put_keeps c lt s fl i b : tidy_but None c lt s fl -> inodes c !! i = Some b -> i_num b <> 0 -> i_dev b = dev -> i_count b <> 0 ->
  exists c' lt' s' fl', iput c i = Ok c' /\ keeps (Some (i_num b)) None c s fl c' lt' s' fl'.
Proof.
  intros Ht Hb Hn Hd Hc. unfold iput. destruct (iunlock_keeps None c lt s fl i b Ht Hb Hn Hd Hc) as (c1&->&Hb1&H1). rewrite bind_ok.
  destruct (rele_keeps c1 lt s fl i _ (tidied H1) Hb1 Hn Hd Hc) as (c'&lt'&s'&fl'&E&H). exists c', lt', s', fl'. split; [exact E|]. eapply keeps_trans; [apply keeps_any; exact H1|exact H].
Qed.

(** ** Inodes brought into core *)

Lemma iget_read_ok ip s : SUPERB < itod (i_number ip) < fs_isize (fsb s) -> held (fdev s) = ∅ -> spare s 1 -> u32 (disk_flags (content (fdev s)) (i_number ip)) <= 0xffff ->
  exists s' ip', iget_read ip s = Ok (s', Some ip') /\ quiet s s' /\ fsb s' = fsb s /\ i_number ip' = i_number ip /\ i_flag ip' = i_flag ip /\
    file_of ip' = file_of (disk_inode (content (fdev s)) (i_number ip)) /\ fits ip'.
Proof.
  intros Hb Hh Hm Hf. unfold iget_read. cbv zeta. set (bn := itod (i_number ip)) in *. destruct (fs_bread_ok s bn) as (s1&->&[F1 R1 N1 C1 H1 K1]); [rewrite Hh; apply not_elem_of_empty|unfold spare, room in *; lia|]. rewrite bind_ok. cbn [fst snd].
  destruct (fs_brelse_ok s1 bn) as (s2&->&[F2 R2 N2 C2 H2 K2]); [rewrite H1; by apply elem_of_union_l, elem_of_singleton_2|]. rewrite bind_ok. unfold disk_flags in Hf. fold bn in Hf. rewrite (proj2 (Z.leb_le _ _) Hf).
  eexists s2, _. split; [done|]. split; [|split; [congruence|]].
  - constructor; [intros a; by rewrite C2, C1| |split; congruence]. split; [rewrite H2, H1, Hh; set_solver|congruence].
  - split; [done|]. split; [done|]. split; [done|]. constructor; cbn; [|apply trunc_range..]; [|lia..].
    rewrite length_take, length_drop, content_length. pose proof (itoo_range (i_number ip)). lia.
Qed.

(** The slot of an inode nobody refers to takes a new name: what the table and
    the device show is the same. *)
Section turn.
Context (x' : option nat) (c c' : icore D) (i : nat) (lt : list nat) (s s' : fsys D) (fl : list Z) (b b' : cinode) (n : Z).
Context (Ht : tidy_but None c (i :: lt) s fl) (Hb : inodes c !! i = Some b) (Hout : in_core dev (inodes c) n = None) (Hin : n ∈ inos (fsb s)).
Context (Hr : retabled (inodes c) (inodes c') i b') (Hname : i_num b' = n /\ i_dev b' = dev /\ i_fs b' = Some k) (Hcount : i_count b' = 1).
Context (Hfile : file_of (i_in b') = file_of (disk_inode (content (fdev s)) n)) (Hfits : fits (i_in b')) (Hflag : i_flg b' = ILOCKED).
Context (Hhand : at_hand c' s') (Hlist : free_list c' lt) (Hq : quiet s s') (Hfs : fsb s' = fsb s).

Lemma turn_idle : i_count b = 0 /\ i_flg b = 0.
Proof.
  assert (i_count b = 0) as Hc by (apply (ty_idle _ _ _ _ _ Ht i b Hb); set_solver). split; [done|]. by apply (ty_rest _ _ _ _ _ Ht i).
Qed.

Lemma turn_uniq : uniq (inodes c').
Proof.
  eapply retabled_uniq; [apply Ht|exact Hr|exact Hb|]. intros _. right. intros j bj Hj. destruct Hname as (->&->&_). exact (in_core_out _ _ _ _ _ Hout Hj).
Qed.

Lemma turn_look m : m ∈ inos (fsb s) -> same_view (look c s m) (look c' s' m).
Proof.
  intros Hm. destruct (inos_range _ _ _ _ _ _ Ht Hm) as [Hmr _]. destruct Hname as (En&Ed&_). assert (forall a, disk_inode (content (fdev s')) a = disk_inode (content (fdev s)) a) as Hdk by (intros a; by apply disk_same, Hq).
  assert (m <> 0) as Hm0 by lia. unfold view. destruct (decide (i_num b = m /\ i_dev b = dev /\ m <> n)) as [(E1&E2&Hne)|Hnot].
  - rewrite (in_core_in dev (inodes c) m i b (ty_uniq _ _ _ _ _ Ht) Hm0 Hb E1 E2). rewrite in_core_none; cbn [default].
    + rewrite Hdk, <- E1. apply (so_clean s b); [apply (ty_slot _ _ _ _ _ Ht i b Hb); congruence|]. by rewrite (proj2 turn_idle).
    + intros j bj Hj [E3 E4]. pose proof (retabled_lookup _ _ _ _ _ _ _ Hr Hb Hj) as H. case_decide as Hji.
      * apply data_parts in H as (Ei&_). apply Hne. congruence.
      * destruct H as (bj0&Hj0&(Ei&_&Edj&_)%data_parts). apply Hji, (ty_uniq _ _ _ _ _ Ht j i bj0 b); congruence.
  - rewrite (in_core_changed dev (inodes c) (inodes c') i b b' m (ty_uniq _ _ _ _ _ Ht) turn_uniq Hr Hb Hm0).
    + case_decide as Hd; cbn [default].
      * destruct Hd as [<- _]. rewrite En, Hout. cbn [default]. by left.
      * destruct (in_core dev (inodes c) m); [by left|]. cbn. rewrite Hdk. by left.
    + intros [E1 E2]. destruct (decide (m = n)) as [->|]; [by split; congruence|]. exfalso. by apply Hnot.
Qed.

Lemma turn_mode m : m ∈ inos (fsb s) -> i_mode (look c' s' m) = i_mode (look c s m).
Proof. intros Hm. symmetry. apply view_mode, turn_look, Hm. Qed.
Lemma turn_nlink m : m ∈ inos (fsb s) -> i_mode (look c s m) <> 0 -> i_nlink (look c' s' m) = i_nlink (look c s m).
Proof. intros Hm Hl. destruct (turn_look m Hm) as [E|[E _]]; [|done]. unfold file_of in E. congruence. Qed.

Lemma turn_files : in_files c' s' = in_files c s.
Proof.
  rewrite Hfs. apply all_blocks_ext. intros m Hm. unfold blocks_at. rewrite <- (view_blocks _ _ _ (turn_look m Hm)). apply blocks_ext. intros a _. apply Hq.
Qed.

Lemma turn_slot j bj : inodes c' !! j = Some bj -> i_num bj <> 0 -> i_dev bj = dev -> slot_ok s' bj.
Proof.
  intros Hj Hnj Hdj. assert (forall a, disk_inode (content (fdev s')) a = disk_inode (content (fdev s)) a) as Hdk by (intros a; by apply disk_same, Hq).
  pose proof (retabled_lookup _ _ _ _ _ _ _ Hr Hb Hj) as H. case_decide as Hji.
  - apply data_parts in H as (E1&_&E3&E4). destruct Hname as (N1&N2&N3). constructor; rewrite ?E1, ?E4, ?N1, ?N3, ?Hfs, ?Hflag, ?Hdk; try done; [|by left].
    assert (i_size (i_in b') = i_size (disk_inode (content (fdev s)) n)) as -> by (unfold file_of in Hfile; congruence). by apply (ty_disk _ _ _ _ _ Ht).
  - destruct H as (bj0&Hj0&(E1&_&E3&E4)%data_parts). rewrite E1 in Hnj. rewrite E3 in Hdj. destruct (ty_slot _ _ _ _ _ Ht j bj0 Hj0 Hnj Hdj). constructor; rewrite ?E1, ?E4, ?Hfs, ?Hdk; done.
Qed.

Lemma turn_counts m : m <> n -> (forall j bj, inodes c !! j = Some bj -> i_num bj = m -> i_dev bj = dev -> i_count bj = 0) ->
  forall j bj, inodes c' !! j = Some bj -> i_num bj = m -> i_dev bj = dev -> i_count bj = 0.
Proof.
  intros Hne H j bj Hj Hnj Hdj. pose proof (retabled_lookup _ _ _ _ _ _ _ Hr Hb Hj) as E. case_decide as Hji.
  - apply data_parts in E as (E1&_). destruct Hname as (N1&_). congruence.
  - destruct E as (bj0&Hj0&(E1&E2&E3&_)%data_parts). rewrite E2. apply (H j bj0); congruence.
Qed.

Context (Hnew : n ∉ listed (fsb s)) (Hn1 : n <> 1) (Hfresh : Some i <> x' -> i_mode (disk_inode (content (fdev s)) n) <> 0).

Lemma turn_tidy : tidy_but x' c' lt s' fl.
Proof.
  destruct Hq as [Qc [Qh Qa] _]. destruct (ty_list _ _ _ _ _ Ht) as [_ _ _ [Hi _]%NoDup_cons]. pose proof (ty_ready _ _ _ _ _ Ht) as [A1 A2 A3 A4 A5 A6].
  assert (Hslots : forall j bj, inodes c' !! j = Some bj -> j = i /\ data bj = data b' \/ j <> i /\ exists bj0, inodes c !! j = Some bj0 /\ data bj = data bj0).
  { intros j bj Hj. pose proof (retabled_lookup _ _ _ _ _ _ _ Hr Hb Hj) as H. case_decide; auto. }
  constructor; rewrite ?Hfs; try apply Ht; try done; try exact turn_uniq; try exact turn_slot.
  - intros j bj Hj. destruct (Hslots j bj Hj) as [[-> (_&->&_)%data_parts]|(Hji&bj0&Hj0&(_&->&_)%data_parts)]; [rewrite Hcount; split; [done|lia]|]. rewrite <- (ty_idle _ _ _ _ _ Ht j bj0 Hj0), elem_of_cons. tauto.
  - intros j bj Hj. destruct (Hslots j bj Hj) as [[-> (_&->&_)%data_parts]|(Hji&bj0&Hj0&(->&->&_)%data_parts)]; [by rewrite Hcount|]. by apply (ty_rest _ _ _ _ _ Ht j).
  - intros j bj Hj. destruct (Hslots j bj Hj) as [[-> (_&->&_)%data_parts]|(Hji&bj0&Hj0&(_&->&_)%data_parts)]; [rewrite Hcount; lia|]. by apply (ty_count _ _ _ _ _ Ht j).
  - intros j bj Hj Hnj Hdj Hcj Hx Hm. destruct (Hslots j bj Hj) as [[-> (E1&_)%data_parts]|(Hji&bj0&Hj0&(E1&E2&E3&_)%data_parts)].
    + exfalso. apply (Hfresh Hx). rewrite <- Hm, E1. unfold file_of in Hfile. congruence.
    + rewrite E1 in *. rewrite E2 in *. rewrite E3 in *. by apply (ty_fresh _ _ _ _ _ Ht j bj0).
  - pose proof turn_files as Ef. rewrite Hfs in Ef. rewrite Ef. constructor; rewrite ?Hfs, ?Qh; try done; [|unfold spare in *; by rewrite Qh, Qa]. eapply alloc_ext; [exact A1|]. intros a _. apply Qc.
  - rewrite Qh, Qa. apply Ht.
  - intros m Hm. unfold disk_ok. destruct (disk_same (content (fdev s)) (content (fdev s')) m) as [-> ->]; [apply Qc|]. by apply (ty_disk _ _ _ _ _ Ht).
  - destruct (ty_listed _ _ _ _ _ Ht) as [L1 L2]. split; [done|]. intros m Hm. destruct (L2 m Hm) as (M1&M2&M3&M4). split; [done|]. split; [done|]. rewrite (turn_mode m M2). split; [done|]. apply turn_counts; [|done]. by intros ->.
  - destruct (ty_roots _ _ _ _ _ Ht) as (R1&R2&R3). destruct (ty_super _ _ _ _ _ Ht) as (_&_&_&Sz&_). assert (forall m, 1 <= m <= ROOTINO -> m ∈ inos (fsb s)) as Hroots by (intros m Hm; apply inos_in; unfold ROOTINO in *; lia).
    split; [intros m Hm; rewrite (turn_mode m (Hroots m Hm)); auto|]. assert (1 <= ROOTINO <= ROOTINO) as Hrt by (unfold ROOTINO; lia). split; [rewrite (turn_nlink ROOTINO (Hroots _ Hrt)); auto|]. apply turn_counts; [congruence|done].
Qed.

Lemma turn_keeps : keeps None x' c s fl c' lt s' fl.
Proof.
  constructor; [exact turn_tidy|by rewrite turn_files|by rewrite Hfs| |].
  - intros m Hm _. split; [by apply turn_look|]. intros a _. apply Hq.
  - intros j bj Hj Hnj Hdj Hcj _. assert (j <> i) as Hji by (intros ->; apply Hcj; replace bj with b by congruence; apply turn_idle).
    destruct (retabled_other _ _ _ _ _ _ Hr Hji Hj) as (b2&Hb2&(E1&E2&E3&_)%data_parts). exists b2. rewrite E1, E2, E3. done.
Qed.

End turn.

Lemma err_keeps x c lt s fl e : tidy_but x c lt s fl -> keeps None x c s fl (with_uerr c e) lt (with_err s e) fl.
Proof.
  intros Ht. constructor; [|done|done|intros m _ _; split; [by left|done]|intros i b Hb; by exists b]. destruct Ht as [H1 [F1 F2 F3 F4] H3 H4 H5 H6 H7 H8 [A1 A2 A3 A4 A5 A6] H10 H11 H12 H13 H14 H15]. constructor; try done.
  - unfold at_hand, sys_of in *. cbn. destruct (mounts c !! k); [|done]. cbn in *. destruct (disks c !! dev); [|done]. cbn in *. by injection H1 as <-.
  - intros i b Hb Hn Hd. destruct (H7 i b Hb Hn Hd). by constructor.
Qed.

(** What [iget] of the inode [n] comes to. *)
Definition got (c : icore D) (s : fsys D) (fl : list Z) (n : Z) (c' : icore D) (g : igot) : Prop :=
  exists lt' s', match g with
  | Igot i => keeps None (if decide (i_mode (look c s n) = 0) then Some i else None) c s fl c' lt' s' fl /\ fsb s' = fsb s /\
      exists b, inodes c' !! i = Some b /\ i_num b = n /\ i_dev b = dev /\ i_fs b = Some k /\ i_count b <> 0 /\ i_mode (i_in b) = i_mode (look c s n)
  | Inone => keeps None None c s fl c' lt' s' fl /\ lt' = []
  | Isleep i d j m => keeps None None c s fl c' lt' s' fl /\ (d, j, m) = (dev, k, n) /\ exists b, inodes c !! i = Some b /\ i_num b = n /\ i_dev b = dev /\ on (i_flg b) ILOCKED = true
  end.

Lemma ifind_cases c n : uniq (inodes c) -> match ifind c dev n with
  | Some i => exists b, inodes c !! i = Some b /\ i_num b = n /\ i_dev b = dev
  | None => in_core dev (inodes c) n = None
  end.
Proof.
  intros Hu. unfold ifind, in_core. destruct (list_find _ (inodes c)) as [[i b]|] eqn:E; [|done]. cbn. apply list_find_Some in E as (Hb&Hn&_). unfold names in Hn. apply andb_true_iff in Hn as [H1%Z.eqb_eq H2%Z.eqb_eq]. by exists b.
Qed.

Lemma hit_got c lt s fl n i b : tidy_but None c lt s fl -> inodes c !! i = Some b -> i_num b = n -> i_dev b = dev -> ifind c dev n = Some i -> n ∈ inos (fsb s) -> n ∉ listed (fsb s) -> n <> 1 -> i_count b < 65535 ->
  exists c' g, iget c dev k n = Ok (c', g) /\ got c s fl n c' g.
Proof.
  intros Ht Hb Hn Hd Hf Hin Hl H1 Hc. destruct (inos_range _ _ _ _ _ _ Ht Hin) as [Hnr _]. assert (i_num b <> 0) as Hn0 by lia. pose proof (ty_slot _ _ _ _ _ Ht i b Hb Hn0 Hd) as Hso.
  assert (look c s n = i_in b) as Hlook by (rewrite <- Hn; by eapply look_slot). unfold iget. change NMOUNT with 2%nat. cbn [iget_search]. rewrite Hf, (rd_ok _ _ _ Hb), bind_ok, (proj1 (so_plain _ _ Hso)). destruct (on (i_flg b) ILOCKED) eqn:El.
  - rewrite bind_ok. cbn [fst snd]. eexists _, _. split; [done|]. exists lt, s. split; [|split; [done|by exists b]]. apply put_flags_keep; try done; [by apply (locked_in_use _ _ _ _ _ _ _ ILOCKED Ht Hb)|by apply same_or].
  - set (x' := if decide (i_mode (look c s n) = 0) then Some i else None).
    destruct (ref_keeps None x' c lt s fl i b) as (c'&E&(b'&Hb'&Eb)&Hk); [done..|by rewrite Hn|by rewrite Hn| |done|].
    { intros Hx Hm. exfalso. apply Hx. unfold x'. by rewrite Hlook, decide_True. }
    rewrite E, !bind_ok. cbn [fst snd]. eexists _, _. split; [done|]. exists (others i lt), s. split; [exact Hk|]. split; [done|]. exists b'. pose proof (ty_count _ _ _ _ _ Ht i b Hb) as Hr. apply data_parts in Eb as (E1&E2&E3&E4).
    rewrite E1, E2, E3, E4, Hlook. cbn. split; [done|]. split; [done|]. split; [done|]. split; [apply Hso|]. split; [rewrite trunc_small; lia|done].
Qed.

Lemma miss_got c lt s fl n : tidy_but None c lt s fl -> ifind c dev n = None -> n ∈ inos (fsb s) -> n ∉ listed (fsb s) -> n <> 1 ->
  exists c' g, iget c dev k n = Ok (c', g) /\ got c s fl n c' g.
Proof.
  intros Ht Hf Hin Hl H1. pose proof (ifind_cases c n (ty_uniq _ _ _ _ _ Ht)) as Hout. rewrite Hf in Hout. destruct (inos_range _ _ _ _ _ _ Ht Hin) as [Hnr Hbr]. unfold iget. change NMOUNT with 2%nat. cbn [iget_search]. rewrite Hf, bind_ok. cbn [fst snd].
  destruct lt as [|i lt].
  { unfold iget_claim. rewrite (fl_head _ _ (ty_list _ _ _ _ _ Ht)). cbn [first_of]. rewrite bind_ok. cbn [fst snd]. eexists _, _. split; [done|]. eexists _, _. split; [by apply err_keeps|done]. }
  assert (is_Some (inodes c !! i)) as [b Hb]. { destruct (fl_links _ _ (ty_list _ _ _ _ _ Ht)) as [(b&Hb&_) _]. by exists b. }
  assert (i_count b = 0) as Hc by (apply (ty_idle _ _ _ _ _ Ht i b Hb); set_solver).
  destruct (iget_claim_ok c lt dev k n i b (ty_list _ _ _ _ _ Ht) Hb Hc) as (c1&id&->&Hf1&Hm1). rewrite bind_ok. cbn [fst snd]. destruct (moved_self _ _ _ _ _ _ Hm1 Hb) as (b1&Hb1&Ed1). unfold data in Ed1. injection Ed1 as D1 D2 D3 D4 D5. cbn in D1, D2, D4, D5. rewrite Hc in D2. change (u16 (0 + 1)) with 1 in D2.
  assert (at_hand c1 s) as Ha1 by (eapply hand_moved; [apply Ht|exact Hm1]). destruct (hand_fs _ _ Ha1) as (m&Hm&_&Hon&Hat). assert (i_num b1 = n /\ i_flg b1 = ILOCKED) as [N1 G1] by (by rewrite D1).
  unfold iget_fill. rewrite (rd_ok _ _ _ Hb1), bind_ok, D4, D5, Hon. destruct (ty_still _ _ _ _ _ Ht) as (St1&_).
  destruct (iget_read_ok (i_in b1) s) as (s'&ip'&->&Hq&Hfs&I1&I2&I3&I4); [by rewrite N1|exact St1|pose proof (tidy_spare _ _ _ _ _ Ht); unfold spare in *; lia|rewrite N1; by apply (ty_disk _ _ _ _ _ Ht)|]. rewrite bind_ok. cbn [fst snd].
  set (c2 := with_fsys c1 dev k m s'). assert (inodes c2 !! i = Some b1) as Hb2 by exact Hb1. rewrite bind_ok. cbn [fst snd]. rewrite (change_ok _ _ _ _ Hb2), !bind_ok. cbn [fst snd]. set (b' := set_in b1 ip'). set (c' := put_slot c2 i b').
  pose proof (lookup_lt_Some _ _ _ Hb1) as Hlt. rewrite N1 in *. assert (i ∉ lt) as Hi by (by destruct (ty_list _ _ _ _ _ Ht) as [_ _ _ [? _]%NoDup_cons]).
  assert (retabled (inodes c) (inodes c') i b') as Hr. { unfold retabled. cbn. rewrite list_fmap_insert, (mv_data _ _ _ _ _ Hm1). by rewrite list_insert_insert_eq. }
  assert (free_list c' lt) as Hfl by (apply free_list_off; [destruct Hf1; by constructor|done]). assert (Hmode : i_mode (disk_inode (content (fdev s)) n) = i_mode (look c s n)) by (unfold view; by rewrite Hout).
  eexists _, _. split; [done|]. exists lt, s'. split; [|split; [done|]].
  - apply (turn_keeps _ c c' i lt s s' fl b b' n); try done.
    + cbn. by rewrite I2.
    + assert (moved c2 c' i b' (woken c2)) as Hm2 by apply moved_put. eapply hand_moved; [|exact Hm2]. apply Hat, Hq.
    + intros Hx Hm0. apply Hx. rewrite <- Hmode. by rewrite decide_True.
  - exists b'. split; [apply list_lookup_insert_eq; exact Hlt|]. cbn. rewrite I1, D2, D4, D5. split; [done|]. split; [done|]. split; [done|]. split; [done|]. rewrite <- Hmode. unfold file_of in I3. congruence.
Qed.

(** [iget] of an inode that is not on the list of the free ones. *)
Lemma iget_got c lt s fl n : tidy_but None c lt s fl -> n ∈ inos (fsb s) -> n ∉ listed (fsb s) -> n <> 1 -> (forall i b, inodes c !! i = Some b -> i_num b = n -> i_dev b = dev -> i_count b < 65535) ->
  exists c' g, iget c dev k n = Ok (c', g) /\ got c s fl n c' g.
Proof.
  intros Ht Hin Hl H1 Hc. pose proof (ifind_cases c n (ty_uniq _ _ _ _ _ Ht)) as Hf. destruct (ifind c dev n) as [i|] eqn:E; [|by eapply miss_got].
  destruct Hf as (b&Hb&Hn&Hd). eapply hit_got; eauto.
Qed.

(** ** Allocation *)

(** A new superblock: the blocks and the device are as before. *)
Lemma super_keeps x c c' lt s s' fl : tidy_but x c lt s fl -> same_blocks (fsb s) (fsb s') -> inodes_ok (fsb s') -> fs_ilock (fsb s') = 0 ->
  (exists a, 0 < a < fs_isize (fsb s) /\ fs_lasti (fsb s') = base_of a) -> NoDup (listed (fsb s')) ->
  (forall n, n ∈ listed (fsb s') -> ROOTINO < n /\ n ∈ inos (fsb s) /\ i_mode (look c s n) = 0 /\ forall i b, inodes c !! i = Some b -> i_num b = n -> i_dev b = dev -> i_count b = 0) ->
  at_hand c' s' -> inodes c' = inodes c -> free_list c' lt -> quiet s s' -> keeps None x c s fl c' lt s' fl.
Proof.
  intros Ht Hsb Hio Hlk Hla Hnd Hl Ha Hi Hf [Qc [Qh Qa] _]. assert (Hsb' := Hsb). injection Hsb' as B1 B2 B3 B4 B5 B6 B7 B8 B9.
  assert (inos (fsb s') = inos (fsb s)) as Hin by (unfold inos; by rewrite B1). assert (forall n, disk_inode (content (fdev s')) n = disk_inode (content (fdev s)) n /\ disk_flags (content (fdev s')) n = disk_flags (content (fdev s)) n) as Hdk by (intros n; apply disk_same, Qc).
  assert (forall n, view dev (inodes c) (content (fdev s')) n = look c s n) as Hlook by (intros n; unfold view; by rewrite (proj1 (Hdk n))).
  assert (in_files c' s' = in_files c s) as Hfiles. { rewrite Hi, Hin. apply all_blocks_ext. intros n _. unfold blocks_at. rewrite Hlook. apply blocks_ext. intros a _. apply Qc. }
  constructor; [|by rewrite Hfiles|exact B1|intros m _ _; rewrite Hi, Hlook; split; [by left|intros a _; apply Qc]|intros i b Hb; rewrite Hi; by exists b]. destruct Ht as [_ _ T3 T4 T5 T6 T7 T8 [A1 A2 A3 A4 A5 A6] T10 T11 (_&_&T12&T12') _ _ T15]. constructor; rewrite ?Hfiles, ?Hi, ?Hin, ?Qh, ?Qa, ?B8, ?B1; try done.
  - intros i b Hb Hn Hd. destruct (T7 i b Hb Hn Hd). constructor; rewrite ?Hin, ?(proj1 (Hdk _)); done.
  - constructor; rewrite ?Qh; try done; [| |unfold spare in *; by rewrite Qh, Qa].
    + eapply alloc_same_blocks; [exact Hsb|apply Hio|]. eapply alloc_ext; [exact A1|]. intros a _. apply Qc.
    + eapply Forall_impl; [exact A3|]. intros a. unfold in_data. by rewrite B1, B2.
  - intros n Hn. unfold disk_ok. rewrite (proj1 (Hdk _)), (proj2 (Hdk _)). by apply T11.
  - split; [done|]. intros n Hn. rewrite Hlook. by apply Hl.
  - setoid_rewrite Hlook. exact T15.
Qed.

Lemma put_fs_ok c s f : at_hand c s -> get_fs c k = Ok (fsb s) /\ exists c', put_fs c k f = Ok c' /\ at_hand c' (with_fs s f) /\ inodes c' = inodes c /\ (forall l, free_list c l -> free_list c' l).
Proof.
  unfold at_hand, sys_of, get_fs, put_fs. destruct (mounts c !! k) as [m|] eqn:Em; [|done]. cbn. destruct (disks c !! dev) as [d|] eqn:Ed; [|done]. cbn. intros [= <-]. rewrite (rd_ok _ _ _ Em), !bind_ok. split; [done|].
  eexists. split; [done|]. cbn. rewrite list_lookup_insert_eq by (by eapply lookup_lt_Some). cbn. rewrite Ed. split; [done|]. split; [done|]. intros l [F1 F2 F3 F4]. by constructor.
Qed.

(** The number at the end of the list is taken off it. *)
Lemma listed_pop f : inodes_ok f -> 0 < fs_ninode f -> exists n, rdz (fs_inode f) (fs_ninode f - 1) = Ok n /\
  let f' := set_inodes_free f (fs_ninode f - 1) (fs_inode f) in inodes_ok f' /\ listed f = listed f' ++ [n].
Proof.
  intros [Hn Hl] Hp. unfold NICINOD in *. destruct (lookup_lt_is_Some_2 (fs_inode f) (Z.to_nat (fs_ninode f - 1))) as [n Hx]; [lia|]. exists n. split; [by apply rdz_ok; [lia|]|]. cbv zeta. split; [split; cbn; [unfold NICINOD; lia|done]|].
  unfold listed. cbn. replace (Z.to_nat (fs_ninode f)) with (S (Z.to_nat (fs_ninode f - 1))) by lia. by apply take_S_r.
Qed.

Lemma pop_keeps c lt s fl : tidy_but None c lt s fl -> 0 < fs_ninode (fsb s) -> exists n c' f, rdz (fs_inode (fsb s)) (fs_ninode (fsb s) - 1) = Ok n /\
  put_fs c k (set_inodes_free (fsb s) (fs_ninode (fsb s) - 1) (fs_inode (fsb s))) = Ok c' /\ inodes c' = inodes c /\ n ∈ listed (fsb s) /\ n ∉ listed f /\ fs_isize f = fs_isize (fsb s) /\ keeps None None c s fl c' lt (with_fs s f) fl.
Proof.
  intros Ht Hp. destruct (ty_super _ _ _ _ _ Ht) as (S1&S2&S3&S4). destruct (listed_pop (fsb s) S1 Hp) as (n&E1&Hok&El). set (f := set_inodes_free _ _ _) in *. destruct (put_fs_ok c s f (ty_hand _ _ _ _ _ Ht)) as (_&c'&E2&Ha&Hi&Hf).
  destruct (ty_listed _ _ _ _ _ Ht) as [L1 L2]. rewrite El in L1, L2. apply NoDup_app in L1 as (N1&N2&_). exists n, c', f. split; [done|]. split; [done|]. split; [done|]. split; [rewrite El; set_solver|]. split; [intros H; apply (N2 n H); set_solver|]. split; [done|].
  apply (super_keeps None c c' lt s (with_fs s f) fl Ht); try done; [exact (ty_last _ _ _ _ _ Ht)| |apply Hf, Ht]. intros m Hm. apply L2. set_solver.
Qed.

(** The inode taken: its addresses and flags cleared. *)
Lemma fresh_keeps i c lt s fl b : tidy_but (Some i) c lt s fl -> inodes c !! i = Some b -> i_num b <> 0 -> i_dev b = dev -> i_count b <> 0 -> i_mode (i_in b) = 0 ->
  keeps None None c s fl (put_slot c i (set_in b (fresh_inode (i_in b)))) lt s fl.
Proof.
  intros Ht Hb Hn Hd Hc Hm. pose proof (ty_slot _ _ _ _ _ Ht i b Hb Hn Hd) as Hso. pose proof (so_num _ _ Hso) as Hin. pose proof (look_slot _ _ _ _ _ _ _ Ht Hb Hn Hd) as Hlook. destruct (ty_roots _ _ _ _ _ Ht) as (R1&R2&R3).
  destruct (listed_idle _ _ _ _ _ _ _ Ht Hb Hd Hc) as [Hnl Hn1]. pose proof (inos_range _ _ _ _ _ _ Ht Hin) as [Hnr _]. assert (ROOTINO < i_num b) as Hroot.
  { destruct (Z.lt_ge_cases ROOTINO (i_num b)); [done|]. exfalso. apply (R1 (i_num b)); [lia|]. by rewrite Hlook. }
  set (b' := set_in b (fresh_inode (i_in b))). apply (step_keeps_all (Some i) None c _ lt lt s s fl fl i b b' Ht Hb Hn Hd); [constructor; try done|constructor; try done|done|by right|done].
  - by apply moved_put.
  - eapply hand_moved; [apply Ht|apply moved_put].
  - apply free_list_off; [apply Ht|]. exact (in_use _ _ _ _ _ _ _ Ht Hb Hc).
  - exact (ty_idle _ _ _ _ _ Ht i b Hb).
  - exact (ty_count _ _ _ _ _ Ht i b Hb).
  - intros j Hj _ [= ->]. done.
  - destruct Hso as [H1 H2 [F1 F2 F3 F4] H4 H5 H6]. constructor; try done. intros Hcl. apply (same_view_trans _ (i_in b)); [by right|by apply H5].
  - unfold ip_blocks. cbn. rewrite Hm. cbn. apply trade_none; [apply Ht|done..].
  - exact (ty_disk _ _ _ _ _ Ht _ Hin).
  - destruct (ty_super _ _ _ _ _ Ht) as (?&?&_). done.
  - apply (ty_listed _ _ _ _ _ Ht).
  - intros m Hl. left. split; [by intros ->|done].
  - split; [lia|]. split; [lia|done].
Qed.

(** What [ialloc] gives, for the state in which it began. *)
Definition allocated c s fl c' (o : option nat) : Prop :=
  exists lt' s', keeps None None c s fl c' lt' s' fl /\ match o with
  | Some i => exists b, inodes c' !! i = Some b /\ i_dev b = dev /\ i_fs b = Some k /\ i_count b <> 0 /\ i_mode (i_in b) = 0 /\ i_addr (i_in b) = replicate 7 0 /\ i_flags (i_in b) = 0 /\
      ROOTINO < i_num b /\ i_num b ∈ inos (fsb s) /\ i_mode (look c s (i_num b)) = 0 /\ forall j bj, inodes c !! j = Some bj -> i_num bj = i_num b -> i_dev bj = dev -> i_count bj = 0
  | None => lt' = [] \/ forall n, n ∈ inos (fsb s) -> is_Some (in_core dev (inodes c) n) \/ i_mode (look c s n) <> 0
  end.

(** The count of free inodes goes down. *)
Lemma took_keeps c lt s fl : tidy_but None c lt s fl -> exists c', put_fs c k (took_inode (fsb s)) = Ok c' /\ inodes c' = inodes c /\ keeps None None c s fl c' lt (with_fs s (took_inode (fsb s))) fl.
Proof.
  intros Ht. destruct (put_fs_ok c s (took_inode (fsb s)) (ty_hand _ _ _ _ _ Ht)) as (_&c'&E&Ha&Hi&Hf). exists c'. split; [done|]. split; [done|].
  destruct (ty_super _ _ _ _ _ Ht) as (S1&S2&_). apply (super_keeps None c c' lt s _ fl Ht); try done; [exact (ty_last _ _ _ _ _ Ht)|apply (ty_listed _ _ _ _ _ Ht)|apply (ty_listed _ _ _ _ _ Ht)|apply Hf, Ht].
Qed.

Lemma pop_gives m c lt s fl : tidy_but None c lt s fl -> 0 < fs_ninode (fsb s) -> exists c' o, ialloc_pop (S m) c dev k = Ok (c', Some o) /\ allocated c s fl c' o.
Proof.
  intros Ht Hp. destruct (pop_keeps c lt s fl Ht Hp) as (n&c1&f&E1&E2&Hi1&Hl&Hnl&Hsz&Hk1). cbn [ialloc_pop]. rewrite (proj1 (put_fs_ok c s (fsb s) (ty_hand _ _ _ _ _ Ht))), bind_ok, (proj2 (Z.leb_gt _ _) Hp), E1, bind_ok, E2, bind_ok.
  destruct (proj2 (ty_listed _ _ _ _ _ Ht) n Hl) as (H1&H2&H3&H4). rewrite (proj2 (Z.leb_gt _ _) H1). pose proof (tidied Hk1) as Ht1. set (s1 := with_fs s f) in *.
  assert (inos (fsb s1) = inos (fsb s)) as Hin1 by (unfold inos; cbn; by rewrite Hsz). assert (look c1 s1 n = look c s n) as Hlook by (unfold view; by rewrite Hi1).
  destruct (iget_got c1 lt s1 fl n Ht1) as (c2&g&->&(lt2&s2&Hg)); [by rewrite Hin1|done|unfold ROOTINO in *; lia|intros i b; rewrite Hi1; intros Hb Hbn Hbd; rewrite (H4 i b); done|].
  rewrite bind_ok. cbn [fst snd]. destruct g as [i| |i d j m'].
  - rewrite Hlook, decide_True in Hg by done. destruct Hg as (Hk2&Hf2&b&Hb&B1&B2&B3&B4&B5). rewrite H3 in B5. rewrite (rd_ok _ _ _ Hb), bind_ok, B5. cbn [Z.eqb].
    rewrite (change_ok _ _ _ _ Hb), bind_ok. set (b' := set_in b (fresh_inode (i_in b))). set (c3 := put_slot c2 i b').
    assert (Hk3 : keeps None None c2 s2 fl c3 lt2 s2 fl) by (apply fresh_keeps; [apply Hk2|done|rewrite B1; unfold ROOTINO in *; lia|done..]).
    rewrite (proj1 (put_fs_ok c3 s2 (fsb s2) (ty_hand _ _ _ _ _ (tidied Hk3)))), bind_ok. destruct (took_keeps c3 lt2 s2 fl (tidied Hk3)) as (c4&->&Hi4&Hk4). rewrite bind_ok. exists c4, (Some i). split; [done|].
    exists lt2, (with_fs s2 (took_inode (fsb s2))). split; [eapply keeps_trans; [exact Hk1|]; eapply keeps_trans; [exact Hk2|]; by eapply keeps_trans|].
    exists b'. split; [rewrite Hi4; apply list_lookup_insert_eq; by eapply lookup_lt_Some|]. cbn. rewrite B1. split; [done|]. split; [done|]. split; [done|]. split; [done|]. by auto 10.
  - destruct Hg as [Hk2 Hlt]. exists c2, None. split; [done|]. exists lt2, s2. split; [by eapply keeps_trans|by left].
  - exfalso. destruct Hg as (_&_&b&Hb&Bn&Bd&Bl). assert (i_count b <> 0) as Hc by exact (locked_in_use _ _ _ _ _ _ _ _ Ht1 Hb Bl). apply Hc. rewrite Hi1 in Hb. by apply (H4 i b).
Qed.

Lemma tidy_scan_ready x c lt s fl : tidy_but x c lt s fl -> scan_ready s.
Proof.
  intros Ht. destruct (ty_still _ _ _ _ _ Ht) as (H1&H2&H3). destruct (ty_super _ _ _ _ _ Ht) as (S1&_&_&S4&S5). constructor; [|done|done|apply (ty_last _ _ _ _ _ Ht)].
  split; [intros a _; rewrite H1; apply not_elem_of_empty|]. split; [unfold room; rewrite H1, H2, size_empty; lia|done].
Qed.

(** The list made again. *)
Lemma refill_keeps c lt s fl : tidy_but None c lt s fl -> fs_ninode (fsb s) = 0 -> let incore := fun n => bool_decide (is_Some (ifind c dev n)) in
  exists c' s', on_fs c dev (Some k) (ialloc_refill incore) = Ok (c', tt) /\ keeps None None c s fl c' lt s' fl /\ inodes c' = inodes c /\ refilled incore s s'.
Proof.
  intros Ht Hn incore. destruct (ialloc_refill_ok incore s (tidy_scan_ready _ _ _ _ _ Ht) Hn) as (s'&E&Hr). destruct (hand_fs _ _ (ty_hand _ _ _ _ _ Ht)) as (m&Hm&_&Hon&Hat). rewrite Hon, E, bind_ok.
  eexists _, s'. split; [done|]. split; [|done]. destruct Hr as [Q [R1 R2 R3 R4] [Sb _] Lk (from&Hf&Ll&_)]. assert (Hsz : fs_isize (fsb s') = fs_isize (fsb s)) by (unfold same_blocks in Sb; by injection Sb).
  eapply super_keeps; [exact Ht|exact Sb|exact R2|exact Lk|by rewrite Hsz in R4|rewrite Ll; apply nodup_take, avails_nodup| |apply Hat, Q|done|destruct (ty_list _ _ _ _ _ Ht); by constructor|exact Q].
  intros n Hin. rewrite Ll in Hin. apply in_take, avails_in in Hin as [[H1 H2] H3]. unfold past in H3. assert (n ∈ inos (fsb s)) as Hni by (apply inos_in; lia).
  pose proof (ifind_cases c n (ty_uniq _ _ _ _ _ Ht)) as Hc. unfold incore in H1. apply bool_decide_eq_false in H1. destruct (ifind c dev n) as [j|]; [by destruct H1|].
  assert (look c s n = disk_inode (content (fdev s)) n) as Hlook by (unfold view; by rewrite Hc). destruct (ty_roots _ _ _ _ _ Ht) as (Rt&_&_). rewrite Hlook.
  split; [|split; [done|split; [done|]]].
  - destruct (Z.lt_ge_cases ROOTINO n); [done|]. exfalso. apply (Rt n); [lia|by rewrite Hlook].
  - intros i b Hb E1 E2. exfalso. by apply (in_core_out _ _ _ _ _ Hc Hb).
Qed.

(** A list with something on it. *)
Lemma loop_pops n c lt s fl : tidy_but None c lt s fl -> 0 < fs_ninode (fsb s) -> exists c' o, ialloc_loop n c dev k = Ok (c', o) /\ allocated c s fl c' o.
Proof.
  intros Ht Hp. pose proof (proj1 (put_fs_ok c s (fsb s) (ty_hand _ _ _ _ _ Ht))) as Hget. destruct (Z.to_nat (fs_ninode (fsb s))) as [|m] eqn:Em; [lia|]. destruct (pop_gives m c lt s fl Ht Hp) as (c'&o&Epop&Ha). exists c', o.
  destruct n; cbn [ialloc_loop]; rewrite Hget, bind_ok, Em, Epop, bind_ok; done.
Qed.

(** [ialloc]: one refill is enough. *)
Lemma ialloc_gives n c lt s fl pip b : tidy_but None c lt s fl -> inodes c !! pip = Some b -> i_dev b = dev -> i_fs b = Some k ->
  exists c' o, ialloc (S n) c pip = Ok (c', o) /\ allocated c s fl c' o.
Proof.
  intros Ht Hb Hd Hk. destruct (ty_super _ _ _ _ _ Ht) as (S1&S2&_). pose proof (proj1 (put_fs_ok c s (fsb s) (ty_hand _ _ _ _ _ Ht))) as Hget. unfold ialloc. rewrite (rd_ok _ _ _ Hb), bind_ok, Hk, Hd, Hget, bind_ok, S2. cbn [Z.eqb negb].
  destruct (decide (0 < fs_ninode (fsb s))) as [Hp|Hp]; [by apply (loop_pops (S n) c lt s fl)|]. assert (fs_ninode (fsb s) = 0) as Hz by (destruct S1; lia). cbn [ialloc_loop]. rewrite Hget, bind_ok, Hz. change (Z.to_nat 0) with 0%nat. cbn [ialloc_pop]. rewrite Hget, bind_ok, Hz. cbn [Z.leb Z.compare]. rewrite bind_ok. cbn [fst snd].
  destruct (refill_keeps c lt s fl Ht Hz) as (c1&s1&->&Hk1&Hi1&Hr). rewrite bind_ok. cbn [fst snd]. pose proof (tidied Hk1) as Ht1. rewrite (proj1 (put_fs_ok c1 s1 (fsb s1) (ty_hand _ _ _ _ _ Ht1))), bind_ok.
  assert (Hinc : forall c2 lt2 s2 fl2, keeps None None c1 s1 fl c2 lt2 s2 fl2 -> keeps None None c s fl c2 lt2 s2 fl2) by (intros; by eapply keeps_trans).
  destruct Hr as [Q R [Sb _] Lk (from&Hf&Ll&Hfrom)]. assert (Hsz : fs_isize (fsb s1) = fs_isize (fsb s)) by (unfold same_blocks in Sb; by injection Sb).
  assert (Hlook : forall m, view dev (inodes c) (content (fdev s1)) m = look c s m) by (intros m; unfold view; rewrite (proj1 (disk_same (content (fdev s)) (content (fdev s1)) m ltac:(apply Q))); done).
  destruct (decide (0 < fs_ninode (fsb s1))) as [Hp1|Hp1].
  - rewrite (proj2 (Z.ltb_lt _ _) Hp1). destruct (loop_pops n c1 lt s1 fl Ht1 Hp1) as (c'&o&->&(lt'&s'&Hk'&Ho)). eexists _, o. split; [done|]. exists lt', s'. split; [by apply Hinc|]. destruct o as [i|].
    + unfold inos in *. rewrite Hsz, Hi1 in Ho. setoid_rewrite Hlook in Ho. exact Ho.
    + destruct Ho as [Ho|Ho]; [by left|right]. unfold inos in *. rewrite Hsz, Hi1 in Ho. setoid_rewrite Hlook in Ho. exact Ho.
  - rewrite (proj2 (Z.ltb_ge _ _)) by lia. eexists _, None. split; [done|]. exists lt, (with_err s1 FS_ENOSPC). split; [apply Hinc, err_keeps, Ht1|]. right. intros m Hm.
    destruct (sr_list _ R) as [Hn0 _]. rewrite Hfrom in Ll by (unfold NICINOD in *; lia). rewrite (listed_none (fsb s1)) in Ll by lia. pose proof (ifind_cases c m (ty_uniq _ _ _ _ _ Ht)) as Hc.
    destruct (in_core dev (inodes c) m) as [x|] eqn:Ex; [left; by eexists|right]. unfold view. rewrite Ex. cbn. intros Hm0. apply inos_in in Hm. assert (m ∈ avails (fun n => bool_decide (is_Some (ifind c dev n))) (content (fdev s)) 1 (past (fsb s))) as Hin.
    { apply avails_in. split; [split; [|done]|unfold past; lia]. apply bool_decide_eq_false. intros [j Hj]. rewrite Hj in Hc. destruct Hc as (b'&Hb'&E1&E2). by apply (in_core_out _ _ _ _ _ Ex Hb'). }
    destruct (avails _ _ 1 _); [by apply elem_of_nil in Hin|done].
Qed.

End tidy.

(** C36. [ialloc], on a tidy file system whose directory's slot it is given,
    returns after one refill of the superblock's list at most. Either it gives
    a slot in use that holds a free inode, cleared, of the file system, above
    the root, that nobody referred to; or there is none, because the inode
    table has no slot left or because every inode of the file system is in core
    or allocated. In both cases the file system is tidy, every block belongs to
    a file or is free as before, no file has changed, and the slots that were
    in use still are. *)
Theorem ialloc_allocates {D} `{BS : BufSpec D} dev k n (c : icore D) lt s fl pip b : tidy_but (dev := dev) (k := k) None c lt s fl -> inodes c !! pip = Some b -> i_dev b = dev -> i_fs b = Some k ->
  exists c' o, ialloc (S n) c pip = Ok (c', o) /\ allocated (dev := dev) (k := k) c s fl c' o.
Proof. apply ialloc_gives. Qed.

(** ** A small file system *)

(** Sixteen inodes, of which two are taken: the second is the root directory.
    Eleven blocks are free, and the list of inodes is empty. *)
Definition tiny_fs : fs := Fs 0 2 0x240 0 12 (0 :: rev demo_free ++ replicate 188 0) 0 (replicate 32 0) 0 0 0 0 0 11 14 (replicate 7 0) 1 0 0 0.
Definition tiny_disk (b : Z) : block := if b =? 1 then <[16%nat := 0x41ED + Z.shiftl 2 16]> (<[0%nat := 0x8000 + Z.shiftl 1 16]> zeros) else zeros.
Definition tiny_slot : cinode := Cinode (Inode 0 0 (replicate 7 0) 0 0 0 0 0 0 0 0 0) 0 0 0 None (Freef None) None.
Definition tiny_table : icore ramdisk := Icore (replicate 3 tiny_slot) None Head 0 [Mount 0 tiny_fs Boot] {[0 := Ramdisk tiny_disk ∅ 0]} 0 0 [].
Definition tiny_core : icore ramdisk := match ihinit tiny_table with Ok c => c | _ => tiny_table end.
Definition tiny_sys : fsys ramdisk := Fsys (Ramdisk tiny_disk ∅ 0) tiny_fs 0 0.

Lemma tiny_boot : ihinit tiny_table = Ok tiny_core /\ free_list tiny_core [0%nat; 1%nat; 2%nat] /\ forall i b, inodes tiny_core !! i = Some b -> (i < 3)%nat /\ data b = data tiny_slot.
Proof.
  destruct (ihinit_ok tiny_table) as (c&E&R&Hf); [done|apply Forall_replicate; by exists None|]. assert (c = tiny_core) as -> by (unfold tiny_core; by rewrite E). split; [exact E|]. split; [exact Hf|].
  intros i b Hb. pose proof (f_equal (.!! i) (rl_data _ _ R)) as Ei. rewrite !list_lookup_fmap, Hb in Ei. cbn [inodes tiny_table] in Ei. destruct (replicate 3 tiny_slot !! i) as [b0|] eqn:Eb; [|done].
  apply lookup_replicate in Eb as [-> Hi]. split; [done|]. exact (Some_inj _ _ Ei).
Qed.

Lemma tiny_slots i b : inodes tiny_core !! i = Some b -> (i < 3)%nat /\ i_in b = i_in tiny_slot /\ i_count b = 0 /\ i_dev b = 0.
Proof. intros Hb. destruct tiny_boot as (_&_&H). destruct (H i b Hb) as [Hi (->&->&->&_)%data_parts]. done. Qed.

Lemma tiny_looks n : view 0 (inodes tiny_core) (content (fdev tiny_sys)) n = disk_inode (content (fdev tiny_sys)) n \/ n = 0.
Proof.
  destruct (decide (n = 0)) as [|Hn]; [by right|left]. unfold view. rewrite in_core_none; [done|]. intros i b Hb [E _]. destruct (tiny_slots i b Hb) as (_&E1&_). rewrite E1 in E. cbn in E. congruence.
Qed.

Lemma tiny_files : all_blocks 0 (inodes tiny_core) (content (fdev tiny_sys)) (inos (fsb tiny_sys)) = [].
Proof. vm_compute. reflexivity. Qed.

Lemma tiny_alloc : alloc_ok (content (fdev tiny_sys)) (fsb tiny_sys) demo_free.
Proof.
  constructor; [done| |apply (bool_decide_eq_true_1 _); by vm_compute|apply (bool_decide_eq_true_1 _); by vm_compute|done|done|done].
  right. apply chain_end; done.
Qed.

Lemma tiny_tidy : tidy_but (dev := 0) (k := 0) None tiny_core [0%nat; 1%nat; 2%nat] tiny_sys demo_free.
Proof.
  constructor.
  - reflexivity.
  - apply tiny_boot.
  - intros i b Hb. destruct (tiny_slots i b Hb) as (Hi&_&->&_). split; [done|]. intros _. do 3 (destruct i as [|i]; [set_solver|]). lia.
  - intros i b Hb _. destruct (tiny_slots i b Hb) as (_&->&_). done.
  - intros i b Hb. destruct (tiny_slots i b Hb) as (_&_&->&_). lia.
  - intros i j bi bj Hi _ Hn. destruct (tiny_slots i bi Hi) as (_&E&_). rewrite E in Hn. done.
  - intros i b Hb Hn. destruct (tiny_slots i b Hb) as (_&E&_). rewrite E in Hn. done.
  - intros i b Hb Hn. destruct (tiny_slots i b Hb) as (_&E&_). rewrite E in Hn. done.
  - rewrite tiny_files. constructor; [exact tiny_alloc|apply tiny_alloc|constructor|intros a _; apply not_elem_of_empty|apply not_elem_of_empty|]. unfold spare. apply (bool_decide_eq_true_1 _). by vm_compute.
  - split; [done|]. split; [done|]. cbn. unfold NBUF. lia.
  - intros n Hn. assert (Forall (fun n => u32 (disk_flags (content (fdev tiny_sys)) n) <= 0xffff /\ 0 <= i_size (disk_inode (content (fdev tiny_sys)) n) < 2 ^ 31) (inos (fsb tiny_sys))) as H by (apply (bool_decide_eq_true_1 _); vm_compute; reflexivity).
    rewrite Forall_forall in H. exact (H n Hn).
  - split; [split; [done|reflexivity]|]. done.
  - exists 1. split; [done|reflexivity].
  - split; [apply NoDup_nil_2|]. intros n Hn. apply elem_of_nil in Hn. done.
  - split; [|split].
    + intros n Hn. assert (n = 1 \/ n = 2) as [->| ->] by (unfold ROOTINO in Hn; lia); vm_compute; discriminate.
    + vm_compute. reflexivity.
    + intros i b Hb _ _. by destruct (tiny_slots i b Hb) as (_&_&->&_).
Qed.

(** A file made in the root directory: its inode is the last one listed. *)
Definition tiny_root : icore ramdisk := match iget tiny_core 0 0 2 with Ok (c, _) => c | _ => tiny_core end.

Lemma ialloc_allocates_witness : exists c' b, ialloc 1 tiny_root 0 = Ok (c', Some 1%nat) /\ inodes c' !! 1%nat = Some b /\ i_num b = 16 /\ i_mode (i_in b) = 0 /\ i_count b <> 0.
Proof.
  destruct (iget_got (dev := 0) (k := 0) tiny_core [0%nat; 1%nat; 2%nat] tiny_sys demo_free 2 tiny_tidy) as (c1&g&E1&(lt1&s1&Hg)).
  - apply (bool_decide_eq_true_1 _). vm_compute. reflexivity.
  - apply not_elem_of_nil.
  - done.
  - intros i b Hb _ _. destruct (tiny_slots i b Hb) as (_&_&->&_). lia.
  - assert (tiny_root = c1) as Ec by (unfold tiny_root; by rewrite E1). assert (match iget tiny_core 0 0 2 with Ok (_, Igot 0%nat) => true | _ => false end = true) as Eg by (vm_compute; reflexivity).
    rewrite E1 in Eg. destruct g as [[|?]| |]; [|discriminate..]. destruct Hg as (Hk&_&b&Hb&_&Hd&Hfs&_). assert (i_mode (view 0 (inodes tiny_core) (content (fdev tiny_sys)) 2) <> 0) as Hm by (vm_compute; discriminate). rewrite decide_False in Hk by exact Hm.
    destruct (ialloc_allocates 0 0 0 c1 lt1 s1 demo_free 0 b (tidied Hk) Hb Hd Hfs) as (c'&o&E&(lt'&s'&_&Ho)). rewrite Ec.
    assert (match ialloc 1 tiny_root 0 with Ok (c, Some i) => (i, i_number <$> (i_in <$> inodes c !! i)) | _ => (0%nat, None) end = (1%nat, Some 16)) as Ev by (vm_compute; reflexivity). rewrite Ec, E in Ev.
    destruct o as [i|]; [|discriminate]. injection Ev as -> Ev. destruct Ho as (b'&Hb'&_&_&Hc&Hm'&_). rewrite Hb' in Ev. injection Ev as Ev. exists c', b'. split; [exact E|]. split; [exact Hb'|]. split; [exact Ev|]. split; [exact Hm'|exact Hc].
Defined.
