(* ===== verification/Fsclient.v ===== *)
(** * Clients of a file system

    A file system kept tidy in the sense of [Fstidy], used through system
    calls: inodes are looked up, locked and released, made, written to, cut,
    linked, unlinked, and their attributes changed. Every call that keeps to
    its terms returns, and the file system is tidy after it. *)
From stdpp Require Import gmap.
From S2P Require Import Prelude Cred Fsalloc Fsmap Fstrunc Frdwr Icache Finode Fattr Ialloc Fstidy.

Section client.
Context {D : Type} {BD : BufDev D} {BS : BufSpec D}.
Context (dev : Z) (k : nat).
Implicit Types (c : icore D) (s : fsys D) (b : cinode).

#[local] Abbreviation tidy_but := (Fstidy.tidy_but (dev := dev) (k := k)).
#[local] Abbreviation keeps := (Fstidy.keeps (dev := dev) (k := k)).
#[local] Abbreviation slot_ok := (Fstidy.slot_ok (k := k)).
#[local] Abbreviation at_hand := (Fstidy.at_hand (dev := dev) (k := k)).
#[local] Abbreviation look c s := (view dev (inodes c) (content (fdev s))).
#[local] Abbreviation in_files c s := (all_blocks dev (inodes c) (content (fdev s)) (inos (fsb s))).

(** ** Work on the file of a slot in use *)

(** The operation [f] on the inode of the slot [i]. *)
Definition on_file c (i : nat) (f : inode -> fsys D -> outcome (fsys D * inode)) : outcome (icore D) :=
  b ← rd (inodes c) i;
  r ← on_fs c (i_dev b) (i_fs b) (f (i_in b));
  change (fst r) i (fun b => set_in b (snd r)).

(** The slot [i] is in use and holds the inode of [b]. *)
Record stage c lt s fl i b : Prop := {
  sg_tidy : tidy_but None c lt s fl;
  sg_slot : inodes c !! i = Some b;
  sg_name : i_num b <> 0 /\ i_dev b = dev;
  sg_count : i_count b <> 0
}.

(** What such work leaves: the inode keeps its number and what the cache has
    marked on it, blocks are traded with the free list, and of the blocks of
    inodes only its own place can have changed. *)
Record worked s fl b s' fl' (ip' : inode) : Prop := {
  wk_num : i_number ip' = i_num b;
  wk_fits : fits ip' /\ 0 <= i_size ip' < 2 ^ 31;
  wk_flags : on (i_flag ip') IMOUNT = false /\ on (i_flag ip') IPIPE = false;
  wk_clean : on (i_flag ip') IDIRTY = false -> same_view ip' (disk_inode (content (fdev s')) (i_num b));
  wk_mode : i_mode ip' <> 0 \/ i_mode ip' = i_mode (i_in b) /\ (i_addr (i_in b) = replicate 7 0 -> i_addr ip' = replicate 7 0);
  wk_links : i_num b = ROOTINO -> 0 < i_nlink ip';
  wk_trade : trade s fl (ip_blocks (content (fdev s)) (i_in b)) s' fl' (ip_blocks (content (fdev s')) ip');
  wk_other : forall m, m ∈ inos (fsb s) -> m <> i_num b ->
    disk_inode (content (fdev s')) m = disk_inode (content (fdev s)) m /\ disk_flags (content (fdev s')) m = disk_flags (content (fdev s)) m;
  wk_disk : disk_ok s' (i_num b);
  wk_super : inodes_ok (fsb s') /\ fs_ilock (fsb s') = 0 /\ fs_lasti (fsb s') = fs_lasti (fsb s) /\ listed (fsb s') = listed (fsb s);
  wk_now : fnow s' = fnow s
}.

Lemma work_keeps c lt s fl i b f s' fl' ip' : stage c lt s fl i b ->
  f (i_in b) s = Ok (s', ip') -> worked s fl b s' fl' ip' ->
  exists c', on_file c i f = Ok c' /\ inodes c' !! i = Some (set_in b ip') /\ keeps (Some (i_num b)) None c s fl c' lt s' fl'.
Proof.
  intros [Ht Hb [Hn Hd] Hc] Hf [W1 [W2 W2'] [W3 W3'] W4 W5 W6 W7 W8 W9 (W10&W11&W12&W13) W14]. pose proof (ty_slot _ _ _ _ _ Ht i b Hb Hn Hd) as Hso. pose proof (lookup_lt_Some _ _ _ Hb) as Hlt.
  destruct (hand_fs _ _ (ty_hand _ _ _ _ _ Ht)) as (m&Hm&_&Hon&Hat). unfold on_file. rewrite (rd_ok _ _ _ Hb), bind_ok, Hd, (so_home _ _ Hso), Hon, Hf, !bind_ok. cbn [fst snd].
  set (c1 := with_fsys c dev k m s'). assert (inodes c1 !! i = Some b) as Hb1 by exact Hb. rewrite (change_ok _ _ _ _ Hb1). eexists. split; [done|]. split; [by apply list_lookup_insert_eq|].
  pose proof (ty_idle _ _ _ _ _ Ht i b Hb) as Hi. pose proof (ty_count _ _ _ _ _ Ht i b Hb) as Hr. destruct (listed_idle _ _ _ _ _ _ _ Ht Hb Hd Hc) as [Hnl Hn1]. pose proof (look_slot _ _ _ _ _ _ _ Ht Hb Hn Hd) as Hlook.
  apply (step_keeps None None c (put_slot c1 i (set_in b ip')) lt lt s s' fl fl' i b (set_in b ip') Ht Hb Hn Hd).
  - constructor; try done; [by apply (mv_data _ _ _ _ _ (moved_put c1 i (set_in b ip')))|eapply hand_moved; [by apply Hat|apply moved_put]| |].
    + apply free_list_off; [destruct (ty_list _ _ _ _ _ Ht); by constructor|]. exact (in_use _ _ _ _ _ _ _ Ht Hb Hc).
    + cbn. intros _ _ Hm0. destruct W5 as [?|[E5 W5]]; [done|]. apply W5, (ty_fresh _ _ _ _ _ Ht i b Hb Hn Hd Hc); [done|congruence].
  - constructor; try done.
    + constructor; cbn [set_in i_in i_fs]; rewrite ?W1; try done; [apply Hso|]. unfold inos. rewrite (proj1 (td_size _ _ _ _ _ _ W7)). apply Hso.
    + rewrite W13. apply (ty_listed _ _ _ _ _ Ht).
    + rewrite W13. intros n Hln. left. split; [by intros ->|done].
    + cbn [set_in i_in i_count]. split; [|split; [exact W6|done]]. intros Hle. destruct W5 as [?|[-> _]]; [done|]. rewrite <- Hlook. apply (ty_roots _ _ _ _ _ Ht). pose proof (inos_range _ _ _ _ _ _ Ht (so_num _ _ Hso)). lia.
Qed.

(** Only fields that no block depends on are changed, in core. *)
Lemma edit_worked c lt s fl i b ip' : stage c lt s fl i b ->
  i_number ip' = i_num b -> i_addr ip' = i_addr (i_in b) -> i_size ip' = i_size (i_in b) -> fits ip' ->
  on (i_flag ip') IMOUNT = on (i_flg b) IMOUNT -> on (i_flag ip') IPIPE = on (i_flg b) IPIPE ->
  on (i_flag ip') IDIRTY = true \/ file_of ip' = file_of (i_in b) /\ i_flag ip' = i_flg b ->
  i_mode ip' <> 0 \/ i_mode ip' = i_mode (i_in b) -> (i_num b = ROOTINO -> 0 < i_nlink ip') -> worked s fl b s fl ip'.
Proof.
  intros [Ht Hb [Hn Hd] Hc] E1 E2 E3 Hfit Hm1 Hm2 Hdirty Hmode Hroot. pose proof (ty_slot _ _ _ _ _ Ht i b Hb Hn Hd) as Hso. destruct (so_plain _ _ Hso) as [P1 P2]. destruct (ty_super _ _ _ _ _ Ht) as (S1&S2&_).
  assert (ip_blocks (content (fdev s)) ip' = ip_blocks (content (fdev s)) (i_in b)) as Eb.
  { unfold ip_blocks. rewrite E2, E3. destruct (Z.eqb_spec (i_mode (i_in b)) 0) as [Hm0|Hm0].
    - rewrite (ty_fresh _ _ _ _ _ Ht i b Hb Hn Hd Hc) by done. rewrite owned_none. by destruct (_ || _).
    - destruct Hmode as [Hmode| ->]; [|by rewrite (proj2 (Z.eqb_neq _ _) Hm0)]. by rewrite (proj2 (Z.eqb_neq _ _) Hmode). }
  constructor; try done.
  - rewrite E3. split; [done|apply Hso].
  - by rewrite Hm1, Hm2.
  - intros Hcl. destruct Hdirty as [|[Ef Eg]]; [congruence|]. apply (same_view_trans _ (i_in b)); [by left|]. apply Hso. by rewrite <- Eg.
  - rewrite E2. destruct Hmode; tauto.
  - rewrite Eb. apply trade_none; [apply Ht|done..].
  - apply (ty_disk _ _ _ _ _ Ht), Hso.
Qed.

(** The inode written out ([iupdat_at]). *)
Lemma flush_worked c lt s fl i b ta tm w : stage c lt s fl i b ->
  exists s' ip', iupdat_at ta tm (i_in b) w s = Ok (s', ip', 0) /\ worked s fl b s' fl ip' /\ file_of ip' = file_of (i_in b).
Proof.
  intros [Ht Hb [Hn Hd] Hc]. pose proof (ty_slot _ _ _ _ _ Ht i b Hb Hn Hd) as Hso. pose proof (slot_inode_ok _ _ _ _ _ _ Ht Hso) as Hio. pose proof (tidy_spare _ _ _ _ _ Ht) as Hsp. destruct (so_plain _ _ Hso) as [P1 P2].
  pose proof (look_slot _ _ _ _ _ _ _ Ht Hb Hn Hd) as Hlook. destruct (ty_roots _ _ _ _ _ Ht) as (R1&R2&R3). destruct (inos_range _ _ _ _ _ _ Ht (so_num _ _ Hso)) as [Hnr Hbr].
  assert (exists s' ip', iupdat_at ta tm (i_in b) w s = Ok (s', ip', 0) /\ file_of ip' = file_of (i_in b) /\ i_number ip' = i_num b /\
    dev_step s s' (if on (i_flg b) IDIRTY then wrote (content (fdev s)) (itod (i_num b)) (dinode_put ip' (Z.to_nat (itoo (i_num b))) (content (fdev s) (itod (i_num b)))) else content (fdev s)) (held (fdev s)) (anon (fdev s))) as (s'&ip'&E&E1&E2&[F R N C H K]).
  { destruct (on (i_flg b) IDIRTY) eqn:Ed.
    - destruct (iupdat_at_ok ta tm (i_in b) w s Hio) as (s'&ip'&->&(?&?&_)&_&?); [unfold spare in *; lia|exact Ed|]. by exists s', ip'.
    - exists s, (i_in b). unfold iupdat_at. unfold on, IDIRTY in Ed. apply negb_false_iff in Ed. rewrite Ed. split; [done|]. split; [done|]. split; [done|]. by constructor. }
  exists s', ip'. split; [exact E|]. split; [|exact E1]. pose proof (iupdat_at_framed _ _ _ _ _ _ _ _ E) as Hfr.
  assert (fits ip') as Hfit by (apply (file_fits (i_in b)); [exact E1|apply Hso]). destruct (inode_written _ _ _ _ _ b s' ip' Ht Hso Hfit E1 C) as (Hd1&Hd2&Hd3).
  assert (i_mode ip' = i_mode (i_in b) /\ i_nlink ip' = i_nlink (i_in b) /\ i_size ip' = i_size (i_in b) /\ i_addr ip' = i_addr (i_in b)) as (Em&El&Es&Ea) by (unfold file_of in E1; by injection E1).
  assert (forall a, fs_isize (fsb s) <= a -> content (fdev s') a = content (fdev s) a) as Hc1. { intros a Ha'. rewrite C. destruct (on (i_flg b) IDIRTY); [|done]. unfold wrote. rewrite decide_False; [done|]. lia. }
  constructor; try done.
  - rewrite Es. split; [done|apply Hso].
  - by rewrite !(framed_on _ _ _ Hfr) by done.
  - right. by rewrite Em, Ea.
  - intros Er. by rewrite El, <- Hlook, Er.
  - rewrite (blocks_file _ _ _ E1), (blocks_ext (content (fdev s)) (content (fdev s')) (i_in b)).
    + apply trade_none; [apply Ht|done..].
    + intros a Ha'. apply Hc1. destruct (slot_blocks _ _ _ _ _ _ _ Ht Hb Hn Hd) as (O&_&_&[_ _ Hdt _ _ _]). rewrite Forall_app, Forall_forall in Hdt. by apply Hdt.
  - rewrite F. destruct (ty_super _ _ _ _ _ Ht) as (?&?&_). done.
Qed.

(** The blocks that [itrunc] gives back are those of the file. *)
Lemma slot_file_blocks c lt s fl i b : stage c lt s fl i b ->
  file_blocks (content (fdev s)) (i_in b) = ip_blocks (content (fdev s)) (i_in b).
Proof.
  intros [Ht Hb [Hn Hd] Hc]. rewrite <- (cut_blocks _ _ _ _ _ _ Ht Hb Hn Hd Hc). unfold file_blocks. cbn [set_iflag i_size i_flag i_addr].
  rewrite on_or, (proj2 (so_plain _ _ (ty_slot _ _ _ _ _ Ht i b Hb Hn Hd))). done.
Qed.

(** The file cut to nothing ([itrunc]). *)
Lemma cut_worked c lt s fl i b : stage c lt s fl i b ->
  exists s' ip' fl', itrunc (i_in b) 0 0 s = Ok (s', ip') /\ worked s fl b s' fl' ip' /\ i_size ip' = 0.
Proof.
  intros Hst. assert (Hst' := Hst). destruct Hst' as [Ht Hb [Hn Hd] Hc]. pose proof (ty_slot _ _ _ _ _ Ht i b Hb Hn Hd) as Hso. pose proof (slot_inode_ok _ _ _ _ _ _ Ht Hso) as Hio. destruct (so_plain _ _ Hso) as [P1 P2]. pose proof (so_fits _ _ Hso) as [F1 F2 F3 F4].
  pose proof (look_slot _ _ _ _ _ _ _ Ht Hb Hn Hd) as Hlook. destruct (ty_roots _ _ _ _ _ Ht) as (R1&R2&R3). destruct (inos_range _ _ _ _ _ _ Ht (so_num _ _ Hso)) as [Hnr Hbr]. destruct (ty_super _ _ _ _ _ Ht) as (S1&S2&_).
  destruct (slot_blocks _ _ _ _ _ _ _ Ht Hb Hn Hd) as (O&_&_&Hrdy). apply ready_part in Hrdy. pose proof (slot_file_blocks _ _ _ _ _ _ Hst) as HT.
  assert (Forall (in_data (fsb s)) (ip_blocks (content (fdev s)) (i_in b))) as HTd by apply Hrdy. rewrite Forall_forall in HTd.
  destruct (itrunc_empties (i_in b) s fl) as (s'&ip'&freed&E&[E1 E2 E3 E4 E5 E6 E7 (E8&E9&E10&E11) E12 E13]); [by rewrite HT|exact Hio|exact (tidy_spare _ _ _ _ _ Ht)|apply Hso|]. rewrite HT in *.
  exists s', ip', (freed ++ fl). split; [exact E|]. split; [|exact E3]. pose proof (itrunc_framed _ _ _ _ _ _ E) as Hfr. unfold rest_of in E1. injection E1 as M1 M2 M3 M4 M5 M6. destruct E7 as (Z1&Z2&Z3&Z4&Z5&Z6&Z7&Z8&Z9&Z10).
  assert (fits ip') as Hfit by (constructor; congruence). pose proof (content_length (fdev s) (itod (i_num b))) as Hx. destruct (disk_put _ _ _ _ Hfit Hx E12) as [D1 D2].
  assert (Hfr' : forall a, a <> itod (i_num b) -> a ∉ ip_blocks (content (fdev s)) (i_in b) -> content (fdev s') a = content (fdev s) a) by exact E13.
  constructor; try done.
  - rewrite E3. done.
  - by rewrite !(framed_on _ _ _ Hfr) by done.
  - by left.
  - right. split; [done|]. intros Ea. destruct E4 as [?|[_ ->]]; done.
  - intros Er. by rewrite M2, <- Hlook, Er.
  - unfold ip_blocks at 2. rewrite E3, orb_true_r. constructor; try done; [by rewrite E5|]. intros a Hs Hge Ha. apply Hfr'; [lia|set_solver].
  - intros m Hm Hne. apply (disk_put_other _ _ (i_num b) m ip'); [done|done|by apply (inos_range _ _ _ _ _ _ Ht)|done|done|exact E12|]. intros Hb'. apply Hfr'; [done|]. intros Hin. apply HTd in Hin. unfold in_data in Hin. destruct (inos_range _ _ _ _ _ _ Ht Hm). lia.
  - unfold disk_ok. rewrite D2, M5. split; [rewrite trunc_small; lia|]. assert (i_size (disk_inode (content (fdev s')) (i_num b)) = i_size ip') as -> by (unfold file_of in D1; congruence). rewrite E3. done.
  - unfold inodes_ok, listed in *. rewrite Z5, Z6, Z8, Z9. done.
Qed.

(** A regular file stays one when the bits that run it as another user go. *)
Lemma setid_kind m : Z.land (Z.ldiff m (Z.lor ISUID ISGID)) IFMT = Z.land m IFMT.
Proof. rewrite Z.ldiff_land, <- Z.land_assoc. done. Qed.
Lemma setid_range m : 0 <= m < 2 ^ 16 -> 0 <= Z.ldiff m (Z.lor ISUID ISGID) < 2 ^ 16.
Proof.
  intros Hm. assert (Z.ldiff m (Z.lor ISUID ISGID) = Z.land (Z.ldiff m (Z.lor ISUID ISGID)) (Z.ones 16)) as E.
  { apply Z.bits_inj'. intros i Hi. rewrite Z.land_spec, Z.ldiff_spec, Z.testbit_ones_nonneg by lia. destruct (Z.ltb_spec i 16); [by rewrite andb_true_r|]. rewrite (Z.bits_above_log2 m i); [done|lia|]. destruct (decide (m = 0)) as [->|]; [cbn; lia|]. apply Z.log2_lt_pow2; [lia|]. apply (Z.lt_le_trans _ (2 ^ 16)); [lia|]. by apply Z.pow_le_mono_r. }
  rewrite E, Z.land_ones by lia. apply Z.mod_pos_bound. lia.
Qed.

Lemma touched_mode ruid ip ip' : touched ruid ip ip' -> 0 <= i_mode ip < 2 ^ 16 -> 0 <= i_mode ip' < 2 ^ 16 /\ Z.land (i_mode ip') IFMT = Z.land (i_mode ip) IFMT.
Proof. intros [_ _ [->|[_ ->]] _] Hm; [done|]. split; [by apply setid_range|apply setid_kind]. Qed.

(** A write that moves no byte of an empty file leaves it empty. *)
Lemma written_blocks ruid ip off data s l s' ip' n l' : written ruid ip off data s l s' ip' n l' -> i_mode ip <> 0 -> i_mode ip' <> 0 -> 0 <= off -> 0 <= i_size ip ->
  i_size ip <> 0 \/ i_addr ip = replicate 7 0 /\ off < 4096 ->
  ip_blocks (content (fdev s)) ip = owned (content (fdev s)) (i_addr ip) /\ ip_blocks (content (fdev s')) ip' = owned (content (fdev s')) (i_addr ip').
Proof.
  intros [_ _ _ Wd Ws] Hm Hm' Ho Hs Hz. unfold ip_blocks. rewrite (proj2 (Z.eqb_neq _ _) Hm), (proj2 (Z.eqb_neq _ _) Hm'). cbn [orb]. split.
  - destruct (Z.eqb_spec (i_size ip) 0) as [E|]; [|done]. destruct Hz as [|[-> _]]; [done|]. by rewrite owned_none.
  - rewrite Ws. destruct (Nat.eqb_spec n 0) as [En|En]; [|rewrite (proj2 (Z.eqb_neq _ _)); [done|lia]]. destruct (Z.eqb_spec (i_size ip) 0) as [E|]; [|done].
    destruct Hz as [|[Ha Ho']]; [done|]. rewrite (Wd En Ho'), Ha. by rewrite owned_none.
Qed.

(** Bytes written to a regular file ([rwip]). *)
Lemma write_worked c lt s fl i b append_io unit_io fsize ruid off data : stage c lt s fl i b -> ferr s = 0 ->
  Z.land (i_mode (i_in b)) IFMT = 0x8000 -> let off' := if append_io : bool then i_size (i_in b) else off in
  0 <= off' -> off' + Z.of_nat (length data) < 2 ^ 31 -> Forall (fun x => 0 <= x < 256) data -> i_size (i_in b) <> 0 \/ i_addr (i_in b) = replicate 7 0 /\ off' < 4096 ->
  exists s' ip' off1 rest e fl', rwip_write append_io unit_io true fsize ruid (i_in b) off data s = Ok (s', ip', off1, rest, e) /\ worked s fl b s' fl' ip'.
Proof.
  intros [Ht Hb [Hn Hd] Hc] He Hreg off' Ho Hend Hbytes Hz. pose proof (ty_slot _ _ _ _ _ Ht i b Hb Hn Hd) as Hso. destruct (so_plain _ _ Hso) as [P1 P2]. pose proof (so_fits _ _ Hso) as [F1 F2 F3 F4]. pose proof (tidy_spare _ _ _ _ _ Ht) as Hsp.
  pose proof (look_slot _ _ _ _ _ _ _ Ht Hb Hn Hd) as Hlook. destruct (ty_roots _ _ _ _ _ Ht) as (R1&R2&R3). destruct (inos_range _ _ _ _ _ _ Ht (so_num _ _ Hso)) as [Hnr Hbr]. destruct (ty_super _ _ _ _ _ Ht) as (S1&S2&_).
  destruct (slot_blocks _ _ _ _ _ _ _ Ht Hb Hn Hd) as (O&_&_&Hrdy). apply ready_part in Hrdy. assert (i_mode (i_in b) <> 0) as Hm by (intros E; rewrite E in Hreg; done).
  assert (ip_blocks (content (fdev s)) (i_in b) = owned (content (fdev s)) (i_addr (i_in b))) as EB.
  { unfold ip_blocks. rewrite (proj2 (Z.eqb_neq _ _) Hm). cbn [orb]. destruct (Z.eqb_spec (i_size (i_in b)) 0) as [E|]; [|done]. destruct Hz as [|[-> _]]; [done|]. by rewrite owned_none. }
  rewrite EB in Hrdy. destruct (rwip_write_ok append_io unit_io true fsize ruid (i_in b) off data s fl Hrdy F1) as (s'&ip'&n&fl'&e&E&W&Hend'); [unfold spare in *; lia|exact He|exact Ho|exact Hend|exact Hbytes|]. fold off' in E, W. cbn [andb] in W.
  change (if true && append_io then i_size (i_in b) else off) with off' in W. eexists s', ip', _, _, e, fl'. split; [exact E|]. assert (W' := W). destruct W as [[A1 (new&El&A2) A3 (H1&H2&H3) A5 A6] _ Tc _ Ws].
  destruct (touched_mode _ _ _ Tc F2) as [M1 M2]. assert (i_mode ip' <> 0) as Hm' by (intros E0; rewrite E0, Hreg in M2; done). destruct (written_blocks _ _ _ _ _ _ _ _ _ _ W' Hm Hm' Ho (proj1 (so_size _ _ Hso)) Hz) as [_ EB'].
  destruct Tc as [T1 T2 _ T4]. unfold fixed_of in T1. injection T1 as N1 N2 N3 N4 N5. destruct A3 as (Z1&Z2&Z3&Z4&Z5&Z6&Z7&Z8&Z9&Z10).
  pose proof (rd_data _ _ _ Hrdy) as HTd. rewrite Forall_forall in HTd. pose proof (al_data _ _ _ (rd_alloc _ _ _ Hrdy)) as Hfd. rewrite Forall_forall in Hfd.
  assert (Hsame : forall m, m ∈ inos (fsb s) -> disk_inode (content (fdev s')) m = disk_inode (content (fdev s)) m /\ disk_flags (content (fdev s')) m = disk_flags (content (fdev s)) m).
  { intros m Hmi. destruct (inos_range _ _ _ _ _ _ Ht Hmi) as [_ Hmb]. apply disk_same, A6; [lia| |]; intros Hin; [apply HTd in Hin|apply Hfd in Hin]; unfold in_data in Hin; lia. }
  constructor; try done.
  - split; [constructor; congruence|]. rewrite Ws. pose proof (so_size _ _ Hso). destruct (n =? 0)%nat; [done|]. assert (n <= length data)%nat as Hnl by (clear -Hend'; lia). lia.
  - by rewrite !T2 by done.
  - intros Hcl. destruct T4 as [->|Hic].
    + apply (same_view_trans _ (disk_inode (content (fdev s)) (i_num b))); [by apply Hso|]. left. by rewrite (proj1 (Hsame _ (so_num _ _ Hso))).
    + exfalso. unfold IDIRTY in Hcl. rewrite !on_or_r, Hic, orb_true_r in Hcl. done.
  - by left.
  - intros Er. by rewrite N2, <- Hlook, Er.
  - rewrite EB, EB'. constructor; [apply A1|by rewrite A2, El, app_assoc|done|done|]. intros a Ha _ [Hi1 Hi2]%not_elem_of_app. by apply A6.
  - intros m Hmi _. by apply Hsame.
  - unfold disk_ok. destruct (Hsame _ (so_num _ _ Hso)) as [-> ->]. by apply (ty_disk _ _ _ _ _ Ht), Hso.
  - unfold inodes_ok, listed in *. rewrite Z5, Z6, Z8, Z9. done.
Qed.

(** ** Pieces of work one after the other *)

Lemma stage_next c lt s fl i b s1 fl1 ip1 : stage c lt s fl i b -> worked s fl b s1 fl1 ip1 -> exists c1, stage c1 lt s1 fl1 i (set_in b ip1).
Proof.
  intros Hst W. destruct (work_keeps c lt s fl i b (fun _ _ => Ok (s1, ip1)) s1 fl1 ip1 Hst eq_refl W) as (c1&_&Hb&Hk). exists c1. destruct Hst as [_ _ [Hn Hd] Hc].
  constructor; [exact (tidied Hk)|exact Hb|cbn; by rewrite (wk_num _ _ _ _ _ _ W)|exact Hc].
Qed.

Lemma trade_trans s fl T s1 fl1 T1 s2 fl2 T2 : trade s fl T s1 fl1 T1 -> trade s1 fl1 T1 s2 fl2 T2 -> trade s fl T s2 fl2 T2.
Proof.
  intros [A1 P1 (Z1&Z2&Z3) [H1 K1] C1] [A2 P2 (Y1&Y2&Y3) [H2 K2] C2]. constructor; [exact A2|by rewrite P2|split; [congruence|split; congruence]|split; congruence|].
  intros a Ha Hge Hin. rewrite C2; [by apply C1|done|lia|by rewrite P1].
Qed.

Lemma worked_trans s fl b s1 fl1 ip1 s2 fl2 ip2 : worked s fl b s1 fl1 ip1 -> worked s1 fl1 (set_in b ip1) s2 fl2 ip2 -> worked s fl b s2 fl2 ip2.
Proof.
  intros [A1 A2 A3 A4 A5 A6 A7 A8 A9 (A10&A11&A12&A13) A14] [B1 B2 B3 B4 B5 B6 B7 B8 B9 (B10&B11&B12&B13) B14]. cbn [set_in i_in] in *.
  assert (inos (fsb s1) = inos (fsb s)) as Hin by (unfold inos; by rewrite (proj1 (td_size _ _ _ _ _ _ A7))). rewrite A1, ?Hin in *. constructor; try done.
  - destruct B5 as [|[-> B5]]; [by left|]. destruct A5 as [|[-> A5]]; [by left|right]. auto.
  - by eapply trade_trans.
  - intros m Hm Hne. destruct (A8 m Hm Hne) as [<- <-]. by apply B8.
  - split; [done|]. split; [done|]. split; congruence.
  - congruence.
Qed.

(** First [s1] and [ip1], then whatever can follow. *)
Lemma worked_then c lt s fl i b s1 fl1 ip1 (P : fsys D -> list Z -> inode -> Prop) : stage c lt s fl i b -> worked s fl b s1 fl1 ip1 ->
  (forall c1, stage c1 lt s1 fl1 i (set_in b ip1) -> exists s2 fl2 ip2, P s2 fl2 ip2 /\ worked s1 fl1 (set_in b ip1) s2 fl2 ip2) ->
  exists s2 fl2 ip2, P s2 fl2 ip2 /\ worked s fl b s2 fl2 ip2.
Proof.
  intros Hst W H. destruct (stage_next _ _ _ _ _ _ _ _ _ Hst W) as [c1 Hst1]. destruct (H c1 Hst1) as (s2&fl2&ip2&HP&W2). exists s2, fl2, ip2. split; [exact HP|]. by eapply worked_trans.
Qed.

(** Fields changed in core, as system calls do: nothing that a block depends
    on, and the kind of the file stays. *)
Record edited (ip ip' : inode) : Prop := {
  ed_body : i_number ip' = i_number ip /\ i_addr ip' = i_addr ip /\ i_size ip' = i_size ip /\ i_nlink ip' = i_nlink ip;
  ed_fits : fits ip -> fits ip';
  ed_flags : on (i_flag ip') IMOUNT = on (i_flag ip) IMOUNT /\ on (i_flag ip') IPIPE = on (i_flag ip) IPIPE;
  ed_dirty : on (i_flag ip') IDIRTY = true \/ file_of ip' = file_of ip /\ i_flag ip' = i_flag ip;
  ed_kind : Z.land (i_mode ip') IFMT = Z.land (i_mode ip) IFMT
}.

(** The state but for the error. *)
Definition calm s s' : Prop := fdev s' = fdev s /\ fsb s' = fsb s /\ fnow s' = fnow s.

Lemma edited_worked c lt s fl i b ip' s' : stage c lt s fl i b -> Z.land (i_mode (i_in b)) IFMT <> 0 -> edited (i_in b) ip' -> calm s s' -> worked s fl b s' fl ip'.
Proof.
  intros Hst Hk [(E1&E2&E3&E4) Hf [F1 F2] Hd Hkind] (C1&C2&C3). assert (Hst' := Hst). destruct Hst' as [Ht Hb [Hn Hdv] Hc]. pose proof (ty_slot _ _ _ _ _ Ht i b Hb Hn Hdv) as Hso.
  assert (worked s fl b s fl ip') as W.
  { apply (edit_worked c lt s fl i b ip' Hst E1 E2 E3 (Hf (so_fits _ _ Hso)) F1 F2 Hd).
    - left. intros E. rewrite E in Hkind. by rewrite <- Hkind in Hk.
    - intros Er. rewrite E4, <- (look_slot _ _ _ _ _ _ _ Ht Hb Hn Hdv), Er. apply (ty_roots _ _ _ _ _ Ht). }
  destruct W as [W1 W2 W3 W4 W5 W6 [T1 T2 T3 T4 T5] W8 W9 W10 W11]. constructor; rewrite ?C1, ?C2; try done; [by constructor; rewrite ?C1, ?C2|]. unfold disk_ok in *. by rewrite C1.
Qed.

(** ** The attributes *)

Lemma edited_refl ip : edited ip ip.
Proof. constructor; auto. Qed.
(** A field changed, and the change marked. *)
Lemma edited_by ip ip' m : i_number ip' = i_number ip /\ i_addr ip' = i_addr ip /\ i_size ip' = i_size ip /\ i_nlink ip' = i_nlink ip -> (fits ip -> fits ip') ->
  i_flag ip' = Z.lor (i_flag ip) m -> on m IDIRTY = true -> Z.land m IMOUNT = 0 -> Z.land m IPIPE = 0 -> Z.land (i_mode ip') IFMT = Z.land (i_mode ip) IFMT -> edited ip ip'.
Proof.
  intros E1 E2 Ef Hd Hm Hp E5. assert (on m IMOUNT = false /\ on m IPIPE = false) as [Hm' Hp'] by (unfold on; by rewrite Hm, Hp).
  constructor; [exact E1|exact E2| | |exact E5]; rewrite Ef, ?on_or; [by rewrite Hm', Hp', !orb_false_r|left; by rewrite Hd, orb_true_r].
Qed.

Lemma calm_err s e : calm s (with_err s e).
Proof. done. Qed.
Lemma not_owner_calm cr ip s no s' : not_owner cr ip s = (no, s') -> calm s s'.
Proof. unfold not_owner, fs_suser, suser. destruct (_ =? i_uid ip); [by intros [= _ <-]|]. destruct (_ =? 0); by intros [= _ <-]. Qed.

Lemma mode_range m : 0 <= m < 2 ^ 16 -> forall mode, 0 <= Z.lor (Z.ldiff m 0xfff) (Z.land mode 0xfff) < 2 ^ 16.
Proof.
  intros Hm mode. assert (Z.lor (Z.ldiff m 0xfff) (Z.land mode 0xfff) = Z.land (Z.lor (Z.ldiff m 0xfff) (Z.land mode 0xfff)) (Z.ones 16)) as E.
  { rewrite Z.land_lor_distr_l, <- Z.land_assoc. change (Z.land 0xfff (Z.ones 16)) with 0xfff. f_equal. rewrite Z.ldiff_land, <- Z.land_assoc, (Z.land_comm (Z.lnot _)), Z.land_assoc, Z.land_ones, Z.mod_small by lia. done. }
  rewrite E, Z.land_ones by lia. apply Z.mod_pos_bound. lia.
Qed.
Lemma ldiff_range m k0 : 0 <= m < 2 ^ 16 -> 0 <= Z.ldiff m k0 < 2 ^ 16.
Proof.
  intros Hm. assert (Z.ldiff m k0 = Z.land (Z.ldiff m k0) (Z.ones 16)) as E.
  { rewrite Z.ldiff_land, <- Z.land_assoc, (Z.land_comm (Z.lnot _)), Z.land_assoc, Z.land_ones, Z.mod_small by lia. done. }
  rewrite E, Z.land_ones by lia. apply Z.mod_pos_bound. lia.
Qed.

Lemma chmod1_edited cr ip mode s s' ip' e : chmod1 cr ip mode s = (s', ip', e) -> edited ip ip' /\ calm s s'.
Proof.
  unfold chmod1. destruct (not_owner cr ip s) as [no s1] eqn:E. apply not_owner_calm in E. destruct no; [intros [= <- <- _]; split; [apply edited_refl|exact E]|].
  destruct (_ && _ && _); [intros [= <- <- _]; split; [apply edited_refl|exact E]|]. destruct (_ && _ && _); [intros [= <- <- _]; split; [apply edited_refl|exact E]|].
  intros [= <- <- _]. split; [|exact E]. apply (edited_by _ _ ICHG); try done; [|apply new_mode]. intros [F1 F2 F3 F4]. constructor; try done. by apply mode_range.
Qed.

Lemma chown1_edited cr ip uid gid s s' ip' e : chown1 cr ip uid gid s = (s', ip', e) -> edited ip ip' /\ calm s s'.
Proof.
  unfold chown1. cbv zeta. set (u := default _ uid). set (g := default _ gid). assert (forall (x : bool) ok s1, (if x then fs_suser cr s else (true, s)) = (ok, s1) -> calm s s1) as Hs.
  { intros x ok s1. destruct x; [|by intros [= _ <-]]. unfold fs_suser, suser. destruct (_ =? 0); by intros [= _ <-]. }
  destruct (if negb (u_uid cr =? i_uid ip) || negb (u =? i_uid ip) || negb (groupmember g cr) then fs_suser cr s else (true, s)) as [ok s1] eqn:E. apply Hs in E. destruct ok; cbn [negb]; [|intros [= <- <- _]; split; [apply edited_refl|exact E]]. intros [= <- <- _]. split; [|exact E]. clear Hs E.
  set (b1 := negb (i_uid ip =? u)). set (b2 := negb (i_gid ip =? g)). set (ip1 := if b1 || b2 then _ else _). set (ip2 := if b1 && _ then _ else _). set (ip3 := if b2 && _ then _ else _).
  assert (edited ip ip1 /\ (b1 || b2 = true -> on (i_flag ip1) IDIRTY = true) /\ i_mode ip1 = i_mode ip /\ (b1 || b2 = false -> i_uid ip1 = i_uid ip /\ i_gid ip1 = i_gid ip)) as (H1&H2&H3&H4).
  { unfold ip1. destruct (b1 || b2) eqn:Eb.
    - split; [|split; [intros _; cbn; rewrite on_or; by rewrite orb_true_r|done]]. apply (edited_by _ _ ICHG); try done. intros []; by constructor.
    - apply orb_false_iff in Eb as [E1%negb_false_iff%Z.eqb_eq E2%negb_false_iff%Z.eqb_eq]. rewrite <- E1, <- E2. split; [|done]. constructor; try done; [intros []; by constructor|by right]. }
  assert (forall ipx m, edited ip ipx -> on (i_flag ipx) IDIRTY = true -> Z.land m IFMT = 0 -> edited ip (set_imode ipx (Z.ldiff (i_mode ipx) m)) /\ on (i_flag (set_imode ipx (Z.ldiff (i_mode ipx) m))) IDIRTY = true) as Hset.
  { intros ipx m [A1 A2 A3 A4 A5] Hdx Hm. split; [|done]. constructor; try done; [|by left|cbn; rewrite <- A5; by apply kept_diff; rewrite Z.land_comm]. intros Hf. destruct (A2 Hf). constructor; try done. cbn. by apply ldiff_range. }
  assert (edited ip ip2 /\ (b1 || b2 = true -> on (i_flag ip2) IDIRTY = true)) as [K1 K2].
  { unfold ip2. destruct (b1 && _) eqn:Eb; [|by split]. apply andb_true_iff in Eb as [Eb _]. destruct (Hset ip1 ISUID H1) as [S1 S2]; [apply H2; by rewrite Eb|done|]. by split. }
  unfold ip3. destruct (b2 && _) eqn:Eb; [|exact K1]. apply andb_true_iff in Eb as [Eb _]. apply (Hset ip2 ISGID K1); [apply K2; by rewrite Eb, orb_true_r|done].
Qed.

Lemma setflags_edited sl cr ip fl s s' ip' r : setattr_flags sl cr ip fl s = (s', ip', r) -> edited ip ip' /\ calm s s'.
Proof.
  unfold setattr_flags. destruct (Z.eqb_spec (Z.land fl (Z.lnot 0xffff)) 0) as [E16|]; cbn [negb]; [|intros [= <- <- _]; split; [apply edited_refl|done]]. destruct (not_owner cr ip s) as [no s1] eqn:E. apply not_owner_calm in E.
  destruct no; [intros [= <- <- _]; split; [apply edited_refl|exact E]|]. cbv zeta. destruct (_ || _); [intros [= <- <- _]; split; [apply edited_refl|exact E]|]. intros [= <- <- _]. split; [|exact E].
  assert (fl = Z.land fl (Z.ones 16)) as Efl by (transitivity (Z.land fl (Z.lor (Z.lnot 0xffff) (Z.ones 16))); [symmetry; apply Z.land_m1_r|rewrite Z.land_lor_distr_r, E16; apply Z.lor_0_l]).
  assert (0 <= fl < 2 ^ 16) as Hfl by (rewrite Efl, Z.land_ones by lia; apply Z.mod_pos_bound; lia).
  apply (edited_by _ _ ICHG); try done. intros [F1 F2 F3 F4]. constructor; try done. cbn. destruct (u_uid cr =? 0); [done|]. 
  assert (Z.lor (Z.land (i_flags ip) SF_SETTABLE) (Z.land fl UF_SETTABLE) = Z.land (Z.lor (Z.land (i_flags ip) SF_SETTABLE) (Z.land fl UF_SETTABLE)) (Z.ones 16)) as ->.
  { rewrite Z.land_lor_distr_l, <- !Z.land_assoc. done. }
  rewrite Z.land_ones by lia. apply Z.mod_pos_bound. lia.
Qed.

Lemma framed_kind ip ip' : framed ip ip' -> Z.land (i_mode ip') IFMT = Z.land (i_mode ip) IFMT.
Proof. intros [E _]. unfold rest_of in E. by injection E as -> _ _ _ _ _. Qed.

(** Marks set, and the inode written. *)
Lemma mark_flush_worked c lt s fl i b s0 ip1 ta tm (o : option Z) : stage c lt s fl i b -> Z.land (i_mode (i_in b)) IFMT <> 0 -> edited (i_in b) ip1 -> calm s s0 ->
  exists s' ip', (r ← iupdat_at ta tm ip1 true s0; Ok (fst r, o)) = Ok (s', ip', o) /\ worked s fl b s' fl ip' /\ Z.land (i_mode ip') IFMT = Z.land (i_mode (i_in b)) IFMT.
Proof.
  intros Hst Hk He Hc. pose proof (edited_worked _ _ _ _ _ _ _ _ Hst Hk He Hc) as W. destruct (stage_next _ _ _ _ _ _ _ _ _ Hst W) as [c1 Hst1].
  destruct (flush_worked c1 lt s0 fl i (set_in b ip1) ta tm true Hst1) as (s'&ip'&E&W'&_). cbn [set_in i_in] in E. exists s', ip'. rewrite E, bind_ok. split; [done|]. split; [by eapply worked_trans|].
  apply iupdat_at_framed, framed_kind in E. rewrite E. apply He.
Qed.

Lemma times_worked c lt s fl i b cr va : stage c lt s fl i b -> Z.land (i_mode (i_in b)) IFMT <> 0 ->
  exists s' ip' r, setattr_times cr va (i_in b) s = Ok (s', ip', r) /\ worked s fl b s' fl ip' /\ Z.land (i_mode ip') IFMT = Z.land (i_mode (i_in b)) IFMT.
Proof.
  intros Hst Hk. unfold setattr_times. set (ip := i_in b) in *. set (mk := fun (a m : option Z) => if m then mark (if a then mark ip IACC else ip) (Z.lor IUPD ICHG) else if a then mark ip IACC else ip).
  assert (forall a m, edited ip (mk a m)) as Hmk.
  { intros a m. assert (forall x y, mark (mark ip x) y = set_iflag ip (Z.lor (i_flag ip) (Z.lor x y))) as Emm by (intros x y; unfold mark; cbn; by rewrite Z.lor_assoc).
    destruct m as [m|], a as [a|]; cbn [mk]; rewrite ?Emm; [apply (edited_by _ _ (Z.lor IACC (Z.lor IUPD ICHG)))|apply (edited_by _ _ (Z.lor IUPD ICHG))|apply (edited_by _ _ IACC)|apply edited_refl]; try done; intros []; by constructor. }
  assert (forall s0 (o : option Z), calm s s0 -> exists s' ip' r, Ok (s0, ip, o) = Ok (s', ip', r) /\ worked s fl b s' fl ip' /\ Z.land (i_mode ip') IFMT = Z.land (i_mode ip) IFMT) as Hstop.
  { intros s0 o Hc. exists s0, ip, o. split; [done|]. split; [|done]. exact (edited_worked _ _ _ _ _ _ _ _ Hst Hk (edited_refl ip) Hc). }
  assert (forall a m s0, calm s s0 -> exists s' ip' r0, (r ← iupdat_at (default (-1) a) (default (-1) m) (mk a m) true s0; Ok (fst r, @None Z)) = Ok (s', ip', r0) /\ worked s fl b s' fl ip' /\ Z.land (i_mode ip') IFMT = Z.land (i_mode ip) IFMT) as Hgo.
  { intros a m s0 Hc. destruct (mark_flush_worked c lt s fl i b s0 (mk a m) (default (-1) a) (default (-1) m) None Hst Hk (Hmk a m) Hc) as (s'&ip'&E&W&Ek). by exists s', ip', None. }
  destruct (not_owner cr ip s) as [no s1] eqn:En. apply not_owner_calm in En.
  destruct (va_atime va) as [a|]; [|destruct (va_mtime va) as [m|]; [|by apply Hstop]].
  - destruct no; [destruct (negb _); [by apply Hstop|]; destruct (access _ _ _) as [refused cr1]; destruct refused; [by apply Hstop|]|]; by apply (Hgo (Some a) (va_mtime va)).
  - destruct no; [destruct (negb _); [by apply Hstop|]; destruct (access _ _ _) as [refused cr1]; destruct refused; [by apply Hstop|]|]; by apply (Hgo None (Some m)).
Qed.

(** After the size: the times and the mode. *)
Lemma tail_worked c lt s fl i b cr va : stage c lt s fl i b -> Z.land (i_mode (i_in b)) IFMT <> 0 ->
  exists s' ip' e, (r ← setattr_times cr va (i_in b) s;
    match snd r, va_mode va with
    | Some e, _ => Ok (fst r, e)
    | None, Some mode => Ok (chmod1 cr (snd (fst r)) mode (fst (fst r)))
    | None, None => Ok (fst r, 0)
    end) = Ok (s', ip', e) /\ worked s fl b s' fl ip'.
Proof.
  intros Hst Hk. destruct (times_worked c lt s fl i b cr va Hst Hk) as (s1&ip1&r&->&W&Ek). rewrite bind_ok. cbn [fst snd]. destruct r as [e|]; [by eexists s1, ip1, e|]. destruct (va_mode va) as [mode|]; [|by eexists s1, ip1, 0].
  destruct (chmod1 cr ip1 mode s1) as [[s2 ip2] e] eqn:E. exists s2, ip2, e. split; [done|]. destruct (stage_next _ _ _ _ _ _ _ _ _ Hst W) as [c1 Hst1]. apply chmod1_edited in E as [He Hc].
  eapply worked_trans; [exact W|]. apply (edited_worked _ _ _ _ _ _ _ _ Hst1); [by cbn; rewrite Ek|exact He|exact Hc].
Qed.

(** [ufs_setattr], the size left alone or set to 0. *)
Lemma setattr_worked c lt s fl i b sl cr va : stage c lt s fl i b -> Z.land (i_mode (i_in b)) IFMT <> 0 -> va_size va = None \/ va_size va = Some 0 ->
  exists s' fl' ip' e, ufs_setattr sl cr (i_in b) va s = Ok (s', ip', e) /\ worked s fl b s' fl' ip'.
Proof.
  intros Hst Hk Hsz. unfold ufs_setattr. set (ip := i_in b) in *.
  assert (forall s0 ip0 (e : Z), edited ip ip0 -> calm s s0 -> exists s' fl' ip' e', Ok (s0, ip0, e) = Ok (s', ip', e') /\ worked s fl b s' fl' ip') as Hstop.
  { intros s0 ip0 e He Hc. exists s0, fl, ip0, e. split; [done|]. exact (edited_worked _ _ _ _ _ _ _ _ Hst Hk He Hc). }
  destruct (negb _); [by apply Hstop; [apply edited_refl|]|].
  destruct (match va_flags va with Some f => setattr_flags sl cr ip f s | None => (s, ip, None) end) as [[s1 ip1] r1] eqn:E1.
  assert (edited ip ip1 /\ calm s s1) as [He1 Hc1] by (destruct (va_flags va); [by apply setflags_edited in E1|injection E1 as <- <- _; split; [apply edited_refl|done]]).
  destruct r1 as [e1|]; [by apply Hstop|]. destruct (on (i_flags ip1) _); [by apply Hstop|]. pose proof (edited_worked _ _ _ _ _ _ _ _ Hst Hk He1 Hc1) as W1. destruct (stage_next _ _ _ _ _ _ _ _ _ Hst W1) as [c1 Hst1].
  assert (Hk1 : Z.land (i_mode ip1) IFMT <> 0) by (by rewrite (ed_kind _ _ He1)).
  destruct (match va_uid va, va_gid va with None, None => (s1, ip1, 0) | uid, gid => chown1 cr ip1 uid gid s1 end) as [[s2 ip2] e2] eqn:E2.
  assert (edited ip1 ip2 /\ calm s1 s2) as [He2 Hc2] by (destruct (va_uid va), (va_gid va); try (by apply chown1_edited in E2); injection E2 as <- <- _; split; [apply edited_refl|done]).
  pose proof (edited_worked _ _ _ _ _ (set_in b ip1) _ _ Hst1 Hk1 He2 Hc2) as W2. pose proof (worked_trans _ _ _ _ _ _ _ _ _ W1 W2) as W12. destruct (stage_next _ _ _ _ _ _ _ _ _ Hst1 W2) as [c2 Hst2].
  destruct (negb (e2 =? 0)); [by exists s2, fl, ip2, e2|]. assert (Hk2 : Z.land (i_mode ip2) IFMT <> 0) by (by rewrite (ed_kind _ _ He2)).
  change (set_in (set_in b ip1) ip2) with (set_in b ip2) in Hst2.
  destruct Hsz as [-> | ->].
  - rewrite bind_ok. cbn [fst snd]. destruct (tail_worked c2 lt s2 fl i (set_in b ip2) cr va Hst2 Hk2) as (s3&ip3&e3&E3&W3). cbn [set_in i_in] in E3. exists s3, fl, ip3, e3. split; [exact E3|]. by eapply worked_trans.
  - destruct (Z.land (i_mode ip2) IFMT =? IFDIR); [rewrite bind_ok; by exists s2, fl, ip2, FS_EISDIR|].
    destruct (cut_worked c2 lt s2 fl i (set_in b ip2) Hst2) as (s3&ip3&fl3&E3&W3&_). cbn [set_in i_in] in E3. rewrite E3, !bind_ok. cbn [fst snd]. pose proof (worked_trans _ _ _ _ _ _ _ _ _ W12 W3) as W13. destruct (stage_next _ _ _ _ _ _ _ _ _ Hst2 W3) as [c3 Hst3].
    destruct (ferr s3 =? 0); [|by eexists s3, fl3, ip3, _]. apply itrunc_framed, framed_kind in E3.
    destruct (tail_worked c3 lt s3 fl3 i (set_in b ip3) cr va Hst3) as (s4&ip4&e4&E4&W4); [cbn; by rewrite E3|]. cbn [set_in i_in] in E4. exists s4, fl3, ip4, e4. split; [exact E4|]. by eapply worked_trans.
Qed.

(** ** System calls *)

Definition IFREG : Z := 0x8000.
Definition set_inlink (ip : inode) (n : Z) : inode :=
  Inode (i_number ip) (i_flag ip) (i_addr ip) (i_mode ip) n (i_uid ip) (i_gid ip) (i_size ip) (i_flags ip) (i_atime ip) (i_mtime ip) (i_ctime ip).

(** What [maknode] makes of a free inode, for a directory of the group [gid]. *)
Definition new_node (mode cmask gid : Z) (cr : cred) (ip : inode) : inode :=
  let mode := if Z.land mode IFMT =? 0 then Z.lor mode IFREG else mode in
  let ip := Inode (i_number ip) (Z.lor (i_flag ip) (Z.lor IACC (Z.lor IUPD ICHG))) (i_addr ip) (u16 (Z.ldiff mode cmask)) 1 (u_uid cr) gid (i_size ip) (i_flags ip) (i_atime ip) (i_mtime ip) (i_ctime ip) in
  if on (i_mode ip) ISGID && negb (groupmember (i_gid ip) cr) then set_imode ip (Z.ldiff (i_mode ip) ISGID) else ip.

(** [maknode] in the directory [pip], before the entry is made ([direnter]). *)
Definition maknode c (pip : nat) (mode cmask : Z) (cr : cred) : outcome (icore D * option nat) :=
  r ← ialloc 1 c pip;
  match snd r with
  | None => c ← iput (fst r) pip; Ok (c, None)
  | Some ip =>
      p ← rd (inodes (fst r)) pip;
      c ← on_file (fst r) ip (fun i s => r ← iupdat (new_node mode cmask (i_gid (i_in p)) cr i) true s; Ok (fst r));
      Ok (c, Some ip)
  end.

(** A link more ([link]), written at once, and one less ([unlink]). *)
Definition link_more (ip : inode) (s : fsys D) : outcome (fsys D * inode) :=
  r ← iupdat (mark (set_inlink ip (u16 (i_nlink ip + 1))) ICHG) true s; Ok (fst r).
Definition link_less (ip : inode) (s : fsys D) : outcome (fsys D * inode) := Ok (s, mark (set_inlink ip (u16 (i_nlink ip - 1))) ICHG).

(** The calls, on slots that the client has references to. *)
Inductive request :=
  | Get (ino : Z) | Unlock (i : nat) | Put (i : nat) | Rele (i : nat)
  | Make (pip : nat) (mode cmask : Z) (cr : cred)
  | Write (i : nat) (append_io unit_io : bool) (fsize ruid off : Z) (data : list Z)
  | SetAttr (i : nat) (securelevel : Z) (cr : cred) (va : vattr)
  | Link (i : nat) | Unlink (i : nat).

(** A call begins without an error. *)
Definition act c (r : request) : outcome (icore D) :=
  let c := with_uerr c 0 in
  match r with
  | Get ino => r ← iget c dev k ino; Ok (fst r)
  | Unlock i => iunlock c i
  | Put i => iput c i
  | Rele i => irele c i
  | Make pip mode cmask cr => r ← maknode c pip mode cmask cr; Ok (fst r)
  | Write i append_io unit_io fsize ruid off data => on_file c i (fun ip s => r ← rwip_write append_io unit_io true fsize ruid ip off data s; let '(s, ip, _, _, _) := r in Ok (s, ip))
  | SetAttr i sl cr va => on_file c i (fun ip s => r ← ufs_setattr sl cr ip va s; Ok (fst r))
  | Link i => on_file c i link_more
  | Unlink i => on_file c i link_less
  end.
Fixpoint acts (rs : list request) c : outcome (icore D) :=
  match rs with
  | [] => Ok c
  | r :: rs => c ← act c r; acts rs c
  end.

(** The terms of each call. *)
Definition busy c (i : nat) (b : cinode) : Prop := inodes c !! i = Some b /\ i_num b <> 0 /\ i_dev b = dev /\ i_count b <> 0.
Definition may c s (r : request) : Prop :=
  match r with
  | Get ino => ino ∈ inos (fsb s) /\ ino ∉ listed (fsb s) /\ ino <> 1 /\ i_mode (look c s ino) <> 0 /\ forall i b, inodes c !! i = Some b -> i_num b = ino -> i_dev b = dev -> i_count b < 65535
  | Unlock i | Put i | Rele i => exists b, busy c i b
  | Make pip mode cmask _ => Z.land cmask IFMT = 0 /\ exists b, busy c pip b
  | Write i append_io _ _ _ off data => exists b, busy c i b /\ Z.land (i_mode (i_in b)) IFMT = IFREG /\ Forall (fun x => 0 <= x < 256) data /\
      let off := if append_io then i_size (i_in b) else off in
      0 <= off /\ off + Z.of_nat (length data) < 2 ^ 31 /\ (i_size (i_in b) <> 0 \/ i_addr (i_in b) = replicate 7 0 /\ off < 4096)
  | SetAttr i _ _ va => (exists b, busy c i b /\ Z.land (i_mode (i_in b)) IFMT <> 0) /\ (va_size va = None \/ va_size va = Some 0)
  | Link i => exists b, busy c i b /\ i_mode (i_in b) <> 0 /\ i_nlink (i_in b) < 65535
  | Unlink i => exists b, busy c i b /\ i_mode (i_in b) <> 0 /\ (if i_num b =? ROOTINO then 1 else 0) < i_nlink (i_in b)
  end.

(** The slot a call works on. *)
Definition slot_of (r : request) : option nat :=
  match r with Get _ => None | Unlock i | Put i | Rele i | Make i _ _ _ | Write i _ _ _ _ _ _ | SetAttr i _ _ _ | Link i | Unlink i => Some i end.
(** The call works on the inode [m]. *)
Definition touches c (r : request) (m : Z) : Prop := exists i b, slot_of r = Some i /\ inodes c !! i = Some b /\ i_num b = m.

(** What a call leaves: blocks belong to files or are free as before, and files
    it does not work on are the same, each byte of them. *)
Record leaves (r : request) c s fl c' lt' s' fl' : Prop := {
  lv_tidy : tidy_but None c' lt' s' fl';
  lv_blocks : in_files c' s' ++ fl' ≡ₚ in_files c s ++ fl;
  lv_size : fs_isize (fsb s') = fs_isize (fsb s);
  lv_others : forall m, m ∈ inos (fsb s) -> i_mode (look c s m) <> 0 -> ~ touches c r m -> same_view (look c s m) (look c' s' m) /\
    forall a, a ∈ ip_blocks (content (fdev s)) (look c s m) -> content (fdev s') a = content (fdev s) a
}.

Lemma keeps_leaves r w c s fl c' lt' s' fl' : keeps w None c s fl c' lt' s' fl' -> (forall m, w = Some m -> touches c r m \/ i_mode (look c s m) = 0) -> leaves r c s fl c' lt' s' fl'.
Proof.
  intros [T P Z O _] Hw. constructor; [exact T|exact P|exact Z|]. intros m Hm Hmode Ht. apply O; [done|]. intros E. destruct (Hw m (eq_sym E)); done.
Qed.

Lemma stage_busy c lt s fl i b : tidy_but None c lt s fl -> busy c i b -> stage c lt s fl i b.
Proof. intros Ht (Hb&Hn&Hd&Hc). by constructor. Qed.

(** The links counted, and the count written out. *)
Lemma nlink_worked c lt s fl i b n : stage c lt s fl i b -> i_mode (i_in b) <> 0 -> 0 <= n < 65536 -> (i_num b = ROOTINO -> 0 < n) ->
  worked s fl b s fl (mark (set_inlink (i_in b) n) ICHG).
Proof.
  intros Hst Hm Hn Hr. assert (Hst' := Hst). destruct Hst' as [Ht Hb [Hnum Hd] Hc]. destruct (so_fits _ _ (ty_slot _ _ _ _ _ Ht i b Hb Hnum Hd)) as [F1 F2 F3 F4].
  apply (edit_worked c lt s fl i b _ Hst); try done; [| |left|by right]; cbn [mark set_iflag set_inlink i_flag i_nlink]; rewrite ?on_or.
  - change (on ICHG IMOUNT) with false. by rewrite orb_false_r.
  - change (on ICHG IPIPE) with false. by rewrite orb_false_r.
  - change (on ICHG IDIRTY) with true. by rewrite orb_true_r.
Qed.

(** The node that [maknode] makes. *)
Lemma new_node_facts mode cmask gid cr ip : Z.land cmask IFMT = 0 -> fits ip -> let ip' := new_node mode cmask gid cr ip in
  i_mode ip' <> 0 /\ i_number ip' = i_number ip /\ i_addr ip' = i_addr ip /\ i_size ip' = i_size ip /\ i_nlink ip' = 1 /\ fits ip' /\ i_flag ip' = Z.lor (i_flag ip) (Z.lor IACC (Z.lor IUPD ICHG)).
Proof.
  intros Hc [F1 F2 F3 F4]. cbv zeta. unfold new_node. set (md := if _ =? 0 then _ else _). assert (Z.land md IFMT <> 0) as Hmd.
  { unfold md. destruct (Z.eqb_spec (Z.land mode IFMT) 0) as [E|]; [|done]. rewrite Z.land_lor_distr_l, E. done. }
  assert (Z.land (u16 (Z.ldiff md cmask)) IFMT = Z.land md IFMT) as Ek.
  { unfold trunc. rewrite <- Z.land_ones, <- Z.land_assoc by lia. change (Z.land (Z.ones 16) IFMT) with IFMT. apply kept_diff. by rewrite Z.land_comm. }
  assert (0 <= u16 (Z.ldiff md cmask) < 2 ^ 16) as Hr by (apply trunc_range; lia). set (ip1 := Inode _ _ _ _ _ _ _ _ _ _ _ _).
  assert (fits ip1 /\ Z.land (i_mode ip1) IFMT <> 0) as [Hf Hk] by (split; [by constructor|cbn; by rewrite Ek]). destruct (_ && _).
  - assert (Z.land (Z.ldiff (i_mode ip1) ISGID) IFMT = Z.land (i_mode ip1) IFMT) as E by (by apply kept_diff). split; [cbn [set_imode i_mode]; intros E0; rewrite E0 in E; by rewrite <- E in Hk|].
    do 4 (split; [done|]). split; [|done]. destruct Hf. constructor; try done. cbn [set_imode i_mode]. by apply ldiff_range.
  - split; [intros E0; by rewrite E0 in Hk|]. done.
Qed.

Lemma node_worked c lt s fl i b mode cmask gid cr : stage c lt s fl i b -> i_mode (i_in b) = 0 -> Z.land cmask IFMT = 0 -> ROOTINO < i_num b ->
  worked s fl b s fl (new_node mode cmask gid cr (i_in b)) /\ i_mode (new_node mode cmask gid cr (i_in b)) <> 0.
Proof.
  intros Hst Hm Hc Hr. assert (Hst' := Hst). destruct Hst' as [Ht Hb [Hnum Hd] Hu]. destruct (new_node_facts mode cmask gid cr (i_in b) Hc (so_fits _ _ (ty_slot _ _ _ _ _ Ht i b Hb Hnum Hd))) as (N1&N2&N3&N4&N5&N6&N7).
  split; [|exact N1]. apply (edit_worked c lt s fl i b _ Hst); try done; rewrite ?N7, ?on_or; [| |left|by left|lia].
  - change (on (Z.lor IACC (Z.lor IUPD ICHG)) IMOUNT) with false. by rewrite orb_false_r.
  - change (on (Z.lor IACC (Z.lor IUPD ICHG)) IPIPE) with false. by rewrite orb_false_r.
  - by rewrite orb_true_r.
Qed.

(** ** Every call keeps the file system tidy *)

Section calls.
Context (c : icore D) (lt : list nat) (s : fsys D) (fl : list Z).
Context (Ht : tidy_but None c lt s fl).

(** The state in which a call begins. *)
Lemma begin_tidy : tidy_but None (with_uerr c 0) lt (with_err s 0) fl.
Proof. exact (tidied (err_keeps None c lt s fl 0 Ht)). Qed.

Lemma call_leaves r w c' lt' s' fl' : keeps w None (with_uerr c 0) (with_err s 0) fl c' lt' s' fl' -> (forall m, w = Some m -> touches c r m \/ i_mode (look c s m) = 0) -> leaves r c s fl c' lt' s' fl'.
Proof. intros Hk Hw. eapply keeps_leaves; [|exact Hw]. eapply keeps_trans; [apply keeps_any, (err_keeps None c lt s fl 0 Ht)|exact Hk]. Qed.

(** A call on one slot: it works on the inode there. *)
Lemma slot_leaves r i b c' lt' s' fl' : busy c i b -> slot_of r = Some i -> keeps (Some (i_num b)) None (with_uerr c 0) (with_err s 0) fl c' lt' s' fl' -> leaves r c s fl c' lt' s' fl'.
Proof. intros (Hb&_) Hs Hk. eapply call_leaves; [exact Hk|]. intros m [= <-]. left. by exists i, b. Qed.

Lemma work_leaves r i b f s' fl' ip' : busy c i b -> slot_of r = Some i -> f (i_in b) (with_err s 0) = Ok (s', ip') -> worked (with_err s 0) fl b s' fl' ip' ->
  exists c' lt', on_file (with_uerr c 0) i f = Ok c' /\ leaves r c s fl c' lt' s' fl'.
Proof.
  intros Hb Hs Hf W. destruct (work_keeps _ lt _ fl i b f s' fl' ip' (stage_busy _ _ _ _ _ _ begin_tidy Hb) Hf W) as (c'&E&_&Hk). exists c', lt. split; [exact E|]. by eapply slot_leaves.
Qed.

Lemma get_leaves ino : may c s (Get ino) -> exists c' lt' s' fl', act c (Get ino) = Ok c' /\ leaves (Get ino) c s fl c' lt' s' fl'.
Proof.
  intros (H1&H2&H3&H4&H5). cbn [act]. destruct (iget_got _ lt _ fl ino begin_tidy H1 H2 H3 H5) as (c'&g&->&(lt'&s'&Hg)). rewrite bind_ok. cbn [fst]. exists c', lt', s', fl. split; [done|].
  apply (call_leaves _ None); [|done]. destruct g; [|apply Hg|apply Hg]. destruct Hg as [Hg _]. rewrite decide_False in Hg by exact H4. exact Hg.
Qed.

Lemma make_leaves pip mode cmask cr : may c s (Make pip mode cmask cr) -> exists c' lt' s' fl', act c (Make pip mode cmask cr) = Ok c' /\ leaves (Make pip mode cmask cr) c s fl c' lt' s' fl'.
Proof.
  intros (Hmask&b&Hb). assert (Hb' := Hb). destruct Hb' as (Hbl&Hn&Hd&Hc). pose proof (ty_slot _ _ _ _ _ begin_tidy pip b Hbl Hn Hd) as Hso. cbn [act]. unfold maknode.
  destruct (ialloc_gives 0 _ lt _ fl pip b begin_tidy Hbl Hd (so_home _ _ Hso)) as (c1&o&->&(lt1&s1&Hk1&Ho)). rewrite !bind_ok. cbn [fst snd].
  destruct (kp_busy _ _ _ _ _ _ _ _ _ Hk1 pip b Hbl Hn Hd Hc ltac:(done)) as (b1&Hb1&N1&D1&C1). destruct o as [i|].
  - destruct Ho as (bi&Hbi&Di&_&Ci&Mi&Ai&_&Ri&_&Vi&_). rewrite (rd_ok _ _ _ Hb1), !bind_ok. assert (i_num bi <> 0) as Ni by (unfold ROOTINO in *; lia).
    assert (stage c1 lt1 s1 fl i bi) as Hst by (constructor; [exact (tidied Hk1)|done..]). set (g := i_gid (i_in b1)). set (f := fun ip s0 => r ← iupdat (new_node mode cmask g cr ip) true s0; Ok (fst r)).
    assert (exists s2 ip2, f (i_in bi) s1 = Ok (s2, ip2) /\ worked s1 fl bi s2 fl ip2) as (s2&ip2&Ef&W).
    { destruct (node_worked c1 lt1 s1 fl i bi mode cmask g cr Hst Mi Hmask) as [W0 _]; [unfold ROOTINO in *; lia|]. destruct (stage_next _ _ _ _ _ _ _ _ _ Hst W0) as [c2 Hst2].
      destruct (flush_worked c2 lt1 s1 fl i _ (fnow s1) (fnow s1) true Hst2) as (s2&ip2&E2&W2&_). cbn [set_in i_in] in E2. exists s2, ip2. unfold f, iupdat. rewrite E2, bind_ok. split; [done|]. by eapply worked_trans. }
    destruct (work_keeps c1 lt1 s1 fl i bi f s2 fl ip2 Hst Ef W) as (c2&->&_&Hk2). rewrite !bind_ok. exists c2, lt1, s2, fl. split; [done|].
    eapply call_leaves; [eapply keeps_trans; [apply keeps_any, Hk1|exact Hk2]|]. intros m [= <-]. right. exact Vi.
  - destruct (put_keeps c1 lt1 s1 fl pip b1 (tidied Hk1) Hb1) as (c2&lt2&s2&fl2&->&Hk2); [congruence|done|done|]. rewrite !bind_ok. exists c2, lt2, s2, fl2. split; [done|]. rewrite N1 in Hk2.
    eapply (slot_leaves _ pip b); [exact Hb|done|]. eapply keeps_trans; [apply keeps_any, Hk1|exact Hk2].
Qed.

Lemma write_leaves i append_io unit_io fsize ruid off data : let r := Write i append_io unit_io fsize ruid off data in may c s r -> exists c' lt' s' fl', act c r = Ok c' /\ leaves r c s fl c' lt' s' fl'.
Proof.
  intros r (b&Hb&Hreg&Hbytes&Ho&Hend&Hz). destruct (write_worked _ lt _ fl i b append_io unit_io fsize ruid off data (stage_busy _ _ _ _ _ _ begin_tidy Hb) eq_refl Hreg Ho Hend Hbytes Hz) as (s'&ip'&off1&rest&e&fl'&E&W).
  set (f := fun ip s0 => r0 ← rwip_write append_io unit_io true fsize ruid ip off data s0; let '(s1, ip1, _, _, _) := r0 in Ok (s1, ip1)).
  destruct (work_leaves r i b f s' fl' ip' Hb eq_refl) as (c'&lt'&Ef&Hl); [unfold f; by rewrite E, bind_ok|exact W|]. by exists c', lt', s', fl'.
Qed.

Lemma setattr_leaves i sl cr va : let r := SetAttr i sl cr va in may c s r -> exists c' lt' s' fl', act c r = Ok c' /\ leaves r c s fl c' lt' s' fl'.
Proof.
  intros r [(b&Hb&Hk) Hsz]. destruct (setattr_worked _ lt _ fl i b sl cr va (stage_busy _ _ _ _ _ _ begin_tidy Hb) Hk Hsz) as (s'&fl'&ip'&e&E&W).
  set (f := fun ip s0 => r0 ← ufs_setattr sl cr ip va s0; Ok (fst r0)).
  destruct (work_leaves r i b f s' fl' ip' Hb eq_refl) as (c'&lt'&Ef&Hl); [unfold f; by rewrite E, bind_ok|exact W|]. by exists c', lt', s', fl'.
Qed.

Lemma nlink_range i b : busy c i b -> 0 <= i_nlink (i_in b) < 65536.
Proof. intros (Hb&Hn&Hd&_). apply (so_fits _ _ (ty_slot _ _ _ _ _ Ht i b Hb Hn Hd)). Qed.

Lemma link_leaves i : may c s (Link i) -> exists c' lt' s' fl', act c (Link i) = Ok c' /\ leaves (Link i) c s fl c' lt' s' fl'.
Proof.
  intros (b&Hb&Hm&Hl). pose proof (nlink_range _ _ Hb) as Hr. pose proof (stage_busy _ _ _ _ _ _ begin_tidy Hb) as Hst. pose proof (nlink_worked _ _ _ _ _ _ (i_nlink (i_in b) + 1) Hst Hm ltac:(lia) ltac:(lia)) as W0.
  destruct (stage_next _ _ _ _ _ _ _ _ _ Hst W0) as [c2 Hst2]. destruct (flush_worked c2 lt _ fl i _ (time c) (time c) true Hst2) as (s2&ip2&E2&W2&_). cbn [set_in i_in] in E2.
  destruct (work_leaves (Link i) i b link_more s2 fl ip2 Hb eq_refl) as (c'&lt'&Ef&Hlv); [|by eapply worked_trans|by exists c', lt', s2, fl].
  unfold link_more, iupdat. rewrite trunc_small by lia. assert (fnow (with_err s 0) = time c) as -> by exact (proj1 (hand_frame _ _ (ty_hand _ _ _ _ _ begin_tidy))). by rewrite E2, bind_ok.
Qed.

Lemma unlink_leaves i : may c s (Unlink i) -> exists c' lt' s' fl', act c (Unlink i) = Ok c' /\ leaves (Unlink i) c s fl c' lt' s' fl'.
Proof.
  intros (b&Hb&Hm&Hl). pose proof (nlink_range _ _ Hb) as Hr. pose proof (stage_busy _ _ _ _ _ _ begin_tidy Hb) as Hst.
  assert (W : worked (with_err s 0) fl b (with_err s 0) fl (mark (set_inlink (i_in b) (i_nlink (i_in b) - 1)) ICHG)).
  { apply (nlink_worked _ _ _ _ _ _ _ Hst Hm); [destruct (_ =? ROOTINO); lia|intros E; rewrite E, Z.eqb_refl in Hl; lia]. }
  set (ip' := mark _ _) in W. destruct (fun E => work_leaves (Unlink i) i b link_less (with_err s 0) fl ip' Hb eq_refl E W) as (c'&lt'&Ef&Hlv); [|by exists c', lt', (with_err s 0), fl].
  unfold link_less. rewrite trunc_small; [done|]. destruct (_ =? ROOTINO); lia.
Qed.

(** The calls as a whole. *)
Lemma act_leaves r : may c s r -> exists c' lt' s' fl', act c r = Ok c' /\ leaves r c s fl c' lt' s' fl'.
Proof.
  destruct r; [apply get_leaves|..|apply make_leaves|apply write_leaves|apply setattr_leaves|apply link_leaves|apply unlink_leaves]; intros (b&Hb); assert (Hb' := Hb); destruct Hb' as (Hbl&Hn&Hd&Hc); cbn [act].
  - destruct (iunlock_keeps None _ lt _ fl i b begin_tidy Hbl Hn Hd Hc) as (c'&->&_&Hk). exists c', lt, (with_err s 0), fl. split; [done|]. by apply (call_leaves _ None).
  - destruct (put_keeps _ lt _ fl i b begin_tidy Hbl Hn Hd Hc) as (c'&lt'&s'&fl'&->&Hk). exists c', lt', s', fl'. split; [done|]. by eapply slot_leaves.
  - destruct (rele_keeps _ lt _ fl i b begin_tidy Hbl Hn Hd Hc) as (c'&lt'&s'&fl'&->&Hk). exists c', lt', s', fl'. split; [done|]. by eapply slot_leaves.
Qed.

End calls.

(** Calls one after the other, each within its terms when it is made. *)
Inductive in_terms : icore D -> list request -> Prop :=
  | in_terms_nil c : in_terms c []
  | in_terms_cons c s r rs : at_hand c s -> may c s r -> (forall c', act c r = Ok c' -> in_terms c' rs) -> in_terms c (r :: rs).

(** C39. A system call on a tidy file system within its terms — a lookup of an
    allocated inode, an unlock, a release, a file made, bytes written, the
    attributes changed, a link more or less, on slots in use — returns. The
    file system is tidy after it; every block belongs to a file or is free,
    just as before, so none is lost, shared or both; and every other allocated
    file is the same, with the contents of all its blocks, wherever its inode
    is: in core or on the device. *)
Theorem call_leaves_tidy c lt s fl r : tidy_but None c lt s fl -> may c s r -> exists c' lt' s' fl', act c r = Ok c' /\ leaves r c s fl c' lt' s' fl'.
Proof. intros Ht. exact (act_leaves c lt s fl Ht r). Qed.

Lemma run_tidy c rs : in_terms c rs -> forall lt s fl, tidy_but None c lt s fl ->
  exists c' lt' s' fl', acts rs c = Ok c' /\ tidy_but None c' lt' s' fl' /\ in_files c' s' ++ fl' ≡ₚ in_files c s ++ fl.
Proof.
  induction 1 as [c|c s0 r rs Ha Hm _ IH]; intros lt s fl Ht; cbn [acts]; [by exists c, lt, s, fl|].
  assert (s0 = s) as -> by (pose proof (ty_hand _ _ _ _ _ Ht) as Ha'; unfold Fstidy.at_hand in Ha, Ha'; congruence).
  destruct (act_leaves c lt s fl Ht r Hm) as (c1&lt1&s1&fl1&E&[T P _ _]). rewrite E, bind_ok. destruct (IH c1 E lt1 s1 fl1 T) as (c'&lt'&s'&fl'&E'&T'&P'). exists c', lt', s', fl'. split; [exact E'|]. split; [exact T'|]. by rewrite P'.
Qed.

(** C40. From a tidy file system, any sequence of system calls, each within its
    terms when its turn comes, runs to its end and leaves a tidy file system:
    the blocks of the files and the free blocks are together those of the
    beginning, and each belongs to one file or is free once. *)
Theorem client_tidy c rs lt s fl : in_terms c rs -> tidy_but None c lt s fl ->
  exists c' lt' s' fl', acts rs c = Ok c' /\ tidy_but None c' lt' s' fl' /\ in_files c' s' ++ fl' ≡ₚ in_files c s ++ fl /\ NoDup (in_files c' s' ++ fl').
Proof.
  intros Hi Ht. destruct (run_tidy c rs Hi lt s fl Ht) as (c'&lt'&s'&fl'&E&T&P). exists c', lt', s', fl'. split; [exact E|]. split; [exact T|]. split; [exact P|]. exact (rd_nodup _ _ _ (ty_ready _ _ _ _ _ T)).
Qed.

End client.

(** ** A file made, written to and deleted *)

Definition tiny_calls : list request :=
  [Get 2; Make 0 0x1A4 0x12 sample_cred; Write 1 false false 100000 5 0 (replicate 1500 7); Unlink 1; Put 1; Put 0].

(** The state after the first [n] calls. *)
Definition done_by (c : icore ramdisk) (r : request) : icore ramdisk := match act 0 0 c r with Ok c => c | _ => c end.
Definition tiny_after (n : nat) : icore ramdisk := foldl done_by tiny_core (take n tiny_calls).
Definition state_of (c : icore ramdisk) : fsys ramdisk := match sys_of (dev := 0) (k := 0) c with Some s => s | None => tiny_sys end.
Definition is_ok {A} (o : outcome A) : bool := match o with Ok _ => true | _ => false end.

Lemma in_terms_next n r rs : tiny_calls !! n = Some r -> is_ok (act 0 0 (tiny_after n) r) = true -> bool_decide (is_Some (sys_of (dev := 0) (k := 0) (tiny_after n))) = true ->
  may 0 (tiny_after n) (state_of (tiny_after n)) r -> in_terms 0 0 (tiny_after (S n)) rs -> in_terms 0 0 (tiny_after n) (r :: rs).
Proof.
  intros Hn H1 [s H2]%bool_decide_eq_true_1 Hm Hr. apply (in_terms_cons 0 0 _ (state_of (tiny_after n))); [unfold at_hand, state_of; by rewrite H2|exact Hm|].
  intros c' E. assert (tiny_after (S n) = done_by (tiny_after n) r) as H3 by (unfold tiny_after; by rewrite (take_S_r _ _ _ Hn), foldl_snoc). unfold done_by in H3. rewrite E in H3. by rewrite <- H3.
Qed.

(** A slot in use, from what it holds. *)
Definition busy_at (c : icore ramdisk) (i : nat) : option cinode := b ← inodes c !! i; if (i_num b =? 0) || negb (i_dev b =? 0) || (i_count b =? 0) then None else Some b.
Lemma busy_at_ok c i b : busy_at c i = Some b -> busy 0 c i b.
Proof.
  unfold busy_at, busy. destruct (inodes c !! i) as [b0|]; [|done]. cbn. destruct (Z.eqb_spec (i_num b0) 0); [done|]. destruct (Z.eqb_spec (i_dev b0) 0); [|done]. destruct (Z.eqb_spec (i_count b0) 0); [done|]. cbn. intros [= <-]. done.
Qed.
Lemma busy_ex c i : is_Some (busy_at c i) -> exists b, busy 0 c i b.
Proof. intros [b Hb%busy_at_ok]. by exists b. Qed.

Lemma tiny_start : tiny_after 0 = tiny_core.
Proof. unfold tiny_after. rewrite take_0. cbn [foldl]. reflexivity. Qed.

Lemma tiny_in_terms : in_terms 0 0 tiny_core tiny_calls.
Proof.
  rewrite <- tiny_start. unfold tiny_calls. repeat (apply in_terms_next; [reflexivity|vm_compute; reflexivity|vm_compute; reflexivity| |]); [..|apply in_terms_nil]; cbn [may].
  - rewrite tiny_start. split; [apply (bool_decide_eq_true_1 _); vm_compute; reflexivity|]. split; [apply (bool_decide_eq_true_1 _); vm_compute; reflexivity|]. split; [done|]. split; [vm_compute; discriminate|].
    intros i b Hb _ _. destruct (tiny_slots i b Hb) as (_&_&->&_). lia.
  - split; [reflexivity|]. apply busy_ex, (bool_decide_eq_true_1 _). vm_compute. reflexivity.
  - destruct (busy_at (tiny_after 2) 1) as [b|] eqn:E; [|vm_compute in E; discriminate]. exists b. split; [by apply busy_at_ok|]. vm_compute in E. injection E as <-. split; [reflexivity|]. split; [apply Forall_replicate; lia|].
    split; [vm_compute; discriminate|]. split; [vm_compute; reflexivity|]. right. split; [reflexivity|vm_compute; reflexivity].
  - destruct (busy_at (tiny_after 3) 1) as [b|] eqn:E; [|vm_compute in E; discriminate]. exists b. split; [by apply busy_at_ok|]. vm_compute in E. injection E as <-. split; [done|]. reflexivity.
  - apply busy_ex, (bool_decide_eq_true_1 _). vm_compute. reflexivity.
  - apply busy_ex, (bool_decide_eq_true_1 _). vm_compute. reflexivity.
Qed.

Lemma client_tidy_witness : exists c' lt' s' fl', acts 0 0 tiny_calls tiny_core = Ok c' /\ tidy_but (dev := 0) (k := 0) None c' lt' s' fl' /\
  length (all_blocks 0 (inodes c') (content (fdev s')) (inos (fsb s')) ++ fl') = 11%nat.
Proof.
  destruct (client_tidy 0 0 tiny_core tiny_calls [0%nat; 1%nat; 2%nat] tiny_sys demo_free tiny_in_terms tiny_tidy) as (c'&lt'&s'&fl'&E&T&P&_).
  exists c', lt', s', fl'. split; [exact E|]. split; [exact T|]. rewrite P, tiny_files. reflexivity.
Defined.

(** The first of them. *)
Lemma call_leaves_tidy_witness : exists c', act 0 0 tiny_core (Get 2) = Ok c' /\ i_count <$> inodes c' = [1; 0; 0].
Proof.
  destruct (call_leaves_tidy 0 0 tiny_core [0%nat; 1%nat; 2%nat] tiny_sys demo_free (Get 2) tiny_tidy) as (c'&_&_&_&E&_).
  - split; [apply (bool_decide_eq_true_1 _); vm_compute; reflexivity|]. split; [apply not_elem_of_nil|]. split; [done|]. split; [vm_compute; discriminate|].
    intros i b Hb _ _. destruct (tiny_slots i b Hb) as (_&_&->&_). lia.
  - exists c'. split; [exact E|]. assert (match act 0 0 tiny_core (Get 2) with Ok c => i_count <$> inodes c | _ => [] end = [1; 0; 0]) as Ev by (vm_compute; reflexivity). by rewrite E in Ev.
Defined.
